(* ===== verification/_CoqProject ===== *)
-Q . S2P
Prelude.v
Mem.v
Strings.v
Bio.v
Log.v
Memide.v
Crash.v
Admit.v
Cache.v
Block.v
Fs.v
FsAlloc.v
FsInode.v
FsRefs.v
FsName.v
FsBlocks.v
FsFile.v
FsPath.v
Pipe.v
Kalloc.v
Mp.v
Syscall.v
File.v
FileWrite.v
Sysfile.v
SysRefs.v
SysInv.v
SysSafe.v
Vm.v
VmSpace.v
VmUser.v
VmKernel.v
VmCopy.v
VmImage.v
Proc.v
User.v
Console.v
Elf.v
Exec.v
ExecRefs.v
SysProcs.v
ProcTable.v
ProcInv.v
ProcLive.v
ProcMem.v
ProcBoot.v
ExecPages.v
ProcFiles.v
Trap.v
TrapEffect.v
TrapSafe.v
Seg.v
Spin.v
SleepLock.v
Umalloc.v
Kbd.v
ExecPlan.v
ExecLoad.v
ExecMem.v
ExecCorrect.v
Mkfs.v
MkfsDisk.v
MkfsFiles.v
MkfsMain.v
MkfsBounds.v
MkfsCorrect.v
Boot.v
Rtc.v
Apic.v
Uart.v
Factor.v
Base64.v
Cmds.v
Split.v
Grep.v
Sh.v
ShPrint.v
Prog.v
ShRun.v
Init.v
