(* ===== verification/Prelude.v ===== *)
(** Verification of a teaching operating system: xv6 for the x86 with the commands
    clear, chmod, factor, split and base64 and a file mode in every inode.

    * The program and its model

    The kernel is layered: the disk driver (ide.c) under the buffer cache (bio.c),
    under the log (log.c), under the file system (fs.c), under the table of open
    files (file.c, pipe.c) and the file system calls (sysfile.c).  Beside it stand
    memory (kalloc.c, vm.c), processes (proc.c, exec.c) and locks (spinlock.c,
    sleeplock.c), and on top of all the dispatch of traps and system calls (trap.c,
    syscall.c, sysproc.c).  The console (console.c, kbd.c) is a device file.  mkfs.c
    makes the disk and bootmain.c loads the kernel from it.  User programs see only
    the system calls.

    C code is translated function by function, with the names of the source.  A
    32-bit integer is a [Z], with [u32] and [s32] wherever a value that may leave the
    range is stored in an object of that width.  Signed counters that grow without a
    bound in the code ([ref] of inodes and files, [nextpid]) have no defined result
    beyond the largest int; [ncli] of a CPU and [outstanding] of the log, which the
    depth of locking and the size of the log bound, are plain integers.  Kernel code runs in the state monad [M] below: its
    outcome is a value, a panic, [Sleep] when the code has to wait for another
    process, or [UB] for undefined behaviour (a null pointer, the end of an array,
    signed overflow where the code relies on it).  Code that several CPUs run at
    once is a step relation instead (Spin, SleepLock, ProcInv, Trap, Admit,
    Pipe).

    - Prelude: machine integers, bytes, the monad, lists.
    - Mem: memory as bytes at addresses, the mem functions of string.c.  Strings:
      the str functions of string.c and of ulib.c.
    - Bio: ide.c and bio.c.  Log: log.c.  Crash, Admit, Cache: their theorems.
      Memide: memide.c, the disk in memory that can stand for ide.c.
    - Block: the classes [BlockIO] and [BlockLaws], what the file system may use
      of the layers below; the instance [log_laws] discharges them for bio.c and
      log.c inside a transaction, [read_laws] for reads outside one.
    - Fs: fs.c, against [BlockIO].  FsAlloc, FsInode, FsRefs, FsName, FsBlocks,
      FsFile and FsPath: its theorems, against [BlockLaws].
    - Pipe: pipe.c.  Kalloc: kalloc.c.  Syscall: the arguments of system calls
      (syscall.c).  File: file.c.  FileWrite: the write call on a file.
    - Sysfile: sysfile.c.  SysRefs, SysInv, SysSafe, ExecRefs, SysProcs: references
      to inodes, files and pipes over all calls and all processes.
    - Vm: vm.c.  VmSpace, VmUser, VmKernel, VmCopy, VmImage: address spaces.
    - Elf: elf.h.  Exec: exec.c.  ExecPlan: what the bytes of a file and the
      arguments ask for.  ExecLoad, ExecMem, ExecCorrect: that exec does it.
      ExecPages: where its pages go, for any file and any failure.
    - Proc: proc.c, over the class [ProcEnv] (the files of a process, its file system
      calls and exec), with fork, allocproc and exit in the parts between which other
      CPUs run.  ProcTable, ProcInv, ProcLive: the process table on several CPUs.
      ProcMem, ProcBoot: who owns which page, against the laws [ProcEnvLaws].
      ProcFiles: file.c, sysfile.c and exec.c as an instance that keeps them.
    - Trap: trap.c, sysproc.c and the dispatch of syscall.c, over the class
      [Handlers] (file system calls in parts, devices).  TrapEffect, TrapSafe: its
      theorems, against [HandlersLaws], and at its end the calls of Sysfile and exec as
      an instance, each in one part.
    - Seg: the descriptors of segments and gates (mmu.h, seginit, tvinit).  Mp: mp.c.
    - Console: console.c.  Kbd: kbd.c.
    - Mkfs: mkfs.c, over a record of what the host does.  MkfsDisk, MkfsFiles,
      MkfsMain, MkfsBounds, MkfsCorrect: its theorems, in terms of Fs.
    - Boot: bootmain.c, over the class [Ports] with the laws [Drive].
    - Rtc, Apic: lapic.c, ioapic.c and picirq.c.  Uart: uart.c, under the console.
      The chips are classes of ports and registers with laws from their manuals.
    - Spin: spinlock.c at the grain of single stores.  SleepLock: sleeplock.c with
      sleep and wakeup of proc.c.
    - User: printf.c and the class [OS] of system calls with its laws [OSLaws].
      Factor, Base64, Split, Grep, Cmds: the commands.  Umalloc: umalloc.c.
    - Sh, ShPrint: the parser of the shell (sh.c).  Prog: processes as the system
      calls they make, and the table of descriptors.  ShRun: the shell runs
      commands.  Init: init.c.

    * What is shown

    - Storage.  A file system call is atomic: after a crash between any two sector
      writes, recovery gives the state before or after it ([transaction_atomic]),
      also if recovery itself crashes ([recovery_idempotent]).
      Calls that begin_op admits never overflow a log of the size it assumes, but
      can overflow the log that mkfs makes ([log_write_admitted],
      [log_write_mkfs_panics]).  The cache is an array of blocks
      ([cache_refines_array]).
    - File system.  Allocation and freeing of blocks ([balloc_correct],
      [bfree_correct]); reading and writing of files against their contents as
      lists of bytes ([readi_correct], [writei_correct]); path names against the
      directories on the disk ([path_lookup_correct]); a long write is a sequence
      of atomic ones, so that a crash leaves a prefix ([filewrite_crash_safe]);
      the mode ([chmod_correct]); references in the inode cache
      ([icache_refcounts]) and over all calls of all processes
      ([references_conserved]), where chmod is the exception
      ([chmod_leaks_reference]).  The image that mkfs builds is a tree that the
      kernel reads ([mkfs_correct]), and it is built exactly when it fits
      ([mkfs_bounds]).
    - Memory.  Pages are given out once ([kalloc_exclusive]); every page has one
      owner from boot on, whatever fork, exec, pipes and exit do
      ([process_pages_conserved], [pages_accounted]); the kernel
      half of every address space is the same ([setupkvm_kernel_half]); fork copies
      memory, sbrk changes its size ([fork_copies_memory], [growproc_correct]);
      pointers in system calls are checked ([user_pointers_checked]); exec builds
      the memory that the file and the arguments plan, or leaves the process as it
      was ([exec_correct]); the boot loader puts the kernel in place
      ([bootmain_correct]).
    - Processes and locks.  The invariant of the process table in every reachable
      state ([process_table_safe]); every runnable process runs within one round
      ([scheduler_fair]); kill(0) ([kill_zero_dooms_child]); mutual exclusion,
      no lost wakeup and no deadlock of locks ([spin_locks_safe],
      [sleep_locks_safe]); pipes are queues ([pipe_fifo]).  Traps keep the table
      consistent, never let a killed process back into user mode, and make sleep
      last as long as asked ([traps_safe]); a user program can enter the kernel by
      itself only with the system call ([gates_protect]).  mpinit finds the
      processors that the table of the firmware lists ([mpinit_finds]).
    - Console.  Input is a line editor in front of the text that reads take, and
      the screen shows what was written ([console_correct]); typed lines arrive
      ([typed_line_read]); the serial port sends and receives what the console says
      ([uartputc_refines], [uartintr_delivers]).
    - Devices.  A line of the I/O APIC is masked until it is enabled, and then reaches
      one CPU with the vector that trap expects ([ioapicenable_opens]); another CPU
      starts at the address it is given ([startap_enters]); the date that cmostime
      returns is one that the clock showed ([stable_date_real]).
    - Commands.  What the commands write, given what they read, and where they
      are wrong.  malloc and free ([malloc_free_correct]).  The shell's parser ends
      on every line ([parsecmd_total]), and reads back every command that is
      written out ([show_then_parse]); the shell starts the programs of each line
      with the descriptors it asks for and leaks no pipe ([shell_correct]).

    * Fuel

    A loop that is not structural takes fuel, and running out of it is [UB], so
    that a theorem that a call returns shows that the fuel is enough.  Kernel
    loops compute their fuel from their bound (a byte count, a file size, the
    number of blocks or inodes, the length of a path or a line).  Loops of user
    programs that read until end of file take it as an argument, and the theorems
    say how much is enough in terms of the input.

    * Not modelled

    - Hardware: the loading of segment, gate and page-table registers, the start of
      the machine before bootmain, main.c, assembly.  The disk is a map of sectors in
      which a sector write is atomic.
    - Device drivers behind [devsw] are a parameter of file.c and fs.c; the file
      system calls are a class in Trap.  The instances in ProcFiles and TrapSafe run
      a call of sysfile.c or exec without giving up the CPU and leave out the wakeups
      of other processes, which the class allows.  In Trap and TrapSafe fork and exit
      are one step each; ProcInv has their parts.
    - Messages of the kernel on errors, and procdump.
    - Test programs (usertests.c, forktest.c, stressfs.c) and zombie.c: they check
      the parts above and have no purpose of their own. *)

From stdpp Require Export base strings numbers gmap list sorting.
#[global] Set Default Goal Selector "!".
Local Open Scope Z_scope.

(** * Machine integers

    C integers are [Z]; every place where the source stores a value in a
    [w]-bit object applies the conversion of that object's type. *)

Definition u8 (x : Z) : Z := x mod 256.
Definition u16 (x : Z) : Z := x mod 65536.
Definition u32 (x : Z) : Z := x mod 4294967296.
Definition s8 (x : Z) : Z := (x + 128) mod 256 - 128.
Definition s16 (x : Z) : Z := (x + 32768) mod 65536 - 32768.
Definition s32 (x : Z) : Z := (x + 2147483648) mod 4294967296 - 2147483648.

Definition INT_MAX : Z := 2147483647.

(** [divmod] reduces goals about [/] and [mod] by literals to [lia]. *)
Ltac divmod := Z.to_euclidean_division_equations; lia.
Ltac ints := unfold u8, u16, u32, s8, s16, s32, INT_MAX in *; divmod.

Lemma u32_small x : 0 <= x < 4294967296 -> u32 x = x.
Proof. intros; unfold u32; apply Z.mod_small; lia. Qed.

Lemma s32_small x : -2147483648 <= x <= 2147483647 -> s32 x = x.
Proof. intros; ints. Qed.

Lemma u32_range x : 0 <= u32 x < 4294967296.
Proof. ints. Qed.

Lemma s32_range x : -2147483648 <= s32 x <= 2147483647.
Proof. ints. Qed.

Lemma s32_u32 x : s32 (u32 x) = s32 x.
Proof. ints. Qed.

Lemma u32_s32 x : u32 (s32 x) = u32 x.
Proof. ints. Qed.

(** * Outcomes and the state monad

    [Ok] carries the result and the new state; [Panic] is the kernel's
    [panic(msg)]; [Sleep] is a call that would wait for an event nobody but
    another process can cause; [UB] is undefined behaviour of C (an array
    accessed out of bounds, an unterminated string, signed overflow where the
    source relies on its absence). *)

Inductive outcome (A : Type) : Type :=
| Ok (a : A)
| Panic (msg : string)
| Sleep
| UB.
Arguments Ok {A} a.
Arguments Panic {A} msg.
Arguments Sleep {A}.
Arguments UB {A}.

Definition M (S A : Type) : Type := S -> outcome (A * S).

Declare Scope kernel_scope.
Delimit Scope kernel_scope with kernel.
Open Scope kernel_scope.

Section Monad.
  Context {S A B : Type}.

Definition ret (a : A) : M S A := fun s => Ok (a, s).

Definition bind (m : M S A) (k : A -> M S B) : M S B := fun s =>
  match m s with
  | Ok (a, s') => k a s'
  | Panic msg => Panic msg
  | Sleep => Sleep
  | UB => UB
  end.

Definition panic (msg : string) : M S A := fun _ => Panic msg.

Definition sleep : M S A := fun _ => Sleep.

Definition undefined : M S A := fun _ => UB.
End Monad.

Definition gets {S A} (f : S -> A) : M S A := fun s => Ok (f s, s).

Definition modify {S} (f : S -> S) : M S unit := fun s => Ok (tt, f s).

Notation "'let!' x ':=' m 'in' k" := (bind m (fun x => k))
  (at level 10, x name, m at level 100, k at level 200,
   format "'[v' 'let!'  x  ':='  m  'in' '/' k ']'") : kernel_scope.
Notation "'do!' m 'in' k" := (bind m (fun _ => k))
  (at level 10, m at level 100, k at level 200,
   format "'[v' 'do!'  m  'in' '/' k ']'") : kernel_scope.

Definition when {S} (b : bool) (m : M S unit) : M S unit := if b then m else ret tt.

(** A pure computation that can fail. *)
Definition lift {S A} (o : outcome A) : M S A :=
  match o with
  | Ok a => ret a
  | Panic msg => panic msg
  | Sleep => sleep
  | UB => undefined
  end.

(** Run an operation of a component on the part of a larger state that
    belongs to the component. *)
Definition zoom {S T A} (get : S -> T) (put : T -> S -> S) (m : M T A) : M S A :=
  fun s => match m (get s) with
           | Ok (a, t) => Ok (a, put t s)
           | Panic msg => Panic msg
           | Sleep => Sleep
           | UB => UB
           end.

Lemma bind_Ok {S A B} (m : M S A) (k : A -> M S B) s a s' :
  m s = Ok (a, s') -> bind m k s = k a s'.
Proof. unfold bind; intros ->; reflexivity. Qed.

Lemma bind_Ok_inv {S A B} (m : M S A) (k : A -> M S B) s r :
  bind m k s = Ok r -> exists a s', m s = Ok (a, s') /\ k a s' = Ok r.
Proof.
  unfold bind; destruct (m s) as [[a s']|?| |] eqn:E; try discriminate; eauto.
Qed.

Lemma bind_assoc {S A B C} (m : M S A) (f : A -> M S B) (g : B -> M S C) s :
  bind (bind m f) g s = bind m (fun a => bind (f a) g) s.
Proof. unfold bind; destruct (m s) as [[]|?| |]; reflexivity. Qed.

Lemma zoom_Ok {S T A} (get : S -> T) put (m : M T A) s a t :
  m (get s) = Ok (a, t) -> zoom get put m s = Ok (a, put t s).
Proof. unfold zoom; intros ->; reflexivity. Qed.

(** Concrete runs: does a call return, with what, in which state. *)
Definition is_ok {A} (o : outcome A) : bool := match o with Ok _ => true | _ => false end.
Definition endstate {S A} (m : M S A) (s : S) : S := match m s with Ok (_, s') => s' | _ => s end.

Lemma endstate_Ok {S A} (m : M S A) s : is_ok (m s) = true -> exists a, m s = Ok (a, endstate m s).
Proof. unfold endstate. destruct (m s) as [[a s']|?| |]; [eauto|done..]. Qed.

Definition result {S A} (m : M S A) (s : S) : option A := match m s with Ok (a, _) => Some a | _ => None end.

Lemma result_Ok {S A} (m : M S A) s a : result m s = Some a -> m s = Ok (a, endstate m s).
Proof. unfold result, endstate. destruct (m s) as [[? ?]|?| |]; congruence. Qed.

Lemma result_inj {S A} (m : M S A) s a b s' : result m s = Some b -> m s = Ok (a, s') -> a = b.
Proof. unfold result. intros Hr E. rewrite E in Hr. congruence. Qed.

(** [mstep H] runs the head of a bind with the equation [H]. *)
Ltac mstep H := rewrite (bind_Ok _ _ _ _ _ H).

Ltac munfold := unfold gets, modify, ret, panic, sleep, undefined in *.

(** [minv H] decomposes a successful run of a bind. *)
Ltac minv H :=
  let a := fresh "a" in let s := fresh "s" in let E := fresh "E" in
  apply bind_Ok_inv in H; destruct H as (a & s & E & H).

(** * Byte arrays

    An array of bytes is a list of values in [0, 255].  Reads of total lookup
    are only used where the index is in range, which the definitions check
    when the source does not guarantee it. *)

Notation bytes := (list Z).

Definition byte_ok (b : Z) : Prop := 0 <= b < 256.

Definition getb (l : bytes) (i : Z) : Z := l !!! Z.to_nat i.
Definition setb (l : bytes) (i v : Z) : bytes := <[Z.to_nat i := v]> l.

(** [memmove(dst + off, src, |src|)] on the contents of [dst]. *)
Definition splice {A} (l : list A) (off : nat) (src : list A) : list A :=
  take off l ++ src ++ drop (off + length src) l.

Lemma length_splice {A} (l : list A) off src :
  (off + length src <= length l)%nat -> length (splice l off src) = length l.
Proof. intros; unfold splice; rewrite !length_app, length_take, length_drop; lia. Qed.

Lemma splice_lookup_in {A} (l : list A) off src i :
  (off + length src <= length l)%nat -> (off <= i < off + length src)%nat ->
  splice l off src !! i = src !! (i - off)%nat.
Proof.
  intros Hl Hi; unfold splice.
  rewrite lookup_app_r; rewrite length_take; [|lia].
  rewrite lookup_app_l by lia; f_equal; lia.
Qed.

Lemma splice_lookup_out {A} (l : list A) off src i :
  (off + length src <= length l)%nat -> ~ (off <= i < off + length src)%nat ->
  splice l off src !! i = l !! i.
Proof.
  intros Hl Hi; unfold splice; destruct (decide (i < off)%nat).
  - rewrite lookup_app_l by (rewrite length_take; lia).
    rewrite lookup_take_lt by lia; reflexivity.
  - rewrite lookup_app_r; rewrite length_take; [|lia].
    rewrite lookup_app_r by lia; rewrite lookup_drop; f_equal; lia.
Qed.

Lemma splice_full {A} (l src : list A) : length src = length l -> splice l 0 src = src.
Proof.
  intros H; unfold splice; rewrite take_0; simpl.
  rewrite drop_ge by lia; apply app_nil_r.
Qed.

(** [l[off .. off+n)] *)
Definition slice {A} (l : list A) (off n : nat) : list A := take n (drop off l).

Lemma length_slice {A} (l : list A) off n :
  (off + n <= length l)%nat -> length (slice l off n) = n.
Proof. intros; unfold slice; rewrite length_take, length_drop; lia. Qed.

Lemma slice_lookup {A} (l : list A) off n i :
  (i < n)%nat -> slice l off n !! i = l !! (off + i)%nat.
Proof. intros; unfold slice; rewrite lookup_take_lt, lookup_drop by lia; reflexivity. Qed.

Lemma slice_splice_same {A} (l : list A) off src :
  (off + length src <= length l)%nat ->
  slice (splice l off src) off (length src) = src.
Proof.
  intros H; apply list_eq; intros i; destruct (decide (i < length src)%nat).
  - rewrite slice_lookup, splice_lookup_in by lia; f_equal; lia.
  - rewrite !lookup_ge_None_2; rewrite ?length_slice; rewrite ?length_splice; lia || done.
Qed.

Lemma slice_splice_other {A} (l : list A) off src off' n :
  (off + length src <= length l)%nat -> (off' + n <= length l)%nat ->
  (off' + n <= off \/ off + length src <= off')%nat ->
  slice (splice l off src) off' n = slice l off' n.
Proof.
  intros H H' Hd; apply list_eq; intros i; destruct (decide (i < n)%nat).
  - rewrite !slice_lookup, splice_lookup_out by lia; reflexivity.
  - rewrite !lookup_ge_None_2; rewrite ?length_slice; rewrite ?length_splice; lia || done.
Qed.

(** * Little-endian values in byte arrays (x86 memory layout) *)

Fixpoint le_bytes (n : nat) (x : Z) : bytes :=
  match n with
  | O => []
  | S n' => x mod 256 :: le_bytes n' (x / 256)
  end.

Fixpoint le_val (bs : bytes) : Z :=
  match bs with
  | [] => 0
  | b :: bs' => b + 256 * le_val bs'
  end.

Lemma length_le_bytes n x : length (le_bytes n x) = n.
Proof. revert x; induction n; simpl; auto. Qed.

Lemma le_bytes_ok n x : Forall byte_ok (le_bytes n x).
Proof.
  revert x; induction n; intros; simpl; constructor; auto.
  unfold byte_ok; divmod.
Qed.

Lemma le_val_bytes n x : le_val (le_bytes n x) = x mod 256 ^ Z.of_nat n.
Proof.
  revert x; induction n as [|n IH]; intros x; simpl.
  - rewrite Z.mod_1_r; reflexivity.
  - rewrite IH, Nat2Z.inj_succ, Z.pow_succ_r by lia.
    rewrite Z.rem_mul_r by lia; lia.
Qed.

Lemma le_val_range bs : Forall byte_ok bs -> 0 <= le_val bs < 256 ^ Z.of_nat (length bs).
Proof.
  induction 1 as [|b bs Hb _ IH]; simpl length; simpl le_val.
  - simpl; lia.
  - rewrite Nat2Z.inj_succ, Z.pow_succ_r by lia; unfold byte_ok in Hb; lia.
Qed.

Lemma le_bytes_val bs : Forall byte_ok bs -> le_bytes (length bs) (le_val bs) = bs.
Proof.
  induction 1 as [|b bs Hb _ IH]; simpl; [reflexivity|].
  unfold byte_ok in Hb; f_equal; [divmod|].
  replace ((b + 256 * le_val bs) / 256) with (le_val bs) by divmod; exact IH.
Qed.

Definition ld (n : nat) (l : bytes) (off : nat) : Z := le_val (slice l off n).
Definition st (n : nat) (l : bytes) (off : nat) (v : Z) : bytes := splice l off (le_bytes n v).

Lemma length_st n l off v : (off + n <= length l)%nat -> length (st n l off v) = length l.
Proof. intros; unfold st; apply length_splice; rewrite length_le_bytes; lia. Qed.

Lemma ld_range n d off : Forall byte_ok d -> 0 <= ld n d off < 256 ^ Z.of_nat n.
Proof.
  intros Hd. unfold ld, slice. assert (Forall byte_ok (take n (drop off d))) as Hf
    by (apply Forall_take, Forall_drop, Hd).
  pose proof (le_val_range _ Hf) as Hr.
  assert (length (take n (drop off d)) <= n)%nat as Hl by (rewrite length_take; lia).
  split; [lia|]. eapply Z.lt_le_trans; [apply Hr|]. apply Z.pow_le_mono_r; lia.
Qed.

Lemma ld_st_same n l off v :
  (off + n <= length l)%nat -> ld n (st n l off v) off = v mod 256 ^ Z.of_nat n.
Proof.
  intros; unfold ld, st.
  rewrite <- (length_le_bytes n v) at 2.
  rewrite slice_splice_same by (rewrite length_le_bytes; lia); apply le_val_bytes.
Qed.

Lemma ld_st_other n l off v n' off' :
  (off + n <= length l)%nat -> (off' + n' <= length l)%nat ->
  (off' + n' <= off \/ off + n <= off')%nat ->
  ld n' (st n l off v) off' = ld n' l off'.
Proof.
  intros; unfold ld, st; rewrite slice_splice_other; rewrite ?length_le_bytes; auto.
Qed.

Lemma Forall_splice {A} (P : A -> Prop) l off src :
  Forall P l -> Forall P src -> Forall P (splice l off src).
Proof.
  intros Hl Hs; unfold splice; repeat apply Forall_app_2; auto using Forall_take, Forall_drop.
Qed.
