(* ===== verification/Mem.v ===== *)
(** Memory as bytes at 32-bit addresses, and the memory half of string.c:
    memset, memcmp, memmove, memcpy. *)

From S2P Require Import Prelude.
Local Open Scope Z_scope.

Abbreviation mem := (gmap Z Z).

Definition mget (m : mem) (a : Z) : Z := default 0 (m !! a).
Definition mset (m : mem) (a v : Z) : mem := <[a := v]> m.

Definition mread (m : mem) (a : Z) (n : nat) : bytes := (fun i => mget m (a + Z.of_nat i)) <$> seq 0 n.

Fixpoint mwrite (m : mem) (a : Z) (l : bytes) : mem :=
  match l with
  | [] => m
  | c :: l' => mwrite (mset m a c) (a + 1) l'
  end.

(** 32-bit little-endian words *)
Definition ld32 (m : mem) (a : Z) : Z := le_val (mread m a 4).
Definition st32 (m : mem) (a v : Z) : mem := mwrite m a (le_bytes 4 v).

Lemma mget_mset m a v x : mget (mset m a v) x = if decide (x = a) then v else mget m x.
Proof.
  unfold mget, mset. destruct (decide (x = a)) as [->|]; [by rewrite lookup_insert_eq|].
  by rewrite lookup_insert_ne.
Qed.

Lemma mget_mwrite m a l x :
  mget (mwrite m a l) x =
  if decide (a <= x < a + Z.of_nat (length l)) then l !!! Z.to_nat (x - a) else mget m x.
Proof.
  revert m a; induction l as [|c l IH]; intros m a; cbn [mwrite].
  { rewrite decide_False; [done|simpl; lia]. }
  rewrite IH, mget_mset. cbn [length]. repeat case_decide; try lia; subst.
  - replace (Z.to_nat (x - a)) with (S (Z.to_nat (x - (a + 1)))) by lia. done.
  - by rewrite Z.sub_diag.
Qed.

Lemma length_mread m a n : length (mread m a n) = n.
Proof. unfold mread; by rewrite length_fmap, length_seq. Qed.

Lemma mread_lookup m a n i : (i < n)%nat -> mread m a n !!! i = mget m (a + Z.of_nat i).
Proof.
  intros Hi. apply list_lookup_total_correct. unfold mread.
  by rewrite list_lookup_fmap, lookup_seq_lt.
Qed.

Lemma mread_ext m m' a a' n :
  (forall i, 0 <= i < Z.of_nat n -> mget m (a + i) = mget m' (a' + i)) -> mread m a n = mread m' a' n.
Proof.
  intros H. apply list_fmap_ext. intros i j [-> Hj]%lookup_seq. apply H; lia.
Qed.

Lemma mread_mwrite_same m a l : mread (mwrite m a l) a (length l) = l.
Proof.
  apply list_eq; intros i. unfold mread. rewrite list_lookup_fmap.
  destruct (decide (i < length l)%nat) as [Hi|Hi].
  - rewrite lookup_seq_lt by done; simpl. rewrite mget_mwrite, decide_True by lia.
    replace (Z.to_nat _) with i by lia. symmetry. by apply list_lookup_lookup_total_lt.
  - rewrite lookup_seq_ge by lia. symmetry; apply lookup_ge_None_2; lia.
Qed.

Lemma mread_mwrite_other m a l b n :
  b + Z.of_nat n <= a \/ a + Z.of_nat (length l) <= b -> mread (mwrite m a l) b n = mread m b n.
Proof. intros H; apply mread_ext; intros i Hi. rewrite mget_mwrite, decide_False; [done|lia]. Qed.

Lemma ld32_st32_same m a v : 0 <= v < 4294967296 -> ld32 (st32 m a v) a = v.
Proof.
  intros Hv. unfold ld32, st32. rewrite <- (length_le_bytes 4 v) at 2.
  rewrite mread_mwrite_same, le_val_bytes. apply Z.mod_small; done.
Qed.

Lemma ld32_st32_other m a v b : b + 4 <= a \/ a + 4 <= b -> ld32 (st32 m a v) b = ld32 m b.
Proof.
  intros H; unfold ld32, st32. rewrite mread_mwrite_other; [done|]. rewrite length_le_bytes; lia.
Qed.

Lemma ld32_frame m m' a : (forall x, a <= x < a + 4 -> mget m' x = mget m x) -> ld32 m' a = ld32 m a.
Proof. intros H. unfold ld32. f_equal. apply mread_ext. intros i Hi. apply H. lia. Qed.

Lemma mget_st32 m a v x : ~ (a <= x < a + 4) -> mget (st32 m a v) x = mget m x.
Proof. intros H. unfold st32. rewrite mget_mwrite, length_le_bytes. rewrite decide_False; [done|lia]. Qed.

(** * x86.h: rep stosb, rep stosl *)

Definition stosb (m : mem) (addr data : Z) (cnt : nat) : mem := mwrite m addr (replicate cnt (u8 data)).

Fixpoint stosl (m : mem) (addr data : Z) (cnt : nat) : mem :=
  match cnt with
  | O => m
  | S cnt' => stosl (st32 m addr (u32 data)) (addr + 4) data cnt'
  end.

(** * string.c *)

Definition memset (m : mem) (dst c n : Z) : mem :=
  if (Z.rem (s32 dst) 4 =? 0) && (n mod 4 =? 0) then
    let c := Z.land c 255 in
    stosl m dst (Z.lor (Z.lor (Z.lor (Z.shiftl c 24) (Z.shiftl c 16)) (Z.shiftl c 8)) c) (Z.to_nat (n / 4))
  else stosb m dst c (Z.to_nat n).

Fixpoint memcmp (m : mem) (s1 s2 : Z) (n : nat) : Z :=
  match n with
  | O => 0
  | S n' => if mget m s1 =? mget m s2 then memcmp m (s1 + 1) (s2 + 1) n' else mget m s1 - mget m s2
  end.

Fixpoint copy_backward (m : mem) (d s : Z) (n : nat) : mem :=
  match n with
  | O => m
  | S n' => copy_backward (mset m (d - 1) (mget m (s - 1))) (d - 1) (s - 1) n'
  end.

Fixpoint copy_forward (m : mem) (d s : Z) (n : nat) : mem :=
  match n with
  | O => m
  | S n' => copy_forward (mset m d (mget m s)) (d + 1) (s + 1) n'
  end.

Definition memmove (m : mem) (dst src n : Z) : mem :=
  if (src <? dst) && (u32 (src + n) >? dst)
  then copy_backward m (dst + n) (src + n) (Z.to_nat n)
  else copy_forward m dst src (Z.to_nat n).

Definition memcpy (m : mem) (dst src n : Z) : mem := memmove m dst src n.

(** ** memmove *)

Lemma copy_backward_get m d s n x :
  s <= d ->
  mget (copy_backward m d s n) x =
  if decide (d - Z.of_nat n <= x < d) then mget m (x - d + s) else mget m x.
Proof.
  revert m d s; induction n as [|n IH]; intros m d s Hsd; cbn [copy_backward].
  { rewrite decide_False by lia; done. }
  rewrite IH by lia. rewrite !mget_mset. repeat case_decide; subst; try lia; try done; f_equal; lia.
Qed.

Lemma copy_forward_get m d s n x :
  d <= s \/ s + Z.of_nat n <= d ->
  mget (copy_forward m d s n) x =
  if decide (d <= x < d + Z.of_nat n) then mget m (x - d + s) else mget m x.
Proof.
  revert m d s; induction n as [|n IH]; intros m d s Hsd; cbn [copy_forward].
  { rewrite decide_False by lia; done. }
  rewrite IH by lia. rewrite !mget_mset. repeat case_decide; subst; try lia; try done; f_equal; lia.
Qed.

Lemma memmove_get m dst src n x : 0 <= n -> 0 <= src -> src + n < 4294967296 ->
  mget (memmove m dst src n) x = if decide (dst <= x < dst + n) then mget m (x - dst + src) else mget m x.
Proof.
  intros Hn Hs Hw. unfold memmove. rewrite u32_small by lia.
  destruct ((src <? dst) && (src + n >? dst)) eqn:E.
  - rewrite copy_backward_get, Z2Nat.id by lia. repeat case_decide; try lia; f_equal; lia.
  - rewrite copy_forward_get, Z2Nat.id by lia. done.
Qed.

(** [memmove] copies correctly whether or not source and destination
    overlap: afterwards the destination holds what the source held before the
    call and no other byte has changed. *)
Theorem memmove_overlap m dst src n :
  0 <= n -> 0 <= src -> src + n < 4294967296 ->
  mread (memmove m dst src n) dst (Z.to_nat n) = mread m src (Z.to_nat n) /\
  forall a, ~ (dst <= a < dst + n) -> mget (memmove m dst src n) a = mget m a.
Proof.
  intros Hn Hs Hw. split.
  - apply mread_ext; intros i Hi. rewrite memmove_get, decide_True by lia. f_equal; lia.
  - intros a Ha. by rewrite memmove_get, decide_False by lia.
Qed.

Lemma memmove_overlap_witness :
  mread (memmove (mwrite ∅ 100 [1; 2; 3; 4]) 102 100 4) 102 (Z.to_nat 4) =
    mread (mwrite ∅ 100 [1; 2; 3; 4]) 100 (Z.to_nat 4) /\
  forall a, ~ (102 <= a < 102 + 4) ->
    mget (memmove (mwrite ∅ 100 [1; 2; 3; 4]) 102 100 4) a = mget (mwrite ∅ 100 [1; 2; 3; 4]) a.
Proof. apply (memmove_overlap (mwrite ∅ 100 [1; 2; 3; 4]) 102 100 4); lia. Defined.

(** ** memset *)

Lemma mwrite_app m a l l' : mwrite m a (l ++ l') = mwrite (mwrite m a l) (a + Z.of_nat (length l)) l'.
Proof.
  revert m a; induction l as [|c l IH]; intros m a; cbn [mwrite app length].
  - by rewrite Z.add_0_r.
  - rewrite IH. f_equal. lia.
Qed.

Lemma replicate_word c : 0 <= c < 256 ->
  le_bytes 4 (u32 (Z.lor (Z.lor (Z.lor (Z.shiftl c 24) (Z.shiftl c 16)) (Z.shiftl c 8)) c)) =
  [c; c; c; c].
Proof.
  intros Hc. assert (forallb (fun c => bool_decide (le_bytes 4 (u32 (Z.lor (Z.lor (Z.lor (Z.shiftl c 24)
    (Z.shiftl c 16)) (Z.shiftl c 8)) c)) = [c; c; c; c])) (Z.of_nat <$> seq 0 256) = true) as H
    by (vm_compute; reflexivity).
  rewrite forallb_forall in H. eapply bool_decide_eq_true_1, (H c), list_elem_of_In, list_elem_of_fmap.
  exists (Z.to_nat c). split; [lia|]. apply elem_of_seq; lia.
Qed.

Lemma stosl_stosb m a c n : 0 <= c < 256 ->
  stosl m a (Z.lor (Z.lor (Z.lor (Z.shiftl c 24) (Z.shiftl c 16)) (Z.shiftl c 8)) c) n =
  mwrite m a (replicate (4 * n) c).
Proof.
  intros Hc. revert m a; induction n as [|n IH]; intros m a; cbn [stosl]; [done|].
  rewrite IH. unfold st32; rewrite replicate_word by done.
  replace (4 * S n)%nat with (4 + 4 * n)%nat by lia. rewrite replicate_add, mwrite_app. done.
Qed.

Lemma memset_eq m dst c n : 0 <= n -> memset m dst c n = mwrite m dst (replicate (Z.to_nat n) (u8 c)).
Proof.
  intros Hn. unfold memset. destruct ((_ =? 0) && (n mod 4 =? 0)) eqn:E; [|done].
  change 255 with (Z.ones 8). rewrite Z.land_ones by lia. change (2 ^ 8) with 256.
  rewrite stosl_stosb by divmod. do 2 f_equal.
  apply andb_true_iff in E as [_ E%Z.eqb_eq]. divmod.
Qed.

(** The word-at-a-time and the byte-at-a-time paths of [memset] agree: each
    sets exactly the [n] bytes from [dst] on to the low byte of [c]. *)
Theorem memset_fills m dst c n a : 0 <= n ->
  mget (memset m dst c n) a = if decide (dst <= a < dst + n) then u8 c else mget m a.
Proof.
  intros Hn. rewrite memset_eq, mget_mwrite, length_replicate, Z2Nat.id by done.
  case_decide; [|done]. apply lookup_total_replicate_2. lia.
Qed.

Lemma memset_fills_witness : mget (memset ∅ 4096 513 8) 4103 = 1.
Proof. apply (memset_fills ∅ 4096 513 8 4103); lia. Defined.
