(* ===== verification/Strings.v ===== *)
(** C strings: the string half of string.c (kernel) and ulib.c (user library).

    A pointer into an array is the rest of the array from there on; reading or
    writing past its end is undefined behaviour ([UB]). *)

From S2P Require Import Prelude.
Local Open Scope Z_scope.

(** * Outcomes without state *)

Definition obind {A B} (o : outcome A) (k : A -> outcome B) : outcome B :=
  match o with
  | Ok a => k a
  | Panic msg => Panic msg
  | Sleep => Sleep
  | UB => UB
  end.
Notation "'let?' x ':=' m 'in' k" := (obind m (fun x => k))
  (at level 10, x name, m at level 100, k at level 200) : kernel_scope.

(** * string.c *)

Fixpoint strncmp (p q : bytes) (n : nat) {struct n} : outcome Z :=
  match n with
  | O => Ok 0
  | S n' =>
      match p, q with
      | a :: p', b :: q' =>
          if negb (a =? 0) && (a =? b) then strncmp p' q' n' else Ok (u8 a - u8 b)
      | _, _ => UB
      end
  end.

(** The [n] bytes that [strncpy(s, t, n)] stores. *)
Fixpoint strncpy_bytes (t : bytes) (n : nat) {struct n} : outcome bytes :=
  match n with
  | O => Ok []
  | S n' =>
      match t with
      | [] => UB
      | c :: t' =>
          if c =? 0 then Ok (0 :: replicate n' 0)
          else let? r := strncpy_bytes t' n' in Ok (c :: r)
      end
  end.

Definition strncpy (s t : bytes) (n : Z) : outcome bytes :=
  let? w := strncpy_bytes t (Z.to_nat n) in
  if (length w <=? length s)%nat then Ok (splice s 0 w) else UB.

(** The bytes that [safestrcpy(s, t, n)] stores, [n > 0]: the loop runs at most
    [n - 1] times; the final store is one past what the loop copied. *)
Fixpoint safestrcpy_bytes (t : bytes) (n : nat) {struct n} : outcome bytes :=
  match n with
  | O => Ok [0]
  | S n' =>
      match t with
      | [] => UB
      | c :: t' =>
          if c =? 0 then Ok [0; 0] else let? r := safestrcpy_bytes t' n' in Ok (c :: r)
      end
  end.

Definition safestrcpy (s t : bytes) (n : Z) : outcome bytes :=
  if n <=? 0 then Ok s else
  let? w := safestrcpy_bytes t (Z.to_nat (n - 1)) in
  if (length w <=? length s)%nat then Ok (splice s 0 w) else UB.

Fixpoint strlen (s : bytes) : outcome Z :=
  match s with
  | [] => UB
  | c :: s' => if c =? 0 then Ok 0 else let? n := strlen s' in Ok (n + 1)
  end.

(** * ulib.c *)

Module Ulib.

Fixpoint strcpy_bytes (t : bytes) : outcome bytes :=
  match t with
  | [] => UB
  | c :: t' => if c =? 0 then Ok [0] else let? r := strcpy_bytes t' in Ok (c :: r)
  end.

Definition strcpy (s t : bytes) : outcome bytes :=
  let? w := strcpy_bytes t in
  if (length w <=? length s)%nat then Ok (splice s 0 w) else UB.

Fixpoint strcmp (p q : bytes) : outcome Z :=
  match p, q with
  | a :: p', b :: q' => if negb (a =? 0) && (a =? b) then strcmp p' q' else Ok (u8 a - u8 b)
  | _, _ => UB
  end.

Fixpoint strlen (s : bytes) : outcome Z :=
  match s with
  | [] => UB
  | c :: s' => if c =? 0 then Ok 0 else let? n := strlen s' in Ok (n + 1)
  end.

Definition memset (s : bytes) (c : Z) (n : Z) : outcome bytes :=
  if n <=? Z.of_nat (length s) then Ok (splice s 0 (replicate (Z.to_nat n) (u8 c))) else UB.

(** The rest of [s] from the first [c] on; [None] for a null pointer. *)
Fixpoint strchr (s : bytes) (c : Z) : outcome (option bytes) :=
  match s with
  | [] => UB
  | x :: s' => if x =? 0 then Ok None else if x =? c then Ok (Some s) else strchr s' c
  end.

(** One-byte reads of the standard input: [None] when [read] returns less
    than 1. *)
Fixpoint gets_loop (fuel : nat) (acc : bytes) (input : list (option Z)) : bytes * list (option Z) :=
  match fuel with
  | O => (acc, input)
  | S fuel' =>
      match input with
      | [] | None :: _ => (acc, tail input)
      | Some c :: input' =>
          if (c =? 10) || (c =? 13) then (acc ++ [c], input') else gets_loop fuel' (acc ++ [c]) input'
      end
  end.

(** [max - 1] characters at most, then the terminator. *)
Definition gets (buf : bytes) (max : Z) (input : list (option Z)) : outcome (bytes * list (option Z)) :=
  let r := gets_loop (Z.to_nat (max - 1)) [] input in
  if (length r.1 <? length buf)%nat then Ok (splice buf 0 (r.1 ++ [0]), r.2) else UB.

Fixpoint atoi_loop (n : Z) (s : bytes) : outcome Z :=
  match s with
  | [] => UB
  | c :: s' =>
      if (48 <=? c) && (c <=? 57) then
        if n * 10 + c <=? INT_MAX then atoi_loop (n * 10 + c - 48) s' else UB
      else Ok n
  end.

Definition atoi (s : bytes) : outcome Z := atoi_loop 0 s.

Fixpoint copy_loop (dst src : bytes) (n : nat) : outcome bytes :=
  match n with
  | O => Ok dst
  | S n' =>
      match dst, src with
      | _ :: dst', c :: src' => let? r := copy_loop dst' src' n' in Ok (c :: r)
      | _, _ => UB
      end
  end.

(** The user library's [memmove] between two different objects. *)
Definition memmove (dst src : bytes) (n : Z) : outcome bytes := copy_loop dst src (Z.to_nat n).
End Ulib.

(** * What the functions compute *)

(** The string stored at the start of an array, of at most [n] characters. *)
Fixpoint name_of (n : nat) (l : bytes) : bytes :=
  match n, l with
  | S n', c :: l' => if c =? 0 then [] else c :: name_of n' l'
  | _, _ => []
  end.

(** The first [n] bytes can be read as a string: they are all there, or a NUL
    comes before the end of the array. *)
Fixpoint readable (n : nat) (l : bytes) : bool :=
  match n with
  | O => true
  | S n' => match l with [] => false | c :: l' => (c =? 0) || readable n' l' end
  end.

Lemma readable_length n l : (n <= length l)%nat -> readable n l = true.
Proof.
  revert l; induction n as [|n IH]; intros [|c l] H; simpl in *; try lia; try done.
  rewrite IH by lia. apply orb_true_r.
Qed.

Lemma strncmp_spec n p q :
  readable n p = true -> readable n q = true -> Forall byte_ok p -> Forall byte_ok q ->
  exists r, strncmp p q n = Ok r /\ (r = 0 <-> name_of n p = name_of n q).
Proof.
  revert p q; induction n as [|n IH]; intros p q Hp Hq Bp Bq; simpl in *; [exists 0; tauto|].
  destruct p as [|a p], q as [|b q]; try discriminate.
  inversion_clear Bp as [|? ? Ba Bp']; inversion_clear Bq as [|? ? Bb Bq'].
  unfold byte_ok in Ba, Bb. destruct (a =? 0) eqn:Ea; simpl in *.
  - apply Z.eqb_eq in Ea; subst a. exists (u8 0 - u8 b); split; [done|].
    destruct (b =? 0) eqn:Eb; simpl.
    + apply Z.eqb_eq in Eb; subst b. tauto.
    + apply Z.eqb_neq in Eb. split; [ints|discriminate].
  - apply Z.eqb_neq in Ea. destruct (a =? b) eqn:Eab.
    + apply Z.eqb_eq in Eab; subst b. replace (a =? 0) with false in * by (symmetry; by apply Z.eqb_neq).
      destruct (IH p q) as (r & E & Hr); try done. exists r; split; [done|]. rewrite Hr. split; congruence.
    + apply Z.eqb_neq in Eab. exists (u8 a - u8 b); split; [done|].
      split; [ints|]. destruct (b =? 0); [discriminate|congruence].
Qed.

Lemma strncpy_bytes_spec n t : readable n t = true ->
  exists w, strncpy_bytes t n = Ok w /\ length w = n /\ name_of n w = name_of n t /\
    w = name_of n t ++ replicate (n - length (name_of n t)) 0.
Proof.
  revert t; induction n as [|n IH]; intros t H; simpl in *; [by exists []|].
  destruct t as [|c t]; [done|]. destruct (c =? 0) eqn:E; simpl in *.
  - exists (0 :: replicate n 0); split_and!; simpl; rewrite ?length_replicate; done.
  - destruct (IH t H) as (w & Ew & Hl & Hn & Hw). exists (c :: w); rewrite Ew; simpl.
    rewrite E, Hl, Hn. split_and!; try done. by rewrite Hw at 1.
Qed.

Lemma name_of_app n w l : length w = n -> name_of n (w ++ l) = name_of n w.
Proof.
  revert n; induction w as [|c w IH]; intros n <-; simpl; [by destruct l|].
  destruct (c =? 0); [done|]. by rewrite IH.
Qed.

(** A name stored with [strncpy] is found again by [strncmp]: after
    [strncpy(s, t, n)] the first [n] bytes of [s] hold [t] cut to [n] characters
    and padded with NULs, the rest of [s] is untouched, and comparing [s] with
    any string [u] over [n] characters gives 0 exactly when [t] and [u] agree on
    their first [n] characters. *)
Theorem strncpy_strncmp s t u n :
  (n <= length s)%nat -> readable n t = true -> readable n u = true ->
  Forall byte_ok s -> Forall byte_ok t -> Forall byte_ok u ->
  exists s' r, strncpy s t (Z.of_nat n) = Ok s' /\
    take n s' = name_of n t ++ replicate (n - length (name_of n t)) 0 /\
    drop n s' = drop n s /\ strncmp s' u n = Ok r /\ (r = 0 <-> name_of n t = name_of n u).
Proof.
  intros Hn Ht Hu Bs Bt Bu. destruct (strncpy_bytes_spec n t Ht) as (w & Ew & Hl & Hnw & Hw).
  assert (Forall byte_ok w) as Bw.
  { rewrite Hw. apply Forall_app; split; [|apply Forall_replicate; unfold byte_ok; lia].
    clear -Bt. revert n; induction Bt as [|c t Hc _ IH]; intros [|n]; simpl; try constructor.
    destruct (c =? 0); [constructor|by constructor]. }
  assert (splice s 0 w = w ++ drop n s) as Hs by (unfold splice; by rewrite take_0, Hl).
  destruct (strncmp_spec n (w ++ drop n s) u) as (r & Er & Hr); try done.
  { apply readable_length. rewrite length_app; lia. }
  { apply Forall_app; split; [done|]. by apply Forall_drop. }
  rewrite name_of_app, Hnw in Hr by done.
  exists (w ++ drop n s), r. split_and!; try done; try (by rewrite Hr).
  - unfold strncpy; rewrite Nat2Z.id, Ew; simpl. rewrite Hs, Hl.
    by replace (n <=? length s)%nat with true by (symmetry; apply Nat.leb_le; lia).
  - rewrite <- Hw, <- Hl. by rewrite take_app_length.
  - rewrite <- Hl at 1. by rewrite drop_app_length.
Qed.

Lemma strncpy_strncmp_witness :
  exists s' r, strncpy (replicate 16 9) [97; 98; 99; 0] 14 = Ok s' /\
    take 14 s' = [97; 98; 99] ++ replicate 11 0 /\ drop 14 s' = [9; 9] /\
    strncmp s' [97; 98; 99; 0] 14 = Ok r /\ (r = 0 <-> [97; 98; 99] = [97; 98; 99]).
Proof.
  apply (strncpy_strncmp (replicate 16 9) [97; 98; 99; 0] [97; 98; 99; 0] 14);
    try reflexivity; repeat constructor; unfold byte_ok; lia.
Defined.

Lemma safestrcpy_bytes_spec n t : readable n t = true ->
  exists w, safestrcpy_bytes t n = Ok w /\ (1 <= length w <= S n)%nat /\
    name_of n w = name_of n t /\ (forall l, strlen (w ++ l) = Ok (Z.of_nat (length (name_of n t)))).
Proof.
  revert t; induction n as [|n IH]; intros t H; simpl in *.
  - exists [0]; split_and!; simpl; done || lia.
  - destruct t as [|c t]; [done|]. destruct (c =? 0) eqn:E; simpl in *.
    + exists [0; 0]; split_and!; simpl; done || lia.
    + destruct (IH t H) as (w & Ew & Hl & Hn & Hs). exists (c :: w); rewrite Ew; simpl.
      rewrite E, Hn. split_and!; try done; try lia. intros l; rewrite Hs; simpl. f_equal; lia.
Qed.

(** [safestrcpy] always leaves a terminated string: for [n > 0] and a buffer
    of at least [n] bytes, the buffer then holds the source cut to [n - 1]
    characters, [strlen] of it is defined and counts them, and bytes beyond the
    [n]th are untouched. *)
Theorem safestrcpy_terminates s t n :
  (0 < n)%nat -> (n <= length s)%nat -> readable (n - 1) t = true ->
  exists s', safestrcpy s t (Z.of_nat n) = Ok s' /\ length s' = length s /\
    name_of (n - 1) s' = name_of (n - 1) t /\
    strlen s' = Ok (Z.of_nat (length (name_of (n - 1) t))) /\ drop n s' = drop n s.
Proof.
  intros Hn Hs Ht. destruct (safestrcpy_bytes_spec (n - 1) t Ht) as (w & Ew & Hl & Hnm & Hst).
  exists (splice s 0 w). unfold safestrcpy.
  replace (Z.of_nat n <=? 0) with false by lia.
  replace (Z.to_nat (Z.of_nat n - 1)) with (n - 1)%nat by lia. rewrite Ew; cbn [obind].
  replace (length w <=? length s)%nat with true by (symmetry; apply Nat.leb_le; lia).
  assert (splice s 0 w = w ++ drop (length w) s) as E by done.
  split_and!; [done|apply length_splice; lia| | |].
  - rewrite E, <- Hnm. clear -Hst Hnm Hl. specialize (Hst []). rewrite app_nil_r in Hst.
    assert (exists k, strlen w = Ok k) as [k Hk] by eauto. clear Hst Hl Hnm.
    generalize (n - 1)%nat (drop (length w) s). revert k Hk.
    induction w as [|c w IH]; intros k Hk [|m] l; simpl in *; try done.
    destruct (c =? 0); [done|]. destruct (strlen w) eqn:Ew; try done. f_equal; eauto.
  - by rewrite E.
  - rewrite E, drop_app_ge, drop_drop by lia. f_equal; lia.
Qed.

Lemma safestrcpy_terminates_witness :
  exists s', safestrcpy (replicate 4 9) [97; 98; 99; 100; 101; 0] 4 = Ok s' /\ length s' = 4%nat /\
    name_of 3 s' = [97; 98; 99] /\ strlen s' = Ok 3 /\ drop 4 s' = [].
Proof.
  apply (safestrcpy_terminates (replicate 4 9) [97; 98; 99; 100; 101; 0] 4); try reflexivity; simpl; lia.
Defined.
