(* ===== verification/Bio.v ===== *)
(** The disk driver (ide.c) and the buffer cache (bio.c). *)

From S2P Require Import Prelude.
Local Open Scope Z_scope.

(** * Constants of param.h, fs.h and buf.h *)

Definition NPROC : Z := 64.
Definition NOFILE : Z := 16.
Definition NFILE : Z := 100.
Definition NINODE : Z := 50.
Definition NDEV : Z := 10.
Definition ROOTDEV : Z := 1.
Definition MAXARG : Z := 32.
Definition MAXOPBLOCKS : Z := 10.
Definition LOGSIZE : Z := MAXOPBLOCKS * 3.
Definition NBUF : Z := MAXOPBLOCKS * 3.
Definition FSSIZE : Z := 1000.
Definition BSIZE : Z := 512.
Definition B_VALID : Z := 2.
Definition B_DIRTY : Z := 4.

(** * Sleep locks (sleeplock.c), as one process sees them

    [acquiresleep] waits while the lock is held; in a run of a single process
    nobody releases it meanwhile, so that case is [Sleep]. *)

Record sleeplock := mksleeplock { sl_locked : bool; sl_pid : Z }.

Definition initsleeplock : sleeplock := mksleeplock false 0.

Definition acquiresleep (pid : Z) (lk : sleeplock) : outcome sleeplock :=
  if sl_locked lk then Sleep else Ok (mksleeplock true pid).

Definition releasesleep (lk : sleeplock) : sleeplock := mksleeplock false 0.

Definition holdingsleep (pid : Z) (lk : sleeplock) : bool :=
  sl_locked lk && (sl_pid lk =? pid).

(** * Buffers *)

Record buf := mkbuf {
  b_flags : Z;
  b_dev : Z;
  b_blockno : Z;
  b_lock : sleeplock;
  b_refcnt : Z;
  b_data : bytes
}.

#[export] Instance buf_inhabited : Inhabited buf :=
  populate (mkbuf 0 0 0 initsleeplock 0 []).

Definition set_flags (v : Z) (b : buf) : buf :=
  mkbuf v (b_dev b) (b_blockno b) (b_lock b) (b_refcnt b) (b_data b).
Definition set_lock (v : sleeplock) (b : buf) : buf :=
  mkbuf (b_flags b) (b_dev b) (b_blockno b) v (b_refcnt b) (b_data b).
Definition set_refcnt (v : Z) (b : buf) : buf :=
  mkbuf (b_flags b) (b_dev b) (b_blockno b) (b_lock b) v (b_data b).
Definition set_data (v : bytes) (b : buf) : buf :=
  mkbuf (b_flags b) (b_dev b) (b_blockno b) (b_lock b) (b_refcnt b) v.

(** [b->flags & m] as a condition. *)
Definition hasflag (m : Z) (b : buf) : bool := negb (Z.land (b_flags b) m =? 0).

(** * The state of the block layer

    [mru] is the doubly linked list of the cache: the indices of the buffers
    from [head.next] (most recently used) to [head.prev].  [disk] holds the
    sectors of the two drives of the IDE channel ([dev & 1]), [ctl] the drive
    and sector last programmed into the controller, [ide_err] whether the
    controller reports an error.  [writes] records the sectors written so far,
    oldest first: the disk after a crash is the initial disk with a prefix of
    them applied. *)

Abbreviation diskmap := (gmap (Z * Z) bytes).

Record bio := mkbio {
  pid : Z;
  bufs : list buf;
  mru : list nat;
  idequeue : list nat;
  havedisk1 : bool;
  ide_err : bool;
  ctl : Z * Z;
  disk : diskmap;
  writes : list ((Z * Z) * bytes)
}.

Definition zero_block : bytes := replicate (Z.to_nat BSIZE) 0.

(** Sectors never written hold zeroes (mkfs writes every sector). *)
Definition sector (d : diskmap) (k : Z * Z) : bytes := default zero_block (d !! k).

Definition put_bufs (v : list buf) (s : bio) : bio :=
  mkbio (pid s) v (mru s) (idequeue s) (havedisk1 s) (ide_err s) (ctl s) (disk s) (writes s).
Definition put_mru (v : list nat) (s : bio) : bio :=
  mkbio (pid s) (bufs s) v (idequeue s) (havedisk1 s) (ide_err s) (ctl s) (disk s) (writes s).
Definition put_queue (v : list nat) (s : bio) : bio :=
  mkbio (pid s) (bufs s) (mru s) v (havedisk1 s) (ide_err s) (ctl s) (disk s) (writes s).
Definition put_ctl (v : Z * Z) (s : bio) : bio :=
  mkbio (pid s) (bufs s) (mru s) (idequeue s) (havedisk1 s) (ide_err s) v (disk s) (writes s).
Definition put_sector (k : Z * Z) (v : bytes) (s : bio) : bio :=
  mkbio (pid s) (bufs s) (mru s) (idequeue s) (havedisk1 s) (ide_err s) (ctl s)
    (<[k := v]> (disk s)) (writes s ++ [(k, v)]).

Definition getbuf (i : nat) : M bio buf := gets (fun s => bufs s !!! i).
Definition updbuf (i : nat) (f : buf -> buf) : M bio unit :=
  modify (fun s => put_bufs (<[i := f (bufs s !!! i)]> (bufs s)) s).

(** * ide.c *)

(** [idewait(1) >= 0]: the controller is ready and reports no error. *)
Definition idewait_ok : M bio bool := gets (fun s => negb (ide_err s)).

Definition idestart (i : nat) : M bio unit :=
  let! b := getbuf i in
  if b_blockno b >=? FSSIZE then panic "incorrect blockno" else
  let sector_per_block := 1 in
  let sector := b_blockno b * sector_per_block in
  let target := (Z.land (b_dev b) 1, sector) in
  do! modify (put_ctl target) in
  when (hasflag B_DIRTY b) (modify (put_sector target (b_data b))).

(** The interrupt handler: finish the request at the head of the queue. *)
Definition ideintr : M bio unit :=
  let! q := gets idequeue in
  match q with
  | [] => ret tt
  | i :: q' =>
      do! modify (put_queue q') in
      let! b := getbuf i in
      let! ok := idewait_ok in
      do! when (negb (hasflag B_DIRTY b) && ok)
            (let! s := gets id in updbuf i (set_data (sector (disk s) (ctl s)))) in
      do! updbuf i (fun b => set_flags (Z.lor (b_flags b) B_VALID) b) in
      do! updbuf i (fun b => set_flags (Z.land (b_flags b) (Z.lnot B_DIRTY)) b) in
      match q' with
      | [] => ret tt
      | j :: _ => idestart j
      end
  end.

(** The process sleeps on [b]; each time the disk interrupt runs meanwhile. *)
Fixpoint idewaitfor (fuel : nat) (i : nat) : M bio unit :=
  let! b := getbuf i in
  if Z.land (b_flags b) (Z.lor B_VALID B_DIRTY) =? B_VALID then ret tt else
  match fuel with
  | O => sleep
  | S fuel' => do! ideintr in idewaitfor fuel' i
  end.

Definition iderw (i : nat) : M bio unit :=
  let! b := getbuf i in
  let! me := gets pid in
  if negb (holdingsleep me (b_lock b)) then panic "iderw: buf not locked" else
  if Z.land (b_flags b) (Z.lor B_VALID B_DIRTY) =? B_VALID then panic "iderw: nothing to do" else
  let! d1 := gets havedisk1 in
  if negb (b_dev b =? 0) && negb d1 then panic "iderw: ide disk 1 not present" else
  do! modify (fun s => put_queue (idequeue s ++ [i]) s) in
  let! q := gets idequeue in
  do! when (bool_decide (head q = Some i)) (idestart i) in
  idewaitfor (length q) i.

(** * bio.c *)

(** All buffers are zero (static storage); each is inserted behind [head]. *)
Definition binit (me : Z) (d1 : bool) (d : diskmap) : bio :=
  let bufs := replicate (Z.to_nat NBUF) (mkbuf 0 0 0 initsleeplock 0 zero_block) in
  mkbio me bufs (rev (seq 0 (Z.to_nat NBUF))) [] d1 false (0, 0) d [].

Definition lockbuf (i : nat) : M bio unit :=
  let! b := getbuf i in
  let! me := gets pid in
  match acquiresleep me (b_lock b) with
  | Ok lk => updbuf i (set_lock lk)
  | Panic msg => panic msg
  | Sleep => sleep
  | UB => undefined
  end.

Definition bcached (dev blockno : Z) (s : bio) : option nat :=
  List.find (fun i => (b_dev (bufs s !!! i) =? dev) && (b_blockno (bufs s !!! i) =? blockno))
    (mru s).

(** From [head.prev] backwards: the least recently used buffer first. *)
Definition bunused (s : bio) : option nat :=
  List.find (fun i => (b_refcnt (bufs s !!! i) =? 0) && negb (hasflag B_DIRTY (bufs s !!! i)))
    (rev (mru s)).

Definition bget (dev blockno : Z) : M bio nat :=
  let! hit := gets (bcached dev blockno) in
  match hit with
  | Some i =>
      do! updbuf i (fun b => set_refcnt (u32 (b_refcnt b + 1)) b) in
      do! lockbuf i in
      ret i
  | None =>
      let! victim := gets bunused in
      match victim with
      | Some i =>
          do! updbuf i (fun b => mkbuf 0 dev blockno (b_lock b) 1 (b_data b)) in
          do! lockbuf i in
          ret i
      | None => panic "bget: no buffers"
      end
  end.

Definition bread (dev blockno : Z) : M bio nat :=
  let! i := bget dev blockno in
  let! b := getbuf i in
  do! when (negb (hasflag B_VALID b)) (iderw i) in
  ret i.

Definition bwrite (i : nat) : M bio unit :=
  let! b := getbuf i in
  let! me := gets pid in
  if negb (holdingsleep me (b_lock b)) then panic "bwrite" else
  do! updbuf i (fun b => set_flags (Z.lor (b_flags b) B_DIRTY) b) in
  iderw i.

(** Unlink [i] and insert it behind [head]. *)
Definition move_front (i : nat) (l : list nat) : list nat :=
  i :: List.filter (fun j => negb (Nat.eqb i j)) l.

Definition brelse (i : nat) : M bio unit :=
  let! b := getbuf i in
  let! me := gets pid in
  if negb (holdingsleep me (b_lock b)) then panic "brelse" else
  do! updbuf i (fun b => set_lock (releasesleep (b_lock b)) b) in
  do! updbuf i (fun b => set_refcnt (u32 (b_refcnt b - 1)) b) in
  let! b := getbuf i in
  when (b_refcnt b =? 0) (modify (fun s => put_mru (move_front i (mru s)) s)).

(** * Invariant of the block layer between calls of one process *)

Definition NB : nat := Z.to_nat NBUF.

Definition locked_by (p : Z) (b : buf) : Prop :=
  b_lock b = mksleeplock true p /\ b_refcnt b = 1.
Definition unlocked (b : buf) : Prop :=
  sl_locked (b_lock b) = false /\ b_refcnt b = 0.

(** A buffer is either untouched since [binit] or caches a block of the file
    system disk; a valid, clean, unlocked buffer agrees with the disk. *)
Record buf_ok (p : Z) (d : diskmap) (b : buf) : Prop := {
  ok_data : length (b_data b) = Z.to_nat BSIZE;
  ok_lock : locked_by p b \/ unlocked b;
  ok_id : (b_dev b = 0 /\ b_flags b = 0 /\ unlocked b) \/
          (b_dev b = ROOTDEV /\ 0 <= b_blockno b < FSSIZE /\
           (b_flags b = B_VALID \/ b_flags b = Z.lor B_VALID B_DIRTY));
  ok_clean : unlocked b -> b_flags b = B_VALID ->
             b_data b = sector d (ROOTDEV, b_blockno b)
}.

Record bio_inv (s : bio) : Prop := {
  inv_len : length (bufs s) = NB;
  inv_mru : mru s ≡ₚ seq 0 NB;
  inv_queue : idequeue s = [];
  inv_disk1 : havedisk1 s = true;
  inv_err : ide_err s = false;
  inv_sectors : forall k v, disk s !! k = Some v -> length v = Z.to_nat BSIZE;
  inv_buf : forall i, (i < NB)%nat -> buf_ok (pid s) (disk s) (bufs s !!! i);
  inv_uniq : forall i j, (i < NB)%nat -> (j < NB)%nat ->
    b_dev (bufs s !!! i) = ROOTDEV -> b_dev (bufs s !!! j) = ROOTDEV ->
    b_blockno (bufs s !!! i) = b_blockno (bufs s !!! j) -> i = j
}.

(** Buffer [i] is locked by the process and holds block [b]. *)
Definition is_buf (s : bio) (i : nat) (b : Z) : Prop :=
  (i < NB)%nat /\ b_dev (bufs s !!! i) = ROOTDEV /\ b_blockno (bufs s !!! i) = b /\
  locked_by (pid s) (bufs s !!! i).

Definition held (s : bio) (b : Z) : Prop := exists i, is_buf s i b.

(** What the file system reads for block [b]: the cached copy, if any. *)
Definition view (s : bio) (b : Z) : bytes :=
  match bcached ROOTDEV b s with
  | Some i => b_data (bufs s !!! i)
  | None => sector (disk s) (ROOTDEV, b)
  end.

(** Is block [b] pinned in the cache by [log_write]? *)
Definition pinned (s : bio) (b : Z) : Prop :=
  exists i, (i < NB)%nat /\ b_dev (bufs s !!! i) = ROOTDEV /\
    b_blockno (bufs s !!! i) = b /\ hasflag B_DIRTY (bufs s !!! i) = true.

(** Buffers that [bget] may recycle. *)
Definition recyclable (b : buf) : bool :=
  (b_refcnt b =? 0) && negb (hasflag B_DIRTY b).
Definition avail (s : bio) : nat := length (List.filter recyclable (bufs s)).

(** * Closed forms of the operations

    Under the invariant every operation succeeds and its effect is one update
    of the buffer array. *)

Definition locked_buf (p : Z) (b : buf) : buf :=
  mkbuf (b_flags b) (b_dev b) (b_blockno b) (mksleeplock true p) 1 (b_data b).
Definition released_buf (b : buf) : buf :=
  mkbuf (b_flags b) (b_dev b) (b_blockno b) initsleeplock 0 (b_data b).

Definition putbuf (i : nat) (b : buf) (s : bio) : bio := put_bufs (<[i := b]> (bufs s)) s.


Lemma bufs_insert_eq (l : list buf) i x : (i < length l)%nat -> <[i := x]> l !!! i = x.
Proof. apply list_lookup_total_insert_eq. Qed.

#[global] Arguments iderw : simpl never.
#[global] Arguments bread : simpl never.
#[global] Arguments bwrite : simpl never.
#[global] Arguments brelse : simpl never.

(** Evaluate an operation on a symbolic state. *)
Ltac insert_eq := rewrite !bufs_insert_eq by (rewrite ?length_insert; done).
Ltac bio_run :=
  unfold bread, bwrite, brelse, bget, iderw, idestart, ideintr, idewaitfor, lockbuf, updbuf,
    getbuf, idewait_ok, bind, gets, modify, when, ret, acquiresleep, holdingsleep, hasflag;
  cbn; repeat (progress (insert_eq; cbn)).
Ltac bio_done :=
  unfold putbuf, put_bufs, put_ctl, put_sector, put_mru, locked_buf, released_buf, set_lock;
  cbn; rewrite ?list_insert_insert_eq; repeat insert_eq; try reflexivity.

Lemma bget_hit s b i :
  bcached ROOTDEV b s = Some i -> (i < length (bufs s))%nat -> unlocked (bufs s !!! i) ->
  bget ROOTDEV b s = Ok (i, putbuf i (locked_buf (pid s) (bufs s !!! i)) s).
Proof.
  intros Hc Hi [Hl Hr]. bio_run; rewrite Hc; bio_run. rewrite Hl; bio_run.
  bio_done. rewrite Hr; reflexivity.
Qed.

Lemma bread_hit s b i :
  bcached ROOTDEV b s = Some i -> (i < length (bufs s))%nat -> unlocked (bufs s !!! i) ->
  hasflag B_VALID (bufs s !!! i) = true ->
  bread ROOTDEV b s = Ok (i, putbuf i (locked_buf (pid s) (bufs s !!! i)) s).
Proof.
  intros Hc Hi Hu Hv. unfold bread; mstep (bget_hit s b i Hc Hi Hu).
  unfold bind, getbuf, gets, when, putbuf; cbn.
  rewrite bufs_insert_eq by done. unfold hasflag in *; cbn; rewrite Hv; reflexivity.
Qed.

(** Evaluate tests on closed flag words. *)
Ltac flag_eval :=
  repeat match goal with
  | |- context [Z.land ?a ?b =? ?c] =>
      let v := eval vm_compute in (Z.land a b =? c) in
      match v with true => idtac | false => idtac end;
      change (Z.land a b =? c) with v
  end; cbn.

(** A transfer with an idle disk completes in one interrupt. *)
Ltac ide_run s i :=
  let E := fresh "E" in
  destruct s; cbn in *;
  match goal with |- context [?bs !!! i] => destruct (bs !!! i) eqn:E end; cbn in *; subst;
  unfold iderw, getbuf, gets, bind, modify, holdingsleep, when; cbn;
  rewrite ?E; cbn; rewrite Z.eqb_refl; cbn; flag_eval;
  rewrite bool_decide_eq_true_2 by done;
  unfold idestart, getbuf, gets, bind, modify, when; cbn; rewrite ?E; cbn;
  match goal with |- context [?b >=? FSSIZE] => replace (b >=? FSSIZE) with false by lia end;
  unfold hasflag; cbn; rewrite ?E; cbn; flag_eval;
  unfold getbuf, gets, bind, ideintr, idewait_ok, updbuf, modify, when, hasflag; cbn;
  rewrite ?E; cbn; flag_eval; repeat (progress (insert_eq; cbn)); rewrite ?E; cbn; flag_eval;
  repeat (progress (insert_eq; cbn)); rewrite ?E; cbn; flag_eval;
  bio_done; rewrite ?E, ?Z.mul_1_r; try reflexivity.

Lemma iderw_read s i :
  (i < length (bufs s))%nat -> b_dev (bufs s !!! i) = ROOTDEV ->
  b_lock (bufs s !!! i) = mksleeplock true (pid s) -> b_flags (bufs s !!! i) = 0 ->
  idequeue s = [] -> havedisk1 s = true -> ide_err s = false ->
  b_blockno (bufs s !!! i) < FSSIZE ->
  let k := (ROOTDEV, b_blockno (bufs s !!! i)) in
  iderw i s = Ok (tt, put_ctl k (putbuf i (set_flags B_VALID (set_data (sector (disk s) k)
                                  (bufs s !!! i))) s)).
Proof. intros; subst k; ide_run s i. Qed.

Lemma iderw_write s i :
  (i < length (bufs s))%nat -> b_dev (bufs s !!! i) = ROOTDEV ->
  b_lock (bufs s !!! i) = mksleeplock true (pid s) ->
  b_flags (bufs s !!! i) = Z.lor B_VALID B_DIRTY ->
  idequeue s = [] -> havedisk1 s = true -> b_blockno (bufs s !!! i) < FSSIZE ->
  let k := (ROOTDEV, b_blockno (bufs s !!! i)) in
  iderw i s = Ok (tt, put_sector k (b_data (bufs s !!! i))
                        (put_ctl k (putbuf i (set_flags B_VALID (bufs s !!! i)) s))).
Proof. intros; subst k; ide_run s i. Qed.

Lemma bread_miss s b i :
  bcached ROOTDEV b s = None -> bunused s = Some i -> (i < length (bufs s))%nat ->
  unlocked (bufs s !!! i) -> idequeue s = [] -> havedisk1 s = true -> ide_err s = false ->
  b < FSSIZE ->
  bread ROOTDEV b s =
  Ok (i, put_ctl (ROOTDEV, b)
           (putbuf i (mkbuf B_VALID ROOTDEV b (mksleeplock true (pid s)) 1
                        (sector (disk s) (ROOTDEV, b))) s)).
Proof.
  intros Hc Hu Hi [Hl Hr] Hq Hd He Hb.
  unfold bread, bget, bind, gets; rewrite Hc; cbn; rewrite Hu; cbn.
  unfold lockbuf, updbuf, bind, gets, modify, when, ret, acquiresleep, getbuf; cbn.
  insert_eq; cbn; rewrite Hl; cbn; insert_eq; cbn.
  unfold hasflag; cbn; flag_eval. rewrite list_insert_insert_eq.
  rewrite iderw_read; cbn; rewrite ?length_insert; try insert_eq; try done; bio_done.
Qed.

Lemma bwrite_run s i b :
  (i < length (bufs s))%nat -> b_dev (bufs s !!! i) = ROOTDEV -> b_blockno (bufs s !!! i) = b ->
  b_lock (bufs s !!! i) = mksleeplock true (pid s) ->
  (b_flags (bufs s !!! i) = B_VALID \/ b_flags (bufs s !!! i) = Z.lor B_VALID B_DIRTY) ->
  idequeue s = [] -> havedisk1 s = true -> b < FSSIZE ->
  bwrite i s =
  Ok (tt, put_sector (ROOTDEV, b) (b_data (bufs s !!! i)) (put_ctl (ROOTDEV, b)
            (putbuf i (set_flags B_VALID (bufs s !!! i)) s))).
Proof.
  intros Hi Hdev Hb Hl Hf Hq Hd Hlt.
  assert (Z.lor (b_flags (bufs s !!! i)) B_DIRTY = Z.lor B_VALID B_DIRTY) as Hfl
    by (destruct Hf as [-> | ->]; done).
  unfold bwrite, updbuf, bind, gets, modify, getbuf, holdingsleep; cbn.
  rewrite Hl; cbn; rewrite Z.eqb_refl; cbn.
  rewrite iderw_write; cbn; rewrite ?length_insert; try insert_eq; cbn; try done; [|by subst].
  bio_done. by rewrite Hb.
Qed.

Lemma brelse_run s i :
  (i < length (bufs s))%nat -> locked_by (pid s) (bufs s !!! i) ->
  brelse i s = Ok (tt, put_mru (move_front i (mru s)) (putbuf i (released_buf (bufs s !!! i)) s)).
Proof.
  intros Hi [Hl Hr]. bio_run. rewrite Hl; bio_run. rewrite Z.eqb_refl; bio_run.
  rewrite Hr; bio_run. bio_done.
Qed.

(** * Lookup in the cache *)

Lemma mru_lt s i : bio_inv s -> In i (mru s) <-> (i < NB)%nat.
Proof.
  intros H; rewrite <- list_elem_of_In, (inv_mru _ H), list_elem_of_In, in_seq; lia.
Qed.

Definition caches (s : bio) (i : nat) (b : Z) : Prop :=
  (i < NB)%nat /\ b_dev (bufs s !!! i) = ROOTDEV /\ b_blockno (bufs s !!! i) = b.

Lemma bcached_Some s b i : bio_inv s -> bcached ROOTDEV b s = Some i <-> caches s i b.
Proof.
  intros Hinv; unfold bcached; split.
  - intros [Hin Hp]%find_some. apply mru_lt in Hin; [|done].
    unfold caches; split_and!; [done|lia|lia].
  - intros (Hi & Hd & Hb). destruct (List.find _ _) as [j|] eqn:E.
    + apply find_some in E as [Hin Hp]; apply mru_lt in Hin; [|done].
      f_equal; apply (inv_uniq _ Hinv); [done|done|lia|lia|lia].
    + pose proof (find_none _ _ E i) as Hn; rewrite mru_lt in Hn by done; specialize (Hn Hi).
      rewrite Hd, Hb, !Z.eqb_refl in Hn; discriminate.
Qed.

Lemma bcached_None s b :
  bio_inv s -> bcached ROOTDEV b s = None <-> forall i, ~ caches s i b.
Proof.
  intros Hinv; split.
  - intros H i Hc; apply bcached_Some in Hc; [congruence|done].
  - intros H; destruct (bcached ROOTDEV b s) as [i|] eqn:E; [|done].
    apply bcached_Some in E; [|done]; by apply H in E.
Qed.

Lemma view_cached s i b : bio_inv s -> caches s i b -> view s b = b_data (bufs s !!! i).
Proof. intros Hinv Hc; unfold view; apply bcached_Some in Hc; [by rewrite Hc|done]. Qed.

Lemma view_uncached s b :
  bio_inv s -> (forall i, ~ caches s i b) -> view s b = sector (disk s) (ROOTDEV, b).
Proof. intros Hinv Hc; unfold view; apply bcached_None in Hc; [by rewrite Hc|done]. Qed.

Lemma is_buf_caches s i b : is_buf s i b -> caches s i b.
Proof. intros (? & ? & ? & _); split_and!; done. Qed.

Lemma caches_inj s i j b : bio_inv s -> caches s i b -> caches s j b -> i = j.
Proof. intros H (? & ? & ?) (? & ? & ?); apply (inv_uniq _ H); congruence. Qed.

(** Counting with a boolean test under a list update. *)
Lemma count_insert {A} (f : A -> bool) (l : list A) i x y :
  l !! i = Some y ->
  (length (List.filter f (<[i := x]> l)) + Nat.b2n (f y) =
   length (List.filter f l) + Nat.b2n (f x))%nat.
Proof.
  revert i; induction l as [|z l IH]; intros [|i] H; simplify_eq/=.
  - destruct (f x), (f y); simpl; lia.
  - specialize (IH _ H); destruct (f z); simpl; lia.
Qed.

Lemma avail_putbuf s i b :
  bio_inv s -> (i < NB)%nat ->
  (avail (putbuf i b s) + Nat.b2n (recyclable (bufs s !!! i)) =
   avail s + Nat.b2n (recyclable b))%nat.
Proof.
  intros H Hi; unfold avail, putbuf; cbn; apply count_insert.
  apply list_lookup_lookup_total_lt; rewrite (inv_len _ H); done.
Qed.

Lemma bunused_avail s : bio_inv s -> (1 <= avail s)%nat -> exists i, bunused s = Some i.
Proof.
  intros Hinv Ha; unfold bunused; destruct (List.find _ _) as [i|] eqn:E; [by eauto|].
  exfalso; unfold avail in Ha.
  destruct (List.filter recyclable (bufs s)) as [|b l] eqn:F; [simpl in Ha; lia|].
  assert (In b (List.filter recyclable (bufs s))) as Hb by (rewrite F; by left).
  apply filter_In in Hb as [Hb Hr].
  apply list_elem_of_In, list_elem_of_lookup in Hb as [i Hi].
  pose proof (find_none _ _ E i) as Hn. rewrite <- in_rev, mru_lt in Hn by done.
  assert (i < NB)%nat as Hlt by (rewrite <- (inv_len _ Hinv); by eapply lookup_lt_Some).
  specialize (Hn Hlt). rewrite (list_lookup_total_correct _ _ _ Hi) in Hn.
  unfold recyclable in Hr; congruence.
Qed.

Lemma bunused_Some s i :
  bio_inv s -> bunused s = Some i -> (i < NB)%nat /\ recyclable (bufs s !!! i) = true.
Proof.
  intros Hinv [Hin Hp]%find_some; rewrite <- in_rev in Hin; apply mru_lt in Hin; done.
Qed.

(** The buffer taken is the least recently used of the recyclable ones. *)
Lemma find_rev_last {A} (f : A -> bool) (l : list A) x :
  List.find f (rev l) = Some x ->
  exists l1 l2, l = l1 ++ x :: l2 /\ f x = true /\ Forall (fun y => f y = false) l2.
Proof.
  induction l as [|z l IH]; simpl; [done|].
  intros H. assert (List.find f (rev l) = Some x \/ List.find f (rev l) = None /\ f z = true /\ z = x)
    as [H'|(Hn & Hz & ->)].
  { revert H; generalize (rev l); clear IH; intros r.
    induction r as [|w r IHr]; simpl.
    - destruct (f z) eqn:E; [intros [=]; auto|done].
    - destruct (f w); auto. }
  - destruct (IH H') as (l1 & l2 & -> & ? & ?); exists (z :: l1), l2; auto.
  - exists [], l; split_and!; [done|done|].
    apply Forall_forall; intros y Hy; apply (find_none _ _ Hn).
    rewrite <- in_rev; by apply list_elem_of_In.
Qed.

(** * Preservation of the invariant *)

Lemma inv_putbuf s i b :
  bio_inv s -> (i < NB)%nat -> buf_ok (pid s) (disk s) b ->
  (b_dev b = ROOTDEV -> forall j, caches s j (b_blockno b) -> j = i) ->
  bio_inv (putbuf i b s).
Proof.
  intros H Hi Hb Hu. pose proof (inv_len _ H) as Hlen.
  assert (forall j, <[i := b]> (bufs s) !!! j = if decide (j = i) then b else bufs s !!! j) as Hlk.
  { intros j; rewrite list_lookup_total_insert; repeat case_decide; naive_solver lia. }
  destruct H; constructor; cbn; auto.
  - by rewrite length_insert.
  - intros j Hj; rewrite Hlk; case_decide; auto.
  - intros j k Hj Hk; rewrite !Hlk; repeat case_decide; subst; auto; intros.
    + symmetry; apply Hu; [done|]; split_and!; auto; congruence.
    + apply Hu; [done|]; split_and!; auto; congruence.
Qed.

Lemma inv_put_ctl s k : bio_inv s -> bio_inv (put_ctl k s).
Proof. intros []; constructor; auto. Qed.

Lemma inv_put_mru s l : bio_inv s -> l ≡ₚ seq 0 NB -> bio_inv (put_mru l s).
Proof. intros [] ?; constructor; auto. Qed.

Lemma move_front_perm i l : NoDup l -> In i l -> move_front i l ≡ₚ l.
Proof.
  intros Hn Hin; unfold move_front.
  induction l as [|x l IH]; [done|]; apply NoDup_cons in Hn as [Hx Hn]; simpl.
  destruct (Nat.eqb_spec i x) as [->|Hne]; simpl.
  - constructor; clear IH Hin. induction l as [|y l IH]; [done|].
    rewrite list_elem_of_In in Hx; simpl in Hx.
    apply NoDup_cons in Hn as [_ Hn]. simpl; destruct (Nat.eqb_spec x y); simpl; [naive_solver|].
    constructor; apply IH; [rewrite list_elem_of_In; naive_solver|done].
  - rewrite Permutation_swap; constructor; apply IH; [done|naive_solver].
Qed.

Lemma inv_move_front s i : bio_inv s -> (i < NB)%nat -> move_front i (mru s) ≡ₚ seq 0 NB.
Proof.
  intros H Hi. transitivity (mru s); [|by apply inv_mru]. apply move_front_perm.
  - rewrite (inv_mru _ H); apply NoDup_seq.
  - by apply mru_lt.
Qed.

Lemma sector_len s k : bio_inv s -> length (sector (disk s) k) = Z.to_nat BSIZE.
Proof.
  intros H; unfold sector, default; destruct (disk s !! k) eqn:E; [by eapply inv_sectors|].
  apply length_replicate.
Qed.

Lemma view_len s b : bio_inv s -> length (view s b) = Z.to_nat BSIZE.
Proof.
  intros H; unfold view; destruct (bcached ROOTDEV b s) as [i|] eqn:E.
  - apply bcached_Some in E; [|done]; destruct E as (Hi & _); by apply (inv_buf _ H).
  - by apply sector_len.
Qed.

Lemma binit_inv me d : (forall k v, d !! k = Some v -> length v = Z.to_nat BSIZE) ->
  bio_inv (binit me true d).
Proof.
  intros Hd.
  assert (forall i, (i < NB)%nat ->
    bufs (binit me true d) !!! i = mkbuf 0 0 0 initsleeplock 0 zero_block) as Hl.
  { intros i Hi; apply lookup_total_replicate_2; exact Hi. }
  constructor; auto.
  - symmetry; apply Permutation_rev.
  - intros i Hi; rewrite Hl by done; constructor; cbn; auto.
    + right; split; done.
    + left; split_and!; done.
    + done.
  - intros i j Hi Hj; rewrite !Hl by done; done.
Qed.

(** Nothing is cached at boot: the file system sees the disk. *)
Lemma binit_view me d b : view (binit me true d) b = sector d (ROOTDEV, b).
Proof.
  unfold view; destruct (bcached _ _ _) as [i|] eqn:E; [|done].
  apply find_some in E as [Hin Hp]; exfalso.
  apply in_rev in Hin; apply in_seq in Hin.
  unfold binit in Hp; cbn in Hp.
  rewrite lookup_total_replicate_2 in Hp by (unfold NB in *; lia); done.
Qed.

(** * Specifications of the operations

    [others] says that an operation on buffer [i] leaves the buffers held for
    other blocks, the view of other blocks and what is pinned alone. *)

Record bread_post (s : bio) (b : Z) (i : nat) (s' : bio) : Prop := {
  br_inv : bio_inv s';
  br_buf : is_buf s' i b;
  br_data : b_data (bufs s' !!! i) = view s b;
  br_view : forall x, view s' x = view s x;
  br_disk : disk s' = disk s;
  br_writes : writes s' = writes s;
  br_pid : pid s' = pid s;
  br_held : forall j x, is_buf s' j x <-> is_buf s j x \/ (j = i /\ x = b);
  br_other : forall j x, is_buf s j x -> bufs s' !!! j = bufs s !!! j;
  br_pinned : forall x, pinned s' x <-> pinned s x;
  br_dirty : hasflag B_DIRTY (bufs s' !!! i) = true <-> pinned s b;
  br_avail_pinned : pinned s b -> avail s' = avail s;
  br_avail : ~ pinned s b -> S (avail s') = avail s
}.

Lemma putbuf_lookup s i b j :
  length (bufs s) = NB -> (i < NB)%nat ->
  bufs (putbuf i b s) !!! j = if decide (j = i) then b else bufs s !!! j.
Proof.
  intros Hl Hi; cbn; rewrite list_lookup_total_insert.
  repeat case_decide; subst; try done; exfalso; naive_solver lia.
Qed.

Lemma not_held_unlocked s i b :
  bio_inv s -> caches s i b -> ~ held s b -> unlocked (bufs s !!! i).
Proof.
  intros H (Hi & Hd & Hb) Hh. destruct (ok_lock _ _ _ (inv_buf _ H i Hi)) as [Hl|]; [|done].
  destruct Hh; exists i; split_and!; done.
Qed.

Lemma caches_flags s i b :
  bio_inv s -> caches s i b ->
  b_flags (bufs s !!! i) = B_VALID \/ b_flags (bufs s !!! i) = Z.lor B_VALID B_DIRTY.
Proof.
  intros H (Hi & Hd & Hb). destruct (ok_id _ _ _ (inv_buf _ H i Hi)) as [(Hd' & _)|]; [|tauto].
  unfold ROOTDEV in *; lia.
Qed.

Lemma flags_valid b : b_flags b = B_VALID \/ b_flags b = Z.lor B_VALID B_DIRTY ->
  hasflag B_VALID b = true.
Proof. unfold hasflag; intros [-> | ->]; done. Qed.

Lemma flags_dirty b : b_flags b = B_VALID \/ b_flags b = Z.lor B_VALID B_DIRTY ->
  if hasflag B_DIRTY b then b_flags b = Z.lor B_VALID B_DIRTY else b_flags b = B_VALID.
Proof. unfold hasflag; intros [-> | ->]; done. Qed.

Lemma pinned_caches s i b : bio_inv s -> caches s i b ->
  pinned s b <-> hasflag B_DIRTY (bufs s !!! i) = true.
Proof.
  intros H Hc; split.
  - intros (j & ? & ? & ? & Hf). by rewrite (caches_inj s i j b H Hc ltac:(by split_and!)).
  - destruct Hc as (? & ? & ?); intros; exists i; split_and!; done.
Qed.

Lemma caches_dec s b : bio_inv s -> (exists i, caches s i b) \/ (forall i, ~ caches s i b).
Proof.
  intros H; destruct (bcached ROOTDEV b s) as [i|] eqn:E.
  - left; exists i; by apply bcached_Some.
  - right; by apply bcached_None.
Qed.

(** States that cache the same blocks with the same data show the same view. *)
Lemma view_ext s s' x :
  bio_inv s -> bio_inv s' -> (forall i, caches s' i x <-> caches s i x) ->
  (forall i, caches s i x -> b_data (bufs s' !!! i) = b_data (bufs s !!! i)) ->
  ((forall i, ~ caches s i x) -> sector (disk s') (ROOTDEV, x) = sector (disk s) (ROOTDEV, x)) ->
  view s' x = view s x.
Proof.
  intros H H' Hc Hd Hs. destruct (caches_dec s x H) as [[i Hi]|Hn].
  - rewrite (view_cached s' i), (view_cached s i); auto. by apply Hc.
  - rewrite (view_uncached s'), (view_uncached s); auto. intros i Hi; apply (Hn i); by apply Hc.
Qed.

Section SameId.
  (** A buffer replaced by one for the same block. *)
  Context (s : bio) (i : nat) (b : Z) (nb : buf).
  Context (Hinv : bio_inv s) (Hc : caches s i b).
  Context (Hdev : b_dev nb = ROOTDEV) (Hno : b_blockno nb = b).

Let Hi : (i < NB)%nat := proj1 Hc.
Let lk j := putbuf_lookup s i nb j (inv_len _ Hinv) Hi.

Lemma same_caches j x : caches (putbuf i nb s) j x <-> caches s j x.
Proof.
  unfold caches; rewrite lk; case_decide; subst; [|done].
  destruct Hc as (? & ? & ?); naive_solver.
Qed.

Lemma same_inv : buf_ok (pid s) (disk s) nb -> bio_inv (putbuf i nb s).
Proof.
  intros Hok; apply inv_putbuf; auto.
  intros _ j Hj; rewrite Hno in Hj; by eapply caches_inj.
Qed.

Lemma same_view x : buf_ok (pid s) (disk s) nb ->
  view (putbuf i nb s) x = if decide (x = b) then b_data nb else view s x.
Proof.
  intros Hok; pose proof (same_inv Hok) as Hinv'. case_decide as Hx.
  - subst x; rewrite (view_cached _ i) by (done || by apply same_caches).
    rewrite lk; by case_decide.
  - apply view_ext; auto; [intros; apply same_caches|].
    intros j (? & ? & ?); rewrite lk; case_decide; [subst; destruct Hc as (? & ? & ?); lia|done].
Qed.

Lemma same_pinned x :
  pinned (putbuf i nb s) x <-> if decide (x = b) then hasflag B_DIRTY nb = true else pinned s x.
Proof.
  unfold pinned; case_decide; [subst x|]; split.
  - intros (j & Hj & Hd & Hb & Hf). assert (caches s j b) as Hcj
      by (apply same_caches; by split_and!).
    rewrite (caches_inj s j i b) in Hf by done. rewrite lk in Hf; by case_decide.
  - intros Hf; exists i; rewrite lk; case_decide; [|done]; split_and!; done.
  - intros (j & Hj); exists j; rewrite lk in Hj; case_decide; [exfalso; subst j; naive_solver|done].
  - intros (j & Hj); exists j; rewrite lk; case_decide; [|done].
    subst j; destruct Hc as (? & ? & ?); exfalso; naive_solver.
Qed.

Lemma same_is_buf j x : is_buf (putbuf i nb s) j x <->
  if decide (j = i) then x = b /\ locked_by (pid s) nb else is_buf s j x.
Proof.
  unfold is_buf; rewrite lk; cbn; case_decide; [subst j|done]. naive_solver.
Qed.
End SameId.

Lemma buf_ok_lock p d b :
  buf_ok p d b -> b_dev b = ROOTDEV -> buf_ok p d (locked_buf p b).
Proof.
  intros [Hd Hl [(H0 & _)|Hid] _] Hdev; [unfold ROOTDEV in *; lia|].
  constructor; cbn; auto.
  - left; split; done.
  - intros [? _]; done.
Qed.

Lemma recyclable_unlocked b : unlocked b -> recyclable b = negb (hasflag B_DIRTY b).
Proof. intros [_ Hr]; unfold recyclable; rewrite Hr; done. Qed.

Lemma recyclable_locked p b : locked_by p b -> recyclable b = false.
Proof. intros [_ Hr]; unfold recyclable; rewrite Hr; done. Qed.

Lemma bread_spec_hit s b i :
  bio_inv s -> caches s i b -> ~ held s b ->
  exists s', bread ROOTDEV b s = Ok (i, s') /\ bread_post s b i s'.
Proof.
  intros H Hc Hh. pose proof Hc as (Hi & Hd & Hb).
  pose proof (not_held_unlocked _ _ _ H Hc Hh) as Hu.
  pose proof (caches_flags _ _ _ H Hc) as Hf.
  pose proof (buf_ok_lock _ _ _ (inv_buf _ H i Hi) Hd) as Hok.
  eexists; split.
  { apply bread_hit; auto; [by apply bcached_Some|by rewrite (inv_len _ H)|by apply flags_valid]. }
  set (nb := locked_buf (pid s) (bufs s !!! i)) in *.
  assert (hasflag B_DIRTY nb = hasflag B_DIRTY (bufs s !!! i)) as Hfl by done.
  pose proof (avail_putbuf s i nb H Hi) as Ha.
  rewrite recyclable_unlocked in Ha by done. rewrite (recyclable_locked (pid s) nb) in Ha by done.
  pose proof (pinned_caches s i b H Hc) as Hp.
  assert (forall j, bufs (putbuf i nb s) !!! j = if decide (j = i) then nb else bufs s !!! j) as lk
    by (intros; apply putbuf_lookup; [apply H|done]).
  constructor; try done.
  - by apply (same_inv s i b nb).
  - apply (same_is_buf s i b nb); auto. by case_decide.
  - rewrite lk; case_decide; [|done]. symmetry; by apply view_cached.
  - intros x; rewrite (same_view s i b nb) by done. case_decide; [|done].
    subst x; symmetry; by apply view_cached.
  - intros j x; rewrite (same_is_buf s i b nb) by done. case_decide; [subst j|naive_solver].
    split; [naive_solver|]. intros [(_ & _ & ? & Hl & _)|[_ ?]]; [|done].
    destruct Hu as [Hu _]; rewrite Hl in Hu; done.
  - intros j x Hj; rewrite lk; case_decide; [|done]. subst j.
    destruct Hj as (_ & _ & _ & Hl & _), Hu as [Hu _]; rewrite Hl in Hu; done.
  - intros x; rewrite (same_pinned s i b nb) by done. case_decide; [|done]. subst x; tauto.
  - rewrite lk; case_decide; [tauto|done].
  - rewrite Hp; intros E; rewrite E in Ha; simpl in Ha; lia.
  - rewrite Hp; intros E; destruct (hasflag _ (bufs s !!! i)); [done|]; simpl in Ha; lia.
Qed.

Lemma bread_spec_miss s b :
  bio_inv s -> (forall i, ~ caches s i b) -> 0 <= b < FSSIZE -> (1 <= avail s)%nat ->
  exists i s', bread ROOTDEV b s = Ok (i, s') /\ bread_post s b i s'.
Proof.
  intros H Hn Hb Ha0. destruct (bunused_avail s H Ha0) as [i Hu].
  destruct (bunused_Some s i H Hu) as [Hi Hr].
  assert (unlocked (bufs s !!! i)) as Hul.
  { destruct (ok_lock _ _ _ (inv_buf _ H i Hi)) as [Hl|]; [|done].
    by rewrite (recyclable_locked _ _ Hl) in Hr. }
  eexists i, _; split.
  { apply bread_miss; try apply H; auto; [by apply bcached_None|by rewrite (inv_len _ H)|lia]. }
  set (nb := mkbuf B_VALID ROOTDEV b _ 1 _).
  assert (bio_inv (putbuf i nb s)) as Hinv'.
  { apply inv_putbuf; auto; [|intros _ j Hj; by apply Hn in Hj].
    constructor; cbn; auto; [by apply sector_len|left; split; done]. }
  assert (forall j, bufs (putbuf i nb s) !!! j = if decide (j = i) then nb else bufs s !!! j) as lk
    by (intros; apply putbuf_lookup; [apply H|done]).
  pose proof (avail_putbuf s i nb H Hi) as Ha. rewrite Hr in Ha.
  replace (recyclable nb) with false in Ha by done.
  assert (~ pinned s b) as Hnp.
  { intros (j & ? & ? & ? & _); apply (Hn j); by split_and!. }
  assert (forall j x, caches (putbuf i nb s) j x <->
            if decide (j = i) then x = b else caches s j x) as Hca.
  { intros j x; unfold caches; rewrite lk; case_decide; subst; [|done]; cbn; naive_solver. }
  assert (hasflag B_DIRTY (bufs s !!! i) = false) as Hnd.
  { rewrite recyclable_unlocked in Hr by done. by apply negb_true_iff in Hr. }
  assert (forall x, view (putbuf i nb s) x = view s x) as Hv.
  { intros x. destruct (decide (x = b)) as [->|Hx].
    - rewrite (view_cached _ i), (view_uncached s) by (done || by apply Hca; case_decide).
      by rewrite lk; case_decide.
    - destruct (caches_dec s x H) as [[j Hj]|Hnx].
      + destruct (decide (j = i)) as [->|Hji].
        * rewrite (view_cached s i) by done. rewrite view_uncached; [|done|].
          -- symmetry. destruct Hj as (_ & Hdv & Hbn). rewrite <- Hbn.
             apply (ok_clean _ _ _ (inv_buf _ H i Hi)); [done|].
             pose proof (flags_dirty (bufs s !!! i) (caches_flags s i x H ltac:(by split_and!))) as Hf.
             by rewrite Hnd in Hf.
          -- intros k Hk; apply Hca in Hk; case_decide; [done|].
             by apply (caches_inj s k i x H) in Hj.
        * rewrite (view_cached s j), (view_cached _ j) by (done || by apply Hca; case_decide).
          by rewrite lk; case_decide.
      + rewrite (view_uncached s), view_uncached; try done.
        intros k Hk; apply Hca in Hk; case_decide; [done|by apply Hnx in Hk]. }
  constructor; try done.
  - by apply inv_put_ctl.
  - unfold is_buf; cbn -[lookup_total]; rewrite lk; case_decide; [|done]; split_and!; done.
  - cbn -[lookup_total]; rewrite lk; case_decide; [|done]. by rewrite view_uncached.
  - intros j x; unfold is_buf; cbn -[lookup_total]; rewrite lk; case_decide; [subst j|naive_solver].
    split; [naive_solver|]. intros [(_ & _ & _ & Hl & _)|[_ ->]]; [|by split_and!].
    destruct Hul as [Hul _]; rewrite Hl in Hul; done.
  - intros j x Hj; cbn -[lookup_total]; rewrite lk; case_decide; [|done]. subst j.
    destruct Hj as (_ & _ & _ & Hl & _), Hul as [Hul _]; rewrite Hl in Hul; done.
  - intros x; unfold pinned; cbn -[lookup_total]; split; intros (j & Hj).
    + rewrite lk in Hj; case_decide; [exfalso; naive_solver|by exists j].
    + exists j; rewrite lk; case_decide; [|done]. subst j; exfalso.
      destruct Hj as (_ & _ & _ & Hj); congruence.
  - cbn -[lookup_total]; rewrite lk; case_decide; [|done]; done.
  - unfold avail in *; cbn in *; lia.
Qed.

Lemma bread_spec s b :
  bio_inv s -> 0 <= b < FSSIZE -> ~ held s b -> (1 <= avail s)%nat \/ pinned s b ->
  exists i s', bread ROOTDEV b s = Ok (i, s') /\ bread_post s b i s'.
Proof.
  intros H Hb Hh Ha. destruct (caches_dec s b H) as [[i Hi]|Hn].
  - exists i; by apply bread_spec_hit.
  - apply bread_spec_miss; auto. destruct Ha as [Ha|(i & ? & ? & ? & _)]; [done|].
    exfalso; apply (Hn i); by split_and!.
Qed.

(** Effect of an operation on the buffer [i] held for block [b], which now has
    data [v] and is pinned iff [dirty]. *)
Record upd_post (s : bio) (i : nat) (b : Z) (v : bytes) (dirty : bool) (s' : bio) : Prop := {
  up_inv : bio_inv s';
  up_data : b_data (bufs s' !!! i) = v;
  up_view : forall x, view s' x = if decide (x = b) then v else view s x;
  up_pid : pid s' = pid s;
  up_held : forall j x, is_buf s' j x <-> is_buf s j x;
  up_other : forall j, j <> i -> bufs s' !!! j = bufs s !!! j;
  up_pinned : forall x, pinned s' x <-> if decide (x = b) then dirty = true else pinned s x;
  up_avail : avail s' = avail s
}.

(** Any rewriting of data and flags of a held buffer. *)
Lemma held_update s i b v (dirty : bool) :
  bio_inv s -> is_buf s i b -> length v = Z.to_nat BSIZE ->
  let nb := mkbuf (if dirty then Z.lor B_VALID B_DIRTY else B_VALID) ROOTDEV b
              (b_lock (bufs s !!! i)) 1 v in
  upd_post s i b v dirty (putbuf i nb s).
Proof.
  intros H Hb Hv nb. pose proof (is_buf_caches _ _ _ Hb) as Hc.
  pose proof Hb as (Hi & Hd & Hn & Hl & Hr). pose proof Hc as (_ & _ & _).
  assert (locked_by (pid s) nb) as Hlk by (split; done).
  assert (hasflag B_DIRTY nb = dirty) as Hfl by (by destruct dirty).
  assert (buf_ok (pid s) (disk s) nb) as Hok.
  { constructor; cbn; auto.
    - right; split_and!; try done.
      + destruct (ok_id _ _ _ (inv_buf _ H i Hi)) as [(? & _)|(_ & ? & _)];
          [unfold ROOTDEV in *; lia|lia].
      + destruct (ok_id _ _ _ (inv_buf _ H i Hi)) as [(? & _)|(_ & ? & _)];
          [unfold ROOTDEV in *; lia|lia].
      + destruct dirty; auto.
    - intros [E _]; cbn in E; rewrite Hl in E; done. }
  assert (forall j, bufs (putbuf i nb s) !!! j = if decide (j = i) then nb else bufs s !!! j) as lk
    by (intros; apply putbuf_lookup; [apply H|done]).
  pose proof (avail_putbuf s i nb H Hi) as Ha.
  rewrite (recyclable_locked (pid s) nb), (recyclable_locked (pid s) (bufs s !!! i)) in Ha
    by (by try split).
  constructor; try done.
  - by apply (same_inv s i b nb).
  - rewrite lk; by case_decide.
  - intros x; by rewrite (same_view s i b nb).
  - intros j x; rewrite (same_is_buf s i b nb) by done. case_decide; [subst j|done].
    split; [intros [-> _]; by split_and!|intros (_ & _ & ? & _); split; congruence].
  - intros j Hj; rewrite lk; by case_decide.
  - intros x; rewrite (same_pinned s i b nb) by done. by rewrite Hfl.
  - simpl in Ha; lia.
Qed.

Lemma held_flags s i b : bio_inv s -> is_buf s i b ->
  b_flags (bufs s !!! i) = if hasflag B_DIRTY (bufs s !!! i) then Z.lor B_VALID B_DIRTY else B_VALID.
Proof.
  intros H Hb. pose proof (flags_dirty _ (caches_flags _ _ _ H (is_buf_caches _ _ _ Hb))).
  by destruct (hasflag _ _).
Qed.

Lemma bset_spec s i b v :
  bio_inv s -> is_buf s i b -> length v = Z.to_nat BSIZE ->
  exists s', updbuf i (set_data v) s = Ok (tt, s') /\ disk s' = disk s /\ writes s' = writes s /\
    upd_post s i b v (hasflag B_DIRTY (bufs s !!! i)) s'.
Proof.
  intros H Hb Hv. eexists; split_and!; [reflexivity|done|done|].
  pose proof (held_update s i b v (hasflag B_DIRTY (bufs s !!! i)) H Hb Hv) as Hu; cbv zeta in Hu.
  rewrite <- (held_flags s i b) in Hu by done.
  unfold set_data. destruct Hb as (_ & -> & -> & _ & ->). exact Hu.
Qed.

(** [b->flags |= B_DIRTY], as [log_write] does. *)
Lemma bdirty_spec s i b :
  bio_inv s -> is_buf s i b ->
  exists s', updbuf i (fun b => set_flags (Z.lor (b_flags b) B_DIRTY) b) s = Ok (tt, s') /\
    disk s' = disk s /\ writes s' = writes s /\
    upd_post s i b (b_data (bufs s !!! i)) true s'.
Proof.
  intros H Hb. eexists; split_and!; [reflexivity|done|done|].
  assert (length (b_data (bufs s !!! i)) = Z.to_nat BSIZE) as Hv.
  { destruct Hb as (Hi & _); apply (inv_buf _ H i Hi). }
  pose proof (held_update s i b _ true H Hb Hv) as Hu; cbv zeta in Hu.
  unfold set_flags.
  replace (Z.lor (b_flags (bufs s !!! i)) B_DIRTY) with (Z.lor B_VALID B_DIRTY)
    by (rewrite (held_flags s i b) by done; by destruct (hasflag _ _)).
  destruct Hb as (_ & -> & -> & _ & ->). exact Hu.
Qed.

Lemma sector_put d k v x :
  sector (<[k := v]> d) x = if decide (x = k) then v else sector d x.
Proof.
  unfold sector; rewrite lookup_insert; repeat case_decide; naive_solver.
Qed.

(** Writing a held buffer through to its sector. *)
Lemma inv_put_sector s i b :
  bio_inv s -> is_buf s i b -> bio_inv (put_sector (ROOTDEV, b) (b_data (bufs s !!! i)) s).
Proof.
  intros H Hb. pose proof Hb as (Hi & Hd & Hn & Hl & Hr).
  pose proof H as [? ? ? ? ? Hs Hok Hu]; constructor; cbn; auto.
  - intros k v. rewrite lookup_insert; case_decide; [|apply Hs].
    intros [= <-]; apply (Hok i Hi).
  - intros j Hj. destruct (Hok j Hj) as [? ? ? Hcl]; constructor; auto.
    intros Hun Hf. rewrite sector_put; case_decide as E; [|by apply Hcl].
    destruct ok_id0 as [(_ & E' & _)|(Hdj & _ & _)]; [by rewrite Hf in E'|].
    assert (j = i) as ->; [|by destruct Hun as [Hun _]; rewrite Hl in Hun].
    apply Hu; auto; congruence.
Qed.

Lemma bwrite_spec s i b :
  bio_inv s -> is_buf s i b ->
  exists s', bwrite i s = Ok (tt, s') /\
    disk s' = <[(ROOTDEV, b) := b_data (bufs s !!! i)]> (disk s) /\
    writes s' = writes s ++ [((ROOTDEV, b), b_data (bufs s !!! i))] /\
    upd_post s i b (b_data (bufs s !!! i)) false s'.
Proof.
  intros H Hb. pose proof Hb as (Hi & Hd & Hn & Hl & Hr).
  pose proof (is_buf_caches _ _ _ Hb) as Hc.
  assert (0 <= b < FSSIZE) as Hbr.
  { destruct (ok_id _ _ _ (inv_buf _ H i Hi)) as [(? & _)|(_ & ? & _)];
      [unfold ROOTDEV in *; lia|by subst b]. }
  eexists; split_and!.
  { apply (bwrite_run s i b); auto; [by rewrite (inv_len _ H)|by eapply caches_flags|apply H|apply H|lia]. }
  { done. } { done. }
  assert (length (b_data (bufs s !!! i)) = Z.to_nat BSIZE) as Hv by apply (inv_buf _ H i Hi).
  pose proof (held_update s i b _ false H Hb Hv) as Hu; cbv zeta in Hu.
  unfold set_flags. rewrite Hd, Hn, Hr.
  set (nb := mkbuf B_VALID _ _ _ _ _) in *. set (s1 := putbuf i nb s) in *.
  assert (bio_inv (put_sector (ROOTDEV, b) (b_data (bufs s !!! i)) s1)) as Hinv.
  { rewrite <- (up_data _ _ _ _ _ _ Hu) at 1. apply inv_put_sector; [apply Hu|by apply Hu]. }
  destruct Hu as [Hu1 Hu2 Hu3 Hu4 Hu5 Hu6 Hu7 Hu8].
  constructor; auto.
  - by apply (inv_put_ctl _ (ROOTDEV, b)) in Hinv.
  - intros x. rewrite <- Hu3. apply view_ext; [done|by apply (inv_put_ctl _ (ROOTDEV, b)) in Hinv|done|done|].
    intros Hnc. cbn. rewrite sector_put; case_decide; [|done].
    exfalso; apply (Hnc i). apply is_buf_caches, Hu5. by simplify_eq.
Qed.

(** [brelse] of a buffer whose data is pinned or equal to its sector. *)
Record brelse_post (s : bio) (i : nat) (b : Z) (s' : bio) : Prop := {
  rl_inv : bio_inv s';
  rl_view : forall x, view s' x = view s x;
  rl_disk : disk s' = disk s;
  rl_writes : writes s' = writes s;
  rl_pid : pid s' = pid s;
  rl_held : forall j x, is_buf s' j x <-> is_buf s j x /\ j <> i;
  rl_other : forall j, j <> i -> bufs s' !!! j = bufs s !!! j;
  rl_pinned : forall x, pinned s' x <-> pinned s x;
  rl_avail_pinned : pinned s b -> avail s' = avail s;
  rl_avail : ~ pinned s b -> avail s' = S (avail s)
}.

Lemma brelse_spec s i b :
  bio_inv s -> is_buf s i b ->
  pinned s b \/ b_data (bufs s !!! i) = sector (disk s) (ROOTDEV, b) ->
  exists s', brelse i s = Ok (tt, s') /\ brelse_post s i b s'.
Proof.
  intros H Hb Hcl. pose proof Hb as (Hi & Hd & Hn & Hlk). pose proof (is_buf_caches _ _ _ Hb) as Hc.
  pose proof (pinned_caches s i b H Hc) as Hp.
  eexists; split; [apply brelse_run; [by rewrite (inv_len _ H)|done]|].
  set (nb := released_buf (bufs s !!! i)).
  assert (unlocked nb) as Hul by (split; done).
  assert (buf_ok (pid s) (disk s) nb) as Hok.
  { destruct (inv_buf _ H i Hi) as [? ? Hid _]; constructor; cbn; auto.
    - destruct Hid as [(? & ? & _)|?]; [left; split_and!; done|by right].
    - intros _ Hf; rewrite Hn. destruct Hcl as [Hpin|]; [|done].
      apply Hp in Hpin; unfold hasflag in Hpin; by rewrite Hf in Hpin. }
  assert (bio_inv (putbuf i nb s)) as Hinv1 by (by apply (same_inv s i b nb)).
  assert (bio_inv (put_mru (move_front i (mru s)) (putbuf i nb s))) as Hinv2
    by (apply inv_put_mru; [done|by apply inv_move_front]).
  pose proof (avail_putbuf s i nb H Hi) as Ha.
  rewrite (recyclable_locked (pid s) (bufs s !!! i)), (recyclable_unlocked nb) in Ha by done.
  replace (hasflag B_DIRTY nb) with (hasflag B_DIRTY (bufs s !!! i)) in Ha by done.
  constructor; auto.
  - intros x. transitivity (view (putbuf i nb s) x).
    { by apply view_ext. }
    rewrite (same_view s i b nb) by done. case_decide; [|done]. subst x; symmetry; by apply view_cached.
  - intros j x. transitivity (is_buf (putbuf i nb s) j x); [done|].
    rewrite (same_is_buf s i b nb) by done. case_decide; [|tauto].
    subst j; split; [|tauto]. intros [_ [Hl _]]; done.
  - intros j Hj. pose proof (putbuf_lookup s i nb j (inv_len _ H) Hi) as Hlk'. by case_decide.
  - intros x. transitivity (pinned (putbuf i nb s) x); [done|].
    rewrite (same_pinned s i b nb) by done. case_decide; [subst x; by rewrite Hp|done].
  - rewrite Hp; intros E; rewrite E in Ha; unfold avail in *; simpl in *; lia.
  - rewrite Hp; intros E. destruct (hasflag _ (bufs s !!! i)); [done|]; unfold avail in *; simpl in *; lia.
Qed.
