(* ===== verification/Log.v ===== *)
(** The write-ahead log (log.c): transactions of file system calls, commit and
    recovery. *)

From S2P Require Import Prelude Bio.
Local Open Scope Z_scope.

(** * The super block (fs.h) *)

Record superblock := mksb {
  sb_size : Z;
  sb_nblocks : Z;
  sb_ninodes : Z;
  sb_nlog : Z;
  sb_logstart : Z;
  sb_inodestart : Z;
  sb_bmapstart : Z
}.

Definition decode_sb (d : bytes) : superblock :=
  mksb (ld 4 d 0) (ld 4 d 4) (ld 4 d 8) (ld 4 d 12) (ld 4 d 16) (ld 4 d 20) (ld 4 d 24).

(** * State: [struct log] above the block layer *)

Record log := mklog {
  l_start : Z;
  l_size : Z;
  l_outstanding : Z;
  l_committing : bool;
  l_dev : Z;
  lh_n : Z;
  lh_block : list Z
}.

Record lstate := mklstate { l_bio : bio; l_log : log }.

Definition put_bio (b : bio) (s : lstate) : lstate := mklstate b (l_log s).
Definition put_log (l : log) (s : lstate) : lstate := mklstate (l_bio s) l.
Definition bio_do {A} (m : M bio A) : M lstate A := zoom l_bio put_bio m.

Definition set_n (n : Z) (l : log) : log :=
  mklog (l_start l) (l_size l) (l_outstanding l) (l_committing l) (l_dev l) n (lh_block l).
Definition set_head (n : Z) (blocks : list Z) (l : log) : log :=
  mklog (l_start l) (l_size l) (l_outstanding l) (l_committing l) (l_dev l) n blocks.
Definition set_outstanding (n : Z) (l : log) : log :=
  mklog (l_start l) (l_size l) n (l_committing l) (l_dev l) (lh_n l) (lh_block l).
Definition set_committing (c : bool) (l : log) : log :=
  mklog (l_start l) (l_size l) (l_outstanding l) c (l_dev l) (lh_n l) (lh_block l).
Definition set_geometry (start size dev : Z) (l : log) : log :=
  mklog start size (l_outstanding l) (l_committing l) dev (lh_n l) (lh_block l).

Definition updlog (f : log -> log) : M lstate unit := modify (fun s => put_log (f (l_log s)) s).

Definition readsb (dev : Z) : M bio superblock :=
  let! bp := bread dev 1 in
  let! b := getbuf bp in
  let sb := decode_sb (b_data b) in
  do! brelse bp in
  ret sb.

(** * The log header block: [int n; int block[LOGSIZE]] *)

Definition SIZEOF_LOGHEADER : Z := 4 + 4 * LOGSIZE.

Definition hd_n (d : bytes) : Z := s32 (ld 4 d 0).
Definition hd_block (d : bytes) (i : nat) : Z := s32 (ld 4 d (4 + 4 * i)).

Fixpoint read_head_loop (k : nat) (i : nat) (d : bytes) (blocks : list Z) : outcome (list Z) :=
  match k with
  | O => Ok blocks
  | S k' =>
      if (Z.of_nat i <? LOGSIZE)
      then read_head_loop k' (S i) d (<[i := hd_block d i]> blocks)
      else UB
  end.

Definition read_head : M lstate unit :=
  let! lg := gets l_log in
  let! buf := bio_do (bread (l_dev lg) (u32 (l_start lg))) in
  let! b := bio_do (getbuf buf) in
  let n := hd_n (b_data b) in
  match read_head_loop (Z.to_nat n) 0 (b_data b) (lh_block lg) with
  | Ok blocks => do! updlog (set_head n blocks) in bio_do (brelse buf)
  | _ => undefined
  end.

Fixpoint write_head_loop (k : nat) (i : nat) (blocks : list Z) (d : bytes) : bytes :=
  match k with
  | O => d
  | S k' => write_head_loop k' (S i) blocks (st 4 d (4 + 4 * i) (blocks !!! i))
  end.

Definition write_head : M lstate unit :=
  let! lg := gets l_log in
  let! buf := bio_do (bread (l_dev lg) (u32 (l_start lg))) in
  do! bio_do (updbuf buf (fun b => set_data (st 4 (b_data b) 0 (lh_n lg)) b)) in
  do! bio_do (updbuf buf (fun b =>
        set_data (write_head_loop (Z.to_nat (lh_n lg)) 0 (lh_block lg) (b_data b)) b)) in
  do! bio_do (bwrite buf) in
  bio_do (brelse buf).

(** * Moving blocks between the log and their home locations *)

Definition install_one (dev lb hb : Z) : M bio unit :=
  let! lbuf := bread dev lb in
  let! dbuf := bread dev hb in
  let! l := getbuf lbuf in
  do! updbuf dbuf (fun b => set_data (splice (b_data b) 0 (b_data l)) b) in
  do! bwrite dbuf in
  do! brelse lbuf in
  brelse dbuf.

Fixpoint install_loop (k : nat) (tail : nat) : M lstate unit :=
  match k with
  | O => ret tt
  | S k' =>
      let! lg := gets l_log in
      do! bio_do (install_one (l_dev lg) (u32 (l_start lg + Z.of_nat tail + 1)) (u32 (lh_block lg !!! tail))) in
      install_loop k' (S tail)
  end.

Definition install_trans : M lstate unit :=
  let! lg := gets l_log in install_loop (Z.to_nat (lh_n lg)) 0.

Definition write_log_one (dev lb hb : Z) : M bio unit :=
  let! to := bread dev lb in
  let! from := bread dev hb in
  let! f := getbuf from in
  do! updbuf to (fun b => set_data (splice (b_data b) 0 (b_data f)) b) in
  do! bwrite to in
  do! brelse from in
  brelse to.

Fixpoint write_log_loop (k : nat) (tail : nat) : M lstate unit :=
  match k with
  | O => ret tt
  | S k' =>
      let! lg := gets l_log in
      do! bio_do (write_log_one (l_dev lg) (u32 (l_start lg + Z.of_nat tail + 1)) (u32 (lh_block lg !!! tail))) in
      write_log_loop k' (S tail)
  end.

Definition write_log : M lstate unit :=
  let! lg := gets l_log in write_log_loop (Z.to_nat (lh_n lg)) 0.

Definition commit : M lstate unit :=
  let! lg := gets l_log in
  if lh_n lg >? 0 then
    do! write_log in
    do! write_head in
    do! install_trans in
    do! updlog (set_n 0) in
    write_head
  else ret tt.

Definition recover_from_log : M lstate unit :=
  do! read_head in
  do! install_trans in
  do! updlog (set_n 0) in
  write_head.

Definition initlog (dev : Z) : M lstate unit :=
  if SIZEOF_LOGHEADER >=? BSIZE then panic "initlog: too big logheader" else
  let! sb := bio_do (readsb dev) in
  do! updlog (set_geometry (s32 (sb_logstart sb)) (s32 (sb_nlog sb)) dev) in
  recover_from_log.

(** * Transactions *)

(** One pass of the waiting loop; waiting is [Sleep]. *)
Definition begin_op : M lstate unit :=
  let! lg := gets l_log in
  if l_committing lg then sleep else
  if lh_n lg + (l_outstanding lg + 1) * MAXOPBLOCKS >? LOGSIZE then sleep else
  updlog (set_outstanding (l_outstanding lg + 1)).

Definition end_op : M lstate unit :=
  do! updlog (fun l => set_outstanding (l_outstanding l - 1) l) in
  let! lg := gets l_log in
  if l_committing lg then panic "log.committing" else
  if l_outstanding lg =? 0 then
    do! updlog (set_committing true) in
    do! commit in
    updlog (set_committing false)
  else ret tt.

(** First index below [n] that already logs block [b], else [n]. *)
Fixpoint log_slot (blocks : list Z) (b : Z) (i n : nat) : nat :=
  match n with
  | O => i
  | S n' => if u32 (blocks !!! i) =? b then i else log_slot blocks b (S i) n'
  end.

Definition log_write (i : nat) : M lstate unit :=
  let! lg := gets l_log in
  if (lh_n lg >=? LOGSIZE) || (lh_n lg >=? l_size lg - 1) then panic "too big a transaction" else
  if l_outstanding lg <? 1 then panic "log_write outside of trans" else
  let! b := bio_do (getbuf i) in
  let k := log_slot (lh_block lg) (b_blockno b) 0 (Z.to_nat (lh_n lg)) in
  let blocks := <[k := s32 (b_blockno b)]> (lh_block lg) in
  let n := if Z.of_nat k =? lh_n lg then lh_n lg + 1 else lh_n lg in
  do! updlog (set_head n blocks) in
  bio_do (updbuf i (fun b => set_flags (Z.lor (b_flags b) B_DIRTY) b)).

(** * Crashes

    A crash keeps the disk and loses the caches: the disk after the first [k]
    sector writes.  The machine then boots with zeroed memory. *)

Definition apply_write (d : diskmap) (w : (Z * Z) * bytes) : diskmap := <[w.1 := w.2]> d.
Definition apply_writes (d : diskmap) (ws : list ((Z * Z) * bytes)) : diskmap :=
  fold_left apply_write ws d.

Definition log0 : log := mklog 0 0 0 false 0 0 (replicate (Z.to_nat LOGSIZE) 0).
Definition boot (me : Z) (d : diskmap) : lstate := mklstate (binit me true d) log0.

(** * One block moved *)

Definition none_held (s : bio) : Prop := forall i b, ~ is_buf s i b.

Lemma none_held_not s b : none_held s -> ~ held s b.
Proof. intros H [i Hi]; by apply (H i b). Qed.

(** A block that is neither held nor pinned is on disk as the kernel sees it. *)
Lemma view_clean s b :
  bio_inv s -> ~ held s b -> ~ pinned s b -> view s b = sector (disk s) (ROOTDEV, b).
Proof.
  intros H Hh Hp. destruct (caches_dec s b H) as [[i Hc]|Hn]; [|by apply view_uncached].
  rewrite (view_cached s i b H Hc). pose proof Hc as (Hi & Hd & Hb).
  pose proof (flags_dirty _ (caches_flags s i b H Hc)) as Hf.
  rewrite (pinned_caches s i b H Hc) in Hp. destruct (hasflag _ _); [done|].
  rewrite <- Hb. apply (ok_clean _ _ _ (inv_buf _ H i Hi)); [|done].
  by eapply not_held_unlocked.
Qed.

#[export] Instance pinned_dec s b : Decision (pinned s b).
Proof.
  destruct (existsb (fun i => (b_dev (bufs s !!! i) =? ROOTDEV) && (b_blockno (bufs s !!! i) =? b)
    && hasflag B_DIRTY (bufs s !!! i)) (seq 0 NB)) eqn:E; [left|right].
  - apply existsb_exists in E as (i & Hi & Hp). apply in_seq in Hi.
    apply andb_true_iff in Hp as [Hp Hf]. exists i; split_and!; lia || done.
  - intros (i & Hi & Hd & Hb & Hf). rewrite <- not_true_iff_false, existsb_exists in E.
    apply E; exists i; rewrite in_seq, Hd, Hb, Hf, !Z.eqb_refl; split; [lia|done].
Qed.

(** The state after a sector of block [x] has been written with [v]. *)
Record wrote (s : bio) (x : Z) (v : bytes) (s' : bio) : Prop := {
  wr_inv : bio_inv s';
  wr_none : none_held s';
  wr_pid : pid s' = pid s;
  wr_disk : disk s' = <[(ROOTDEV, x) := v]> (disk s);
  wr_writes : writes s' = writes s ++ [((ROOTDEV, x), v)];
  wr_view : forall y, view s' y = if decide (y = x) then v else view s y;
  wr_pinned : forall y, pinned s' y <-> pinned s y /\ y <> x;
  wr_avail : (avail s <= avail s')%nat
}.

Section MoveBlock.
  (** Both directions of the copy: [src] and [dst] are read in some order,
      [dst] is overwritten, written out, and both are released. *)
  Context (s : bio) (src dst : Z) (isrc idst : nat) (s2 : bio).
  Context (Hinv : bio_inv s) (Hnone : none_held s) (Hne : src <> dst).
  Context (Hinv2 : bio_inv s2) (Hsrc : is_buf s2 isrc src) (Hdst : is_buf s2 idst dst).
  Context (Hheld2 : forall j x, is_buf s2 j x <-> (j = isrc /\ x = src) \/ (j = idst /\ x = dst)).
  Context (Hview2 : forall x, view s2 x = view s x) (Hdisk2 : disk s2 = disk s).
  Context (Hwr2 : writes s2 = writes s) (Hpid2 : pid s2 = pid s).
  Context (Hpin2 : forall x, pinned s2 x <-> pinned s x).
  Context (Hav : (avail s <= avail s2 + (if decide (pinned s src) then 0 else 1)
                              + (if decide (pinned s dst) then 0 else 1))%nat).

Lemma move_block :
  exists s', (let! f := getbuf isrc in
              do! updbuf idst (fun b => set_data (splice (b_data b) 0 (b_data f)) b) in
              do! bwrite idst in
              do! brelse isrc in
              brelse idst) s2 = Ok (tt, s') /\ wrote s dst (view s src) s'.
Proof.
  assert (isrc <> idst) as Hij by (intros ->; destruct Hsrc as (_ & _ & ? & _), Hdst as (_ & _ & ? & _); lia).
  pose proof (view_cached _ _ _ Hinv2 (is_buf_caches _ _ _ Hsrc)) as Hvs. rewrite Hview2 in Hvs.
  assert (length (b_data (bufs s2 !!! isrc)) = Z.to_nat BSIZE) as Hl1
    by (destruct Hsrc as (Hi & _); apply (inv_buf _ Hinv2 _ Hi)).
  assert (length (b_data (bufs s2 !!! idst)) = Z.to_nat BSIZE) as Hl2
    by (destruct Hdst as (Hi & _); apply (inv_buf _ Hinv2 _ Hi)).
  destruct (bset_spec s2 idst dst (view s src)) as (s3 & E3 & Hd3 & Hw3 & U3); [done|done|congruence|].
  assert (is_buf s3 idst dst) as Hdst3 by (by apply (up_held _ _ _ _ _ _ U3)).
  destruct (bwrite_spec s3 idst dst) as (s4 & E4 & Hd4 & Hw4 & U4); [apply U3|done|].
  rewrite (up_data _ _ _ _ _ _ U3) in *.
  assert (is_buf s4 isrc src) as Hsrc4 by (by apply (up_held _ _ _ _ _ _ U4), (up_held _ _ _ _ _ _ U3)).
  assert (forall x, pinned s4 x <-> pinned s x /\ x <> dst) as Hpin4.
  { intros x; rewrite (up_pinned _ _ _ _ _ _ U4); destruct (decide (x = dst)); [split; [intros [=]|tauto]|].
    rewrite (up_pinned _ _ _ _ _ _ U3), decide_False, Hpin2 by done; tauto. }
  destruct (brelse_spec s4 isrc src) as (s5 & E5 & R5); [apply U4|done| |].
  { destruct (decide (pinned s src)); [left; by apply Hpin4|right].
    rewrite (up_other _ _ _ _ _ _ U4), (up_other _ _ _ _ _ _ U3) by done.
    rewrite Hd4, sector_put, Hd3, Hdisk2, decide_False by congruence.
    rewrite <- Hvs; apply view_clean; [done|by apply none_held_not|done]. }
  assert (is_buf s5 idst dst) as Hdst5 by (apply (rl_held _ _ _ _ R5); split; [by apply (up_held _ _ _ _ _ _ U4)|done]).
  destruct (brelse_spec s5 idst dst) as (s6 & E6 & R6); [apply R5|done| |].
  { right. rewrite (rl_disk _ _ _ _ R5), Hd4, sector_put, decide_True by done.
    rewrite (rl_other _ _ _ _ R5) by done. apply U4. }
  exists s6; split.
  { unfold bind at 1; unfold getbuf at 1, gets at 1.
    assert (updbuf idst (fun b => set_data (splice (b_data b) 0 (b_data (bufs s2 !!! isrc))) b) s2
            = Ok (tt, s3)) as E3'.
    { rewrite <- E3; unfold updbuf, modify; rewrite splice_full by congruence; by rewrite Hvs. }
    mstep E3'; mstep E4; mstep E5; exact E6. }
  assert (forall x, pinned s6 x <-> pinned s x /\ x <> dst) as Hpin6
    by (intros x; by rewrite (rl_pinned _ _ _ _ R6), (rl_pinned _ _ _ _ R5), Hpin4).
  constructor; try apply R6.
  - intros j x Hj. apply (rl_held _ _ _ _ R6) in Hj as [Hj Hj1].
    apply (rl_held _ _ _ _ R5) in Hj as [Hj Hj2].
    apply (up_held _ _ _ _ _ _ U4), (up_held _ _ _ _ _ _ U3), Hheld2 in Hj; tauto.
  - by rewrite (rl_pid _ _ _ _ R6), (rl_pid _ _ _ _ R5), (up_pid _ _ _ _ _ _ U4), (up_pid _ _ _ _ _ _ U3).
  - by rewrite (rl_disk _ _ _ _ R6), (rl_disk _ _ _ _ R5), Hd4, Hd3, Hdisk2.
  - by rewrite (rl_writes _ _ _ _ R6), (rl_writes _ _ _ _ R5), Hw4, Hw3, Hwr2.
  - intros y. rewrite (rl_view _ _ _ _ R6), (rl_view _ _ _ _ R5), (up_view _ _ _ _ _ _ U4).
    destruct (decide (y = dst)); [done|]. rewrite (up_view _ _ _ _ _ _ U3), decide_False by done. apply Hview2.
  - done.
  - rewrite (rl_avail _ _ _ _ R6) by (rewrite (rl_pinned _ _ _ _ R5), Hpin4; tauto).
    assert (avail s4 = avail s2) as Ha4
      by (by rewrite (up_avail _ _ _ _ _ _ U4), (up_avail _ _ _ _ _ _ U3)).
    destruct (decide (pinned s src)) as [Hp|Hp], (decide (pinned s dst)).
    1, 2: rewrite (rl_avail_pinned _ _ _ _ R5) by (by apply Hpin4); lia.
    all: rewrite (rl_avail _ _ _ _ R5) by (rewrite Hpin4; tauto); lia.
Qed.
End MoveBlock.

Lemma write_log_one_spec s lb hb :
  bio_inv s -> none_held s -> lb <> hb -> 0 <= lb < FSSIZE -> 0 <= hb < FSSIZE ->
  (1 <= avail s)%nat -> pinned s hb -> ~ pinned s lb ->
  exists s', write_log_one ROOTDEV lb hb s = Ok (tt, s') /\ wrote s lb (view s hb) s'.
Proof.
  intros H Hn Hne Hlb Hhb Ha Hph Hpl.
  destruct (bread_spec s lb) as (i & s1 & E1 & B1); [done|done|by apply none_held_not|by left|].
  destruct (bread_spec s1 hb) as (j & s2 & E2 & B2);
    [apply B1|done| |right; by apply (br_pinned _ _ _ _ B1)|].
  { intros [k Hk]; apply (br_held _ _ _ _ B1) in Hk as [Hk|[_ ?]]; [by apply Hn in Hk|done]. }
  destruct (move_block s hb lb j i s2) as (s' & E & W); try done.
  - apply B2.
  - apply B2.
  - apply (br_held _ _ _ _ B2); left; apply B1.
  - intros k x; rewrite (br_held _ _ _ _ B2), (br_held _ _ _ _ B1).
    split; [intros [[Hk|]|]; [by apply Hn in Hk|tauto|tauto]|tauto].
  - intros x; by rewrite (br_view _ _ _ _ B2), (br_view _ _ _ _ B1).
  - by rewrite (br_disk _ _ _ _ B2), (br_disk _ _ _ _ B1).
  - by rewrite (br_writes _ _ _ _ B2), (br_writes _ _ _ _ B1).
  - by rewrite (br_pid _ _ _ _ B2), (br_pid _ _ _ _ B1).
  - intros x; by rewrite (br_pinned _ _ _ _ B2), (br_pinned _ _ _ _ B1).
  - rewrite (br_avail_pinned _ _ _ _ B2) by (by apply (br_pinned _ _ _ _ B1)).
    pose proof (br_avail _ _ _ _ B1 Hpl). repeat case_decide; done || lia.
  - exists s'; split; [|done]. unfold write_log_one; mstep E1; mstep E2; exact E.
Qed.

Lemma install_one_spec s lb hb :
  bio_inv s -> none_held s -> lb <> hb -> 0 <= lb < FSSIZE -> 0 <= hb < FSSIZE ->
  (2 <= avail s)%nat \/ ((1 <= avail s)%nat /\ pinned s hb) -> ~ pinned s lb ->
  exists s', install_one ROOTDEV lb hb s = Ok (tt, s') /\ wrote s hb (view s lb) s'.
Proof.
  intros H Hn Hne Hlb Hhb Ha Hpl.
  destruct (bread_spec s lb) as (i & s1 & E1 & B1); [done|done|by apply none_held_not|left; lia|].
  pose proof (br_avail _ _ _ _ B1 Hpl) as Ha1.
  destruct (bread_spec s1 hb) as (j & s2 & E2 & B2); [apply B1|done| | |].
  { intros [k Hk]; apply (br_held _ _ _ _ B1) in Hk as [Hk|[_ ?]]; [by apply Hn in Hk|done]. }
  { destruct Ha as [Ha|[_ Hp]]; [left; lia|right; by apply (br_pinned _ _ _ _ B1)]. }
  destruct (move_block s lb hb i j s2) as (s' & E & W); try done.
  - apply B2.
  - apply (br_held _ _ _ _ B2); left; apply B1.
  - apply B2.
  - intros k x; rewrite (br_held _ _ _ _ B2), (br_held _ _ _ _ B1).
    split; [intros [[Hk|]|]; [by apply Hn in Hk|tauto|tauto]|tauto].
  - intros x; by rewrite (br_view _ _ _ _ B2), (br_view _ _ _ _ B1).
  - by rewrite (br_disk _ _ _ _ B2), (br_disk _ _ _ _ B1).
  - by rewrite (br_writes _ _ _ _ B2), (br_writes _ _ _ _ B1).
  - by rewrite (br_pid _ _ _ _ B2), (br_pid _ _ _ _ B1).
  - intros x; by rewrite (br_pinned _ _ _ _ B2), (br_pinned _ _ _ _ B1).
  - rewrite (decide_False (P := pinned s lb)) by done. case_decide as Hp.
    + rewrite (br_avail_pinned _ _ _ _ B2) by (by apply (br_pinned _ _ _ _ B1)); lia.
    + pose proof (br_avail _ _ _ _ B2 ltac:(by rewrite (br_pinned _ _ _ _ B1))); lia.
  - exists s'; split; [|done]. unfold install_one; mstep E1; mstep E2; exact E.
Qed.

(** * Sequences of sector writes *)

Definition assign (f : Z -> bytes) (w : Z * bytes) : Z -> bytes :=
  fun y => if decide (y = w.1) then w.2 else f y.
Definition after (ws : list (Z * bytes)) (f : Z -> bytes) : Z -> bytes := fold_left assign ws f.

Lemma after_app ws ws' f : after (ws ++ ws') f = after ws' (after ws f).
Proof. apply fold_left_app. Qed.

Lemma after_ext ws f g y : f y = g y -> after ws f y = after ws g y.
Proof.
  revert f g; induction ws as [|w ws IH]; intros f g H; simpl; [done|].
  apply IH; unfold assign; by case_decide.
Qed.

Lemma after_notin ws f y : y ∉ ws.*1 -> after ws f y = f y.
Proof.
  revert f; induction ws as [|w ws IH]; intros f H; simpl; [done|].
  apply not_elem_of_cons in H as [H1 H2]. rewrite IH by done.
  unfold assign; by rewrite decide_False.
Qed.

Lemma after_in ws f i x v :
  NoDup ws.*1 -> ws !! i = Some (x, v) -> after ws f x = v.
Proof.
  revert f i; induction ws as [|w ws IH]; intros f i Hn Hi; [done|].
  apply NoDup_cons in Hn as [Hw Hn]. destruct i as [|i]; simplify_eq/=.
  - rewrite after_notin by done. unfold assign; by rewrite decide_True.
  - by eapply IH.
Qed.

Definition tag (w : Z * bytes) : (Z * Z) * bytes := ((ROOTDEV, w.1), w.2).
Definition sectors (d : diskmap) (b : Z) : bytes := sector d (ROOTDEV, b).

Lemma sectors_apply ws d y : sectors (apply_writes d (tag <$> ws)) y = after ws (sectors d) y.
Proof.
  revert d; induction ws as [|[x v] ws IH]; intros d; simpl; [done|].
  unfold apply_writes in *; simpl; rewrite IH. apply after_ext.
  unfold sectors, assign, apply_write; simpl. rewrite sector_put.
  repeat case_decide; congruence.
Qed.

(** The state after the sectors [ws] have been written. *)
Record wrote_all (s : bio) (ws : list (Z * bytes)) (s' : bio) : Prop := {
  wa_inv : bio_inv s';
  wa_none : none_held s';
  wa_pid : pid s' = pid s;
  wa_disk : disk s' = apply_writes (disk s) (tag <$> ws);
  wa_writes : writes s' = writes s ++ (tag <$> ws);
  wa_view : forall y, view s' y = after ws (view s) y;
  wa_pinned : forall y, pinned s' y <-> pinned s y /\ y ∉ ws.*1;
  wa_avail : (avail s <= avail s')%nat
}.

Lemma wrote_all_nil s : bio_inv s -> none_held s -> wrote_all s [] s.
Proof.
  intros; constructor; auto; [by rewrite app_nil_r|].
  intros y; split; [|tauto]. split; [done|apply not_elem_of_nil].
Qed.

Lemma wrote_all_one s x v s' : wrote s x v s' -> wrote_all s [(x, v)] s'.
Proof.
  intros []; constructor; auto.
  intros y; rewrite wr_pinned0; simpl. by rewrite list_elem_of_singleton.
Qed.

Lemma wrote_all_app s ws s1 ws' s2 :
  wrote_all s ws s1 -> wrote_all s1 ws' s2 -> wrote_all s (ws ++ ws') s2.
Proof.
  intros [A1 A2 A3 A4 A5 A6 A7 A8] [B1 B2 B3 B4 B5 B6 B7 B8]; constructor; auto; try congruence.
  - rewrite B4, A4, fmap_app. unfold apply_writes; by rewrite fold_left_app.
  - by rewrite B5, A5, fmap_app, app_assoc.
  - intros y. rewrite B6, after_app. apply after_ext, A6.
  - intros y. rewrite B7, A7, fmap_app, not_elem_of_app. tauto.
  - lia.
Qed.

Lemma wrote_all_sectors s ws s' y :
  wrote_all s ws s' -> sectors (disk s') y = after ws (sectors (disk s)) y.
Proof. intros H; rewrite (wa_disk _ _ _ H). apply sectors_apply. Qed.

(** * The header block *)

Definition put_head (n : Z) (blocks : list Z) (d : bytes) : bytes :=
  write_head_loop (Z.to_nat n) 0 blocks (st 4 d 0 n).

Lemma write_head_loop_spec k i blocks d :
  (4 + 4 * (i + k) <= length d)%nat ->
  let d' := write_head_loop k i blocks d in
  length d' = length d /\
  (forall off m, (off + m <= 4 + 4 * i)%nat -> ld m d' off = ld m d off) /\
  (forall j, (i <= j < i + k)%nat -> ld 4 d' (4 + 4 * j) = u32 (blocks !!! j)).
Proof.
  revert i d; induction k as [|k IH]; intros i d Hd; cbn [write_head_loop].
  - split_and!; [done|done|lia].
  - assert (length (st 4 d (4 + 4 * i) (blocks !!! i)) = length d) as Hl by (apply length_st; lia).
    destruct (IH (S i) (st 4 d (4 + 4 * i) (blocks !!! i))) as (L & O & W); [lia|].
    split_and!; [congruence| |].
    + intros off m Ho. rewrite O by lia. apply ld_st_other; lia.
    + intros j Hj. destruct (decide (j = i)) as [->|].
      * rewrite O by lia. rewrite ld_st_same by lia. done.
      * apply W; lia.
Qed.

Lemma put_head_spec n blocks d :
  length d = Z.to_nat BSIZE -> 0 <= n <= LOGSIZE ->
  length (put_head n blocks d) = Z.to_nat BSIZE /\
  hd_n (put_head n blocks d) = n /\
  (forall j, (Z.of_nat j < n) -> 0 <= blocks !!! j < FSSIZE ->
     hd_block (put_head n blocks d) j = blocks !!! j).
Proof.
  unfold LOGSIZE, MAXOPBLOCKS, BSIZE, FSSIZE; intros Hd Hn.
  assert (length (st 4 d 0 n) = length d) as Hl by (apply length_st; lia).
  destruct (write_head_loop_spec (Z.to_nat n) 0 blocks (st 4 d 0 n)) as (L & O & W); [lia|].
  unfold hd_n, hd_block, put_head; split_and!; [congruence| |].
  - rewrite O, ld_st_same by lia. change (256 ^ Z.of_nat 4) with 4294967296. ints.
  - intros j Hj Hb. rewrite W by lia. ints.
Qed.

Lemma upd_trans s i b v d s1 v' d' s2 :
  upd_post s i b v d s1 -> upd_post s1 i b v' d' s2 -> upd_post s i b v' d' s2.
Proof.
  intros [A1 A2 A3 A4 A5 A6 A7 A8] [B1 B2 B3 B4 B5 B6 B7 B8]; constructor; auto; try congruence.
  - intros x; rewrite B3, A3; by case_decide.
  - intros j x; by rewrite B5.
  - intros j Hj; by rewrite B6, A6.
  - intros x; rewrite B7; case_decide; [done|]. by rewrite A7, decide_False.
Qed.

(** A block read, changed, written out and released. *)
Lemma flush_spec s b i s1 v dirty s2 :
  bio_inv s -> none_held s -> ~ pinned s b -> bread_post s b i s1 ->
  disk s2 = disk s1 -> writes s2 = writes s1 -> upd_post s1 i b v dirty s2 ->
  exists s', (do! bwrite i in brelse i) s2 = Ok (tt, s') /\ wrote s b v s'.
Proof.
  intros H Hn Hp B1 Hd2 Hw2 U2.
  assert (is_buf s2 i b) as Hb2 by (apply (up_held _ _ _ _ _ _ U2); apply B1).
  destruct (bwrite_spec s2 i b) as (s3 & E3 & Hd3 & Hw3 & U3); [apply U2|done|].
  rewrite (up_data _ _ _ _ _ _ U2) in *. pose proof (upd_trans _ _ _ _ _ _ _ _ _ U2 U3) as U.
  assert (is_buf s3 i b) as Hb3 by (by apply (up_held _ _ _ _ _ _ U3)).
  destruct (brelse_spec s3 i b) as (s4 & E4 & R); [apply U3|done| |].
  { right. rewrite (up_data _ _ _ _ _ _ U), Hd3, sector_put, decide_True; done. }
  exists s4; split; [by mstep E3|].
  assert (forall x, pinned s4 x <-> pinned s x /\ x <> b) as Hpin.
  { intros x. rewrite (rl_pinned _ _ _ _ R), (up_pinned _ _ _ _ _ _ U).
    destruct (decide (x = b)); [split; [intros [=]|tauto]|]. rewrite (br_pinned _ _ _ _ B1); tauto. }
  constructor; try apply R; auto.
  - intros j x Hj. apply (rl_held _ _ _ _ R) in Hj as [Hj Hji].
    apply (up_held _ _ _ _ _ _ U), (br_held _ _ _ _ B1) in Hj as [Hj|[? _]]; [by apply Hn in Hj|done].
  - by rewrite (rl_pid _ _ _ _ R), (up_pid _ _ _ _ _ _ U), (br_pid _ _ _ _ B1).
  - by rewrite (rl_disk _ _ _ _ R), Hd3, Hd2, (br_disk _ _ _ _ B1).
  - by rewrite (rl_writes _ _ _ _ R), Hw3, Hw2, (br_writes _ _ _ _ B1).
  - intros y. rewrite (rl_view _ _ _ _ R), (up_view _ _ _ _ _ _ U), (br_view _ _ _ _ B1); done.
  - rewrite (rl_avail _ _ _ _ R), (up_avail _ _ _ _ _ _ U), (br_avail _ _ _ _ B1); [done|done|].
    rewrite (up_pinned _ _ _ _ _ _ U), decide_True; done.
Qed.

Lemma u32_block b : 0 <= b < FSSIZE -> u32 b = b.
Proof. intros; apply u32_small; unfold FSSIZE in *; lia. Qed.

Lemma write_head_spec b lg :
  bio_inv b -> none_held b -> (1 <= avail b)%nat -> ~ pinned b (l_start lg) ->
  0 <= l_start lg < FSSIZE -> l_dev lg = ROOTDEV -> 0 <= lh_n lg <= LOGSIZE ->
  exists b', write_head (mklstate b lg) = Ok (tt, mklstate b' lg) /\
    wrote b (l_start lg) (put_head (lh_n lg) (lh_block lg) (view b (l_start lg))) b'.
Proof.
  intros H Hn Ha Hp Hs Hd Hnr.
  destruct (bread_spec b (l_start lg)) as (i & s1 & E1 & B1); [done|done|by apply none_held_not|by left|].
  pose proof (br_data _ _ _ _ B1) as Hdata. pose proof (view_len b (l_start lg) H) as Hvl.
  set (d1 := st 4 (view b (l_start lg)) 0 (lh_n lg)).
  assert (length d1 = Z.to_nat BSIZE) as Hd1
    by (unfold d1; rewrite length_st; rewrite Hvl; unfold BSIZE; lia).
  destruct (bset_spec s1 i (l_start lg) d1) as (s2 & E2 & Hd2 & Hw2 & U2); [apply B1|apply B1|done|].
  set (d2 := put_head (lh_n lg) (lh_block lg) (view b (l_start lg))).
  destruct (bset_spec s2 i (l_start lg) d2) as (s3 & E3 & Hd3 & Hw3 & U3);
    [apply U2|apply (up_held _ _ _ _ _ _ U2); apply B1|by apply put_head_spec|].
  destruct (flush_spec b (l_start lg) i s1 d2 (hasflag B_DIRTY (bufs s2 !!! i)) s3) as (s4 & E4 & W);
    [done|done|done|done|congruence|congruence|by eapply upd_trans|].
  exists s4; split; [|done].
  unfold write_head, bio_do, zoom, bind, gets, put_bio; cbn -[bread bwrite brelse updbuf].
  rewrite Hd, u32_block, E1 by done; cbn -[bread bwrite brelse updbuf].
  replace (updbuf i _ s1) with (Ok (tt, s2)) by (rewrite <- E2; unfold updbuf, modify; by rewrite Hdata).
  cbn -[bread bwrite brelse updbuf].
  replace (updbuf i _ s2) with (Ok (tt, s3))
    by (rewrite <- E3; unfold updbuf, modify; by rewrite (up_data _ _ _ _ _ _ U2)).
  cbn -[bread bwrite brelse updbuf].
  unfold bind in E4; destruct (bwrite i s3) as [[[] s3']|?| |]; try done; cbn; by rewrite E4.
Qed.

(** * Commit and recovery *)

(** Blocks outside the log region are the home locations. *)
Definition home (start size b : Z) : Prop := 0 <= b < FSSIZE /\ ~ (start <= b < start + size).

Section Loops.
  Context (lg : log).
  Context (Hdev : l_dev lg = ROOTDEV) (Hst : 0 <= l_start lg) (Hsz : l_start lg + l_size lg <= FSSIZE).

Let start := l_start lg.
Let size := l_size lg.
Let hb (j : nat) : Z := lh_block lg !!! j.

Definition log_copies (v : Z -> bytes) (tail k : nat) : list (Z * bytes) :=
  (fun j => (start + Z.of_nat j + 1, v (hb j))) <$> seq tail k.
Definition home_copies (v : Z -> bytes) (tail k : nat) : list (Z * bytes) :=
  (fun j => (hb j, v (start + Z.of_nat j + 1))) <$> seq tail k.

Lemma write_log_loop_spec k tail b :
  bio_inv b -> none_held b -> (1 <= avail b)%nat ->
  Z.of_nat (tail + k) < size ->
  (forall j, (tail <= j < tail + k)%nat -> home start size (hb j) /\ pinned b (hb j)) ->
  (forall x, start <= x < start + size -> ~ pinned b x) ->
  exists b', write_log_loop k tail (mklstate b lg) = Ok (tt, mklstate b' lg) /\
    wrote_all b (log_copies (view b) tail k) b'.
Proof.
  revert tail b; induction k as [|k IH]; intros tail b H Hn Ha Hk Hh Hp.
  - exists b; split; [done|by apply wrote_all_nil].
  - destruct (Hh tail) as [[Hr Ho] Hpin]; [lia|].
    destruct (write_log_one_spec b (start + Z.of_nat tail + 1) (hb tail)) as (b1 & E1 & W1);
      [done|done|lia|lia|done|done|done|apply Hp; lia|].
    destruct (IH (S tail) b1) as (b2 & E2 & W2); [apply W1|apply W1| |lia| | |].
    + pose proof (wr_avail _ _ _ _ W1); lia.
    + intros j Hj. destruct (Hh j) as [[? ?] ?]; [lia|]. split; [done|].
      apply (wr_pinned _ _ _ _ W1); split; [done|lia].
    + intros x Hx; rewrite (wr_pinned _ _ _ _ W1); specialize (Hp x Hx); tauto.
    + exists b2; split.
      * unfold start, hb in E1; cbn [write_log_loop]; unfold bind, gets, bio_do, zoom; cbn [l_log l_bio].
        rewrite Hdev, !u32_block, E1 by (unfold start, size, hb in *; lia); exact E2.
      * change (log_copies (view b) tail (S k)) with
          ([(start + Z.of_nat tail + 1, view b (hb tail))] ++ log_copies (view b) (S tail) k).
        eapply wrote_all_app; [by apply wrote_all_one|].
        replace (log_copies (view b) (S tail) k) with (log_copies (view b1) (S tail) k); [done|].
        apply list_fmap_ext; intros i j Hj%lookup_seq; f_equal.
        rewrite (wr_view _ _ _ _ W1), decide_False; [done|].
        destruct (Hh j) as [[? ?] _]; lia.
Qed.

Lemma install_loop_spec k tail b :
  bio_inv b -> none_held b ->
  (2 <= avail b)%nat \/
    ((1 <= avail b)%nat /\ forall j, (tail <= j < tail + k)%nat -> pinned b (hb j)) ->
  Z.of_nat (tail + k) < size ->
  (forall j, (tail <= j < tail + k)%nat -> home start size (hb j)) ->
  (forall i j, (tail <= i < j)%nat -> (j < tail + k)%nat -> hb i <> hb j) ->
  (forall x, start <= x < start + size -> ~ pinned b x) ->
  exists b', install_loop k tail (mklstate b lg) = Ok (tt, mklstate b' lg) /\
    wrote_all b (home_copies (view b) tail k) b'.
Proof.
  revert tail b; induction k as [|k IH]; intros tail b H Hn Ha Hk Hh Hd Hp.
  - exists b; split; [done|by apply wrote_all_nil].
  - destruct (Hh tail) as [Hr Ho]; [lia|].
    destruct (install_one_spec b (start + Z.of_nat tail + 1) (hb tail)) as (b1 & E1 & W1);
      [done|done|lia|lia|done| |apply Hp; lia|].
    { destruct Ha as [|[Ha Hpin]]; [by left|right; split; [done|apply Hpin; lia]]. }
    pose proof (wr_avail _ _ _ _ W1) as Ha1.
    destruct (IH (S tail) b1) as (b2 & E2 & W2); [apply W1|apply W1| |lia| | | |].
    + destruct Ha as [|[Ha Hpin]]; [left; lia|right; split; [lia|]].
      intros j Hj; apply (wr_pinned _ _ _ _ W1); split; [apply Hpin; lia|].
      apply not_eq_sym, Hd; lia.
    + intros j Hj; apply Hh; lia.
    + intros i j Hi Hj; apply Hd; lia.
    + intros x Hx; rewrite (wr_pinned _ _ _ _ W1); specialize (Hp x Hx); tauto.
    + exists b2; split.
      * unfold start, hb in E1; cbn [install_loop]; unfold bind, gets, bio_do, zoom; cbn [l_log l_bio].
        rewrite Hdev, !u32_block, E1 by (unfold start, size, hb in *; lia); exact E2.
      * change (home_copies (view b) tail (S k)) with
          ([(hb tail, view b (start + Z.of_nat tail + 1))] ++ home_copies (view b) (S tail) k).
        eapply wrote_all_app; [by apply wrote_all_one|].
        replace (home_copies (view b) (S tail) k) with (home_copies (view b1) (S tail) k); [done|].
        apply list_fmap_ext; intros i j Hj%lookup_seq; f_equal.
        rewrite (wr_view _ _ _ _ W1), decide_False; [done|]. unfold start, size, hb in *; lia.
Qed.
End Loops.

(** What recovery will make of the disk: a block named by the header is read
    from the log, any other block from its home location. *)

Fixpoint index_of (b : Z) (l : list Z) : option nat :=
  match l with
  | [] => None
  | x :: l' => if x =? b then Some O else S <$> index_of b l'
  end.

Definition hd_blocks (d : bytes) : list Z := hd_block d <$> seq 0 (Z.to_nat (hd_n d)).

Definition logical (start : Z) (f : Z -> bytes) (b : Z) : bytes :=
  match index_of b (hd_blocks (f start)) with
  | Some i => f (start + Z.of_nat i + 1)
  | None => f b
  end.

Lemma index_of_None b l : index_of b l = None <-> b ∉ l.
Proof.
  induction l as [|x l IH]; simpl; [split; [intros _; apply not_elem_of_nil|done]|].
  rewrite not_elem_of_cons. destruct (Z.eqb_spec x b); [split; [done|naive_solver]|].
  destruct (index_of b l); simpl; naive_solver.
Qed.

Lemma index_of_Some b l i : index_of b l = Some i -> l !! i = Some b.
Proof.
  revert i; induction l as [|x l IH]; intros i; simpl; [done|].
  destruct (Z.eqb_spec x b) as [->|]; [by intros [= <-]|].
  destruct (index_of b l) as [j|]; simpl; [|done]. intros [= <-]; simpl; auto.
Qed.

Definition to_log (start : Z) (v : Z -> bytes) (bs : list Z) : list (Z * bytes) :=
  imap (fun j b => (start + Z.of_nat j + 1, v b)) bs.
Definition to_home (v : Z -> bytes) (bs : list Z) : list (Z * bytes) := (fun b => (b, v b)) <$> bs.

(** The sectors [commit] writes, in order. *)
Definition commit_writes (lg : log) (v : Z -> bytes) (bs : list Z) : list (Z * bytes) :=
  let h1 := put_head (lh_n lg) (lh_block lg) (v (l_start lg)) in
  to_log (l_start lg) v bs ++ [(l_start lg, h1)] ++ to_home v bs ++
  [(l_start lg, put_head 0 (lh_block lg) h1)].

(** The in-memory header [lg] lists the distinct home blocks [bs]. *)
Record head_ok (lg : log) (bs : list Z) : Prop := {
  ho_dev : l_dev lg = ROOTDEV;
  ho_start : 0 <= l_start lg;
  ho_end : l_start lg + l_size lg <= FSSIZE;
  ho_n : lh_n lg = Z.of_nat (length bs);
  ho_len : length (lh_block lg) = Z.to_nat LOGSIZE;
  ho_blocks : forall j b, bs !! j = Some b -> lh_block lg !!! j = b;
  ho_nodup : NoDup bs;
  ho_home : forall b, b ∈ bs -> home (l_start lg) (l_size lg) b;
  ho_cap : Z.of_nat (length bs) <= LOGSIZE;
  ho_size : Z.of_nat (length bs) < l_size lg
}.

Lemma to_log_keys start v bs x : x ∈ (to_log start v bs).*1 ->
  start < x <= start + Z.of_nat (length bs).
Proof.
  intros (w & -> & (i & Hi)%list_elem_of_lookup)%list_elem_of_fmap.
  unfold to_log in Hi; rewrite list_lookup_imap in Hi.
  apply fmap_Some in Hi as (b & Hb%lookup_lt_Some & ->); simpl; lia.
Qed.

Lemma to_log_nodup start v bs : NoDup (to_log start v bs).*1.
Proof.
  apply NoDup_alt; intros i j x; unfold to_log; rewrite fmap_imap, !list_lookup_imap.
  intros (b & _ & ->)%fmap_Some (c & _ & Hc)%fmap_Some; simpl in Hc; lia.
Qed.

Lemma to_home_keys v bs : (to_home v bs).*1 = bs.
Proof. unfold to_home; rewrite <- list_fmap_compose. apply list_fmap_id. Qed.

Lemma after_to_home v bs f b : NoDup bs ->
  after (to_home v bs) f b = if decide (b ∈ bs) then v b else f b.
Proof.
  intros Hn; case_decide as Hb.
  - apply list_elem_of_lookup in Hb as [i Hi]. eapply (after_in _ _ i); [by rewrite to_home_keys|].
    unfold to_home; by rewrite list_lookup_fmap, Hi.
  - apply after_notin; by rewrite to_home_keys.
Qed.

Lemma after_to_log start v bs f i b :
  bs !! i = Some b -> after (to_log start v bs) f (start + Z.of_nat i + 1) = v b.
Proof.
  intros Hb. eapply (after_in _ _ i); [apply to_log_nodup|].
  unfold to_log; by rewrite list_lookup_imap, Hb.
Qed.

(** The header [put_head] encodes decodes to the logged blocks. *)
Lemma hd_blocks_put lg bs d :
  head_ok lg bs -> length d = Z.to_nat BSIZE ->
  hd_blocks (put_head (lh_n lg) (lh_block lg) d) = bs.
Proof.
  intros H Hd. destruct (put_head_spec (lh_n lg) (lh_block lg) d Hd) as (_ & Hn & Hb).
  { rewrite (ho_n _ _ H); pose proof (ho_cap _ _ H); lia. }
  pose proof (ho_n _ _ H) as Hnn. unfold hd_blocks; rewrite Hn, Hnn, Nat2Z.id. rewrite Hnn in Hb.
  apply list_eq; intros i. rewrite list_lookup_fmap.
  destruct (bs !! i) as [b|] eqn:E.
  - pose proof (lookup_lt_Some _ _ _ E) as Hi. rewrite lookup_seq_lt by done; cbn -[hd_block put_head]; f_equal.
    pose proof (ho_blocks _ _ H _ _ E) as Hbb. rewrite Hb, Hbb; [done| |].
    + lia.
    + destruct (ho_home _ _ H b) as [? _]; [by eapply list_elem_of_lookup_2|lia].
  - rewrite lookup_seq_ge; [done|]. by apply lookup_ge_None.
Qed.

Lemma hd_blocks_nil d : hd_n d = 0 -> hd_blocks d = [].
Proof. unfold hd_blocks; intros ->; done. Qed.

Lemma logical_idle start f b : hd_n (f start) = 0 -> logical start f b = f b.
Proof. intros H; unfold logical; by rewrite hd_blocks_nil. Qed.

Lemma logical_logged start f bs v b :
  hd_blocks (f start) = bs ->
  (forall i x, bs !! i = Some x -> f (start + Z.of_nat i + 1) = v x) ->
  (b ∉ bs -> f b = v b) -> logical start f b = v b.
Proof.
  intros Hh Hi Hb; unfold logical; rewrite Hh. destruct (index_of b bs) as [i|] eqn:E.
  - apply Hi; by apply index_of_Some.
  - apply Hb; by apply index_of_None.
Qed.

Lemma fst_take_elem {A} k (ws : list (Z * A)) x : x ∈ (take k ws).*1 -> x ∈ ws.*1.
Proof.
  rewrite fmap_take; intros (i & Hi & _)%elem_of_take. by eapply list_elem_of_lookup_2.
Qed.

(** A prefix of the sectors [commit] writes. *)
Lemma commit_prefix lg v bs k :
  let h1 := put_head (lh_n lg) (lh_block lg) (v (l_start lg)) in
  ((k <= length bs)%nat /\ take k (commit_writes lg v bs) = take k (to_log (l_start lg) v bs)) \/
  ((length bs < k)%nat /\ exists m, take k (commit_writes lg v bs) =
      to_log (l_start lg) v bs ++ [(l_start lg, h1)] ++ take m (to_home v bs)) \/
  ((length bs < k)%nat /\ take k (commit_writes lg v bs) = commit_writes lg v bs).
Proof.
  intros h1.
  assert (length (to_log (l_start lg) v bs) = length bs) as HA by apply length_imap.
  assert (length (to_home v bs) = length bs) as HB by apply length_fmap.
  destruct (decide (k <= length bs)%nat) as [Hk|Hk].
  - left; split; [done|]. unfold commit_writes. by rewrite take_app_le by lia.
  - right; destruct (decide (k <= 2 * length bs + 1)%nat) as [Hk2|Hk2].
    + left; split; [lia|]. exists (k - length bs - 1)%nat.
      unfold commit_writes; fold h1. rewrite take_app_ge, HA by lia.
      destruct (k - length bs)%nat as [|m] eqn:Em; [lia|].
      cbn [app take]. rewrite take_app_le by lia. by replace (S m - 1)%nat with m by lia.
    + right; split; [lia|]. apply take_ge. unfold commit_writes. rewrite !length_app; simpl; lia.
Qed.

Section CommitWrites.
  Context (lg : log) (bs : list Z) (f v : Z -> bytes).
  Context (H : head_ok lg bs) (Hvs : v (l_start lg) = f (l_start lg)).
  Context (Hlen : length (f (l_start lg)) = Z.to_nat BSIZE).
  Context (Hclean : forall x, home (l_start lg) (l_size lg) x -> x ∉ bs -> v x = f x).

Let start := l_start lg.
Let logged := to_log start v bs.
Let h1 := put_head (lh_n lg) (lh_block lg) (v start).

Lemma before_head k b : hd_n (f start) = 0 -> home start (l_size lg) b ->
  logical start (after (take k logged) f) b = f b.
Proof.
  intros Hn0 Hb. pose proof (ho_size _ _ H) as Hsz.
  rewrite logical_idle; rewrite after_notin; auto;
    intros Hin%fst_take_elem%to_log_keys; unfold home in *; lia.
Qed.

Lemma h1_len : length h1 = Z.to_nat BSIZE.
Proof.
  unfold h1, start; rewrite Hvs; apply put_head_spec; [done|].
  rewrite (ho_n _ _ H); pose proof (ho_cap _ _ H); lia.
Qed.

(** Between the two header writes: any [m] blocks installed. *)
Lemma between_heads m b : home start (l_size lg) b ->
  logical start (after (logged ++ [(start, h1)] ++ take m (to_home v bs)) f) b = v b.
Proof.
  intros Hb. pose proof (ho_size _ _ H) as Hsz.
  assert (forall x, x ∈ (take m (to_home v bs)).*1 -> x ∈ bs) as Hk.
  { intros x Hx%fst_take_elem; by rewrite to_home_keys in Hx. }
  assert (forall x, start <= x < start + l_size lg -> x ∉ (take m (to_home v bs)).*1) as Hreg.
  { intros x Hx Hin%Hk%(ho_home _ _ H); unfold home, start in *; lia. }
  rewrite !after_app; apply (logical_logged _ _ bs).
  - rewrite after_notin by (apply Hreg; unfold start in *; lia).
    simpl; unfold assign; rewrite decide_True by done.
    apply hd_blocks_put; [done|]. unfold start; by rewrite Hvs.
  - intros i x Hi. pose proof (lookup_lt_Some _ _ _ Hi) as Hlt.
    rewrite after_notin by (apply Hreg; unfold start in *; lia).
    simpl; unfold assign; rewrite decide_False by (simpl; lia). by apply after_to_log.
  - intros Hn. rewrite after_notin by (intros ?%Hk; done).
    simpl; unfold assign; rewrite decide_False by (simpl; unfold home, start in *; lia).
    rewrite after_notin; [symmetry; by apply Hclean|].
    intros Hin%to_log_keys; unfold home in *; lia.
Qed.

Lemma after_commit b : home start (l_size lg) b ->
  logical start (after (commit_writes lg v bs) f) b = v b.
Proof.
  intros Hb. pose proof (ho_size _ _ H) as Hsz. unfold commit_writes; fold start logged h1.
  rewrite !after_app, logical_idle; simpl; unfold assign at 1; simpl.
  - rewrite decide_False by (unfold home, start in *; lia).
    rewrite after_to_home by apply (ho_nodup _ _ H). case_decide; [done|].
    simpl; unfold assign; rewrite decide_False by (simpl; unfold home, start in *; lia).
    rewrite after_notin; [symmetry; by apply Hclean|].
    intros Hin%to_log_keys; unfold home in *; lia.
  - rewrite decide_True by done. apply put_head_spec; [apply h1_len|unfold LOGSIZE, MAXOPBLOCKS; lia].
Qed.

(** Crash atomicity of the write sequence, as a fact about disks. *)
Lemma commit_writes_atomic k b :
  hd_n (f start) = 0 -> home start (l_size lg) b ->
  logical start (after (take k (commit_writes lg v bs)) f) b =
  if decide (k <= length bs)%nat then f b else v b.
Proof.
  intros Hn0 Hb. destruct (commit_prefix lg v bs k) as [[Hk ->]|[[Hk [m ->]]|[Hk ->]]].
  - rewrite decide_True by done. by apply before_head.
  - rewrite decide_False by lia. by apply between_heads.
  - rewrite decide_False by lia. by apply after_commit.
Qed.

(** At every crash point the header names no block or exactly the blocks [bs]. *)
Lemma commit_writes_head k :
  hd_n (f start) = 0 ->
  let h := after (take k (commit_writes lg v bs)) f start in
  hd_n h = 0 \/ (hd_n h = Z.of_nat (length bs) /\ hd_blocks h = bs).
Proof.
  intros Hn0. pose proof (ho_size _ _ H) as Hsz. pose proof h1_len as Hh1.
  assert (hd_n h1 = Z.of_nat (length bs) /\ hd_blocks h1 = bs) as Hhd.
  { unfold h1, start; rewrite Hvs; split; [|by apply hd_blocks_put].
    rewrite <- (ho_n _ _ H). apply put_head_spec; [done|].
    rewrite (ho_n _ _ H); pose proof (ho_cap _ _ H); lia. }
  destruct (commit_prefix lg v bs k) as [[Hk ->]|[[Hk [m ->]]|[Hk ->]]]; cbv zeta.
  - left; rewrite after_notin; [done|]. intros Hin%fst_take_elem%to_log_keys; lia.
  - right. rewrite !after_app, after_notin; simpl; unfold assign; simpl; [by rewrite decide_True|].
    intros Hin%fst_take_elem; rewrite to_home_keys in Hin.
    apply (ho_home _ _ H) in Hin; unfold home, start in *; lia.
  - left. unfold commit_writes; fold start logged h1. rewrite !after_app; simpl; unfold assign at 1; simpl.
    rewrite decide_True by done. apply put_head_spec; [done|unfold LOGSIZE, MAXOPBLOCKS; lia].
Qed.
End CommitWrites.

Lemma log_copies_to_log lg bs v : head_ok lg bs ->
  log_copies lg v 0 (length bs) = to_log (l_start lg) v bs.
Proof.
  intros H; apply list_eq; intros i; unfold log_copies, to_log.
  rewrite list_lookup_fmap, list_lookup_imap. destruct (bs !! i) as [b|] eqn:E.
  - rewrite lookup_seq_lt by (by eapply lookup_lt_Some); cbn -[Z.of_nat Z.add].
    by rewrite (ho_blocks _ _ H _ _ E).
  - by rewrite lookup_seq_ge by (by apply lookup_ge_None).
Qed.

Lemma home_copies_to_home lg bs v v' : head_ok lg bs ->
  (forall i b, bs !! i = Some b -> v' (l_start lg + Z.of_nat i + 1) = v b) ->
  home_copies lg v' 0 (length bs) = to_home v bs.
Proof.
  intros H Hv; apply list_eq; intros i; unfold home_copies, to_home.
  rewrite !list_lookup_fmap. destruct (bs !! i) as [b|] eqn:E.
  - rewrite lookup_seq_lt by (by eapply lookup_lt_Some); cbn -[Z.of_nat Z.add].
    by rewrite (ho_blocks _ _ H _ _ E), (Hv _ _ E).
  - by rewrite lookup_seq_ge by (by apply lookup_ge_None).
Qed.

Lemma head_lookup lg bs j : head_ok lg bs -> (j < length bs)%nat ->
  exists b, bs !! j = Some b /\ lh_block lg !!! j = b.
Proof.
  intros H Hj; destruct (lookup_lt_is_Some_2 bs j Hj) as [b Hb]; exists b.
  split; [done|by apply (ho_blocks _ _ H)].
Qed.

Lemma head_blocks_home lg bs j : head_ok lg bs -> (0 <= j < 0 + length bs)%nat ->
  home (l_start lg) (l_size lg) (lh_block lg !!! j).
Proof.
  intros H Hj; destruct (head_lookup lg bs j H) as (b & Hb & ->); [lia|].
  apply (ho_home _ _ H); by eapply list_elem_of_lookup_2.
Qed.

Lemma head_blocks_inj lg bs i j : head_ok lg bs -> (0 <= i < j)%nat -> (j < 0 + length bs)%nat ->
  lh_block lg !!! i <> lh_block lg !!! j.
Proof.
  intros H Hi Hj. destruct (head_lookup lg bs i H) as (b & Hb & ->); [lia|].
  destruct (head_lookup lg bs j H) as (c & Hc & ->); [lia|]. intros ->.
  pose proof (NoDup_lookup _ _ _ _ (ho_nodup _ _ H) Hb Hc); lia.
Qed.

Section Commit.
  Context (b : bio) (lg : log) (bs : list Z).
  Context (H : head_ok lg bs) (Hinv : bio_inv b) (Hnone : none_held b) (Ha : (1 <= avail b)%nat).

Let start := l_start lg.
Let h1 := put_head (lh_n lg) (lh_block lg) (view b start).

Lemma head_n_nat : Z.to_nat (lh_n lg) = length bs.
Proof. rewrite (ho_n _ _ H); lia. Qed.

Lemma start_range : 0 <= start < FSSIZE.
Proof.
  pose proof (ho_start _ _ H); pose proof (ho_end _ _ H); pose proof (ho_size _ _ H).
  unfold start; lia.
Qed.

Lemma head_n_range : 0 <= lh_n lg <= LOGSIZE.
Proof. rewrite (ho_n _ _ H); pose proof (ho_cap _ _ H); lia. Qed.

Lemma region_unpinned x : (forall x, pinned b x -> x ∈ bs) ->
  start <= x < start + l_size lg -> ~ pinned b x.
Proof. intros Hp Hx Hpx%Hp%(ho_home _ _ H); unfold home, start in *; lia. Qed.

(** The first half of [commit]: log blocks, then the header. *)
Lemma commit_log : (forall x, pinned b x <-> x ∈ bs) ->
  exists b', (do! write_log in write_head) (mklstate b lg) = Ok (tt, mklstate b' lg) /\
    wrote_all b (to_log start (view b) bs ++ [(start, h1)]) b'.
Proof.
  intros Hpin. assert (forall x, pinned b x -> x ∈ bs) as Hpin' by (intros; by apply Hpin).
  pose proof (ho_size _ _ H) as Hsz. pose proof start_range as Hsr.
  destruct (write_log_loop_spec lg (ho_dev _ _ H) (ho_start _ _ H) (ho_end _ _ H) (length bs) 0 b)
    as (b1 & E1 & W1); auto.
  { intros j Hj. split; [by eapply head_blocks_home|].
    destruct (head_lookup lg bs j H) as (x & Hx & ->); [lia|].
    apply Hpin; by eapply list_elem_of_lookup_2. }
  { intros x; by apply region_unpinned. }
  rewrite (log_copies_to_log lg bs) in W1 by done.
  pose proof (wa_avail _ _ _ W1) as Ha1.
  destruct (write_head_spec b1 lg) as (b2 & E2 & W2);
    [apply W1|apply W1|lia| |done|apply (ho_dev _ _ H)|apply head_n_range|].
  { rewrite (wa_pinned _ _ _ W1). intros [Hp _]; apply (region_unpinned start) in Hp; auto. lia. }
  assert (view b1 start = view b start) as Hv1.
  { rewrite (wa_view _ _ _ W1), after_notin; [done|]. intros ?%to_log_keys; unfold start in *; lia. }
  fold start in W2; rewrite Hv1 in W2.
  exists b2; split; [|eapply wrote_all_app; [done|by apply wrote_all_one]].
  unfold write_log, bind, gets; cbn -[write_log_loop write_head]. by rewrite head_n_nat, E1.
Qed.

(** The second half, which is also recovery: install, then clear the header. *)
Lemma install_clear (v : Z -> bytes) :
  (forall i x, bs !! i = Some x -> view b (start + Z.of_nat i + 1) = v x) ->
  (2 <= avail b)%nat \/ (forall x, x ∈ bs -> pinned b x) -> (forall x, pinned b x -> x ∈ bs) ->
  exists b', (do! install_trans in do! updlog (set_n 0) in write_head) (mklstate b lg)
      = Ok (tt, mklstate b' (set_n 0 lg)) /\
    wrote_all b (to_home v bs ++ [(start, put_head 0 (lh_block lg) (view b start))]) b'.
Proof.
  intros Hv Hav Hpin. pose proof (ho_size _ _ H) as Hsz. pose proof start_range as Hsr.
  destruct (install_loop_spec lg (ho_dev _ _ H) (ho_start _ _ H) (ho_end _ _ H) (length bs) 0 b)
    as (b1 & E1 & W1); auto.
  { destruct Hav as [|Hall]; [by left|right; split; [done|]]. intros j Hj.
    destruct (head_lookup lg bs j H) as (x & Hx & ->); [lia|].
    apply Hall; by eapply list_elem_of_lookup_2. }
  { intros; by eapply head_blocks_home. }
  { intros; by eapply head_blocks_inj. }
  { intros x; by apply region_unpinned. }
  rewrite (home_copies_to_home lg bs v) in W1 by done.
  pose proof (wa_avail _ _ _ W1) as Ha1.
  destruct (write_head_spec b1 (set_n 0 lg)) as (b2 & E2 & W2);
    [apply W1|apply W1|lia| |done|apply (ho_dev _ _ H)|cbn; unfold LOGSIZE, MAXOPBLOCKS; lia|].
  { rewrite (wa_pinned _ _ _ W1). intros [Hp _]; apply (region_unpinned start) in Hp; auto. lia. }
  assert (view b1 start = view b start) as Hv1.
  { rewrite (wa_view _ _ _ W1), after_notin; [done|]. rewrite to_home_keys.
    intros Hin%(ho_home _ _ H); unfold home, start in *; lia. }
  cbn in W2; fold start in W2; rewrite Hv1 in W2.
  exists b2; split; [|eapply wrote_all_app; [done|by apply wrote_all_one]].
  unfold install_trans, updlog, bind, gets, modify; cbn -[install_loop write_head].
  by rewrite head_n_nat, E1.
Qed.
End Commit.

Lemma commit_spec b lg bs :
  head_ok lg bs -> bs <> [] -> bio_inv b -> none_held b -> (1 <= avail b)%nat ->
  (forall x, pinned b x <-> x ∈ bs) ->
  exists b', commit (mklstate b lg) = Ok (tt, mklstate b' (set_n 0 lg)) /\
    wrote_all b (commit_writes lg (view b) bs) b'.
Proof.
  intros H Hbs Hinv Hnone Ha Hpin. pose proof (ho_size _ _ H) as Hsz.
  destruct (commit_log b lg bs) as (b1 & E1 & W1); auto.
  set (h1 := put_head _ _ _) in W1. pose proof (wa_avail _ _ _ W1) as Ha1.
  assert (forall x, home (l_start lg) (l_size lg) x ->
    x ∉ (to_log (l_start lg) (view b) bs ++ [(l_start lg, h1)]).*1) as Hkeys.
  { intros x Hx. rewrite fmap_app, elem_of_app.
    intros [Hk%to_log_keys|Hk%list_elem_of_singleton]; unfold home in Hx; simpl in *; lia. }
  destruct (install_clear b1 lg bs) with (v := view b) as (b2 & E2 & W2); auto;
    [apply W1|apply W1|lia| | | |].
  - intros i x Hx. rewrite (wa_view _ _ _ W1), after_app; simpl; unfold assign.
    pose proof (lookup_lt_Some _ _ _ Hx). rewrite decide_False by (simpl; lia). by apply after_to_log.
  - right; intros x Hx. apply (wa_pinned _ _ _ W1); split; [by apply Hpin|].
    by apply Hkeys, (ho_home _ _ H).
  - intros x [Hp _]%(wa_pinned _ _ _ W1). by apply Hpin.
  - exists b2; split.
    + unfold commit, bind, gets. cbn -[write_log write_head install_trans].
      assert (0 < length bs)%nat as Hlt by (destruct bs; [done|apply Nat.lt_0_succ]).
      rewrite (ho_n _ _ H). replace (Z.of_nat (length bs) >? 0) with true by lia.
      unfold bind in E1, E2. destruct (write_log _) as [[[] s1]|?| |]; try done. by rewrite E1.
    + assert (view b1 (l_start lg) = h1) as Hh1.
      { rewrite (wa_view _ _ _ W1), after_app; simpl; unfold assign. by rewrite decide_True. }
      rewrite Hh1 in W2. unfold commit_writes; fold h1. rewrite app_assoc.
      by eapply wrote_all_app.
Qed.

(** * Recovery from a crash *)

(** An operation that leaves everything the file system can observe alone. *)
Record quiet (s s' : bio) : Prop := {
  qu_inv : bio_inv s';
  qu_none : none_held s';
  qu_view : forall x, view s' x = view s x;
  qu_disk : disk s' = disk s;
  qu_writes : writes s' = writes s;
  qu_pid : pid s' = pid s;
  qu_pinned : forall x, pinned s' x <-> pinned s x;
  qu_avail : avail s' = avail s
}.

Lemma read_release s b :
  bio_inv s -> none_held s -> 0 <= b < FSSIZE -> (1 <= avail s)%nat ->
  exists i s1 s2, bread ROOTDEV b s = Ok (i, s1) /\ b_data (bufs s1 !!! i) = view s b /\
    brelse i s1 = Ok (tt, s2) /\ quiet s s2.
Proof.
  intros H Hn Hb Ha.
  destruct (bread_spec s b) as (i & s1 & E1 & B); [done|done|by apply none_held_not|by left|].
  destruct (brelse_spec s1 i b) as (s2 & E2 & R); [apply B|apply B| |].
  { destruct (decide (pinned s b)) as [Hp|Hp]; [left; by apply (br_pinned _ _ _ _ B)|right].
    rewrite (br_data _ _ _ _ B), (br_disk _ _ _ _ B). apply view_clean; [done|by apply none_held_not|done]. }
  exists i, s1, s2; split_and!; [done|apply B|done|constructor].
  - apply R.
  - intros j x Hj. apply (rl_held _ _ _ _ R) in Hj as [Hj Hji].
    apply (br_held _ _ _ _ B) in Hj as [Hj|[? _]]; [by apply Hn in Hj|done].
  - intros x; by rewrite (rl_view _ _ _ _ R), (br_view _ _ _ _ B).
  - by rewrite (rl_disk _ _ _ _ R), (br_disk _ _ _ _ B).
  - by rewrite (rl_writes _ _ _ _ R), (br_writes _ _ _ _ B).
  - by rewrite (rl_pid _ _ _ _ R), (br_pid _ _ _ _ B).
  - intros x; by rewrite (rl_pinned _ _ _ _ R), (br_pinned _ _ _ _ B).
  - pose proof (br_pinned _ _ _ _ B b) as Hp.
    destruct (decide (pinned s b)) as [Hpb|Hpb].
    + rewrite (rl_avail_pinned _ _ _ _ R) by tauto. by apply (br_avail_pinned _ _ _ _ B).
    + rewrite (rl_avail _ _ _ _ R) by tauto. by apply (br_avail _ _ _ _ B).
Qed.

Lemma quiet_trans s s1 s2 : quiet s s1 -> quiet s1 s2 -> quiet s s2.
Proof.
  intros [] []; constructor; auto; try congruence.
  - intros x; by rewrite qu_pinned1.
Qed.

Lemma wrote_all_quiet s s1 ws s2 : quiet s s1 -> wrote_all s1 ws s2 -> wrote_all s ws s2.
Proof.
  intros [] []; constructor; auto; try congruence.
  - intros y; rewrite wa_view0; by apply after_ext.
  - intros y; by rewrite wa_pinned0, qu_pinned0.
Qed.

Lemma read_head_loop_spec k i d blocks :
  (i + k <= Z.to_nat LOGSIZE)%nat -> length blocks = Z.to_nat LOGSIZE ->
  exists blocks', read_head_loop k i d blocks = Ok blocks' /\ length blocks' = Z.to_nat LOGSIZE /\
    (forall j, (j < i)%nat -> blocks' !!! j = blocks !!! j) /\
    (forall j, (i <= j < i + k)%nat -> blocks' !!! j = hd_block d j).
Proof.
  revert i blocks; induction k as [|k IH]; intros i blocks Hk Hl; cbn [read_head_loop].
  - exists blocks; split_and!; [done|done|done|lia].
  - replace (Z.of_nat i <? LOGSIZE) with true by lia.
    destruct (IH (S i) (<[i := hd_block d i]> blocks)) as (bl & E & L & Hlt & Hge);
      [lia|by rewrite length_insert|].
    exists bl; split_and!; [done|done| |].
    + intros j Hj; rewrite Hlt by lia. apply list_lookup_total_insert_ne; lia.
    + intros j Hj; destruct (decide (j = i)) as [->|]; [|apply Hge; lia].
      rewrite Hlt by lia. apply list_lookup_total_insert_eq; lia.
Qed.

(** A disk whose log region is [start, start + size) and whose header lists [bs]. *)
Record disk_ok (d : diskmap) (start size : Z) (bs : list Z) : Prop := {
  do_len : forall k v, d !! k = Some v -> length v = Z.to_nat BSIZE;
  do_start : sb_logstart (decode_sb (sectors d 1)) = start;
  do_size : sb_nlog (decode_sb (sectors d 1)) = size;
  do_pos : 0 <= start;
  do_end : start + size <= FSSIZE;
  do_n : 0 <= hd_n (sectors d start);
  do_blocks : hd_blocks (sectors d start) = bs;
  do_nodup : NoDup bs;
  do_home : forall b, b ∈ bs -> home start size b;
  do_cap : Z.of_nat (length bs) <= LOGSIZE;
  do_fit : Z.of_nat (length bs) < size
}.

Definition recovery_writes (start : Z) (f : Z -> bytes) (blocks bs : list Z) : list (Z * bytes) :=
  to_home (logical start f) bs ++ [(start, put_head 0 blocks (f start))].

Lemma put_head_0 blocks blocks' d : put_head 0 blocks d = put_head 0 blocks' d.
Proof. done. Qed.

Lemma boot_avail me d : avail (binit me true d) = NB.
Proof. reflexivity. Qed.

Lemma boot_none me d : none_held (binit me true d).
Proof.
  intros i b (Hi & Hd & _). revert Hd; cbn.
  rewrite lookup_total_replicate_2 by exact Hi; done.
Qed.

Lemma boot_unpinned me d x : ~ pinned (binit me true d) x.
Proof.
  intros (i & Hi & Hd & _). revert Hd; cbn.
  rewrite lookup_total_replicate_2 by exact Hi; done.
Qed.

Lemma logical_at start f bs i b :
  NoDup bs -> hd_blocks (f start) = bs -> bs !! i = Some b ->
  logical start f b = f (start + Z.of_nat i + 1).
Proof.
  intros Hnd Hh Hb; unfold logical; rewrite Hh. destruct (index_of b bs) as [j|] eqn:E.
  - apply index_of_Some in E. by rewrite (NoDup_lookup _ _ _ _ Hnd E Hb).
  - apply index_of_None in E. destruct E; by eapply list_elem_of_lookup_2.
Qed.

Lemma s32_block b : 0 <= b <= FSSIZE -> s32 b = b.
Proof. unfold FSSIZE; intros; apply s32_small; lia. Qed.

Lemma disk_head_ok d start size bs bl :
  disk_ok d start size bs -> length bl = Z.to_nat LOGSIZE ->
  (forall j, (0 <= j < 0 + length bs)%nat -> bl !!! j = hd_block (sectors d start) j) ->
  head_ok (mklog start size 0 false ROOTDEV (hd_n (sectors d start)) bl) bs.
Proof.
  intros D L G. pose proof (do_n _ _ _ _ D) as Hn. pose proof (do_blocks _ _ _ _ D) as Hb.
  assert (length bs = Z.to_nat (hd_n (sectors d start))) as Hlen
    by (rewrite <- Hb; unfold hd_blocks; by rewrite length_fmap, length_seq).
  constructor; try apply D; auto; [cbn; lia|].
  intros j b Hj; cbn. pose proof (lookup_lt_Some _ _ _ Hj). rewrite G by lia.
  rewrite <- Hb in Hj; unfold hd_blocks in Hj.
  rewrite list_lookup_fmap, lookup_seq_lt in Hj by lia. by injection Hj.
Qed.

#[local] Arguments recover_from_log : simpl never.
#[local] Arguments decode_sb : simpl never.
#[local] Arguments s32 : simpl never.
#[local] Arguments binit : simpl never.
#[local] Arguments install_trans : simpl never.
#[local] Arguments write_head : simpl never.
#[local] Arguments hd_n : simpl never.
#[local] Arguments read_head_loop : simpl never.
#[local] Arguments replicate : simpl never.

(** Up to the installation, [initlog] only reads: the super block and the header. *)
Lemma initlog_reads me d start size bs :
  disk_ok d start size bs ->
  exists b1 bl, let lg := mklog start size 0 false ROOTDEV (hd_n (sectors d start)) bl in
    initlog ROOTDEV (boot me d) =
      (do! install_trans in do! updlog (set_n 0) in write_head) (mklstate b1 lg) /\
    quiet (binit me true d) b1 /\ head_ok lg bs.
Proof.
  intros D. pose proof (do_pos _ _ _ _ D) as Hpos. pose proof (do_end _ _ _ _ D) as Hend.
  pose proof (do_fit _ _ _ _ D) as Hfit. pose proof (do_cap _ _ _ _ D) as Hcap.
  set (b0 := binit me true d). assert (bio_inv b0) as H0 by (apply binit_inv, D).
  assert (forall x, view b0 x = sectors d x) as Hv0 by (intros; apply binit_view).
  assert (FSSIZE = 1000) as HF by done. assert (avail b0 = 30%nat) as Ha0 by done.
  destruct (read_release b0 1) as (i1 & s1 & s2 & E1 & D1 & R1 & Q1); [done|apply boot_none|lia|lia|].
  pose proof (qu_avail _ _ Q1) as Ha1.
  destruct (read_release s2 start) as (i2 & s3 & s4 & E2 & D2 & R2 & Q2); [apply Q1|apply Q1|lia|lia|].
  rewrite (qu_view _ _ Q1), Hv0 in D2. rewrite Hv0 in D1.
  assert (length bs = Z.to_nat (hd_n (sectors d start))) as Hlen
    by (rewrite <- (do_blocks _ _ _ _ D); unfold hd_blocks; by rewrite length_fmap, length_seq).
  destruct (read_head_loop_spec (length bs) 0 (sectors d start) (lh_block log0))
    as (bl & E3 & L3 & _ & G3); [lia|done|].
  exists s4, bl; split_and!; [|by eapply quiet_trans|by apply disk_head_ok].
  unfold initlog, readsb, bio_do, zoom, bind, gets, put_bio, boot.
  change (SIZEOF_LOGHEADER >=? BSIZE) with false; cbn. fold b0; rewrite E1.
  cbn. rewrite D1, R1.
  unfold updlog, modify; cbn.
  rewrite (do_start _ _ _ _ D), (do_size _ _ _ _ D), !s32_block by lia.
  unfold recover_from_log, read_head, bio_do, zoom, bind, gets, put_bio.
  cbn.
  rewrite u32_block, E2 by lia; cbn.
  rewrite D2; cbn.
  change (replicate _ 0) with (lh_block log0). rewrite <- Hlen, E3.
  cbn. by rewrite R2.
Qed.

(** Recovery installs what the header names and clears it. *)
Lemma initlog_spec me d start size bs :
  disk_ok d start size bs ->
  exists b' bl, initlog ROOTDEV (boot me d) =
      Ok (tt, mklstate b' (mklog start size 0 false ROOTDEV 0 bl)) /\
    length bl = Z.to_nat LOGSIZE /\
    wrote_all (binit me true d) (recovery_writes start (sectors d) bl bs) b'.
Proof.
  intros D. destruct (initlog_reads me d start size bs D) as (b1 & bl & E & Q & HO).
  assert (forall x, view b1 x = sectors d x) as Hv by (intros; rewrite (qu_view _ _ Q); apply binit_view).
  assert (avail b1 = 30%nat) as Ha by (by rewrite (qu_avail _ _ Q)).
  destruct (install_clear b1 _ bs HO) with (v := logical start (sectors d)) as (b' & E4 & W);
    [apply Q|apply Q|lia| |left; lia| |].
  { intros i x Hx. rewrite Hv. symmetry. apply (logical_at _ _ bs); [apply D|apply D|done]. }
  { intros x Hp%(qu_pinned _ _ Q); by apply boot_unpinned in Hp. }
  exists b', bl; split_and!; [by rewrite E, E4|apply (ho_len _ _ HO)|].
  eapply wrote_all_quiet; [done|]. unfold recovery_writes; cbn in W. by rewrite Hv in W.
Qed.

(** * Crash safety *)
