(* ===== verification/Memide.v ===== *)
(** The disk in memory (memide.c), which replaces ide.c in a kernel without a drive: it does to
    buffers what ide.c does, on the same contents. *)

From S2P Require Import Prelude Bio.
Local Open Scope Z_scope.

(** The buffers, the image that is linked into the kernel, and [disksize]. *)
Record mide := mkmide { mi_bio : bio; mi_disk : bytes; mi_size : Z }.

Definition put_mbio (v : bio) (s : mide) : mide := mkmide v (mi_disk s) (mi_size s).
Definition put_mdisk (v : bytes) (s : mide) : mide := mkmide (mi_bio s) v (mi_size s).
Definition mbio {A} : M bio A -> M mide A := zoom mi_bio put_mbio.

Definition ideinit (img : bytes) (s : bio) : mide := mkmide s img (Z.of_nat (length img) / BSIZE).

Definition mem_ideintr : M mide unit := ret tt.

Definition mem_iderw (i : nat) : M mide unit :=
  let! b := mbio (getbuf i) in
  let! me := mbio (gets pid) in
  if negb (holdingsleep me (b_lock b)) then panic "iderw: buf not locked" else
  if Z.land (b_flags b) (Z.lor B_VALID B_DIRTY) =? B_VALID then panic "iderw: nothing to do" else
  if negb (b_dev b =? 1) then panic "iderw: request not for disk 1" else
  let! disksize := gets mi_size in
  if b_blockno b >=? disksize then panic "iderw: block out of range" else
  let p := Z.to_nat (b_blockno b * BSIZE) in
  do! if hasflag B_DIRTY b then
        do! mbio (updbuf i (fun b => set_flags (Z.land (b_flags b) (Z.lnot B_DIRTY)) b)) in
        modify (fun s => put_mdisk (splice (mi_disk s) p (b_data b)) s)
      else
        let! d := gets mi_disk in
        mbio (updbuf i (set_data (take (Z.to_nat BSIZE) (drop p d)))) in
  mbio (updbuf i (fun b => set_flags (Z.lor (b_flags b) B_VALID) b)).

(** The image has the contents of the drive. *)
Definition same_disk (s : bio) (img : bytes) (size : Z) : Prop :=
  0 <= size /\ length img = Z.to_nat (size * BSIZE) /\
  forall b, 0 <= b < size -> take (Z.to_nat BSIZE) (drop (Z.to_nat (b * BSIZE)) img) = sector (disk s) (ROOTDEV, b).

Lemma splice_block (img data : bytes) size b b' : 0 <= size -> length img = Z.to_nat (size * BSIZE) -> length data = Z.to_nat BSIZE ->
  0 <= b < size -> 0 <= b' < size ->
  take (Z.to_nat BSIZE) (drop (Z.to_nat (b' * BSIZE)) (splice img (Z.to_nat (b * BSIZE)) data)) =
  if decide (b' = b) then data else take (Z.to_nat BSIZE) (drop (Z.to_nat (b' * BSIZE)) img).
Proof.
  unfold BSIZE. intros Hs Hl Hd Hb Hb'. apply list_eq. intros k. destruct (decide (k < 512)%nat) as [Hk|Hk].
  - rewrite lookup_take_lt by lia. rewrite lookup_drop. destruct (decide (b' = b)) as [->|Hne].
    + rewrite splice_lookup_in by lia. f_equal. lia.
    + rewrite splice_lookup_out by lia. rewrite lookup_take_lt by lia. by rewrite lookup_drop.
  - rewrite lookup_take_ge by lia. symmetry. destruct (decide _); [apply lookup_ge_None; lia|by apply lookup_take_ge; lia].
Qed.

Lemma mem_iderw_run s i img size : let b := bufs s !!! i in
  (i < length (bufs s))%nat -> b_dev b = ROOTDEV -> b_lock b = mksleeplock true (pid s) ->
  b_flags b = 0 \/ b_flags b = Z.lor B_VALID B_DIRTY -> b_blockno b < size ->
  mem_iderw i (mkmide s img size) =
  if b_flags b =? 0 then
    Ok (tt, mkmide (putbuf i (set_flags B_VALID (set_data (take (Z.to_nat BSIZE) (drop (Z.to_nat (b_blockno b * BSIZE)) img)) b)) s) img size)
  else Ok (tt, mkmide (putbuf i (set_flags B_VALID b) s) (splice img (Z.to_nat (b_blockno b * BSIZE)) (b_data b)) size).
Proof.
  intros b Hi Hdev Hlk Hfl Hb.
  destruct b as [fl dev no lk rc dt] eqn:Eb. subst b. cbn [b_flags b_dev b_lock b_blockno b_data] in *. subst dev lk.
  unfold mem_iderw, mbio, zoom, bind, getbuf, gets. cbn [mi_bio mi_size mi_disk put_mbio]. rewrite Eb.
  cbn [b_flags b_dev b_lock b_blockno b_data]. unfold holdingsleep. cbn [sl_locked sl_pid]. rewrite Z.eqb_refl. cbn [andb negb].
  destruct Hfl as [-> | ->]; flag_eval; rewrite (Z.geb_leb no size), (proj2 (Z.leb_gt _ _) Hb); unfold hasflag; cbn [b_flags]; flag_eval;
    unfold updbuf, modify, putbuf; cbn; rewrite ?Eb, !list_lookup_total_insert_eq, list_insert_insert_eq by done; reflexivity.
Qed.

(** [iderw] of memide.c leaves the buffers as [iderw] of ide.c on an idle drive without errors
    does, and the image as the drive. *)
Theorem memide_as_ide s i img size : let b := bufs s !!! i in
  (i < length (bufs s))%nat -> b_dev b = ROOTDEV -> b_lock b = mksleeplock true (pid s) ->
  b_flags b = 0 \/ b_flags b = Z.lor B_VALID B_DIRTY -> idequeue s = [] -> havedisk1 s = true -> ide_err s = false ->
  length (b_data b) = Z.to_nat BSIZE -> 0 <= b_blockno b < size -> size <= FSSIZE -> same_disk s img size ->
  exists s1 s2 img', iderw i s = Ok (tt, s1) /\ mem_iderw i (mkmide s img size) = Ok (tt, mkmide s2 img' size) /\
    bufs s2 = bufs s1 /\ same_disk s1 img' size.
Proof.
  intros b Hi Hdev Hlk Hfl Hq Hd1 Herr Hlen Hb Hsz (H0 & Himg & Hsame).
  rewrite (mem_iderw_run s i img size Hi Hdev Hlk Hfl ltac:(fold b; lia)). fold b. destruct Hfl as [Hfl|Hfl]; rewrite Hfl.
  - eexists _, _, img. split; [apply iderw_read; try done; fold b; lia|]. split; [reflexivity|].
    split; [|by split_and!]. cbn. by rewrite (Hsame _ Hb).
  - eexists _, _, _. split; [apply iderw_write; try done; fold b; lia|]. split; [reflexivity|]. split; [done|]. split_and!; [done| |].
    + rewrite length_splice; [done|]. rewrite Himg, Hlen. unfold BSIZE. lia.
    + intros b' Hb'. rewrite (splice_block img _ size) by done. fold b. unfold sector. cbn [disk put_sector put_ctl putbuf put_bufs].
      destruct (decide (b' = b_blockno b)) as [->|Hne]; [by rewrite lookup_insert_eq|]. rewrite lookup_insert_ne by congruence. by apply Hsame.
Qed.
