(* ===== verification/Crash.v ===== *)
(** Crash safety of the log (log.c): the disks that a crash can leave while
    [commit] or recovery runs, and what recovery makes of them; transactions
    of a single system call from [begin_op] to [end_op]. *)

From S2P Require Import Prelude Bio Log.
Local Open Scope Z_scope.

(** The disk if the power fails after [k] of the sector writes between [s] and [s']. *)
Definition crash_disk (s s' : lstate) (k : nat) : diskmap :=
  apply_writes (disk (l_bio s))
    (take k (drop (length (writes (l_bio s))) (writes (l_bio s')))).

Lemma crash_disk_wrote s s' ws k :
  wrote_all (l_bio s) ws (l_bio s') ->
  crash_disk s s' k = apply_writes (disk (l_bio s)) (tag <$> take k ws).
Proof.
  intros W; unfold crash_disk. by rewrite (wa_writes _ _ _ W), drop_app_length, <- fmap_take.
Qed.

Definition block_sized (w : Z * bytes) : Prop := length w.2 = Z.to_nat BSIZE.

Lemma apply_writes_len d ws :
  (forall k v, d !! k = Some v -> length v = Z.to_nat BSIZE) -> Forall block_sized ws ->
  forall k v, apply_writes d (tag <$> ws) !! k = Some v -> length v = Z.to_nat BSIZE.
Proof.
  intros Hd Hw; revert d Hd; induction Hw as [|[x w] ws Hx _ IH]; intros d Hd; [done|].
  apply IH; intros k v; unfold apply_write; simpl. rewrite lookup_insert; case_decide; [|apply Hd].
  by intros [= <-].
Qed.

Lemma sectors_len d x :
  (forall k v, d !! k = Some v -> length v = Z.to_nat BSIZE) -> length (sectors d x) = Z.to_nat BSIZE.
Proof.
  intros Hd; unfold sectors, sector, default. destruct (d !! _) eqn:E; [by eapply Hd|apply length_replicate].
Qed.

(** The invariant of the log between transactions and inside one that has
    logged the blocks [bs]. *)
Record log_inv (s : lstate) (bs : list Z) : Prop := {
  li_bio : bio_inv (l_bio s);
  li_head : head_ok (l_log s) bs;
  li_pinned : forall x, pinned (l_bio s) x <-> x ∈ bs;
  li_idle : hd_n (sectors (disk (l_bio s)) (l_start (l_log s))) = 0;
  li_fit : l_size (l_log s) <= NBUF;
  li_super : home (l_start (l_log s)) (l_size (l_log s)) 1 /\ 1 ∉ bs;
  li_geom : let sb := decode_sb (sectors (disk (l_bio s)) 1) in
            sb_logstart sb = l_start (l_log s) /\ sb_nlog sb = l_size (l_log s)
}.

Lemma disk_ok_after d ws start size bs bs' :
  disk_ok d start size bs -> Forall block_sized ws -> 1 ∉ ws.*1 ->
  let f := after ws (sectors d) in
  hd_blocks (f start) = bs' -> 0 <= hd_n (f start) -> NoDup bs' ->
  (forall b, b ∈ bs' -> home start size b) ->
  Z.of_nat (length bs') <= LOGSIZE -> Z.of_nat (length bs') < size ->
  disk_ok (apply_writes d (tag <$> ws)) start size bs'.
Proof.
  intros [] Hw H1 f Hb Hn Hnd Hh Hc Hf; constructor; auto.
  - by apply apply_writes_len.
  - by rewrite sectors_apply, after_notin.
  - by rewrite sectors_apply, after_notin.
  - by rewrite sectors_apply.
  - by rewrite sectors_apply.
Qed.


Lemma commit_writes_sized lg v bs :
  head_ok lg bs -> (forall x, length (v x) = Z.to_nat BSIZE) ->
  Forall block_sized (commit_writes lg v bs).
Proof.
  intros H Hv. assert (0 <= lh_n lg <= LOGSIZE) as Hn
    by (rewrite (ho_n _ _ H); pose proof (ho_cap _ _ H); lia).
  unfold commit_writes, block_sized. apply Forall_app; split; [|apply Forall_app; split;
    [|apply Forall_app; split]].
  - apply Forall_lookup; intros i w; unfold to_log; rewrite list_lookup_imap.
    intros (b & _ & ->)%fmap_Some; apply Hv.
  - constructor; [|constructor]; cbn [snd]. by apply put_head_spec.
  - apply Forall_fmap, Forall_true; intros b; apply Hv.
  - constructor; [|constructor]; cbn [snd]. apply put_head_spec; [by apply put_head_spec|].
    unfold LOGSIZE, MAXOPBLOCKS; lia.
Qed.

Lemma commit_writes_super lg v bs :
  head_ok lg bs -> home (l_start lg) (l_size lg) 1 -> 1 ∉ bs -> 1 ∉ (commit_writes lg v bs).*1.
Proof.
  intros H H1 Hb. pose proof (ho_size _ _ H) as Hsz. unfold home in H1.
  unfold commit_writes; rewrite !fmap_app, to_home_keys, !elem_of_app; simpl.
  rewrite !list_elem_of_singleton. intros [Hk%to_log_keys|[Hk|[Hk|Hk]]]; try done; lia.
Qed.

(** Home blocks after recovery. *)
Lemma recovery_installs start f bl bs b :
  NoDup bs -> hd_blocks (f start) = bs -> b <> start ->
  after (recovery_writes start f bl bs) f b = logical start f b.
Proof.
  intros Hnd Hh Hb. unfold recovery_writes. rewrite after_app; simpl; unfold assign; simpl.
  rewrite decide_False by done. rewrite after_to_home by done. case_decide as Hin; [done|].
  unfold logical; rewrite Hh. apply index_of_None in Hin. by rewrite Hin.
Qed.

Lemma home_not_start start size b : 0 < size -> home start size b -> b <> start.
Proof. unfold home; lia. Qed.

Lemma log_inv_disk_ok s bs :
  log_inv s bs -> disk_ok (disk (l_bio s)) (l_start (l_log s)) (l_size (l_log s)) [].
Proof.
  intros [? ? ? Hi ? ? [? ?]]; pose proof (ho_size _ _ li_head0). constructor; auto.
  - by apply inv_sectors.
  - apply li_head0.
  - apply li_head0.
  - by rewrite Hi.
  - by apply hd_blocks_nil.
  - constructor.
  - intros b Hb; by apply not_elem_of_nil in Hb.
  - by unfold LOGSIZE, MAXOPBLOCKS; simpl.
  - simpl; lia.
Qed.

Lemma log_inv_clean s bs x : log_inv s bs -> none_held (l_bio s) -> x ∉ bs ->
  view (l_bio s) x = sectors (disk (l_bio s)) x.
Proof.
  intros I Hn Hx; apply view_clean; [apply I|by apply none_held_not|].
  by rewrite (li_pinned _ _ I).
Qed.

(** ** Free buffers

    With no buffer held, only the blocks of the transaction keep buffers busy. *)

Lemma filter_dirty_indices s : bio_inv s ->
  length (List.filter (fun b => negb (recyclable b)) (bufs s)) =
  length (List.filter (fun i => negb (recyclable (bufs s !!! i))) (seq 0 NB)).
Proof.
  intros I. assert (bufs s = (fun i => bufs s !!! i) <$> seq 0 NB) as Hb.
  { apply list_eq; intros i. rewrite list_lookup_fmap.
    destruct (decide (i < NB)%nat).
    - rewrite lookup_seq_lt by done; simpl. by rewrite list_lookup_lookup_total_lt by (rewrite inv_len; done).
    - rewrite lookup_seq_ge by lia. apply lookup_ge_None_2. rewrite inv_len by done; lia. }
  rewrite Hb at 1. generalize (seq 0 NB); intros l; induction l as [|i l IH]; [done|].
  rewrite fmap_cons; cbn [List.filter].
  destruct (recyclable (bufs s !!! i)); cbn [negb length]; by rewrite IH.
Qed.

Lemma pinned_avail s bs : bio_inv s -> none_held s -> (forall x, pinned s x <-> x ∈ bs) ->
  (NB <= avail s + length bs)%nat.
Proof.
  intros I Hn Hp. pose proof (List.filter_length recyclable (bufs s)) as Hf.
  rewrite inv_len in Hf by done. rewrite filter_dirty_indices in Hf by done.
  set (L := List.filter _ (seq 0 NB)) in Hf.
  assert (forall i, i ∈ L -> (i < NB)%nat /\ caches s i (b_blockno (bufs s !!! i)) /\
            hasflag B_DIRTY (bufs s !!! i) = true) as HL.
  { intros i Hi%list_elem_of_In. unfold L in Hi; apply List.filter_In in Hi as [Hi Hr].
    apply in_seq in Hi; simpl in Hi. destruct Hi as [_ Hi].
    assert (unlocked (bufs s !!! i)) as Hu.
    { destruct (ok_lock _ _ _ (inv_buf _ I i Hi)) as [Hl|]; [|done].
      destruct (ok_id _ _ _ (inv_buf _ I i Hi)) as [(_ & _ & ?)|(Hd & _)]; [done|].
      by destruct (Hn i (b_blockno (bufs s !!! i))). }
    rewrite recyclable_unlocked, negb_involutive in Hr by done. split; [done|split; [|done]].
    destruct (ok_id _ _ _ (inv_buf _ I i Hi)) as [(_ & Hf0 & _)|(Hd & _)]; [|done].
    unfold hasflag in Hr; rewrite Hf0 in Hr; by vm_compute in Hr. }
  assert (length L <= length bs)%nat; [|unfold avail; lia].
  rewrite <- (length_fmap (fun i => b_blockno (bufs s !!! i)) L).
  apply submseteq_length, NoDup_submseteq.
  - apply NoDup_fmap_2_strong.
    + intros i j [_ [Ci _]]%HL [_ [Cj _]]%HL E. rewrite E in Ci. by eapply caches_inj.
    + apply NoDup_ListNoDup, List.NoDup_filter, NoDup_ListNoDup, NoDup_seq.
  - intros x (i & -> & (Hi & Ci & Hd)%HL)%list_elem_of_fmap. apply Hp.
    exists i; split; [done|]. destruct Ci as (_ & ? & _); done.
Qed.

Lemma log_inv_avail s bs : log_inv s bs -> none_held (l_bio s) -> (1 <= avail (l_bio s))%nat.
Proof.
  intros I Hn. pose proof (pinned_avail _ bs (li_bio _ _ I) Hn (li_pinned _ _ I)) as Ha.
  pose proof (ho_size _ _ (li_head _ _ I)). pose proof (li_fit _ _ I).
  unfold NB in Ha. lia.
Qed.

(** ** Transactions are atomic with respect to crashes *)

Lemma head_ok_nil lg bs : head_ok lg bs -> head_ok (set_n 0 lg) [].
Proof.
  intros [? ? ? ? ? ? ? ? ? ?]; constructor; simpl; try done; try lia.
  - constructor.
  - intros b Hb; by apply not_elem_of_nil in Hb.
Qed.

Section CommitState.
  Context (s : lstate) (bs : list Z) (I : log_inv s bs) (Hn : none_held (l_bio s)).
Let lg := l_log s.
Let v := view (l_bio s).
Let f := sectors (disk (l_bio s)).

Lemma commit_view_clean x : x ∉ bs -> v x = f x.
Proof. intros; unfold v, f. by eapply log_inv_clean. Qed.

Lemma start_not_logged : l_start lg ∉ bs.
Proof.
  intros Hb%(ho_home _ _ (li_head _ _ I)). pose proof (ho_size _ _ (li_head _ _ I)).
  unfold home, lg in *; lia.
Qed.

Lemma view_sized x : length (v x) = Z.to_nat BSIZE.
Proof. unfold v; apply view_len, I. Qed.

(** Every disk that a crash during [commit] can leave is recoverable. *)
Lemma commit_crash_disk_ok k :
  exists bs', disk_ok (apply_writes (disk (l_bio s)) (tag <$> take k (commit_writes lg v bs)))
    (l_start lg) (l_size lg) bs' /\ 1 ∉ bs'.
Proof.
  destruct I as [Ib Ih Ip Ii If [I1 I1'] Ig]. fold lg in Ih, Ii, I1.
  pose proof (log_inv_disk_ok _ _ I) as D. fold lg in D.
  assert (Forall block_sized (take k (commit_writes lg v bs))) as Hsz
    by (apply Forall_take, commit_writes_sized; [done|apply view_sized]).
  assert (1 ∉ (take k (commit_writes lg v bs)).*1) as H1
    by (intros Hin%fst_take_elem; revert Hin; by apply commit_writes_super).
  pose proof (ho_size _ _ Ih).
  assert (length (f (l_start lg)) = Z.to_nat BSIZE) as Hf by by apply sector_len.
  destruct (commit_writes_head lg bs f v Ih (commit_view_clean _ start_not_logged) Hf k Ii)
    as [Hz|[Hz Hb]].
  - exists []; split; [|by apply not_elem_of_nil]. eapply disk_ok_after; try done.
    + by apply hd_blocks_nil.
    + unfold f in Hz; rewrite Hz; done.
    + constructor.
    + intros b Hb; by apply not_elem_of_nil in Hb.
    + simpl; lia.
  - exists bs; split; [|done]. apply (disk_ok_after _ _ _ _ [] bs); try done.
    + unfold f in Hz; rewrite Hz; lia.
    + apply (ho_nodup _ _ Ih).
    + apply (ho_home _ _ Ih).
    + apply (ho_cap _ _ Ih).
Qed.
End CommitState.

Lemma commit_state s bs s' :
  log_inv s bs -> none_held (l_bio s) -> head_ok (l_log s') [] ->
  l_start (l_log s') = l_start (l_log s) -> l_size (l_log s') = l_size (l_log s) ->
  wrote_all (l_bio s) (commit_writes (l_log s) (view (l_bio s)) bs) (l_bio s') ->
  log_inv s' [] /\ forall x, home (l_start (l_log s)) (l_size (l_log s)) x ->
    view (l_bio s') x = view (l_bio s) x.
Proof.
  intros I Hn Hh' Hst Hsz W. pose proof (li_head _ _ I) as Ih. pose proof (li_super _ _ I) as [I1 I1'].
  set (ws := commit_writes _ _ _) in W.
  assert (forall x, home (l_start (l_log s)) (l_size (l_log s)) x ->
    view (l_bio s') x = view (l_bio s) x) as Hv.
  { intros x Hx. rewrite (wa_view _ _ _ W). unfold ws, commit_writes.
    rewrite !after_app; simpl; unfold assign at 1; simpl.
    pose proof (home_not_start _ _ x (Z.le_lt_trans _ _ _ (Nat2Z.is_nonneg _) (ho_size _ _ Ih)) Hx).
    rewrite decide_False, after_to_home by first [done|apply Ih]. case_decide; [done|].
    unfold assign; simpl; rewrite decide_False by done. apply after_notin.
    intros Hin%to_log_keys. pose proof (ho_size _ _ Ih). unfold home in Hx; lia. }
  split; [|done]. destruct I as [Ib _ Ip Ii If _ Ig]. constructor; rewrite ?Hst, ?Hsz; try done.
  - apply W.
  - intros x; rewrite (wa_pinned _ _ _ W), Ip. split; [|by intros ?%not_elem_of_nil].
    intros [Hx Hk]; exfalso; apply Hk. unfold ws, commit_writes.
    rewrite !fmap_app, to_home_keys, !elem_of_app; auto.
  - rewrite (wrote_all_sectors _ _ _ _ W). unfold ws, commit_writes. cbn [l_start set_n].
    rewrite !after_app; simpl; unfold assign at 1; simpl. rewrite decide_True by done.
    apply put_head_spec; [|unfold LOGSIZE, MAXOPBLOCKS; lia]. apply put_head_spec.
    + by apply view_len.
    + rewrite (ho_n _ _ Ih); pose proof (ho_cap _ _ Ih); lia.
  - split; [done|by apply not_elem_of_nil].
  - rewrite (wrote_all_sectors _ _ _ _ W), after_notin; [done|].
    by apply commit_writes_super.
Qed.


(** Booting from disk [d] recovers, and the file system then reads
    [contents] in every block outside the log; nothing is left in the log. *)
Definition recovers (me : Z) (d : diskmap) (start size : Z) (contents : Z -> bytes) : Prop :=
  exists r, initlog ROOTDEV (boot me d) = Ok (tt, r) /\ log_inv r [] /\ none_held (l_bio r) /\
    forall b, home start size b -> view (l_bio r) b = contents b.

(** A disk whose log recovery can rely on. *)
Record recoverable (d : diskmap) (start size : Z) (bs : list Z) : Prop := {
  rc_ok : disk_ok d start size bs;
  rc_fit : size <= NBUF;
  rc_super : home start size 1 /\ 1 ∉ bs
}.

Section Recovery.
  Context (d : diskmap) (start size : Z) (bs : list Z) (R : recoverable d start size bs).
Let f := sectors d.
Let D := rc_ok _ _ _ _ R.

Lemma recovery_head_0 bl k : (length bs < k)%nat ->
  hd_n (after (take k (recovery_writes start f bl bs)) f start) = 0.
Proof.
  intros Hk. rewrite take_ge.
  2: { unfold recovery_writes, to_home; rewrite length_app, length_fmap; simpl; lia. }
  unfold recovery_writes. rewrite after_app; simpl; unfold assign; simpl.
  rewrite decide_True by done. apply put_head_spec; [|unfold LOGSIZE, MAXOPBLOCKS; lia].
  apply sectors_len, D.
Qed.

Lemma recovery_super bl : 1 ∉ (recovery_writes start f bl bs).*1.
Proof.
  destruct (rc_super _ _ _ _ R) as [H1 Hb]. pose proof (do_fit _ _ _ _ D).
  unfold recovery_writes; rewrite fmap_app, to_home_keys, elem_of_app; simpl.
  rewrite list_elem_of_singleton; intros [?|?]; [done|]. unfold home in H1; lia.
Qed.

Lemma recovery_sized bl : Forall block_sized (recovery_writes start f bl bs).
Proof.
  assert (forall x, length (f x) = Z.to_nat BSIZE) as Hf by (intros; apply sectors_len, D).
  unfold recovery_writes, block_sized. apply Forall_app; split.
  - apply Forall_fmap, Forall_true; intros b; simpl; unfold logical.
    case_match; apply Hf.
  - constructor; [|constructor]. cbn [snd]. apply put_head_spec; [done|].
    unfold LOGSIZE, MAXOPBLOCKS; lia.
Qed.

(** A write of recovery below the header leaves the log region alone. *)
Lemma recovery_region bl k x : (k <= length bs)%nat -> start <= x < start + size ->
  after (take k (recovery_writes start f bl bs)) f x = f x.
Proof.
  intros Hk Hx. apply after_notin. unfold recovery_writes.
  rewrite take_app_le by (unfold to_home; by rewrite length_fmap).
  intros Hin%fst_take_elem; rewrite to_home_keys in Hin.
  apply (do_home _ _ _ _ D) in Hin; unfold home in Hin; lia.
Qed.

Lemma recovery_keeps_logical bl k b : home start size b ->
  logical start (after (take k (recovery_writes start f bl bs)) f) b = logical start f b.
Proof.
  intros Hb. pose proof (do_fit _ _ _ _ D) as Hfit.
  assert (b <> start) by (eapply home_not_start; [|done]; lia).
  destruct (decide (k <= length bs)%nat) as [Hk|Hk].
  - unfold logical at 1. rewrite recovery_region by lia.
    fold f in D. pose proof (do_blocks _ _ _ _ D) as Hbl; fold f in Hbl; rewrite Hbl.
    unfold logical at 1; rewrite Hbl. destruct (index_of b bs) as [i|] eqn:Ei.
    + apply index_of_Some, lookup_lt_Some in Ei. apply recovery_region; lia.
    + apply after_notin. intros Hin%fst_take_elem.
      unfold recovery_writes in Hin; rewrite fmap_app, to_home_keys, elem_of_app in Hin.
      apply index_of_None in Ei. destruct Hin as [?|Hin]; [done|].
      by apply list_elem_of_singleton in Hin.
  - rewrite logical_idle by (apply recovery_head_0; lia). rewrite take_ge.
    2: { unfold recovery_writes, to_home; rewrite length_app, length_fmap; simpl; lia. }
    apply recovery_installs; [apply D|apply D|done].
Qed.

(** A crash during recovery leaves a recoverable disk. *)
Lemma recovery_recoverable bl k :
  exists bs', recoverable (apply_writes d (tag <$> take k (recovery_writes start f bl bs)))
    start size bs'.
Proof.
  pose proof (do_fit _ _ _ _ D) as Hfit. destruct (rc_super _ _ _ _ R) as [H1 Hb1].
  assert (Forall block_sized (take k (recovery_writes start f bl bs))) as Hsz
    by (apply Forall_take, recovery_sized).
  assert (1 ∉ (take k (recovery_writes start f bl bs)).*1) as Hk1
    by (intros Hin%fst_take_elem; revert Hin; apply recovery_super).
  destruct (decide (k <= length bs)%nat) as [Hk|Hk].
  - assert (after (take k (recovery_writes start f bl bs)) f start = f start) as E
      by (apply recovery_region; lia).
    exists bs; constructor; [|apply R|done]. apply (disk_ok_after _ _ _ _ bs bs); try done.
    + unfold f in E |- *; rewrite E; apply D.
    + unfold f in E |- *; rewrite E; apply D.
    + apply (do_nodup _ _ _ _ D).
    + apply (do_home _ _ _ _ D).
    + apply (do_cap _ _ _ _ D).
  - pose proof (recovery_head_0 bl k ltac:(lia)) as E; unfold f in E.
    exists []; constructor; [|apply R|split; [done|by apply not_elem_of_nil]].
    apply (disk_ok_after _ _ _ _ bs []); try done.
    + by apply hd_blocks_nil.
    + unfold f; rewrite E; done.
    + constructor.
    + intros b Hb; by apply not_elem_of_nil in Hb.
    + simpl; lia.
Qed.

(** Recovery succeeds, empties the log and shows what the log stood for. *)
Lemma recovery_run me :
  exists r bl, initlog ROOTDEV (boot me d) = Ok (tt, r) /\ log_inv r [] /\
    none_held (l_bio r) /\ (forall b, home start size b -> view (l_bio r) b = logical start f b) /\
    wrote_all (binit me true d) (recovery_writes start f bl bs) (l_bio r).
Proof.
  destruct (initlog_spec me d start size bs D) as (b' & bl & E & L & W). fold f in W.
  pose proof (do_fit _ _ _ _ D) as Hfit. destruct (rc_super _ _ _ _ R) as [H1 Hb1].
  assert (log_inv (mklstate b' (mklog start size 0 false ROOTDEV 0 bl)) []) as I.
  { constructor; simpl; try done.
    - apply W.
    - constructor; simpl; try done; try apply D; try lia; [constructor|].
      intros b Hb; by apply not_elem_of_nil in Hb.
    - intros x; rewrite (wa_pinned _ _ _ W). split; [|by intros ?%not_elem_of_nil].
      intros [Hp _]; by apply boot_unpinned in Hp.
    - rewrite (wrote_all_sectors _ _ _ _ W).
      pose proof (recovery_head_0 bl (S (length bs)) ltac:(lia)) as E0.
      rewrite take_ge in E0; [done|].
      unfold recovery_writes, to_home; rewrite length_app, length_fmap; simpl; lia.
    - apply R.
    - split; [done|by apply not_elem_of_nil].
    - rewrite (wrote_all_sectors _ _ _ _ W), after_notin by apply recovery_super.
      split; apply D. }
  eexists _, bl; split; [exact E|split; [exact I|split; [apply W|split; [|exact W]]]].
  intros b Hb. rewrite (log_inv_clean _ [] _ I); [|apply W|by apply not_elem_of_nil].
  simpl; rewrite (wrote_all_sectors _ _ _ _ W). apply recovery_installs; [apply D|apply D|].
  eapply home_not_start; [|done]; lia.
Qed.
End Recovery.

(** * Transactions *)

(** The blocks of a transaction after [log_write] of block [b]: absorption
    keeps a block that is already there in its slot. *)
Definition absorb (b : Z) (bs : list Z) : list Z := if decide (b ∈ bs) then bs else bs ++ [b].

Lemma log_slot_index blocks b bs i :
  (forall j x, bs !! j = Some x -> blocks !!! (i + j)%nat = x /\ 0 <= x < FSSIZE) ->
  log_slot blocks b i (length bs) =
  (i + match index_of b bs with Some j => j | None => length bs end)%nat.
Proof.
  revert i; induction bs as [|x bs IH]; intros i Hb; simpl; [lia|].
  destruct (Hb 0%nat x eq_refl) as [Hx Hr]. rewrite Nat.add_0_r in Hx. rewrite Hx, u32_small
    by (unfold FSSIZE in Hr; lia).
  destruct (decide (b = x)) as [->|Hne]; [rewrite Z.eqb_refl; simpl; lia|].
  replace (x =? b) with false by (symmetry; apply Z.eqb_neq; congruence).
  rewrite IH.
  - destruct (index_of b bs); simpl; lia.
  - intros j y Hj. replace (S i + j)%nat with (i + S j)%nat by lia. by apply Hb.
Qed.

Lemma log_slot_spec lg bs b : head_ok lg bs ->
  log_slot (lh_block lg) b 0 (Z.to_nat (lh_n lg)) =
  match index_of b bs with Some j => j | None => length bs end.
Proof.
  intros H. rewrite (ho_n _ _ H), Nat2Z.id. apply (log_slot_index _ _ _ 0).
  intros j x Hj; split; [by apply (ho_blocks _ _ H)|].
  apply list_elem_of_lookup_2, (ho_home _ _ H) in Hj. by destruct Hj.
Qed.

Definition logged (b : Z) (lg : log) : log :=
  let k := log_slot (lh_block lg) b 0 (Z.to_nat (lh_n lg)) in
  set_head (if Z.of_nat k =? lh_n lg then lh_n lg + 1 else lh_n lg)
    (<[k := s32 b]> (lh_block lg)) lg.

Lemma logged_ok lg bs b : head_ok lg bs -> home (l_start lg) (l_size lg) b ->
  lh_n lg < LOGSIZE -> lh_n lg < l_size lg - 1 -> head_ok (logged b lg) (absorb b bs).
Proof.
  intros H Hb Hn1 Hn2. unfold logged, absorb; rewrite (log_slot_spec _ _ b H).
  rewrite (s32_block b) by (destruct Hb; lia).
  pose proof H as [? ? ? Hn Hl Hbl Hnd Hh Hc Hs]. unfold LOGSIZE, MAXOPBLOCKS in *.
  destruct (index_of b bs) as [k|] eqn:E.
  - apply index_of_Some in E. rewrite decide_True by by eapply list_elem_of_lookup_2.
    pose proof (lookup_lt_Some _ _ _ E).
    replace (Z.of_nat k =? lh_n lg) with false by (symmetry; apply Z.eqb_neq; lia).
    constructor; simpl; auto; [by rewrite length_insert|].
    intros j x Hj. destruct (decide (j = k)) as [->|].
    + rewrite list_lookup_total_insert_eq by lia. congruence.
    + rewrite list_lookup_total_insert_ne by done. auto.
  - apply index_of_None in E. rewrite decide_False by done.
    replace (Z.of_nat (length bs) =? lh_n lg) with true by (symmetry; apply Z.eqb_eq; lia).
    constructor; simpl; rewrite ?length_app, ?length_insert; simpl; auto; try lia.
    + intros j x. destruct (decide (j < length bs)%nat).
      * rewrite lookup_app_l, list_lookup_total_insert_ne by lia. auto.
      * intros Hj. pose proof (lookup_lt_Some _ _ _ Hj) as Hj'; rewrite length_app in Hj'; simpl in Hj'.
        replace j with (length bs) in * by lia. rewrite lookup_app_r, Nat.sub_diag in Hj by lia.
        injection Hj as <-. apply list_lookup_total_insert_eq; lia.
    + apply NoDup_app; split_and!; [done| |apply NoDup_singleton].
      intros x Hx Hxb; apply list_elem_of_singleton in Hxb; congruence.
    + intros x [Hx| ->%list_elem_of_singleton]%elem_of_app; auto.
    + unfold LOGSIZE, MAXOPBLOCKS; lia.
Qed.

(** [log_write] records the buffer's block in the header and pins the buffer;
    nothing is written to the disk. *)
Lemma log_write_spec s bs i b :
  log_inv s bs -> is_buf (l_bio s) i b -> home (l_start (l_log s)) (l_size (l_log s)) b -> b <> 1 ->
  lh_n (l_log s) < LOGSIZE -> lh_n (l_log s) < l_size (l_log s) - 1 -> 1 <= l_outstanding (l_log s) ->
  exists s', log_write i s = Ok (tt, s') /\ log_inv s' (absorb b bs) /\
    l_log s' = logged b (l_log s) /\
    disk (l_bio s') = disk (l_bio s) /\ writes (l_bio s') = writes (l_bio s) /\
    upd_post (l_bio s) i b (b_data (bufs (l_bio s) !!! i)) true (l_bio s').
Proof.
  intros I Hb Hh H1 Hn1 Hn2 Ho. pose proof (li_bio _ _ I) as Ib.
  destruct (bdirty_spec (l_bio s) i b Ib Hb) as (b' & E & Hd & Hw & U).
  exists (mklstate b' (logged b (l_log s))); split_and!; simpl; try done.
  - unfold log_write, bind at 1, gets at 1.
    replace (_ || _) with false by (symmetry; apply orb_false_iff; split; lia).
    replace (_ <? 1) with false by lia.
    unfold bind at 1, bio_do at 1, getbuf, zoom, gets; cbn -[log_slot].
    destruct s as [sb sl]; cbn in *. unfold bind, updlog, modify. cbn -[log_slot].
    unfold updbuf, modify in E; injection E as <-.
    destruct Hb as (_ & _ & -> & _). reflexivity.
  - destruct I as [_ Ih Ip Ii If [I1 I1'] Ig]. constructor; simpl; rewrite ?Hd; try done.
    + apply U.
    + by apply logged_ok.
    + intros x. rewrite (up_pinned _ _ _ _ _ _ U). unfold absorb.
      destruct (decide (x = b)) as [->|].
      * split; [|done]. intros _. case_decide; [done|]. apply elem_of_app; right; by left.
      * rewrite Ip. case_decide; [done|]. rewrite elem_of_app, list_elem_of_singleton. tauto.
    + split; [done|]. unfold absorb. case_decide; [done|].
      rewrite elem_of_app, list_elem_of_singleton. intros [?|?]; congruence.
Qed.

(** What a file system call does to a block inside a transaction: read it,
    change it in the cache, [log_write] it, release it. *)
Definition update_block (w : Z * bytes) : M lstate unit :=
  let! i := bio_do (bread ROOTDEV w.1) in
  do! bio_do (updbuf i (set_data w.2)) in
  do! log_write i in
  bio_do (brelse i).

Fixpoint update_blocks (ws : list (Z * bytes)) : M lstate unit :=
  match ws with
  | [] => ret tt
  | w :: ws' => do! update_block w in update_blocks ws'
  end.

Definition transaction (ws : list (Z * bytes)) : M lstate unit :=
  do! begin_op in do! update_blocks ws in end_op.

(** State between two updates of a transaction that started in [s]. *)
Record in_txn (s : lstate) (bs : list Z) (f : Z -> bytes) (s' : lstate) : Prop := {
  it_inv : log_inv s' bs;
  it_none : none_held (l_bio s');
  it_disk : disk (l_bio s') = disk (l_bio s);
  it_writes : writes (l_bio s') = writes (l_bio s);
  it_view : forall x, view (l_bio s') x = f x;
  it_start : l_start (l_log s') = l_start (l_log s);
  it_size : l_size (l_log s') = l_size (l_log s);
  it_out : l_outstanding (l_log s') = 1;
  it_committing : l_committing (l_log s') = false
}.

Lemma log_inv_bio s bs b' :
  log_inv s bs -> bio_inv b' -> disk b' = disk (l_bio s) ->
  (forall x, pinned b' x <-> pinned (l_bio s) x) -> log_inv (mklstate b' (l_log s)) bs.
Proof.
  intros [Ib Ih Ip Ii If Is Ig] Hb Hd Hp. constructor; simpl; rewrite ?Hd; try done.
  intros x; by rewrite Hp, Ip.
Qed.

Lemma begin_txn s : log_inv s [] -> none_held (l_bio s) -> l_committing (l_log s) = false ->
  in_txn s [] (view (l_bio s)) (put_log (set_outstanding 1 (l_log s)) s).
Proof.
  intros [Ib Ih Ip Ii If Is Ig] Hn Hc. constructor; try done.
  constructor; try done. by destruct Ih.
Qed.

Definition txn_write (start size : Z) (w : Z * bytes) : Prop :=
  home start size w.1 /\ w.1 <> 1 /\ length w.2 = Z.to_nat BSIZE.

Lemma update_block_spec s0 s bs f w :
  in_txn s0 bs f s -> txn_write (l_start (l_log s0)) (l_size (l_log s0)) w ->
  Z.of_nat (length bs) < LOGSIZE -> Z.of_nat (length bs) < l_size (l_log s0) - 1 ->
  exists s', update_block w s = Ok (tt, s') /\ in_txn s0 (absorb w.1 bs) (assign f w) s'.
Proof.
  destruct w as [b v]; intros T (Hh & H1 & Hv) Hn1 Hn2; cbn [fst snd] in *.
  pose proof T as [I Hn Td Tw Tv Tst Tsz To Tc]. rewrite <- Tst, <- Tsz in Hh; rewrite <- Tsz in Hn2.
  pose proof (ho_n _ _ (li_head _ _ I)) as Hln.
  destruct (bread_spec (l_bio s) b) as (i & b1 & E1 & B);
    [apply I|apply Hh|by apply none_held_not|left; by eapply log_inv_avail|].
  destruct (bset_spec b1 i b v (br_inv _ _ _ _ B) (br_buf _ _ _ _ B) Hv) as (b2 & E2 & Hd2 & Hw2 & U2).
  assert (is_buf b2 i b) as Hb2 by (apply (up_held _ _ _ _ _ _ U2), (br_buf _ _ _ _ B)).
  assert (log_inv (mklstate b2 (l_log s)) bs) as I2.
  { apply log_inv_bio; [done|apply U2|by rewrite Hd2, (br_disk _ _ _ _ B)|].
    intros x; rewrite (up_pinned _ _ _ _ _ _ U2). destruct (decide (x = b)) as [->|].
    - apply (br_dirty _ _ _ _ B).
    - apply (br_pinned _ _ _ _ B). }
  destruct (log_write_spec _ bs i b I2 Hb2 Hh H1) as (s3 & E3 & I3 & L3 & Hd3 & Hw3 & U3);
    simpl; try lia. cbn [l_bio l_log] in *.
  assert (is_buf (l_bio s3) i b) as Hb3 by by apply (up_held _ _ _ _ _ _ U3).
  assert (pinned (l_bio s3) b) as Hp3 by (apply (up_pinned _ _ _ _ _ _ U3); by rewrite decide_True).
  destruct (brelse_spec (l_bio s3) i b (li_bio _ _ I3) Hb3 (or_introl Hp3)) as (b4 & E4 & R).
  exists (mklstate b4 (l_log s3)); split.
  - unfold update_block; cbn [fst snd].
    mstep (zoom_Ok l_bio put_bio _ _ _ _ E1). mstep (zoom_Ok l_bio put_bio _ (put_bio b1 s) _ _ E2).
    change (put_bio b2 (put_bio b1 s)) with (mklstate b2 (l_log s)). mstep E3.
    exact (zoom_Ok l_bio put_bio _ _ _ _ E4).
  - assert (log_inv (mklstate b4 (l_log s3)) (absorb b bs)) as I4.
    { apply (log_inv_bio s3); [done|apply R|apply R|apply (rl_pinned _ _ _ _ R)]. }
    constructor; simpl; try done; rewrite ?L3, ?(rl_disk _ _ _ _ R), ?Hd3, ?Hd2, ?(br_disk _ _ _ _ B),
      ?(rl_writes _ _ _ _ R), ?Hw3, ?Hw2, ?(br_writes _ _ _ _ B); try done.
    + intros j x [Hj Hji]%(rl_held _ _ _ _ R).
      apply (up_held _ _ _ _ _ _ U3), (up_held _ _ _ _ _ _ U2), (br_held _ _ _ _ B) in Hj as [Hj|[-> _]]; [|done].
      by apply Hn in Hj.
    + intros x. rewrite (rl_view _ _ _ _ R), (up_view _ _ _ _ _ _ U3), (up_view _ _ _ _ _ _ U2),
        (br_view _ _ _ _ B), (up_data _ _ _ _ _ _ U2), Tv. unfold assign; simpl.
      repeat case_decide; congruence.
Qed.

Definition absorb_all (ws : list (Z * bytes)) (bs : list Z) : list Z :=
  fold_left (fun bs w => absorb w.1 bs) ws bs.

Lemma absorb_len b bs : (length bs <= length (absorb b bs))%nat.
Proof. unfold absorb; case_decide; rewrite ?length_app; lia. Qed.

Lemma absorb_len_le b bs : (length (absorb b bs) <= length bs + 1)%nat.
Proof. unfold absorb; case_decide; rewrite ?length_app; simpl; lia. Qed.

Lemma absorb_all_len ws bs : (length bs <= length (absorb_all ws bs))%nat.
Proof.
  revert bs; induction ws as [|w ws IH]; intros bs; simpl; [done|].
  pose proof (absorb_len w.1 bs). pose proof (IH (absorb w.1 bs)). lia.
Qed.

Lemma update_blocks_spec s0 ws s bs f :
  in_txn s0 bs f s -> Forall (txn_write (l_start (l_log s0)) (l_size (l_log s0))) ws ->
  Z.of_nat (length (absorb_all ws bs)) <= MAXOPBLOCKS -> MAXOPBLOCKS < l_size (l_log s0) - 1 ->
  exists s', update_blocks ws s = Ok (tt, s') /\ in_txn s0 (absorb_all ws bs) (after ws f) s'.
Proof.
  revert s bs f; induction ws as [|w ws IH]; intros s bs f T Hw Hl Hs; simpl; [by eexists|].
  inversion Hw; subst. pose proof (absorb_all_len ws (absorb w.1 bs)).
  pose proof (absorb_len w.1 bs). simpl in Hl.
  destruct (update_block_spec s0 s bs f w) as (s1 & E1 & T1); try done;
    [unfold LOGSIZE, MAXOPBLOCKS in *; lia..|].
  destruct (IH s1 _ _ T1) as (s' & E' & T'); try done. exists s'; split; [|done].
  by mstep E1.
Qed.

Lemma begin_op_admit s :
  l_committing (l_log s) = false -> l_outstanding (l_log s) = 0 -> lh_n (l_log s) = 0 ->
  begin_op s = Ok (tt, put_log (set_outstanding 1 (l_log s)) s).
Proof. intros Hc Ho Hn. unfold begin_op, bind, gets. by rewrite Hc, Ho, Hn. Qed.

(** The last [end_op] of a transaction with updates commits it. *)
Lemma end_op_commits s bs f s1 :
  in_txn s bs f s1 -> bs <> [] ->
  exists b', end_op s1 = Ok (tt, mklstate b' (set_committing false (set_n 0
                            (set_committing true (set_outstanding 0 (l_log s1)))))) /\
    wrote_all (l_bio s1) (commit_writes (l_log s1) (view (l_bio s1)) bs) b'.
Proof.
  intros [I Hn Td Tw Tv Tst Tsz To Tc] Hbs.
  set (lg := set_committing true (set_outstanding 0 (l_log s1))).
  assert (head_ok lg bs) as Hh by (destruct (li_head _ _ I); constructor; done).
  destruct (commit_spec (l_bio s1) lg bs Hh Hbs (li_bio _ _ I) Hn
              (log_inv_avail _ _ I Hn) (li_pinned _ _ I)) as (b' & E & W).
  exists b'; split; [|exact W].
  assert (end_op s1 = (do! commit in updlog (set_committing false)) (mklstate (l_bio s1) lg)) as ->
    by (unfold end_op, updlog, bind at 1 2, modify, gets; cbn -[commit]; by rewrite To, Tc).
  by mstep E.
Qed.

(** * The theorems *)

Lemma logical_ext start f g b : (forall x, f x = g x) -> logical start f b = logical start g b.
Proof. intros E; unfold logical; rewrite !E. destruct (index_of _ _); [apply E|done]. Qed.

Lemma commit_crash_recovers s bs me k :
  log_inv s bs -> none_held (l_bio s) ->
  let ws := commit_writes (l_log s) (view (l_bio s)) bs in
  recovers me (apply_writes (disk (l_bio s)) (tag <$> take k ws)) (l_start (l_log s)) (l_size (l_log s))
    (fun b => if decide (k <= length bs)%nat then sectors (disk (l_bio s)) b else view (l_bio s) b).
Proof.
  intros I Hn ws. destruct (commit_crash_disk_ok s bs I Hn k) as (bs' & D & H1).
  destruct I as [Ib Ih Ip Ii If [Is1 Is2] Ig] eqn:EI.
  destruct (recovery_run _ _ _ bs' (Build_recoverable _ _ _ _ D If (conj Is1 H1)) me)
    as (r & bl & E & Ir & Hr & Hv & _).
  exists r; split; [exact E|split; [exact Ir|split; [exact Hr|]]]. intros b Hb.
  rewrite Hv by done. fold ws.
  transitivity (logical (l_start (l_log s)) (after (take k ws) (sectors (disk (l_bio s)))) b).
  - apply logical_ext; intros x; apply sectors_apply.
  - apply commit_writes_atomic; auto.
    + apply (commit_view_clean s bs I Hn), (start_not_logged s bs I).
    + by apply sector_len.
    + intros x _ Hx. by apply (commit_view_clean s bs I Hn).
Qed.

(** [commit] is atomic with respect to crashes.  From any state of the log
    with the blocks [bs] pinned in the cache, [commit] succeeds, leaves the log
    empty and the contents of the file system as the cache showed them; and if
    the power fails after any number [k] of the sector writes it performs,
    [initlog] at the next boot recovers a file system in which every block
    outside the log has its old contents ([k <= length bs]: the header has not
    been written) or every block has its new contents. *)
Theorem commit_atomic s bs :
  log_inv s bs -> none_held (l_bio s) -> bs <> [] ->
  exists s', commit s = Ok (tt, s') /\ log_inv s' [] /\ none_held (l_bio s') /\
    (forall b, home (l_start (l_log s)) (l_size (l_log s)) b -> view (l_bio s') b = view (l_bio s) b) /\
    forall me k, recovers me (crash_disk s s' k) (l_start (l_log s)) (l_size (l_log s))
      (fun b => if decide (k <= length bs)%nat then sectors (disk (l_bio s)) b else view (l_bio s) b).
Proof.
  intros I Hn Hbs. destruct s as [b lg].
  destruct (commit_spec b lg bs (li_head _ _ I) Hbs (li_bio _ _ I) Hn (log_inv_avail _ _ I Hn)
    (li_pinned _ _ I)) as (b' & E & W).
  destruct (commit_state _ _ (mklstate b' (set_n 0 lg)) I Hn (head_ok_nil _ _ (li_head _ _ I))
    eq_refl eq_refl W) as [I' Hv].
  exists (mklstate b' (set_n 0 lg)); split; [done|split; [done|split; [apply W|split; [done|]]]].
  intros me k. rewrite (crash_disk_wrote (mklstate b lg) (mklstate b' _) _ k W). by apply commit_crash_recovers.
Qed.

(** C4. Recovery is correct and survives crashes of its own.  From a disk with
    a well-formed log [initlog] succeeds and shows in every block outside the
    log what the committed log stands for; if the power fails after any number
    [k] of recovery's own sector writes, the next recovery still shows the same
    contents. *)
Theorem recovery_idempotent me d start size bs :
  recoverable d start size bs ->
  recovers me d start size (logical start (sectors d)) /\
  exists r, initlog ROOTDEV (boot me d) = Ok (tt, r) /\
    forall me' k, recovers me' (crash_disk (boot me d) r k) start size (logical start (sectors d)).
Proof.
  intros R. destruct (recovery_run _ _ _ _ R me) as (r & bl & E & I & Hn & Hv & W).
  split; [by exists r|]. exists r; split; [done|]. intros me' k.
  rewrite (crash_disk_wrote (boot me d) r _ k W).
  destruct (recovery_recoverable _ _ _ _ R bl k) as (bs' & R').
  destruct (recovery_run _ _ _ _ R' me') as (r' & bl' & E' & I' & Hn' & Hv' & _).
  exists r'; split_and!; [done|done|done|]. intros b Hb. rewrite Hv' by done.
  transitivity (logical start (after (take k (recovery_writes start (sectors d) bl bs)) (sectors d)) b).
  - apply logical_ext; intros x; apply sectors_apply.
  - by eapply recovery_keeps_logical.
Qed.

Lemma absorb_all_nonempty ws : ws <> [] -> absorb_all ws [] <> [].
Proof.
  destruct ws as [|w ws]; [done|]. intros _ E. pose proof (absorb_all_len ws (absorb w.1 [])) as Hl.
  simpl in E; rewrite E in Hl. unfold absorb in Hl; rewrite decide_False in Hl by apply not_elem_of_nil.
  simpl in Hl; lia.
Qed.

Lemma crash_disk_from s s1 s' ws k :
  disk (l_bio s1) = disk (l_bio s) -> writes (l_bio s1) = writes (l_bio s) ->
  wrote_all (l_bio s1) ws (l_bio s') -> crash_disk s s' k = apply_writes (disk (l_bio s1)) (tag <$> take k ws).
Proof. intros Hd Hw W. rewrite <- (crash_disk_wrote _ _ _ _ W). unfold crash_disk. by rewrite Hd, Hw. Qed.

(** C1. A file system call is atomic.  With the log idle, a call that runs
    [begin_op], updates at most MAXOPBLOCKS distinct blocks through
    [bread]/[log_write]/[brelse] and runs [end_op] succeeds; afterwards the file
    system reads the updated contents; and at whatever sector write the power
    fails, recovery shows none of the updates or all of them. *)
Theorem transaction_atomic s ws :
  log_inv s [] -> none_held (l_bio s) -> l_committing (l_log s) = false ->
  l_outstanding (l_log s) = 0 -> ws <> [] ->
  Forall (txn_write (l_start (l_log s)) (l_size (l_log s))) ws ->
  Z.of_nat (length (absorb_all ws [])) <= MAXOPBLOCKS -> MAXOPBLOCKS < l_size (l_log s) - 1 ->
  exists s', transaction ws s = Ok (tt, s') /\ log_inv s' [] /\ none_held (l_bio s') /\
    (forall b, home (l_start (l_log s)) (l_size (l_log s)) b ->
       view (l_bio s') b = after ws (view (l_bio s)) b) /\
    forall me k, recovers me (crash_disk s s' k) (l_start (l_log s)) (l_size (l_log s))
      (if decide (k <= length (absorb_all ws []))%nat then view (l_bio s) else after ws (view (l_bio s))).
Proof.
  intros I Hn Hc Ho Hws Hw Hl Hs.
  set (s1 := put_log (set_outstanding 1 (l_log s)) s).
  pose proof (begin_txn s I Hn Hc : in_txn s [] (view (l_bio s)) s1) as T1.
  destruct (update_blocks_spec s ws s1 [] _ T1 Hw Hl Hs) as (s2 & E2 & T2).
  destruct (end_op_commits s (absorb_all ws []) _ s2 T2) as (b' & E3 & W);
    [by apply absorb_all_nonempty|].
  pose proof T2 as [I2 Hn2 Td Tw Tv Tst Tsz _ _].
  eexists; split; [|split].
  { unfold transaction. mstep (begin_op_admit s Hc Ho (ho_n _ _ (li_head _ _ I))). mstep E2. exact E3. }
  all: set (s' := mklstate b' _).
  all: destruct (commit_state s2 _ s' I2 Hn2) as [I' Hv];
    [by destruct (head_ok_nil _ _ (li_head _ _ I2)); constructor|done|done|exact W|].
  { done. }
  split_and!; [apply W| |].
  - intros b Hb. rewrite Hv, Tv by by rewrite Tst, Tsz. done.
  - intros me k. destruct (commit_crash_recovers s2 _ me k I2 Hn2) as (r & Er & Ir & Hr & Hvr).
    exists r; split_and!; [|done|done|].
    + by rewrite (crash_disk_from s s2 s' _ k Td Tw W).
    + intros b Hb. rewrite Hvr by by rewrite Tst, Tsz. rewrite Td, Tv.
      case_decide; [|done]. symmetry; apply (log_inv_clean s [] b I Hn), not_elem_of_nil.
Qed.

(** ** Witnesses: the file system that mkfs makes, with an empty log *)

(** size, nblocks, ninodes, nlog, logstart, inodestart, bmapstart *)
Definition super0 : bytes :=
  splice zero_block 0 (mjoin (le_bytes 4 <$> [1000; 941; 200; 30; 2; 32; 58])).
Definition disk0 : diskmap := {[ (ROOTDEV, 1) := super0 ]}.
Definition boot0 : lstate :=
  match initlog ROOTDEV (boot 1 disk0) with Ok (_, r) => r | _ => boot 1 disk0 end.

Lemma home_dec start size b :
  (0 <=? b) && (b <? FSSIZE) && ((b <? start) || (start + size <=? b)) = true -> home start size b.
Proof. unfold home; lia. Qed.

Lemma disk0_recoverable : recoverable disk0 2 30 [].
Proof.
  split; [|done|split; [by apply home_dec|by apply not_elem_of_nil]].
  constructor; try (vm_compute; (done || reflexivity)).
  - unfold disk0; intros k v [_ <-]%lookup_singleton_Some. reflexivity.
  - constructor.
  - intros b Hb; by apply not_elem_of_nil in Hb.
Qed.

Lemma boot0_idle : log_inv boot0 [] /\ none_held (l_bio boot0).
Proof.
  destruct (recovery_run _ _ _ _ disk0_recoverable 1) as (r & bl & E & I & Hn & _).
  unfold boot0; rewrite E. exact (conj I Hn).
Qed.

Definition block_of (x : Z) : bytes := replicate (Z.to_nat BSIZE) x.

Definition ws0 : list (Z * bytes) := [(100, block_of 7); (101, block_of 8); (100, block_of 9)].

Lemma boot0_log : l_log boot0 = mklog 2 30 0 false 1 0 (replicate 30 0).
Proof. vm_compute; reflexivity. Qed.

(** The state in which the updates [ws0] wait for [commit]. *)
Definition dirty0 : lstate :=
  match update_blocks ws0 (put_log (set_outstanding 1 (l_log boot0)) boot0) with
  | Ok (_, r) => r
  | _ => boot0
  end.

Lemma ws0_writes : Forall (txn_write (l_start (l_log boot0)) (l_size (l_log boot0))) ws0.
Proof.
  rewrite boot0_log; cbn [l_start l_size]. repeat constructor; simpl; try done;
    try (by apply home_dec); apply length_replicate.
Qed.

Lemma boot0_txn : in_txn boot0 [] (view (l_bio boot0)) (put_log (set_outstanding 1 (l_log boot0)) boot0).
Proof.
  destruct boot0_idle as [I Hn]. apply (begin_txn boot0 I Hn). rewrite boot0_log; reflexivity.
Qed.

Lemma dirty0_inv : log_inv dirty0 [100; 101] /\ none_held (l_bio dirty0).
Proof.
  destruct (update_blocks_spec _ ws0 _ _ _ boot0_txn ws0_writes) as (r & E & T).
  - vm_compute; discriminate.
  - rewrite boot0_log; vm_compute; reflexivity.
  - unfold dirty0; rewrite E. exact (conj (it_inv _ _ _ _ T) (it_none _ _ _ _ T)).
Qed.

Lemma transaction_atomic_witness :
  exists s', transaction ws0 boot0 = Ok (tt, s') /\ log_inv s' [] /\ none_held (l_bio s') /\
    (forall b, home (l_start (l_log boot0)) (l_size (l_log boot0)) b ->
       view (l_bio s') b = after ws0 (view (l_bio boot0)) b) /\
    forall me k, recovers me (crash_disk boot0 s' k) (l_start (l_log boot0)) (l_size (l_log boot0))
      (if decide (k <= length (absorb_all ws0 []))%nat then view (l_bio boot0)
       else after ws0 (view (l_bio boot0))).
Proof.
  apply (transaction_atomic boot0 ws0).
  - apply boot0_idle.
  - apply boot0_idle.
  - rewrite boot0_log; reflexivity.
  - rewrite boot0_log; reflexivity.
  - discriminate.
  - exact ws0_writes.
  - vm_compute; discriminate.
  - rewrite boot0_log; vm_compute; reflexivity.
Defined.

Lemma commit_atomic_witness :
  exists s', commit dirty0 = Ok (tt, s') /\ log_inv s' [] /\ none_held (l_bio s') /\
    (forall b, home (l_start (l_log dirty0)) (l_size (l_log dirty0)) b ->
       view (l_bio s') b = view (l_bio dirty0) b) /\
    forall me k, recovers me (crash_disk dirty0 s' k) (l_start (l_log dirty0)) (l_size (l_log dirty0))
      (fun b => if decide (k <= 2)%nat then sectors (disk (l_bio dirty0)) b else view (l_bio dirty0) b).
Proof.
  destruct dirty0_inv as [I Hn].
  apply (commit_atomic dirty0 [100; 101] I Hn). discriminate.
Defined.

(** A disk whose log holds a committed transaction on block 100. *)
Definition disk1 : diskmap :=
  <[ (ROOTDEV, 3) := block_of 7 ]>
  (<[ (ROOTDEV, 2) := splice zero_block 0 (mjoin (le_bytes 4 <$> [1; 100])) ]> disk0).

Lemma disk1_recoverable : recoverable disk1 2 30 [100].
Proof.
  split; [|done|split; [by apply home_dec|]].
  2: { rewrite list_elem_of_singleton; discriminate. }
  constructor; try (vm_compute; (done || reflexivity)).
  - unfold disk1, disk0. intros k v.
    intros [[_ <-]|[_ [[_ <-]|[_ [_ <-]%lookup_singleton_Some]]%lookup_insert_Some]]%lookup_insert_Some;
      reflexivity.
  - apply NoDup_singleton.
  - intros b ->%list_elem_of_singleton. by apply home_dec.
Qed.

Lemma recovery_idempotent_witness :
  recovers 1 disk1 2 30 (logical 2 (sectors disk1)) /\
  exists r, initlog ROOTDEV (boot 1 disk1) = Ok (tt, r) /\
    forall me' k, recovers me' (crash_disk (boot 1 disk1) r k) 2 30 (logical 2 (sectors disk1)).
Proof. exact (recovery_idempotent 1 disk1 2 30 [100] disk1_recoverable). Defined.
