(* ===== verification/Admit.v ===== *)
(** Admission of concurrent file system calls to the log (begin_op, log_write
    and end_op of log.c): processes interleave their calls, and the space that
    [begin_op] reserves is enough for every [log_write] that follows. *)

From S2P Require Import Prelude Bio Log Crash.
Local Open Scope Z_scope.

(** * The interleaving of calls

    A configuration is the kernel state and, for each call between its
    [begin_op] and its [end_op], how many times it has called [log_write].
    Between these steps the buffer cache and the disk change in any way. *)

Inductive log_step : lstate * list Z -> lstate * list Z -> Prop :=
| step_begin s s' ops :
    begin_op s = Ok (tt, s') -> log_step (s, ops) (s', ops ++ [0])
| step_write s s' ops c w i :
    ops !! c = Some w -> w < MAXOPBLOCKS -> log_write i s = Ok (tt, s') ->
    log_step (s, ops) (s', <[c := w + 1]> ops)
| step_end s s' ops c w :
    ops !! c = Some w -> end_op s = Ok (tt, s') -> log_step (s, ops) (s', delete c ops)
| step_bio s b' ops :
    log_step (s, ops) (put_bio b' s, ops).

(** Space still reserved by the calls in progress. *)
Definition reserved (ops : list Z) : Z := foldr (fun w acc => (MAXOPBLOCKS - w) + acc) 0 ops.

Record admitted (size : Z) (c : lstate * list Z) : Prop := {
  ad_size : l_size (l_log c.1) = size;
  ad_n : 0 <= lh_n (l_log c.1);
  ad_committing : l_committing (l_log c.1) = false;
  ad_outstanding : l_outstanding (l_log c.1) = Z.of_nat (length c.2);
  ad_ops : Forall (fun w => 0 <= w <= MAXOPBLOCKS) c.2;
  ad_space : lh_n (l_log c.1) + reserved c.2 <= LOGSIZE
}.

Lemma reserved_cons w l : reserved (w :: l) = MAXOPBLOCKS - w + reserved l.
Proof. reflexivity. Qed.
#[local] Opaque reserved.

Lemma reserved_app l l' : reserved (l ++ l') = reserved l + reserved l'.
Proof. induction l as [|w l IH]; simpl; rewrite ?reserved_cons; [reflexivity|lia]. Qed.

Lemma reserved_le l : Forall (fun w => 0 <= w <= MAXOPBLOCKS) l ->
  0 <= reserved l <= Z.of_nat (length l) * MAXOPBLOCKS.
Proof. induction 1; [done|]. rewrite reserved_cons; cbn [length]; unfold MAXOPBLOCKS in *; lia. Qed.

Lemma reserved_insert l c w v : l !! c = Some w -> reserved (<[c := v]> l) = reserved l + w - v.
Proof.
  revert c; induction l as [|x l IH]; intros [|c] E; simpl in *; try discriminate.
  - injection E as ->. rewrite ?reserved_cons; lia.
  - rewrite !reserved_cons, (IH _ E). lia.
Qed.

Lemma reserved_delete l c w : l !! c = Some w -> reserved (delete c l) = reserved l - (MAXOPBLOCKS - w).
Proof.
  revert c; induction l as [|x l IH]; intros [|c] E; simpl in *; try discriminate.
  - injection E as ->. rewrite ?reserved_cons; lia.
  - rewrite !reserved_cons, (IH _ E). lia.
Qed.

(** ** The effect of the operations on the log alone *)

Lemma bio_do_log {A} (m : M bio A) s a s' : bio_do m s = Ok (a, s') -> l_log s' = l_log s.
Proof. unfold bio_do, zoom. destruct (m (l_bio s)) as [[? ?]|?| |]; by intros [= _ <-]. Qed.

Lemma bind_log {A B} (m : M lstate A) (k : A -> M lstate B) :
  (forall s a s', m s = Ok (a, s') -> l_log s' = l_log s) ->
  (forall a s b s', k a s = Ok (b, s') -> l_log s' = l_log s) ->
  forall s b s', bind m k s = Ok (b, s') -> l_log s' = l_log s.
Proof.
  intros Hm Hk s b s' (a & s1 & E1 & E2)%bind_Ok_inv.
  by rewrite (Hk _ _ _ _ E2), (Hm _ _ _ E1).
Qed.

Lemma gets_log {A} (f : lstate -> A) s a s' : gets f s = Ok (a, s') -> l_log s' = l_log s.
Proof. by intros [= _ <-]. Qed.

Ltac keeps_log := repeat (apply bind_log; [first [apply gets_log|apply bio_do_log]|intros ?]);
  try apply bio_do_log.

Lemma write_head_log s a s' : write_head s = Ok (a, s') -> l_log s' = l_log s.
Proof. revert s a s'; unfold write_head. keeps_log. Qed.

Lemma install_trans_log s a s' : install_trans s = Ok (a, s') -> l_log s' = l_log s.
Proof.
  revert s a s'; unfold install_trans; apply bind_log; [apply gets_log|intros lg].
  generalize (Z.to_nat (lh_n lg)), 0%nat; intros k; induction k as [|k IH]; intros tail; simpl.
  - by intros s a s' [= _ <-].
  - keeps_log. apply IH.
Qed.

Lemma write_log_log s a s' : write_log s = Ok (a, s') -> l_log s' = l_log s.
Proof.
  revert s a s'; unfold write_log; apply bind_log; [apply gets_log|intros lg].
  generalize (Z.to_nat (lh_n lg)), 0%nat; intros k; induction k as [|k IH]; intros tail; simpl.
  - by intros s a s' [= _ <-].
  - keeps_log. apply IH.
Qed.

(** [commit] empties the log and changes nothing else of it. *)
Lemma commit_log_n s s' : 0 <= lh_n (l_log s) -> commit s = Ok (tt, s') -> l_log s' = set_n 0 (l_log s).
Proof.
  intros Hn. unfold commit, bind at 1, gets. destruct (lh_n (l_log s) >? 0) eqn:E.
  - intros (? & s1 & E1%write_log_log & (? & s2 & E2%write_head_log & (? & s3 & E3%install_trans_log &
      (? & s4 & E4 & E5%write_head_log)%bind_Ok_inv)%bind_Ok_inv)%bind_Ok_inv)%bind_Ok_inv.
    injection E4 as _ <-. rewrite E5; simpl. by rewrite E3, E2, E1.
  - intros [= <-]. unfold set_n. replace 0 with (lh_n (l_log s)) by lia. by destruct (l_log s).
Qed.

Lemma log_write_log i s s' : log_write i s = Ok (tt, s') ->
  exists n' blocks, l_log s' = set_head n' blocks (l_log s) /\
    lh_n (l_log s) <= n' <= lh_n (l_log s) + 1.
Proof.
  unfold log_write. intros (lg & s1 & E1 & E)%bind_Ok_inv. injection E1 as <- <-.
  destruct (_ || _); [discriminate|]. destruct (_ <? 1); [discriminate|].
  apply bind_Ok_inv in E as (b & s2 & E2%bio_do_log & E).
  apply bind_Ok_inv in E as (? & s3 & E3 & E%bio_do_log). injection E3 as _ <-.
  rewrite E; simpl; rewrite E2. eexists _, _; split; [reflexivity|].
  destruct (_ =? _); lia.
Qed.

Lemma begin_op_log s s' : begin_op s = Ok (tt, s') ->
  l_log s' = set_outstanding (l_outstanding (l_log s) + 1) (l_log s) /\
  lh_n (l_log s) + (l_outstanding (l_log s) + 1) * MAXOPBLOCKS <= LOGSIZE.
Proof.
  unfold begin_op, bind, gets. destruct (l_committing _); [discriminate|].
  destruct (_ >? _) eqn:E; [discriminate|]. intros [= <-]. split; [done|lia].
Qed.

Lemma end_op_log s s' : 0 <= lh_n (l_log s) -> end_op s = Ok (tt, s') ->
  l_log s' = set_outstanding (l_outstanding (l_log s) - 1) (l_log s) \/
  (l_outstanding (l_log s) = 1 /\
   l_log s' = set_committing false (set_n 0 (set_outstanding 0 (l_log s)))).
Proof.
  intros Hn. unfold end_op, updlog, modify, gets, bind at 1 2. cbn -[commit bind].
  destruct (l_committing _) eqn:Ec; [discriminate|].
  destruct (_ =? 0) eqn:Eo; intros H; [right|left; by injection H as <-].
  apply Z.eqb_eq in Eo. split; [lia|].
  apply bind_Ok_inv in H as (? & s1 & E1 & H). injection E1 as _ <-.
  apply bind_Ok_inv in H as ([] & s2 & E2 & H). injection H as <-.
  apply commit_log_n in E2; [|done]. simpl in *. rewrite E2, Eo. by destruct (l_log s).
Qed.

(** Every step preserves the accounting. *)
Lemma log_step_admitted size c c' : admitted size c -> log_step c c' -> admitted size c'.
Proof.
  intros [Hs Hn Hc Ho Hw Hsp] Hst.
  destruct Hst as [s s' ops E|s s' ops k w i Ek Hlt E|s s' ops k w Ek E|s b' ops]; cbn [fst snd] in *.
  - apply begin_op_log in E as [E Hle]. pose proof (reserved_le _ Hw).
    constructor; cbn [fst snd]; rewrite ?E; simpl; try done.
    + rewrite length_app; simpl; lia.
    + apply Forall_app; split; [done|]. repeat constructor; unfold MAXOPBLOCKS; lia.
    + rewrite reserved_app, reserved_cons. change (reserved []) with 0. lia.
  - apply log_write_log in E as (n' & bl & E & Hn').
    constructor; cbn [fst snd]; rewrite ?E; simpl; try done; try lia.
    + by rewrite length_insert.
    + apply Forall_insert; [done|]. pose proof (Forall_lookup_1 _ _ _ _ Hw Ek) as Hk; simpl in Hk; lia.
    + rewrite (reserved_insert _ _ _ _ Ek). lia.
  - pose proof (length_delete ops k (ltac:(by eexists))) as Hl. pose proof (lookup_lt_Some _ _ _ Ek).
    pose proof (Forall_lookup_1 _ _ _ _ Hw Ek) as Hk; simpl in Hk.
    assert (Forall (fun w => 0 <= w <= MAXOPBLOCKS) (delete k ops)) as Hw' by by apply Forall_delete.
    apply end_op_log in E as [E|[Eo E]]; [| |done].
    + constructor; cbn [fst snd]; rewrite ?E; simpl; try done; [lia|].
      rewrite (reserved_delete _ _ _ Ek). lia.
    + assert (delete k ops = []) as -> by (apply nil_length_inv; lia).
      by constructor; cbn [fst snd]; rewrite ?E.
  - by constructor.
Qed.

Definition idle (size : Z) (s : lstate) : Prop :=
  l_size (l_log s) = size /\ lh_n (l_log s) = 0 /\ l_committing (l_log s) = false /\
  l_outstanding (l_log s) = 0.

Lemma reachable_admitted size s c : idle size s -> rtc log_step (s, []) c -> admitted size c.
Proof.
  intros (Hs & Hn & Hc & Ho) Hr. assert (admitted size (s, [])) as Ha.
  { constructor; cbn [fst snd]; try done; [lia|]. rewrite Hn. done. }
  revert Ha; generalize (s, @nil Z) c Hr; clear; intros c0 c Hr.
  induction Hr; eauto using log_step_admitted.
Qed.

(** C5. Admission by [begin_op] is sound: however calls interleave from an idle
    log, if every call does at most MAXOPBLOCKS [log_write]s and the log region
    has more than LOGSIZE blocks, then each of those [log_write]s succeeds: none
    of its panics is reachable. *)
Theorem log_write_admitted size s s1 ops c w i :
  idle size s -> LOGSIZE < size -> rtc log_step (s, []) (s1, ops) ->
  ops !! c = Some w -> w < MAXOPBLOCKS ->
  exists s2, log_write i s1 = Ok (tt, s2).
Proof.
  intros Hi Hsz Hr Hc Hw. destruct (reachable_admitted _ _ _ Hi Hr) as [As An Ac Ao Aw Ap].
  cbn [fst snd] in *. pose proof (reserved_delete _ _ _ Hc) as Hd.
  pose proof (reserved_le _ (Forall_delete _ _ c Aw)). pose proof (lookup_lt_Some _ _ _ Hc).
  unfold log_write, bind at 1, gets.
  replace (_ || _) with false by (symmetry; apply orb_false_iff; split; lia).
  replace (_ <? 1) with false by lia.
  by eexists.
Qed.

(** ** The log that mkfs makes has LOGSIZE blocks

    Its data part has one block less than [begin_op] hands out. *)

(** Updates of block [b] by call number [c]. *)
Fixpoint fill (l : list (nat * Z)) (s : lstate) (ops : list Z) : option (lstate * list Z) :=
  match l with
  | [] => Some (s, ops)
  | (c, b) :: l' =>
      match ops !! c, update_block (b, zero_block) s with
      | Some w, Ok (_, s') => if w <? MAXOPBLOCKS then fill l' s' (<[c := w + 1]> ops) else None
      | _, _ => None
      end
  end.

Lemma bio_do_step {A} (m : M bio A) s a s' ops : bio_do m s = Ok (a, s') -> log_step (s, ops) (s', ops).
Proof. unfold bio_do, zoom. destruct (m (l_bio s)) as [[? b']|?| |]; intros [= _ <-]. constructor. Qed.

Lemma fill_steps l s ops c : fill l s ops = Some c -> rtc log_step (s, ops) c.
Proof.
  revert s ops; induction l as [|[k b] l IH]; intros s ops; cbn [fill]; [by intros [= <-]|].
  destruct (ops !! k) as [w|] eqn:Ek; [|done].
  destruct (update_block _ s) as [[[] s']|?| |] eqn:Eu; try done.
  destruct (w <? MAXOPBLOCKS) eqn:Ew; [|done]. intros Hf%IH.
  unfold update_block in Eu. apply bind_Ok_inv in Eu as (i & s1 & E1 & Eu).
  apply bind_Ok_inv in Eu as ([] & s2 & E2 & Eu). apply bind_Ok_inv in Eu as ([] & s3 & E3 & E4).
  eapply rtc_l; [by eapply bio_do_step|]. eapply rtc_l; [by eapply bio_do_step|].
  eapply rtc_l; [eapply step_write; [exact Ek|lia|exact E3]|].
  eapply rtc_l; [by eapply bio_do_step|exact Hf].
Qed.

Definition three_calls (s0 : lstate) : option (lstate * list Z) :=
  match (do! begin_op in do! begin_op in begin_op) s0 with
  | Ok (_, s) =>
      fill ((fun k => ((k / 10)%nat, 100 + Z.of_nat k)) <$> seq 0 29) s [0; 0; 0]
  | _ => None
  end.

Lemma three_calls_steps s0 s ops : three_calls s0 = Some (s, ops) -> rtc log_step (s0, []) (s, ops).
Proof.
  unfold three_calls. destruct (bind _ _ s0) as [[[] s3]|?| |] eqn:E; try discriminate.
  intros Hf%fill_steps. apply bind_Ok_inv in E as ([] & s1 & E1 & E).
  apply bind_Ok_inv in E as ([] & s2 & E2 & E3).
  eapply rtc_l; [by apply step_begin|]. eapply rtc_l; [by apply step_begin|].
  eapply rtc_l; [by apply step_begin|]. exact Hf.
Qed.

Definition too_big (o : option (lstate * list Z)) : bool :=
  match o with
  | Some (s, ops) =>
      bool_decide (ops = [10; 10; 9]) &&
      match bio_do (bread ROOTDEV 129) s with
      | Ok (i, s') => match log_write i s' with
                      | Panic msg => bool_decide (msg = "too big a transaction"%string)
                      | _ => false
                      end
      | _ => false
      end
  | None => false
  end.

Lemma too_big_panics o : too_big o = true ->
  exists s ops s' i, o = Some (s, ops) /\ ops = [10; 10; 9] /\
    bio_do (bread ROOTDEV 129) s = Ok (i, s') /\ log_write i s' = Panic "too big a transaction".
Proof.
  unfold too_big. destruct o as [[s ops]|]; [|discriminate].
  intros [Ho%bool_decide_eq_true H]%andb_true_iff.
  destruct (bio_do _ s) as [[i s']|?| |] eqn:Eb; try discriminate.
  destruct (log_write i s') as [?|msg| |] eqn:El; try discriminate.
  apply bool_decide_eq_true in H as ->. by exists s, ops, s', i.
Qed.

(** C6. With the log region of LOGSIZE blocks that mkfs writes, admission is one
    block too generous: three calls that [begin_op] admits together, each within
    its MAXOPBLOCKS, reach a state in which the next [log_write] of a call that
    has used 9 of its 10 blocks panics. *)
Theorem log_write_mkfs_panics :
  idle LOGSIZE boot0 /\
  exists s ops s' i, rtc log_step (boot0, []) (s, ops) /\ ops = [10; 10; 9] /\
    bio_do (bread ROOTDEV 129) s = Ok (i, s') /\ log_write i s' = Panic "too big a transaction".
Proof.
  split; [unfold idle; rewrite boot0_log; by vm_compute|].
  assert (too_big (three_calls boot0) = true) as H by (vm_compute; reflexivity).
  destruct (too_big_panics _ H) as (s & ops & s' & i & E & Ho & Eb & El).
  exists s, ops, s', i. exact (conj (three_calls_steps _ _ _ E) (conj Ho (conj Eb El))).
Qed.

(** A log of LOGSIZE + 1 blocks, with one call admitted. *)
Definition roomy : lstate := mklstate (binit 1 true ∅) (set_geometry 2 31 1 log0).

Lemma log_write_admitted_witness :
  exists s2, log_write 0 (put_log (set_outstanding 1 (l_log roomy)) roomy) = Ok (tt, s2).
Proof.
  apply (log_write_admitted 31 roomy _ [0] 0 0); try reflexivity; [by split_and!|].
  apply rtc_once, (step_begin _ _ []). reflexivity.
Defined.
