(* ===== verification/Cache.v ===== *)
(** What the buffer cache promises (bio.c over ide.c): a sequence of reads and
    writes through it, whatever it evicts, is a sequence of reads and writes of
    an array of blocks; recycling takes the least recently used free buffer. *)

From S2P Require Import Prelude Bio Log.
Local Open Scope Z_scope.

(** * Clients of the cache *)

Inductive cache_op := CRead (b : Z) | CWrite (b : Z) (v : bytes).

(** The protocol of bio.c's header: [bread], use the data, [bwrite] after
    changing it, [brelse] when done. *)
Definition run_op (o : cache_op) : M bio (option bytes) :=
  match o with
  | CRead b =>
      let! i := bread ROOTDEV b in
      let! x := getbuf i in
      do! brelse i in
      ret (Some (b_data x))
  | CWrite b v =>
      let! i := bread ROOTDEV b in
      do! updbuf i (set_data v) in
      do! (do! bwrite i in brelse i) in
      ret None
  end.

Fixpoint run_ops (os : list cache_op) : M bio (list (option bytes)) :=
  match os with
  | [] => ret []
  | o :: os' => let! r := run_op o in let! rs := run_ops os' in ret (r :: rs)
  end.

(** The abstract disk: an array of blocks. *)
Definition spec_op (f : Z -> bytes) (o : cache_op) : option bytes * (Z -> bytes) :=
  match o with
  | CRead b => (Some (f b), f)
  | CWrite b v => (None, assign f (b, v))
  end.

Fixpoint spec_ops (f : Z -> bytes) (os : list cache_op) : list (option bytes) * (Z -> bytes) :=
  match os with
  | [] => ([], f)
  | o :: os' =>
      let rf := spec_op f o in let rs := spec_ops rf.2 os' in (rf.1 :: rs.1, rs.2)
  end.

Definition op_ok (o : cache_op) : Prop :=
  match o with
  | CRead b => 0 <= b < FSSIZE
  | CWrite b v => 0 <= b < FSSIZE /\ length v = Z.to_nat BSIZE
  end.

(** Cache and disk both show the contents [f]. *)
Record synced (s : bio) (f : Z -> bytes) : Prop := {
  sy_inv : bio_inv s;
  sy_none : none_held s;
  sy_clean : forall b, ~ pinned s b;
  sy_avail : (1 <= avail s)%nat;
  sy_view : forall b, view s b = f b;
  sy_disk : forall b, sectors (disk s) b = f b
}.

Lemma synced_ext s f g : synced s f -> (forall b, f b = g b) -> synced s g.
Proof. intros [] E; constructor; auto; intros; rewrite <- E; auto. Qed.

Lemma run_op_spec s f o : synced s f -> op_ok o ->
  exists s', run_op o s = Ok ((spec_op f o).1, s') /\ synced s' (spec_op f o).2.
Proof.
  intros [Hi Hn Hp Ha Hv Hd] Ho. destruct o as [b|b v]; simpl in Ho.
  - destruct (read_release s b Hi Hn Ho Ha) as (i & s1 & s2 & E1 & D1 & R1 & Q).
    exists s2; split.
    + simpl; mstep E1. unfold bind at 1, getbuf, gets. mstep R1. by rewrite D1, Hv.
    + constructor; simpl; try apply Q; intros.
      * rewrite (qu_pinned _ _ Q); apply Hp.
      * by rewrite (qu_avail _ _ Q).
      * rewrite (qu_view _ _ Q); apply Hv.
      * rewrite (qu_disk _ _ Q); apply Hd.
  - destruct Ho as [Hb Hl].
    destruct (bread_spec s b Hi Hb (none_held_not _ _ Hn) (or_introl Ha)) as (i & s1 & E1 & B).
    destruct (bset_spec s1 i b v (br_inv _ _ _ _ B) (br_buf _ _ _ _ B) Hl) as (s2 & E2 & Hd2 & Hw2 & U).
    destruct (flush_spec _ _ _ _ _ _ _ Hi Hn (Hp b) B Hd2 Hw2 U) as (s3 & E3 & W).
    exists s3; split.
    + simpl; mstep E1; mstep E2; mstep E3. done.
    + constructor; simpl; try apply W; intros.
      * rewrite (wr_pinned _ _ _ _ W); intros [? _]; by eapply Hp.
      * pose proof (wr_avail _ _ _ _ W); lia.
      * rewrite (wr_view _ _ _ _ W), Hv. done.
      * unfold sectors; rewrite (wr_disk _ _ _ _ W), sector_put. unfold assign; simpl.
        fold (sectors (disk s) b0); rewrite Hd. repeat case_decide; congruence.
Qed.

(** C35. The buffer cache refines an array of blocks.  From any quiescent state
    that shows the contents [f], any sequence of reads and writes through
    [bread], [bwrite] and [brelse] succeeds, every read returns what the last
    write to that block (or [f]) put there whatever was evicted in between, and
    at the end both the cache and the disk hold exactly the array's contents. *)
Theorem cache_refines_array s f os :
  synced s f -> Forall op_ok os ->
  exists s', run_ops os s = Ok ((spec_ops f os).1, s') /\ synced s' (spec_ops f os).2.
Proof.
  revert s f; induction os as [|o os IH]; intros s f Hs Ho; simpl; [by exists s|].
  inversion Ho as [|? ? Ho1 Ho2]; subst.
  destruct (run_op_spec s f o Hs Ho1) as (s1 & E1 & Hs1).
  destruct (IH s1 _ Hs1 Ho2) as (s2 & E2 & Hs2).
  exists s2; split; [|done]. mstep E1. by mstep E2.
Qed.

Lemma boot_synced me d : (forall k v, d !! k = Some v -> length v = Z.to_nat BSIZE) ->
  synced (binit me true d) (sectors d).
Proof.
  intros Hd; constructor.
  - by apply binit_inv.
  - apply boot_none.
  - apply boot_unpinned.
  - rewrite boot_avail; unfold NB, NBUF, MAXOPBLOCKS; lia.
  - apply binit_view.
  - done.
Qed.

Lemma cache_refines_array_witness :
  let os := [CWrite 5 (replicate 512 7); CRead 5; CRead 6; CRead 5] in
  exists s', run_ops os (binit 1 true ∅) = Ok ((spec_ops (sectors ∅) os).1, s') /\
    synced s' (spec_ops (sectors ∅) os).2.
Proof.
  intros os. apply (cache_refines_array (binit 1 true ∅) (sectors ∅) os).
  - apply boot_synced. intros k v; rewrite lookup_empty; discriminate.
  - repeat constructor; simpl; unfold FSSIZE; try lia; apply length_replicate.
Defined.

(** * Recycling *)

(** When block [b] is not cached, [bget] takes the least recently used
    buffer among those that nobody references and that are not dirty: every
    buffer used less recently than the one taken is referenced or dirty.  It
    panics exactly when there is no such buffer, so a buffer pinned by
    [log_write] or in use is never recycled. *)
Theorem bget_recycles_lru dev b s :
  bcached dev b s = None ->
  let free i := recyclable (bufs s !!! i) = true in
  match bunused s with
  | Some i =>
      (exists more less, mru s = more ++ i :: less /\ free i /\ Forall (fun j => ~ free j) less) /\
      (sl_locked (b_lock (bufs s !!! i)) = false -> (i < length (bufs s))%nat ->
       bget dev b s = Ok (i, putbuf i (mkbuf 0 dev b (mksleeplock true (pid s)) 1
                                        (b_data (bufs s !!! i))) s))
  | None => Forall (fun j => ~ free j) (mru s) /\ bget dev b s = Panic "bget: no buffers"
  end.
Proof.
  intros Hc free. destruct (bunused s) as [i|] eqn:E; split.
  - destruct (find_rev_last _ _ _ E) as (l1 & l2 & Hm & Hf & Hl).
    exists l1, l2; split_and!; [done|exact Hf|].
    eapply Forall_impl; [exact Hl|]. intros j Hj; unfold free, recyclable; rewrite Hj; done.
  - intros Hl Hi. unfold bget, bind, gets; rewrite Hc; cbn; rewrite E; cbn.
    unfold lockbuf, updbuf, bind, gets, modify, acquiresleep, getbuf; cbn.
    insert_eq; cbn; rewrite Hl; cbn; insert_eq; cbn. by rewrite list_insert_insert_eq.
  - apply Forall_forall; intros j Hj%list_elem_of_In.
    unfold bunused in E; pose proof (find_none _ _ E j) as Hn. rewrite <- in_rev in Hn.
    specialize (Hn Hj); unfold free, recyclable; by rewrite Hn.
  - unfold bget, bind, gets; rewrite Hc; cbn; by rewrite E.
Qed.

Lemma bget_recycles_lru_witness :
  bcached 1 7 (binit 1 true ∅) = None /\ bunused (binit 1 true ∅) = Some 0%nat /\
  bget 1 7 (binit 1 true ∅) = Ok (0%nat, putbuf 0 (mkbuf 0 1 7 (mksleeplock true 1) 1 zero_block)
                                            (binit 1 true ∅)).
Proof.
  split; [reflexivity|split; [reflexivity|]].
  apply (bget_recycles_lru 1 7 (binit 1 true ∅) eq_refl); [reflexivity|vm_compute; lia].
Defined.
