(* ===== verification/Block.v ===== *)
(** The interface between the file system (fs.c) and the block layer below it
    (bio.c and log.c): [bread], access to [bp->data], [log_write], [brelse].

    [BlockIO] lists the operations, [BlockLaws] what a file system call may rely
    on, and the instances show that the buffer cache and the log keep those
    promises: [log_laws] inside a transaction, [read_laws] for a call that only
    reads, outside one.  File system code is written and proved
    against the classes only. *)

From S2P Require Import Prelude Bio Log Crash.
Local Open Scope Z_scope.

Class BlockIO (S : Type) := {
  io_bread : Z -> Z -> M S nat;
  io_data : nat -> M S bytes;
  io_store : nat -> bytes -> M S unit;
  io_log_write : nat -> M S unit;
  io_brelse : nat -> M S unit;
  io_begin_op : M S unit;
  io_end_op : M S unit
}.

(** [tx s f held logged]: in state [s], inside a transaction, the blocks of the
    disk read as [f], the buffers [held] are held (innermost first) and the
    blocks [logged] are part of the transaction. *)
Class BlockLaws (S : Type) `{BlockIO S} := {
  tx : S -> (Z -> bytes) -> list (nat * Z) -> list Z -> Prop;
  (** Blocks that the file system may change. *)
  fs_block : Z -> Prop;
  (** How many blocks a transaction can have. *)
  tx_cap : nat;
  tx_ext s f g held logged : tx s f held logged -> (forall x, f x = g x) -> tx s g held logged;
  tx_sized s f held logged x : tx s f held logged -> length (f x) = Z.to_nat BSIZE;
  tx_bread s f held logged b :
    tx s f held logged -> 0 <= b < FSSIZE -> b ∉ held.*2 ->
    (length held + length logged < NB)%nat ->
    exists h s', io_bread ROOTDEV b s = Ok (h, s') /\ tx s' f ((h, b) :: held) logged;
  tx_data s f held logged h b :
    tx s f held logged -> (h, b) ∈ held -> io_data h s = Ok (f b, s);
  tx_write s f held logged h b d :
    tx s f held logged -> (h, b) ∈ held -> fs_block b -> length d = Z.to_nat BSIZE ->
    (length logged < tx_cap)%nat ->
    exists s', (do! io_store h d in io_log_write h) s = Ok (tt, s') /\
      tx s' (assign f (b, d)) held (absorb b logged);
  tx_brelse s f held logged h b :
    tx s f ((h, b) :: held) logged ->
    exists s', io_brelse h s = Ok (tt, s') /\ tx s' f held logged
}.

(** * Derived operations *)

Section Derived.
  Context {S : Type} `{BlockLaws S}.

(** Read a block and release it. *)
Lemma tx_read s f held logged b {A} (k : bytes -> A) :
  tx s f held logged -> 0 <= b < FSSIZE -> b ∉ held.*2 -> (length held + length logged < NB)%nat ->
  exists s', (let! h := io_bread ROOTDEV b in
              let! d := io_data h in
              do! io_brelse h in ret (k d)) s = Ok (k (f b), s') /\ tx s' f held logged.
Proof.
  intros T Hb Hh Hl. destruct (tx_bread _ _ _ _ _ T Hb Hh Hl) as (h & s1 & E1 & T1).
  assert ((h, b) ∈ (h, b) :: held) as Hin by by left.
  destruct (tx_brelse _ _ _ _ _ _ T1) as (s2 & E2 & T2).
  exists s2; split; [|done]. mstep E1. mstep (tx_data _ _ _ _ _ _ T1 Hin). by mstep E2.
Qed.

(** Read, change, log and release a block. *)
Lemma tx_update s f held logged b (g : bytes -> bytes) :
  tx s f held logged -> 0 <= b < FSSIZE -> fs_block b -> b ∉ held.*2 ->
  (length held + length logged < NB)%nat -> (length logged < tx_cap)%nat ->
  length (g (f b)) = Z.to_nat BSIZE ->
  exists s', (let! h := io_bread ROOTDEV b in
              let! d := io_data h in
              do! io_store h (g d) in
              do! io_log_write h in
              io_brelse h) s = Ok (tt, s') /\
    tx s' (assign f (b, g (f b))) held (absorb b logged).
Proof.
  intros T Hb Hfb Hh Hl Hc Hg. destruct (tx_bread _ _ _ _ _ T Hb Hh Hl) as (h & s1 & E1 & T1).
  assert ((h, b) ∈ (h, b) :: held) as Hin by by left.
  destruct (tx_write _ _ _ _ _ _ _ T1 Hin Hfb Hg Hc) as (s2 & E2 & T2).
  destruct (tx_brelse _ _ _ _ _ _ T2) as (s3 & E3 & T3).
  exists s3; split; [|done]. mstep E1. mstep (tx_data _ _ _ _ _ _ T1 Hin).
  rewrite <- bind_assoc. by mstep E2.
Qed.
End Derived.

(** * The log and the buffer cache implement the interface *)

#[export] Instance log_io : BlockIO lstate := {|
  io_bread dev b := bio_do (bread dev b);
  io_data h := bio_do (gets (fun s => b_data (bufs s !!! h)));
  io_store h d := bio_do (updbuf h (set_data d));
  io_log_write := log_write;
  io_brelse h := bio_do (brelse h);
  io_begin_op := begin_op;
  io_end_op := end_op
|}.

Section Laws.
  (** The state in which the transaction began. *)
  Context (s0 : lstate).
Let start := l_start (l_log s0).
Let size := l_size (l_log s0).

(** Buffers that cannot be recycled: those of the transaction's blocks and the
    held ones of other blocks. *)
Definition busy (held : list (nat * Z)) (logged : list Z) : nat :=
  (length logged + length (filter (fun b => b ∉ logged) held.*2))%nat.

Record log_tx (s : lstate) (f : Z -> bytes) (held : list (nat * Z)) (logged : list Z) : Prop := {
  lt_inv : log_inv s logged;
  lt_held : forall i b, is_buf (l_bio s) i b <-> (i, b) ∈ held;
  lt_nodup : NoDup held.*2;
  lt_clean : forall i b, (i, b) ∈ held -> b ∉ logged ->
               view (l_bio s) b = sector (disk (l_bio s)) (ROOTDEV, b);
  lt_avail : (NB <= avail (l_bio s) + busy held logged)%nat;
  lt_view : forall x, view (l_bio s) x = f x;
  lt_disk : disk (l_bio s) = disk (l_bio s0);
  lt_writes : writes (l_bio s) = writes (l_bio s0);
  lt_start : l_start (l_log s) = start;
  lt_size : l_size (l_log s) = size;
  lt_out : l_outstanding (l_log s) = 1;
  lt_committing : l_committing (l_log s) = false
}.

Lemma busy_le held logged : (busy held logged <= length held + length logged)%nat.
Proof.
  unfold busy. pose proof (length_filter (fun b => b ∉ logged) held.*2) as H.
  rewrite length_fmap in H. lia.
Qed.

Lemma busy_cons h b held logged :
  busy ((h, b) :: held) logged = ((if decide (b ∈ logged) then 0 else 1) + busy held logged)%nat.
Proof.
  unfold busy. rewrite fmap_cons; cbn [snd]. destruct (decide (b ∈ logged)) as [Hb|Hb].
  - rewrite filter_cons_False by tauto. done.
  - rewrite filter_cons_True by done. cbn [length]; lia.
Qed.

Lemma filter_absorb (l : list Z) b logged : NoDup l -> b ∈ l -> b ∉ logged ->
  length (filter (fun x => x ∉ logged) l) = S (length (filter (fun x => x ∉ logged ++ [b]) l)).
Proof.
  assert (forall x, x ∉ logged ++ [b] <-> x ∉ logged /\ x <> b) as Hx
    by (intros x; rewrite elem_of_app, list_elem_of_singleton; tauto).
  assert (forall l0 : list Z, b ∉ l0 ->
    filter (fun x => x ∉ logged ++ [b]) l0 = filter (fun x => x ∉ logged) l0) as He.
  { induction l0 as [|y l0 IHl]; [done|]. rewrite not_elem_of_cons; intros [Hy Hl0].
    destruct (decide (y ∈ logged)).
    - rewrite !filter_cons_False; [by apply IHl|tauto|rewrite Hx; tauto].
    - rewrite !filter_cons_True; [by rewrite IHl|done|apply Hx; auto]. }
  induction 1 as [|y l Hy Hl IH]; intros Hb Hn; [by apply not_elem_of_nil in Hb|].
  destruct (decide (y = b)) as [->|Hne].
  - rewrite filter_cons_True by done. rewrite filter_cons_False by (rewrite Hx; tauto).
    simpl. by rewrite He.
  - apply elem_of_cons in Hb as [->|Hb]; [done|]. specialize (IH Hb Hn).
    destruct (decide (y ∈ logged)).
    + rewrite !filter_cons_False; [done|rewrite Hx; tauto|tauto].
    + rewrite !filter_cons_True; [simpl; by rewrite IH|by apply Hx|done].
Qed.

Lemma busy_absorb held b logged : NoDup held.*2 -> b ∈ held.*2 -> busy held (absorb b logged) = busy held logged.
Proof.
  intros Hn Hb. unfold absorb. destruct (decide (b ∈ logged)) as [|Hl]; [done|].
  unfold busy. rewrite (filter_absorb _ _ _ Hn Hb Hl), length_app. simpl. lia.
Qed.

Lemma held_view s f held logged i b : log_tx s f held logged -> (i, b) ∈ held ->
  is_buf (l_bio s) i b /\ b_data (bufs (l_bio s) !!! i) = f b.
Proof.
  intros T Hin. apply (lt_held _ _ _ _ T) in Hin. split; [done|].
  rewrite <- (lt_view _ _ _ _ T). symmetry; apply view_cached; [apply T|by apply is_buf_caches].
Qed.

Lemma log_tx_bread s f held logged b :
  log_tx s f held logged -> 0 <= b < FSSIZE -> b ∉ held.*2 -> (length held + length logged < NB)%nat ->
  exists h s', io_bread ROOTDEV b s = Ok (h, s') /\ log_tx s' f ((h, b) :: held) logged.
Proof.
  intros T Hb Hh Hl. pose proof T as [I Th Tn Tc Ta Tv Td Tw Ts Tz To Tm].
  assert (~ Bio.held (l_bio s) b) as Hnh.
  { intros [i Hi%Th]. apply Hh, list_elem_of_fmap. by exists (i, b). }
  destruct (bread_spec (l_bio s) b) as (i & b1 & E & B); [apply I|done|done|left; pose proof (busy_le held logged); lia|].
  exists i, (mklstate b1 (l_log s)); split; [exact (zoom_Ok l_bio put_bio _ _ _ _ E)|].
  pose proof (br_disk _ _ _ _ B) as Ed.
  constructor; cbn [l_bio l_log]; rewrite ?Ed, ?(br_writes _ _ _ _ B); try done.
  - apply log_inv_bio; [done|apply B|done|apply (br_pinned _ _ _ _ B)].
  - intros j x. rewrite (br_held _ _ _ _ B), Th, elem_of_cons. split; [intros [?|[-> ->]]; auto|].
    intros [[= -> ->]|?]; auto.
  - simpl. by constructor.
  - intros j x Hj Hx. rewrite (br_view _ _ _ _ B). apply elem_of_cons in Hj as [[= -> ->]|Hj].
    + apply view_clean; [apply I|done|]. by rewrite (li_pinned _ _ I).
    + by apply (Tc j).
  - rewrite busy_cons. destruct (decide (b ∈ logged)) as [Hlg|Hlg]; rewrite <- (li_pinned _ _ I) in Hlg.
    + rewrite (br_avail_pinned _ _ _ _ B) by done. lia.
    + pose proof (br_avail _ _ _ _ B Hlg). lia.
  - intros x; by rewrite (br_view _ _ _ _ B).
Qed.

Lemma log_tx_brelse s f held logged h b :
  log_tx s f ((h, b) :: held) logged ->
  exists s', io_brelse h s = Ok (tt, s') /\ log_tx s' f held logged.
Proof.
  intros T. destruct (held_view _ _ _ _ h b T) as [Hb Hd]; [by left|].
  pose proof T as [I Th Tn Tc Ta Tv Td Tw Ts Tz To Tm].
  destruct (brelse_spec (l_bio s) h b (li_bio _ _ I) Hb) as (b1 & E & R).
  { rewrite (li_pinned _ _ I). destruct (decide (b ∈ logged)) as [|Hn]; [by left|right].
    rewrite Hd, <- Tv. apply (Tc h); [by left|done]. }
  exists (mklstate b1 (l_log s)); split; [exact (zoom_Ok l_bio put_bio _ _ _ _ E)|].
  inversion Tn as [|? ? Hnb Hnd]; subst.
  constructor; cbn [l_bio l_log]; rewrite ?(rl_disk _ _ _ _ R), ?(rl_writes _ _ _ _ R); try done.
  - apply log_inv_bio; [done|apply R|apply R|apply (rl_pinned _ _ _ _ R)].
  - intros j x. rewrite (rl_held _ _ _ _ R), Th, elem_of_cons. split.
    + intros [[[= -> ->]|?] ?]; done.
    + intros Hin. split; [by right|]. intros ->.
      assert (is_buf (l_bio s) h x) as (_ & _ & Hx & _) by (apply Th; by right).
      destruct Hb as (_ & _ & Hb' & _). apply Hnb, list_elem_of_fmap. exists (h, x). split; [simpl; congruence|done].
  - intros j x Hj Hx. rewrite (rl_view _ _ _ _ R). apply (Tc j); [by right|done].
  - rewrite busy_cons in Ta. destruct (decide (b ∈ logged)) as [Hlg|Hlg]; rewrite <- (li_pinned _ _ I) in Hlg.
    + rewrite (rl_avail_pinned _ _ _ _ R) by done. lia.
    + rewrite (rl_avail _ _ _ _ R) by done. lia.
  - intros x; by rewrite (rl_view _ _ _ _ R).
Qed.

(** Blocks that file system calls change: outside the log, not the super block. *)
Definition log_fs_block (b : Z) : Prop := home start size b /\ b <> 1.

Definition log_cap : nat := Z.to_nat (Z.min LOGSIZE (size - 1)).

Lemma log_tx_write s f held logged h b d :
  log_tx s f held logged -> (h, b) ∈ held -> log_fs_block b -> length d = Z.to_nat BSIZE ->
  (length logged < log_cap)%nat ->
  exists s', (do! io_store h d in io_log_write h) s = Ok (tt, s') /\
    log_tx s' (assign f (b, d)) held (absorb b logged).
Proof.
  intros T Hin [Hh H1] Hd Hc. destruct (held_view _ _ _ _ h b T Hin) as [Hb _].
  pose proof T as [I Th Tn Tc Ta Tv Td Tw Ts Tz To Tm]. pose proof (li_bio _ _ I) as Ib.
  destruct (bset_spec (l_bio s) h b d Ib Hb Hd) as (b1 & E1 & Hd1 & Hw1 & U1).
  pose proof (pinned_caches _ _ _ Ib (is_buf_caches _ _ _ Hb)) as Hpc.
  assert (log_inv (mklstate b1 (l_log s)) logged) as I1.
  { apply log_inv_bio; [done|apply U1|done|]. intros x. rewrite (up_pinned _ _ _ _ _ _ U1).
    destruct (decide (x = b)) as [->|]; [|done]. by rewrite Hpc. }
  assert (is_buf b1 h b) as Hb1 by by apply (up_held _ _ _ _ _ _ U1).
  pose proof (ho_n _ _ (li_head _ _ I)) as Hn. unfold log_cap, LOGSIZE, MAXOPBLOCKS in Hc.
  destruct (log_write_spec (mklstate b1 (l_log s)) logged h b I1 Hb1) as (s2 & E2 & I2 & L2 & Hd2 & Hw2 & U2);
    cbn [l_bio l_log] in *; rewrite ?Ts, ?Tz, ?To; try done; unfold LOGSIZE, MAXOPBLOCKS; try lia.
  exists s2; split; [mstep (zoom_Ok l_bio put_bio _ s _ _ E1); exact E2|].
  constructor; rewrite ?L2, ?Hd2, ?Hd1, ?Hw2, ?Hw1; try done.
  - intros i x. by rewrite (up_held _ _ _ _ _ _ U2), (up_held _ _ _ _ _ _ U1), Th.
  - intros i x Hi Hx. assert (x <> b /\ x ∉ logged) as [Hxb Hxl].
    { unfold absorb in Hx. destruct (decide (b ∈ logged)).
      - split; [by intros ->|done].
      - rewrite elem_of_app, list_elem_of_singleton in Hx. tauto. }
    rewrite (up_view _ _ _ _ _ _ U2), decide_False, (up_view _ _ _ _ _ _ U1), decide_False by done.
    by apply (Tc i).
  - rewrite (up_avail _ _ _ _ _ _ U2), (up_avail _ _ _ _ _ _ U1), busy_absorb; [done|done|].
    apply list_elem_of_fmap. by exists (h, b).
  - intros x. rewrite (up_view _ _ _ _ _ _ U2), (up_view _ _ _ _ _ _ U1), (up_data _ _ _ _ _ _ U1), Tv.
    unfold assign; simpl. repeat case_decide; congruence.
Qed.

#[refine] Instance log_laws : BlockLaws lstate := {|
  tx := log_tx;
  fs_block := log_fs_block;
  tx_cap := log_cap
|}.
Proof.
  - intros s f g held logged T E. destruct T; constructor; auto. intros x; by rewrite <- E.
  - intros s f held logged x T. rewrite <- (lt_view _ _ _ _ T). apply view_len, T.
  - apply log_tx_bread.
  - intros s f held logged h b T Hin. destruct (held_view _ _ _ _ h b T Hin) as [_ Hd].
    unfold io_data; simpl. unfold bio_do, zoom, gets. rewrite Hd. by destruct s.
  - apply log_tx_write.
  - apply log_tx_brelse.
Defined.
End Laws.

(** * From [begin_op] to [end_op] *)

Record log_idle (s : lstate) : Prop := {
  id_inv : log_inv s [];
  id_none : none_held (l_bio s);
  id_out : l_outstanding (l_log s) = 0;
  id_committing : l_committing (l_log s) = false
}.

Lemma tx_begin s : log_idle s ->
  exists s1, begin_op s = Ok (tt, s1) /\ log_tx s s1 (view (l_bio s)) [] [].
Proof.
  intros [I Hn Ho Hc]. eexists; split; [apply begin_op_admit; [done..|apply (ho_n _ _ (li_head _ _ I))]|].
  destruct (begin_txn s I Hn Hc) as [I1 Hn1 Td Tw Tv Ts Tz To Tc].
  constructor; try done.
  - intros i b; split; [by intros ?%Hn1|by intros ?%not_elem_of_nil].
  - constructor.
  - intros i b Hi; by apply not_elem_of_nil in Hi.
  - pose proof (pinned_avail _ [] (li_bio _ _ I1) Hn1 (li_pinned _ _ I1)) as Ha.
    unfold busy; simpl in *; lia.
Qed.

(** ** Outside a transaction *)

(** A call that only reads, such as [fileread], opens no transaction, while others
    may be in theirs.  Reading neither looks at [log.outstanding] nor changes it, so
    the state is as good as one inside a transaction, of no blocks of its own. *)
Definition as_op (s : lstate) : lstate := put_log (set_outstanding 1 (l_log s)) s.

Lemma as_op_bio {A} (m : M bio A) s a s1 : bio_do m (as_op s) = Ok (a, s1) ->
  exists s', bio_do m s = Ok (a, s') /\ as_op s' = s1.
Proof.
  unfold bio_do, zoom. cbn [as_op put_log l_bio]. destruct (m (l_bio s)) as [[x b]| | |]; [|done..].
  intros [= <- <-]. by eexists.
Qed.

#[refine] Definition read_laws (s0 : lstate) : BlockLaws lstate := {|
  tx s := log_tx s0 (as_op s);
  fs_block := log_fs_block s0;
  tx_cap := O
|}.
Proof.
  - intros s f g held logged. apply (tx_ext (BlockLaws := log_laws s0)).
  - intros s f held logged x. apply (tx_sized (BlockLaws := log_laws s0)).
  - intros s f held logged b T Hb Hh Hl. destruct (log_tx_bread s0 _ _ _ _ _ T Hb Hh Hl) as (h & s1 & E & T1).
    destruct (as_op_bio _ _ _ _ E) as (s' & E' & <-). by exists h, s'.
  - intros s f held logged h b T Hin. destruct (held_view s0 _ _ _ _ h b T Hin) as [_ Hd].
    cbn [as_op put_log l_bio] in Hd. unfold io_data; simpl. unfold bio_do, zoom, gets. rewrite Hd. by destruct s.
  - intros s f held logged h b d _ _ _ _ Hc. lia.
  - intros s f held logged h b T. destruct (log_tx_brelse s0 _ _ _ _ _ _ T) as (s1 & E & T1).
    destruct (as_op_bio _ _ _ _ E) as (s' & E' & <-). by exists s'.
Defined.

Lemma idle_reads s : log_idle s -> tx (BlockLaws := read_laws s) s (view (l_bio s)) [] [].
Proof.
  intros I. destruct (tx_begin s I) as (s1 & E & T). destruct I as [I _ Ho Hc].
  rewrite (begin_op_admit _ Hc Ho (ho_n _ _ (li_head _ _ I))) in E. by injection E as <-.
Qed.

(** ** The transaction's end *)

Lemma log_tx_in_txn s0 s f logged : log_tx s0 s f [] logged -> in_txn s0 logged f s.
Proof.
  intros [I Th Tn Tc Ta Tv Td Tw Ts Tz To Tm]. constructor; try done.
  intros i b Hi%Th; by apply not_elem_of_nil in Hi.
Qed.

Lemma end_op_empty s0 f s : in_txn s0 [] f s ->
  end_op s = Ok (tt, mklstate (l_bio s) (set_committing false (set_committing true
                       (set_outstanding 0 (l_log s))))).
Proof.
  intros [I Hn Td Tw Tv Ts Tz To Tc]. pose proof (ho_n _ _ (li_head _ _ I)) as E0; simpl in E0.
  set (lg := set_committing true (set_outstanding 0 (l_log s))).
  assert (end_op s = (do! commit in updlog (set_committing false)) (mklstate (l_bio s) lg)) as ->
    by (unfold end_op, updlog, bind at 1 2, modify, gets; cbn -[commit]; by rewrite To, Tc).
  assert (commit (mklstate (l_bio s) lg) = Ok (tt, mklstate (l_bio s) lg)) as Ec
    by (unfold commit, bind at 1, gets, lg; cbn [l_log lh_n set_committing set_outstanding]; by rewrite E0).
  by mstep Ec.
Qed.

(** The sector writes between two states, and the crashes on the way. *)
Definition extends (s s' : lstate) : Prop := exists ws,
  writes (l_bio s') = writes (l_bio s) ++ ws /\ disk (l_bio s') = apply_writes (disk (l_bio s)) ws.

Lemma extends_refl s : extends s s.
Proof. exists []. by rewrite app_nil_r. Qed.

Lemma extends_trans s1 s2 s3 : extends s1 s2 -> extends s2 s3 -> extends s1 s3.
Proof.
  intros (ws & W & D) (ws' & W' & D'). exists (ws ++ ws'). rewrite W', W, D', D. unfold apply_writes.
  by rewrite fold_left_app, app_assoc.
Qed.

(** A crash on the way from [s1] to [s3] by way of [s2] is before or after [s2]. *)
Lemma crash_split s1 s2 s3 k : extends s1 s2 -> extends s2 s3 ->
  crash_disk s1 s3 k = crash_disk s1 s2 k \/ exists j, crash_disk s1 s3 k = crash_disk s2 s3 j.
Proof.
  intros (ws & W & D) (ws' & W' & D'). unfold crash_disk. rewrite W', W, <- app_assoc, !drop_app_length.
  destruct (decide (k <= length ws)%nat) as [Hk|Hk].
  - left. rewrite take_app_le by done. done.
  - right. exists (k - length ws)%nat. rewrite app_assoc, drop_app_length, D. rewrite take_app_ge by lia.
    unfold apply_writes. by rewrite fold_left_app.
Qed.

(** The end of a file system call that has changed the blocks [logged], so that
    the disk reads as [f]: the changes are durable, and a crash on the way leaves
    all of them or none. *)
Lemma tx_end s0 s f logged :
  log_idle s0 -> log_tx s0 s f [] logged ->
  exists s', end_op s = Ok (tt, s') /\ log_idle s' /\
    l_start (l_log s') = l_start (l_log s0) /\ l_size (l_log s') = l_size (l_log s0) /\
    (forall b, home (l_start (l_log s0)) (l_size (l_log s0)) b -> view (l_bio s') b = f b) /\
    (forall me k, recovers me (crash_disk s0 s' k) (l_start (l_log s0)) (l_size (l_log s0))
      (if decide (k <= length logged)%nat then view (l_bio s0) else f)) /\ extends s0 s'.
Proof.
  intros [I0 Hn0 Ho0 Hc0] T%log_tx_in_txn. pose proof T as [I Hn Td Tw Tv Ts Tz To Tc].
  assert (forall b, sectors (disk (l_bio s)) b = view (l_bio s0) b) as Hold.
  { intros b. rewrite Td. symmetry. apply (log_inv_clean s0 [] b I0 Hn0), not_elem_of_nil. }
  destruct (decide (logged = [])) as [->|Hne].
  - rewrite (end_op_empty _ _ _ T). eexists; split; [reflexivity|].
    split_and!; try done.
    + constructor; try done. destruct I as [Ib Ih Ip Ii If Is Ig]; constructor; try done. by destruct Ih.
    + intros me k. unfold crash_disk; cbn [l_bio].
      rewrite Tw, drop_all, take_nil, <- Td.
      destruct (commit_crash_recovers s [] me 0 I Hn) as (r & Er & Ir & Hr & Hv).
      exists r; split_and!; try done. intros b Hb. rewrite Hv by by rewrite Ts, Tz. rewrite decide_True by done.
      rewrite Hold. destruct (decide (k <= _)%nat); [done|]. rewrite <- Tv, <- Hold.
      symmetry. apply (log_inv_clean s [] b I Hn), not_elem_of_nil.
    + exists []. cbn [l_bio]. by rewrite app_nil_r, Tw, Td.
  - destruct (end_op_commits s0 logged f s T Hne) as (b' & E & W).
    eexists; split; [exact E|].
    match goal with |- context [log_idle ?x] => set (s' := x) end.
    destruct (commit_state s _ s' I Hn) as [I' Hv];
      [by destruct (head_ok_nil _ _ (li_head _ _ I)); constructor|done|done|exact W|].
    split_and!; try done.
    + constructor; try done. apply W.
    + intros b Hb. rewrite Hv, Tv by by rewrite Ts, Tz. done.
    + intros me k. destruct (commit_crash_recovers s _ me k I Hn) as (r & Er & Ir & Hr & Hvr).
      exists r; split_and!; [|done|done|].
      * by rewrite (crash_disk_from s0 s s' _ k Td Tw W).
      * intros b Hb. rewrite Hvr by by rewrite Ts, Tz. rewrite Hold, Tv. by case_decide.
    + eexists. rewrite <- Tw, <- Td. split; [apply (wa_writes _ _ _ W)|apply (wa_disk _ _ _ W)].
Qed.
