(* ===== verification/Fs.v ===== *)
(** The file system (fs.c) over the block interface: blocks, inodes, contents,
    directories, path names.  This file has the definitions; FsAlloc, FsInode,
    FsRefs, FsName, FsBlocks, FsFile and FsPath have their theorems. *)

From S2P Require Import Prelude Bio Log Crash Block Strings.
Local Open Scope Z_scope.

(** * fs.h, stat.h *)

Definition ROOTINO : Z := 1.
Definition NDIRECT : Z := 11.
Definition NINDIRECT : Z := BSIZE / 4.
Definition MAXFILE : Z := NDIRECT + NINDIRECT.
Definition SIZEOF_DINODE : Z := 64.
Definition IPB : Z := BSIZE / SIZEOF_DINODE.
Definition BPB : Z := BSIZE * 8.
Definition DIRSIZ : Z := 14.
Definition SIZEOF_DIRENT : Z := 16.
Definition T_DIR : Z := 1.
Definition T_FILE : Z := 2.
Definition T_DEV : Z := 3.

Definition IBLOCK (i : Z) (sb : superblock) : Z := u32 (i / IPB + sb_inodestart sb).
Definition BBLOCK (b : Z) (sb : superblock) : Z := u32 (b / BPB + sb_bmapstart sb).

(** The on-disk inode; [mode] is the union's [intRep]. *)
Record dinode := mkdinode {
  d_type : Z;
  d_major : Z;
  d_minor : Z;
  d_nlink : Z;
  d_mode : Z;
  d_size : Z;
  d_addrs : list Z
}.

Definition dinode0 : dinode := mkdinode 0 0 0 0 0 0 (replicate 12 0).

(** The inode at byte offset [off] of block data [d]. *)
Definition get_dinode (d : bytes) (off : nat) : dinode :=
  mkdinode (s16 (ld 2 d off)) (s16 (ld 2 d (off + 2))) (s16 (ld 2 d (off + 4))) (s16 (ld 2 d (off + 6)))
    (ld 4 d (off + 8)) (ld 4 d (off + 12))
    ((fun k => ld 4 d (off + 16 + 4 * k)) <$> seq 0 12).

Fixpoint put_addrs (d : bytes) (off : nat) (addrs : list Z) : bytes :=
  match addrs with
  | [] => d
  | a :: addrs' => put_addrs (st 4 d off a) (off + 4) addrs'
  end.

(** The stores of [iupdate], in its order. *)
Definition put_dinode (d : bytes) (off : nat) (x : dinode) : bytes :=
  let d := st 2 d off (d_type x) in
  let d := st 2 d (off + 2) (d_major x) in
  let d := st 2 d (off + 4) (d_minor x) in
  let d := st 2 d (off + 6) (d_nlink x) in
  let d := st 4 d (off + 12) (d_size x) in
  let d := st 4 d (off + 8) (d_mode x) in
  put_addrs d (off + 16) (d_addrs x).

Record stat := mkstat {
  st_type : Z; st_dev : Z; st_ino : Z; st_nlink : Z; st_size : Z; st_mode : Z
}.

(** * file.h: the in-memory inode *)

Record inode := mkinode {
  i_dev : Z;
  i_inum : Z;
  i_ref : Z;
  i_lock : sleeplock;
  i_valid : bool;
  i_d : dinode
}.

(** What an index outside the cache reads, the null pointer for one: [ref] is 0, so
    [ilock] and [iunlock] panic on it as they do on a null pointer. *)
#[export] Instance inode_inhabited : Inhabited inode :=
  populate (mkinode 0 0 0 initsleeplock false dinode0).

Definition set_ref (r : Z) (ip : inode) : inode :=
  mkinode (i_dev ip) (i_inum ip) r (i_lock ip) (i_valid ip) (i_d ip).
Definition set_ilock (lk : sleeplock) (ip : inode) : inode :=
  mkinode (i_dev ip) (i_inum ip) (i_ref ip) lk (i_valid ip) (i_d ip).
Definition set_valid (v : bool) (ip : inode) : inode :=
  mkinode (i_dev ip) (i_inum ip) (i_ref ip) (i_lock ip) v (i_d ip).
Definition set_d (d : dinode) (ip : inode) : inode :=
  mkinode (i_dev ip) (i_inum ip) (i_ref ip) (i_lock ip) (i_valid ip) d.

Definition set_type (v : Z) (d : dinode) : dinode :=
  mkdinode v (d_major d) (d_minor d) (d_nlink d) (d_mode d) (d_size d) (d_addrs d).
Definition set_dev (major minor : Z) (d : dinode) : dinode :=
  mkdinode (d_type d) major minor (d_nlink d) (d_mode d) (d_size d) (d_addrs d).
Definition set_nlink (v : Z) (d : dinode) : dinode :=
  mkdinode (d_type d) (d_major d) (d_minor d) v (d_mode d) (d_size d) (d_addrs d).
Definition set_mode (v : Z) (d : dinode) : dinode :=
  mkdinode (d_type d) (d_major d) (d_minor d) (d_nlink d) v (d_size d) (d_addrs d).
Definition set_size (v : Z) (d : dinode) : dinode :=
  mkdinode (d_type d) (d_major d) (d_minor d) (d_nlink d) (d_mode d) v (d_addrs d).
Definition set_addr (k : nat) (v : Z) (d : dinode) : dinode :=
  mkdinode (d_type d) (d_major d) (d_minor d) (d_nlink d) (d_mode d) (d_size d)
    (<[k := v]> (d_addrs d)).

(** * State of the file system: the super block, the inode cache, the calling
      process and its current directory. *)

Record fsys (W : Type) := mkfsys {
  f_io : W;
  f_sb : superblock;
  f_ic : list inode;
  f_pid : Z;
  f_cwd : nat
}.
Arguments mkfsys {W}.
Arguments f_io {W}.
Arguments f_sb {W}.
Arguments f_ic {W}.
Arguments f_pid {W}.
Arguments f_cwd {W}.

Section Fs.
  Context {W : Type} `{BlockIO W}.

Definition put_io (x : W) (s : fsys W) : fsys W := mkfsys x (f_sb s) (f_ic s) (f_pid s) (f_cwd s).
Definition put_ic (x : list inode) (s : fsys W) : fsys W := mkfsys (f_io s) (f_sb s) x (f_pid s) (f_cwd s).
Definition put_sb (x : superblock) (s : fsys W) : fsys W := mkfsys (f_io s) x (f_ic s) (f_pid s) (f_cwd s).
Definition io {A} (m : M W A) : M (fsys W) A := zoom f_io put_io m.

Definition getip (i : nat) : M (fsys W) inode := gets (fun s => f_ic s !!! i).
Definition updip (i : nat) (f : inode -> inode) : M (fsys W) unit :=
  modify (fun s => put_ic (<[i := f (f_ic s !!! i)]> (f_ic s)) s).
Definition updd (i : nat) (f : dinode -> dinode) : M (fsys W) unit :=
  updip i (fun ip => set_d (f (i_d ip)) ip).

(** * Blocks *)

Definition bzero (dev bno : Z) : M (fsys W) unit :=
  let! bp := io (io_bread dev (u32 bno)) in
  do! io (io_store bp zero_block) in
  do! io (io_log_write bp) in
  io (io_brelse bp).

(** [bp->data[bi/8] & (1 << (bi % 8))] *)
Definition bit_mask (bi : Z) : Z := Z.shiftl 1 (bi mod 8).
Definition bit_test (d : bytes) (bi : Z) : bool := negb (Z.land (getb d (bi / 8)) (bit_mask bi) =? 0).
Definition bit_set (d : bytes) (bi : Z) : bytes :=
  setb d (bi / 8) (Z.lor (getb d (bi / 8)) (bit_mask bi)).
Definition bit_clear (d : bytes) (bi : Z) : bytes :=
  setb d (bi / 8) (u8 (Z.land (getb d (bi / 8)) (Z.lnot (bit_mask bi)))).

(** The inner loop of [balloc]: the first free [bi >= from] in one bitmap block. *)
Fixpoint balloc_scan (fuel : nat) (d : bytes) (b size bi : Z) : option Z :=
  match fuel with
  | O => None
  | S fuel' =>
      if (bi <? BPB) && (b + bi <? size) then
        if bit_test d bi then balloc_scan fuel' d b size (bi + 1) else Some bi
      else None
  end.

Fixpoint balloc_loop (fuel : nat) (dev b : Z) : M (fsys W) Z :=
  let! sb := gets f_sb in
  match fuel with
  | O => panic "balloc: out of blocks"
  | S fuel' =>
      if b <? sb_size sb then
        let! bp := io (io_bread dev (BBLOCK b sb)) in
        let! d := io (io_data bp) in
        match balloc_scan (Z.to_nat BPB) d b (sb_size sb) 0 with
        | Some bi =>
            do! io (io_store bp (bit_set d bi)) in
            do! io (io_log_write bp) in
            do! io (io_brelse bp) in
            do! bzero dev (b + bi) in
            ret (b + bi)
        | None =>
            do! io (io_brelse bp) in
            balloc_loop fuel' dev (b + BPB)
        end
      else panic "balloc: out of blocks"
  end.

Definition balloc (dev : Z) : M (fsys W) Z :=
  let! sb := gets f_sb in
  balloc_loop (Z.to_nat (sb_size sb / BPB + 1)) dev 0.

Definition bfree (dev b : Z) : M (fsys W) unit :=
  let! sb := gets f_sb in
  let! bp := io (io_bread dev (BBLOCK b sb)) in
  let! d := io (io_data bp) in
  let bi := b mod BPB in
  if negb (bit_test d bi) then panic "freeing free block" else
  do! io (io_store bp (bit_clear d bi)) in
  do! io (io_log_write bp) in
  io (io_brelse bp).

(** * Inodes *)

Definition iinit (dev : Z) : M (fsys W) unit :=
  do! modify (fun s => put_ic (set_ilock initsleeplock <$> f_ic s) s) in
  let! bp := io (io_bread dev 1) in
  let! d := io (io_data bp) in
  do! io (io_brelse bp) in
  modify (put_sb (decode_sb d)).

(** One pass over the cache: the entry found, and the first empty one. *)
Fixpoint iget_scan (l : list inode) (k : nat) (dev inum : Z) (empty : option nat) : option nat * option nat :=
  match l with
  | [] => (None, empty)
  | ip :: l' =>
      if (i_ref ip >? 0) && (i_dev ip =? dev) && (i_inum ip =? inum) then (Some k, empty)
      else iget_scan l' (S k) dev inum
             (match empty with None => if i_ref ip =? 0 then Some k else None | _ => empty end)
  end.

(** [ip->ref++] on an [int]: overflow is undefined. *)
Definition incref (i : nat) : M (fsys W) unit :=
  let! ip := getip i in
  if i_ref ip <? INT_MAX then updip i (fun ip => set_ref (i_ref ip + 1) ip) else undefined.

Definition iget (dev inum : Z) : M (fsys W) nat :=
  let! ic := gets f_ic in
  match iget_scan ic 0 dev inum None with
  | (Some k, _) => do! incref k in ret k
  | (None, None) => panic "iget: no inodes"
  | (None, Some k) =>
      do! updip k (fun ip => mkinode dev inum 1 (i_lock ip) false (i_d ip)) in ret k
  end.

Definition inode_off (inum : Z) : nat := Z.to_nat (inum mod IPB * SIZEOF_DINODE).

Fixpoint ialloc_loop (fuel : nat) (dev type inum : Z) : M (fsys W) nat :=
  let! sb := gets f_sb in
  match fuel with
  | O => panic "ialloc: no inodes"
  | S fuel' =>
      if inum <? sb_ninodes sb then
        let! bp := io (io_bread dev (IBLOCK inum sb)) in
        let! d := io (io_data bp) in
        let off := inode_off inum in
        if s16 (ld 2 d off) =? 0 then
          let d := splice d off (replicate (Z.to_nat SIZEOF_DINODE) 0) in
          let d := st 2 d off type in
          let d := st 4 d (off + 8) 493 in
          do! io (io_store bp d) in
          do! io (io_log_write bp) in
          do! io (io_brelse bp) in
          iget dev inum
        else
          do! io (io_brelse bp) in
          ialloc_loop fuel' dev type (inum + 1)
      else panic "ialloc: no inodes"
  end.

Definition ialloc (dev type : Z) : M (fsys W) nat :=
  let! sb := gets f_sb in
  ialloc_loop (Z.to_nat (sb_ninodes sb)) dev type 1.

Definition iupdate (i : nat) : M (fsys W) unit :=
  let! sb := gets f_sb in
  let! ip := getip i in
  let! bp := io (io_bread (i_dev ip) (IBLOCK (i_inum ip) sb)) in
  let! d := io (io_data bp) in
  do! io (io_store bp (put_dinode d (inode_off (i_inum ip)) (i_d ip))) in
  do! io (io_log_write bp) in
  io (io_brelse bp).

Definition idup (i : nat) : M (fsys W) nat :=
  do! incref i in ret i.

Definition acquire_ilock (i : nat) : M (fsys W) unit :=
  let! ip := getip i in
  let! me := gets f_pid in
  match acquiresleep me (i_lock ip) with
  | Ok lk => updip i (set_ilock lk)
  | Panic msg => panic msg
  | Sleep => sleep
  | UB => undefined
  end.

Definition ilock (i : nat) : M (fsys W) unit :=
  let! ip := getip i in
  if i_ref ip <? 1 then panic "ilock" else
  do! acquire_ilock i in
  let! ip := getip i in
  if i_valid ip then ret tt else
  let! sb := gets f_sb in
  let! bp := io (io_bread (i_dev ip) (IBLOCK (i_inum ip) sb)) in
  let! d := io (io_data bp) in
  do! updip i (set_d (get_dinode d (inode_off (i_inum ip)))) in
  do! io (io_brelse bp) in
  do! updip i (set_valid true) in
  let! ip := getip i in
  if d_type (i_d ip) =? 0 then panic "ilock: no type" else ret tt.

Definition iunlock (i : nat) : M (fsys W) unit :=
  let! ip := getip i in
  let! me := gets f_pid in
  if negb (holdingsleep me (i_lock ip)) || (i_ref ip <? 1) then panic "iunlock" else
  updip i (fun ip => set_ilock (releasesleep (i_lock ip)) ip).

Lemma lock_null i (s : fsys W) : (length (f_ic s) <= i)%nat -> ilock i s = Panic "ilock" /\ iunlock i s = Panic "iunlock".
Proof.
  intros Hi. assert (Hn : f_ic s !!! i = inhabitant) by (by rewrite list_lookup_total_alt, lookup_ge_None_2).
  unfold ilock, iunlock, bind, getip, gets. by rewrite Hn.
Qed.

(** The direct blocks [k, k + fuel) of [itrunc]. *)
Fixpoint itrunc_direct (fuel : nat) (i k : nat) : M (fsys W) unit :=
  match fuel with
  | O => ret tt
  | S fuel' =>
      let! ip := getip i in
      let a := d_addrs (i_d ip) !!! k in
      do! when (negb (a =? 0)) (do! bfree (i_dev ip) a in updd i (set_addr k 0)) in
      itrunc_direct fuel' i (S k)
  end.

(** The entries [j, j + fuel) of the indirect block held in [bp]. *)
Fixpoint itrunc_indirect (fuel : nat) (dev : Z) (bp j : nat) : M (fsys W) unit :=
  match fuel with
  | O => ret tt
  | S fuel' =>
      let! d := io (io_data bp) in
      let a := ld 4 d (4 * j) in
      do! when (negb (a =? 0)) (bfree dev a) in
      itrunc_indirect fuel' dev bp (S j)
  end.

Definition itrunc (i : nat) : M (fsys W) unit :=
  do! itrunc_direct (Z.to_nat NDIRECT) i 0 in
  let! ip := getip i in
  let a := d_addrs (i_d ip) !!! Z.to_nat NDIRECT in
  do! when (negb (a =? 0))
        (let! bp := io (io_bread (i_dev ip) a) in
         do! itrunc_indirect (Z.to_nat NINDIRECT) (i_dev ip) bp 0 in
         do! io (io_brelse bp) in
         do! bfree (i_dev ip) a in
         updd i (set_addr (Z.to_nat NDIRECT) 0)) in
  do! updd i (set_size 0) in
  iupdate i.

Definition iput (i : nat) : M (fsys W) unit :=
  do! acquire_ilock i in
  let! ip := getip i in
  do! when (i_valid ip && (d_nlink (i_d ip) =? 0) && (i_ref ip =? 1))
        (do! itrunc i in
         do! updd i (set_type 0) in
         do! iupdate i in
         updip i (set_valid false)) in
  do! updip i (fun ip => set_ilock (releasesleep (i_lock ip)) ip) in
  updip i (fun ip => set_ref (i_ref ip - 1) ip).

Definition iunlockput (i : nat) : M (fsys W) unit :=
  do! iunlock i in iput i.

(** * Contents *)

Definition bmap (i : nat) (bn : Z) : M (fsys W) Z :=
  let! ip := getip i in
  if bn <? NDIRECT then
    let addr := d_addrs (i_d ip) !!! Z.to_nat bn in
    if addr =? 0 then
      let! addr := balloc (i_dev ip) in
      do! updd i (set_addr (Z.to_nat bn) addr) in
      ret addr
    else ret addr
  else
  let bn := bn - NDIRECT in
  if bn <? NINDIRECT then
    let addr := d_addrs (i_d ip) !!! Z.to_nat NDIRECT in
    let! addr :=
      (if addr =? 0 then
         let! addr := balloc (i_dev ip) in
         do! updd i (set_addr (Z.to_nat NDIRECT) addr) in
         ret addr
       else ret addr) in
    let! bp := io (io_bread (i_dev ip) addr) in
    let! d := io (io_data bp) in
    let addr := ld 4 d (Z.to_nat (4 * bn)) in
    let! addr :=
      (if addr =? 0 then
         let! addr := balloc (i_dev ip) in
         let! d := io (io_data bp) in
         do! io (io_store bp (st 4 d (Z.to_nat (4 * bn)) addr)) in
         do! io (io_log_write bp) in
         ret addr
       else ret addr) in
    do! io (io_brelse bp) in
    ret addr
  else panic "bmap: out of range".

Definition stati (i : nat) : M (fsys W) stat :=
  let! ip := getip i in
  ret (mkstat (d_type (i_d ip)) (s32 (i_dev ip)) (i_inum ip) (d_nlink (i_d ip)) (d_size (i_d ip))
         (d_mode (i_d ip))).

(** ** Reading and writing

    The device table [devsw]: the functions at index [major], if set.  A read
    returns its result and the bytes it stores at [dst]. *)

Context (devsw_read : Z -> option (nat -> Z -> M (fsys W) (Z * bytes))).
Context (devsw_write : Z -> option (nat -> bytes -> Z -> M (fsys W) Z)).

(** The loop of [readi] from [tot] on, with [acc] stored so far. *)
Fixpoint readi_loop (fuel : nat) (i : nat) (tot off n : Z) (acc : bytes) : M (fsys W) bytes :=
  if tot <? n then
    match fuel with
    | O => undefined
    | S fuel' =>
        let! ip := getip i in
        let! addr := bmap i (off / BSIZE) in
        let! bp := io (io_bread (i_dev ip) addr) in
        let m := Z.min (n - tot) (BSIZE - off mod BSIZE) in
        let! d := io (io_data bp) in
        let acc := acc ++ slice d (Z.to_nat (off mod BSIZE)) (Z.to_nat m) in
        do! io (io_brelse bp) in
        readi_loop fuel' i (tot + m) (off + m) n acc
    end
  else ret acc.

Definition readi (i : nat) (off n : Z) : M (fsys W) (Z * bytes) :=
  let! ip := getip i in
  if d_type (i_d ip) =? T_DEV then
    if (d_major (i_d ip) <? 0) || (d_major (i_d ip) >=? NDEV) then ret (-1, []) else
    match devsw_read (d_major (i_d ip)) with
    | None => ret (-1, [])
    | Some f => f i (s32 n)
    end
  else
  if (off >? d_size (i_d ip)) || (u32 (off + n) <? off) then ret (-1, []) else
  let n := if u32 (off + n) >? d_size (i_d ip) then d_size (i_d ip) - off else n in
  let! dst := readi_loop (Z.to_nat n) i 0 off n [] in
  ret (s32 n, dst).

(** The loop of [writei]; [src] is what is left to write. *)
Fixpoint writei_loop (fuel : nat) (i : nat) (src : bytes) (tot off n : Z) : M (fsys W) Z :=
  if tot <? n then
    match fuel with
    | O => undefined
    | S fuel' =>
        let! ip := getip i in
        let! addr := bmap i (off / BSIZE) in
        let! bp := io (io_bread (i_dev ip) addr) in
        let m := Z.min (n - tot) (BSIZE - off mod BSIZE) in
        let! d := io (io_data bp) in
        do! io (io_store bp (splice d (Z.to_nat (off mod BSIZE)) (take (Z.to_nat m) src))) in
        do! io (io_log_write bp) in
        do! io (io_brelse bp) in
        writei_loop fuel' i (drop (Z.to_nat m) src) (tot + m) (off + m) n
    end
  else ret off.

Definition writei (i : nat) (src : bytes) (off n : Z) : M (fsys W) Z :=
  let! ip := getip i in
  if d_type (i_d ip) =? T_DEV then
    if (d_major (i_d ip) <? 0) || (d_major (i_d ip) >=? NDEV) then ret (-1) else
    match devsw_write (d_major (i_d ip)) with
    | None => ret (-1)
    | Some f => f i src (s32 n)
    end
  else
  if (off >? d_size (i_d ip)) || (u32 (off + n) <? off) then ret (-1) else
  if u32 (off + n) >? MAXFILE * BSIZE then ret (-1) else
  let! off := writei_loop (Z.to_nat n) i src 0 off n in
  let! ip := getip i in
  do! when ((n >? 0) && (off >? d_size (i_d ip))) (do! updd i (set_size off) in iupdate i) in
  ret (s32 n).

(** * Directories *)

Definition namecmp (s t : bytes) : outcome Z := strncmp s t (Z.to_nat DIRSIZ).

Fixpoint dirlookup_loop (fuel : nat) (dp : nat) (name : bytes) (off : Z) : M (fsys W) (option (nat * Z)) :=
  let! ip := getip dp in
  if off <? d_size (i_d ip) then
    match fuel with
    | O => undefined
    | S fuel' =>
        let! r := readi dp off SIZEOF_DIRENT in
        if negb (r.1 =? SIZEOF_DIRENT) then panic "dirlookup read" else
        let inum := ld 2 r.2 0 in
        if inum =? 0 then dirlookup_loop fuel' dp name (off + SIZEOF_DIRENT) else
        let! c := lift (namecmp name (drop 2 r.2)) in
        if c =? 0 then
          let! ip := getip dp in
          let! k := iget (i_dev ip) inum in
          ret (Some (k, off))
        else dirlookup_loop fuel' dp name (off + SIZEOF_DIRENT)
    end
  else ret None.

(** The entry's inode and, for [*poff], its offset. *)
Definition dirlookup (dp : nat) (name : bytes) : M (fsys W) (option (nat * Z)) :=
  let! ip := getip dp in
  if negb (d_type (i_d ip) =? T_DIR) then panic "dirlookup not DIR" else
  dirlookup_loop (Z.to_nat (d_size (i_d ip))) dp name 0.

(** Offset of the first empty entry, or the end of the directory. *)
Fixpoint dirlink_scan (fuel : nat) (dp : nat) (off : Z) : M (fsys W) Z :=
  let! ip := getip dp in
  if off <? d_size (i_d ip) then
    match fuel with
    | O => undefined
    | S fuel' =>
        let! r := readi dp off SIZEOF_DIRENT in
        if negb (r.1 =? SIZEOF_DIRENT) then panic "dirlink read" else
        if ld 2 r.2 0 =? 0 then ret off else dirlink_scan fuel' dp (off + SIZEOF_DIRENT)
    end
  else ret off.

(** [struct dirent] with the given name and inode number. *)
Definition mkdirent (inum : Z) (name : bytes) : outcome bytes :=
  let? nm := strncpy (replicate (Z.to_nat DIRSIZ) 0) name DIRSIZ in
  Ok (le_bytes 2 (u16 inum) ++ nm).

Definition dirlink (dp : nat) (name : bytes) (inum : Z) : M (fsys W) Z :=
  let! found := dirlookup dp name in
  match found with
  | Some (k, _) => do! iput k in ret (-1)
  | None =>
      let! ip := getip dp in
      let! off := dirlink_scan (Z.to_nat (d_size (i_d ip))) dp 0 in
      let! de := lift (mkdirent inum name) in
      let! r := writei dp de off SIZEOF_DIRENT in
      if negb (r =? SIZEOF_DIRENT) then panic "dirlink" else ret 0
  end.

(** * Paths *)

(** Skip the slashes at the start of the path. *)
Fixpoint skip_slashes (path : bytes) : outcome bytes :=
  match path with
  | [] => UB
  | c :: path' => if c =? 47 then skip_slashes path' else Ok path
  end.

(** The element up to the next slash or the end, and the rest. *)
Fixpoint take_elem (path : bytes) : outcome (bytes * bytes) :=
  match path with
  | [] => UB
  | c :: path' =>
      if (c =? 47) || (c =? 0) then Ok ([], path)
      else let? r := take_elem path' in Ok (c :: r.1, r.2)
  end.

(** The rest of the path and the new contents of [name], or a null pointer. *)
Definition skipelem (path name : bytes) : outcome (option (bytes * bytes)) :=
  let? path := skip_slashes path in
  if getb path 0 =? 0 then Ok None else
  let? r := take_elem path in
  let len := Z.of_nat (length r.1) in
  let name := if len >=? DIRSIZ then splice name 0 (take (Z.to_nat DIRSIZ) r.1)
              else splice name 0 (r.1 ++ [0]) in
  let? rest := skip_slashes r.2 in
  Ok (Some (rest, name)).

(** The loop of [namex]; the result is the inode, if any, and [name]. *)
Fixpoint namex_loop (fuel : nat) (ip : nat) (path : bytes) (nameiparent : bool) (name : bytes)
    : M (fsys W) (option nat * bytes) :=
  let! el := lift (skipelem path name) in
  match el with
  | None =>
      if nameiparent then do! iput ip in ret (None, name) else ret (Some ip, name)
  | Some (path, name) =>
      match fuel with
      | O => undefined
      | S fuel' =>
          do! ilock ip in
          let! x := getip ip in
          if negb (d_type (i_d x) =? T_DIR) then do! iunlockput ip in ret (None, name) else
          if nameiparent && (getb path 0 =? 0) then do! iunlock ip in ret (Some ip, name) else
          let! next := dirlookup ip name in
          match next with
          | None => do! iunlockput ip in ret (None, name)
          | Some (k, _) => do! iunlockput ip in namex_loop fuel' k path nameiparent name
          end
      end
  end.

Definition namex (path : bytes) (nameiparent : bool) (name : bytes) : M (fsys W) (option nat * bytes) :=
  let! ip := (if getb path 0 =? 47 then iget ROOTDEV ROOTINO
              else let! cwd := gets f_cwd in idup cwd) in
  namex_loop (length path) ip path nameiparent name.

Definition namei (path : bytes) : M (fsys W) (option nat) :=
  let! r := namex path false (replicate (Z.to_nat DIRSIZ) 0) in ret r.1.

Definition nameiparent (path name : bytes) : M (fsys W) (option nat * bytes) :=
  namex path true name.

(** * The chmod of fs.c *)

Definition chmod (i : nat) (mode : Z) : M (fsys W) Z :=
  if mode >? 511 then ret (-1) else
  do! io io_begin_op in
  do! ilock i in
  do! updd i (set_mode (u32 mode)) in
  do! iunlock i in
  do! iupdate i in
  do! io io_end_op in
  ret 0.
End Fs.
