(* ===== verification/FsAlloc.v ===== *)
(** The block allocator of fs.c: [balloc], [bfree], [bzero] and the free map. *)

From S2P Require Import Prelude Bio Log Crash Block Strings Fs.
Local Open Scope Z_scope.

(** * Bits of a bitmap block *)

Lemma land_pow2 x k : 0 <= k -> Z.land x (Z.shiftl 1 k) = if Z.testbit x k then 2 ^ k else 0.
Proof.
  intros Hk. rewrite Z.shiftl_1_l. apply Z.bits_inj'; intros n Hn.
  rewrite Z.land_spec, Z.pow2_bits_eqb by lia. destruct (Z.eqb_spec k n) as [->|Hne].
  - rewrite andb_true_r. destruct (Z.testbit x n); [by rewrite Z.pow2_bits_true by lia|by rewrite Z.bits_0].
  - rewrite andb_false_r. destruct (Z.testbit x k); [by rewrite Z.pow2_bits_false by lia|by rewrite Z.bits_0].
Qed.

Lemma bit_test_spec d bi : bit_test d bi = Z.testbit (getb d (bi / 8)) (bi mod 8).
Proof.
  unfold bit_test, bit_mask. rewrite land_pow2 by divmod. destruct (Z.testbit _ _); [|done].
  pose proof (Z.pow_pos_nonneg 2 (bi mod 8)). replace (2 ^ (bi mod 8) =? 0) with false; [done|].
  symmetry; apply Z.eqb_neq. assert (0 <= bi mod 8) by divmod. lia.
Qed.

Lemma getb_setb (d : bytes) i v j : 0 <= i < Z.of_nat (length d) -> 0 <= j ->
  getb (setb d i v) j = if decide (j = i) then v else getb d j.
Proof.
  intros Hi Hj. unfold getb, setb. destruct (decide (j = i)) as [->|].
  - apply list_lookup_total_insert_eq; lia.
  - apply list_lookup_total_insert_ne; lia.
Qed.

Lemma bit_set_spec d bi bj : 0 <= bi < 8 * Z.of_nat (length d) -> 0 <= bj ->
  bit_test (bit_set d bi) bj = bool_decide (bj = bi) || bit_test d bj.
Proof.
  intros Hi Hj. rewrite !bit_test_spec. unfold bit_set, bit_mask. rewrite getb_setb by divmod.
  destruct (decide (bj / 8 = bi / 8)) as [E|E].
  - rewrite Z.lor_spec, Z.shiftl_1_l, Z.pow2_bits_eqb, <- E by divmod.
    rewrite orb_comm. f_equal. destruct (decide (bj = bi)) as [->|Hne].
    + by rewrite Z.eqb_refl, bool_decide_true.
    + rewrite bool_decide_false by done. apply Z.eqb_neq. divmod.
  - rewrite bool_decide_false; [done|]. by intros ->.
Qed.

Lemma bit_clear_spec d bi bj : 0 <= bi < 8 * Z.of_nat (length d) -> 0 <= bj ->
  bit_test (bit_clear d bi) bj = negb (bool_decide (bj = bi)) && bit_test d bj.
Proof.
  intros Hi Hj. rewrite !bit_test_spec. unfold bit_clear, bit_mask. rewrite getb_setb by divmod.
  destruct (decide (bj / 8 = bi / 8)) as [E|E].
  - unfold u8. change 256 with (2 ^ 8).
    rewrite Z.mod_pow2_bits_low, Z.land_spec, Z.lnot_spec, Z.shiftl_1_l, Z.pow2_bits_eqb, <- E by divmod.
    rewrite andb_comm. do 2 f_equal. destruct (decide (bj = bi)) as [->|Hne].
    + by rewrite Z.eqb_refl, bool_decide_true.
    + rewrite bool_decide_false by done. apply Z.eqb_neq. divmod.
  - rewrite bool_decide_false; [done|]. by intros ->.
Qed.

Lemma length_setb (d : bytes) i v : length (setb d i v) = length d.
Proof. apply length_insert. Qed.

(** Setting and then clearing a free bit gives the byte array back. *)
Lemma bit_clear_set d bi : Forall byte_ok d -> 0 <= bi < 8 * Z.of_nat (length d) ->
  bit_test d bi = false -> bit_clear (bit_set d bi) bi = d.
Proof.
  intros Hd Hi Hb. unfold bit_clear, bit_set, bit_mask. rewrite getb_setb, decide_True by divmod.
  unfold setb. rewrite list_insert_insert_eq. apply list_insert_id.
  rewrite bit_test_spec in Hb. unfold getb in *.
  assert (Z.to_nat (bi / 8) < length d)%nat as Hlt by divmod.
  rewrite list_lookup_lookup_total_lt by done. f_equal. set (x := d !!! _) in *.
  assert (byte_ok x) as Hx by (rewrite Forall_forall in Hd; apply Hd, list_elem_of_lookup_total_2; done).
  unfold u8, byte_ok in *. rewrite <- (Z.mod_small x 256) at 1 by done. f_equal.
  apply Z.bits_inj'; intros n Hn.
  rewrite Z.land_spec, Z.lor_spec, Z.lnot_spec, Z.shiftl_1_l, Z.pow2_bits_eqb by divmod.
  destruct (Z.eqb_spec (bi mod 8) n) as [<-|]; simpl; [by rewrite Hb, andb_false_r|].
  by rewrite orb_false_r, andb_true_r.
Qed.

(** * The layout of the disk *)

Section Alloc.
  Context {W : Type} `{BlockLaws W}.

(** [boot | super | log | inodes | bit map | data], with one bit map block. *)
Record layout_ok (sb : superblock) : Prop := {
  lo_size : 0 <= sb_size sb <= FSSIZE;
  lo_bmap : 0 <= sb_bmapstart sb < sb_size sb;
  lo_bmap_fs : fs_block (sb_bmapstart sb);
  lo_inodes : 0 <= sb_inodestart sb;
  lo_ninodes : 0 <= sb_ninodes sb <= 65535;
  lo_iend : sb_ninodes sb <= IPB * (sb_bmapstart sb - sb_inodestart sb);
  lo_iblock_fs : forall b, sb_inodestart sb <= b < sb_bmapstart sb -> fs_block b;
  lo_data_fs : forall b, sb_bmapstart sb < b < sb_size sb -> fs_block b
}.

Lemma BBLOCK_eq sb b : layout_ok sb -> 0 <= b < sb_size sb -> BBLOCK b sb = sb_bmapstart sb.
Proof.
  intros [Hs Hb _ _ _ _ _ _] Hlt. unfold BBLOCK, BPB, BSIZE, FSSIZE in *.
  rewrite u32_small by divmod. divmod.
Qed.

Lemma bit_index sb b : layout_ok sb -> 0 <= b < sb_size sb -> b mod BPB = b.
Proof. intros [Hs _ _ _ _ _ _ _] Hb. unfold BPB, BSIZE, FSSIZE in *. apply Z.mod_small; lia. Qed.

(** Is block [b] marked in use in the bit map of the disk [f]? *)
Definition marked (f : Z -> bytes) (sb : superblock) (b : Z) : bool := bit_test (f (sb_bmapstart sb)) b.

(** The disk after block [b] has been allocated, after it has been freed. *)
Definition mark (f : Z -> bytes) (sb : superblock) (b : Z) : Z -> bytes :=
  assign f (sb_bmapstart sb, bit_set (f (sb_bmapstart sb)) b).
Definition alloc (f : Z -> bytes) (sb : superblock) (b : Z) : Z -> bytes :=
  assign (mark f sb b) (b, zero_block).
Definition unmark (f : Z -> bytes) (sb : superblock) (b : Z) : Z -> bytes :=
  assign f (sb_bmapstart sb, bit_clear (f (sb_bmapstart sb)) b).

Lemma assign_eq f b v x : assign f (b, v) x = if decide (x = b) then v else f x.
Proof. done. Qed.

Lemma marked_assign f sb b v x : b <> sb_bmapstart sb -> marked (assign f (b, v)) sb x = marked f sb x.
Proof. intros Hb. unfold marked. by rewrite assign_eq, decide_False. Qed.

Section Bits.
  Context (f : Z -> bytes) (sb : superblock) (L : layout_ok sb).
  Context (Hlen : forall x, length (f x) = Z.to_nat BSIZE).

Lemma bit_range b : 0 <= b < sb_size sb -> 0 <= b < 8 * Z.of_nat (length (f (sb_bmapstart sb))).
Proof. rewrite Hlen. pose proof (lo_size _ L). unfold BSIZE, FSSIZE in *. lia. Qed.

Lemma marked_mark b x : 0 <= b < sb_size sb -> 0 <= x ->
  marked (mark f sb b) sb x = bool_decide (x = b) || marked f sb x.
Proof.
  intros Hb Hx. unfold marked, mark. rewrite assign_eq, decide_True by done.
  apply bit_set_spec; [by apply bit_range|done].
Qed.

Lemma marked_unmark b x : 0 <= b < sb_size sb -> 0 <= x ->
  marked (unmark f sb b) sb x = negb (bool_decide (x = b)) && marked f sb x.
Proof.
  intros Hb Hx. unfold marked, unmark. rewrite assign_eq, decide_True by done.
  apply bit_clear_spec; [by apply bit_range|done].
Qed.

Lemma marked_alloc b x : 0 <= b < sb_size sb -> b <> sb_bmapstart sb -> 0 <= x ->
  marked (alloc f sb b) sb x = bool_decide (x = b) || marked f sb x.
Proof. intros Hb Hne Hx. unfold alloc. rewrite marked_assign by done. by apply marked_mark. Qed.
End Bits.

(** * The scan *)

(** [b] is the first block not marked in use. *)
Definition first_free (f : Z -> bytes) (sb : superblock) (b : Z) : Prop :=
  0 <= b < sb_size sb /\ marked f sb b = false /\ forall x, 0 <= x < b -> marked f sb x = true.

Lemma balloc_scan_Some fuel d size bi bj :
  balloc_scan fuel d 0 size bi = Some bj ->
  bi <= bj < size /\ bit_test d bj = false /\ forall x, bi <= x < bj -> bit_test d x = true.
Proof.
  revert bi; induction fuel as [|fuel IH]; intros bi; cbn [balloc_scan]; [done|].
  destruct ((bi <? BPB) && (0 + bi <? size)) eqn:E; [|done]. destruct (bit_test d bi) eqn:Eb.
  - intros (Hj & Hf & Hx)%IH. split_and!; [lia|lia|done|]. intros x Hx'.
    destruct (decide (x = bi)) as [->|]; [done|apply Hx; lia].
  - intros [= <-]. split_and!; [lia|lia|done|intros; lia].
Qed.

Lemma balloc_scan_None fuel d size bi : size <= bi + Z.of_nat fuel -> size <= BPB ->
  balloc_scan fuel d 0 size bi = None -> forall x, bi <= x < size -> bit_test d x = true.
Proof.
  revert bi; induction fuel as [|fuel IH]; intros bi Hf Hs; cbn [balloc_scan]; [lia|].
  destruct ((bi <? BPB) && (0 + bi <? size)) eqn:E; [|lia]. destruct (bit_test d bi) eqn:Eb; [|done].
  intros HN x Hx. destruct (decide (x = bi)) as [->|]; [done|]. apply (IH (bi + 1)); try done; lia.
Qed.

Lemma balloc_scan_spec f sb : layout_ok sb ->
  match balloc_scan (Z.to_nat BPB) (f (sb_bmapstart sb)) 0 (sb_size sb) 0 with
  | Some b => first_free f sb b
  | None => forall x, 0 <= x < sb_size sb -> marked f sb x = true
  end.
Proof.
  intros L. pose proof (lo_size _ L). destruct (balloc_scan _ _ _ _ _) as [b|] eqn:E.
  - apply balloc_scan_Some in E as (Hb & Hf & Hx). split_and!; done || lia.
  - intros x Hx. eapply (balloc_scan_None (Z.to_nat BPB) _ _ 0); [| |exact E|done];
      unfold BPB, BSIZE, FSSIZE in *; lia.
Qed.

(** * The operations *)

Lemma io_Ok {A} (m : M W A) (s : fsys W) a x : m (f_io s) = Ok (a, x) -> io m s = Ok (a, put_io x s).
Proof. apply zoom_Ok. Qed.

Lemma put_io_put x y (s : fsys W) : put_io x (put_io y s) = put_io x s.
Proof. done. Qed.

Lemma io_seq {A B C} (m : M W A) (k : A -> M W B) (c : B -> M (fsys W) C) (s : fsys W) b y :
  bind m k (f_io s) = Ok (b, y) -> (let! a := io m in let! b := io (k a) in c b) s = c b (put_io y s).
Proof.
  unfold bind, io, zoom. destruct (m (f_io s)) as [[a x]|?| |]; [|done..]. simpl.
  destruct (k a x) as [[b' x']|?| |]; [|done..]. by intros [= -> ->].
Qed.

Lemma bzero_spec s f held logged b :
  tx (f_io s) f held logged -> 0 <= b < FSSIZE -> fs_block b -> b ∉ held.*2 ->
  (length held + length logged < NB)%nat -> (length logged < tx_cap)%nat ->
  exists x, bzero ROOTDEV b s = Ok (tt, put_io x s) /\
    tx x (assign f (b, zero_block)) held (absorb b logged).
Proof.
  intros T Hb Hfb Hh Hl Hc.
  destruct (tx_bread _ _ _ _ _ T Hb Hh Hl) as (h & s1 & E1 & T1).
  destruct (tx_write _ _ _ _ h b zero_block T1) as (s2 & E2 & T2); [by left|done|apply length_replicate|done|].
  destruct (tx_brelse _ _ _ _ _ _ T2) as (s3 & E3 & T3).
  exists s3; split; [|done]. unfold bzero. rewrite u32_block by done.
  mstep (io_Ok _ _ _ _ E1). rewrite (io_seq _ _ _ (put_io s1 s) _ _ E2).
  exact (io_Ok _ (put_io s2 s) _ _ E3).
Qed.

Lemma first_free_data f sb b : layout_ok sb -> first_free f sb b ->
  (forall x, 0 <= x <= sb_bmapstart sb -> marked f sb x = true) -> sb_bmapstart sb < b < sb_size sb.
Proof.
  intros L (Hb & Hf & _) Hm. split; [|lia]. apply Z.nle_gt; intros Hle.
  rewrite Hm in Hf by lia. done.
Qed.

Lemma balloc_loop_step fuel dev b (s : fsys W) :
  balloc_loop (S fuel) dev b s =
  (if b <? sb_size (f_sb s) then
     let! bp := io (io_bread dev (BBLOCK b (f_sb s))) in
     let! d := io (io_data bp) in
     match balloc_scan (Z.to_nat BPB) d b (sb_size (f_sb s)) 0 with
     | Some bi =>
         do! io (io_store bp (bit_set d bi)) in
         do! io (io_log_write bp) in
         do! io (io_brelse bp) in
         do! bzero dev (b + bi) in
         ret (b + bi)
     | None =>
         do! io (io_brelse bp) in
         balloc_loop fuel dev (b + BPB)
     end
   else panic "balloc: out of blocks") s.
Proof. done. Qed.

(** [balloc] marks and zeroes the first free block. *)
Lemma balloc_spec s f held logged b :
  tx (f_io s) f held logged -> layout_ok (f_sb s) -> first_free f (f_sb s) b ->
  (forall x, 0 <= x <= sb_bmapstart (f_sb s) -> marked f (f_sb s) x = true) ->
  sb_bmapstart (f_sb s) ∉ held.*2 -> b ∉ held.*2 ->
  (length held + length logged + 1 < NB)%nat -> (length logged + 1 < tx_cap)%nat ->
  exists x, balloc ROOTDEV s = Ok (b, put_io x s) /\
    tx x (alloc f (f_sb s) b) held (absorb b (absorb (sb_bmapstart (f_sb s)) logged)).
Proof.
  intros T L Hff Hm Hbm Hb Hl Hc. set (sb := f_sb s) in *. set (bm := sb_bmapstart sb) in *.
  pose proof (lo_size _ L) as Hsz. pose proof (lo_bmap _ L) as Hbmr.
  pose proof (first_free_data _ _ _ L Hff Hm) as Hbd.
  destruct (tx_bread _ _ _ _ bm T) as (h & s1 & E1 & T1); [lia|done|lia|].
  pose proof (tx_data _ _ _ _ h bm T1 (list_elem_of_here _ _)) as Ed.
  destruct (tx_write _ _ _ _ h bm (bit_set (f bm) b) T1) as (s2 & E2 & T2);
    [by left|apply (lo_bmap_fs _ L)|unfold bit_set; rewrite length_setb; by eapply tx_sized|lia|].
  destruct (tx_brelse _ _ _ _ _ _ T2) as (s3 & E3 & T3).
  pose proof (absorb_len_le bm logged) as Hla.
  destruct (bzero_spec (put_io s3 s) _ _ _ b T3) as (s4 & E4 & T4);
    [lia|apply (lo_data_fs _ L); done|done|lia|lia|].
  exists s4; split; [|exact T4].
  unfold balloc, bind at 1, gets. fold sb.
  replace (Z.to_nat (sb_size sb / BPB + 1)) with (S (Z.to_nat (sb_size sb / BPB)))
    by (unfold BPB, BSIZE; divmod).
  rewrite balloc_loop_step. fold sb. replace (0 <? sb_size sb) with true by lia.
  rewrite (BBLOCK_eq _ 0 L) by lia. fold bm. mstep (io_Ok _ _ _ _ E1).
  mstep (io_Ok _ (put_io s1 s) _ _ Ed).
  pose proof (balloc_scan_spec f sb L) as Hscan. fold bm in Hscan.
  destruct (balloc_scan _ _ _ _ _) as [bi|].
  - assert (bi = b) as -> by (destruct Hscan as (? & ? & Hx), Hff as (? & ? & Hy);
      destruct (Z.lt_trichotomy bi b) as [|[|]]; [rewrite Hy in * by lia; done|done|rewrite Hx in * by lia; done]).
    rewrite (io_seq _ _ _ (put_io s1 s) _ _ E2). mstep (io_Ok _ (put_io s2 s) _ _ E3).
    rewrite Z.add_0_l. by mstep E4.
  - destruct Hff as (Hr & Hf & _). rewrite Hscan in Hf by done. done.
Qed.

(** With every block in use, [balloc] panics. *)
Lemma balloc_full s f held logged :
  tx (f_io s) f held logged -> layout_ok (f_sb s) ->
  (forall x, 0 <= x < sb_size (f_sb s) -> marked f (f_sb s) x = true) ->
  sb_bmapstart (f_sb s) ∉ held.*2 -> (length held + length logged < NB)%nat ->
  balloc ROOTDEV s = Panic "balloc: out of blocks".
Proof.
  intros T L Hm Hbm Hl. set (sb := f_sb s) in *. set (bm := sb_bmapstart sb) in *.
  pose proof (lo_size _ L) as Hsz. pose proof (lo_bmap _ L) as Hbmr.
  destruct (tx_bread _ _ _ _ bm T) as (h & s1 & E1 & T1); [lia|done|lia|].
  pose proof (tx_data _ _ _ _ h bm T1 (list_elem_of_here _ _)) as Ed.
  destruct (tx_brelse _ _ _ _ _ _ T1) as (s2 & E2 & T2).
  unfold balloc, bind at 1, gets. fold sb.
  replace (Z.to_nat (sb_size sb / BPB + 1)) with 1%nat by (unfold BPB, BSIZE, FSSIZE in *; divmod).
  rewrite balloc_loop_step. fold sb. replace (0 <? sb_size sb) with true by lia.
  rewrite (BBLOCK_eq _ 0 L) by lia. fold bm. mstep (io_Ok _ _ _ _ E1).
  mstep (io_Ok _ (put_io s1 s) _ _ Ed).
  pose proof (balloc_scan_spec f sb L) as Hscan. fold bm in Hscan.
  destruct (balloc_scan _ _ _ _ _) as [bi|].
  - destruct Hscan as (Hr & Hf & _). rewrite Hm in Hf by done. done.
  - by mstep (io_Ok _ (put_io s1 s) _ _ E2).
Qed.

Lemma bfree_spec s f held logged b :
  tx (f_io s) f held logged -> layout_ok (f_sb s) -> 0 <= b < sb_size (f_sb s) ->
  sb_bmapstart (f_sb s) ∉ held.*2 -> (length held + length logged < NB)%nat ->
  (length logged < tx_cap)%nat ->
  if marked f (f_sb s) b
  then exists x, bfree ROOTDEV b s = Ok (tt, put_io x s) /\
         tx x (unmark f (f_sb s) b) held (absorb (sb_bmapstart (f_sb s)) logged)
  else bfree ROOTDEV b s = Panic "freeing free block".
Proof.
  intros T L Hb Hbm Hl Hc. set (sb := f_sb s) in *. set (bm := sb_bmapstart sb) in *.
  pose proof (lo_size _ L) as Hsz. pose proof (lo_bmap _ L) as Hbmr.
  destruct (tx_bread _ _ _ _ bm T) as (h & s1 & E1 & T1); [lia|done|lia|].
  pose proof (tx_data _ _ _ _ h bm T1 (list_elem_of_here _ _)) as Ed.
  assert (bfree ROOTDEV b s =
    (if negb (bit_test (f bm) b) then panic "freeing free block" else
     do! io (io_store h (bit_clear (f bm) b)) in
     do! io (io_log_write h) in
     io (io_brelse h)) (put_io s1 s)) as ->.
  { unfold bfree, bind at 1, gets. fold sb. rewrite (BBLOCK_eq _ b L), (bit_index _ b L) by done.
    fold bm. mstep (io_Ok _ _ _ _ E1). by mstep (io_Ok _ (put_io s1 s) _ _ Ed). }
  unfold marked. fold bm. destruct (bit_test (f bm) b); [|done]. cbn [negb].
  destruct (tx_write _ _ _ _ h bm (bit_clear (f bm) b) T1) as (s2 & E2 & T2);
    [by left|apply (lo_bmap_fs _ L)|unfold bit_clear; rewrite length_setb; by eapply tx_sized|lia|].
  destruct (tx_brelse _ _ _ _ _ _ T2) as (s3 & E3 & T3).
  exists s3; split; [|exact T3].
  rewrite (io_seq _ _ _ (put_io s1 s) _ _ E2). exact (io_Ok _ (put_io s2 s) _ _ E3).
Qed.

(** [balloc] allocates correctly.  In a transaction with room for two more
    blocks, it returns the lowest block that the bit map shows free, if there is
    one; that block is a data block, is marked in use and filled with zeroes, no
    other mark changes, and no block other than it and the bit map changes.  If
    all blocks are in use it panics. *)
Theorem balloc_correct s f held logged :
  tx (f_io s) f held logged -> layout_ok (f_sb s) ->
  (forall x, 0 <= x <= sb_bmapstart (f_sb s) -> marked f (f_sb s) x = true) ->
  sb_bmapstart (f_sb s) ∉ held.*2 -> (forall b, b ∈ held.*2 -> marked f (f_sb s) b = true) ->
  (length held + length logged + 1 < NB)%nat -> (length logged + 1 < tx_cap)%nat ->
  (exists b x f' logged', first_free f (f_sb s) b /\ balloc ROOTDEV s = Ok (b, put_io x s) /\
     tx x f' held logged' /\ (length logged' <= length logged + 2)%nat /\
     sb_bmapstart (f_sb s) < b < sb_size (f_sb s) /\ f' b = zero_block /\
     (forall y, 0 <= y -> marked f' (f_sb s) y = bool_decide (y = b) || marked f (f_sb s) y) /\
     (forall y, y <> b -> y <> sb_bmapstart (f_sb s) -> f' y = f y)) \/
  ((forall x, 0 <= x < sb_size (f_sb s) -> marked f (f_sb s) x = true) /\
   balloc ROOTDEV s = Panic "balloc: out of blocks").
Proof.
  intros T L Hm Hbm Hh Hl Hc. pose proof (balloc_scan_spec f (f_sb s) L) as Hscan.
  destruct (balloc_scan _ _ _ _ _) as [b|].
  - left. assert (b ∉ held.*2) as Hbh
      by (intros Hb%Hh; destruct Hscan as (_ & Hf & _); congruence).
    destruct (balloc_spec s f held logged b T L Hscan Hm Hbm Hbh Hl Hc) as (x & E & T').
    pose proof (first_free_data _ _ _ L Hscan Hm) as Hd. pose proof (lo_bmap _ L).
    eexists b, x, _, _. split_and!; [done|done|exact T'| |lia|lia| | |].
    + pose proof (absorb_len_le b (absorb (sb_bmapstart (f_sb s)) logged)).
      pose proof (absorb_len_le (sb_bmapstart (f_sb s)) logged). lia.
    + unfold alloc. by rewrite assign_eq, decide_True.
    + intros y Hy. apply marked_alloc; [done|intros z; by eapply tx_sized|lia|lia|done].
    + intros y Hy1 Hy2. unfold alloc, mark. by rewrite !assign_eq, !decide_False.
  - right; split; [done|]. eapply balloc_full; [exact T|done|done|done|lia].
Qed.

(** [bfree] undoes [balloc].  Freeing a block that is marked in use clears
    exactly its mark; freeing one that is not marked panics.  Freeing the block
    that [balloc] just returned gives the bit map back, bit for bit. *)
Theorem bfree_correct s f held logged b :
  tx (f_io s) f held logged -> layout_ok (f_sb s) -> 0 <= b < sb_size (f_sb s) ->
  Forall byte_ok (f (sb_bmapstart (f_sb s))) ->
  sb_bmapstart (f_sb s) ∉ held.*2 -> (length held + length logged < NB)%nat ->
  (length logged < tx_cap)%nat ->
  (if marked f (f_sb s) b
   then exists x f' logged', bfree ROOTDEV b s = Ok (tt, put_io x s) /\ tx x f' held logged' /\
          (forall y, 0 <= y -> marked f' (f_sb s) y = negb (bool_decide (y = b)) && marked f (f_sb s) y) /\
          (forall y, y <> sb_bmapstart (f_sb s) -> f' y = f y)
   else bfree ROOTDEV b s = Panic "freeing free block") /\
  (marked f (f_sb s) b = false -> b <> sb_bmapstart (f_sb s) ->
   unmark (alloc f (f_sb s) b) (f_sb s) b (sb_bmapstart (f_sb s)) = f (sb_bmapstart (f_sb s))).
Proof.
  intros T L Hb Hby Hbm Hl Hc. assert (forall z, length (f z) = Z.to_nat BSIZE) as Hlen
    by (intros z; by eapply tx_sized).
  split.
  - pose proof (bfree_spec s f held logged b T L Hb Hbm Hl Hc) as Hf.
    destruct (marked f (f_sb s) b); [|exact Hf]. destruct Hf as (x & E & T').
    eexists x, _, _; split_and!; [done|exact T'| |].
    + intros y Hy. by apply marked_unmark.
    + intros y Hy. unfold unmark. by rewrite assign_eq, decide_False.
  - intros Hm Hne. unfold unmark, alloc, mark. rewrite !assign_eq.
    rewrite decide_True, decide_False, decide_True by done. apply bit_clear_set; [done| |done].
    by apply bit_range.
Qed.
End Alloc.

(** ** Witnesses: the disk of mkfs just after its log has been recovered, inside
    a transaction *)

Definition bitmap0 : bytes := replicate 7 255 ++ [15] ++ replicate 504 0.
Definition rootino0 : dinode := mkdinode T_DIR 0 0 1 493 512 (59 :: replicate 11 0).
Definition inodes0 : bytes := put_dinode zero_block 64 rootino0.
Definition rootdir0 : bytes :=
  splice zero_block 0 ([1; 0; 46] ++ replicate 13 0 ++ [1; 0; 46; 46] ++ replicate 12 0).
Definition disk_fs : diskmap :=
  <[(ROOTDEV, 59) := rootdir0]> (<[(ROOTDEV, 58) := bitmap0]> (<[(ROOTDEV, 32) := inodes0]> disk0)).
Definition boot_fs : lstate :=
  match initlog ROOTDEV (boot 1 disk_fs) with Ok (_, r) => r | _ => boot 1 disk_fs end.
Definition in_call : lstate := put_log (set_outstanding 1 (l_log boot_fs)) boot_fs.
Definition sb_fs : superblock := mksb 1000 941 200 30 2 32 58.
(** The inode cache, with a reference to the root directory. *)
Definition icache0 : list inode :=
  mkinode ROOTDEV ROOTINO 1 initsleeplock false dinode0 :: replicate 49 (mkinode 0 0 0 initsleeplock false dinode0).
Definition fs0 : fsys lstate := mkfsys in_call sb_fs icache0 1 0.

Lemma disk_fs_recoverable : recoverable disk_fs 2 30 [].
Proof.
  split; [|done|split; [by apply home_dec|by apply not_elem_of_nil]].
  constructor; try (vm_compute; (done || reflexivity)).
  - unfold disk_fs, disk0; intros k v [[_ <-]|[_ [[_ <-]|[_ [[_ <-]|[_ [_ <-]%lookup_singleton_Some]]
      %lookup_insert_Some]]%lookup_insert_Some]]%lookup_insert_Some; reflexivity.
  - constructor.
  - intros b Hb; by apply not_elem_of_nil in Hb.
Qed.

Lemma boot_fs_log : l_log boot_fs = mklog 2 30 0 false 1 0 (replicate 30 0).
Proof. vm_compute; reflexivity. Qed.

Lemma boot_fs_idle : log_idle boot_fs.
Proof.
  destruct (recovery_run _ _ _ _ disk_fs_recoverable 1) as (r & bl & E & I & Hn & _).
  assert (boot_fs = r) as <- by (unfold boot_fs; rewrite E; reflexivity).
  constructor; [exact I|exact Hn|rewrite boot_fs_log; reflexivity|rewrite boot_fs_log; reflexivity].
Qed.

Definition view_fs : Z -> bytes := view (l_bio boot_fs).

#[local] Instance laws_fs : BlockLaws lstate := log_laws boot_fs.

Lemma tx_fs : tx (f_io fs0) view_fs [] [].
Proof.
  destruct (tx_begin boot_fs boot_fs_idle) as (s1 & E & T).
  assert (s1 = in_call) as ->; [|exact T].
  destruct boot_fs_idle as [I _ Ho Hc].
  rewrite (begin_op_admit _ Hc Ho (ho_n _ _ (li_head _ _ I))) in E.
  exact (eq_sym (f_equal (fun o => match o with Ok r => r.2 | _ => in_call end) E)).
Qed.

Lemma fs_block_dec b : (0 <=? b) && (b <? FSSIZE) && ((b <? 2) || (32 <=? b)) && negb (b =? 1) = true ->
  fs_block (BlockLaws := laws_fs) b.
Proof.
  intros Hb. split; [|lia]. rewrite boot_fs_log; cbn [l_start l_size]. unfold home; lia.
Qed.

Lemma layout_fs : layout_ok (f_sb fs0).
Proof.
  constructor; try (vm_compute; split; discriminate); try (vm_compute; discriminate).
  - split; [vm_compute; discriminate|reflexivity].
  - by apply fs_block_dec.
  - intros b Hb. apply fs_block_dec. unfold FSSIZE; cbn in Hb; lia.
  - intros b Hb. apply fs_block_dec. unfold FSSIZE; cbn in Hb; lia.
Qed.

Lemma bitmap_fs : view_fs 58 = bitmap0.
Proof. vm_compute; reflexivity. Qed.

#[local] Opaque boot_fs.

Lemma cap_fs : tx_cap (BlockLaws := laws_fs) = 29%nat.
Proof. unfold tx_cap, laws_fs, log_laws, log_cap. rewrite boot_fs_log; reflexivity. Qed.

Lemma meta_fs x : 0 <= x <= 58 -> marked view_fs sb_fs x = true.
Proof.
  intros Hx. unfold marked; cbn [sb_bmapstart sb_fs]. rewrite bitmap_fs.
  assert (forallb (fun n => bit_test bitmap0 (Z.of_nat n)) (seq 0 59) = true) as Hall
    by (vm_compute; reflexivity).
  rewrite forallb_forall in Hall. specialize (Hall (Z.to_nat x)). rewrite Z2Nat.id in Hall by lia.
  apply Hall, in_seq; lia.
Qed.

Lemma balloc_correct_witness :
  (exists b x f' logged', first_free view_fs sb_fs b /\ balloc ROOTDEV fs0 = Ok (b, put_io x fs0) /\
     tx x f' [] logged' /\ (length logged' <= 2)%nat /\ 58 < b < 1000 /\ f' b = zero_block /\
     (forall y, 0 <= y -> marked f' sb_fs y = bool_decide (y = b) || marked view_fs sb_fs y) /\
     (forall y, y <> b -> y <> 58 -> f' y = view_fs y)) \/
  ((forall x, 0 <= x < 1000 -> marked view_fs sb_fs x = true) /\
   balloc ROOTDEV fs0 = Panic "balloc: out of blocks").
Proof.
  apply (balloc_correct fs0 view_fs [] []).
  - exact tx_fs.
  - exact layout_fs.
  - exact meta_fs.
  - apply not_elem_of_nil.
  - intros b Hb; by apply not_elem_of_nil in Hb.
  - vm_compute; lia.
  - rewrite cap_fs; simpl; lia.
Defined.

Lemma bfree_correct_witness :
  (if marked view_fs sb_fs 59
   then exists x f' logged', bfree ROOTDEV 59 fs0 = Ok (tt, put_io x fs0) /\ tx x f' [] logged' /\
          (forall y, 0 <= y -> marked f' sb_fs y = negb (bool_decide (y = 59)) && marked view_fs sb_fs y) /\
          (forall y, y <> 58 -> f' y = view_fs y)
   else bfree ROOTDEV 59 fs0 = Panic "freeing free block") /\
  (marked view_fs sb_fs 59 = false -> 59 <> 58 -> unmark (alloc view_fs sb_fs 59) sb_fs 59 58 = view_fs 58).
Proof.
  apply (bfree_correct fs0 view_fs [] [] 59).
  - exact tx_fs.
  - exact layout_fs.
  - cbn; lia.
  - cbn [f_sb fs0 sb_bmapstart sb_fs]. rewrite bitmap_fs. unfold bitmap0.
    repeat apply Forall_app_2; repeat constructor; try (apply Forall_replicate); unfold byte_ok; lia.
  - apply not_elem_of_nil.
  - vm_compute; lia.
  - rewrite cap_fs; simpl; lia.
Defined.
