(* ===== verification/FsInode.v ===== *)
(** Inodes of fs.c: the on-disk layout, [iupdate] and [ilock], the inode cache
    and its reference counts, and the chmod call. *)

From S2P Require Import Prelude Bio Log Crash Block Strings Fs FsAlloc.
Local Open Scope Z_scope.

(** * Encoding of the on-disk inode *)

Definition is_s16 (x : Z) : Prop := -32768 <= x < 32768.
Definition is_u32 (x : Z) : Prop := 0 <= x < 4294967296.

Record dinode_ok (x : dinode) : Prop := {
  dk_type : is_s16 (d_type x);
  dk_major : is_s16 (d_major x);
  dk_minor : is_s16 (d_minor x);
  dk_nlink : is_s16 (d_nlink x);
  dk_mode : is_u32 (d_mode x);
  dk_size : is_u32 (d_size x);
  dk_len : length (d_addrs x) = 12%nat;
  dk_addrs : Forall is_u32 (d_addrs x)
}.

Lemma length_put_addrs d off l : (off + 4 * length l <= length d)%nat -> length (put_addrs d off l) = length d.
Proof.
  revert d off; induction l as [|a l IH]; intros d off Hl; cbn [put_addrs length] in *; [done|].
  rewrite IH; rewrite length_st; lia.
Qed.

Lemma ld_put_addrs_other n d off l off' :
  (off + 4 * length l <= length d)%nat -> (off' + n <= length d)%nat ->
  (off' + n <= off \/ off + 4 * length l <= off')%nat ->
  ld n (put_addrs d off l) off' = ld n d off'.
Proof.
  revert d off; induction l as [|a l IH]; intros d off Hl Hn Hd; cbn [put_addrs length] in *; [done|].
  rewrite IH; rewrite ?length_st; try lia. apply ld_st_other; lia.
Qed.

Lemma ld_put_addrs_same d off l k : (off + 4 * length l <= length d)%nat -> (k < length l)%nat ->
  Forall is_u32 l -> ld 4 (put_addrs d off l) (off + 4 * k) = l !!! k.
Proof.
  intros Hl Hk Hu. revert d off k Hl Hk; induction Hu as [|a l Ha Hu IH]; intros d off k Hl Hk;
    cbn [put_addrs length] in *; [lia|]. destruct k as [|k].
  - rewrite Nat.mul_0_r, Nat.add_0_r, ld_put_addrs_other; rewrite ?length_st; try lia.
    rewrite ld_st_same by lia. apply Z.mod_small, Ha.
  - replace (off + 4 * S k)%nat with (off + 4 + 4 * k)%nat by lia.
    rewrite IH; [done|rewrite length_st; lia|lia].
Qed.

Lemma s16_mod x : is_s16 x -> s16 (x mod 256 ^ Z.of_nat 2) = x.
Proof. unfold is_s16; change (256 ^ Z.of_nat 2) with 65536. ints. Qed.

Lemma u32_mod x : is_u32 x -> x mod 256 ^ Z.of_nat 4 = x.
Proof. unfold is_u32; change (256 ^ Z.of_nat 4) with 4294967296. apply Z.mod_small. Qed.

(** Bounds on byte arrays after stores. *)
Ltac len_st :=
  lazymatch goal with
  | |- context [length (st ?n ?l ?o ?v)] => rewrite (length_st n l o v); len_st
  | _ => lia
  end.

(** Evaluate a load after a sequence of stores at known offsets. *)
Ltac ld_st :=
  repeat first
    [ rewrite ld_put_addrs_other; [|len_st..]
    | rewrite ld_st_same; [|len_st..]
    | rewrite ld_st_other; [|len_st..] ].

Lemma length_put_dinode d off x : (off + 64 <= length d)%nat -> length (d_addrs x) = 12%nat ->
  length (put_dinode d off x) = length d.
Proof.
  intros Hd Hx. unfold put_dinode. rewrite length_put_addrs; len_st.
Qed.

Lemma get_put_dinode d off x : dinode_ok x -> (off + 64 <= length d)%nat ->
  get_dinode (put_dinode d off x) off = x.
Proof.
  intros [Ht Hma Hmi Hnl Hmo Hsz Hlen Had] Hd. destruct x as [t ma mi nl mo sz ad]; cbn in *.
  unfold get_dinode, put_dinode; cbn [d_type d_major d_minor d_nlink d_mode d_size d_addrs].
  f_equal; try (ld_st; by apply s16_mod || by apply u32_mod).
  apply list_eq; intros k. rewrite list_lookup_fmap. destruct (decide (k < 12)%nat) as [Hk|Hk].
  - rewrite lookup_seq_lt by done. cbn [fmap option_fmap option_map].
    rewrite ld_put_addrs_same; [|len_st|lia|done].
    symmetry. apply list_lookup_lookup_total_lt; lia.
  - rewrite lookup_seq_ge by lia. symmetry. apply lookup_ge_None_2; lia.
Qed.

Lemma get_put_dinode_other d off x off' : length (d_addrs x) = 12%nat ->
  (off + 64 <= length d)%nat -> (off' + 64 <= length d)%nat -> (off' + 64 <= off \/ off + 64 <= off')%nat ->
  get_dinode (put_dinode d off x) off' = get_dinode d off'.
Proof.
  intros Hl Hd Hd' Ho. unfold get_dinode, put_dinode. f_equal; try (ld_st; done).
  apply list_fmap_ext; intros i k [-> Hk]%lookup_seq. ld_st. done.
Qed.

(** * Inode blocks *)

Section Inode.
  Context {W : Type} `{BlockLaws W}.

Definition inum_ok (sb : superblock) (inum : Z) : Prop := 0 <= inum < sb_ninodes sb.

Lemma IBLOCK_range sb inum : layout_ok sb -> inum_ok sb inum ->
  IBLOCK inum sb = inum / 8 + sb_inodestart sb /\
  sb_inodestart sb <= IBLOCK inum sb < sb_bmapstart sb.
Proof.
  intros L Hi. pose proof (lo_inodes _ L). pose proof (lo_iend _ L). pose proof (lo_bmap _ L).
  pose proof (lo_size _ L). unfold inum_ok, IBLOCK, IPB, BSIZE, SIZEOF_DINODE, FSSIZE in *.
  change (512 / 64) with 8 in *. rewrite u32_small by divmod. divmod.
Qed.

Lemma inode_off_range inum : (inode_off inum + 64 <= 512)%nat.
Proof. unfold inode_off, IPB, BSIZE, SIZEOF_DINODE. change (512 / 64) with 8. divmod. Qed.

(** The inode number [inum] on the disk [f]; the disk with it replaced. *)
Definition dinode_at (f : Z -> bytes) (sb : superblock) (inum : Z) : dinode :=
  get_dinode (f (IBLOCK inum sb)) (inode_off inum).
Definition iwrite (f : Z -> bytes) (sb : superblock) (inum : Z) (x : dinode) : Z -> bytes :=
  assign f (IBLOCK inum sb, put_dinode (f (IBLOCK inum sb)) (inode_off inum) x).

Lemma dinode_at_iwrite f sb inum x inum' :
  layout_ok sb -> inum_ok sb inum -> inum_ok sb inum' -> dinode_ok x ->
  (forall b, length (f b) = Z.to_nat BSIZE) ->
  dinode_at (iwrite f sb inum x) sb inum' = if decide (inum' = inum) then x else dinode_at f sb inum'.
Proof.
  intros L Hi Hi' Hx Hlen. pose proof (inode_off_range inum). pose proof (inode_off_range inum').
  destruct (IBLOCK_range _ _ L Hi) as [E _]. destruct (IBLOCK_range _ _ L Hi') as [E' _].
  assert (forall b, length (f b) = 512%nat) as Hl by (intros; by rewrite Hlen).
  unfold dinode_at, iwrite. destruct (decide (inum' = inum)) as [->|Hne].
  - rewrite assign_eq, decide_True by done. apply get_put_dinode; [done|]. rewrite Hl; lia.
  - rewrite assign_eq. destruct (decide (IBLOCK inum' sb = IBLOCK inum sb)) as [Eb|]; [|done].
    rewrite get_put_dinode_other; [by rewrite Eb|apply Hx|rewrite Hl; lia..|].
    rewrite E, E' in Eb. unfold inum_ok, inode_off, IPB, BSIZE, SIZEOF_DINODE in *.
    change (512 / 64) with 8. divmod.
Qed.

Lemma iupdate_spec s f held logged i :
  let ip := f_ic s !!! i in let ib := IBLOCK (i_inum ip) (f_sb s) in
  tx (f_io s) f held logged -> layout_ok (f_sb s) ->
  i_dev ip = ROOTDEV -> inum_ok (f_sb s) (i_inum ip) -> length (d_addrs (i_d ip)) = 12%nat ->
  ib ∉ held.*2 -> (length held + length logged < NB)%nat -> (length logged < tx_cap)%nat ->
  exists x, iupdate i s = Ok (tt, put_io x s) /\
    tx x (iwrite f (f_sb s) (i_inum ip) (i_d ip)) held (absorb ib logged).
Proof.
  intros ip ib T L Hd Hi Hlen Hh Hl Hc.
  destruct (IBLOCK_range _ _ L Hi) as [_ Hr]. fold ib in Hr.
  pose proof (lo_inodes _ L). pose proof (lo_bmap _ L). pose proof (lo_size _ L).
  destruct (tx_bread _ _ _ _ ib T) as (h & s1 & E1 & T1); [lia|done|lia|].
  pose proof (tx_data _ _ _ _ h ib T1 (list_elem_of_here _ _)) as Ed.
  destruct (tx_write _ _ _ _ h ib (put_dinode (f ib) (inode_off (i_inum ip)) (i_d ip)) T1)
    as (s2 & E2 & T2); [by left|by apply (lo_iblock_fs _ L)| |lia|].
  { pose proof (tx_sized _ _ _ _ ib T) as Hfl. change (Z.to_nat BSIZE) with 512%nat in *.
    rewrite length_put_dinode; [done| |done]. rewrite Hfl. apply inode_off_range. }
  destruct (tx_brelse _ _ _ _ _ _ T2) as (s3 & E3 & T3).
  exists s3; split; [|exact T3].
  unfold iupdate, bind at 1, gets, bind at 1, getip, gets. fold ip. rewrite Hd. fold ib.
  mstep (io_Ok _ _ _ _ E1). mstep (io_Ok _ (put_io s1 s) _ _ Ed).
  rewrite (io_seq _ _ _ (put_io s1 s) _ _ E2). exact (io_Ok _ (put_io s2 s) _ _ E3).
Qed.

(** * Locking *)

Definition putip (i : nat) (ip : inode) (s : fsys W) : fsys W := put_ic (<[i := ip]> (f_ic s)) s.

Lemma updip_Ok i g (s : fsys W) : updip i g s = Ok (tt, putip i (g (f_ic s !!! i)) s).
Proof. done. Qed.

Lemma acquire_ilock_free i (s : fsys W) :
  sl_locked (i_lock (f_ic s !!! i)) = false ->
  acquire_ilock i s = Ok (tt, putip i (set_ilock (mksleeplock true (f_pid s)) (f_ic s !!! i)) s).
Proof. intros Hl. unfold acquire_ilock, bind, getip, gets, acquiresleep. by rewrite Hl. Qed.

Lemma acquire_ilock_busy i (s : fsys W) :
  sl_locked (i_lock (f_ic s !!! i)) = true -> acquire_ilock i s = Sleep.
Proof. intros Hl. unfold acquire_ilock, bind, getip, gets, acquiresleep. by rewrite Hl. Qed.

Lemma putip_get i ip (s : fsys W) : (i < length (f_ic s))%nat -> f_ic (putip i ip s) !!! i = ip.
Proof. intros; simpl. by apply list_lookup_total_insert_eq. Qed.

Lemma putip_put i ip ip' (s : fsys W) : putip i ip (putip i ip' s) = putip i ip s.
Proof. unfold putip, put_ic; cbn. by rewrite list_insert_insert_eq. Qed.

(** The entry after a successful [ilock] by process [me]. *)
Definition locked_inode (me : Z) (d : dinode) (ip : inode) : inode :=
  mkinode (i_dev ip) (i_inum ip) (i_ref ip) (mksleeplock true me) true d.

Lemma ilock_valid i (s : fsys W) :
  let ip := f_ic s !!! i in
  (i < length (f_ic s))%nat -> 1 <= i_ref ip -> sl_locked (i_lock ip) = false -> i_valid ip = true ->
  ilock i s = Ok (tt, putip i (locked_inode (f_pid s) (i_d ip) ip) s).
Proof.
  intros ip Hi Hr Hl Hv. unfold ilock, bind at 1, getip at 1, gets. fold ip.
  replace (i_ref ip <? 1) with false by lia. mstep (acquire_ilock_free i s Hl). fold ip.
  unfold bind at 1, getip, gets. rewrite putip_get by done. cbn [i_valid set_ilock]. rewrite Hv.
  unfold ret, locked_inode, set_ilock. by rewrite Hv.
Qed.

Lemma ilock_read s f held logged i :
  let ip := f_ic s !!! i in let ib := IBLOCK (i_inum ip) (f_sb s) in
  let d := dinode_at f (f_sb s) (i_inum ip) in
  tx (f_io s) f held logged -> layout_ok (f_sb s) ->
  (i < length (f_ic s))%nat -> 1 <= i_ref ip -> sl_locked (i_lock ip) = false -> i_valid ip = false ->
  i_dev ip = ROOTDEV -> inum_ok (f_sb s) (i_inum ip) ->
  ib ∉ held.*2 -> (length held + length logged < NB)%nat ->
  if d_type d =? 0 then ilock i s = Panic "ilock: no type" else
  exists x, ilock i s = Ok (tt, putip i (locked_inode (f_pid s) d ip) (put_io x s)) /\ tx x f held logged.
Proof.
  intros ip ib d T L Hi Hr Hl Hv Hd Hin Hh Hlen.
  destruct (IBLOCK_range _ _ L Hin) as [_ Hrg]. fold ib in Hrg.
  pose proof (lo_inodes _ L). pose proof (lo_bmap _ L). pose proof (lo_size _ L).
  destruct (tx_bread _ _ _ _ ib T) as (h & s1 & E1 & T1); [lia|done|lia|].
  pose proof (tx_data _ _ _ _ h ib T1 (list_elem_of_here _ _)) as Ed.
  destruct (tx_brelse _ _ _ _ _ _ T1) as (s2 & E2 & T2).
  assert (ilock i s = (let! ip := getip i in
    if d_type (i_d ip) =? 0 then panic "ilock: no type" else ret tt)
      (putip i (locked_inode (f_pid s) d ip) (put_io s2 s))) as ->.
  { unfold ilock, bind at 1, getip at 1, gets at 1. fold ip. replace (i_ref ip <? 1) with false by lia.
    mstep (acquire_ilock_free i s Hl). fold ip. set (s' := putip i _ s).
    unfold bind at 1, getip at 1, gets at 1. unfold s'; rewrite putip_get by done. fold s'.
    cbn [i_valid i_dev i_inum set_ilock]. rewrite Hv, Hd. unfold bind at 1, gets at 1.
    change (f_sb s') with (f_sb s). fold ib. mstep (io_Ok _ s' _ _ E1). mstep (io_Ok _ (put_io s1 s') _ _ Ed).
    mstep (updip_Ok i (set_d (get_dinode (f ib) (inode_off (i_inum ip)))) (put_io s1 s')).
    set (s'' := putip i _ (put_io s1 s')). mstep (io_Ok _ s'' _ _ E2).
    mstep (updip_Ok i (set_valid true) (put_io s2 s'')).
    f_equal. unfold s'', s', putip, put_ic, put_io; cbn. rewrite !list_insert_insert_eq.
    rewrite !list_lookup_total_insert_eq by (rewrite ?length_insert; done). done. }
  unfold bind, getip, gets. rewrite !putip_get by done. cbn [i_d locked_inode].
  destruct (d_type d =? 0); [done|]. by exists s2.
Qed.
End Inode.

(** * Decoding gives well-formed inodes *)

Lemma get_dinode_ok d off : Forall byte_ok d -> dinode_ok (get_dinode d off).
Proof.
  intros Hd. pose proof (fun n o => ld_range n d o Hd) as Hr.
  constructor; cbn [d_type d_major d_minor d_nlink d_mode d_size d_addrs get_dinode];
    try (unfold is_s16; ints); try (apply (Hr 4%nat)).
  - by rewrite length_fmap, length_seq.
  - apply Forall_fmap, Forall_true. intros k. apply (Hr 4%nat).
Qed.

Section Unlock.
  Context {W : Type}.

Lemma iunlock_Ok i (s : fsys W) :
  i_lock (f_ic s !!! i) = mksleeplock true (f_pid s) -> 1 <= i_ref (f_ic s !!! i) ->
  iunlock i s = Ok (tt, putip i (set_ilock (mksleeplock false 0) (f_ic s !!! i)) s).
Proof.
  intros Hl Hr. unfold iunlock, bind, getip, gets. rewrite Hl; cbn. rewrite Z.eqb_refl.
  replace (i_ref _ <? 1) with false by lia. done.
Qed.

Lemma updd_Ok i g (s : fsys W) : updd i g s = Ok (tt, putip i (set_d (g (i_d (f_ic s !!! i))) (f_ic s !!! i)) s).
Proof. done. Qed.
End Unlock.

(** * The chmod call *)

Section Chmod.
  Context (s : fsys lstate) (i : nat).
Let ip := f_ic s !!! i.
Let sb := f_sb s.
Let f := view (l_bio (f_io s)).
Let start := l_start (l_log (f_io s)).
Let size := l_size (l_log (f_io s)).
#[local] Instance laws_s : BlockLaws lstate := log_laws (f_io s).

(** What chmod needs of the state: the log is idle, the layout is right, entry
    [i] of the inode cache is referenced, unlocked and refers to an allocated
    inode, of which it is a faithful copy if it is valid. *)
Record chmod_ready : Prop := {
  cm_idle : log_idle (f_io s);
  cm_log : 2 <= size;
  cm_layout : layout_ok sb;
  cm_i : (i < length (f_ic s))%nat;
  cm_ref : 1 <= i_ref ip;
  cm_lock : sl_locked (i_lock ip) = false;
  cm_dev : i_dev ip = ROOTDEV;
  cm_inum : inum_ok sb (i_inum ip);
  cm_valid : i_valid ip = true -> i_d ip = dinode_at f sb (i_inum ip);
  cm_bytes : Forall byte_ok (f (IBLOCK (i_inum ip) sb));
  cm_type : d_type (dinode_at f sb (i_inum ip)) <> 0
}.

Lemma ilock_ready s1 : chmod_ready -> tx s1 f [] [] ->
  exists s2, ilock i (put_io s1 s) =
    Ok (tt, putip i (locked_inode (f_pid s) (dinode_at f sb (i_inum ip)) ip) (put_io s2 s)) /\ tx s2 f [] [].
Proof.
  intros [Hid Hsz L Hi Hr Hl Hd Hin Hv Hb Ht] T. destruct (i_valid ip) eqn:Ev.
  - exists s1; split; [|done]. rewrite <- Hv by done. by apply (ilock_valid i (put_io s1 s)).
  - pose proof (ilock_read (put_io s1 s) f [] [] i T L Hi Hr Hl Ev Hd Hin) as Hrd.
    cbn [f_sb f_ic put_io f_pid] in Hrd. fold sb ip in Hrd.
    destruct (d_type _ =? 0) eqn:Et; [apply Z.eqb_eq in Et; done|].
    destruct Hrd as (x & E & T'); [apply not_elem_of_nil|vm_compute; lia|]. by exists x.
Qed.

(** C36. chmod is correct and crash-safe.  For a mode of at most 511 on an
    allocated inode, the call succeeds; on the disk the inode's mode is then the
    one given (as an unsigned number), every other field of it, every other inode
    and every other block is unchanged, and the inode is unlocked again; if the
    power fails after any number of its sector writes, recovery shows the disk
    before the call or the disk after it.  A larger mode returns -1 and changes
    nothing. *)
Theorem chmod_correct mode :
  chmod_ready -> 
  if mode >? 511 then chmod i mode s = Ok (-1, s) else
  exists s' f', chmod i mode s = Ok (0, s') /\ log_idle (f_io s') /\
    (forall b, home start size b -> view (l_bio (f_io s')) b = f' b) /\
    dinode_at f' sb (i_inum ip) = set_mode (u32 mode) (dinode_at f sb (i_inum ip)) /\
    (forall j, inum_ok sb j -> j <> i_inum ip -> dinode_at f' sb j = dinode_at f sb j) /\
    (forall b, b <> IBLOCK (i_inum ip) sb -> f' b = f b) /\
    sl_locked (i_lock (f_ic s' !!! i)) = false /\
    (forall me k, recovers me (crash_disk (f_io s) (f_io s') k) start size
       (if decide (k <= 1)%nat then f else f')).
Proof.
  intros R. unfold chmod. destruct (mode >? 511) eqn:Em; [done|].
  pose proof R as [Hid Hsz L Hi Hr Hl Hd Hin Hv Hb Ht].
  destruct (tx_begin _ Hid) as (s1 & E1 & T1). destruct (ilock_ready s1 R T1) as (s2 & E2 & T2).
  set (x := dinode_at f sb (i_inum ip)) in *. set (x' := set_mode (u32 mode) x).
  assert (dinode_ok x') as Hx'.
  { pose proof (get_dinode_ok _ (inode_off (i_inum ip)) Hb) as Hok.
    destruct Hok; constructor; try done. apply u32_range. }
  set (s3 := putip i (mkinode (i_dev ip) (i_inum ip) (i_ref ip) (mksleeplock false 0) true x') (put_io s2 s)).
  assert (f_ic s3 !!! i = mkinode (i_dev ip) (i_inum ip) (i_ref ip) (mksleeplock false 0) true x') as E3.
  { by apply putip_get. }
  destruct (iupdate_spec s3 f [] [] i) as (s4 & E4 & T4); rewrite ?E3; try done.
  { apply not_elem_of_nil. }
  { vm_compute; lia. }
  { unfold tx_cap, laws_s, log_laws, log_cap. fold size. unfold LOGSIZE, MAXOPBLOCKS; simpl; lia. }
  rewrite E3 in T4; cbn [i_inum i_d f_sb putip put_ic put_io] in T4. fold sb in T4.
  destruct (tx_end (f_io s) s4 _ _ Hid T4) as (s5 & E5 & Hid5 & Hst5 & Hsz5 & Hv5 & Hc5 & _).
  exists (putip i (f_ic s3 !!! i) (put_io s5 s)), (iwrite f sb (i_inum ip) x').
  assert (forall b, length (f b) = Z.to_nat BSIZE) as Hlen by (intros b; by eapply tx_sized).
  split_and!; try done.
  - mstep (io_Ok io_begin_op s _ _ E1). mstep E2.
    mstep (updd_Ok i (set_mode (u32 mode)) (putip i (locked_inode (f_pid s) x ip) (put_io s2 s))).
    rewrite putip_get, putip_put by done.
    mstep (iunlock_Ok i (putip i (set_d x' (locked_inode (f_pid s) x ip)) (put_io s2 s))
             ltac:(by rewrite putip_get by done) ltac:(by rewrite putip_get by done)).
    rewrite putip_get, putip_put by done.
    mstep E4. mstep (io_Ok io_end_op (put_io s4 s3) _ _ E5). by rewrite E3.
  - rewrite (dinode_at_iwrite f sb (i_inum ip) x' (i_inum ip) L Hin Hin Hx' Hlen). by rewrite decide_True.
  - intros j Hj Hne. rewrite (dinode_at_iwrite f sb (i_inum ip) x' j L Hin Hj Hx' Hlen). by rewrite decide_False.
  - intros b Hne. unfold iwrite. by rewrite assign_eq, decide_False.
  - rewrite putip_get by done. by rewrite E3.
Qed.
End Chmod.

(** ** Witness: chmod of the root directory on the disk of mkfs *)

Definition fs_idle : fsys lstate := put_io boot_fs fs0.

Lemma inodes_fs : view_fs 32 = inodes0.
Proof. vm_compute; reflexivity. Qed.

#[local] Opaque boot_fs.

Lemma rootino_fs : dinode_at view_fs sb_fs ROOTINO = rootino0.
Proof. unfold dinode_at. change (IBLOCK ROOTINO sb_fs) with 32. rewrite inodes_fs. vm_compute; reflexivity. Qed.

Lemma inodes0_bytes : Forall byte_ok inodes0.
Proof. apply (bool_decide_eq_true_1 _). vm_compute. reflexivity. Qed.

Lemma chmod_ready_fs : chmod_ready fs_idle 0.
Proof.
  refine (Build_chmod_ready fs_idle 0 boot_fs_idle _ layout_fs _ _ eq_refl eq_refl _ _ _ _).
  - change (2 <= l_size (l_log boot_fs)). rewrite boot_fs_log; cbn; lia.
  - change (0 < 50)%nat; lia.
  - change (1 <= 1); lia.
  - change (0 <= 1 < 200); lia.
  - change (false = true -> dinode0 = dinode_at view_fs sb_fs ROOTINO); discriminate.
  - change (Forall byte_ok (view_fs 32)). rewrite inodes_fs. exact inodes0_bytes.
  - change (d_type (dinode_at view_fs sb_fs ROOTINO) <> 0). rewrite rootino_fs; discriminate.
Qed.

Lemma chmod_correct_witness :
  exists s' f', chmod 0 420 fs_idle = Ok (0, s') /\ log_idle (f_io s') /\
    (forall b, home (l_start (l_log boot_fs)) (l_size (l_log boot_fs)) b ->
       view (l_bio (f_io s')) b = f' b) /\
    dinode_at f' sb_fs 1 = set_mode (u32 420) (dinode_at view_fs sb_fs 1) /\
    (forall j, inum_ok sb_fs j -> j <> 1 -> dinode_at f' sb_fs j = dinode_at view_fs sb_fs j) /\
    (forall b, b <> 32 -> f' b = view_fs b) /\
    sl_locked (i_lock (f_ic s' !!! 0%nat)) = false /\
    (forall me k, recovers me (crash_disk boot_fs (f_io s') k)
       (l_start (l_log boot_fs)) (l_size (l_log boot_fs))
       (if decide (k <= 1)%nat then view_fs else f')).
Proof. exact (chmod_correct fs_idle 0 420 chmod_ready_fs). Defined.
