(* ===== verification/FsRefs.v ===== *)
(** The inode cache of fs.c: reference counts and uniqueness of entries, over any
    sequence of the operations that use it. *)

From S2P Require Import Prelude Bio Log Crash Block Strings Fs.
Local Open Scope Z_scope.

Section Refs.
  Context {W : Type} `{BlockIO W}.

(** What identifies an entry and who uses it. *)
Definition shape (ip : inode) : Z * Z * Z := (i_dev ip, i_inum ip, i_ref ip).

(** What the holders of inode pointers depend on, with the current directory. *)
Definition face (s : fsys W) : list (Z * Z * Z) * nat := (shape <$> f_ic s, f_cwd s).

(** * Operations that change neither identities nor reference counts *)

Definition keeps {A} (m : M (fsys W) A) : Prop :=
  forall s a s', m s = Ok (a, s') -> face s' = face s.

Lemma keeps_bind {A B} (m : M (fsys W) A) (k : A -> M (fsys W) B) :
  keeps m -> (forall a, keeps (k a)) -> keeps (bind m k).
Proof.
  intros Hm Hk s b s' (a & s1 & E1 & E2)%bind_Ok_inv. by rewrite (Hk _ _ _ _ E2), (Hm _ _ _ E1).
Qed.

Lemma keeps_io {A} (m : M W A) : keeps (io m).
Proof. intros s a s'. unfold io, zoom. destruct (m (f_io s)) as [[? ?]|?| |]; by intros [= _ <-]. Qed.

Lemma keeps_gets {A} (g : fsys W -> A) : keeps (gets g).
Proof. by intros s a s' [= _ <-]. Qed.

Lemma keeps_ret {A} (a : A) : keeps (ret a).
Proof. by intros s b s' [= _ <-]. Qed.

Lemma keeps_panic {A} msg : keeps (panic (A := A) msg).
Proof. by intros s b s' E. Qed.

Lemma keeps_sleep {A} : keeps (sleep (A := A)).
Proof. by intros s b s' E. Qed.

Lemma keeps_undefined {A} : keeps (undefined (A := A)).
Proof. by intros s b s' E. Qed.

Lemma keeps_updip i g : (forall ip, shape (g ip) = shape ip) -> keeps (updip i g).
Proof.
  intros Hg s a s' [= _ <-]. unfold face; cbn [f_ic f_cwd put_ic]. f_equal. rewrite list_fmap_insert, Hg.
  destruct (decide (i < length (f_ic s))%nat).
  - apply list_insert_id. rewrite list_lookup_fmap, list_lookup_lookup_total_lt by done. done.
  - rewrite list_insert_ge; [done|rewrite length_fmap; lia].
Qed.

Lemma keeps_when b m : keeps m -> keeps (when b m).
Proof. intros Hm; destruct b; [done|apply keeps_ret]. Qed.

Lemma keeps_if {A} (b : bool) (m1 m2 : M (fsys W) A) : keeps m1 -> keeps m2 -> keeps (if b then m1 else m2).
Proof. by destruct b. Qed.
End Refs.

Create HintDb keeps.
#[export] Hint Resolve keeps_io keeps_gets keeps_ret keeps_panic keeps_sleep keeps_undefined : keeps.
#[export] Hint Extern 1 (keeps (bind _ _)) => apply keeps_bind; [|intros ?] : keeps.
#[export] Hint Extern 1 (keeps (when _ _)) => apply keeps_when : keeps.
#[export] Hint Extern 1 (keeps (if _ then _ else _)) => apply keeps_if : keeps.
#[export] Hint Extern 1 (keeps (updip _ _)) => apply keeps_updip; reflexivity : keeps.
#[export] Hint Extern 1 (keeps (updd _ _)) => apply keeps_updip; reflexivity : keeps.
#[export] Hint Extern 1 (keeps (getip _)) => apply keeps_gets : keeps.
#[export] Hint Extern 1 (keeps (match ?x with _ => _ end)) => destruct x : keeps.

Section Ops.
  Context {W : Type} `{BlockIO W}.

Lemma keeps_bzero dev b : keeps (W := W) (bzero dev b).
Proof. unfold bzero; auto 20 with keeps. Qed.
#[local] Hint Resolve keeps_bzero : keeps.

Lemma keeps_balloc dev : keeps (W := W) (balloc dev).
Proof.
  unfold balloc. apply keeps_bind; [apply keeps_gets|intros sb].
  generalize (Z.to_nat (sb_size sb / BPB + 1)), 0; intros fuel.
  induction fuel as [|fuel IH]; intros b; cbn [balloc_loop]; auto 20 with keeps.
Qed.

Lemma keeps_bfree dev b : keeps (W := W) (bfree dev b).
Proof. unfold bfree; auto 20 with keeps. Qed.
#[local] Hint Resolve keeps_balloc keeps_bfree : keeps.

Lemma keeps_iupdate i : keeps (W := W) (iupdate i).
Proof. unfold iupdate; auto 20 with keeps. Qed.
#[local] Hint Resolve keeps_iupdate : keeps.

Lemma keeps_acquire_ilock i : keeps (W := W) (acquire_ilock i).
Proof. unfold acquire_ilock; auto 20 with keeps. Qed.
#[local] Hint Resolve keeps_acquire_ilock : keeps.

Lemma keeps_ilock i : keeps (W := W) (ilock i).
Proof. unfold ilock; auto 30 with keeps. Qed.

Lemma keeps_iunlock i : keeps (W := W) (iunlock i).
Proof. unfold iunlock; auto 20 with keeps. Qed.

Lemma keeps_itrunc i : keeps (W := W) (itrunc i).
Proof.
  assert (forall fuel k, keeps (W := W) (itrunc_direct fuel i k)) as Hd
    by (induction fuel as [|fuel IH]; intros k; cbn [itrunc_direct]; auto 20 with keeps).
  assert (forall fuel dev bp j, keeps (W := W) (itrunc_indirect fuel dev bp j)) as Hi
    by (induction fuel as [|fuel IH]; intros dev bp j; cbn [itrunc_indirect]; auto 20 with keeps).
  unfold itrunc; auto 20 with keeps.
Qed.

Lemma keeps_bmap i bn : keeps (W := W) (bmap i bn).
Proof. unfold bmap; auto 30 with keeps. Qed.
End Ops.
#[export] Hint Resolve keeps_balloc keeps_bfree keeps_iupdate keeps_ilock keeps_iunlock keeps_itrunc
  keeps_bmap : keeps.

(** * References

    A configuration: the file system and the inode pointers that its clients
    hold, each from [iget], [ialloc] or [idup] and not yet given to [iput]. *)

Section Steps.
  Context {W : Type} `{BlockIO W}.

Inductive ref_step : fsys W * list nat -> fsys W * list nat -> Prop :=
| step_iget s dev inum k s' R :
    iget dev inum s = Ok (k, s') -> ref_step (s, R) (s', k :: R)
| step_ialloc s dev type k s' R :
    ialloc dev type s = Ok (k, s') -> ref_step (s, R) (s', k :: R)
| step_idup s i k s' R :
    i ∈ R -> idup i s = Ok (k, s') -> ref_step (s, R) (s', k :: R)
| step_iput s i s' R1 R2 :
    iput i s = Ok (tt, s') -> ref_step (s, R1 ++ i :: R2) (s', R1 ++ R2)
| step_ilock s i s' R :
    ilock i s = Ok (tt, s') -> ref_step (s, R) (s', R)
| step_iunlock s i s' R :
    iunlock i s = Ok (tt, s') -> ref_step (s, R) (s', R)
| step_iupdate s i s' R :
    iupdate i s = Ok (tt, s') -> ref_step (s, R) (s', R)
| step_bmap s i bn a s' R :
    bmap i bn s = Ok (a, s') -> ref_step (s, R) (s', R).

(** Every entry counts the pointers to it, and no two entries in use are for
    the same inode. *)
Record refs_ok (s : fsys W) (R : list nat) : Prop := {
  rf_range : forall k, k ∈ R -> (k < length (f_ic s))%nat;
  rf_count : forall k, (k < length (f_ic s))%nat ->
    i_ref (f_ic s !!! k) = Z.of_nat (count_occ Nat.eq_dec R k);
  rf_unique : forall j k, (j < length (f_ic s))%nat -> (k < length (f_ic s))%nat ->
    0 < i_ref (f_ic s !!! j) -> 0 < i_ref (f_ic s !!! k) ->
    i_dev (f_ic s !!! j) = i_dev (f_ic s !!! k) -> i_inum (f_ic s !!! j) = i_inum (f_ic s !!! k) -> j = k;
  rf_max : forall k, (k < length (f_ic s))%nat -> i_ref (f_ic s !!! k) <= INT_MAX
}.

Lemma shape_lookup (s s' : fsys W) k : face s' = face s ->
  shape (f_ic s' !!! k) = shape (f_ic s !!! k) /\ length (f_ic s') = length (f_ic s).
Proof.
  intros [= E _]. assert (length (f_ic s') = length (f_ic s)) as Hl
    by (rewrite <- (length_fmap shape), E; apply length_fmap).
  split; [|done]. destruct (decide (k < length (f_ic s))%nat).
  - apply (f_equal (fun l => l !! k)) in E. rewrite !list_lookup_fmap in E.
    rewrite !list_lookup_lookup_total_lt in E by lia. simpl in E; congruence.
  - rewrite !list_lookup_total_alt, !lookup_ge_None_2 by lia. done.
Qed.

(** Operations that keep the shapes keep the invariant. *)
Lemma refs_shape (s s' : fsys W) R : face s' = face s -> refs_ok s R -> refs_ok s' R.
Proof.
  intros E [Hr Hc Hu Hx].
  assert (forall k, i_dev (f_ic s' !!! k) = i_dev (f_ic s !!! k) /\
    i_inum (f_ic s' !!! k) = i_inum (f_ic s !!! k) /\ i_ref (f_ic s' !!! k) = i_ref (f_ic s !!! k)) as He
    by (intros k; destruct (shape_lookup _ _ k E) as [Es _]; unfold shape in Es; by injection Es).
  destruct (shape_lookup _ _ 0 E) as [_ El]. constructor; rewrite ?El; auto.
  - intros k Hk. destruct (He k) as (_ & _ & ->). auto.
  - intros j k Hj Hk. destruct (He j) as (-> & -> & ->), (He k) as (-> & -> & ->). auto.
  - intros k Hk. destruct (He k) as (_ & _ & ->). auto.
Qed.

Lemma scan_found l k dev inum e j e' :
  iget_scan l k dev inum e = (Some j, e') ->
  exists n ip, l !! n = Some ip /\ j = (k + n)%nat /\ 0 < i_ref ip /\ i_dev ip = dev /\ i_inum ip = inum.
Proof.
  revert k e; induction l as [|ip l IH]; intros k e; cbn [iget_scan]; [done|].
  destruct (_ && _) eqn:E.
  - intros [= -> ->]. exists 0%nat, ip. split_and!; [done|lia|lia|lia|lia].
  - intros (n & ip' & Hn & -> & Hp)%IH. exists (S n), ip'. split_and!; [done|lia|tauto..].
Qed.

Lemma scan_missing l k dev inum e e' :
  iget_scan l k dev inum e = (None, e') ->
  Forall (fun ip => ~ (0 < i_ref ip /\ i_dev ip = dev /\ i_inum ip = inum)) l /\
  (e' = e /\ (e = None -> Forall (fun ip => i_ref ip <> 0) l) \/
   e = None /\ exists n ip, l !! n = Some ip /\ e' = Some (k + n)%nat /\ i_ref ip = 0).
Proof.
  revert k e; induction l as [|ip l IH]; intros k e; cbn [iget_scan].
  { intros [= <-]. split; [constructor|left; split; [done|constructor]]. }
  destruct (_ && _) eqn:E; [done|]. intros (Hf & He)%IH.
  split; [constructor; [lia|done]|].
  destruct e as [n|]; [destruct He as [[-> _]|[? _]]; [by left|done]|].
  destruct (i_ref ip =? 0) eqn:Er.
  - right; split; [done|]. destruct He as [[-> _]|[? _]]; [|done].
    exists 0%nat, ip. split_and!; [done|f_equal; lia|lia].
  - destruct He as [[-> Hn]|[_ (n & ip' & Hn & -> & Hz)]].
    + left; split; [done|]. intros _; constructor; [lia|auto].
    + right; split; [done|]. exists (S n), ip'. split_and!; [done|f_equal; lia|done].
Qed.

Lemma updip_lookup i g (s : fsys W) k : (i < length (f_ic s))%nat ->
  f_ic (put_ic (<[i := g (f_ic s !!! i)]> (f_ic s)) s) !!! k =
  if decide (k = i) then g (f_ic s !!! i) else f_ic s !!! k.
Proof.
  intros Hi; simpl. destruct (decide (k = i)) as [->|].
  - by apply list_lookup_total_insert_eq.
  - by apply list_lookup_total_insert_ne.
Qed.

Lemma count_occ_decide R k i :
  count_occ Nat.eq_dec (i :: R) k = ((if decide (k = i) then 1 else 0) + count_occ Nat.eq_dec R k)%nat.
Proof.
  destruct (decide (k = i)) as [->|]; [by rewrite count_occ_cons_eq|by rewrite count_occ_cons_neq].
Qed.

(** One more pointer to entry [i], which keeps its identity. *)
Lemma refs_incr (s : fsys W) R i : refs_ok s R -> (i < length (f_ic s))%nat -> 0 < i_ref (f_ic s !!! i) < INT_MAX ->
  refs_ok (put_ic (<[i := set_ref (i_ref (f_ic s !!! i) + 1) (f_ic s !!! i)]> (f_ic s)) s) (i :: R).
Proof.
  intros [Hr Hc Hu Hx] Hi Hp. set (g := fun ip => set_ref (i_ref ip + 1) ip).
  pose proof (fun k => updip_lookup i g s k Hi) as Hk. unfold g in Hk.
  constructor; cbn [f_ic put_ic] in *; rewrite ?length_insert.
  - intros k [->|?]%elem_of_cons; auto.
  - intros k Hlt. rewrite Hk, count_occ_decide. specialize (Hc k Hlt).
    destruct (decide (k = i)) as [->|]; simpl; lia.
  - intros j k Hj Hlt. rewrite !Hk.
    destruct (decide (j = i)) as [->|], (decide (k = i)) as [->|]; simpl; auto; intros; apply Hu; auto; lia.
  - intros k Hlt. rewrite Hk. destruct (decide (k = i)); simpl; [lia|auto].
Qed.

Lemma incref_inv i (s s' : fsys W) u : incref i s = Ok (u, s') -> i_ref (f_ic s !!! i) < INT_MAX /\
  s' = put_ic (<[i := set_ref (i_ref (f_ic s !!! i) + 1) (f_ic s !!! i)]> (f_ic s)) s.
Proof.
  unfold incref, bind, getip, gets. destruct (Z.ltb_spec (i_ref (f_ic s !!! i)) INT_MAX); [|done]. by intros [= _ <-].
Qed.

Lemma iget_refs dev inum (s : fsys W) k s' R : refs_ok s R -> iget dev inum s = Ok (k, s') ->
  refs_ok s' (k :: R) /\ i_dev (f_ic s' !!! k) = dev /\ i_inum (f_ic s' !!! k) = inum /\
  (forall j, j ∈ R -> f_ic s' !!! j = f_ic s !!! j \/
     (j = k /\ i_dev (f_ic s !!! j) = dev /\ i_inum (f_ic s !!! j) = inum)).
Proof.
  intros Hok. unfold iget, bind at 1, gets. destruct (iget_scan _ _ _ _ _) as [[j|] e] eqn:E.
  - intros ([] & s1 & [Hm ->]%incref_inv & [= <- <-])%bind_Ok_inv. apply scan_found in E as (n & ip & Hn & -> & Hp & <- & <-). simpl.
    pose proof (lookup_lt_Some _ _ _ Hn) as Hlt. apply list_lookup_total_correct in Hn. subst ip.
    split; [by apply refs_incr|]. rewrite list_lookup_total_insert_eq by done. split_and!; [done|done|].
    intros j _. destruct (decide (j = n)) as [->|]; [by right|left]. by apply list_lookup_total_insert_ne.
  - apply scan_missing in E as (Hf & He). destruct e as [j|]; [|done]. intros [= <- <-].
    destruct He as [[? _]|(_ & n & ip & Hn & [= ->] & Hz)]; [done|]. simpl.
    pose proof (lookup_lt_Some _ _ _ Hn) as Hlt. apply list_lookup_total_correct in Hn. subst ip.
    assert (n ∉ R) as HnR.
    { intros Hin. pose proof (rf_count _ _ Hok n Hlt) as Hc. rewrite Hz in Hc.
      apply list_elem_of_In, (count_occ_In Nat.eq_dec) in Hin. lia. }
    set (g := fun ip => mkinode dev inum 1 (i_lock ip) false (i_d ip)).
    pose proof (fun k => updip_lookup n g s k Hlt) as Hk. unfold g in Hk; cbn [f_ic put_ic] in Hk.
    split_and!; [|by rewrite Hk, decide_True|by rewrite Hk, decide_True|].
    + destruct Hok as [Hr Hc Hu Hx]. constructor; cbn [f_ic put_ic]; rewrite ?length_insert.
      * intros k [->|?]%elem_of_cons; auto.
      * intros k Hkl. rewrite Hk, count_occ_decide. destruct (decide (k = n)) as [->|]; simpl; [|auto].
        specialize (Hc n Hlt). lia.
      * assert (forall k, (k < length (f_ic s))%nat -> 0 < i_ref (f_ic s !!! k) ->
          dev = i_dev (f_ic s !!! k) -> inum = i_inum (f_ic s !!! k) -> False) as Hno.
        { intros k Hkl Hp Hd Hi. rewrite Forall_lookup in Hf.
          apply (Hf k _ (list_lookup_lookup_total_lt _ _ Hkl)); auto. }
        intros j k Hj Hkl. rewrite !Hk.
        destruct (decide (j = n)) as [->|], (decide (k = n)) as [->|]; simpl; auto; intros.
        -- exfalso; by apply (Hno k).
        -- exfalso; by apply (Hno j).
      * intros k Hkl. rewrite Hk. by destruct (decide (k = n)); simpl; auto.
    + intros j Hj. left. rewrite Hk, decide_False; [done|]. by intros ->.
Qed.

Lemma iget_cwd dev inum (s : fsys W) k s' : iget dev inum s = Ok (k, s') -> f_cwd s' = f_cwd s.
Proof.
  unfold iget, bind at 1, gets. destruct (iget_scan _ _ _ _ _) as [[j|] [e|]]; [| | |done].
  1, 2: by intros ([] & s1 & [_ ->]%incref_inv & [= <- <-])%bind_Ok_inv.
  by intros [= _ <-].
Qed.

(** One pointer to entry [i] less. *)
Lemma refs_decr (s : fsys W) R1 R2 i : refs_ok s (R1 ++ i :: R2) ->
  refs_ok (put_ic (<[i := set_ref (i_ref (f_ic s !!! i) - 1) (f_ic s !!! i)]> (f_ic s)) s) (R1 ++ R2).
Proof.
  intros [Hr Hc Hu Hx]. assert (i < length (f_ic s))%nat as Hi by (apply Hr; set_solver).
  set (g := fun ip => set_ref (i_ref ip - 1) ip).
  pose proof (fun k => updip_lookup i g s k Hi) as Hk. unfold g in Hk.
  assert (forall k, count_occ Nat.eq_dec (R1 ++ i :: R2) k =
    ((if decide (k = i) then 1 else 0) + count_occ Nat.eq_dec (R1 ++ R2) k)%nat) as Hco.
  { intros k. rewrite !count_occ_app, count_occ_decide. lia. }
  constructor; cbn [f_ic put_ic] in *; rewrite ?length_insert.
  - intros k Hin. apply Hr; set_solver.
  - intros k Hlt. rewrite Hk. specialize (Hc k Hlt). rewrite Hco in Hc.
    destruct (decide (k = i)) as [->|]; simpl; lia.
  - intros j k Hj Hlt. rewrite !Hk.
    destruct (decide (j = i)) as [->|], (decide (k = i)) as [->|]; simpl; auto; intros; apply Hu; auto; lia.
  - intros k Hlt. rewrite Hk. destruct (decide (k = i)); simpl; [specialize (Hx i Hi); lia|auto].
Qed.

Lemma iput_refs (s : fsys W) i s' R1 R2 : refs_ok s (R1 ++ i :: R2) -> iput i s = Ok (tt, s') ->
  refs_ok s' (R1 ++ R2) /\ f_cwd s' = f_cwd s.
Proof.
  intros Hok E. unfold iput in E.
  apply bind_Ok_inv in E as (? & s1 & E1%keeps_acquire_ilock & E).
  apply bind_Ok_inv in E as (ip & s2 & E2%keeps_gets & E).
  apply bind_Ok_inv in E as (? & s3 & E3 & E).
  assert (keeps (W := W) (do! itrunc i in do! updd i (set_type 0) in do! iupdate i in updip i (set_valid false)))
    as Hk by auto 20 using keeps_itrunc, keeps_iupdate with keeps.
  apply (keeps_when _ _ Hk) in E3.
  apply bind_Ok_inv in E as (? & s4 & E4 & E).
  apply (keeps_updip i (fun ip => set_ilock (releasesleep (i_lock ip)) ip) (fun ip => eq_refl)) in E4.
  assert (face s4 = face s) as Ef by congruence. injection E as <-.
  split; [by apply refs_decr, (refs_shape _ _ _ Ef)|]. unfold face in Ef; simpl; congruence.
Qed.

Lemma ialloc_refs dev type (s : fsys W) k s' R : refs_ok s R -> ialloc dev type s = Ok (k, s') ->
  refs_ok s' (k :: R) /\ f_cwd s' = f_cwd s.
Proof.
  unfold ialloc. intros Hok E. apply bind_Ok_inv in E as (sb & s0 & E0 & E). injection E0 as _ <-.
  revert Hok E. generalize (Z.to_nat (sb_ninodes sb)), 1. intros fuel; revert s.
  induction fuel as [|fuel IH]; intros s inum Hok E; cbn [ialloc_loop] in E; [done|].
  apply bind_Ok_inv in E as (sb' & s0 & E0 & E). injection E0 as _ <-.
  destruct (inum <? sb_ninodes sb'); [|done].
  apply bind_Ok_inv in E as (bp & s1 & E1%keeps_io & E). apply bind_Ok_inv in E as (d & s2 & E2%keeps_io & E).
  destruct (_ =? 0).
  - apply bind_Ok_inv in E as (? & s3 & E3%keeps_io & E). apply bind_Ok_inv in E as (? & s4 & E4%keeps_io & E).
    apply bind_Ok_inv in E as (? & s5 & E5%keeps_io & E).
    assert (face s5 = face s) as Ef by congruence.
    split; [eapply iget_refs; [by eapply refs_shape|exact E]|].
    rewrite (iget_cwd _ _ _ _ _ E). unfold face in Ef; congruence.
  - apply bind_Ok_inv in E as (? & s3 & E3%keeps_io & E).
    assert (face s3 = face s) as Ef by congruence.
    replace (f_cwd s) with (f_cwd s3) by (unfold face in Ef; congruence).
    eapply IH; [by eapply refs_shape|exact E].
Qed.

Lemma ref_step_ok c c' : refs_ok c.1 c.2 -> ref_step c c' -> refs_ok c'.1 c'.2.
Proof.
  intros Hok Hs; destruct Hs; cbn [fst snd] in *.
  - by eapply iget_refs.
  - by eapply (ialloc_refs _ _ s).
  - match goal with H : idup _ _ = _ |- _ => apply bind_Ok_inv in H as ([] & s1 & [Hm ->]%incref_inv & [= <- <-]) end.
    pose proof (rf_range _ _ Hok _ ltac:(eassumption)) as Hi. apply refs_incr; [done|done|]. split; [|done].
    rewrite (rf_count _ _ Hok) by done.
    match goal with H : i ∈ R |- _ => apply list_elem_of_In, (count_occ_In Nat.eq_dec) in H end. lia.
  - by eapply (iput_refs s).
  - eapply refs_shape; [|exact Hok]. by eapply keeps_ilock.
  - eapply refs_shape; [|exact Hok]. by eapply keeps_iunlock.
  - eapply refs_shape; [|exact Hok]. by eapply keeps_iupdate.
  - eapply refs_shape; [|exact Hok]. by eapply keeps_bmap.
Qed.

(** C38. The inode cache counts its references and never has two entries for one
    inode.  After any sequence of [iget], [ialloc], [idup], [iput] (of a held
    pointer, also when it frees the inode), [ilock], [iunlock], [iupdate] and
    [bmap] from an empty cache: the [ref] of every entry is the number of
    pointers to it and an [int] (a step that would count beyond the largest one has
    no defined result, and no sequence goes on from it); a pointer that is held is never recycled: [iget] of the inode
    of a held entry returns that same entry, and [iget] of any inode leaves every
    other held entry as it was. *)
Theorem icache_refcounts s0 s R :
  Forall (fun ip => i_ref ip = 0) (f_ic s0) -> rtc ref_step (s0, []) (s, R) ->
  (forall k, (k < length (f_ic s))%nat ->
     i_ref (f_ic s !!! k) = Z.of_nat (count_occ Nat.eq_dec R k) /\ i_ref (f_ic s !!! k) <= INT_MAX) /\
  (forall j dev inum k s', j ∈ R -> iget dev inum s = Ok (k, s') ->
     if decide (i_dev (f_ic s !!! j) = dev /\ i_inum (f_ic s !!! j) = inum) then k = j
     else f_ic s' !!! j = f_ic s !!! j).
Proof.
  intros H0 Hr. assert (refs_ok s R) as Hok.
  { change (refs_ok (s, R).1 (s, R).2). revert Hr. generalize (s, R); intros c Hr.
    assert (refs_ok (s0, @nil nat).1 (s0, @nil nat).2) as Hok0.
    { constructor; simpl.
      - by intros k Hk%not_elem_of_nil.
      - intros k Hk. rewrite Forall_lookup in H0. apply (H0 k), list_lookup_lookup_total_lt, Hk.
      - intros j k Hj _ Hp. rewrite Forall_lookup in H0.
        rewrite (H0 j _ (list_lookup_lookup_total_lt _ _ Hj)) in Hp. lia.
      - intros k Hk. rewrite Forall_lookup in H0. by rewrite (H0 k _ (list_lookup_lookup_total_lt _ _ Hk)). }
    revert Hok0; induction Hr; eauto using ref_step_ok. }
  split; [intros k Hk; split; [by apply Hok|by apply (rf_max _ _ Hok)]|]. intros j dev inum k s' Hj E.
  destruct (iget_refs _ _ _ _ _ _ Hok E) as (Hok' & Hd & Hi & Hsame).
  pose proof (rf_range _ _ Hok j Hj) as Hlt.
  destruct (decide _) as [[Ed Ei]|Hne].
  - destruct (Hsame j Hj) as [Es|[-> _]]; [|done].
    apply (rf_unique _ _ Hok'); try (rewrite ?Es; congruence).
    + apply (rf_range _ _ Hok'); set_solver.
    + apply (rf_range _ _ Hok'); set_solver.
    + rewrite (rf_count _ _ Hok') by (apply (rf_range _ _ Hok'); set_solver).
      rewrite count_occ_cons_eq by done. lia.
    + rewrite Es, (rf_count _ _ Hok) by done.
      apply list_elem_of_In, (count_occ_In Nat.eq_dec) in Hj. lia.
  - destruct (Hsame j Hj) as [->|(_ & ? & ?)]; [done|]. tauto.
Qed.
End Steps.

(** ** Witness: one [iget] on an empty cache *)

Definition fs_empty : fsys lstate :=
  mkfsys (boot 1 ∅) (mksb 0 0 0 0 0 0 0) (replicate 50 (mkinode 0 0 0 initsleeplock false dinode0)) 1 0.
Definition fs_one : fsys lstate :=
  put_ic (<[0%nat := mkinode 1 5 1 initsleeplock false dinode0]> (f_ic fs_empty)) fs_empty.

Lemma icache_refcounts_witness :
  (forall k, (k < length (f_ic fs_one))%nat ->
     i_ref (f_ic fs_one !!! k) = Z.of_nat (count_occ Nat.eq_dec [0%nat] k) /\ i_ref (f_ic fs_one !!! k) <= INT_MAX) /\
  (forall j dev inum k s', j ∈ [0%nat] -> iget dev inum fs_one = Ok (k, s') ->
     if decide (i_dev (f_ic fs_one !!! j) = dev /\ i_inum (f_ic fs_one !!! j) = inum) then k = j
     else f_ic s' !!! j = f_ic fs_one !!! j).
Proof.
  apply (icache_refcounts fs_empty fs_one [0%nat]).
  - apply Forall_replicate. reflexivity.
  - apply rtc_once, (step_iget _ 1 5). reflexivity.
Defined.
