(* ===== verification/FsName.v ===== *)
(** Path names of fs.c: [skipelem] enumerates the elements of a path. *)

From S2P Require Import Prelude Bio Log Crash Block Strings Fs.
Local Open Scope Z_scope.

(** * The elements of a path, from its text *)

Definition slash : Z := 47.

(** Split at slashes, without empty elements; [cur] is the element being read,
    reversed. *)
Fixpoint split_path (cur p : bytes) : list bytes :=
  match p with
  | [] => if bool_decide (cur = []) then [] else [rev cur]
  | c :: p' =>
      if c =? slash
      then if bool_decide (cur = []) then split_path [] p' else rev cur :: split_path [] p'
      else split_path (c :: cur) p'
  end.

Definition path_elems (p : bytes) : list bytes := split_path [] p.

(** Repeated calls of [skipelem], as in [namex]: the names it stores. *)
Fixpoint walk (fuel : nat) (path name : bytes) : outcome (list bytes) :=
  match fuel with
  | O => UB
  | S fuel' =>
      let? r := skipelem path name in
      match r with
      | None => Ok []
      | Some (path, name) =>
          let? rest := walk fuel' path name in Ok (name_of (Z.to_nat DIRSIZ) name :: rest)
      end
  end.

(** * Correctness *)

Definition no_nul (p : bytes) : Prop := Forall (fun c => c <> 0) p.

Fixpoint strip (p : bytes) : bytes :=
  match p with
  | c :: p' => if c =? slash then strip p' else p
  | [] => []
  end.

Lemma skip_slashes_spec p j : no_nul p -> skip_slashes (p ++ 0 :: j) = Ok (strip p ++ 0 :: j).
Proof.
  induction 1 as [|c p Hc Hp IH]; simpl; [done|]. unfold slash. destruct (c =? 47); done.
Qed.

Lemma strip_no_nul p : no_nul p -> no_nul (strip p).
Proof. induction 1 as [|c p Hc Hp IH]; simpl; [constructor|]. destruct (c =? slash); [done|by constructor]. Qed.

Lemma strip_length p : (length (strip p) <= length p)%nat.
Proof. induction p as [|c p IH]; simpl; [lia|]. destruct (c =? slash); simpl; lia. Qed.

Lemma split_strip p : split_path [] (strip p) = split_path [] p.
Proof. induction p as [|c p IH]; simpl; [done|]. destruct (c =? slash) eqn:E; [done|]. simpl; by rewrite E. Qed.

Lemma strip_strip p : strip (strip p) = strip p.
Proof. induction p as [|c p IH]; simpl; [done|]. destruct (c =? slash) eqn:E; [done|]. simpl; by rewrite E. Qed.

Lemma strip_suffix p : exists q, p = q ++ strip p.
Proof.
  induction p as [|c p [q IH]]; simpl; [by exists []|]. destruct (c =? slash); [|by exists []].
  exists (c :: q). simpl. by rewrite <- IH.
Qed.

Lemma strip_head p c q : strip p = c :: q -> c <> slash.
Proof.
  induction p as [|x p IH]; simpl; [done|]. destruct (x =? slash) eqn:E; [done|].
  intros [= -> _]. by apply Z.eqb_neq in E.
Qed.

(** The first element and what follows it. *)
Fixpoint first_elem (p : bytes) : bytes * bytes :=
  match p with
  | [] => ([], [])
  | c :: p' => if c =? slash then ([], p) else let r := first_elem p' in (c :: r.1, r.2)
  end.

Lemma take_elem_spec p j : no_nul p ->
  take_elem (p ++ 0 :: j) = Ok ((first_elem p).1, (first_elem p).2 ++ 0 :: j).
Proof.
  induction 1 as [|c p Hc Hp IH]; simpl; [done|]. unfold slash in *.
  replace (c =? 0) with false by (symmetry; by apply Z.eqb_neq). rewrite orb_false_r.
  destruct (c =? 47); [done|]. rewrite IH. done.
Qed.

Lemma first_elem_app p : (first_elem p).1 ++ (first_elem p).2 = p.
Proof. induction p as [|c p IH]; simpl; [done|]. destruct (c =? slash); [done|]. simpl; by rewrite IH. Qed.

Lemma split_first cur p : cur <> [] \/ (first_elem p).1 <> [] ->
  split_path cur p = (rev cur ++ (first_elem p).1) :: split_path [] (first_elem p).2.
Proof.
  revert cur; induction p as [|c p IH]; intros cur Hne; simpl.
  - rewrite bool_decide_false by (destruct Hne; done). by rewrite app_nil_r.
  - destruct (c =? slash) eqn:E; simpl.
    + rewrite bool_decide_false by (by destruct Hne as [|Hne]; [|simpl in Hne; rewrite E in Hne]).
      rewrite E, app_nil_r. done.
    + rewrite IH by (by left). simpl. by rewrite <- app_assoc.
Qed.

Lemma name_of_short n e l : no_nul e -> (length e < n)%nat -> name_of n (e ++ 0 :: l) = e.
Proof.
  intros He; revert n; induction He as [|c e Hc He IH]; intros [|n] Hn; simpl in *; try lia; [done|].
  replace (c =? 0) with false by (symmetry; by apply Z.eqb_neq). rewrite IH by lia. done.
Qed.

Lemma name_of_long n e l : no_nul e -> length e = n -> name_of n (e ++ l) = e.
Proof.
  intros He; revert n; induction He as [|c e Hc He IH]; intros [|n] Hn; simpl in *; try lia.
  - by destruct l.
  - replace (c =? 0) with false by (symmetry; by apply Z.eqb_neq). rewrite IH by lia. done.
Qed.

Lemma name_of_cut n e l : no_nul e -> name_of n (e ++ 0 :: l) = take n e.
Proof.
  intros He. destruct (decide (length e < n)%nat) as [Hs|Hs]; [rewrite name_of_short by done; by rewrite take_ge by lia|].
  rewrite <- (take_drop n e) at 1. rewrite <- app_assoc. apply name_of_long; [by apply Forall_take|]. rewrite length_take. lia.
Qed.

(** One call, on a path [p] that is terminated by a NUL. *)
Lemma skipelem_spec p j name : no_nul p -> length name = 14%nat ->
  match path_elems p with
  | [] => skipelem (p ++ 0 :: j) name = Ok None
  | e :: es => exists p' name', skipelem (p ++ 0 :: j) name = Ok (Some (p' ++ 0 :: j, name')) /\
      no_nul p' /\ path_elems p' = es /\ (length p' < length p)%nat /\
      length name' = 14%nat /\ name_of 14 name' = take 14 e /\ strip p' = p' /\
      forall Q, Forall Q p -> Forall Q name -> Q 0 -> Forall Q p' /\ Forall Q name'
  end.
Proof.
  intros Hp Hn. unfold skipelem, path_elems. rewrite skip_slashes_spec by done. cbn [obind].
  pose proof (strip_no_nul p Hp) as Hs. pose proof (strip_length p) as Hsl. rewrite <- split_strip.
  destruct (strip p) as [|c q] eqn:E; [done|].
  pose proof (strip_head p c q E) as Hc. inversion Hs as [|? ? Hc0 Hq]; subst.
  replace (getb ((c :: q) ++ 0 :: j) 0 =? 0) with false by (symmetry; apply Z.eqb_neq; done).
  rewrite take_elem_spec by done. cbn [obind fst snd].
  assert ((first_elem (c :: q)).1 <> []) as Hne.
  { simpl. unfold slash in *. by rewrite (proj2 (Z.eqb_neq c 47) Hc). }
  rewrite (split_first [] (c :: q)) by (by right). set (e := (first_elem (c :: q)).1) in *.
  set (r := (first_elem (c :: q)).2). pose proof (first_elem_app (c :: q)) as Happ. fold e r in Happ.
  assert (no_nul e /\ no_nul r) as [He Hr] by (apply Forall_app; unfold no_nul in *; by rewrite Happ).
  rewrite skip_slashes_spec by done. cbn [obind]. eexists (strip r), _. split; [reflexivity|].
  apply (f_equal length) in Happ. rewrite length_app in Happ. pose proof (strip_length r).
  assert (0 < length e)%nat by (destruct e; [done|simpl; lia]).
  split_and!; [by apply strip_no_nul|apply split_strip|lia| | |apply strip_strip|].
  - rewrite <- Hn at 1. destruct (_ >=? DIRSIZ) eqn:El; apply length_splice.
    + rewrite length_take; unfold DIRSIZ in *; lia.
    + rewrite length_app; simpl. unfold DIRSIZ in *. lia.
  - change (rev [] ++ e) with e. unfold splice. rewrite take_0, app_nil_l.
    destruct (_ >=? DIRSIZ) eqn:El; unfold DIRSIZ in *.
    + apply name_of_long; [by apply Forall_take|rewrite length_take; lia].
    + rewrite (take_ge e) by lia. rewrite <- app_assoc. apply name_of_short; [done|lia].
  - intros Q Qp Qn Q0. destruct (strip_suffix p) as [u Eu]. destruct (strip_suffix r) as [v Ev].
    rewrite Eu, E, <- (first_elem_app (c :: q)) in Qp. fold e r in Qp. rewrite !Forall_app in Qp. destruct Qp as (_ & Qe & Qr).
    rewrite Ev in Qr. apply Forall_app in Qr as [_ Qr]. split; [done|].
    destruct (_ >=? DIRSIZ); apply Forall_splice; try done; [by apply Forall_take|]. apply Forall_app_2; [done|by constructor].
Qed.

(** Path traversal sees exactly the elements of the path.  For every
    NUL-terminated path, [skipelem] called again and again as [namex] does stores
    the elements of the path between slashes, in order, without empty ones, each
    cut to DIRSIZ characters, and then reports the end; it never reads past the
    terminator. *)
Theorem skipelem_walks p j name : no_nul p -> length name = Z.to_nat DIRSIZ ->
  walk (S (length p)) (p ++ 0 :: j) name = Ok (take (Z.to_nat DIRSIZ) <$> path_elems p).
Proof.
  intros Hp Hn. assert (forall fuel, (length p < fuel)%nat ->
    walk fuel (p ++ 0 :: j) name = Ok (take (Z.to_nat DIRSIZ) <$> path_elems p)) as H; [|apply H; lia].
  intros fuel. revert p name Hp Hn; induction fuel as [|fuel IH]; intros p name Hp Hn Hf; [lia|].
  cbn [walk]. pose proof (skipelem_spec p j name Hp Hn) as Hs.
  destruct (path_elems p) as [|e es]; [by rewrite Hs|].
  destruct Hs as (p' & name' & -> & Hp' & <- & Hl & Hn' & He & _). cbn [obind].
  rewrite IH by (done || lia). cbn [obind]. rewrite fmap_cons. change (Z.to_nat DIRSIZ) with 14%nat.
  by rewrite <- He.
Qed.

(** The examples in the comment above [skipelem]: "///a//bb". *)
Lemma skipelem_walks_witness :
  walk 9 ([47; 47; 47; 97; 47; 47; 98; 98] ++ [0]) (replicate 14 0) = Ok [[97]; [98; 98]].
Proof.
  apply (skipelem_walks [47; 47; 47; 97; 47; 47; 98; 98] [] (replicate 14 0)); [|reflexivity].
  repeat constructor; discriminate.
Defined.
