(* ===== verification/FsBlocks.v ===== *)
(** The blocks of a file as the disk holds them (struct dinode of fs.h): the block map of an
    inode, the contents as a list of bytes, and what adding blocks and storing bytes does to
    them.  Both the file system of the kernel and the image builder store files this way. *)

From S2P Require Import Prelude Bio Log Crash Block Strings Fs FsAlloc FsInode.
Local Open Scope Z_scope.

(** * Counting *)

(** The blocks that the bit map shows free. *)
Definition nfree (f : Z -> bytes) (sb : superblock) : nat :=
  length (filter (fun k => marked f sb (Z.of_nat k) = false) (seq 0 (Z.to_nat (sb_size sb)))).

Lemma filter_same (P Q : nat -> Prop) `{!forall k, Decision (P k)} `{!forall k, Decision (Q k)} (l : list nat) :
  (forall k, k ∈ l -> P k <-> Q k) -> filter P l = filter Q l.
Proof.
  induction l as [|k l IH]; intros Heq; [done|]. destruct (Heq k ltac:(by left)) as [H1 H2].
  specialize (IH ltac:(intros j Hj; apply Heq; by right)). destruct (decide (P k)) as [Hp|Hp].
  - rewrite !filter_cons_True by tauto. by rewrite IH.
  - rewrite !filter_cons_False by tauto. done.
Qed.

Lemma filter_minus_one (P Q : nat -> Prop) `{!forall k, Decision (P k)} `{!forall k, Decision (Q k)} b (l : list nat) :
  NoDup l -> b ∈ l -> P b -> ~ Q b -> (forall k, k ∈ l -> k <> b -> P k <-> Q k) ->
  length (filter P l) = S (length (filter Q l)).
Proof.
  intros Hn Hb HP HQ. induction Hn as [|k l Hk Hn IH]; [by apply elem_of_nil in Hb|]. intros Heq.
  apply elem_of_cons in Hb as [<-|Hb].
  - rewrite filter_cons_True, filter_cons_False by done. cbn. f_equal. f_equal.
    apply filter_same. intros j Hj. apply Heq; [by right|]. by intros ->.
  - assert (Hne : k <> b) by (by intros ->). specialize (IH Hb ltac:(intros j Hj; apply Heq; by right)).
    destruct (Heq k ltac:(by left) Hne) as [H1 H2]. destruct (decide (P k)) as [Hp|Hp].
    + rewrite !filter_cons_True by tauto. cbn. by rewrite IH.
    + rewrite !filter_cons_False by tauto. done.
Qed.

Lemma nfree_marks f f' sb : (forall y, marked f' sb y = marked f sb y) -> nfree f' sb = nfree f sb.
Proof. intros E. unfold nfree. f_equal. apply filter_same. intros k _. by rewrite E. Qed.

(** * The block map of an inode *)

(** The indirect block, and the disk block of block [n] of the file; 0 is none. *)
Definition ind (d : dinode) : Z := d_addrs d !!! 11%nat.
Definition faddr (f : Z -> bytes) (d : dinode) (n : Z) : Z :=
  if n <? NDIRECT then d_addrs d !!! Z.to_nat n
  else if ind d =? 0 then 0 else ld 4 (f (ind d)) (Z.to_nat (4 * (n - NDIRECT))).

Definition slot (n : Z) : Prop := 0 <= n < MAXFILE.

Definition uses (f : Z -> bytes) (d : dinode) (b : Z) : Prop :=
  b <> 0 /\ (b = ind d \/ exists n, slot n /\ b = faddr f d n).

(** Byte [k] of the file, and its contents. *)
Definition byte_of (f : Z -> bytes) (d : dinode) (k : Z) : Z :=
  f (faddr f d (k / BSIZE)) !!! Z.to_nat (k mod BSIZE).
Definition contents (f : Z -> bytes) (d : dinode) : bytes :=
  (fun k => byte_of f d (Z.of_nat k)) <$> seq 0 (Z.to_nat (d_size d)).

(** Every block of a file is a data block of its own, marked in use, and there is
    one for each byte below the size. *)
Record file_ok (f : Z -> bytes) (sb : superblock) (d : dinode) : Prop := {
  fo_addrs : length (d_addrs d) = 12%nat;
  fo_size : 0 <= d_size d <= MAXFILE * BSIZE;
  fo_used : forall b, uses f d b -> sb_bmapstart sb < b < sb_size sb /\ marked f sb b = true;
  fo_inj : forall m n, slot m -> slot n -> faddr f d m = faddr f d n -> faddr f d m <> 0 -> m = n;
  fo_ind : forall n, slot n -> faddr f d n <> 0 -> faddr f d n <> ind d;
  fo_full : forall n, 0 <= n -> n * BSIZE < d_size d -> faddr f d n <> 0
}.

Lemma slot_below sb f d n : file_ok f sb d -> 0 <= n -> n * BSIZE < d_size d -> slot n.
Proof. intros F Hn Hs. pose proof (fo_size _ _ _ F). unfold slot, BSIZE in *. lia. Qed.

(** What one operation on a file does to the disk and the inode: [ext sb lo hi f d
    f' d'] if it adds blocks that were free, changes only bytes from [lo] to [hi]
    of the file, and leaves blocks in use that are not the file's alone. *)
Record ext (sb : superblock) (lo hi : Z) (f : Z -> bytes) (d : dinode) (f' : Z -> bytes) (d' : dinode) : Prop := {
  ex_ok : file_ok f' sb d';
  ex_meta : d' = mkdinode (d_type d) (d_major d) (d_minor d) (d_nlink d) (d_mode d) (d_size d) (d_addrs d');
  ex_addr : forall n, slot n -> faddr f d n <> 0 -> faddr f' d' n = faddr f d n;
  ex_new : forall n, slot n -> faddr f' d' n <> faddr f d n -> marked f sb (faddr f' d' n) = false;
  ex_ind : ind d' = ind d \/ ind d = 0 /\ marked f sb (ind d') = false;
  ex_marks : forall y, 0 <= y -> marked f sb y = true -> marked f' sb y = true;
  ex_kept : forall y, 0 <= y -> marked f sb y = true -> y <> sb_bmapstart sb -> ~ uses f d y -> f' y = f y;
  ex_bytes : forall k, 0 <= k -> slot (k / BSIZE) -> faddr f d (k / BSIZE) <> 0 -> ~ lo <= k < hi ->
    byte_of f' d' k = byte_of f d k
}.

Lemma ext_refl sb lo hi f d : file_ok f sb d -> ext sb lo hi f d f d.
Proof. intros F. constructor; try done; [by destruct d|by left]. Qed.

Lemma ext_weaken sb lo hi lo' hi' f d f' d' : ext sb lo hi f d f' d' ->
  (forall k, lo <= k < hi -> lo' <= k < hi') -> ext sb lo' hi' f d f' d'.
Proof. intros [] Hr. constructor; try done. intros k Hk Hs Ha Hn. apply ex_bytes0; try done. by intros ?%Hr. Qed.

Lemma uses_range sb f d b : file_ok f sb d -> 0 <= sb_bmapstart sb -> uses f d b -> 0 <= b.
Proof. intros F Hs Hu. apply (fo_used _ _ _ F) in Hu. lia. Qed.

Lemma faddr_nonneg sb f d n : file_ok f sb d -> 0 <= sb_bmapstart sb -> slot n -> 0 <= faddr f d n.
Proof.
  intros F Hs Hn. destruct (decide (faddr f d n = 0)) as [->|Hne]; [done|].
  apply (uses_range sb f d); [done|done|]. split; [done|]. right. by exists n.
Qed.

Lemma ext_uses sb lo hi f d f' d' y : ext sb lo hi f d f' d' -> marked f sb y = true -> uses f' d' y -> uses f d y.
Proof.
  intros E Hm [Hne Hu]. split; [done|]. destruct Hu as [->|(n & Hn & ->)].
  - destruct (ex_ind _ _ _ _ _ _ _ E) as [->|[_ Hf]]; [by left|congruence].
  - right. exists n. split; [done|]. destruct (decide (faddr f' d' n = faddr f d n)) as [|Hd]; [done|].
    pose proof (ex_new _ _ _ _ _ _ _ E n Hn Hd). congruence.
Qed.

Lemma ext_trans sb lo hi f d f1 d1 f2 d2 : 0 <= sb_bmapstart sb ->
  ext sb lo hi f d f1 d1 -> ext sb lo hi f1 d1 f2 d2 -> ext sb lo hi f d f2 d2.
Proof.
  intros Hs A B. pose proof (ex_marks _ _ _ _ _ _ _ A) as Hm. pose proof (ex_ok _ _ _ _ _ _ _ B) as F2.
  assert (Hun : forall y, 0 <= y -> marked f1 sb y = false -> marked f sb y = false).
  { intros y Hy H1. destruct (marked f sb y) eqn:E; [|done]. rewrite Hm in H1 by done. done. }
  constructor.
  - done.
  - rewrite (ex_meta _ _ _ _ _ _ _ B) at 1. by rewrite (ex_meta _ _ _ _ _ _ _ A).
  - intros n Hn Ha. pose proof (ex_addr _ _ _ _ _ _ _ A n Hn Ha) as E1.
    by rewrite (ex_addr _ _ _ _ _ _ _ B n Hn) by by rewrite E1.
  - intros n Hn Hd. destruct (decide (faddr f2 d2 n = faddr f1 d1 n)) as [E|E].
    + rewrite E in *. by apply (ex_new _ _ _ _ _ _ _ A).
    + apply Hun; [by eapply faddr_nonneg|]. by apply (ex_new _ _ _ _ _ _ _ B).
  - destruct (ex_ind _ _ _ _ _ _ _ A) as [E1|[E1 M1]], (ex_ind _ _ _ _ _ _ _ B) as [E2|[E2 M2]].
    + left. congruence.
    + right. split; [congruence|]. apply Hun; [|done]. destruct (decide (ind d2 = 0)) as [->|Hne]; [done|].
      apply (uses_range sb f2 d2); [done|done|]. split; [done|by left].
    + right. by rewrite E2.
    + right. split; [done|]. apply Hun; [|done]. destruct (decide (ind d2 = 0)) as [->|Hne]; [done|].
      apply (uses_range sb f2 d2); [done|done|]. split; [done|by left].
  - intros y Hy Hm1. apply (ex_marks _ _ _ _ _ _ _ B); [done|]. by apply Hm.
  - intros y Hy Hmy Hb Hu. rewrite (ex_kept _ _ _ _ _ _ _ B y Hy); [|by apply Hm|done|].
    + by apply (ex_kept _ _ _ _ _ _ _ A).
    + contradict Hu. by eapply ext_uses.
  - intros k Hk Hn Ha Hr. pose proof (ex_addr _ _ _ _ _ _ _ A _ Hn Ha) as E1.
    rewrite (ex_bytes _ _ _ _ _ _ _ B k Hk Hn); [|by rewrite E1|done]. by apply (ex_bytes _ _ _ _ _ _ _ A).
Qed.

(** * Adding blocks *)

(** Adding block [b] as block [n] of the file. *)
Lemma file_add sb f d f' d' n b : file_ok f sb d -> 0 <= sb_bmapstart sb ->
  (forall y, 0 <= y -> marked f sb y = true -> marked f' sb y = true) ->
  length (d_addrs d') = 12%nat -> d_size d' = d_size d -> slot n -> faddr f d n = 0 ->
  (forall m, slot m -> faddr f' d' m = if decide (m = n) then b else faddr f d m) ->
  ind d' = ind d -> ~ uses f d b -> sb_bmapstart sb < b < sb_size sb -> marked f' sb b = true ->
  file_ok f' sb d'.
Proof.
  intros F Hs Hm Hl Hsz Hn H0 Ha Hi Hu Hb Hmb.
  assert (Hslot : forall k, slot k -> faddr f d k <> 0 -> uses f d (faddr f d k)) by (intros k Hk ?; split; [done|right; by exists k]).
  constructor.
  - done.
  - rewrite Hsz. by apply (fo_size _ _ _ F).
  - intros y [Hne [->|(m & Hk & ->)]].
    + rewrite Hi in *. destruct (fo_used _ _ _ F (ind d)) as [Hr Hmk]; [split; [done|by left]|].
      split; [done|]. apply Hm; [lia|done].
    + rewrite Ha in * by done. destruct (decide (m = n)); [done|]. destruct (fo_used _ _ _ F _ (Hslot m Hk Hne)).
      split; [done|]. apply Hm; [lia|done].
  - intros m k Hsm Hsk. rewrite !Ha by done. destruct (decide (m = n)) as [->|], (decide (k = n)) as [->|]; intros E Hne.
    + done.
    + contradict Hu. rewrite E. apply Hslot; congruence.
    + contradict Hu. rewrite <- E. by apply Hslot.
    + by apply (fo_inj _ _ _ F).
  - intros m Hk. rewrite Ha, Hi by done. destruct (decide (m = n)); [|by apply (fo_ind _ _ _ F)].
    intros Hne E. apply Hu. split; [done|by left].
  - intros m Hk Hms. rewrite Hsz in Hms. rewrite Ha by by eapply slot_below. destruct (decide (m = n)); [lia|].
    by apply (fo_full _ _ _ F).
Qed.

(** The disk after [balloc] gave block [b]. *)
Record fresh (f : Z -> bytes) (sb : superblock) (b : Z) (f' : Z -> bytes) : Prop := {
  fr_range : sb_bmapstart sb < b < sb_size sb;
  fr_free : marked f sb b = false;
  fr_zero : f' b = zero_block;
  fr_marks : forall y, 0 <= y -> marked f' sb y = bool_decide (y = b) || marked f sb y;
  fr_kept : forall y, y <> b -> y <> sb_bmapstart sb -> f' y = f y;
  fr_nfree : nfree f sb = S (nfree f' sb)
}.

Lemma fresh_marks f sb b f' y : fresh f sb b f' -> 0 <= y -> marked f sb y = true -> marked f' sb y = true.
Proof. intros Hf Hy E. rewrite (fr_marks _ _ _ _ Hf), E by done. apply orb_true_r. Qed.

Lemma fresh_marked f sb b f' : fresh f sb b f' -> 0 <= b -> marked f' sb b = true.
Proof. intros Hf Hb. rewrite (fr_marks _ _ _ _ Hf) by done. by rewrite bool_decide_true. Qed.

Lemma fresh_unused f sb b f' d : fresh f sb b f' -> file_ok f sb d -> ~ uses f d b.
Proof. intros Hf F [_ Hm]%(fo_used _ _ _ F). pose proof (fr_free _ _ _ _ Hf). congruence. Qed.

(** A file is not affected by changes of the disk outside its indirect block. *)
Lemma file_same sb f d f' : file_ok f sb d -> 0 <= sb_bmapstart sb ->
  (forall y, 0 <= y -> marked f sb y = true -> marked f' sb y = true) ->
  (ind d <> 0 -> f' (ind d) = f (ind d)) ->
  file_ok f' sb d /\ forall n, faddr f' d n = faddr f d n.
Proof.
  intros F Hs Hm Hi. assert (E : forall n, faddr f' d n = faddr f d n).
  { intros n. unfold faddr. destruct (n <? NDIRECT); [done|]. destruct (ind d =? 0) eqn:E0; [done|].
    rewrite Hi; [done|lia]. }
  split; [|done]. destruct F as [Ha Hz Hu Hj Hd Hf]. constructor; try done.
  - intros b [Hne Hb]. destruct (Hu b) as [Hr Hmk].
    + split; [done|]. destruct Hb as [->|(n & Hn & ->)]; [by left|right; exists n; by rewrite E].
    + split; [done|]. apply Hm; [lia|done].
  - intros m n. rewrite !E. apply Hj.
  - intros n. rewrite E. apply Hd.
  - intros n. rewrite E. apply Hf.
Qed.

Lemma fresh_file f sb b f' d : fresh f sb b f' -> file_ok f sb d -> 0 <= sb_bmapstart sb ->
  file_ok f' sb d /\ forall n, faddr f' d n = faddr f d n.
Proof.
  intros Hf F Hs. apply (file_same sb f d f' F Hs); [intros y; by apply (fresh_marks _ _ b)|].
  intros Hi. assert (Hu : uses f d (ind d)) by (split; [done|by left]).
  pose proof (fo_used _ _ _ F _ Hu) as [Hr Hm]. apply (fr_kept _ _ _ _ Hf); [|lia].
  intros E. rewrite E in Hm. pose proof (fr_free _ _ _ _ Hf). congruence.
Qed.

(** The contents of a block in use survive. *)
Lemma fresh_used f sb b f' d y : fresh f sb b f' -> file_ok f sb d -> uses f d y -> f' y = f y.
Proof.
  intros Hf F Hu. pose proof (fo_used _ _ _ F _ Hu) as [Hr Hm]. apply (fr_kept _ _ _ _ Hf); [|lia].
  intros E. rewrite E in Hm. pose proof (fr_free _ _ _ _ Hf). congruence.
Qed.

Lemma ind_addr d k v : length (d_addrs d) = 12%nat -> (k < 12)%nat ->
  ind (set_addr k v d) = if decide (k = 11%nat) then v else ind d.
Proof.
  intros Hl Hk. unfold ind, set_addr; cbn [d_addrs]. destruct (decide (k = 11%nat)) as [->|].
  - apply list_lookup_total_insert_eq. lia.
  - by apply list_lookup_total_insert_ne.
Qed.

Lemma faddr_direct f d n k v : length (d_addrs d) = 12%nat -> 0 <= k < NDIRECT -> 0 <= n ->
  faddr f (set_addr (Z.to_nat k) v d) n = if decide (n = k) then v else faddr f d n.
Proof.
  intros Hl Hk Hn. unfold faddr. unfold NDIRECT in *.
  rewrite ind_addr, decide_False by lia. destruct (decide (n = k)) as [->|Hne].
  - replace (k <? 11) with true by lia. cbn [d_addrs set_addr]. apply list_lookup_total_insert_eq. lia.
  - destruct (n <? 11) eqn:E; [|done]. cbn [d_addrs set_addr]. apply list_lookup_total_insert_ne. lia.
Qed.

Section Adding.
  Context (sb : superblock) (f f' : Z -> bytes) (d : dinode) (b : Z).
  Context (Hs : 0 <= sb_bmapstart sb) (F : file_ok f sb d) (Hf : fresh f sb b f').
Let Hr := fr_range _ _ _ _ Hf.

Lemma fresh_bytes d' k : (forall n, slot n -> faddr f d n <> 0 -> faddr f' d' n = faddr f d n) ->
  slot (k / BSIZE) -> faddr f d (k / BSIZE) <> 0 -> byte_of f' d' k = byte_of f d k.
Proof.
  intros Ha Hk Hne. unfold byte_of. rewrite Ha by done. rewrite (fresh_used _ _ _ _ d _ Hf F); [done|].
  split; [done|]. right. by eexists.
Qed.

(** A direct block. *)
Lemma ext_direct n : 0 <= n < NDIRECT -> faddr f d n = 0 ->
  ext sb 0 0 f d f' (set_addr (Z.to_nat n) b d) /\
  forall m, slot m -> faddr f' (set_addr (Z.to_nat n) b d) m = if decide (m = n) then b else faddr f d m.
Proof.
  intros Hn H0. destruct (fresh_file _ _ _ _ d Hf F Hs) as [F' E].
  pose proof (fo_addrs _ _ _ F) as Hl. assert (Hsn : slot n) by (unfold slot, MAXFILE, NDIRECT, NINDIRECT, BSIZE in *; divmod).
  assert (Ea : forall m, slot m -> faddr f' (set_addr (Z.to_nat n) b d) m = if decide (m = n) then b else faddr f d m).
  { intros m [Hm _]. by rewrite faddr_direct, E. }
  split; [|done]. constructor.
  - apply (file_add sb f d f' _ n b); try done.
    + intros y. by apply (fresh_marks _ _ b).
    + cbn [d_addrs set_addr]. by rewrite length_insert.
    + rewrite ind_addr, decide_False by (unfold NDIRECT in *; lia). done.
    + by eapply fresh_unused.
    + eapply fresh_marked; [done|lia].
  - done.
  - intros m Hm Hne. rewrite Ea by done. by rewrite decide_False by congruence.
  - intros m Hm. rewrite Ea by done. destruct (decide (m = n)); [|done]. intros _. by apply Hf.
  - left. rewrite ind_addr, decide_False by (unfold NDIRECT in *; lia). done.
  - intros y. by apply (fresh_marks _ _ b).
  - intros y Hy Hm Hb Hu. apply (fr_kept _ _ _ _ Hf); [|done]. intros ->. pose proof (fr_free _ _ _ _ Hf). congruence.
  - intros k _ Hk Hne _. apply fresh_bytes; [|done|done]. intros m Hm Hme. rewrite Ea by done.
    by rewrite decide_False by congruence.
Qed.

Lemma ld_zero off : (off + 4 <= 512)%nat -> ld 4 zero_block off = 0.
Proof.
  intros Hoff. unfold ld, slice, zero_block. rewrite drop_replicate, take_replicate.
  by rewrite Nat.min_l by (unfold BSIZE; lia).
Qed.

(** The indirect block, still empty. *)
Lemma ext_ind : ind d = 0 ->
  ext sb 0 0 f d f' (set_addr 11 b d) /\ ind (set_addr 11 b d) = b /\
  forall n, slot n -> faddr f' (set_addr 11 b d) n = faddr f d n.
Proof.
  intros H0. destruct (fresh_file _ _ _ _ d Hf F Hs) as [F' E]. pose proof (fo_addrs _ _ _ F) as Hl.
  assert (Ei : ind (set_addr 11 b d) = b) by (rewrite ind_addr by lia; done).
  assert (Ea : forall n, slot n -> faddr f' (set_addr 11 b d) n = faddr f d n).
  { intros n Hn. unfold faddr. rewrite Ei, H0. destruct (n <? NDIRECT) eqn:En.
    - cbn [d_addrs set_addr]. apply list_lookup_total_insert_ne. unfold NDIRECT in *. lia.
    - replace (b =? 0) with false by lia. rewrite (fr_zero _ _ _ _ Hf). apply ld_zero.
      unfold slot, MAXFILE, NINDIRECT, NDIRECT, BSIZE in *. change (512 / 4) with 128 in *. lia. }
  split_and!; [|done|done]. destruct F' as [Hz1 Hz2 Hz3 Hz4 Hz5 Hz6]. constructor.
  - constructor.
    + cbn [d_addrs set_addr]. by rewrite length_insert.
    + done.
    + intros y [Hne [->|(n & Hn & ->)]].
      * rewrite Ei. split; [lia|]. eapply fresh_marked; [done|lia].
      * rewrite Ea, <- E by done. apply Hz3. split; [by rewrite E, <- Ea|]. right. by exists n.
    + intros m n Hm Hn. rewrite !Ea, <- !E by done. by apply Hz4.
    + intros n Hn. rewrite Ea, Ei by done. intros Hne <-. apply (fresh_unused _ _ _ _ d Hf F).
      split; [done|]. right. by exists n.
    + intros n Hn Hsz. rewrite Ea by by eapply slot_below. rewrite <- E. by apply Hz6.
  - done.
  - intros n Hn _. by apply Ea.
  - intros n Hn. by rewrite Ea.
  - right. rewrite Ei. split; [done|]. by apply Hf.
  - intros y. by apply (fresh_marks _ _ b).
  - intros y Hy Hm Hb Hu. apply (fr_kept _ _ _ _ Hf); [|done]. intros ->. pose proof (fr_free _ _ _ _ Hf). congruence.
  - intros k _ Hk Hne _. apply fresh_bytes; [|done|done]. intros m Hm Hme. by apply Ea.
Qed.
End Adding.

(** A block behind the indirect block. *)
Lemma ext_entry sb f f1 d b n : let a := ind d in
  let f' := assign f1 (a, st 4 (f1 a) (Z.to_nat (4 * (n - NDIRECT))) b) in
  0 <= sb_bmapstart sb -> sb_size sb <= FSSIZE -> file_ok f sb d -> fresh f sb b f1 -> a <> 0 -> length (f1 a) = 512%nat ->
  slot n -> NDIRECT <= n -> faddr f d n = 0 ->
  ext sb 0 0 f d f' d /\ forall m, slot m -> faddr f' d m = if decide (m = n) then b else faddr f d m.
Proof.
  intros a f' Hs Hsz F Hf Ha Hlen Hn Hd H0. destruct (fresh_file _ _ _ _ d Hf F Hs) as [F1 E].
  pose proof (fr_range _ _ _ _ Hf) as Hr. assert (Hua : uses f d a) by (split; [done|by left]).
  pose proof (fo_used _ _ _ F a Hua) as [Har _].
  assert (Hmk : forall y, marked f' sb y = marked f1 sb y) by (intros y; apply marked_assign; lia).
  assert (Hfa : forall y, y <> a -> f' y = f1 y) by (intros y Hy; unfold f'; by rewrite assign_eq, decide_False).
  assert (Ea : forall m, slot m -> faddr f' d m = if decide (m = n) then b else faddr f d m).
  { intros m Hm. rewrite <- E. unfold faddr. fold a. unfold slot, MAXFILE, NINDIRECT, NDIRECT, BSIZE in *.
    change (512 / 4) with 128 in *. unfold FSSIZE in *. destruct (m <? 11) eqn:Em; [by rewrite decide_False by lia|].
    replace (a =? 0) with false by lia. replace (f' a) with (st 4 (f1 a) (Z.to_nat (4 * (n - 11))) b)
      by (unfold f'; by rewrite assign_eq, decide_True).
    destruct (decide (m = n)) as [->|Hne].
    - rewrite ld_st_same by lia. apply Z.mod_small. lia.
    - by rewrite ld_st_other by lia. }
  assert (Hmono : forall y, 0 <= y -> marked f sb y = true -> marked f' sb y = true)
    by (intros y Hy Hmy; rewrite Hmk; by apply (fresh_marks f sb b)).
  split; [|done]. constructor.
  - apply (file_add sb f d f' d n b); try done; [apply F|by eapply fresh_unused|].
    rewrite Hmk. eapply fresh_marked; [done|lia].
  - by destruct d.
  - intros m Hm Hne. rewrite Ea by done. by rewrite decide_False by congruence.
  - intros m Hm. rewrite Ea by done. destruct (decide (m = n)); [|done]. intros _. by apply Hf.
  - by left.
  - done.
  - intros y Hy Hm Hb Hu. rewrite Hfa by congruence. apply (fr_kept _ _ _ _ Hf); [|done].
    intros ->. pose proof (fr_free _ _ _ _ Hf). congruence.
  - intros k _ Hk Hne _. unfold byte_of. rewrite Ea, decide_False by congruence.
    rewrite Hfa by by apply (fo_ind _ _ _ F). rewrite (fresh_used _ _ _ _ d _ Hf F); [done|].
    split; [done|]. right. by eexists.
Qed.

(** Bytes [w] stored in block [n] of the file from offset [o] of the block on. *)
Lemma ext_store sb f d n o w : let a := faddr f d n in let f' := assign f (a, splice (f a) o w) in
  let lo := n * BSIZE + Z.of_nat o in
  0 <= sb_bmapstart sb -> file_ok f sb d -> slot n -> a <> 0 -> length (f a) = 512%nat -> (o + length w <= 512)%nat ->
  ext sb lo (lo + Z.of_nat (length w)) f d f' d /\
  (forall m, faddr f' d m = faddr f d m) /\
  forall k, lo <= k < lo + Z.of_nat (length w) -> byte_of f' d k = w !!! Z.to_nat (k - lo).
Proof.
  intros a f' lo Hs F Hn Ha Hlen Hw. assert (Hua : uses f d a) by (split; [done|right; by exists n]).
  pose proof (fo_used _ _ _ F a Hua) as [Har _].
  assert (Hmk : forall y, marked f' sb y = marked f sb y) by (intros y; apply marked_assign; lia).
  assert (Hfa : forall y, y <> a -> f' y = f y) by (intros y Hy; unfold f'; by rewrite assign_eq, decide_False).
  destruct (file_same sb f d f' F Hs) as [F' E]; [intros y; by rewrite Hmk| |].
  { intros Hi. apply Hfa. intros Hc. by apply (fo_ind _ _ _ F n Hn Ha). }
  split_and!; [|done|].
  - constructor; try done.
    + by destruct d.
    + intros m Hm. by rewrite E.
    + by left.
    + intros y _. by rewrite Hmk.
    + intros y Hy Hm Hb Hu. apply Hfa. congruence.
    + intros k Hk Hks Hne Hout. unfold byte_of. rewrite E. destruct (decide (k / BSIZE = n)) as [En|En].
      * rewrite En. fold a. unfold f'. rewrite assign_eq, decide_True by done.
        rewrite !list_lookup_total_alt. f_equal. apply splice_lookup_out; [rewrite Hlen; lia|].
        unfold BSIZE in *. unfold lo in *. divmod.
      * rewrite Hfa; [done|]. intros Hc. apply En. by apply (fo_inj _ _ _ F).
  - intros k Hk. unfold slot in Hn. assert (k / BSIZE = n) as En by (unfold lo, BSIZE in *; divmod).
    unfold byte_of. rewrite E, En. fold a. unfold f'. rewrite assign_eq, decide_True by done.
    rewrite !list_lookup_total_alt. f_equal. etransitivity; [apply splice_lookup_in; [rewrite Hlen; lia|]|].
    + unfold lo, BSIZE in *. divmod.
    + f_equal. unfold lo, BSIZE in *. divmod.
Qed.

(** * Contents *)

Lemma slice_split {A} (l : list A) off a b : slice l off (a + b) = slice l off a ++ slice l (off + a) b.
Proof. unfold slice. rewrite <- drop_drop. by rewrite <- (take_take_drop (drop off l) a b). Qed.

Lemma contents_length f d : length (contents f d) = Z.to_nat (d_size d).
Proof. unfold contents. by rewrite length_fmap, length_seq. Qed.

Lemma contents_lookup f d k : (k < Z.to_nat (d_size d))%nat -> contents f d !! k = Some (byte_of f d (Z.of_nat k)).
Proof. intros Hk. unfold contents. rewrite list_lookup_fmap, lookup_seq_lt by done. done. Qed.

(** The part of the contents that lies in one block. *)
Lemma contents_block f d off m : (forall b, length (f b) = 512%nat) -> 0 <= off -> 0 <= m -> off mod BSIZE + m <= BSIZE ->
  off + m <= d_size d ->
  slice (f (faddr f d (off / BSIZE))) (Z.to_nat (off mod BSIZE)) (Z.to_nat m) =
  slice (contents f d) (Z.to_nat off) (Z.to_nat m).
Proof.
  intros Hl Ho Hm Hb Hs. unfold BSIZE in *. apply list_eq. intros k. unfold slice.
  destruct (decide (k < Z.to_nat m)%nat) as [Hk|Hk].
  - rewrite !lookup_take_lt, !lookup_drop by done. rewrite contents_lookup by divmod. unfold byte_of, BSIZE.
    replace (Z.of_nat (Z.to_nat off + k) / 512) with (off / 512) by divmod.
    rewrite list_lookup_lookup_total_lt by (rewrite Hl; divmod). do 2 f_equal. divmod.
  - rewrite !lookup_take_ge by lia. done.
Qed.

(** The blocks that the file lacks below byte [e], and the indirect block. *)
Definition missing (f : Z -> bytes) (d : dinode) (e : Z) : nat :=
  length (filter (fun k => faddr f d (Z.of_nat k) = 0) (seq 0 (Z.to_nat ((e + (BSIZE - 1)) / BSIZE)))).
Definition need (d : dinode) : nat := if ind d =? 0 then 1 else 0.

Lemma missing_same f d f' d' e : e <= MAXFILE * BSIZE -> (forall m, slot m -> faddr f' d' m = faddr f d m) ->
  missing f' d' e = missing f d e.
Proof.
  intros He E. unfold missing. f_equal. apply filter_same. intros k Hk%elem_of_seq. rewrite E; [done|].
  unfold slot, BSIZE in *. divmod.
Qed.

Lemma missing_pos f d e n : n * BSIZE < e -> slot n -> faddr f d n = 0 -> (1 <= missing f d e)%nat.
Proof.
  intros He Hn Hz. unfold missing. destruct (filter _ _) as [|k l] eqn:E; [|cbn; lia]. exfalso.
  apply (not_elem_of_nil (Z.to_nat n)). rewrite <- E. apply list_elem_of_filter. unfold slot, BSIZE in *.
  rewrite Z2Nat.id by lia. split; [done|]. apply elem_of_seq. divmod.
Qed.

Lemma missing_add f d f' d' e n b : n * BSIZE < e <= MAXFILE * BSIZE -> slot n -> faddr f d n = 0 -> b <> 0 ->
  (forall m, slot m -> faddr f' d' m = if decide (m = n) then b else faddr f d m) ->
  missing f d e = S (missing f' d' e).
Proof.
  intros He Hn Hz Hb E. unfold missing. apply (filter_minus_one _ _ (Z.to_nat n)).
  - apply NoDup_seq.
  - apply elem_of_seq. unfold slot, BSIZE in *. divmod.
  - by rewrite Z2Nat.id by (unfold slot in Hn; lia).
  - rewrite Z2Nat.id, E, decide_True by (done || unfold slot in Hn; lia). done.
  - intros k Hk%elem_of_seq Hne. rewrite E by (unfold slot, BSIZE in *; divmod). by rewrite decide_False by lia.
Qed.

(** A file whose blocks are not changed keeps its contents. *)
Lemma file_agree sb f f' d : 0 <= sb_bmapstart sb -> file_ok f sb d ->
  (forall y, 0 <= y -> marked f sb y = true -> marked f' sb y = true) ->
  (forall y, uses f d y -> f' y = f y) ->
  file_ok f' sb d /\ contents f' d = contents f d /\ forall y, uses f' d y <-> uses f d y.
Proof.
  intros Hs F Hm Hu. destruct (file_same sb f d f' F Hs Hm) as [F' E].
  { intros Hi. apply Hu. split; [done|by left]. }
  split_and!; [done| |].
  2: { intros y. unfold uses. split; intros [Hne [?|(k & Hk & ->)]]; (split; [done|]); [by left|right|by left|right];
       exists k; by rewrite E. }
  unfold contents. apply list_fmap_ext. intros j k [-> Hk]%lookup_seq. unfold byte_of. rewrite E.
  rewrite Hu; [done|]. pose proof (fo_size _ _ _ F) as Hsz. assert (Hb : 0 <= Z.of_nat (0 + j) / BSIZE /\ Z.of_nat (0 + j) / BSIZE * BSIZE < d_size d)
    by (unfold BSIZE; divmod).
  destruct Hb as [Hb1 Hb2]. split; [by apply (fo_full _ _ _ F)|]. right. eexists. split; [|done].
  by apply (slot_below sb f d).
Qed.

(** The size of a file after a write, and the inode. *)
Definition grow (d : dinode) (e : Z) : dinode := if e >? d_size d then set_size e d else d.

Lemma splice_lookup {A} (l src : list A) off k : (off <= length l)%nat ->
  splice l off src !! k =
    if decide (off <= k < off + length src)%nat then src !! (k - off)%nat else l !! k.
Proof.
  intros Ho. unfold splice. destruct (decide _) as [Hk|Hk].
  - rewrite lookup_app_r by (rewrite length_take; lia). rewrite length_take, Nat.min_l by lia. rewrite lookup_app_l by lia. done.
  - destruct (decide (k < off)%nat) as [Hlt|Hge].
    + rewrite lookup_app_l by (rewrite length_take; lia). by apply lookup_take_lt.
    + rewrite lookup_app_r, length_take, Nat.min_l by (rewrite ?length_take; lia).
      rewrite lookup_app_r by lia. rewrite lookup_drop. f_equal. lia.
Qed.

(** * Stores *)

(** The bytes [src] stored at [off], in blocks that were added where the file had none;
    the size in the inode is still the old one. *)
Record stored (sb : superblock) (f : Z -> bytes) (d : dinode) (off : Z) (src : bytes)
    (f' : Z -> bytes) (d' : dinode) : Prop := {
  sd_ext : ext sb off (off + Z.of_nat (length src)) f d f' d';
  sd_bytes : forall k, off <= k < off + Z.of_nat (length src) ->
    byte_of f' d' k = src !!! Z.to_nat (k - off) /\ faddr f' d' (k / BSIZE) <> 0
}.

Lemma stored_nil sb f d off : file_ok f sb d -> stored sb f d off [] f d.
Proof. intros F. constructor; [by apply ext_refl|cbn [length]; intros; lia]. Qed.

(** A store of [m] bytes in one block followed by the rest. *)
Lemma stored_step sb f d f1 d1 off src m f' d' : 0 <= off -> 0 < m <= Z.of_nat (length src) ->
  m = Z.min (Z.of_nat (length src)) (BSIZE - off mod BSIZE) -> off + Z.of_nat (length src) <= MAXFILE * BSIZE ->
  0 <= sb_bmapstart sb -> let b := off / BSIZE in
  ext sb off (off + m) f d f1 d1 -> faddr f1 d1 b <> 0 ->
  (forall k, off <= k < off + m -> byte_of f1 d1 k = take (Z.to_nat m) src !!! Z.to_nat (k - off)) ->
  stored sb f1 d1 (off + m) (drop (Z.to_nat m) src) f' d' -> stored sb f d off src f' d'.
Proof.
  intros Ho Hm Em Hmax Hbm b E1 Ha Hb [We Wb]. rewrite length_drop in We, Wb.
  set (n := Z.of_nat (length src)) in *. replace (Z.of_nat (length src - Z.to_nat m)) with (n - m) in * by lia.
  constructor; fold n.
  - eapply ext_trans; [exact Hbm|apply (ext_weaken _ off (off + m)); [done|lia]|].
    apply (ext_weaken _ _ _ _ _ _ _ _ _ We). lia.
  - intros k Hk. destruct (decide (k < off + m)) as [Hlt|Hge].
    + assert (Ek : k / BSIZE = b) by (unfold b, BSIZE in *; divmod).
      assert (Hsk : slot (k / BSIZE)) by (unfold slot, b, BSIZE in *; divmod). split.
      * rewrite (ex_bytes _ _ _ _ _ _ _ We k); [|lia|done|by rewrite Ek|lia]. rewrite Hb by lia.
        rewrite !list_lookup_total_alt. f_equal. apply lookup_take_lt. lia.
      * rewrite (ex_addr _ _ _ _ _ _ _ We); [by rewrite Ek|done|by rewrite Ek].
    + destruct (Wb k) as [-> Hne]; [lia|]. split; [|done]. rewrite !list_lookup_total_alt, lookup_drop. do 2 f_equal. lia.
Qed.

Section Grow.
  Context (sb : superblock) (f : Z -> bytes) (d : dinode) (off : Z) (src : bytes) (f' : Z -> bytes) (d' : dinode).
Let n := Z.of_nat (length src).
Let d'' := grow d' (off + n).
  Context (Ho : 0 <= off <= d_size d) (Hmax : off + n <= MAXFILE * BSIZE) (F : file_ok f sb d) (Hw : stored sb f d off src f' d').

Lemma grow_size : d_size d' = d_size d /\ d_size d'' = Z.max (d_size d) (off + n).
Proof.
  assert (Hsz' : d_size d' = d_size d) by by rewrite (ex_meta _ _ _ _ _ _ _ (sd_ext _ _ _ _ _ _ _ Hw)).
  split; [done|]. unfold d'', grow. rewrite <- Hsz'. destruct (off + n >? d_size d') eqn:?; cbn; lia.
Qed.

Lemma grow_addrs : (forall g m, faddr g d'' m = faddr g d' m) /\ ind d'' = ind d'.
Proof. unfold d'', grow. by destruct (_ >? _). Qed.

(** The blocks of the file after a write. *)
Lemma grow_file : file_ok f' sb d''.
Proof.
  destruct grow_size as [Hsz' Hsz]. destruct grow_addrs as [Hfa Hind]. pose proof (fo_size _ _ _ F) as Hs0.
  destruct (ex_ok _ _ _ _ _ _ _ (sd_ext _ _ _ _ _ _ _ Hw)) as [F1 F2 F3 F4 F5 F6]. constructor.
  - unfold d'', grow. by destruct (_ >? _).
  - rewrite Hsz. lia.
  - intros b [Hne Hb]. apply F3. split; [done|]. rewrite Hind in Hb. destruct Hb as [?|(m & Hm & ->)]; [by left|].
    right. exists m. by rewrite Hfa.
  - intros m k. rewrite !Hfa. apply F4.
  - intros m. rewrite Hfa, Hind. apply F5.
  - intros m Hm Hlt. rewrite Hfa. destruct (decide (m * BSIZE < d_size d)) as [Hin|Hout].
    + apply F6; [done|by rewrite Hsz'].
    + destruct (sd_bytes _ _ _ _ _ _ _ Hw (m * BSIZE)) as [_ Ha]; [fold n; unfold BSIZE in *; lia|].
      by replace (m * BSIZE / BSIZE) with m in Ha by (unfold BSIZE; divmod).
Qed.

(** Its contents. *)
Lemma grow_contents : contents f' d'' = splice (contents f d) (Z.to_nat off) src.
Proof.
  destruct grow_size as [Hsz' Hsz]. destruct grow_addrs as [Hfa Hind]. pose proof (fo_size _ _ _ F) as Hs0.
  apply list_eq. intros k. rewrite splice_lookup by (rewrite contents_length; lia).
  assert (Hby : forall j, byte_of f' d'' j = byte_of f' d' j) by (intros j; unfold byte_of; by rewrite Hfa).
  destruct (decide (k < Z.to_nat (d_size d''))%nat) as [Hk|Hk].
  - rewrite contents_lookup by done. rewrite Hby. destruct (decide _) as [Hin|Hout].
    + destruct (sd_bytes _ _ _ _ _ _ _ Hw (Z.of_nat k)) as [-> _]; [fold n; lia|].
      rewrite <- list_lookup_lookup_total_lt by lia. f_equal. lia.
    + assert (Hb : 0 <= Z.of_nat k / BSIZE /\ Z.of_nat k / BSIZE * BSIZE < d_size d) by (unfold BSIZE; divmod).
      destruct Hb as [Hb1 Hb2]. rewrite contents_lookup by lia. f_equal.
      apply (ex_bytes _ _ _ _ _ _ _ (sd_ext _ _ _ _ _ _ _ Hw));
        [lia|by eapply (slot_below sb f d)|by apply (fo_full _ _ _ F)|fold n; lia].
  - rewrite lookup_ge_None_2 by (rewrite contents_length; lia). symmetry. destruct (decide _) as [Hin|Hout]; [lia|].
    apply lookup_ge_None_2. rewrite contents_length. lia.
Qed.

Lemma grow_meta : d'' = mkdinode (d_type d) (d_major d) (d_minor d) (d_nlink d) (d_mode d)
  (Z.max (d_size d) (off + n)) (d_addrs d'').
Proof.
  destruct grow_size as [Hs1 _]. pose proof (ex_meta _ _ _ _ _ _ _ (sd_ext _ _ _ _ _ _ _ Hw)) as Em.
  unfold d'', grow. rewrite Hs1. destruct (_ >? _) eqn:Eg.
  - unfold set_size. rewrite Em at 1 2 3 4 5. cbn. f_equal. lia.
  - rewrite Em at 1. f_equal. lia.
Qed.
End Grow.

Lemma addrs_u32 sb f d : 0 <= sb_bmapstart sb -> sb_size sb <= FSSIZE -> file_ok f sb d -> Forall is_u32 (d_addrs d).
Proof.
  intros Hb Hs F. unfold FSSIZE in *. apply Forall_lookup. intros k a Ha.
  pose proof (lookup_lt_Some _ _ _ Ha) as Hk. rewrite (fo_addrs _ _ _ F) in Hk. apply list_lookup_total_correct in Ha.
  unfold is_u32. destruct (decide (a = 0)) as [->|Hne]; [lia|]. destruct (fo_used _ _ _ F a) as [Hr _]; [|lia].
  split; [done|]. destruct (decide (k = 11%nat)) as [->|Hk']; [by left|]. right. exists (Z.of_nat k).
  unfold slot, faddr, MAXFILE, NINDIRECT, NDIRECT, BSIZE. change (512 / 4) with 128. split; [lia|].
  replace (Z.of_nat k <? 11) with true by lia. by rewrite Nat2Z.id.
Qed.
