(* ===== verification/FsFile.v ===== *)
(** The contents of files (fs.c): the block map of an inode ([bmap]), [readi] and
    [writei], against the contents as a list of bytes of FsBlocks.v. *)

From S2P Require Import Prelude Bio Log Crash Block Strings Fs FsAlloc FsInode FsBlocks.
Local Open Scope Z_scope.

(** * Counting *)

(** [L'] is [L] with some of the blocks [D] appended, each once. *)
Definition adds (L L' D : list Z) : Prop :=
  exists l, L' = L ++ l /\ NoDup l /\ (forall x, x ∈ l -> x ∉ L) /\ (forall x, x ∈ l -> x ∈ D).

Lemma adds_refl L D : adds L L D.
Proof. exists []. rewrite app_nil_r. split_and!; [done|constructor|set_solver|set_solver]. Qed.

Lemma adds_absorb b L : adds L (absorb b L) [b].
Proof.
  unfold absorb. case_decide as Hb; [apply adds_refl|]. exists [b].
  split_and!; [done|apply NoDup_singleton|set_solver|set_solver].
Qed.

Lemma adds_trans L1 L2 L3 D1 D2 D3 : adds L1 L2 D1 -> adds L2 L3 D2 ->
  (forall x, x ∈ D1 -> x ∈ D3) -> (forall x, x ∈ D2 -> x ∈ D3) -> adds L1 L3 D3.
Proof.
  intros (l & -> & Hn & Hl & Hd) (l' & -> & Hn' & Hl' & Hd') H1 H2. exists (l ++ l').
  split_and!; [by rewrite app_assoc|apply NoDup_app; split_and!; [done|set_solver|done]|set_solver|set_solver].
Qed.

Lemma adds_length L L' D : adds L L' D -> (length L <= length L' <= length L + length D)%nat.
Proof.
  intros (l & -> & Hn & _ & Hd). rewrite length_app.
  assert (length l <= length D)%nat; [|lia]. apply submseteq_length, NoDup_submseteq; done.
Qed.

Section Bmap.
  Context {W : Type} `{BlockLaws W}.
  Context (s : fsys W) (i : nat).
Let ip := f_ic s !!! i.
Let sb := f_sb s.
Let bm := sb_bmapstart sb.
  Context (Hi : (i < length (f_ic s))%nat) (Hdev : i_dev ip = ROOTDEV) (L : layout_ok sb).

(** The state with block layer [x] in which the inode's copy is [d]. *)
Definition fst_ (x : W) (d : dinode) : fsys W := putip i (set_d d ip) (put_io x s).

Lemma st_ip x d : f_ic (fst_ x d) !!! i = set_d d ip.
Proof. by apply putip_get. Qed.

Lemma st_getip x d : getip i (fst_ x d) = Ok (set_d d ip, fst_ x d).
Proof. unfold getip, gets. by rewrite st_ip. Qed.

Lemma st_updd x d g : updd i g (fst_ x d) = Ok (tt, fst_ x (g d)).
Proof. rewrite updd_Ok, st_ip. unfold fst_. rewrite putip_put. done. Qed.

Lemma st_io {A} (m : M W A) x y d a : m x = Ok (a, y) -> io m (fst_ x d) = Ok (a, fst_ y d).
Proof. apply (io_Ok m (fst_ x d)). Qed.

Lemma st_seq {A B C} (m : M W A) (k : A -> M W B) (c : B -> M (fsys W) C) x d b y :
  bind m k x = Ok (b, y) -> (let! a := io m in let! b := io (k a) in c b) (fst_ x d) = c b (fst_ y d).
Proof. apply (io_seq m k c (fst_ x d)). Qed.

Definition meta_ok (f : Z -> bytes) : Prop := forall x, 0 <= x <= bm -> marked f sb x = true.

Lemma balloc_fresh x d f held lg : tx x f held lg -> meta_ok f -> (0 < nfree f sb)%nat ->
  bm ∉ held.*2 -> (forall b, b ∈ held.*2 -> marked f sb b = true) ->
  (length held + length lg + 1 < NB)%nat -> (length lg + 1 < tx_cap)%nat ->
  exists b y f' lg', balloc ROOTDEV (fst_ x d) = Ok (b, fst_ y d) /\ tx y f' held lg' /\
    fresh f sb b f' /\ adds lg lg' [bm; b].
Proof.
  intros T Hm Hf Hb Hh Hl Hc. pose proof (lo_bmap _ L). assert (Hff : exists b, first_free f sb b).
  { pose proof (balloc_scan_spec f sb L) as Hs. destruct (balloc_scan _ _ _ _ _) as [b|]; [by exists b|].
    exfalso. unfold nfree in Hf. destruct (filter _ _) as [|k l] eqn:E; [cbn in Hf; lia|].
    assert (Hk : k ∈ k :: l) by by left. rewrite <- E in Hk. apply list_elem_of_filter in Hk as [Hk Hr%elem_of_seq].
    rewrite Hs in Hk by lia. done. }
  destruct Hff as [b Hff]. pose proof (first_free_data _ _ _ L Hff Hm) as Hr.
  destruct (balloc_spec (fst_ x d) f held lg b T L Hff Hm Hb) as (y & E & T'); [|done|done|].
  { intros Hin%Hh. destruct Hff as (_ & Hf0 & _). congruence. }
  assert (Hlen : forall z, length (f z) = Z.to_nat BSIZE) by (intros z; by eapply tx_sized).
  assert (Hmk : forall z, 0 <= z -> marked (alloc f sb b) sb z = bool_decide (z = b) || marked f sb z)
    by (intros z Hz; apply marked_alloc; [done|done|lia|lia|done]).
  eexists b, y, _, _. split; [exact E|]. split; [exact T'|]. split.
  - constructor; [done|apply Hff| |done| |].
    + unfold alloc. by rewrite assign_eq, decide_True.
    + intros z Hz1 Hz2. unfold alloc, mark. rewrite !assign_eq, decide_False by done. by rewrite decide_False.
    + unfold nfree. apply (filter_minus_one _ _ (Z.to_nat b)); [apply NoDup_seq|apply elem_of_seq; lia| | |].
      * rewrite Z2Nat.id by lia. apply Hff.
      * rewrite Hmk, Z2Nat.id, bool_decide_true by lia. done.
      * intros k Hk Hne. rewrite Hmk, bool_decide_false by lia. done.
  - eapply adds_trans; [apply adds_absorb|apply adds_absorb|set_solver|set_solver].
Qed.

(** The indirect block as a list. *)
Definition inds (d : dinode) : list Z := if ind d =? 0 then [] else [ind d].

Lemma used_block f d b : file_ok f sb d -> uses f d b -> 0 <= b < FSSIZE /\ fs_block b /\ b <> bm.
Proof.
  intros F Hu. pose proof (fo_used _ _ _ F b Hu) as [Hr _]. pose proof (lo_size _ L). pose proof (lo_bmap _ L).
  unfold bm. split_and!; [lia|lia|by apply (lo_data_fs _ L)|lia].
Qed.

(** A block that the file has. *)
Lemma bmap_old x d f lg n : tx x f [] lg -> file_ok f sb d -> slot n -> (length lg < NB)%nat -> faddr f d n <> 0 ->
  exists y, bmap i n (fst_ x d) = Ok (faddr f d n, fst_ y d) /\ tx y f [] lg.
Proof.
  intros T F Hn Hl Ha. unfold bmap. mstep (st_getip x d). cbn [i_d set_d i_dev]. revert Ha. unfold faddr.
  destruct (n <? NDIRECT) eqn:En; intros Ha.
  - rewrite (proj2 (Z.eqb_neq _ _) Ha). by exists x.
  - destruct (ind d =? 0) eqn:Ei; [done|]. change (d_addrs d !!! Z.to_nat NDIRECT) with (ind d). rewrite Ei.
    unfold slot, MAXFILE in Hn. replace (n - NDIRECT <? NINDIRECT) with true by lia.
    assert (Hu : uses f d (ind d)) by (split; [lia|by left]). destruct (used_block f d _ F Hu) as [Hr _].
    destruct (tx_bread _ _ _ _ (ind d) T Hr) as (h & x1 & E1 & T1); [apply not_elem_of_nil|done|].
    destruct (tx_brelse _ _ _ _ _ _ T1) as (x2 & E2 & T2).
    exists x2. split; [|done]. unfold bind at 1, ret at 1. fold ip. rewrite Hdev. mstep (st_io _ _ _ d _ E1).
    mstep (st_io _ _ _ d _ (tx_data _ _ _ _ _ _ T1 (list_elem_of_here _ _))).
    rewrite (proj2 (Z.eqb_neq _ _) Ha). unfold bind at 1, ret at 1. by mstep (st_io _ _ _ d _ E2).
Qed.

Record bmapped (f : Z -> bytes) (d : dinode) (lg : list Z) (n : Z) (f' : Z -> bytes) (d' : dinode) (lg' : list Z) : Prop := {
  bp_ext : ext sb 0 0 f d f' d';
  bp_addr : faddr f' d' n <> 0;
  bp_adds : adds lg lg' (bm :: inds d' ++ [faddr f' d' n]);
  bp_free : forall e, n * BSIZE < e <= MAXFILE * BSIZE ->
    (nfree f sb + missing f' d' e + need d' = nfree f' sb + missing f d e + need d)%nat;
  bp_old : faddr f d n <> 0 -> d' = d
}.

(** A block the file has not, behind an indirect block it has. *)
Lemma bmap_entry x d f lg n : tx x f [] lg -> meta_ok f -> file_ok f sb d -> slot n -> NDIRECT <= n ->
  faddr f d n = 0 -> ind d <> 0 -> (0 < nfree f sb)%nat -> (length lg + 2 < NB)%nat -> (length lg + 2 < tx_cap)%nat ->
  exists y f' lg', (let! bp := io (io_bread ROOTDEV (ind d)) in
    let! dd := io (io_data bp) in
    let addr := ld 4 dd (Z.to_nat (4 * (n - NDIRECT))) in
    let! addr :=
      (if addr =? 0 then
         let! addr := balloc ROOTDEV in
         let! dd := io (io_data bp) in
         do! io (io_store bp (st 4 dd (Z.to_nat (4 * (n - NDIRECT))) addr)) in
         do! io (io_log_write bp) in
         ret addr
       else ret addr) in
    do! io (io_brelse bp) in
    ret addr) (fst_ x d) = Ok (faddr f' d n, fst_ y d) /\ tx y f' [] lg' /\ bmapped f d lg n f' d lg'.
Proof.
  intros T Hm F Hn Hd Hz Hi0 Hfr Hl Hc. assert (Hu : uses f d (ind d)) by (split; [lia|by left]).
  destruct (used_block f d _ F Hu) as (Hr & Hfs & Hbm). pose proof (lo_bmap _ L). pose proof (lo_size _ L).
  destruct (tx_bread _ _ _ _ (ind d) T Hr) as (h & x1 & E1 & T1); [apply not_elem_of_nil|cbn; lia|].
  pose proof (tx_data _ _ _ _ _ _ T1 (list_elem_of_here _ _)) as Ed.
  destruct (balloc_fresh x1 d f _ lg T1 Hm Hfr) as (b & x2 & f1 & lg1 & E2 & T2 & Hf & Ha1).
  { cbn. set_solver. }
  { cbn. intros b Hb. apply list_elem_of_singleton in Hb as ->. by apply (fo_used _ _ _ F). }
  { cbn. lia. }
  { lia. }
  pose proof (adds_length _ _ _ Ha1) as Hlen1. cbn in Hlen1.
  pose proof (tx_data _ _ _ _ _ _ T2 (list_elem_of_here _ _)) as Ed2.
  pose proof (tx_sized _ _ _ _ (ind d) T2) as Hsz.
  destruct (tx_write _ _ _ _ h (ind d) (st 4 (f1 (ind d)) (Z.to_nat (4 * (n - NDIRECT))) b) T2) as (x3 & E3 & T3).
  { by left. } { done. }
  { rewrite length_st; [done|]. rewrite Hsz. unfold slot, MAXFILE, NINDIRECT, NDIRECT, BSIZE in *.
    change (512 / 4) with 128 in *. change (Z.to_nat 512) with 512%nat. lia. }
  { lia. }
  destruct (tx_brelse _ _ _ _ _ _ T3) as (x4 & E4 & T4).
  destruct (ext_entry sb f f1 d b n) as [He Ea]; try done; try lia. pose proof (fr_range _ _ _ _ Hf) as Hrb.
  pose proof (Ea n Hn) as Eb. rewrite decide_True in Eb by done.
  eexists x4, _, _. split; [|split; [exact T4|]].
  - rewrite Eb. mstep (st_io _ _ _ d _ E1). mstep (st_io _ _ _ d _ Ed). cbv zeta.
    assert (E0 : ld 4 (f (ind d)) (Z.to_nat (4 * (n - NDIRECT))) = 0).
    { revert Hz. unfold faddr. replace (n <? NDIRECT) with false by lia. by replace (ind d =? 0) with false by lia. }
    rewrite E0. change (0 =? 0) with true. cbv iota.
    assert (Ein : (let! addr := balloc ROOTDEV in let! dd := io (io_data h) in
      do! io (io_store h (st 4 dd (Z.to_nat (4 * (n - NDIRECT))) addr)) in
      do! io (io_log_write h) in ret addr) (fst_ x1 d) = Ok (b, fst_ x3 d)).
    { mstep E2. mstep (st_io _ _ _ d _ Ed2). by rewrite (st_seq _ _ _ x2 d _ _ E3). }
    mstep Ein. by mstep (st_io _ _ _ d _ E4).
  - constructor.
    + done.
    + rewrite Eb. lia.
    + rewrite Eb. eapply adds_trans; [exact Ha1|apply adds_absorb|set_solver|].
      unfold inds. replace (ind d =? 0) with false by lia. set_solver.
    + intros e Hee. rewrite (nfree_marks f1 (assign _ _)) by (intros y; apply marked_assign; unfold bm in *; done).
      rewrite (fr_nfree _ _ _ _ Hf). erewrite (missing_add f d); [|done|done|done| |exact Ea]; lia.
    + done.
Qed.

Lemma bmap_new x d f lg n : tx x f [] lg -> meta_ok f -> file_ok f sb d -> slot n -> faddr f d n = 0 ->
  (1 + need d <= nfree f sb)%nat -> (length lg + 4 < NB)%nat -> (length lg + 4 < tx_cap)%nat ->
  exists y f' d' lg', bmap i n (fst_ x d) = Ok (faddr f' d' n, fst_ y d') /\ tx y f' [] lg' /\
    bmapped f d lg n f' d' lg'.
Proof.
  intros T Hm F Hn Hz Hfr Hl Hc. pose proof (lo_bmap _ L) as Hbm. unfold bmap. mstep (st_getip x d). cbn [i_d set_d i_dev]. fold ip. rewrite Hdev.
  destruct (n <? NDIRECT) eqn:En.
  - replace (d_addrs d !!! Z.to_nat n) with 0 by (revert Hz; unfold faddr; by rewrite En). cbv iota zeta.
    destruct (balloc_fresh x d f [] lg T Hm) as (b & y & f' & lg' & E & T' & Hf & Ha);
      [lia|apply not_elem_of_nil|intros b Hb; by apply elem_of_nil in Hb|cbn; lia|lia|].
    destruct (ext_direct sb f f' d b (proj1 Hbm) F Hf n) as [He Ea]; [unfold slot in Hn; lia|done|].
    pose proof (Ea n Hn) as Eb. rewrite decide_True in Eb by done. pose proof (fr_range _ _ _ _ Hf) as Hrb.
    exists y, f', (set_addr (Z.to_nat n) b d), lg'. rewrite Eb. split; [|split; [done|]].
    + change (0 =? 0) with true. cbv iota. mstep E. by mstep (st_updd y d (set_addr (Z.to_nat n) b)).
    + pose proof (fo_addrs _ _ _ F). constructor; rewrite ?Eb; [done|lia| | |done].
      * eapply adds_trans; [exact Ha|apply (adds_refl _ [])|set_solver|set_solver].
      * intros e Hee. rewrite (fr_nfree _ _ _ _ Hf). erewrite (missing_add f d); [|done|done|done| |exact Ea]; [|lia].
        unfold need. rewrite ind_addr, decide_False by (unfold slot, NDIRECT in *; lia). lia.
  - unfold slot, MAXFILE in Hn. replace (n - NDIRECT <? NINDIRECT) with true by lia.
    change (d_addrs d !!! Z.to_nat NDIRECT) with (ind d). destruct (ind d =? 0) eqn:Ei.
    + destruct (balloc_fresh x d f [] lg T Hm) as (b & y & f1 & lg1 & E & T1 & Hf & Ha);
        [lia|apply not_elem_of_nil|intros b Hb; by apply elem_of_nil in Hb|cbn; lia|lia|].
      destruct (ext_ind sb f f1 d b (proj1 Hbm) F Hf) as (He & Ei1 & Ea); [lia|].
      set (d1 := set_addr 11 b d) in *. pose proof (ex_ok _ _ _ _ _ _ _ He) as F1.
      pose proof (fr_range _ _ _ _ Hf) as Hrb. pose proof (adds_length _ _ _ Ha) as Hla. cbn in Hla.
      assert (Hneed : need d = 1%nat) by (unfold need; by rewrite Ei).
      assert (Hneed1 : need d1 = 0%nat) by (unfold need; rewrite Ei1; by replace (b =? 0) with false by (lia)).
      pose proof (fr_nfree _ _ _ _ Hf) as Hnf.
      destruct (bmap_entry y d1 f1 lg1 n T1) as (y2 & f2 & lg2 & E2 & T2 & B); try done; try lia.
      { intros z Hzz. apply (ex_marks _ _ _ _ _ _ _ He); [lia|]. by apply Hm. }
      { by rewrite Ea. }
      exists y2, f2, d1, lg2. split; [|split; [done|]].
      * rewrite bind_assoc. mstep E. rewrite bind_assoc. mstep (st_updd y d (set_addr (Z.to_nat NDIRECT) b)).
        change (set_addr (Z.to_nat NDIRECT) b d) with d1. unfold bind at 1, ret at 1. rewrite Ei1 in E2. exact E2.
      * destruct B as [Be Ba Bd Bf _]. constructor; [|done| | |done].
        -- eapply ext_trans; [exact (proj1 Hbm)|exact He|exact Be].
        -- eapply adds_trans; [exact Ha|exact Bd| |done]. unfold inds. rewrite Ei1.
           replace (b =? 0) with false by (lia). set_solver.
        -- intros e Hee. specialize (Bf e Hee). rewrite (missing_same f d f1 d1) in Bf by (done || lia). lia.
    + destruct (bmap_entry x d f lg n T) as (y & f' & lg' & E & T' & B); try done; try lia.
      exists y, f', d, lg'. split; [|done]. unfold bind at 1, ret at 1. exact E.
Qed.

Lemma bmap_spec x d f lg n : tx x f [] lg -> meta_ok f -> file_ok f sb d -> slot n ->
  (faddr f d n = 0 -> (1 + need d <= nfree f sb)%nat) -> (length lg + 4 < NB)%nat -> (length lg + 4 < tx_cap)%nat ->
  exists y f' d' lg', bmap i n (fst_ x d) = Ok (faddr f' d' n, fst_ y d') /\ tx y f' [] lg' /\
    bmapped f d lg n f' d' lg'.
Proof.
  intros T Hm F Hn Hfr Hl Hc. destruct (decide (faddr f d n = 0)) as [Hz|Hz]; [apply bmap_new; auto|].
  destruct (bmap_old x d f lg n T F Hn) as (y & E & T'); [lia|done|]. exists y, f, d, lg.
  split_and!; [done|done|]. constructor; [by apply ext_refl|done|apply adds_refl|lia|done].
Qed.

(** * readi *)

Lemma readi_loop_spec fuel x d f lg tot off n acc : tx x f [] lg -> file_ok f sb d -> (length lg < NB)%nat ->
  0 <= off -> tot <= n -> off + (n - tot) <= d_size d -> (Z.to_nat (n - tot) <= fuel)%nat ->
  exists y, readi_loop fuel i tot off n acc (fst_ x d) =
    Ok (acc ++ slice (contents f d) (Z.to_nat off) (Z.to_nat (n - tot)), fst_ y d) /\ tx y f [] lg.
Proof.
  revert x tot off acc. induction fuel as [|fuel IH]; intros x tot off acc T F Hl Ho Ht Hs Hfu; cbn [readi_loop].
  - replace (tot <? n) with false by lia. exists x. replace (Z.to_nat (n - tot)) with 0%nat by lia.
    unfold slice. rewrite take_0, app_nil_r. done.
  - destruct (tot <? n) eqn:En.
    2: { exists x. replace (Z.to_nat (n - tot)) with 0%nat by lia. unfold slice. rewrite take_0, app_nil_r. done. }
    pose proof (fo_size _ _ _ F) as Hsz. set (b := off / BSIZE). assert (Hb : 0 <= b /\ b * BSIZE < d_size d) by (unfold b, BSIZE; divmod).
    assert (Hn : slot b) by (eapply slot_below; [done|lia|lia]). pose proof (fo_full _ _ _ F b ltac:(lia) ltac:(lia)) as Ha.
    assert (Hu : uses f d (faddr f d b)) by (split; [done|right; by exists b]). destruct (used_block f d _ F Hu) as [Hr _].
    destruct (bmap_old x d f lg b T F Hn Hl Ha) as (x1 & E1 & T1).
    destruct (tx_bread _ _ _ _ _ T1 Hr) as (h & x2 & E2 & T2); [apply not_elem_of_nil|done|].
    pose proof (tx_data _ _ _ _ _ _ T2 (list_elem_of_here _ _)) as E3.
    destruct (tx_brelse _ _ _ _ _ _ T2) as (x3 & E4 & T3).
    mstep (st_getip x d). mstep E1. cbn [i_dev set_d]. fold ip. rewrite Hdev. mstep (st_io _ _ _ d _ E2).
    mstep (st_io _ _ _ d _ E3). mstep (st_io _ _ _ d _ E4). cbv zeta.
    set (m := Z.min (n - tot) (BSIZE - off mod BSIZE)).
    assert (Hmr : 0 < m <= n - tot /\ off mod BSIZE + m <= BSIZE) by (unfold m, BSIZE; divmod).
    destruct (IH x3 (tot + m) (off + m) (acc ++ slice (f (faddr f d b)) (Z.to_nat (off mod BSIZE)) (Z.to_nat m)))
      as (y & E & T'); [done|done|done|lia|lia|lia|lia|].
    exists y. split; [|done]. rewrite E. do 2 f_equal. rewrite <- app_assoc. f_equal.
    unfold b. rewrite contents_block by (lia || (intros z; by eapply tx_sized)).
    replace (Z.to_nat (n - tot)) with (Z.to_nat m + Z.to_nat (n - (tot + m)))%nat by lia.
    rewrite slice_split. do 2 f_equal. lia.
Qed.

(** * writei *)

(** The blocks that the bytes from [off] to [off + n] lie in. *)
Definition nblocks (off n : Z) : Z := if n =? 0 then 0 else (off + n - 1) / BSIZE - off / BSIZE + 1.

(** The outcome of the loop of [writei]. *)
Record written (f : Z -> bytes) (d : dinode) (lg V : list Z) (off : Z) (src : bytes)
    (f' : Z -> bytes) (d' : dinode) (lg' : list Z) : Prop := {
  wr_stored : stored sb f d off src f' d';
  wr_adds : exists V', adds lg lg' (bm :: inds d' ++ V') /\
    Z.of_nat (length V') <= Z.of_nat (length V) + nblocks off (Z.of_nat (length src));
  wr_same : off + Z.of_nat (length src) <= d_size d -> d' = d;
  wr_free : forall e, off + Z.of_nat (length src) <= e <= MAXFILE * BSIZE ->
    (nfree f sb + missing f' d' e + need d' = nfree f' sb + missing f d e + need d)%nat
}.

Lemma inds_grow f d f' d' lo hi b : ext sb lo hi f d f' d' -> b ∈ inds d -> b ∈ inds d'.
Proof.
  intros E. unfold inds. destruct (ind d =? 0) eqn:E0; [set_solver|].
  destruct (ex_ind _ _ _ _ _ _ _ E) as [->|[Hz _]]; [by rewrite E0|lia].
Qed.

(** One round: block [b] of the file gets [w] at offset [o]. *)
Lemma write_block x d f lg b o w : tx x f [] lg -> meta_ok f -> file_ok f sb d -> slot b -> (o + length w <= 512)%nat ->
  (faddr f d b = 0 -> (1 + need d <= nfree f sb)%nat) -> (length lg + 4 < NB)%nat -> (length lg + 4 < tx_cap)%nat ->
  let lo := b * BSIZE + Z.of_nat o in
  exists y f' d' lg', (forall A (k : M (fsys W) A),
    (let! addr := bmap i b in
     let! bp := io (io_bread ROOTDEV addr) in
     let! dd := io (io_data bp) in
     do! io (io_store bp (splice dd o w)) in
     do! io (io_log_write bp) in
     do! io (io_brelse bp) in k) (fst_ x d) = k (fst_ y d')) /\ tx y f' [] lg' /\
    ext sb lo (lo + Z.of_nat (length w)) f d f' d' /\ faddr f' d' b <> 0 /\
    (forall k, lo <= k < lo + Z.of_nat (length w) -> byte_of f' d' k = w !!! Z.to_nat (k - lo)) /\
    adds lg lg' (bm :: inds d' ++ [faddr f' d' b]) /\ (forall e, b * BSIZE < e <= MAXFILE * BSIZE ->
      (nfree f sb + missing f' d' e + need d' = nfree f' sb + missing f d e + need d)%nat) /\
    (faddr f d b <> 0 -> d' = d).
Proof.
  intros T Hm F Hb Ho Hfr Hl Hc lo. pose proof (lo_bmap _ L) as Hbm.
  destruct (bmap_spec x d f lg b T Hm F Hb Hfr Hl Hc) as (x1 & f1 & d1 & lg1 & E1 & T1 & [Be Ba Bd Bf Bo]).
  pose proof (ex_ok _ _ _ _ _ _ _ Be) as F1. assert (Hu : uses f1 d1 (faddr f1 d1 b)) by (split; [done|right; by exists b]).
  destruct (used_block f1 d1 _ F1 Hu) as (Hr & Hfs & Hnb). pose proof (tx_sized _ _ _ _ (faddr f1 d1 b) T1) as Hsz.
  pose proof (adds_length _ _ _ Bd) as Hla. unfold inds in Hla. rewrite length_cons, length_app in Hla.
  assert (Hll : (length lg1 <= length lg + 3)%nat) by (destruct (ind d1 =? 0); cbn in Hla; lia).
  destruct (tx_bread _ _ _ _ _ T1 Hr) as (h & x2 & E2 & T2); [apply not_elem_of_nil|cbn; lia|].
  pose proof (tx_data _ _ _ _ _ _ T2 (list_elem_of_here _ _)) as E3.
  destruct (tx_write _ _ _ _ h (faddr f1 d1 b) (splice (f1 (faddr f1 d1 b)) o w) T2) as (x3 & E4 & T3);
    [by left|done|rewrite length_splice; [done|rewrite Hsz; change (Z.to_nat BSIZE) with 512%nat; lia]|lia|].
  destruct (tx_brelse _ _ _ _ _ _ T3) as (x4 & E5 & T4).
  destruct (ext_store sb f1 d1 b o w (proj1 Hbm) F1 Hb Ba Hsz Ho) as (Ee & Ea & Eb).
  eexists x4, _, d1, _. split; [|split; [exact T4|]]; [|split_and!].
  - intros A k. mstep E1. mstep (st_io _ _ _ d1 _ E2). mstep (st_io _ _ _ d1 _ E3).
    rewrite (st_seq _ _ _ x2 d1 _ _ E4). by mstep (st_io _ _ _ d1 _ E5).
  - eapply ext_trans; [exact (proj1 Hbm)| |exact Ee]. apply (ext_weaken _ 0 0); [done|lia].
  - by rewrite Ea.
  - exact Eb.
  - rewrite Ea. eapply adds_trans; [exact Bd|apply adds_absorb|done|set_solver].
  - intros e He. rewrite (nfree_marks f1 (assign _ _)) by (intros y; by apply marked_assign).
    rewrite (missing_same f1 d1) by (done || lia). by apply Bf.
  - done.
Qed.

Lemma written_nil f d lg lg' V off : file_ok f sb d -> adds lg lg' (bm :: inds d ++ V) -> written f d lg V off [] f d lg'.
Proof.
  intros F Ha. constructor; [by apply stored_nil| |done|done]. exists V. split; [done|].
  unfold nblocks. change (_ =? 0) with true. cbv iota. lia.
Qed.

Lemma nblocks_step off n m : 0 <= off -> 0 < n -> m = Z.min n (BSIZE - off mod BSIZE) ->
  nblocks (off + m) (n - m) + 1 = nblocks off n.
Proof.
  intros Ho Hn Em. unfold nblocks, BSIZE in *. replace (n =? 0) with false by lia. destruct (n - m =? 0) eqn:E.
  - assert (off mod 512 + n <= 512) by lia. clear Em E. divmod.
  - assert (m = 512 - off mod 512) by lia. assert ((off + m) / 512 = off / 512 + 1) as -> by (clear Em E; divmod).
    replace (off + m + (n - m) - 1) with (off + n - 1) by lia. lia.
Qed.

(** A write of [m] bytes in one block followed by the rest. *)
Lemma written_step f d lg0 V f1 d1 off src m f' d' lg' : 0 <= off -> 0 < m <= Z.of_nat (length src) ->
  m = Z.min (Z.of_nat (length src)) (BSIZE - off mod BSIZE) -> off + Z.of_nat (length src) <= MAXFILE * BSIZE ->
  0 <= bm -> let b := off / BSIZE in
  file_ok f sb d -> ext sb off (off + m) f d f1 d1 -> faddr f1 d1 b <> 0 ->
  (forall k, off <= k < off + m -> byte_of f1 d1 k = take (Z.to_nat m) src !!! Z.to_nat (k - off)) ->
  (faddr f d b <> 0 -> d1 = d) ->
  (forall e, b * BSIZE < e <= MAXFILE * BSIZE ->
    (nfree f sb + missing f1 d1 e + need d1 = nfree f1 sb + missing f d e + need d)%nat) ->
  written f1 d1 lg0 (V ++ [faddr f1 d1 b]) (off + m) (drop (Z.to_nat m) src) f' d' lg' ->
  written f d lg0 V off src f' d' lg'.
Proof.
  intros Ho Hm Em Hmax Hbm b F E1 Ha Hb Hd Hfr [Wt (V' & Wa & Wl) Ws Wf]. rewrite length_drop in Wl, Ws, Wf.
  pose proof (nblocks_step off (Z.of_nat (length src)) m Ho ltac:(lia) Em) as Hns. set (n := Z.of_nat (length src)) in *.
  replace (Z.of_nat (length src - Z.to_nat m)) with (n - m) in * by lia.
  assert (Hsz : d_size d1 = d_size d) by by rewrite (ex_meta _ _ _ _ _ _ _ E1).
  constructor; [by apply (stored_step _ _ _ f1 d1 _ _ m)| | |]; fold n.
  - exists V'. split; [done|]. rewrite length_app in Wl. cbn in Wl. lia.
  - intros Hle. assert (Hfd : faddr f d b <> 0).
    { apply (fo_full _ _ _ F); unfold b, BSIZE in *; divmod. }
    specialize (Hd Hfd). rewrite Ws; [done|]. rewrite Hsz. lia.
  - intros e He. specialize (Wf e ltac:(unfold n in *; lia)). specialize (Hfr e ltac:(unfold b, BSIZE in *; divmod)). lia.
Qed.

Lemma writei_loop_spec fuel x d f lg0 lg V src tot off n : tx x f [] lg -> meta_ok f -> file_ok f sb d ->
  0 <= off -> Z.of_nat (length src) = n - tot -> off + (n - tot) <= MAXFILE * BSIZE -> (Z.to_nat (n - tot) <= fuel)%nat ->
  adds lg0 lg (bm :: inds d ++ V) ->
  (missing f d (off + (n - tot)) + need d <= nfree f sb)%nat ->
  Z.of_nat (length lg0 + length V) + nblocks off (n - tot) + 5 < Z.of_nat NB ->
  Z.of_nat (length lg0 + length V) + nblocks off (n - tot) + 5 < Z.of_nat tx_cap ->
  exists y f' d' lg', writei_loop fuel i src tot off n (fst_ x d) = Ok (off + (n - tot), fst_ y d') /\
    tx y f' [] lg' /\ written f d lg0 V off src f' d' lg'.
Proof.
  revert x d f lg V src tot off. induction fuel as [|fuel IH];
    intros x d f lg V src tot off T Hm F Ho Hsrc Hmax Hfu Had Hfr Hnb Hcap; cbn [writei_loop].
  { replace (tot <? n) with false by lia. exists x, f, d, lg. destruct src; [|cbn in *; lia].
    split_and!; [by replace (off + (n - tot)) with off by lia|done|by apply written_nil]. }
  destruct (tot <? n) eqn:En.
  2: { exists x, f, d, lg. destruct src; [|cbn in *; lia].
       split_and!; [by replace (off + (n - tot)) with off by (cbn in *; lia)|done|by apply written_nil]. }
  set (b := off / BSIZE). set (m := Z.min (n - tot) (BSIZE - off mod BSIZE)).
  assert (Hmr : 0 < m <= n - tot /\ 0 <= off mod BSIZE /\ off mod BSIZE + m <= BSIZE) by (unfold m, BSIZE; divmod).
  assert (Hb : slot b) by (unfold slot, b, BSIZE in *; divmod).
  pose proof (nblocks_step off (n - tot) m Ho ltac:(lia) eq_refl) as Hns.
  assert (Hn1 : 0 <= nblocks (off + m) (n - tot - m)) by (unfold nblocks, BSIZE; destruct (_ =? 0); divmod).
  pose proof (adds_length _ _ _ Had) as Hla. rewrite length_cons, length_app in Hla.
  assert (Hil : (length (inds d) <= 1)%nat) by (unfold inds; destruct (ind d =? 0); cbn; lia).
  destruct (write_block x d f lg b (Z.to_nat (off mod BSIZE)) (take (Z.to_nat m) src) T Hm F Hb)
    as (x1 & f1 & d1 & lg1 & E1 & T1 & Be & Ba & Bb & Bd & Bf & Bo); [rewrite length_take; unfold BSIZE in *; lia| |lia|lia|].
  { intros Hz. pose proof (missing_pos f d (off + (n - tot)) b ltac:(unfold b, BSIZE in *; divmod) Hb Hz). lia. }
  mstep (st_getip x d). cbn [i_dev set_d]. fold ip. rewrite Hdev, E1.
  replace (b * BSIZE + _) with off in * by (unfold b, BSIZE in *; divmod).
  assert (Hlt : Z.of_nat (length (take (Z.to_nat m) src)) = m) by (rewrite length_take; lia). rewrite Hlt in *.
  replace (n - tot - m) with (n - (tot + m)) in * by lia.
  destruct (IH x1 d1 f1 lg1 (V ++ [faddr f1 d1 b]) (drop (Z.to_nat m) src) (tot + m) (off + m))
    as (y & f' & d' & lg' & E2 & T2 & Hw); try done.
  { intros z Hz. apply (ex_marks _ _ _ _ _ _ _ Be); [lia|]. by apply Hm. }
  { by apply (ex_ok _ _ _ _ _ _ _ Be). }
  { lia. }
  { rewrite length_drop. lia. }
  { lia. }
  { lia. }
  { eapply adds_trans; [exact Had|exact Bd| |set_solver]. intros z. rewrite !elem_of_cons, !elem_of_app.
    intros [?|[?%(inds_grow _ _ _ _ _ _ z Be)|?]]; tauto. }
  { specialize (Bf (off + (n - tot)) ltac:(unfold b, BSIZE in *; divmod)).
    replace (off + m + (n - (tot + m))) with (off + (n - tot)) by lia. lia. }
  { rewrite length_app. cbn [length]. lia. }
  { rewrite length_app. cbn [length]. lia. }
  exists y, f', d', lg'. split; [|split; [done|]].
  - rewrite E2. do 2 f_equal. lia.
  - rewrite <- Hsrc in *. eapply (written_step f d lg0 V f1 d1 off src m); try done; try lia. apply (lo_bmap _ L).
Qed.
End Bmap.

(** * Files *)

Section Files.
  Context {W : Type} `{BlockLaws W}.

(** What [readi] and [writei] need: a state (for [writei] one in a transaction) in
    which the disk reads [f] and the blocks [lg] are logged already, the lock on entry [i] of the inode cache,
    which holds the copy of a file. *)
Record file_ready (s : fsys W) (i : nat) (f : Z -> bytes) (lg : list Z) : Prop := {
  fy_tx : tx (f_io s) f [] lg;
  fy_layout : layout_ok (f_sb s);
  fy_meta : meta_ok s f;
  fy_i : (i < length (f_ic s))%nat;
  fy_dev : i_dev (f_ic s !!! i) = ROOTDEV;
  fy_inum : inum_ok (f_sb s) (i_inum (f_ic s !!! i));
  fy_copy : dinode_at f (f_sb s) (i_inum (f_ic s !!! i)) = i_d (f_ic s !!! i);
  fy_dok : dinode_ok (i_d (f_ic s !!! i));
  fy_file : file_ok f (f_sb s) (i_d (f_ic s !!! i));
  fy_type : d_type (i_d (f_ic s !!! i)) <> T_DEV
}.

Lemma st_self (s : fsys W) i : (i < length (f_ic s))%nat -> fst_ s i (f_io s) (i_d (f_ic s !!! i)) = s.
Proof.
  intros Hi. unfold fst_, putip, put_ic, put_io; cbn. destruct s as [x sb ic pid cwd]; cbn in *. f_equal.
  apply list_insert_id. rewrite list_lookup_lookup_total_lt by done. f_equal. by destruct (ic !!! i).
Qed.

Section One.
  Context (s : fsys W) (i : nat) (f : Z -> bytes) (lg : list Z) (R : file_ready s i f lg).
Let ip := f_ic s !!! i.
Let d := i_d ip.
Let sb := f_sb s.

Lemma readi_spec devsw off n : (length lg < NB)%nat -> is_u32 off -> is_u32 n ->
  if (off >? d_size d) || (off + n >=? 4294967296) then readi devsw i off n s = Ok ((-1, []), s) else
  exists y, let r := slice (contents f d) (Z.to_nat off) (Z.to_nat n) in
    readi devsw i off n s = Ok ((Z.of_nat (length r), r), fst_ s i y d) /\ tx y f [] lg.
Proof.
  intros Hl Ho Hn. destruct R as [T L Hm Hi Hd Hin Hc Hok F Ht]. fold ip d sb in Hd, Hin, Hc, Hok, F, Ht, L.
  pose proof (fo_size _ _ _ F) as Hsz. unfold MAXFILE, NINDIRECT, NDIRECT, BSIZE in Hsz. change (512 / 4) with 128 in Hsz.
  unfold readi. mstep (eq_refl : getip i s = Ok (ip, s)). fold d. rewrite (proj2 (Z.eqb_neq _ _) Ht). unfold is_u32 in *.
  destruct (off >? d_size d) eqn:E1; [done|]. cbn [orb].
  destruct (off + n >=? 4294967296) eqn:E2.
  - replace (u32 (off + n) <? off) with true by ints. done.
  - replace (u32 (off + n) <? off) with false by ints. rewrite u32_small by lia. cbn [orb].
    set (m := if off + n >? d_size d then d_size d - off else n).
    assert (Hmr : 0 <= m /\ off + m <= d_size d) by (unfold m; destruct (off + n >? d_size d) eqn:?; lia).
    destruct (readi_loop_spec s i Hi Hd L (Z.to_nat m) (f_io s) d f lg 0 off m [] T F Hl) as (y & E & T'); [lia..|].
    rewrite st_self in E by done. rewrite Z.sub_0_r in E. exists y. cbv zeta. split; [|done]. mstep E. cbn [app].
    assert (Es : slice (contents f d) (Z.to_nat off) (Z.to_nat m) = slice (contents f d) (Z.to_nat off) (Z.to_nat n)).
    { unfold m. destruct (off + n >? d_size d) eqn:?; [|done]. unfold slice.
      rewrite !take_ge by (rewrite length_drop, contents_length; lia). done. }
    rewrite <- Es. rewrite length_slice by (rewrite contents_length; lia). rewrite s32_small, Z2Nat.id by lia. done.
Qed.

(** What a write of [src] at [off] leads to. *)
Record wrote_file (off : Z) (src : bytes) (s' : fsys W) (f' : Z -> bytes) (d' : dinode) (lg' : list Z) : Prop := {
  wf_state : s' = fst_ s i (f_io s') d';
  wf_ready : file_ready s' i f' lg';
  wf_contents : contents f' d' = splice (contents f d) (Z.to_nat off) src;
  wf_meta : d' = mkdinode (d_type d) (d_major d) (d_minor d) (d_nlink d) (d_mode d)
                   (Z.max (d_size d) (off + Z.of_nat (length src))) (d_addrs d');
  wf_inodes : forall j, inum_ok sb j -> j <> i_inum ip -> dinode_at f' sb j = dinode_at f sb j;
  wf_files : forall d2, file_ok f sb d2 -> (forall b, uses f d b -> ~ uses f d2 b) ->
    file_ok f' sb d2 /\ contents f' d2 = contents f d2 /\ forall b, uses f' d' b -> ~ uses f' d2 b;
  wf_logged : Z.of_nat (length lg') <= Z.of_nat (length lg) + nblocks off (Z.of_nat (length src)) + 3;
  wf_free : forall e, off + Z.of_nat (length src) <= e <= MAXFILE * BSIZE ->
    (nfree f sb + missing f' d' e + need d' = nfree f' sb + missing f d e + need d)%nat
}.

Lemma data_not_meta f1 d1 b : file_ok f1 sb d1 -> uses f1 d1 b -> b <> IBLOCK (i_inum ip) sb.
Proof.
  intros F1 Hu. destruct (fo_used _ _ _ F1 b Hu) as [Hr _].
  destruct (IBLOCK_range sb (i_inum ip) (fy_layout _ _ _ _ R) (fy_inum _ _ _ _ R)) as [_ Hib]. lia.
Qed.

Lemma written_dinode off src f1 d1 lg1 : let d' := grow d1 (off + Z.of_nat (length src)) in
  0 <= off <= d_size d -> off + Z.of_nat (length src) <= MAXFILE * BSIZE -> written s f d lg [] off src f1 d1 lg1 ->
  dinode_ok d'.
Proof.
  intros d' Ho Hmax [Hw _ _ _]. pose proof (fy_file _ _ _ _ R) as F. pose proof (fy_layout _ _ _ _ R) as L.
  pose proof (grow_file _ _ _ _ _ _ _ Ho Hmax F Hw) as G1. fold d' in G1. pose proof (fy_dok _ _ _ _ R) as [].
  pose proof (grow_meta _ _ _ _ _ _ _ Hw) as Em. fold d' in Em. rewrite Em. constructor; try done; cbn.
  - unfold is_u32. assert (MAXFILE * BSIZE = 71168) as Hmx by reflexivity. pose proof (fo_size _ _ _ F) as Hsz. fold ip d in Hsz. lia.
  - apply (fo_addrs _ _ _ G1).
  - apply (addrs_u32 sb f1); [apply (lo_bmap _ L)|apply (lo_size _ L)|done].
Qed.

Lemma wrote_file_intro off src f1 d1 lg1 x f' lg' : let d' := grow d1 (off + Z.of_nat (length src)) in
  0 <= off <= d_size d -> off + Z.of_nat (length src) <= MAXFILE * BSIZE ->
  written s f d lg [] off src f1 d1 lg1 -> tx x f' [] lg' ->
  (forall b, b <> IBLOCK (i_inum ip) sb -> f' b = f1 b) -> dinode_at f' sb (i_inum ip) = d' ->
  (forall j, inum_ok sb j -> j <> i_inum ip -> dinode_at f' sb j = dinode_at f1 sb j) ->
  (length lg' <= S (length lg1))%nat -> wrote_file off src (fst_ s i x d') f' d' lg'.
Proof.
  intros d' Ho Hmax Hw T' Hblk Hino Hoth Hlg. pose proof R as [T L Hm Hi Hd Hin Hc Hok F Ht]. fold ip d sb in Hd, Hin, Hc, Hok, F, Ht, L.
  pose proof (wr_stored _ _ _ _ _ _ _ _ _ _ Hw) as Hst. fold sb in Hst. pose proof (grow_file _ _ _ _ _ _ _ Ho Hmax F Hst) as G1.
  pose proof (grow_contents _ _ _ _ _ _ _ Ho F Hst) as G2. pose proof (grow_meta _ _ _ _ _ _ _ Hst) as Emeta. fold d' in G1, G2, Emeta.
  pose proof (sd_ext _ _ _ _ _ _ _ Hst) as E. pose proof (lo_bmap _ L) as Hbm.
  destruct (IBLOCK_range sb _ L Hin) as [_ Hib]. pose proof (lo_inodes _ L) as Hli.
  assert (Hmk : forall b, marked f' sb b = marked f1 sb b) by (intros b; unfold marked; by rewrite Hblk by lia).
  assert (Hmono : forall b, 0 <= b -> marked f sb b = true -> marked f' sb b = true)
    by (intros b Hb Hmb; rewrite Hmk; by apply (ex_marks _ _ _ _ _ _ _ E)).
  destruct (file_agree sb f1 f' d' (proj1 Hbm) G1) as (G3 & G4 & G5); [intros b _; by rewrite Hmk| |].
  { intros b Hb. apply Hblk. by apply (data_not_meta f1 d'). }
  pose proof (written_dinode _ _ _ _ _ Ho Hmax Hw) as Hok'. fold d' in Hok'.
  assert (Huses : forall b, uses f' d' b -> uses f1 d1 b).
  { assert (Ei : ind d' = ind d1) by (unfold d', grow; by destruct (_ >? _)).
    assert (Ea : forall k, faddr f1 d' k = faddr f1 d1 k) by (intros k; unfold d', grow; by destruct (_ >? _)).
    intros b [Hne Hu]%G5. split; [done|]. rewrite Ei in Hu. destruct Hu as [?|(k & Hk & ->)]; [by left|].
    right. exists k. by rewrite Ea. }
  assert (Eip : f_ic (fst_ s i x d') !!! i = set_d d' ip) by by apply st_ip.
  constructor.
  - done.
  - constructor; rewrite ?Eip; try done.
    + intros b Hb. apply Hmono; [lia|]. by apply Hm.
    + unfold fst_, putip; cbn. by rewrite length_insert.
    + cbn [i_d set_d]. by rewrite Emeta.
  - by rewrite G4.
  - done.
  - intros j Hj Hne. rewrite Hoth by done. unfold dinode_at. f_equal.
    destruct (IBLOCK_range sb j L Hj) as [_ Hjb].
    apply (ex_kept _ _ _ _ _ _ _ E); [lia|apply Hm; fold sb; lia|lia|]. intros Hu. apply (fo_used _ _ _ F) in Hu. lia.
  - intros d2 F2 Hdis. destruct (file_agree sb f f' d2 (proj1 Hbm) F2 Hmono) as (G6 & G7 & G8).
    { intros b Hb. destruct (fo_used _ _ _ F2 b Hb) as [Hr Hmb]. rewrite Hblk by by apply (data_not_meta f d2).
      apply (ex_kept _ _ _ _ _ _ _ E); [lia|done|lia|]. intros Hu. by apply (Hdis b). }
    split_and!; [done|done|]. intros b Hu%Huses Hu2%G8. apply (Hdis b); [|done].
    eapply ext_uses; [exact E| |done]. by apply (fo_used _ _ _ F2).
  - destruct (wr_adds _ _ _ _ _ _ _ _ _ _ Hw) as (V & Ha & HV). apply adds_length in Ha.
    assert (Hil : (length (inds d1) <= 1)%nat) by (unfold inds; destruct (ind d1 =? 0); cbn; lia).
    rewrite length_cons, length_app in Ha. cbn [length] in HV. lia.
  - intros e He. rewrite (nfree_marks f1 f') by done. pose proof (wr_free _ _ _ _ _ _ _ _ _ _ Hw e He) as Hfr. fold sb in Hfr.
    assert (Ei : need d' = need d1) by (unfold d', grow; by destruct (_ >? _)).
    rewrite (missing_same f1 d1 f' d'); [lia|lia|]. intros m Hm'. transitivity (faddr f1 d' m).
    + apply (file_same sb f1 d' f' G1); [lia|intros b _; by rewrite Hmk|]. intros Hne. apply Hblk.
      apply (data_not_meta f1 d'); [done|]. split; [done|by left].
    + unfold d', grow. by destruct (_ >? _).
Qed.

Lemma writei_spec devsw off src : is_u32 off -> let n := Z.of_nat (length src) in is_u32 n ->
  if (off >? d_size d) || (off + n >? MAXFILE * BSIZE) then writei devsw i src off n s = Ok (-1, s) else
  (missing f d (off + n) + need d <= nfree f sb)%nat ->
  Z.of_nat (length lg) + nblocks off n + 5 < Z.of_nat NB -> Z.of_nat (length lg) + nblocks off n + 5 < Z.of_nat tx_cap ->
  exists s' f' d' lg', writei devsw i src off n s = Ok (n, s') /\ wrote_file off src s' f' d' lg'.
Proof.
  intros Ho n Hn. destruct R as [T L Hm Hi Hd Hin Hc Hok F Ht]. fold ip d sb in Hd, Hin, Hc, Hok, F, Ht, L.
  pose proof (fo_size _ _ _ F) as Hsz. assert (Hmx : MAXFILE * BSIZE = 71168) by reflexivity. unfold is_u32 in *.
  unfold writei. mstep (eq_refl : getip i s = Ok (ip, s)). fold d. rewrite (proj2 (Z.eqb_neq _ _) Ht).
  destruct (off >? d_size d) eqn:E1; [done|]. cbn [orb]. destruct (off + n >? MAXFILE * BSIZE) eqn:E2.
  { destruct (u32 (off + n) <? off) eqn:E3; [done|]. by replace (u32 (off + n) >? MAXFILE * BSIZE) with true by (rewrite Hmx in *; ints). }
  intros Hfr Hnb Hcap. rewrite u32_small by lia. replace (off + n <? off) with false by lia. rewrite E2.
  destruct (writei_loop_spec s i Hi Hd L (Z.to_nat n) (f_io s) d f lg lg [] src 0 off n T Hm F) as (y & f' & d' & lg' & E & T' & Hw);
    rewrite ?Z.sub_0_r; try lia; [apply adds_refl|done|cbn [length]; lia|cbn [length]; lia|].
  rewrite st_self, Z.sub_0_r in E by done. mstep E. mstep (st_getip s i Hi y d'). cbn [i_d set_d]. fold ip.
  pose proof (sd_ext _ _ _ _ _ _ _ (wr_stored _ _ _ _ _ _ _ _ _ _ Hw)) as Ee. fold sb in Ee.
  assert (Hs1 : d_size d' = d_size d) by by rewrite (ex_meta _ _ _ _ _ _ _ Ee).
  pose proof (fo_addrs _ _ _ (ex_ok _ _ _ _ _ _ _ Ee)) as Hal.
  destruct (wr_adds _ _ _ _ _ _ _ _ _ _ Hw) as (V & Ha%adds_length & HV). rewrite length_cons, length_app in Ha.
  assert (Hil : (length (inds d') <= 1)%nat) by (unfold inds; destruct (ind d' =? 0); cbn; lia). cbn [length] in HV. fold n in HV.
  rewrite s32_small by lia. destruct ((n >? 0) && (off + n >? d_size d')) eqn:Eg; cbn [when].
  - assert (Eg' : grow d' (off + n) = set_size (off + n) d') by (unfold grow; by replace (off + n >? d_size d') with true by lia).
    assert (Eip : f_ic (fst_ s i y (set_size (off + n) d')) !!! i = set_d (set_size (off + n) d') ip) by by apply st_ip.
    destruct (iupdate_spec (fst_ s i y (set_size (off + n) d')) f' [] lg' i) as (x & Ex & Tx); rewrite ?Eip; try done;
      [apply not_elem_of_nil|cbn [length]; lia|lia|].
    rewrite Eip in Tx. cbn [i_inum i_d set_d] in Tx. change (f_sb (fst_ s i y _)) with sb in Tx.
    eexists (fst_ s i x (set_size (off + n) d')), _, (set_size (off + n) d'), _. split.
    + rewrite bind_assoc. mstep (st_updd s i Hi y d' (set_size (off + n))). by mstep Ex.
    + pose proof (written_dinode off src f' d' lg' ltac:(lia) ltac:(fold n; lia) Hw) as Hok'. fold n in Hok'.
      assert (Hl : forall b, length (f' b) = Z.to_nat BSIZE) by (intros b; by eapply tx_sized).
      rewrite <- Eg' in *. eapply wrote_file_intro; [lia|fold n; lia|exact Hw|exact Tx| | | |].
      * intros b Hb. unfold iwrite. by rewrite assign_eq, decide_False.
      * by rewrite dinode_at_iwrite, decide_True.
      * intros j Hj Hne. by rewrite dinode_at_iwrite, decide_False.
      * unfold absorb. case_decide; rewrite ?length_app; cbn; lia.
  - assert (Eg' : grow d' (off + n) = d') by (unfold grow; by replace (off + n >? d_size d') with false by lia).
    exists (fst_ s i y d'), f', d', lg'. split; [done|]. rewrite <- Eg' at 1 2. 
    eapply wrote_file_intro; [lia|fold n; lia|exact Hw|exact T'| | | |lia]; try done.
    fold n. rewrite Eg'. rewrite (wr_same _ _ _ _ _ _ _ _ _ _ Hw) by (fold n; lia). rewrite <- Hc. unfold dinode_at. f_equal.
    destruct (IBLOCK_range sb _ L Hin) as [_ Hib]. pose proof (lo_inodes _ L). pose proof (lo_bmap _ L).
    apply (ex_kept _ _ _ _ _ _ _ Ee); [lia|apply Hm; fold sb; lia|lia|]. intros Hu. apply (fo_used _ _ _ F) in Hu. lia.
Qed.
End One.
End Files.

Section Claims.
  Context {W : Type} `{BlockLaws W}.

Lemma readi_dev (s : fsys W) i devsw off n : let d := i_d (f_ic s !!! i) in d_type d = T_DEV ->
  readi devsw i off n s =
    if (0 <=? d_major d) && (d_major d <? NDEV)
    then match devsw (d_major d) with None => Ok ((-1, []), s) | Some read => read i (s32 n) s end
    else Ok ((-1, []), s).
Proof.
  intros d Ht. unfold readi. mstep (eq_refl : getip i s = Ok (f_ic s !!! i, s)). fold d. rewrite Ht, Z.eqb_refl.
  destruct (d_major d <? 0) eqn:E1, (d_major d >=? NDEV) eqn:E2; cbn [orb].
  - by replace (0 <=? d_major d) with false by lia.
  - by replace (0 <=? d_major d) with false by lia.
  - replace (0 <=? d_major d) with true by lia. by replace (d_major d <? NDEV) with false by lia.
  - replace (0 <=? d_major d) with true by lia. replace (d_major d <? NDEV) with true by lia. cbn [andb].
    by destruct (devsw _).
Qed.

(** C9. [readi] on every branch.  On a locked inode of a file, whose blocks are data
    blocks of its own, it returns the bytes of the contents from [off] on, at most
    [n] and no more than there are, and leaves the disk as it was; an offset past the
    end, or a range that wraps around, gives -1.  This is so under the laws of a
    transaction ([Block.log_laws]) as well as outside one ([Block.read_laws]), which
    is how [fileread] calls it.  On the inode of a device it returns what the
    device's function does with [n], and -1 when the major number is out of range or
    has no function. *)
Theorem readi_correct (s : fsys W) i devsw off n : is_u32 off -> is_u32 n ->
  let d := i_d (f_ic s !!! i) in
  (d_type d = T_DEV -> readi devsw i off n s =
     if (0 <=? d_major d) && (d_major d <? NDEV)
     then match devsw (d_major d) with None => Ok ((-1, []), s) | Some read => read i (s32 n) s end
     else Ok ((-1, []), s)) /\
  (forall f lg, file_ready s i f lg -> (length lg < NB)%nat ->
     if (off >? d_size d) || (off + n >=? 4294967296) then readi devsw i off n s = Ok ((-1, []), s) else
     exists x, let r := slice (contents f d) (Z.to_nat off) (Z.to_nat n) in
       readi devsw i off n s = Ok ((Z.of_nat (length r), r), put_io x s) /\ tx x f [] lg).
Proof.
  intros Ho Hn d. split; [intros Ht; by apply readi_dev|].
  intros f lg R Hl. pose proof (readi_spec s i f lg R devsw off n Hl Ho Hn) as Hr.
  fold d in Hr. destruct (_ || _); [done|]. destruct Hr as (y & E & T). exists y. split; [|done]. rewrite E. do 2 f_equal.
  unfold fst_, putip, put_ic, put_io; cbn. f_equal. unfold d. apply list_insert_id.
  rewrite list_lookup_lookup_total_lt by apply (fy_i _ _ _ _ R). f_equal. by destruct (f_ic s !!! i).
Qed.

(** C8. What [writei] writes is what [readi] reads, and nothing else changes.  On a
    locked inode of a file, with room in the transaction and enough free blocks, a
    write that begins inside the file and fits the largest file puts its bytes at
    its offset and extends the file if it reaches further; the inode on the disk
    says so; other inodes and the files that share no block with this one are as
    before, and share no block with it after; at most three blocks more are logged
    than the data lies in.  Enough free blocks are those that the file lacks.  Reading the range back gives what was written.  Any other
    write gives -1 and does nothing. *)
Theorem writei_correct (s : fsys W) i f lg devsw_r devsw_w off src : file_ready s i f lg -> is_u32 off ->
  let n := Z.of_nat (length src) in let d := i_d (f_ic s !!! i) in is_u32 n ->
  (missing f d (off + n) + need d <= nfree f (f_sb s))%nat ->
  Z.of_nat (length lg) + nblocks off n + 5 < Z.min (Z.of_nat NB) (Z.of_nat tx_cap) ->
  if (off >? d_size d) || (off + n >? MAXFILE * BSIZE) then writei devsw_w i src off n s = Ok (-1, s) else
  exists s' f' d' lg' x, writei devsw_w i src off n s = Ok (n, s') /\ wrote_file s i f lg off src s' f' d' lg' /\
    readi devsw_r i off n s' = Ok ((n, src), x).
Proof.
  intros R Ho n d Hn Hfr Hroom. pose proof (writei_spec s i f lg R devsw_w off src Ho Hn) as Hw. fold n d in Hw.
  destruct (_ || _) eqn:Eb; [done|]. destruct Hw as (s' & f' & d' & lg' & E & Hw); [done|lia|lia|].
  pose proof (wf_logged _ _ _ _ _ _ _ _ _ _ Hw) as Hlg. fold n in Hlg.
  pose proof (readi_spec s' i f' lg' (wf_ready _ _ _ _ _ _ _ _ _ _ Hw) devsw_r off n ltac:(lia) Ho Hn) as Hr.
  assert (Ed : i_d (f_ic s' !!! i) = d') by (rewrite (wf_state _ _ _ _ _ _ _ _ _ _ Hw), st_ip by apply (fy_i _ _ _ _ R); done).
  rewrite Ed in Hr. assert (Hsz' : d_size d' = Z.max (d_size d) (off + n)) by by rewrite (wf_meta _ _ _ _ _ _ _ _ _ _ Hw).
  assert (Hmx : MAXFILE * BSIZE = 71168) by reflexivity. pose proof (fo_size _ _ _ (fy_file _ _ _ _ R)) as Hsz. fold d in Hsz.
  replace ((off >? _) || _) with false in Hr by (unfold is_u32 in *; lia). destruct Hr as (y & Er & _).
  assert (Es : slice (contents f' d') (Z.to_nat off) (Z.to_nat n) = src).
  { rewrite (wf_contents _ _ _ _ _ _ _ _ _ _ Hw). unfold splice, slice. fold d. unfold is_u32 in *.
    rewrite drop_app_length' by (rewrite length_take, contents_length; lia). rewrite take_app_length' by lia. done. }
  rewrite Es in Er. by eexists s', f', d', lg', _.
Qed.
End Claims.

(** ** Witnesses: the root directory on the disk of mkfs, locked *)

#[local] Existing Instance laws_fs.
#[local] Opaque boot_fs.

Definition fs_root : fsys lstate := putip 0 (locked_inode 1 rootino0 (f_ic fs0 !!! 0%nat)) fs0.

Lemma root_faddr n : slot n -> faddr view_fs rootino0 n = if decide (n = 0) then 59 else 0.
Proof.
  intros Hn. unfold slot, MAXFILE, NINDIRECT, NDIRECT, BSIZE in Hn. change (512 / 4) with 128 in Hn. unfold faddr, NDIRECT.
  destruct (decide (n = 0)) as [->|Hne]; [done|]. destruct (n <? 11) eqn:E; [|done].
  replace (Z.to_nat n) with (S (Z.to_nat (n - 1))) by lia.
  change (replicate 11 0 !!! Z.to_nat (n - 1) = 0). rewrite list_lookup_total_alt, lookup_replicate_2 by lia. done.
Qed.

Lemma root_file : file_ok view_fs sb_fs rootino0.
Proof.
  assert (Hind : ind rootino0 = 0) by reflexivity.
  constructor.
  - done.
  - vm_compute. split; discriminate.
  - intros b [Hne [->|(n & Hn & ->)]]; [done|]. rewrite root_faddr in * by done. destruct (decide (n = 0)); [|done].
    split; [vm_compute; split; reflexivity|]. unfold marked. cbn [sb_bmapstart sb_fs]. rewrite bitmap_fs. vm_compute. reflexivity.
  - intros m n Hm Hn. rewrite !root_faddr by done. destruct (decide (m = 0)), (decide (n = 0)); congruence.
  - intros n Hn. rewrite root_faddr, Hind by done. by destruct (decide (n = 0)).
  - intros n Hn Hlt. cbn in Hlt. assert (n = 0) as -> by (unfold BSIZE in Hlt; lia). rewrite root_faddr; [done|].
    vm_compute. split; [discriminate|reflexivity].
Qed.

Lemma root_dinode_ok : dinode_ok rootino0.
Proof.
  rewrite <- rootino_fs. unfold dinode_at. change (IBLOCK ROOTINO sb_fs) with 32.
  rewrite inodes_fs. apply get_dinode_ok, inodes0_bytes.
Qed.

Lemma root_ready : file_ready fs_root 0 view_fs [].
Proof.
  apply Build_file_ready; [exact tx_fs|exact layout_fs|exact meta_fs|change (0 < 50)%nat; lia| | |exact rootino_fs|
    exact root_dinode_ok|exact root_file|change (T_DIR <> T_DEV); done].
  - change (ROOTDEV = ROOTDEV). done.
  - change (0 <= 1 < 200). lia.
Qed.

(** The same directory before any transaction begins. *)
Definition fs_quiet : fsys lstate := put_io boot_fs fs_root.

Lemma quiet_ready : file_ready (H0 := read_laws boot_fs) fs_quiet 0 view_fs [].
Proof.
  apply Build_file_ready; [exact (idle_reads _ boot_fs_idle)|destruct layout_fs; by constructor|exact meta_fs|
    change (0 < 50)%nat; lia| | |exact rootino_fs|exact root_dinode_ok|exact root_file|change (T_DIR <> T_DEV); done].
  - change (ROOTDEV = ROOTDEV). done.
  - change (0 <= 1 < 200). lia.
Qed.

Lemma readi_correct_witness :
  (exists x, readi (fun _ => None) 0 16 5 fs_root = Ok ((5, slice (contents view_fs rootino0) 16 5), put_io x fs_root)) /\
  (exists x, readi (fun _ => None) 0 16 5 fs_quiet = Ok ((5, slice (contents view_fs rootino0) 16 5), put_io x fs_quiet)).
Proof.
  split.
  - destruct (readi_correct fs_root 0 (fun _ => None) 16 5) as [_ Hr]; [by unfold is_u32..|].
    destruct (Hr _ _ root_ready) as (x & E & T); [vm_compute; lia|]. exists x. exact E.
  - destruct (readi_correct (H0 := read_laws boot_fs) fs_quiet 0 (fun _ => None) 16 5) as [_ Hr]; [by unfold is_u32..|].
    destruct (Hr _ _ quiet_ready) as (x & E & T); [vm_compute; lia|]. exists x. exact E.
Defined.

Lemma nfree_fs : nfree view_fs sb_fs = 940%nat.
Proof.
  rewrite (nfree_marks (fun _ => bitmap0)).
  - vm_compute. reflexivity.
  - intros y. unfold marked. cbn [sb_bmapstart sb_fs]. by rewrite bitmap_fs.
Qed.

(** An entry for inode 2 named [a] appended to the root directory. *)
Lemma writei_correct_witness : exists s' f' d' lg' x, let e := [2; 0; 97] ++ replicate 13 0 in
  writei (fun _ => None) 0 e 512 16 fs_root = Ok (16, s') /\ wrote_file fs_root 0 view_fs [] 512 e s' f' d' lg' /\
  readi (fun _ => None) 0 512 16 s' = Ok ((16, e), x).
Proof.
  apply (writei_correct fs_root 0 view_fs [] (fun _ => None) (fun _ => None) 512 ([2; 0; 97] ++ replicate 13 0) root_ready).
  - by unfold is_u32.
  - by unfold is_u32.
  - change (f_sb fs_root) with sb_fs. rewrite nfree_fs. change (i_d _) with rootino0.
    rewrite (missing_same (fun _ => []) rootino0); [vm_compute; lia|vm_compute; discriminate|]. intros m Hm. reflexivity.
  - rewrite cap_fs. vm_compute. reflexivity.
Defined.
