(* ===== verification/FsPath.v ===== *)
(** Directories and path names (fs.c): [dirlookup] finds the entry of a name, and
    [namex] walks the directory tree that the disk holds.  *)

From S2P Require Import Prelude Bio Log Crash Block Strings Fs FsAlloc FsInode FsRefs FsName FsBlocks FsFile.
Local Open Scope Z_scope.

(** * Directories as the disk holds them *)

(** Entry [k] of a directory with contents [c]: inode number and name. *)
Definition dent (c : bytes) (k : nat) : bytes := slice c (16 * k) 16.
Definition dent_inum (c : bytes) (k : nat) : Z := ld 2 (dent c k) 0.
Definition dent_name (c : bytes) (k : nat) : bytes := name_of 14 (drop 2 (dent c k)).

(** The first of the [n] entries from [k] on that is in use and has the name. *)
Fixpoint dir_from (n k : nat) (c name : bytes) : option nat :=
  match n with
  | O => None
  | S n' =>
      if negb (dent_inum c k =? 0) && bool_decide (dent_name c k = name) then Some k
      else dir_from n' (S k) c name
  end.

Definition dir_find (c name : bytes) : option nat := dir_from (length c / 16) 0 c name.

Lemma dir_from_spec n k c name j : dir_from n k c name = Some j ->
  (k <= j < k + n)%nat /\ dent_inum c j <> 0 /\ dent_name c j = name.
Proof.
  revert k. induction n as [|n IH]; intros k; cbn [dir_from]; [done|]. destruct (_ && _) eqn:E.
  - intros [= <-]. apply andb_true_iff in E as [E1 E2]. apply bool_decide_eq_true in E2. split_and!; [lia|lia|lia|done].
  - intros (H1 & H2)%IH. split; [lia|done].
Qed.

(** An inode in use, and the tree of directories. *)
Definition allocated (f : Z -> bytes) (sb : superblock) (j : Z) : Prop :=
  inum_ok sb j /\ d_type (dinode_at f sb j) <> 0.
Definition linked (f : Z -> bytes) (sb : superblock) (j : Z) : Prop :=
  allocated f sb j /\ d_nlink (dinode_at f sb j) <> 0.
Definition is_dir (f : Z -> bytes) (sb : superblock) (j : Z) : bool := d_type (dinode_at f sb j) =? T_DIR.

(** The inode that the name stands for in directory [j]. *)
Definition child (f : Z -> bytes) (sb : superblock) (j : Z) (name : bytes) : option Z :=
  if is_dir f sb j then
    let c := contents f (dinode_at f sb j) in
    match dir_find c (take 14 name) with
    | Some k => Some (dent_inum c k)
    | None => None
    end
  else None.

(** What a path stands for, and the directory of its last element. *)
Fixpoint resolve (f : Z -> bytes) (sb : superblock) (j : Z) (path : list bytes) : option Z :=
  match path with
  | [] => Some j
  | e :: path' => match child f sb j e with Some j' => resolve f sb j' path' | None => None end
  end.

Fixpoint resolve_parent (f : Z -> bytes) (sb : superblock) (j : Z) (path : list bytes) : option (Z * bytes) :=
  match path with
  | [] => None
  | [e] => if is_dir f sb j then Some (j, take 14 e) else None
  | e :: path' => match child f sb j e with Some j' => resolve_parent f sb j' path' | None => None end
  end.

(** The disk holds a tree: the inodes in use are files or directories, and the
    entries of directories are inodes with links. *)
Record fs_ok (f : Z -> bytes) (sb : superblock) : Prop := {
  fk_bytes : forall j, allocated f sb j -> Forall byte_ok (f (IBLOCK j sb));
  fk_file : forall j, allocated f sb j -> d_type (dinode_at f sb j) <> T_DEV -> file_ok f sb (dinode_at f sb j);
  fk_dir : forall j, allocated f sb j -> is_dir f sb j = true ->
    d_size (dinode_at f sb j) mod 16 = 0 /\ Forall byte_ok (contents f (dinode_at f sb j)) /\
    forall k, 16 * Z.of_nat k < d_size (dinode_at f sb j) ->
      let n := dent_inum (contents f (dinode_at f sb j)) k in n <> 0 -> linked f sb n
}.

(** * dirlookup *)

Section Lookup.
  Context {W : Type} `{BlockLaws W}.
  Context (devsw : Z -> option (nat -> Z -> M (fsys W) (Z * bytes))).
  Context (s : fsys W) (i : nat) (f : Z -> bytes) (lg : list Z) (R : file_ready s i f lg) (Hlg : (length lg < NB)%nat).
Let d := i_d (f_ic s !!! i).
Let c := contents f d.

Lemma st_put x : fst_ s i x d = put_io x s.
Proof.
  unfold fst_, putip, put_ic, put_io; cbn. f_equal. apply list_insert_id.
  rewrite list_lookup_lookup_total_lt by apply (fy_i _ _ _ _ R). f_equal. unfold d. by destruct (f_ic s !!! i).
Qed.

Lemma ready_io x : tx x f [] lg -> file_ready (put_io x s) i f lg.
Proof. intros T. by destruct R. Qed.

(** One entry read. *)
Lemma read_dent x k : tx x f [] lg -> (16 * k + 16 <= length c)%nat ->
  exists y, readi devsw i (16 * Z.of_nat k) SIZEOF_DIRENT (put_io x s) = Ok ((16, dent c k), put_io y s) /\ tx y f [] lg.
Proof.
  intros T Hk. unfold c in Hk. rewrite contents_length in Hk. pose proof (fo_size _ _ _ (fy_file _ _ _ _ R)) as Hsz. fold d in Hsz.
  assert (Hmx : MAXFILE * BSIZE = 71168) by reflexivity.
  pose proof (readi_spec (put_io x s) i f lg (ready_io x T) devsw (16 * Z.of_nat k) SIZEOF_DIRENT Hlg) as Hr.
  unfold is_u32, SIZEOF_DIRENT in *. cbn [f_ic put_io] in Hr. fold d in Hr.
  replace ((16 * Z.of_nat k >? d_size d) || (16 * Z.of_nat k + 16 >=? 4294967296)) with false in Hr by lia.
  destruct Hr as (y & E & T'); [lia|lia|]. exists y. split; [|done]. cbv zeta in E. change (Z.to_nat 16) with 16%nat in E.
  replace (Z.to_nat (16 * Z.of_nat k)) with (16 * k)%nat in E by lia. fold c in E. fold (dent c k) in E.
  assert (Hl : length (dent c k) = 16%nat) by (apply length_slice; unfold c; rewrite contents_length; lia).
  rewrite E, Hl. do 2 f_equal. exact (st_put y).
Qed.

Lemma dirlookup_loop_spec fuel x k n name : tx x f [] lg -> readable 14 name = true -> Forall byte_ok name ->
  Forall byte_ok c -> Z.of_nat (16 * (k + n)) = d_size d -> (n <= fuel)%nat ->
  match dir_from n k c (name_of 14 name) with
  | None => exists y, dirlookup_loop devsw fuel i name (16 * Z.of_nat k) (put_io x s) = Ok (None, put_io y s) /\ tx y f [] lg
  | Some j => exists y, dirlookup_loop devsw fuel i name (16 * Z.of_nat k) (put_io x s) =
      (let! e := iget ROOTDEV (dent_inum c j) in ret (Some (e, 16 * Z.of_nat j))) (put_io y s) /\ tx y f [] lg
  end.
Proof.
  intros T Hrd Hbn Hbc. revert x k fuel T. induction n as [|n IH]; intros x k fuel T Hsz Hfu; cbn [dir_from].
  { exists x. split; [|done]. destruct fuel; cbn [dirlookup_loop]; mstep (eq_refl : getip i (put_io x s) = Ok (f_ic s !!! i, put_io x s));
      fold d; by replace (16 * Z.of_nat k <? d_size d) with false by lia. }
  destruct fuel as [|fuel]; [lia|]. cbn [dirlookup_loop].
  assert (Hlc : length c = Z.to_nat (d_size d)) by apply contents_length.
  destruct (read_dent x k T ltac:(lia)) as (y & E & T').
  assert (Hld : length (dent c k) = 16%nat) by (apply length_slice; lia).
  assert (Hbd : Forall byte_ok (drop 2 (dent c k))) by (apply Forall_drop; unfold dent, slice; by apply Forall_take, Forall_drop).
  destruct (strncmp_spec 14 name (drop 2 (dent c k))) as (r & Er & Hr); [done|apply readable_length; rewrite length_drop; lia|done|done|].
  specialize (IH y (S k) fuel T' ltac:(lia) ltac:(lia)).
  replace (16 * Z.of_nat (S k)) with (16 * Z.of_nat k + SIZEOF_DIRENT) in IH by (unfold SIZEOF_DIRENT; lia).
  assert (Estep : dirlookup_loop devsw (S fuel) i name (16 * Z.of_nat k) (put_io x s) =
    (if dent_inum c k =? 0 then dirlookup_loop devsw fuel i name (16 * Z.of_nat k + SIZEOF_DIRENT) (put_io y s) else
     if r =? 0 then (let! e := iget ROOTDEV (dent_inum c k) in ret (Some (e, 16 * Z.of_nat k))) (put_io y s)
     else dirlookup_loop devsw fuel i name (16 * Z.of_nat k + SIZEOF_DIRENT) (put_io y s))).
  { cbn [dirlookup_loop]. mstep (eq_refl : getip i (put_io x s) = Ok (f_ic s !!! i, put_io x s)). fold d.
    replace (16 * Z.of_nat k <? d_size d) with true by lia. mstep E. cbn [fst snd]. change (negb (16 =? SIZEOF_DIRENT)) with false.
    cbv iota zeta. change (ld 2 (dent c k) 0) with (dent_inum c k). destruct (dent_inum c k =? 0); [done|].
    assert (El : lift (namecmp name (drop 2 (dent c k))) (put_io y s) = Ok (r, put_io y s)).
    { unfold namecmp. change (Z.to_nat DIRSIZ) with 14%nat. by rewrite Er. }
    mstep El. destruct (r =? 0); [|done]. mstep (eq_refl : getip i (put_io y s) = Ok (f_ic s !!! i, put_io y s)).
    by rewrite (fy_dev _ _ _ _ R). }
  cbn [dirlookup_loop] in Estep. rewrite Estep. clear Estep.
  destruct (dent_inum c k =? 0) eqn:E0; cbn [negb andb]; [exact IH|].
  destruct (r =? 0) eqn:E1.
  - rewrite bool_decide_true; [|symmetry; apply Hr; lia]. by exists y.
  - rewrite bool_decide_false; [exact IH|]. intros En. apply Z.eqb_neq in E1. apply E1, Hr. by rewrite <- En.
Qed.

Lemma dirlookup_spec name : d_type d = T_DIR -> d_size d mod 16 = 0 -> Forall byte_ok c ->
  readable 14 name = true -> Forall byte_ok name ->
  match dir_find c (name_of 14 name) with
  | None => exists y, dirlookup devsw i name s = Ok (None, put_io y s) /\ tx y f [] lg
  | Some j => exists y, dirlookup devsw i name s =
      (let! e := iget ROOTDEV (dent_inum c j) in ret (Some (e, 16 * Z.of_nat j))) (put_io y s) /\ tx y f [] lg
  end.
Proof.
  intros Ht Hs Hbc Hrd Hbn. unfold dirlookup, dir_find. mstep (eq_refl : getip i s = Ok (f_ic s !!! i, s)). fold d.
  rewrite Ht. change (negb (T_DIR =? T_DIR)) with false. cbv iota.
  pose proof (fo_size _ _ _ (fy_file _ _ _ _ R)) as Hsz. fold d in Hsz. unfold c. rewrite contents_length. fold c.
  assert (Ed : Z.of_nat (Z.to_nat (d_size d) / 16) = d_size d / 16) by (rewrite Nat2Z.inj_div; f_equal; lia).
  replace s with (put_io (f_io s) s) by by destruct s.
  apply (dirlookup_loop_spec _ (f_io s) 0); [apply (fy_tx _ _ _ _ R)|done|done|done| |]; divmod.
Qed.
End Lookup.

(** * Walking a path

    [R0] are the references of others to the inode cache; [walking s P lk] holds in a
    state in which the walk holds the references [P] and the lock on entry [lk].  The
    references are few enough for the [int] that counts them. *)

Section Walk.
  Context {W : Type} `{BlockLaws W}.
  Context (devsw : Z -> option (nat -> Z -> M (fsys W) (Z * bytes))).
  Context (f : Z -> bytes) (lg : list Z) (sb : superblock) (me : Z) (cwd : nat) (R0 : list nat) (num0 : nat -> Z) (ni : nat).
  Context (L : layout_ok sb) (K : fs_ok f sb) (Hm : forall x, 0 <= x <= sb_bmapstart sb -> marked f sb x = true)
    (Hlg : (length lg < NB)%nat).

Record walking (s : fsys W) (P : list nat) (lk : option nat) : Prop := {
  wk_tx : tx (f_io s) f [] lg;
  wk_len : length (f_ic s) = ni;
  wk_sb : f_sb s = sb;
  wk_pid : f_pid s = me;
  wk_cwd : f_cwd s = cwd;
  wk_refs : refs_ok s (P ++ R0);
  wk_used : forall e, e ∈ P ++ R0 -> i_dev (f_ic s !!! e) = ROOTDEV /\ allocated f sb (i_inum (f_ic s !!! e)) /\
    (i_valid (f_ic s !!! e) = true -> i_d (f_ic s !!! e) = dinode_at f sb (i_inum (f_ic s !!! e)));
  wk_lock : forall e, (e < length (f_ic s))%nat ->
    if decide (lk = Some e) then i_lock (f_ic s !!! e) = mksleeplock true me else sl_locked (i_lock (f_ic s !!! e)) = false;
  wk_kept : forall e, e ∈ R0 -> i_inum (f_ic s !!! e) = num0 e;
  wk_few : Z.of_nat (length R0) + 1 < INT_MAX
}.

Lemma refs_io (s : fsys W) x R : refs_ok s R -> refs_ok (put_io x s) R.
Proof. intros []. by constructor. Qed.

Lemma walking_io s P lk x : walking s P lk -> tx x f [] lg -> walking (put_io x s) P lk.
Proof. intros [] T. constructor; try done. by apply refs_io. Qed.

(** An update of one entry that keeps its identity and its count. *)
Lemma walking_upd s P lk lk' k ip : walking s P lk -> (k < length (f_ic s))%nat ->
  i_dev ip = i_dev (f_ic s !!! k) -> i_inum ip = i_inum (f_ic s !!! k) -> i_ref ip = i_ref (f_ic s !!! k) ->
  (k ∈ P ++ R0 -> i_valid ip = true -> i_d ip = dinode_at f sb (i_inum ip)) ->
  (forall e, e <> k -> lk' = Some e <-> lk = Some e) ->
  (if decide (lk' = Some k) then i_lock ip = mksleeplock true me else sl_locked (i_lock ip) = false) ->
  walking (putip k ip s) P lk'.
Proof.
  intros [] Hk Ed Ei Er Hv Hl Hlk.
  assert (Eg : forall e, f_ic (putip k ip s) !!! e = if decide (e = k) then ip else f_ic s !!! e).
  { intros e. cbn. destruct (decide (e = k)) as [->|]; [by apply list_lookup_total_insert_eq|by apply list_lookup_total_insert_ne]. }
  constructor; try done.
  - cbn. by rewrite length_insert.
  - eapply refs_shape; [|exact wk_refs0]. unfold face; cbn. f_equal.
    rewrite list_fmap_insert. apply list_insert_id. rewrite list_lookup_fmap, list_lookup_lookup_total_lt by done. cbn.
    unfold shape. congruence.
  - intros e He. rewrite Eg. destruct (decide (e = k)) as [->|]; [|by apply wk_used0].
    destruct (wk_used0 k He) as (Hu1 & Hu2 & Hu3). rewrite Ed, Ei. split_and!; [done|done|]. rewrite <- Ei. by apply Hv.
  - intros e He. cbn in He. rewrite length_insert in He. rewrite Eg. specialize (wk_lock0 e He).
    destruct (decide (e = k)) as [->|Hne]; [done|]. specialize (Hl e Hne).
    destruct (decide (lk' = Some e)), (decide (lk = Some e)); tauto.
  - intros e He. rewrite Eg. destruct (decide (e = k)) as [->|]; [|by apply wk_kept0]. rewrite Ei. by apply wk_kept0.
Qed.

Lemma walking_in s P lk k : walking s P lk -> k ∈ P ++ R0 -> (k < length (f_ic s))%nat /\ 1 <= i_ref (f_ic s !!! k).
Proof.
  intros Wk Hk. pose proof (rf_range _ _ (wk_refs _ _ _ Wk) k Hk) as Hl. split; [done|].
  rewrite (rf_count _ _ (wk_refs _ _ _ Wk)) by done. apply list_elem_of_In, (count_occ_In Nat.eq_dec) in Hk. lia.
Qed.

Lemma walk_ilock s P k : walking s P None -> k ∈ P ++ R0 ->
  exists x, ilock k s = Ok (tt, putip k (locked_inode me (dinode_at f sb (i_inum (f_ic s !!! k))) (f_ic s !!! k)) (put_io x s)) /\
    tx x f [] lg /\
    walking (putip k (locked_inode me (dinode_at f sb (i_inum (f_ic s !!! k))) (f_ic s !!! k)) (put_io x s)) P (Some k).
Proof.
  intros Wk Hk. destruct (walking_in _ _ _ _ Wk Hk) as [Hl Hr]. destruct (wk_used _ _ _ Wk k Hk) as (Hd & Ha & Hv).
  set (ip := f_ic s !!! k) in *. set (d := dinode_at f sb (i_inum ip)) in *.
  pose proof (wk_lock _ _ _ Wk k Hl) as Hlk. rewrite decide_False in Hlk by done. fold ip in Hlk.
  assert (exists x, ilock k s = Ok (tt, putip k (locked_inode me d ip) (put_io x s)) /\ tx x f [] lg) as (x & E & T).
  { destruct (i_valid ip) eqn:Ev.
    - exists (f_io s). split; [|apply (wk_tx _ _ _ Wk)]. replace (put_io (f_io s) s) with s by by destruct s.
      rewrite <- (wk_pid _ _ _ Wk), <- Hv by done. by apply ilock_valid.
    - pose proof (ilock_read s f [] lg k (wk_tx _ _ _ Wk)) as Hrd. cbv zeta in Hrd. rewrite (wk_sb _ _ _ Wk), (wk_pid _ _ _ Wk) in Hrd.
      fold ip d in Hrd. destruct Ha as [Hin Ht]. fold d in Ht. specialize (Hrd L Hl Hr Hlk Ev Hd Hin (not_elem_of_nil _) Hlg).
      rewrite (proj2 (Z.eqb_neq _ _) Ht) in Hrd. exact Hrd. }
  exists x. split_and!; [done|done|]. apply (walking_upd _ _ None); try done.
  - by apply walking_io.
  - intros e Hne. split; intros [=]; congruence.
  - by rewrite decide_True.
Qed.

Lemma walk_iunlock s P k : walking s P (Some k) -> k ∈ P ++ R0 ->
  let s' := putip k (set_ilock (mksleeplock false 0) (f_ic s !!! k)) s in
  iunlock k s = Ok (tt, s') /\ walking s' P None.
Proof.
  intros Wk Hk s'. destruct (walking_in _ _ _ _ Wk Hk) as [Hl Hr]. destruct (wk_used _ _ _ Wk k Hk) as (Hd & Ha & Hv).
  pose proof (wk_lock _ _ _ Wk k Hl) as Hlk. rewrite decide_True in Hlk by done. split.
  - apply iunlock_Ok; [|done]. by rewrite (wk_pid _ _ _ Wk).
  - apply (walking_upd _ _ (Some k)); try done. intros e Hne. split; intros [=]; congruence.
Qed.

Lemma walk_iput s P k : walking s (k :: P) None -> d_nlink (dinode_at f sb (i_inum (f_ic s !!! k))) <> 0 ->
  exists s', iput k s = Ok (tt, s') /\ walking s' P None /\ forall e, i_inum (f_ic s' !!! e) = i_inum (f_ic s !!! e).
Proof.
  intros Wk Hn. assert (Hk : k ∈ (k :: P) ++ R0) by by left. destruct (walking_in _ _ _ _ Wk Hk) as [Hl Hr].
  destruct (wk_used _ _ _ Wk k Hk) as (Hd & Ha & Hv). set (ip := f_ic s !!! k) in *.
  pose proof (wk_lock _ _ _ Wk k Hl) as Hlk. rewrite decide_False in Hlk by done. fold ip in Hlk.
  set (ip1 := set_ilock (mksleeplock false 0) ip). set (ip2 := set_ref (i_ref ip - 1) ip1).
  assert (W1 : walking (putip k ip1 s) (k :: P) None) by (apply (walking_upd _ _ None); done).
  exists (putip k ip2 s). split_and!.
  - unfold iput. mstep (acquire_ilock_free k s Hlk). fold ip. unfold bind at 1, getip, gets. rewrite putip_get by done.
    cbn [i_valid set_ilock i_d i_ref]. replace (i_valid ip && (d_nlink (i_d ip) =? 0) && (i_ref ip =? 1)) with false.
    2: { destruct (i_valid ip) eqn:Ev; [|done]. rewrite (Hv eq_refl). by rewrite (proj2 (Z.eqb_neq _ _) Hn). }
    cbn [when]. mstep (eq_refl : ret tt (putip k (set_ilock (mksleeplock true (f_pid s)) ip) s) = Ok (tt, putip k (set_ilock (mksleeplock true (f_pid s)) ip) s)).
    rewrite (bind_Ok _ _ _ _ _ (updip_Ok k (fun ip => set_ilock (releasesleep (i_lock ip)) ip) _)).
    rewrite updip_Ok, !putip_get, !putip_put by (cbn; rewrite ?length_insert; done). done.
  - destruct W1 as [T1 N1 S1 P1 C1 Rf1 U1 L1 K1].
    assert (Eg : forall e, f_ic (putip k ip2 s) !!! e = if decide (e = k) then ip2 else f_ic s !!! e).
    { intros e. cbn. destruct (decide (e = k)) as [->|]; [by apply list_lookup_total_insert_eq|by apply list_lookup_total_insert_ne]. }
    assert (Eg1 : forall e, f_ic (putip k ip1 s) !!! e = if decide (e = k) then ip1 else f_ic s !!! e).
    { intros e. cbn. destruct (decide (e = k)) as [->|]; [by apply list_lookup_total_insert_eq|by apply list_lookup_total_insert_ne]. }
    constructor; try done.
    + cbn in *. by rewrite length_insert in *.
    + pose proof (refs_decr (putip k ip1 s) [] (P ++ R0) k Rf1) as Rd. rewrite putip_get in Rd by done.
      cbn [app] in Rd. replace (putip k ip2 s) with (putip k (set_ref (i_ref ip1 - 1) ip1) (putip k ip1 s)) by by rewrite putip_put.
      exact Rd.
    + intros e He. specialize (U1 e ltac:(set_solver)). rewrite Eg. rewrite Eg1 in U1. by destruct (decide (e = k)).
    + intros e He. cbn in He. rewrite length_insert in He. specialize (L1 e). cbn in L1. rewrite length_insert in L1. specialize (L1 He).
      rewrite decide_False by done. rewrite Eg. cbn in Eg1. rewrite Eg1 in L1. destruct (decide (e = k)); [done|]. exact L1.
    + intros e He. specialize (K1 e He). rewrite Eg. rewrite Eg1 in K1. by destruct (decide (e = k)).
  - intros e. cbn. destruct (decide (e = k)) as [->|]; [by rewrite list_lookup_total_insert_eq|by rewrite list_lookup_total_insert_ne].
Qed.

(** One more reference to an entry in use. *)
Lemma walk_incr s P lk k : walking s P lk -> k ∈ P ++ R0 -> (length P <= 1)%nat ->
  incref k s = Ok (tt, putip k (set_ref (i_ref (f_ic s !!! k) + 1) (f_ic s !!! k)) s) /\
  walking (putip k (set_ref (i_ref (f_ic s !!! k) + 1) (f_ic s !!! k)) s) (k :: P) lk.
Proof.
  intros Wk Hk HP. destruct (walking_in _ _ _ _ Wk Hk) as [Hl Hr].
  assert (Hx : i_ref (f_ic s !!! k) < INT_MAX).
  { rewrite (rf_count _ _ (wk_refs _ _ _ Wk)) by done.
    pose proof (count_occ_bound Nat.eq_dec k (P ++ R0)) as Hc. rewrite length_app in Hc. pose proof (wk_few _ _ _ Wk). lia. }
  split; [unfold incref, bind, getip, gets; by rewrite (proj2 (Z.ltb_lt _ _) Hx)|].
  set (ip := set_ref _ _).
  assert (Eg : forall e, f_ic (putip k ip s) !!! e = if decide (e = k) then ip else f_ic s !!! e).
  { intros e. cbn. destruct (decide (e = k)) as [->|]; [by apply list_lookup_total_insert_eq|by apply list_lookup_total_insert_ne]. }
  pose proof (refs_incr s (P ++ R0) k (wk_refs _ _ _ Wk) Hl ltac:(lia)) as Rf.
  destruct Wk as [T1 N1 S1 P1 C1 Rf1 U1 L1 K1]. constructor; try done.
  - cbn. by rewrite length_insert.
  - intros e He. assert (He' : e ∈ P ++ R0) by (cbn in He; apply elem_of_cons in He as [->|]; done).
    specialize (U1 e He'). rewrite Eg. by destruct (decide (e = k)) as [->|].
  - intros e He. cbn in He. rewrite length_insert in He. specialize (L1 e He). rewrite Eg. by destruct (decide (e = k)) as [->|].
  - intros e He. specialize (K1 e He). rewrite Eg. by destruct (decide (e = k)) as [->|].
Qed.

Lemma walk_iget s P lk j e0 : walking s P lk -> (length P <= 1)%nat -> allocated f sb j -> (e0 < ni)%nat -> e0 ∉ P ++ R0 ->
  exists k s', iget ROOTDEV j s = Ok (k, s') /\ walking s' (k :: P) lk /\ i_inum (f_ic s' !!! k) = j /\
    forall e, e ∈ P ++ R0 -> i_inum (f_ic s' !!! e) = i_inum (f_ic s !!! e).
Proof.
  intros Wk HP Ha He0 Hn0. pose proof (wk_refs _ _ _ Wk) as Rf. rewrite <- (wk_len _ _ _ Wk) in He0. unfold iget, bind at 1, gets.
  destruct (iget_scan _ _ _ _ _) as [[k|] e] eqn:E'; pose proof E' as E.
  - apply scan_found in E as (n & ip & Hn & -> & Hp & Hd & Hi). cbn [Nat.add].
    pose proof (lookup_lt_Some _ _ _ Hn) as Hlt. apply list_lookup_total_correct in Hn. subst ip.
    assert (Hin : n ∈ P ++ R0).
    { rewrite (rf_count _ _ Rf n Hlt) in Hp. apply list_elem_of_In, (count_occ_In Nat.eq_dec). lia. }
    destruct (walk_incr s P lk n Wk Hin HP) as [Einc Winc].
    eexists n, _. split; [by mstep Einc|]. split_and!; [exact Winc|cbn; by rewrite list_lookup_total_insert_eq|].
    intros e' He'. cbn. destruct (decide (e' = n)) as [->|]; [by rewrite list_lookup_total_insert_eq|by rewrite list_lookup_total_insert_ne].
  - apply scan_missing in E as (Hf & He). destruct e as [k|].
    2: { exfalso. destruct He as [[_ Hall]|(_ & n & ip & _ & [=] & _)]. specialize (Hall eq_refl). rewrite Forall_lookup in Hall.
         apply (Hall e0 _ (list_lookup_lookup_total_lt _ _ He0)). rewrite (rf_count _ _ Rf e0 He0).
         rewrite (proj1 (count_occ_not_In Nat.eq_dec _ _)); [done|].
         by rewrite <- list_elem_of_In. }
    destruct He as [[? _]|(_ & n & ip & Hn & [= ->] & Hz)]; [done|]. cbn [Nat.add].
    pose proof (lookup_lt_Some _ _ _ Hn) as Hlt. apply list_lookup_total_correct in Hn. subst ip.
    assert (HnR : n ∉ P ++ R0).
    { intros Hin. pose proof (rf_count _ _ Rf n Hlt) as Hc. rewrite Hz in Hc.
      apply list_elem_of_In, (count_occ_In Nat.eq_dec) in Hin. lia. }
    set (ip := mkinode ROOTDEV j 1 (i_lock (f_ic s !!! n)) false (i_d (f_ic s !!! n))).
    assert (Ei : iget ROOTDEV j s = Ok (n, putip n ip s)) by (unfold iget, bind at 1, gets; by rewrite E').
    assert (Eg : forall e, f_ic (putip n ip s) !!! e = if decide (e = n) then ip else f_ic s !!! e).
    { intros e. cbn. destruct (decide (e = n)) as [->|]; [by apply list_lookup_total_insert_eq|by apply list_lookup_total_insert_ne]. }
    assert (Hne : forall e, e ∈ P ++ R0 -> e <> n) by (by intros e He ->).
    exists n, (putip n ip s). split; [done|]. destruct (iget_refs _ _ _ _ _ _ Rf Ei) as (Rf' & _).
    split_and!; [|by rewrite Eg, decide_True|intros e He; by rewrite Eg, decide_False by by apply Hne].
    destruct Wk as [T1 N1 S1 P1 C1 Rf1 U1 L1 K1]. constructor; try done.
    + cbn. by rewrite length_insert.
    + intros e He. rewrite Eg. destruct (decide (e = n)) as [->|Hd]; [done|]. apply U1. cbn in He. by apply elem_of_cons in He as [->|].
    + intros e He. cbn in He. rewrite length_insert in He. specialize (L1 e He). rewrite Eg. by destruct (decide (e = n)) as [->|].
    + intros e He. rewrite Eg, decide_False; [by apply K1|]. apply Hne. set_solver.
Qed.

Lemma walking_perm s P P' lk : P ≡ₚ P' -> walking s P lk -> walking s P' lk.
Proof.
  intros Hp [T1 N1 S1 P1 C1 [Ra Rb Rc Rx] U1 L1 K1].
  assert (Hin : forall e, e ∈ P' ++ R0 <-> e ∈ P ++ R0) by (intros e; rewrite !elem_of_app; by rewrite Hp).
  constructor; try done.
  - constructor; [intros k Hk; by apply Ra, Hin| |done|done]. intros k Hk. rewrite Rb by done. f_equal.
    apply (Permutation_count_occ Nat.eq_dec). by rewrite Hp.
  - intros e He. by apply U1, Hin.
Qed.

Lemma walk_iunlockput s P k : walking s (k :: P) (Some k) -> d_nlink (dinode_at f sb (i_inum (f_ic s !!! k))) <> 0 ->
  exists s', iunlockput k s = Ok (tt, s') /\ walking s' P None /\ forall e, i_inum (f_ic s' !!! e) = i_inum (f_ic s !!! e).
Proof.
  intros Wk Hn. destruct (walk_iunlock s (k :: P) k Wk) as [E1 W1]; [by left|]. set (s1 := putip _ _ _) in *.
  assert (Hl : (k < length (f_ic s))%nat) by (apply (walking_in _ _ _ k Wk); by left).
  assert (Ei : forall e, i_inum (f_ic s1 !!! e) = i_inum (f_ic s !!! e)).
  { intros e. cbn. destruct (decide (e = k)) as [->|]; [by rewrite list_lookup_total_insert_eq|by rewrite list_lookup_total_insert_ne]. }
  destruct (walk_iput s1 P k W1) as (s' & E2 & W2 & Ei2); [by rewrite Ei|]. exists s'. split_and!; [|done|].
  - unfold iunlockput. by mstep E1.
  - intros e. by rewrite Ei2.
Qed.

(** What the walk is to find: the inode, and the last element for [nameiparent]. *)
Definition target (parent : bool) (j : Z) (es : list bytes) : option (Z * bytes) :=
  if parent then resolve_parent f sb j es else option_map (fun j' => (j', [])) (resolve f sb j es).

Lemma target_step parent j e es : es <> [] \/ parent = false ->
  target parent j (e :: es) = match child f sb j e with Some j' => target parent j' es | None => None end.
Proof.
  intros Hes. unfold target. destruct parent.
  - destruct Hes as [Hes|]; [|done]. cbn [resolve_parent]. destruct es; [done|]. done.
  - cbn [resolve]. by destruct (child f sb j e).
Qed.

Lemma target_file parent j e es : is_dir f sb j = false -> target parent j (e :: es) = None.
Proof. intros Hd. unfold target. cbn [resolve_parent resolve]. unfold child. rewrite Hd. destruct parent, es; done. Qed.

(** The locked file. *)
Lemma walk_ready s P k : walking s P (Some k) -> k ∈ P ++ R0 -> let d := dinode_at f sb (i_inum (f_ic s !!! k)) in
  i_valid (f_ic s !!! k) = true -> d_type d <> T_DEV -> file_ready s k f lg.
Proof.
  intros Wk Hk d Hv Ht. destruct (walking_in _ _ _ _ Wk Hk) as [Hl Hr]. destruct (wk_used _ _ _ Wk k Hk) as (Hd & Ha & Hc).
  specialize (Hc Hv). constructor; rewrite ?(wk_sb _ _ _ Wk), ?Hc; try done.
  - apply (wk_tx _ _ _ Wk).
  - unfold meta_ok. by rewrite (wk_sb _ _ _ Wk).
  - apply Ha.
  - unfold dinode_at. by apply get_dinode_ok, (fk_bytes _ _ K).
  - by apply (fk_file _ _ K).
Qed.

Context (e1 e2 : nat) (He12 : e1 <> e2) (Hfree : e1 ∉ R0 /\ e2 ∉ R0) (Hl12 : (e1 < ni)%nat /\ (e2 < ni)%nat).

(** There is always room for one more entry. *)
Lemma room_left k : exists e, (e = e1 \/ e = e2) /\ e ∉ [k] ++ R0.
Proof.
  destruct Hfree. destruct (decide (k = e1)) as [->|]; [exists e2|exists e1]; set_solver.
Qed.

Lemma walk_lookup s k name e : walking s [k] (Some k) ->
  let j := i_inum (f_ic s !!! k) in
  i_valid (f_ic s !!! k) = true -> is_dir f sb j = true ->
  length name = 14%nat -> Forall byte_ok name -> name_of 14 name = take 14 e ->
  match child f sb j e with
  | None => exists s', dirlookup devsw k name s = Ok (None, s') /\ walking s' [k] (Some k) /\
      forall e, i_inum (f_ic s' !!! e) = i_inum (f_ic s !!! e)
  | Some j' => exists k' off s', dirlookup devsw k name s = Ok (Some (k', off), s') /\ walking s' [k'; k] (Some k) /\
      i_inum (f_ic s' !!! k') = j' /\ linked f sb j' /\
      i_inum (f_ic s' !!! k) = j
  end.
Proof.
  intros Wk j Hv Hdir Hln Hbn Hne. assert (Hk : k ∈ [k] ++ R0) by by left.
  destruct (walking_in _ _ _ _ Wk Hk) as [Hl Hr]. destruct (wk_used _ _ _ Wk k Hk) as (Hd & Ha & Hc). specialize (Hc Hv). fold j in Ha, Hc.
  assert (Ht : d_type (dinode_at f sb j) = T_DIR) by by apply Z.eqb_eq.
  assert (Rd : file_ready s k f lg) by (apply (walk_ready _ [k]); [done|done|done|fold j; by rewrite Ht]). pose proof (fk_dir _ _ K j Ha Hdir) as (Hs & Hbc & Hent).
  assert (F : file_ok f sb (dinode_at f sb j)) by (apply (fk_file _ _ K); [done|by rewrite Ht]).
  pose proof (dirlookup_spec devsw s k f lg Rd Hlg name) as Hd2. rewrite Hc in Hd2.
  specialize (Hd2 Ht Hs Hbc (readable_length 14 name ltac:(lia)) Hbn). rewrite Hne in Hd2.
  unfold child. rewrite Hdir. cbv zeta. set (c := contents f (dinode_at f sb j)) in *.
  destruct (dir_find c (take 14 e)) as [x|] eqn:Ef.
  - destruct Hd2 as (y & E & T). pose proof (walking_io _ _ _ y Wk T) as W1.
    apply dir_from_spec in Ef as (Hx & Hx0 & _). pose proof (fo_size _ _ _ F) as Hsz.
    assert (Hlc : length c = Z.to_nat (d_size (dinode_at f sb j))) by apply contents_length.
    assert (Hk16 : 16 * Z.of_nat x < d_size (dinode_at f sb j)).
    { assert (Z.of_nat (length c / 16) = d_size (dinode_at f sb j) / 16) by (rewrite Nat2Z.inj_div, Hlc; f_equal; lia). divmod. }
    pose proof (Hent x Hk16 Hx0) as Hlk. fold c in Hlk. destruct (room_left k) as (e0 & He0 & Hn0).
    destruct (walk_iget _ _ _ (dent_inum c x) e0 W1) as (k' & s' & Ei & W2 & Hi2 & Hsame); [done|apply Hlk| |done|].
    { destruct Hl12. by destruct He0 as [->| ->]. }
    exists k', (16 * Z.of_nat x), s'. split_and!; try done; [by rewrite E; mstep Ei|apply (Hsame k Hk)].
  - destruct Hd2 as (y & E & T). exists (put_io y s). split_and!; [done|by apply walking_io|done].
Qed.

(** The outcome of a walk towards [t]. *)
Definition found (parent : bool) (t : option (Z * bytes)) (o : outcome (option nat * bytes * fsys W)) : Prop :=
  match t with
  | None => exists s' nm, o = Ok ((None, nm), s') /\ walking s' [] None
  | Some (j, last) => exists k s' nm, o = Ok ((Some k, nm), s') /\ walking s' [k] None /\
      i_inum (f_ic s' !!! k) = j /\ linked f sb j /\ (parent = true -> name_of 14 nm = last)
  end.

(** At the end of the path. *)
Lemma namex_end parent name s k : walking s [k] None -> linked f sb (i_inum (f_ic s !!! k)) ->
  found parent (target parent (i_inum (f_ic s !!! k)) [])
    ((if parent then do! iput k in ret (None, name) else ret (Some k, name)) s).
Proof.
  intros Wk Hlk. destruct parent; cbn.
  - destruct (walk_iput s [] k Wk) as (s' & E & W' & _); [apply Hlk|]. exists s', name. split; [by mstep E|done].
  - by exists k, s, name.
Qed.

Lemma namex_loop_spec fuel p tl name parent s k : no_nul p -> Forall byte_ok p -> (length p <= fuel)%nat ->
  length name = 14%nat -> Forall byte_ok name -> walking s [k] None -> linked f sb (i_inum (f_ic s !!! k)) ->
  found parent (target parent (i_inum (f_ic s !!! k)) (path_elems p))
    (namex_loop devsw fuel k (p ++ 0 :: tl) parent name s).
Proof.
  revert p name s k. induction fuel as [|fuel IH]; intros p name s k Hp Hbp Hfu Hln Hbn Wk Hlk;
    pose proof (skipelem_spec p tl name Hp Hln) as Hs; cbn [namex_loop].
  { destruct p; [|cbn in Hfu; lia]. rewrite (bind_Ok _ _ s None s) by (by rewrite Hs). by apply namex_end. }
  destruct (path_elems p) as [|e es] eqn:Ees.
  { rewrite (bind_Ok _ _ s None s) by (by rewrite Hs). by apply namex_end. }
  destruct Hs as (p' & name' & Es & Hp' & Ees' & Hlp & Hln' & Hne & Hst & HQ).
  destruct (HQ byte_ok Hbp Hbn ltac:(unfold byte_ok; lia)) as [Hbp' Hbn'].
  rewrite (bind_Ok _ _ s (Some (p' ++ 0 :: tl, name')) s) by (by rewrite Es).
  destruct (walk_ilock s [k] k Wk) as (x & E1 & _ & W1); [by left|]. set (j := i_inum (f_ic s !!! k)) in *.
  set (s1 := putip _ _ _) in *. mstep E1.
  assert (Hl : (k < length (f_ic s))%nat) by (apply (walking_in _ _ _ k Wk); by left).
  assert (Eip : f_ic s1 !!! k = locked_inode me (dinode_at f sb j) (f_ic s !!! k)) by by apply putip_get.
  mstep (eq_refl : getip k s1 = Ok (f_ic s1 !!! k, s1)). rewrite Eip. cbn [i_d locked_inode]. fold (is_dir f sb j).
  assert (Ej : i_inum (f_ic s1 !!! k) = j) by by rewrite Eip.
  assert (Hput : forall s2 P, walking s2 (k :: P) (Some k) -> i_inum (f_ic s2 !!! k) = j ->
    exists s', iunlockput k s2 = Ok (tt, s') /\ walking s' P None /\ forall e, i_inum (f_ic s' !!! e) = i_inum (f_ic s2 !!! e)).
  { intros s2 P W2 E2. apply walk_iunlockput; [done|]. rewrite E2. apply Hlk. }
  destruct (is_dir f sb j) eqn:Edir; cbn [negb].
  2: { rewrite target_file by done. destruct (Hput s1 [] W1 Ej) as (s' & E2 & W2 & _). exists s', name'. split; [by mstep E2|done]. }
  destruct (parent && (getb (p' ++ 0 :: tl) 0 =? 0)) eqn:Ep.
  - apply andb_true_iff in Ep as [-> Ep]. assert (es = []) as ->.
    { rewrite <- Ees'. destruct p' as [|c p']; [done|]. unfold no_nul in Hp'. inversion Hp'; subst. apply Z.eqb_eq in Ep. done. }
    cbn. rewrite Edir. destruct (walk_iunlock s1 [k] k W1) as [E2 W2]; [by left|].
    eexists k, _, name'. split; [by mstep E2|]. split_and!; [done| |done|done]. by rewrite putip_get by (cbn; by rewrite length_insert).
  - rewrite target_step.
    2: { destruct parent; [left|by right]. cbn [andb] in Ep. rewrite <- Ees'. destruct p' as [|c q]; [done|].
         pose proof (strip_head (c :: q) c q Hst) as Hc. unfold path_elems. cbn [split_path].
         rewrite (proj2 (Z.eqb_neq _ _) Hc), split_first by by left. done. }
    pose proof (walk_lookup s1 k name' e W1) as Hw. cbv zeta in Hw. rewrite Ej in Hw.
    assert (Hv1 : i_valid (f_ic s1 !!! k) = true) by by rewrite Eip. specialize (Hw Hv1 Edir Hln' Hbn' Hne). destruct (child f sb j e) as [j'|].
    + destruct Hw as (k' & off & s2 & E2 & W2 & Ei2 & Hlk' & Ek2). mstep E2.
      destruct (Hput s2 [k']) as (s3 & E3 & W3 & Ei3); [|done|].
      { eapply walking_perm; [|exact W2]. by constructor. }
      mstep E3. rewrite <- Ei2, <- (Ei3 k'), <- Ees'. apply IH; try done; [lia|]. by rewrite Ei3, Ei2.
    + destruct Hw as (s2 & E2 & W2 & Ei2). mstep E2. destruct (Hput s2 [] W2) as (s3 & E3 & W3 & _); [by rewrite Ei2|].
      exists s3, name'. split; [by mstep E3|done].
Qed.

(** The inode at which a path starts. *)
Definition start_of (s : fsys W) (p : bytes) : Z :=
  if bool_decide (head p = Some slash) then ROOTINO else i_inum (f_ic s !!! cwd).

Lemma namex_spec p tl name parent s : no_nul p -> Forall byte_ok p -> length name = 14%nat -> Forall byte_ok name ->
  walking s [] None -> cwd ∈ R0 -> linked f sb ROOTINO -> linked f sb (i_inum (f_ic s !!! cwd)) ->
  found parent (target parent (start_of s p) (path_elems p)) (namex devsw (p ++ 0 :: tl) parent name s).
Proof.
  intros Hp Hbp Hln Hbn Wk Hcwd Hroot Hc. unfold namex, start_of.
  assert (Eh : (getb (p ++ 0 :: tl) 0 =? 47) = bool_decide (head p = Some slash)).
  { destruct p as [|c p]; [done|]. change (getb ((c :: p) ++ 0 :: tl) 0) with c. cbn. unfold slash.
    destruct (c =? 47) eqn:E; [apply Z.eqb_eq in E as ->; by rewrite bool_decide_true|].
    apply Z.eqb_neq in E. rewrite bool_decide_false; [done|]. congruence. }
  rewrite Eh. destruct (bool_decide _).
  - destruct (walk_iget s [] None ROOTINO e1 Wk) as (k & s' & E & W' & Ei & _); [cbn; lia|apply Hroot|apply Hl12|cbn; apply Hfree|].
    mstep E. rewrite <- Ei. apply namex_loop_spec; try done; [rewrite length_app; lia|by rewrite Ei].
  - destruct (walk_incr s [] None cwd Wk Hcwd ltac:(cbn; lia)) as [Einc W'].
    assert (Ed : (let! cwd := gets f_cwd in idup cwd) s =
        Ok (cwd, putip cwd (set_ref (i_ref (f_ic s !!! cwd) + 1) (f_ic s !!! cwd)) s))
      by (unfold bind at 1, gets; rewrite (wk_cwd _ _ _ Wk); unfold idup; by mstep Einc).
    mstep Ed. set (s' := putip _ _ _) in *.
    assert (Ei : i_inum (f_ic s' !!! cwd) = i_inum (f_ic s !!! cwd)).
    { unfold s'. rewrite putip_get; [done|]. by apply (walking_in _ _ _ cwd Wk). }
    rewrite <- Ei. apply namex_loop_spec; try done; [rewrite length_app; lia|by rewrite Ei].
Qed.

Lemma namei_spec p tl s : no_nul p -> Forall byte_ok p -> walking s [] None -> cwd ∈ R0 ->
  linked f sb ROOTINO -> linked f sb (i_inum (f_ic s !!! cwd)) ->
  match resolve f sb (start_of s p) (path_elems p) with
  | Some j => exists k s', namei devsw (p ++ 0 :: tl) s = Ok (Some k, s') /\ i_inum (f_ic s' !!! k) = j /\ walking s' [k] None /\ linked f sb j
  | None => exists s', namei devsw (p ++ 0 :: tl) s = Ok (None, s') /\ walking s' [] None
  end.
Proof.
  intros Hp Hbp Wk Hcwd Hroot Hc. pose proof (namex_spec p tl (replicate (Z.to_nat DIRSIZ) 0) false s Hp Hbp eq_refl) as Hx.
  specialize (Hx ltac:(apply Forall_replicate; unfold byte_ok; lia) Wk Hcwd Hroot Hc). unfold target in Hx.
  unfold namei. destruct (resolve f sb _ (path_elems p)) as [j|]; cbn in Hx.
  - destruct Hx as (k & s' & nm & E & W' & Ei & Hlk & _). exists k, s'. by mstep E.
  - destruct Hx as (s' & nm & E & W'). exists s'. by mstep E.
Qed.
End Walk.

(** C39. Path names resolve as the directories on the disk say.  On a disk that holds
    a tree of directories, with references [R0] to the inode cache of others (fewer
    than the largest int), two free entries in it and no lock held, [namei] returns a reference to the inode
    that the path stands for, from the root or the current directory element by
    element, and [nameiparent] to the directory of its last element together with
    that element; if there is no such inode they return none.  They change nothing
    on the disk, unlock what they locked and keep no other reference. *)
Theorem path_lookup_correct {W} `{BlockLaws W} devsw f lg sb me cwd R0 num0 ni e1 e2 (s : fsys W) p tl name :
  layout_ok sb -> fs_ok f sb -> (forall x, 0 <= x <= sb_bmapstart sb -> marked f sb x = true) -> (length lg < NB)%nat ->
  walking f lg sb me cwd R0 num0 ni s [] None -> cwd ∈ R0 ->
  e1 <> e2 -> e1 ∉ R0 /\ e2 ∉ R0 -> (e1 < ni)%nat /\ (e2 < ni)%nat ->
  linked f sb ROOTINO -> linked f sb (i_inum (f_ic s !!! cwd)) ->
  no_nul p -> Forall byte_ok p -> length name = 14%nat -> Forall byte_ok name ->
  let j0 := start_of cwd s p in
  match resolve f sb j0 (path_elems p) with
  | Some j => exists k s', namei devsw (p ++ 0 :: tl) s = Ok (Some k, s') /\ i_inum (f_ic s' !!! k) = j /\
      walking f lg sb me cwd R0 num0 ni s' [k] None
  | None => exists s', namei devsw (p ++ 0 :: tl) s = Ok (None, s') /\ walking f lg sb me cwd R0 num0 ni s' [] None
  end /\
  match resolve_parent f sb j0 (path_elems p) with
  | Some (j, last) => exists k s' nm, nameiparent devsw (p ++ 0 :: tl) name s = Ok ((Some k, nm), s') /\
      i_inum (f_ic s' !!! k) = j /\ name_of 14 nm = last /\ walking f lg sb me cwd R0 num0 ni s' [k] None
  | None => exists s' nm, nameiparent devsw (p ++ 0 :: tl) name s = Ok ((None, nm), s') /\
      walking f lg sb me cwd R0 num0 ni s' [] None
  end.
Proof.
  intros L K Hm Hlg Wk Hcwd He Hfr Hl Hroot Hc Hp Hbp Hln Hbn j0.
  split.
  - pose proof (namei_spec devsw f lg sb me cwd R0 num0 ni L K Hm Hlg e1 e2 He Hfr Hl p tl s Hp Hbp Wk Hcwd Hroot Hc) as Hx. fold j0 in Hx.
    destruct (resolve f sb j0 (path_elems p)) as [j|]; [|exact Hx]. destruct Hx as (k & s' & E & Ei & W' & _). by exists k, s'.
  - pose proof (namex_spec devsw f lg sb me cwd R0 num0 ni L K Hm Hlg e1 e2 He Hfr Hl p tl) as Hx.
    specialize (Hx name true s Hp Hbp Hln Hbn Wk Hcwd Hroot Hc). fold j0 in Hx. unfold target in Hx. unfold nameiparent.
    destruct (resolve_parent f sb j0 (path_elems p)) as [[j last]|]; cbn in Hx.
    + destruct Hx as (k & s' & nm & E & W' & Ei & _ & Hn). exists k, s', nm. split_and!; try done. by apply Hn.
    + exact Hx.
Qed.

(** ** Witness: "/.." on the disk of mkfs *)

Lemma inode_types : forallb (fun n => d_type (dinode_at view_fs sb_fs (Z.of_nat n)) =? (if (n =? 1)%nat then T_DIR else 0)) (seq 0 200) = true.
Proof. vm_compute. reflexivity. Qed.

Lemma root_contents : contents view_fs rootino0 = rootdir0.
Proof. vm_compute. reflexivity. Qed.

#[local] Existing Instance laws_fs.
#[local] Opaque boot_fs.

Lemma only_root j : allocated view_fs sb_fs j -> j = ROOTINO.
Proof.
  intros [Hj Ht]. change (0 <= j < 200) in Hj. pose proof inode_types as Hall. rewrite forallb_forall in Hall.
  specialize (Hall (Z.to_nat j) ltac:(apply in_seq; lia)). rewrite Z2Nat.id in Hall by lia. apply Z.eqb_eq in Hall.
  destruct (Z.to_nat j =? 1)%nat eqn:E; [apply Nat.eqb_eq in E; unfold ROOTINO; lia|by rewrite Hall in Ht].
Qed.

Lemma root_linked : linked view_fs sb_fs ROOTINO.
Proof. unfold linked, allocated. rewrite rootino_fs. split_and!; [change (0 <= 1 < 200); lia|discriminate|discriminate]. Qed.

Lemma tree_fs : fs_ok view_fs sb_fs.
Proof.
  constructor.
  - intros j ->%only_root. change (IBLOCK ROOTINO sb_fs) with 32. rewrite inodes_fs. exact inodes0_bytes.
  - intros j ->%only_root _. rewrite rootino_fs. exact root_file.
  - intros j ->%only_root _. rewrite rootino_fs, root_contents. split_and!; [done| |].
    + apply (bool_decide_eq_true_1 _). vm_compute. reflexivity.
    + intros k Hk n Hn. assert (Hall : forallb (fun k => (dent_inum rootdir0 k =? 0) || (dent_inum rootdir0 k =? ROOTINO)) (seq 0 32) = true)
        by (vm_compute; reflexivity).
      rewrite forallb_forall in Hall. cbn in Hk. specialize (Hall k ltac:(apply in_seq; lia)).
      apply orb_true_iff in Hall as [Hz|Hz]; apply Z.eqb_eq in Hz; [done|]. unfold n. rewrite Hz. exact root_linked.
Qed.

Lemma icache_fs e : (e < 50)%nat -> f_ic fs0 !!! e =
  if decide (e = 0%nat) then mkinode ROOTDEV ROOTINO 1 initsleeplock false dinode0 else mkinode 0 0 0 initsleeplock false dinode0.
Proof.
  intros He. destruct e as [|e]; [reflexivity|]. rewrite decide_False by done.
  change (f_ic fs0 !!! S e) with (replicate 49 (mkinode 0 0 0 initsleeplock false dinode0) !!! e).
  by rewrite list_lookup_total_alt, lookup_replicate_2 by lia.
Qed.

Lemma walking_fs : walking view_fs [] sb_fs 1 0 [0%nat] (fun _ => ROOTINO) 50 fs0 [] None.
Proof.
  apply Build_walking; [exact tx_fs|reflexivity|reflexivity|reflexivity|reflexivity| | | | |vm_compute; reflexivity].
  - constructor.
    + intros k Hk. apply list_elem_of_singleton in Hk as ->. change (0 < 50)%nat. lia.
    + intros k Hk. change (k < 50)%nat in Hk. rewrite icache_fs by done. destruct (decide (k = 0%nat)) as [->|]; [reflexivity|].
      by rewrite (proj1 (count_occ_not_In _ _ _)) by (cbn; intuition congruence).
    + intros j k Hj Hk. change (j < 50)%nat in Hj. change (k < 50)%nat in Hk. rewrite !icache_fs by done.
      destruct (decide (j = 0%nat)), (decide (k = 0%nat)); cbn; (congruence || lia).
    + intros k Hk. change (k < 50)%nat in Hk. rewrite icache_fs by done. by destruct (decide (k = 0%nat)).
  - intros e He. apply list_elem_of_singleton in He as ->. split_and!; [reflexivity|apply root_linked|discriminate].
  - intros e He. rewrite decide_False by done. change (e < 50)%nat in He. rewrite icache_fs by done. by destruct (decide (e = 0%nat)).
  - intros e He. apply list_elem_of_singleton in He as ->. reflexivity.
Qed.

Lemma path_lookup_correct_witness : exists k s', namei (fun _ => None) [47; 46; 46; 0] fs0 = Ok (Some k, s') /\
  i_inum (f_ic s' !!! k) = ROOTINO /\ walking view_fs [] sb_fs 1 0 [0%nat] (fun _ => ROOTINO) 50 s' [k] None.
Proof.
  pose proof (path_lookup_correct (fun _ => None) view_fs [] sb_fs 1 0 [0%nat] (fun _ => ROOTINO) 50 1 2 fs0
    [47; 46; 46] [] (replicate 14 0)) as H.
  assert (E : resolve view_fs sb_fs (start_of 0 fs0 [47; 46; 46]) (path_elems [47; 46; 46]) = Some ROOTINO).
  { change (path_elems [47; 46; 46]) with [[46; 46]]. change (start_of 0 fs0 [47; 46; 46]) with ROOTINO.
    cbn [resolve]. unfold child, is_dir. rewrite rootino_fs, root_contents. vm_compute. reflexivity. }
  specialize (H layout_fs tree_fs meta_fs ltac:(vm_compute; lia) walking_fs (list_elem_of_here _ _)).
  specialize (H ltac:(discriminate) ltac:(split; intros He; apply list_elem_of_singleton in He; discriminate) ltac:(split; lia)).
  specialize (H root_linked root_linked ltac:(repeat constructor; discriminate) ltac:(repeat constructor; unfold byte_ok; lia) eq_refl
    ltac:(apply Forall_replicate; unfold byte_ok; lia)).
  cbv zeta in H. rewrite E in H. exact (proj1 H).
Defined.
