(* ===== verification/Pipe.v ===== *)
(** Pipes (pipe.c): the ring buffer, blocking reads and writes, closing. *)

From S2P Require Import Prelude.
Local Open Scope Z_scope.
#[local] Arguments setb : simpl never.
#[local] Arguments getb : simpl never.

(** * The pipe *)

Definition PIPESIZE : Z := 512.

Record pipe := mkpipe {
  p_data : bytes;
  nread : Z;
  nwrite : Z;
  readopen : bool;
  writeopen : bool
}.

(** What [pipealloc] makes of a page [junk] from [kalloc]. *)
Definition pipeinit (junk : bytes) : pipe := mkpipe junk 0 0 true true.

(** [p->data[p->nwrite++ % PIPESIZE] = c] *)
Definition put_char (c : Z) (p : pipe) : pipe :=
  mkpipe (setb (p_data p) (nwrite p mod PIPESIZE) c) (nread p) (u32 (nwrite p + 1))
    (readopen p) (writeopen p).

(** [p->data[p->nread++ % PIPESIZE]] *)
Definition get_char (p : pipe) : Z * pipe :=
  (getb (p_data p) (nread p mod PIPESIZE),
   mkpipe (p_data p) (u32 (nread p + 1)) (nwrite p) (readopen p) (writeopen p)).

Definition pipe_full (p : pipe) : bool := nwrite p =? u32 (nread p + PIPESIZE).
Definition pipe_empty (p : pipe) : bool := nread p =? nwrite p.

(** A call returns a value or waits, to go on from where it stopped. *)
Inductive pipe_result := PDone (r : Z) | PWait (i : Z).

(** The body of [pipewrite] from index [i] on; [rest] is [addr[i..n)]. *)
Fixpoint pipewrite_from (killed : bool) (i : Z) (rest : bytes) (p : pipe) : pipe_result * pipe :=
  match rest with
  | [] => (PDone i, p)
  | c :: rest' =>
      if pipe_full p then
        if negb (readopen p) || killed then (PDone (-1), p) else (PWait i, p)
      else pipewrite_from killed (i + 1) rest' (put_char c p)
  end.

Definition pipewrite (killed : bool) (addr : bytes) (p : pipe) : pipe_result * pipe :=
  pipewrite_from killed 0 addr p.

(** The copying loop of [piperead]; [acc] is [addr[0..i)]. *)
Fixpoint piperead_copy (n : nat) (acc : bytes) (p : pipe) : bytes * pipe :=
  match n with
  | O => (acc, p)
  | S n' =>
      if pipe_empty p then (acc, p) else
      let cp := get_char p in piperead_copy n' (acc ++ [cp.1]) cp.2
  end.

(** The bytes stored in [addr] and the result. *)
Definition piperead (killed : bool) (n : Z) (p : pipe) : (bytes * pipe_result) * pipe :=
  if pipe_empty p && writeopen p then
    if killed then (([], PDone (-1)), p) else (([], PWait 0), p)
  else
    let r := piperead_copy (Z.to_nat n) [] p in
    ((r.1, PDone (Z.of_nat (length r.1))), r.2).

(** The new state, and whether the page is freed. *)
Definition pipeclose (writable : bool) (p : pipe) : bool * pipe :=
  let p' := if writable
            then mkpipe (p_data p) (nread p) (nwrite p) (readopen p) false
            else mkpipe (p_data p) (nread p) (nwrite p) false (writeopen p) in
  (negb (readopen p') && negb (writeopen p'), p').

(** * Abstraction: a queue of at most PIPESIZE bytes *)

Definition count (p : pipe) : Z := u32 (nwrite p - nread p).

Definition contents (p : pipe) : bytes :=
  (fun j => getb (p_data p) ((nread p + Z.of_nat j) mod PIPESIZE)) <$> seq 0 (Z.to_nat (count p)).

Record pipe_ok (p : pipe) : Prop := {
  pk_data : length (p_data p) = Z.to_nat PIPESIZE;
  pk_read : 0 <= nread p < 4294967296;
  pk_write : 0 <= nwrite p < 4294967296;
  pk_count : count p <= PIPESIZE
}.

Lemma count_len p : pipe_ok p -> Z.of_nat (length (contents p)) = count p.
Proof.
  intros _. unfold contents; rewrite length_fmap, length_seq.
  pose proof (u32_range (nwrite p - nread p)); unfold count; lia.
Qed.

Lemma pipe_empty_contents p : pipe_ok p -> pipe_empty p = bool_decide (contents p = []).
Proof.
  intros H. pose proof (count_len p H) as Hc. destruct H as [_ Hr Hw _].
  unfold pipe_empty. destruct (nread p =? nwrite p) eqn:E.
  - apply Z.eqb_eq in E. rewrite bool_decide_true; [done|]. apply nil_length_inv.
    unfold count in Hc. rewrite E, Z.sub_diag in Hc. change (u32 0) with 0 in Hc. lia.
  - apply Z.eqb_neq in E. rewrite bool_decide_false; [done|]. intros Hn; rewrite Hn in Hc; simpl in Hc.
    unfold count in Hc. ints.
Qed.

Lemma pipe_full_contents p : pipe_ok p -> pipe_full p = bool_decide (length (contents p) = Z.to_nat PIPESIZE).
Proof.
  intros H. pose proof (count_len p H) as Hc. destruct H as [_ Hr Hw Hk].
  unfold pipe_full, PIPESIZE, count in *. destruct (_ =? _) eqn:E.
  - apply Z.eqb_eq in E. rewrite bool_decide_true; [done|]. ints.
  - apply Z.eqb_neq in E. rewrite bool_decide_false; [done|]. intros Hn; apply E. ints.
Qed.

Lemma mod_pipesize_u32 x : u32 x mod PIPESIZE = x mod PIPESIZE.
Proof. unfold PIPESIZE; ints. Qed.

Lemma put_char_spec c p : pipe_ok p -> pipe_full p = false ->
  pipe_ok (put_char c p) /\ contents (put_char c p) = contents p ++ [c].
Proof.
  intros H Hf. pose proof (count_len p H) as Hl. rewrite pipe_full_contents in Hf by done.
  apply bool_decide_eq_false in Hf. destruct H as [Hd Hr Hw Hk].
  assert (count p < PIPESIZE) as Hlt by (unfold PIPESIZE in *; lia).
  assert (count (put_char c p) = count p + 1) as Hc.
  { unfold count, put_char, PIPESIZE in *; simpl. ints. }
  assert (0 <= count p) by (unfold count; apply u32_range).
  split.
  - constructor; [by unfold put_char, setb; cbn [p_data]; rewrite length_insert|done|apply u32_range|].
    unfold PIPESIZE in *; lia.
  - unfold contents; rewrite Hc. replace (Z.to_nat (count p + 1)) with (S (Z.to_nat (count p))) by lia.
    rewrite seq_S, fmap_app; f_equal.
    + apply list_fmap_ext; intros i j Hj%lookup_seq. unfold getb, setb; simpl.
      apply list_lookup_total_insert_ne. destruct Hj as [-> Hj].
      unfold count, PIPESIZE in *. ints.
    + simpl. f_equal. unfold getb, setb; simpl.
      replace (nwrite p mod PIPESIZE) with ((nread p + Z.of_nat (Z.to_nat (count p))) mod PIPESIZE)
        by (unfold count, PIPESIZE in *; ints).
      rewrite list_lookup_total_insert_eq; [done|]. rewrite Hd; unfold PIPESIZE; divmod.
Qed.

Lemma get_char_spec p x q : pipe_ok p -> contents p = x :: q ->
  (get_char p).1 = x /\ pipe_ok (get_char p).2 /\ contents (get_char p).2 = q.
Proof.
  intros H E. pose proof (count_len p H) as Hl. rewrite E in Hl; simpl in Hl.
  destruct H as [Hd Hr Hw Hk].
  assert (count (get_char p).2 = count p - 1) as Hc by (unfold count, PIPESIZE in *; simpl; ints).
  unfold contents in E. replace (Z.to_nat (count p)) with (S (Z.to_nat (count p - 1))) in E by lia.
  simpl in E. injection E as Ex Eq. rewrite Z.add_0_r in Ex. split_and!.
  - exact Ex.
  - constructor; [done|apply u32_range|done|]. rewrite Hc; lia.
  - rewrite <- Eq. unfold contents; rewrite Hc, <- fmap_S_seq, <- list_fmap_compose.
    apply list_fmap_ext; intros i j _. simpl. f_equal.
    unfold PIPESIZE. ints.
Qed.

(** ** The calls on the queue *)

(** [pipewrite] appends a prefix of its argument; it stops early only on a full
    pipe, and then waits if the pipe has a reader. *)
Lemma pipewrite_from_spec killed rest i p : pipe_ok p ->
  exists sent left, rest = sent ++ left /\
    pipe_ok (pipewrite_from killed i rest p).2 /\
    contents (pipewrite_from killed i rest p).2 = contents p ++ sent /\
    nread (pipewrite_from killed i rest p).2 = nread p /\
    readopen (pipewrite_from killed i rest p).2 = readopen p /\
    writeopen (pipewrite_from killed i rest p).2 = writeopen p /\
    (left = [] /\ (pipewrite_from killed i rest p).1 = PDone (i + Z.of_nat (length rest)) \/
     left <> [] /\ length (contents p ++ sent) = Z.to_nat PIPESIZE /\
     (pipewrite_from killed i rest p).1 =
       if negb (readopen p) || killed then PDone (-1) else PWait (i + Z.of_nat (length sent))).
Proof.
  revert i p; induction rest as [|c rest IH]; intros i p H; simpl.
  { exists [], []. rewrite !app_nil_r, Z.add_0_r. split_and!; auto. }
  destruct (pipe_full p) eqn:Ef.
  - exists [], (c :: rest); rewrite !app_nil_r. rewrite pipe_full_contents in Ef by done.
    apply bool_decide_eq_true in Ef.
    rewrite Z.add_0_r. destruct (_ || killed); split_and!; auto.
  - destruct (put_char_spec c p H Ef) as [H' Hc].
    destruct (IH (i + 1) _ H') as (sent & left & -> & Hok & Hcon & Hnr & Hro & Hwo & Hres).
    exists (c :: sent), left; split_and!; auto.
    + rewrite Hcon, Hc, <- app_assoc; done.
    + destruct Hres as [[-> ->]|(Hl & Hlen & ->)]; [left; split; [done|f_equal; simpl; lia]|right].
      split_and!; [done| |].
      * rewrite <- Hlen, Hc, <- app_assoc; done.
      * simpl. destruct (_ || _); [done|f_equal; lia].
Qed.

Lemma piperead_copy_spec n acc p : pipe_ok p ->
  (piperead_copy n acc p).1 = acc ++ take n (contents p) /\
  pipe_ok (piperead_copy n acc p).2 /\ contents (piperead_copy n acc p).2 = drop n (contents p) /\
  readopen (piperead_copy n acc p).2 = readopen p /\ writeopen (piperead_copy n acc p).2 = writeopen p.
Proof.
  revert acc p; induction n as [|n IH]; intros acc p H.
  { simpl; rewrite !app_nil_r; auto. }
  cbn [piperead_copy]. rewrite pipe_empty_contents by done.
  destruct (contents p) as [|x q] eqn:E; [rewrite bool_decide_true by done; simpl; rewrite app_nil_r; auto|].
  rewrite bool_decide_false by done. cbn zeta.
  destruct (get_char_spec p x q H E) as (Ex & H' & Eq).
  destruct (IH (acc ++ [(get_char p).1]) _ H') as (E1 & H1 & E2 & E3 & E4).
  split_and!; [rewrite E1, Ex, Eq, <- app_assoc; done|done|by rewrite E2, Eq|done|done].
Qed.

Lemma count_app p p' l : pipe_ok p -> pipe_ok p' -> nread p' = nread p ->
  contents p' = contents p ++ l -> u32 (nwrite p' - nwrite p) = Z.of_nat (length l).
Proof.
  intros H H' Hn Hc. pose proof (count_len _ H) as L. pose proof (count_len _ H') as L'.
  rewrite Hc, length_app in L'. pose proof (pk_count _ H'). pose proof (pk_count _ H).
  unfold count, PIPESIZE in *. rewrite Hn in L'. ints.
Qed.

(** * Concurrent readers and writers

    A configuration: the pipe, the bytes put into it and the bytes taken out of
    it since [pipealloc].  Writers run until they finish or wait, and a waiting
    writer goes on with the bytes it has left. *)

Record pipe_conf := mkconf { c_pipe : pipe; c_sent : bytes; c_got : bytes }.

(** The bytes of [rest] that a run from [p] to [p'] put into the pipe. *)
Definition accepted (p p' : pipe) (rest : bytes) : bytes :=
  take (Z.to_nat (u32 (nwrite p' - nwrite p))) rest.

Inductive pipe_step : pipe_conf -> pipe_conf -> Prop :=
| pstep_write killed i rest p r p' sent got :
    pipewrite_from killed i rest p = (r, p') ->
    pipe_step (mkconf p sent got) (mkconf p' (sent ++ accepted p p' rest) got)
| pstep_read killed n p addr r p' sent got :
    piperead killed n p = ((addr, r), p') ->
    pipe_step (mkconf p sent got) (mkconf p' sent (got ++ addr))
| pstep_close writable p freed p' sent got :
    pipeclose writable p = (freed, p') ->
    pipe_step (mkconf p sent got) (mkconf p' sent got).

Definition conf_ok (c : pipe_conf) : Prop :=
  pipe_ok (c_pipe c) /\ c_sent c = c_got c ++ contents (c_pipe c).

Lemma accepted_sent killed i rest p : pipe_ok p ->
  let p' := (pipewrite_from killed i rest p).2 in
  pipe_ok p' /\ contents p' = contents p ++ accepted p p' rest.
Proof.
  intros H. destruct (pipewrite_from_spec killed rest i p H)
    as (sent & left & Hr & Hok & Hcon & Hnr & _ & _ & _).
  assert (take (length sent) rest = sent) as Ht by (rewrite Hr; apply take_app_length).
  split; [done|]. unfold accepted. by rewrite (count_app _ _ _ H Hok Hnr Hcon), Nat2Z.id, Ht.
Qed.

Lemma piperead_contents killed n p : pipe_ok p ->
  pipe_ok (piperead killed n p).2 /\
  contents p = (piperead killed n p).1.1 ++ contents (piperead killed n p).2.
Proof.
  intros H. unfold piperead. destruct (_ && _); [by destruct killed|].
  destruct (piperead_copy_spec (Z.to_nat n) [] p H) as (E1 & H1 & E2 & _).
  split; [done|]. cbn [fst snd]. rewrite E1, E2. by rewrite app_nil_l, take_drop.
Qed.

Lemma pipe_step_ok c c' : conf_ok c -> pipe_step c c' -> conf_ok c'.
Proof.
  intros [H E] Hs; destruct Hs as [killed i rest p r p' sent got Ew|killed n p addr r p' sent got Er|
    writable p freed p' sent got Ec]; unfold conf_ok in *; cbn [c_pipe c_sent c_got] in *.
  - pose proof (accepted_sent killed i rest p H) as [H' E']. rewrite Ew in H', E'.
    split; [done|]. cbn [snd] in E'. by rewrite E, E', app_assoc.
  - pose proof (piperead_contents killed n p H) as [H' E']. rewrite Er in H', E'.
    split; [done|]. cbn [fst snd] in E'. by rewrite E, E', app_assoc.
  - unfold pipeclose in Ec. destruct writable; injection Ec as _ <-; split; try done; by destruct H.
Qed.

(** C40. A pipe is a FIFO queue.  In every state that readers, writers and closes
    reach from a fresh pipe, in any interleaving and for any number of bytes
    (the counters wrap around at 2^32), the bytes read are a prefix of the bytes
    accepted from the writers, in order; the rest is in the ring, which holds at
    most PIPESIZE bytes. *)
Theorem pipe_fifo junk c :
  length junk = Z.to_nat PIPESIZE -> rtc pipe_step (mkconf (pipeinit junk) [] []) c ->
  c_sent c = c_got c ++ contents (c_pipe c) /\ Z.of_nat (length (contents (c_pipe c))) <= PIPESIZE.
Proof.
  intros Hj Hr. assert (conf_ok (mkconf (pipeinit junk) [] [])) as H0.
  { split; [|done]. by constructor. }
  assert (conf_ok c) as [H E].
  { revert H0; induction Hr; eauto using pipe_step_ok. }
  split; [done|]. rewrite count_len by done. apply H.
Qed.

Lemma pipe_fifo_witness :
  exists p, rtc pipe_step (mkconf (pipeinit (replicate 512 0)) [] []) (mkconf p [1; 2; 3] [1; 2]) /\
    [1; 2; 3] = [1; 2] ++ contents p /\ Z.of_nat (length (contents p)) <= PIPESIZE.
Proof.
  eexists. assert (rtc pipe_step (mkconf (pipeinit (replicate 512 0)) [] [])
    (mkconf (piperead false 2 (pipewrite false [1; 2; 3] (pipeinit (replicate 512 0))).2).2 [1; 2; 3] [1; 2])) as Hr.
  { eapply rtc_l; [eapply (pstep_write false 0 [1; 2; 3]); vm_compute; reflexivity|].
    eapply rtc_l; [eapply (pstep_read false 2); vm_compute; reflexivity|]. apply rtc_refl. }
  split; [exact Hr|]. exact (pipe_fifo (replicate 512 0) _ (length_replicate _ _) Hr).
Defined.

(** What the calls do to the queue, on every branch.  [pipewrite] appends all
    of its bytes and returns their number, unless the pipe fills up: then it
    returns -1 if there is no reader or the process is killed, and otherwise
    waits with exactly the bytes that did not fit.  [piperead] waits (or returns
    -1 when killed) only on an empty pipe that a writer still holds; otherwise it
    takes the first [n] bytes, or all of them, and returns how many, so that a
    result of 0 for [n > 0] means end of file. *)
Theorem pipe_calls killed n addr p :
  pipe_ok p -> 0 <= n ->
  (exists sent left, addr = sent ++ left /\
     contents (pipewrite killed addr p).2 = contents p ++ sent /\
     ((left = [] /\ (pipewrite killed addr p).1 = PDone (Z.of_nat (length addr))) \/
      (left <> [] /\ length (contents p ++ sent) = Z.to_nat PIPESIZE /\
       (pipewrite killed addr p).1 =
         if negb (readopen p) || killed then PDone (-1) else PWait (Z.of_nat (length sent))))) /\
  (let q := contents p in
   piperead killed n p =
     (if bool_decide (q = []) && writeopen p
      then (([], if killed then PDone (-1) else PWait 0), p)
      else ((take (Z.to_nat n) q, PDone (Z.min n (Z.of_nat (length q)))), (piperead killed n p).2)) /\
   contents (piperead killed n p).2 = drop (length (piperead killed n p).1.1) q).
Proof.
  intros H Hn. split.
  - destruct (pipewrite_from_spec killed addr 0 p H) as (sent & left & Ha & _ & Hc & _ & _ & _ & Hr).
    exists sent, left. split; [done|split; [done|exact Hr]].
  - cbn zeta. destruct (piperead_contents killed n p H) as [_ Hc]. split.
    + unfold piperead. rewrite pipe_empty_contents by done. destruct (_ && _); [by destruct killed|].
      destruct (piperead_copy_spec (Z.to_nat n) [] p H) as (E1 & _ & _ & _).
      cbn [fst snd]. rewrite E1. repeat f_equal. rewrite app_nil_l, length_take. lia.
    + revert Hc; generalize (piperead killed n p); intros [[a r] p'] ->. by rewrite drop_app_length.
Qed.

Lemma pipe_calls_witness :
  (exists sent left, [7; 8] = sent ++ left /\
     contents (pipewrite false [7; 8] (pipeinit (replicate 512 0))).2 =
       contents (pipeinit (replicate 512 0)) ++ sent /\
     ((left = [] /\ (pipewrite false [7; 8] (pipeinit (replicate 512 0))).1 = PDone 2) \/
      (left <> [] /\ length (contents (pipeinit (replicate 512 0)) ++ sent) = Z.to_nat PIPESIZE /\
       (pipewrite false [7; 8] (pipeinit (replicate 512 0))).1 = PWait (Z.of_nat (length sent))))).
Proof. apply (pipe_calls false 0 [7; 8] (pipeinit (replicate 512 0))); [by constructor|lia]. Defined.
