(* ===== verification/Kalloc.v ===== *)
(** The physical page allocator (kalloc.c): a stack of free pages, linked
    through the pages themselves. *)

From S2P Require Import Prelude Mem.
Local Open Scope Z_scope.

(** * memlayout.h, mmu.h *)

Definition KERNBASE : Z := 2147483648.
Definition EXTMEM : Z := 1048576.
Definition PHYSTOP : Z := 234881024.
Definition DEVSPACE : Z := 4261412864.
Definition V2P (a : Z) : Z := u32 (a - KERNBASE).
Definition P2V (a : Z) : Z := u32 (a + KERNBASE).

Definition PGSIZE : Z := 4096.
Definition PGROUNDUP (sz : Z) : Z := Z.land (u32 (sz + PGSIZE - 1)) (Z.lnot (PGSIZE - 1)).
Definition PGROUNDDOWN (a : Z) : Z := Z.land a (Z.lnot (PGSIZE - 1)).

Record kstate := mkk { k_mem : mem; k_use_lock : bool; k_freelist : Z }.

Section Kalloc.
  (** The end of the kernel image, which the linker script defines. *)
  Context (kend : Z).

Definition kfree (v : Z) : M kstate unit :=
  if negb (v mod PGSIZE =? 0) || (v <? kend) || (V2P v >=? PHYSTOP) then panic "kfree" else
  do! modify (fun s => mkk (memset (k_mem s) v 1 PGSIZE) (k_use_lock s) (k_freelist s)) in
  do! modify (fun s => mkk (st32 (k_mem s) v (k_freelist s)) (k_use_lock s) (k_freelist s)) in
  modify (fun s => mkk (k_mem s) (k_use_lock s) v).

Definition kalloc : M kstate Z :=
  let! r := gets k_freelist in
  do! when (negb (r =? 0))
        (modify (fun s => mkk (k_mem s) (k_use_lock s) (ld32 (k_mem s) r))) in
  ret r.

(** The loop of [freerange]; [fuel] bounds the number of pages. *)
Fixpoint freerange_loop (fuel : nat) (p vend : Z) : M kstate unit :=
  if p + PGSIZE <=? vend then
    match fuel with
    | O => undefined
    | S fuel' => do! kfree p in freerange_loop fuel' (p + PGSIZE) vend
    end
  else ret tt.

Definition freerange (vstart vend : Z) : M kstate unit :=
  freerange_loop (Z.to_nat (vend / PGSIZE)) (PGROUNDUP vstart) vend.

Definition kinit1 (vstart vend : Z) : M kstate unit :=
  do! modify (fun s => mkk (k_mem s) false (k_freelist s)) in
  freerange vstart vend.

Definition kinit2 (vstart vend : Z) : M kstate unit :=
  do! freerange vstart vend in
  modify (fun s => mkk (k_mem s) true (k_freelist s)).

(** * Abstraction: a stack of pages *)

(** What [kfree] accepts as a page. *)
Definition page_ok (v : Z) : Prop :=
  v mod PGSIZE = 0 /\ kend <= v /\ KERNBASE <= v < KERNBASE + PHYSTOP.

Fixpoint chain (m : mem) (p : Z) (l : list Z) : Prop :=
  match l with
  | [] => p = 0
  | v :: l' => p = v /\ chain m (ld32 m v) l'
  end.

Record kmem_ok (s : kstate) (l : list Z) : Prop := {
  km_chain : chain (k_mem s) (k_freelist s) l;
  km_nodup : NoDup l;
  km_pages : Forall page_ok l
}.

Lemma page_nonzero v : page_ok v -> v <> 0.
Proof. unfold page_ok, KERNBASE; lia. Qed.

Lemma pages_apart u v : page_ok u -> page_ok v -> u <> v -> u + PGSIZE <= v \/ v + PGSIZE <= u.
Proof. unfold page_ok, PGSIZE; intros [Hu _] [Hv _] Hne. divmod. Qed.

(** Storing inside a page that is not on the list leaves the list alone. *)
Lemma chain_frame m m' p l :
  (forall v, v ∈ l -> ld32 m' v = ld32 m v) -> chain m p l -> chain m' p l.
Proof.
  revert p; induction l as [|v l IH]; intros p Hf; simpl; [done|]. intros [-> Hc]. split; [done|].
  rewrite Hf by (by left). apply IH; [|done]. intros u Hu; apply Hf; by right.
Qed.

Lemma kfree_panics v s : ~ (v mod PGSIZE = 0 /\ kend <= v /\ V2P v < PHYSTOP) -> kfree v s = Panic "kfree".
Proof.
  intros H. unfold kfree. destruct (_ || _) eqn:E; [done|].
  exfalso; apply H. apply orb_false_iff in E as [E E3]. apply orb_false_iff in E as [E1 E2].
  apply negb_false_iff, Z.eqb_eq in E1. lia.
Qed.

(** [kfree] pushes a page. *)
Lemma kfree_spec v s l : kmem_ok s l -> page_ok v -> v ∉ l ->
  exists s', kfree v s = Ok (tt, s') /\ kmem_ok s' (v :: l) /\ k_use_lock s' = k_use_lock s /\
    forall a, ~ (v <= a < v + PGSIZE) -> mget (k_mem s') a = mget (k_mem s) a.
Proof.
  intros [Hc Hn Hp] Hv Hni. pose proof Hv as (Hal & Hend & Hlo & Hhi).
  assert (V2P v < PHYSTOP) as HV by (unfold V2P, KERNBASE, PHYSTOP in *; ints).
  set (m1 := memset (k_mem s) v 1 PGSIZE). set (m2 := st32 m1 v (k_freelist s)).
  assert (forall a, ~ (v <= a < v + PGSIZE) -> mget m2 a = mget (k_mem s) a) as Hm.
  { intros a Ha. unfold m2, st32, m1. rewrite memset_eq by done. rewrite !mget_mwrite.
    rewrite length_le_bytes, length_replicate. unfold PGSIZE in *. rewrite !decide_False by lia. done. }
  exists (mkk m2 (k_use_lock s) v). split_and!; [| |done|done].
  - unfold kfree. replace (_ || _) with false; [done|].
    symmetry; apply orb_false_iff; split; [apply orb_false_iff; split|]; [|lia|lia].
    by rewrite Hal.
  - assert (0 <= k_freelist s < 4294967296) as Hf.
    { destruct l as [|u l]; simpl in Hc; [lia|]. destruct Hc as [-> _].
      inversion Hp as [|? ? Hu]; subst. unfold page_ok, KERNBASE, PHYSTOP in Hu; lia. }
    constructor; simpl.
    + split; [done|]. replace (ld32 m2 v) with (k_freelist s) by (symmetry; by apply ld32_st32_same).
      eapply chain_frame; [|exact Hc]. intros u Hu. unfold ld32. f_equal. apply mread_ext; intros i Hi.
      apply Hm. rewrite Forall_forall in Hp. assert (u <> v) by (by intros ->).
      destruct (pages_apart u v) as [?|?]; auto; unfold PGSIZE in *; lia.
    + by constructor.
    + by constructor.
Qed.

(** [kalloc] pops a page, or returns 0 when there is none. *)
Lemma kalloc_spec s l : kmem_ok s l ->
  match l with
  | [] => kalloc s = Ok (0, s)
  | v :: l' => exists s', kalloc s = Ok (v, s') /\ kmem_ok s' l' /\ v <> 0 /\ v ∉ l' /\ page_ok v /\
                 k_mem s' = k_mem s /\ k_use_lock s' = k_use_lock s
  end.
Proof.
  intros [Hc Hn Hp]. destruct l as [|v l]; simpl in Hc.
  - unfold kalloc, bind, gets, when. by rewrite Hc.
  - destruct Hc as [Hf Hc]. inversion Hp; inversion Hn; subst. pose proof (page_nonzero (k_freelist s) H1).
    unfold kalloc, bind, gets, when.
    replace (k_freelist s =? 0) with false by (symmetry; by apply Z.eqb_neq).
    eexists; split; [reflexivity|]. split_and!; done.
Qed.

(** * Initialisation *)

(** The whole pages between [p] and [vend]. *)
Definition pages_between (p vend : Z) : list Z :=
  (fun i => p + PGSIZE * Z.of_nat i) <$> seq 0 (Z.to_nat ((vend - p) / PGSIZE)).

Lemma pages_between_cons p vend : p + PGSIZE <= vend ->
  pages_between p vend = p :: pages_between (p + PGSIZE) vend.
Proof.
  intros H. unfold pages_between, PGSIZE in *.
  replace (Z.to_nat ((vend - p) / 4096)) with (S (Z.to_nat ((vend - (p + 4096)) / 4096))) by divmod.
  simpl. f_equal; [lia|]. rewrite <- fmap_S_seq, <- list_fmap_compose. apply list_fmap_ext.
  intros; simpl; lia.
Qed.

Lemma pages_between_nil p vend : vend < p + PGSIZE -> pages_between p vend = [].
Proof.
  intros H. unfold pages_between, PGSIZE in *.
  by replace (Z.to_nat ((vend - p) / 4096)) with 0%nat by divmod.
Qed.

Lemma pages_between_lower p vend v : v ∈ pages_between p vend -> p <= v.
Proof. intros (i & -> & _)%list_elem_of_fmap. unfold PGSIZE; lia. Qed.

Lemma freerange_loop_spec fuel p vend s l :
  kmem_ok s l -> Forall page_ok (pages_between p vend) -> (forall v, v ∈ l -> v < p) ->
  (vend - p) / PGSIZE <= Z.of_nat fuel ->
  exists s', freerange_loop fuel p vend s = Ok (tt, s') /\
    kmem_ok s' (rev (pages_between p vend) ++ l) /\ k_use_lock s' = k_use_lock s.
Proof.
  revert p s l; induction fuel as [|fuel IH]; intros p s l H Hp Hl Hf; cbn [freerange_loop].
  - replace (p + PGSIZE <=? vend) with false by (symmetry; apply Z.leb_gt; unfold PGSIZE in *; divmod).
    rewrite pages_between_nil by (unfold PGSIZE in *; divmod). by exists s.
  - destruct (p + PGSIZE <=? vend) eqn:E; [apply Z.leb_le in E|apply Z.leb_gt in E].
    + rewrite pages_between_cons in Hp |- * by done. inversion Hp as [|? ? Hp1 Hp2]; subst.
      assert (p ∉ l) as Hni by (intros ?%Hl; lia).
      destruct (kfree_spec p s l H Hp1 Hni) as (s1 & E1 & H1 & U1 & _).
      destruct (IH (p + PGSIZE) s1 (p :: l)) as (s2 & E2 & H2 & U2); try done.
      * intros v [->|Hv%Hl]%elem_of_cons; unfold PGSIZE; lia.
      * unfold PGSIZE in *; divmod.
      * exists s2; split_and!; [by mstep E1| |congruence].
        simpl; by rewrite <- app_assoc.
    + rewrite pages_between_nil by done. by exists s.
Qed.

(** * Clients of the allocator

    A configuration: the allocator and the pages that its clients hold.  They
    free only pages they hold and write only to those. *)

Inductive page_step : kstate * list Z -> kstate * list Z -> Prop :=
| step_kalloc s v s' own :
    kalloc s = Ok (v, s') -> page_step (s, own) (s', if v =? 0 then own else v :: own)
| step_kfree s s' own1 v own2 :
    kfree v s = Ok (tt, s') -> page_step (s, own1 ++ v :: own2) (s', own1 ++ own2)
| step_store s own v a b :
    v ∈ own -> v <= a < v + PGSIZE -> page_step (s, own) (mkk (mset (k_mem s) a b) (k_use_lock s) (k_freelist s), own).

Definition partition (pages : list Z) (c : kstate * list Z) : Prop :=
  exists l, kmem_ok c.1 l /\ c.2 ++ l ≡ₚ pages.

Lemma page_step_partition pages c c' :
  NoDup pages -> Forall page_ok pages -> partition pages c -> page_step c c' -> partition pages c'.
Proof.
  intros Hnd Hok (l & Hl & Hp) Hs.
  destruct Hs as [s v s' own E|s s' own1 v own2 E|s own v a b Hv Ha]; cbn [fst snd] in *.
  - pose proof (kalloc_spec s l Hl) as K. destruct l as [|u l].
    + rewrite K in E; injection E as <- <-. by exists [].
    + destruct K as (s1 & E1 & H1 & Hz & Hu & _). rewrite E1 in E; injection E as <- <-.
      exists l; split; [done|]. rewrite (proj2 (Z.eqb_neq u 0) Hz); cbn [snd].
      rewrite <- Hp. simpl. apply Permutation_middle.
  - assert (v ∈ pages) as Hin by (rewrite <- Hp; set_solver).
    assert (v ∉ l) as Hni.
    { rewrite <- Hp in Hnd. apply NoDup_app in Hnd as (_ & Hd & _). apply Hd; set_solver. }
    destruct (kfree_spec v s l Hl (proj1 (Forall_forall _ _) Hok v Hin) Hni) as (s1 & E1 & H1 & _).
    rewrite E1 in E; injection E as <-. exists (v :: l); split; [done|]. cbn [snd].
    rewrite <- Hp. rewrite <- !app_assoc; simpl. by rewrite (Permutation_middle own2).
  - exists l; split; [|done]. destruct Hl as [Hc Hn Hpg]. constructor; cbn [fst k_mem k_freelist]; try done.
    eapply chain_frame; [|exact Hc]. intros u Hu. unfold ld32. f_equal. apply mread_ext; intros i Hi.
    rewrite mget_mset, decide_False; [done|]. intros Hua.
    assert (u <> v) as Huv.
    { intros ->. rewrite <- Hp in Hnd. apply NoDup_app in Hnd as (_ & Hd & _). by apply (Hd v). }
    rewrite Forall_forall in Hpg, Hok.
    destruct (pages_apart u v) as [?|?]; try done; [by apply Hpg|apply Hok; rewrite <- Hp; set_solver| |];
      unfold PGSIZE in *; lia.
Qed.

Lemma pages_between_nodup p vend : NoDup (pages_between p vend).
Proof. apply NoDup_fmap_2; [|apply NoDup_seq]. intros i j; unfold PGSIZE; lia. Qed.

Lemma PGROUNDUP_nonneg x : 0 <= PGROUNDUP x.
Proof. unfold PGROUNDUP. apply Z.land_nonneg; left. apply u32_range. Qed.

Lemma kinit1_spec vstart vend s :
  k_freelist s = 0 -> Forall page_ok (pages_between (PGROUNDUP vstart) vend) ->
  exists s', kinit1 vstart vend s = Ok (tt, s') /\
    partition (pages_between (PGROUNDUP vstart) vend) (s', []).
Proof.
  intros Hf Hp. set (s0 := mkk (k_mem s) false (k_freelist s)).
  assert (kmem_ok s0 []) as H0 by (constructor; [done|constructor|constructor]).
  pose proof (PGROUNDUP_nonneg vstart).
  destruct (freerange_loop_spec (Z.to_nat (vend / PGSIZE)) (PGROUNDUP vstart) vend s0 [] H0 Hp)
    as (s' & E & H1 & _).
  - by intros v Hv%not_elem_of_nil.
  - unfold PGSIZE; divmod.
  - exists s'; split; [done|]. eexists; split; [exact H1|]. simpl. rewrite app_nil_r. symmetry; apply Permutation_rev.
Qed.

Lemma reachable_partition pages c c' :
  NoDup pages -> Forall page_ok pages -> partition pages c -> rtc page_step c c' -> partition pages c'.
Proof. intros Hn Hp H Hr; induction Hr; eauto using page_step_partition. Qed.

(** The allocator hands out each page to at most one owner.  After [kinit1]
    over a range of pages, whatever sequence of [kalloc], [kfree] of held pages
    and stores into held pages follows: the pages held are distinct pages of the
    range; [kalloc] returns a page of the range that nobody holds, or 0 exactly
    when all pages are held; and [kfree] of a held page succeeds. *)
Theorem kalloc_exclusive vstart vend s :
  k_freelist s = 0 -> Forall page_ok (pages_between (PGROUNDUP vstart) vend) ->
  let pages := pages_between (PGROUNDUP vstart) vend in
  exists s1, kinit1 vstart vend s = Ok (tt, s1) /\
    forall s2 own, rtc page_step (s1, []) (s2, own) ->
      NoDup own /\ own ⊆ pages /\
      (exists v s3, kalloc s2 = Ok (v, s3) /\
         (v = 0 <-> own ≡ₚ pages) /\ (v <> 0 -> v ∈ pages /\ v ∉ own)) /\
      (forall v, v ∈ own -> exists s3, kfree v s2 = Ok (tt, s3)).
Proof.
  intros Hf Hp pages. destruct (kinit1_spec vstart vend s Hf Hp) as (s1 & E1 & H1).
  exists s1; split; [done|]. intros s2 own Hr. pose proof (pages_between_nodup (PGROUNDUP vstart) vend) as Hnd.
  destruct (reachable_partition _ _ _ Hnd Hp H1 Hr) as (l & Hl & Hpe). cbn [fst snd] in *. fold pages in Hpe, Hnd, Hp.
  assert (NoDup (own ++ l)) as Hnd' by by rewrite Hpe.
  apply NoDup_app in Hnd' as (Ho & Hd & _). split_and!.
  - done.
  - intros v Hv. rewrite <- Hpe. set_solver.
  - pose proof (kalloc_spec s2 l Hl) as K. destruct l as [|u l].
    + exists 0, s2; split_and!; [done| |done]. by rewrite app_nil_r in Hpe.
    + destruct K as (s3 & E3 & _ & Hz & _). exists u, s3; split_and!; [done| |].
      * split; [done|]. intros Hpp%Permutation_length. rewrite <- Hpe, length_app in Hpp. simpl in Hpp; lia.
      * intros _; split; [rewrite <- Hpe; set_solver|]. intros Hu%Hd. set_solver.
  - intros v Hv. destruct (kfree_spec v s2 l Hl) as (s3 & E3 & _); [|by apply Hd|by exists s3].
    rewrite Forall_forall in Hp. apply Hp. rewrite <- Hpe. set_solver.
Qed.
End Kalloc.

Lemma kalloc_exclusive_witness :
  exists s1, kinit1 2148532224 2148532225 2148544512 (mkk ∅ true 0) = Ok (tt, s1) /\
    forall s2 own, rtc (page_step 2148532224) (s1, []) (s2, own) ->
      NoDup own /\ own ⊆ [2148536320; 2148540416] /\
      (exists v s3, kalloc s2 = Ok (v, s3) /\
         (v = 0 <-> own ≡ₚ [2148536320; 2148540416]) /\
         (v <> 0 -> v ∈ [2148536320; 2148540416] /\ v ∉ own)) /\
      (forall v, v ∈ own -> exists s3, kfree 2148532224 v s2 = Ok (tt, s3)).
Proof.
  assert (pages_between (PGROUNDUP 2148532225) 2148544512 = [2148536320; 2148540416]) as E
    by (vm_compute; reflexivity).
  rewrite <- E. apply (kalloc_exclusive 2148532224 2148532225 2148544512 (mkk ∅ true 0) eq_refl).
  rewrite E. repeat constructor; vm_compute; discriminate.
Defined.
