(* ===== verification/Mp.v ===== *)
(** The multiprocessor tables of the firmware (mp.c, mp.h): mpinit finds the processors that
    the table lists, and never ends on an entry that it does not know. *)

From S2P Require Import Prelude Mem Kalloc.
Local Open Scope Z_scope.

(** * mp.h, param.h *)

Definition NCPU : nat := 8.
Definition SIZEOF_MP : Z := 16.
Definition SIZEOF_MPCONF : Z := 44.
Definition SIZEOF_MPPROC : Z := 20.
Definition SIZEOF_MPIOAPIC : Z := 8.
Definition MPPROC : Z := 0.
Definition MPBUS : Z := 1.
Definition MPIOAPIC : Z := 2.
Definition MPIOINTR : Z := 3.
Definition MPLINTR : Z := 4.

(** * mp.c *)

(** What mpinit leaves: the APIC numbers of [cpus[0..ncpu)], the number of the I/O APIC, the
    address of the local APIC, and whether external interrupts were masked in the IMCR. *)
Record machine := mkmachine { m_cpus : list Z; m_ioapicid : Z; m_lapic : Z; m_imcr : bool }.

Section Mp.
  Context (m : mem).

Definition sum (addr : Z) (len : nat) : Z := u8 (fold_left Z.add (mread m addr len) 0).

Definition is_mp (p : Z) : bool := bool_decide (mread m p 4 = [95; 77; 80; 95]) && (sum p (Z.to_nat SIZEOF_MP) =? 0).

Fixpoint mpsearch1_loop (fuel : nat) (p e : Z) : option Z :=
  match fuel with
  | O => None
  | S fuel' => if p <? e then if is_mp p then Some p else mpsearch1_loop fuel' (p + SIZEOF_MP) e else None
  end.

Definition mpsearch1 (a : Z) (len : nat) : option Z :=
  let addr := P2V a in
  mpsearch1_loop len addr (addr + Z.of_nat len).

Definition mpsearch : option Z :=
  let bda := P2V 1024 in
  let p := Z.shiftl (Z.lor (Z.shiftl (mget m (bda + 15)) 8) (mget m (bda + 14))) 4 in
  let first :=
    if negb (p =? 0) then mpsearch1 p 1024
    else mpsearch1 (u32 (Z.lor (Z.shiftl (mget m (bda + 20)) 8) (mget m (bda + 19)) * 1024 - 1024)) 1024 in
  match first with
  | Some mp => Some mp
  | None => mpsearch1 983040 (Z.to_nat 65536)
  end.

(** Fields of the floating pointer and of the table. *)
Definition mp_physaddr (mp : Z) : Z := ld32 m (mp + 4).
Definition mp_imcrp (mp : Z) : Z := mget m (mp + 12).
Definition conf_length (conf : Z) : Z := le_val (mread m (conf + 4) 2).
Definition conf_version (conf : Z) : Z := mget m (conf + 6).
Definition conf_lapicaddr (conf : Z) : Z := ld32 m (conf + 36).

(** The floating pointer and the table. *)
Definition mpconfig : option (Z * Z) :=
  match mpsearch with
  | None => None
  | Some mp =>
      if mp_physaddr mp =? 0 then None else
      let conf := P2V (mp_physaddr mp) in
      if negb (bool_decide (mread m conf 4 = [80; 67; 77; 80])) then None else
      if negb (conf_version conf =? 1) && negb (conf_version conf =? 4) then None else
      if negb (sum conf (Z.to_nat (conf_length conf)) =? 0) then None else
      Some (mp, conf)
  end.

(** The loop over the entries: [cpus], [ioapicid] and [ismp]. *)
Fixpoint mp_entries (fuel : nat) (p e : Z) (cpus : list Z) (ioapicid : Z) (ismp : bool) : outcome (list Z * Z * bool) :=
  if p <? e then
    match fuel with
    | O => UB
    | S fuel' =>
        let t := mget m p in
        if t =? MPPROC then
          mp_entries fuel' (p + SIZEOF_MPPROC) e (if (length cpus <? NCPU)%nat then cpus ++ [mget m (p + 1)] else cpus) ioapicid ismp
        else if t =? MPIOAPIC then mp_entries fuel' (p + SIZEOF_MPIOAPIC) e cpus (mget m (p + 1)) ismp
        else if (t =? MPBUS) || (t =? MPIOINTR) || (t =? MPLINTR) then mp_entries fuel' (p + 8) e cpus ioapicid ismp
        else mp_entries fuel' p e cpus ioapicid false
    end
  else Ok (cpus, ioapicid, ismp).

Definition mpinit (fuel : nat) : outcome machine :=
  match mpconfig with
  | None => Panic "Expect to run on an SMP"
  | Some (mp, conf) =>
      match mp_entries fuel (conf + SIZEOF_MPCONF) (conf + conf_length conf) [] 0 true with
      | Ok (cpus, ioapicid, ismp) =>
          if negb ismp then Panic "Didn't find a suitable machine" else
          Ok (mkmachine cpus ioapicid (conf_lapicaddr conf) (negb (mp_imcrp mp =? 0)))
      | Panic msg => Panic msg
      | Sleep => Sleep
      | UB => UB
      end
  end.

(** * Tables *)

(** An entry of a table: a processor, an I/O APIC, or another one of a known type, with the
    bytes that follow the first two. *)
Inductive entry :=
| EProc (apicid : Z) (rest : bytes)
| EIoapic (apicno : Z) (rest : bytes)
| EOther (type : Z) (rest : bytes).

Definition entry_bytes (e : entry) : bytes :=
  match e with
  | EProc a rest => MPPROC :: a :: rest
  | EIoapic a rest => MPIOAPIC :: a :: rest
  | EOther t rest => t :: rest
  end.

Definition entry_ok (e : entry) : Prop :=
  match e with
  | EProc _ rest => length rest = 18%nat
  | EIoapic _ rest => length rest = 6%nat
  | EOther t rest => (t = MPBUS \/ t = MPIOINTR \/ t = MPLINTR) /\ length rest = 7%nat
  end.

(** The processors that the table lists, and the last I/O APIC. *)
Definition processors (es : list entry) : list Z := omap (fun e => match e with EProc a _ => Some a | _ => None end) es.
Definition io_apic (es : list entry) : Z := foldl (fun x e => match e with EIoapic a _ => a | _ => x end) 0 es.

(** The bytes [l] are at [p]. *)
Definition holds (p : Z) (l : bytes) : Prop := mread m p (length l) = l.

Lemma mread_split a n1 n2 : mread m a (n1 + n2) = mread m a n1 ++ mread m (a + Z.of_nat n1) n2.
Proof.
  unfold mread. rewrite seq_app, fmap_app. f_equal. rewrite Nat.add_0_l. rewrite <- (Nat.add_0_r n1) at 1.
  rewrite <- fmap_add_seq, <- list_fmap_compose. apply list_fmap_ext. intros i x _. cbn. f_equal. lia.
Qed.

Lemma holds_app p l1 l2 : holds p (l1 ++ l2) <-> holds p l1 /\ holds (p + Z.of_nat (length l1)) l2.
Proof.
  unfold holds. rewrite length_app, mread_split. split.
  - intros E. by apply app_inj_1 in E; [|unfold mread; by rewrite length_fmap, length_seq].
  - by intros [-> ->].
Qed.

Lemma holds_cons p x l : holds p (x :: l) <-> mget m p = x /\ holds (p + 1) l.
Proof.
  change (x :: l) with ([x] ++ l). rewrite holds_app. change (Z.of_nat (length [x])) with 1. unfold holds at 1. cbn.
  rewrite Z.add_0_r. split; [by intros [[= ->] ?]|by intros [-> ?]].
Qed.

Definition found (cpus : list Z) (es : list entry) : list Z := take NCPU (cpus ++ processors es).

(** The loop passes over known entries. *)
Lemma entries_pass es rest fuel p e cpus io ismp : Forall entry_ok es -> holds p (concat (entry_bytes <$> es) ++ rest) ->
  e = p + Z.of_nat (length (concat (entry_bytes <$> es) ++ rest)) -> (length cpus <= NCPU)%nat -> (length es <= fuel)%nat ->
  mp_entries fuel p e cpus io ismp =
  mp_entries (fuel - length es) (p + Z.of_nat (length (concat (entry_bytes <$> es)))) e (found cpus es)
    (foldl (fun x e => match e with EIoapic a _ => a | _ => x end) io es) ismp.
Proof.
  revert fuel p cpus io. induction es as [|x es IH]; intros fuel p cpus io Hes Hm He Hc Hf.
  { cbn [length fmap list_fmap concat foldl]. rewrite Nat.sub_0_r, Z.add_0_r. unfold found, processors. cbn. by rewrite app_nil_r, take_ge. }
  apply Forall_cons in Hes as [Hx Hes]. cbn [fmap list_fmap concat] in *. rewrite <- app_assoc in Hm, He.
  apply holds_app in Hm as [Hmx Hm]. rewrite length_app in He. destruct fuel as [|fuel]; [cbn in Hf; lia|]. cbn [length] in Hf.
  assert (Hlen : (0 < length (entry_bytes x))%nat) by (destruct x; cbn; lia).
  cbn [mp_entries]. rewrite (proj2 (Z.ltb_lt _ _)) by lia. cbn [length]. change (S fuel - S (length es))%nat with (fuel - length es)%nat.
  rewrite length_app, Nat2Z.inj_add, Z.add_assoc. cbn [foldl].
  assert (Hnext : forall cpus' io', (length cpus' <= NCPU)%nat ->
    mp_entries fuel (p + Z.of_nat (length (entry_bytes x))) e cpus' io' ismp =
    mp_entries (fuel - length es) (p + Z.of_nat (length (entry_bytes x)) + Z.of_nat (length (concat (entry_bytes <$> es)))) e
      (found cpus' es) (foldl (fun x e => match e with EIoapic a _ => a | _ => x end) io' es) ismp).
  { intros cpus' io' Hc'. apply IH; [done|done|lia|done|lia]. }
  destruct x as [a rest'|a rest'|t rest']; cbn [entry_bytes entry_ok] in *; apply holds_cons in Hmx as [Ht Hmx]; rewrite Ht.
  - apply holds_cons in Hmx as [Ha _]. rewrite Ha. change (MPPROC =? MPPROC) with true. cbv iota.
    change SIZEOF_MPPROC with (Z.of_nat 20). cbn [length] in *. rewrite Hx in *. rewrite Hnext.
    + f_equal. unfold found, processors. cbn [omap list_omap]. destruct (length cpus <? NCPU)%nat eqn:El.
      * by rewrite <- app_assoc.
      * apply Nat.ltb_ge in El. rewrite !take_app_ge by lia. f_equal. replace (NCPU - length cpus)%nat with O by lia. done.
    + destruct (_ <? _)%nat eqn:El; [|done]. apply Nat.ltb_lt in El. rewrite length_app. cbn. lia.
  - apply holds_cons in Hmx as [Ha _]. rewrite Ha. change (MPIOAPIC =? MPPROC) with false. change (MPIOAPIC =? MPIOAPIC) with true. cbv iota.
    change SIZEOF_MPIOAPIC with (Z.of_nat 8). cbn [length] in *. rewrite Hx in *. by rewrite Hnext.
  - destruct Hx as [Ho Hl]. cbn [length] in *. rewrite Hl in *. change 8 with (Z.of_nat 8).
    destruct Ho as [Eo|[Eo|Eo]]; subst t; cbn [Z.eqb orb]; by apply Hnext.
Qed.

(** [mpinit] on a table of known entries, at an address that [mpconfig] accepts. *)
Theorem mpinit_finds mp conf es : mpconfig = Some (mp, conf) -> Forall entry_ok es ->
  holds (conf + SIZEOF_MPCONF) (concat (entry_bytes <$> es)) ->
  conf_length conf = SIZEOF_MPCONF + Z.of_nat (length (concat (entry_bytes <$> es))) ->
  mpinit (length es) = Ok (mkmachine (take NCPU (processors es)) (io_apic es) (conf_lapicaddr conf) (negb (mp_imcrp mp =? 0))).
Proof.
  intros Hc Hes Hm Hl. unfold mpinit. rewrite Hc, Hl. rewrite (entries_pass es []); [|done|by rewrite app_nil_r|rewrite app_nil_r; lia|cbn; lia|lia].
  rewrite Nat.sub_diag, Z.add_assoc. cbn [mp_entries]. rewrite Z.ltb_irrefl. done.
Qed.

(** The loop never ends on an entry of another type: it does not move on, so that the panic
    that should follow is not reached. *)
Theorem mpinit_unknown_hangs mp conf es t rest fuel : mpconfig = Some (mp, conf) -> Forall entry_ok es ->
  t <> MPPROC -> t <> MPIOAPIC -> t <> MPBUS -> t <> MPIOINTR -> t <> MPLINTR ->
  holds (conf + SIZEOF_MPCONF) (concat (entry_bytes <$> es) ++ t :: rest) ->
  conf_length conf = SIZEOF_MPCONF + Z.of_nat (length (concat (entry_bytes <$> es) ++ t :: rest)) ->
  mpinit (length es + fuel) = UB.
Proof.
  intros Hc Hes H0 H2 H1 H3 H4 Hm Hl. unfold mpinit. rewrite Hc, Hl.
  rewrite (entries_pass es (t :: rest)); [|done|done|lia|cbn; lia|lia]. replace (length es + fuel - length es)%nat with fuel by lia.
  apply holds_app in Hm as [_ Hm]. apply holds_cons in Hm as [Ht _].
  assert (Hloop : forall n e cpus io ismp, conf + SIZEOF_MPCONF + Z.of_nat (length (concat (entry_bytes <$> es))) < e ->
    mp_entries n (conf + SIZEOF_MPCONF + Z.of_nat (length (concat (entry_bytes <$> es)))) e cpus io ismp = UB).
  { induction n as [|n IH]; intros e cpus io ismp He; cbn [mp_entries]; rewrite (proj2 (Z.ltb_lt _ _) He); [done|]. rewrite Ht.
    rewrite !(proj2 (Z.eqb_neq _ _)) by done. cbn [orb]. by apply IH. }
  rewrite Hloop; [done|]. rewrite length_app. cbn [length]. lia.
Qed.

(** The search stops at the first structure with the right signature and sum. *)
Lemma mpsearch1_first a len p : mpsearch1 a len = Some p <->
  exists k : nat, p = P2V a + SIZEOF_MP * Z.of_nat k /\ SIZEOF_MP * Z.of_nat k < Z.of_nat len /\ is_mp p = true /\
    forall j : nat, (j < k)%nat -> is_mp (P2V a + SIZEOF_MP * Z.of_nat j) = false.
Proof.
  unfold mpsearch1. set (q := P2V a). set (e := q + Z.of_nat len).
  assert (Hg : forall fuel q', (e - q' <= Z.of_nat fuel) -> mpsearch1_loop fuel q' e = Some p <->
    exists k : nat, p = q' + SIZEOF_MP * Z.of_nat k /\ q' + SIZEOF_MP * Z.of_nat k < e /\ is_mp p = true /\
      forall j : nat, (j < k)%nat -> is_mp (q' + SIZEOF_MP * Z.of_nat j) = false).
  { unfold SIZEOF_MP. induction fuel as [|fuel IH]; intros q' Hf; cbn [mpsearch1_loop].
    { split; [done|]. intros (k & _ & Hk & _). lia. }
    destruct (q' <? e) eqn:Eq; [|split; [done|]; intros (k & _ & Hk & _); lia]. destruct (is_mp q') eqn:Em.
    - split.
      + intros [= <-]. exists 0%nat. split_and!; [lia|lia|done|lia].
      + intros ([|k] & -> & _ & _ & Hj); [f_equal; lia|]. specialize (Hj 0%nat ltac:(lia)). rewrite Z.mul_0_r, Z.add_0_r in Hj. congruence.
    - unfold SIZEOF_MP. rewrite IH by lia. split.
      + intros (k & -> & Hk & Hp & Hj). exists (S k). split_and!; [lia|lia|done|]. intros [|j] Hlt; [by rewrite Z.mul_0_r, Z.add_0_r|].
        rewrite <- (Hj j) by lia. f_equal. lia.
      + intros ([|k] & -> & Hk & Hp & Hj); [rewrite Z.mul_0_r, Z.add_0_r in Hp; congruence|]. exists k. split_and!; [lia|lia|done|].
        intros j Hlt. rewrite <- (Hj (S j)) by lia. f_equal. lia. }
  rewrite Hg by lia. split; intros (k & H1 & H2 & H3 & H4); exists k; split_and!; try done; lia.
Qed.
End Mp.
