(* ===== verification/Syscall.v ===== *)
(** System call arguments (syscall.c): fetching words, buffers and strings from
    the memory of the calling process. *)

From S2P Require Import Prelude Mem Kalloc.
Local Open Scope Z_scope.

(** The numbers of the calls (syscall.h). *)
Definition SYS_fork : Z := 1.
Definition SYS_exit : Z := 2.
Definition SYS_wait : Z := 3.
Definition SYS_pipe : Z := 4.
Definition SYS_read : Z := 5.
Definition SYS_kill : Z := 6.
Definition SYS_exec : Z := 7.
Definition SYS_fstat : Z := 8.
Definition SYS_chdir : Z := 9.
Definition SYS_dup : Z := 10.
Definition SYS_getpid : Z := 11.
Definition SYS_sbrk : Z := 12.
Definition SYS_sleep : Z := 13.
Definition SYS_uptime : Z := 14.
Definition SYS_open : Z := 15.
Definition SYS_write : Z := 16.
Definition SYS_mknod : Z := 17.
Definition SYS_unlink : Z := 18.
Definition SYS_link : Z := 19.
Definition SYS_mkdir : Z := 20.
Definition SYS_close : Z := 21.
Definition SYS_chmod : Z := 22.

(** The calling process: the size of its memory, its saved stack pointer and
    what its memory holds. *)
Record uproc := mkuproc { u_sz : Z; u_esp : Z; u_mem : mem }.

Definition fetchint (p : uproc) (addr : Z) : option Z :=
  if (addr >=? u_sz p) || (u32 (addr + 4) >? u_sz p) then None else Some (s32 (ld32 (u_mem p) addr)).

(** The loop of [fetchstr]: the distance from [start] of the first NUL before [ep]. *)
Fixpoint fetchstr_loop (fuel : nat) (m : mem) (s ep start : Z) : option Z :=
  match fuel with
  | O => None
  | S fuel' =>
      if s <? ep then if mget m s =? 0 then Some (s - start) else fetchstr_loop fuel' m (s + 1) ep start
      else None
  end.

(** The address and the length. *)
Definition fetchstr (p : uproc) (addr : Z) : option (Z * Z) :=
  if addr >=? u_sz p then None else
  match fetchstr_loop (Z.to_nat (u_sz p)) (u_mem p) addr (u_sz p) addr with
  | Some n => Some (addr, n)
  | None => None
  end.

Definition argint (p : uproc) (n : Z) : option Z := fetchint p (u32 (u_esp p + 4 + 4 * n)).

Definition argptr (p : uproc) (n size : Z) : option Z :=
  match argint p n with
  | None => None
  | Some i =>
      if (size <? 0) || (u32 i >=? u_sz p) || (u32 (u32 i + size) >? u_sz p) then None else Some (u32 i)
  end.

Definition argstr (p : uproc) (n : Z) : option (Z * Z) :=
  match argint p n with
  | None => None
  | Some addr => fetchstr p (u32 addr)
  end.

(** The string that a checked pointer stands for, with its terminator. *)
Definition user_string (p : uproc) (a len : Z) : bytes := mread (u_mem p) a (Z.to_nat len) ++ [0].

(** * Correctness *)

Lemma fetchstr_loop_spec fuel m s ep start :
  match fetchstr_loop fuel m s ep start with
  | Some n => s <= start + n < ep /\ mget m (start + n) = 0 /\
      forall a, s <= a < start + n -> mget m a <> 0
  | None => ep - s <= Z.of_nat fuel -> forall a, s <= a < ep -> mget m a <> 0
  end.
Proof.
  revert s; induction fuel as [|fuel IH]; intros s; cbn [fetchstr_loop]; [lia|].
  destruct (s <? ep) eqn:E; [|lia]. destruct (mget m s =? 0) eqn:E0.
  - apply Z.eqb_eq in E0. replace (start + (s - start)) with s by lia. split_and!; [lia|lia|done|lia].
  - apply Z.eqb_neq in E0. specialize (IH (s + 1)). destruct (fetchstr_loop _ _ _ _ _) as [n|].
    + destruct IH as (H1 & H2 & H3). split_and!; [lia|lia|done|].
      intros a Ha. destruct (decide (a = s)) as [->|]; [done|apply H3; lia].
    + intros Hf a Ha. destruct (decide (a = s)) as [->|]; [done|apply IH; lia].
Qed.

(** C34. The kernel only follows user pointers into the caller's memory.  For a
    process of at most KERNBASE bytes: a fetched word lies inside its memory; a
    pointer accepted by [argptr] with a size lies inside it with all of its
    [size] bytes, even for sizes and addresses chosen to wrap around; a string
    accepted by [argstr] is terminated inside it, the length returned is exact,
    and [argstr] refuses an address only if it or the string runs out of the
    memory. *)
Theorem user_pointers_checked p n size :
  0 <= u_sz p <= KERNBASE -> -2147483648 <= size <= INT_MAX ->
  (forall v, argint p n = Some v -> let a := u32 (u_esp p + 4 + 4 * n) in
     0 <= a /\ a + 4 <= u_sz p /\ v = s32 (ld32 (u_mem p) a)) /\
  (forall a, argptr p n size = Some a -> 0 <= size /\ 0 <= a /\ a + size <= u_sz p) /\
  (forall a len, argstr p n = Some (a, len) ->
     0 <= len /\ 0 <= a /\ a + len < u_sz p /\ mget (u_mem p) (a + len) = 0 /\
     forall x, a <= x < a + len -> mget (u_mem p) x <> 0) /\
  (forall v, argint p n = Some v -> argstr p n = None ->
     u_sz p <= u32 v \/ forall x, u32 v <= x < u_sz p -> mget (u_mem p) x <> 0).
Proof.
  intros Hsz Hsize. unfold KERNBASE, INT_MAX in *. split_and!.
  - intros v. unfold argint, fetchint. pose proof (u32_range (u_esp p + 4 + 4 * n)).
    set (a := u32 (u_esp p + 4 + 4 * n)) in *. destruct (_ || _) eqn:E; [done|]. intros [= <-].
    cbv zeta. rewrite (u32_small (a + 4)) in E by lia. split_and!; [lia|lia|done].
  - intros a. unfold argptr. destruct (argint p n) as [i|]; [|done]. pose proof (u32_range i).
    destruct (_ || _) eqn:E; [done|]. intros [= <-].
    rewrite (u32_small (u32 i + size)) in E by lia. lia.
  - intros a len. unfold argstr. destruct (argint p n) as [v|]; [|done]. unfold fetchstr.
    pose proof (u32_range v). destruct (_ >=? _) eqn:E; [done|].
    pose proof (fetchstr_loop_spec (Z.to_nat (u_sz p)) (u_mem p) (u32 v) (u_sz p) (u32 v)) as Hs.
    destruct (fetchstr_loop _ _ _ _ _) as [k|]; [|done]. intros [= <- <-].
    destruct Hs as (H1 & H2 & H3). split_and!; try lia; done.
  - intros v Hv. unfold argstr. rewrite Hv. unfold fetchstr. pose proof (u32_range v).
    destruct (_ >=? _) eqn:E; [intros _; left; lia|].
    pose proof (fetchstr_loop_spec (Z.to_nat (u_sz p)) (u_mem p) (u32 v) (u_sz p) (u32 v)) as Hs.
    destruct (fetchstr_loop _ _ _ _ _) as [k|]; [done|]. intros _; right; apply Hs; lia.
Qed.

(** A process of 4096 bytes with the string "ab" at 100 and its address as
    argument 0. *)
Definition uproc0 : uproc := mkuproc 4096 4000 (mwrite (st32 ∅ 4004 100) 100 [97; 98; 0]).

Lemma user_pointers_checked_witness :
  argstr uproc0 0 = Some (100, 2) /\
  (forall a len, argstr uproc0 0 = Some (a, len) ->
     0 <= len /\ 0 <= a /\ a + len < 4096 /\ mget (u_mem uproc0) (a + len) = 0 /\
     forall x, a <= x < a + len -> mget (u_mem uproc0) x <> 0).
Proof.
  split; [vm_compute; reflexivity|].
  apply (user_pointers_checked uproc0 0 0); unfold KERNBASE, INT_MAX; cbn; lia.
Defined.
