(* ===== verification/File.v ===== *)
(** The open-file table (file.c) and [pipealloc] (pipe.c): what a file
    descriptor stands for, over the inodes of Fs, the pipes of Pipe and the
    pages of Kalloc. *)

From S2P Require Import Prelude Bio Log Crash Mem Block Strings Fs Kalloc Pipe Syscall.
Local Open Scope Z_scope.

(** * Data *)

Inductive ftype := FD_NONE | FD_PIPE | FD_INODE.
#[export] Instance ftype_eq_dec : EqDecision ftype.
Proof. solve_decision. Defined.

Record file := mkfile {
  f_type : ftype;
  f_ref : Z;
  f_readable : bool;
  f_writable : bool;
  f_pipe : Z;
  f_ip : nat;
  f_off : Z
}.

#[export] Instance file_inhabited : Inhabited file := populate (mkfile FD_NONE 0 false false 0 0 0).

Definition set_fref (r : Z) (f : file) : file :=
  mkfile (f_type f) r (f_readable f) (f_writable f) (f_pipe f) (f_ip f) (f_off f).
Definition set_ftype (t : ftype) (f : file) : file :=
  mkfile t (f_ref f) (f_readable f) (f_writable f) (f_pipe f) (f_ip f) (f_off f).
Definition set_foff (o : Z) (f : file) : file :=
  mkfile (f_type f) (f_ref f) (f_readable f) (f_writable f) (f_pipe f) (f_ip f) o.

(** What a system call of one process works on: the file system, the table of
    open files, the pipes by the address of their page, the page allocator, the
    caller's descriptors, memory and [killed] flag. *)
Record ksys (W : Type) := mkksys {
  y_fs : fsys W;
  y_ftable : list file;
  y_pipes : gmap Z pipe;
  y_kmem : kstate;
  y_ofile : list (option nat);
  y_user : uproc;
  y_killed : bool
}.
Arguments mkksys {W}.
Arguments y_fs {W}.
Arguments y_ftable {W}.
Arguments y_pipes {W}.
Arguments y_kmem {W}.
Arguments y_ofile {W}.
Arguments y_user {W}.
Arguments y_killed {W}.

Section File.
  Context {W : Type} `{BlockIO W}.
  Context (kend : Z).
  Context (devsw_read : Z -> option (nat -> Z -> M (fsys W) (Z * bytes))).
  Context (devsw_write : Z -> option (nat -> bytes -> Z -> M (fsys W) Z)).

Definition put_fs (x : fsys W) (s : ksys W) : ksys W :=
  mkksys x (y_ftable s) (y_pipes s) (y_kmem s) (y_ofile s) (y_user s) (y_killed s).
Definition put_ftable (x : list file) (s : ksys W) : ksys W :=
  mkksys (y_fs s) x (y_pipes s) (y_kmem s) (y_ofile s) (y_user s) (y_killed s).
Definition put_pipes (x : gmap Z pipe) (s : ksys W) : ksys W :=
  mkksys (y_fs s) (y_ftable s) x (y_kmem s) (y_ofile s) (y_user s) (y_killed s).
Definition put_kmem (x : kstate) (s : ksys W) : ksys W :=
  mkksys (y_fs s) (y_ftable s) (y_pipes s) x (y_ofile s) (y_user s) (y_killed s).
Definition put_ofile (x : list (option nat)) (s : ksys W) : ksys W :=
  mkksys (y_fs s) (y_ftable s) (y_pipes s) (y_kmem s) x (y_user s) (y_killed s).
Definition put_umem (x : mem) (s : ksys W) : ksys W :=
  mkksys (y_fs s) (y_ftable s) (y_pipes s) (y_kmem s) (y_ofile s)
    (mkuproc (u_sz (y_user s)) (u_esp (y_user s)) x) (y_killed s).

Definition fsdo {A} (m : M (fsys W) A) : M (ksys W) A := zoom y_fs put_fs m.
Definition kmdo {A} (m : M kstate A) : M (ksys W) A := zoom y_kmem put_kmem m.

Definition getf (f : nat) : M (ksys W) file := gets (fun s => y_ftable s !!! f).
Definition updf (f : nat) (g : file -> file) : M (ksys W) unit :=
  modify (fun s => put_ftable (<[f := g (y_ftable s !!! f)]> (y_ftable s)) s).

(** Bytes to and from the caller's memory. *)
Definition copyin (addr n : Z) : M (ksys W) bytes := gets (fun s => mread (u_mem (y_user s)) addr (Z.to_nat n)).
Definition copyto (addr : Z) (l : bytes) : M (ksys W) unit :=
  modify (fun s => put_umem (mwrite (u_mem (y_user s)) addr l) s).

(** * file.c *)

Definition filealloc : M (ksys W) (option nat) :=
  let! ft := gets y_ftable in
  match list_find (fun f => f_ref f = 0) ft with
  | Some (k, _) => do! updf k (set_fref 1) in ret (Some k)
  | None => ret None
  end.

Definition filedup (f : nat) : M (ksys W) nat :=
  let! x := getf f in
  if f_ref x <? 1 then panic "filedup" else
  if negb (f_ref x <? INT_MAX) then undefined else
  do! updf f (set_fref (f_ref x + 1)) in
  ret f.

(** The pipe end closes; the page goes back when both ends are closed. *)
Definition closepipe (p : Z) (writable : bool) : M (ksys W) unit :=
  let! ps := gets y_pipes in
  match ps !! p with
  | None => undefined
  | Some x =>
      let r := pipeclose writable x in
      if r.1 then
        do! kmdo (kfree kend p) in
        modify (fun s => put_pipes (delete p (y_pipes s)) s)
      else modify (fun s => put_pipes (<[p := r.2]> (y_pipes s)) s)
  end.

Definition fileclose (f : nat) : M (ksys W) unit :=
  let! x := getf f in
  if f_ref x <? 1 then panic "fileclose" else
  do! updf f (set_fref (f_ref x - 1)) in
  if f_ref x - 1 >? 0 then ret tt else
  let! ff := getf f in
  do! updf f (set_fref 0) in
  do! updf f (set_ftype FD_NONE) in
  match f_type ff with
  | FD_PIPE => closepipe (f_pipe ff) (f_writable ff)
  | FD_INODE =>
      do! fsdo (io io_begin_op) in
      do! fsdo (iput (f_ip ff)) in
      fsdo (io io_end_op)
  | FD_NONE => ret tt
  end.

(** The stores of [stati] into the [struct stat] at address [a]. *)
Definition put_stat (m : mem) (a : Z) (st : stat) : mem :=
  let m := st32 m (a + 4) (st_dev st) in
  let m := st32 m (a + 8) (st_ino st) in
  let m := mwrite m a (le_bytes 2 (st_type st)) in
  let m := mwrite m (a + 12) (le_bytes 2 (st_nlink st)) in
  let m := st32 m (a + 16) (st_size st) in
  st32 m (a + 20) (st_mode st).

Definition filestat (f : nat) (st : Z) : M (ksys W) Z :=
  let! x := getf f in
  match f_type x with
  | FD_INODE =>
      do! fsdo (ilock (f_ip x)) in
      let! r := fsdo (stati (f_ip x)) in
      do! modify (fun s => put_umem (put_stat (u_mem (y_user s)) st r) s) in
      do! fsdo (iunlock (f_ip x)) in
      ret 0
  | _ => ret (-1)
  end.

Definition fileread (f : nat) (addr n : Z) : M (ksys W) Z :=
  let! x := getf f in
  if negb (f_readable x) then ret (-1) else
  match f_type x with
  | FD_PIPE =>
      let! ps := gets y_pipes in
      let! killed := gets y_killed in
      match ps !! f_pipe x with
      | None => undefined
      | Some p =>
          let r := piperead killed n p in
          do! modify (fun s => put_pipes (<[f_pipe x := r.2]> (y_pipes s)) s) in
          do! copyto addr r.1.1 in
          match r.1.2 with PDone v => ret v | PWait _ => sleep end
      end
  | FD_INODE =>
      do! fsdo (ilock (f_ip x)) in
      let! r := fsdo (readi devsw_read (f_ip x) (f_off x) (u32 n)) in
      do! copyto addr r.2 in
      do! when (r.1 >? 0) (updf f (set_foff (u32 (f_off x + r.1)))) in
      do! fsdo (iunlock (f_ip x)) in
      ret r.1
  | FD_NONE => panic "fileread"
  end.

(** The most bytes [filewrite] writes in one transaction. *)
Definition filewrite_max : Z := (MAXOPBLOCKS - 1 - 1 - 2) / 2 * 512.

(** The loop of [filewrite] from byte [i] on; the result is the last [i]. *)
Fixpoint filewrite_loop (fuel : nat) (f : nat) (addr i n : Z) : M (ksys W) Z :=
  if i <? n then
    match fuel with
    | O => undefined
    | S fuel' =>
        let n1 := if n - i >? filewrite_max then filewrite_max else n - i in
        do! fsdo (io io_begin_op) in
        let! x := getf f in
        do! fsdo (ilock (f_ip x)) in
        let! x := getf f in
        let! src := copyin (addr + i) n1 in
        let! r := fsdo (writei devsw_write (f_ip x) src (f_off x) (u32 n1)) in
        do! when (r >? 0) (updf f (set_foff (u32 (f_off x + r)))) in
        do! fsdo (iunlock (f_ip x)) in
        do! fsdo (io io_end_op) in
        if r <? 0 then ret i else
        if negb (r =? n1) then panic "short filewrite" else
        filewrite_loop fuel' f addr (i + r) n
    end
  else ret i.

Definition filewrite (f : nat) (addr n : Z) : M (ksys W) Z :=
  let! x := getf f in
  if negb (f_writable x) then ret (-1) else
  match f_type x with
  | FD_PIPE =>
      let! ps := gets y_pipes in
      let! killed := gets y_killed in
      let! src := copyin addr n in
      match ps !! f_pipe x with
      | None => undefined
      | Some p =>
          let r := pipewrite killed src p in
          do! modify (fun s => put_pipes (<[f_pipe x := r.2]> (y_pipes s)) s) in
          match r.1 with PDone v => ret v | PWait _ => sleep end
      end
  | FD_INODE =>
      let! i := filewrite_loop (Z.to_nat n) f addr 0 n in
      ret (if i =? n then n else -1)
  | FD_NONE => panic "filewrite"
  end.

(** * pipealloc of pipe.c *)

(** The label [bad]; no page is held there. *)
Definition pipealloc_bad (f0 f1 : option nat) : M (ksys W) (option (nat * nat)) :=
  do! match f0 with Some f => fileclose f | None => ret tt end in
  do! match f1 with Some f => fileclose f | None => ret tt end in
  ret None.

(** [data] starts after the 52 bytes of the lock and holds what the page held. *)
Definition pipealloc : M (ksys W) (option (nat * nat)) :=
  let! f0 := filealloc in
  match f0 with
  | None => pipealloc_bad None None
  | Some a =>
      let! f1 := filealloc in
      match f1 with
      | None => pipealloc_bad f0 None
      | Some b =>
          let! p := kmdo kalloc in
          if p =? 0 then pipealloc_bad f0 f1 else
          let! k := gets y_kmem in
          do! modify (fun s => put_pipes (<[p := pipeinit (mread (k_mem k) (p + 52) (Z.to_nat PIPESIZE))]>
                                            (y_pipes s)) s) in
          do! updf a (fun x => mkfile FD_PIPE (f_ref x) true false p (f_ip x) (f_off x)) in
          do! updf b (fun x => mkfile FD_PIPE (f_ref x) false true p (f_ip x) (f_off x)) in
          ret (Some (a, b))
      end
  end.

(** * Descriptors of [fork] and [exit] (proc.c) *)

(** The child's copy of the descriptors [ofs], one [filedup] each. *)
Fixpoint dup_files (ofs : list (option nat)) : M (ksys W) (list (option nat)) :=
  match ofs with
  | [] => ret []
  | None :: ofs' => let! r := dup_files ofs' in ret (None :: r)
  | Some f :: ofs' =>
      let! g := filedup f in
      let! r := dup_files ofs' in
      ret (Some g :: r)
  end.

(** The child's descriptors and current directory. *)
Definition fork_files : M (ksys W) (list (option nat) * nat) :=
  let! ofs := gets y_ofile in
  let! r := dup_files ofs in
  let! cwd := gets (fun s => f_cwd (y_fs s)) in
  let! d := fsdo (idup cwd) in
  ret (r, d).

(** Close the descriptors [fd, fd + fuel). *)
Fixpoint close_files (fuel fd : nat) : M (ksys W) unit :=
  match fuel with
  | O => ret tt
  | S fuel' =>
      let! ofs := gets y_ofile in
      do! match ofs !!! fd with
          | Some f =>
              do! fileclose f in
              modify (fun s => put_ofile (<[fd := None]> (y_ofile s)) s)
          | None => ret tt
          end in
      close_files fuel' (S fd)
  end.

(** The array [ofile] has NOFILE entries, all of which the loop visits. *)
Definition exit_files : M (ksys W) unit :=
  let! ofs := gets y_ofile in
  do! close_files (length ofs) 0 in
  do! fsdo (io io_begin_op) in
  let! cwd := gets (fun s => f_cwd (y_fs s)) in
  do! fsdo (iput cwd) in
  fsdo (io io_end_op).
End File.
