(* ===== verification/FileWrite.v ===== *)
(** The write call on a file ([filewrite] of file.c): it writes in transactions of
    limited size, so that each is atomic with respect to a crash, and the file
    shows a prefix of what was written at any time. *)

From S2P Require Import Prelude Bio Log Crash Mem Block Strings Fs FsAlloc FsInode FsBlocks FsFile Kalloc Syscall File.
Local Open Scope Z_scope.

(** The file system as the disk shows it between transactions. *)
Definition now (s : fsys lstate) : Z -> bytes := view (l_bio (f_io s)).

(** The on-disk inode of entry [i], and its contents. *)
Definition idisk (s : fsys lstate) (i : nat) : dinode := dinode_at (now s) (f_sb s) (i_inum (f_ic s !!! i)).
Definition idata (s : fsys lstate) (i : nat) : bytes := contents (now s) (idisk s i).

(** No transaction runs; entry [i] of the inode cache is in use, not locked, and
    stands for a file. *)
Record open_inode (s : fsys lstate) (i : nat) : Prop := {
  oi_idle : log_idle (f_io s);
  oi_log : 11 <= l_size (l_log (f_io s));
  oi_layout : layout_ok (H0 := log_laws (f_io s)) (f_sb s);
  oi_meta : meta_ok s (now s);
  oi_i : (i < length (f_ic s))%nat;
  oi_ref : 1 <= i_ref (f_ic s !!! i);
  oi_lock : sl_locked (i_lock (f_ic s !!! i)) = false;
  oi_dev : i_dev (f_ic s !!! i) = ROOTDEV;
  oi_inum : inum_ok (f_sb s) (i_inum (f_ic s !!! i));
  oi_valid : i_valid (f_ic s !!! i) = true -> i_d (f_ic s !!! i) = idisk s i;
  oi_dok : dinode_ok (idisk s i);
  oi_type : d_type (idisk s i) <> 0 /\ d_type (idisk s i) <> T_DEV;
  oi_file : file_ok (now s) (f_sb s) (idisk s i)
}.

(** Two disks that agree on the blocks of the file system show the same files. *)
Section Agree.
  Context (s0 : lstate) (sb : superblock) (f g : Z -> bytes).
#[local] Instance laws_a : BlockLaws lstate := log_laws s0.
  Context (L : layout_ok sb) (A : forall b, home (l_start (l_log s0)) (l_size (l_log s0)) b -> g b = f b).

Lemma agree_marked b : marked g sb b = marked f sb b.
Proof. unfold marked. rewrite A; [done|]. apply (lo_bmap_fs _ L). Qed.

Lemma agree_nfree : nfree g sb = nfree f sb.
Proof. apply nfree_marks, agree_marked. Qed.

Lemma agree_dinode j : inum_ok sb j -> dinode_at g sb j = dinode_at f sb j.
Proof.
  intros Hj. unfold dinode_at. rewrite A; [done|]. destruct (IBLOCK_range _ _ L Hj) as [_ Hr]. by apply (lo_iblock_fs _ L).
Qed.

Lemma agree_file d : file_ok f sb d -> file_ok g sb d /\ contents g d = contents f d /\
  (forall b, uses g d b <-> uses f d b) /\ forall e, e <= MAXFILE * BSIZE -> missing g d e = missing f d e.
Proof.
  intros F. assert (Hs : 0 <= sb_bmapstart sb) by apply (lo_bmap _ L).
  assert (Hm : forall y, 0 <= y -> marked f sb y = true -> marked g sb y = true) by (intros y _; by rewrite agree_marked).
  assert (Hu : forall y, uses f d y -> g y = f y).
  { intros y Hy. apply A. destruct (fo_used _ _ _ F y Hy) as [Hr _]. by apply (lo_data_fs _ L). }
  destruct (file_agree sb f g d Hs F Hm Hu) as (G1 & G2 & G3). split_and!; [done|done|done|].
  intros e He. apply missing_same; [done|]. intros m _. apply (file_same sb f d g F Hs Hm). intros Hi. apply Hu.
  split; [done|by left].
Qed.
End Agree.

Lemma layout_log (s s' : lstate) sb : l_start (l_log s') = l_start (l_log s) -> l_size (l_log s') = l_size (l_log s) ->
  layout_ok (H0 := log_laws s) sb -> layout_ok (H0 := log_laws s') sb.
Proof.
  intros Es Ez []. constructor; try done; unfold fs_block, log_laws, log_fs_block in *; by rewrite Es, Ez.
Qed.

Section Write.
  Context (s : fsys lstate) (i : nat) (O : open_inode s i).
#[local] Instance laws_w : BlockLaws lstate := log_laws (f_io s).
Let ip := f_ic s !!! i.
Let sb := f_sb s.
Let d := idisk s i.

(** [begin_op] and [ilock]. *)
Lemma locked : exists x y, io io_begin_op s = Ok (tt, put_io x s) /\
  ilock i (put_io x s) = Ok (tt, putip i (locked_inode (f_pid s) d ip) (put_io y s)) /\
  file_ready (putip i (locked_inode (f_pid s) d ip) (put_io y s)) i (now s) [].
Proof.
  destruct O as [Hid Hlog L Hm Hi Hr Hl Hd Hin Hv Hok [Ht Ht'] F]. fold ip sb d in Hr, Hl, Hd, Hin, Hv, Hok, Ht, Ht', F, L.
  destruct (tx_begin _ Hid) as (x & E1 & T1).
  assert (exists y, ilock i (put_io x s) = Ok (tt, putip i (locked_inode (f_pid s) d ip) (put_io y s)) /\ tx y (now s) [] [])
    as (y & E2 & T2).
  { destruct (i_valid ip) eqn:Ev.
    - exists x. split; [|done]. rewrite <- Hv by done. by apply (ilock_valid i (put_io x s)).
    - pose proof (ilock_read (put_io x s) (now s) [] [] i T1 L Hi Hr Hl Ev Hd Hin) as Hrd.
      cbn [f_sb f_ic put_io f_pid] in Hrd. fold sb ip in Hrd. change (dinode_at (now s) sb (i_inum ip)) with d in Hrd.
      destruct (d_type d =? 0) eqn:Et; [apply Z.eqb_eq in Et; done|].
      destruct Hrd as (y & E & T'); [apply not_elem_of_nil|vm_compute; lia|]. by exists y. }
  exists x, y. split_and!; [by apply (io_Ok io_begin_op s)|done|].
  assert (E3 : f_ic (putip i (locked_inode (f_pid s) d ip) (put_io y s)) !!! i = locked_inode (f_pid s) d ip) by by apply putip_get.
  constructor; rewrite ?E3; try done. cbn. by rewrite length_insert.
Qed.

(** What a write does to the file system, from [s] to [s']. *)
Record updated (off : Z) (src : bytes) (s' : fsys lstate) : Prop := {
  up_open : open_inode s' i;
  up_inum : i_inum (f_ic s' !!! i) = i_inum ip;
  up_sb : f_sb s' = sb;
  up_data : idata s' i = splice (idata s i) (Z.to_nat off) src;
  up_size : d_size (idisk s' i) = Z.max (d_size d) (off + Z.of_nat (length src));
  up_inodes : forall j, inum_ok sb j -> j <> i_inum ip -> dinode_at (now s') sb j = dinode_at (now s) sb j;
  up_files : forall d2, file_ok (now s) sb d2 -> (forall b, uses (now s) d b -> ~ uses (now s) d2 b) ->
    file_ok (now s') sb d2 /\ contents (now s') d2 = contents (now s) d2 /\
    forall b, uses (now s') (idisk s' i) b -> ~ uses (now s') d2 b;
  up_free : forall e, off + Z.of_nat (length src) <= e <= MAXFILE * BSIZE ->
    (nfree (now s) sb + missing (now s') (idisk s' i) e + need (idisk s' i) =
     nfree (now s') sb + missing (now s) d e + need d)%nat;
  up_start : l_start (l_log (f_io s')) = l_start (l_log (f_io s));
  up_lsize : l_size (l_log (f_io s')) = l_size (l_log (f_io s));
  up_extends : extends (f_io s) (f_io s')
}.

(** A crash on the way shows the state before or the state after. *)
Definition atomic_to (s' : fsys lstate) : Prop := forall me k, exists g, (g = now s \/ g = now s') /\
  recovers me (crash_disk (f_io s) (f_io s') k) (l_start (l_log (f_io s))) (l_size (l_log (f_io s))) g.

(** A crash on the way shows the file with a prefix of the bytes written. *)
Definition prefix_to (off : Z) (src : bytes) (s' : fsys lstate) : Prop := forall me k, exists g p, (p <= length src)%nat /\
  recovers me (crash_disk (f_io s) (f_io s') k) (l_start (l_log (f_io s))) (l_size (l_log (f_io s))) g /\
  contents g (dinode_at g sb (i_inum ip)) = splice (idata s i) (Z.to_nat off) (take p src).

(** From the effect of [writei] inside the transaction to the state after it. *)
Lemma wrote_tx_intro off src s2 s3 f' d' lg' s' : f_sb s2 = sb -> f_ic s2 !!! i = locked_inode (f_pid s) d ip ->
  wrote_file s2 i (now s) [] off src s3 f' d' lg' ->
  f_sb s3 = sb -> f_ic s3 !!! i = set_d d' (locked_inode (f_pid s) d ip) -> f_sb s' = sb -> (i < length (f_ic s'))%nat ->
  f_ic s' !!! i = set_ilock (mksleeplock false 0) (set_d d' (locked_inode (f_pid s) d ip)) ->
  log_idle (f_io s') -> l_start (l_log (f_io s')) = l_start (l_log (f_io s)) ->
  l_size (l_log (f_io s')) = l_size (l_log (f_io s)) ->
  (forall b, home (l_start (l_log (f_io s))) (l_size (l_log (f_io s))) b -> now s' b = f' b) ->
  (forall me k, recovers me (crash_disk (f_io s) (f_io s') k) (l_start (l_log (f_io s))) (l_size (l_log (f_io s)))
     (if decide (k <= length lg')%nat then now s else f')) ->
  extends (f_io s) (f_io s') -> updated off src s' /\ atomic_to s'.
Proof.
  intros Esb2 Eip2 [Ws WR Wc Wm Wi Wf Wl Wfr] Esb3 Eip3 Esb Hi' Eip Hid Hst Hsz A Hcr Hext.
  rewrite Esb2, Eip2 in *. cbn [i_d locked_inode i_inum] in *.
  destruct O as [Hid0 Hlog L Hm Hi Hr Hl Hd Hin Hv Hok [Ht Ht'] F]. fold ip sb d in Hr, Hl, Hd, Hin, Hv, Hok, Ht, Ht', F, L.
  destruct WR as [T3 L3 M3 _ _ _ C3 K3 F3 _]. rewrite Esb3, Eip3 in *. cbn [i_d set_d i_inum locked_inode] in *.
  assert (Hmax : MAXFILE * BSIZE = 71168) by reflexivity.
  assert (Ed : idisk s' i = d').
  { unfold idisk. rewrite Esb, Eip. cbn [i_inum set_ilock set_d locked_inode]. by rewrite (agree_dinode (f_io s) sb f' (now s') L A). }
  destruct (agree_file (f_io s) sb f' (now s') L A d' F3) as (G1 & G2 & G3 & G4).
  split; [constructor; rewrite ?Ed, ?Eip; try done|].
  - constructor; rewrite ?Ed, ?Eip, ?Esb; try done.
    + lia.
    + by apply (layout_log (f_io s)).
    + unfold meta_ok in *. rewrite Esb3 in M3. rewrite Esb. intros b Hb.
      rewrite (agree_marked (f_io s) sb f' (now s') L A). by apply M3.
    + by rewrite Wm.
  - unfold idata. by rewrite Ed, G2, Wc.
  - by rewrite Wm.
  - intros j Hj Hne. rewrite (agree_dinode (f_io s) sb f' (now s') L A) by done. by apply Wi.
  - intros d2 F2 Hdis. destruct (Wf d2 F2 Hdis) as (W1 & W2 & W3).
    destruct (agree_file (f_io s) sb f' (now s') L A d2 W1) as (K1 & K2 & K4 & _). split_and!; [done|by rewrite K2|].
    intros b Hb%G3 Hb2%K4. by apply (W3 b).
  - intros e He. rewrite (agree_nfree (f_io s) sb f' (now s') L A), G4 by lia. by apply Wfr.
  - intros me k. specialize (Hcr me k). destruct (decide _); [exists (now s); by split; [left|]|].
    exists (now s'). split; [by right|]. destruct Hcr as (r & Er & Ir & Nr & Vr). exists r. split_and!; try done.
    intros b Hb. by rewrite Vr, A.
Qed.

Lemma write_tx devsw off src : is_u32 off -> let n := Z.of_nat (length src) in
  n <= filewrite_max -> off <= d_size d -> off + n <= MAXFILE * BSIZE ->
  (missing (now s) d (off + n) + need d <= nfree (now s) sb)%nat ->
  exists s1 s2 s3 s4 s', io io_begin_op s = Ok (tt, s1) /\ ilock i s1 = Ok (tt, s2) /\
    writei devsw i src off n s2 = Ok (n, s3) /\ iunlock i s3 = Ok (tt, s4) /\ io io_end_op s4 = Ok (tt, s') /\
    updated off src s' /\ atomic_to s'.
Proof.
  intros Ho n Hn Hs Hmax Hfr. destruct locked as (x & y & E1 & E2 & R). set (s2 := putip i _ _) in *.
  assert (Eip2 : f_ic s2 !!! i = locked_inode (f_pid s) d ip) by (apply putip_get, O).
  assert (Hmx : MAXFILE * BSIZE = 71168) by reflexivity. change filewrite_max with 1536 in Hn.
  assert (Hnb : nblocks off n <= 4) by (unfold nblocks, BSIZE, is_u32 in *; destruct (n =? 0); divmod).
  pose proof (writei_spec s2 i (now s) [] R devsw off src Ho) as Hw. fold n in Hw. rewrite Eip2 in Hw. cbn [i_d locked_inode] in Hw.
  replace ((off >? d_size d) || (off + n >? MAXFILE * BSIZE)) with false in Hw by lia.
  destruct Hw as (s3 & f' & d' & lg' & E3 & Hw); [unfold is_u32 in *; lia|done| | |].
  { cbn [length]. change (Z.of_nat NB) with 30. lia. }
  { unfold tx_cap, laws_w, log_laws, log_cap. pose proof (oi_log _ _ O). unfold LOGSIZE, MAXOPBLOCKS. cbn [length]. lia. }
  pose proof (wf_state _ _ _ _ _ _ _ _ _ _ Hw) as Es3. pose proof (wf_ready _ _ _ _ _ _ _ _ _ _ Hw) as R3.
  destruct O as [Hid Hlog L Hm Hi Hr Hl Hd Hin Hv Hok [Ht Ht'] F]. fold ip sb d in Hr, Hl, Hd, Hin, Hv, Hok, Ht, Ht', F, L.
  assert (Hi2 : (i < length (f_ic s2))%nat) by (apply (fy_i _ _ _ _ R)).
  assert (Eip3 : f_ic s3 !!! i = set_d d' (locked_inode (f_pid s) d ip)) by (rewrite Es3, <- Eip2; by apply st_ip).
  destruct (tx_end (f_io s) (f_io s3) f' lg' Hid (fy_tx _ _ _ _ R3)) as (x5 & E5 & Hid5 & Hst & Hsz & Hv5 & Hc5 & Hx5).
  set (s4 := putip i (set_ilock (mksleeplock false 0) (f_ic s3 !!! i)) s3).
  assert (E4 : iunlock i s3 = Ok (tt, s4)).
  { apply iunlock_Ok; rewrite Eip3; [|done]. by rewrite Es3. }
  assert (Esb3 : f_sb s3 = sb) by by rewrite Es3.
  exists (put_io x s), s2, s3, s4, (put_io x5 s4).
  refine (conj E1 (conj E2 (conj E3 (conj E4 (conj (io_Ok io_end_op s4 _ _ E5) _))))).
  assert (Eip4 : f_ic (put_io x5 s4) !!! i = set_ilock (mksleeplock false 0) (set_d d' (locked_inode (f_pid s) d ip))).
  { rewrite <- Eip3. apply (putip_get i _ s3). apply (fy_i _ _ _ _ R3). }
  apply (wrote_tx_intro off src s2 s3 f' d' lg'); try done.
  cbn. rewrite length_insert. apply (fy_i _ _ _ _ R3).
Qed.
End Write.

(** * Several transactions *)

Lemma splice_splice {A} (l a b : list A) o : (o <= length l)%nat ->
  splice (splice l o a) (o + length a) b = splice l o (a ++ b).
Proof.
  intros Ho. unfold splice. rewrite length_app, <- !app_assoc.
  rewrite (take_app_ge (take o l)) by (rewrite length_take; lia). rewrite length_take, Nat.min_l by done.
  replace (o + length a - o)%nat with (length a) by lia. rewrite take_app_length, <- app_assoc. do 3 f_equal.
  rewrite drop_app_ge by (rewrite length_take; lia). rewrite length_take, Nat.min_l by done.
  rewrite drop_app_ge by lia. rewrite drop_drop. f_equal. lia.
Qed.

Lemma splice_nil {A} (l : list A) o : splice l o [] = l.
Proof. unfold splice. cbn. by rewrite Nat.add_0_r, take_drop. Qed.

Section Many.
  Context (i : nat).

Lemma idata_length s : length (idata s i) = Z.to_nat (d_size (idisk s i)).
Proof. apply contents_length. Qed.

Lemma updated_trans s1 s2 s3 off a b : 0 <= off <= d_size (idisk s1 i) ->
  updated s1 i off a s2 -> updated s2 i (off + Z.of_nat (length a)) b s3 -> updated s1 i off (a ++ b) s3.
Proof.
  intros Ho [] []. rewrite ?up_sb0, ?up_inum0 in *. constructor; try congruence.
  - rewrite up_data1, up_data0. rewrite Z2Nat.inj_add, Nat2Z.id by lia. apply splice_splice. rewrite idata_length. lia.
  - rewrite length_app. lia.
  - intros j Hj Hne. rewrite up_inodes1 by done. by apply up_inodes0.
  - intros d2 F2 Hd. destruct (up_files0 d2 F2 Hd) as (F2' & C2 & Hd'). destruct (up_files1 d2 F2' Hd') as (F3 & C3 & Hd3).
    split_and!; [done|congruence|done].
  - intros e He. rewrite length_app in He. specialize (up_free0 e ltac:(lia)). specialize (up_free1 e ltac:(lia)). lia.
  - by eapply extends_trans.
Qed.

Lemma prefix_trans s1 s2 s3 off a b : 0 <= off <= d_size (idisk s1 i) ->
  updated s1 i off a s2 -> updated s2 i (off + Z.of_nat (length a)) b s3 ->
  atomic_to s1 s2 -> prefix_to s2 i (off + Z.of_nat (length a)) b s3 -> prefix_to s1 i off (a ++ b) s3.
Proof.
  intros Ho U1 U2 A P me k. pose proof U1 as []. rewrite ?up_sb0, ?up_inum0 in *.
  destruct (crash_split _ _ _ k up_extends0 (up_extends _ _ _ _ _ U2)) as [->|[j ->]].
  - destruct (A me k) as (g & [->| ->] & Hg).
    + exists (now s1), 0%nat. split_and!; [lia|done|]. by rewrite take_0, splice_nil.
    + exists (now s2), (length a). split_and!; [rewrite length_app; lia|done|]. rewrite take_app_length, <- up_data0.
      unfold idata, idisk. by rewrite up_sb0, up_inum0.
  - destruct (P me j) as (g & p & Hp & Hg & Hc). rewrite up_start0, up_lsize0, up_sb0, up_inum0 in *.
    exists g, (length a + p)%nat. split_and!; [rewrite length_app; lia|done|]. rewrite Hc, up_data0.
    rewrite take_app_add. rewrite Z2Nat.inj_add, Nat2Z.id by lia. apply splice_splice. rewrite idata_length. lia.
Qed.
End Many.

Lemma mread_app m a p q : mread m a (p + q) = mread m a p ++ mread m (a + Z.of_nat p) q.
Proof.
  unfold mread. rewrite seq_app, fmap_app. f_equal. rewrite Nat.add_0_l, <- (Nat.add_0_r p) at 1.
  rewrite <- fmap_add_seq, <- list_fmap_compose. apply list_fmap_ext. intros k j _. cbn. f_equal. lia.
Qed.

Lemma atomic_prefix s i off a s' : updated s i off a s' -> atomic_to s s' -> prefix_to s i off a s'.
Proof.
  intros [] A me k. destruct (A me k) as (g & [->| ->] & Hg).
  - exists (now s), 0%nat. split_and!; [lia|done|]. by rewrite take_0, splice_nil.
  - exists (now s'), (length a). split_and!; [done|done|]. rewrite take_ge, <- up_data0 by done.
    unfold idata, idisk. by rewrite up_sb0, up_inum0.
Qed.

Lemma missing_mono f d e e' : e <= e' -> (missing f d e <= missing f d e')%nat.
Proof.
  intros He. unfold missing, BSIZE. assert (exists k, Z.to_nat ((e' + 511) / 512) = (Z.to_nat ((e + 511) / 512) + k)%nat) as [k Hk]
    by (exists (Z.to_nat ((e' + 511) / 512) - Z.to_nat ((e + 511) / 512))%nat; divmod).
  change (512 - 1) with 511. rewrite Hk, seq_app, filter_app, length_app. lia.
Qed.

Section Filewrite.
  Context (devsw_write : Z -> option (nat -> bytes -> Z -> M (fsys lstate) Z)).

Lemma fsdo_Ok {A} (m : M (fsys lstate) A) (s : ksys lstate) a x : m (y_fs s) = Ok (a, x) -> fsdo m s = Ok (a, put_fs x s).
Proof. apply zoom_Ok. Qed.

(** The state after [n] bytes at [off] have been written through file [f]. *)
Definition after_write (s : ksys lstate) (f : nat) (x : fsys lstate) (off : Z) : ksys lstate :=
  put_ftable (<[f := set_foff off (y_ftable s !!! f)]> (y_ftable s)) (put_fs x s).

Lemma filewrite_round fuel s f addr j n : let x := y_ftable s !!! f in let i := f_ip x in let off := f_off x in
  let n1 := if n - j >? filewrite_max then filewrite_max else n - j in
  let src := mread (u_mem (y_user s)) (addr + j) (Z.to_nat n1) in
  0 <= j < n -> open_inode (y_fs s) i -> 0 <= off <= d_size (idisk (y_fs s) i) -> off + n1 <= MAXFILE * BSIZE ->
  (missing (now (y_fs s)) (idisk (y_fs s) i) (off + n1) + need (idisk (y_fs s) i) <= nfree (now (y_fs s)) (f_sb (y_fs s)))%nat ->
  exists y, filewrite_loop devsw_write (S fuel) f addr j n s =
      filewrite_loop devsw_write fuel f addr (j + n1) n (after_write s f y (off + n1)) /\
    updated (y_fs s) i off src y /\ atomic_to (y_fs s) y.
Proof.
  intros x i off n1 src Hj O Ho Hmax Hfr. assert (Hmx : MAXFILE * BSIZE = 71168) by reflexivity.
  assert (Hfm : filewrite_max = 1536) by reflexivity.
  assert (Hn1 : 0 < n1 <= filewrite_max) by (unfold n1; destruct (n - j >? filewrite_max) eqn:?; lia).
  assert (Hl : Z.of_nat (length src) = n1) by (unfold src; rewrite length_mread; lia).
  destruct (write_tx (y_fs s) i O devsw_write off src) as (s1 & s2 & s3 & s4 & s5 & E1 & E2 & E3 & E4 & E5 & U);
    rewrite ?Hl; try lia; [unfold is_u32; lia|].
  exists s5. split; [|done]. cbn [filewrite_loop]. replace (j <? n) with true by lia. fold n1.
  mstep (fsdo_Ok _ s _ _ E1). mstep (eq_refl : getf f (put_fs s1 s) = Ok (x, put_fs s1 s)). fold i.
  mstep (fsdo_Ok _ (put_fs s1 s) _ _ E2). change (put_fs s2 (put_fs s1 s)) with (put_fs s2 s).
  mstep (eq_refl : getf f (put_fs s2 s) = Ok (x, put_fs s2 s)).
  mstep (eq_refl : copyin (addr + j) n1 (put_fs s2 s) = Ok (src, put_fs s2 s)). fold i off.
  rewrite u32_small by (lia). rewrite Hl in E3. mstep (fsdo_Ok _ (put_fs s2 s) _ _ E3).
  replace (n1 >? 0) with true by lia. rewrite u32_small by lia. cbn [when].
  mstep (eq_refl : updf f (set_foff (off + n1)) (put_fs s3 s) = Ok (tt, after_write s f s3 (off + n1))).
  mstep (fsdo_Ok _ (after_write s f s3 (off + n1)) _ _ E4).
  mstep (fsdo_Ok _ (after_write s f s4 (off + n1)) _ _ E5).
  replace (n1 <? 0) with false by lia. rewrite Z.eqb_refl. done.
Qed.

Lemma filewrite_loop_spec fuel s f addr j n : let x := y_ftable s !!! f in let i := f_ip x in let off := f_off x in
  let src := mread (u_mem (y_user s)) (addr + j) (Z.to_nat (n - j)) in
  (f < length (y_ftable s))%nat -> 0 <= j < n -> open_inode (y_fs s) i -> 0 <= off <= d_size (idisk (y_fs s) i) ->
  off + (n - j) <= MAXFILE * BSIZE -> (Z.to_nat (n - j) <= fuel)%nat ->
  (missing (now (y_fs s)) (idisk (y_fs s) i) (off + (n - j)) + need (idisk (y_fs s) i) <= nfree (now (y_fs s)) (f_sb (y_fs s)))%nat ->
  exists y, filewrite_loop devsw_write fuel f addr j n s = Ok (n, after_write s f y (off + (n - j))) /\
    updated (y_fs s) i off src y /\ prefix_to (y_fs s) i off src y.
Proof.
  revert s j. induction fuel as [|fuel IH]; intros s j x i off src Hf Hj O Ho Hmax Hfu Hfr; [lia|].
  set (n1 := if n - j >? filewrite_max then filewrite_max else n - j).
  assert (Hfm : filewrite_max = 1536) by reflexivity.
  assert (Hn1 : 0 < n1 <= n - j) by (unfold n1; destruct (n - j >? filewrite_max) eqn:?; lia).
  destruct (filewrite_round fuel s f addr j n Hj O Ho) as (y & E & U & A); fold x i off n1; [lia| |].
  { pose proof (missing_mono (now (y_fs s)) (idisk (y_fs s) i) (off + n1) (off + (n - j)) ltac:(lia)). lia. }
  fold x i off n1 in E, U, A. destruct (decide (n1 = n - j)) as [En|En].
  - exists y. rewrite En in *. replace (j + (n - j)) with n in E by lia. split_and!; [|done|by apply atomic_prefix].
    rewrite E. destruct fuel; cbn [filewrite_loop]; by replace (n <? n) with false by lia.
  - set (s' := after_write s f y (off + n1)) in *.
    assert (Ex : y_ftable s' !!! f = set_foff (off + n1) x) by (cbn; by apply list_lookup_total_insert_eq).
    set (a := mread (u_mem (y_user s)) (addr + j) (Z.to_nat n1)) in *.
    assert (Ha : Z.of_nat (length a) = n1) by (unfold a; rewrite length_mread; lia).
    assert (Esrc : src = a ++ mread (u_mem (y_user s)) (addr + (j + n1)) (Z.to_nat (n - (j + n1)))).
    { unfold src, a. replace (Z.to_nat (n - j)) with (Z.to_nat n1 + Z.to_nat (n - (j + n1)))%nat by lia.
      rewrite mread_app. do 2 f_equal. lia. }
    destruct (IH s' (j + n1)) as (z & E' & U' & P'); rewrite ?Ex; cbn [f_ip f_off set_foff y_fs after_write put_ftable put_fs s']; fold i; try lia.
    { cbn. by rewrite length_insert. }
    { apply U. }
    { rewrite (up_size _ _ _ _ _ U), Ha. lia. }
    { replace (off + n1 + (n - (j + n1))) with (off + (n - j)) by lia. rewrite (up_sb _ _ _ _ _ U).
      pose proof (up_free _ _ _ _ _ U (off + (n - j))). lia. }
    rewrite Ex in *. cbn [f_ip f_off set_foff] in *. fold i in U', P'. change (y_fs s') with y in *. change (y_user s') with (y_user s) in *.
    replace (off + n1) with (off + Z.of_nat (length a)) in U', P' by lia. exists z. rewrite E, E'. split_and!.
    + do 2 f_equal. unfold s', after_write, put_ftable, put_fs; cbn.
      rewrite list_insert_insert_eq, list_lookup_total_insert_eq by done. do 2 f_equal. unfold set_foff; cbn. f_equal. lia.
    + rewrite Esrc. by apply (updated_trans i _ y).
    + rewrite Esrc. by apply (prefix_trans i _ y).
Qed.

(** C7. A write to a file is durable and safe against crashes.  For an open file of a
    regular inode, at an offset inside it, with enough free blocks and a log of at
    least 11 blocks, the call writes all [n] bytes from the caller's memory in
    transactions that fit their log space, and returns [n]; then the file on the disk
    has the bytes at the offset, which moves on, its inode is unlocked, and other
    inodes and the files that share no block with it are unchanged.  At whatever
    sector write the power fails, recovery shows the file with a prefix of the bytes
    written. *)
Theorem filewrite_crash_safe s f addr n : let x := y_ftable s !!! f in let i := f_ip x in let off := f_off x in
  let src := mread (u_mem (y_user s)) addr (Z.to_nat n) in
  (f < length (y_ftable s))%nat -> f_type x = FD_INODE -> f_writable x = true -> 0 < n ->
  open_inode (y_fs s) i -> 0 <= off <= d_size (idisk (y_fs s) i) -> off + n <= MAXFILE * BSIZE ->
  (missing (now (y_fs s)) (idisk (y_fs s) i) (off + n) + need (idisk (y_fs s) i) <= nfree (now (y_fs s)) (f_sb (y_fs s)))%nat ->
  exists y, filewrite devsw_write f addr n s = Ok (n, after_write s f y (off + n)) /\
    updated (y_fs s) i off src y /\ prefix_to (y_fs s) i off src y.
Proof.
  intros x i off src Hf Ht Hw Hn O Ho Hmax Hfr.
  destruct (filewrite_loop_spec (Z.to_nat n) s f addr 0 n Hf) as (y & E & U & P); rewrite ?Z.sub_0_r; try done.
  rewrite Z.sub_0_r, Z.add_0_r in *. exists y. split_and!; [|done|done].
  unfold filewrite. mstep (eq_refl : getf f s = Ok (x, s)). rewrite Hw, Ht. cbn [negb]. mstep E. by rewrite Z.eqb_refl.
Qed.
End Filewrite.

(** ** Witness: 2000 bytes, in two transactions, at the end of the root directory *)

#[local] Opaque boot_fs.

Definition sys_root : ksys lstate :=
  mkksys fs_idle [mkfile FD_INODE 1 true true 0 0 512] ∅ (mkk ∅ true 0) [] (mkuproc 4096 0 ∅) false.

Lemma root_open : open_inode fs_idle 0.
Proof.
  assert (Ed : idisk fs_idle 0 = rootino0) by exact rootino_fs.
  apply Build_open_inode; rewrite ?Ed.
  - exact boot_fs_idle.
  - change (11 <= l_size (l_log boot_fs)). rewrite boot_fs_log. cbn. lia.
  - exact layout_fs.
  - exact meta_fs.
  - change (0 < 50)%nat. lia.
  - change (1 <= 1). lia.
  - change (false = false). done.
  - change (ROOTDEV = ROOTDEV). done.
  - change (0 <= 1 < 200). lia.
  - change (false = true -> dinode0 = rootino0). done.
  - rewrite <- rootino_fs. unfold dinode_at. change (IBLOCK ROOTINO sb_fs) with 32. rewrite inodes_fs.
    apply get_dinode_ok, inodes0_bytes.
  - clear. split; discriminate.
  - exact root_file.
Qed.

Lemma filewrite_crash_safe_witness : exists y,
  filewrite (fun _ => None) 0 0 2000 sys_root = Ok (2000, after_write sys_root 0 y 2512) /\
  updated fs_idle 0 512 (mread ∅ 0 2000) y /\ prefix_to fs_idle 0 512 (mread ∅ 0 2000) y.
Proof.
  apply (filewrite_crash_safe (fun _ => None) sys_root 0 0 2000).
  - cbn. lia.
  - done.
  - done.
  - done.
  - exact root_open.
  - change (idisk (y_fs sys_root) (f_ip (y_ftable sys_root !!! 0%nat))) with (dinode_at view_fs sb_fs ROOTINO).
    rewrite rootino_fs. cbn. lia.
  - vm_compute. discriminate.
  - change (idisk (y_fs sys_root) (f_ip (y_ftable sys_root !!! 0%nat))) with (dinode_at view_fs sb_fs ROOTINO).
    rewrite rootino_fs. change (f_sb (y_fs sys_root)) with sb_fs. change (now (y_fs sys_root)) with view_fs. rewrite nfree_fs.
    rewrite (missing_same (fun _ => []) rootino0); [vm_compute; lia|vm_compute; discriminate|done].
Defined.
