(* ===== verification/Sysfile.v ===== *)
(** The file system calls (sysfile.c). *)

From S2P Require Import Prelude Bio Log Crash Mem Block Strings Fs Kalloc Pipe Syscall File.
Local Open Scope Z_scope.

Definition O_RDONLY : Z := 0.
Definition O_WRONLY : Z := 1.
Definition O_RDWR : Z := 2.
Definition O_CREATE : Z := 512.
Definition SIZEOF_STAT : Z := 24.

Section Sysfile.
  Context {W : Type} `{BlockIO W}.
  Context (kend : Z).
  Context (devsw_read : Z -> option (nat -> Z -> M (fsys W) (Z * bytes))).
  Context (devsw_write : Z -> option (nat -> bytes -> Z -> M (fsys W) Z)).

(** Arguments of the calling process. *)
Definition arg_int (n : Z) : M (ksys W) (option Z) := gets (fun s => argint (y_user s) n).
Definition arg_ptr (n size : Z) : M (ksys W) (option Z) := gets (fun s => argptr (y_user s) n size).
Definition arg_str (n : Z) : M (ksys W) (option bytes) :=
  gets (fun s => match argstr (y_user s) n with
                 | Some (a, len) => Some (user_string (y_user s) a len)
                 | None => None
                 end).

(** [let* x := m in k] returns -1 from the call when [m] has no result. *)
Definition orfail {A} (m : M (ksys W) (option A)) (k : A -> M (ksys W) Z) : M (ksys W) Z :=
  let! r := m in match r with Some a => k a | None => ret (-1) end.

Notation "'let*' x ':=' m 'in' k" := (orfail m (fun x => k))
  (at level 10, x name, m at level 100, k at level 200,
   format "'[v' 'let*'  x  ':='  m  'in' '/' k ']'") : kernel_scope.

Definition begin_op' : M (ksys W) unit := fsdo (io io_begin_op).
Definition end_op' : M (ksys W) unit := fsdo (io io_end_op).

(** The descriptor and the file. *)
Definition argfd (n : Z) : M (ksys W) (option (Z * nat)) :=
  let! fd := arg_int n in
  match fd with
  | None => ret None
  | Some fd =>
      if (fd <? 0) || (fd >=? NOFILE) then ret None else
      let! ofs := gets y_ofile in
      match ofs !!! Z.to_nat fd with
      | None => ret None
      | Some f => ret (Some (fd, f))
      end
  end.

Definition fdalloc (f : nat) : M (ksys W) (option Z) :=
  let! ofs := gets y_ofile in
  match list_find (fun o => o = None) ofs with
  | Some (fd, _) =>
      do! modify (fun s => put_ofile (<[fd := Some f]> (y_ofile s)) s) in
      ret (Some (Z.of_nat fd))
  | None => ret None
  end.

Definition clear_fd (fd : Z) : M (ksys W) unit :=
  modify (fun s => put_ofile (<[Z.to_nat fd := None]> (y_ofile s)) s).

Definition sys_dup : M (ksys W) Z :=
  let* a := argfd 0 in
  let* fd := fdalloc a.2 in
  do! filedup a.2 in
  ret fd.

Definition sys_read : M (ksys W) Z :=
  let* a := argfd 0 in
  let* n := arg_int 2 in
  let* p := arg_ptr 1 n in
  fileread devsw_read a.2 p n.

Definition sys_write : M (ksys W) Z :=
  let* a := argfd 0 in
  let* n := arg_int 2 in
  let* p := arg_ptr 1 n in
  filewrite devsw_write a.2 p n.

Definition sys_close : M (ksys W) Z :=
  let* a := argfd 0 in
  do! clear_fd a.1 in
  do! fileclose kend a.2 in
  ret 0.

Definition sys_fstat : M (ksys W) Z :=
  let* a := argfd 0 in
  let* st := arg_ptr 1 SIZEOF_STAT in
  filestat a.2 st.

(** ** link and unlink *)

Definition name0 : bytes := replicate (Z.to_nat DIRSIZ) 0.

(** The label [bad] of [sys_link]. *)
Definition link_bad (ip : nat) : M (fsys W) Z :=
  do! ilock ip in
  do! updd ip (fun d => set_nlink (s16 (d_nlink d - 1)) d) in
  do! iupdate ip in
  do! iunlockput ip in
  do! io io_end_op in
  ret (-1).

Definition link_op (old new : bytes) : M (fsys W) Z :=
  do! io io_begin_op in
  let! r := namei devsw_read old in
  match r with
  | None => do! io io_end_op in ret (-1)
  | Some ip =>
      do! ilock ip in
      let! x := getip ip in
      if d_type (i_d x) =? T_DIR then
        do! iunlockput ip in
        do! io io_end_op in
        ret (-1)
      else
      do! updd ip (fun d => set_nlink (s16 (d_nlink d + 1)) d) in
      do! iupdate ip in
      do! iunlock ip in
      let! p := nameiparent devsw_read new name0 in
      match p.1 with
      | None => link_bad ip
      | Some dp =>
          do! ilock dp in
          let! y := getip dp in
          let! x := getip ip in
          let! bad := (if negb (i_dev y =? i_dev x) then ret true
                       else let! r := dirlink devsw_read devsw_write dp p.2 (i_inum x) in
                            ret (r <? 0)) in
          if bad then do! iunlockput dp in link_bad ip else
          do! iunlockput dp in
          do! iput ip in
          do! io io_end_op in
          ret 0
      end
  end.

Definition sys_link : M (ksys W) Z :=
  let* old := arg_str 0 in
  let* new := arg_str 1 in
  fsdo (link_op old new).

Fixpoint isdirempty_loop (fuel : nat) (dp : nat) (off : Z) : M (fsys W) bool :=
  let! ip := getip dp in
  if off <? d_size (i_d ip) then
    match fuel with
    | O => undefined
    | S fuel' =>
        let! r := readi devsw_read dp off SIZEOF_DIRENT in
        if negb (r.1 =? SIZEOF_DIRENT) then panic "isdirempty: readi" else
        if negb (ld 2 r.2 0 =? 0) then ret false else
        isdirempty_loop fuel' dp (off + SIZEOF_DIRENT)
    end
  else ret true.

Definition isdirempty (dp : nat) : M (fsys W) bool :=
  let! ip := getip dp in
  isdirempty_loop (Z.to_nat (d_size (i_d ip))) dp (2 * SIZEOF_DIRENT).

(** The label [bad] of [sys_unlink]. *)
Definition unlink_bad (dp : nat) : M (fsys W) Z :=
  do! iunlockput dp in
  do! io io_end_op in
  ret (-1).

Definition unlink_op (path : bytes) : M (fsys W) Z :=
  do! io io_begin_op in
  let! p := nameiparent devsw_read path name0 in
  match p.1 with
  | None => do! io io_end_op in ret (-1)
  | Some dp =>
      do! ilock dp in
      let! c1 := lift (namecmp p.2 [46; 0]) in
      let! c2 := (if c1 =? 0 then ret 0 else lift (namecmp p.2 [46; 46; 0])) in
      if (c1 =? 0) || (c2 =? 0) then unlink_bad dp else
      let! r := dirlookup devsw_read dp p.2 in
      match r with
      | None => unlink_bad dp
      | Some (ip, off) =>
          do! ilock ip in
          let! x := getip ip in
          if d_nlink (i_d x) <? 1 then panic "unlink: nlink < 1" else
          let! e := (if d_type (i_d x) =? T_DIR then isdirempty ip else ret true) in
          if negb e then do! iunlockput ip in unlink_bad dp else
          let! n := writei devsw_write dp (replicate (Z.to_nat SIZEOF_DIRENT) 0) off SIZEOF_DIRENT in
          if negb (n =? SIZEOF_DIRENT) then panic "unlink: writei" else
          let! x := getip ip in
          do! when (d_type (i_d x) =? T_DIR)
                (do! updd dp (fun d => set_nlink (s16 (d_nlink d - 1)) d) in iupdate dp) in
          do! iunlockput dp in
          do! updd ip (fun d => set_nlink (s16 (d_nlink d - 1)) d) in
          do! iupdate ip in
          do! iunlockput ip in
          do! io io_end_op in
          ret 0
      end
  end.

Definition sys_unlink : M (ksys W) Z :=
  let* path := arg_str 0 in
  fsdo (unlink_op path).

(** ** create, open, mkdir, mknod *)

(** A new entry [name] of type [type] in the locked directory [dp]. *)
Definition create_new (dp : nat) (name : bytes) (type major minor : Z) : M (fsys W) nat :=
  let! y := getip dp in
  let! ip := ialloc (i_dev y) type in
  do! ilock ip in
  do! updd ip (fun d => set_nlink 1 (set_dev major minor d)) in
  do! iupdate ip in
  do! when (type =? T_DIR)
        (do! updd dp (fun d => set_nlink (s16 (d_nlink d + 1)) d) in
         do! iupdate dp in
         let! x := getip ip in
         let! r := dirlink devsw_read devsw_write ip [46; 0] (i_inum x) in
         if r <? 0 then panic "create dots" else
         let! y := getip dp in
         let! r := dirlink devsw_read devsw_write ip [46; 46; 0] (i_inum y) in
         if r <? 0 then panic "create dots" else ret tt) in
  let! x := getip ip in
  let! r := dirlink devsw_read devsw_write dp name (i_inum x) in
  if r <? 0 then panic "create: dirlink" else
  do! iunlockput dp in
  ret ip.

Definition create (path : bytes) (type major minor : Z) : M (fsys W) (option nat) :=
  let! p := nameiparent devsw_read path name0 in
  match p.1 with
  | None => ret None
  | Some dp =>
      do! ilock dp in
      let! r := dirlookup devsw_read dp p.2 in
      match r with
      | Some (ip, _) =>
          do! iunlockput dp in
          do! ilock ip in
          let! x := getip ip in
          if (type =? T_FILE) && (d_type (i_d x) =? T_FILE) then ret (Some ip) else
          do! iunlockput ip in
          ret None
      | None =>
          let! ip := create_new dp p.2 type major minor in
          ret (Some ip)
      end
  end.

(** The inode of [sys_open], locked. *)
Definition open_ip (path : bytes) (omode : Z) : M (fsys W) (option nat) :=
  if negb (Z.land omode O_CREATE =? 0) then create path T_FILE 0 0 else
  let! r := namei devsw_read path in
  match r with
  | None => ret None
  | Some ip =>
      do! ilock ip in
      let! x := getip ip in
      if (d_type (i_d x) =? T_DIR) && negb (omode =? O_RDONLY) then
        do! iunlockput ip in
        ret None
      else ret (Some ip)
  end.

Definition open_fail (ip : nat) : M (ksys W) Z :=
  do! fsdo (iunlockput ip) in
  do! end_op' in
  ret (-1).

Definition sys_open : M (ksys W) Z :=
  let* path := arg_str 0 in
  let* omode := arg_int 1 in
  do! begin_op' in
  let! r := fsdo (open_ip path omode) in
  match r with
  | None => do! end_op' in ret (-1)
  | Some ip =>
      let! f := filealloc in
      match f with
      | None => open_fail ip
      | Some f =>
          let! fd := fdalloc f in
          match fd with
          | None => do! fileclose kend f in open_fail ip
          | Some fd =>
              do! fsdo (iunlock ip) in
              do! end_op' in
              do! updf f (fun x => mkfile FD_INODE (f_ref x) (Z.land omode O_WRONLY =? 0)
                    (negb (Z.land omode O_WRONLY =? 0) || negb (Z.land omode O_RDWR =? 0))
                    (f_pipe x) ip 0) in
              ret fd
          end
      end
  end.

(** The common end of [sys_mkdir] and [sys_mknod]. *)
Definition create_only (path : bytes) (type major minor : Z) : M (fsys W) Z :=
  let! r := create path type major minor in
  match r with
  | None => do! io io_end_op in ret (-1)
  | Some ip => do! iunlockput ip in do! io io_end_op in ret 0
  end.

Definition sys_mkdir : M (ksys W) Z :=
  do! begin_op' in
  let! path := arg_str 0 in
  match path with
  | None => do! end_op' in ret (-1)
  | Some path => fsdo (create_only path T_DIR 0 0)
  end.

Definition sys_mknod : M (ksys W) Z :=
  do! begin_op' in
  let! path := arg_str 0 in
  let! major := arg_int 1 in
  let! minor := arg_int 2 in
  match path, major, minor with
  | Some path, Some major, Some minor => fsdo (create_only path T_DEV (s16 major) (s16 minor))
  | _, _, _ => do! end_op' in ret (-1)
  end.

(** ** chdir, exec, pipe, chmod *)

Definition put_cwd (i : nat) (s : fsys W) : fsys W := mkfsys (f_io s) (f_sb s) (f_ic s) (f_pid s) i.

Definition chdir_op (path : bytes) : M (fsys W) Z :=
  let! r := namei devsw_read path in
  match r with
  | None => do! io io_end_op in ret (-1)
  | Some ip =>
      do! ilock ip in
      let! x := getip ip in
      if negb (d_type (i_d x) =? T_DIR) then
        do! iunlockput ip in
        do! io io_end_op in
        ret (-1)
      else
      do! iunlock ip in
      let! cwd := gets f_cwd in
      do! iput cwd in
      do! io io_end_op in
      do! modify (put_cwd ip) in
      ret 0
  end.

Definition sys_chdir : M (ksys W) Z :=
  do! begin_op' in
  let! path := arg_str 0 in
  match path with
  | None => do! end_op' in ret (-1)
  | Some path => fsdo (chdir_op path)
  end.

(** The argument vector of [sys_exec]: the strings up to the null pointer, as
    address and length. *)
Fixpoint exec_args (fuel : nat) (p : uproc) (uargv i : Z) : option (list (Z * Z)) :=
  match fuel with
  | O => None
  | S fuel' =>
      match fetchint p (u32 (uargv + 4 * i)) with
      | None => None
      | Some uarg =>
          if uarg =? 0 then Some [] else
          match fetchstr p (u32 uarg) with
          | None => None
          | Some a => match exec_args fuel' p uargv (i + 1) with
                      | None => None
                      | Some l => Some (a :: l)
                      end
          end
      end
  end.

(** The strings that [sys_exec] hands to [exec]. *)
Definition exec_request : M (ksys W) (option (bytes * list bytes)) :=
  let! path := arg_str 0 in
  let! uargv := arg_int 1 in
  match path, uargv with
  | Some path, Some uargv =>
      let! p := gets y_user in
      ret (match exec_args (Z.to_nat MAXARG) p (u32 uargv) 0 with
           | Some argv => Some (path, (fun a => user_string p a.1 a.2) <$> argv)
           | None => None
           end)
  | _, _ => ret None
  end.

(** [fail] is the result -1, with what else [exec] returns here. *)
Definition sys_exec {A} (fail : A) (exec : bytes -> list bytes -> M (ksys W) A) : M (ksys W) A :=
  let! r := exec_request in
  match r with
  | Some (path, argv) => exec path argv
  | None => ret fail
  end.

Definition pipe_fail (rf wf : nat) : M (ksys W) Z :=
  do! fileclose kend rf in
  do! fileclose kend wf in
  ret (-1).

Definition sys_pipe : M (ksys W) Z :=
  let* fd := arg_ptr 0 8 in
  let* fs := pipealloc kend in
  let! fd0 := fdalloc fs.1 in
  match fd0 with
  | None => pipe_fail fs.1 fs.2
  | Some fd0 =>
      let! fd1 := fdalloc fs.2 in
      match fd1 with
      | None => do! clear_fd fd0 in pipe_fail fs.1 fs.2
      | Some fd1 =>
          do! copyto fd (le_bytes 4 fd0) in
          do! copyto (fd + 4) (le_bytes 4 fd1) in
          ret 0
      end
  end.

Definition sys_chmod : M (ksys W) Z :=
  let* path := arg_str 0 in
  let* mode := arg_int 1 in
  let* ip := fsdo (namei devsw_read path) in
  fsdo (chmod ip mode).
End Sysfile.
