(* ===== verification/SysRefs.v ===== *)
(** References across the file system calls: every call of sysfile.c gives back
    the inode and file references it takes, except [sys_chmod]. *)

From S2P Require Import Prelude Bio Log Crash Mem Block Strings Fs FsRefs Kalloc Pipe Syscall File Sysfile.
Local Open Scope Z_scope.

(** * Inode references *)

Section Moves.
  Context {W : Type} `{BlockIO W}.

(** The current directory and [X] are all the inode pointers there are. *)
Definition own (s : fsys W) (X : list nat) : Prop := refs_ok s (f_cwd s :: X).

(** [moves I m O]: [m] uses up the references [I] and returns with the
    references [O]; whatever else is held stays held. *)
Definition moves {A} (I : list nat) (m : M (fsys W) A) (O : A -> list nat) : Prop :=
  forall X s a s', own s (I ++ X) -> m s = Ok (a, s') -> own s' (O a ++ X).

Lemma refs_perm (s : fsys W) R R' : R ≡ₚ R' -> refs_ok s R -> refs_ok s R'.
Proof.
  intros Hp [Hr Hc Hu Hx]. constructor; [intros k; rewrite <- Hp; apply Hr| |done|done].
  intros k Hk. rewrite Hc by done. f_equal. by apply (Permutation_count_occ Nat.eq_dec).
Qed.

Lemma own_perm (s : fsys W) X X' : X ≡ₚ X' -> own s X -> own s X'.
Proof. intros Hp. apply refs_perm. by rewrite Hp. Qed.

Lemma moves_bind {A B} I (m : M (fsys W) A) O1 (k : A -> M (fsys W) B) O :
  moves I m O1 -> (forall a, moves (O1 a) (k a) O) -> moves I (bind m k) O.
Proof. intros Hm Hk X s b s' Ho (a & s1 & E1 & E2)%bind_Ok_inv. eapply Hk; [|exact E2]. by eapply Hm. Qed.

Lemma moves_perm {A} I I' (m : M (fsys W) A) O O' :
  I' ≡ₚ I -> (forall a, O a ≡ₚ O' a) -> moves I m O -> moves I' m O'.
Proof.
  intros HI HO Hm X s a s' Ho E. unfold own in *.
  eapply refs_perm; [|eapply Hm; [|exact E]; eapply refs_perm; [|exact Ho]]; by rewrite ?HI, ?HO.
Qed.

Lemma moves_keeps {A} I (m : M (fsys W) A) : keeps m -> moves I m (fun _ => I).
Proof.
  intros Hm X s a s' Ho E. specialize (Hm _ _ _ E). unfold own in *.
  replace (f_cwd s') with (f_cwd s) by (unfold face in Hm; congruence). by eapply refs_shape.
Qed.

Lemma moves_ret {A} I (a : A) O : O a = I -> moves I (ret a) O.
Proof. intros <- X s b s' Ho [= <- <-]. done. Qed.

Lemma moves_undefined {A} I (O : A -> list nat) : moves I undefined O.
Proof. by intros X s b s' Ho E. Qed.

Lemma moves_panic {A} I msg (O : A -> list nat) : moves I (panic msg) O.
Proof. by intros X s b s' Ho E. Qed.

Lemma moves_if {A} I (b : bool) (m1 m2 : M (fsys W) A) O :
  moves I m1 O -> moves I m2 O -> moves I (if b then m1 else m2) O.
Proof. by destruct b. Qed.

Lemma moves_iget I dev inum : moves I (iget dev inum) (fun k => k :: I).
Proof.
  intros X s k s' Ho E. unfold own in *. rewrite (iget_cwd _ _ _ _ _ E).
  eapply refs_perm; [|eapply iget_refs; [exact Ho|exact E]]. apply Permutation_swap.
Qed.

Lemma moves_ialloc I dev type : moves I (ialloc dev type) (fun k => k :: I).
Proof.
  intros X s k s' Ho E. unfold own in *. destruct (ialloc_refs _ _ _ _ _ _ Ho E) as [Ho' ->].
  eapply refs_perm; [|exact Ho']. apply Permutation_swap.
Qed.

Lemma moves_iput i I : moves (i :: I) (iput i) (fun _ => I).
Proof.
  intros X s [] s' Ho E. unfold own in *.
  by destruct (iput_refs _ _ _ [f_cwd s] (I ++ X) Ho E) as [Ho' ->].
Qed.

Lemma moves_iput2 j i I : moves (j :: i :: I) (iput i) (fun _ => j :: I).
Proof. eapply moves_perm; [| |apply (moves_iput i (j :: I))]; [apply Permutation_swap|done]. Qed.

(** [idup] of a held pointer. *)
Lemma idup_refs (s : fsys W) R i k s' : refs_ok s R -> i ∈ R -> idup i s = Ok (k, s') ->
  refs_ok s' (k :: R) /\ f_cwd s' = f_cwd s.
Proof.
  intros Ho Hi ([] & s1 & [Hx ->]%incref_inv & [= <- <-])%bind_Ok_inv. split; [|done].
  pose proof (rf_range _ _ Ho _ Hi). apply refs_incr; [done|done|]. split; [|done].
  rewrite (rf_count _ _ Ho) by done. apply list_elem_of_In, (count_occ_In Nat.eq_dec) in Hi. lia.
Qed.

Lemma moves_idup_cwd I : moves I (let! cwd := gets f_cwd in idup cwd) (fun k => k :: I).
Proof.
  intros X s k s' Ho E. unfold own in *. apply bind_Ok_inv in E as (c & s1 & E1 & E). injection E1 as <- <-.
  destruct (idup_refs _ _ _ _ _ Ho ltac:(by left) E) as [Ho' ->].
  eapply refs_perm; [|exact Ho']. apply Permutation_swap.
Qed.
End Moves.

Create HintDb moves.
#[export] Hint Resolve moves_ret moves_panic moves_undefined moves_iget moves_ialloc moves_iput moves_iput2
  moves_idup_cwd : moves.
#[export] Hint Extern 1 (moves _ (bind _ _) _) => eapply moves_bind; [|intros ?] : moves.
#[export] Hint Extern 1 (moves _ (if _ then _ else _) _) => apply moves_if : moves.
#[export] Hint Extern 2 (moves _ (match ?x with _ => _ end) _) => destruct x : moves.
#[export] Hint Extern 3 (moves _ _ _) => apply moves_keeps; auto 20 with keeps; fail : moves.

Section FsMoves.
  Context {W : Type} `{BlockIO W}.
  Context (devsw_read : Z -> option (nat -> Z -> M (fsys W) (Z * bytes))).
  Context (devsw_write : Z -> option (nat -> bytes -> Z -> M (fsys W) Z)).
  (** Device functions hold no inodes beyond the call. *)
  Hypothesis read_keeps : forall major f i n, devsw_read major = Some f -> keeps (f i n).
  Hypothesis write_keeps : forall major f i src n, devsw_write major = Some f -> keeps (f i src n).

Lemma keeps_lift {A} (o : outcome A) : keeps (W := W) (lift o).
Proof. destruct o; simpl; auto with keeps. Qed.
#[local] Hint Resolve keeps_lift : keeps.

Lemma keeps_readi i off n : keeps (readi devsw_read i off n).
Proof.
  assert (forall fuel tot off n acc, keeps (W := W) (readi_loop fuel i tot off n acc)) as Hl
    by (induction fuel as [|fuel IH]; intros; cbn [readi_loop]; auto 20 with keeps).
  unfold readi. apply keeps_bind; [auto with keeps|intros ip].
  destruct (_ =? T_DEV); [|cbv zeta; auto 20 with keeps].
  destruct (_ || _); [auto with keeps|]. destruct (devsw_read _) eqn:E; [eauto|auto with keeps].
Qed.

Lemma keeps_writei i src off n : keeps (writei devsw_write i src off n).
Proof.
  assert (forall fuel src tot off n, keeps (W := W) (writei_loop fuel i src tot off n)) as Hl
    by (induction fuel as [|fuel IH]; intros; cbn [writei_loop]; auto 20 with keeps).
  unfold writei. apply keeps_bind; [auto with keeps|intros ip].
  destruct (_ =? T_DEV); [|cbv zeta; auto 20 with keeps].
  destruct (_ || _); [auto with keeps|]. destruct (devsw_write _) eqn:E; [eauto|auto with keeps].
Qed.
#[local] Hint Resolve keeps_readi keeps_writei : keeps.

(** A pointer more if the first component has one. *)
Definition found {B} (r : option (nat * B)) (I : list nat) : list nat :=
  match r with Some (k, _) => k :: I | None => I end.
Definition got (r : option nat) (I : list nat) : list nat :=
  match r with Some k => k :: I | None => I end.

Lemma moves_dirlookup I dp name : moves I (dirlookup devsw_read dp name) (fun r => found r I).
Proof.
  unfold dirlookup. eapply moves_bind; [auto with moves|intros ip]. apply moves_if; [auto with moves|].
  generalize (Z.to_nat (d_size (i_d ip))), 0. induction n as [|fuel IH]; intros off; cbn [dirlookup_loop].
  - eapply moves_bind; [auto with moves|intros x]. apply moves_if; auto with moves.
  - eauto 20 with moves.
Qed.
#[local] Hint Resolve moves_dirlookup : moves.

Lemma moves_dirlink I dp name inum : moves I (dirlink devsw_read devsw_write dp name inum) (fun _ => I).
Proof.
  assert (forall fuel off, keeps (dirlink_scan devsw_read fuel dp off)) as Hs
    by (induction fuel as [|fuel IH]; intros; cbn [dirlink_scan]; auto 20 with keeps).
  unfold dirlink. eapply moves_bind; [apply moves_dirlookup|intros [[k o]|]]; simpl; [eauto 20 with moves|].
  apply moves_keeps; auto 20 with keeps.
Qed.
#[local] Hint Resolve moves_dirlink : moves.

Lemma moves_iunlockput i I : moves (i :: I) (iunlockput (W := W) i) (fun _ => I).
Proof. unfold iunlockput; eauto with moves. Qed.

Lemma moves_iunlockput2 j i I : moves (j :: i :: I) (iunlockput (W := W) i) (fun _ => j :: I).
Proof. unfold iunlockput; eauto with moves. Qed.
#[local] Hint Resolve moves_iunlockput moves_iunlockput2 : moves.

Lemma moves_namex I path np name : moves I (namex devsw_read path np name) (fun r => got r.1 I).
Proof.
  unfold namex. eapply (moves_bind _ _ (fun k => k :: I)); [auto with moves|].
  generalize (length path); intros fuel ip; revert ip path name.
  induction fuel as [|fuel IH]; intros ip path name; cbn [namex_loop];
    (eapply moves_bind; [auto with moves|intros [[rest nm]|]]); simpl; eauto 20 with moves.
Qed.

Lemma moves_namei I path : moves I (namei devsw_read path) (fun r => got r I).
Proof. unfold namei. eapply moves_bind; [apply moves_namex|]. intros [r nm]; auto with moves. Qed.

Lemma moves_nameiparent I path name : moves I (nameiparent devsw_read path name) (fun r => got r.1 I).
Proof. apply moves_namex. Qed.
#[local] Hint Resolve moves_namei moves_nameiparent : moves.

(** ** The calls *)

Lemma moves_chmod I i mode : moves I (chmod (W := W) i mode) (fun _ => I).
Proof. apply moves_keeps. unfold chmod; auto 20 with keeps. Qed.

Lemma moves_link_op I old new : moves I (link_op devsw_read devsw_write old new) (fun _ => I).
Proof.
  unfold link_op, link_bad. eapply moves_bind; [auto with moves|intros ?].
  eapply moves_bind; [apply moves_namei|intros [ip|]]; simpl; [|eauto with moves].
  do 2 (eapply moves_bind; [auto with moves|intros ?]). apply moves_if; [eauto with moves|].
  do 3 (eapply moves_bind; [auto with moves|intros ?]).
  eapply moves_bind; [apply moves_nameiparent|intros [[dp|] nm]]; simpl; [|eauto 20 with moves].
  do 3 (eapply moves_bind; [auto with moves|intros ?]).
  eapply (moves_bind _ _ (fun _ => [dp; ip] ++ I)); [eauto with moves|intros bad].
  apply moves_if; eauto 20 with moves.
Qed.

Lemma keeps_isdirempty dp : keeps (isdirempty devsw_read dp).
Proof.
  assert (forall fuel off, keeps (isdirempty_loop devsw_read fuel dp off)) as Hs
    by (induction fuel as [|fuel IH]; intros; cbn [isdirempty_loop]; auto 20 with keeps).
  unfold isdirempty; auto with keeps.
Qed.
#[local] Hint Resolve keeps_isdirempty : keeps.

Lemma moves_unlink_op I path : moves I (unlink_op devsw_read devsw_write path) (fun _ => I).
Proof.
  unfold unlink_op, unlink_bad. eapply moves_bind; [auto with moves|intros ?].
  eapply moves_bind; [apply moves_nameiparent|intros [[dp|] nm]]; simpl; [|eauto with moves].
  do 3 (eapply moves_bind; [auto with moves|intros ?]). apply moves_if; [eauto with moves|].
  eapply moves_bind; [apply moves_dirlookup|intros [[ip off]|]]; simpl; [|eauto with moves].
  do 2 (eapply moves_bind; [auto with moves|intros ?]). apply moves_if; [auto with moves|].
  eapply moves_bind; [auto with moves|intros ?]. apply moves_if; [eauto 20 with moves|].
  eapply moves_bind; [auto with moves|intros ?]. apply moves_if; [auto with moves|].
  do 2 (eapply moves_bind; [auto 20 with moves|intros ?]). eauto 20 with moves.
Qed.

Lemma moves_create_new I dp name type major minor :
  moves (dp :: I) (create_new devsw_read devsw_write dp name type major minor) (fun k => k :: I).
Proof.
  unfold create_new. do 5 (eapply moves_bind; [auto with moves|intros ?]).
  eapply (moves_bind _ _ (fun _ => _ :: dp :: I)).
  { unfold when. apply moves_if; [eauto 20 with moves|auto with moves]. }
  intros ?. eauto 20 with moves.
Qed.
#[local] Hint Resolve moves_create_new : moves.

Lemma moves_create I path type major minor :
  moves I (create devsw_read devsw_write path type major minor) (fun r => got r I).
Proof.
  unfold create. eapply moves_bind; [apply moves_nameiparent|intros [[dp|] nm]]; simpl; [|auto with moves].
  eapply moves_bind; [auto with moves|intros ?].
  eapply moves_bind; [apply moves_dirlookup|intros [[ip off]|]]; simpl; [eauto 20 with moves|].
  eapply moves_bind; [apply moves_create_new|intros ip]. auto with moves.
Qed.
#[local] Hint Resolve moves_create : moves.

Lemma moves_open_ip I path omode : moves I (open_ip devsw_read devsw_write path omode) (fun r => got r I).
Proof.
  unfold open_ip. apply moves_if; [auto with moves|].
  eapply moves_bind; [apply moves_namei|intros [ip|]]; simpl; eauto 20 with moves.
Qed.

Lemma moves_create_only I path type major minor :
  moves I (create_only devsw_read devsw_write path type major minor) (fun _ => I).
Proof. unfold create_only. eapply moves_bind; [apply moves_create|intros [ip|]]; simpl; eauto 20 with moves. Qed.

(** [chdir] gives the old directory's reference back and keeps the new one. *)
Lemma moves_chdir_op I path : moves I (chdir_op devsw_read path) (fun _ => I).
Proof.
  unfold chdir_op. eapply moves_bind; [apply moves_namei|intros [ip|]]; simpl; [|eauto with moves].
  do 2 (eapply moves_bind; [auto with moves|intros ?]). apply moves_if; [eauto with moves|].
  eapply moves_bind; [auto with moves|intros ?].
  intros X s r s' Ho E. apply bind_Ok_inv in E as (cwd & s1 & E1 & E). injection E1 as <- <-.
  apply bind_Ok_inv in E as ([] & s1 & E1 & E). apply bind_Ok_inv in E as (? & s2 & E2 & E).
  injection E as <- <-. destruct (iput_refs _ _ _ [] (ip :: I ++ X) Ho E1) as [Ho' _].
  apply (keeps_io _ _ _ _) in E2. apply (refs_shape _ _ _ E2) in Ho' as [Hr Hc Hu]. by constructor.
Qed.
End FsMoves.
