(* ===== verification/SysInv.v ===== *)
(** The invariant of the open-file table over the file system calls: reference
    counts of files and inodes, and the life of pipes and of their pages. *)

From S2P Require Import Prelude Bio Log Crash Mem Block Strings Fs FsRefs Kalloc Pipe Syscall File Sysfile SysRefs.
Local Open Scope Z_scope.

(** * Lists *)

Lemma omap_insert_same {A B} (g : A -> option B) (l : list A) k x y :
  l !! k = Some x -> g y = g x -> omap g (<[k := y]> l) = omap g l.
Proof.
  intros Hk Hg. rewrite <- (take_drop_middle l k x Hk) at 2.
  rewrite (insert_take_drop l k y) by by apply lookup_lt_Some in Hk.
  rewrite !omap_app; cbn. by rewrite Hg.
Qed.

(** Replacing an element replaces its image. *)
Lemma omap_insert_perm {A B} (g : A -> option B) (l : list A) k x y :
  l !! k = Some x -> exists rest,
    omap g l ≡ₚ option_list (g x) ++ rest /\ omap g (<[k := y]> l) ≡ₚ option_list (g y) ++ rest.
Proof.
  intros Hk. exists (omap g (take k l) ++ omap g (drop (S k) l)).
  rewrite <- (take_drop_middle l k x Hk) at 1.
  rewrite (insert_take_drop l k y) by by apply lookup_lt_Some in Hk.
  rewrite !omap_app; simpl. destruct (g x), (g y); simpl; split; solve_Permutation.
Qed.

Lemma count_perm (R R' : list nat) k : R ≡ₚ R' -> count_occ Nat.eq_dec R k = count_occ Nat.eq_dec R' k.
Proof. intros Hp. by apply (Permutation_count_occ Nat.eq_dec). Qed.

(** * Files: [D] lists the descriptors, of all processes and in flight *)

Record files_ok (ft : list file) (D : list nat) : Prop := {
  fk_range : forall k, k ∈ D -> (k < length ft)%nat;
  fk_count : forall k, (k < length ft)%nat -> f_ref (ft !!! k) = Z.of_nat (count_occ Nat.eq_dec D k);
  fk_free : forall k, (k < length ft)%nat -> f_ref (ft !!! k) = 0 -> f_type (ft !!! k) = FD_NONE
}.

Lemma files_perm ft D D' : D ≡ₚ D' -> files_ok ft D -> files_ok ft D'.
Proof.
  intros Hp [Hr Hc Hf]. constructor; [intros k; rewrite <- Hp; apply Hr| |done].
  intros k Hk. by rewrite Hc, (count_perm _ _ _ Hp).
Qed.

Lemma files_pos ft D k : files_ok ft D -> k ∈ D -> 0 < f_ref (ft !!! k).
Proof.
  intros [Hr Hc _] Hk. rewrite Hc by auto. apply list_elem_of_In, (count_occ_In Nat.eq_dec) in Hk. lia.
Qed.

(** Replacing entry [k] and the number of its descriptors. *)
Lemma files_update ft D D' k y :
  files_ok ft D -> (k < length ft)%nat ->
  (forall j, j <> k -> count_occ Nat.eq_dec D' j = count_occ Nat.eq_dec D j) ->
  f_ref y = Z.of_nat (count_occ Nat.eq_dec D' k) -> (f_ref y = 0 -> f_type y = FD_NONE) ->
  files_ok (<[k := y]> ft) D'.
Proof.
  intros [Hr Hc Hf] Hk Hj Hy Ht. constructor; rewrite ?length_insert.
  - intros j Hin. destruct (decide (j = k)) as [->|Hne]; [done|]. apply Hr.
    apply list_elem_of_In, (count_occ_In Nat.eq_dec). rewrite <- Hj by done.
    by apply (count_occ_In Nat.eq_dec), list_elem_of_In.
  - intros j Hlt. destruct (decide (j = k)) as [->|Hne].
    + by rewrite list_lookup_total_insert_eq.
    + rewrite list_lookup_total_insert_ne by done. rewrite Hj by done. auto.
  - intros j Hlt. destruct (decide (j = k)) as [->|Hne].
    + by rewrite list_lookup_total_insert_eq.
    + rewrite list_lookup_total_insert_ne by done. auto.
Qed.

Lemma files_same ft D k y : files_ok ft D -> k ∈ D -> f_ref y = f_ref (ft !!! k) -> files_ok (<[k := y]> ft) D.
Proof.
  intros Hok Hk Hy. pose proof (files_pos _ _ _ Hok Hk). pose proof (fk_range _ _ Hok _ Hk).
  apply (files_update _ D); [done|done|done| |lia]. rewrite Hy. by apply Hok.
Qed.

Lemma files_dup ft D k y : files_ok ft D -> (k < length ft)%nat -> f_ref y = f_ref (ft !!! k) + 1 ->
  files_ok (<[k := y]> ft) (k :: D).
Proof.
  intros Hok Hk Hy. pose proof (fk_count _ _ Hok k Hk).
  apply (files_update _ D); [done|done| | |lia].
  - intros j Hj. by apply count_occ_cons_neq.
  - rewrite count_occ_cons_eq by done. lia.
Qed.

Lemma files_drop ft D k y : files_ok ft (k :: D) -> f_ref y = f_ref (ft !!! k) - 1 ->
  (f_ref y = 0 -> f_type y = FD_NONE) -> files_ok (<[k := y]> ft) D.
Proof.
  intros Hok Hy Ht. assert (k < length ft)%nat as Hk by (apply (fk_range _ _ Hok); left).
  pose proof (fk_count _ _ Hok k Hk) as Hc. rewrite count_occ_cons_eq in Hc by done.
  apply (files_update _ (k :: D)); [done|done| |lia|done].
  intros j Hj. symmetry. by apply count_occ_cons_neq.
Qed.

(** * Pipes: [E] lists the open ends, as page and direction *)

Definition is_open (w : bool) (x : pipe) : bool := if w then writeopen x else readopen x.

Section Pipes.
  Context (kend : Z).

Record pipes_ok (E : list (Z * bool)) (ps : gmap Z pipe) (km : kstate) : Prop := {
  pp_nodup : NoDup E;
  pp_open : forall p w, (p, w) ∈ E <-> exists x, ps !! p = Some x /\ is_open w x = true;
  pp_live : forall p x, ps !! p = Some x -> readopen x || writeopen x = true;
  pp_pages : exists l, kmem_ok kend km l /\ forall p, is_Some (ps !! p) -> page_ok kend p /\ p ∉ l
}.

Lemma pipes_perm E E' ps km : E ≡ₚ E' -> pipes_ok E ps km -> pipes_ok E' ps km.
Proof.
  intros Hp [Hn Ho Hl Hg]. constructor; [by rewrite <- Hp| |done|done]. intros p w. by rewrite <- Hp.
Qed.

(** An operation on the data of one pipe. *)
Lemma pipes_data E ps km p x y : pipes_ok E ps km -> ps !! p = Some x ->
  readopen y = readopen x -> writeopen y = writeopen x -> pipes_ok E (<[p := y]> ps) km.
Proof.
  intros [Hn Ho Hl (l & Hk & Hg)] Hp Er Ew. constructor; [done| | |exists l; split; [done|]].
  - intros q w. rewrite Ho. destruct (decide (q = p)) as [->|]; [|by rewrite lookup_insert_ne].
    assert (is_open w y = is_open w x) as Ew' by (destruct w; done).
    rewrite lookup_insert_eq. split; intros (z & Hz & Hw); [exists y|exists x]; split; congruence.
  - intros q z. destruct (decide (q = p)) as [->|]; [|rewrite lookup_insert_ne by done; eauto].
    rewrite lookup_insert_eq. intros [= <-]. rewrite Er, Ew. eauto.
  - intros q. destruct (decide (q = p)) as [->|]; [|rewrite lookup_insert_ne by done; eauto].
    intros _. apply Hg. eauto.
Qed.

(** The ends that stay when [(p, w)] closes. *)
Lemma pipes_other_ends E ps km p w q v : pipes_ok ((p, w) :: E) ps km ->
  (q, v) ∈ E <-> (q <> p \/ v <> w) /\ exists z, ps !! q = Some z /\ is_open v z = true.
Proof.
  intros [[Hni Hn]%NoDup_cons Ho _ _]. rewrite <- Ho, elem_of_cons. split.
  - intros Hin. split; [|by right]. destruct (decide (q = p)) as [->|]; [|by left]. right. by intros ->.
  - intros [Hne [[= -> ->]|]]; [|done]. tauto.
Qed.

(** The other end stays open. *)
Lemma pipes_close_end E ps km p w x : pipes_ok ((p, w) :: E) ps km -> ps !! p = Some x ->
  (pipeclose w x).1 = false -> pipes_ok E (<[p := (pipeclose w x).2]> ps) km.
Proof.
  intros Hok Hx Ef. set (x' := (pipeclose w x).2) in *.
  assert (forall v, is_open v x' = if decide (v = w) then false else is_open v x) as Hx'
    by (by intros []; destruct w).
  pose proof (fun q v => pipes_other_ends _ _ _ _ _ q v Hok) as HE.
  destruct Hok as [[_ Hn]%NoDup_cons Ho Hl (l & Hk & Hg)].
  constructor; [done| | |exists l; split; [done|]].
  - intros q v. rewrite HE. destruct (decide (q = p)) as [->|]; [|rewrite lookup_insert_ne by done; tauto].
    rewrite lookup_insert_eq. split.
    + intros [[?|Hv] (z & Hz & Hvz)]; [done|]. exists x'. split; [done|].
      rewrite Hx', decide_False by done. congruence.
    + intros (z & [= <-] & Hvz). rewrite Hx' in Hvz. destruct (decide (v = w)); [done|]. eauto.
  - intros q z. destruct (decide (q = p)) as [->|]; [|rewrite lookup_insert_ne by done; apply Hl].
    rewrite lookup_insert_eq. intros [= <-]. change (negb (readopen x') && negb (writeopen x') = false) in Ef.
    by destruct (readopen x'), (writeopen x').
  - intros q. destruct (decide (q = p)) as [->|]; [|rewrite lookup_insert_ne by done; apply Hg].
    intros _. apply Hg. eauto.
Qed.

(** The last end closes and the page goes back. *)
Lemma pipes_close_last E ps km km' l p w x : pipes_ok ((p, w) :: E) ps km -> ps !! p = Some x ->
  (pipeclose w x).1 = true ->
  kmem_ok kend km' (p :: l) -> (forall q, is_Some (ps !! q) -> page_ok kend q /\ q ∉ l) ->
  pipes_ok E (delete p ps) km'.
Proof.
  intros Hok Hx Ef Hk' Hg. pose proof (fun q v => pipes_other_ends _ _ _ _ _ q v Hok) as HE.
  destruct Hok as [[_ Hn]%NoDup_cons Ho Hl _].
  constructor; [done| | |exists (p :: l); split; [done|]].
  - intros q v. rewrite HE. destruct (decide (q = p)) as [->|]; [|rewrite lookup_delete_ne by done; tauto].
    rewrite lookup_delete_eq. split; [|by intros (? & ? & ?)]. intros [[?|Hv] (z & Hz & Hvz)]; [done|].
    exfalso. rewrite Hx in Hz; injection Hz as <-. unfold pipeclose in Ef; simpl in Ef.
    destruct w, v; simpl in *; try done; rewrite Hvz in Ef; done.
  - intros q z. destruct (decide (q = p)) as [->|]; [by rewrite lookup_delete_eq|].
    rewrite lookup_delete_ne by done. apply Hl.
  - intros q. destruct (decide (q = p)) as [->|]; [rewrite lookup_delete_eq; by intros [? ?]|].
    rewrite lookup_delete_ne by done. intros Hq. destruct (Hg q Hq). split; [done|].
    by rewrite not_elem_of_cons.
Qed.

Lemma closepipe_ok {W} E p w (s s' : ksys W) : pipes_ok ((p, w) :: E) (y_pipes s) (y_kmem s) ->
  closepipe kend p w s = Ok (tt, s') ->
  pipes_ok E (y_pipes s') (y_kmem s') /\ y_fs s' = y_fs s /\ y_ftable s' = y_ftable s /\ y_ofile s' = y_ofile s.
Proof.
  intros Hok H. unfold closepipe, bind at 1, gets in H.
  assert (exists x, y_pipes s !! p = Some x /\ is_open w x = true) as (x & Hx & _)
    by (apply (pp_open _ _ _ Hok); left).
  rewrite Hx in H. destruct (pipeclose w x).1 eqn:Ef.
  - apply bind_Ok_inv in H as ([] & s1 & H1 & H). injection H as <-.
    destruct (pp_pages _ _ _ Hok) as (l & Hk & Hg). destruct (Hg p (ex_intro _ x Hx)) as [Hp Hpl].
    destruct (kfree_spec kend p (y_kmem s) l Hk Hp Hpl) as (k' & Ek & Hk' & _).
    unfold kmdo in H1. rewrite (zoom_Ok _ _ _ _ _ _ Ek) in H1. injection H1 as <-. simpl.
    split_and!; [|done..]. by eapply pipes_close_last.
  - injection H as <-. simpl. split_and!; [|done..]. by apply pipes_close_end.
Qed.

(** A new pipe on a page that [kalloc] gave out. *)
Lemma pipes_new E ps km km' l p junk : pipes_ok E ps km -> kmem_ok kend km (p :: l) -> kmem_ok kend km' l ->
  (forall q, is_Some (ps !! q) -> page_ok kend q /\ q ∉ p :: l) ->
  pipes_ok ((p, false) :: (p, true) :: E) (<[p := pipeinit junk]> ps) km'.
Proof.
  intros [Hn Ho Hl _] Hk Hk' Hg.
  assert (ps !! p = None) as Hp.
  { destruct (ps !! p) eqn:E'; [|done]. destruct (Hg p ltac:(eauto)) as [_ []]. left. }
  assert (forall w, (p, w) ∉ E) as HpE by (intros w (x & Hx & _)%Ho; congruence).
  inversion Hk as [_ [Hpl _]%NoDup_cons Hpg]. inversion Hpg as [|? ? Hpok _]; subst.
  constructor; [| | |exists l; split; [done|]].
  - repeat (apply NoDup_cons; split); [|apply HpE|done]. rewrite not_elem_of_cons. split; [done|apply HpE].
  - intros q w. rewrite !elem_of_cons, Ho. destruct (decide (q = p)) as [->|].
    + rewrite lookup_insert_eq, Hp. split; [|intros _; destruct w; auto].
      intros _. exists (pipeinit junk). split; [done|by destruct w].
    + rewrite lookup_insert_ne by done. naive_solver.
  - intros q z. destruct (decide (q = p)) as [->|]; [|rewrite lookup_insert_ne by done; apply Hl].
    rewrite lookup_insert_eq. by intros [= <-].
  - intros q. destruct (decide (q = p)) as [->|]; [by intros _|].
    rewrite lookup_insert_ne by done. intros Hq; destruct (Hg q Hq) as [? Hq']. split; [done|].
    by apply not_elem_of_cons in Hq' as [_ ?].
Qed.
End Pipes.

(** * The kernel: [F] and [X] are the descriptors of other processes and the
    inode pointers that the caller's descriptors and directory do not account
    for. *)

Definition inode_of (f : file) : option nat := match f_type f with FD_INODE => Some (f_ip f) | _ => None end.
Definition end_of (f : file) : option (Z * bool) :=
  match f_type f with FD_PIPE => Some (f_pipe f, f_writable f) | _ => None end.

Section Kernel.
  Context {W : Type} `{BlockIO W}.
  Context (kend : Z).

Definition fds (s : ksys W) : list nat := omap id (y_ofile s).

Record kok (s : ksys W) (F X : list nat) : Prop := {
  kk_files : files_ok (y_ftable s) (fds s ++ F);
  kk_own : own (y_fs s) (omap inode_of (y_ftable s) ++ X);
  kk_pipes : pipes_ok kend (omap end_of (y_ftable s)) (y_pipes s) (y_kmem s)
}.

(** [kmoves I m O]: [m] uses up the file and inode references [I] and returns
    with [O]. *)
Definition kmoves {A} (I : list nat * list nat) (m : M (ksys W) A) (O : A -> list nat * list nat) : Prop :=
  forall F X s a s', kok s (I.1 ++ F) (I.2 ++ X) -> m s = Ok (a, s') -> kok s' ((O a).1 ++ F) ((O a).2 ++ X).

Lemma kok_perm s F F' X X' : F ≡ₚ F' -> X ≡ₚ X' -> kok s F X -> kok s F' X'.
Proof.
  intros HF HX [Hf Ho Hp]. constructor; [|unfold own in *|done].
  - eapply files_perm; [|exact Hf]. by rewrite HF.
  - eapply refs_perm; [|exact Ho]. by rewrite HX.
Qed.

Lemma kmoves_bind {A B} I (m : M (ksys W) A) O1 (k : A -> M (ksys W) B) O :
  kmoves I m O1 -> (forall a, kmoves (O1 a) (k a) O) -> kmoves I (bind m k) O.
Proof. intros Hm Hk F X s b s' Ho (a & s1 & E1 & E2)%bind_Ok_inv. eapply Hk; [|exact E2]. by eapply Hm. Qed.

Lemma kmoves_ret {A} I (a : A) O : O a = I -> kmoves I (ret a) O.
Proof. intros <- F X s b s' Ho [= <- <-]. done. Qed.

Lemma kmoves_gets {A} I (g : ksys W -> A) : kmoves I (gets g) (fun _ => I).
Proof. intros F X s b s' Ho [= <- <-]. done. Qed.

Lemma kmoves_panic {A} I msg (O : A -> list nat * list nat) : kmoves I (panic msg) O.
Proof. by intros F X s b s' Ho E. Qed.

Lemma kmoves_undefined {A} I (O : A -> list nat * list nat) : kmoves I undefined O.
Proof. by intros F X s b s' Ho E. Qed.

Lemma kmoves_sleep {A} I (O : A -> list nat * list nat) : kmoves I sleep O.
Proof. by intros F X s b s' Ho E. Qed.

Lemma kmoves_if {A} I (b : bool) (m1 m2 : M (ksys W) A) O :
  kmoves I m1 O -> kmoves I m2 O -> kmoves I (if b then m1 else m2) O.
Proof. by destruct b. Qed.

Lemma kmoves_fsdo {A} F0 I (m : M (fsys W) A) O :
  moves I m O -> kmoves (F0, I) (fsdo m) (fun a => (F0, O a)).
Proof.
  intros Hm F X s a s' [Hf Ho Hp] E. unfold fsdo, zoom in E.
  destruct (m (y_fs s)) as [[a1 t]|?| |] eqn:E1; [|done..]. injection E as <- <-.
  constructor; [done| |done]. cbn [fst snd y_fs put_fs y_ftable] in *.
  assert (own t (O a1 ++ (omap inode_of (y_ftable s) ++ X))) as Ho'.
  { eapply Hm; [|exact E1]. unfold own in *. eapply refs_perm; [|exact Ho]. solve_Permutation. }
  unfold own in *. eapply refs_perm; [|exact Ho']. solve_Permutation.
Qed.

(** Changing the caller's memory. *)
Lemma kmoves_umem I g : kmoves I (modify (fun s => put_umem (g s) s)) (fun _ => I).
Proof. intros F X s b s' [Hf Ho Hp] [= <- <-]. by constructor. Qed.

Lemma kmoves_orfail {A} I (m : M (ksys W) (option A)) (k : A -> M (ksys W) Z) O :
  kmoves I m (fun _ => I) -> (forall a, kmoves I (k a) O) -> (forall r, O r = I) -> kmoves I (orfail m k) O.
Proof.
  intros Hm Hk HO. eapply kmoves_bind; [exact Hm|]. intros [a|]; [apply Hk|]. by apply kmoves_ret.
Qed.
End Kernel.

(** * File operations *)

Section Files.
  Context {W : Type} `{BlockIO W}.
  Context (kend : Z).
Abbreviation kok := (kok (W := W) kend).
Abbreviation kmoves := (kmoves (W := W) kend).

Lemma ft_lookup (ft : list file) k : (k < length ft)%nat -> ft !! k = Some (ft !!! k).
Proof. apply list_lookup_lookup_total_lt. Qed.

(** An entry of the table changes but neither its references nor what it is open on. *)
Lemma kok_same s F X k y : kok s F X -> k ∈ fds s ++ F -> f_ref y = f_ref (y_ftable s !!! k) ->
  inode_of y = inode_of (y_ftable s !!! k) -> end_of y = end_of (y_ftable s !!! k) ->
  kok (put_ftable (<[k := y]> (y_ftable s)) s) F X.
Proof.
  intros [Hf Ho Hp] Hk Hr Hi He. pose proof (ft_lookup _ _ (fk_range _ _ Hf _ Hk)) as Hl.
  constructor; cbn [y_ftable y_fs y_pipes y_kmem put_ftable].
  - by apply files_same.
  - by rewrite (omap_insert_same _ _ _ _ _ Hl Hi).
  - by rewrite (omap_insert_same _ _ _ _ _ Hl He).
Qed.

Lemma filealloc_ok s F X r s' : kok s F X -> filealloc s = Ok (r, s') ->
  match r with
  | None => s' = s
  | Some k => kok s' (k :: F) X /\ k ∉ fds s ++ F /\ y_ofile s' = y_ofile s /\
      (k < length (y_ftable s))%nat /\ f_type (y_ftable s !!! k) = FD_NONE /\
      y_ftable s' = <[k := set_fref 1 (y_ftable s !!! k)]> (y_ftable s)
  end.
Proof.
  intros [Hf Ho Hp] E. unfold filealloc, bind at 1, gets in E.
  destruct (list_find _ _) as [[k x]|] eqn:El; [|by injection E as <- <-].
  injection E as <- <-. apply list_find_Some in El as (Hk & Hz & _).
  pose proof (lookup_lt_Some _ _ _ Hk) as Hlt. pose proof (list_lookup_total_correct _ _ _ Hk) as Hx.
  assert (k ∉ fds s ++ F) as Hni.
  { intros Hin. pose proof (files_pos _ _ _ Hf Hin). rewrite Hx in *. lia. }
  split_and!; [|done|done|done| |done].
  - constructor; cbn [y_ftable y_fs y_pipes y_kmem put_ftable].
    + eapply files_perm; [|apply (files_dup _ _ _ _ Hf Hlt); simpl; rewrite Hx; lia].
      unfold fds; simpl. solve_Permutation.
    + by rewrite (omap_insert_same _ _ _ _ _ Hk) by (by rewrite Hx).
    + by rewrite (omap_insert_same _ _ _ _ _ Hk) by (by rewrite Hx).
  - apply (fk_free _ _ Hf); [done|]. by rewrite Hx.
Qed.

Lemma filedup_ok s F X f k s' : kok s F X -> f ∈ fds s ++ F -> filedup f s = Ok (k, s') ->
  k = f /\ s' = put_ftable (<[f := set_fref (f_ref (y_ftable s !!! f) + 1) (y_ftable s !!! f)]> (y_ftable s)) s /\
  kok s' (f :: F) X.
Proof.
  intros [Hf Ho Hp] Hin E. unfold filedup, bind at 1, getf, gets in E.
  pose proof (files_pos _ _ _ Hf Hin). replace (_ <? 1) with false in E by lia.
  destruct (_ <? INT_MAX); [|done]. injection E as <- <-.
  pose proof (fk_range _ _ Hf _ Hin) as Hlt. pose proof (ft_lookup _ _ Hlt) as Hl.
  split_and!; [done|done|]. constructor; cbn [y_ftable y_fs y_pipes y_kmem put_ftable].
  - eapply files_perm; [|by apply (files_dup _ _ _ _ Hf Hlt)]. unfold fds; simpl. solve_Permutation.
  - by rewrite (omap_insert_same _ _ _ _ _ Hl).
  - by rewrite (omap_insert_same _ _ _ _ _ Hl).
Qed.

(** The entry that [fileclose] clears. *)
Definition cleared (x : file) : file := set_ftype FD_NONE (set_fref 0 x).

Definition close_last (ff : file) : M (ksys W) unit :=
  match f_type ff with
  | FD_PIPE => closepipe kend (f_pipe ff) (f_writable ff)
  | FD_INODE =>
      do! fsdo (io io_begin_op) in
      do! fsdo (iput (f_ip ff)) in
      fsdo (io io_end_op)
  | FD_NONE => ret tt
  end.

Lemma fileclose_last f s : (f < length (y_ftable s))%nat -> f_ref (y_ftable s !!! f) = 1 ->
  fileclose kend f s =
  close_last (y_ftable s !!! f) (put_ftable (<[f := cleared (y_ftable s !!! f)]> (y_ftable s)) s).
Proof.
  intros Hf Hr. unfold fileclose, bind, getf, gets, updf, modify.
  rewrite Hr. cbn [y_ftable put_ftable y_fs y_pipes y_kmem y_ofile y_user y_killed].
  change (1 <? 1) with false. change (1 - 1 >? 0) with false. cbv beta iota.
  cbn [y_ftable put_ftable y_fs y_pipes y_kmem y_ofile y_user y_killed].
  rewrite !list_lookup_total_insert_eq, !list_insert_insert_eq by (rewrite ?length_insert; done).
  unfold close_last, bind. generalize (y_ftable s !!! f). by intros [[] ? ? ? ? ? ?].
Qed.

Lemma close_inode_ok ip F0 I :
  kmoves (F0, ip :: I) (do! fsdo (io io_begin_op) in do! fsdo (iput ip) in fsdo (io io_end_op)) (fun _ => (F0, I)).
Proof.
  eapply kmoves_bind; [apply kmoves_fsdo; auto with moves|]. intros ?.
  eapply kmoves_bind; [apply kmoves_fsdo, moves_iput|]. intros ?. apply (kmoves_fsdo kend F0 I). auto with moves.
Qed.

Lemma fileclose_ok f F0 I : kmoves (f :: F0, I) (fileclose kend f) (fun _ => (F0, I)).
Proof.
  intros F X s [] s' [Hf Ho Hp] E. cbn [fst snd] in *.
  assert (files_ok (y_ftable s) (f :: fds s ++ F0 ++ F)) as Hf'
    by (eapply files_perm; [|exact Hf]; solve_Permutation).
  pose proof (files_pos _ _ f Hf' ltac:(left)) as Hpos. pose proof (fk_range _ _ Hf' f ltac:(left)) as Hlt.
  pose proof (ft_lookup _ _ Hlt) as Hl. set (x := y_ftable s !!! f) in *.
  destruct (decide (f_ref x = 1)) as [Hr|Hr].
  - unfold x in Hr. rewrite fileclose_last in E by done. fold x in E, Hr.
    destruct (omap_insert_perm inode_of _ _ _ (cleared x) Hl) as (ri & Hi1 & Hi2).
    destruct (omap_insert_perm end_of _ _ _ (cleared x) Hl) as (re & He1 & He2). simpl in Hi2, He2.
    assert (files_ok (<[f := cleared x]> (y_ftable s)) (fds s ++ F0 ++ F)) as Hf1
      by (apply files_drop; [done|change (0 = f_ref x - 1); lia|done]).
    unfold close_last in E. destruct (f_type x) eqn:Et; unfold inode_of, end_of in Hi1, He1; rewrite Et in *.
    + injection E as <-. constructor; [done| |]; cbn [y_ftable y_fs y_pipes y_kmem put_ftable].
      * eapply own_perm; [|exact Ho]. by rewrite Hi1, Hi2.
      * eapply pipes_perm; [|exact Hp]. by rewrite He1, He2.
    + eapply (closepipe_ok _ re) in E as (Hp' & E1 & E2 & E3);
        [|eapply pipes_perm; [|exact Hp]; by rewrite He1].
      constructor; unfold fds; rewrite ?E1, ?E2, ?E3; [done| |].
      * eapply own_perm; [|exact Ho]. simpl. by rewrite Hi1, Hi2.
      * eapply pipes_perm; [|exact Hp']. simpl. by rewrite He2.
    + refine (close_inode_ok (f_ip x) F0 I _ _ _ _ _ _ E).
      constructor; [done| |]; cbn [y_ftable y_fs y_pipes y_kmem put_ftable fst snd].
      * eapply own_perm; [|exact Ho]. fold inode_of in Hi1. rewrite Hi1, Hi2. solve_Permutation.
      * eapply pipes_perm; [|exact Hp]. by rewrite He1, He2.
  - unfold fileclose, bind at 1, getf, gets in E. fold x in E.
    replace (f_ref x <? 1) with false in E by lia. unfold bind at 1, updf, modify in E.
    replace (f_ref x - 1 >? 0) with true in E by lia. injection E as <-.
    constructor; cbn [y_ftable y_fs y_pipes y_kmem put_ftable].
    + apply files_drop; [done|done|]. simpl; lia.
    + by rewrite (omap_insert_same _ _ _ _ _ Hl).
    + by rewrite (omap_insert_same _ _ _ _ _ Hl).
Qed.
End Files.
