(* ===== verification/SysSafe.v ===== *)
(** Every file system call keeps the invariant of SysInv. *)

From S2P Require Import Prelude Bio Log Crash Mem Block Strings Fs FsRefs Kalloc Pipe Syscall File Sysfile SysRefs SysInv.
Local Open Scope Z_scope.

Section Descriptors.
  Context {W : Type} `{BlockIO W}.
  Context (kend : Z).
Abbreviation kok := (kok (W := W) kend).
Abbreviation kmoves := (kmoves (W := W) kend).

(** * Descriptors *)

Lemma fdalloc_ok f F0 I : kmoves (f :: F0, I) (fdalloc f)
  (fun r => match r with Some _ => (F0, I) | None => (f :: F0, I) end).
Proof.
  intros F X s r s' [Hf Ho Hp] E. unfold fdalloc, bind at 1, gets in E.
  destruct (list_find _ _) as [[fd o]|] eqn:El; [|by injection E as <- <-].
  injection E as <- <-. apply list_find_Some in El as (Hk & -> & _).
  destruct (omap_insert_perm id _ _ _ (Some f) Hk) as (rest & H1 & H2). simpl in H1, H2.
  constructor; [|done|done]. eapply files_perm; [|exact Hf]. unfold fds; simpl. rewrite H1, H2. solve_Permutation.
Qed.

Lemma argfd_ok n (s : ksys W) r s' : argfd n s = Ok (r, s') ->
  s' = s /\ match r with Some a => y_ofile s !! Z.to_nat a.1 = Some (Some a.2) | None => True end.
Proof.
  unfold argfd, arg_int, bind at 1, gets. destruct (argint _ _) as [fd|]; [|by intros [= <- <-]].
  destruct (_ || _); [by intros [= <- <-]|]. unfold bind.
  destruct (y_ofile s !!! Z.to_nat fd) as [f|] eqn:E; intros [= <- <-]; [|done]. split; [done|]. simpl.
  rewrite list_lookup_total_alt in E. by destruct (y_ofile s !! Z.to_nat fd) as [[]|]; simplify_eq/=.
Qed.

Lemma in_fds (s : ksys W) fd f : y_ofile s !! fd = Some (Some f) -> f ∈ fds s.
Proof. intros Hl. unfold fds. apply list_elem_of_omap. eexists; split; [|done]. by eapply list_elem_of_lookup_2. Qed.

Lemma clear_fd_ok s F X fd f s' : kok s F X -> y_ofile s !! Z.to_nat fd = Some (Some f) ->
  clear_fd fd s = Ok (tt, s') -> kok s' (f :: F) X.
Proof.
  intros [Hf Ho Hp] Hl [= <-]. destruct (omap_insert_perm id _ _ _ None Hl) as (rest & H1 & H2). simpl in H1, H2.
  constructor; [|done|done]. eapply files_perm; [|exact Hf]. unfold fds; simpl. rewrite H1, H2. solve_Permutation.
Qed.

(** * Calls that leave all references as they are *)

(** [kstays f m]: [m] keeps the invariant while the file [f] is open. *)
Definition kstays {A} (f : nat) (m : M (ksys W) A) : Prop :=
  forall F X s a s', kok s F X -> f ∈ fds s ++ F -> m s = Ok (a, s') -> kok s' F X /\ f ∈ fds s' ++ F.

Lemma kstays_bind {A B} f (m : M (ksys W) A) (k : A -> M (ksys W) B) :
  kstays f m -> (forall a, kstays f (k a)) -> kstays f (bind m k).
Proof.
  intros Hm Hk F X s b s' Ho Hi (a & s1 & E1 & E2)%bind_Ok_inv.
  destruct (Hm _ _ _ _ _ Ho Hi E1). by eapply Hk.
Qed.

Lemma kstays_gets {A} f (g : ksys W -> A) : kstays f (gets g).
Proof. by intros F X s a s' Ho Hi [= <- <-]. Qed.

Lemma kstays_ret {A} f (a : A) : kstays f (ret a).
Proof. by intros F X s b s' Ho Hi [= <- <-]. Qed.

Lemma kstays_panic {A} f msg : kstays f (panic (A := A) msg).
Proof. by intros F X s b s' Ho Hi E. Qed.

Lemma kstays_undefined {A} f : kstays f (undefined (A := A)).
Proof. by intros F X s b s' Ho Hi E. Qed.

Lemma kstays_fsdo {A} f (m : M (fsys W) A) : keeps m -> kstays f (fsdo m).
Proof.
  intros Hm F X s a s' Ho Hi E.
  split; [by apply (kmoves_fsdo kend [] [] m (fun _ => []) (moves_keeps _ _ Hm) _ _ _ _ _ Ho E)|].
  unfold fsdo, zoom in E. destruct (m (y_fs s)) as [[? ?]|?| |]; [|done..]. by injection E as <- <-.
Qed.

Lemma kstays_umem f g : kstays f (modify (fun s => put_umem (g s) s)).
Proof. intros F X s a s' [Hf Ho Hp] Hi [= <- <-]. split; [by constructor|done]. Qed.

Lemma kstays_foff f off : kstays f (updf f (set_foff off)).
Proof. intros F X s a s' Ho Hi [= <- <-]. split; [by apply kok_same|done]. Qed.

Lemma kstays_when f b m : kstays f m -> kstays f (when b m).
Proof. intros Hm; destruct b; [done|apply kstays_ret]. Qed.

Lemma kstays_if {A} f (b : bool) (m1 m2 : M (ksys W) A) : kstays f m1 -> kstays f m2 -> kstays f (if b then m1 else m2).
Proof. by destruct b. Qed.

Lemma kstays_pipe f p x y s F X : kok s F X -> f ∈ fds s ++ F -> y_pipes s !! p = Some x ->
  readopen y = readopen x -> writeopen y = writeopen x ->
  kok (put_pipes (<[p := y]> (y_pipes s)) s) F X.
Proof. intros [Hf Ho Hp] Hi Hx Hr Hw. constructor; [done|done|]. by eapply pipes_data. Qed.
End Descriptors.

Create HintDb kstays.
#[export] Hint Resolve kstays_gets kstays_ret kstays_panic kstays_undefined kstays_umem kstays_foff : kstays.
#[export] Hint Extern 1 (kstays _ _ (bind _ _)) => apply kstays_bind; [|intros ?] : kstays.
#[export] Hint Extern 1 (kstays _ _ (when _ _)) => apply kstays_when : kstays.
#[export] Hint Extern 1 (kstays _ _ (if _ then _ else _)) => apply kstays_if : kstays.
#[export] Hint Extern 1 (kstays _ _ (getf _)) => apply kstays_gets : kstays.
#[export] Hint Extern 1 (kstays _ _ (copyin _ _)) => apply kstays_gets : kstays.
#[export] Hint Extern 1 (kstays _ _ (copyto _ _)) => apply kstays_umem : kstays.
#[export] Hint Extern 1 (kstays _ _ (fsdo _)) => apply kstays_fsdo : kstays.

(** * The calls *)

Section Calls.
  Context {W : Type} `{BlockIO W}.
  Context (kend : Z).
  Context (devsw_read : Z -> option (nat -> Z -> M (fsys W) (Z * bytes))).
  Context (devsw_write : Z -> option (nat -> bytes -> Z -> M (fsys W) Z)).
  Hypothesis read_keeps : forall major f i n, devsw_read major = Some f -> keeps (f i n).
  Hypothesis write_keeps : forall major f i src n, devsw_write major = Some f -> keeps (f i src n).
Abbreviation kok := (kok (W := W) kend).
Abbreviation kmoves := (kmoves (W := W) kend).
Abbreviation kstays := (kstays (W := W) kend).

Lemma keeps_stati i : keeps (W := W) (stati i).
Proof. unfold stati; auto with keeps. Qed.

Lemma filestat_ok f st : kstays f (filestat f st).
Proof.
  unfold filestat. apply kstays_bind; [auto with kstays|intros x].
  destruct (f_type x); auto 20 using keeps_stati with kstays keeps.
Qed.

Lemma pipewrite_flags killed i l p :
  readopen (pipewrite_from killed i l p).2 = readopen p /\ writeopen (pipewrite_from killed i l p).2 = writeopen p.
Proof.
  revert i p; induction l as [|c l IH]; intros i p; cbn [pipewrite_from]; [done|].
  destruct (pipe_full p); [by destruct (_ || _)|]. apply (IH (i + 1) (put_char c p)).
Qed.

Lemma piperead_flags killed n p :
  readopen (piperead killed n p).2 = readopen p /\ writeopen (piperead killed n p).2 = writeopen p.
Proof.
  unfold piperead. destruct (_ && _); [by destruct killed|]. cbv zeta; simpl.
  generalize (@nil Z). revert p; induction (Z.to_nat n) as [|k IH]; intros p acc; cbn [piperead_copy]; [done|].
  destruct (pipe_empty p); [done|]. apply (IH (get_char p).2).
Qed.

Lemma fileread_ok f addr n : kstays f (fileread devsw_read f addr n).
Proof.
  unfold fileread. apply kstays_bind; [auto with kstays|intros x]. apply kstays_if; [auto with kstays|].
  destruct (f_type x); [auto with kstays| |auto 20 using keeps_readi with kstays keeps].
  intros F X s a s' Ho Hi E. unfold bind at 1 2, gets in E.
  destruct (y_pipes s !! f_pipe x) as [p|] eqn:Ep; [|done].
  destruct (piperead_flags (y_killed s) n p) as [Hr Hw]. set (r := piperead _ _ _) in *.
  unfold bind at 1, modify in E. refine ((_ : kstays f _) F X _ _ _ _ _ E); [|by eapply kstays_pipe|done].
  apply kstays_bind; [auto with kstays|intros ?]. destruct r.1.2; [auto with kstays|by intros ???????].
Qed.

Lemma filewrite_ok f addr n : kstays f (filewrite devsw_write f addr n).
Proof.
  assert (forall fuel i, kstays f (filewrite_loop devsw_write fuel f addr i n)) as Hl.
  { induction fuel as [|fuel IH]; intros i; cbn [filewrite_loop]; auto 30 using keeps_writei with kstays keeps. }
  unfold filewrite. apply kstays_bind; [auto with kstays|intros x]. apply kstays_if; [auto with kstays|].
  destruct (f_type x); [auto with kstays| |auto with kstays].
  intros F X s a s' Ho Hi E. unfold bind at 1 2 3, copyin, gets in E.
  destruct (y_pipes s !! f_pipe x) as [p|] eqn:Ep; [|done].
  destruct (pipewrite_flags (y_killed s) 0 (mread (u_mem (y_user s)) addr (Z.to_nat n)) p) as [Hr Hw].
  fold (pipewrite (y_killed s) (mread (u_mem (y_user s)) addr (Z.to_nat n)) p) in *. set (r := pipewrite _ _ _) in *.
  unfold bind at 1, modify in E. refine ((_ : kstays f _) F X _ _ _ _ _ E); [|by eapply kstays_pipe|done].
  destruct r.1; [auto with kstays|by intros ???????].
Qed.

(** A call that keeps the invariant. *)
Definition ksafe (m : M (ksys W) Z) : Prop := kmoves ([], []) m (fun _ => ([], [])).

Lemma ksafe_orfail {A} (m : M (ksys W) (option A)) k :
  (forall s r s', m s = Ok (r, s') -> s' = s) -> (forall a, ksafe (k a)) -> ksafe (orfail m k).
Proof.
  intros Hm Hk. apply kmoves_orfail; [|exact Hk|done]. intros F X s r s' Ho E. by rewrite (Hm _ _ _ E).
Qed.

Lemma gets_same {A} (g : ksys W -> A) s r s' : gets g s = Ok (r, s') -> s' = s.
Proof. by intros [= _ <-]. Qed.

(** With a descriptor as argument. *)
Lemma ksafe_argfd n k :
  (forall fd f F X s r s', kok s F X -> y_ofile s !! Z.to_nat fd = Some (Some f) -> k (fd, f) s = Ok (r, s') -> kok s' F X) ->
  ksafe (orfail (argfd n) k).
Proof.
  intros Hk F X s r s' Ho E. apply bind_Ok_inv in E as (a & s1 & E1 & E).
  apply argfd_ok in E1 as [-> Ha]. destruct a as [[fd f]|]; [by eapply Hk|by injection E as <- <-].
Qed.

Lemma stays_argfd n k : (forall fd f, kstays f (k (fd, f))) -> ksafe (orfail (argfd n) k).
Proof.
  intros Hk. apply ksafe_argfd. intros fd f F X s r s' Ho Hl E. refine (proj1 (Hk fd f F X s r s' Ho _ E)).
  apply elem_of_app; left. by eapply in_fds.
Qed.

Lemma kstays_orfail {A} f (m : M (ksys W) (option A)) k :
  kstays f m -> (forall a, kstays f (k a)) -> kstays f (orfail m k).
Proof. intros Hm Hk. apply kstays_bind; [done|intros [a|]]; [apply Hk|auto with kstays]. Qed.

Lemma sys_read_ok : ksafe (sys_read devsw_read).
Proof.
  apply stays_argfd; intros fd f. apply kstays_orfail; [apply kstays_gets|intros n].
  apply kstays_orfail; [apply kstays_gets|intros p]. apply fileread_ok.
Qed.

Lemma sys_write_ok : ksafe (sys_write devsw_write).
Proof.
  apply stays_argfd; intros fd f. apply kstays_orfail; [apply kstays_gets|intros n].
  apply kstays_orfail; [apply kstays_gets|intros p]. apply filewrite_ok.
Qed.

Lemma sys_fstat_ok : ksafe (sys_fstat (W := W)).
Proof.
  apply stays_argfd; intros fd f. apply kstays_orfail; [apply kstays_gets|intros st]. apply filestat_ok.
Qed.

Lemma sys_close_ok : ksafe (sys_close (W := W) kend).
Proof.
  apply ksafe_argfd. intros fd f F X s r s' Ho Hl E.
  apply bind_Ok_inv in E as ([] & s1 & E1 & E). pose proof (clear_fd_ok _ _ _ _ _ _ _ Ho Hl E1) as Ho1.
  apply bind_Ok_inv in E as ([] & s2 & E2 & E). injection E as <- <-.
  exact (fileclose_ok kend f [] [] F X _ _ _ Ho1 E2).
Qed.

(** [fdalloc] and [filedup] in the source's order. *)
Lemma sys_dup_ok : ksafe (sys_dup (W := W)).
Proof.
  apply ksafe_argfd. intros fd f F X s r s' Ho Hl E.
  assert (f ∈ fds s ++ F) as Hi by (apply elem_of_app; left; by eapply in_fds).
  apply bind_Ok_inv in E as (o & s1 & E1 & E). cbn [fst snd] in *.
  unfold fdalloc, bind at 1, gets in E1. destruct (list_find _ _) as [[k x]|] eqn:El.
  2: { injection E1 as <- <-. by injection E as <- <-. }
  injection E1 as <- <-. apply bind_Ok_inv in E as (j & s2 & E2 & E). injection E as <- <-.
  pose proof (files_pos _ _ _ (kk_files _ _ _ _ Ho) Hi) as Hpos.
  unfold filedup, bind at 1, getf, gets in E2. cbn [y_ftable put_ofile] in E2.
  replace (_ <? 1) with false in E2 by lia. destruct (_ <? INT_MAX) eqn:Em; [|done]. injection E2 as <- <-.
  assert (filedup f s = Ok (f, put_ftable
    (<[f := set_fref (f_ref (y_ftable s !!! f) + 1) (y_ftable s !!! f)]> (y_ftable s)) s)) as Ed.
  { unfold filedup, bind at 1, getf, gets. replace (_ <? 1) with false by lia. by rewrite Em. }
  destruct (filedup_ok _ _ _ _ _ _ _ Ho Hi Ed) as (_ & _ & Ho').
  refine (fdalloc_ok kend f [] [] F X _ (Some (Z.of_nat k)) _ Ho' _).
  unfold fdalloc, bind at 1, gets. cbn [y_ofile put_ftable]. by rewrite El.
Qed.

(** Calls that work on the file system only. *)
Lemma ksafe_fs (m : M (fsys W) Z) : (forall I, moves I m (fun _ => I)) -> ksafe (fsdo m).
Proof. intros Hm. apply (kmoves_fsdo kend [] [] m (fun _ => [])). apply Hm. Qed.

Lemma begin_op_ok F0 I : kmoves (F0, I) begin_op' (fun _ => (F0, I)).
Proof. apply (kmoves_fsdo kend F0 I _ (fun _ => I)). auto with moves. Qed.

Lemma end_op_ok F0 I : kmoves (F0, I) end_op' (fun _ => (F0, I)).
Proof. apply (kmoves_fsdo kend F0 I _ (fun _ => I)). auto with moves. Qed.

Lemma end_fail_ok F0 I : kmoves (F0, I) (do! end_op' in ret (-1)) (fun _ => (F0, I)).
Proof. eapply kmoves_bind; [apply end_op_ok|]. intros ?. by apply kmoves_ret. Qed.

Lemma sys_link_ok : ksafe (sys_link devsw_read devsw_write).
Proof.
  apply ksafe_orfail; [apply gets_same|intros old]. apply ksafe_orfail; [apply gets_same|intros new].
  apply ksafe_fs; intros I. by apply moves_link_op.
Qed.

Lemma sys_unlink_ok : ksafe (sys_unlink devsw_read devsw_write).
Proof.
  apply ksafe_orfail; [apply gets_same|intros path]. apply ksafe_fs; intros I. by apply moves_unlink_op.
Qed.

Lemma sys_mkdir_ok : ksafe (sys_mkdir devsw_read devsw_write).
Proof.
  eapply kmoves_bind; [apply begin_op_ok|intros ?]. eapply kmoves_bind; [apply kmoves_gets|intros [path|]].
  - apply ksafe_fs; intros I. by apply moves_create_only.
  - apply end_fail_ok.
Qed.

Lemma sys_mknod_ok : ksafe (sys_mknod devsw_read devsw_write).
Proof.
  eapply kmoves_bind; [apply begin_op_ok|intros ?]. eapply kmoves_bind; [apply kmoves_gets|intros path].
  eapply kmoves_bind; [apply kmoves_gets|intros major]. eapply kmoves_bind; [apply kmoves_gets|intros minor].
  destruct path as [path|], major as [major|], minor as [minor|]; try apply end_fail_ok.
  apply ksafe_fs; intros I. by apply moves_create_only.
Qed.

Lemma sys_chdir_ok : ksafe (sys_chdir devsw_read).
Proof.
  eapply kmoves_bind; [apply begin_op_ok|intros ?]. eapply kmoves_bind; [apply kmoves_gets|intros [path|]].
  - apply ksafe_fs; intros I. by apply moves_chdir_op.
  - apply end_fail_ok.
Qed.

(** [sys_chmod] returns with one reference too many whenever the path exists. *)
Lemma sys_chmod_moves F X s r s' : kok s F X -> sys_chmod devsw_read s = Ok (r, s') ->
  kok s' F X /\ r = -1 \/ exists ip, kok s' F (ip :: X).
Proof.
  intros Ho E. apply bind_Ok_inv in E as (path & s1 & E1 & E). injection E1 as Ep <-.
  destruct path as [path|]; [|injection E as <- <-; by left].
  apply bind_Ok_inv in E as (mode & s1 & E1 & E). injection E1 as Em <-.
  destruct mode as [mode|]; [|injection E as <- <-; by left].
  apply bind_Ok_inv in E as (o & s1 & E1 & E).
  assert (kok s1 F (got o [] ++ X)) as Ho1
    by apply (kmoves_fsdo kend [] [] _ _ (moves_namei devsw_read read_keeps [] path) F X s _ _ Ho E1).
  destruct o as [ip|]; [right; exists ip|injection E as <- <-; by left].
  apply (kmoves_fsdo kend [] [ip] _ _ (moves_chmod [ip] ip mode) F X s1 _ _ Ho1 E).
Qed.

(** ** open and pipe *)

Lemma fsdo_same {A} (m : M (fsys W) A) s a s' : fsdo m s = Ok (a, s') ->
  y_ftable s' = y_ftable s /\ y_ofile s' = y_ofile s.
Proof. unfold fsdo, zoom. destruct (m (y_fs s)) as [[? ?]|?| |]; [|done..]. by intros [= _ <-]. Qed.

Lemma fdalloc_same f s fd s' : fdalloc (W := W) f s = Ok (Some fd, s') ->
  y_ftable s' = y_ftable s /\ y_ofile s' !! Z.to_nat fd = Some (Some f).
Proof.
  unfold fdalloc, bind at 1, gets. destruct (list_find _ _) as [[k o]|] eqn:El; [|done].
  intros [= <- <-]. apply list_find_Some in El as (Hk & _). split; [done|]. rewrite Nat2Z.id. simpl.
  by apply list_lookup_insert_eq, (lookup_lt_Some _ _ _ Hk).
Qed.

(** An open file becomes a file on inode [ip] and takes over its reference. *)
Lemma kok_set_inode s F X f y : let x := y_ftable s !!! f in
  kok s F (f_ip y :: X) -> f ∈ fds s ++ F -> f_type x = FD_NONE -> f_ref y = f_ref x -> f_type y = FD_INODE ->
  kok (put_ftable (<[f := y]> (y_ftable s)) s) F X.
Proof.
  intros x [Hf Ho Hp] Hi Hx Hr Hy. pose proof (ft_lookup _ _ (fk_range _ _ Hf _ Hi)) as Hl. fold x in Hl.
  constructor; cbn [y_ftable y_fs y_pipes y_kmem put_ftable].
  - by apply files_same.
  - destruct (omap_insert_perm inode_of _ _ _ y Hl) as (r & H1 & H2).
    unfold inode_of at 2 in H1. unfold inode_of at 2 in H2. rewrite Hx in H1; rewrite Hy in H2.
    eapply own_perm; [|exact Ho]. rewrite H1, H2. simpl. solve_Permutation.
  - rewrite (omap_insert_same _ _ _ _ _ Hl); [done|]. unfold end_of. by rewrite Hx, Hy.
Qed.

Lemma open_fail_ok ip F X s r s' : kok s F (ip :: X) -> open_fail ip s = Ok (r, s') -> kok s' F X.
Proof.
  intros Ho E. apply bind_Ok_inv in E as (? & s1 & E1 & E).
  apply (kmoves_fsdo kend [] [ip] _ _ (moves_iunlockput ip []) F X _ _ _ Ho) in E1.
  exact (end_fail_ok [] [] F X _ _ _ E1 E).
Qed.

Lemma fileclose_run f F X s s' : kok s (f :: F) X -> fileclose kend f s = Ok (tt, s') -> kok s' F X.
Proof. intros Ho E. exact (fileclose_ok kend f [] [] F X _ _ _ Ho E). Qed.

Lemma sys_open_ok : ksafe (sys_open kend devsw_read devsw_write).
Proof.
  apply ksafe_orfail; [apply gets_same|intros path]. apply ksafe_orfail; [apply gets_same|intros omode].
  eapply kmoves_bind; [apply begin_op_ok|intros ?].
  eapply kmoves_bind; [apply kmoves_fsdo, (moves_open_ip devsw_read devsw_write read_keeps write_keeps)|].
  intros [ip|]; [|apply end_fail_ok]. intros F X s r s' Ho E. cbn [fst snd app got] in Ho.
  apply bind_Ok_inv in E as (o & s1 & E1 & E). pose proof (filealloc_ok _ _ _ _ _ _ Ho E1) as Hf.
  destruct o as [f|]; [|subst s1; by eapply open_fail_ok].
  destruct Hf as (Ho1 & Hni & Hof & Hlt & Ht & Hft).
  apply bind_Ok_inv in E as (o & s2 & E2 & E).
  pose proof (fdalloc_ok kend f [] [] F (ip :: X) _ _ _ Ho1 E2) as Ho2.
  destruct o as [fd|].
  2: { apply bind_Ok_inv in E as ([] & s3 & E3 & E).
       exact (open_fail_ok ip F X _ _ _ (fileclose_run _ _ _ _ _ Ho2 E3) E). }
  apply fdalloc_same in E2 as [Hft2 Hfd].
  apply bind_Ok_inv in E as (? & s3 & E3 & E). destruct (fsdo_same _ _ _ _ E3) as [Hft3 Hof3].
  apply (kmoves_fsdo kend [] [ip] _ _ (moves_keeps _ _ (keeps_iunlock ip)) F X _ _ _ Ho2) in E3.
  apply bind_Ok_inv in E as (? & s4 & E4 & E). destruct (fsdo_same _ _ _ _ E4) as [Hft4 Hof4].
  apply (end_op_ok [] [ip] F X _ _ _ E3) in E4. injection E as <- <-.
  apply (kok_set_inode s4 F X f); [exact E4| |  |done|done].
  - apply elem_of_app; left. apply (in_fds _ (Z.to_nat fd)). by rewrite Hof4, Hof3.
  - by rewrite Hft4, Hft3, Hft2, Hft, list_lookup_total_insert_eq.
Qed.

(** The two ends of a new pipe. *)
Lemma kok_set_pipe s F X a b km p ps : let x := y_ftable s !!! a in let y := y_ftable s !!! b in
  kok s F X -> a ∈ fds s ++ F -> b ∈ fds s ++ F -> a <> b ->
  f_type x = FD_NONE -> f_type y = FD_NONE ->
  pipes_ok kend ((p, false) :: (p, true) :: omap end_of (y_ftable s)) ps km ->
  kok (put_ftable
         (<[b := mkfile FD_PIPE (f_ref y) false true p (f_ip y) (f_off y)]>
            (<[a := mkfile FD_PIPE (f_ref x) true false p (f_ip x) (f_off x)]> (y_ftable s)))
         (put_pipes ps (put_kmem km s))) F X.
Proof.
  intros x y [Hf Ho Hp] Ha Hb Hne Hx Hy Hnew.
  pose proof (ft_lookup _ _ (fk_range _ _ Hf _ Ha)) as Hla. fold x in Hla.
  pose proof (ft_lookup _ _ (fk_range _ _ Hf _ Hb)) as Hlb. fold y in Hlb.
  set (x' := mkfile FD_PIPE (f_ref x) _ _ _ _ _). set (y' := mkfile FD_PIPE (f_ref y) _ _ _ _ _).
  assert (<[a := x']> (y_ftable s) !! b = Some y) as Hlb' by (by rewrite list_lookup_insert_ne).
  constructor; cbn [y_ftable y_fs y_pipes y_kmem y_ofile put_ftable put_pipes put_kmem].
  - apply files_same; [by apply files_same|done|]. by rewrite list_lookup_total_insert_ne.
  - rewrite (omap_insert_same _ _ _ _ y' Hlb'), (omap_insert_same _ _ _ _ x' Hla); [done|..];
      unfold inode_of; by rewrite ?Hx, ?Hy.
  - destruct (omap_insert_perm end_of _ _ _ x' Hla) as (r1 & H1 & H2).
    destruct (omap_insert_perm end_of _ _ _ y' Hlb') as (r2 & H3 & H4).
    unfold end_of at 2 in H1. unfold end_of at 2 in H3. rewrite Hx in H1; rewrite Hy in H3. simpl in H1, H2, H3, H4.
    eapply pipes_perm; [|exact Hnew]. rewrite H4, <- H3, H2, H1. apply Permutation_swap.
Qed.

Lemma pipealloc_ok s F X r s' : kok s F X -> pipealloc kend s = Ok (r, s') ->
  match r with Some (a, b) => kok s' (a :: b :: F) X | None => kok s' F X end.
Proof.
  intros Ho E. apply bind_Ok_inv in E as (o & s1 & E1 & E). pose proof (filealloc_ok _ _ _ _ _ _ Ho E1) as H1.
  destruct o as [a|]; [|injection E as <- <-; by subst s1].
  destruct H1 as (Ho1 & Ha & Hof1 & Hlta & Hta & Hft1).
  apply bind_Ok_inv in E as (o & s2 & E2 & E). pose proof (filealloc_ok _ _ _ _ _ _ Ho1 E2) as H2.
  destruct o as [b|].
  2: { apply bind_Ok_inv in E as ([] & s3 & E3 & E). injection E as <- <-. subst s2. by eapply fileclose_run. }
  destruct H2 as (Ho2 & Hb & Hof2 & Hltb & Htb & Hft2).
  assert (a <> b) as Hne by (intros ->; apply Hb; set_solver).
  apply bind_Ok_inv in E as (p & s3 & E3 & E).
  destruct (pp_pages _ _ _ _ (kk_pipes _ _ _ _ Ho2)) as (l & Hk & Hg).
  pose proof (kalloc_spec kend _ _ Hk) as Hs. destruct l as [|v l].
  - unfold kmdo in E3. rewrite (zoom_Ok _ _ _ _ _ _ Hs) in E3. injection E3 as <- <-.
    apply bind_Ok_inv in E as ([] & s4 & E4 & E). apply bind_Ok_inv in E as ([] & s5 & E5 & E).
    injection E as <- <-. eapply fileclose_run; [|exact E5]. eapply fileclose_run; [|exact E4].
    eapply kok_perm; [apply Permutation_swap|done|]. by destruct s2, Ho2.
  - destruct Hs as (k' & Es & Hk' & Hv0 & Hvl & Hpg & _).
    unfold kmdo in E3. rewrite (zoom_Ok _ _ _ _ _ _ Es) in E3. injection E3 as <- <-.
    replace (v =? 0) with false in E by (symmetry; by apply Z.eqb_neq).
    injection E as <- <-. eapply kok_perm; [apply Permutation_swap|done|].
    rewrite list_lookup_total_insert_ne by done.
    apply (kok_set_pipe s2); [done|set_solver|set_solver|done| | |].
    + rewrite Hft2, list_lookup_total_insert_ne by done. by rewrite Hft1, list_lookup_total_insert_eq.
    + by rewrite Hft2, list_lookup_total_insert_eq.
    + by eapply pipes_new; [apply Ho2|..].
Qed.

Lemma pipe_fail_ok rf wf F X s r s' : kok s (rf :: wf :: F) X -> pipe_fail kend rf wf s = Ok (r, s') -> kok s' F X.
Proof.
  intros Ho E. apply bind_Ok_inv in E as ([] & s1 & E1 & E). apply bind_Ok_inv in E as ([] & s2 & E2 & E).
  injection E as <- <-. eauto using fileclose_run.
Qed.

Lemma sys_pipe_ok : ksafe (sys_pipe (W := W) kend).
Proof.
  apply ksafe_orfail; [apply gets_same|intros fd]. intros F X s r s' Ho E.
  apply bind_Ok_inv in E as (o & s1 & E1 & E). pose proof (pipealloc_ok _ _ _ _ _ Ho E1) as Ho1.
  destruct o as [[rf wf]|]; [|by injection E as <- <-].
  apply bind_Ok_inv in E as (o & s2 & E2 & E). cbn [fst snd] in *.
  pose proof (fdalloc_ok kend rf [] [] (wf :: F) X _ _ _ Ho1 E2) as Ho2.
  destruct o as [fd0|]; [|exact (pipe_fail_ok rf wf F X _ _ _ Ho2 E)].
  apply fdalloc_same in E2 as [_ Hfd0].
  apply bind_Ok_inv in E as (o & s3 & E3 & E). pose proof (fdalloc_ok kend wf [] [] F X _ _ _ Ho2 E3) as Ho3.
  destruct o as [fd1|].
  - refine (kmoves_bind kend ([], []) _ (fun _ => ([], [])) _ (fun _ => ([], [])) _ _ F X _ _ _ Ho3 E);
      [apply kmoves_umem|intros ?].
    eapply kmoves_bind; [apply kmoves_umem|]. intros ?. by apply kmoves_ret.
  - apply bind_Ok_inv in E as ([] & s4 & E4 & E). eapply (pipe_fail_ok rf wf F X); [|exact E].
    eapply (clear_fd_ok kend _ (wf :: F) X); [exact Ho3| |exact E4].
    unfold fdalloc, bind at 1, gets in E3. destruct (list_find _ _) as [[]|]; [done|]. by injection E3 as <-.
Qed.
End Calls.
