(* ===== verification/Vm.v ===== *)
(** Page tables (vm.c) over the page allocator: the kernel's memory holds the
    directories, the tables and the pages themselves.  This file has the
    definitions; VmSpace has the theorems. *)

From S2P Require Import Prelude Mem Kalloc.
Local Open Scope Z_scope.

(** * mmu.h, memlayout.h *)

Definition KERNLINK : Z := KERNBASE + EXTMEM.

Definition PTXSHIFT : Z := 12.
Definition PDXSHIFT : Z := 22.
Definition NPDENTRIES : Z := 1024.
Definition PDX (va : Z) : Z := Z.land (Z.shiftr (u32 va) PDXSHIFT) 1023.
Definition PTX (va : Z) : Z := Z.land (Z.shiftr (u32 va) PTXSHIFT) 1023.
Definition PGADDR (d t o : Z) : Z := u32 (Z.lor (Z.lor (Z.shiftl d PDXSHIFT) (Z.shiftl t PTXSHIFT)) o).

Definition PTE_P : Z := 1.
Definition PTE_W : Z := 2.
Definition PTE_U : Z := 4.
Definition PTE_ADDR (pte : Z) : Z := Z.land (u32 pte) (Z.lnot 4095).
Definition PTE_FLAGS (pte : Z) : Z := Z.land (u32 pte) 4095.

(** * Memory of the kernel *)

Definition load (a : Z) : M kstate Z := gets (fun s => ld32 (k_mem s) a).
Definition store (a v : Z) : M kstate unit :=
  modify (fun s => mkk (st32 (k_mem s) a v) (k_use_lock s) (k_freelist s)).
Definition on_mem (f : mem -> mem) : M kstate unit :=
  modify (fun s => mkk (f (k_mem s)) (k_use_lock s) (k_freelist s)).

(** [x & flag] *)
Definition has (flag x : Z) : bool := negb (Z.land x flag =? 0).

Section Vm.
  (** The end of the kernel image and the start of its data, which the linker
      script defines. *)
  Context (kend data : Z).

(** The address of the entry, or 0. *)
Definition walkpgdir (pgdir va : Z) (alloc : bool) : M kstate Z :=
  let pde := pgdir + 4 * PDX va in
  let! e := load pde in
  if has PTE_P e then ret (P2V (PTE_ADDR e) + 4 * PTX va) else
  if negb alloc then ret 0 else
  let! pgtab := kalloc in
  if pgtab =? 0 then ret 0 else
  do! on_mem (fun m => memset m pgtab 0 PGSIZE) in
  do! store pde (Z.lor (Z.lor (Z.lor (V2P pgtab) PTE_P) PTE_W) PTE_U) in
  ret (pgtab + 4 * PTX va).

(** The loop of [mappages] from page [a] on. *)
Fixpoint mappages_loop (fuel : nat) (pgdir a last pa perm : Z) : M kstate Z :=
  match fuel with
  | O => undefined
  | S fuel' =>
      let! pte := walkpgdir pgdir a true in
      if pte =? 0 then ret (-1) else
      let! e := load pte in
      if has PTE_P e then panic "remap" else
      do! store pte (Z.lor (Z.lor pa perm) PTE_P) in
      if a =? last then ret 0
      else mappages_loop fuel' pgdir (u32 (a + PGSIZE)) last (u32 (pa + PGSIZE)) perm
  end.

Definition mappages (pgdir va size pa perm : Z) : M kstate Z :=
  let a := PGROUNDDOWN va in
  let last := PGROUNDDOWN (u32 (va + size - 1)) in
  mappages_loop (Z.to_nat (u32 (last - a) / PGSIZE + 1)) pgdir a last pa perm.

(** The loop of [deallocuvm]. *)
Fixpoint deallocuvm_loop (fuel : nat) (pgdir a oldsz : Z) : M kstate unit :=
  if a <? oldsz then
    match fuel with
    | O => undefined
    | S fuel' =>
        let! pte := walkpgdir pgdir a false in
        if pte =? 0 then
          deallocuvm_loop fuel' pgdir (u32 (u32 (PGADDR (PDX a + 1) 0 0 - PGSIZE) + PGSIZE)) oldsz
        else
          let! e := load pte in
          do! when (has PTE_P e)
                (let pa := PTE_ADDR e in
                 if pa =? 0 then panic "kfree" else
                 do! kfree kend (P2V pa) in
                 store pte 0) in
          deallocuvm_loop fuel' pgdir (u32 (a + PGSIZE)) oldsz
    end
  else ret tt.

Definition deallocuvm (pgdir oldsz newsz : Z) : M kstate Z :=
  if newsz >=? oldsz then ret oldsz else
  do! deallocuvm_loop (Z.to_nat (oldsz / PGSIZE + 1)) pgdir (PGROUNDUP newsz) oldsz in
  ret newsz.

(** Free the tables of the directory entries [i, i + fuel). *)
Fixpoint freevm_loop (fuel : nat) (pgdir i : Z) : M kstate unit :=
  match fuel with
  | O => ret tt
  | S fuel' =>
      let! e := load (pgdir + 4 * i) in
      do! when (has PTE_P e) (kfree kend (P2V (PTE_ADDR e))) in
      freevm_loop fuel' pgdir (i + 1)
  end.

Definition freevm (pgdir : Z) : M kstate unit :=
  if pgdir =? 0 then panic "freevm: no pgdir" else
  do! deallocuvm pgdir KERNBASE 0 in
  do! freevm_loop (Z.to_nat NPDENTRIES) pgdir 0 in
  kfree kend pgdir.

(** The loop of [allocuvm]; [None] means that all went well. *)
Fixpoint allocuvm_loop (fuel : nat) (pgdir a oldsz newsz : Z) : M kstate (option Z) :=
  if a <? newsz then
    match fuel with
    | O => undefined
    | S fuel' =>
        let! pg := kalloc in
        if pg =? 0 then
          do! deallocuvm pgdir newsz oldsz in
          ret (Some 0)
        else
        do! on_mem (fun m => memset m pg 0 PGSIZE) in
        let! r := mappages pgdir a PGSIZE (V2P pg) (Z.lor PTE_W PTE_U) in
        if r <? 0 then
          do! deallocuvm pgdir newsz oldsz in
          do! kfree kend pg in
          ret (Some 0)
        else allocuvm_loop fuel' pgdir (u32 (a + PGSIZE)) oldsz newsz
    end
  else ret None.

Definition allocuvm (pgdir oldsz newsz : Z) : M kstate Z :=
  if newsz >=? KERNBASE then ret 0 else
  if newsz <? oldsz then ret oldsz else
  let! r := allocuvm_loop (Z.to_nat (newsz / PGSIZE + 1)) pgdir (PGROUNDUP oldsz) oldsz newsz in
  match r with
  | Some r => ret r
  | None => ret newsz
  end.

(** The rows of [kmap]: virtual address, physical start and end, permissions. *)
Definition kmap : list (Z * Z * Z * Z) :=
  [(KERNBASE, 0, EXTMEM, PTE_W);
   (KERNLINK, V2P KERNLINK, V2P data, 0);
   (data, V2P data, PHYSTOP, PTE_W);
   (DEVSPACE, DEVSPACE, 0, PTE_W)].

Fixpoint setupkvm_loop (rows : list (Z * Z * Z * Z)) (pgdir : Z) : M kstate Z :=
  match rows with
  | [] => ret pgdir
  | (virt, phys_start, phys_end, perm) :: rows' =>
      let! r := mappages pgdir virt (u32 (phys_end - phys_start)) phys_start perm in
      if r <? 0 then do! freevm pgdir in ret 0
      else setupkvm_loop rows' pgdir
  end.

Definition setupkvm : M kstate Z :=
  let! pgdir := kalloc in
  if pgdir =? 0 then ret 0 else
  do! on_mem (fun m => memset m pgdir 0 PGSIZE) in
  if P2V PHYSTOP >? DEVSPACE then panic "PHYSTOP too high" else
  setupkvm_loop kmap pgdir.

(** The initial program goes to address 0. *)
Definition inituvm (pgdir : Z) (init : bytes) : M kstate unit :=
  if Z.of_nat (length init) >=? PGSIZE then panic "inituvm: more than a page" else
  let! pg := kalloc in
  if pg =? 0 then undefined else
  do! on_mem (fun m => memset m pg 0 PGSIZE) in
  do! mappages pgdir 0 PGSIZE (V2P pg) (Z.lor PTE_W PTE_U) in
  on_mem (fun m => mwrite m pg init).

Definition clearpteu (pgdir uva : Z) : M kstate unit :=
  let! pte := walkpgdir pgdir uva false in
  if pte =? 0 then panic "clearpteu" else
  let! e := load pte in
  store pte (Z.land e (Z.lnot PTE_U)).

(** The loop of [copyuvm] into the directory [d]; [false] is the label [bad]. *)
Fixpoint copyuvm_loop (fuel : nat) (pgdir d i sz : Z) : M kstate bool :=
  if i <? sz then
    match fuel with
    | O => undefined
    | S fuel' =>
        let! pte := walkpgdir pgdir i false in
        if pte =? 0 then panic "copyuvm: pte should exist" else
        let! e := load pte in
        if negb (has PTE_P e) then panic "copyuvm: page not present" else
        let pa := PTE_ADDR e in
        let flags := PTE_FLAGS e in
        let! pg := kalloc in
        if pg =? 0 then ret false else
        do! on_mem (fun m => memmove m pg (P2V pa) PGSIZE) in
        let! r := mappages d i PGSIZE (V2P pg) flags in
        if r <? 0 then do! kfree kend pg in ret false
        else copyuvm_loop fuel' pgdir d (u32 (i + PGSIZE)) sz
    end
  else ret true.

Definition copyuvm (pgdir sz : Z) : M kstate Z :=
  let! d := setupkvm in
  if d =? 0 then ret 0 else
  let! ok := copyuvm_loop (Z.to_nat (sz / PGSIZE + 1)) pgdir d 0 sz in
  if ok then ret d else do! freevm d in ret 0.

Definition uva2ka (pgdir uva : Z) : M kstate Z :=
  let! pte := walkpgdir pgdir uva false in
  if pte =? 0 then undefined else
  let! e := load pte in
  if negb (has PTE_P e) then ret 0 else
  if negb (has PTE_U e) then ret 0 else
  ret (P2V (PTE_ADDR e)).

Fixpoint copyout_loop (fuel : nat) (pgdir va : Z) (buf : bytes) : M kstate Z :=
  match buf with
  | [] => ret 0
  | _ =>
      match fuel with
      | O => undefined
      | S fuel' =>
          let va0 := PGROUNDDOWN va in
          let! pa0 := uva2ka pgdir va0 in
          if pa0 =? 0 then ret (-1) else
          let n := Z.min (PGSIZE - (va - va0)) (Z.of_nat (length buf)) in
          do! on_mem (fun m => mwrite m (pa0 + (va - va0)) (take (Z.to_nat n) buf)) in
          copyout_loop fuel' pgdir (u32 (va0 + PGSIZE)) (drop (Z.to_nat n) buf)
      end
  end.

Definition copyout (pgdir va : Z) (p : bytes) : M kstate Z := copyout_loop (length p) pgdir va p.
End Vm.
