(* ===== verification/VmSpace.v ===== *)
(** Address spaces: what the page tables of vm.c map, which pages they own, and
    that no page is lost. *)

From S2P Require Import Prelude Mem Kalloc Vm.
Local Open Scope Z_scope.

(** * Arithmetic of entries and addresses *)

Lemma land_1023 x : Z.land x 1023 = x mod 1024.
Proof. exact (Z.land_ones x 10 ltac:(lia)). Qed.

Lemma PDX_div va : 0 <= va < 4294967296 -> PDX va = va / 4194304.
Proof.
  intros Hva. unfold PDX, PDXSHIFT. rewrite u32_small, land_1023, Z.shiftr_div_pow2 by lia.
  change (2 ^ 22) with 4194304. apply Z.mod_small. divmod.
Qed.

Lemma PTX_div va : 0 <= va < 4294967296 -> PTX va = va / 4096 mod 1024.
Proof.
  intros Hva. unfold PTX, PTXSHIFT. rewrite u32_small, land_1023, Z.shiftr_div_pow2 by lia. reflexivity.
Qed.

Lemma PTX_range va : 0 <= PTX va < 1024.
Proof. unfold PTX. rewrite land_1023. divmod. Qed.

Lemma PDX_range va : 0 <= PDX va < 1024.
Proof. unfold PDX. rewrite land_1023. divmod. Qed.

Lemma land_lnot_4095 x : Z.land x (Z.lnot 4095) = x - x mod 4096.
Proof.
  change 4095 with (Z.ones 12). rewrite <- Z.ldiff_land, Z.ldiff_ones_r, Z.shiftl_mul_pow2, Z.shiftr_div_pow2 by lia.
  change (2 ^ 12) with 4096. divmod.
Qed.

Lemma PTE_ADDR_eq e : 0 <= e < 4294967296 -> PTE_ADDR e = e - e mod 4096.
Proof. intros He. unfold PTE_ADDR. rewrite u32_small by done. apply land_lnot_4095. Qed.

Lemma PTE_FLAGS_eq e : 0 <= e < 4294967296 -> PTE_FLAGS e = e mod 4096.
Proof.
  intros He. unfold PTE_FLAGS. rewrite u32_small by done. exact (Z.land_ones e 12 ltac:(lia)).
Qed.

Lemma PGROUNDDOWN_eq a : PGROUNDDOWN a = a - a mod 4096.
Proof. apply land_lnot_4095. Qed.

Lemma PGROUNDUP_eq a : 0 <= a <= KERNBASE -> PGROUNDUP a = (a + 4095) / 4096 * 4096.
Proof.
  unfold KERNBASE, PGROUNDUP, PGSIZE. intros Ha. replace (a + 4096 - 1) with (a + 4095) by lia.
  rewrite u32_small by lia. change (4096 - 1) with 4095. rewrite land_lnot_4095. divmod.
Qed.

Lemma has_P e : has PTE_P e = negb (e mod 2 =? 0).
Proof. unfold has, PTE_P. f_equal. change 1 with (Z.ones 1) at 1. by rewrite Z.land_ones. Qed.

(** Flags are or-ed to an aligned address. *)
Lemma lor_flags a f : a mod 4096 = 0 -> 0 <= f < 4096 -> Z.lor a f = a + f.
Proof.
  intros Ha Hf. rewrite <- Z.add_lor_land.
  replace (Z.land a f) with (Z.land (Z.land a (Z.ones 12)) f).
  - rewrite Z.land_ones by lia. change (2 ^ 12) with 4096. rewrite Ha, Z.land_0_l. lia.
  - rewrite <- Z.land_assoc, (Z.land_comm (Z.ones 12)), Z.land_ones by lia.
    change (2 ^ 12) with 4096. by rewrite Z.mod_small.
Qed.

Lemma V2P_page kend v : page_ok kend v -> V2P v = v - KERNBASE /\ V2P v mod 4096 = 0 /\ 0 <= V2P v < PHYSTOP.
Proof.
  unfold page_ok, V2P, KERNBASE, PHYSTOP, PGSIZE. intros (Ha & _ & Hv).
  assert (u32 (v - 2147483648) = v - 2147483648) as -> by (apply u32_small; lia). split_and!; [done|divmod|lia|lia].
Qed.

(** Reading back an entry for page [v] with flags [f]. *)
Lemma entry_read kend v f : page_ok kend v -> 0 <= f < 4096 ->
  0 <= V2P v + f < 4294967296 /\ P2V (PTE_ADDR (V2P v + f)) = v /\ PTE_FLAGS (V2P v + f) = f /\
  PTE_ADDR (V2P v + f) = V2P v /\ has PTE_P (V2P v + f) = has PTE_P f.
Proof.
  intros Hv Hf. destruct (V2P_page _ _ Hv) as (E & Ha & Hr). unfold PHYSTOP in Hr.
  assert (0 <= V2P v + f < 4294967296) as He by lia.
  rewrite PTE_ADDR_eq, PTE_FLAGS_eq, !has_P by done.
  replace ((V2P v + f) mod 4096) with f by divmod. replace (V2P v + f - f) with (V2P v) by lia.
  split_and!; [lia|lia| |done|done|].
  - unfold P2V. rewrite E. unfold page_ok, KERNBASE, PHYSTOP in *. rewrite u32_small by lia. lia.
  - do 2 f_equal. divmod.
Qed.

Lemma pde_value kend v : page_ok kend v -> Z.lor (Z.lor (Z.lor (V2P v) PTE_P) PTE_W) PTE_U = V2P v + 7.
Proof.
  intros Hv. destruct (V2P_page _ _ Hv) as (_ & Ha & _). rewrite <- !Z.lor_assoc.
  change (Z.lor PTE_P (Z.lor PTE_W PTE_U)) with 7. by apply lor_flags.
Qed.

(** Words in different pages, and different words of one page, do not overlap. *)
Lemma words_apart kend u v i j : page_ok kend u -> page_ok kend v -> 0 <= i < 1024 -> 0 <= j < 1024 ->
  u <> v \/ i <> j -> u + 4 * i + 4 <= v + 4 * j \/ v + 4 * j + 4 <= u + 4 * i.
Proof.
  intros Hu Hv Hi Hj Hne. destruct (decide (u = v)) as [->|Huv]; [lia|].
  destruct (pages_apart kend u v Hu Hv Huv); unfold PGSIZE in *; lia.
Qed.

(** * Address spaces *)

Definition same_page (m m' : mem) (v : Z) : Prop := forall a, v <= a < v + PGSIZE -> mget m' a = mget m a.

Lemma ld32_same m m' v i : same_page m m' v -> 0 <= i < 1024 -> ld32 m' (v + 4 * i) = ld32 m (v + 4 * i).
Proof. intros Hs Hi. unfold ld32. f_equal. apply mread_ext. intros j Hj. apply Hs. unfold PGSIZE; lia. Qed.

Lemma same_page_trans m m' m'' v : same_page m m' v -> same_page m' m'' v -> same_page m m'' v.
Proof. intros H1 H2 a Ha. by rewrite H2, H1. Qed.

(** What the hardware finds for [va]: the entry, or 0 where there is no table. *)
Definition lookup_pte (m : mem) (pgdir va : Z) : Z :=
  let e := ld32 m (pgdir + 4 * PDX va) in
  if has PTE_P e then ld32 m (P2V (PTE_ADDR e) + 4 * PTX va) else 0.

Definition tables (tabs : gmap Z Z) : list Z := (map_to_list tabs).*2.

Lemma tables_insert tabs i t : tabs !! i = None -> tables (<[i := t]> tabs) ≡ₚ t :: tables tabs.
Proof. intros Hi. unfold tables. by rewrite map_to_list_insert. Qed.

Lemma tables_lookup tabs i t : tabs !! i = Some t -> t ∈ tables tabs.
Proof. intros Hi. unfold tables. apply list_elem_of_fmap. exists (i, t). split; [done|]. by apply elem_of_map_to_list. Qed.

Lemma tables_inj tabs i j t : NoDup (tables tabs) -> tabs !! i = Some t -> tabs !! j = Some t -> i = j.
Proof.
  unfold tables. intros Hn Hi%elem_of_map_to_list Hj%elem_of_map_to_list.
  apply list_elem_of_lookup in Hi as [a Ha]. apply list_elem_of_lookup in Hj as [b Hb].
  assert (a = b) as ->; [|congruence].
  apply (NoDup_lookup _ a b t Hn); rewrite list_lookup_fmap; [by rewrite Ha|by rewrite Hb].
Qed.

Lemma tables_range tabs lo hi : (forall i t, tabs !! i = Some t -> lo <= i < hi) ->
  (length (tables tabs) <= Z.to_nat (hi - lo))%nat.
Proof.
  intros H. unfold tables. rewrite length_fmap, <- (length_fmap fst), <- (length_seqZ lo).
  apply submseteq_length, NoDup_submseteq; [apply NoDup_fst_map_to_list|].
  intros i Hi. apply list_elem_of_fmap in Hi as ([? t] & -> & Ht%elem_of_map_to_list). apply H in Ht.
  apply elem_of_seqZ. cbn. lia.
Qed.

Section Space.
  Context (kend data : Z).
Abbreviation page_ok := (page_ok kend).
Abbreviation kmem_ok := (kmem_ok kend).

(** The page directory at [pgdir], its tables [tabs] by directory index, other
    pages in use [own] and the free pages [free] are distinct pages, and the
    directory's entries point to its tables. *)
Record space (s : kstate) (pgdir : Z) (tabs : gmap Z Z) (own free : list Z) : Prop := {
  sp_kmem : kmem_ok s free;
  sp_dir : forall i, 0 <= i < 1024 ->
    match tabs !! i with
    | Some t => ld32 (k_mem s) (pgdir + 4 * i) = V2P t + 7
    | None => has PTE_P (ld32 (k_mem s) (pgdir + 4 * i)) = false
    end;
  sp_dom : forall i t, tabs !! i = Some t -> 0 <= i < 1024;
  sp_nodup : NoDup (pgdir :: tables tabs ++ own ++ free);
  sp_pages : Forall page_ok (pgdir :: tables tabs ++ own ++ free)
}.

Lemma space_page s pgdir tabs own free v : space s pgdir tabs own free ->
  v ∈ pgdir :: tables tabs ++ own ++ free -> page_ok v.
Proof. intros H Hv. pose proof (sp_pages _ _ _ _ _ H) as Hp. rewrite Forall_forall in Hp. auto. Qed.

Lemma space_tables s pgdir tabs own free : space s pgdir tabs own free -> (length (tables tabs) <= 1024)%nat.
Proof. intros H. apply (tables_range tabs 0 1024). apply (sp_dom _ _ _ _ _ H). Qed.

Lemma space_dir_page s pgdir tabs own free : space s pgdir tabs own free -> page_ok pgdir.
Proof. intros H. eapply space_page; [exact H|]. left. Qed.

Lemma space_tab_page s pgdir tabs own free i t : space s pgdir tabs own free -> tabs !! i = Some t -> page_ok t.
Proof. intros H Ht. eapply space_page; [exact H|]. apply tables_lookup in Ht. set_solver. Qed.

Lemma space_own_page s pgdir tabs own free v : space s pgdir tabs own free -> v ∈ own -> page_ok v.
Proof. intros H Hv. eapply space_page; [exact H|]. set_solver. Qed.

(** A page in use is none of the others. *)
Lemma space_own_apart s pgdir tabs o1 v o2 free : space s pgdir tabs (o1 ++ v :: o2) free ->
  v ∉ pgdir :: tables tabs ++ (o1 ++ o2) ++ free.
Proof.
  intros H. assert (NoDup (v :: pgdir :: tables tabs ++ (o1 ++ o2) ++ free)) as [Hni _]%NoDup_cons; [|done].
  eapply NoDup_Permutation_proper; [|exact (sp_nodup _ _ _ _ _ H)]. cbn. solve_Permutation.
Qed.

Lemma space_dir_apart s pgdir tabs own free : space s pgdir tabs own free -> pgdir ∉ tables tabs ++ own ++ free.
Proof. intros H. by pose proof (sp_nodup _ _ _ _ _ H) as [Hni _]%NoDup_cons. Qed.

Lemma space_perm s pgdir tabs own own' free : own ≡ₚ own' -> space s pgdir tabs own free -> space s pgdir tabs own' free.
Proof. intros Hp [Hk Hd Ho Hn Hg]. constructor; [done|done|done|by rewrite <- Hp|by rewrite <- Hp]. Qed.

(** The entry in terms of the tables. *)
Lemma lookup_table s pgdir tabs own free va : space s pgdir tabs own free ->
  lookup_pte (k_mem s) pgdir va =
  match tabs !! PDX va with Some t => ld32 (k_mem s) (t + 4 * PTX va) | None => 0 end.
Proof.
  intros Hs. pose proof (sp_dir _ _ _ _ _ Hs (PDX va) (PDX_range va)) as Hd. unfold lookup_pte.
  destruct (tabs !! PDX va) as [t|] eqn:Et; [|by rewrite Hd].
  assert (page_ok t) as Ht.
  { eapply space_page; [done|]. apply tables_lookup in Et. set_solver. }
  destruct (entry_read kend t 7 Ht ltac:(lia)) as (_ & Ha & _ & _ & Hp). by rewrite Hd, Hp, Ha.
Qed.

(** Changes outside the directory, the tables and the free pages. *)
Lemma space_frame s s' pgdir tabs own free : space s pgdir tabs own free ->
  k_freelist s' = k_freelist s ->
  (forall v, v ∈ pgdir :: tables tabs ++ free -> same_page (k_mem s) (k_mem s') v) ->
  space s' pgdir tabs own free /\
  forall va, lookup_pte (k_mem s') pgdir va = lookup_pte (k_mem s) pgdir va.
Proof.
  intros Hs Hf Hm. pose proof Hs as [[Hc Hn0 Hp0] Hd Ho Hn Hp].
  assert (forall i, 0 <= i < 1024 -> ld32 (k_mem s') (pgdir + 4 * i) = ld32 (k_mem s) (pgdir + 4 * i)) as Hdir
    by (intros i Hi; apply ld32_same; [apply Hm; left|done]).
  assert (space s' pgdir tabs own free) as Hs'.
  { constructor; [|intros i Hi; rewrite Hdir by done; by apply Hd|done|done|done].
    constructor; [|done|done]. rewrite Hf. eapply chain_frame; [|exact Hc].
    intros v Hv. rewrite <- (Z.add_0_r v) at 1 2. apply (ld32_same _ _ v 0); [apply Hm; set_solver|lia]. }
  split; [done|]. intros va. rewrite (lookup_table _ _ _ _ _ _ Hs'), (lookup_table _ _ _ _ _ _ Hs).
  destruct (tabs !! PDX va) eqn:Et; [|done]. apply tables_lookup in Et.
  apply ld32_same; [apply Hm; set_solver|apply PTX_range].
Qed.

(** * Pages in and out *)

Lemma space_kalloc s pgdir tabs own v l : space s pgdir tabs own (v :: l) ->
  exists s', kalloc s = Ok (v, s') /\ space s' pgdir tabs (v :: own) l /\ v <> 0 /\ k_mem s' = k_mem s.
Proof.
  intros Hs. destruct (kalloc_spec kend s _ (sp_kmem _ _ _ _ _ Hs)) as (s' & E & Hk & Hz & _ & _ & Hm & _).
  exists s'. split_and!; [done| |done|done]. destruct Hs as [_ Hd Ho Hn Hp].
  assert (tables tabs ++ own ++ v :: l ≡ₚ tables tabs ++ (v :: own) ++ l) as Hpe by solve_Permutation.
  constructor; [done|by rewrite Hm|done|by rewrite <- Hpe|by rewrite <- Hpe].
Qed.

Lemma space_kalloc_none s pgdir tabs own : space s pgdir tabs own [] -> kalloc s = Ok (0, s).
Proof. intros Hs. exact (kalloc_spec kend s _ (sp_kmem _ _ _ _ _ Hs)). Qed.

Lemma space_kfree s pgdir tabs own v free : space s pgdir tabs (v :: own) free ->
  exists s', kfree kend v s = Ok (tt, s') /\ space s' pgdir tabs own (v :: free) /\
    (forall va, lookup_pte (k_mem s') pgdir va = lookup_pte (k_mem s) pgdir va) /\
    (forall u, page_ok u -> u <> v -> same_page (k_mem s) (k_mem s') u).
Proof.
  intros Hs. assert (page_ok v) as Hv by (eapply space_page; [done|set_solver]).
  pose proof (sp_nodup _ _ _ _ _ Hs) as Hn.
  assert (v ∉ free /\ v ∉ pgdir :: tables tabs) as [Hvf Hvt].
  { assert (NoDup (v :: (pgdir :: tables tabs) ++ own ++ free)) as [Hni _]%NoDup_cons
      by (eapply NoDup_Permutation_proper; [|exact Hn]; cbn; solve_Permutation).
    set_solver. }
  destruct (kfree_spec kend v s free (sp_kmem _ _ _ _ _ Hs) Hv Hvf) as (s' & E & Hk & _ & Hm).
  exists s'. split; [done|].
  assert (forall u, page_ok u -> u <> v -> same_page (k_mem s) (k_mem s') u) as Hu.
  { intros u Hu Huv a Ha. apply Hm. destruct (pages_apart kend u v Hu Hv Huv); lia. }
  assert (forall u, u ∈ pgdir :: tables tabs -> same_page (k_mem s) (k_mem s') u) as Hut.
  { intros u Hin. apply Hu; [eapply space_page; [done|set_solver]|]. intros ->. by apply Hvt. }
  assert (space s' pgdir tabs own (v :: free)) as Hs'.
  { destruct Hs as [_ Hd Ho _ Hp].
    assert (tables tabs ++ (v :: own) ++ free ≡ₚ tables tabs ++ own ++ v :: free) as Hpe by solve_Permutation.
    constructor; [done| |done|by rewrite <- Hpe|by rewrite <- Hpe].
    intros i Hi. rewrite (ld32_same _ _ _ _ (Hut pgdir ltac:(left)) Hi). by apply Hd. }
  split_and!; [done| |done]. intros va.
  rewrite (lookup_table _ _ _ _ _ _ Hs'), (lookup_table _ _ _ _ _ _ Hs).
  destruct (tabs !! PDX va) eqn:Et; [|done]. apply tables_lookup in Et.
  apply ld32_same; [apply Hut; set_solver|apply PTX_range].
Qed.

(** A page in use changes. *)
Lemma space_own_mem s pgdir tabs own free v f : space s pgdir tabs own free -> v ∈ own ->
  (forall u, page_ok u -> u <> v -> same_page (k_mem s) (f (k_mem s)) u) ->
  let s' := mkk (f (k_mem s)) (k_use_lock s) (k_freelist s) in
  space s' pgdir tabs own free /\ forall va, lookup_pte (k_mem s') pgdir va = lookup_pte (k_mem s) pgdir va.
Proof.
  intros Hs Hv Hf. apply space_frame; [done|done|]. intros u Hu.
  assert (u ∈ pgdir :: tables tabs ++ own ++ free) as Hin by set_solver.
  apply Hf; [by eapply space_page|]. intros ->. clear Hin.
  apply list_elem_of_split in Hv as (o1 & o2 & ->).
  assert (NoDup (v :: (pgdir :: tables tabs ++ free) ++ o1 ++ o2)) as [Hni _]%NoDup_cons.
  { eapply NoDup_Permutation_proper; [|exact (sp_nodup _ _ _ _ _ Hs)]. cbn. solve_Permutation. }
  set_solver.
Qed.

Lemma memset_other m v u : page_ok u -> page_ok v -> u <> v -> same_page m (memset m v 0 PGSIZE) u.
Proof.
  intros Hu Hv Hne a Ha. rewrite memset_eq by done. rewrite mget_mwrite, length_replicate.
  destruct (pages_apart kend u v Hu Hv Hne); rewrite decide_False; unfold PGSIZE in *; try done; lia.
Qed.

Lemma memset_zero m v a : v <= a < v + PGSIZE -> mget (memset m v 0 PGSIZE) a = 0.
Proof.
  intros Ha. rewrite memset_eq by done. rewrite mget_mwrite, length_replicate, decide_True by (unfold PGSIZE in *; lia).
  apply lookup_total_replicate_2. unfold PGSIZE in *; lia.
Qed.

Lemma ld32_zero m v i : (forall a, v <= a < v + PGSIZE -> mget m a = 0) -> 0 <= i < 1024 -> ld32 m (v + 4 * i) = 0.
Proof.
  intros Hz Hi. unfold ld32, mread. cbn [seq fmap list_fmap]. rewrite !Hz by (unfold PGSIZE; lia). reflexivity.
Qed.

(** * Walking *)

Lemma walk_hit s pgdir tabs own free va alloc t : space s pgdir tabs own free -> tabs !! PDX va = Some t ->
  walkpgdir pgdir va alloc s = Ok (t + 4 * PTX va, s) /\ t + 4 * PTX va <> 0.
Proof.
  intros Hs Ht. pose proof (sp_dir _ _ _ _ _ Hs (PDX va) (PDX_range va)) as Hd. rewrite Ht in Hd.
  assert (page_ok t) as Hp by (eapply space_page; [done|]; apply tables_lookup in Ht; set_solver).
  destruct (entry_read kend t 7 Hp ltac:(lia)) as (_ & Ha & _ & _ & Hh).
  split; [|pose proof (PTX_range va); pose proof Hp as (_ & _ & ?); unfold KERNBASE in *; lia].
  unfold walkpgdir, bind, load, gets. rewrite Hd, Hh. change (has PTE_P 7) with true. cbn iota. by rewrite Ha.
Qed.

Lemma walk_miss s pgdir tabs own free va : space s pgdir tabs own free -> tabs !! PDX va = None ->
  walkpgdir pgdir va false s = Ok (0, s).
Proof.
  intros Hs Ht. pose proof (sp_dir _ _ _ _ _ Hs (PDX va) (PDX_range va)) as Hd. rewrite Ht in Hd.
  unfold walkpgdir, bind, load, gets. by rewrite Hd.
Qed.

(** No table and [alloc]. *)
Lemma walk_absent s pgdir tabs own free va : space s pgdir tabs own free -> tabs !! PDX va = None ->
  walkpgdir pgdir va true s =
  (let! pgtab := kalloc in
   if pgtab =? 0 then ret 0 else
   do! on_mem (fun m => memset m pgtab 0 PGSIZE) in
   do! store (pgdir + 4 * PDX va) (Z.lor (Z.lor (Z.lor (V2P pgtab) PTE_P) PTE_W) PTE_U) in
   ret (pgtab + 4 * PTX va)) s.
Proof.
  intros Hs Ht. pose proof (sp_dir _ _ _ _ _ Hs (PDX va) (PDX_range va)) as Hd. rewrite Ht in Hd.
  unfold walkpgdir at 1. unfold bind at 1. unfold load, gets. by rewrite Hd.
Qed.

Lemma walk_full s pgdir tabs own va : space s pgdir tabs own [] -> tabs !! PDX va = None ->
  walkpgdir pgdir va true s = Ok (0, s).
Proof.
  intros Hs Ht. rewrite (walk_absent _ _ _ _ _ _ Hs Ht). by mstep (space_kalloc_none _ _ _ _ Hs).
Qed.

(** Entering the zeroed page [v] as table [i]: no translation changes. *)
Lemma space_new_table s pgdir tabs own l v i : space s pgdir tabs (v :: own) l -> tabs !! i = None ->
  0 <= i < 1024 -> (forall a, v <= a < v + PGSIZE -> mget (k_mem s) a = 0) ->
  let s' := mkk (st32 (k_mem s) (pgdir + 4 * i) (V2P v + 7)) (k_use_lock s) (k_freelist s) in
  space s' pgdir (<[i := v]> tabs) own l /\
  (forall va, lookup_pte (k_mem s') pgdir va = lookup_pte (k_mem s) pgdir va) /\
  (forall u, page_ok u -> u <> pgdir -> same_page (k_mem s) (k_mem s') u).
Proof.
  intros Hs Ht Hi Hz s'. pose proof Hs as [[Hc Hcn Hcp] Hd Ho Hn Hp].
  assert (page_ok v) as Hv by (eapply space_page; [exact Hs|set_solver]).
  assert (page_ok pgdir) as Hg by (eapply space_page; [exact Hs|set_solver]).
  pose proof Hn as [Hng _]%NoDup_cons.
  assert (forall u j, page_ok u -> 0 <= j < 1024 -> u <> pgdir \/ j <> i ->
    ld32 (k_mem s') (u + 4 * j) = ld32 (k_mem s) (u + 4 * j)) as H3.
  { intros u j Hu Hj Hne. apply ld32_st32_other. destruct (words_apart kend u pgdir j i); auto. }
  assert (space s' pgdir (<[i := v]> tabs) own l) as Hs'.
  { assert (pgdir :: tables (<[i := v]> tabs) ++ own ++ l ≡ₚ pgdir :: tables tabs ++ (v :: own) ++ l) as Hpe
      by (rewrite (tables_insert _ _ _ Ht); solve_Permutation).
    constructor; [| | |by rewrite Hpe|by rewrite Hpe].
    - constructor; [|done|done]. eapply chain_frame; [|exact Hc]. intros u Hu. rewrite <- (Z.add_0_r u) at 1 2.
      apply (H3 u 0); [rewrite Forall_forall in Hcp; auto|lia|left; intros ->; set_solver].
    - intros j Hj. destruct (decide (j = i)) as [->|Hne].
      + rewrite lookup_insert_eq. apply ld32_st32_same. pose proof (entry_read kend v 7 Hv ltac:(lia)); lia.
      + rewrite lookup_insert_ne by done. rewrite H3 by auto. by apply Hd.
    - intros j t. destruct (decide (j = i)) as [->|Hne]; [done|]. rewrite lookup_insert_ne by done. apply Ho. }
  split_and!; [done| |].
  - intros va. rewrite (lookup_table _ _ _ _ _ _ Hs'), (lookup_table _ _ _ _ _ _ Hs).
    pose proof (PTX_range va). destruct (decide (PDX va = i)) as [->|Hne].
    + rewrite lookup_insert_eq, Ht, H3; [by apply ld32_zero|done|done|left; set_solver].
    + rewrite lookup_insert_ne by done. destruct (tabs !! PDX va) as [t|] eqn:Et; [|done].
      apply tables_lookup in Et. apply H3; [eapply space_page; [exact Hs|set_solver]|done|left; set_solver].
  - intros u Hu Hug a Ha. unfold s'; cbn [k_mem]. unfold st32. rewrite mget_mwrite, length_le_bytes, decide_False; [done|].
    destruct (pages_apart kend u pgdir Hu Hg Hug); unfold PGSIZE in *; lia.
Qed.

(** A new table: it is empty, so that no translation changes. *)
Lemma walk_alloc s pgdir tabs own v l va : space s pgdir tabs own (v :: l) -> tabs !! PDX va = None ->
  exists s', walkpgdir pgdir va true s = Ok (v + 4 * PTX va, s') /\ v + 4 * PTX va <> 0 /\
    space s' pgdir (<[PDX va := v]> tabs) own l /\
    (forall va', lookup_pte (k_mem s') pgdir va' = lookup_pte (k_mem s) pgdir va') /\
    (forall u, u ∈ own -> same_page (k_mem s) (k_mem s') u).
Proof.
  intros Hs Ht. rewrite (walk_absent _ _ _ _ _ _ Hs Ht).
  destruct (space_kalloc _ _ _ _ _ _ Hs) as (s1 & E1 & Hs1 & Hz & Hm1). mstep E1.
  assert (page_ok v) as Hv by (eapply space_own_page; [exact Hs1|left]).
  replace (v =? 0) with false by (symmetry; by apply Z.eqb_neq).
  rewrite (pde_value kend v Hv).
  destruct (space_own_mem s1 pgdir tabs (v :: own) l v (fun m => memset m v 0 PGSIZE) Hs1 ltac:(left)
    (fun u Hu Hne => memset_other _ _ _ Hu Hv Hne)) as [Hs2 Hl2].
  destruct (space_new_table _ _ _ _ _ _ (PDX va) Hs2 Ht (PDX_range va)) as (Hs3 & Hl3 & Hp3);
    [intros a Ha; by apply memset_zero|].
  eexists. split; [reflexivity|]. split_and!.
  - pose proof (PTX_range va). pose proof Hv as (_ & _ & ?). unfold KERNBASE in *; lia.
  - exact Hs3.
  - intros va'. rewrite <- Hm1, <- Hl2. apply Hl3.
  - intros u Hu. rewrite <- Hm1.
    assert (page_ok u) as Hpu by (eapply space_own_page; [exact Hs1|by right]).
    pose proof (space_dir_apart _ _ _ _ _ Hs1) as Hg. pose proof (space_own_apart _ _ _ [] _ _ _ Hs1) as Hva.
    eapply same_page_trans; [apply (memset_other _ v u); [done|done|]|apply Hp3; [done|]].
    + intros ->. apply Hva. cbn [app]. set_solver +Hu.
    + intros ->. apply Hg. set_solver +Hu.
Qed.

(** Both cases of a walk that may allocate. *)
Lemma walk_any s pgdir tabs own free va : space s pgdir tabs own free ->
  (walkpgdir pgdir va true s = Ok (0, s) /\ free = []) \/
  exists s' tabs' free' t, walkpgdir pgdir va true s = Ok (t + 4 * PTX va, s') /\ t + 4 * PTX va <> 0 /\
    space s' pgdir tabs' own free' /\ tabs' !! PDX va = Some t /\
    tables tabs' ++ free' ≡ₚ tables tabs ++ free /\
    (forall va', lookup_pte (k_mem s') pgdir va' = lookup_pte (k_mem s) pgdir va') /\
    (forall u, u ∈ own -> same_page (k_mem s) (k_mem s') u).
Proof.
  intros Hs. destruct (tabs !! PDX va) as [t|] eqn:Et.
  - right. destruct (walk_hit _ _ _ _ _ _ true _ Hs Et). exists s, tabs, free, t. split_and!; done.
  - destruct free as [|v l]; [left; split; [by eapply walk_full|done]|right].
    destruct (walk_alloc _ _ _ _ _ _ _ Hs Et) as (s' & E & Hnz & Hs' & Hl & Hp).
    exists s', (<[PDX va := v]> tabs), l, v. split_and!; try done; [by rewrite lookup_insert_eq|].
    rewrite (tables_insert _ _ _ Et). solve_Permutation.
Qed.

(** Writing the entry of [va]. *)
Lemma space_set_pte s pgdir tabs own free va t e : space s pgdir tabs own free -> tabs !! PDX va = Some t ->
  0 <= e < 4294967296 ->
  let s' := mkk (st32 (k_mem s) (t + 4 * PTX va) e) (k_use_lock s) (k_freelist s) in
  space s' pgdir tabs own free /\
  (forall va', lookup_pte (k_mem s') pgdir va' =
     if decide (PDX va' = PDX va /\ PTX va' = PTX va) then e else lookup_pte (k_mem s) pgdir va') /\
  (forall u, page_ok u -> u <> t -> same_page (k_mem s) (k_mem s') u).
Proof.
  intros Hs Ht He s'. pose proof (tables_lookup _ _ _ Ht) as Hin. pose proof (PTX_range va) as Hx.
  assert (page_ok t) as Hpt by by eapply space_tab_page.
  assert (forall u, page_ok u -> u <> t -> same_page (k_mem s) (k_mem s') u) as Hsame.
  { intros u Hu Hne a Ha. unfold s'; cbn [k_mem]. unfold st32. rewrite mget_mwrite, length_le_bytes, decide_False; [done|].
    destruct (pages_apart kend u t Hu Hpt Hne); unfold PGSIZE in *; lia. }
  pose proof Hs as [[Hc Hcn Hcp] Hd Ho Hn Hp]. pose proof Hn as [Hng Hn']%NoDup_cons.
  assert (pgdir <> t) as Hgt by set_solver +Hng Hin.
  assert (space s' pgdir tabs own free) as Hs'.
  { constructor; [| |done|done|done].
    - constructor; [|done|done]. eapply chain_frame; [|exact Hc]. intros u Hu. rewrite <- (Z.add_0_r u) at 1 2.
      apply (ld32_same _ _ u 0); [|lia]. apply Hsame; [rewrite Forall_forall in Hcp; auto|].
      intros ->. apply NoDup_app in Hn' as (_ & Hdj & _). apply (Hdj t); [done|set_solver +Hu].
    - intros i Hi. rewrite (ld32_same (k_mem s)); [by apply Hd| |done].
      apply Hsame; [by eapply space_dir_page|done]. }
  split_and!; [done| |done]. intros va'.
  rewrite (lookup_table _ _ _ _ _ _ Hs'), (lookup_table _ _ _ _ _ _ Hs). pose proof (PTX_range va').
  apply NoDup_app in Hn' as (Hnt & _ & _).
  destruct (decide _) as [[-> ->]|Hne]; [rewrite Ht; by apply ld32_st32_same|].
  destruct (tabs !! PDX va') as [t'|] eqn:Et'; [|done]. apply ld32_st32_other.
  apply (words_apart kend); [|done|done|done|].
  - by eapply space_tab_page.
  - destruct (decide (t' = t)) as [->|]; [right|by left]. intros E. apply Hne. split; [|done].
    by eapply tables_inj.
Qed.

(** * Mapping *)

Lemma same_entry va va' : 0 <= va < 4294967296 -> 0 <= va' < 4294967296 ->
  (PDX va' = PDX va /\ PTX va' = PTX va <-> va' / 4096 = va / 4096).
Proof. intros H1 H2. rewrite !PDX_div, !PTX_div by done. divmod. Qed.

Lemma lor_P f : 0 <= f < 4096 -> 0 <= Z.lor f PTE_P < 4096 /\ has PTE_P (Z.lor f PTE_P) = true.
Proof.
  intros Hf. unfold PTE_P. split; [split|].
  - apply Z.lor_nonneg; lia.
  - destruct (decide (Z.lor f 1 = 0)) as [->|]; [lia|].
    assert (0 <= Z.lor f 1) by (apply Z.lor_nonneg; lia).
    apply (Z.log2_lt_cancel _ 4096). rewrite Z.log2_lor by lia. change (Z.log2 4096) with 12. change (Z.log2 1) with 0.
    destruct (decide (f = 0)) as [->|]; [done|]. apply Z.max_lub_lt; [|lia]. apply Z.log2_lt_pow2; simpl; lia.
  - unfold has. rewrite Z.land_lor_distr_l, Z.land_diag.
    destruct (Z.eqb_spec (Z.lor (Z.land f 1) 1) 0) as [E|]; [|done]. apply Z.lor_eq_0_iff in E as [_ ?]. lia.
Qed.

Lemma pte_value pa f : pa mod 4096 = 0 -> 0 <= f < 4096 -> Z.lor (Z.lor pa f) PTE_P = pa + Z.lor f PTE_P.
Proof. intros Ha Hf. rewrite <- Z.lor_assoc. apply lor_flags; [done|]. by apply lor_P. Qed.

(** What [k] pages from [a] on, mapped to [pa] with flags [f], make of the entries. *)
Definition map_range (m m' : mem) (pgdir a pa f k : Z) : Prop := forall va, 0 <= va < 4294967296 ->
  lookup_pte m' pgdir va =
  if decide (0 <= va / 4096 - a / 4096 < k) then pa + 4096 * (va / 4096 - a / 4096) + f
  else lookup_pte m pgdir va.

Lemma map_range_trans m m' m'' pgdir a pa f k : a mod 4096 = 0 -> 0 <= k ->
  map_range m m' pgdir a pa f 1 -> map_range m' m'' pgdir (a + 4096) (pa + 4096) f k ->
  map_range m m'' pgdir a pa f (k + 1).
Proof.
  intros Ha Hk H1 H2 va Hva. rewrite H2, H1 by done.
  assert ((a + 4096) / 4096 = a / 4096 + 1) as -> by divmod.
  destruct (decide (0 <= va / 4096 - (a / 4096 + 1) < k)), (decide (0 <= va / 4096 - a / 4096 < 1)),
    (decide (0 <= va / 4096 - a / 4096 < k + 1)); try lia.
Qed.

(** One round of the loop of [mappages]. *)
Lemma map_step s pgdir tabs own free a pa perm : space s pgdir tabs own free ->
  0 <= a < 4294967296 -> pa mod 4096 = 0 -> 0 <= pa -> pa + 4096 <= 4294967296 -> 0 <= perm < 4096 ->
  has PTE_P (lookup_pte (k_mem s) pgdir a) = false ->
  (walkpgdir pgdir a true s = Ok (0, s) /\ free = []) \/
  exists s' tabs' free',
    (forall (k : M kstate Z),
       (let! pte := walkpgdir pgdir a true in
        if pte =? 0 then ret (-1) else
        let! e := load pte in
        if has PTE_P e then panic "remap" else
        do! store pte (Z.lor (Z.lor pa perm) PTE_P) in k) s = k s') /\
    space s' pgdir tabs' own free' /\ tables tabs' ++ free' ≡ₚ tables tabs ++ free /\
    map_range (k_mem s) (k_mem s') pgdir a pa (Z.lor perm PTE_P) 1 /\
    (forall u, u ∈ own -> same_page (k_mem s) (k_mem s') u).
Proof.
  intros Hs Ha Hpa Hpa0 Hpa1 Hperm Hnp.
  destruct (walk_any _ _ _ _ _ a Hs) as [[E1 ->]|(s1 & tabs1 & free1 & t & E1 & Hnz & Hs1 & Ht & Hpe1 & Hl1 & Hu1)];
    [by left|right].
  destruct (lor_P perm Hperm) as [Hf Hfp].
  destruct (space_set_pte _ _ _ _ _ a t (pa + Z.lor perm PTE_P) Hs1 Ht ltac:(divmod)) as (Hs2 & Hl2 & Hu2).
  eexists _, tabs1, free1. split_and!; [|exact Hs2|done| |].
  - intros k. mstep E1. replace (_ =? 0) with false by (symmetry; by apply Z.eqb_neq).
    pose proof (Hl1 a) as Hla. rewrite (lookup_table _ _ _ _ _ _ Hs1), Ht in Hla.
    unfold bind, load, store, gets, modify. rewrite Hla, Hnp, (pte_value pa perm Hpa Hperm). reflexivity.
  - intros va Hva. rewrite Hl2, Hl1. pose proof (same_entry a va Ha Hva).
    destruct (decide (_ /\ _)), (decide (0 <= _ < 1)); try done; [|lia..].
    assert (va / 4096 - a / 4096 = 0) as -> by lia. lia.
  - intros u Hu. eapply same_page_trans; [by apply Hu1|]. apply Hu2; [by eapply space_own_page|].
    apply list_elem_of_split in Hu as (o1 & o2 & ->). pose proof (space_own_apart _ _ _ _ _ _ _ Hs1) as Hap.
    intros ->. apply tables_lookup in Ht. set_solver +Hap Ht.
Qed.

Lemma mappages_loop_spec n : forall fuel s pgdir tabs own free a pa perm,
  (n < fuel)%nat -> space s pgdir tabs own free ->
  a mod 4096 = 0 -> 0 <= a -> a + 4096 * (Z.of_nat n + 1) <= 4294967296 ->
  pa mod 4096 = 0 -> 0 <= pa -> pa + 4096 * (Z.of_nat n + 1) <= 4294967296 -> 0 <= perm < 4096 ->
  (forall j, 0 <= j <= Z.of_nat n -> has PTE_P (lookup_pte (k_mem s) pgdir (a + 4096 * j)) = false) ->
  exists r k s' tabs' free',
    mappages_loop fuel pgdir a (a + 4096 * Z.of_nat n) pa perm s = Ok (r, s') /\
    (r = 0 /\ k = Z.of_nat n + 1 \/ r = -1 /\ 0 <= k <= Z.of_nat n /\ free' = []) /\
    space s' pgdir tabs' own free' /\ tables tabs' ++ free' ≡ₚ tables tabs ++ free /\
    map_range (k_mem s) (k_mem s') pgdir a pa (Z.lor perm PTE_P) k /\
    (forall u, u ∈ own -> same_page (k_mem s) (k_mem s') u).
Proof.
  induction n as [|n IH]; intros [|fuel] s pgdir tabs own free a pa perm Hfu Hs Ha Ha0 Ha1 Hpa Hpa0 Hpa1 Hperm Hnp;
    try lia; cbn [mappages_loop].
  all: pose proof (Hnp 0 ltac:(lia)) as Hnp0; rewrite Z.mul_0_r, Z.add_0_r in Hnp0.
  all: destruct (map_step _ _ _ _ _ a pa perm Hs ltac:(lia) Hpa Hpa0 ltac:(lia) Hperm Hnp0) as
      [[E1 ->]|(s1 & tabs1 & free1 & E1 & Hs1 & Hpe1 & Hm1 & Hu1)].
  1, 3: exists (-1), 0, s, tabs, []; mstep E1; split_and!; try done;
      [right; split_and!; (lia || done)|intros va Hva; by rewrite decide_False by lia].
  - exists 0, 1, s1, tabs1, free1. rewrite E1, Z.mul_0_r, Z.add_0_r, Z.eqb_refl. split_and!; try done. left; lia.
  - rewrite E1. replace (a =? a + 4096 * Z.of_nat (S n)) with false by (symmetry; apply Z.eqb_neq; lia). unfold PGSIZE.
    assert (0 <= a + 4096 < 4294967296) as Hb1 by lia. assert (0 <= pa + 4096 < 4294967296) as Hb2 by lia.
    rewrite (u32_small _ Hb1), (u32_small _ Hb2).
    replace (a + 4096 * Z.of_nat (S n)) with (a + 4096 + 4096 * Z.of_nat n) by lia.
    destruct (IH fuel s1 pgdir tabs1 own free1 (a + 4096) (pa + 4096) perm) as
      (r & k & s2 & tabs2 & free2 & E2 & Hrk & Hs2 & Hpe2 & Hm2 & Hu2); try lia; [done|divmod|divmod| |].
    + intros j Hj. rewrite Hm1 by lia. rewrite decide_False by divmod.
      replace (a + 4096 + 4096 * j) with (a + 4096 * (j + 1)) by lia. apply Hnp; lia.
    + exists r, (k + 1), s2, tabs2, free2. split_and!; [done| |done|by rewrite Hpe2, Hpe1| |].
      * destruct Hrk as [?|(? & ? & ?)]; [left; lia|right; split_and!; (lia || done)].
      * apply (map_range_trans _ (k_mem s1)); [done|lia|done|done].
      * intros u Hu. eapply same_page_trans; eauto.
Qed.
End Space.

Arguments space_page {kend}.
Arguments space_tables {kend}.
Arguments space_dir_page {kend}.
Arguments space_tab_page {kend}.
Arguments space_own_page {kend}.
Arguments space_own_apart {kend}.
Arguments space_dir_apart {kend}.
Arguments space_perm {kend}.
Arguments lookup_table {kend}.
Arguments space_frame {kend}.
Arguments space_kalloc {kend}.
Arguments space_kalloc_none {kend}.
Arguments space_kfree {kend}.
Arguments space_own_mem {kend}.
Arguments walk_hit {kend}.
Arguments walk_miss {kend}.
Arguments space_set_pte {kend}.
Arguments map_step {kend}.
Arguments mappages_loop_spec {kend}.
