(* ===== verification/VmUser.v ===== *)
(** User memory: growing, shrinking, copying and freeing address spaces, with an
    account of every page. *)

From S2P Require Import Prelude Mem Kalloc Vm VmSpace.
Local Open Scope Z_scope.

Section User.
  Context (kend data : Z).
Abbreviation page_ok := (page_ok kend).
Abbreviation space := (space kend).

(** * User memory

    [um] gives the page of each user page number. *)

Abbreviation pages := tables.

Record user (m : mem) (pgdir : Z) (um : gmap Z Z) : Prop := {
  us_dom : forall p u, um !! p = Some u -> 0 <= p < 524288;
  us_map : forall p, 0 <= p < 524288 ->
    match um !! p with
    | Some u => exists f, 0 <= f < 4096 /\ has PTE_P f = true /\ lookup_pte m pgdir (4096 * p) = V2P u + f
    | None => has PTE_P (lookup_pte m pgdir (4096 * p)) = false
    end
}.

Definition uspace (s : kstate) (pgdir : Z) (tabs um : gmap Z Z) (rest free : list Z) : Prop :=
  space s pgdir tabs (pages um ++ rest) free /\ user (k_mem s) pgdir um.

Hypothesis kend_high : KERNBASE < kend.

(** The pages that [deallocuvm] leaves. *)
Definition keep (lo hi : Z) (um : gmap Z Z) : gmap Z Z := filter (fun x => ~ (lo <= x.1 < hi)) um.

Lemma keep_lookup lo hi um p : keep lo hi um !! p = if decide (lo <= p < hi) then None else um !! p.
Proof.
  unfold keep. destruct (decide (lo <= p < hi)) as [H|H].
  - apply map_lookup_filter_None. right. intros x _ Hx. by apply Hx.
  - destruct (um !! p) eqn:E; [by apply map_lookup_filter_Some|]. apply map_lookup_filter_None. by left.
Qed.

Lemma keep_skip lo lo' hi um : (forall p, lo <= p < lo' -> um !! p = None) -> lo <= lo' -> keep lo' hi um = keep lo hi um.
Proof.
  intros Hn Hle. apply map_eq. intros p. rewrite !keep_lookup.
  destruct (decide (lo' <= p < hi)), (decide (lo <= p < hi)); try done; [lia|]. apply Hn. lia.
Qed.

Lemma keep_delete lo hi um : lo < hi -> keep (lo + 1) hi (delete lo um) = keep lo hi um.
Proof.
  intros Hlt. apply map_eq. intros p. rewrite !keep_lookup.
  destruct (decide (p = lo)) as [->|Hne]; [rewrite lookup_delete_eq|rewrite lookup_delete_ne by done];
    destruct (decide (_ <= _ < _)), (decide (_ <= _ < _)); try done; lia.
Qed.

Lemma pages_delete um p u : um !! p = Some u -> u :: pages (delete p um) ≡ₚ pages um.
Proof. intros Hp. unfold tables. rewrite <- (map_to_list_delete um p u Hp). done. Qed.

Lemma user_range va : 0 <= va < 2147483648 -> 0 <= va < 4294967296.
Proof. lia. Qed.

(** Freeing one page. *)
Lemma free_page s pgdir tabs um rest free p u t : uspace s pgdir tabs um rest free -> um !! p = Some u ->
  tabs !! PDX (4096 * p) = Some t ->
  exists s', (let! e := load (t + 4 * PTX (4096 * p)) in
              when (has PTE_P e)
                (let pa := PTE_ADDR e in
                 if pa =? 0 then panic "kfree" else
                 do! kfree kend (P2V pa) in
                 store (t + 4 * PTX (4096 * p)) 0)) s = Ok (tt, s') /\
    uspace s' pgdir tabs (delete p um) rest (u :: free) /\
    (forall va, 0 <= va < 4294967296 -> va / 4096 <> p -> lookup_pte (k_mem s') pgdir va = lookup_pte (k_mem s) pgdir va) /\
    (forall v, v ∈ pages (delete p um) ++ rest -> same_page (k_mem s) (k_mem s') v).
Proof.
  intros [Hs [Hdom Hmap]] Hp Ht. pose proof (Hdom _ _ Hp) as Hr. pose proof (Hmap p Hr) as Hm. rewrite Hp in Hm.
  destruct Hm as (f & Hf & Hfp & Hl). pose proof (pages_delete _ _ _ Hp) as Hpd.
  assert (space s pgdir tabs (u :: pages (delete p um) ++ rest) free) as Hs1
    by (eapply space_perm; [|exact Hs]; by rewrite <- Hpd).
  assert (page_ok u) as Hu by (eapply space_own_page; [exact Hs1|left]).
  destruct (entry_read kend u f Hu Hf) as (_ & Ha & _ & Ha' & Hh).
  destruct (space_kfree _ _ _ _ _ _ Hs1) as (s2 & E2 & Hs2 & Hl2 & Hu2).
  destruct (space_set_pte _ _ _ _ _ (4096 * p) t 0 Hs2 Ht ltac:(lia)) as (Hs3 & Hl3 & Hu3).
  eexists. split; [|split_and!; [split; [exact Hs3|]| |]].
  - rewrite (lookup_table _ _ _ _ _ _ Hs), Ht in Hl. unfold bind at 1, load, gets, when.
    rewrite Ha' in Ha. rewrite Hl, Hh, Hfp, Ha'. cbv zeta. rewrite Ha.
    replace (V2P u =? 0) with false.
    2: { symmetry. apply Z.eqb_neq. destruct (V2P_page _ _ Hu) as (-> & _). destruct Hu as (_ & ? & _). lia. }
    mstep E2. reflexivity.
  - constructor.
    + intros q v. destruct (decide (q = p)) as [->|]; [by rewrite lookup_delete_eq|].
      rewrite lookup_delete_ne by done. apply Hdom.
    + intros q Hq. rewrite Hl3, Hl2. pose proof (same_entry (4096 * p) (4096 * q) ltac:(lia) ltac:(lia)) as Hse.
      destruct (decide (_ /\ _)) as [Heq|Hne].
      * assert (q = p) as -> by (apply Hse in Heq; divmod). by rewrite lookup_delete_eq.
      * rewrite lookup_delete_ne; [by apply Hmap|]. intros <-. by apply Hne.
  - intros va Hva Hne. rewrite Hl3, Hl2, decide_False; [done|].
    intros Heq. apply (same_entry (4096 * p) va) in Heq; [divmod|lia|done].
  - intros v Hv. pose proof (space_own_apart _ _ _ [] _ _ _ Hs1) as Hap.
    assert (page_ok v) as Hpv by (eapply space_own_page; [exact Hs1|by right]).
    eapply same_page_trans; [apply Hu2; [done|]|apply Hu3; [done|]].
    + intros ->. apply Hap. cbn [app]. set_solver +Hv.
    + intros ->. apply tables_lookup in Ht.
      apply list_elem_of_split in Hv as (o1 & o2 & Ho). rewrite Ho in Hs2.
      pose proof (space_own_apart _ _ _ _ _ _ _ Hs2) as Hap2. set_solver +Hap2 Ht.
Qed.

Lemma keep_subset lo hi um v : v ∈ pages (keep lo hi um) -> v ∈ pages um.
Proof.
  unfold tables. rewrite !list_elem_of_fmap. intros ([p u] & -> & Hin). exists (p, u). split; [done|].
  apply elem_of_map_to_list in Hin. apply elem_of_map_to_list. rewrite keep_lookup in Hin. by destruct (decide _).
Qed.

(** Where there is no table, [deallocuvm] goes to the next directory entry. *)
Lemma next_entry p : 0 <= p < 524288 -> let q := (PDX (4096 * p) + 1) * 1024 in
  p < q /\ u32 (u32 (PGADDR (PDX (4096 * p) + 1) 0 0 - PGSIZE) + PGSIZE) = 4096 * q /\
  forall j, p <= j < q -> PDX (4096 * j) = PDX (4096 * p).
Proof.
  intros Hp q. split_and!.
  - unfold q; rewrite PDX_div by lia; divmod.
  - unfold PGADDR, PDXSHIFT, PTXSHIFT. rewrite Z.shiftl_0_l, !Z.lor_0_r, Z.shiftl_mul_pow2 by lia.
    change (2 ^ 22) with 4194304. unfold q, PGSIZE. rewrite PDX_div by lia. ints.
  - intros j Hj. unfold q in Hj. rewrite PDX_div in Hj by lia. rewrite !PDX_div by divmod. divmod.
Qed.

Lemma no_table s pgdir tabs um rest free p j : uspace s pgdir tabs um rest free ->
  tabs !! PDX (4096 * p) = None -> PDX (4096 * j) = PDX (4096 * p) -> um !! j = None.
Proof.
  intros [Hs [Hdom Hmap]] Et Ex. destruct (um !! j) as [u|] eqn:Ej; [|done]. pose proof (Hdom _ _ Ej) as Hjr.
  pose proof (Hmap j Hjr) as Hm. rewrite Ej, (lookup_table _ _ _ _ _ _ Hs) in Hm.
  rewrite Ex, Et in Hm. destruct Hm as (f & Hf & Hfp & Hz). exfalso.
  assert (u ∈ pages um) as Hin by by eapply tables_lookup.
  assert (page_ok u) as Hpu by (eapply space_own_page; [exact Hs|set_solver +Hin]).
  destruct (V2P_page _ _ Hpu) as (HV & _). destruct Hpu as (_ & ? & _). lia.
Qed.

(** The loop of [deallocuvm] from page [p] on. *)
Lemma dealloc_loop_spec fuel : forall s pgdir tabs um rest free p oldsz hi,
  uspace s pgdir tabs um rest free -> 0 <= p -> oldsz <= KERNBASE ->
  hi = (oldsz + 4095) / 4096 -> (Z.to_nat (hi - p) <= fuel)%nat ->
  exists s' free', deallocuvm_loop kend fuel pgdir (4096 * p) oldsz s = Ok (tt, s') /\
    uspace s' pgdir tabs (keep p hi um) rest free' /\
    pages (keep p hi um) ++ free' ≡ₚ pages um ++ free /\
    (forall va, 0 <= va < 4294967296 -> ~ (p <= va / 4096 < hi) ->
       lookup_pte (k_mem s') pgdir va = lookup_pte (k_mem s) pgdir va) /\
    (forall v, v ∈ pages (keep p hi um) ++ rest -> same_page (k_mem s) (k_mem s') v).
Proof.
  unfold KERNBASE. induction fuel as [|fuel IH]; intros s pgdir tabs um rest free p oldsz hi Hu Hp0 Hsz Hhi Hfu;
    cbn [deallocuvm_loop].
  all: destruct (4096 * p <? oldsz) eqn:Elt;
    [|exists s, free; assert (keep p hi um = um) as -> by
        (apply map_eq; intros q; rewrite keep_lookup; destruct (decide _); [exfalso; subst hi; divmod|done]);
      split_and!; done].
  1: exfalso; subst hi; divmod.
  assert (p < hi) as Hlt by (subst hi; divmod). assert (0 <= 4096 * p < 4294967296) as Hva by lia.
  pose proof Hu as [Hs [Hdom Hmap]]. destruct (tabs !! PDX (4096 * p)) as [t|] eqn:Et.
  - destruct (walk_hit _ _ _ _ _ _ false _ Hs Et) as [E1 Hnz]. mstep E1.
    replace (_ =? 0) with false by (symmetry; by apply Z.eqb_neq).
    assert (u32 (4096 * p + PGSIZE) = 4096 * (p + 1)) as -> by (unfold PGSIZE; rewrite u32_small; lia).
    rewrite <- bind_assoc. destruct (um !! p) as [u|] eqn:Eu.
    + destruct (free_page _ _ _ _ _ _ _ _ _ Hu Eu Et) as (s1 & E2 & Hu1 & Hl1 & Hp1). mstep E2.
      destruct (IH s1 pgdir tabs _ rest (u :: free) (p + 1) oldsz hi Hu1 ltac:(lia) Hsz Hhi ltac:(lia))
        as (s2 & free2 & E3 & Hu2 & Hpe2 & Hl2 & Hp2).
      rewrite keep_delete in Hu2, Hpe2, Hp2 by done.
      exists s2, free2. split_and!; [done|done| | |].
      * rewrite Hpe2, <- (pages_delete _ _ _ Eu). solve_Permutation.
      * intros va Hva' Hout. rewrite Hl2, Hl1; [done|done| |done|]; lia.
      * intros v Hv. eapply same_page_trans; [apply Hp1|by apply Hp2].
        apply elem_of_app in Hv as [Hv|Hv]; [|set_solver +Hv].
        apply elem_of_app; left. eapply (keep_subset (p + 1) hi). by rewrite keep_delete.
    + pose proof (Hmap p ltac:(lia)) as Hm. rewrite Eu in Hm.
      rewrite (lookup_table _ _ _ _ _ _ Hs), Et in Hm.
      assert ((let! e := load (t + 4 * PTX (4096 * p)) in
               when (has PTE_P e)
                 (let pa := PTE_ADDR e in
                  if pa =? 0 then panic "kfree" else
                  do! kfree kend (P2V pa) in
                  store (t + 4 * PTX (4096 * p)) 0)) s = Ok (tt, s)) as E2
        by (unfold bind, load, gets; by rewrite Hm).
      mstep E2.
      destruct (IH s pgdir tabs um rest free (p + 1) oldsz hi Hu ltac:(lia) Hsz Hhi ltac:(lia))
        as (s2 & free2 & E3 & Hu2 & Hpe2 & Hl2 & Hp2).
      assert (keep (p + 1) hi um = keep p hi um) as Ek
        by (apply keep_skip; [intros q Hq; by replace q with p by lia|lia]).
      rewrite Ek in Hu2, Hpe2, Hp2. exists s2, free2. split_and!; [done|done|done| |done].
      intros va Hva' Hout. apply Hl2; [done|lia].
  - mstep (walk_miss _ _ _ _ _ _ Hs Et). rewrite Z.eqb_refl.
    destruct (next_entry p ltac:(lia)) as (Hpq & -> & Hsame). set (q := (PDX (4096 * p) + 1) * 1024) in *.
    assert (forall j, p <= j < q -> um !! j = None) as Hnone
      by (intros j Hj; eapply no_table; [exact Hu|exact Et|by apply Hsame]).
    destruct (IH s pgdir tabs um rest free q oldsz hi Hu ltac:(lia) Hsz Hhi ltac:(lia))
        as (s2 & free2 & E3 & Hu2 & Hpe2 & Hl2 & Hp2).
    rewrite (keep_skip p q hi um Hnone ltac:(lia)) in Hu2, Hpe2, Hp2.
    exists s2, free2. split_and!; [done|done|done| |done].
    intros va Hva' Hout. apply Hl2; [done|lia].
Qed.

Lemma PGROUNDUP_page sz : 0 <= sz <= KERNBASE -> PGROUNDUP sz = 4096 * ((sz + 4095) / 4096).
Proof. intros H. rewrite PGROUNDUP_eq by done. lia. Qed.

(** [deallocuvm] removes the pages between the two sizes and frees them. *)
Lemma deallocuvm_spec s pgdir tabs um rest free oldsz newsz : uspace s pgdir tabs um rest free ->
  0 <= newsz < oldsz -> oldsz <= KERNBASE ->
  let um' := keep ((newsz + 4095) / 4096) ((oldsz + 4095) / 4096) um in
  exists s' free', deallocuvm kend pgdir oldsz newsz s = Ok (newsz, s') /\
    uspace s' pgdir tabs um' rest free' /\ pages um' ++ free' ≡ₚ pages um ++ free /\
    (forall va, 0 <= va < 4294967296 -> ~ ((newsz + 4095) / 4096 <= va / 4096 < (oldsz + 4095) / 4096) ->
       lookup_pte (k_mem s') pgdir va = lookup_pte (k_mem s) pgdir va) /\
    (forall v, v ∈ pages um' ++ rest -> same_page (k_mem s) (k_mem s') v).
Proof.
  intros Hu Hn Ho um'. unfold deallocuvm. replace (newsz >=? oldsz) with false by lia.
  rewrite PGROUNDUP_page by lia.
  destruct (dealloc_loop_spec (Z.to_nat (oldsz / PGSIZE + 1)) s pgdir tabs um rest free
    ((newsz + 4095) / 4096) oldsz _ Hu ltac:(divmod) Ho eq_refl) as (s' & free' & E & H);
    [unfold PGSIZE; divmod|].
  exists s', free'. split; [|exact H]. by mstep E.
Qed.

(** ** Tearing an address space down *)

(** The directory entries from [k] on still point to the tables [tabs]. *)
Record teardown (s : kstate) (pgdir : Z) (tabs : gmap Z Z) (rest free : list Z) (k : Z) : Prop := {
  td_kmem : kmem_ok kend s free;
  td_dir : forall i, k <= i < 1024 ->
    match tabs !! i with
    | Some t => ld32 (k_mem s) (pgdir + 4 * i) = V2P t + 7
    | None => has PTE_P (ld32 (k_mem s) (pgdir + 4 * i)) = false
    end;
  td_dom : forall i t, tabs !! i = Some t -> k <= i < 1024;
  td_nodup : NoDup (pgdir :: tables tabs ++ rest ++ free);
  td_pages : Forall page_ok (pgdir :: tables tabs ++ rest ++ free)
}.

Lemma freevm_loop_spec fuel : forall s pgdir tabs rest free k, teardown s pgdir tabs rest free k ->
  0 <= k -> Z.of_nat fuel = 1024 - k ->
  exists s' free', freevm_loop kend fuel pgdir k s = Ok (tt, s') /\
    teardown s' pgdir ∅ rest free' 1024 /\ free' ≡ₚ tables tabs ++ free /\
    (forall v, v ∈ rest -> same_page (k_mem s) (k_mem s') v).
Proof.
  induction fuel as [|fuel IH]; intros s pgdir tabs rest free k Ht Hk Hf; cbn [freevm_loop].
  { assert (tabs = ∅) as ->.
    { apply map_empty. intros i. destruct (tabs !! i) eqn:E; [|done]. apply (td_dom _ _ _ _ _ _ Ht) in E. lia. }
    exists s, free. split_and!; [done| |done|done]. by replace 1024 with k by lia. }
  unfold bind at 1, load, gets. pose proof (td_dir _ _ _ _ _ _ Ht k ltac:(lia)) as Hd.
  destruct (tabs !! k) as [t|] eqn:Ek.
  - pose proof (pages_delete _ _ _ Ek) as Hpd. destruct Ht as [Hkm Hdir Hdom Hn Hp].
    assert (pgdir :: tables tabs ++ rest ++ free ≡ₚ t :: pgdir :: tables (delete k tabs) ++ rest ++ free) as Hpe
      by (rewrite <- Hpd; solve_Permutation).
    rewrite Hpe in Hn, Hp. apply Forall_cons in Hp as [Hpt Hp]. pose proof Hn as [Hni Hn']%NoDup_cons.
    destruct (entry_read kend t 7 Hpt ltac:(lia)) as (_ & Ha & _ & _ & Hh).
    destruct (kfree_spec kend t s free Hkm Hpt ltac:(set_solver +Hni)) as (s1 & E1 & Hk1 & _ & Hm1).
    rewrite Hd, Hh, Ha. change (has PTE_P 7) with true. unfold when. mstep E1.
    assert (forall v, page_ok v -> v <> t -> same_page (k_mem s) (k_mem s1) v) as Hsame.
    { intros v Hv Hne a Ha'. apply Hm1. destruct (pages_apart kend v t Hv Hpt Hne); lia. }
    assert (tables (delete k tabs) ++ rest ++ t :: free ≡ₚ t :: tables (delete k tabs) ++ rest ++ free) as Hpe2
      by solve_Permutation.
    rewrite Forall_forall in Hp.
    destruct (IH s1 pgdir (delete k tabs) rest (t :: free) (k + 1)) as (s2 & free2 & E2 & Ht2 & Hf2 & Hr2); [|lia|lia|].
    + constructor; [done| | | |].
      * intros i Hi. rewrite lookup_delete_ne by lia. rewrite (ld32_same (k_mem s)); [apply Hdir; lia| |lia].
        apply Hsame; [apply Hp; left|]. intros ->. apply Hni. left.
      * intros i u. destruct (decide (i = k)) as [->|]; [by rewrite lookup_delete_eq|].
        rewrite lookup_delete_ne by done. intros Hu%Hdom. lia.
      * rewrite Hpe2. eapply NoDup_Permutation_proper; [|exact Hn]. solve_Permutation.
      * rewrite Hpe2. apply Forall_cons; split; [apply Hp; left|]. apply Forall_cons; split; [done|].
        apply Forall_forall. intros u Hu. apply Hp. by right.
    + exists s2, free2. split_and!; [done|done|rewrite Hf2, <- Hpd; solve_Permutation|].
      intros v Hv. eapply same_page_trans; [apply Hsame|by apply Hr2].
      * apply Hp. set_solver +Hv.
      * intros ->. apply Hni. set_solver +Hv.
  - rewrite Hd. unfold when. unfold bind at 1, ret.
    destruct (IH s pgdir tabs rest free (k + 1)) as (s2 & free2 & E2 & H2); [|lia|lia|by exists s2, free2].
    destruct Ht as [Hkm Hdir Hdom Hn Hp]. constructor; [done|intros i Hi; apply Hdir; lia| |done|done].
    intros i t Hi. pose proof (Hdom _ _ Hi). destruct (decide (i = k)) as [->|]; [congruence|lia].
Qed.

Lemma keep_all um m pgdir : user m pgdir um -> keep 0 524288 um = ∅.
Proof.
  intros [Hdom _]. apply map_empty. intros p. rewrite keep_lookup. destruct (decide _) as [|Hn]; [done|].
  destruct (um !! p) eqn:E; [|done]. by apply Hdom in E.
Qed.

(** [freevm] gives back the directory, the tables and the user pages. *)
Lemma freevm_spec s pgdir tabs um rest free : uspace s pgdir tabs um rest free ->
  exists s' free', freevm kend pgdir s = Ok (tt, s') /\ kmem_ok kend s' free' /\
    free' ≡ₚ pgdir :: tables tabs ++ pages um ++ free /\
    (forall v, v ∈ rest -> same_page (k_mem s) (k_mem s') v).
Proof.
  intros Hu. unfold freevm.
  assert (page_ok pgdir) as Hpg by (destruct Hu as [Hs _]; by eapply space_dir_page).
  replace (pgdir =? 0) with false by (symmetry; apply Z.eqb_neq; by apply (page_nonzero kend)).
  destruct (deallocuvm_spec _ _ _ _ _ _ KERNBASE 0 Hu) as (s1 & free1 & E1 & [Hs1 _] & Hpe1 & _ & Hr1);
    [unfold KERNBASE; lia|lia|]. mstep E1.
  change (keep ((0 + 4095) / 4096) ((KERNBASE + 4095) / 4096) um) with (keep 0 524288 um) in *.
  rewrite (keep_all um (k_mem s) pgdir) in * by apply Hu. cbn [app] in Hpe1.
  destruct (freevm_loop_spec 1024 s1 pgdir tabs rest free1 0) as (s2 & free2 & E2 & Ht2 & Hf2 & Hr2);
    [by destruct Hs1 as [Hk Hd Ho Hn Hp]; constructor|lia|done|].
  change (Z.to_nat NPDENTRIES) with 1024%nat. mstep E2. destruct Ht2 as [Hk2 _ _ Hn2 Hp2]. cbn in Hn2, Hp2.
  apply NoDup_cons in Hn2 as [Hni2 _].
  destruct (kfree_spec kend pgdir s2 free2 Hk2 Hpg ltac:(set_solver +Hni2)) as (s3 & E3 & Hk3 & _ & Hm3).
  exists s3, (pgdir :: free2). split_and!; [done|done|rewrite Hf2, Hpe1; done|].
  intros v Hv. eapply same_page_trans; [apply Hr1; by apply elem_of_app; right|].
  eapply same_page_trans; [by apply Hr2|]. intros a Ha. apply Hm3.
  rewrite Forall_forall in Hp2. assert (v <> pgdir) as Hne by (intros ->; set_solver +Hni2 Hv).
  destruct (pages_apart kend v pgdir); [apply Hp2; set_solver +Hv|done|done|lia|lia].
Qed.

(** * Growing *)

(** Mapping one page. *)
Lemma map_one s pgdir tabs own free p pa perm : space s pgdir tabs own free ->
  0 <= p < 1048576 -> pa mod 4096 = 0 -> 0 <= pa -> pa + 4096 <= 4294967296 -> 0 <= perm < 4096 ->
  has PTE_P (lookup_pte (k_mem s) pgdir (4096 * p)) = false ->
  exists r s' tabs' free',
    mappages pgdir (4096 * p) PGSIZE pa perm s = Ok (r, s') /\
    space s' pgdir tabs' own free' /\ tables tabs' ++ free' ≡ₚ tables tabs ++ free /\
    (r = 0 \/ r = -1 /\ free' = []) /\
    (forall va, 0 <= va < 4294967296 -> lookup_pte (k_mem s') pgdir va =
       if decide (r = 0 /\ va / 4096 = p) then pa + Z.lor perm PTE_P else lookup_pte (k_mem s) pgdir va) /\
    (forall u, u ∈ own -> same_page (k_mem s) (k_mem s') u).
Proof.
  intros Hs Hp Hpa Hpa0 Hpa1 Hperm Hnp. unfold mappages, PGSIZE.
  rewrite !PGROUNDDOWN_eq. rewrite (u32_small (4096 * p + 4096 - 1)) by lia.
  replace (4096 * p - (4096 * p) mod 4096) with (4096 * p) by divmod.
  replace (4096 * p + 4096 - 1 - (4096 * p + 4096 - 1) mod 4096) with (4096 * p) by divmod.
  rewrite Z.sub_diag. change (Z.to_nat (u32 0 / 4096 + 1)) with 1%nat.
  destruct (mappages_loop_spec (kend := kend) 0 1 s pgdir tabs own free (4096 * p) pa perm) as
    (r & k & s' & tabs' & free' & E & Hrk & Hs' & Hpe & Hm & Hu); try done; try lia; [divmod| |].
  { intros j Hj. replace j with 0 by lia. by rewrite Z.mul_0_r, Z.add_0_r. }
  rewrite Z.mul_0_r, Z.add_0_r in E. exists r, s', tabs', free'. split_and!; try done.
  - destruct Hrk as [[-> _]|(-> & _ & ->)]; [by left|by right].
  - intros va Hva. rewrite Hm by done. replace (4096 * p / 4096) with p by divmod.
    destruct Hrk as [[-> ->]|(-> & Hk & ->)].
    + destruct (decide (0 <= _ < _)), (decide (_ /\ _)); lia.
    + rewrite !decide_False by lia. done.
Qed.

Lemma pages_insert um p u : um !! p = None -> pages (<[p := u]> um) ≡ₚ u :: pages um.
Proof. apply tables_insert. Qed.

(** A mapped page joins the user memory. *)
Lemma user_insert m m' pgdir um p u f : user m pgdir um -> 0 <= p < 524288 -> 0 <= f < 4096 -> has PTE_P f = true ->
  (forall va, 0 <= va < 4294967296 -> lookup_pte m' pgdir va =
     if decide (va / 4096 = p) then V2P u + f else lookup_pte m pgdir va) ->
  user m' pgdir (<[p := u]> um).
Proof.
  intros [Hdom Hmap] Hp Hf Hfp Hl. constructor.
  - intros q v. destruct (decide (q = p)) as [->|]; [done|]. rewrite lookup_insert_ne by done. apply Hdom.
  - intros q Hq. rewrite Hl by lia. replace (4096 * q / 4096) with q by divmod.
    destruct (decide (q = p)) as [->|]; [rewrite lookup_insert_eq; by exists f|].
    rewrite lookup_insert_ne by done. by apply Hmap.
Qed.

Lemma user_ext m m' pgdir um : user m pgdir um ->
  (forall va, 0 <= va < 2147483648 -> lookup_pte m' pgdir va = lookup_pte m pgdir va) -> user m' pgdir um.
Proof. intros [Hdom Hmap] Hl. constructor; [done|]. intros p Hp. rewrite Hl by lia. by apply Hmap. Qed.

(** What a page table operation may change: the entries of pages in [lo, hi),
    and no page that is in use before and after. *)
Definition only_between (m m' : mem) (pgdir lo hi : Z) : Prop := forall va, 0 <= va < 4294967296 ->
  ~ (lo <= va / 4096 < hi) -> lookup_pte m' pgdir va = lookup_pte m pgdir va.

Definition zero_page (m : mem) (v : Z) : Prop := forall a, v <= a < v + PGSIZE -> mget m a = 0.

(** A new page with contents set by [fill] and its mapping: the first part of a
    round of [allocuvm] and of [copyuvm]. *)
Lemma add_page s pgdir tabs um rest v l p perm fill : uspace s pgdir tabs um rest (v :: l) -> 0 <= p < 524288 -> um !! p = None ->
  0 <= perm < 4096 -> (forall m u, page_ok u -> page_ok v -> u <> v -> same_page m (fill m) u) ->
  exists s1 r s' tabs' free', kalloc s = Ok (v, s1) /\ v <> 0 /\
    mappages pgdir (4096 * p) PGSIZE (V2P v) perm (mkk (fill (k_mem s1)) (k_use_lock s1) (k_freelist s1)) = Ok (r, s') /\
    tables tabs' ++ free' ≡ₚ tables tabs ++ l /\ same_page (fill (k_mem s)) (k_mem s') v /\
    (forall u, u ∈ pages um ++ rest -> same_page (k_mem s) (k_mem s') u) /\
    only_between (k_mem s) (k_mem s') pgdir p (p + 1) /\
    ((r = 0 /\ uspace s' pgdir tabs' (<[p := v]> um) rest free' /\
      lookup_pte (k_mem s') pgdir (4096 * p) = V2P v + Z.lor perm PTE_P) \/
     (r = -1 /\ uspace s' pgdir tabs' um (v :: rest) free' /\ free' = [])).
Proof.
  intros [Hs Hus] Hp Hnone Hperm Hfill. destruct (space_kalloc _ _ _ _ _ _ Hs) as (s1 & E1 & Hs1 & Hz & Hm1).
  assert (page_ok v) as Hv by (eapply space_own_page; [exact Hs1|left]).
  destruct (space_own_mem s1 pgdir tabs _ l v fill Hs1 ltac:(left)
    (fun u Hu Hne => Hfill _ _ Hu Hv Hne)) as [Hs2 Hl2].
  destruct (V2P_page _ _ Hv) as (_ & Hal & Hrng). unfold PHYSTOP in Hrng.
  pose proof (us_map _ _ _ Hus p Hp) as Hnp. rewrite Hnone in Hnp. rewrite <- Hm1, <- Hl2 in Hnp.
  destruct (map_one _ _ _ _ _ p (V2P v) perm Hs2 ltac:(lia) Hal ltac:(lia) ltac:(lia)
    Hperm Hnp) as (r & s' & tabs' & free' & E & Hs' & Hpe & Hr & Hl & Hu).
  exists s1, r, s', tabs', free'. set (f := Z.lor perm PTE_P) in *.
  assert (forall va, 0 <= va < 4294967296 -> lookup_pte (k_mem s') pgdir va =
    if decide (r = 0 /\ va / 4096 = p) then V2P v + f else lookup_pte (k_mem s) pgdir va) as Hl'
    by (intros va Hva; rewrite Hl, <- Hm1 by done; destruct (decide _); [done|apply Hl2]).
  split_and!; [done|done|exact E|done|rewrite <- Hm1; apply (Hu v); left| | |].
  - intros u Hin. eapply same_page_trans; [|apply Hu; by right]. rewrite <- Hm1. apply Hfill; [|done|].
    + eapply space_own_page; [exact Hs1|by right].
    + intros ->. pose proof (space_own_apart _ _ _ [] _ _ _ Hs1) as Hap. apply Hap. cbn [app]. set_solver +Hin.
  - intros va Hva Hout. rewrite Hl' by done. by rewrite decide_False by lia.
  - destruct Hr as [->|[-> ->]]; [left|right].
    + split_and!; [done| |rewrite Hl', decide_True by (split; [done|divmod]) || lia; done].
      destruct (lor_P perm Hperm) as [Hf Hfp]. split.
      * eapply space_perm; [|exact Hs']. rewrite (pages_insert _ _ _ Hnone). done.
      * apply (user_insert (k_mem s) _ _ _ _ _ f); [done|done|done|done|].
        intros va Hva. rewrite Hl' by done. destruct (decide (_ /\ _)), (decide (_ = _)); try done; tauto.
    + split; [done|]. split; [|done]. split; [eapply space_perm; [|exact Hs']; cbn; solve_Permutation|].
      eapply user_ext; [exact Hus|]. intros va Hva. rewrite Hl' by lia. by rewrite decide_False by lia.
Qed.

(** Back to the pages before the call: the failure paths of [allocuvm]. *)
Lemma shrink_back s pgdir tabs um um0 rest free oldsz newsz : uspace s pgdir tabs um rest free ->
  0 <= oldsz < newsz -> newsz < KERNBASE ->
  let lo := (oldsz + 4095) / 4096 in let hi := (newsz + 4095) / 4096 in
  (forall q, lo <= q < hi -> um0 !! q = None) -> (forall q, ~ (lo <= q < hi) -> um !! q = um0 !! q) ->
  exists s' free', deallocuvm kend pgdir newsz oldsz s = Ok (oldsz, s') /\
    uspace s' pgdir tabs um0 rest free' /\ pages um0 ++ free' ≡ₚ pages um ++ free /\
    only_between (k_mem s) (k_mem s') pgdir lo hi /\
    (forall v, v ∈ pages um0 ++ rest -> same_page (k_mem s) (k_mem s') v).
Proof.
  intros Hu Ho Hn lo hi Hnone Hout.
  destruct (deallocuvm_spec _ _ _ _ _ _ newsz oldsz Hu ltac:(lia) ltac:(lia)) as (s' & free' & E & H).
  assert (keep lo hi um = um0) as Ek.
  { apply map_eq. intros q. rewrite keep_lookup. destruct (decide _); [by rewrite Hnone|by apply Hout]. }
  fold lo hi in H. rewrite Ek in H. by exists s', free'.
Qed.

(** The result of [allocuvm]: all pages of [lo, hi) are new and zeroed, or
    nothing changed. *)
Definition grown (m : mem) (pgdir lo hi : Z) (um um' : gmap Z Z) : Prop :=
  (forall q, ~ (lo <= q < hi) -> um' !! q = um !! q) /\
  (forall q, lo <= q < hi -> exists u, um' !! q = Some u /\ zero_page m u /\ lookup_pte m pgdir (4096 * q) = V2P u + 7).

Lemma pages_before lo hi um0 um v : (forall q, lo <= q < hi -> um0 !! q = None) ->
  (forall q, ~ (lo <= q < hi) -> um !! q = um0 !! q) -> v ∈ pages um0 -> v ∈ pages um.
Proof.
  intros Hn Ho Hv. unfold tables in Hv. apply list_elem_of_fmap in Hv as ([q u] & -> & Hq%elem_of_map_to_list).
  apply (tables_lookup _ q). rewrite Ho; [done|]. intros Hr. by rewrite Hn in Hq.
Qed.

Lemma grown_step m m' pgdir lo p um0 um v : grown m pgdir lo p um0 um -> 0 <= lo <= p -> p < 524288 ->
  only_between m m' pgdir p (p + 1) -> (forall u, u ∈ pages um -> same_page m m' u) ->
  zero_page m' v -> lookup_pte m' pgdir (4096 * p) = V2P v + 7 ->
  grown m' pgdir lo (p + 1) um0 (<[p := v]> um).
Proof.
  intros [Hg1 Hg2] Hlo Hp Hb Hs Hz Hl. split.
  - intros q Hq. rewrite lookup_insert_ne by lia. apply Hg1. lia.
  - intros q Hq. destruct (decide (q = p)) as [->|Hne]; [exists v; by rewrite lookup_insert_eq|].
    destruct (Hg2 q ltac:(lia)) as (u & Hu & Hzu & Hlu). exists u. rewrite lookup_insert_ne by done.
    split_and!; [done| |].
    + intros a Ha. rewrite (Hs u); [by apply Hzu|by eapply tables_lookup|done].
    + rewrite Hb; [done|lia|]. replace (4096 * q / 4096) with q by divmod. lia.
Qed.

(** Give a page back that was never mapped. *)
Lemma drop_page s pgdir tabs um rest free v : uspace s pgdir tabs um (v :: rest) free ->
  exists s', kfree kend v s = Ok (tt, s') /\ uspace s' pgdir tabs um rest (v :: free) /\
    (forall va, lookup_pte (k_mem s') pgdir va = lookup_pte (k_mem s) pgdir va) /\
    (forall u, u ∈ pages um ++ rest -> same_page (k_mem s) (k_mem s') u).
Proof.
  intros [Hs Hus]. assert (space s pgdir tabs (v :: pages um ++ rest) free) as Hs1
    by (eapply space_perm; [|exact Hs]; solve_Permutation).
  destruct (space_kfree _ _ _ _ _ _ Hs1) as (s' & E & Hs' & Hl & Hu).
  exists s'. split_and!; [done|split; [done|by eapply user_ext]|done|].
  intros u Hin. apply Hu; [eapply space_own_page; [exact Hs1|by right]|].
  intros ->. pose proof (space_own_apart _ _ _ [] _ _ _ Hs1) as Hap. apply Hap. cbn [app]. set_solver +Hin.
Qed.

Lemma only_between_trans m m' m'' pgdir lo hi :
  only_between m m' pgdir lo hi -> only_between m' m'' pgdir lo hi -> only_between m m'' pgdir lo hi.
Proof. intros H1 H2 va Hva Hout. by rewrite H2, H1. Qed.

Lemma alloc_loop_spec fuel : forall s pgdir tabs um0 um rest free p oldsz newsz lo hi,
  uspace s pgdir tabs um rest free -> 0 <= oldsz < newsz -> newsz < KERNBASE ->
  lo = (oldsz + 4095) / 4096 -> hi = (newsz + 4095) / 4096 -> lo <= p <= hi ->
  (Z.to_nat (hi - p) <= fuel)%nat ->
  (forall q, lo <= q < hi -> um0 !! q = None) -> grown (k_mem s) pgdir lo p um0 um ->
  Z.of_nat (length (pages um)) = Z.of_nat (length (pages um0)) + (p - lo) ->
  exists r s' tabs' um' free', allocuvm_loop kend fuel pgdir (4096 * p) oldsz newsz s = Ok (r, s') /\
    uspace s' pgdir tabs' um' rest free' /\
    tables tabs' ++ pages um' ++ free' ≡ₚ tables tabs ++ pages um ++ free /\
    only_between (k_mem s) (k_mem s') pgdir lo hi /\
    (forall v, v ∈ pages um0 ++ rest -> same_page (k_mem s) (k_mem s') v) /\
    (r = None /\ grown (k_mem s') pgdir lo hi um0 um' \/ r = Some 0 /\ um' = um0 /\
       Z.of_nat (length (tables tabs ++ pages um ++ free)) <= 1024 + Z.of_nat (length (pages um0)) + (hi - lo)).
Proof.
  induction fuel as [|fuel IH];
    intros s pgdir tabs um0 um rest free p oldsz newsz lo hi Hu Ho Hn Elo Ehi Hp Hfu Hnone Hg Hlen; cbn [allocuvm_loop];
    unfold KERNBASE in Hn.
  all: destruct (4096 * p <? newsz) eqn:Elt;
    [|assert (p = hi) as -> by (subst hi; divmod); exists None, s, tabs, um, free; split_and!; try done; by left].
  1: exfalso; subst hi; divmod.
  assert (p < hi) as Hlt by (subst hi; divmod). assert (um !! p = None) as Hump.
  { destruct Hg as [Hg _]. rewrite Hg by lia. apply Hnone. lia. }
  assert (0 <= p < 524288) as Hp2 by (subst lo hi; divmod).
  destruct free as [|v l].
  - mstep (space_kalloc_none _ _ _ _ (proj1 Hu)). rewrite Z.eqb_refl.
    destruct (shrink_back s pgdir tabs um um0 rest [] oldsz newsz Hu Ho ltac:(unfold KERNBASE; lia))
      as (s1 & free1 & E1 & Hu1 & Hpe1 & Hb1 & Hr1); [subst; done|subst lo hi; intros q Hq; apply Hg; lia|].
    rewrite <- Elo, <- Ehi in Hb1.
    mstep E1. exists (Some 0), s1, tabs, um0, free1. split_and!; try done; [by rewrite Hpe1|right].
    split_and!; [done|done|]. pose proof (space_tables _ _ _ _ _ (proj1 Hu)). rewrite !length_app. cbn [length]. lia.
  - destruct (add_page _ _ _ _ _ _ _ _ (Z.lor PTE_W PTE_U) (fun m => memset m v 0 PGSIZE) Hu Hp2 Hump
      ltac:(vm_compute; intuition discriminate) (fun m u Hu Hv => memset_other kend m v u Hu Hv)) as
      (s1 & r & s2 & tabs2 & free2 & E1 & Hv0 & E2 & Hpe2 & Hf2 & Hr2 & Hb2 & Hres).
    assert (zero_page (k_mem s2) v) as Hz2 by (intros a Ha; rewrite (Hf2 a Ha); by apply memset_zero).
    mstep E1. replace (v =? 0) with false by (symmetry; by apply Z.eqb_neq).
    unfold on_mem, modify. unfold bind at 1. mstep E2.
    assert (only_between (k_mem s) (k_mem s2) pgdir lo hi) as Hb2' by (intros va Hva Hout; apply Hb2; [done|lia]).
    destruct Hres as [(-> & Hu2 & Hl2)|(-> & Hu2 & ->)].
    + change (0 <? 0) with false. cbv iota. unfold PGSIZE.
      assert (u32 (4096 * p + 4096) = 4096 * (p + 1)) as -> by (rewrite u32_small; lia).
      destruct (IH s2 pgdir tabs2 um0 (<[p := v]> um) rest free2 (p + 1) oldsz newsz lo hi Hu2 Ho Hn Elo Ehi ltac:(lia)
        ltac:(lia) Hnone) as (r & s3 & tabs3 & um3 & free3 & E3 & Hu3 & Hpe3 & Hb3 & Hr3 & Hres3).
      { eapply grown_step; [exact Hg|subst lo; divmod|lia|done| |done|done]. intros u Hin. apply Hr2. set_solver +Hin. }
      { rewrite (pages_insert _ _ _ Hump). cbn [length]. lia. }
      assert (tables tabs2 ++ pages (<[p := v]> um) ++ free2 ≡ₚ tables tabs ++ pages um ++ v :: l) as Hpe.
      { rewrite (pages_insert _ _ _ Hump).
        trans (v :: pages um ++ (tables tabs2 ++ free2)); [solve_Permutation|]. rewrite Hpe2. solve_Permutation. }
      exists r, s3, tabs3, um3, free3. split_and!; [done|done|by rewrite Hpe3| | |by rewrite <- Hpe].
      * by eapply only_between_trans.
      * intros u Hin. eapply same_page_trans; [apply Hr2|by apply Hr3].
        apply elem_of_app in Hin as [Hin|Hin]; [|set_solver +Hin].
        apply elem_of_app; left. eapply pages_before; [exact Hnone| |exact Hin]. intros q Hq. apply Hg. lia.
    + change (-1 <? 0) with true. cbv iota.
      destruct (shrink_back s2 pgdir tabs2 um um0 (v :: rest) [] oldsz newsz Hu2 Ho ltac:(unfold KERNBASE; lia))
        as (s3 & free3 & E3 & Hu3 & Hpe3 & Hb3 & Hr3); [subst; done|subst lo hi; intros q Hq; apply Hg; lia|].
      rewrite <- Elo, <- Ehi in Hb3. mstep E3.
      destruct (drop_page _ _ _ _ _ _ _ Hu3) as (s4 & E4 & Hu4 & Hl4 & Hr4). mstep E4.
      exists (Some 0), s4, tabs2, um0, (v :: free3). split_and!; [done|done| | | |right; split_and!; [done|done|]].
      * trans (v :: tables tabs2 ++ (pages um0 ++ free3)); [solve_Permutation|]. rewrite Hpe3.
        trans (v :: pages um ++ (tables tabs2 ++ [])); [solve_Permutation|]. rewrite Hpe2. solve_Permutation.
      * eapply only_between_trans; [exact Hb2'|]. eapply only_between_trans; [exact Hb3|]. by intros va _ _.
      * intros u Hin. eapply same_page_trans; [apply Hr2|eapply same_page_trans; [apply Hr3|by apply Hr4]].
        -- apply elem_of_app in Hin as [Hin|Hin]; [|set_solver +Hin].
           apply elem_of_app; left. eapply pages_before; [exact Hnone| |exact Hin]. intros q Hq. apply Hg. lia.
        -- set_solver +Hin.
      * apply Permutation_length in Hpe2. pose proof (space_tables _ _ _ _ _ (proj1 Hu2)).
        rewrite !length_app in *. cbn [length] in *. lia.
Qed.

(** [allocuvm] grows the memory by zeroed pages of the user, or changes nothing. *)
Lemma allocuvm_spec s pgdir tabs um rest free oldsz newsz : uspace s pgdir tabs um rest free ->
  0 <= oldsz <= newsz -> newsz < KERNBASE ->
  let lo := (oldsz + 4095) / 4096 in let hi := (newsz + 4095) / 4096 in
  (forall q, lo <= q < hi -> um !! q = None) ->
  exists r s' tabs' um' free', allocuvm kend pgdir oldsz newsz s = Ok (r, s') /\
    uspace s' pgdir tabs' um' rest free' /\
    tables tabs' ++ pages um' ++ free' ≡ₚ tables tabs ++ pages um ++ free /\
    only_between (k_mem s) (k_mem s') pgdir lo hi /\
    (forall v, v ∈ pages um ++ rest -> same_page (k_mem s) (k_mem s') v) /\
    (r = newsz /\ grown (k_mem s') pgdir lo hi um um' \/
     r = 0 /\ um' = um /\ Z.of_nat (length free) <= 1024 + (hi - lo)).
Proof.
  intros Hu Ho Hn lo hi Hnone. unfold allocuvm. replace (newsz >=? KERNBASE) with false by lia.
  replace (newsz <? oldsz) with false by lia. unfold KERNBASE in Hn. rewrite PGROUNDUP_page by (unfold KERNBASE; lia).
  fold lo. destruct (decide (oldsz = newsz)) as [->|Hne].
  - exists newsz, s, tabs, um, free. split_and!; try done.
    + destruct (Z.to_nat (newsz / PGSIZE + 1)) as [|n]; cbn [allocuvm_loop];
        (replace (4096 * lo <? newsz) with false by (unfold lo; divmod)); reflexivity.
    + left. split; [done|]. split; [done|]. intros q Hq. unfold lo, hi in Hq. lia.
  - destruct (alloc_loop_spec (Z.to_nat (newsz / PGSIZE + 1)) s pgdir tabs um um rest free lo oldsz newsz lo hi)
      as (r & s' & tabs' & um' & free' & E & Hu' & Hpe & Hb & Hr & Hres); try done; [lia|unfold lo, hi; divmod| | | |].
    + unfold lo, hi, PGSIZE; divmod.
    + split; [done|]. intros q Hq. lia.
    + rewrite Z.sub_diag. lia.
    + mstep E. destruct Hres as [[-> Hg]|(-> & -> & Hlen)].
      * exists newsz, s', tabs', um', free'. split_and!; try done. by left.
      * exists 0, s', tabs', um, free'. split_and!; try done. right. split_and!; [done|done|].
        rewrite !length_app in Hlen. lia.
Qed.

(** ** Processes that grow and shrink (growproc of proc.c) *)

(** The result of [growproc] and the new size. *)
Definition growproc (pgdir sz n : Z) : M kstate (Z * Z) :=
  if n >? 0 then
    let! r := allocuvm kend pgdir sz (u32 (sz + n)) in
    if r =? 0 then ret (-1, sz) else ret (0, r)
  else if n <? 0 then
    let! r := deallocuvm kend pgdir sz (u32 (sz + n)) in
    if r =? 0 then ret (-1, sz) else ret (0, r)
  else ret (0, sz).

Inductive grow (pgdir : Z) : kstate * Z -> kstate * Z -> Prop :=
| grow_call s sz n r sz' s' : -2147483648 <= n <= INT_MAX ->
    growproc pgdir sz n s = Ok ((r, sz'), s') -> grow pgdir (s, sz) (s', sz').

(** The pages of a process of [sz] bytes, and nothing lost of [all]. *)
Definition proc_mem (pgdir : Z) (rest all : list Z) (c : kstate * Z) : Prop :=
  exists tabs um free, uspace c.1 pgdir tabs um rest free /\ 0 <= c.2 < KERNBASE /\
    (forall p u, um !! p = Some u -> 4096 * p < c.2) /\ tables tabs ++ pages um ++ free ≡ₚ all.

Lemma growproc_spec s pgdir tabs um rest free sz n r sz' s' : uspace s pgdir tabs um rest free -> 0 <= sz < KERNBASE ->
  (forall p u, um !! p = Some u -> 4096 * p < sz) -> -2147483648 <= n <= INT_MAX ->
  growproc pgdir sz n s = Ok ((r, sz'), s') ->
  exists tabs' um' free', uspace s' pgdir tabs' um' rest free' /\ 0 <= sz' < KERNBASE /\
    (forall p u, um' !! p = Some u -> 4096 * p < sz') /\
    tables tabs' ++ pages um' ++ free' ≡ₚ tables tabs ++ pages um ++ free /\
    (forall v, v ∈ rest -> same_page (k_mem s) (k_mem s') v).
Proof.
  intros Hu Hsz Hdom Hn E.
  unfold KERNBASE, INT_MAX in *. unfold growproc in E. destruct (n >? 0) eqn:En; [|destruct (n <? 0) eqn:En'].
  - rewrite (u32_small (sz + n)) in E by lia. destruct (decide (sz + n < 2147483648)) as [Hlt|Hge].
    + destruct (allocuvm_spec s pgdir tabs um rest free sz (sz + n) Hu ltac:(lia) Hlt)
        as (r1 & s1 & tabs1 & um1 & free1 & E1 & Hu1 & Hpe1 & _ & Hr1 & Hres).
      { intros q Hq. destruct (um !! q) as [u|] eqn:Eq; [|done]. apply Hdom in Eq. divmod. }
      rewrite (bind_Ok _ _ _ _ _ E1) in E. destruct Hres as [[-> [Hg1 Hg2]]|(-> & -> & _)].
      * replace (sz + n =? 0) with false in E by lia. injection E as _ <- <-.
        exists tabs1, um1, free1. split_and!; [done|lia|lia| |done|intros v Hv; apply Hr1; set_solver +Hv].
        intros p u Hp. destruct (decide ((sz + 4095) / 4096 <= p < (sz + n + 4095) / 4096)); [divmod|].
        rewrite Hg1 in Hp by done. apply Hdom in Hp. lia.
      * injection E as _ <- <-. exists tabs1, um, free1. split_and!; [done|lia|lia|done|done|intros v Hv; apply Hr1; set_solver +Hv].
    + unfold allocuvm in E. replace (sz + n >=? KERNBASE) with true in E by (unfold KERNBASE; lia).
      injection E as _ <- <-. exists tabs, um, free; split_and!; (done || lia).
  - destruct (decide (0 <= sz + n)) as [Hpos|Hneg].
    + rewrite (u32_small (sz + n)) in E by lia.
      destruct (deallocuvm_spec s pgdir tabs um rest free sz (sz + n) Hu ltac:(lia) ltac:(unfold KERNBASE; lia))
        as (s1 & free1 & E1 & Hu1 & Hpe1 & _ & Hr1). rewrite (bind_Ok _ _ _ _ _ E1) in E.
      set (um1 := keep _ _ um) in *.
      assert (forall p u, um1 !! p = Some u -> 4096 * p < sz + n) as Hd1.
      { intros p u. unfold um1. rewrite keep_lookup. destruct (decide _) as [|Ho]; [done|]. intros Hp.
        apply Hdom in Hp. divmod. }
      destruct (sz + n =? 0); injection E as _ <- <-; exists tabs, um1, free1;
        (split_and!; [done|lia|lia|intros p u Hp; apply Hd1 in Hp; lia|by rewrite Hpe1|intros v Hv; apply Hr1; set_solver +Hv]).
    + unfold deallocuvm in E. assert (u32 (sz + n) = sz + n + 4294967296) as Eu by ints.
      rewrite Eu in E. replace (_ >=? sz) with true in E by lia. unfold bind, ret in E.
      destruct (sz =? 0); injection E as _ <- <-; exists tabs, um, free; split_and!; (done || lia).
  - injection E as _ <- <-. exists tabs, um, free; split_and!; (done || lia).
Qed.

Lemma grow_mem pgdir rest all c c' : proc_mem pgdir rest all c -> grow pgdir c c' -> proc_mem pgdir rest all c'.
Proof.
  intros Hm Hg. destruct Hg as [s sz n r sz' s' Hn E].
  destruct Hm as (tabs & um & free & Hu & Hsz & Hdom & Hall). cbn [fst snd] in *.
  destruct (growproc_spec _ _ _ _ _ _ _ _ _ _ _ Hu Hsz Hdom Hn E) as (tabs' & um' & free' & Hu' & Hsz' & Hdom' & Hpe & _).
  exists tabs', um', free'. split_and!; [done|apply Hsz'..|done|by rewrite Hpe].
Qed.

(** A process never loses or keeps a page it should not.  Whatever calls of
    [growproc] (the kernel side of [sbrk], with any argument, failing or not) a
    process with an empty user memory makes: every user page that is mapped lies
    below its size and belongs to no one else; and [freevm] succeeds and returns
    its directory, all tables and all user pages to the free list, so that exactly
    the pages that were free or part of the address space before are free. *)
Theorem process_pages_conserved s0 pgdir tabs0 rest free0 s sz :
  uspace s0 pgdir tabs0 ∅ rest free0 -> rtc (grow pgdir) (s0, 0) (s, sz) ->
  (forall p, 0 <= p < 524288 -> has PTE_P (lookup_pte (k_mem s) pgdir (4096 * p)) = true ->
     4096 * p < sz /\ P2V (PTE_ADDR (lookup_pte (k_mem s) pgdir (4096 * p))) ∉ pgdir :: rest) /\
  exists s' free', freevm kend pgdir s = Ok (tt, s') /\ kmem_ok kend s' free' /\
    free' ≡ₚ pgdir :: tables tabs0 ++ free0.
Proof.
  intros H0 Hr. assert (proc_mem pgdir rest (tables tabs0 ++ free0) (s, sz)) as (tabs & um & free & Hu & Hsz & Hdom & Hall).
  { assert (proc_mem pgdir rest (tables tabs0 ++ free0) (s0, 0)) as Hp0
      by (exists tabs0, ∅, free0; cbn [fst snd]; unfold KERNBASE; split_and!; [done|lia|lia|done|done]).
    revert Hp0. induction Hr; eauto using grow_mem. }
  cbn [fst snd] in *. split.
  - intros p Hp Hh. pose proof (us_map _ _ _ (proj2 Hu) p Hp) as Hm. destruct (um !! p) as [u|] eqn:Ep; [|congruence].
    split; [by eapply Hdom|]. destruct Hm as (f & Hf & _ & ->).
    pose proof (tables_lookup _ _ _ Ep) as Hin. destruct Hu as [Hs _].
    assert (page_ok u) as Hpu by (eapply space_own_page; [exact Hs|set_solver +Hin]).
    destruct (entry_read kend u f Hpu Hf) as (_ & -> & _).
    apply list_elem_of_split in Hin as (o1 & o2 & Ho). rewrite Ho, <- app_assoc in Hs.
    pose proof (space_own_apart _ _ _ _ _ _ _ Hs) as Hap. set_solver +Hap.
  - destruct (freevm_spec _ _ _ _ _ _ Hu) as (s' & free' & E & Hk & Hpe & _).
    exists s', free'. split_and!; [done|done|]. by rewrite Hpe, Hall.
Qed.
End User.

Arguments freevm_spec {kend}.
Arguments map_one {kend}.
Arguments drop_page {kend}.
Arguments add_page {kend}.
Arguments growproc_spec {kend}.
