(* ===== verification/VmKernel.v ===== *)
(** The kernel half of every address space ([setupkvm]). *)

From S2P Require Import Prelude Mem Kalloc Vm VmSpace VmUser.
Local Open Scope Z_scope.

Section Kernel.
  Context (kend data : Z).
Abbreviation page_ok := (page_ok kend).
Abbreviation space := (space kend).
Abbreviation uspace := (uspace kend).
  Hypothesis kend_high : KERNBASE < kend.
  (** kernel.ld aligns [data] after the text. *)
  Hypothesis data_aligned : data mod 4096 = 0.
  Hypothesis data_range : KERNLINK < data < KERNBASE + PHYSTOP.

(** * Rows of [kmap] *)

Abbreviation row := (Z * Z * Z * Z)%type.

(** The number of pages of a row. *)
Definition row_pages (r : row) : Z := let '(_, ps, pe, _) := r in u32 (pe - ps) / 4096.

Definition row_ok (r : row) : Prop :=
  let '(virt, ps, pe, perm) := r in
  virt mod 4096 = 0 /\ ps mod 4096 = 0 /\ u32 (pe - ps) mod 4096 = 0 /\ 0 < row_pages r /\
  KERNBASE <= virt /\ 0 <= ps /\ virt + 4096 * row_pages r <= 4294967296 /\
  ps + 4096 * row_pages r <= 4294967296 /\ 0 <= perm < 4096.

(** The page numbers of a row, and what it makes of the entry of page [p]. *)
Definition in_row (r : row) (p : Z) : Prop := let '(virt, _, _, _) := r in 0 <= p - virt / 4096 < row_pages r.
#[local] Instance in_row_dec r p : Decision (in_row r p).
Proof. destruct r as [[[? ?] ?] ?]. apply _. Defined.

Definition row_pte (r : row) (p : Z) : Z :=
  let '(virt, ps, _, perm) := r in ps + 4096 * (p - virt / 4096) + Z.lor perm PTE_P.

Lemma map_row s pgdir tabs own free r : let '(virt, ps, pe, perm) := r in
  space s pgdir tabs own free -> row_ok r ->
  (forall p, in_row r p -> has PTE_P (lookup_pte (k_mem s) pgdir (4096 * p)) = false) ->
  exists res s' tabs' free',
    mappages pgdir virt (u32 (pe - ps)) ps perm s = Ok (res, s') /\
    space s' pgdir tabs' own free' /\ tables tabs' ++ free' ≡ₚ tables tabs ++ free /\
    (forall u, u ∈ own -> same_page (k_mem s) (k_mem s') u) /\
    (forall va, 0 <= va < 4294967296 -> ~ in_row r (va / 4096) ->
       lookup_pte (k_mem s') pgdir va = lookup_pte (k_mem s) pgdir va) /\
    (res = -1 /\ free' = [] \/ res = 0 /\ forall va, 0 <= va < 4294967296 -> in_row r (va / 4096) ->
       lookup_pte (k_mem s') pgdir va = row_pte r (va / 4096)).
Proof.
  destruct r as [[[virt ps] pe] perm]. intros Hs (Hv & Hps & Hsz & Hn & Hvb & Hp0 & Hve & Hpe & Hperm) Hnp.
  unfold row_pages in *. set (size := u32 (pe - ps)) in *. set (n := size / 4096) in *.
  unfold KERNBASE in *. unfold mappages. rewrite !PGROUNDDOWN_eq.
  rewrite (u32_small (virt + size - 1)) by (unfold n in *; divmod).
  replace (virt - virt mod 4096) with virt by lia.
  replace (virt + size - 1 - (virt + size - 1) mod 4096) with (virt + 4096 * Z.of_nat (Z.to_nat (n - 1)))
    by (unfold n in *; divmod).
  rewrite (u32_small _) by (unfold n in *; divmod). unfold PGSIZE.
  destruct (mappages_loop_spec (kend := kend) (Z.to_nat (n - 1))
    (Z.to_nat ((virt + 4096 * Z.of_nat (Z.to_nat (n - 1)) - virt) / 4096 + 1)) s pgdir tabs own free virt ps perm) as
    (res & k & s' & tabs' & free' & E & Hrk & Hs' & Hpe' & Hm & Hu); try done; try lia; [divmod| |].
  { intros j Hj. replace (virt + 4096 * j) with (4096 * (virt / 4096 + j)) by divmod. apply Hnp. cbn.
    unfold row_pages. fold size n. lia. }
  exists res, s', tabs', free'. split_and!; try done.
  - intros va Hva Hout. rewrite Hm by done. rewrite decide_False; [done|]. intros Hin. apply Hout. cbn.
    unfold row_pages. fold size n. destruct Hrk as [[_ ->]|(_ & ? & _)]; lia.
  - destruct Hrk as [[-> ->]|(-> & _ & ->)]; [right|by left]. split; [done|]. intros va Hva Hin. rewrite Hm by done.
    cbn in Hin |- *. unfold row_pages in Hin. fold size n in Hin. rewrite decide_True by lia. done.
Qed.

(** The entry of page [p] after all rows, with [e] before. *)
Fixpoint rows_pte (rows : list row) (p e : Z) : Z :=
  match rows with
  | [] => e
  | r :: rows' => if decide (in_row r p) then row_pte r p else rows_pte rows' p e
  end.

Lemma setup_loop rows : forall s pgdir tabs rest free,
  uspace s pgdir tabs ∅ rest free -> Forall row_ok rows ->
  ForallOrdPairs (fun r r' => forall p, in_row r p -> ~ in_row r' p) rows ->
  (forall r p, r ∈ rows -> in_row r p -> has PTE_P (lookup_pte (k_mem s) pgdir (4096 * p)) = false) ->
  exists res s', setupkvm_loop kend rows pgdir s = Ok (res, s') /\
    (forall v, v ∈ rest -> same_page (k_mem s) (k_mem s') v) /\
    ((res = 0 /\ (length (tables tabs ++ free) <= 1024)%nat /\
      exists free', kmem_ok kend s' free' /\ free' ≡ₚ pgdir :: tables tabs ++ free) \/
     (res = pgdir /\ exists tabs' free', uspace s' pgdir tabs' ∅ rest free' /\
        tables tabs' ++ free' ≡ₚ tables tabs ++ free /\
        forall va, 0 <= va < 4294967296 ->
          lookup_pte (k_mem s') pgdir va = rows_pte rows (va / 4096) (lookup_pte (k_mem s) pgdir va))).
Proof.
  induction rows as [|r rows IH]; intros s pgdir tabs rest free [Hs Hus] Hok Hdj Hnp.
  { exists pgdir, s. split_and!; [done|done|right]. split; [done|]. exists tabs, free. by split_and!. }
  apply Forall_cons in Hok as [Hr Hok]. inversion Hdj as [|? ? Hd1 Hdj']; subst.
  pose proof (map_row s pgdir tabs rest free r) as Hmap. destruct r as [[[virt ps] pe] perm]. cbn [setupkvm_loop].
  destruct (Hmap Hs Hr (fun p Hp => Hnp _ p ltac:(left) Hp)) as (res & s1 & tabs1 & free1 & E1 & Hs1 & Hpe1 & Hu1 & Hl1 & Hres).
  mstep E1. set (r := (virt, ps, pe, perm)) in *.
  assert (forall p, in_row r p -> 524288 <= p) as Hhigh.
  { intros p Hp. destruct Hr as (Hv & _ & _ & _ & Hvb & _). cbn in Hp. unfold KERNBASE in Hvb. divmod. }
  assert (uspace s1 pgdir tabs1 ∅ rest free1) as Hu1'.
  { split; [done|]. eapply user_ext; [exact Hus|]. intros va Hva. apply Hl1; [lia|]. intros Hin%Hhigh. divmod. }
  destruct Hres as [[-> ->]|[-> Hl1']].
  - change (-1 <? 0) with true. cbv iota.
    destruct (freevm_spec kend_high _ _ _ _ _ _ Hu1') as (s2 & free2 & E2 & Hk2 & Hpe2 & Hr2). mstep E2.
    exists 0, s2. split_and!; [done| |left]; [intros v Hv; eapply same_page_trans; eauto|].
    split_and!; [done|rewrite <- Hpe1, app_nil_r; by eapply space_tables|].
    exists free2. split; [done|]. rewrite Hpe2. cbn. by rewrite Hpe1.
  - change (0 <? 0) with false. cbv iota.
    destruct (IH s1 pgdir tabs1 rest free1 Hu1' Hok Hdj') as (res & s2 & E2 & Hr2 & H2).
    { intros r' p Hin Hp. rewrite Hl1; [by apply (Hnp r'); [right|]| |].
      - rewrite Forall_forall in Hok. specialize (Hok r' Hin). destruct r' as [[[v' ps'] pe'] perm'].
        destruct Hok as (Hv' & _ & _ & _ & Hvb & _ & Hve & _). unfold in_row in Hp. unfold KERNBASE in *.
        set (n := row_pages _) in *. clearbody n. divmod.
      - replace (4096 * p / 4096) with p by divmod. intros Hp'. rewrite Forall_forall in Hd1. by eapply Hd1. }
    exists res, s2. split_and!; [done|intros v Hv; eapply same_page_trans; eauto|].
    destruct H2 as [(-> & Hlen & free2 & Hk2 & Hpe2)|(-> & tabs2 & free2 & Hu2 & Hpe2 & Hl2)]; [left|right].
    + split_and!; [done|by rewrite <- Hpe1|]. exists free2. split; [done|]. by rewrite Hpe2, Hpe1.
    + split; [done|]. exists tabs2, free2. split_and!; [done|by rewrite Hpe2, Hpe1|].
      intros va Hva. rewrite Hl2 by done. cbn [rows_pte]. destruct (decide (in_row r (va / 4096))) as [Hin|Hout].
      * rewrite Hl1' by done. assert (forall r', r' ∈ rows -> ~ in_row r' (va / 4096)) as Hno
          by (intros r' Hr'; rewrite Forall_forall in Hd1; by apply Hd1).
        clear -Hno. induction rows as [|r' rows IH]; [done|]. cbn [rows_pte].
        rewrite decide_False by (apply Hno; left). apply IH. intros r'' Hr''. apply Hno. by right.
      * by rewrite Hl1.
Qed.

(** The kernel half, which is the same in every page table. *)
Definition kernel_pte (va : Z) : Z :=
  let a := PGROUNDDOWN va in
  if va <? KERNBASE then 0
  else if va <? KERNLINK then V2P a + (PTE_P + PTE_W)
  else if va <? data then V2P a + PTE_P
  else if va <? KERNBASE + PHYSTOP then V2P a + (PTE_P + PTE_W)
  else if va <? DEVSPACE then 0
  else a + (PTE_P + PTE_W).

Lemma kmap_ok : Forall row_ok (kmap data) /\
  ForallOrdPairs (fun r r' => forall p, in_row r p -> ~ in_row r' p) (kmap data) /\
  forall va, 0 <= va < 4294967296 -> rows_pte (kmap data) (va / 4096) 0 = kernel_pte va.
Proof.
  unfold kmap, KERNLINK, KERNBASE, EXTMEM, PHYSTOP, DEVSPACE, PTE_W in *.
  assert (V2P data = data - 2147483648) as HV by (unfold V2P, KERNBASE; apply u32_small; lia).
  assert (V2P (2147483648 + 1048576) = 1048576) as HV' by reflexivity.
  assert (u32 (V2P data - V2P (2147483648 + 1048576)) = data - 2148532224) as Hs2
    by (rewrite HV, HV', u32_small; lia).
  assert (u32 (234881024 - V2P data) = 2382364672 - data) as Hs3 by (rewrite HV, u32_small; lia).
  split_and!.
  - repeat (apply Forall_cons; split); [| | | |constructor]; unfold row_ok, row_pages, KERNBASE; rewrite ?Hs2, ?Hs3, ?HV, ?HV';
      (split_and!; (done || lia || divmod)).
  - repeat constructor; intros p; unfold in_row, row_pages; rewrite ?Hs2, ?Hs3; try divmod;
      change (u32 (1048576 - 0)) with 1048576; change (u32 (0 - 4261412864)) with 33554432; divmod.
  - intros va Hva. unfold kernel_pte, KERNLINK, KERNBASE, EXTMEM, PHYSTOP, DEVSPACE, PTE_P, PTE_W. rewrite PGROUNDDOWN_eq.
    assert (2147483648 <= va -> V2P (va - va mod 4096) = va - va mod 4096 - 2147483648) as HVa
      by (intros Hk; unfold V2P, KERNBASE; apply u32_small; divmod).
    pose proof (Z_div_mod_eq_full va 4096) as Hdm. pose proof (Z.mod_pos_bound va 4096 ltac:(lia)) as Hmb.
    set (p := va / 4096) in *. set (o := va mod 4096) in *.
    assert (exists d, data = 4096 * d) as [d Hd] by (exists (data / 4096); divmod).
    assert (data / 4096 = d) as Hdd by divmod.
    cbn [rows_pte].
    repeat match goal with |- context [decide (in_row ?r ?q)] => destruct (decide (in_row r q)) as [?|?] end;
      unfold in_row, row_pages, row_pte in *; rewrite ?Hs2, ?Hs3, ?HV, ?HV', ?Hdd in *;
      change (u32 (1048576 - 0) / 4096) with 256 in *; change (u32 (0 - 4261412864) / 4096) with 8192 in *;
      change (2147483648 / 4096) with 524288 in *; change ((2147483648 + 1048576) / 4096) with 524544 in *;
      change (4261412864 / 4096) with 1040384 in *; change (Z.lor 2 PTE_P) with 3; change (Z.lor 0 PTE_P) with 1;
      clearbody p o; subst va data;
      replace ((4096 * d - 2148532224) / 4096) with (d - 524544) in * by divmod;
      replace ((2382364672 - 4096 * d) / 4096) with (581632 - d) in * by divmod;
      repeat match goal with |- context [?x <? ?y] => destruct (Z.ltb_spec x y) end; try lia; rewrite HVa by lia; lia.
Qed.

(** A zeroed page is an empty address space. *)
Lemma empty_space s free rest v l : kmem_ok kend s free -> free = v :: l ->
  NoDup (rest ++ free) -> Forall page_ok (rest ++ free) ->
  exists s1, kalloc s = Ok (v, s1) /\ v <> 0 /\
    let s2 := mkk (memset (k_mem s1) v 0 PGSIZE) (k_use_lock s1) (k_freelist s1) in
    uspace s2 v ∅ ∅ rest l /\ (forall va, lookup_pte (k_mem s2) v va = 0) /\
    (forall u, u ∈ rest -> same_page (k_mem s) (k_mem s2) u).
Proof.
  intros Hk -> Hn Hp. destruct (kalloc_spec kend s _ Hk) as (s1 & E1 & Hk1 & Hz & Hvl & Hv & Hm1 & _).
  exists s1. split_and!; [done|done|]. cbv zeta. set (s2 := mkk _ _ _).
  assert (forall i, 0 <= i < 1024 -> ld32 (k_mem s2) (v + 4 * i) = 0) as Hdir
    by (intros i Hi; apply ld32_zero; [intros a Ha; by apply memset_zero|done]).
  assert (forall va, lookup_pte (k_mem s2) v va = 0) as Hl.
  { intros va. unfold lookup_pte. by rewrite Hdir by apply PDX_range. }
  assert (v :: rest ++ l ≡ₚ rest ++ v :: l) as Hpe by solve_Permutation.
  assert (forall u, page_ok u -> u <> v -> same_page (k_mem s1) (k_mem s2) u) as Hsame
    by (intros u Hu Hne; by apply (memset_other kend)).
  split_and!; [split|done|].
  - constructor; [| |done| |]; cbn [app]; rewrite ?Hpe; try done.
    + destruct Hk1 as [Hc Hcn Hcp]. constructor; [|done|done]. eapply chain_frame; [|exact Hc]. intros u Hu.
      rewrite <- (Z.add_0_r u) at 1 2. apply (ld32_same _ _ u 0); [|lia].
      apply Hsame; [rewrite Forall_forall in Hcp; auto|]. by intros ->.
    + intros i Hi. rewrite lookup_empty. by rewrite Hdir.
  - constructor; [by intros p u Hpu|]. intros p Hpr. rewrite lookup_empty. by rewrite Hl.
  - intros u Hu. rewrite <- Hm1. apply Hsame; [rewrite Forall_forall in Hp; apply Hp; set_solver +Hu|].
    intros ->. apply NoDup_app in Hn as (_ & Hdj & _). apply (Hdj v Hu). left.
Qed.

Lemma setupkvm_spec s free rest : kmem_ok kend s free -> NoDup (rest ++ free) -> Forall page_ok (rest ++ free) ->
  exists r s', setupkvm kend data s = Ok (r, s') /\
    (forall v, v ∈ rest -> same_page (k_mem s) (k_mem s') v) /\
    ((r = 0 /\ (length free <= 1025)%nat /\ exists free', kmem_ok kend s' free' /\ free' ≡ₚ free) \/
     (r <> 0 /\ exists tabs free', uspace s' r tabs ∅ rest free' /\ r :: tables tabs ++ free' ≡ₚ free /\
        forall va, 0 <= va < 4294967296 -> lookup_pte (k_mem s') r va = kernel_pte va)).
Proof.
  intros Hk Hn Hp. unfold setupkvm. destruct free as [|v l].
  { mstep (kalloc_spec kend s _ Hk). exists 0, s. split_and!; [done|done|left]. split_and!; [done|cbn; lia|]. by exists []. }
  destruct (empty_space s _ rest v l Hk eq_refl Hn Hp) as (s1 & E1 & Hz & Hu2 & Hl2 & Hr2).
  mstep E1. replace (v =? 0) with false by (symmetry; by apply Z.eqb_neq).
  unfold on_mem, modify. unfold bind at 1. change (P2V PHYSTOP >? DEVSPACE) with false. cbv iota.
  set (s2 := mkk _ _ _) in *. destruct kmap_ok as (Hok & Hdj & Hpte).
  destruct (setup_loop (kmap data) s2 v ∅ rest l Hu2 Hok Hdj) as (r & s3 & E3 & Hr3 & H3).
  { intros r p _ _. by rewrite Hl2. }
  exists r, s3. split_and!; [done|intros u Hu; eapply same_page_trans; eauto|].
  destruct H3 as [(-> & Hlen & free3 & Hk3 & Hpe3)|(-> & tabs3 & free3 & Hu3 & Hpe3 & Hl3)]; [left|right].
  - split_and!; [done|rewrite length_app in Hlen; cbn [length]; lia|]. by exists free3.
  - split; [done|]. exists tabs3, free3. split_and!; [done|by rewrite Hpe3|].
    intros va Hva. rewrite Hl3, Hl2 by done. by apply Hpte.
Qed.

(** C20. Every address space has the same kernel half and no other access.
    [setupkvm] on any set of free pages either returns 0 with all pages free again,
    which takes fewer than 1026 free pages, or a page directory in which: I/O space, kernel text (read-only), kernel data
    with all physical memory, and the device space are mapped as [kmap] says;
    nothing below KERNBASE and nothing between physical memory and the devices is
    mapped; and no kernel page is accessible to the user. *)
Theorem setupkvm_kernel_half s free :
  kmem_ok kend s free ->
  exists r s', setupkvm kend data s = Ok (r, s') /\
    ((r = 0 /\ (length free <= 1025)%nat /\ exists free', kmem_ok kend s' free' /\ free' ≡ₚ free) \/
     (r <> 0 /\ (exists used free', kmem_ok kend s' free' /\ r :: used ++ free' ≡ₚ free) /\
      forall va, 0 <= va < 4294967296 ->
        lookup_pte (k_mem s') r va = kernel_pte va /\ has PTE_U (lookup_pte (k_mem s') r va) = false /\
        (va < KERNBASE -> has PTE_P (lookup_pte (k_mem s') r va) = false))).
Proof.
  intros Hk. destruct (setupkvm_spec s free [] Hk (km_nodup _ _ _ Hk) (km_pages _ _ _ Hk)) as (r & s' & E & _ & H).
  exists r, s'. split; [done|]. destruct H as [H|(Hr & tabs & free' & [Hs _] & Hpe & Hl)]; [by left|right].
  split_and!; [done|exists (tables tabs), free'; split; [apply Hs|done]|].
  intros va Hva. rewrite Hl by done. split_and!; [done| |].
  - assert (forall a f, a mod 4096 = 0 -> 0 <= f < 4 -> has PTE_U (a + f) = false) as Hnou.
    { intros a f Ha Hf. rewrite <- lor_flags by lia. unfold has. rewrite Z.land_lor_distr_l.
      replace (Z.land a PTE_U) with 0; [|unfold PTE_U].
      - assert (f = 0 \/ f = 1 \/ f = 2 \/ f = 3) as Hf4 by lia; destruct_or! Hf4; by subst f.
      - symmetry. change 4 with (Z.land (Z.ones 12) 4). rewrite Z.land_assoc, Z.land_ones by lia.
        change (2 ^ 12) with 4096. by rewrite Ha. }
    unfold kernel_pte. rewrite PGROUNDDOWN_eq.
    assert ((va - va mod 4096) mod 4096 = 0 /\ V2P (va - va mod 4096) mod 4096 = 0) as [H1 H2]
      by (unfold V2P, KERNBASE; ints).
    repeat case_match; try done; apply Hnou; (done || unfold PTE_P, PTE_W; lia).
  - intros Hlt. unfold kernel_pte. by replace (va <? KERNBASE) with true by lia.
Qed.
End Kernel.
Arguments setupkvm_spec {kend data}.
