(* ===== verification/VmCopy.v ===== *)
(** The copy of an address space that [fork] makes ([copyuvm]). *)

From S2P Require Import Prelude Mem Kalloc Vm VmSpace VmUser VmKernel.
Local Open Scope Z_scope.

(** The number of pages of [sz] bytes. *)
Definition npages (sz : Z) : Z := (sz + 4095) / 4096.

(** What the hardware reads at user address [va]. *)
Definition uload (m : mem) (pgdir va : Z) : Z := mget m (P2V (PTE_ADDR (lookup_pte m pgdir va)) + va mod 4096).

Lemma lookup_page m d va : 0 <= va < 4294967296 -> lookup_pte m d va = lookup_pte m d (4096 * (va / 4096)).
Proof.
  intros Hva. unfold lookup_pte. rewrite !PDX_div, !PTX_div by divmod.
  replace (4096 * (va / 4096) / 4194304) with (va / 4194304) by divmod.
  by replace (4096 * (va / 4096) / 4096) with (va / 4096) by divmod.
Qed.

Section Copy.
  Context (kend data : Z).
Abbreviation page_ok := (page_ok kend).
Abbreviation space := (space kend).
Abbreviation uspace := (uspace kend).
Abbreviation pages := tables.
  Hypothesis kend_high : KERNBASE < kend.
  Hypothesis data_aligned : data mod 4096 = 0.
  Hypothesis data_range : KERNLINK < data < KERNBASE + PHYSTOP.

(** An address space whose pages another one leaves alone. *)
Lemma uspace_beside s0 s pgdir tabs um rest0 free0 rest free : uspace s0 pgdir tabs um rest0 free0 ->
  (forall v, v ∈ pgdir :: tables tabs -> same_page (k_mem s0) (k_mem s) v) ->
  kmem_ok kend s free -> NoDup (pgdir :: tables tabs ++ (pages um ++ rest) ++ free) ->
  Forall page_ok (pgdir :: tables tabs ++ (pages um ++ rest) ++ free) ->
  uspace s pgdir tabs um rest free /\
  forall va, lookup_pte (k_mem s) pgdir va = lookup_pte (k_mem s0) pgdir va.
Proof.
  intros [Hs0 Hus0] Hsame Hk Hn Hp.
  assert (space s pgdir tabs (pages um ++ rest) free) as Hs.
  { constructor; [done| |by destruct Hs0|done|done]. intros i Hi.
    rewrite (ld32_same (k_mem s0)) by (done || apply Hsame; left). by apply (sp_dir _ _ _ _ _ _ Hs0). }
  assert (forall va, lookup_pte (k_mem s) pgdir va = lookup_pte (k_mem s0) pgdir va) as Hl.
  { intros va. rewrite (lookup_table _ _ _ _ _ _ Hs), (lookup_table _ _ _ _ _ _ Hs0).
    destruct (tabs !! PDX va) eqn:Et; [|done]. apply tables_lookup in Et.
    apply ld32_same; [apply Hsame; by right|apply PTX_range]. }
  split; [split; [done|]|done]. eapply user_ext; [done|]. intros va _. apply Hl.
Qed.

(** Pages [0, p) of [um] are copied in [umd], with their contents and flags. *)
Definition copied (m0 m : mem) (pgdir d : Z) (um umd : gmap Z Z) (p : Z) : Prop :=
  (forall q, ~ (0 <= q < p) -> umd !! q = None) /\
  forall q, 0 <= q < p -> exists u w f, um !! q = Some u /\ umd !! q = Some w /\ 0 <= f < 4096 /\
    lookup_pte m0 pgdir (4096 * q) = V2P u + f /\ lookup_pte m d (4096 * q) = V2P w + f /\
    forall i, 0 <= i < PGSIZE -> mget m (w + i) = mget m0 (u + i).

Lemma copied_step m0 m m' pgdir d um umd p u w f : copied m0 m pgdir d um umd p -> 0 <= p < 524288 ->
  only_between m m' d p (p + 1) -> (forall v, v ∈ pages umd -> same_page m m' v) ->
  um !! p = Some u -> 0 <= f < 4096 -> lookup_pte m0 pgdir (4096 * p) = V2P u + f ->
  lookup_pte m' d (4096 * p) = V2P w + f -> (forall i, 0 <= i < PGSIZE -> mget m' (w + i) = mget m0 (u + i)) ->
  copied m0 m' pgdir d um (<[p := w]> umd) (p + 1).
Proof.
  intros [Hc1 Hc2] Hp Hb Hs Hu Hf Hl0 Hl Hm. split.
  - intros q Hq. rewrite lookup_insert_ne by lia. apply Hc1. lia.
  - intros q Hq. destruct (decide (q = p)) as [->|Hne]; [exists u, w, f; by rewrite lookup_insert_eq|].
    destruct (Hc2 q ltac:(lia)) as (u' & w' & f' & Hu' & Hw' & Hf' & Hl0' & Hl' & Hm').
    exists u', w', f'. rewrite lookup_insert_ne by done. split_and!; try (done || lia).
    + rewrite Hb; [done|lia|]. replace (4096 * q / 4096) with q by divmod. lia.
    + intros i Hi. rewrite (Hs w'); [by apply Hm'|by eapply tables_lookup|lia].
Qed.

Lemma memmove_other m v src u : page_ok u -> page_ok v -> page_ok src -> u <> v ->
  same_page m (memmove m v src PGSIZE) u.
Proof.
  intros Hu Hv Hsrc Hne a Ha. pose proof Hsrc as (_ & _ & Hr). destruct (V2P_page _ _ Hsrc) as (_ & _ & Hr2).
  unfold V2P, PHYSTOP, KERNBASE in *. rewrite memmove_get by (unfold PGSIZE; lia).
  destruct (pages_apart kend u v Hu Hv Hne); rewrite decide_False; unfold PGSIZE in *; try done; lia.
Qed.

(** The entry of a page of the parent, as [copyuvm] finds it. *)
Lemma walk_user s pgdir tabs um rest free p u : uspace s pgdir tabs um rest free -> um !! p = Some u ->
  exists pte f, walkpgdir pgdir (4096 * p) false s = Ok (pte, s) /\ pte <> 0 /\ page_ok u /\
    ld32 (k_mem s) pte = lookup_pte (k_mem s) pgdir (4096 * p) /\
    lookup_pte (k_mem s) pgdir (4096 * p) = V2P u + f /\ 0 <= f < 4096 /\ has PTE_P f = true.
Proof.
  intros [Hs Hus] Hu. pose proof (us_dom _ _ _ Hus _ _ Hu) as Hp. pose proof (us_map _ _ _ Hus p Hp) as Hm.
  rewrite Hu in Hm. destruct Hm as (f & Hf & Hfp & Hl).
  pose proof (lookup_table _ _ _ _ _ (4096 * p) Hs) as Hlt.
  assert (page_ok u) as Hpu.
  { apply tables_lookup in Hu. eapply space_own_page; [exact Hs|set_solver +Hu]. }
  destruct (tabs !! PDX (4096 * p)) as [t|] eqn:Et.
  - destruct (walk_hit _ _ _ _ _ (4096 * p) false t Hs Et) as [E Hz]. exists (t + 4 * PTX (4096 * p)), f.
    split_and!; try done; lia.
  - exfalso. rewrite Hlt in Hl. destruct (V2P_page _ _ Hpu) as (_ & Hal & Hr).
    destruct (decide (f = 0)) as [->|]; [done|lia].
Qed.

(** A page that is not there. *)
Lemma walk_hole s pgdir tabs um rest free p : uspace s pgdir tabs um rest free -> 0 <= p < 524288 -> um !! p = None ->
  walkpgdir pgdir (4096 * p) false s = Ok (0, s) \/
  exists pte, walkpgdir pgdir (4096 * p) false s = Ok (pte, s) /\ pte <> 0 /\ has PTE_P (ld32 (k_mem s) pte) = false.
Proof.
  intros [Hs Hus] Hp Hu. pose proof (us_map _ _ _ Hus p Hp) as Hm. rewrite Hu in Hm.
  rewrite (lookup_table _ _ _ _ _ (4096 * p) Hs) in Hm. destruct (tabs !! PDX (4096 * p)) as [t|] eqn:Et; [right|left].
  - destruct (walk_hit _ _ _ _ _ (4096 * p) false t Hs Et) as [E Hz]. by exists (t + 4 * PTX (4096 * p)).
  - by apply (walk_miss _ _ _ _ _ _ Hs).
Qed.

Lemma lor_present f : has PTE_P f = true -> Z.lor f PTE_P = f.
Proof.
  unfold has, PTE_P. intros Hf. apply Z.bits_inj'. intros n Hn. rewrite Z.lor_spec.
  destruct (decide (n = 0)) as [->|]; [|change 1 with (2 ^ 0); rewrite Z.pow2_bits_false by done; apply orb_false_r].
  change (Z.testbit 1 0) with true. rewrite orb_true_r. symmetry. rewrite Z.bit0_odd.
  change 1 with (Z.ones 1) in Hf. rewrite Z.land_ones in Hf by lia. change (2 ^ 1) with 2 in Hf.
  rewrite Zmod_odd in Hf. by destruct (Z.odd f).
Qed.

Lemma page_copied m0 m m' u v : page_ok u -> same_page (memmove m v u PGSIZE) m' v -> same_page m0 m u ->
  forall i, 0 <= i < PGSIZE -> mget m' (v + i) = mget m0 (u + i).
Proof.
  intros Hu Hm Hs i Hi. destruct (V2P_page _ _ Hu) as (_ & _ & Hr).
  pose proof Hu as (_ & _ & Hr2). unfold V2P, PHYSTOP, KERNBASE in *.
  rewrite Hm by lia. rewrite memmove_get, decide_True by (unfold PGSIZE in *; lia).
  replace (v + i - v + u) with (u + i) by lia. apply Hs. lia.
Qed.

(** ** The loop *)

Section Loop.
  Context (s0 : kstate) (pgdir : Z) (tabs um : gmap Z Z) (rest free0 : list Z).
  Hypothesis parent : uspace s0 pgdir tabs um rest free0.
Abbreviation others := (pgdir :: tables tabs ++ pages um ++ rest).

(** The parent is intact while the child is built. *)
Lemma parent_now s d tabsd umd free : uspace s d tabsd umd others free ->
  (forall v, v ∈ others -> same_page (k_mem s0) (k_mem s) v) ->
  uspace s pgdir tabs um (d :: tables tabsd ++ pages umd ++ rest) free /\
  forall va, lookup_pte (k_mem s) pgdir va = lookup_pte (k_mem s0) pgdir va.
Proof.
  intros [Hs _] Hsame.
  assert (pgdir :: tables tabs ++ (pages um ++ d :: tables tabsd ++ pages umd ++ rest) ++ free ≡ₚ
          d :: tables tabsd ++ (pages umd ++ others) ++ free) as Hpe by (cbn; solve_Permutation).
  eapply uspace_beside; [exact parent| |apply Hs| |].
  - intros v Hv. apply Hsame. set_solver +Hv.
  - rewrite Hpe. apply (sp_nodup _ _ _ _ _ _ Hs).
  - rewrite Hpe. apply (sp_pages _ _ _ _ _ _ Hs).
Qed.

Lemma copy_loop_spec sz hi : 0 <= sz < KERNBASE -> hi = (sz + 4095) / 4096 ->
  forall fuel s d tabsd umd free p, uspace s d tabsd umd others free ->
  (forall v, v ∈ others -> same_page (k_mem s0) (k_mem s) v) ->
  0 <= p <= hi -> (Z.to_nat (hi - p) <= fuel)%nat -> Z.of_nat (length (pages umd)) = p -> copied (k_mem s0) (k_mem s) pgdir d um umd p ->
  exists r, copyuvm_loop kend fuel pgdir d (4096 * p) sz s = r /\
  ((exists msg q, r = Panic msg /\ 0 <= q < hi /\ um !! q = None) \/
   exists ok s' tabsd' umd' free', r = Ok (ok, s') /\
    uspace s' d tabsd' umd' others free' /\
    tables tabsd' ++ pages umd' ++ free' ≡ₚ tables tabsd ++ pages umd ++ free /\
    (forall v, v ∈ others -> same_page (k_mem s0) (k_mem s') v) /\
    only_between (k_mem s) (k_mem s') d 0 hi /\
    (if ok then copied (k_mem s0) (k_mem s') pgdir d um umd' hi
     else Z.of_nat (length (tables tabsd ++ pages umd ++ free)) <= 1024 + hi)).
Proof.
  intros Hsz Ehi. unfold KERNBASE in Hsz.
  induction fuel as [|fuel IH]; intros s d tabsd umd free p Hd Hsame Hp Hfu Hlen Hc; cbn [copyuvm_loop].
  all: destruct (4096 * p <? sz) eqn:Elt;
    [|assert (p = hi) as -> by (subst hi; divmod); eexists; split; [reflexivity|right]; exists true, s, tabsd, umd, free; by split_and!].
  1: exfalso; subst hi; divmod.
  assert (0 <= p < hi /\ p < 524288) as [Hlt Hp2] by (subst hi; divmod).
  destruct (parent_now _ _ _ _ _ Hd Hsame) as [Hpar Hlpar].
  destruct (um !! p) as [u|] eqn:Hu.
  2: { destruct (walk_hole _ _ _ _ _ _ p Hpar ltac:(lia) Hu) as [E1|(pte & E1 & Hz & Hld)]; mstep E1;
      [eexists; split; [reflexivity|left]; by exists "copyuvm: pte should exist", p|].
    replace (pte =? 0) with false by (symmetry; by apply Z.eqb_neq). unfold load at 1, gets. unfold bind at 1. rewrite Hld.
    eexists; split; [reflexivity|left]. by exists "copyuvm: page not present", p. }
  destruct (walk_user _ _ _ _ _ _ _ _ Hpar Hu) as (pte & f & E1 & Hz & Hpu & Hld & Hl & Hf & Hfp).
  mstep E1. replace (pte =? 0) with false by (symmetry; by apply Z.eqb_neq).
  destruct (entry_read kend u f Hpu Hf) as (_ & Ha & Hfl & _ & Hh).
  unfold load at 1, gets. unfold bind at 1. rewrite Hld, Hl, Hh, Hfp, Ha, Hfl. cbn [negb].
  destruct free as [|v l].
  { mstep (space_kalloc_none _ _ _ _ (proj1 Hd)). rewrite Z.eqb_refl.
    eexists; split; [reflexivity|right]. exists false, s, tabsd, umd, []. split_and!; try done.
    pose proof (space_tables _ _ _ _ _ (proj1 Hd)). rewrite !length_app. cbn [length]. lia. }
  assert (umd !! p = None) as Hump by (apply Hc; lia).
  destruct (add_page _ _ _ _ _ _ _ p f (fun m => memmove m v u PGSIZE) Hd ltac:(lia) Hump Hf
    (fun m x Hx Hv => memmove_other m v u x Hx Hv Hpu)) as
    (s1 & r & s2 & tabs2 & free2 & E2 & Hv0 & E3 & Hpe2 & Hf2 & Hr2 & Hb2 & Hres).
  mstep E2. replace (v =? 0) with false by (symmetry; by apply Z.eqb_neq).
  unfold on_mem, modify. unfold bind at 1. mstep E3.
  assert (forall x, x ∈ others -> same_page (k_mem s0) (k_mem s2) x) as Hsame2.
  { intros x Hx. eapply same_page_trans; [by apply Hsame|]. apply Hr2. set_solver +Hx. }
  assert (only_between (k_mem s) (k_mem s2) d 0 hi) as Hb2' by (intros va Hva Hout; apply Hb2; [done|lia]).
  pose proof (Permutation_length Hpe2) as Hlen2. rewrite !length_app in Hlen2.
  destruct Hres as [(-> & Hd2 & Hl2)|(-> & Hd2 & ->)].
  - change (0 <? 0) with false. cbv iota. unfold PGSIZE.
    assert (u32 (4096 * p + 4096) = 4096 * (p + 1)) as -> by (rewrite u32_small; lia).
    destruct (IH s2 d tabs2 (<[p := v]> umd) free2 (p + 1) Hd2 Hsame2 ltac:(lia) ltac:(lia)
        ltac:(rewrite (pages_insert _ _ _ Hump); cbn [length]; lia))
      as (r & E4 & [Hhole|(ok & s3 & tabs3 & um3 & free3 & -> & Hd3 & Hpe3 & Hs3 & Hb3 & Hc3)]);
      [|exists r; split; [done|by left]|].
    { eapply (copied_step _ _ _ _ _ _ _ _ u v f); [exact Hc|lia|done| |done|done|by rewrite <- Hlpar| |].
      - intros x Hx. apply Hr2. set_solver +Hx.
      - rewrite Hl2. rewrite (lor_present f Hfp). done.
      - apply (page_copied _ _ _ _ _ Hpu Hf2). apply (Hsame u). apply tables_lookup in Hu. set_solver +Hu. }
    assert (tables tabs2 ++ pages (<[p := v]> umd) ++ free2 ≡ₚ tables tabsd ++ pages umd ++ v :: l) as Hpe.
    { rewrite (pages_insert _ _ _ Hump).
      trans (v :: pages umd ++ (tables tabs2 ++ free2)); [solve_Permutation|]. rewrite Hpe2. solve_Permutation. }
    eexists; split; [exact E4|right]. exists ok, s3, tabs3, um3, free3. split_and!; [done|done|by rewrite Hpe3|done|by eapply only_between_trans|].
    destruct ok; [done|by rewrite <- Hpe].
  - change (-1 <? 0) with true. cbv iota.
    destruct (drop_page _ _ _ _ _ _ _ Hd2) as (s4 & E4 & Hd4 & Hl4 & Hr4). mstep E4.
    eexists; split; [reflexivity|right]. exists false, s4, tabs2, umd, [v]. split_and!; [done|done| | |intros va Hva Hout; rewrite Hl4; by apply Hb2'|].
    + trans (v :: pages umd ++ (tables tabs2 ++ [])); [solve_Permutation|]. rewrite Hpe2. solve_Permutation.
    + intros x Hx. eapply same_page_trans; [by apply Hsame2|]. apply Hr4. set_solver +Hx.
    + pose proof (space_tables _ _ _ _ _ (proj1 Hd2)). rewrite !length_app. cbn [length] in *. lia.
Qed.
End Loop.

(** What [copied] says to the hardware. *)
Lemma copied_uload m0 m pgdir d um umd p va : copied m0 m pgdir d um umd p -> 0 <= va < 4096 * p -> p <= 524288 ->
  (forall v, v ∈ pages um ++ pages umd -> page_ok v) ->
  uload m d va = uload m0 pgdir va /\ PTE_FLAGS (lookup_pte m d va) = PTE_FLAGS (lookup_pte m0 pgdir va).
Proof.
  intros [_ Hc] Hva Hp Hok. destruct (Hc (va / 4096) ltac:(divmod)) as (u & w & f & Hu & Hw & Hf & Hl0 & Hl & Hm).
  apply tables_lookup in Hu, Hw.
  destruct (entry_read kend u f (Hok u ltac:(set_solver +Hu)) Hf) as (_ & Ha0 & Hf0 & _).
  destruct (entry_read kend w f (Hok w ltac:(set_solver +Hw)) Hf) as (_ & Ha & Hf1 & _).
  unfold uload. rewrite !(lookup_page _ _ va) by lia. rewrite Hl0, Hl, Ha0, Ha, Hf0, Hf1. split; [|done].
  apply Hm. unfold PGSIZE. divmod.
Qed.

Lemma absent_above m d umd p va : user m d umd -> (forall q, ~ (0 <= q < p) -> umd !! q = None) ->
  4096 * p <= va < KERNBASE -> 0 <= p -> has PTE_P (lookup_pte m d va) = false.
Proof.
  intros Hus Hn Hva Hp. unfold KERNBASE in Hva. rewrite lookup_page by lia.
  pose proof (us_map _ _ _ Hus (va / 4096) ltac:(divmod)) as Hm. by rewrite Hn in Hm by divmod.
Qed.

(** [copyuvm] of any process: a panic for a page that is missing, or all of the
    child, or nothing. *)
Lemma copyuvm_spec s pgdir tabs um rest free sz : uspace s pgdir tabs um rest free -> 0 <= sz < KERNBASE ->
  let others := pgdir :: tables tabs ++ pages um ++ rest in
  (exists msg q, copyuvm kend data pgdir sz s = Panic msg /\ 0 <= q < npages sz /\ um !! q = None) \/
  exists d s', copyuvm kend data pgdir sz s = Ok (d, s') /\
    (forall v, v ∈ others -> same_page (k_mem s) (k_mem s') v) /\
    ((d = 0 /\ Z.of_nat (length free) <= 1025 + npages sz /\ exists free', kmem_ok kend s' free' /\ free' ≡ₚ free) \/
     (d <> 0 /\ exists tabsd umd free', uspace s' d tabsd umd others free' /\
      d :: tables tabsd ++ pages umd ++ free' ≡ₚ free /\ copied (k_mem s) (k_mem s') pgdir d um umd (npages sz) /\
      (forall va, KERNBASE <= va < 4294967296 -> lookup_pte (k_mem s') d va = kernel_pte data va))).
Proof.
  intros Hpar Hsz others. pose proof Hpar as [Hs Hus]. unfold KERNBASE in Hsz.
  assert (NoDup (others ++ free) /\ Forall page_ok (others ++ free)) as [Hn Hp].
  { assert (others ++ free = pgdir :: tables tabs ++ (pages um ++ rest) ++ free) as ->
      by (unfold others; cbn [app]; by rewrite <- !app_assoc). split; apply Hs. }
  destruct (setupkvm_spec kend_high data_aligned data_range s free others (sp_kmem _ _ _ _ _ _ Hs) Hn Hp)
    as (d & s1 & E1 & Hr1 & H1).
  unfold copyuvm. mstep E1. destruct H1 as [(-> & Hlen & Hf1)|(Hd & tabs1 & free1 & Hu1 & Hpe1 & Hl1)].
  { right. exists 0, s1. split_and!; [done|done|left]. split_and!; [done| |done]. unfold npages. divmod. }
  replace (d =? 0) with false by (symmetry; by apply Z.eqb_neq).
  destruct (copy_loop_spec s pgdir tabs um rest free Hpar sz (npages sz) ltac:(unfold KERNBASE; lia) eq_refl
    (Z.to_nat (sz / PGSIZE + 1)) s1 d tabs1 ∅ free1 0 Hu1 Hr1)
    as (r & E2 & [(msg & q & -> & Hq)|(ok & s2 & tabs2 & um2 & free2 & -> & Hu2 & Hpe2 & Hr2 & Hb2 & Hc2)]);
    [unfold npages; divmod|unfold npages, PGSIZE; divmod|done|by split; [|lia]| |].
  { left. exists msg, q. split; [|done]. unfold bind. rewrite Z.mul_0_r in E2. by rewrite E2. }
  right. mstep E2. destruct ok.
  - exists d, s2. split_and!; [done|done|right]. split; [done|]. exists tabs2, um2, free2.
    split_and!; [done|by rewrite Hpe2|done|].
    intros va Hva. unfold KERNBASE in Hva. rewrite Hb2; [by apply Hl1; lia|lia|]. unfold npages. divmod.
  - destruct (freevm_spec kend_high _ _ _ _ _ _ Hu2) as (s3 & free3 & E3 & Hk3 & Hpe3 & Hr3). mstep E3.
    exists 0, s3. split_and!; [done|intros v Hv; eapply same_page_trans; [by apply Hr2|by apply Hr3]|left].
    split_and!; [done| |exists free3; split; [done|by rewrite Hpe3, Hpe2]].
    apply Permutation_length in Hpe1. cbn [length] in *. rewrite !length_app in *. cbn in Hc2. lia.
Qed.

(** C17. [fork] gives the child a copy of the parent's memory and nothing of the
    parent's own pages.  For a parent of [sz] bytes whose pages are all mapped,
    [copyuvm] changes no page of the parent (directory, tables, user memory) or of
    anyone else; it fails only with no more free pages than the copy, the 1024
    tables of a directory and the directory itself take, and then every page it
    took is free again; when it returns a
    directory, the child reads the same byte as the parent at every user address
    with the same permissions, nothing above is mapped for the user, the kernel
    half is that of every process, all its pages come from the free list and none
    is shared with the parent, and freeing the child later is possible. *)
Theorem fork_copies_memory s pgdir tabs um rest free sz : uspace s pgdir tabs um rest free ->
  0 <= sz < KERNBASE -> (forall q, 0 <= 4096 * q < sz -> is_Some (um !! q)) ->
  let others := pgdir :: tables tabs ++ pages um ++ rest in
  exists d s', copyuvm kend data pgdir sz s = Ok (d, s') /\
    (forall v, v ∈ others -> same_page (k_mem s) (k_mem s') v) /\
    ((d = 0 /\ Z.of_nat (length free) <= 1025 + npages sz /\ exists free', kmem_ok kend s' free' /\ free' ≡ₚ free) \/
     (d <> 0 /\ exists tabsd umd free', uspace s' d tabsd umd others free' /\
      d :: tables tabsd ++ pages umd ++ free' ≡ₚ free /\
      (forall va, 0 <= va < PGROUNDUP sz -> uload (k_mem s') d va = uload (k_mem s) pgdir va /\
         PTE_FLAGS (lookup_pte (k_mem s') d va) = PTE_FLAGS (lookup_pte (k_mem s) pgdir va)) /\
      (forall va, PGROUNDUP sz <= va < KERNBASE -> has PTE_P (lookup_pte (k_mem s') d va) = false) /\
      (forall va, KERNBASE <= va < 4294967296 -> lookup_pte (k_mem s') d va = kernel_pte data va))).
Proof.
  intros Hpar Hsz Hum others. pose proof Hsz as Hsz'. unfold KERNBASE in Hsz'.
  destruct (copyuvm_spec s pgdir tabs um rest free sz Hpar Hsz) as [(msg & q & _ & Hq & Hn)|(d & s' & E & Hr & H)].
  { destruct (Hum q) as [u Hu]; [unfold npages in Hq; divmod|congruence]. }
  exists d, s'. split_and!; [done|done|]. destruct H as [H|(Hd & tabsd & umd & free' & Hu & Hpe & Hc & Hl)]; [by left|right].
  split; [done|]. exists tabsd, umd, free'. rewrite PGROUNDUP_page by (unfold KERNBASE; lia). fold (npages sz).
  assert (0 <= npages sz <= 524288) as Hhi by (unfold npages; divmod). split_and!; [done|done| | |done].
  - intros va Hva. eapply copied_uload; [exact Hc|lia|lia|]. intros v Hv. destruct Hu as [Hs _].
    eapply space_own_page; [exact Hs|]. set_solver +Hv.
  - intros va Hva. eapply absent_above; [apply Hu|apply Hc|lia|lia].
Qed.
End Copy.

(** * sbrk *)

Section Sbrk.
  Context (kend : Z).
Abbreviation uspace := (uspace kend).
Abbreviation pages := tables.
  Hypothesis kend_high : KERNBASE < kend.

(** The pages of a process of [sz] bytes. *)
Definition full (um : gmap Z Z) (sz : Z) : Prop := forall q, is_Some (um !! q) <-> 0 <= q /\ 4096 * q < sz.

(** The same memory in pages [lo, hi). *)
Definition same_memory (m m' : mem) (pgdir lo hi : Z) : Prop := forall va, 4096 * lo <= va < 4096 * hi ->
  uload m' pgdir va = uload m pgdir va /\ lookup_pte m' pgdir va = lookup_pte m pgdir va.

Lemma unchanged_memory s s' pgdir tabs um rest free sz hi b : uspace s pgdir tabs um rest free -> full um sz ->
  4096 * hi <= sz + 4095 -> 0 <= sz < KERNBASE ->
  only_between (k_mem s) (k_mem s') pgdir hi b -> 0 <= hi ->
  (forall q u, 0 <= q < hi -> um !! q = Some u -> same_page (k_mem s) (k_mem s') u) ->
  same_memory (k_mem s) (k_mem s') pgdir 0 hi.
Proof.
  intros [Hs Hus] Hfull Hhi Hsz Hb Hhi0 Hsame va Hva. unfold KERNBASE in Hsz.
  assert (lookup_pte (k_mem s') pgdir va = lookup_pte (k_mem s) pgdir va) as Hl by (apply Hb; [lia|divmod]).
  split; [|done]. unfold uload. rewrite Hl.
  destruct (proj2 (Hfull (va / 4096)) ltac:(divmod)) as [u Hu].
  pose proof (us_map _ _ _ Hus (va / 4096) ltac:(divmod)) as Hm. rewrite Hu in Hm. destruct Hm as (f & Hf & _ & Hlu).
  rewrite (lookup_page _ _ va), Hlu by lia. pose proof (tables_lookup _ _ _ Hu) as Hin.
  destruct (entry_read kend u f) as (_ & -> & _); [eapply space_own_page; [exact Hs|set_solver +Hin]|done|].
  apply (Hsame (va / 4096) u); [divmod|done|]. unfold PGSIZE. divmod.
Qed.

Lemma full_lookup um sz q u : full um sz -> um !! q = Some u -> 0 <= q < npages sz.
Proof. intros Hf Hq. assert (is_Some (um !! q)) as Hs by eauto. apply Hf in Hs. unfold npages. divmod. Qed.

(** Growing: what [allocuvm] leaves. *)
Lemma alloc_effect s pgdir tabs um rest free sz newsz : uspace s pgdir tabs um rest free -> full um sz ->
  0 <= sz <= newsz -> newsz < KERNBASE ->
  exists r s' tabs' um' free', allocuvm kend pgdir sz newsz s = Ok (r, s') /\
    uspace s' pgdir tabs' um' rest free' /\
    tables tabs' ++ pages um' ++ free' ≡ₚ tables tabs ++ pages um ++ free /\
    only_between (k_mem s) (k_mem s') pgdir (npages sz) (npages newsz) /\
    same_memory (k_mem s) (k_mem s') pgdir 0 (npages sz) /\
    (r = newsz /\ full um' newsz /\ (forall va, PGROUNDUP sz <= va < PGROUNDUP newsz ->
       uload (k_mem s') pgdir va = 0 /\ PTE_FLAGS (lookup_pte (k_mem s') pgdir va) = 7) \/
     r = 0 /\ um' = um /\ Z.of_nat (length free) <= 1024 + (npages newsz - npages sz)).
Proof.
  intros Hu Hf Hsz Hn. unfold KERNBASE in Hn.
  destruct (allocuvm_spec kend kend_high s pgdir tabs um rest free sz newsz Hu Hsz Hn)
    as (r & s' & tabs' & um' & free' & E & Hu' & Hpe & Hb & Hr & Hres).
  { intros q Hq. destruct (um !! q) eqn:Eq; [|done]. apply (full_lookup _ _ _ _ Hf) in Eq. unfold npages in Eq. lia. }
  exists r, s', tabs', um', free'. split_and!; [done|done|done|done| |].
  - eapply unchanged_memory; [exact Hu|exact Hf| | |exact Hb| |]; unfold npages, KERNBASE; try divmod.
    intros q u Hq Eq. apply Hr. apply tables_lookup in Eq. set_solver +Eq.
  - destruct Hres as [[-> [Hg1 Hg2]]|(-> & -> & Hlen)]; [left|by right]. split; [done|].
    fold (npages sz) (npages newsz) in *. split.
    + intros q. destruct (decide (npages sz <= q < npages newsz)) as [Hin|Hout].
      * destruct (Hg2 q Hin) as (u & -> & _). split; [|eauto]. intros _. unfold npages in *. divmod.
      * rewrite Hg1 by done. rewrite (Hf q). unfold npages in *. divmod.
    + intros va Hva. rewrite !PGROUNDUP_page in Hva by (unfold KERNBASE; lia).
      fold (npages sz) (npages newsz) in Hva.
      destruct (Hg2 (va / 4096) ltac:(unfold npages in *; divmod)) as (u & Hq & Hz & Hl). apply tables_lookup in Hq.
      destruct (entry_read kend u 7) as (_ & Ha & Hfl & _); [eapply space_own_page; [apply Hu'|set_solver +Hq]|lia|].
      unfold uload. rewrite (lookup_page _ _ va) by (unfold npages in *; divmod). rewrite Hl, Ha, Hfl.
      split; [|done]. apply Hz. unfold PGSIZE. divmod.
Qed.

(** Shrinking: what [deallocuvm] leaves. *)
Lemma dealloc_effect s pgdir tabs um rest free sz newsz : uspace s pgdir tabs um rest free -> full um sz ->
  0 <= newsz < sz -> sz < KERNBASE ->
  exists s' um' free', deallocuvm kend pgdir sz newsz s = Ok (newsz, s') /\
    uspace s' pgdir tabs um' rest free' /\ pages um' ++ free' ≡ₚ pages um ++ free /\
    only_between (k_mem s) (k_mem s') pgdir (npages newsz) (npages sz) /\
    same_memory (k_mem s) (k_mem s') pgdir 0 (npages newsz) /\ full um' newsz.
Proof.
  intros Hu Hf Hn Hsz. unfold KERNBASE in Hsz.
  destruct (deallocuvm_spec kend kend_high s pgdir tabs um rest free sz newsz Hu Hn ltac:(unfold KERNBASE; lia))
    as (s' & free' & E & Hu' & Hpe & Hb & Hr). fold (npages newsz) (npages sz) in *.
  exists s', (keep (npages newsz) (npages sz) um), free'. split_and!; [done|done|done|exact Hb| |].
  - eapply unchanged_memory; [exact Hu|exact Hf| | |exact Hb| |]; unfold npages, KERNBASE; try divmod.
    intros q u Hq Eq. apply Hr. apply elem_of_app; left. apply (tables_lookup _ q). rewrite keep_lookup.
    rewrite decide_False by (unfold npages; lia). done.
  - intros q. rewrite keep_lookup. destruct (decide _) as [Hin|Hout].
    + split; [by intros [? ?]|]. unfold npages in *. divmod.
    + rewrite (Hf q). unfold npages in *. divmod.
Qed.

(** C18. What [sbrk] does to a process.  For a process of [sz] bytes and any
    [int] [n], [growproc] terminates without panic, keeps the kernel half and
    accounts for every page, with one of four results: it succeeds with size
    [sz + n], keeping all memory below both sizes and giving zeroed pages,
    readable and writable for the user, above; it fails with size and memory unchanged,
    which happens only when the new size would reach the kernel, when free pages
    run out, or when an empty process is to shrink; or, departing from a plain reading of the
    call, with [n < -sz] it reports success and changes nothing, and with
    [n = -sz] it reports failure and keeps the size but has freed all pages. *)
Theorem growproc_correct s pgdir tabs um rest free sz n : uspace s pgdir tabs um rest free -> full um sz ->
  0 <= sz < KERNBASE -> -2147483648 <= n <= INT_MAX ->
  exists r sz' s' tabs' um' free', growproc kend pgdir sz n s = Ok ((r, sz'), s') /\
    uspace s' pgdir tabs' um' rest free' /\
    tables tabs' ++ pages um' ++ free' ≡ₚ tables tabs ++ pages um ++ free /\
    (forall va, KERNBASE <= va < 4294967296 -> lookup_pte (k_mem s') pgdir va = lookup_pte (k_mem s) pgdir va) /\
    (r = 0 /\ sz' = sz + n /\ full um' sz' /\
       same_memory (k_mem s) (k_mem s') pgdir 0 (Z.min (npages sz) (npages sz')) /\
       (forall va, PGROUNDUP sz <= va < PGROUNDUP sz' ->
          uload (k_mem s') pgdir va = 0 /\ PTE_FLAGS (lookup_pte (k_mem s') pgdir va) = 7) \/
     r = -1 /\ sz' = sz /\ um' = um /\ same_memory (k_mem s) (k_mem s') pgdir 0 (npages sz) /\
       (sz + n >= KERNBASE \/ 0 < n /\ Z.of_nat (length free) <= 1024 + (npages (sz + n) - npages sz) \/ sz = 0 /\ n < 0) \/
     r = 0 /\ sz' = sz /\ n < - sz /\ s' = s /\ um' = um \/
     r = -1 /\ sz' = sz /\ n = - sz /\ 0 < sz /\ um' = ∅).
Proof.
  intros Hu Hf Hsz Hn. unfold growproc, KERNBASE, INT_MAX in *.
  destruct (Z.gtb_spec n 0) as [Hpos|Hnp]; [|destruct (Z.ltb_spec n 0) as [Hneg|Hz]].
  - rewrite (u32_small (sz + n)) by lia. destruct (decide (sz + n < 2147483648)) as [Hlt|Hge].
    + destruct (alloc_effect s pgdir tabs um rest free sz (sz + n) Hu Hf ltac:(lia) Hlt)
        as (r & s' & tabs' & um' & free' & E & Hu' & Hpe & Hb & Hm & Hres). mstep E.
      assert (forall va, 2147483648 <= va < 4294967296 -> lookup_pte (k_mem s') pgdir va = lookup_pte (k_mem s) pgdir va)
        as Hk by (intros va Hva; apply Hb; [lia|unfold npages; divmod]).
      destruct Hres as [(-> & Hf' & Hz)|(-> & -> & Hlen)].
      * replace (sz + n =? 0) with false by lia. exists 0, (sz + n), s', tabs', um', free'. split_and!; try done.
        left. split_and!; try done. by replace (Z.min _ _) with (npages sz) by (unfold npages; divmod).
      * exists (-1), sz, s', tabs', um, free'. split_and!; try done. right; left. split_and!; try done. right; left. by split.
    + unfold allocuvm. replace (sz + n >=? KERNBASE) with true by (unfold KERNBASE; lia).
      exists (-1), sz, s, tabs, um, free. split_and!; try done. right; left. split_and!; try done. left. lia.
  - destruct (decide (0 <= sz + n)) as [Hge|Hlt].
    + rewrite (u32_small (sz + n)) by lia.
      destruct (dealloc_effect s pgdir tabs um rest free sz (sz + n) Hu Hf ltac:(lia) ltac:(unfold KERNBASE; lia))
        as (s' & um' & free' & E & Hu' & Hpe & Hb & Hm & Hf'). mstep E.
      assert (forall va, 2147483648 <= va < 4294967296 -> lookup_pte (k_mem s') pgdir va = lookup_pte (k_mem s) pgdir va)
        as Hk by (intros va Hva; apply Hb; [lia|unfold npages; divmod]).
      destruct (Z.eqb_spec (sz + n) 0) as [E0|N0].
      * exists (-1), sz, s', tabs, um', free'. split_and!; try done; [by rewrite Hpe|]. right; right; right.
        split_and!; try lia. apply map_empty. intros q. destruct (um' !! q) eqn:Eq; [|done].
        apply (full_lookup _ _ _ _ Hf') in Eq. rewrite E0 in Eq. unfold npages in Eq. divmod.
      * exists 0, (sz + n), s', tabs, um', free'. split_and!; try done; [by rewrite Hpe|]. left. split_and!; try done.
        -- by replace (Z.min _ _) with (npages (sz + n)) by (unfold npages; divmod).
        -- intros va Hva. rewrite !PGROUNDUP_page in Hva by (unfold KERNBASE; lia). exfalso. revert Hva. divmod.
    + unfold deallocuvm. assert (u32 (sz + n) = sz + n + 4294967296) as -> by ints.
      replace (_ >=? sz) with true by lia. unfold bind, ret. destruct (Z.eqb_spec sz 0) as [->|N0].
      * exists (-1), 0, s, tabs, um, free. split_and!; try done. right; left. split_and!; try done. right; right. lia.
      * exists 0, sz, s, tabs, um, free. split_and!; try done. right; right; left. split_and!; (done || lia).
  - assert (n = 0) as -> by lia. exists 0, sz, s, tabs, um, free. split_and!; try done. left. rewrite Z.add_0_r.
    split_and!; try done. intros va Hva. lia.
Qed.
End Sbrk.

(** * Concrete address spaces

    A page directory at the end of the kernel and three free pages. *)

Definition demo_kend : Z := 2148663296.
Definition demo_page (i : Z) : Z := demo_kend + 4096 * i.
Definition demo_kernel : kstate :=
  mkk (st32 (st32 ∅ (demo_page 1) (demo_page 2)) (demo_page 2) (demo_page 3)) true (demo_page 1).
Definition demo_free : list Z := [demo_page 1; demo_page 2; demo_page 3].

Lemma demo_high : KERNBASE < demo_kend.
Proof. done. Qed.

Lemma demo_kmem : kmem_ok demo_kend demo_kernel demo_free.
Proof.
  constructor; [by vm_compute| |].
  - apply NoDup_ListNoDup. repeat constructor; vm_compute; intuition discriminate.
  - repeat constructor; vm_compute; intuition discriminate.
Qed.

Lemma demo_uspace : VmUser.uspace demo_kend demo_kernel (demo_page 0) ∅ ∅ [] demo_free.
Proof.
  assert (forall i, 0 <= i < 1024 -> ld32 (k_mem demo_kernel) (demo_page 0 + 4 * i) = 0) as Hdir.
  { intros i Hi. apply ld32_zero; [|done]. intros a Ha. cbn [demo_kernel k_mem]. unfold st32. rewrite !mget_mwrite, !length_le_bytes.
    unfold demo_page, demo_kend, PGSIZE in *. rewrite !decide_False by lia. done. }
  split.
  - constructor; [exact demo_kmem| |done| |].
    + intros i Hi. rewrite lookup_empty, Hdir by done. done.
    + apply NoDup_ListNoDup. repeat constructor; vm_compute; intuition discriminate.
    + repeat constructor; vm_compute; intuition discriminate.
  - constructor; [done|]. intros p Hp. rewrite lookup_empty. unfold lookup_pte.
    rewrite Hdir by apply PDX_range. done.
Qed.

(** The process grows to 5000 bytes, which takes a table and two pages. *)
Definition demo_grown : kstate := endstate (growproc demo_kend (demo_page 0) 0 5000) demo_kernel.

Lemma demo_growproc : growproc demo_kend (demo_page 0) 0 5000 demo_kernel = Ok ((0, 5000), demo_grown).
Proof.
  refine (result_Ok (growproc demo_kend (demo_page 0) 0 5000) demo_kernel (0, 5000) _).
  vm_compute. reflexivity.
Qed.

Lemma demo_full : full ∅ 0.
Proof. intros q. rewrite lookup_empty. split; [by intros [? ?]|lia]. Qed.

Lemma process_pages_conserved_witness :
  rtc (grow demo_kend (demo_page 0)) (demo_kernel, 0) (demo_grown, 5000) /\
  exists s' free', freevm demo_kend (demo_page 0) demo_grown = Ok (tt, s') /\ kmem_ok demo_kend s' free' /\
    free' ≡ₚ demo_page 0 :: tables ∅ ++ demo_free.
Proof.
  assert (rtc (grow demo_kend (demo_page 0)) (demo_kernel, 0) (demo_grown, 5000)) as Hr.
  { apply rtc_once. eapply grow_call; [|exact demo_growproc]. unfold INT_MAX; lia. }
  split; [exact Hr|].
  exact (proj2 (process_pages_conserved demo_kend demo_high _ _ _ _ _ _ _ demo_uspace Hr)).
Defined.

Lemma setupkvm_kernel_half_witness :
  exists r s', setupkvm demo_kend (demo_page (-2)) demo_kernel = Ok (r, s') /\
    ((r = 0 /\ (length demo_free <= 1025)%nat /\ exists free', kmem_ok demo_kend s' free' /\ free' ≡ₚ demo_free) \/
     (r <> 0 /\ (exists used free', kmem_ok demo_kend s' free' /\ r :: used ++ free' ≡ₚ demo_free) /\
      forall va, 0 <= va < 4294967296 ->
        lookup_pte (k_mem s') r va = kernel_pte (demo_page (-2)) va /\
        has PTE_U (lookup_pte (k_mem s') r va) = false /\
        (va < KERNBASE -> has PTE_P (lookup_pte (k_mem s') r va) = false))).
Proof. exact (setupkvm_kernel_half demo_kend (demo_page (-2)) demo_high eq_refl ltac:(done) _ _ demo_kmem). Defined.

Lemma demo_parent : exists s tabs um free,
  VmUser.uspace demo_kend s (demo_page 0) tabs um [] free /\ full um 5000.
Proof.
  destruct (alloc_effect demo_kend demo_high demo_kernel (demo_page 0) ∅ ∅ [] demo_free 0 5000 demo_uspace demo_full
    ltac:(lia) ltac:(done)) as (r & s & tabs & um & free & E & Hu & _ & _ & _ & Hres).
  assert (result (allocuvm demo_kend (demo_page 0) 0 5000) demo_kernel = Some 5000) as Er by (vm_compute; reflexivity).
  pose proof (result_inj _ _ _ _ _ Er E) as ->. clear E Er. destruct Hres as [(_ & Hf & _)|[? _]]; [|done].
  by exists s, tabs, um, free.
Qed.

Lemma fork_copies_memory_witness : exists s tabs um free,
  VmUser.uspace demo_kend s (demo_page 0) tabs um [] free /\ full um 5000 /\
  exists d s', copyuvm demo_kend (demo_page (-2)) (demo_page 0) 5000 s = Ok (d, s') /\
    forall v, v ∈ demo_page 0 :: tables tabs ++ tables um ++ [] -> same_page (k_mem s) (k_mem s') v.
Proof.
  destruct demo_parent as (s & tabs & um & free & Hu & Hf).
  exists s, tabs, um, free. split_and!; [exact Hu|exact Hf|].
  assert (forall q, 0 <= 4096 * q < 5000 -> is_Some (um !! q)) as Hq by (intros q Hq; apply Hf; lia).
  assert (0 <= 5000 < KERNBASE) as Hsz by done.
  assert (KERNLINK < demo_page (-2) < KERNBASE + PHYSTOP) as Hd by done.
  destruct (fork_copies_memory demo_kend (demo_page (-2)) demo_high eq_refl Hd s (demo_page 0) tabs um [] free 5000
    Hu Hsz Hq) as (d & s' & Ed & Hs & _).
  exists d, s'. split; [exact Ed|exact Hs].
Defined.

Lemma growproc_correct_witness :
  exists r sz' s', growproc demo_kend (demo_page 0) 0 5000 demo_kernel = Ok ((r, sz'), s') /\
    forall va, KERNBASE <= va < 4294967296 ->
      lookup_pte (k_mem s') (demo_page 0) va = lookup_pte (k_mem demo_kernel) (demo_page 0) va.
Proof.
  destruct (growproc_correct demo_kend demo_high demo_kernel (demo_page 0) ∅ ∅ [] demo_free 0 5000 demo_uspace demo_full
    ltac:(done) ltac:(done)) as (r & sz' & s' & tabs' & um' & free' & E & _ & _ & Hk & _).
  exists r, sz', s'. split; [exact E|exact Hk].
Defined.
