(* ===== verification/VmImage.v ===== *)
(** Building the memory of a program (vm.c, as exec uses it): the address space as an
    array of bytes with permissions, and what [allocuvm], [loaduvm]'s stores,
    [clearpteu], [copyout] and [freevm] do to it. *)

From S2P Require Import Prelude Mem Kalloc Vm VmSpace VmUser VmKernel VmCopy.
Local Open Scope Z_scope.

Lemma npages_top sz : 0 <= sz < KERNBASE -> sz <= 4096 * npages sz <= KERNBASE /\ 0 <= npages sz <= 524288.
Proof. unfold npages, KERNBASE. intros H. divmod. Qed.

Lemma full_length um sz : 0 <= sz -> full um sz -> Z.of_nat (length (tables um)) = npages sz.
Proof.
  intros Hsz Hf. assert (dom um = list_to_set (C := gset Z) (Z.of_nat <$> seq 0 (Z.to_nat (npages sz)))) as Hd.
  { apply set_eq. intros q. rewrite elem_of_dom, (Hf q), elem_of_list_to_set, list_elem_of_fmap. split.
    - intros Hq. exists (Z.to_nat q). rewrite elem_of_seq. unfold npages. split; divmod.
    - intros (k & -> & Hk%elem_of_seq). unfold npages in Hk. divmod. }
  unfold tables. rewrite length_fmap. rewrite length_map_to_list.
  rewrite <- size_dom, Hd, size_list_to_set, length_fmap, length_seq; [|apply NoDup_fmap_2; [apply _|apply NoDup_seq]].
  unfold npages. divmod.
Qed.

Lemma has_U_flags e : 0 <= e < 4294967296 -> has PTE_U e = has PTE_U (PTE_FLAGS e).
Proof.
  intros He. unfold has, PTE_FLAGS, PTE_U. rewrite u32_small by done. rewrite <- Z.land_assoc. done.
Qed.

Lemma land_lnot_range f x : 0 <= f -> 0 <= Z.land f (Z.lnot x) <= f.
Proof.
  intros Hf. apply Z.ldiff_le; [done|]. apply Z.bits_inj'. intros n Hn.
  rewrite Z.ldiff_spec, Z.land_spec, Z.bits_0. by destruct (Z.testbit f n), (Z.testbit (Z.lnot x) n).
Qed.

(** Clearing the user bit of an entry leaves its address. *)
Lemma clear_U a f : a mod 4096 = 0 -> 0 <= f < 4096 ->
  Z.land (a + f) (Z.lnot PTE_U) = a + Z.land f (Z.lnot PTE_U) /\
  has PTE_P (Z.land f (Z.lnot PTE_U)) = has PTE_P f.
Proof.
  intros Ha Hf. pose proof (land_lnot_range f PTE_U ltac:(lia)) as Hr. split.
  - rewrite <- (lor_flags a f), <- (lor_flags a (Z.land f (Z.lnot PTE_U))), Z.land_lor_distr_l by lia. f_equal.
    apply Z.bits_inj'. intros n Hn. rewrite Z.land_spec, Z.lnot_spec by done. unfold PTE_U. change 4 with (2 ^ 2).
    destruct (Z.eq_dec n 2) as [->|Hne]; [|rewrite Z.pow2_bits_false by done; apply andb_true_r].
    replace a with (a / 4096 * 2 ^ 12) by (change (2 ^ 12) with 4096; divmod).
    by rewrite Z.mul_pow2_bits_low by lia.
  - unfold has. by rewrite <- Z.land_assoc.
Qed.

(** The memory [img] with the bytes [l] at [va]. *)
Definition write_img (img : Z -> Z) (va : Z) (l : bytes) : Z -> Z :=
  fun x => if decide (va <= x < va + Z.of_nat (length l)) then l !!! Z.to_nat (x - va) else img x.

Lemma write_img_app img va l k x : (k <= length l)%nat ->
  write_img (write_img img va (take k l)) (va + Z.of_nat k) (drop k l) x = write_img img va l x.
Proof.
  intros Hk. unfold write_img. rewrite length_drop, length_take, Nat.min_l by done.
  destruct (decide (va + Z.of_nat k <= x < va + Z.of_nat k + Z.of_nat (length l - k))).
  - rewrite decide_True by lia. rewrite lookup_total_drop. f_equal. lia.
  - destruct (decide (va <= x < va + Z.of_nat k)).
    + rewrite decide_True by lia. apply lookup_total_take_lt. lia.
    + by rewrite decide_False by lia.
Qed.

(** The flags of the pages of [allocuvm]. *)
Definition user_flags : Z := 7.

Section Image.
  Context (kend data : Z).
Abbreviation page_ok := (page_ok kend).
Abbreviation space := (space kend).
Abbreviation uspace := (uspace kend).
Abbreviation pages := tables.
  Hypothesis kend_high : KERNBASE < kend.
  Hypothesis data_aligned : data mod 4096 = 0.
  Hypothesis data_range : KERNLINK < data < KERNBASE + PHYSTOP.

(** The address space [pgdir] made of pages of [all], beside the pages [rest]: its user
    memory of [sz] bytes holds the bytes [img], its pages have the flags [fl]. *)
Record image (s : kstate) (pgdir : Z) (rest all : list Z) (sz : Z) (img fl : Z -> Z) : Prop := {
  im_space : exists tabs um free, uspace s pgdir tabs um rest free /\ full um sz /\
    pgdir :: tables tabs ++ pages um ++ free ≡ₚ all;
  im_size : 0 <= sz < KERNBASE;
  im_bytes : forall va, 0 <= va < 4096 * npages sz -> uload (k_mem s) pgdir va = img va;
  im_flags : forall va, 0 <= va < 4096 * npages sz -> PTE_FLAGS (lookup_pte (k_mem s) pgdir va) = fl (va / 4096);
  im_kernel : forall va, KERNBASE <= va < 4294967296 -> lookup_pte (k_mem s) pgdir va = kernel_pte data va
}.

(** The page of an address in use. *)
Lemma image_page s pgdir tabs um rest free sz va : uspace s pgdir tabs um rest free -> full um sz -> 0 <= sz < KERNBASE ->
  0 <= va < 4096 * npages sz ->
  exists u f t, um !! (va / 4096) = Some u /\ page_ok u /\ 0 <= f < 4096 /\ has PTE_P f = true /\
    lookup_pte (k_mem s) pgdir va = V2P u + f /\ tabs !! PDX va = Some t /\
    ld32 (k_mem s) (t + 4 * PTX va) = V2P u + f.
Proof.
  intros [Hs Hus] Hf Hsz Hva. pose proof (npages_top sz Hsz) as Htop. unfold KERNBASE in Htop.
  destruct (proj2 (Hf (va / 4096))) as [u Hu]; [unfold npages in Hva; divmod|].
  pose proof (us_map _ _ _ Hus (va / 4096) ltac:(divmod)) as Hm. rewrite Hu in Hm. destruct Hm as (f & Hff & Hp & Hl).
  assert (page_ok u) as Hpu.
  { apply tables_lookup in Hu. eapply space_own_page; [exact Hs|set_solver +Hu]. }
  rewrite <- lookup_page in Hl by lia. pose proof (lookup_table _ _ _ _ _ va Hs) as Hlt. rewrite Hl in Hlt.
  destruct (tabs !! PDX va) as [t|] eqn:Et; [by exists u, f, t|]. exfalso.
  destruct (V2P_page _ _ Hpu) as (_ & _ & Hr). assert (f = 0) as -> by lia. done.
Qed.

Lemma uload_page m pgdir u f va : page_ok u -> 0 <= f < 4096 -> lookup_pte m pgdir va = V2P u + f ->
  uload m pgdir va = mget m (u + va mod 4096) /\ PTE_FLAGS (lookup_pte m pgdir va) = f.
Proof.
  intros Hu Hf Hl. unfold uload. rewrite Hl. destruct (entry_read kend u f Hu Hf) as (_ & -> & -> & _). done.
Qed.

(** An image stays while its own pages do. *)
Lemma image_frame s pgdir rest all sz img fl : image s pgdir rest all sz img fl ->
  exists own free, pgdir ∈ own /\ own ++ free ≡ₚ all /\ kmem_ok kend s free /\ NoDup (own ++ rest ++ free) /\
    Forall page_ok (own ++ rest ++ free) /\
    forall s' rest' free', (forall v, v ∈ own -> same_page (k_mem s) (k_mem s') v) -> kmem_ok kend s' free' ->
      NoDup (own ++ rest' ++ free') -> Forall page_ok (own ++ rest' ++ free') ->
      image s' pgdir rest' (own ++ free') sz img fl.
Proof.
  intros [(tabs & um & free & Hu & Hf & Hpe) Hsz Hb Hfl Hk]. exists (pgdir :: tables tabs ++ pages um), free.
  assert (forall r fr, (pgdir :: tables tabs ++ pages um) ++ r ++ fr = pgdir :: tables tabs ++ (pages um ++ r) ++ fr) as Eapp
    by (intros; by rewrite <- app_comm_cons, <- !app_assoc).
  rewrite Eapp. split_and!; [left|by rewrite <- app_comm_cons, <- app_assoc|apply (proj1 Hu)|apply (proj1 Hu)|apply (proj1 Hu)|].
  intros s' rest' free' Hsame Hk' Hn Hp. rewrite Eapp in Hn, Hp.
  destruct (uspace_beside kend s s' pgdir tabs um rest free rest' free' Hu) as [Hu' Hl]; [|done|done|done|].
  { intros v Hv. apply Hsame. set_solver +Hv. }
  constructor; [|done| | |].
  - exists tabs, um, free'. split_and!; [done|done|]. by rewrite <- app_comm_cons, <- app_assoc.
  - intros va Hva. destruct (image_page s pgdir tabs um rest free sz va Hu Hf Hsz Hva) as (u & f & t & Eu & Pu & Hff & _ & Hlk & _).
    destruct (uload_page (k_mem s') pgdir u f va Pu Hff) as [-> _]; [by rewrite Hl|].
    rewrite <- (Hb va Hva). destruct (uload_page (k_mem s) pgdir u f va Pu Hff Hlk) as [-> _].
    apply (Hsame u); [apply tables_lookup in Eu; set_solver +Eu|]. unfold PGSIZE. divmod.
  - intros va Hva. rewrite Hl. by apply Hfl.
  - intros va Hva. rewrite Hl. by apply Hk.
Qed.

(** ** Stores into a user page *)

Lemma image_write s pgdir rest all sz img fl va l : image s pgdir rest all sz img fl ->
  0 <= va -> va + Z.of_nat (length l) <= 4096 * (va / 4096) + 4096 -> va < 4096 * npages sz ->
  let a := P2V (PTE_ADDR (lookup_pte (k_mem s) pgdir va)) + va mod 4096 in
  let s' := mkk (mwrite (k_mem s) a l) (k_use_lock s) (k_freelist s) in
  image s' pgdir rest all sz (write_img img va l) fl /\
  (forall v, v ∈ rest -> same_page (k_mem s) (k_mem s') v).
Proof.
  intros [(tabs & um & free & Hu & Hf & Hpe) Hsz Hb Hfl Hk] Hva Hl Hlt a s'.
  destruct (image_page s pgdir tabs um rest free sz va Hu Hf Hsz ltac:(lia)) as (u & f & t & Eu & Pu & Hff & Hp & Hlk & Et & _).
  assert (a = u + va mod 4096) as Ea.
  { unfold a. rewrite Hlk. by destruct (entry_read kend u f Pu Hff) as (_ & -> & _). }
  pose proof Hu as [Hs Hus]. pose proof (tables_lookup _ _ _ Eu) as Hin.
  assert (forall w, page_ok w -> w <> u -> same_page (k_mem s) (mwrite (k_mem s) a l) w) as Hsame.
  { intros w Hw Hne x Hx. rewrite mget_mwrite, decide_False; [done|]. rewrite Ea.
    destruct (pages_apart kend w u Hw Pu Hne); unfold PGSIZE in *; pose proof (Z.mod_pos_bound va 4096); divmod. }
  destruct (space_own_mem s pgdir tabs (pages um ++ rest) free u (fun m => mwrite m a l) Hs) as [Hs' Hl'];
    [set_solver +Hin|done|]. fold s' in Hs', Hl'.
  assert (NoDup (pages um ++ rest)) as Hnd.
  { pose proof (sp_nodup _ _ _ _ _ _ Hs) as Hn. apply NoDup_cons in Hn as [_ Hn]. apply NoDup_app in Hn as (_ & _ & Hn).
    by apply NoDup_app in Hn as (Hn & _). }
  apply NoDup_app in Hnd as (Hnu & Hdj & _). split.
  - constructor; [|done| | |].
    + exists tabs, um, free. split_and!; [split; [done|]|done|done]. eapply user_ext; [exact Hus|]. intros x _. apply Hl'.
    + intros x Hx. destruct (image_page s pgdir tabs um rest free sz x Hu Hf Hsz Hx) as (w & g & t' & Ew & Pw & Hg & _ & Hlx & _ & _).
      pose proof (npages_top sz Hsz) as Htop. unfold KERNBASE in Htop.
      destruct (uload_page (k_mem s') pgdir w g x Pw Hg) as [-> _]; [by rewrite Hl'|].
      destruct (uload_page (k_mem s) pgdir w g x Pw Hg Hlx) as [Ex _]. unfold write_img.
      cbn [k_mem s']. destruct (decide (x / 4096 = va / 4096)) as [Hsp|Hdp].
      * rewrite Hsp, Eu in Ew. injection Ew as <-. rewrite mget_mwrite, Ea.
        destruct (decide (va <= x < va + Z.of_nat (length l))) as [Hi|Ho].
        -- rewrite decide_True by divmod. f_equal. divmod.
        -- rewrite decide_False by divmod. by rewrite <- Ex, Hb.
      * rewrite decide_False by divmod. rewrite <- (Hb x Hx), Ex. apply (Hsame w Pw); [|unfold PGSIZE; divmod].
        intros ->. apply Hdp. eapply (tables_inj um); [done|done|done].
    + intros x Hx. rewrite Hl'. by apply Hfl.
    + intros x Hx. rewrite Hl'. by apply Hk.
  - intros v Hv. apply Hsame; [eapply space_own_page; [exact Hs|set_solver +Hv]|]. intros ->. by apply (Hdj u).
Qed.

(** ** The empty image, and its end *)

Lemma image_start s free rest : kmem_ok kend s free -> NoDup (rest ++ free) -> Forall page_ok (rest ++ free) ->
  exists r s', setupkvm kend data s = Ok (r, s') /\
    (forall v, v ∈ rest -> same_page (k_mem s) (k_mem s') v) /\
    ((r = 0 /\ (length free <= 1025)%nat /\ exists free', kmem_ok kend s' free' /\ free' ≡ₚ free) \/
     (r <> 0 /\ forall img fl, image s' r rest free 0 img fl)).
Proof.
  intros Hk Hn Hp. destruct (setupkvm_spec kend_high data_aligned data_range s free rest Hk Hn Hp) as (r & s' & E & Hr & H).
  exists r, s'. split_and!; [done|done|]. destruct H as [(-> & Hlen & Hf)|(Hr0 & tabs & free' & Hu & Hpe & Hl)]; [by left|right].
  split; [done|]. intros img fl. constructor; unfold npages, KERNBASE; [|lia|intros va Hva; divmod|intros va Hva; divmod|].
  - exists tabs, ∅, free'. split_and!; [done| |].
    + intros q. rewrite lookup_empty. split; [by intros [? ?]|lia].
    + unfold tables at 2. by rewrite map_to_list_empty.
  - intros va Hva. by apply Hl; lia.
Qed.

Lemma image_free s pgdir rest all sz img fl : image s pgdir rest all sz img fl ->
  exists s' free', freevm kend pgdir s = Ok (tt, s') /\ kmem_ok kend s' free' /\ free' ≡ₚ all /\
    (forall v, v ∈ rest -> same_page (k_mem s) (k_mem s') v).
Proof.
  intros [(tabs & um & free & Hu & Hf & Hpe) _ _ _ _].
  destruct (freevm_spec kend_high _ _ _ _ _ _ Hu) as (s' & free' & E & Hk & Hpf & Hr).
  exists s', free'. split_and!; [done|done|by rewrite Hpf|done].
Qed.

(** ** Growing *)

Lemma image_grow s pgdir rest all sz img fl newsz : image s pgdir rest all sz img fl -> 0 <= newsz < 4294967296 ->
  (forall q, npages sz <= q -> fl q = user_flags) -> (forall va, 4096 * npages sz <= va -> img va = 0) ->
  exists r s', allocuvm kend pgdir sz newsz s = Ok (r, s') /\
    (forall v, v ∈ rest -> same_page (k_mem s) (k_mem s') v) /\
    ((r = 0 /\ image s' pgdir rest all sz img fl /\ (newsz < KERNBASE -> Z.of_nat (length all) <= 2049 + npages newsz)) \/
     (newsz < KERNBASE /\ r = Z.max sz newsz /\ image s' pgdir rest all r img fl)).
Proof.
  intros Hi Hn Hfl Himg. pose proof Hi as [(tabs & um & free & Hu & Hf & Hpe) Hsz Hb Hfg Hk].
  destruct (decide (newsz < KERNBASE)) as [Hlt|Hge]; [destruct (decide (newsz < sz)) as [Hsm|Hgr]|].
  - exists sz, s. split_and!; [|done|right; split_and!; [done|lia|done]]. unfold allocuvm.
    replace (newsz >=? KERNBASE) with false by lia. by replace (newsz <? sz) with true by lia.
  - destruct (alloc_effect kend kend_high s pgdir tabs um rest free sz newsz Hu Hf ltac:(lia) Hlt)
      as (r & s' & tabs' & um' & free' & E & Hu' & Hpe' & Hb' & Hm' & Hres).
    destruct (allocuvm_spec kend kend_high s pgdir tabs um rest free sz newsz Hu ltac:(lia) Hlt)
      as (r2 & s2 & tabs2 & um2 & free2 & E2 & _ & _ & _ & Hr2 & _).
    { intros q Hq. destruct (um !! q) eqn:Eq; [|done]. apply (full_lookup _ _ _ _ Hf) in Eq. unfold npages in Eq. lia. }
    rewrite E in E2. injection E2 as <- <-. clear tabs2 um2 free2.
    assert (pgdir :: tables tabs' ++ pages um' ++ free' ≡ₚ all) as Hall by by rewrite <- Hpe, Hpe'.
    assert (forall va, KERNBASE <= va < 4294967296 -> lookup_pte (k_mem s') pgdir va = kernel_pte data va) as Hker.
    { intros va Hva. rewrite Hb'; [by apply Hk|unfold KERNBASE in *; lia|]. unfold npages, KERNBASE in *. divmod. }
    exists r, s'. split_and!; [done|intros v Hv; apply Hr2; set_solver +Hv|].
    destruct Hres as [(-> & Hf' & Hz)|(-> & -> & Hlen)]; [right|left; split; [done|split; [|intros _]]].
    + split_and!; [done|lia|]. pose proof (npages_top sz Hsz) as T1. pose proof (npages_top newsz ltac:(lia)) as T2.
      assert (forall x, 0 <= x <= KERNBASE -> PGROUNDUP x = 4096 * npages x) as Hrd by (intros x Hx; by apply PGROUNDUP_page).
      rewrite !Hrd in Hz by lia. constructor; [by exists tabs', um', free'|lia| | |done].
      * intros va Hva. destruct (decide (va < 4096 * npages sz)) as [Hin|Hout].
        -- destruct (Hm' va) as [-> _]; [lia|]. apply Hb. lia.
        -- destruct (Hz va) as [-> _]; [lia|]. symmetry. apply Himg. lia.
      * intros va Hva. destruct (decide (va < 4096 * npages sz)) as [Hin|Hout].
        -- destruct (Hm' va) as [_ ->]; [lia|]. apply Hfg. lia.
        -- destruct (Hz va) as [_ ->]; [lia|]. symmetry. apply Hfl. divmod.
    + constructor; [by exists tabs', um, free'|lia| | |done]; intros va Hva; destruct (Hm' va ltac:(lia)) as [H1 H2].
      * rewrite H1. by apply Hb.
      * rewrite H2. by apply Hfg.
    + pose proof (space_tables _ _ _ _ _ (proj1 Hu)) as Ht. pose proof (full_length _ _ (proj1 Hsz) Hf) as Hl.
      rewrite <- Hpe. cbn [length]. rewrite !length_app. lia.
  - exists 0, s. split_and!; [|done|left; split_and!; [done|done|lia]]. unfold allocuvm. by replace (newsz >=? KERNBASE) with true by lia.
Qed.

(** ** Entries *)

Lemma image_walk s pgdir rest all sz img fl va : image s pgdir rest all sz img fl -> 0 <= va < 4096 * npages sz ->
  exists pte, walkpgdir pgdir va false s = Ok (pte, s) /\ pte <> 0 /\ ld32 (k_mem s) pte = lookup_pte (k_mem s) pgdir va /\
    has PTE_P (lookup_pte (k_mem s) pgdir va) = true.
Proof.
  intros [(tabs & um & free & Hu & Hf & Hpe) Hsz _ _ _] Hva.
  destruct (image_page s pgdir tabs um rest free sz va Hu Hf Hsz Hva) as (u & f & t & Eu & Pu & Hff & Hp & Hlk & Et & Hld).
  destruct (walk_hit s pgdir tabs _ free va false t (proj1 Hu) Et) as [E Hz].
  exists (t + 4 * PTX va). split_and!; [done|done|by rewrite Hld, Hlk|].
  rewrite Hlk. destruct (entry_read kend u f Pu Hff) as (_ & _ & _ & _ & ->). done.
Qed.

Lemma lookup_range s pgdir rest all sz img fl va : image s pgdir rest all sz img fl -> 0 <= va < 4096 * npages sz ->
  0 <= lookup_pte (k_mem s) pgdir va < 4294967296.
Proof.
  intros [(tabs & um & free & Hu & Hf & Hpe) Hsz _ _ _] Hva.
  destruct (image_page s pgdir tabs um rest free sz va Hu Hf Hsz Hva) as (u & f & t & Eu & Pu & Hff & Hp & Hlk & Et & Hld).
  rewrite Hlk. by destruct (entry_read kend u f Pu Hff) as (? & _).
Qed.

Lemma uva2ka_user s pgdir rest all sz img fl va : image s pgdir rest all sz img fl -> 0 <= va < 4096 * npages sz ->
  uva2ka pgdir va s = Ok (if has PTE_U (fl (va / 4096)) then P2V (PTE_ADDR (lookup_pte (k_mem s) pgdir va)) else 0, s).
Proof.
  intros Hi Hva. destruct (image_walk _ _ _ _ _ _ _ _ Hi Hva) as (pte & E & Hz & Hl & Hp).
  unfold uva2ka. mstep E. rewrite (proj2 (Z.eqb_neq _ _) Hz). mstep (eq_refl : load pte s = Ok (ld32 (k_mem s) pte, s)).
  rewrite Hl, Hp. cbn [negb]. rewrite has_U_flags by (by eapply lookup_range).
  rewrite (im_flags _ _ _ _ _ _ _ Hi va Hva). by destruct (has PTE_U _).
Qed.

(** The device space is there, but not for users. *)
Lemma uva2ka_device s pgdir rest all sz img fl va : image s pgdir rest all sz img fl ->
  DEVSPACE <= va < 4294967296 -> va mod 4096 = 0 -> uva2ka pgdir va s = Ok (0, s).
Proof.
  intros Hi Hva Hal. pose proof Hi as [(tabs & um & free & [Hs Hus] & Hf & Hpe) Hsz _ _ Hk].
  assert (lookup_pte (k_mem s) pgdir va = va + 3) as Hl.
  { rewrite Hk by (unfold DEVSPACE, KERNBASE in *; lia). unfold kernel_pte. rewrite PGROUNDDOWN_eq, Hal.
    unfold DEVSPACE, KERNBASE, KERNLINK, EXTMEM, PHYSTOP in *.
    repeat match goal with |- context [?x <? ?y] => destruct (Z.ltb_spec x y); try lia end. unfold PTE_P, PTE_W. lia. }
  pose proof (lookup_table _ _ _ _ _ va Hs) as Hlt. rewrite Hl in Hlt.
  destruct (tabs !! PDX va) as [t|] eqn:Et; [|unfold DEVSPACE in Hva; lia].
  destruct (walk_hit s pgdir tabs _ free va false t Hs Et) as [E Hz].
  unfold uva2ka. mstep E. rewrite (proj2 (Z.eqb_neq _ _) Hz).
  mstep (eq_refl : load (t + 4 * PTX va) s = Ok (ld32 (k_mem s) (t + 4 * PTX va), s)). rewrite <- Hlt.
  assert (PTE_FLAGS (va + 3) = 3) as Hfl by (rewrite PTE_FLAGS_eq by (unfold DEVSPACE in *; divmod); divmod).
  rewrite has_U_flags, Hfl by (unfold DEVSPACE in *; divmod). destruct (negb _); done.
Qed.

(** ** A page that users may not touch *)

Lemma image_guard s pgdir rest all sz img fl q : image s pgdir rest all sz img fl -> 0 <= q < npages sz ->
  exists s', clearpteu pgdir (4096 * q) s = Ok (tt, s') /\
    image s' pgdir rest all sz img (fun p => if decide (p = q) then Z.land (fl p) (Z.lnot PTE_U) else fl p) /\
    (forall v, v ∈ rest -> same_page (k_mem s) (k_mem s') v).
Proof.
  intros Hi Hq. pose proof Hi as [(tabs & um & free & Hu & Hf & Hpe) Hsz Hb Hfl Hk].
  assert (0 <= 4096 * q < 4096 * npages sz) as Hva by lia.
  destruct (image_page s pgdir tabs um rest free sz _ Hu Hf Hsz Hva) as (u & f & t & Eu & Pu & Hff & Hp & Hlk & Et & Hld).
  destruct (walk_hit s pgdir tabs _ free (4096 * q) false t (proj1 Hu) Et) as [E Hz].
  unfold clearpteu. mstep E. rewrite (proj2 (Z.eqb_neq _ _) Hz).
  mstep (eq_refl : load (t + 4 * PTX (4096 * q)) s = Ok (ld32 (k_mem s) (t + 4 * PTX (4096 * q)), s)). rewrite Hld.
  replace (4096 * q / 4096) with q in * by divmod. destruct (V2P_page _ _ Pu) as (_ & Hal & Hr).
  destruct (clear_U (V2P u) f Hal Hff) as [-> HP]. set (f' := Z.land f (Z.lnot PTE_U)) in *.
  pose proof (land_lnot_range f PTE_U ltac:(lia)) as Hf'. fold f' in Hf'. unfold PHYSTOP in Hr.
  destruct (space_set_pte s pgdir tabs _ free (4096 * q) t (V2P u + f') (proj1 Hu) Et ltac:(lia)) as (Hs' & Hl' & Hsame).
  set (s' := mkk _ _ _) in *. pose proof (npages_top sz Hsz) as Htop. unfold KERNBASE in Htop.
  assert (forall va, 0 <= va < 4294967296 -> lookup_pte (k_mem s') pgdir va =
    if decide (va / 4096 = q) then V2P u + f' else lookup_pte (k_mem s) pgdir va) as Hlk'.
  { intros va Hva'. rewrite Hl'. pose proof (same_entry (4096 * q) va ltac:(lia) Hva') as Hse.
    replace (4096 * q / 4096) with q in Hse by divmod. destruct (decide (va / 4096 = q)) as [Hin|Hout].
    - by rewrite decide_True by tauto.
    - by rewrite decide_False by tauto. }
  assert (forall v, v ∈ pages um ++ rest -> same_page (k_mem s) (k_mem s') v) as Hsm.
  { intros v Hv. apply Hsame; [by eapply space_own_page; [exact (proj1 Hu)|]|]. intros ->. apply tables_lookup in Et.
    pose proof (sp_nodup _ _ _ _ _ _ (proj1 Hu)) as Hn. apply NoDup_cons in Hn as [_ Hn].
    apply NoDup_app in Hn as (_ & Hdj & _). apply (Hdj t Et). set_solver +Hv. }
  assert (fl q = f) as Eflq.
  { destruct (uload_page (k_mem s) pgdir u f (4096 * q) Pu Hff Hlk) as [_ Hx].
    rewrite (Hfl (4096 * q) Hva) in Hx. by replace (4096 * q / 4096) with q in Hx by divmod. }
  exists s'. split; [done|]. split; [|intros v Hv; apply Hsm; set_solver +Hv]. constructor; [|done| | |].
  - exists tabs, um, free. split_and!; [split; [done|]|done|done]. destruct Hu as [_ [Hdom Hmap]]. constructor; [done|].
    intros p Hpr. specialize (Hmap p Hpr). rewrite Hlk' by lia. replace (4096 * p / 4096) with p by divmod.
    destruct (decide (p = q)) as [->|]; [|done]. rewrite Eu. exists f'. split_and!; [lia|lia|by rewrite HP|done].
  - intros va Hva'. destruct (image_page s pgdir tabs um rest free sz va Hu Hf Hsz Hva') as (w & g & t' & Ew & Pw & Hg & _ & Hlx & _ & _).
    rewrite <- (Hb va Hva'). destruct (uload_page (k_mem s) pgdir w g va Pw Hg Hlx) as [-> _].
    assert (exists g', 0 <= g' < 4096 /\ lookup_pte (k_mem s') pgdir va = V2P w + g') as (g' & Hg' & Hlx').
    { rewrite Hlk' by lia. destruct (decide (va / 4096 = q)) as [Eq|]; [|by exists g].
      rewrite Eq, Eu in Ew. injection Ew as <-. exists f'. split; [lia|done]. }
    destruct (uload_page (k_mem s') pgdir w g' va Pw Hg' Hlx') as [-> _]. apply (Hsm w); [|unfold PGSIZE; divmod].
    apply tables_lookup in Ew. set_solver +Ew.
  - intros va Hva'. rewrite Hlk' by lia. destruct (decide (va / 4096 = q)) as [Eq|]; [|by apply Hfl].
    rewrite Eq, Eflq. fold f'. by destruct (entry_read kend u f' Pu ltac:(lia)) as (_ & _ & -> & _).
  - intros va Hva'. unfold KERNBASE in Hva'. rewrite Hlk' by lia. rewrite decide_False by divmod. apply Hk. unfold KERNBASE. lia.
Qed.

(** ** copyout *)

Lemma image_ext s pgdir rest all sz img img' fl : image s pgdir rest all sz img fl ->
  (forall va, 0 <= va < 4096 * npages sz -> img va = img' va) -> image s pgdir rest all sz img' fl.
Proof. intros [H1 H2 H3 H4 H5] He. constructor; try done. intros va Hva. rewrite H3 by done. by apply He. Qed.

(** The same pages, for a size that is rounded up. *)
Lemma image_round s pgdir rest all sz img fl : image s pgdir rest all sz img fl -> 4096 * npages sz < KERNBASE ->
  image s pgdir rest all (4096 * npages sz) img fl.
Proof.
  intros [(tabs & um & free & Hu & Hf & Hpe) H2 H3 H4 H5] Hlt.
  assert (npages (4096 * npages sz) = npages sz) as En by (unfold npages; divmod).
  pose proof (npages_top sz H2). constructor; rewrite ?En; try done; [|lia]. exists tabs, um, free. split_and!; [done| |done].
  intros q. rewrite (Hf q). unfold npages. divmod.
Qed.

Lemma image_flags_ext s pgdir rest all sz img fl fl' : image s pgdir rest all sz img fl ->
  (forall q, 0 <= q < npages sz -> fl q = fl' q) -> image s pgdir rest all sz img fl'.
Proof.
  intros [H1 H2 H3 H4 H5] He. constructor; try done. intros va Hva. rewrite H4 by done. apply He. divmod.
Qed.

(** One round of the loop, in a page that users may write. *)
Lemma copyout_round fuel s pgdir rest all sz img fl va buf : image s pgdir rest all sz img fl -> buf <> [] ->
  0 <= va < 4096 * npages sz -> has PTE_U (fl (va / 4096)) = true ->
  let k := Z.to_nat (Z.min (4096 - va mod 4096) (Z.of_nat (length buf))) in
  exists s', copyout_loop (S fuel) pgdir va buf s = copyout_loop fuel pgdir (4096 * (va / 4096) + 4096) (drop k buf) s' /\
    image s' pgdir rest all sz (write_img img va (take k buf)) fl /\ (forall v, v ∈ rest -> same_page (k_mem s) (k_mem s') v).
Proof.
  intros Hi Hne Hva HU k. destruct buf as [|c buf]; [done|]. set (b := c :: buf) in *.
  pose proof (im_size _ _ _ _ _ _ _ Hi) as Hsz. pose proof (npages_top sz Hsz) as Htop. unfold KERNBASE in Htop.
  assert (0 <= va mod 4096 < 4096) as Hmod by (apply Z.mod_pos_bound; lia).
  assert (length b <> 0%nat) as Hlb by done.
  assert (PGROUNDDOWN va = 4096 * (va / 4096)) as Erd by (rewrite PGROUNDDOWN_eq; divmod).
  assert (va - 4096 * (va / 4096) = va mod 4096) as Eoff by divmod.
  destruct (image_write s pgdir rest all sz img fl va (take k b) Hi ltac:(lia)) as [Hi' Hr'].
  { rewrite length_take. unfold k. lia. }
  { lia. }
  set (s' := mkk _ _ _) in *. exists s'. split_and!; [|done|done].
  unfold b at 1. cbn [copyout_loop]. fold b. rewrite Erd.
  assert (0 <= 4096 * (va / 4096) < 4096 * npages sz) as Hva0 by divmod.
  pose proof (uva2ka_user s pgdir rest all sz img fl _ Hi Hva0) as E.
  replace (4096 * (va / 4096) / 4096) with (va / 4096) in E by divmod. rewrite HU in E. mstep E.
  rewrite <- lookup_page by lia. rewrite Eoff.
  destruct (image_walk _ _ _ _ _ _ _ _ Hi Hva) as (pte & _ & _ & _ & Hp).
  assert (P2V (PTE_ADDR (lookup_pte (k_mem s) pgdir va)) <> 0) as Hnz.
  { destruct (im_space _ _ _ _ _ _ _ Hi) as (tabs & um & free & Hu & Hf & Hpe).
    destruct (image_page s pgdir tabs um rest free sz va Hu Hf Hsz Hva) as (u & f & t & Eu & Pu & Hff & _ & Hlk & _).
    rewrite Hlk. destruct (entry_read kend u f Pu Hff) as (_ & -> & _). by apply (page_nonzero kend). }
  rewrite (proj2 (Z.eqb_neq _ _) Hnz). unfold PGSIZE. fold k.
  mstep (eq_refl : on_mem (fun m => mwrite m (P2V (PTE_ADDR (lookup_pte (k_mem s) pgdir va)) + va mod 4096) (take k b)) s = Ok (tt, s')).
  by rewrite u32_small by lia.
Qed.

Lemma copyout_user fuel : forall s pgdir rest all sz img fl va buf, image s pgdir rest all sz img fl ->
  0 <= va -> va + Z.of_nat (length buf) <= 4096 * npages sz -> (length buf <= fuel)%nat ->
  (forall q, va / 4096 <= q -> 4096 * q < va + Z.of_nat (length buf) -> has PTE_U (fl q) = true) ->
  exists s', copyout_loop fuel pgdir va buf s = Ok (0, s') /\ image s' pgdir rest all sz (write_img img va buf) fl /\
    (forall v, v ∈ rest -> same_page (k_mem s) (k_mem s') v).
Proof.
  induction fuel as [|fuel IH]; intros s pgdir rest all sz img fl va buf Hi Hva Hend Hf HU.
  { destruct buf; [|simpl in Hf; lia]. exists s. split_and!; [done| |done]. eapply image_ext; [exact Hi|].
    intros x _. unfold write_img. rewrite decide_False; [done|simpl; lia]. }
  destruct (decide (buf = [])) as [->|Hne].
  { exists s. split_and!; [done| |done]. eapply image_ext; [exact Hi|].
    intros x _. unfold write_img. rewrite decide_False; [done|simpl; lia]. }
  assert (0 < Z.of_nat (length buf)) as Hlb by (destruct buf; [done|simpl; lia]).
  assert (0 <= va mod 4096 < 4096) as Hmod by (apply Z.mod_pos_bound; lia).
  destruct (copyout_round fuel s pgdir rest all sz img fl va buf Hi Hne ltac:(lia)) as (s1 & E1 & Hi1 & Hr1); [apply HU; divmod|].
  set (k := Z.to_nat (Z.min (4096 - va mod 4096) (Z.of_nat (length buf)))) in *.
  destruct (decide (Z.of_nat (length buf) <= 4096 - va mod 4096)) as [Hfit|Hmore].
  - assert (k = length buf) as Ek by (unfold k; lia). rewrite Ek, drop_all in E1. rewrite Ek, take_ge in Hi1 by lia.
    exists s1. split_and!; [|done|done]. rewrite E1. by destruct fuel.
  - assert (Z.of_nat k = 4096 - va mod 4096) as Ek by (unfold k; lia).
    destruct (IH s1 pgdir rest all sz _ fl (4096 * (va / 4096) + 4096) (drop k buf) Hi1) as (s' & E2 & Hi2 & Hr2);
      [divmod|rewrite length_drop; divmod|rewrite length_drop; lia| |].
    { intros q Hq1 Hq2. rewrite length_drop in Hq2. apply HU; divmod. }
    exists s'. rewrite E1. split_and!; [done| |intros v Hv; by eapply same_page_trans; auto].
    eapply image_ext; [exact Hi2|]. intros x _.
    replace (4096 * (va / 4096) + 4096) with (va + Z.of_nat k) by divmod. apply write_img_app. lia.
Qed.

(** A range that meets a page without the user bit, after pages with it, fails. *)
Lemma copyout_stops fuel : forall s pgdir rest all sz img fl va buf g, image s pgdir rest all sz img fl -> buf <> [] ->
  0 <= va -> va / 4096 <= g < npages sz -> 4096 * g < va + Z.of_nat (length buf) -> (length buf <= fuel)%nat ->
  has PTE_U (fl g) = false -> (forall q, va / 4096 <= q < g -> has PTE_U (fl q) = true) ->
  exists s' img', copyout_loop fuel pgdir va buf s = Ok (-1, s') /\ image s' pgdir rest all sz img' fl /\
    (forall v, v ∈ rest -> same_page (k_mem s) (k_mem s') v).
Proof.
  induction fuel as [|fuel IH]; intros s pgdir rest all sz img fl va buf g Hi Hne Hva Hg Hend Hf Hno HU.
  { by destruct buf; [|simpl in Hf; lia]. }
  assert (0 <= va mod 4096 < 4096) as Hmod by (apply Z.mod_pos_bound; lia).
  destruct (decide (va / 4096 = g)) as [Eg|Ng].
  - exists s, img. split_and!; [|done|done]. destruct buf as [|c buf]; [done|]. cbn [copyout_loop].
    replace (PGROUNDDOWN va) with (4096 * g) by (rewrite PGROUNDDOWN_eq; divmod).
    pose proof (uva2ka_user s pgdir rest all sz img fl (4096 * g) Hi ltac:(divmod)) as E.
    replace (4096 * g / 4096) with g in E by divmod. rewrite Hno in E. by mstep E.
  - destruct (copyout_round fuel s pgdir rest all sz img fl va buf Hi Hne ltac:(divmod)) as (s1 & E1 & Hi1 & Hr1); [apply HU; lia|].
    set (k := Z.to_nat (Z.min (4096 - va mod 4096) (Z.of_nat (length buf)))) in *.
    assert (Z.of_nat k = 4096 - va mod 4096) as Ek by (unfold k; divmod).
    destruct (IH s1 pgdir rest all sz _ fl (4096 * (va / 4096) + 4096) (drop k buf) g Hi1) as (s' & img' & E2 & Hi2 & Hr2);
      [intros E0; apply (f_equal length) in E0; rewrite length_drop in E0; simpl in E0; divmod|divmod|divmod|rewrite length_drop; divmod|rewrite length_drop; unfold k; divmod|done| |].
    { intros q Hq. apply HU. divmod. }
    exists s', img'. rewrite E1. split_and!; [done|done|intros v Hv; by eapply same_page_trans; auto].
Qed.

Lemma copyout_device s pgdir rest all sz img fl va buf : image s pgdir rest all sz img fl -> buf <> [] ->
  DEVSPACE <= va < 4294967296 -> copyout pgdir va buf s = Ok (-1, s).
Proof.
  intros Hi Hne Hva. unfold copyout. destruct buf as [|c buf]; [done|]. cbn [length copyout_loop].
  assert (DEVSPACE <= PGROUNDDOWN va < 4294967296 /\ PGROUNDDOWN va mod 4096 = 0) as [H1 H2].
  { rewrite PGROUNDDOWN_eq. unfold DEVSPACE in *. divmod. }
  mstep (uva2ka_device s pgdir rest all sz img fl (PGROUNDDOWN va) Hi H1 H2). done.
Qed.
End Image.
