(* ===== verification/Proc.v ===== *)
(** Processes (proc.c): the process table, scheduling, sleep and wakeup, fork,
    exit, wait and kill, over page tables and the file side of a process.  This
    file has the definitions; ProcTable and ProcMem have the theorems. *)

From S2P Require Import Prelude Mem Strings Bio Kalloc Vm VmSpace VmUser.
Local Open Scope Z_scope.

(** * proc.h *)

Inductive procstate := UNUSED | EMBRYO | SLEEPING | RUNNABLE | RUNNING | ZOMBIE.
#[export] Instance procstate_eq : EqDecision procstate.
Proof. solve_decision. Defined.

(** What a process sleeps on: nothing (a null pointer), an entry of the process
    table, or any other address. *)
Inductive chan := NoChan | ChanProc (i : nat) | ChanAddr (a : Z).
#[export] Instance chan_eq : EqDecision chan.
Proof. solve_decision. Defined.

(** [X] stands for the fields [ofile] and [cwd]; the pointer [parent] is an index
    of the table. *)
Record proc (X : Type) := mkproc {
  p_sz : Z;
  p_pgdir : Z;
  p_kstack : Z;
  p_state : procstate;
  p_pid : Z;
  p_parent : option nat;
  p_tf : Z;
  p_context : Z;
  p_chan : chan;
  p_killed : Z;
  p_files : X;
  p_name : bytes
}.
Arguments mkproc {X}.
Arguments p_sz {X}.
Arguments p_pgdir {X}.
Arguments p_kstack {X}.
Arguments p_state {X}.
Arguments p_pid {X}.
Arguments p_parent {X}.
Arguments p_tf {X}.
Arguments p_context {X}.
Arguments p_chan {X}.
Arguments p_killed {X}.
Arguments p_files {X}.
Arguments p_name {X}.

(** x86.h: sizes and offsets of the saved registers. *)
Definition KSTACKSIZE : Z := 4096.
Definition SIZEOF_TRAPFRAME : Z := 76.
Definition SIZEOF_CONTEXT : Z := 20.
Definition TF_EAX : Z := 28.
Definition TF_ES : Z := 40.
Definition TF_DS : Z := 44.
Definition TF_EIP : Z := 56.
Definition TF_CS : Z := 60.
Definition TF_EFLAGS : Z := 64.
Definition TF_ESP : Z := 68.
Definition TF_SS : Z := 72.
Definition CTX_EIP : Z := 16.

(** mmu.h *)
Definition FL_IF : Z := 512.
Definition SEG_UCODE : Z := 3.
Definition SEG_UDATA : Z := 4.
Definition DPL_USER : Z := 3.

(** * What processes need of the rest of the kernel

    [E] is the state of the memory allocator and of the file side; [pf_fork] is
    filedup of the open files and idup of the directory, [pf_exit] their closing,
    [pf_init] the files of the first process, [pf_call] a call of sysfile.c by its
    number, and [pf_exec] exec: its result, and the process with its new memory and
    name. *)
Class ProcEnv (E X : Type) := {
  pe_mem : E -> kstate;
  pe_set : kstate -> E -> E;
  pf_none : X;
  pf_init : M E X;
  pf_fork : X -> M E X;
  pf_exit : X -> M E unit;
  pf_call : Z -> proc X -> M E (Z * X);
  pf_exec : bytes -> list bytes -> proc X -> M E (Z * proc X)
}.

(** The process table, the scheduler position and the process of every CPU. *)
Record pstate (E X : Type) := mkps {
  ps_proc : list (proc X);
  ps_nextpid : Z;
  ps_init : option nat;
  ps_cpu : list (option nat);
  ps_pos : list nat;
  ps_env : E
}.
Arguments mkps {E X}.
Arguments ps_proc {E X}.
Arguments ps_nextpid {E X}.
Arguments ps_init {E X}.
Arguments ps_cpu {E X}.
Arguments ps_pos {E X}.
Arguments ps_env {E X}.

Section Proc.
  Context (kend data : Z).
  (** Addresses of the assembly entry points. *)
  Context (trapret forkret : Z).
  Context {E X : Type} `{!ProcEnv E X}.
Abbreviation st := (pstate E X).

(** Assignments to fields. *)
Definition set_state (v : procstate) (p : proc X) : proc X :=
  mkproc (p_sz p) (p_pgdir p) (p_kstack p) v (p_pid p) (p_parent p) (p_tf p) (p_context p) (p_chan p) (p_killed p) (p_files p) (p_name p).
Definition set_chan (v : chan) (p : proc X) : proc X :=
  mkproc (p_sz p) (p_pgdir p) (p_kstack p) (p_state p) (p_pid p) (p_parent p) (p_tf p) (p_context p) v (p_killed p) (p_files p) (p_name p).
Definition set_parent (v : option nat) (p : proc X) : proc X :=
  mkproc (p_sz p) (p_pgdir p) (p_kstack p) (p_state p) (p_pid p) v (p_tf p) (p_context p) (p_chan p) (p_killed p) (p_files p) (p_name p).
Definition set_killed (v : Z) (p : proc X) : proc X :=
  mkproc (p_sz p) (p_pgdir p) (p_kstack p) (p_state p) (p_pid p) (p_parent p) (p_tf p) (p_context p) (p_chan p) v (p_files p) (p_name p).
Definition set_pid (v : Z) (p : proc X) : proc X :=
  mkproc (p_sz p) (p_pgdir p) (p_kstack p) (p_state p) v (p_parent p) (p_tf p) (p_context p) (p_chan p) (p_killed p) (p_files p) (p_name p).
Definition set_kstack (v : Z) (p : proc X) : proc X :=
  mkproc (p_sz p) (p_pgdir p) v (p_state p) (p_pid p) (p_parent p) (p_tf p) (p_context p) (p_chan p) (p_killed p) (p_files p) (p_name p).
Definition set_regs (tf ctx : Z) (p : proc X) : proc X :=
  mkproc (p_sz p) (p_pgdir p) (p_kstack p) (p_state p) (p_pid p) (p_parent p) tf ctx (p_chan p) (p_killed p) (p_files p) (p_name p).
Definition set_space (pgdir sz : Z) (p : proc X) : proc X :=
  mkproc sz pgdir (p_kstack p) (p_state p) (p_pid p) (p_parent p) (p_tf p) (p_context p) (p_chan p) (p_killed p) (p_files p) (p_name p).
Definition set_files (v : X) (p : proc X) : proc X :=
  mkproc (p_sz p) (p_pgdir p) (p_kstack p) (p_state p) (p_pid p) (p_parent p) (p_tf p) (p_context p) (p_chan p) (p_killed p) v (p_name p).
Definition set_name (v : bytes) (p : proc X) : proc X :=
  mkproc (p_sz p) (p_pgdir p) (p_kstack p) (p_state p) (p_pid p) (p_parent p) (p_tf p) (p_context p) (p_chan p) (p_killed p) (p_files p) v.

Definition put_procs (t : list (proc X)) (s : st) : st :=
  mkps t (ps_nextpid s) (ps_init s) (ps_cpu s) (ps_pos s) (ps_env s).
Definition put_env (e : E) (s : st) : st :=
  mkps (ps_proc s) (ps_nextpid s) (ps_init s) (ps_cpu s) (ps_pos s) e.
Definition put_cpu (c : nat) (v : option nat) (s : st) : st :=
  mkps (ps_proc s) (ps_nextpid s) (ps_init s) (<[c := v]> (ps_cpu s)) (ps_pos s) (ps_env s).
Definition put_pos (c v : nat) (s : st) : st :=
  mkps (ps_proc s) (ps_nextpid s) (ps_init s) (ps_cpu s) (<[c := v]> (ps_pos s)) (ps_env s).
Definition put_nextpid (v : Z) (s : st) : st :=
  mkps (ps_proc s) v (ps_init s) (ps_cpu s) (ps_pos s) (ps_env s).
Definition put_init (v : option nat) (s : st) : st :=
  mkps (ps_proc s) (ps_nextpid s) v (ps_cpu s) (ps_pos s) (ps_env s).

Definition env {A} : M E A -> M st A := zoom ps_env put_env.
Definition memory {A} : M kstate A -> M st A := zoom (fun s => pe_mem (ps_env s)) (fun k s => put_env (pe_set k (ps_env s)) s).

(** [p->field = ...] for entry [i]; reading entry [i]. *)
Definition upd (i : nat) (f : proc X -> proc X) : M st unit := modify (fun s => put_procs (alter f i (ps_proc s)) s).
Definition getp (i : nat) : M st (proc X) :=
  let! t := gets ps_proc in match t !! i with Some p => ret p | None => undefined end.

(** The process of the current CPU, which runs one whenever these are called. *)
Definition myproc (c : nat) : M st (option nat) := gets (fun s => mjoin (ps_cpu s !! c)).
Definition curproc (c : nat) : M st nat :=
  let! p := myproc c in match p with Some i => ret i | None => undefined end.

(** ** allocproc, userinit *)

(** The first UNUSED entry from [i] on. *)
Fixpoint find_unused (t : list (proc X)) (i : nat) : option nat :=
  match t with
  | [] => None
  | p :: t' => if decide (p_state p = UNUSED) then Some i else find_unused t' (S i)
  end.

(** The critical section of [allocproc]; [nextpid] is an int. *)
Definition alloc_entry : M st (option nat) :=
  let! t := gets ps_proc in
  match find_unused t 0 with
  | None => ret None
  | Some i =>
      do! upd i (set_state EMBRYO) in
      let! pid := gets ps_nextpid in
      do! upd i (set_pid pid) in
      if pid <? INT_MAX then do! modify (put_nextpid (pid + 1)) in ret (Some i) else undefined
  end.

(** The rest of [allocproc], without the lock. *)
Definition alloc_stack (i : nat) : M st (option nat) :=
  let! k := memory kalloc in
  do! upd i (set_kstack k) in
  if k =? 0 then do! upd i (set_state UNUSED) in ret None else
  let tf := k + KSTACKSIZE - SIZEOF_TRAPFRAME in
  let ctx := tf - 4 - SIZEOF_CONTEXT in
  do! memory (on_mem (fun m => st32 m (tf - 4) trapret)) in
  do! memory (on_mem (fun m => memset m ctx 0 SIZEOF_CONTEXT)) in
  do! memory (on_mem (fun m => st32 m (ctx + CTX_EIP) forkret)) in
  do! upd i (set_regs tf ctx) in
  ret (Some i).

Definition allocproc : M st (option nat) :=
  let! e := alloc_entry in
  match e with None => ret None | Some i => alloc_stack i end.

(** A store to a 16-bit field. *)
Definition st16 (m : mem) (a v : Z) : mem := mwrite m a (le_bytes 2 v).

Definition initcode_name : bytes := [105; 110; 105; 116; 99; 111; 100; 101; 0].

Definition userinit (initcode : bytes) : M st unit :=
  let! p := allocproc in
  match p with
  | None => undefined
  | Some i =>
      do! modify (put_init (Some i)) in
      let! pgdir := memory (setupkvm kend data) in
      if pgdir =? 0 then panic "userinit: out of memory?" else
      do! memory (inituvm pgdir initcode) in
      do! upd i (set_space pgdir PGSIZE) in
      let! p := getp i in
      let tf := p_tf p in
      let ds := Z.lor (Z.shiftl SEG_UDATA 3) DPL_USER in
      do! memory (on_mem (fun m => memset m tf 0 SIZEOF_TRAPFRAME)) in
      do! memory (on_mem (fun m => st16 m (tf + TF_CS) (Z.lor (Z.shiftl SEG_UCODE 3) DPL_USER))) in
      do! memory (on_mem (fun m => st16 (st16 (st16 m (tf + TF_DS) ds) (tf + TF_ES) ds) (tf + TF_SS) ds)) in
      do! memory (on_mem (fun m => st32 (st32 (st32 m (tf + TF_EFLAGS) FL_IF) (tf + TF_ESP) PGSIZE) (tf + TF_EIP) 0)) in
      let! name := lift (safestrcpy (p_name p) initcode_name 16) in
      do! upd i (set_name name) in
      let! x := env pf_init in
      do! upd i (set_files x) in
      upd i (set_state RUNNABLE)
  end.

(** ** fork, growproc *)

Definition sbrk_proc (c : nat) (n : Z) : M st Z :=
  let! i := curproc c in
  let! p := getp i in
  let! r := memory (growproc kend (p_pgdir p) (p_sz p) n) in
  do! upd i (set_space (p_pgdir p) (snd r)) in
  ret (fst r).

(** The parts of [fork] after [allocproc], for the process [cur] and its child [i]:
    up to [np->tf->eax = 0], with the failure of [copyuvm]; the open files, the
    directory and the name; the critical section at the end. *)
Definition fork_memory (cur i : nat) : M st bool :=
  let! p := getp cur in
  let! pgdir := memory (copyuvm kend data (p_pgdir p) (p_sz p)) in
  let! n := getp i in
  if pgdir =? 0 then
    do! memory (kfree kend (p_kstack n)) in
    do! upd i (set_space 0 (p_sz n)) in
    do! upd i (set_kstack 0) in
    do! upd i (set_state UNUSED) in
    ret false
  else
  do! upd i (set_space pgdir (p_sz p)) in
  do! upd i (set_parent (Some cur)) in
  do! memory (on_mem (fun m => mwrite m (p_tf n) (mread m (p_tf p) (Z.to_nat SIZEOF_TRAPFRAME)))) in
  do! memory (on_mem (fun m => st32 m (p_tf n + TF_EAX) 0)) in
  ret true.

Definition fork_descriptors (cur i : nat) : M st unit :=
  let! p := getp cur in
  let! n := getp i in
  let! x := env (pf_fork (p_files p)) in
  do! upd i (set_files x) in
  let! name := lift (safestrcpy (p_name n) (p_name p) 16) in
  upd i (set_name name).

Definition fork_ready (i : nat) : M st Z :=
  let! n := getp i in
  do! upd i (set_state RUNNABLE) in
  ret (p_pid n).

Definition fork (c : nat) : M st Z :=
  let! cur := curproc c in
  let! np := allocproc in
  match np with
  | None => ret (-1)
  | Some i =>
      let! ok := fork_memory cur i in
      if ok : bool then do! fork_descriptors cur i in fork_ready i else ret (-1)
  end.

(** ** Switching: sched, yield, sleep, wakeup, scheduler *)

(** Back to the scheduler; the checks on locks and interrupts are in Spin. *)
Definition sched (c : nat) : M st unit :=
  let! i := curproc c in
  let! p := getp i in
  if decide (p_state p = RUNNING) then panic "sched running" else
  modify (put_cpu c None).

Definition yield (c : nat) : M st unit :=
  let! i := curproc c in
  do! upd i (set_state RUNNABLE) in
  sched c.

(** Up to the switch, and what follows when the process runs again. *)
Definition sleep_on (c : nat) (ch : chan) : M st unit :=
  let! p := myproc c in
  match p with
  | None => panic "sleep"
  | Some i =>
      do! upd i (set_chan ch) in
      do! upd i (set_state SLEEPING) in
      sched c
  end.
Definition sleep_return (c : nat) : M st unit :=
  let! i := curproc c in
  upd i (set_chan NoChan).

Definition wake (ch : chan) (p : proc X) : proc X :=
  if decide (p_state p = SLEEPING /\ p_chan p = ch) then set_state RUNNABLE p else p.
Definition wakeup1 (ch : chan) : M st unit := modify (fun s => put_procs (wake ch <$> ps_proc s) s).
Definition wakeup (ch : chan) : M st unit := wakeup1 ch.

(** One round of the scheduler's loop on CPU [c]: look at one entry of the table. *)
Definition scheduler_round (c : nat) : M st unit :=
  let! pos := gets (fun s => ps_pos s !!! c) in
  let! t := gets ps_proc in
  do! modify (put_pos c (if (S pos <? length t)%nat then S pos else O)) in
  match t !! pos with
  | Some p =>
      if decide (p_state p = RUNNABLE) then
        do! modify (put_cpu c (Some pos)) in
        upd pos (set_state RUNNING)
      else ret tt
  | None => undefined
  end.

(** ** exit, wait, kill *)

(** Pass the children of [cur] to [init], waking it for each zombie. *)
Fixpoint reparent (fuel i cur : nat) (init : option nat) : M st unit :=
  match fuel with
  | O => ret tt
  | S fuel' =>
      let! p := getp i in
      do! when (bool_decide (p_parent p = Some cur))
            (do! upd i (set_parent init) in
             when (bool_decide (p_state p = ZOMBIE))
               match init with Some j => wakeup1 (ChanProc j) | None => wakeup1 NoChan end) in
      reparent fuel' (S i) cur init
  end.

(** Up to the lock: the files are closed. *)
Definition exit_close (c : nat) : M st unit :=
  let! cur := curproc c in
  let! init := gets ps_init in
  if bool_decide (init = Some cur) then panic "init exiting" else
  let! p := getp cur in
  do! env (pf_exit (p_files p)) in
  upd cur (set_files pf_none).

(** The critical section. *)
Definition exit_end (c : nat) : M st unit :=
  let! cur := curproc c in
  let! p := getp cur in
  do! match p_parent p with Some j => wakeup1 (ChanProc j) | None => wakeup1 NoChan end in
  let! t := gets ps_proc in
  let! init := gets ps_init in
  do! reparent (length t) 0 cur init in
  do! upd cur (set_state ZOMBIE) in
  sched c.

Definition exit (c : nat) : M st unit :=
  do! exit_close c in
  exit_end c.

(** The scan of [wait]: the first zombie child, or whether there are children. *)
Fixpoint wait_scan (t : list (proc X)) (i cur : nat) (havekids : bool) : nat + bool :=
  match t with
  | [] => inr havekids
  | p :: t' =>
      if bool_decide (p_parent p = Some cur) then
        if decide (p_state p = ZOMBIE) then inl i else wait_scan t' (S i) cur true
      else wait_scan t' (S i) cur havekids
  end.

(** [Some r]: wait returns [r]; [None]: the process sleeps in [wait]. *)
Definition wait (c : nat) : M st (option Z) :=
  let! cur := curproc c in
  let! t := gets ps_proc in
  match wait_scan t 0 cur false with
  | inl i =>
      let! p := getp i in
      let pid := p_pid p in
      do! memory (kfree kend (p_kstack p)) in
      do! upd i (set_kstack 0) in
      do! memory (freevm kend (p_pgdir p)) in
      do! upd i (set_pid 0) in
      do! upd i (set_parent None) in
      do! upd i (fun p => set_name (<[0%nat := 0]> (p_name p)) p) in
      do! upd i (set_killed 0) in
      do! upd i (set_state UNUSED) in
      ret (Some pid)
  | inr havekids =>
      let! p := getp cur in
      if negb havekids || negb (p_killed p =? 0) then ret (Some (-1)) else
      do! sleep_on c (ChanProc cur) in
      ret None
  end.

(** The process runs again in [wait]. *)
Definition wait_again (c : nat) : M st (option Z) :=
  do! sleep_return c in
  wait c.

Fixpoint find_pid (t : list (proc X)) (i : nat) (pid : Z) : option nat :=
  match t with
  | [] => None
  | p :: t' => if p_pid p =? pid then Some i else find_pid t' (S i) pid
  end.

Definition kill (pid : Z) : M st Z :=
  let! t := gets ps_proc in
  match find_pid t 0 pid with
  | None => ret (-1)
  | Some i =>
      do! upd i (set_killed 1) in
      let! p := getp i in
      do! when (bool_decide (p_state p = SLEEPING)) (upd i (set_state RUNNABLE)) in
      ret 0
  end.

(** ** What else a process does *)

(** A call of sysfile.c. *)
Definition call_proc (num : Z) (c : nat) : M st Z :=
  let! i := curproc c in
  let! p := getp i in
  let! r := env (pf_call num p) in
  do! upd i (set_files r.2) in
  ret r.1.

(** [exec] sets [pgdir], [sz] and [name]. *)
Definition exec_proc (path : bytes) (argv : list bytes) (c : nat) : M st Z :=
  let! i := curproc c in
  let! p := getp i in
  let! r := env (pf_exec path argv p) in
  do! upd i (fun q => set_name (p_name r.2) (set_space (p_pgdir r.2) (p_sz r.2) q)) in
  ret r.1.

(** A store of the program to its memory; [false] is a page fault, as it is for every
    address of the kernel half, which [setupkvm] maps without PTE_U. *)
Definition user_store (c : nat) (va b : Z) : M st bool :=
  let! i := curproc c in
  let! p := getp i in
  let! m := gets (fun s => k_mem (pe_mem (ps_env s))) in
  let e := lookup_pte m (p_pgdir p) va in
  if (0 <=? va) && (va <? KERNBASE) && has PTE_P e && has PTE_W e && has PTE_U e then
    do! memory (on_mem (fun m => mset m (P2V (PTE_ADDR e) + va mod PGSIZE) (u8 b))) in
    ret true
  else ret false.

(** The trap frame that the processor and alltraps put on the kernel stack. *)
Definition save_regs (c : nat) (frame : bytes) : M st unit :=
  let! i := curproc c in
  let! p := getp i in
  memory (on_mem (fun m => mwrite m (p_tf p) frame)).
End Proc.
