(* ===== verification/User.v ===== *)
(** User programs: the system calls as an interface, the monad the programs run
    in, and the formatted output of printf.c.

    A program is a function of the world behind the system calls. What the calls
    promise is the class [OSLaws], stated on the part of the world a program can
    observe; [UView] at the end is an implementation of it. *)

From S2P Require Import Prelude Strings.
Local Open Scope Z_scope.

(** * Running a program *)

(** The program goes on with a value, has called [exit], has met undefined
    behaviour, or needs more rounds of its loops than the bound it was given. *)
Inductive ures (W A : Type) : Type :=
| Done (a : A) (w : W)
| Exited (w : W)
| Undef
| Loops.
Arguments Done {W A} a w.
Arguments Exited {W A} w.
Arguments Undef {W A}.
Arguments Loops {W A}.

Definition U (W A : Type) : Type := W -> ures W A.

Definition uret {W A} (a : A) : U W A := Done a.

Definition ubind {W A B} (m : U W A) (k : A -> U W B) : U W B := fun w =>
  match m w with
  | Done a w' => k a w'
  | Exited w' => Exited w'
  | Undef => Undef
  | Loops => Loops
  end.

Definition uexit {W A} : U W A := Exited.

Definition uloops {W A} : U W A := fun _ => Loops.

(** A pure computation. *)
Definition upure {W A} (o : outcome A) : U W A := fun w =>
  match o with Ok a => Done a w | _ => Undef end.

(** A system call. *)
Definition ucall {W A} (f : W -> A * W) : U W A := fun w => let '(a, w') := f w in Done a w'.

Notation "'let*' x ':=' m 'in' k" := (ubind m (fun x => k))
  (at level 10, x name, m at level 100, k at level 200) : kernel_scope.
Notation "'do*' m 'in' k" := (ubind m (fun _ => k))
  (at level 10, m at level 100, k at level 200) : kernel_scope.

Lemma ubind_Done {W A B} (m : U W A) (k : A -> U W B) w a w' : m w = Done a w' -> ubind m k w = k a w'.
Proof. unfold ubind. by intros ->. Qed.

Lemma ubind_Exited {W A B} (m : U W A) (k : A -> U W B) w w' : m w = Exited w' -> ubind m k w = Exited w'.
Proof. unfold ubind. by intros ->. Qed.

(** [ustep H] runs the head of a program with the equation [H]. *)
Ltac ustep H := rewrite (ubind_Done _ _ _ _ _ H).

(** * The system calls *)

Definition T_DIR : Z := 1.
Definition T_FILE : Z := 2.
Definition T_DEV : Z := 3.

(** struct stat. *)
Record ustat := mkustat { us_type : Z; us_dev : Z; us_ino : Z; us_nlink : Z; us_size : Z; us_mode : Z }.

(** A path is the string without its terminator. [read] gives what it returns
    and the bytes it stores. *)
Class OS (W : Type) : Type := {
  os_open : bytes -> Z -> W -> Z * W;
  os_read : Z -> Z -> W -> (Z * bytes) * W;
  os_write : Z -> bytes -> W -> Z * W;
  os_close : Z -> W -> Z * W;
  os_fstat : Z -> W -> (Z * ustat) * W;
  os_chmod : bytes -> Z -> W -> Z * W;
  os_unlink : bytes -> W -> Z * W;
  os_link : bytes -> bytes -> W -> Z * W;
  os_mkdir : bytes -> W -> Z * W;
  os_kill : Z -> W -> Z * W
}.

(** The string a [char *] points to: what precedes the terminator. *)
Fixpoint cstr (p : bytes) : outcome bytes :=
  match p with
  | [] => UB
  | c :: p' => if c =? 0 then Ok [] else let? r := cstr p' in Ok (c :: r)
  end.

(** A string literal, without its terminator. *)
Definition text (s : string) : bytes := Z.of_N ∘ Ascii.N_of_ascii <$> String.list_ascii_of_string s.

Section Calls.
  Context {W : Type} `{OS W}.

Definition uopen (path : bytes) (omode : Z) : U W Z :=
  let* p := upure (cstr path) in
  ucall (os_open p omode).

Definition uread (fd n : Z) : U W (Z * bytes) := ucall (os_read fd n).
Definition uwrite (fd : Z) (l : bytes) : U W Z := ucall (os_write fd l).
Definition uclose (fd : Z) : U W Z := ucall (os_close fd).
Definition ufstat (fd : Z) : U W (Z * ustat) := ucall (os_fstat fd).
Definition ukill (pid : Z) : U W Z := ucall (os_kill pid).

Definition uchmod (path : bytes) (mode : Z) : U W Z :=
  let* p := upure (cstr path) in
  ucall (os_chmod p mode).

Definition uunlink (path : bytes) : U W Z :=
  let* p := upure (cstr path) in
  ucall (os_unlink p).

Definition umkdir (path : bytes) : U W Z :=
  let* p := upure (cstr path) in
  ucall (os_mkdir p).

Definition ulink (old new : bytes) : U W Z :=
  let* p := upure (cstr old) in
  let* q := upure (cstr new) in
  ucall (os_link p q).

(** ulib.c [stat]. *)
Definition stat (n : bytes) : U W (Z * ustat) :=
  let* fd := uopen n 0 in
  if fd <? 0 then uret (-1, mkustat 0 0 0 0 0 0) else
  let* r := ufstat fd in
  do* uclose fd in
  uret r.

(** * printf.c *)

Definition digits : bytes := [48; 49; 50; 51; 52; 53; 54; 55; 56; 57; 65; 66; 67; 68; 69; 70].

(** The do-while of [printint]; [room] is what is left of [buf]. *)
Fixpoint printint_loop (room : nat) (x base : Z) : outcome bytes :=
  match room with
  | O => UB
  | S r =>
      let d := getb digits (x mod base) in
      if x / base =? 0 then Ok [d] else let? l := printint_loop r (x / base) base in Ok (d :: l)
  end.

(** The characters [printint] hands to [putc], in order. *)
Definition printint (xx base : Z) (sgn : bool) : outcome bytes :=
  let neg := sgn && (xx <? 0) in
  let x := if neg then u32 (- xx) else u32 xx in
  let? l := printint_loop 16 x base in
  if neg then (if (length l <? 16)%nat then Ok (45 :: rev l) else UB) else Ok (rev l).

(** The words after [fmt] on the stack. *)
Inductive uarg := AInt (x : Z) | AStr (s : option bytes).

Definition null_text : bytes := [40; 110; 117; 108; 108; 41].

(** One conversion: the characters, and whether it consumed the argument. *)
Definition conversion (c : Z) (ap : option uarg) : outcome (bytes * bool) :=
  if c =? 100 then
    match ap with Some (AInt x) => let? l := printint x 10 true in Ok (l, true) | _ => UB end
  else if (c =? 120) || (c =? 112) then
    match ap with Some (AInt x) => let? l := printint x 16 false in Ok (l, true) | _ => UB end
  else if c =? 115 then
    match ap with
    | Some (AStr (Some s)) => let? l := cstr s in Ok (l, true)
    | Some (AStr None) => Ok (null_text, true)
    | _ => UB
    end
  else if c =? 99 then
    match ap with Some (AInt x) => Ok ([u8 x], true) | _ => UB end
  else if c =? 37 then Ok ([c], false)
  else Ok ([37; c], false).

(** The loop over [fmt]; [pct] is [state == '%']. *)
Fixpoint printf_loop (pct : bool) (fmt : bytes) (ap : list uarg) : outcome bytes :=
  match fmt with
  | [] => Ok []
  | c :: fmt' =>
      if pct then
        let? r := conversion c (head ap) in
        let? l := printf_loop false fmt' (if snd r then tail ap else ap) in Ok (fst r ++ l)
      else if c =? 37 then printf_loop true fmt' ap
      else let? l := printf_loop false fmt' ap in Ok (c :: l)
  end.

Definition putc (fd c : Z) : U W unit :=
  do* uwrite fd [u8 c] in
  uret tt.

Fixpoint putcs (fd : Z) (l : bytes) : U W unit :=
  match l with
  | [] => uret tt
  | c :: l' => do* putc fd c in putcs fd l'
  end.

Definition printf (fd : Z) (fmt : string) (ap : list uarg) : U W unit :=
  let* l := upure (printf_loop false (text fmt) ap) in
  putcs fd l.
End Calls.

(** * What the calls promise *)

(** An open descriptor: the console, or a file and the offset in it. *)
Inductive desc := DTty | DFile (path : bytes) (off : nat).

(** The files by path (paths that name different files), the paths of directories
    and devices, the open descriptors, and what each descriptor of the console has
    been sent. *)
Record uview := mkuview {
  uv_files : gmap bytes bytes;
  uv_dirs : gset bytes;
  uv_fds : gmap Z desc;
  uv_out : gmap Z bytes
}.

Definition O_RDONLY : Z := 0.
Definition O_WRONLY : Z := 1.
Definition O_CREATE : Z := 512.
Definition NOFILE : nat := 16.

Definition on_fds (f : gmap Z desc -> gmap Z desc) (v : uview) : uview := mkuview (uv_files v) (uv_dirs v) (f (uv_fds v)) (uv_out v).
Definition on_files (f : gmap bytes bytes -> gmap bytes bytes) (v : uview) : uview := mkuview (f (uv_files v)) (uv_dirs v) (uv_fds v) (uv_out v).

Definition sent (fd : Z) (v : uview) : bytes := default [] (uv_out v !! fd).
Definition send (fd : Z) (l : bytes) (v : uview) : uview :=
  mkuview (uv_files v) (uv_dirs v) (uv_fds v) (<[fd := sent fd v ++ l]> (uv_out v)).

(** [write] of a file at its offset. *)
Definition overwrite (c : bytes) (off : nat) (l : bytes) : bytes := take off c ++ l ++ drop (off + length l) c.

Class OSLaws (W : Type) `{OS W} : Type := {
  view : W -> uview;
  write_tty fd l w : uv_fds (view w) !! fd = Some DTty ->
    exists w', os_write fd l w = (Z.of_nat (length l), w') /\ view w' = send fd l (view w);
  write_file fd l w p off c : uv_fds (view w) !! fd = Some (DFile p off) -> uv_files (view w) !! p = Some c ->
    (off <= length c)%nat ->
    exists w', os_write fd l w = (Z.of_nat (length l), w') /\
      view w' = on_fds (insert fd (DFile p (off + length l))) (on_files (insert p (overwrite c off l)) (view w));
  read_file fd n w p off c : uv_fds (view w) !! fd = Some (DFile p off) -> uv_files (view w) !! p = Some c -> 0 <= n ->
    let data := take (Z.to_nat n) (drop off c) in
    exists w', os_read fd n w = ((Z.of_nat (length data), data), w') /\
      view w' = on_fds (insert fd (DFile p (off + length data))) (view w);
  open_file p w c : uv_files (view w) !! p = Some c -> p ∉ uv_dirs (view w) -> (size (uv_fds (view w)) < NOFILE)%nat ->
    exists fd w', os_open p O_RDONLY w = (fd, w') /\ 0 <= fd /\ uv_fds (view w) !! fd = None /\
      view w' = on_fds (insert fd (DFile p 0)) (view w);
  open_absent p w : uv_files (view w) !! p = None -> p ∉ uv_dirs (view w) ->
    exists w', os_open p O_RDONLY w = (-1, w') /\ view w' = view w;
  open_create p w : p ∉ uv_dirs (view w) -> (size (uv_fds (view w)) < NOFILE)%nat ->
    exists fd w', os_open p (Z.lor O_WRONLY O_CREATE) w = (fd, w') /\ 0 <= fd /\ uv_fds (view w) !! fd = None /\
      view w' = on_fds (insert fd (DFile p 0)) (on_files (insert p (default [] (uv_files (view w) !! p))) (view w));
  close_fd fd w : is_Some (uv_fds (view w) !! fd) ->
    exists w', os_close fd w = (0, w') /\ view w' = on_fds (delete fd) (view w);
  fstat_file fd w p off c : uv_fds (view w) !! fd = Some (DFile p off) -> uv_files (view w) !! p = Some c ->
    exists st w', os_fstat fd w = ((0, st), w') /\ us_type st = T_FILE /\ view w' = view w
}.

Section Output.
  Context {W : Type} `{OSLaws W}.

Lemma send_nil fd v : is_Some (uv_out v !! fd) -> send fd [] v = v.
Proof.
  intros [l Hl]. unfold send, sent. rewrite Hl. cbn. rewrite app_nil_r, insert_id by done. by destruct v.
Qed.

Lemma send_app fd l l' v : send fd l' (send fd l v) = send fd (l ++ l') v.
Proof.
  unfold send, sent. cbn. rewrite lookup_insert_eq. cbn. by rewrite insert_insert_eq, app_assoc.
Qed.

Lemma sent_send fd l v : sent fd (send fd l v) = sent fd v ++ l.
Proof. unfold send, sent at 1. cbn. by rewrite lookup_insert_eq. Qed.

Lemma sent_send_ne fd fd' l v : fd <> fd' -> sent fd (send fd' l v) = sent fd v.
Proof. intros Hne. unfold send, sent. cbn. by rewrite lookup_insert_ne. Qed.

(** Output to the console: the descriptors and files stay, [l] is sent to [fd]. *)
Definition prints (fd : Z) (l : bytes) (v v' : uview) : Prop :=
  uv_files v' = uv_files v /\ uv_dirs v' = uv_dirs v /\ uv_fds v' = uv_fds v /\ sent fd v' = sent fd v ++ l /\
  forall fd', fd' <> fd -> sent fd' v' = sent fd' v.

Lemma prints_fds fd l v v' : prints fd l v v' -> uv_fds v' = uv_fds v.
Proof. by intros (_ & _ & ? & _). Qed.

Lemma prints_refl fd v : prints fd [] v v.
Proof. split_and!; [done|done|done|by rewrite app_nil_r|done]. Qed.

Lemma prints_send fd l v : prints fd l v (send fd l v).
Proof. split_and!; [done|done|done|apply sent_send|]. intros fd' Hne. by apply sent_send_ne. Qed.

Lemma prints_trans fd l l' v1 v2 v3 : prints fd l v1 v2 -> prints fd l' v2 v3 -> prints fd (l ++ l') v1 v3.
Proof.
  intros (F1 & G1 & D1 & S1 & O1) (F2 & G2 & D2 & S2 & O2). split_and!; [congruence|congruence|congruence| |].
  - by rewrite S2, S1, app_assoc.
  - intros fd' Hne. by rewrite O2, O1.
Qed.

Lemma prints_on_fds fd l f v v' : prints fd l v v' -> prints fd l (on_fds f v) (on_fds f v').
Proof. intros (F & G & D & S & O). split_and!; [done|done|cbn; by rewrite D|done|done]. Qed.

Lemma on_fds_insert fd d d' v : on_fds (insert fd d') (on_fds (insert fd d) v) = on_fds (insert fd d') v.
Proof. unfold on_fds. cbn. by rewrite insert_insert_eq. Qed.

Lemma on_fds_delete fd d v : on_fds (delete fd) (on_fds (insert fd d) v) = on_fds (delete fd) v.
Proof. unfold on_fds. cbn. by rewrite delete_insert_eq. Qed.

Lemma on_fds_delete_none fd v : uv_fds v !! fd = None -> on_fds (delete fd) v = v.
Proof. intros Hn. unfold on_fds. rewrite delete_id by done. by destruct v. Qed.

Lemma putcs_prints fd l w : Forall byte_ok l -> uv_fds (view w) !! fd = Some DTty ->
  exists w', putcs fd l w = Done tt w' /\ prints fd l (view w) (view w').
Proof.
  intros Hl. revert w. induction Hl as [|c l Hc Hl IH]; intros w Hfd; [exists w; split; [done|apply prints_refl]|].
  destruct (write_tty fd [u8 c] w Hfd) as (w1 & E1 & V1).
  assert (P1 : prints fd [c] (view w) (view w1)).
  { rewrite V1. replace (u8 c) with c; [apply prints_send|]. unfold u8, byte_ok in *. by rewrite Z.mod_small. }
  destruct (IH w1) as (w2 & E2 & P2); [by rewrite (prints_fds _ _ _ _ P1)|].
  exists w2. split; [|by apply (prints_trans fd [c] l _ (view w1))].
  cbn [putcs]. unfold putc, uwrite, ucall, ubind. by rewrite E1.
Qed.
End Output.

(** What a call of [printf] sends. *)
Definition printf_text (fmt : string) (ap : list uarg) : outcome bytes :=
  printf_loop false (text fmt) ap.

(** [texts] evaluates the string literals of the goal. *)
Ltac texts :=
  repeat match goal with |- context [text ?s] => let l := eval vm_compute in (text s) in change (text s) with l end.


Lemma printf_prints {W : Type} `{OSLaws W} fd fmt ap w l : printf_text fmt ap = Ok l -> Forall byte_ok l ->
  uv_fds (view w) !! fd = Some DTty ->
  exists w', printf fd fmt ap w = Done tt w' /\ prints fd l (view w) (view w').
Proof.
  intros Hl Hb Hfd. destruct (putcs_prints fd l w Hb Hfd) as (w' & E & P). exists w'. split; [|done].
  unfold printf, upure, ubind. unfold printf_text in Hl. by rewrite Hl.
Qed.

(** * Numbers in and out *)

Definition digit (c : Z) : Prop := 48 <= c <= 57.

(** The value of decimal digits, least significant first. *)
Definition lsd_val (l : bytes) : Z := foldr (fun c n => (c - 48) + 10 * n) 0 l.

Lemma lsd_val_nonneg l : Forall digit l -> 0 <= lsd_val l.
Proof. induction 1 as [|c l Hc Hl IH]; cbn; [lia|]. unfold digit in Hc. fold (lsd_val l). lia. Qed.

Lemma getb_digits d : 0 <= d < 10 -> getb digits d = 48 + d.
Proof.
  intros Hd. assert (d = 0 \/ d = 1 \/ d = 2 \/ d = 3 \/ d = 4 \/ d = 5 \/ d = 6 \/ d = 7 \/ d = 8 \/ d = 9) as Hc by lia.
  repeat destruct Hc as [->|Hc]; [reflexivity..|]. by rewrite Hc.
Qed.

Lemma printint_loop_dec room x : 0 <= x < 10 ^ Z.of_nat room -> (0 < room)%nat ->
  exists l, printint_loop room x 10 = Ok l /\ Forall digit l /\ lsd_val l = x /\ l <> [] /\ (length l <= room)%nat.
Proof.
  revert x. induction room as [|room IH]; intros x Hx Hr; [lia|].
  pose proof (Z.mod_pos_bound x 10 ltac:(lia)) as Hm. pose proof (Z.div_mod x 10 ltac:(lia)) as Hdm.
  pose proof (Z.div_pos x 10 ltac:(lia) ltac:(lia)) as Hq.
  assert (Hd : getb digits (x mod 10) = 48 + x mod 10) by (apply getb_digits; lia).
  cbn [printint_loop]. rewrite Hd. destruct (x / 10 =? 0) eqn:E.
  - exists [48 + x mod 10]. split; [done|]. split_and!; [constructor; [|done]; unfold digit; lia|cbn; lia|done|cbn; lia].
  - rewrite Nat2Z.inj_succ, Z.pow_succ_r in Hx by lia. destruct room as [|room]; [cbn in Hx; lia|].
    destruct (IH (x / 10)) as (l & El & Dl & Vl & Nl & Ll); [lia|lia|]. exists ((48 + x mod 10) :: l).
    unfold obind. rewrite El. split_and!; [done| |cbn; fold (lsd_val l); lia|done|cbn; lia].
    constructor; [unfold digit; lia|done].
Qed.

Lemma atoi_loop_digits l n s : Forall digit l -> 0 <= n -> n * 10 ^ Z.of_nat (length l) + lsd_val l + 48 <= INT_MAX ->
  Ulib.atoi_loop n (rev l ++ s) = Ulib.atoi_loop (n * 10 ^ Z.of_nat (length l) + lsd_val l) s.
Proof.
  intros Hl. revert n s. induction Hl as [|c l Hc Hl IH]; intros n s Hn Hb; [by rewrite Z.mul_1_r, Z.add_0_r|].
  cbn [rev length lsd_val foldr] in *. fold (lsd_val l) in *. pose proof (lsd_val_nonneg l Hl) as Hv. unfold digit in Hc.
  rewrite Nat2Z.inj_succ, Z.pow_succ_r in * by lia.
  assert (0 < 10 ^ Z.of_nat (length l)) by (apply Z.pow_pos_nonneg; lia).
  rewrite <- app_assoc, IH by nia. cbn [app Ulib.atoi_loop].
  assert ((48 <=? c) && (c <=? 57) = true) as -> by (apply andb_true_intro; lia).
  assert ((n * 10 ^ Z.of_nat (length l) + lsd_val l) * 10 + c <=? INT_MAX = true) as -> by nia.
  f_equal. ring.
Qed.

(** The text of a number: digits, after a minus sign when it is negative. *)
Lemma printint_dec x : -2147483648 <= x <= 2147483647 ->
  exists l, Forall digit l /\ l <> [] /\ lsd_val l = Z.abs x /\ (length l <= 10)%nat /\
    printint x 10 true = Ok (if x <? 0 then 45 :: rev l else rev l).
Proof.
  intros Hx. unfold printint. cbn [andb].
  set (y := if x <? 0 then u32 (- x) else u32 x).
  assert (Hy : y = Z.abs x) by (unfold y, u32; destruct (x <? 0) eqn:E; [rewrite Z.mod_small|rewrite Z.mod_small]; lia).
  destruct (printint_loop_dec 10 y) as (l & El & Dl & Vl & Nl & Ll); [cbn; lia|lia|].
  assert (E16 : printint_loop 16 y 10 = Ok l).
  { clear -El. revert El. generalize y. change 16%nat with (10 + 6)%nat. generalize 10%nat as r.
    intros r. revert l. induction r as [|r IH]; intros l z; [done|]. cbn [Nat.add printint_loop].
    destruct (z / 10 =? 0); [done|]. unfold obind. destruct (printint_loop r (z / 10) 10) as [k| | |] eqn:E; try done.
    by rewrite (IH _ _ E). }
  exists l. split_and!; [done..|congruence|done|]. unfold obind. rewrite E16.
  destruct (x <? 0); [|done]. assert ((length l <? 16)%nat = true) as -> by (apply Nat.ltb_lt; lia). done.
Qed.

(** Round trip through the text of a number: [printf("%d")] of a non-negative
    int followed by [atoi] gives the number back. The bound is exact for [atoi],
    whose sum [n*10 + *s - '0'] overflows before the subtraction above it. *)
Theorem print_then_parse x : 0 <= x <= INT_MAX - 48 ->
  exists l, printf_text "%d" [AInt x] = Ok l /\ Ulib.atoi (l ++ [0]) = Ok x.
Proof.
  intros Hx. unfold INT_MAX in *. destruct (printint_dec x) as (l & Dl & Nl & Vl & Ll & El); [lia|].
  assert (x <? 0 = false) as E0 by lia. rewrite E0 in El. exists (rev l). split.
  - unfold printf_text. texts. cbn -[printint]. rewrite El. cbn. by rewrite app_nil_r.
  - unfold Ulib.atoi. rewrite atoi_loop_digits; [|done|lia|unfold INT_MAX; lia]. cbn.
    f_equal. lia.
Qed.

Lemma print_then_parse_witness : exists l, printf_text "%d" [AInt 2147483599] = Ok l /\ Ulib.atoi (l ++ [0]) = Ok 2147483599.
Proof. apply (print_then_parse 2147483599). unfold INT_MAX. lia. Defined.

(** A path without its terminator, as an argument. *)
Definition path_ok (p : bytes) : Prop := Forall (fun c => 1 <= c < 256) p.

(** The library on a terminated string and what follows it. *)
Lemma cstr_at p z : path_ok p -> cstr (p ++ 0 :: z) = Ok p.
Proof.
  induction 1 as [|c p Hc Hp IH]; [done|]. cbn. assert (c =? 0 = false) as -> by lia. by rewrite IH.
Qed.

Lemma cstr_path p : path_ok p -> cstr (p ++ [0]) = Ok p.
Proof. apply cstr_at. Qed.

Lemma strlen_at p z : path_ok p -> Ulib.strlen (p ++ 0 :: z) = Ok (Z.of_nat (length p)).
Proof.
  induction 1 as [|c p Hc Hp IH]; [done|]. cbn [app Ulib.strlen length]. assert (c =? 0 = false) as -> by lia.
  rewrite IH. cbn. f_equal. lia.
Qed.

Lemma strcpy_at p z : path_ok p -> Ulib.strcpy_bytes (p ++ 0 :: z) = Ok (p ++ [0]).
Proof.
  induction 1 as [|c p Hc Hp IH]; [done|]. cbn. assert (c =? 0 = false) as -> by lia. by rewrite IH.
Qed.

Lemma strchr_at p c z : path_ok p -> c <> 0 ->
  (Forall (fun b => b <> c) p /\ Ulib.strchr (p ++ 0 :: z) c = Ok None) \/
  (exists l1 l2, p = l1 ++ c :: l2 /\ Forall (fun b => b <> c) l1 /\ Ulib.strchr (p ++ 0 :: z) c = Ok (Some (c :: l2 ++ 0 :: z))).
Proof.
  intros Hp Hc. induction Hp as [|b p Hb Hp IH]; [by left|]. cbn [app Ulib.strchr].
  assert (b =? 0 = false) as -> by lia. destruct (b =? c) eqn:E.
  - right. exists [], p. apply Z.eqb_eq in E. by subst.
  - apply Z.eqb_neq in E. destruct IH as [[F1 F2]|(l1 & l2 & -> & F1 & F2)].
    + left. split; [by constructor|done].
    + right. exists (b :: l1), l2. split; [done|]. split; [by constructor|done].
Qed.

Lemma path_bytes p : path_ok p -> Forall byte_ok p.
Proof. intros Hp. eapply Forall_impl; [exact Hp|]. unfold byte_ok. cbn. lia. Qed.

Lemma ucall_run {W A} (f : W -> A * W) w a w' : f w = (a, w') -> ucall f w = Done a w'.
Proof. unfold ucall. by intros ->. Qed.

Lemma uopen_run {W} `{OS W} p m w r w' : path_ok p -> os_open p m w = (r, w') -> uopen (p ++ [0]) m w = Done r w'.
Proof. intros Hp E. unfold uopen, upure, ubind. rewrite cstr_path by done. by apply ucall_run. Qed.

(** * Reading a file *)

Section Reading.
  Context {W : Type} `{OSLaws W}.

(** A file open at [off]. *)
Definition open_at (fd : Z) (p : bytes) (off : nat) (c : bytes) (w : W) : Prop :=
  uv_fds (view w) !! fd = Some (DFile p off) /\ uv_files (view w) !! p = Some c /\ (off <= length c)%nat.

(** One call of [read] for [n] bytes: nothing at the end of the file, else a part
    of it. *)
Lemma read_step fd n p off c w : open_at fd p off c w -> 0 < n ->
  exists w' k, uread fd n w = Done (Z.of_nat k, take k (drop off c)) w' /\ open_at fd p (off + k) c w' /\
    view w' = on_fds (insert fd (DFile p (off + k))) (view w) /\
    (k = O <-> off = length c) /\ (Z.of_nat k = n \/ (off + k)%nat = length c) /\ Z.of_nat k <= n.
Proof.
  intros (Hfd & Hp & Ho) Hn. destruct (read_file fd n w p off c) as (w' & E & V); [done|done|lia|].
  set (data := take (Z.to_nat n) (drop off c)) in *.
  assert (Hl : length data = Nat.min (Z.to_nat n) (length c - off)) by (unfold data; by rewrite length_take, length_drop).
  assert (Hd : data = take (length data) (drop off c)).
  { unfold data at 1. rewrite Hl. destruct (decide (Z.to_nat n <= length c - off)%nat); [f_equal; lia|].
    rewrite !take_ge; [done|rewrite length_drop; lia..]. }
  exists w', (length data). rewrite <- Hd. split; [exact (ucall_run _ _ _ _ E)|]. split; [|split; [done|split_and!; lia]].
  split; [rewrite V; cbn; by rewrite lookup_insert_eq|]. split; [by rewrite V|lia].
Qed.

Lemma open_at_fd fd p off c w : open_at fd p off c w -> uv_fds (view w) !! 1 = Some DTty -> fd <> 1.
Proof. intros (Hfd & _) H1 ->. congruence. Qed.

(** Open a file, run [body] to its end, close it. *)
Lemma with_file {A} p c l (body : Z -> U W unit) (err : U W A) (k : U W A) w :
  path_ok p -> uv_files (view w) !! p = Some c -> p ∉ uv_dirs (view w) -> (size (uv_fds (view w)) < NOFILE)%nat ->
  uv_fds (view w) !! 1 = Some DTty ->
  (forall fd w1, open_at fd p 0 c w1 -> uv_fds (view w1) !! 1 = Some DTty -> exists w2,
    body fd w1 = Done tt w2 /\ prints 1 l (on_fds (insert fd (DFile p (length c))) (view w1)) (view w2)) ->
  exists w', (let* fd := uopen (p ++ [0]) 0 in if fd <? 0 then err else do* body fd in do* uclose fd in k) w = k w' /\
    prints 1 l (view w) (view w').
Proof.
  intros Hpath Hp Hd Hs H1 Hbody. destruct (open_file p w c Hp Hd Hs) as (fd & w1 & E1 & Hfd0 & Hnew & V1).
  destruct (Hbody fd w1) as (w2 & E2 & P2).
  { split; [rewrite V1; cbn; by rewrite lookup_insert_eq|]. split; [by rewrite V1|lia]. }
  { rewrite V1. cbn. rewrite lookup_insert_ne; congruence. }
  pose proof (prints_fds _ _ _ _ P2) as G2. cbn in G2.
  destruct (close_fd fd w2) as (w3 & E3 & V3); [rewrite G2, lookup_insert_eq; by eexists|].
  exists w3. split.
  - ustep (uopen_run p 0 w fd w1 Hpath E1). assert (fd <? 0 = false) as -> by lia. ustep E2.
    by ustep (ucall_run _ _ _ _ E3).
  - apply (prints_on_fds _ _ (delete fd)) in P2. by rewrite on_fds_delete, V1, on_fds_delete, on_fds_delete_none, <- V3 in P2.
Qed.

(** A command that treats its arguments one after the other. [R v f]: the file [f],
    a path and its contents, is one the command is correct on. *)
Lemma each_file (R : uview -> bytes * bytes -> Prop) (Rkept : forall l v v' f, prints 1 l v v' -> R v f -> R v' f)
    (args_loop : list bytes -> U W unit) (line : bytes * bytes -> bytes) fs w :
  (forall w, args_loop [] w = Exited w) ->
  (forall f args w, R (view w) f -> uv_fds (view w) !! 1 = Some DTty -> (size (uv_fds (view w)) < NOFILE)%nat ->
    exists w', args_loop ((f.1 ++ [0]) :: args) w = args_loop args w' /\ prints 1 (line f) (view w) (view w')) ->
  Forall (R (view w)) fs -> uv_fds (view w) !! 1 = Some DTty -> (size (uv_fds (view w)) < NOFILE)%nat ->
  exists w', args_loop ((fun f => f.1 ++ [0]) <$> fs) w = Exited w' /\ prints 1 (concat (line <$> fs)) (view w) (view w').
Proof.
  intros Hnil Hstep. revert w. induction fs as [|f fs IH]; intros w Hfs H1 Hs.
  - exists w. split; [apply Hnil|apply prints_refl].
  - apply Forall_cons in Hfs as [Hf Hfs].
    destruct (Hstep f ((fun f => f.1 ++ [0]) <$> fs) w Hf H1 Hs) as (w1 & E1 & P1). pose proof (prints_fds _ _ _ _ P1) as G1.
    destruct (IH w1) as (w2 & E2 & P2); [|by rewrite G1|by rewrite G1|].
    + eapply Forall_impl; [exact Hfs|]. intros g. by apply Rkept with (1 := P1).
    + exists w2. split; [cbn [fmap list_fmap]; by rewrite E1|]. cbn [fmap list_fmap concat]. by eapply prints_trans.
Qed.
End Reading.

(** * An implementation of the interface *)

Module UView.

Definition free_fd (m : gmap Z desc) : option Z :=
  find (fun fd => bool_decide (m !! fd = None)) (Z.of_nat <$> seq 0 NOFILE).

Definition open (p : bytes) (omode : Z) (v : uview) : Z * uview :=
  if decide (p ∈ uv_dirs v) then (-1, v) else
  match free_fd (uv_fds v) with
  | None => (-1, v)
  | Some fd =>
      let v' := on_fds (insert fd (DFile p 0)) v in
      match uv_files v !! p with
      | Some _ => (fd, v')
      | None => if Z.land omode O_CREATE =? 0 then (-1, v) else (fd, on_fds (insert fd (DFile p 0)) (on_files (insert p []) v))
      end
  end.

Definition read (fd n : Z) (v : uview) : (Z * bytes) * uview :=
  match uv_fds v !! fd with
  | Some (DFile p off) =>
      let data := take (Z.to_nat n) (drop off (default [] (uv_files v !! p))) in
      ((Z.of_nat (length data), data), on_fds (insert fd (DFile p (off + length data))) v)
  | _ => ((-1, []), v)
  end.

Definition write (fd : Z) (l : bytes) (v : uview) : Z * uview :=
  match uv_fds v !! fd with
  | Some DTty => (Z.of_nat (length l), send fd l v)
  | Some (DFile p off) =>
      (Z.of_nat (length l),
       on_fds (insert fd (DFile p (off + length l)))
         (on_files (insert p (overwrite (default [] (uv_files v !! p)) off l)) v))
  | None => (-1, v)
  end.

Definition close (fd : Z) (v : uview) : Z * uview :=
  match uv_fds v !! fd with Some _ => (0, on_fds (delete fd) v) | None => (-1, v) end.

Definition fstat (fd : Z) (v : uview) : (Z * ustat) * uview :=
  match uv_fds v !! fd with
  | Some (DFile p _) => ((0, mkustat T_FILE 1 0 1 (Z.of_nat (length (default [] (uv_files v !! p)))) 511), v)
  | Some DTty => ((0, mkustat T_DEV 1 0 1 0 511), v)
  | None => ((-1, mkustat 0 0 0 0 0 0), v)
  end.

#[export] Instance view_os : OS uview := {
  os_open := open;
  os_read := read;
  os_write := write;
  os_close := close;
  os_fstat := fstat;
  os_chmod p mode v := (if decide (is_Some (uv_files v !! p)) then 0 else -1, v);
  os_unlink p v := (0, on_files (delete p) v);
  os_link p q v := (-1, v);
  os_mkdir p v := (-1, v);
  os_kill pid v := (-1, v)
}.

Lemma free_fd_spec m : (size m < NOFILE)%nat -> exists fd, free_fd m = Some fd /\ 0 <= fd /\ m !! fd = None.
Proof.
  intros Hs. unfold free_fd. destruct (find _ _) as [fd|] eqn:E.
  - exists fd. apply find_some in E as [Hin Hb]. apply bool_decide_eq_true in Hb. split; [done|]. split; [|done].
    apply list_elem_of_In, list_elem_of_fmap in Hin as (i & -> & _). lia.
  - exfalso. assert (Hsub : list_to_set (C := gset Z) (Z.of_nat <$> seq 0 NOFILE) ⊆ dom m).
    { intros fd. rewrite elem_of_list_to_set. intros Hin%list_elem_of_In. pose proof (find_none _ _ E fd Hin) as Hn.
      apply bool_decide_eq_false in Hn. by apply not_eq_None_Some, elem_of_dom in Hn. }
    apply subseteq_size in Hsub. rewrite size_dom, size_list_to_set in Hsub.
    + rewrite length_fmap, length_seq in Hsub. lia.
    + apply NoDup_fmap_2; [apply _|apply NoDup_seq].
Qed.

#[export] Instance view_laws : OSLaws uview.
Proof.
  refine {| view := fun v => v |}; cbn.
  - intros fd l v Hfd. eexists. unfold write. by rewrite Hfd.
  - intros fd l v p off c Hfd Hp _. eexists. unfold write. by rewrite Hfd, Hp.
  - intros fd n v p off c Hfd Hp _. eexists. unfold read. by rewrite Hfd, Hp.
  - intros p v c Hp Hd Hn. destruct (free_fd_spec _ Hn) as (fd & Ef & H0 & Hf). exists fd. eexists.
    unfold open. rewrite decide_False, Ef, Hp by done. done.
  - intros p v Hp Hd. eexists. unfold open. rewrite decide_False, Hp by done. by destruct (free_fd _).
  - intros p v Hd Hn. destruct (free_fd_spec _ Hn) as (fd & Ef & H0 & Hf). exists fd.
    unfold open. rewrite decide_False, Ef by done. destruct (uv_files v !! p) as [c|] eqn:Hp; eexists; [|done].
    split; [done|]. split; [done|]. split; [done|]. unfold on_files. cbn. rewrite insert_id by done. by destruct v.
  - intros fd v [d Hfd]. eexists. unfold close. by rewrite Hfd.
  - intros fd v p off c Hfd Hp. eexists _, _. unfold fstat. by rewrite Hfd.
Defined.
End UView.
