(* ===== verification/Console.v ===== *)
(** The console (console.c): the line editor between the keyboard and the readers, and
    the screen. *)

From S2P Require Import Prelude User.
Local Open Scope Z_scope.
#[local] Arguments setb : simpl never.
#[local] Arguments getb : simpl never.

Definition BACKSPACE : Z := 256.
Definition INPUT_BUF : Z := 128.
(** The macro [C]: control-x. *)
Definition CTRL (x : Z) : Z := x - 64.
Definition NEWLINE : Z := 10.

(** The input ring with its three indices, the memory of the screen (25 rows of 80
    cells) with the cursor, and what was sent to the serial port, if there is one.  After [panic]
    nothing runs, so [panicked] is not part of it. *)
Record console := mkcons {
  c_buf : bytes;
  c_r : Z;
  c_w : Z;
  c_e : Z;
  c_crt : list Z;
  c_pos : Z;
  c_uart : option bytes
}.

Definition set_input (buf : bytes) (r w e : Z) (s : console) : console := mkcons buf r w e (c_crt s) (c_pos s) (c_uart s).
Definition set_screen (crt : list Z) (pos : Z) (s : console) : console := mkcons (c_buf s) (c_r s) (c_w s) (c_e s) crt pos (c_uart s).

(** * Output *)

Definition uartputc (c : Z) : M console unit :=
  modify (fun s => mkcons (c_buf s) (c_r s) (c_w s) (c_e s) (c_crt s) (c_pos s) ((fun l => l ++ [u8 c]) <$> c_uart s)).

Definition blank_cell : Z := Z.lor 32 1792.

Definition cgaputc (c : Z) : M console unit :=
  let! pos := gets c_pos in
  let! pos :=
    (if c =? NEWLINE then ret (pos + (80 - pos mod 80))
     else if c =? BACKSPACE then ret (if pos >? 0 then pos - 1 else pos)
     else if pos <? 25 * 80 then
       do! modify (fun s => set_screen (setb (c_crt s) pos (Z.lor (Z.land c 255) 1792)) (c_pos s) s) in
       ret (pos + 1)
     else undefined) in
  if (pos <? 0) || (pos >? 25 * 80) then panic "pos under/overflow" else
  let! pos :=
    (if pos / 80 >=? 24 then
       do! modify (fun s => set_screen (splice (c_crt s) 0 (slice (c_crt s) 80 (23 * 80))) (c_pos s) s) in
       do! modify (fun s => set_screen (splice (c_crt s) (Z.to_nat (pos - 80)) (replicate (Z.to_nat (24 * 80 - (pos - 80))) 0)) (c_pos s) s) in
       ret (pos - 80)
     else ret pos) in
  do! modify (fun s => set_screen (c_crt s) (u16 pos) s) in
  if pos <? 25 * 80 then modify (fun s => set_screen (setb (c_crt s) pos blank_cell) (c_pos s) s) else undefined.

Definition consputc (c : Z) : M console unit :=
  do! (if c =? BACKSPACE then
         do! uartputc 8 in
         do! uartputc 32 in
         uartputc 8
       else uartputc c) in
  cgaputc c.

Fixpoint cputs (l : bytes) : M console unit :=
  match l with
  | [] => ret tt
  | c :: l' => do! consputc c in cputs l'
  end.

Definition consolewrite (buf : bytes) (n : Z) : M console Z :=
  do! cputs ((fun c => Z.land c 255) <$> take (Z.to_nat n) buf) in
  ret n.

(** ** cprintf *)

Definition kdigits : bytes := text "0123456789abcdef".

(** The do-while of [printint]; [room] is what is left of [buf]. *)
Fixpoint kprintint_loop (room : nat) (x base : Z) : outcome bytes :=
  match room with
  | O => UB
  | S r =>
      let d := getb kdigits (x mod base) in
      if x / base =? 0 then Ok [d] else
      match kprintint_loop r (x / base) base with Ok l => Ok (d :: l) | o => o end
  end.

Definition kprintint (xx base : Z) (sign : bool) : M console unit :=
  let neg := sign && (xx <? 0) in
  let x := if neg then u32 (- xx) else u32 xx in
  let! l := lift (kprintint_loop 16 x base) in
  cputs (reverse (l ++ if neg then [45] else [])).

(** An argument of [cprintf]: a word, or a pointer to a string, possibly null. *)
Inductive karg := KWord (x : Z) | KStr (s : option bytes).

Fixpoint cprintf (fmt : bytes) (args : list karg) : M console unit :=
  match fmt with
  | [] => ret tt
  | c :: fmt' =>
      if negb (c =? 37) then do! consputc c in cprintf fmt' args else
      match fmt' with
      | [] => ret tt
      | d :: fmt'' =>
          if d =? 100 then
            match args with KWord x :: args' => do! kprintint (s32 x) 10 true in cprintf fmt'' args' | _ => undefined end
          else if (d =? 120) || (d =? 112) then
            match args with KWord x :: args' => do! kprintint (s32 x) 16 false in cprintf fmt'' args' | _ => undefined end
          else if d =? 115 then
            match args with
            | KStr (Some t) :: args' => do! cputs t in cprintf fmt'' args'
            | KStr None :: args' => do! cputs (text "(null)") in cprintf fmt'' args'
            | _ => undefined
            end
          else if d =? 37 then do! consputc 37 in cprintf fmt'' args
          else do! consputc 37 in do! consputc d in cprintf fmt'' args
      end
  end.

(** * Input *)

Definition set_e (e : Z) (s : console) : console := set_input (c_buf s) (c_r s) (c_w s) e s.
Definition set_w (w : Z) (s : console) : console := set_input (c_buf s) (c_r s) w (c_e s) s.
Definition set_r (r : Z) (s : console) : console := set_input (c_buf s) r (c_w s) (c_e s) s.

(** [input.buf[(input.e-1) % INPUT_BUF]] *)
Definition last_char (s : console) : Z := getb (c_buf s) (u32 (c_e s - 1) mod INPUT_BUF).

Definition erase_char : M console unit :=
  do! modify (fun s => set_e (u32 (c_e s - 1)) s) in
  consputc BACKSPACE.

(** The loop of [C('U')]. *)
Fixpoint kill_line (fuel : nat) : M console unit :=
  let! more := gets (fun s => negb (c_e s =? c_w s) && negb (last_char s =? NEWLINE)) in
  if more then
    match fuel with
    | O => undefined
    | S fuel' => do! erase_char in kill_line fuel'
    end
  else ret tt.

(** [input.buf[input.e++ % INPUT_BUF] = c] *)
Definition put_input (c : Z) (s : console) : console :=
  set_input (setb (c_buf s) (c_e s mod INPUT_BUF) (u8 c)) (c_r s) (c_w s) (u32 (c_e s + 1)) s.

(** One round of the loop of [consoleintr]: whether it wakes readers up, and whether
    it asks for the process listing. *)
Definition intr_char (c : Z) : M console (bool * bool) :=
  if c =? CTRL 80 then ret (false, true) else
  if c =? CTRL 85 then do! kill_line (Z.to_nat INPUT_BUF) in ret (false, false) else
  if (c =? CTRL 72) || (c =? 127) then
    let! more := gets (fun s => negb (c_e s =? c_w s)) in
    do! when more erase_char in
    ret (false, false)
  else
  let! room := gets (fun s => u32 (c_e s - c_r s) <? INPUT_BUF) in
  if negb (c =? 0) && room then
    let c := if c =? 13 then NEWLINE else c in
    do! modify (put_input c) in
    do! consputc c in
    let! full := gets (fun s => c_e s =? u32 (c_r s + INPUT_BUF)) in
    if (c =? NEWLINE) || (c =? CTRL 68) || full then
      do! modify (fun s => set_w (c_e s) s) in
      ret (true, false)
    else ret (false, false)
  else ret (false, false).

(** [consoleintr]; [cs] is what [getc] returns before it returns a negative number. *)
Fixpoint consoleintr (cs : list Z) : M console (bool * bool) :=
  match cs with
  | [] => ret (false, false)
  | c :: cs' =>
      let! a := intr_char c in
      let! b := consoleintr cs' in
      ret (a.1 || b.1, a.2 || b.2)
  end.

(** A read returns, or sleeps with [n] bytes still to go. *)
Inductive cread := CDone (r : Z) | CWait (n : Z).

(** The loop of [consoleread]; [dst] is what has been stored so far. *)
Fixpoint consoleread_loop (n : nat) (killed : bool) (target : Z) (dst : bytes) (s : console) : (cread * bytes) * console :=
  match n with
  | O => (CDone target, dst, s)
  | S n' =>
      if c_r s =? c_w s then
        if killed then (CDone (-1), dst, s) else (CWait (Z.of_nat n), dst, s)
      else
        let c := getb (c_buf s) (c_r s mod INPUT_BUF) in
        let s1 := set_r (u32 (c_r s + 1)) s in
        if c =? CTRL 68 then
          (CDone (target - Z.of_nat n), dst, if Z.of_nat n <? target then set_r (u32 (c_r s1 - 1)) s1 else s1)
        else if c =? NEWLINE then (CDone (target - Z.of_nat n'), dst ++ [c], s1)
        else consoleread_loop n' killed target (dst ++ [c]) s1
  end.

Definition consoleread (killed : bool) (n : Z) (s : console) : (cread * bytes) * console :=
  if n <? 0 then (CDone 0, [], s) else consoleread_loop (Z.to_nat n) killed n [] s.

(** * The ring as lists *)

Definition ring (b : bytes) (a : Z) (n : nat) : bytes := (fun j => getb b ((a + Z.of_nat j) mod INPUT_BUF)) <$> seq 0 n.

Lemma length_ring b a n : length (ring b a n) = n.
Proof. unfold ring. by rewrite length_fmap, length_seq. Qed.

Lemma ring_mod b a a' n : a mod INPUT_BUF = a' mod INPUT_BUF -> ring b a n = ring b a' n.
Proof.
  intros H. unfold ring. apply list_fmap_ext. intros i j _. f_equal.
  rewrite <- Zplus_mod_idemp_l, H, Zplus_mod_idemp_l. done.
Qed.

Lemma ring_u32 b a n : ring b (u32 a) n = ring b a n.
Proof. apply ring_mod. unfold INPUT_BUF. ints. Qed.

Lemma ring_S b a n : ring b a (S n) = ring b a n ++ [getb b ((a + Z.of_nat n) mod INPUT_BUF)].
Proof. unfold ring. rewrite seq_S, fmap_app. done. Qed.

Lemma ring_app b a n m : ring b a (n + m) = ring b a n ++ ring b (a + Z.of_nat n) m.
Proof.
  induction m as [|m IH]; [rewrite Nat.add_0_r; by rewrite app_nil_r|].
  rewrite Nat.add_succ_r, !ring_S, IH, <- app_assoc. do 5 f_equal. lia.
Qed.

Lemma ring_cons b a n : ring b a (S n) = getb b (a mod INPUT_BUF) :: ring b (a + 1) n.
Proof. change (S n) with (1 + n)%nat. rewrite ring_app. simpl. f_equal. unfold ring. simpl. by rewrite Z.add_0_r. Qed.

Lemma ring_set b a k v n : length b = 128%nat -> (n <= k < 128)%nat ->
  ring (setb b ((a + Z.of_nat k) mod INPUT_BUF) v) a n = ring b a n.
Proof.
  intros Hb Hk. unfold ring. apply list_fmap_ext. intros i j [-> Hj]%lookup_seq. unfold getb, setb, INPUT_BUF.
  apply list_lookup_total_insert_ne. divmod.
Qed.

Lemma getb_setb_ring b i v : length b = 128%nat -> getb (setb b (i mod INPUT_BUF) v) (i mod INPUT_BUF) = v.
Proof. intros Hb. unfold getb, setb, INPUT_BUF. apply list_lookup_total_insert_eq. rewrite Hb. divmod. Qed.

(** What readers can get, and the line being edited. *)
Definition nready (s : console) : Z := u32 (c_w s - c_r s).
Definition nedit (s : console) : Z := u32 (c_e s - c_w s).
Definition ready (s : console) : bytes := ring (c_buf s) (c_r s) (Z.to_nat (nready s)).
Definition edit (s : console) : bytes := ring (c_buf s) (c_w s) (Z.to_nat (nedit s)).

Definition is_index (x : Z) : Prop := 0 <= x < 4294967296.

Record input_ok (s : console) : Prop := {
  in_buf : length (c_buf s) = 128%nat;
  in_r : is_index (c_r s);
  in_w : is_index (c_w s);
  in_e : is_index (c_e s);
  in_room : nready s + nedit s <= 128;
  in_edit : Forall (fun c => c <> NEWLINE) (edit s)
}.

(** ** The screen

    What it shows is the text up to the cursor; the rest of the 24 rows in use is
    blank.  A cell that was cleared shows as a blank. *)

Definition vis (x : Z) : Z := if x =? 0 then blank_cell else x.
Definition shown (s : console) : list Z := vis <$> take (Z.to_nat (c_pos s)) (c_crt s).

Definition rest_blank (crt : list Z) (pos : Z) : Prop :=
  forall i, (Z.to_nat pos <= i < 1920)%nat -> vis (crt !!! i) = blank_cell.

Record screen_ok (s : console) : Prop := {
  sc_crt : length (c_crt s) = 2000%nat;
  sc_pos : 0 <= c_pos s < 1920;
  sc_rest : rest_blank (c_crt s) (c_pos s)
}.

(** Text that does not fit scrolls away by lines. *)
Definition scroll (t : list Z) : list Z := if (1920 <=? length t)%nat then drop 80 t else t.

Definition put_text (c : Z) (t : list Z) : list Z :=
  if c =? NEWLINE then scroll (t ++ replicate (80 - length t mod 80) blank_cell)
  else if c =? BACKSPACE then take (length t - 1) t
  else scroll (t ++ [vis (Z.lor (Z.land c 255) 1792)]).

(** The end of [cgaputc], from the check of the position on. *)
Definition settle (pos : Z) : M console unit :=
  if (pos <? 0) || (pos >? 25 * 80) then panic "pos under/overflow" else
  let! pos :=
    (if pos / 80 >=? 24 then
       do! modify (fun s => set_screen (splice (c_crt s) 0 (slice (c_crt s) 80 (23 * 80))) (c_pos s) s) in
       do! modify (fun s => set_screen (splice (c_crt s) (Z.to_nat (pos - 80)) (replicate (Z.to_nat (24 * 80 - (pos - 80))) 0)) (c_pos s) s) in
       ret (pos - 80)
     else ret pos) in
  do! modify (fun s => set_screen (c_crt s) (u16 pos) s) in
  if pos <? 25 * 80 then modify (fun s => set_screen (setb (c_crt s) pos blank_cell) (c_pos s) s) else undefined.

Lemma cgaputc_eq c : cgaputc c =
  let! pos := gets c_pos in
  let! pos :=
    (if c =? NEWLINE then ret (pos + (80 - pos mod 80))
     else if c =? BACKSPACE then ret (if pos >? 0 then pos - 1 else pos)
     else if pos <? 25 * 80 then
       do! modify (fun s => set_screen (setb (c_crt s) pos (Z.lor (Z.land c 255) 1792)) (c_pos s) s) in
       ret (pos + 1)
     else undefined) in
  settle pos.
Proof. done. Qed.

(** Same input, good screen with the text [t]. *)
Definition echoed (s s' : console) (t : list Z) : Prop :=
  screen_ok s' /\ shown s' = t /\ c_buf s' = c_buf s /\ c_r s' = c_r s /\ c_w s' = c_w s /\ c_e s' = c_e s.

Lemma settle_stay s pos : length (c_crt s) = 2000%nat -> 0 <= pos < 1920 -> rest_blank (c_crt s) (pos + 1) ->
  exists s', settle pos s = Ok (tt, s') /\ echoed s s' (vis <$> take (Z.to_nat pos) (c_crt s)) /\ c_uart s' = c_uart s.
Proof.
  intros Hl Hp Hr. eexists. split.
  - unfold settle. replace ((pos <? 0) || (pos >? 25 * 80)) with false by lia.
    replace (pos / 80 >=? 24) with false by divmod. mstep (eq_refl : ret pos s = Ok (pos, s)).
    mstep (eq_refl : modify (fun s => set_screen (c_crt s) (u16 pos) s) s = Ok (tt, set_screen (c_crt s) (u16 pos) s)).
    replace (pos <? 25 * 80) with true by lia. reflexivity.
  - assert (u16 pos = pos) as Eu by ints. split; [|done]. unfold set_screen, setb. rewrite Eu. cbn. split_and!; [| |done..].
    + constructor; cbn; [by rewrite length_insert|done|]. intros i Hi. cbn in *.
      destruct (decide (i = Z.to_nat pos)) as [->|Hne]; [rewrite list_lookup_total_insert_eq by lia; done|].
      rewrite list_lookup_total_insert_ne by done. apply Hr. lia.
    + unfold shown. cbn. by rewrite take_insert_ge by lia.
Qed.

Lemma scrolled_lookup (crt : list Z) i : length crt = 2000%nat -> (1840 <= i < 1920)%nat ->
  splice (splice crt 0 (slice crt 80 1840)) 1840 (replicate 80 0) !!! i = 0.
Proof.
  intros Hl Hi. assert (length (slice crt 80 1840) = 1840%nat) as Hs by (apply length_slice; lia).
  rewrite list_lookup_total_alt, splice_lookup_in; rewrite ?length_replicate, ?length_splice; try lia.
  rewrite lookup_replicate_2 by lia. done.
Qed.

Lemma scrolled_take (crt : list Z) : length crt = 2000%nat ->
  take 1840 (splice (splice crt 0 (slice crt 80 1840)) 1840 (replicate 80 0)) = drop 80 (take 1920 crt).
Proof.
  intros Hl. assert (length (slice crt 80 1840) = 1840%nat) as Hs by (apply length_slice; lia).
  unfold splice at 1. rewrite take_app_length' by (rewrite length_take, length_splice by lia; lia).
  unfold splice. rewrite take_0, Hs. simpl app. rewrite take_app_length' by done.
  unfold slice. rewrite take_drop_commute. done.
Qed.

Lemma settle_scroll s : length (c_crt s) = 2000%nat ->
  exists s', settle 1920 s = Ok (tt, s') /\ echoed s s' (drop 80 (vis <$> take 1920 (c_crt s))) /\ c_uart s' = c_uart s.
Proof.
  intros Hl. set (crt := splice (splice (c_crt s) 0 (slice (c_crt s) 80 1840)) 1840 (replicate 80 0)).
  assert (length (slice (c_crt s) 80 1840) = 1840%nat) as Hs by (apply length_slice; lia).
  assert (length crt = 2000%nat) as Hc.
  { unfold crt. rewrite length_splice; rewrite ?length_replicate, length_splice; lia. }
  exists (set_screen (<[1840%nat := blank_cell]> crt) 1840 s). split; [reflexivity|]. split; [|done].
  unfold set_screen. cbn [c_crt c_pos c_buf c_r c_w c_e]. split_and!; [| |done..].
  - constructor; cbn [c_crt c_pos]; [by rewrite length_insert|lia|]. intros i Hi. cbn in Hi.
    destruct (decide (i = 1840%nat)) as [->|Hne]; [rewrite list_lookup_total_insert_eq by lia; done|].
    rewrite list_lookup_total_insert_ne by done. unfold crt. rewrite scrolled_lookup by lia. done.
  - unfold shown. cbn [c_crt c_pos]. change (Z.to_nat 1840) with 1840%nat. rewrite take_insert_ge by lia.
    unfold crt. rewrite scrolled_take by done. by rewrite fmap_drop.
Qed.

Lemma settle_spec s pos : length (c_crt s) = 2000%nat -> 0 <= pos <= 1920 -> rest_blank (c_crt s) (pos + 1) ->
  exists s', settle pos s = Ok (tt, s') /\ echoed s s' (scroll (vis <$> take (Z.to_nat pos) (c_crt s))) /\ c_uart s' = c_uart s.
Proof.
  intros Hl Hp Hr. assert (length (vis <$> take (Z.to_nat pos) (c_crt s)) = Z.to_nat pos) as Ht.
  { rewrite length_fmap, length_take. lia. }
  unfold scroll. rewrite Ht. destruct (Z.eq_dec pos 1920) as [->|Hne].
  - destruct (settle_scroll s Hl) as (s' & E & H). by exists s'.
  - replace (1920 <=? Z.to_nat pos)%nat with false by (symmetry; apply Nat.leb_gt; lia).
    apply settle_stay; [done|lia|done].
Qed.

Lemma shown_length s : screen_ok s -> length (shown s) = Z.to_nat (c_pos s).
Proof. intros [Hl Hp _]. unfold shown. rewrite length_fmap, length_take. lia. Qed.

(** The text of the blank cells after the cursor. *)
Lemma shown_further s pos : screen_ok s -> c_pos s <= pos <= 1920 ->
  vis <$> take (Z.to_nat pos) (c_crt s) = shown s ++ replicate (Z.to_nat pos - Z.to_nat (c_pos s)) blank_cell.
Proof.
  intros Hs Hp. pose proof (shown_length s Hs) as Hsl. destruct Hs as [Hl Hp' Hr].
  apply list_eq_same_length with (n := Z.to_nat pos).
  - rewrite length_app, length_replicate. lia.
  - rewrite length_fmap, length_take. lia.
  - intros i x y Hi Hx Hy. rewrite list_lookup_fmap, lookup_take_lt in Hx by lia.
    destruct (decide (i < Z.to_nat (c_pos s))%nat).
    + rewrite lookup_app_l in Hy by lia. unfold shown in Hy. rewrite list_lookup_fmap, lookup_take_lt in Hy by lia. congruence.
    + rewrite lookup_app_r in Hy by lia. apply lookup_replicate in Hy as [-> _].
      apply fmap_Some in Hx as (z & Hz & ->). apply list_lookup_total_correct in Hz as <-. apply Hr. lia.
Qed.

Lemma cgaputc_spec c s : screen_ok s ->
  exists s', cgaputc c s = Ok (tt, s') /\ echoed s s' (put_text c (shown s)) /\ c_uart s' = c_uart s.
Proof.
  intros Hs. pose proof (shown_length s Hs) as Hsl. pose proof Hs as [Hl Hp Hr]. rewrite cgaputc_eq.
  mstep (eq_refl : gets c_pos s = Ok (c_pos s, s)). unfold put_text. destruct (Z.eqb_spec c NEWLINE).
  - mstep (eq_refl : ret (c_pos s + (80 - c_pos s mod 80)) s = Ok (c_pos s + (80 - c_pos s mod 80), s)).
    set (p := c_pos s + (80 - c_pos s mod 80)). assert (c_pos s < p <= 1920) as Hpp by (unfold p; divmod).
    destruct (settle_spec s p Hl ltac:(lia)) as (s' & E & H); [intros i Hi; apply Hr; lia|]. exists s'. split; [done|].
    rewrite shown_further in H by (done || lia). rewrite Hsl.
    replace (80 - Z.to_nat (c_pos s) mod 80)%nat with (Z.to_nat p - Z.to_nat (c_pos s))%nat; [done|].
    unfold p. rewrite <- (Z2Nat.inj_mod _ 80) by lia. pose proof (Z.mod_pos_bound (c_pos s) 80). lia.
  - destruct (Z.eqb_spec c BACKSPACE).
    + set (p := if c_pos s >? 0 then c_pos s - 1 else c_pos s). mstep (eq_refl : ret p s = Ok (p, s)).
      assert (0 <= p < 1920 /\ Z.to_nat p = (Z.to_nat (c_pos s) - 1)%nat) as [Hpp Ep].
      { unfold p. destruct (Z.gtb_spec (c_pos s) 0); lia. }
      destruct (settle_stay s p Hl Hpp) as (s' & E & H & Hu); [intros i Hi; apply Hr; lia|]. exists s'. split_and!; [done| |done].
      rewrite Hsl, <- Ep. unfold shown. rewrite <- fmap_take, take_take, Nat.min_l by lia. done.
    + replace (c_pos s <? 25 * 80) with true by lia. set (x := Z.lor (Z.land c 255) 1792).
      set (s1 := set_screen (setb (c_crt s) (c_pos s) x) (c_pos s) s).
      mstep (eq_refl : (do! modify (fun s0 => set_screen (setb (c_crt s0) (c_pos s) x) (c_pos s0) s0) in ret (c_pos s + 1)) s = Ok (c_pos s + 1, s1)).
      destruct (settle_spec s1 (c_pos s + 1)) as (s' & E & H & Hu).
      * simpl. unfold setb. by rewrite length_insert.
      * lia.
      * intros i Hi. simpl. unfold setb. rewrite list_lookup_total_insert_ne by lia. apply Hr. lia.
      * exists s'. split_and!; [done| |done]. replace (vis <$> take (Z.to_nat (c_pos s + 1)) (c_crt s1)) with (shown s ++ [vis x]) in H; [done|].
        simpl. unfold setb, shown. replace (Z.to_nat (c_pos s + 1)) with (S (Z.to_nat (c_pos s))) by lia.
        rewrite (take_S_r _ _ x) by (apply list_lookup_insert_eq; lia). rewrite take_insert_ge by lia. by rewrite fmap_app.
Qed.

(** What goes to the serial line. *)
Definition uart_text (c : Z) : bytes := if c =? BACKSPACE then [8; 32; 8] else [u8 c].

Lemma consputc_spec c s : screen_ok s ->
  exists s', consputc c s = Ok (tt, s') /\ echoed s s' (put_text c (shown s)) /\ c_uart s' = (fun l => l ++ uart_text c) <$> c_uart s.
Proof.
  intros Hs. set (s1 := mkcons (c_buf s) (c_r s) (c_w s) (c_e s) (c_crt s) (c_pos s) ((fun l => l ++ uart_text c) <$> c_uart s)).
  assert (screen_ok s1) as Hs1 by (destruct Hs; by constructor).
  destruct (cgaputc_spec c s1 Hs1) as (s' & E & He & Hu). exists s'. split_and!; [|done|done].
  unfold consputc. rewrite (bind_Ok _ _ s tt s1); [done|]. unfold s1, uart_text. destruct (c =? BACKSPACE); [|done].
  unfold bind, uartputc, modify. cbn. destruct (c_uart s) as [l|]; [|done]. cbn. by rewrite <- !app_assoc.
Qed.

Lemma cputs_spec l s : screen_ok s ->
  exists s', cputs l s = Ok (tt, s') /\ echoed s s' (foldl (fun t c => put_text c t) (shown s) l) /\
    c_uart s' = (fun t => t ++ concat (uart_text <$> l)) <$> c_uart s.
Proof.
  revert s. induction l as [|c l IH]; intros s Hs.
  - exists s. simpl. split_and!; [done|done|]. destruct (c_uart s) as [t|]; [|done]. simpl. by rewrite app_nil_r.
  - destruct (consputc_spec c s Hs) as (s1 & E1 & (H1 & H2 & H3 & H4 & H5 & H6) & U1).
    destruct (IH s1 H1) as (s2 & E2 & (K1 & K2 & K3 & K4 & K5 & K6) & U2). exists s2. simpl. mstep E1.
    split_and!; [done| |rewrite U2, U1; destruct (c_uart s) as [t|]; [|done]; simpl; by rewrite <- app_assoc]. split_and!; [done|by rewrite K2, H2|congruence..].
Qed.

(** ** cprintf: with arguments that fit the format it always prints something. *)

Lemma kprintint_loop_total room x base : 2 <= base -> 0 <= x < base ^ Z.of_nat (S room) ->
  exists l, kprintint_loop (S room) x base = Ok l.
Proof.
  intros Hb. revert x. induction room as [|room IH]; intros x Hx; cbn [kprintint_loop].
  - rewrite Z.pow_1_r in Hx. rewrite Z.div_small by lia. simpl. eauto.
  - destruct (x / base =? 0); [eauto|]. destruct (IH (x / base)) as (l & E).
    { split; [apply Z.div_pos; lia|]. apply Z.div_lt_upper_bound; [lia|].
      rewrite (Nat2Z.inj_succ (S room)), Z.pow_succ_r in Hx by lia. lia. }
    cbn [kprintint_loop] in E. rewrite E. eauto.
Qed.

Fixpoint args_ok (fmt : bytes) (args : list karg) : bool :=
  match fmt with
  | [] => true
  | c :: fmt' =>
      if negb (c =? 37) then args_ok fmt' args else
      match fmt' with
      | [] => true
      | d :: fmt'' =>
          if (d =? 100) || (d =? 120) || (d =? 112) then
            match args with KWord x :: args' => args_ok fmt'' args' | _ => false end
          else if d =? 115 then match args with KStr _ :: args' => args_ok fmt'' args' | _ => false end
          else args_ok fmt'' args
      end
  end.

(** [m] prints [l]. *)
Definition prints (m : M console unit) (s : console) : Prop :=
  exists l s', m s = Ok (tt, s') /\ echoed s s' (foldl (fun t c => put_text c t) (shown s) l).

Lemma prints_bind m k s : prints m s -> (forall s', screen_ok s' -> prints k s') -> prints (do! m in k) s.
Proof.
  intros (l & s1 & E1 & H1 & H2 & H3 & H4 & H5 & H6) Hk. destruct (Hk s1 H1) as (l' & s2 & E2 & K1 & K2 & K3 & K4 & K5 & K6).
  exists (l ++ l'), s2. mstep E1. split; [done|]. split_and!; [done|by rewrite K2, H2, foldl_app|congruence..].
Qed.

Lemma prints_cputs l s : screen_ok s -> prints (cputs l) s.
Proof. intros Hs. destruct (cputs_spec l s Hs) as (s' & E & He & _). by exists l, s'. Qed.

Lemma prints_consputc c s : screen_ok s -> prints (consputc c) s.
Proof. intros Hs. destruct (consputc_spec c s Hs) as (s' & E & He & _). by exists [c], s'. Qed.

Lemma prints_kprintint xx base sign s : base = 10 \/ base = 16 -> screen_ok s -> prints (kprintint xx base sign) s.
Proof.
  intros Hb Hs. unfold kprintint. set (x := if sign && (xx <? 0) then u32 (- xx) else u32 xx).
  assert (0 <= x < 4294967296) as Hx by (unfold x; destruct (_ && _); apply u32_range).
  destruct (kprintint_loop_total 15 x base) as (l & E); [lia|destruct Hb as [->| ->]; lia|].
  rewrite E. by apply prints_cputs.
Qed.

Lemma cprintf_total fmt args s : args_ok fmt args = true -> screen_ok s -> prints (cprintf fmt args) s.
Proof.
  remember (length fmt) as n eqn:En. assert (length fmt <= n)%nat as Hn by lia. clear En.
  revert fmt args s Hn. induction n as [|n IH]; intros fmt args s Hn Ha Hs.
  { destruct fmt; [|simpl in Hn; lia]. exists [], s. done. }
  destruct fmt as [|c fmt]; [by exists [], s|]. cbn [args_ok length cprintf] in Ha, Hn |- *. destruct (negb (c =? 37)).
  { apply prints_bind; [by apply prints_consputc|]. intros s' Hs'. apply IH; [lia|done|done]. }
  destruct fmt as [|d fmt]; [by exists [], s|]. simpl in Hn.
  destruct (d =? 100); simpl in Ha.
  { destruct args as [|[x|t] args]; [done| |done].
    apply prints_bind; [apply prints_kprintint; [lia|done]|]. intros s' Hs'. apply IH; [lia|done|done]. }
  destruct ((d =? 120) || (d =? 112)).
  { destruct args as [|[x|t] args]; [done| |done].
    apply prints_bind; [apply prints_kprintint; [lia|done]|]. intros s' Hs'. apply IH; [lia|done|done]. }
  destruct (d =? 115).
  { destruct args as [|[x|[t|]] args]; [done|done| |];
      (apply prints_bind; [by apply prints_cputs|]; intros s' Hs'; apply IH; [lia|done|done]). }
  destruct (d =? 37); (apply prints_bind; [by apply prints_consputc|]; intros s' Hs').
  - apply IH; [lia|done|done].
  - apply prints_bind; [by apply prints_consputc|]. intros s'' Hs''. apply IH; [lia|done|done].
Qed.

(** ** The line editor *)

(** Readers get whole lines: what has been committed, and the line being edited. *)
Record editor := mked { ed_ready : bytes; ed_edit : bytes }.

Definition view (s : console) : editor := mked (ready s) (edit s).

Definition ed_char (c : Z) (d : editor) : editor :=
  if c =? CTRL 80 then d else
  if c =? CTRL 85 then mked (ed_ready d) [] else
  if (c =? CTRL 72) || (c =? 127) then mked (ed_ready d) (take (length (ed_edit d) - 1) (ed_edit d)) else
  if negb (c =? 0) && (length (ed_ready d) + length (ed_edit d) <? 128)%nat then
    let c := if c =? 13 then NEWLINE else c in
    let l := ed_edit d ++ [c] in
    if (c =? NEWLINE) || (c =? CTRL 68) || (length (ed_ready d) + length l =? 128)%nat
    then mked (ed_ready d ++ l) [] else mked (ed_ready d) l
  else d.

Lemma nready_range s : 0 <= nready s < 4294967296.
Proof. apply u32_range. Qed.

Lemma nedit_range s : 0 <= nedit s < 4294967296.
Proof. apply u32_range. Qed.

Lemma view_lengths s : Z.of_nat (length (ready s)) = nready s /\ Z.of_nat (length (edit s)) = nedit s.
Proof.
  unfold ready, edit. rewrite !length_ring. pose proof (nready_range s). pose proof (nedit_range s). lia.
Qed.

Lemma echoed_view s s' t : echoed s s' t -> input_ok s -> input_ok s' /\ view s' = view s.
Proof.
  intros (_ & _ & H1 & H2 & H3 & H4) [I1 I2 I3 I4 I5 I6].
  assert (nready s' = nready s) as E1 by (unfold nready; congruence).
  assert (nedit s' = nedit s) as E2 by (unfold nedit; congruence).
  assert (edit s' = edit s) as E3 by (unfold edit; congruence).
  split; [|unfold view, ready; congruence]. constructor; [congruence..| |]; [by rewrite E1, E2|by rewrite E3].
Qed.

Lemma used_eq s : input_ok s -> u32 (c_e s - c_r s) = nready s + nedit s.
Proof. intros [_ I2 I3 I4 I5 _]. unfold nready, nedit, is_index in *. ints. Qed.

(** The three moves of the indices. *)
Lemma put_input_spec c s : input_ok s -> nready s + nedit s < 128 -> byte_ok c ->
  let s' := put_input c s in
  length (c_buf s') = 128%nat /\ is_index (c_e s') /\ nready s' = nready s /\ nedit s' = nedit s + 1 /\
  ready s' = ready s /\ edit s' = edit s ++ [c] /\ c_r s' = c_r s /\ c_w s' = c_w s.
Proof.
  intros [I1 I2 I3 I4 I5 I6] Hroom Hc s'. pose proof (nready_range s). pose proof (nedit_range s).
  assert (u8 c = c) as Ec by (unfold byte_ok in Hc; ints).
  assert (nedit s' = nedit s + 1) as En by (unfold nedit, nready, s', is_index in *; simpl; ints).
  assert (forall a k, (a + Z.of_nat k) mod INPUT_BUF = c_e s mod INPUT_BUF -> forall n, (n <= k < 128)%nat ->
    ring (c_buf s') a n = ring (c_buf s) a n) as Hset.
  { intros a k Hk n Hn. unfold s'. simpl. rewrite <- Hk. by apply ring_set. }
  split_and!; [unfold s'; simpl; unfold setb; by rewrite length_insert|apply u32_range|done|done| | |done|done].
  - unfold ready. replace (nready s') with (nready s) by done. change (c_r s') with (c_r s).
    apply (Hset _ (Z.to_nat (nready s + nedit s))); [|lia].
    rewrite Z2Nat.id by lia. unfold nready, nedit, INPUT_BUF, is_index in *. ints.
  - unfold edit. rewrite En. change (c_w s') with (c_w s).
    replace (Z.to_nat (nedit s + 1)) with (S (Z.to_nat (nedit s))) by lia. rewrite ring_S.
    assert ((c_w s + Z.of_nat (Z.to_nat (nedit s))) mod INPUT_BUF = c_e s mod INPUT_BUF) as Ee.
    { rewrite Z2Nat.id by lia. unfold nedit, INPUT_BUF, is_index in *. ints. }
    f_equal; [apply (Hset _ (Z.to_nat (nedit s))); [done|lia]|]. f_equal. rewrite Ee. unfold s'. simpl. rewrite Ec. by apply getb_setb_ring.
Qed.

Lemma erase_index_spec s : input_ok s -> c_e s <> c_w s ->
  let s' := set_e (u32 (c_e s - 1)) s in
  input_ok s' /\ ready s' = ready s /\ edit s' = take (length (edit s) - 1) (edit s) /\ nedit s' = nedit s - 1.
Proof.
  intros [I1 I2 I3 I4 I5 I6] Hne s'. pose proof (nedit_range s) as Hr.
  assert (nedit s' = nedit s - 1) as En by (unfold nedit, s', is_index in *; simpl; ints).
  pose proof (nedit_range s') as Hr'. destruct (view_lengths s) as [_ Hlen].
  assert (edit s' = take (length (edit s) - 1) (edit s)) as Ee.
  { replace (length (edit s) - 1)%nat with (Z.to_nat (nedit s')) by lia. unfold edit. rewrite En.
    replace (Z.to_nat (nedit s)) with (S (Z.to_nat (nedit s - 1))) by lia. rewrite ring_S.
    rewrite take_app_length' by (rewrite length_ring; lia). done. }
  split_and!; [|done|done|done]. constructor; [done|done|done|apply u32_range| |].
  - change (nready s') with (nready s). lia.
  - rewrite Ee. by apply Forall_take.
Qed.

Lemma commit_line_spec s : length (c_buf s) = 128%nat -> is_index (c_r s) -> is_index (c_w s) -> is_index (c_e s) ->
  nready s + nedit s <= 128 ->
  let s' := set_w (c_e s) s in input_ok s' /\ view s' = mked (ready s ++ edit s) [].
Proof.
  intros I1 I2 I3 I4 I5 s'. pose proof (nready_range s). pose proof (nedit_range s).
  assert (nready s' = nready s + nedit s) as En by (unfold nready, nedit, s', is_index in *; simpl; ints).
  assert (nedit s' = 0) as Ed by (unfold nedit, s'; simpl; by rewrite Z.sub_diag).
  assert (edit s' = []) as Ee by (unfold edit; by rewrite Ed).
  split; [constructor; [done..|lia|by rewrite Ee]|]. unfold view. rewrite Ee. f_equal.
  unfold ready, edit. rewrite En. change (c_buf s') with (c_buf s). change (c_r s') with (c_r s).
  rewrite Z2Nat.inj_add, ring_app by lia. f_equal. apply ring_mod.
  rewrite Z2Nat.id by lia. unfold nready, INPUT_BUF, is_index in *. ints.
Qed.

Lemma last_char_edit s : input_ok s -> c_e s <> c_w s -> last_char s ∈ edit s.
Proof.
  intros [I1 I2 I3 I4 I5 I6] Hne. pose proof (nedit_range s).
  assert (0 < nedit s) by (unfold nedit, is_index in *; ints).
  unfold last_char, edit. replace (Z.to_nat (nedit s)) with (S (Z.to_nat (nedit s - 1))) by lia.
  rewrite ring_S. apply elem_of_app. right.
  replace ((c_w s + Z.of_nat (Z.to_nat (nedit s - 1))) mod INPUT_BUF) with (u32 (c_e s - 1) mod INPUT_BUF); [by left|].
  rewrite Z2Nat.id by lia. unfold nedit, INPUT_BUF, is_index in *. ints.
Qed.

Definition cons_ok (s : console) : Prop := input_ok s /\ screen_ok s.

Lemma erase_char_spec s : cons_ok s -> c_e s <> c_w s ->
  exists s', erase_char s = Ok (tt, s') /\ cons_ok s' /\ nedit s' = nedit s - 1 /\
    view s' = mked (ready s) (take (length (edit s) - 1) (edit s)) /\ shown s' = put_text BACKSPACE (shown s).
Proof.
  intros [Hi Hs] Hne. destruct (erase_index_spec s Hi Hne) as (I1 & I2 & I3 & I4). set (s1 := set_e (u32 (c_e s - 1)) s) in *.
  assert (screen_ok s1) as Hs1 by (destruct Hs; by constructor).
  destruct (consputc_spec BACKSPACE s1 Hs1) as (s' & E & He & _). exists s'.
  unfold erase_char. mstep (eq_refl : modify (fun s => set_e (u32 (c_e s - 1)) s) s = Ok (tt, s1)).
  destruct (echoed_view s1 s' _ He I1) as [Hi' Hv]. destruct He as (S1 & S2 & _ & _ & S5 & S6).
  split_and!; [done|by split|unfold nedit; rewrite S5, S6; done|rewrite Hv; unfold view; congruence|done].
Qed.

(** Enough for a full line: the line never contains a newline, so all of it goes. *)
Lemma kill_line_spec fuel s : cons_ok s -> (length (edit s) <= fuel)%nat ->
  exists s', kill_line fuel s = Ok (tt, s') /\ cons_ok s' /\ view s' = mked (ready s) [].
Proof.
  revert s. induction fuel as [|fuel IH]; intros s Hc Hf; pose proof Hc as [Hi Hs];
    destruct (view_lengths s) as [_ Hlen]; simpl kill_line;
    set (f := fun s => negb (c_e s =? c_w s) && negb (last_char s =? NEWLINE)); mstep (eq_refl : gets f s = Ok (f s, s)).
  - assert (c_e s = c_w s) as Ee by (destruct Hi; unfold nedit, is_index in *; ints).
    unfold f. rewrite Ee, Z.eqb_refl. simpl. exists s. split_and!; [done|done|].
    unfold view. by rewrite (nil_length_inv (edit s)) by lia.
  - unfold f. destruct (Z.eqb_spec (c_e s) (c_w s)) as [Ee|Ne]; simpl.
    + exists s. split_and!; [done|done|]. unfold view.
      rewrite (nil_length_inv (edit s)); [done|]. unfold nedit in Hlen. rewrite Ee, Z.sub_diag in Hlen. change (u32 0) with 0 in Hlen. lia.
    + assert (last_char s <> NEWLINE) as Hn.
      { pose proof (in_edit s Hi) as HF. rewrite Forall_forall in HF. by apply HF, last_char_edit. }
      apply Z.eqb_neq in Hn. rewrite Hn. simpl.
      destruct (erase_char_spec s Hc Ne) as (s1 & E & Hc1 & Hn1 & Hv1 & _). mstep E.
      injection Hv1 as Hv1 Hv2. destruct (IH s1 Hc1) as (s' & E' & Hc' & Hv').
      { rewrite Hv2, length_take. lia. }
      exists s'. split_and!; [done|done|]. by rewrite Hv', Hv1.
Qed.

(** A character that is kept. *)
Definition keep_char (c : Z) : M console (bool * bool) :=
  do! modify (put_input c) in
  do! consputc c in
  let! full := gets (fun s => c_e s =? u32 (c_r s + INPUT_BUF)) in
  if (c =? NEWLINE) || (c =? CTRL 68) || full then
    do! modify (fun s => set_w (c_e s) s) in
    ret (true, false)
  else ret (false, false).

Lemma keep_char_spec c s : cons_ok s -> byte_ok c -> (length (ready s) + length (edit s) < 128)%nat ->
  let l := edit s ++ [c] in
  let commits := (c =? NEWLINE) || (c =? CTRL 68) || (length (ready s) + length l =? 128)%nat in
  exists s', keep_char c s = Ok ((commits, false), s') /\ cons_ok s' /\
    view s' = (if commits then mked (ready s ++ l) [] else mked (ready s) l).
Proof.
  intros [Hi Hs] Hb Hroom l commits. destruct (view_lengths s) as [L1 L2].
  destruct (put_input_spec c s Hi ltac:(lia) Hb) as (P1 & P2 & P3 & P4 & P5 & P6 & P7 & P8).
  set (s1 := put_input c s) in *. assert (screen_ok s1) as Hs1 by (destruct Hs; by constructor).
  destruct (consputc_spec c s1 Hs1) as (s2 & E2 & (S1 & S2 & S3 & S4 & S5 & S6) & _).
  assert (nready s2 = nready s /\ nedit s2 = nedit s + 1) as [N1 N2] by (unfold nready, nedit in *; split; congruence).
  assert (ready s2 = ready s /\ edit s2 = l) as [R1 R2].
  { unfold ready, edit, l in *. rewrite N1, N2, S3, S4, S5. rewrite P3 in P5. rewrite P4 in P6. done. }
  assert (is_index (c_r s2) /\ is_index (c_w s2) /\ is_index (c_e s2)) as (X1 & X2 & X3).
  { destruct Hi. rewrite S4, S5, S6, P7, P8. done. }
  unfold keep_char. mstep (eq_refl : modify (put_input c) s = Ok (tt, s1)). mstep E2.
  set (f := fun s => c_e s =? u32 (c_r s + INPUT_BUF)). mstep (eq_refl : gets f s2 = Ok (f s2, s2)).
  assert (f s2 = (length (ready s) + length l =? 128)%nat) as ->.
  { unfold f, l. rewrite length_app. simpl. unfold nready, nedit, INPUT_BUF, is_index in *.
    destruct (Nat.eqb_spec (length (ready s) + (length (edit s) + 1)) 128) as [En|En]; ints. }
  fold commits. destruct commits eqn:Ec.
  - destruct (commit_line_spec s2) as [C1 C2]; [by rewrite S3|done|done|done|lia|].
    exists (set_w (c_e s2) s2). split_and!; [done|split; [done|]|by rewrite C2, R1, R2]. destruct S1. by constructor.
  - exists s2. split_and!; [done| |unfold view; by rewrite R1, R2]. split; [|done].
    constructor; [by rewrite S3|done|done|done|lia|]. rewrite R2. apply Forall_app. split; [apply (in_edit s Hi)|].
    constructor; [|done]. unfold commits in Ec. apply orb_false_iff in Ec as [Ec _]. apply orb_false_iff in Ec as [Ec _].
    by apply Z.eqb_neq.
Qed.

Lemma intr_char_spec c s : cons_ok s -> byte_ok c ->
  exists woken dump s', intr_char c s = Ok ((woken, dump), s') /\ cons_ok s' /\ view s' = ed_char c (view s) /\
    dump = (c =? CTRL 80) /\ exists l, ready s' = ready s ++ l /\ (woken = true <-> l <> []).
Proof.
  intros Hc Hb. pose proof Hc as [Hi Hs]. unfold intr_char, ed_char. cbn [view ed_ready ed_edit].
  destruct (Z.eqb_spec c (CTRL 80)) as [->|N80].
  { exists false, true, s. split_and!; [done..|]. exists []. by rewrite app_nil_r. }
  destruct (Z.eqb_spec c (CTRL 85)) as [->|N85].
  { destruct (kill_line_spec (Z.to_nat INPUT_BUF) s Hc) as (s' & E & Hc' & Hv').
    { destruct (view_lengths s). pose proof (in_room s Hi). pose proof (nready_range s). unfold INPUT_BUF. lia. }
    mstep E. exists false, false, s'. split_and!; [done..|]. exists []. rewrite app_nil_r. by injection Hv' as -> _. }
  destruct ((c =? CTRL 72) || (c =? 127)) eqn:Ebs.
  { set (f := fun s => negb (c_e s =? c_w s)). mstep (eq_refl : gets f s = Ok (f s, s)).
    unfold f. destruct (Z.eqb_spec (c_e s) (c_w s)) as [Ee|Ne]; simpl.
    - exists false, false, s. split_and!; [done|done| |done|exists []; by rewrite app_nil_r]. unfold view. f_equal.
      destruct (view_lengths s) as [_ Hlen]. unfold nedit in Hlen. rewrite Ee, Z.sub_diag in Hlen. change (u32 0) with 0 in Hlen.
      by rewrite (nil_length_inv (edit s)) by lia.
    - destruct (erase_char_spec s Hc Ne) as (s1 & E & Hc1 & _ & Hv1 & _). mstep E.
      exists false, false, s1. split_and!; [done..|]. exists []. rewrite app_nil_r. by injection Hv1 as -> _. }
  set (f := fun s => u32 (c_e s - c_r s) <? INPUT_BUF). mstep (eq_refl : gets f s = Ok (f s, s)).
  assert (f s = (length (ready s) + length (edit s) <? 128)%nat) as ->.
  { unfold f. rewrite used_eq by done. destruct (view_lengths s) as [<- <-]. unfold INPUT_BUF.
    destruct (Nat.ltb_spec (length (ready s) + length (edit s)) 128); lia. }
  destruct (negb (c =? 0) && (length (ready s) + length (edit s) <? 128)%nat) eqn:Er.
  - apply andb_prop in Er as [_ Er%Nat.ltb_lt]. set (c' := if c =? 13 then NEWLINE else c).
    assert (byte_ok c') as Hb' by (unfold c', byte_ok, NEWLINE in *; destruct (c =? 13); lia).
    destruct (keep_char_spec c' s Hc Hb' Er) as (s' & E & Hc' & Hv'). unfold keep_char in E.
    eexists _, false, s'. split; [exact E|]. split; [done|]. split; [exact Hv'|]. split; [done|].
    destruct ((c' =? NEWLINE) || (c' =? CTRL 68) || (length (ready s) + length (edit s ++ [c']) =? 128)%nat);
      injection Hv' as -> _; [exists (edit s ++ [c'])|exists []; by rewrite app_nil_r].
    split_and!; [done|]. split; [|done]. intros _ Hn%app_eq_nil. by destruct Hn.
  - exists false, false, s. split_and!; [done..|]. exists []. by rewrite app_nil_r.
Qed.

Lemma consoleintr_spec cs s : cons_ok s -> Forall byte_ok cs ->
  exists woken dump s', consoleintr cs s = Ok ((woken, dump), s') /\ cons_ok s' /\
    view s' = foldl (fun d c => ed_char c d) (view s) cs /\ (dump = true <-> CTRL 80 ∈ cs) /\
    exists l, ready s' = ready s ++ l /\ (woken = true <-> l <> []).
Proof.
  intros Hc Hb. revert s Hc. induction Hb as [|c cs Hb _ IH]; intros s Hc; simpl.
  - exists false, false, s. split_and!; [done|done|done| |exists []; by rewrite app_nil_r]. split; [done|by intros ?%not_elem_of_nil].
  - destruct (intr_char_spec c s Hc Hb) as (w1 & d1 & s1 & E1 & Hc1 & Hv1 & Hd1 & l1 & Hl1 & Hw1).
    destruct (IH s1 Hc1) as (w2 & d2 & s2 & E2 & Hc2 & Hv2 & Hd2 & l2 & Hl2 & Hw2). mstep E1. mstep E2.
    eexists _, _, s2. split; [reflexivity|]. simpl. split_and!; [done|by rewrite Hv2, Hv1| |].
    + rewrite orb_true_iff, elem_of_cons, Hd2, Hd1, Z.eqb_eq. split; (intros [?|?]; [left; congruence|by right]).
    + exists (l1 ++ l2). rewrite Hl2, Hl1, app_assoc. split; [done|]. rewrite orb_true_iff, Hw1, Hw2.
      destruct l1; simpl; [split; [intros [Hx|Hx]; [by destruct Hx|done]|by right]|split; [done|by left]].
Qed.

(** ** Reading *)

Definition EOF : Z := CTRL 68.

Lemma take_ready s : input_ok s -> c_r s <> c_w s ->
  let s' := set_r (u32 (c_r s + 1)) s in
  input_ok s' /\ ready s = getb (c_buf s) (c_r s mod INPUT_BUF) :: ready s' /\ edit s' = edit s.
Proof.
  intros [I1 I2 I3 I4 I5 I6] Hne s'. pose proof (nready_range s).
  assert (nready s' = nready s - 1) as En by (unfold nready, s', is_index in *; simpl; ints).
  pose proof (nready_range s').
  split_and!; [constructor; [done|apply u32_range|done|done|change (nedit s') with (nedit s); lia|done]| |done].
  unfold ready. replace (Z.to_nat (nready s)) with (S (Z.to_nat (nready s'))) by lia. rewrite ring_cons. f_equal.
  unfold s'. simpl. by rewrite ring_u32.
Qed.

(** Putting the character back. *)
Lemma unread_ready s : input_ok s -> c_r s <> c_w s ->
  set_r (u32 (c_r (set_r (u32 (c_r s + 1)) s) - 1)) (set_r (u32 (c_r s + 1)) s) = s.
Proof.
  intros [_ Hr _ _ _ _] _. destruct s as [b r w e crt pos ua]. unfold set_r, set_input, is_index in *. simpl in *. f_equal. ints.
Qed.

(** What a read of [n] bytes takes from what is ready: [dst], no end of file inside
    and a newline only at the end. *)
Record read_ok (killed : bool) (n : Z) (s : console) (res : cread) (dst : bytes) (s' : console) : Prop := {
  ro_ok : cons_ok s';
  ro_edit : edit s' = edit s;
  ro_shown : shown s' = shown s;
  ro_len : Z.of_nat (length dst) <= n;
  ro_eof : EOF ∉ dst;
  ro_line : forall i, dst !! i = Some NEWLINE -> length dst = S i;
  ro_res : match res with
    | CDone r =>
        (r = -1 /\ killed = true /\ ready s = dst /\ ready s' = []) \/
        (r = Z.of_nat (length dst) /\
          ((ready s = dst ++ ready s' /\
             (r = n \/ last dst = Some NEWLINE \/ (dst <> [] /\ head (ready s') = Some EOF))) \/
           (dst = [] /\ ready s = EOF :: ready s')))
    | CWait k => killed = false /\ ready s = dst /\ ready s' = [] /\ NEWLINE ∉ dst /\ k = n - Z.of_nat (length dst) /\ 0 < k
    end
}.

Lemma ready_empty s : input_ok s -> (c_r s =? c_w s) = true -> ready s = [].
Proof.
  intros _ E%Z.eqb_eq. unfold ready, nready. rewrite E, Z.sub_diag. done.
Qed.

Lemma consoleread_loop_spec n : forall killed target dst s, cons_ok s ->
  target = Z.of_nat n + Z.of_nat (length dst) ->
  exists l, let '(res, d, s') := consoleread_loop n killed target dst s in
    d = dst ++ l /\ cons_ok s' /\ edit s' = edit s /\ shown s' = shown s /\ (length l <= n)%nat /\ EOF ∉ l /\
    (forall i, l !! i = Some NEWLINE -> length l = S i) /\
    match res with
    | CDone r =>
        (r = -1 /\ killed = true /\ ready s = l /\ ready s' = []) \/
        (r = Z.of_nat (length d) /\
          ((ready s = l ++ ready s' /\
             (r = target \/ last l = Some NEWLINE \/ (d <> [] /\ head (ready s') = Some EOF))) \/
           (d = [] /\ ready s = EOF :: ready s')))
    | CWait k => killed = false /\ ready s = l /\ ready s' = [] /\ NEWLINE ∉ l /\ k = target - Z.of_nat (length d) /\ 0 < k
    end.
Proof.
  induction n as [|n IH]; intros killed target dst s Hc Ht.
  { exists []. simpl. rewrite app_nil_r. split_and!; [done|done|done|done|done|by intros ?%not_elem_of_nil|done|].
    right. split; [simpl in Ht; lia|]. left. split; [done|]. by left. }
  cbn [consoleread_loop]. pose proof Hc as [Hi Hs]. destruct (c_r s =? c_w s) eqn:E.
  { pose proof (ready_empty s Hi E) as Hr. exists [].
    destruct killed; rewrite app_nil_r.
    - split_and!; [done|done|done|done|simpl; lia|by intros ?%not_elem_of_nil|done|]. left. done.
    - split_and!; [done|done|done|done|simpl; lia|by intros ?%not_elem_of_nil|done|done|done|done|by intros ?%not_elem_of_nil|lia|lia]. }
  apply Z.eqb_neq in E. destruct (take_ready s Hi E) as (T1 & T2 & T3).
  set (c := getb (c_buf s) (c_r s mod INPUT_BUF)) in *. set (s1 := set_r (u32 (c_r s + 1)) s) in *.
  assert (cons_ok s1) as Hc1 by (split; [done|]; destruct Hs; by constructor).
  destruct (Z.eqb_spec c (CTRL 68)) as [Ec|Nc].
  - exists []. rewrite app_nil_r. destruct (Z.ltb_spec (Z.of_nat (S n)) target).
    + unfold s1. rewrite unread_ready by done. split_and!; [done|done|done|done|simpl; lia|by intros ?%not_elem_of_nil|done|].
      right. split; [lia|]. left. split; [done|]. right; right. split; [|by rewrite T2, Ec].
      intros ->. simpl in Ht. lia.
    + split_and!; [done|done|done|done|simpl; lia|by intros ?%not_elem_of_nil|done|].
      right. split; [lia|]. right. split; [apply nil_length_inv; lia|]. by rewrite T2, Ec.
  - assert (forall l, EOF ∉ l -> EOF ∉ c :: l) as Heof by (intros l Hl [?|?]%elem_of_cons; [by apply Nc|done]).
    destruct (Z.eqb_spec c NEWLINE) as [En|Nn].
    + exists [c]. split_and!; [done|done|done|done|simpl; lia|by apply Heof, not_elem_of_nil| |].
      * intros [|i] Hi'; [done|]. done.
      * right. rewrite length_app. simpl. split; [lia|]. left. split; [done|]. right; left. by rewrite En.
    + destruct (IH killed target (dst ++ [c]) s1 Hc1) as (l & Hl); [rewrite length_app; simpl; lia|].
      destruct (consoleread_loop n killed target (dst ++ [c]) s1) as [[res d] s'].
      destruct Hl as (H1 & H2 & H3 & H4 & H5 & H6 & H7 & H8). exists (c :: l). rewrite <- app_assoc in H1. simpl in H1.
      split_and!; [done|done|by rewrite H3|by rewrite H4|simpl; lia|by apply Heof| |].
      * intros [|i] Hi'; [simpl in Hi'; congruence|]. simpl in *. f_equal. by apply H7.
      * assert (d <> []) as Hd by (rewrite H1; by destruct dst).
        destruct res as [r|k].
        -- destruct H8 as [(?&?&?&?)|(? & [[? Ho]|[? ?]])]; [left|right|done].
           ++ split_and!; [done|done|by rewrite T2; f_equal|done].
           ++ split; [done|]. left. split; [rewrite T2; simpl; by f_equal|].
              destruct Ho as [?|[Hlast|?]]; [by left|right; left|by right; right].
              destruct l; [done|]. done.
        -- destruct H8 as (?&?&?&?&?&?). split_and!; [done|by rewrite T2; f_equal|done| |done|done].
           intros [?|?]%elem_of_cons; [by apply Nn|done].
Qed.

Lemma consoleread_spec killed n s : cons_ok s -> 0 <= n ->
  let '(res, dst, s') := consoleread killed n s in read_ok killed n s res dst s'.
Proof.
  intros Hc Hn. unfold consoleread. replace (n <? 0) with false by lia.
  destruct (consoleread_loop_spec (Z.to_nat n) killed n [] s Hc) as (l & H); [simpl; lia|].
  destruct (consoleread_loop _ _ _ _ _) as [[res d] s']. destruct H as (-> & H2 & H3 & H4 & H5 & H6 & H7 & H8).
  constructor; simpl; [done|done|done|lia|done|done|done].
Qed.

(** * All together *)

Lemma consolewrite_spec buf n s : cons_ok s ->
  exists s', consolewrite buf n s = Ok (n, s') /\ cons_ok s' /\ view s' = view s /\
    shown s' = foldl (fun t c => put_text c t) (shown s) ((fun c => Z.land c 255) <$> take (Z.to_nat n) buf).
Proof.
  intros [Hi Hs]. unfold consolewrite. destruct (cputs_spec ((fun c => Z.land c 255) <$> take (Z.to_nat n) buf) s Hs) as (s' & E & He & _).
  mstep E. exists s'. destruct (echoed_view _ _ _ He Hi) as [Hi' Hv]. destruct He as (H1 & H2 & _). split_and!; [done|by split|done|done].
Qed.

(** Interrupts, reads and writes in any order. *)
Inductive cons_step : console -> console -> Prop :=
| step_intr s cs r s' : Forall byte_ok cs -> consoleintr cs s = Ok (r, s') -> cons_step s s'
| step_read s killed n res dst s' : 0 <= n -> consoleread killed n s = (res, dst, s') -> cons_step s s'
| step_write s buf n r s' : consolewrite buf n s = Ok (r, s') -> cons_step s s'.

(** The input as it is at boot; the screen as the firmware leaves it. *)
Definition cons_boot (s : console) : Prop :=
  c_buf s = replicate 128 0 /\ c_r s = 0 /\ c_w s = 0 /\ c_e s = 0 /\ screen_ok s.

Lemma boot_cons_ok s : cons_boot s -> cons_ok s.
Proof.
  intros (H1 & H2 & H3 & H4 & Hs). split; [|done]. unfold is_index.
  assert (nready s = 0 /\ nedit s = 0) as [E1 E2] by (unfold nready, nedit; rewrite H2, H3, H4; done).
  constructor; unfold is_index; [by rewrite H1|lia|lia|lia|lia|]. unfold edit. rewrite E2. constructor.
Qed.

Lemma cons_step_ok s s' : cons_step s s' -> cons_ok s -> cons_ok s'.
Proof.
  destruct 1 as [s cs r s' Hb E|s killed n res dst s' Hn E|s buf n r s' E]; intros Hc.
  - destruct (consoleintr_spec cs s Hc Hb) as (w & d & s1 & E1 & H & _). rewrite E in E1. by injection E1 as _ <-.
  - pose proof (consoleread_spec killed n s Hc Hn) as H. rewrite E in H. apply (ro_ok _ _ _ _ _ _ H).
  - destruct (consolewrite_spec buf n s Hc) as (s1 & E1 & H & _). rewrite E in E1. by injection E1 as _ <-.
Qed.

(** C37. The console, whatever interrupts, reads and writes come before: keys go
    through a line editor (erase, kill line, end of file) in front of the ready
    text, and readers are woken exactly when text becomes ready; a read takes ready
    text only, at most one line or up to an end of file, and waits only if there is
    none left; the ring never overflows, also when its indices wrap around; the
    screen shows the last lines of what is written, and the cursor stays on it. *)
Theorem console_correct s0 s : cons_boot s0 -> rtc cons_step s0 s ->
  (forall cs, Forall byte_ok cs ->
     exists woken dump s', consoleintr cs s = Ok ((woken, dump), s') /\
       view s' = foldl (fun d c => ed_char c d) (view s) cs /\ (dump = true <-> CTRL 80 ∈ cs) /\
       exists l, ready s' = ready s ++ l /\ (woken = true <-> l <> [])) /\
  (forall killed n, 0 <= n -> let '(res, dst, s') := consoleread killed n s in read_ok killed n s res dst s') /\
  (forall buf n, exists s', consolewrite buf n s = Ok (n, s') /\ view s' = view s /\
     shown s' = foldl (fun t c => put_text c t) (shown s) ((fun c => Z.land c 255) <$> take (Z.to_nat n) buf)) /\
  (length (ready s) + length (edit s) <= 128)%nat /\ 0 <= c_pos s < 1920.
Proof.
  intros Hb Hrun. assert (cons_ok s) as Hc.
  { pose proof (boot_cons_ok s0 Hb) as H0. clear Hb. revert H0. induction Hrun as [|s1 s2 s3 Hs _ IH]; [done|].
    intros H1. apply IH. by eapply cons_step_ok. }
  split_and!.
  - intros cs Hcs. destruct (consoleintr_spec cs s Hc Hcs) as (w & d & s' & E & _ & Hv & Hd & Hl). eauto 8.
  - intros killed n Hn. by apply consoleread_spec.
  - intros buf n. destruct (consolewrite_spec buf n s Hc) as (s' & E & _ & Hv & Hsh). eauto.
  - destruct Hc as [Hi _]. pose proof (in_room s Hi). destruct (view_lengths s). lia.
  - apply (sc_pos s), Hc.
  - apply (sc_pos s), Hc.
Qed.

Definition demo_console : console := mkcons (replicate 128 0) 0 0 0 (replicate 2000 0) 0 None.

Lemma demo_console_boot : cons_boot demo_console.
Proof.
  split_and!; [done|done|done|done|]. constructor; [by vm_compute|simpl; lia|]. intros i Hi.
  change (c_crt demo_console) with (replicate 2000 0). rewrite list_lookup_total_alt, lookup_replicate_2 by lia. done.
Qed.

(** Type "lx", erase the x, type "s" and return: the reader gets "ls". *)
Lemma console_correct_witness : exists woken dump s',
  consoleintr [108; 120; 8; 115; 13] demo_console = Ok ((woken, dump), s') /\
  ready s' = [108; 115; 10] /\ (consoleread false 100 s').1 = (CDone 3, [108; 115; 10]).
Proof.
  destruct (console_correct demo_console demo_console demo_console_boot (rtc_refl _ _)) as (Hi & _).
  destruct (Hi [108; 120; 8; 115; 13]) as (w & d & s' & E & Hv & _); [repeat constructor; unfold byte_ok; lia|].
  exists w, d, s'. split; [exact E|]. injection Hv as Hr _. split; [exact Hr|].
  assert (result (consoleintr [108; 120; 8; 115; 13]) demo_console = Some (w, d)) as Hw by (unfold result; by rewrite E).
  assert (s' = endstate (consoleintr [108; 120; 8; 115; 13]) demo_console) as -> by (unfold endstate; by rewrite E).
  by vm_compute.
Defined.
