(* ===== verification/Elf.v ===== *)
(** The format of executable files (elf.h), read from their bytes. *)

From S2P Require Import Prelude.
Local Open Scope Z_scope.

Definition ELF_MAGIC : Z := 1179403647.
Definition ELF_PROG_LOAD : Z := 1.

(** A [uint] and a [ushort] field. *)
Definition uint_at (h : bytes) (off : nat) : Z := u32 (ld 4 h off).
Definition ushort_at (h : bytes) (off : nat) : Z := u16 (ld 2 h off).

(** The file header. *)
Definition SIZEOF_ELFHDR : Z := 52.
Definition elf_magic (h : bytes) : Z := uint_at h 0.
Definition elf_entry (h : bytes) : Z := uint_at h 24.
Definition elf_phoff (h : bytes) : Z := uint_at h 28.
Definition elf_phnum (h : bytes) : Z := ushort_at h 44.

(** A program header. *)
Definition SIZEOF_PROGHDR : Z := 32.
Definition ph_type (h : bytes) : Z := uint_at h 0.
Definition ph_off (h : bytes) : Z := uint_at h 4.
Definition ph_vaddr (h : bytes) : Z := uint_at h 8.
Definition ph_paddr (h : bytes) : Z := uint_at h 12.
Definition ph_filesz (h : bytes) : Z := uint_at h 16.
Definition ph_memsz (h : bytes) : Z := uint_at h 20.

Lemma uint_at_range h off : 0 <= uint_at h off < 4294967296.
Proof. apply Z.mod_pos_bound. done. Qed.

Lemma ushort_at_range h off : 0 <= ushort_at h off < 65536.
Proof. apply Z.mod_pos_bound. done. Qed.
