(* ===== verification/Exec.v ===== *)
(** exec (exec.c, and loaduvm and switchuvm of vm.c): a program file becomes the
    memory of the process.  This file has the definitions; ExecPlan says what the
    memory is to hold, ExecCorrect that it does. *)

From S2P Require Import Prelude User Mem Strings Bio Block Fs Kalloc Vm Proc Console Elf.
Local Open Scope Z_scope.

(** * The state that exec sees

    The file system, the memory of the kernel, the current process, the registers of the
    CPU that [switchuvm] sets, and the console. *)
Record xsys (W X : Type) := mkxsys {
  x_fs : fsys W;
  x_kmem : kstate;
  x_proc : proc X;
  x_cr3 : Z;
  x_esp0 : Z;
  x_cons : console
}.
Arguments mkxsys {W X}.
Arguments x_fs {W X}.
Arguments x_kmem {W X}.
Arguments x_proc {W X}.
Arguments x_cr3 {W X}.
Arguments x_esp0 {W X}.
Arguments x_cons {W X}.

(** The last element of a path: the loop over [s] with [last]. *)
Fixpoint last_elem (s last : bytes) : outcome bytes :=
  match s with
  | [] => UB
  | c :: s' => if c =? 0 then Ok last else last_elem s' (if c =? 47 then s' else last)
  end.

Section Exec.
  Context {W X : Type} `{BlockIO W}.
  Context (kend data : Z).
  Context (devsw_read : Z -> option (nat -> Z -> M (fsys W) (Z * bytes))).
Abbreviation xs := (xsys W X).

Definition xput_fs (x : fsys W) (s : xs) : xs := mkxsys x (x_kmem s) (x_proc s) (x_cr3 s) (x_esp0 s) (x_cons s).
Definition xput_kmem (x : kstate) (s : xs) : xs := mkxsys (x_fs s) x (x_proc s) (x_cr3 s) (x_esp0 s) (x_cons s).
Definition xput_cons (x : console) (s : xs) : xs := mkxsys (x_fs s) (x_kmem s) (x_proc s) (x_cr3 s) (x_esp0 s) x.
Definition xput_proc (x : proc X) (s : xs) : xs := mkxsys (x_fs s) (x_kmem s) x (x_cr3 s) (x_esp0 s) (x_cons s).
Definition xput_cpu (cr3 esp0 : Z) (s : xs) : xs := mkxsys (x_fs s) (x_kmem s) (x_proc s) cr3 esp0 (x_cons s).
Definition xfs {A} (m : M (fsys W) A) : M xs A := zoom x_fs xput_fs m.
Definition xkm {A} (m : M kstate A) : M xs A := zoom x_kmem xput_kmem m.
Definition xcons {A} (m : M console A) : M xs A := zoom x_cons xput_cons m.

(** ** vm.c *)

(** The loop of [loaduvm]: a page at a time, from the file into the memory. *)
Fixpoint loaduvm_loop (fuel : nat) (pgdir addr : Z) (ip : nat) (offset sz i : Z) : M xs Z :=
  if i <? sz then
    match fuel with
    | O => undefined
    | S fuel' =>
        let! pte := xkm (walkpgdir pgdir (u32 (addr + i)) false) in
        if pte =? 0 then panic "loaduvm: address should exist" else
        let! e := xkm (load pte) in
        let pa := PTE_ADDR e in
        let n := if sz - i <? PGSIZE then sz - i else PGSIZE in
        let! r := xfs (readi devsw_read ip (u32 (offset + i)) n) in
        do! xkm (on_mem (fun m => mwrite m (P2V pa) r.2)) in
        if negb (u32 r.1 =? n) then ret (-1) else
        loaduvm_loop fuel' pgdir addr ip offset sz (u32 (i + PGSIZE))
    end
  else ret 0.

Definition loaduvm (pgdir addr : Z) (ip : nat) (offset sz : Z) : M xs Z :=
  if negb (addr mod PGSIZE =? 0) then panic "loaduvm: addr must be page aligned" else
  loaduvm_loop (Z.to_nat (sz / PGSIZE + 1)) pgdir addr ip offset sz 0.

(** The task state's stack and the page table of the CPU; the other fields that
    [switchuvm] sets are constants. *)
Definition switchuvm : M xs unit :=
  let! p := gets x_proc in
  if p_kstack p =? 0 then panic "switchuvm: no kstack" else
  if p_pgdir p =? 0 then panic "switchuvm: no pgdir" else
  modify (xput_cpu (V2P (p_pgdir p)) (p_kstack p + KSTACKSIZE)).

(** ** exec.c *)

(** The label [bad]. *)
Definition bad (pgdir : Z) (ip : option nat) : M xs Z :=
  do! when (negb (pgdir =? 0)) (xkm (freevm kend pgdir)) in
  do! match ip with
      | Some i => do! xfs (iunlockput i) in xfs (io io_end_op)
      | None => ret tt
      end in
  ret (-1).

(** One program header of type [ELF_PROG_LOAD]; [None] is a jump to [bad]. *)
Definition load_segment (pgdir : Z) (ip : nat) (ph : bytes) (sz : Z) : M xs (option Z) :=
  if ph_memsz ph <? ph_filesz ph then ret None else
  if u32 (ph_vaddr ph + ph_memsz ph) <? ph_vaddr ph then ret None else
  let! sz := xkm (allocuvm kend pgdir sz (u32 (ph_vaddr ph + ph_memsz ph))) in
  if sz =? 0 then ret None else
  if negb (ph_vaddr ph mod PGSIZE =? 0) then ret None else
  let! l := loaduvm pgdir (ph_vaddr ph) ip (ph_off ph) (ph_filesz ph) in
  if l <? 0 then ret None else ret (Some sz).

(** The loop over the [n] program headers from [off] on.  [off] is an int that is
    added to and passed on as an unsigned number. *)
Fixpoint load_segments (n : nat) (pgdir : Z) (ip : nat) (off sz : Z) : M xs (option Z) :=
  match n with
  | O => ret (Some sz)
  | S n' =>
      let! r := xfs (readi devsw_read ip off SIZEOF_PROGHDR) in
      if negb (u32 r.1 =? SIZEOF_PROGHDR) then ret None else
      if negb (ph_type r.2 =? ELF_PROG_LOAD) then load_segments n' pgdir ip (u32 (off + SIZEOF_PROGHDR)) sz else
      let! o := load_segment pgdir ip r.2 sz in
      match o with
      | None => ret None
      | Some sz => load_segments n' pgdir ip (u32 (off + SIZEOF_PROGHDR)) sz
      end
  end.

(** The loop over the arguments: [argc] of them are pushed, at the addresses [ustack]. *)
Fixpoint push_args (argv : list bytes) (pgdir argc sp : Z) (ustack : list Z) : M xs (option (Z * Z * list Z)) :=
  match argv with
  | [] => ret (Some (argc, sp, ustack))
  | a :: argv' =>
      if argc >=? MAXARG then ret None else
      let! n := lift (strlen a) in
      let sp := Z.land (u32 (sp - (n + 1))) (Z.lnot 3) in
      let! r := xkm (copyout pgdir sp (take (Z.to_nat (n + 1)) a)) in
      if r <? 0 then ret None else
      push_args argv' pgdir (argc + 1) sp (ustack ++ [sp])
  end.

(** The strings and the array [ustack]; the result is the stack pointer. *)
Definition push_frame (argv : list bytes) (pgdir sz : Z) : M xs (option Z) :=
  let! r := push_args argv pgdir 0 sz [] in
  match r with
  | None => ret None
  | Some (argc, sp, args) =>
      let ustack := [4294967295; argc; u32 (sp - (argc + 1) * 4)] ++ args ++ [0] in
      let sp := u32 (sp - (3 + argc + 1) * 4) in
      let! r := xkm (copyout pgdir sp (mjoin (le_bytes 4 <$> ustack))) in
      if r <? 0 then ret None else ret (Some sp)
  end.

(** From "Save program name for debugging" to the end. *)
Definition commit_image (path : bytes) (pgdir sz entry sp : Z) : M xs Z :=
  let! last := lift (last_elem path path) in
  let! p := gets x_proc in
  let! name := lift (safestrcpy (p_name p) last 16) in
  do! modify (fun s => xput_proc (set_name name (x_proc s)) s) in
  let oldpgdir := p_pgdir p in
  do! modify (fun s => xput_proc (set_space pgdir sz (x_proc s)) s) in
  do! xkm (store (p_tf p + TF_EIP) entry) in
  do! xkm (store (p_tf p + TF_ESP) sp) in
  do! switchuvm in
  do! xkm (freevm kend oldpgdir) in
  ret 0.

(** From "Allocate two pages" on, with the segments loaded up to [sz]. *)
Definition build_stack (path : bytes) (argv : list bytes) (pgdir sz entry : Z) : M xs Z :=
  let sz := PGROUNDUP sz in
  let! sz := xkm (allocuvm kend pgdir sz (u32 (sz + 2 * PGSIZE))) in
  if sz =? 0 then bad pgdir None else
  do! xkm (clearpteu pgdir (u32 (sz - 2 * PGSIZE))) in
  let! o := push_frame argv pgdir sz in
  match o with
  | None => bad pgdir None
  | Some sp => commit_image path pgdir sz entry sp
  end.

(** From "Check ELF header" on, with [ip] locked. *)
Definition exec_file (path : bytes) (argv : list bytes) (ip : nat) : M xs Z :=
  let! r := xfs (readi devsw_read ip 0 SIZEOF_ELFHDR) in
  if negb (u32 r.1 =? SIZEOF_ELFHDR) then bad 0 (Some ip) else
  let elf := r.2 in
  if negb (elf_magic elf =? ELF_MAGIC) then bad 0 (Some ip) else
  let! pgdir := xkm (setupkvm kend data) in
  if pgdir =? 0 then bad 0 (Some ip) else
  let! r := load_segments (Z.to_nat (elf_phnum elf)) pgdir ip (elf_phoff elf) 0 in
  match r with
  | None => bad pgdir (Some ip)
  | Some sz =>
      do! xfs (iunlockput ip) in
      do! xfs (io io_end_op) in
      build_stack path argv pgdir sz (elf_entry elf)
  end.

(** [path] and the elements of [argv] are strings in the memory that the caller sees;
    the null pointer at the end of [argv] is the end of the list. *)
Definition exec (path : bytes) (argv : list bytes) : M xs Z :=
  do! xfs (io io_begin_op) in
  let! o := xfs (namei devsw_read path) in
  match o with
  | None =>
      do! xfs (io io_end_op) in
      do! xcons (cprintf (text "exec: fail" ++ [10]) []) in
      ret (-1)
  | Some ip =>
      do! xfs (ilock ip) in
      exec_file path argv ip
  end.
End Exec.
