(* ===== verification/ExecRefs.v ===== *)
(** exec gives back every inode reference that it takes, on each of its paths. *)

From S2P Require Import Prelude User Mem Strings Bio Log Crash Block Fs FsRefs Kalloc Pipe Syscall File Sysfile SysRefs Vm Proc Console Elf Exec.
Local Open Scope Z_scope.

Section Refs.
  Context {W X : Type} `{BlockIO W}.
  Context (kend data : Z).
  Context (devsw_read : Z -> option (nat -> Z -> M (fsys W) (Z * bytes))).
  Hypothesis read_keeps : forall major f i n, devsw_read major = Some f -> keeps (f i n).
Abbreviation xs := (xsys W X).

(** [moves] for the code of exec, on the file system that it works on. *)
Definition xmoves {A} (I : list nat) (m : M xs A) (O : A -> list nat) : Prop :=
  forall R s a s', own (x_fs s) (I ++ R) -> m s = Ok (a, s') -> own (x_fs s') (O a ++ R).

Lemma xmoves_bind {A B} I (m : M xs A) O1 (k : A -> M xs B) O :
  xmoves I m O1 -> (forall a, xmoves (O1 a) (k a) O) -> xmoves I (bind m k) O.
Proof. intros Hm Hk R s b s' Ho (a & s1 & E1 & E2)%bind_Ok_inv. eapply Hk; [|exact E2]. by eapply Hm. Qed.

Lemma xmoves_ret {A} I (a : A) : xmoves I (ret a) (fun _ => I).
Proof. by intros R s b s' Ho [= <- <-]. Qed.

Lemma xmoves_fs {A} I (m : M (fsys W) A) O : moves I m O -> xmoves I (xfs m) O.
Proof.
  intros Hm R s a s' Ho E. unfold xfs, zoom in E. destruct (m (x_fs s)) as [[b t]|?| |] eqn:Em; [|done..].
  injection E as <- <-. by eapply Hm.
Qed.

(** The rest of the state has no inodes. *)
Lemma xmoves_km {A} I (m : M kstate A) : xmoves I (xkm m) (fun _ => I).
Proof. intros R s a s' Ho E. unfold xkm, zoom in E. destruct (m _) as [[b t]|?| |]; [|done..]. by injection E as <- <-. Qed.

Lemma xmoves_cons {A} I (m : M console A) : xmoves I (xcons m) (fun _ => I).
Proof. intros R s a s' Ho E. unfold xcons, zoom in E. destruct (m _) as [[b t]|?| |]; [|done..]. by injection E as <- <-. Qed.

Lemma xmoves_gets {A} I (f : xs -> A) : xmoves I (gets f) (fun _ => I).
Proof. by intros R s b s' Ho [= <- <-]. Qed.

Lemma xmoves_modify I f : (forall s, x_fs (f s) = x_fs s) -> xmoves I (modify f) (fun _ => I).
Proof. intros Hf R s b s' Ho [= <- <-]. by rewrite Hf. Qed.

Lemma xmoves_lift {A} I (o : outcome A) : xmoves I (lift o) (fun _ => I).
Proof. destruct o; [apply xmoves_ret|by intros R s b s' Ho E..]. Qed.

Lemma xmoves_panic {A} I msg (O : A -> list nat) : xmoves I (panic msg) O.
Proof. by intros R s b s' Ho E. Qed.

Lemma xmoves_undefined {A} I (O : A -> list nat) : xmoves I undefined O.
Proof. by intros R s b s' Ho E. Qed.

Lemma xmoves_readi I i off n : xmoves I (xfs (readi devsw_read i off n)) (fun _ => I).
Proof. apply xmoves_fs, moves_keeps. eauto using keeps_readi. Qed.

Lemma xmoves_end I : xmoves I (xfs (io io_end_op)) (fun _ => I).
Proof. apply xmoves_fs. auto with moves. Qed.

Lemma xmoves_put I i : xmoves (i :: I) (xfs (iunlockput i)) (fun _ => I).
Proof. apply xmoves_fs, moves_iunlockput. Qed.

#[local] Hint Resolve xmoves_ret xmoves_km xmoves_cons xmoves_gets xmoves_lift xmoves_panic xmoves_undefined xmoves_readi xmoves_end xmoves_put : core.
#[local] Hint Extern 1 (xmoves _ (modify _) _) => by apply xmoves_modify : core.
#[local] Hint Extern 1 (xmoves _ (bind _ _) _) => eapply xmoves_bind; [|intros ?] : core.
#[local] Hint Extern 2 (xmoves _ (match ?x with _ => _ end) _) => destruct x : core.

(** What is left alone by the code between [ilock] and [iunlockput], and after it. *)
Lemma xmoves_loaduvm I pgdir addr ip off sz : xmoves I (loaduvm devsw_read pgdir addr ip off sz) (fun _ => I).
Proof.
  assert (forall fuel i, xmoves I (loaduvm_loop devsw_read fuel pgdir addr ip off sz i) (fun _ => I)) as Hl
    by (induction fuel as [|fuel IH]; intros i; cbn [loaduvm_loop]; eauto 20).
  unfold loaduvm. eauto.
Qed.

Lemma xmoves_segments I pgdir ip n : forall off sz, xmoves I (load_segments kend devsw_read n pgdir ip off sz) (fun _ => I).
Proof.
  induction n as [|n IH]; intros off sz; cbn [load_segments]; [auto|]. unfold load_segment.
  pose proof (fun addr off sz => xmoves_loaduvm I pgdir addr ip off sz). eauto 30.
Qed.

Lemma xmoves_frame I argv pgdir sz : xmoves I (push_frame argv pgdir sz) (fun _ => I).
Proof.
  assert (forall argc sp us, xmoves I (push_args argv pgdir argc sp us) (fun _ => I)) as Hl
    by (induction argv as [|a argv IH]; intros; cbn [push_args]; eauto 20).
  unfold push_frame. eapply xmoves_bind; [apply Hl|]. intros [[[argc sp] args]|]; eauto 20.
Qed.

Lemma xmoves_bad I pgdir : xmoves I (bad kend pgdir None) (fun _ => I).
Proof. unfold bad, when. eauto 20. Qed.

Lemma xmoves_stack I path argv pgdir sz entry : xmoves I (build_stack kend path argv pgdir sz entry) (fun _ => I).
Proof.
  unfold build_stack. pose proof (xmoves_bad I pgdir). pose proof (xmoves_frame I argv).
  assert (forall sz sp, xmoves I (commit_image kend path pgdir sz entry sp) (fun _ => I)) by (intros; unfold commit_image, switchuvm; eauto 30).
  eauto 30.
Qed.

Lemma xmoves_bad_put I pgdir ip : xmoves (ip :: I) (bad kend pgdir (Some ip)) (fun _ => I).
Proof.
  unfold bad, when. eapply (xmoves_bind _ _ (fun _ => ip :: I)); [eauto|intros _].
  eapply (xmoves_bind _ _ (fun _ => I)); [|eauto]. eapply (xmoves_bind _ _ (fun _ => I)); eauto.
Qed.

Lemma exec_moves I path argv : xmoves I (exec kend data devsw_read path argv) (fun _ => I).
Proof.
  unfold exec. eapply (xmoves_bind _ _ (fun _ => I)); [apply xmoves_fs; auto with moves|intros _].
  eapply xmoves_bind; [apply xmoves_fs, moves_namei; eauto|]. intros [ip|]; cbn [got]; [|eauto 20].
  eapply (xmoves_bind _ _ (fun _ => ip :: I)); [apply xmoves_fs; auto with moves|intros _]. unfold exec_file.
  pose proof (fun pgdir => xmoves_bad_put I pgdir ip) as Hb.
  eapply (xmoves_bind _ _ (fun _ => ip :: I)); [eauto|intros r]. destruct (negb _); [done|]. destruct (negb _); [done|].
  eapply (xmoves_bind _ _ (fun _ => ip :: I)); [eauto|intros pgdir]. destruct (_ =? 0); [done|].
  eapply (xmoves_bind _ _ (fun _ => ip :: I)); [apply xmoves_segments|]. intros [sz|]; [|done].
  eapply (xmoves_bind _ _ (fun _ => I)); [eauto|intros _]. eapply (xmoves_bind _ _ (fun _ => I)); [eauto|intros _].
  apply xmoves_stack.
Qed.
End Refs.
