(* ===== verification/SysProcs.v ===== *)
(** Processes that share the open-file table: [fork], [exit], context switches
    and the file system calls, in any order. *)

From S2P Require Import Prelude User Bio Log Crash Mem Block Strings Fs FsAlloc FsInode FsRefs Kalloc Pipe Syscall File Sysfile SysRefs SysInv SysSafe.
From S2P Require Import Vm Proc Console Elf Exec ExecRefs.
Local Open Scope Z_scope.

Section Procs.
  Context {W : Type} `{BlockIO W}.
  Context (kend : Z).
Abbreviation kok := (kok (W := W) kend).

(** * fork and exit *)

Lemma dup_files_ok ofs s F X r s' : kok s F X -> (forall f, Some f ∈ ofs -> f ∈ fds s ++ F) ->
  dup_files ofs s = Ok (r, s') ->
  r = ofs /\ kok s' (omap id ofs ++ F) X /\ y_ofile s' = y_ofile s.
Proof.
  revert s F r s'; induction ofs as [|[f|] ofs IH]; intros s F r s' Ho Hin E; cbn [dup_files] in E.
  - by injection E as <- <-.
  - apply bind_Ok_inv in E as (g & s1 & E1 & E).
    destruct (filedup_ok _ _ _ _ _ _ _ Ho (Hin f ltac:(left)) E1) as (-> & Es & Ho1).
    apply bind_Ok_inv in E as (r1 & s2 & E2 & E). injection E as <- <-.
    assert (y_ofile s1 = y_ofile s) as Hof by by rewrite Es.
    destruct (IH s1 (f :: F) r1 s2 Ho1) as (-> & Ho2 & Hof2); [|exact E2|].
    + intros g Hg. specialize (Hin g ltac:(by right)). unfold fds in *; rewrite Hof. set_solver.
    + split_and!; [done| |congruence]. eapply kok_perm; [|done|exact Ho2]. cbn. solve_Permutation.
  - apply bind_Ok_inv in E as (r1 & s2 & E2 & E). injection E as <- <-.
    destruct (IH s F r1 s2 Ho) as (-> & Ho2 & Hof2); [|exact E2|done].
    intros g Hg. apply Hin. by right.
Qed.

Lemma fork_files_ok s F X r s' : kok s F X -> fork_files s = Ok (r, s') ->
  kok s' (omap id r.1 ++ F) (r.2 :: X) /\ y_ofile s' = y_ofile s.
Proof.
  intros Ho E. apply bind_Ok_inv in E as (ofs & s0 & E0 & E). injection E0 as <- <-.
  apply bind_Ok_inv in E as (r1 & s1 & E1 & E).
  destruct (dup_files_ok (y_ofile s) s F X r1 s1 Ho) as (-> & Ho1 & Hof1); [|exact E1|].
  { intros f Hf. apply elem_of_app; left. unfold fds. apply list_elem_of_omap. eauto. }
  apply bind_Ok_inv in E as (cwd & s2 & E2 & E). injection E2 as <- <-.
  apply bind_Ok_inv in E as (d & s3 & E3 & E). injection E as <- <-. cbn [fst snd].
  destruct (fsdo_same _ _ _ _ E3) as [_ Hof3]. split; [|congruence].
  assert (moves (W := W) [] (let! c := gets f_cwd in idup c) (fun k => [k])) as Hm by apply moves_idup_cwd.
  refine (kmoves_fsdo kend [] [] _ _ Hm _ _ s1 d s3 Ho1 _). exact E3.
Qed.

(** Operations that do not look at the descriptors. *)
Definition blind {A} (m : M (ksys W) A) : Prop := forall s a s', m s = Ok (a, s') ->
  y_ofile s' = y_ofile s /\ forall x, m (put_ofile x s) = Ok (a, put_ofile x s').

Lemma blind_bind {A B} (m : M (ksys W) A) (k : A -> M (ksys W) B) :
  blind m -> (forall a, blind (k a)) -> blind (bind m k).
Proof.
  intros Hm Hk s b s' (a & s1 & E1 & E2)%bind_Ok_inv. destruct (Hm _ _ _ E1) as [H1 Hx1].
  destruct (Hk _ _ _ _ E2) as [H2 Hx2]. split; [congruence|]. intros x. by mstep (Hx1 x).
Qed.

Lemma blind_ret {A} (a : A) : blind (ret a).
Proof. by intros s b s' [= <- <-]. Qed.

Lemma blind_zoom {A T} (get : ksys W -> T) put (m : M T A) :
  (forall x s, get (put_ofile x s) = get s) -> (forall t s, y_ofile (put t s) = y_ofile s) ->
  (forall t x s, put t (put_ofile x s) = put_ofile x (put t s)) -> blind (zoom get put m).
Proof.
  intros Hg Ho Hp s a s'. unfold zoom. destruct (m (get s)) as [[b t]|?| |] eqn:E; [|done..].
  intros [= <- <-]. split; [done|]. intros x. by rewrite Hg, E, Hp.
Qed.

Lemma blind_modify f : (forall s, y_ofile (f s) = y_ofile s) ->
  (forall x s, f (put_ofile x s) = put_ofile x (f s)) -> blind (modify f).
Proof. intros Ho Hp s a s' [= <- <-]. split; [done|]. intros x. unfold modify. by rewrite Hp. Qed.

Lemma blind_gets {A} (g : ksys W -> A) : (forall x s, g (put_ofile x s) = g s) -> blind (gets g).
Proof. intros Hg s a s' [= <- <-]. split; [done|]. intros x. unfold gets. by rewrite Hg. Qed.

Lemma blind_fileclose f : blind (fileclose kend f).
Proof.
  unfold fileclose. apply blind_bind; [by apply blind_gets|intros x]. destruct (_ <? 1); [done|].
  apply blind_bind; [by apply blind_modify|intros ?]. destruct (_ >? 0); [apply blind_ret|].
  apply blind_bind; [by apply blind_gets|intros ff]. apply blind_bind; [by apply blind_modify|intros ?].
  apply blind_bind; [by apply blind_modify|intros ?]. destruct (f_type ff); [apply blind_ret| |].
  - apply blind_bind; [by apply blind_gets|intros ps]. destruct (ps !! _) as [p|]; [|done]. cbv zeta.
    destruct (pipeclose _ _).1; [|by apply blind_modify].
    apply blind_bind; [by apply blind_zoom|intros ?]. by apply blind_modify.
  - apply blind_bind; [by apply blind_zoom|intros ?]. apply blind_bind; [by apply blind_zoom|intros ?].
    by apply blind_zoom.
Qed.

Lemma close_files_ok fuel fd s F X s' : kok s F X -> close_files kend fuel fd s = Ok (tt, s') ->
  kok s' F X /\ length (y_ofile s') = length (y_ofile s) /\
  forall k, y_ofile s' !! k = if decide (fd <= k < fd + fuel)%nat then
    (fun _ => None) <$> y_ofile s !! k else y_ofile s !! k.
Proof.
  revert fd s; induction fuel as [|fuel IH]; intros fd s Ho E; cbn [close_files] in E.
  { injection E as <-. split_and!; [done|done|]. intros k. by rewrite decide_False by lia. }
  apply bind_Ok_inv in E as (ofs & s0 & E0 & E). injection E0 as <- <-.
  apply bind_Ok_inv in E as ([] & s1 & E1 & E).
  assert (kok s1 F X /\ y_ofile s1 = <[fd := None]> (y_ofile s)) as [Ho1 Hof1].
  { destruct (y_ofile s !!! fd) as [f|] eqn:El.
    - assert (y_ofile s !! fd = Some (Some f)) as Hl.
      { rewrite list_lookup_total_alt in El. by destruct (y_ofile s !! fd) as [[]|]; simplify_eq/=. }
      apply bind_Ok_inv in E1 as ([] & s2 & E2 & E1). injection E1 as <-.
      destruct (blind_fileclose f _ _ _ E2) as [Hof2 Hx]. split; [|cbn; by rewrite Hof2].
      rewrite Hof2. refine (fileclose_run kend f F X _ _ _ (Hx _)).
      apply (clear_fd_ok kend s F X (Z.of_nat fd)); [done|by rewrite Nat2Z.id|].
      unfold clear_fd, modify. by rewrite Nat2Z.id.
    - injection E1 as <-. split; [done|]. rewrite list_lookup_total_alt in El.
      destruct (y_ofile s !! fd) as [[]|] eqn:Hl; [done|by rewrite list_insert_id|].
      by rewrite list_insert_ge by by apply lookup_ge_None. }
  destruct (IH (S fd) s1 Ho1 E) as (Ho' & Hlen & Hk).
  split_and!; [done|by rewrite Hlen, Hof1, length_insert|]. intros k. rewrite Hk, Hof1.
  destruct (decide (k = fd)) as [->|Hne].
  - rewrite decide_False, decide_True by lia. destruct (y_ofile s !! fd) eqn:Hl; simpl.
    + by apply list_lookup_insert_eq, (lookup_lt_Some _ _ _ Hl).
    + apply lookup_ge_None in Hl. by rewrite list_insert_ge, lookup_ge_None_2 by done.
  - rewrite list_lookup_insert_ne by done. destruct (decide _), (decide _); try done; lia.
Qed.

(** The caller becomes the process with descriptors [p.1] and directory [p.2]. *)
Definition switch_to (p : list (option nat) * nat) (pid : Z) (u : uproc) (killed : bool) (s : ksys W) : ksys W :=
  mkksys (mkfsys (f_io (y_fs s)) (f_sb (y_fs s)) (f_ic (y_fs s)) pid p.2)
    (y_ftable s) (y_pipes s) (y_kmem s) p.1 u killed.

Lemma switch_ok s p pid u killed F X : kok s (omap id p.1 ++ F) (p.2 :: X) ->
  kok (switch_to p pid u killed s) (fds s ++ F) (f_cwd (y_fs s) :: X).
Proof.
  intros [Hf Ho Hp]. constructor; [|unfold own in *|done].
  - eapply files_perm; [|exact Hf]. unfold fds at 2; simpl. solve_Permutation.
  - assert (refs_ok (y_fs s) (p.2 :: omap inode_of (y_ftable s) ++ f_cwd (y_fs s) :: X)) as [Hr Hc Hu]
      by (eapply refs_perm; [|exact Ho]; solve_Permutation).
    by constructor.
Qed.

(** [exit] leaves the table to the other processes, one of which runs next. *)
Lemma exit_files_ok s p pid u killed F X s' : kok s (omap id p.1 ++ F) (p.2 :: X) ->
  exit_files kend s = Ok (tt, s') -> kok (switch_to p pid u killed s') F X.
Proof.
  intros Ho E. apply bind_Ok_inv in E as (ofs & s0 & E0 & E). injection E0 as <- <-.
  apply bind_Ok_inv in E as ([] & s1 & E1 & E). destruct (close_files_ok _ _ _ _ _ _ Ho E1) as (Ho1 & _ & Hof).
  assert (fds s1 = []) as Hno.
  { apply nil_length_inv, Nat.le_0_r. apply Nat.nlt_ge. intros Hlt.
    destruct (fds s1) as [|f l] eqn:Ef; [simpl in Hlt; lia|].
    assert (f ∈ fds s1) as Hf by (rewrite Ef; left). apply list_elem_of_omap in Hf as (o & Ho' & Hid).
    apply list_elem_of_lookup in Ho' as [k Hk]. rewrite Hof in Hk.
    destruct (decide _) as [_|Hk'].
    - destruct (y_ofile s !! k); simplify_eq/=.
    - apply lookup_lt_Some in Hk. lia. }
  apply bind_Ok_inv in E as (? & s2 & E2 & E). pose proof (begin_op_ok kend [] [] _ _ _ _ _ Ho1 E2) as [Hf2 Ho2 Hp2].
  destruct (fsdo_same _ _ _ _ E2) as [_ Hof2].
  apply bind_Ok_inv in E as (cwd & s3 & E3 & E). injection E3 as <- <-.
  apply bind_Ok_inv in E as ([] & s3 & E3 & E). unfold fsdo, zoom in E3.
  destruct (iput _ (y_fs s2)) as [[[] t3]|?| |] eqn:Ei; [|done..]. injection E3 as <-.
  destruct (iput_refs _ _ _ [] _ Ho2 Ei) as [Ho3 _].
  unfold fsdo, zoom in E. cbn [y_fs put_fs] in E. destruct (io io_end_op t3) as [[[] t4]|?| |] eqn:Ee; [|done..].
  injection E as <-. apply keeps_io in Ee. apply (refs_shape _ _ _ Ee) in Ho3.
  constructor; [| |exact Hp2].
  - eapply files_perm; [|exact Hf2]. unfold fds; simpl. change (omap id (y_ofile s2)) with (fds s2).
    unfold fds at 1; rewrite Hof2. fold (fds s1). by rewrite Hno.
  - assert (refs_ok t4 (p.2 :: omap inode_of (y_ftable s2) ++ X)) as [Hr Hc Hu]
      by (eapply refs_perm; [|exact Ho3]; cbn; solve_Permutation).
    by constructor.
Qed.
End Procs.

(** * All processes *)

Section Steps.
  Context {W : Type} `{BlockIO W}.
  Context (kend data : Z).
  Context (devsw_read : Z -> option (nat -> Z -> M (fsys W) (Z * bytes))).
  Context (devsw_write : Z -> option (nat -> bytes -> Z -> M (fsys W) Z)).

(** The system calls of sysfile.c, [sys_chmod] and [sys_exec] apart. *)
Definition file_calls : list (M (ksys W) Z) :=
  [sys_dup; sys_read devsw_read; sys_write devsw_write; sys_close kend; sys_fstat;
   sys_link devsw_read devsw_write; sys_unlink devsw_read devsw_write; sys_open kend devsw_read devsw_write;
   sys_mkdir devsw_read devsw_write; sys_mknod devsw_read devsw_write; sys_chdir devsw_read; sys_pipe kend].

(** The kernel with the calling process, and the descriptors and directories of
    the other processes. *)
Definition conf : Type := ksys W * list (list (option nat) * nat).

(** The step of exec is what it does to the file system, with any process, memory, registers
    and console; what it does to memory is the subject of ExecCorrect. *)
Inductive kstep : conf -> conf -> Prop :=
| kstep_call m s r s' o : m ∈ file_calls -> m s = Ok (r, s') -> kstep (s, o) (s', o)
| kstep_user s u killed o :
    kstep (s, o) (switch_to (y_ofile s, f_cwd (y_fs s)) (f_pid (y_fs s)) u killed s, o)
| kstep_switch s p pid u killed o1 o2 :
    kstep (s, o1 ++ p :: o2) (switch_to p pid u killed s, (y_ofile s, f_cwd (y_fs s)) :: o1 ++ o2)
| kstep_fork s c s' o : fork_files s = Ok (c, s') -> kstep (s, o) (s', c :: o)
| kstep_exit s s' p pid u killed o1 o2 : exit_files kend s = Ok (tt, s') ->
    kstep (s, o1 ++ p :: o2) (switch_to p pid u killed s', o1 ++ o2)
| kstep_exec s k (p : proc (list (option nat) * nat)) cr3 esp0 cons path argv r x o :
    exec kend data devsw_read path argv (mkxsys (y_fs s) k p cr3 esp0 cons) = Ok (r, x) -> kstep (s, o) (put_fs (x_fs x) s, o).

(** Descriptors of the other processes. *)
Definition other_fds (o : list (list (option nat) * nat)) : list nat := 
  concat ((fun p : list (option nat) * nat => omap id p.1 : list nat) <$> o).

Definition conf_ok (c : conf) : Prop := kok kend c.1 (other_fds c.2) c.2.*2.

Lemma conf_extract s o1 p o2 : conf_ok (s, o1 ++ p :: o2) ->
  kok kend s (omap id p.1 ++ other_fds (o1 ++ o2)) (p.2 :: (o1 ++ o2).*2).
Proof.
  unfold conf_ok, other_fds; cbn [fst snd]. intros Hok. eapply kok_perm; [| |exact Hok].
  - rewrite !fmap_app, !concat_app; cbn. solve_Permutation.
  - rewrite !fmap_app; cbn. solve_Permutation.
Qed.

Hypothesis read_keeps : forall major f i n, devsw_read major = Some f -> keeps (f i n).
Hypothesis write_keeps : forall major f i src n, devsw_write major = Some f -> keeps (f i src n).

Lemma calls_safe m : m ∈ file_calls -> ksafe kend m.
Proof.
  unfold file_calls. rewrite !elem_of_cons, elem_of_nil.
  intros [->|[->|[->|[->|[->|[->|[->|[->|[->|[->|[->|[->|[]]]]]]]]]]]]]; eauto using
    sys_dup_ok, sys_read_ok, sys_write_ok, sys_close_ok, sys_fstat_ok, sys_link_ok, sys_unlink_ok,
    sys_open_ok, sys_mkdir_ok, sys_mknod_ok, sys_chdir_ok, sys_pipe_ok.
Qed.

Lemma kstep_ok c c' : conf_ok c -> kstep c c' -> conf_ok c'.
Proof.
  intros Hok Hs; destruct Hs as [m s r s' o Hm E|s u killed o|s p pid u killed o1 o2|s c s' o E|s s' p pid u killed o1 o2 E
    |s k p cr3 esp0 cons path argv r x o E].
  - exact (calls_safe m Hm _ _ _ _ _ Hok E).
  - destruct Hok as [Hf Ho Hp]. constructor; [done| |done]. destruct Ho as [Hr Hc Hu]. by constructor.
  - by apply (switch_ok kend), conf_extract.
  - by destruct (fork_files_ok kend _ _ _ _ _ Hok E) as [Hok' _].
  - eapply exit_files_ok; [by apply conf_extract|done].
  - destruct Hok as [Hf Ho Hp]. constructor; [done| |done].
    exact (exec_moves kend data devsw_read read_keeps [] path argv (omap inode_of (y_ftable s) ++ o.*2)
      (mkxsys (y_fs s) k p cr3 esp0 cons) _ _ Ho E).
Qed.

(** Before the first process opens anything: its current directory is the only
    inode in use. *)
Record fresh (s : ksys W) : Prop := {
  fr_cwd : (f_cwd (y_fs s) < length (f_ic (y_fs s)))%nat;
  fr_refs : forall k, (k < length (f_ic (y_fs s)))%nat ->
    i_ref (f_ic (y_fs s) !!! k) = if decide (k = f_cwd (y_fs s)) then 1 else 0;
  fr_files : Forall (fun f => f_ref f = 0 /\ f_type f = FD_NONE) (y_ftable s);
  fr_fds : Forall (fun o => o = None) (y_ofile s);
  fr_pipes : y_pipes s = ∅;
  fr_pages : exists l, kmem_ok kend (y_kmem s) l
}.

Lemma fresh_ok s : fresh s -> conf_ok (s, []).
Proof.
  intros [Hcwd Hrefs Hfiles Hfds Hpipes (l & Hl)].
  assert (fds s = []) as Hno.
  { unfold fds. induction Hfds as [|o ofs -> _ IH]; [done|exact IH]. }
  assert (omap inode_of (y_ftable s) = [] /\ omap end_of (y_ftable s) = []) as [Hi He].
  { induction Hfiles as [|f ft [_ Hf] _ [IH1 IH2]]; [done|]. cbn. unfold inode_of at 1, end_of at 1. by rewrite Hf. }
  rewrite Forall_forall in Hfiles. unfold conf_ok; cbn [fst snd]. constructor.
  - rewrite Hno. constructor; simpl; [by intros k Hk%not_elem_of_nil| |].
    + intros k Hk. apply Hfiles, list_elem_of_lookup_total_2, Hk.
    + intros k Hk _. apply Hfiles, list_elem_of_lookup_total_2, Hk.
  - rewrite Hi. unfold own; constructor; simpl.
    + intros k [->|Hk%not_elem_of_nil]%elem_of_cons; done.
    + intros k Hk. rewrite Hrefs by done. destruct (decide (k = _)) as [->|].
      * by destruct (Nat.eq_dec _ _).
      * by destruct (Nat.eq_dec _ _).
    + intros j k Hj Hk. rewrite !Hrefs by done. destruct (decide (j = _)), (decide (k = _)); lia.
    + intros k Hk. rewrite Hrefs by done. by destruct (decide (k = _)).
  - rewrite He. constructor; rewrite ?Hpipes; [constructor| | |exists l; split; [done|]].
    + intros q w. rewrite elem_of_nil. split; [done|]. intros (x & Hx & _). by rewrite lookup_empty in Hx.
    + intros q x Hx. by rewrite lookup_empty in Hx.
    + intros q [x Hx]. by rewrite lookup_empty in Hx.
Qed.

Lemma reachable_ok s0 c : fresh s0 -> rtc kstep (s0, []) c -> conf_ok c.
Proof. intros H0%fresh_ok Hr. revert H0. induction Hr; eauto using kstep_ok. Qed.

(** Who uses an inode: the open files and the current directories. *)
Definition inode_users (c : conf) : list nat := omap inode_of (y_ftable c.1) ++ f_cwd (y_fs c.1) :: c.2.*2.

(** C11. No descriptor and no inode reference is lost or shared by mistake, chmod
    apart.  For processes that dup, read, write, close, stat, link, unlink, open,
    mkdir, mknod, chdir, pipe and exec (each call run to its end, on its success and
    its error paths), fork, exit and are switched in any order from a fresh start,
    with no count beyond the largest int: the [ref] of every
    entry of the file table is the number of descriptors of all processes that
    point to it; the [ref] of every cached inode is the number of open files and
    current directories on it; a pipe has an end open exactly if one open file is
    that end, and no two are; and the page of a pipe is never on the free list. *)
Theorem references_conserved s0 s o :
  fresh s0 -> rtc kstep (s0, []) (s, o) ->
  (forall k, (k < length (y_ftable s))%nat ->
     f_ref (y_ftable s !!! k) = Z.of_nat (count_occ Nat.eq_dec (fds s ++ other_fds o) k)) /\
  (forall k, (k < length (f_ic (y_fs s)))%nat ->
     i_ref (f_ic (y_fs s) !!! k) = Z.of_nat (count_occ Nat.eq_dec (inode_users (s, o)) k)) /\
  NoDup (omap end_of (y_ftable s)) /\
  (forall p w, (p, w) ∈ omap end_of (y_ftable s) <->
     exists x, y_pipes s !! p = Some x /\ is_open w x = true) /\
  (exists free, kmem_ok kend (y_kmem s) free /\ forall p, is_Some (y_pipes s !! p) -> p ∉ free).
Proof.
  intros H0 Hr. destruct (reachable_ok _ _ H0 Hr) as [Hf Ho [Hn Hp Hl (l & Hk & Hg)]]. cbn [fst snd] in *.
  split_and!; [apply Hf| |done|done|exists l; split; [done|by apply Hg]].
  intros k Hk'. rewrite (rf_count _ _ Ho) by done. f_equal. apply count_perm.
  unfold inode_users; cbn [fst snd]. solve_Permutation.
Qed.

(** C12. [sys_chmod] loses a reference.  In any such state, a call that returns 0
    leaves one cached inode with a [ref] larger by one than the number of its
    users, so that no sequence of [iput]s by them frees the entry. *)
Theorem chmod_leaks_reference s0 s o s' :
  fresh s0 -> rtc kstep (s0, []) (s, o) -> sys_chmod devsw_read s = Ok (0, s') ->
  exists k, (k < length (f_ic (y_fs s')))%nat /\
    i_ref (f_ic (y_fs s') !!! k) = Z.of_nat (count_occ Nat.eq_dec (inode_users (s', o)) k) + 1.
Proof.
  intros H0 Hr E. pose proof (reachable_ok _ _ H0 Hr) as Hok.
  destruct (sys_chmod_moves kend devsw_read read_keeps _ _ _ _ _ Hok E) as [[_ ?]|(ip & [_ Ho _])]; [done|].
  assert (ip < length (f_ic (y_fs s')))%nat as Hlt by (apply (rf_range _ _ Ho); set_solver).
  exists ip; split; [done|]. rewrite (rf_count _ _ Ho) by done.
  rewrite (count_perm _ (ip :: inode_users (s', o))).
  - rewrite count_occ_cons_eq by done. lia.
  - unfold inode_users; cbn [fst snd]. solve_Permutation.
Qed.
End Steps.

(** ** Witnesses: the first process opens the root directory and forks; another
    changes the mode of the root directory *)

(** Argument 0 is the path "/", argument 1 is 0 or a mode. *)
Definition user_at_root (arg1 : Z) : uproc :=
  mkuproc 4096 4000 (mwrite (st32 (st32 ∅ 4004 100) 4008 arg1) 100 [47; 0]).
Definition sys_start (arg1 : Z) : ksys lstate :=
  mkksys fs_idle (replicate 100 (mkfile FD_NONE 0 false false 0 0 0)) ∅ (mkk ∅ true 0) (replicate 16 None)
    (user_at_root arg1) false.
Definition no_read (major : Z) : option (nat -> Z -> M (fsys lstate) (Z * bytes)) := None.
Definition no_write (major : Z) : option (nat -> bytes -> Z -> M (fsys lstate) Z) := None.
Definition sys_opened : ksys lstate := endstate (sys_open 0 no_read no_write) (sys_start 0).
Definition sys_forked : ksys lstate := endstate fork_files sys_opened.

Lemma fresh_start arg1 : fresh 0 (sys_start arg1).
Proof.
  constructor.
  - change (0 < 50)%nat; lia.
  - intros k Hk. change (length (f_ic (y_fs (sys_start arg1)))) with 50%nat in Hk.
    do 50 (destruct k as [|k]; [reflexivity|]). lia.
  - by apply Forall_replicate.
  - by apply Forall_replicate.
  - done.
  - exists []. by constructor; [|constructor|constructor].
Qed.

Lemma references_conserved_witness : exists o,
  (forall k, (k < length (y_ftable sys_forked))%nat ->
     f_ref (y_ftable sys_forked !!! k) = Z.of_nat (count_occ Nat.eq_dec (fds sys_forked ++ other_fds o) k)) /\
  (forall k, (k < length (f_ic (y_fs sys_forked)))%nat ->
     i_ref (f_ic (y_fs sys_forked) !!! k) = Z.of_nat (count_occ Nat.eq_dec (inode_users (sys_forked, o)) k)).
Proof.
  destruct (endstate_Ok (sys_open 0 no_read no_write) (sys_start 0)) as [r E1]; [vm_compute; reflexivity|].
  destruct (endstate_Ok fork_files sys_opened) as [c E2]; [vm_compute; reflexivity|].
  exists [c].
  destruct (references_conserved 0 0 no_read no_write ltac:(discriminate) ltac:(discriminate)
    (sys_start 0) sys_forked [c] (fresh_start 0)) as (H1 & H2 & _); [|exact (conj H1 H2)].
  refine (rtc_l _ _ (sys_opened, []) _ (kstep_call _ _ _ _ _ _ _ _ _ _ E1) _); [do 7 right; left|].
  exact (rtc_once _ _ (kstep_fork _ _ _ _ _ _ _ _ E2)).
Defined.

Definition sys_chmodded : ksys lstate := endstate (sys_chmod no_read) (sys_start 420).

Lemma chmod_leaks_reference_witness :
  exists k, (k < length (f_ic (y_fs sys_chmodded)))%nat /\
    i_ref (f_ic (y_fs sys_chmodded) !!! k) =
    Z.of_nat (count_occ Nat.eq_dec (inode_users (sys_chmodded, [])) k) + 1.
Proof.
  destruct (endstate_Ok (sys_chmod no_read) (sys_start 420)) as [r E1]; [vm_compute; reflexivity|].
  assert (r = 0) as ->.
  { apply (f_equal (fun o => match o with Ok (a, _) => a | _ => 0 end)) in E1. rewrite <- E1. vm_compute. reflexivity. }
  exact (chmod_leaks_reference 0 0 no_read no_write ltac:(discriminate) ltac:(discriminate)
    (sys_start 420) (sys_start 420) [] sys_chmodded (fresh_start 420) (rtc_refl _ _) E1).
Defined.
