(* ===== verification/ProcTable.v ===== *)
(** The process table under any interleaving of the CPUs: who runs, who is whose
    child, who sleeps where, and that a zombie is never forgotten. *)

From S2P Require Import Prelude Mem Strings Bio Kalloc Vm VmUser Proc.
Local Open Scope Z_scope.

Section Basics.
  Context (kend data trapret forkret : Z).
  Context {E X : Type} `{!ProcEnv E X}.
Abbreviation st := (pstate E X).

(** * What the operations do to the table *)

Lemma alter_known (t : list (proc X)) i f p : t !! i = Some p -> alter f i t = <[i := f p]> t.
Proof.
  intros Hp. apply list_eq. intros j. destruct (decide (j = i)) as [->|].
  - rewrite list_lookup_alter_eq, list_lookup_insert_eq, Hp; [done|]. by eapply lookup_lt_Some.
  - by rewrite list_lookup_alter_ne, list_lookup_insert_ne by congruence.
Qed.

Lemma alter_insert (t : list (proc X)) i f q : (i < length t)%nat -> alter f i (<[i := q]> t) = <[i := f q]> t.
Proof. intros Hi. rewrite (alter_known _ i f q); [by rewrite list_insert_insert_eq|]. by apply list_lookup_insert_eq. Qed.

Lemma getp_inv i (s s' : st) p : getp i s = Ok (p, s') -> s' = s /\ ps_proc s !! i = Some p.
Proof. unfold getp, bind, gets. destruct (ps_proc s !! i) eqn:Ei; [|done]. intros [= <- <-]. done. Qed.

Lemma getp_Ok i (s : st) p : ps_proc s !! i = Some p -> getp i s = Ok (p, s).
Proof. intros Hp. unfold getp, bind, gets. by rewrite Hp. Qed.

Lemma curproc_inv c (s s' : st) i : curproc c s = Ok (i, s') -> s' = s /\ ps_cpu s !! c = Some (Some i).
Proof.
  unfold curproc, myproc, bind, gets. destruct (ps_cpu s !! c) as [[j|]|]; [|done|done]. by intros [= <- <-].
Qed.

Lemma curproc_Ok c (s : st) i : ps_cpu s !! c = Some (Some i) -> curproc c s = Ok (i, s).
Proof. intros Hc. unfold curproc, myproc, bind, gets. by rewrite Hc. Qed.

(** Everything but the environment. *)
Definition same_procs (s s' : st) : Prop :=
  ps_proc s' = ps_proc s /\ ps_nextpid s' = ps_nextpid s /\ ps_init s' = ps_init s /\
  ps_cpu s' = ps_cpu s /\ ps_pos s' = ps_pos s.

Lemma memory_inv {A} (m : M kstate A) (s s' : st) a : memory m s = Ok (a, s') ->
  exists k, m (pe_mem (ps_env s)) = Ok (a, k) /\ s' = put_env (pe_set k (ps_env s)) s.
Proof. unfold memory, zoom. destruct (m _) as [[b k]|?| |]; try discriminate. intros [= <- <-]. eauto. Qed.

Lemma env_inv {A} (m : M E A) (s s' : st) a : env m s = Ok (a, s') ->
  exists e, m (ps_env s) = Ok (a, e) /\ s' = put_env e s.
Proof. unfold env, zoom. destruct (m _) as [[b k]|?| |]; try discriminate. intros [= <- <-]. eauto. Qed.

Lemma memory_procs {A} (m : M kstate A) (s s' : st) a : memory m s = Ok (a, s') -> same_procs s s'.
Proof. intros (k & _ & ->)%memory_inv. done. Qed.

Lemma env_procs {A} (m : M E A) (s s' : st) a : env m s = Ok (a, s') -> same_procs s s'.
Proof. intros (k & _ & ->)%env_inv. done. Qed.

Lemma find_unused_spec t : forall i j, find_unused (X := X) t i = Some j ->
  (i <= j)%nat /\ exists p, t !! (j - i)%nat = Some p /\ p_state p = UNUSED.
Proof.
  induction t as [|p t IH]; intros i j; [done|]. cbn [find_unused]. destruct (decide _) as [Hu|].
  - intros [= ->]. rewrite Nat.sub_diag. split; [lia|]. by exists p.
  - intros (Hle & q & Hq & Hu)%IH. split; [lia|]. exists q. split; [|done].
    by replace (j - i)%nat with (S (j - S i))%nat by lia.
Qed.

Lemma lift_inv {A} (o : outcome A) (s s' : st) a : lift o s = Ok (a, s') -> s' = s /\ o = Ok a.
Proof. destruct o; try discriminate. by intros [= <- <-]. Qed.

End Basics.

(** One step of a run that returned: [H : (let! a := m in k) s = Ok r]; [R] is what
    is known of [m]. *)
Tactic Notation "prun" hyp(H) "as" ident(a) ident(R) :=
  let s := fresh "s" in
  apply bind_Ok_inv in H as (a & s & R & H);
  lazymatch type of R with
  | upd _ _ _ = _ => injection R as <- <-
  | modify _ _ = _ => injection R as <- <-
  | wakeup1 _ _ = _ => injection R as <- <-
  | gets _ _ = _ => injection R as <- <-
  | ret _ _ = _ => injection R as <- <-
  | memory _ _ = _ => let k := fresh "k" in apply memory_inv in R as (k & R & ->)
  | env _ _ = _ => let e := fresh "e" in apply env_inv in R as (e & R & ->)
  | lift _ _ = _ => apply lift_inv in R as [-> R]
  | getp _ _ = _ => apply getp_inv in R as [-> R]
  | curproc _ _ = _ => apply curproc_inv in R as [-> R]
  | _ => idtac
  end;
  cbn [put_procs put_env put_cpu put_pos put_nextpid put_init ps_proc ps_nextpid ps_init ps_cpu ps_pos ps_env] in *.
Tactic Notation "prun" hyp(H) := let a := fresh "a" in let R := fresh "R" in prun H as a R.

Section Table.
  Context (kend data trapret forkret : Z).
  Context {E X : Type} `{!ProcEnv E X}.
Abbreviation st := (pstate E X).

(** ** The parts of fork *)

(** Entry [i] changes; of the rest of the state only the environment may. *)
Definition entry_change (i : nat) (q : proc X) (s s' : st) : Prop :=
  ps_proc s' = <[i := q]> (ps_proc s) /\ ps_nextpid s' = ps_nextpid s /\ ps_init s' = ps_init s /\
  ps_cpu s' = ps_cpu s /\ ps_pos s' = ps_pos s.

(** The identity of a process. *)
Definition same_id (p q : proc X) : Prop :=
  p_pid q = p_pid p /\ p_chan q = p_chan p /\ p_killed q = p_killed p.

Lemma alloc_entry_table (s s' : st) r : alloc_entry s = Ok (r, s') ->
  (r = None /\ s' = s) \/
  exists i p, r = Some i /\ find_unused (ps_proc s) 0 = Some i /\ ps_proc s !! i = Some p /\ p_state p = UNUSED /\
    ps_nextpid s < INT_MAX /\
    s' = put_nextpid (ps_nextpid s + 1) (put_procs (<[i := set_pid (ps_nextpid s) (set_state EMBRYO p)]> (ps_proc s)) s).
Proof.
  unfold alloc_entry. intros H. prun H.
  destruct (find_unused (ps_proc s) 0) as [i|] eqn:Ef; [|injection H as <- <-; by left].
  pose proof Ef as (_ & p & Hp & Hu)%find_unused_spec. rewrite Nat.sub_0_r in Hp.
  pose proof (lookup_lt_Some _ _ _ Hp) as Hlt. do 3 prun H. rewrite (alter_known _ i _ p Hp), !alter_insert in H by done.
  destruct (Z.ltb_spec (ps_nextpid s) INT_MAX) as [Hn|]; [|done]. prun H. injection H as <- <-.
  right. exists i, p. by split_and!.
Qed.

Lemma alloc_stack_table i (s s' : st) r p : ps_proc s !! i = Some p -> alloc_stack trapret forkret i s = Ok (r, s') ->
  exists q, entry_change i q s s' /\ same_id p q /\ p_parent q = p_parent p /\ p_name q = p_name p /\
    (r = None /\ p_state q = UNUSED \/ r = Some i /\ p_state q = p_state p).
Proof.
  intros Hp H. pose proof (lookup_lt_Some _ _ _ Hp) as Hlt. unfold alloc_stack in H. prun H. prun H.
  rewrite (alter_known _ i _ p Hp) in H. destruct (_ =? 0).
  - prun H. injection H as <- <-. cbn. rewrite alter_insert by done. eexists. split; [done|]. split_and!; [done..|by left].
  - do 4 prun H. injection H as <- <-. cbn. rewrite alter_insert by done. eexists. split; [done|]. split_and!; [done..|by right].
Qed.

Lemma fork_memory_table cur i (s s' : st) b n : ps_proc s !! i = Some n -> fork_memory kend data cur i s = Ok (b, s') ->
  exists q, entry_change i q s s' /\ same_id n q /\
    (b = false /\ p_state q = UNUSED /\ p_parent q = p_parent n \/
     b = true /\ p_state q = p_state n /\ p_parent q = Some cur).
Proof.
  intros Hn H. pose proof (lookup_lt_Some _ _ _ Hn) as Hlt. unfold fork_memory in H. prun H as pc Hpc. prun H as pgdir R1.
  prun H as n' Hn'. assert (n' = n) as -> by congruence. destruct (pgdir =? 0).
  - do 4 prun H. injection H as <- <-. cbn. rewrite (alter_known _ i _ n Hn), !alter_insert by done.
    eexists. split; [done|]. split; [done|]. by left.
  - do 4 prun H. injection H as <- <-. cbn. rewrite (alter_known _ i _ n Hn), !alter_insert by done.
    eexists. split; [done|]. split; [done|]. by right.
Qed.

Lemma fork_descriptors_table cur i (s s' : st) u n : ps_proc s !! i = Some n -> fork_descriptors cur i s = Ok (u, s') ->
  exists q, entry_change i q s s' /\ same_id n q /\ p_state q = p_state n /\ p_parent q = p_parent n.
Proof.
  intros Hn H. pose proof (lookup_lt_Some _ _ _ Hn) as Hlt. unfold fork_descriptors in H. prun H as pc Hpc.
  prun H as n' Hn'. assert (n' = n) as -> by congruence. do 3 prun H. injection H as _ <-. cbn.
  rewrite (alter_known _ i _ n Hn), !alter_insert by done. eexists. by split_and!.
Qed.

Lemma fork_ready_table i (s s' : st) r n : ps_proc s !! i = Some n -> fork_ready i s = Ok (r, s') ->
  r = p_pid n /\ s' = put_procs (<[i := set_state RUNNABLE n]> (ps_proc s)) s.
Proof.
  intros Hn H. unfold fork_ready in H. prun H as n' Hn'. assert (n' = n) as -> by congruence. prun H.
  injection H as <- <-. by rewrite (alter_known _ i _ n Hn).
Qed.

(** [allocproc] takes an UNUSED entry, or leaves one UNUSED with a new pid. *)
Lemma allocproc_table (s s' : st) r : allocproc trapret forkret s = Ok (r, s') ->
  ps_init s' = ps_init s /\ ps_cpu s' = ps_cpu s /\ ps_pos s' = ps_pos s /\
  (r = None /\ ps_proc s' = ps_proc s /\ ps_nextpid s' = ps_nextpid s \/
   exists i p q, find_unused (ps_proc s) 0 = Some i /\ ps_proc s !! i = Some p /\ p_state p = UNUSED /\
     ps_proc s' = <[i := q]> (ps_proc s) /\ ps_nextpid s < INT_MAX /\ ps_nextpid s' = ps_nextpid s + 1 /\
     p_pid q = ps_nextpid s /\ p_parent q = p_parent p /\ p_chan q = p_chan p /\ p_killed q = p_killed p /\
     p_name q = p_name p /\ (r = None /\ p_state q = UNUSED \/ r = Some i /\ p_state q = EMBRYO)).
Proof.
  unfold allocproc. intros (e & s1 & R & H)%bind_Ok_inv.
  apply alloc_entry_table in R as [[-> ->]|(i & p & -> & Hf & Hp & Hu & Hn & ->)].
  { injection H as <- <-. split_and!; try done. by left. }
  pose proof (lookup_lt_Some _ _ _ Hp) as Hlt. eapply alloc_stack_table in H; [|cbn; by apply list_lookup_insert_eq].
  destruct H as (q & (Et & En & Ei & Ec & Ep) & (E1 & E2 & E3) & E4 & E5 & Hr). cbn in *.
  rewrite list_insert_insert_eq in Et. split_and!; [done..|]. right. exists i, p, q. by split_and!.
Qed.

(** [fork] makes a RUNNABLE child in an UNUSED entry, or fails and leaves every
    entry in use as it was. *)
Lemma fork_table c (s s' : st) r : fork kend data trapret forkret c s = Ok (r, s') ->
  ps_init s' = ps_init s /\ ps_cpu s' = ps_cpu s /\ ps_pos s' = ps_pos s /\
  exists cur, ps_cpu s !! c = Some (Some cur) /\
  (r = -1 /\ ps_proc s' = ps_proc s /\ ps_nextpid s' = ps_nextpid s \/
   exists i p q, find_unused (ps_proc s) 0 = Some i /\ ps_proc s !! i = Some p /\ p_state p = UNUSED /\
     ps_proc s' = <[i := q]> (ps_proc s) /\ ps_nextpid s' = ps_nextpid s + 1 /\
     p_pid q = ps_nextpid s /\ p_chan q = p_chan p /\ p_killed q = p_killed p /\
     (r = -1 /\ p_state q = UNUSED /\ p_parent q = p_parent p \/
      r = p_pid q /\ p_state q = RUNNABLE /\ p_parent q = Some cur)).
Proof.
  unfold fork. intros H. prun H as cur Hc. prun H as np R0.
  apply allocproc_table in R0 as (E1 & E2 & E3 & R0).
  destruct R0 as [(-> & Ep & En)|(i & p & q & Hf & Hp & Hu & Ep & _ & En & Hpid & Hpar & Hch & Hk & _ & Hr)].
  { injection H as <- <-. split_and!; [done..|]. exists cur. split; [done|]. left. by split_and!. }
  pose proof (lookup_lt_Some _ _ _ Hp) as Hlt.
  destruct Hr as [[-> Hs]|[-> Hs]].
  { injection H as <- <-. split_and!; [done..|]. exists cur. split; [done|]. right. exists i, p, q. split_and!; try done.
    left. by split_and!. }
  apply bind_Ok_inv in H as (b & s1 & R1 & H). apply (fork_memory_table _ _ _ _ _ q) in R1;
    [|rewrite Ep; by apply list_lookup_insert_eq].
  destruct R1 as (q1 & (F1 & F2 & F3 & F4 & F5) & (G1 & G2 & G3) & Hb). rewrite Ep, list_insert_insert_eq in F1.
  destruct Hb as [(-> & Hq & Hqp)|(-> & Hq & Hqp)].
  { injection H as <- <-. split_and!; [congruence..|]. exists cur. split; [done|]. right. exists i, p, q1.
    split_and!; try congruence. left. split_and!; congruence. }
  apply bind_Ok_inv in H as ([] & s2 & R2 & H). apply (fork_descriptors_table _ _ _ _ _ q1) in R2;
    [|rewrite F1; by apply list_lookup_insert_eq].
  destruct R2 as (q2 & (I1 & I2 & I3 & I4 & I5) & (J1 & J2 & J3) & J4 & J5). rewrite F1, list_insert_insert_eq in I1.
  apply (fork_ready_table _ _ _ _ q2) in H as [-> ->]; [|rewrite I1; by apply list_lookup_insert_eq].
  cbn. rewrite I1, list_insert_insert_eq. split_and!; [congruence..|]. exists cur. split; [done|]. right.
  eexists i, p, _. split_and!; [done|done|done|reflexivity|congruence|cbn; congruence..|].
  right. split_and!; [done|done|cbn; congruence].
Qed.

(** A process that nothing happened to, or that was woken. *)
Record calm (p p' : proc X) : Prop := {
  ca_pid : p_pid p' = p_pid p;
  ca_chan : p_chan p' = p_chan p;
  ca_killed : p_killed p' = p_killed p;
  ca_state : p_state p' = p_state p \/ p_state p = SLEEPING /\ p_state p' = RUNNABLE
}.

Lemma calm_refl p : calm p p.
Proof. constructor; auto. Qed.

Lemma calm_trans p q r : calm p q -> calm q r -> calm p r.
Proof.
  intros [A1 A2 A3 A4] [B1 B2 B3 B4]. constructor; try congruence.
  destruct A4 as [A4|[A4 A5]], B4 as [B4|[B4 B5]]; [left|right|right|]; try (split; congruence); congruence.
Qed.

Lemma calm_wake ch (p : proc X) : calm p (wake ch p).
Proof. unfold wake. destruct (decide _) as [[Hs _]|]; constructor; cbn; auto. Qed.

Lemma wake_asleep ch (p : proc X) : p_state (wake ch p) = SLEEPING -> p_chan p <> ch.
Proof. unfold wake. destruct (decide _) as [|Hn]; [done|]. intros Hs Hc. by apply Hn. Qed.

Lemma wake_parent ch (p : proc X) : p_parent (wake ch p) = p_parent p.
Proof. unfold wake. by destruct (decide _). Qed.

Definition initchan (init : option nat) : chan := match init with Some j => ChanProc j | None => NoChan end.

Lemma initchan_eq init : match init with Some j => wakeup1 (ChanProc j) | None => wakeup1 NoChan end =@{M st unit} wakeup1 (initchan init).
Proof. by destruct init. Qed.

(** The entries [i, i + n) of a table after [reparent]. *)
Lemma reparent_table n : forall i cur init (s : st), (i + n <= length (ps_proc s))%nat ->
  exists t', reparent n i cur init s = Ok (tt, put_procs t' s) /\ length t' = length (ps_proc s) /\
    forall j p p', ps_proc s !! j = Some p -> t' !! j = Some p' ->
      calm p p' /\
      p_parent p' = (if decide ((i <= j < i + n)%nat /\ p_parent p = Some cur) then init else p_parent p) /\
      (p_state p' = SLEEPING -> p_chan p = initchan init -> forall k z, (i <= k < i + n)%nat ->
         ps_proc s !! k = Some z -> p_parent z = Some cur -> p_state z <> ZOMBIE).
Proof.
  induction n as [|n IH]; intros i cur init s Hlen; cbn [reparent].
  { exists (ps_proc s). split_and!; [by destruct s|done|]. intros j p p' Hp Hp'. assert (p' = p) as -> by congruence.
    split_and!; [apply calm_refl|by rewrite decide_False by lia|lia]. }
  destruct (lookup_lt_is_Some_2 (ps_proc s) i ltac:(lia)) as [pi Hi]. mstep (getp_Ok i s pi Hi).
  rewrite initchan_eq. set (m := when _ _).
  assert (exists s1, m s = Ok (tt, s1) /\ s1 = put_procs (ps_proc s1) s /\ length (ps_proc s1) = length (ps_proc s) /\
    forall j p, ps_proc s !! j = Some p -> exists p', ps_proc s1 !! j = Some p' /\ calm p p' /\
      p_parent p' = (if decide (j = i /\ p_parent p = Some cur) then init else p_parent p) /\
      (p_state p' = SLEEPING -> p_chan p = initchan init -> p_parent pi = Some cur -> p_state pi <> ZOMBIE))
    as (s1 & E1 & Es1 & Hl1 & H1).
  { subst m. destruct (decide (p_parent pi = Some cur)) as [Hpar|Hpar].
    - rewrite bool_decide_true by done. unfold when, upd, modify, bind at 1.
      rewrite (alter_known _ i _ pi Hi). destruct (decide (p_state pi = ZOMBIE)) as [Hz|Hz].
      + rewrite bool_decide_true by done. eexists. split; [reflexivity|]. cbn. split_and!; [done|by rewrite length_fmap, length_insert|].
        intros j p Hj. rewrite list_lookup_fmap. destruct (decide (j = i)) as [->|Hne].
        * rewrite list_lookup_insert_eq by lia. assert (p = pi) as -> by congruence. eexists. split; [reflexivity|].
          split_and!; [|by rewrite wake_parent, decide_True by done|by intros Hs%wake_asleep].
          eapply calm_trans; [|apply calm_wake]. constructor; auto.
        * rewrite list_lookup_insert_ne, Hj by done. eexists. split; [reflexivity|].
          split_and!; [apply calm_wake|by rewrite wake_parent, decide_False by tauto|by intros Hs%wake_asleep].
      + rewrite bool_decide_false by done. eexists. split; [reflexivity|]. cbn. split_and!; [done|by rewrite length_insert|].
        intros j p Hj. destruct (decide (j = i)) as [->|Hne].
        * rewrite list_lookup_insert_eq by lia. assert (p = pi) as -> by congruence. eexists. split; [reflexivity|].
          split_and!; [constructor; auto|by rewrite decide_True by done|done].
        * rewrite list_lookup_insert_ne by done. exists p. split_and!; [done|apply calm_refl|by rewrite decide_False by tauto|done].
    - rewrite bool_decide_false by done. exists s. split_and!; [done|by destruct s|done|]. intros j p Hj. exists p.
      split_and!; [done|apply calm_refl| |done]. destruct (decide (_ /\ _)) as [[-> ?]|]; [congruence|done]. }
  mstep E1. destruct (IH (S i) cur init s1 ltac:(lia)) as (t' & E2 & Hl2 & H2).
  exists t'. rewrite E2. split_and!; [by rewrite Es1|lia|].
  intros j p p' Hp Hp'. destruct (H1 j p Hp) as (q & Hq & Hc1 & Hpar1 & Hz1).
  destruct (H2 j q p' Hq Hp') as (Hc2 & Hpar2 & Hz2). split_and!.
  - by eapply calm_trans.
  - rewrite Hpar2. clear Hpar2. destruct (decide (j = i)) as [->|Hne].
    + rewrite decide_False by lia. rewrite Hpar1. clear Hpar1.
      destruct (decide _) as [Hc|Hc], (decide _) as [Hd|Hd]; try done; exfalso;
        [apply Hd; split; [lia|apply Hc]|apply Hc; split; [done|apply Hd]].
    + rewrite decide_False in Hpar1 by tauto.
      destruct (decide _) as [Hc|Hc], (decide _) as [Hd|Hd]; try done; exfalso; rewrite Hpar1 in Hc;
        [apply Hd; split; [lia|apply Hc]|apply Hc; split; [lia|apply Hd]].
  - intros Hs Hch k z Hk Hz Hzp Hzs. destruct (decide (k = i)) as [->|Hne].
    + assert (z = pi) as -> by congruence. refine (Hz1 _ Hch Hzp Hzs). destruct (ca_state _ _ Hc2) as [|[_ ?]]; congruence.
    + destruct (H1 k z Hz) as (z' & Hz' & Hcz & Hzp' & _). rewrite decide_False in Hzp' by tauto.
      apply (Hz2 Hs ltac:(by rewrite (ca_chan _ _ Hc1)) k z' ltac:(lia) Hz' ltac:(congruence)).
      destruct (ca_state _ _ Hcz) as [|[? _]]; congruence.
Qed.

(** Switching to the scheduler. *)
Lemma sched_table c (s s' : st) : sched c s = Ok (tt, s') -> s' = put_cpu c None s.
Proof.
  unfold sched. intros H. prun H as i Hc. prun H as p Hp. destruct (decide _); [done|]. by injection H as <-.
Qed.

(** The files are closed. *)
Lemma exit_close_table c (s s' : st) u : exit_close c s = Ok (u, s') ->
  exists cur p e, ps_cpu s !! c = Some (Some cur) /\ ps_init s <> Some cur /\ ps_proc s !! cur = Some p /\
    pf_exit (p_files p) (ps_env s) = Ok (tt, e) /\
    s' = put_procs (<[cur := set_files pf_none p]> (ps_proc s)) (put_env e s).
Proof.
  unfold exit_close. intros H. prun H as cur Hc. prun H. destruct (bool_decide _) eqn:Ei; [done|].
  apply bool_decide_eq_false in Ei. prun H as p Hp. prun H as x Rx. destruct x. injection H as _ <-.
  exists cur, p, e. split_and!; try done. cbn. by rewrite (alter_known _ _ _ _ Hp).
Qed.

(** What the critical section of [exit] does to the table [t], of which [cur] is the
    process [pc] that ends. *)
Definition exits (cur : nat) (pc : proc X) (init : option nat) (t t' : list (proc X)) : Prop :=
  length t' = length t /\
  forall j p p', t !! j = Some p -> t' !! j = Some p' ->
    p_pid p' = p_pid p /\ p_killed p' = p_killed p /\
    p_parent p' = (if decide (p_parent p = Some cur) then init else p_parent p) /\
    (j = cur /\ p_state p' = ZOMBIE \/
     j <> cur /\ p_chan p' = p_chan p /\
       (p_state p' = p_state p \/ p_state p = SLEEPING /\ p_state p' = RUNNABLE)) /\
    (p_state p' = SLEEPING -> p_chan p <> initchan (p_parent pc) /\
       (p_chan p = initchan init -> forall k z, t !! k = Some z -> p_parent z = Some cur ->
          k = cur \/ p_state z <> ZOMBIE)).

Lemma exit_end_table c (s s' : st) : exit_end c s = Ok (tt, s') ->
  exists cur pc, ps_cpu s !! c = Some (Some cur) /\ ps_proc s !! cur = Some pc /\
    ps_cpu s' = <[c := None]> (ps_cpu s) /\ ps_nextpid s' = ps_nextpid s /\ ps_init s' = ps_init s /\
    ps_pos s' = ps_pos s /\ ps_env s' = ps_env s /\ exits cur pc (ps_init s) (ps_proc s) (ps_proc s').
Proof.
  unfold exit_end. intros H. prun H as cur Hc. prun H as pc Hpc.
  pose proof (lookup_lt_Some _ _ _ Hpc) as Hlt. rewrite initchan_eq in H. prun H. prun H. prun H.
  set (t1 := wake (initchan (p_parent pc)) <$> ps_proc s) in *.
  apply bind_Ok_inv in H as (a1 & s1 & R1 & H).
  match type of R1 with reparent _ _ _ _ ?s0 = _ =>
    destruct (reparent_table (length t1) 0 cur (ps_init s) s0 (Nat.le_refl _)) as (t2 & E2 & Hl2 & H2) end.
  rewrite E2 in R1. injection R1 as <- <-. cbn in Hl2, H2. prun H. apply sched_table in H as ->. cbn.
  assert (length t1 = length (ps_proc s)) as Hl1 by (subst t1; by rewrite length_fmap).
  exists cur, pc. split_and!; try done. split; [by rewrite length_alter, Hl2, Hl1|].
  intros j p p' Hp Hp'.
  assert (exists q, t1 !! j = Some q /\ calm p q /\ p_parent q = p_parent p /\
    (p_state q = SLEEPING -> p_chan p <> initchan (p_parent pc))) as (q & Hq & Hcq & Hqp & Hqs).
  { subst t1. rewrite list_lookup_fmap, Hp. eexists. split; [reflexivity|]. rewrite wake_parent.
    split_and!; [apply calm_wake|done|by intros Hs%wake_asleep]. }
  assert (is_Some (t2 !! j)) as [q2 Hq2] by (apply lookup_lt_is_Some; rewrite Hl2; by eapply lookup_lt_Some).
  destruct (H2 j q q2 Hq Hq2) as (Hc2 & Hpar2 & Hz2). pose proof (calm_trans _ _ _ Hcq Hc2) as [Hc3 Hc4 Hc5 Hc6].
  assert (p_parent q2 = if decide (p_parent p = Some cur) then ps_init s else p_parent p) as Hpar3.
  { rewrite Hpar2, Hqp. pose proof (lookup_lt_Some _ _ _ Hq). clear Hpar2.
    destruct (decide (_ /\ _)) as [Ha|Ha], (decide (_ = _)) as [Hb|Hb]; try done; exfalso;
      [apply Hb, Ha|apply Ha; split; [lia|done]]. }
  destruct (decide (j = cur)) as [->|Hne].
  - rewrite list_lookup_alter_eq, Hq2 in Hp'. injection Hp' as <-. cbn.
    split_and!; [done|done|done|by left|done].
  - rewrite list_lookup_alter_ne, Hq2 in Hp' by congruence. injection Hp' as <-.
    split_and!; [done|done|done|right; by split_and!|]. intros Hs. split.
    + apply Hqs. destruct (ca_state _ _ Hc2) as [|[_ ?]]; congruence.
    + intros Hch k z Hk Hkp. destruct (decide (k = cur)) as [|Hkne]; [by left|right]. intros Hkz.
      assert (t1 !! k = Some z) as Hk1.
      { subst t1. rewrite list_lookup_fmap, Hk. cbn. unfold wake.
        rewrite decide_False; [done|]. intros [? _]. congruence. }
      refine (Hz2 Hs _ k z _ Hk1 Hkp Hkz); [rewrite <- Hch; apply Hcq|]. apply lookup_lt_Some in Hk1. lia.
Qed.

Lemma exit_table c (s s' : st) : exit c s = Ok (tt, s') ->
  exists cur pc, ps_cpu s !! c = Some (Some cur) /\ ps_init s <> Some cur /\ ps_proc s !! cur = Some pc /\
    ps_cpu s' = <[c := None]> (ps_cpu s) /\ ps_nextpid s' = ps_nextpid s /\ ps_init s' = ps_init s /\
    ps_pos s' = ps_pos s /\ exits cur pc (ps_init s) (<[cur := set_files pf_none pc]> (ps_proc s)) (ps_proc s').
Proof.
  unfold exit. intros (u & s1 & (cur & pc & e & Hc & Hi & Hpc & _ & ->)%exit_close_table & H)%bind_Ok_inv.
  pose proof (lookup_lt_Some _ _ _ Hpc) as Hlt.
  apply exit_end_table in H as (cur' & pc' & Hc' & Hpc' & H). cbn in *. assert (cur' = cur) as -> by congruence.
  rewrite list_lookup_insert_eq in Hpc' by done. injection Hpc' as <-. destruct H as (E1 & E2 & E3 & E4 & _ & H).
  exists cur, pc. by split_and!.
Qed.

Lemma wait_scan_spec (t : list (proc X)) cur : forall i b,
  match wait_scan t i cur b with
  | inl j => (i <= j)%nat /\ exists p, t !! (j - i)%nat = Some p /\ p_parent p = Some cur /\ p_state p = ZOMBIE
  | inr b' => (forall k p, t !! k = Some p -> p_parent p = Some cur -> p_state p <> ZOMBIE) /\
      (b' = true <-> b = true \/ exists k p, t !! k = Some p /\ p_parent p = Some cur)
  end.
Proof.
  induction t as [|p t IH]; intros i b; cbn [wait_scan].
  { split; [done|]. split; [by left|]. intros [?|(k & q & ? & _)]; [done|by destruct k]. }
  destruct (bool_decide _) eqn:Ep; [apply bool_decide_eq_true in Ep|apply bool_decide_eq_false in Ep].
  - destruct (decide _) as [Hz|Hz].
    { split; [lia|]. exists p. by rewrite Nat.sub_diag. }
    specialize (IH (S i) true). destruct (wait_scan t (S i) cur true) as [j|b'].
    + destruct IH as (Hle & q & Hq & H). split; [lia|]. exists q. split; [|done].
      by replace (j - i)%nat with (S (j - S i)) by lia.
    + destruct IH as [H1 H2]. split.
      * intros [|k] q Hk Hq; [by injection Hk as <-|by apply (H1 k)].
      * split; [|intros _; apply H2; by left]. intros _. right. by exists 0%nat, p.
  - specialize (IH (S i) b). destruct (wait_scan t (S i) cur b) as [j|b'].
    + destruct IH as (Hle & q & Hq & H). split; [lia|]. exists q. split; [|done].
      by replace (j - i)%nat with (S (j - S i)) by lia.
    + destruct IH as [H1 H2]. split.
      * intros [|k] q Hk Hq; [by injection Hk as <-|by apply (H1 k)].
      * rewrite H2. split; (intros [?|(k & q & Hk & Hq)]; [by left|right]).
        -- by exists (S k), q.
        -- destruct k as [|k]; [injection Hk as <-; done|]. by exists k, q.
Qed.

Lemma sleep_on_table c ch (s s' : st) : sleep_on c ch s = Ok (tt, s') ->
  exists i p, ps_cpu s !! c = Some (Some i) /\ ps_proc s !! i = Some p /\
    s' = put_cpu c None (put_procs (<[i := set_state SLEEPING (set_chan ch p)]> (ps_proc s)) s).
Proof.
  unfold sleep_on, myproc. intros H. prun H. unfold mjoin, option_join in H.
  destruct (ps_cpu s !! c) as [[i|]|] eqn:Ec; [|done..]. prun H. prun H.
  assert (exists p, ps_proc s !! i = Some p) as [p Hp].
  { unfold sched in H. prun H as i' Hi'. assert (i' = i) as -> by congruence. prun H as p Hp.
    rewrite !list_lookup_alter_eq in Hp. destruct (ps_proc s !! i); [by eexists|done]. }
  exists i, p. split_and!; [done|done|]. apply sched_table in H as ->.
  rewrite (alter_known _ _ _ _ Hp), alter_insert; [done|by eapply lookup_lt_Some].
Qed.

(** [wait] frees a zombie child, returns -1, or sleeps with a child and no zombie. *)
Lemma wait_table c (s s' : st) r : wait kend c s = Ok (r, s') ->
  ps_nextpid s' = ps_nextpid s /\ ps_init s' = ps_init s /\ ps_pos s' = ps_pos s /\
  exists cur, ps_cpu s !! c = Some (Some cur) /\
  ((exists i p q, ps_proc s !! i = Some p /\ p_parent p = Some cur /\ p_state p = ZOMBIE /\ r = Some (p_pid p) /\
      ps_proc s' = <[i := q]> (ps_proc s) /\ p_state q = UNUSED /\ p_parent q = None /\ p_killed q = 0 /\
      ps_cpu s' = ps_cpu s) \/
   (r = Some (-1) /\ s' = s) \/
   (r = None /\ (forall k p, ps_proc s !! k = Some p -> p_parent p = Some cur -> p_state p <> ZOMBIE) /\
    (exists k p, ps_proc s !! k = Some p /\ p_parent p = Some cur) /\
    exists p, ps_proc s !! cur = Some p /\ p_killed p = 0 /\
      s' = put_cpu c None (put_procs (<[cur := set_state SLEEPING (set_chan (ChanProc cur) p)]> (ps_proc s)) s))).
Proof.
  unfold wait. intros H. prun H as cur Hc. prun H. pose proof (wait_scan_spec (ps_proc s) cur 0 false) as Hscan.
  destruct (wait_scan _ _ _ _) as [i|b].
  - destruct Hscan as (_ & p & Hp & Hpar & Hz). rewrite Nat.sub_0_r in Hp. pose proof (lookup_lt_Some _ _ _ Hp) as Hlt.
    prun H as p' Hp'. assert (p' = p) as -> by congruence. do 8 prun H. injection H as <- <-. cbn.
    rewrite (alter_known _ _ _ _ Hp), !alter_insert by done.
    split_and!; try done. exists cur. split; [done|left]. eexists i, p, _. split_and!; done.
  - destruct Hscan as [H1 H2]. prun H as pc Hpc. destruct (negb b || negb (p_killed pc =? 0)) eqn:Eb.
    + injection H as <- <-. split_and!; try done. exists cur. split; [done|right; by left].
    + apply orb_false_iff in Eb as [Eb1 Eb2]. prun H as u R. destruct u. apply sleep_on_table in R as (i & p & Hi & Hp & ->).
      injection H as <- <-. assert (i = cur) as -> by congruence. assert (p = pc) as -> by congruence.
      split_and!; try done. exists cur. split; [done|]. right; right. split_and!; [done|done| |].
      * destruct H2 as [H2 _]. destruct H2 as [?|?]; [by destruct b|done|done].
      * exists pc. split_and!; [done| |done]. apply negb_false_iff in Eb2. by apply Z.eqb_eq.
Qed.
End Table.
