(* ===== verification/ProcInv.v ===== *)
(** The invariants of the process table under any interleaving of the CPUs: the
    process tree, who runs where, and sleepers. *)

From S2P Require Import Prelude Mem Strings Bio Kalloc Vm VmUser Proc ProcTable.
Local Open Scope Z_scope.

Section Inv.
  Context (kend data trapret forkret : Z).
  Context {E X : Type} `{!ProcEnv E X}.
Abbreviation st := (pstate E X).

(** * Steps

    A process that is on a CPU is in user mode or in a system call that has not
    slept, comes back from [sleep] in [wait] or elsewhere in the kernel, is in [fork],
    making the child [k], or in [exit] with its files closed.  A child that [fork] is
    making for [i] has an entry only, a kernel stack as well, its memory, or its files
    too.  Each step is one critical section of ptable.lock, or the stretch of a call
    between two of them; other CPUs and the timer come in between. *)

Inductive stage := Bare | Stacked | Copied | Filled.
#[export] Instance stage_eq : EqDecision stage.
Proof. solve_decision. Defined.

Inductive place := AtUser | InWait | InSleep | Forking (k : nat) | Exiting | Newborn (g : stage) (i : nat).
#[export] Instance place_eq : EqDecision place.
Proof. solve_decision. Defined.

(** Where the timer may take the CPU from a process: not in the critical section in
    which [sleep] ends. *)
Definition preemptible (pl : place) : Prop := pl <> InWait /\ pl <> InSleep.

Definition pconf : Type := st * list place.

Definition runs (s : st) (w : list place) (c i : nat) (pl : place) : Prop :=
  ps_cpu s !! c = Some (Some i) /\ w !! i = Some pl.

Inductive label := LSched (c : nat) | LOther.

Inductive pstep : label -> pconf -> pconf -> Prop :=
| step_sched c s s' w : ps_cpu s !! c = Some None -> scheduler_round c s = Ok (tt, s') -> pstep (LSched c) (s, w) (s', w)
| step_fork c i s s' r w : runs s w c i AtUser -> alloc_entry s = Ok (r, s') ->
    pstep LOther (s, w) (s', match r with None => w | Some k => <[k := Newborn Bare i]> (<[i := Forking k]> w) end)
| step_stack c i k s s' r w : runs s w c i (Forking k) -> w !! k = Some (Newborn Bare i) ->
    alloc_stack trapret forkret k s = Ok (r, s') ->
    pstep LOther (s, w) (s', match r with None => <[k := AtUser]> (<[i := AtUser]> w) | Some _ => <[k := Newborn Stacked i]> w end)
| step_copy c i k s s' (r : bool) w : runs s w c i (Forking k) -> w !! k = Some (Newborn Stacked i) ->
    fork_memory kend data i k s = Ok (r, s') ->
    pstep LOther (s, w) (s', if r then <[k := Newborn Copied i]> w else <[k := AtUser]> (<[i := AtUser]> w))
| step_files c i k s s' w : runs s w c i (Forking k) -> w !! k = Some (Newborn Copied i) ->
    fork_descriptors i k s = Ok (tt, s') -> pstep LOther (s, w) (s', <[k := Newborn Filled i]> w)
| step_ready c i k s s' r w : runs s w c i (Forking k) -> w !! k = Some (Newborn Filled i) ->
    fork_ready k s = Ok (r, s') -> pstep LOther (s, w) (s', <[k := AtUser]> (<[i := AtUser]> w))
| step_close c i s s' w : runs s w c i AtUser -> exit_close c s = Ok (tt, s') -> pstep LOther (s, w) (s', <[i := Exiting]> w)
| step_exit c i s s' w : runs s w c i Exiting -> exit_end c s = Ok (tt, s') -> pstep LOther (s, w) (s', <[i := AtUser]> w)
| step_wait c i s s' r w : runs s w c i AtUser -> wait kend c s = Ok (r, s') ->
    pstep LOther (s, w) (s', match r with None => <[i := InWait]> w | Some _ => w end)
| step_wait_again c i s s' r w : runs s w c i InWait -> wait_again kend c s = Ok (r, s') ->
    pstep LOther (s, w) (s', match r with None => w | Some _ => <[i := AtUser]> w end)
| step_sleep c i a s s' w : runs s w c i AtUser -> sleep_on c (ChanAddr a) s = Ok (tt, s') ->
    pstep LOther (s, w) (s', <[i := InSleep]> w)
| step_awake c i s s' w : runs s w c i InSleep -> sleep_return c s = Ok (tt, s') ->
    pstep LOther (s, w) (s', <[i := AtUser]> w)
| step_yield c i pl s s' w : runs s w c i pl -> preemptible pl -> yield c s = Ok (tt, s') -> pstep LOther (s, w) (s', w)
| step_sbrk c i n s s' r w : runs s w c i AtUser -> -2147483648 <= n <= INT_MAX -> sbrk_proc kend c n s = Ok (r, s') -> pstep LOther (s, w) (s', w)
| step_call c i num s s' r w : runs s w c i AtUser -> call_proc num c s = Ok (r, s') -> pstep LOther (s, w) (s', w)
| step_exec c i path argv s s' r w : runs s w c i AtUser -> exec_proc path argv c s = Ok (r, s') -> pstep LOther (s, w) (s', w)
| step_store c i va b s s' r w : runs s w c i AtUser -> user_store c va b s = Ok (r, s') -> pstep LOther (s, w) (s', w)
| step_trap c i frame s s' w : runs s w c i AtUser -> Z.of_nat (length frame) = SIZEOF_TRAPFRAME ->
    save_regs c frame s = Ok (tt, s') -> pstep LOther (s, w) (s', w)
| step_kill pid s s' r w : kill pid s = Ok (r, s') -> pstep LOther (s, w) (s', w)
| step_wakeup a s s' w : wakeup (ChanAddr a) s = Ok (tt, s') -> pstep LOther (s, w) (s', w).

(** * The invariant *)

Definition in_use (p : proc X) : Prop := p_state p <> UNUSED.
Definition alive (p : proc X) : Prop := p_state p <> UNUSED /\ p_state p <> ZOMBIE /\ p_state p <> EMBRYO.
Definition settled (p : proc X) : Prop := p_state p <> UNUSED /\ p_state p <> EMBRYO.

(** The process tree: pids are unique, every process but init has a living parent
    with a smaller pid, and init never ends. *)
Record tree (t : list (proc X)) (nextpid : Z) (init : option nat) : Prop := {
  tr_init : exists i p, init = Some i /\ t !! i = Some p /\ alive p /\ p_pid p = 1 /\ p_parent p = None;
  tr_pid : forall i p, t !! i = Some p -> in_use p -> 0 < p_pid p < nextpid;
  tr_pids : forall i j p q, t !! i = Some p -> t !! j = Some q -> in_use p -> in_use q -> p_pid p = p_pid q -> i = j;
  tr_unused : forall i p, t !! i = Some p -> p_state p = UNUSED -> p_parent p = None;
  tr_parent : forall i p, t !! i = Some p -> settled p -> init <> Some i ->
    exists j q, p_parent p = Some j /\ t !! j = Some q /\ alive q /\ p_pid q < p_pid p
}.

(** The parent of a child in the making, from the moment it is set. *)
Definition child_parent (g : stage) (i : nat) : option nat := match g with Bare | Stacked => None | Copied | Filled => Some i end.

(** EMBRYO entries are the children in the making: each is of one living process, which is
    in [fork] and makes no other, and has a larger pid; a process in [exit] is not init. *)
Record forking (t : list (proc X)) (w : list place) (init : option nat) : Prop := {
  fk_parent : forall i k, w !! i = Some (Forking k) -> exists g, w !! k = Some (Newborn g i);
  fk_child : forall k g i, w !! k = Some (Newborn g i) -> w !! i = Some (Forking k) /\
    exists p q, t !! i = Some p /\ t !! k = Some q /\ alive p /\ p_state q = EMBRYO /\ p_pid p < p_pid q /\
      p_parent q = child_parent g i;
  fk_embryo : forall k q, t !! k = Some q -> p_state q = EMBRYO -> exists g i, w !! k = Some (Newborn g i);
  fk_exit : forall i, w !! i = Some Exiting -> init <> Some i /\ exists p, t !! i = Some p /\ alive p
}.

(** RUNNING is being on exactly one CPU. *)
Record running (t : list (proc X)) (cpu : list (option nat)) : Prop := {
  ru_cpu : forall c i, cpu !! c = Some (Some i) -> exists p, t !! i = Some p /\ p_state p = RUNNING;
  ru_run : forall i p, t !! i = Some p -> p_state p = RUNNING -> exists c, cpu !! c = Some (Some i);
  ru_one : forall c c' i, cpu !! c = Some (Some i) -> cpu !! c' = Some (Some i) -> c = c'
}.

(** A sleeper in [wait] has children, none of them a zombie, and is not killed; any
    other sleeper waits for an address. *)
Record sleeping (t : list (proc X)) (w : list place) : Prop := {
  sl_len : length w = length t;
  sl_sleep : forall i p, t !! i = Some p -> p_state p = SLEEPING ->
    (w !! i = Some InWait /\ p_chan p = ChanProc i /\ p_killed p = 0 /\
     (exists k q, t !! k = Some q /\ p_parent q = Some i) /\
     (forall k q, t !! k = Some q -> p_parent q = Some i -> p_state q <> ZOMBIE)) \/
    (w !! i = Some InSleep /\ exists a, p_chan p = ChanAddr a);
  sl_idle : forall i p, t !! i = Some p -> p_state p = UNUSED \/ p_state p = ZOMBIE -> w !! i = Some AtUser
}.

Record table_ok (c : pconf) : Prop := {
  tb_tree : tree (ps_proc c.1) (ps_nextpid c.1) (ps_init c.1);
  tb_running : running (ps_proc c.1) (ps_cpu c.1);
  tb_sleeping : sleeping (ps_proc c.1) c.2;
  tb_forking : forking (ps_proc c.1) c.2 (ps_init c.1)
}.

(** ** Changes that keep the tree *)

Definition awake (v : procstate) : Prop := v = SLEEPING \/ v = RUNNABLE \/ v = RUNNING.

Definition same_life (p p' : proc X) : Prop :=
  p_pid p' = p_pid p /\ p_parent p' = p_parent p /\
  (p_state p' = p_state p \/ awake (p_state p) /\ awake (p_state p')).

Definition same_lives (t t' : list (proc X)) : Prop :=
  length t' = length t /\ forall i p p', t !! i = Some p -> t' !! i = Some p' -> same_life p p'.

Lemma lives_lookup t t' i p : same_lives t t' -> t !! i = Some p -> exists p', t' !! i = Some p' /\ same_life p p'.
Proof.
  intros [Hl H] Hp. assert (is_Some (t' !! i)) as [p' Hp'] by (apply lookup_lt_is_Some; rewrite Hl; by eapply lookup_lt_Some).
  eauto.
Qed.

Lemma lives_lookup' t t' i p' : same_lives t t' -> t' !! i = Some p' -> exists p, t !! i = Some p /\ same_life p p'.
Proof.
  intros [Hl H] Hp. assert (is_Some (t !! i)) as [p Hp'] by (apply lookup_lt_is_Some; rewrite <- Hl; by eapply lookup_lt_Some).
  eauto.
Qed.

Lemma life_state p p' v : same_life p p' -> ~ awake v -> p_state p' = v <-> p_state p = v.
Proof. intros (_ & _ & [->|[H1 H2]]) Hv; [done|]. split; intros <-; done. Qed.

Lemma not_awake v : v = UNUSED \/ v = ZOMBIE \/ v = EMBRYO -> ~ awake v.
Proof. unfold awake. intuition congruence. Qed.

Lemma life_use p p' : same_life p p' -> (in_use p' <-> in_use p) /\ (alive p' <-> alive p) /\ (settled p' <-> settled p).
Proof.
  intros H. unfold in_use, alive, settled.
  rewrite !(life_state p p' UNUSED), !(life_state p p' ZOMBIE), !(life_state p p' EMBRYO); auto using not_awake.
Qed.

Lemma tree_lives t t' n init : tree t n init -> same_lives t t' -> tree t' n init.
Proof.
  intros [H2 H3 H4 H5 H6] Hl. constructor.
  - destruct H2 as (i & p & -> & Hp & Ha & Hpid & Hpar). destruct (lives_lookup _ _ _ _ Hl Hp) as (p' & Hp' & Hs).
    exists i, p'. destruct (life_use _ _ Hs) as (_ & Hal & _). pose proof Hs as (E1 & E2 & _).
    split_and!; [done|done|by apply Hal..|congruence|congruence].
  - intros i p' Hp' Hu. destruct (lives_lookup' _ _ _ _ Hl Hp') as (p & Hp & Hs). pose proof Hs as (-> & _).
    exact (H3 i p Hp (proj1 (proj1 (life_use _ _ Hs)) Hu)).
  - intros i j p' q' Hp' Hq' Hu Hv Epid. destruct (lives_lookup' _ _ _ _ Hl Hp') as (p & Hp & Hs).
    destruct (lives_lookup' _ _ _ _ Hl Hq') as (q & Hq & Hs'). eapply (H4 i j p q); [done|done| | |].
    + exact (proj1 (proj1 (life_use _ _ Hs)) Hu).
    + exact (proj1 (proj1 (life_use _ _ Hs')) Hv).
    + destruct Hs as (<- & _), Hs' as (<- & _). done.
  - intros i p' Hp' Hu. destruct (lives_lookup' _ _ _ _ Hl Hp') as (p & Hp & Hs). pose proof Hs as (_ & -> & _).
    eapply H5; [done|]. apply (life_state p p'); auto using not_awake.
  - intros i p' Hp' Hu Hi. destruct (lives_lookup' _ _ _ _ Hl Hp') as (p & Hp & Hs). pose proof Hs as (E1 & E2 & _).
    destruct (H6 i p Hp (proj1 (proj2 (proj2 (life_use _ _ Hs))) Hu) Hi) as (j & q & Hj & Hq & Ha & Hlt).
    destruct (lives_lookup _ _ _ _ Hl Hq) as (q' & Hq' & Hs'). exists j, q'. destruct (life_use _ _ Hs') as (_ & Hal & _).
    split_and!; [congruence|done|by apply Hal..|]. destruct Hs' as (-> & _). lia.
Qed.

(** ** Forking *)

(** The places that [forking] is about. *)
Definition in_fork (pl : place) : bool := match pl with Forking _ | Newborn _ _ | Exiting => true | _ => false end.

Lemma forking_lives t t' w w' init : forking t w init -> same_lives t t' ->
  (forall i pl, in_fork pl = true -> w' !! i = Some pl <-> w !! i = Some pl) -> forking t' w' init.
Proof.
  intros [H1 H2 H3 H4] Hl Hw. constructor.
  - intros i k Hi. apply Hw in Hi; [|done]. destruct (H1 i k Hi) as [g Hg]. exists g. by apply Hw.
  - intros k g i Hk. apply Hw in Hk; [|done]. destruct (H2 k g i Hk) as (Hi & p & q & Hp & Hq & Ha & Hs & Hlt & Hpar).
    split; [by apply Hw|]. destruct (lives_lookup _ _ _ _ Hl Hp) as (p' & Hp' & Hsp).
    destruct (lives_lookup _ _ _ _ Hl Hq) as (q' & Hq' & Hsq). exists p', q'.
    destruct (life_use _ _ Hsp) as (_ & Hal & _). pose proof (life_state q q' EMBRYO Hsq (not_awake _ ltac:(auto))) as He.
    destruct Hsp as (-> & _), Hsq as (-> & -> & _). split_and!; [done|done|by apply Hal..|by apply He|done|done].
  - intros k q' Hq' Hs. destruct (lives_lookup' _ _ _ _ Hl Hq') as (q & Hq & Hsq).
    apply (life_state q q' EMBRYO Hsq (not_awake _ ltac:(auto))) in Hs. destruct (H3 k q Hq Hs) as (g & i & Hk).
    exists g, i. by apply Hw.
  - intros i Hi. apply Hw in Hi; [|done]. destruct (H4 i Hi) as (Hne & p & Hp & Ha). split; [done|].
    destruct (lives_lookup _ _ _ _ Hl Hp) as (p' & Hp' & Hsp). exists p'. split; [done|]. by apply (life_use _ _ Hsp).
Qed.

(** A new child, one that is a stage further, and the end of a fork: entry [k] changes,
    and the places of [k] and of the process [i] that forks. *)
Lemma forking_entry t w w' init i k pi p q g : forking t w init -> t !! i = Some pi -> alive pi -> t !! k = Some p -> ~ alive p ->
  (w !! i = Some AtUser /\ w !! k = Some AtUser \/ w !! i = Some (Forking k) /\ exists g, w !! k = Some (Newborn g i)) ->
  (forall j, j <> i -> j <> k -> w' !! j = w !! j) ->
  (w' !! i = Some (Forking k) /\ w' !! k = Some (Newborn g i) /\ p_state q = EMBRYO /\ p_pid pi < p_pid q /\ p_parent q = child_parent g i \/
   w' !! i = Some AtUser /\ w' !! k = Some AtUser /\ p_state q <> EMBRYO) ->
  forking (<[k := q]> t) w' init.
Proof.
  intros [H1 H2 H3 H4] Hpi Hai Hp Hna Hold Hoff Hnew.
  assert (i <> k) as Hik by congruence. pose proof (lookup_lt_Some _ _ _ Hp) as Hlt.
  assert (forall j x, t !! j = Some x -> alive x -> <[k := q]> t !! j = Some x) as Hal.
  { intros j x Hj Hx. rewrite list_lookup_insert_ne; [done|]. intros ->. congruence. }
  assert (forall j pl, in_fork pl = true -> w !! j = Some pl -> j <> i -> j <> k -> w' !! j = Some pl) as Hkeep
    by (intros j pl _ Hj Hji Hjk; by rewrite Hoff).
  constructor.
  - intros j m Hj. destruct (decide (j = i)) as [->|Hji].
    { destruct Hnew as [(E1 & E2 & _)|(E1 & _)]; [|congruence]. assert (m = k) as -> by congruence. eauto. }
    destruct (decide (j = k)) as [->|Hjk]; [destruct Hnew as [(_ & E2 & _)|(_ & E2 & _)]; congruence|].
    rewrite Hoff in Hj by done. destruct (H1 j m Hj) as [g' Hg']. exists g'. rewrite Hoff; [done| |].
    + intros ->. destruct Hold as [[? _]|[? _]]; congruence.
    + intros ->. destruct Hold as [[_ ?]|[_ [? ?]]]; congruence.
  - intros m g' j Hm. destruct (decide (m = k)) as [->|Hmk].
    { destruct Hnew as [(E1 & E2 & E3 & E4 & E5)|(_ & E2 & _)]; [|congruence].
      assert (g' = g /\ j = i) as [-> ->] by (split; congruence). split; [done|]. exists pi, q.
      split_and!; [by apply Hal|by apply list_lookup_insert_eq|apply Hai..|done|done|done]. }
    destruct (decide (m = i)) as [->|Hmi]; [destruct Hnew as [(E1 & _)|(E1 & _)]; congruence|].
    rewrite Hoff in Hm by done. destruct (H2 m g' j Hm) as (Hj & x & y & Hx & Hy & Hax & Hr).
    assert (j <> i) as Hji by (intros ->; destruct Hold as [[? _]|[? _]]; congruence).
    assert (j <> k) as Hjk by (intros ->; congruence).
    rewrite Hoff by done. split; [done|]. exists x, y. split_and!; [by apply Hal| |apply Hax..|apply Hr|apply Hr|apply Hr].
    by rewrite list_lookup_insert_ne.
  - intros m x Hm Hs. apply list_lookup_insert_Some in Hm as [(<- & <- & _)|[Hmk Hm]].
    { destruct Hnew as [(_ & E2 & _)|(_ & _ & E3)]; [eauto|done]. }
    destruct (H3 m x Hm Hs) as (g' & j & Hg). exists g', j. rewrite Hoff; [done| |done]. intros ->.
    destruct Hold as [[? _]|[? _]]; congruence.
  - intros j Hj. destruct (decide (j = i)) as [->|Hji]; [destruct Hnew as [(? & _)|(? & _)]; congruence|].
    destruct (decide (j = k)) as [->|Hjk]; [destruct Hnew as [(_ & ? & _)|(_ & ? & _)]; congruence|].
    rewrite Hoff in Hj by done. destruct (H4 j Hj) as (Hne & x & Hx & Hax). split; [done|]. exists x. split; [by apply Hal|done].
Qed.

(** ** Running *)

Definition isrun (t : list (proc X)) (i : nat) : Prop := exists p, t !! i = Some p /\ p_state p = RUNNING.

Lemma running_intro t cpu : (forall i, isrun t i <-> exists c, cpu !! c = Some (Some i)) ->
  (forall c c' i, cpu !! c = Some (Some i) -> cpu !! c' = Some (Some i) -> c = c') -> running t cpu.
Proof.
  intros H1 H2. constructor; [|intros i p Hp Hr; apply H1; by exists p|done].
  intros c i Hc. destruct (proj2 (H1 i)) as (p & Hp & Hr); eauto.
Qed.

Lemma running_iff t cpu i : running t cpu -> isrun t i <-> exists c, cpu !! c = Some (Some i).
Proof. intros [H1 H2 _]. split; [intros (p & Hp & Hr); eauto|intros [c Hc]; by apply (H1 c)]. Qed.

Lemma running_same t t' cpu : running t cpu -> (forall i, isrun t' i <-> isrun t i) -> running t' cpu.
Proof. intros H Hi. apply running_intro; [|apply H]. intros i. rewrite Hi. by apply running_iff. Qed.

Lemma running_off t t' cpu c i : running t cpu -> cpu !! c = Some (Some i) ->
  (forall j, isrun t' j <-> isrun t j /\ j <> i) -> running t' (<[c := None]> cpu).
Proof.
  intros H Hc Hi. pose proof (ru_one _ _ H) as Hone.
  assert (forall d j, <[c := None]> cpu !! d = Some (Some j) <-> d <> c /\ cpu !! d = Some (Some j)) as Hd.
  { intros d j. destruct (decide (d = c)) as [->|]; [|rewrite list_lookup_insert_ne by done; tauto].
    rewrite list_lookup_insert_eq by (by eapply lookup_lt_Some). split; [done|tauto]. }
  apply running_intro.
  - intros j. rewrite Hi, (running_iff _ _ _ H). split.
    + intros [[d Hdj] Hne]. exists d. apply Hd. split; [|done]. intros ->. congruence.
    + intros [d [Hne Hdj]%Hd]. split; [eauto|]. intros ->. by apply Hne, (Hone d c i).
  - intros d d' j [_ H1]%Hd [_ H2]%Hd. eauto.
Qed.

Lemma running_on t t' cpu c i : running t cpu -> cpu !! c = Some None -> ~ isrun t i ->
  (forall j, isrun t' j <-> isrun t j \/ j = i) -> running t' (<[c := Some i]> cpu).
Proof.
  intros H Hc Hni Hi. pose proof (ru_one _ _ H) as Hone. rewrite (running_iff _ _ _ H) in Hni.
  assert (forall d j, <[c := Some i]> cpu !! d = Some (Some j) <-> d = c /\ j = i \/ d <> c /\ cpu !! d = Some (Some j)) as Hd.
  { intros d j. destruct (decide (d = c)) as [->|]; [|rewrite list_lookup_insert_ne by done; tauto].
    rewrite list_lookup_insert_eq by (by eapply lookup_lt_Some). split; [intros [= ->]; tauto|intros [[_ ->]|[? _]]; done]. }
  apply running_intro.
  - intros j. rewrite Hi, (running_iff _ _ _ H). split.
    + intros [[d Hdj]| ->]; [|exists c; apply Hd; by left]. exists d. apply Hd. right. split; [|done]. intros ->. congruence.
    + intros [d [[-> ->]|[Hne Hdj]]%Hd]; [by right|left; eauto].
  - intros d d' j [[-> ->]|[_ H1]]%Hd [[-> H2]|[_ H2]]%Hd; try done; [exfalso; eauto|subst; exfalso; eauto|eauto].
Qed.

(** One entry changes. *)
Lemma isrun_insert (t : list (proc X)) i q j : (i < length t)%nat ->
  isrun (<[i := q]> t) j <-> (j = i /\ p_state q = RUNNING) \/ (j <> i /\ isrun t j).
Proof.
  intros Hi. unfold isrun. destruct (decide (j = i)) as [->|Hne].
  - rewrite list_lookup_insert_eq by done. split; [intros (p & [= <-] & Hr); by left|].
    intros [[_ Hr]|[? _]]; [by exists q|done].
  - rewrite list_lookup_insert_ne by done. split; [by right|]. by intros [[? _]|[_ ?]].
Qed.

Lemma isrun_known (t : list (proc X)) i p : t !! i = Some p -> isrun t i <-> p_state p = RUNNING.
Proof. intros Hp. split; [intros (q & Hq & Hr); congruence|by exists p]. Qed.

(** ** Sleeping *)

(** What [sl_sleep] asks of a sleeper. *)
Definition sleeper (t : list (proc X)) (w : list place) (i : nat) (p : proc X) : Prop :=
  (w !! i = Some InWait /\ p_chan p = ChanProc i /\ p_killed p = 0 /\
   (exists k q, t !! k = Some q /\ p_parent q = Some i) /\
   (forall k q, t !! k = Some q -> p_parent q = Some i -> p_state q <> ZOMBIE)) \/
  (w !! i = Some InSleep /\ exists a, p_chan p = ChanAddr a).

Lemma sleeping_step t t' w w' : sleeping t w -> same_lives t t' -> length w' = length w ->
  (forall i p', t' !! i = Some p' -> p_state p' = SLEEPING ->
     (exists p, t !! i = Some p /\ p_state p = SLEEPING /\ p_chan p' = p_chan p /\ p_killed p' = p_killed p /\ w' !! i = w !! i) \/
     sleeper t w' i p') ->
  (forall i p', t' !! i = Some p' -> p_state p' = UNUSED \/ p_state p' = ZOMBIE -> w' !! i = w !! i) ->
  sleeping t' w'.
Proof.
  intros [Hlen Hsl Hid] Hl Hw Hnew Hidle. constructor.
  - rewrite Hw, Hlen. symmetry. apply Hl.
  - intros i p' Hp' Hs. assert (sleeper t w' i p') as Hsi.
    { destruct (Hnew i p' Hp' Hs) as [(p & Hp & Hps & Hc & Hk & Ew)|]; [|done].
      unfold sleeper. rewrite Ew, Hc, Hk. by apply Hsl. }
    destruct Hsi as [(H1 & H2 & H3 & (k & q & Hq & Hqp) & H5)|H]; [left|by right]. split_and!; [done|done|done| |].
    + destruct (lives_lookup _ _ _ _ Hl Hq) as (q' & Hq' & (_ & E2 & _)). exists k, q'. split; congruence.
    + intros k' q' Hq' Hqp'. destruct (lives_lookup' _ _ _ _ Hl Hq') as (q0 & Hq0 & Hs0).
      rewrite (life_state q0 q') by (done || unfold awake; intuition discriminate).
      apply (H5 k' q0 Hq0). destruct Hs0 as (_ & <- & _). done.
  - intros i p' Hp' Hu. rewrite (Hidle i p' Hp' Hu). destruct (lives_lookup' _ _ _ _ Hl Hp') as (p & Hp & Hs).
    apply (Hid i p Hp). destruct Hu as [Hu|Hu]; [left|right];
      (apply (life_state p p'); [done|unfold awake; intuition discriminate|done]).
Qed.

Lemma insert_lives t i p q : t !! i = Some p -> same_life p q -> same_lives t (<[i := q]> t).
Proof.
  intros Hp Hs. split; [by rewrite length_insert|]. intros j x x' Hx Hx'.
  apply list_lookup_insert_Some in Hx' as [(<- & <- & _)|[Hne Hx']]; [by assert (x = p) as -> by congruence|].
  assert (x' = x) as -> by congruence. split_and!; [done|done|by left].
Qed.

(** ** Steps that keep every life *)

(** The place of [i] stays, or was and is none of those of [forking]. *)
Definition same_fork (i : nat) (w w' : list place) : Prop :=
  forall pl, in_fork pl = true -> w' !! i = Some pl <-> w !! i = Some pl.

Lemma same_fork_insert i w pl pl' : w !! i = Some pl' -> in_fork pl = false -> in_fork pl' = false -> same_fork i w (<[i := pl]> w).
Proof.
  intros Hi Hp Hp' x Hx. rewrite list_lookup_insert_eq by (by eapply lookup_lt_Some). rewrite Hi.
  split; intros [= ->]; congruence.
Qed.

Lemma local_step (s s' : st) w w' i p q : table_ok (s, w) -> ps_proc s !! i = Some p ->
  ps_proc s' = <[i := q]> (ps_proc s) -> ps_nextpid s' = ps_nextpid s -> ps_init s' = ps_init s ->
  same_life p q -> running (ps_proc s') (ps_cpu s') ->
  length w' = length w -> (forall j, j <> i -> w' !! j = w !! j) -> same_fork i w w' ->
  (p_state q = SLEEPING ->
     (p_state p = SLEEPING /\ p_chan q = p_chan p /\ p_killed q = p_killed p /\ w' !! i = w !! i) \/ sleeper (ps_proc s) w' i q) ->
  (p_state q = UNUSED \/ p_state q = ZOMBIE -> w' !! i = w !! i) ->
  table_ok (s', w').
Proof.
  intros [Htr Hru Hsl Hfk] Hp Et En Ei Hs Hru' Hlen Hw Hsf Hq Hidle. cbn [fst snd] in *.
  pose proof (insert_lives _ _ _ _ Hp Hs) as Hl. rewrite <- Et in Hl. constructor; cbn [fst snd].
  - rewrite En, Ei. by eapply tree_lives.
  - done.
  - eapply sleeping_step; [exact Hsl|exact Hl|done| |].
    + intros j p' Hj Hjs. rewrite Et in Hj. apply list_lookup_insert_Some in Hj as [(<- & <- & _)|[Hne Hj]].
      * destruct (Hq Hjs) as [(?&?&?&?)|]; [left; exists p; by split_and!|by right].
      * left. exists p'. split_and!; try done. by apply Hw.
    + intros j p' Hj Hjs. rewrite Et in Hj. apply list_lookup_insert_Some in Hj as [(<- & <- & _)|[Hne Hj]]; [auto|by apply Hw].
  - rewrite Ei. eapply forking_lives; [exact Hfk|exact Hl|]. intros j pl Hpl.
    destruct (decide (j = i)) as [->|Hne]; [by apply Hsf|by rewrite Hw].
Qed.

(** The process on a CPU. *)
Lemma runs_proc s w c i pl : table_ok (s, w) -> runs s w c i pl ->
  exists p, ps_proc s !! i = Some p /\ p_state p = RUNNING.
Proof. intros [_ Hru _ _] [Hc _]. by apply (ru_cpu _ _ Hru c). Qed.

Lemma sched_ok c s s' w : table_ok (s, w) -> ps_cpu s !! c = Some None -> scheduler_round c s = Ok (tt, s') -> table_ok (s', w).
Proof.
  intros Hok Hc H. unfold scheduler_round in H. prun H. prun H. prun H. set (pos := ps_pos s !!! c) in *.
  destruct (ps_proc s !! pos) as [p|] eqn:Hp; [|done]. destruct (decide _) as [Hr|].
  - prun H. injection H as <-. rewrite (alter_known _ _ _ _ Hp). pose proof (lookup_lt_Some _ _ _ Hp) as Hlt.
    eapply (local_step s _ w w pos p); [done|done|reflexivity|done|done| | |done|done|done|done|by intros [?|?]].
    + split_and!; [done|done|right]. rewrite Hr. unfold awake; cbn; tauto.
    + cbn. eapply running_on; [apply Hok|done|rewrite (isrun_known _ _ _ Hp); congruence|].
      intros j. cbn. rewrite isrun_insert by done. cbn. destruct (decide (j = pos)); naive_solver.
  - injection H as <-. destruct Hok as [H1 H2 H3 H4]. by constructor.
Qed.

Lemma yield_ok c i pl s s' w : table_ok (s, w) -> runs s w c i pl -> yield c s = Ok (tt, s') -> table_ok (s', w).
Proof.
  intros Hok Hr H. destruct (runs_proc _ _ _ _ _ Hok Hr) as (p & Hp & Hs). destruct Hr as [Hc Hw].
  unfold yield in H. prun H as i' Hi. assert (i' = i) as -> by congruence. prun H. apply sched_table in H as ->.
  rewrite (alter_known _ _ _ _ Hp). pose proof (lookup_lt_Some _ _ _ Hp) as Hlt.
  eapply (local_step s _ w w i p); [done|done|reflexivity|done|done| | |done|done|done|done|by intros [?|?]].
  - split_and!; [done|done|right]. rewrite Hs. unfold awake; cbn; tauto.
  - cbn. eapply running_off; [apply Hok|done|]. intros j. cbn. rewrite isrun_insert by done. cbn. naive_solver.
Qed.

(** A process goes to sleep. *)
Lemma asleep_ok c i s ch w pl p : table_ok (s, w) -> ps_cpu s !! c = Some (Some i) -> ps_proc s !! i = Some p ->
  same_fork i w (<[i := pl]> w) ->
  sleeper (ps_proc s) (<[i := pl]> w) i (set_state SLEEPING (set_chan ch p)) ->
  table_ok (put_cpu c None (put_procs (<[i := set_state SLEEPING (set_chan ch p)]> (ps_proc s)) s), <[i := pl]> w).
Proof.
  intros Hok Hc Hp Hsf Hsl. pose proof (lookup_lt_Some _ _ _ Hp) as Hlt.
  destruct (ru_cpu _ _ (tb_running _ Hok) c i Hc) as (p' & Hp' & Hs). assert (p' = p) as -> by (cbn in Hp'; congruence).
  eapply (local_step s _ w _ i p); [done|done|reflexivity|done|done| | |by rewrite length_insert| |done|by right|by intros [?|?]].
  - split_and!; [done|done|right]. rewrite Hs. unfold awake; cbn; tauto.
  - cbn. eapply running_off; [apply Hok|done|]. intros j. cbn. rewrite isrun_insert by done. cbn. naive_solver.
  - intros j Hj. by rewrite list_lookup_insert_ne by done.
Qed.

Lemma place_lt s w c i pl : table_ok (s, w) -> runs s w c i pl -> (i < length w)%nat.
Proof. intros _ [_ Hw]. by eapply lookup_lt_Some. Qed.

Lemma sleep_ok c i a s s' w : table_ok (s, w) -> runs s w c i AtUser -> sleep_on c (ChanAddr a) s = Ok (tt, s') ->
  table_ok (s', <[i := InSleep]> w).
Proof.
  intros Hok Hr H. apply sleep_on_table in H as (i' & p & Hc & Hp & ->).
  assert (i' = i) as -> by (destruct Hr; congruence). apply asleep_ok; [done|done|done|by eapply same_fork_insert; [apply Hr|..]|]. right.
  rewrite list_lookup_insert_eq by (by eapply place_lt). split; [done|]. by exists a.
Qed.

(** A running process changes neither state, pid nor parent. *)
Lemma run_local c i s s' w w' p q : table_ok (s, w) -> ps_cpu s !! c = Some (Some i) -> ps_proc s !! i = Some p ->
  ps_proc s' = <[i := q]> (ps_proc s) -> ps_nextpid s' = ps_nextpid s -> ps_init s' = ps_init s ->
  ps_cpu s' = ps_cpu s -> p_pid q = p_pid p -> p_parent q = p_parent p -> p_state q = p_state p ->
  length w' = length w -> (forall j, j <> i -> w' !! j = w !! j) -> same_fork i w w' -> table_ok (s', w').
Proof.
  intros Hok Hc Hp Et En Ei Ec Epid Epar Est Hlen Hw Hsf. pose proof (lookup_lt_Some _ _ _ Hp) as Hlt.
  destruct (ru_cpu _ _ (tb_running _ Hok) c i Hc) as (p' & Hp' & Hs). assert (p' = p) as -> by (cbn in Hp'; congruence).
  eapply (local_step s _ w _ i p); [done|done|exact Et|done|done| | |done|done|done|congruence|rewrite Est, Hs; by intros [?|?]].
  - split_and!; [done|done|by left].
  - rewrite Et, Ec. eapply running_same; [apply Hok|]. intros j. cbn. rewrite isrun_insert, Est by done.
    destruct (decide (j = i)) as [->|]; [rewrite (isrun_known _ _ _ Hp); tauto|tauto].
Qed.

Lemma awake_ok c i s s' w : table_ok (s, w) -> runs s w c i InSleep -> sleep_return c s = Ok (tt, s') ->
  table_ok (s', <[i := AtUser]> w).
Proof.
  intros Hok Hr H. destruct (runs_proc _ _ _ _ _ Hok Hr) as (p & Hp & Hs). destruct Hr as [Hc Hw].
  unfold sleep_return in H. prun H as i' Hi. assert (i' = i) as -> by congruence. injection H as <-.
  eapply (run_local c i s _ w _ p); [done|done|done|cbn; by rewrite (alter_known _ _ _ _ Hp)|done..| | |].
  - by rewrite length_insert.
  - intros j Hj. by rewrite list_lookup_insert_ne.
  - by eapply same_fork_insert.
Qed.

Lemma sbrk_ok c i n s s' r w : table_ok (s, w) -> runs s w c i AtUser -> sbrk_proc kend c n s = Ok (r, s') -> table_ok (s', w).
Proof.
  intros Hok [Hc Hw] H. unfold sbrk_proc in H. prun H as i' Hi. assert (i' = i) as -> by congruence.
  prun H as p Hp. prun H as r' Hr. prun H. injection H as <- <-.
  eapply (run_local c i s _ w _ p); [done|done|done|cbn; by rewrite (alter_known _ _ _ _ Hp)|done..].
Qed.

Lemma find_pid_spec (t : list (proc X)) pid : forall i j, find_pid t i pid = Some j ->
  (i <= j)%nat /\ exists p, t !! (j - i)%nat = Some p /\ p_pid p = pid.
Proof.
  induction t as [|p t IH]; intros i j; [done|]. cbn [find_pid]. destruct (p_pid p =? pid) eqn:Ep.
  - intros [= ->]. rewrite Nat.sub_diag. split; [lia|]. exists p. split; [done|]. by apply Z.eqb_eq.
  - intros (Hle & q & Hq & Hu)%IH. split; [lia|]. exists q. split; [|done].
    by replace (j - i)%nat with (S (j - S i))%nat by lia.
Qed.

(** [kill] marks a process and wakes it. *)
Lemma kill_table pid (s s' : st) r : kill pid s = Ok (r, s') ->
  (r = -1 /\ s' = s) \/
  exists i p q, r = 0 /\ ps_proc s !! i = Some p /\ p_pid p = pid /\ s' = put_procs (<[i := q]> (ps_proc s)) s /\
    q = set_killed 1 (if decide (p_state p = SLEEPING) then set_state RUNNABLE p else p).
Proof.
  unfold kill. intros H. prun H. destruct (find_pid _ _ _) as [i|] eqn:Ef; [|left; by injection H as <- <-].
  apply find_pid_spec in Ef as (_ & p & Hp & Hpid). rewrite Nat.sub_0_r in Hp. right.
  pose proof (lookup_lt_Some _ _ _ Hp) as Hlt. prun H. rewrite (alter_known _ _ _ _ Hp) in H.
  prun H as p' Hp'. rewrite list_lookup_insert_eq in Hp' by done. injection Hp' as <-.
  cbn in H. exists i, p. destruct (decide (p_state p = SLEEPING)) as [Hs|Hs]; eexists.
  - rewrite bool_decide_true in H by done. unfold when in H. prun H. injection H as <- <-. cbn.
    rewrite alter_insert by done. by split_and!.
  - rewrite bool_decide_false in H by done. unfold when in H. prun H. injection H as <- <-. by split_and!.
Qed.

Lemma kill_ok pid s s' r w : table_ok (s, w) -> kill pid s = Ok (r, s') -> table_ok (s', w).
Proof.
  intros Hok [[-> ->]|(i & p & q & -> & Hp & _ & -> & Eq)]%kill_table; [done|].
  pose proof (lookup_lt_Some _ _ _ Hp) as Hlt.
  assert (p_state q = p_state p /\ p_state p <> SLEEPING \/ p_state p = SLEEPING /\ p_state q = RUNNABLE) as Hs
    by (subst q; destruct (decide _); cbn; auto).
  eapply (local_step s _ w w i p q); [done|done|reflexivity|done|done| | |done|done|done| |].
  - split_and!; [by subst q; destruct (decide _)|by subst q; destruct (decide _)|].
    destruct Hs as [[? _]|[-> ->]]; [by left|right]. unfold awake; tauto.
  - cbn. eapply running_same; [apply Hok|]. intros j. cbn. rewrite isrun_insert by done.
    destruct (decide (j = i)) as [->|]; [|tauto]. rewrite (isrun_known _ _ _ Hp).
    destruct Hs as [[-> _]|[-> ->]]; naive_solver.
  - intros Hq. destruct Hs as [[? ?]|[_ ?]]; congruence.
  - done.
Qed.

Lemma wakeup_lives ch t : same_lives t (wake ch <$> t).
Proof.
  split; [by rewrite length_fmap|]. intros i p p' Hp Hp'. rewrite list_lookup_fmap, Hp in Hp'. injection Hp' as <-.
  unfold wake. destruct (decide _) as [[Hs _]|]; [|split_and!; auto]. split_and!; [done|done|right]. cbn.
  unfold awake; tauto.
Qed.

Lemma isrun_wake ch t i : isrun (wake ch <$> t) i <-> isrun t i.
Proof.
  unfold isrun. rewrite list_lookup_fmap. destruct (t !! i) as [p|]; cbn; [|split; by intros (? & ? & _)].
  assert (p_state (wake ch p) = RUNNING <-> p_state p = RUNNING) as Hw.
  { unfold wake. destruct (decide _) as [[Hs _]|]; [|done]. cbn. split; congruence. }
  split; intros (q & [= <-] & Hq); eexists; (split; [reflexivity|]); by apply Hw.
Qed.

Lemma wakeup_ok ch s s' w : table_ok (s, w) -> wakeup ch s = Ok (tt, s') -> table_ok (s', w).
Proof.
  intros [H1 H2 H3 H4] H. injection H as <-. constructor; cbn in *.
  - eapply tree_lives; [done|apply wakeup_lives].
  - eapply running_same; [done|]. intros i. apply isrun_wake.
  - eapply sleeping_step; [done|apply wakeup_lives|done| |done].
    intros i p' Hp' Hs. rewrite list_lookup_fmap in Hp'. destruct (ps_proc s !! i) as [p|] eqn:Hp; [|done].
    injection Hp' as <-. left. exists p. unfold wake in *. destruct (decide _); [done|]. by split_and!.
  - by eapply forking_lives; [done|apply wakeup_lives|].
Qed.

(** ** Calls of other files, exec, and the memory of the program *)

Lemma call_ok c i num s s' r w : table_ok (s, w) -> runs s w c i AtUser -> call_proc num c s = Ok (r, s') -> table_ok (s', w).
Proof.
  intros Hok [Hc Hw] H. unfold call_proc in H. prun H as i' Hi. assert (i' = i) as -> by congruence.
  prun H as p Hp. prun H as r' Hr. prun H. injection H as <- <-.
  eapply (run_local c i s _ w _ p); [done|done|done|cbn; by rewrite (alter_known _ _ _ _ Hp)|done..].
Qed.

Lemma exec_ok c i path argv s s' r w : table_ok (s, w) -> runs s w c i AtUser -> exec_proc path argv c s = Ok (r, s') -> table_ok (s', w).
Proof.
  intros Hok [Hc Hw] H. unfold exec_proc in H. prun H as i' Hi. assert (i' = i) as -> by congruence.
  prun H as p Hp. prun H as r' Hr. prun H. injection H as <- <-.
  eapply (run_local c i s _ w _ p); [done|done|done|cbn; by rewrite (alter_known _ _ _ _ Hp)|done..].
Qed.

Lemma env_ok s e w : table_ok (s, w) -> table_ok (put_env e s, w).
Proof. intros [H1 H2 H3 H4]. by constructor. Qed.

Lemma store_ok c va b s s' r w : table_ok (s, w) -> user_store c va b s = Ok (r, s') -> table_ok (s', w).
Proof.
  intros Hok H. unfold user_store in H. prun H as i Hi. prun H as p Hp. prun H. destruct (_ && _); [|by injection H as <- <-].
  prun H. injection H as <- <-. by apply env_ok.
Qed.

Lemma save_ok c frame s s' u w : table_ok (s, w) -> save_regs c frame s = Ok (u, s') -> table_ok (s', w).
Proof.
  intros Hok H. unfold save_regs in H. prun H as i Hi. prun H as p Hp. apply memory_inv in H as (k & _ & ->). by apply env_ok.
Qed.

(** ** fork *)

(** An entry that is no settled process gets a new pid or keeps its own, or becomes a
    child of a living process. *)
Lemma tree_entry t n n' init k p q : tree t n init -> t !! k = Some p -> ~ settled p -> n <= n' ->
  (in_use q -> in_use p /\ p_pid q = p_pid p \/ p_pid q = n /\ n < n') -> (p_state q = UNUSED -> p_parent q = None) ->
  (settled q -> exists j x, p_parent q = Some j /\ t !! j = Some x /\ alive x /\ p_pid x < p_pid q) ->
  tree (<[k := q]> t) n' init.
Proof.
  intros [H2 H3 H4 H5 H6] Hp Hns Hn Hpid Hun Hset. pose proof (lookup_lt_Some _ _ _ Hp) as Hlt.
  assert (forall j x, t !! j = Some x -> alive x -> <[k := q]> t !! j = Some x) as Hal.
  { intros j x Hj (Hx1 & _ & Hx2). rewrite list_lookup_insert_ne; [done|]. intros ->. apply Hns. split; congruence. }
  assert (0 < n) as Hn0 by (destruct H2 as (i & x & _ & Hx & Ha & _); destruct (H3 i x Hx (proj1 Ha)); lia).
  constructor.
  - destruct H2 as (i & x & -> & Hx & Ha & Hx1 & Hx2). exists i, x. split_and!; [done|by apply Hal|apply Ha..|done|done].
  - intros j x Hj Hx. apply list_lookup_insert_Some in Hj as [(<- & <- & _)|[_ Hj]].
    + destruct (Hpid Hx) as [[Hu ->]|[-> ?]]; [destruct (H3 _ _ Hp Hu)|]; lia.
    + destruct (H3 j x Hj Hx). lia.
  - assert (forall j x, j <> k -> t !! j = Some x -> in_use x -> in_use q -> p_pid x <> p_pid q) as Hdiff.
    { intros j x Hne Hj Hx Hq Exq. destruct (Hpid Hq) as [[Hu Eq]|[Eq _]].
      - apply Hne, (H4 j k x p); congruence || done.
      - destruct (H3 j x Hj Hx). lia. }
    intros j m x y Hj Hm Hx Hy Exy. apply list_lookup_insert_Some in Hj as [(<- & <- & _)|[Hj1 Hj]];
      apply list_lookup_insert_Some in Hm as [(<- & <- & _)|[Hm1 Hm]]; [done| | |eauto].
    + exfalso. by apply (Hdiff m y (not_eq_sym Hm1) Hm Hy Hx).
    + exfalso. by apply (Hdiff j x (not_eq_sym Hj1) Hj Hx Hy).
  - intros j x Hj Hx. apply list_lookup_insert_Some in Hj as [(<- & <- & _)|[_ Hj]]; eauto.
  - intros j x Hj Hx Hinit. apply list_lookup_insert_Some in Hj as [(<- & <- & _)|[_ Hj]].
    + destruct (Hset Hx) as (i & y & E1 & E2 & Ha & E3). exists i, y. split_and!; [done|by apply Hal|apply Ha..|done].
    + destruct (H6 j x Hj Hx Hinit) as (i & y & E1 & E2 & Ha & E3). exists i, y. split_and!; [done|by apply Hal|apply Ha..|done].
Qed.

(** The entry is nobody's child, or the child of a process that does not sleep. *)
Lemma sleeping_entry t w w' i pi k p q : sleeping t w -> t !! i = Some pi -> p_state pi = RUNNING -> t !! k = Some p -> ~ settled p ->
  (p_state q = UNUSED \/ p_state q = EMBRYO \/ p_state q = RUNNABLE) -> (p_parent p = None \/ p_parent p = Some i) ->
  length w' = length w -> (forall j, j <> i -> j <> k -> w' !! j = w !! j) ->
  (p_state q = UNUSED -> w' !! k = Some AtUser) -> sleeping (<[k := q]> t) w'.
Proof.
  intros [Hlen Hsl Hid] Hpi Hrun Hp Hns Hq Hpar Hw Hoff Hqu. constructor; [by rewrite length_insert, Hw| |].
  - intros j x Hj Hs. apply list_lookup_insert_Some in Hj as [(<- & <- & _)|[Hne Hj]]; [intuition congruence|].
    assert (j <> i) as Hji by congruence. rewrite Hoff by done.
    destruct (Hsl j x Hj Hs) as [(E1 & E2 & E3 & (m & y & Hm & Hy) & E5)|]; [left|by right].
    split_and!; [done|done|done| |].
    + exists m, y. split; [|done]. rewrite list_lookup_insert_ne; [done|]. intros ->.
      assert (y = p) as -> by congruence. destruct Hpar; congruence.
    + intros m' y' Hm' Hy'. apply list_lookup_insert_Some in Hm' as [(<- & <- & _)|[_ Hm']]; [intuition congruence|eauto].
  - intros j x Hj Hx. apply list_lookup_insert_Some in Hj as [(<- & <- & _)|[Hne Hj]].
    + destruct Hx as [Hx|Hx]; [auto|intuition congruence].
    + rewrite Hoff; [by eapply Hid| |done]. intros ->. assert (x = pi) as -> by congruence. intuition congruence.
Qed.

(** One step of [fork]: process [i] changes the entry [k] of its child. *)
Lemma entry_ok c i k (s s' : st) w w' p q g : table_ok (s, w) -> ps_cpu s !! c = Some (Some i) -> ps_proc s !! k = Some p -> ~ settled p ->
  ps_proc s' = <[k := q]> (ps_proc s) -> ps_init s' = ps_init s -> ps_cpu s' = ps_cpu s ->
  (w !! i = Some AtUser /\ w !! k = Some AtUser /\ p_state p = UNUSED \/ w !! i = Some (Forking k) /\ exists g, w !! k = Some (Newborn g i)) ->
  (w' !! i = Some (Forking k) /\ w' !! k = Some (Newborn g i) /\ p_state q = EMBRYO /\ p_parent q = child_parent g i \/
   w' !! i = Some AtUser /\ w' !! k = Some AtUser /\
     (p_state q = UNUSED /\ p_parent q = None \/ p_state q = RUNNABLE /\ p_parent q = Some i)) ->
  length w' = length w -> (forall j, j <> i -> j <> k -> w' !! j = w !! j) ->
  (ps_nextpid s' = ps_nextpid s /\ p_pid q = p_pid p /\ in_use p \/ ps_nextpid s' = ps_nextpid s + 1 /\ p_pid q = ps_nextpid s) ->
  table_ok (s', w').
Proof.
  intros Hok Hc Hp Hns Et Ei Ec Hold Hnew Hlen Hoff Hpid. pose proof Hok as [Htr Hru Hsl Hfk]. cbn [fst snd] in *.
  destruct (ru_cpu _ _ Hru c i Hc) as (pi & Hpi & Hrun). assert (alive pi) as Ha by (split_and!; congruence).
  assert (p_pid pi < p_pid q) as Hless.
  { destruct Hpid as [(_ & -> & Hu)|(_ & ->)]; [|by apply (tr_pid _ _ _ Htr i pi Hpi), Ha].
    destruct Hold as [(_ & _ & ?)|[_ [g' Hg]]]; [done|].
    destruct (fk_child _ _ _ Hfk k g' i Hg) as (_ & x & y & Hx & Hy & _ & _ & Hlt & _). congruence. }
  assert (p_parent p = None \/ p_parent p = Some i) as Hpar.
  { destruct Hold as [(_ & _ & Hu)|[_ [g' Hg]]]; [left; by eapply tr_unused|].
    destruct (fk_child _ _ _ Hfk k g' i Hg) as (_ & x & y & _ & Hy & _ & _ & _ & Hyp). assert (y = p) as -> by congruence.
    rewrite Hyp. destruct g'; cbn; auto. }
  constructor; cbn [fst snd]; rewrite Et, ?Ei, ?Ec.
  - eapply (tree_entry _ (ps_nextpid s) _ _ k p q); [done|done|done|destruct Hpid; lia| | |].
    + intros _. destruct Hpid as [(_ & ? & ?)|(? & ?)]; [by left|right; lia].
    + intros Hu. destruct Hnew as [(_ & _ & ? & _)|(_ & _ & [[_ ?]|[? _]])]; congruence.
    + intros [Hu He]. destruct Hnew as [(_ & _ & ? & _)|(_ & _ & [[? _]|[_ ?]])]; [done|done|]. by exists i, pi.
  - eapply running_same; [done|]. intros j. rewrite isrun_insert by (by eapply lookup_lt_Some).
    destruct (decide (j = k)) as [->|]; [|tauto]. rewrite (isrun_known _ _ _ Hp). unfold settled in Hns.
    destruct Hnew as [(_ & _ & -> & _)|(_ & _ & [[-> _]|[-> _]])]; (split; [by intros [[_ ?]|[? _]]|intros Er; rewrite Er in Hns; destruct Hns; done]).
  - eapply (sleeping_entry _ w w' i pi k p q); try done.
    + destruct Hnew as [(_ & _ & ? & _)|(_ & _ & [[? _]|[? _]])]; auto.
    + intros Hu. destruct Hnew as [(_ & _ & ? & _)|(_ & ? & _)]; congruence.
  - eapply (forking_entry _ w w' _ i k pi p q g); [done|done|done|done| | |done|].
    + intros (H1 & _ & H2). by apply Hns.
    + destruct Hold as [(? & ? & _)|?]; auto.
    + destruct Hnew as [(? & ? & ? & ?)|(? & ? & Hq)]; [left; by split_and!|right]. split_and!; [done|done|]. intuition congruence.
Qed.

(** The places of [i] and [k] when the fork of [k] ends. *)
Abbreviation unfork i k w := (<[k := AtUser]> (<[i := AtUser]> w)).

Lemma unfork_lookup i k (w : list place) : i <> k -> (i < length w)%nat -> (k < length w)%nat ->
  unfork i k w !! i = Some AtUser /\ unfork i k w !! k = Some AtUser /\ length (unfork i k w) = length w /\
  forall j, j <> i -> j <> k -> unfork i k w !! j = w !! j.
Proof.
  intros Hne Hi Hk. rewrite list_lookup_insert_ne, !list_lookup_insert_eq by (rewrite ?length_insert; done).
  split_and!; [done|done|by rewrite !length_insert|]. intros j Hji Hjk. by rewrite !list_lookup_insert_ne.
Qed.

Lemma take_ok c i s s' r w : table_ok (s, w) -> runs s w c i AtUser -> alloc_entry s = Ok (r, s') ->
  table_ok (s', match r with None => w | Some k => <[k := Newborn Bare i]> (<[i := Forking k]> w) end).
Proof.
  intros Hok Hr [[-> ->]|(k & p & -> & _ & Hp & Hu & Hn & ->)]%alloc_entry_table; [done|].
  destruct (runs_proc _ _ _ _ _ Hok Hr) as (pi & Hpi & Hs). assert (i <> k) as Hik by congruence. destruct Hr as [Hc Hw].
  pose proof (sl_idle _ _ (tb_sleeping _ Hok) k p Hp (or_introl Hu)) as Hwk. cbn in Hwk.
  pose proof (lookup_lt_Some _ _ _ Hw) as Hlw. pose proof (lookup_lt_Some _ _ _ Hwk) as Hlk.
  eapply (entry_ok c i k s _ w _ p _ Bare); [done|done|done|by intros [? _]|reflexivity|done|done|left; by split_and!|left| | |right; by split_and!].
  - rewrite list_lookup_insert_ne, !list_lookup_insert_eq by (rewrite ?length_insert; done).
    split_and!; [done|done|done|]. cbn. by apply (tr_unused _ _ _ (tb_tree _ Hok) k).
  - by rewrite !length_insert.
  - intros j Hji Hjk. by rewrite !list_lookup_insert_ne.
Qed.

(** A child in the making. *)
Lemma newborn_proc s w c i k g : table_ok (s, w) -> runs s w c i (Forking k) -> w !! k = Some (Newborn g i) ->
  i <> k /\ (i < length w)%nat /\ (k < length w)%nat /\
  exists n, ps_proc s !! k = Some n /\ p_state n = EMBRYO /\ ~ settled n /\ in_use n /\ p_parent n = child_parent g i.
Proof.
  intros Hok [_ Hw] Hk. destruct (fk_child _ _ _ (tb_forking _ Hok) k g i Hk) as (_ & p & q & Hp & Hq & Ha & Hs & _ & Hpar).
  cbn in *. split_and!; [congruence|by eapply lookup_lt_Some|by eapply lookup_lt_Some|]. exists q. split_and!; try done.
  - intros [_ ?]. done.
  - unfold in_use. congruence.
Qed.

Lemma stack_ok c i k s s' r w : table_ok (s, w) -> runs s w c i (Forking k) -> w !! k = Some (Newborn Bare i) ->
  alloc_stack trapret forkret k s = Ok (r, s') ->
  table_ok (s', match r with None => unfork i k w | Some _ => <[k := Newborn Stacked i]> w end).
Proof.
  intros Hok Hr Hk H. destruct (newborn_proc _ _ _ _ _ _ Hok Hr Hk) as (Hik & Hli & Hlk & n & Hn & Hs & Hns & Hu & Hpar).
  pose proof Hr as [Hc Hw]. destruct (unfork_lookup i k w Hik Hli Hlk) as (U1 & U2 & U3 & U4).
  eapply alloc_stack_table in H as (q & (Et & En & Ei & Ec & _) & (E1 & _) & E4 & _ & Hq); [|done].
  eapply (entry_ok c i k s s' w _ n q Stacked); [done|done|done|done|done|done|done|right; by eauto| | | |left; by split_and!].
  - destruct Hq as [[-> Hq]|[-> Hq]].
    + right. split_and!; [done|done|]. left. split; [done|]. by rewrite E4, Hpar.
    + left. rewrite list_lookup_insert_ne, list_lookup_insert_eq by done. split_and!; [done|done|congruence|by rewrite E4, Hpar].
  - destruct r; [by rewrite length_insert|done].
  - intros j Hji Hjk. destruct r; [by rewrite list_lookup_insert_ne|by apply U4].
Qed.

Lemma copy_ok c i k s s' (r : bool) w : table_ok (s, w) -> runs s w c i (Forking k) -> w !! k = Some (Newborn Stacked i) ->
  fork_memory kend data i k s = Ok (r, s') ->
  table_ok (s', if r then <[k := Newborn Copied i]> w else unfork i k w).
Proof.
  intros Hok Hr Hk H. destruct (newborn_proc _ _ _ _ _ _ Hok Hr Hk) as (Hik & Hli & Hlk & n & Hn & Hs & Hns & Hu & Hpar).
  pose proof Hr as [Hc Hw]. destruct (unfork_lookup i k w Hik Hli Hlk) as (U1 & U2 & U3 & U4).
  eapply fork_memory_table in H as (q & (Et & En & Ei & Ec & _) & (E1 & _) & Hq); [|done].
  eapply (entry_ok c i k s s' w _ n q Copied); [done|done|done|done|done|done|done|right; by eauto| | | |left; by split_and!].
  - destruct Hq as [(-> & Hq & Hp)|(-> & Hq & Hp)].
    + right. split_and!; [done|done|]. left. split; [done|]. by rewrite Hp, Hpar.
    + left. rewrite list_lookup_insert_ne, list_lookup_insert_eq by done. split_and!; [done|done|congruence|done].
  - destruct r; [by rewrite length_insert|done].
  - intros j Hji Hjk. destruct r; [by rewrite list_lookup_insert_ne|by apply U4].
Qed.

Lemma files_ok c i k s s' w : table_ok (s, w) -> runs s w c i (Forking k) -> w !! k = Some (Newborn Copied i) ->
  fork_descriptors i k s = Ok (tt, s') -> table_ok (s', <[k := Newborn Filled i]> w).
Proof.
  intros Hok Hr Hk H. destruct (newborn_proc _ _ _ _ _ _ Hok Hr Hk) as (Hik & Hli & Hlk & n & Hn & Hs & Hns & Hu & Hpar).
  pose proof Hr as [Hc Hw]. eapply fork_descriptors_table in H as (q & (Et & En & Ei & Ec & _) & (E1 & _) & Hq & Hp); [|done].
  eapply (entry_ok c i k s s' w _ n q Filled); [done|done|done|done|done|done|done|right; by eauto|left| | |left; by split_and!].
  - rewrite list_lookup_insert_ne, list_lookup_insert_eq by done. split_and!; [done|done|congruence|by rewrite Hp, Hpar].
  - by rewrite length_insert.
  - intros j Hji Hjk. by rewrite list_lookup_insert_ne.
Qed.

Lemma ready_ok c i k s s' r w : table_ok (s, w) -> runs s w c i (Forking k) -> w !! k = Some (Newborn Filled i) ->
  fork_ready k s = Ok (r, s') -> table_ok (s', unfork i k w).
Proof.
  intros Hok Hr Hk H. destruct (newborn_proc _ _ _ _ _ _ Hok Hr Hk) as (Hik & Hli & Hlk & n & Hn & Hs & Hns & Hu & Hpar).
  pose proof Hr as [Hc Hw]. destruct (unfork_lookup i k w Hik Hli Hlk) as (U1 & U2 & U3 & U4).
  eapply fork_ready_table in H as [_ ->]; [|done].
  eapply (entry_ok c i k s _ w _ n _ Filled); [done|done|done|done|reflexivity|done|done|right; by eauto|right|done|done|left; by split_and!].
  split_and!; [done|done|]. right. by split.
Qed.

(** The whole of [fork], undisturbed. *)
Lemma fork_ok c i s s' r w : table_ok (s, w) -> runs s w c i AtUser ->
  fork kend data trapret forkret c s = Ok (r, s') -> table_ok (s', w).
Proof.
  intros Hok Hr H. unfold fork in H. prun H as cur Hc. assert (cur = i) as -> by (destruct Hr; congruence).
  apply bind_Ok_inv in H as (np & s1 & H1 & H). unfold allocproc in H1. apply bind_Ok_inv in H1 as (e & s2 & R1 & H1).
  pose proof (take_ok _ _ _ _ _ _ Hok Hr R1) as Hok1.
  apply alloc_entry_table in R1 as [[-> ->]|(k & p & -> & _ & Hp & Hu & _ & E2)].
  { injection H1 as <- <-. by injection H as _ <-. }
  assert (ps_cpu s2 = ps_cpu s) as Ec2 by (by rewrite E2). clear E2.
  destruct (runs_proc _ _ _ _ _ Hok Hr) as (pi & Hpi & Hs). assert (i <> k) as Hik by congruence. destruct Hr as [_ Hw].
  pose proof (sl_idle _ _ (tb_sleeping _ Hok) k p Hp (or_introl Hu)) as Hwk. cbn in Hwk.
  pose proof (lookup_lt_Some _ _ _ Hw) as Hlw. pose proof (lookup_lt_Some _ _ _ Hwk) as Hlk.
  set (wf := fun g => <[k := Newborn g i]> (<[i := Forking k]> w)).
  change (table_ok (s2, wf Bare)) in Hok1.
  assert (forall g, wf g !! i = Some (Forking k) /\ wf g !! k = Some (Newborn g i)) as Hwf.
  { intros g. unfold wf. by rewrite list_lookup_insert_ne, !list_lookup_insert_eq by (rewrite ?length_insert; done). }
  assert (forall g, unfork i k (wf g) = w) as Hun.
  { intros g. unfold wf. rewrite (list_insert_insert_ne _ i k), list_insert_insert_eq by done. rewrite list_insert_insert_eq.
    rewrite (list_insert_id w i) by done. by apply list_insert_id. }
  assert (forall g g', <[k := Newborn g' i]> (wf g) = wf g') as Hgo by (intros; unfold wf; by rewrite list_insert_insert_eq).
  assert (runs s2 (wf Bare) c i (Forking k)) as Hr2 by (split; [congruence|apply Hwf]).
  pose proof (stack_ok _ _ _ _ _ _ _ Hok1 Hr2 (proj2 (Hwf _)) H1) as Hok2.
  destruct (newborn_proc _ _ _ _ _ _ Hok1 Hr2 (proj2 (Hwf _))) as (_ & _ & _ & n & Hn & _).
  destruct (alloc_stack_table _ _ _ _ _ _ _ Hn H1) as (q & (_ & _ & _ & Ec1 & _) & _ & _ & _ & Hnp).
  destruct Hnp as [[-> _]|[-> _]].
  { rewrite Hun in Hok2. by injection H as _ <-. }
  rewrite Hgo in Hok2. apply bind_Ok_inv in H as (b & s3 & R3 & H).
  assert (runs s1 (wf Stacked) c i (Forking k)) as Hr1 by (split; [congruence|apply Hwf]).
  pose proof (copy_ok _ _ _ _ _ _ _ Hok2 Hr1 (proj2 (Hwf _)) R3) as Hok3.
  destruct (newborn_proc _ _ _ _ _ _ Hok2 Hr1 (proj2 (Hwf _))) as (_ & _ & _ & n1 & Hn1 & _).
  destruct (fork_memory_table _ _ _ _ _ _ _ _ Hn1 R3) as (q1 & (_ & _ & _ & Ec3 & _) & _).
  destruct b; [|rewrite Hun in Hok3; by injection H as _ <-]. rewrite Hgo in Hok3.
  apply bind_Ok_inv in H as ([] & s4 & R4 & H). assert (runs s3 (wf Copied) c i (Forking k)) as Hr3 by (split; [congruence|apply Hwf]).
  pose proof (files_ok _ _ _ _ _ _ Hok3 Hr3 (proj2 (Hwf _)) R4) as Hok4. rewrite Hgo in Hok4.
  destruct (newborn_proc _ _ _ _ _ _ Hok3 Hr3 (proj2 (Hwf _))) as (_ & _ & _ & n2 & Hn2 & _).
  destruct (fork_descriptors_table _ _ _ _ _ _ Hn2 R4) as (q2 & (_ & _ & _ & Ec4 & _) & _).
  rewrite <- (Hun Filled). eapply (ready_ok c i k s4 s' r (wf Filled)); [exact Hok4|split; [congruence|apply Hwf]|apply Hwf|exact H].
Qed.

(** ** exit *)

Section Exit.
  Context (t t' : list (proc X)) (n : Z) (init : option nat) (cur : nat) (pc : proc X).
  Hypothesis Htr : tree t n init.
  Hypothesis Hcur : t !! cur = Some pc.
  Hypothesis Hrun : p_state pc = RUNNING.
  Hypothesis Hinit : init <> Some cur.
  Hypothesis Hexits : exits cur pc init t t'.
Let Hlen := proj1 Hexits.
Let Hexit := proj2 Hexits.

Lemma exit_old j p' : t' !! j = Some p' -> exists p, t !! j = Some p.
Proof. intros Hp'. apply lookup_lt_is_Some. rewrite <- Hlen. by eapply lookup_lt_Some. Qed.

Lemma exit_new j p : t !! j = Some p -> exists p', t' !! j = Some p'.
Proof. intros Hp'. apply lookup_lt_is_Some. rewrite Hlen. by eapply lookup_lt_Some. Qed.

Lemma exit_use j p p' : t !! j = Some p -> t' !! j = Some p' ->
  (in_use p' <-> in_use p) /\ (settled p' <-> settled p) /\ (j <> cur -> alive p -> alive p').
Proof.
  intros Hp Hp'. destruct (Hexit j p p' Hp Hp') as (_ & _ & _ & Hst & _). unfold in_use, settled, alive.
  destruct Hst as [[-> ->]|(Hne & _ & [->|[-> ->]])]; [|done|done].
  assert (p = pc) as -> by congruence. rewrite Hrun. done.
Qed.

Lemma own_parent : p_parent pc <> Some cur.
Proof.
  intros Hself. destruct (tr_parent _ _ _ Htr cur pc Hcur ltac:(split; congruence) Hinit) as (g & q & Hg & Hq & _ & Hlt).
  assert (g = cur) as -> by congruence. assert (q = pc) as -> by congruence. lia.
Qed.

Lemma tree_exit : tree t' n init.
Proof.
  pose proof Htr as [H2 H3 H4 H5 H6]. destruct H2 as (ii & pi & Ei & Hpi & Hai & Hpid & Hpar).
  assert (ii <> cur) as Hii by congruence. destruct (exit_new ii pi Hpi) as [pi' Hpi'].
  destruct (Hexit _ _ _ Hpi Hpi') as (Epid & _ & Epar & _). rewrite Hpar in Epar.
  rewrite decide_False in Epar by done. pose proof (proj2 (proj2 (exit_use _ _ _ Hpi Hpi')) Hii Hai) as Hai'.
  constructor.
  - exists ii, pi'. split_and!; [done|done|apply Hai'..|congruence|done].
  - intros j p' Hp' Hu. destruct (exit_old _ _ Hp') as [p Hp]. destruct (Hexit _ _ _ Hp Hp') as (-> & _).
    apply (H3 j p Hp). by apply (proj1 (exit_use _ _ _ Hp Hp')).
  - intros j k p' q' Hp' Hq' Hu Hv Epq. destruct (exit_old _ _ Hp') as [p Hp]. destruct (exit_old _ _ Hq') as [q Hq].
    apply (H4 j k p q Hp Hq (proj1 (proj1 (exit_use _ _ _ Hp Hp')) Hu) (proj1 (proj1 (exit_use _ _ _ Hq Hq')) Hv)).
    destruct (Hexit _ _ _ Hp Hp') as (<- & _), (Hexit _ _ _ Hq Hq') as (<- & _). done.
  - intros j p' Hp' Hu. destruct (exit_old _ _ Hp') as [p Hp]. destruct (Hexit _ _ _ Hp Hp') as (_ & _ & -> & _).
    assert (p_state p = UNUSED) as Hup.
    { destruct (decide (p_state p = UNUSED)) as [|Hn]; [done|]. exfalso.
      apply (proj1 (exit_use _ _ _ Hp Hp')) in Hn. done. }
    rewrite (H5 j p Hp Hup). by rewrite decide_False.
  - intros j p' Hp' Hu Hi. destruct (exit_old _ _ Hp') as [p Hp].
    pose proof (proj1 (proj1 (proj2 (exit_use _ _ _ Hp Hp'))) Hu) as Hup.
    destruct (Hexit _ _ _ Hp Hp') as (-> & _ & -> & _).
    destruct (H6 j p Hp Hup Hi) as (k & q & Hk & Hq & Ha & Hlt). rewrite Hk.
    destruct (decide (Some k = Some cur)) as [Ek|Ek].
    + exists ii, pi'. split_and!; [done|done|apply Hai'..|]. rewrite Epid, Hpid. destruct (H3 j p Hp (proj1 Hup)).
      assert (p_pid p <> 1); [|lia]. intros E1. apply Hi. rewrite Ei. f_equal.
      apply (H4 ii j pi p); [done|done|apply Hai|apply Hup|congruence].
    + destruct (exit_new k q Hq) as [q' Hq']. exists k, q'. split_and!; [done|done|eapply (exit_use k q q'); congruence || done..|].
      destruct (Hexit _ _ _ Hq Hq') as (-> & _). lia.
Qed.

Lemma sleeping_exit w w' : sleeping t w -> length w' = length w -> w' !! cur = Some AtUser -> (forall j, j <> cur -> w' !! j = w !! j) ->
  sleeping t' w'.
Proof.
  intros [Hl Hsl Hid] Hw Hwc Hwo. constructor; [congruence| |].
  - intros j p' Hp' Hs. destruct (exit_old _ _ Hp') as [p Hp].
    destruct (Hexit _ _ _ Hp Hp') as (_ & Ek & _ & Hst & Hsleep). destruct (Hsleep Hs) as [Hc1 Hc2].
    destruct Hst as [[_ ?]|(Hne & Ech & [Est|[_ ?]])]; [congruence| |congruence]. rewrite Est in Hs. rewrite Hwo by done.
    destruct (Hsl j p Hp Hs) as [(E1 & E2 & E3 & (k & q & Hk & Hq) & E5)|[E1 [a E2]]].
    2: { right. split; [done|]. exists a. congruence. }
    left. split_and!; [done|congruence|congruence| |].
    + destruct (exit_new k q Hk) as [q' Hq']. exists k, q'. split; [done|].
      destruct (Hexit _ _ _ Hk Hq') as (_ & _ & -> & _). rewrite Hq, decide_False by congruence. done.
    + intros k' z' Hz' Hzp Hzz. destruct (exit_old _ _ Hz') as [z Hz].
      destruct (Hexit _ _ _ Hz Hz') as (_ & _ & Ezp & Ezs & _). rewrite Ezp in Hzp.
      destruct (decide (p_parent z = Some cur)) as [Hzc|Hzc].
      * destruct (Hc2 ltac:(rewrite E2, Hzp; done) k' z Hz Hzc) as [->|Hnz].
        -- apply own_parent. congruence.
        -- destruct Ezs as [[-> _]|(_ & _ & [?|[? ?]])]; try congruence.
           apply own_parent. congruence.
      * destruct Ezs as [[-> _]|(_ & _ & [Ez|[? ?]])]; [|by apply (E5 k' z Hz Hzp); congruence|congruence].
        assert (z = pc) as -> by congruence. apply Hc1. rewrite E2, Hzp. done.
  - intros j p' Hp' Hu. destruct (exit_old _ _ Hp') as [p Hp].
    destruct (Hexit _ _ _ Hp Hp') as (_ & _ & _ & Hst & _).
    destruct Hst as [[-> _]|(Hne & Ech & [Est|[_ Hr]])]; [done|rewrite Hwo by done; apply (Hid j p Hp); by rewrite <- Est|].
    rewrite Hr in Hu. by destruct Hu.
Qed.

(** The process that ends makes no child. *)
Lemma forking_exit w w' : forking t w init -> w !! cur = Some Exiting -> w' !! cur = Some AtUser ->
  (forall j, j <> cur -> w' !! j = w !! j) -> forking t' w' init.
Proof.
  intros [H1 H2 H3 H4] Hw Hwc Hwo.
  assert (forall j pl, w' !! j = Some pl -> in_fork pl = true -> j <> cur /\ w !! j = Some pl) as Hin.
  { intros j pl Hj Hpl. destruct (decide (j = cur)) as [->|Hne]; [|by rewrite <- Hwo]. assert (pl = AtUser) as -> by congruence. done. }
  assert (forall j x, t !! j = Some x -> alive x -> j <> cur -> exists x', t' !! j = Some x' /\ alive x' /\ p_pid x' = p_pid x) as Hal.
  { intros j x Hj Hx Hne. destruct (exit_new j x Hj) as [x' Hx']. exists x'. split_and!; [done|by eapply (exit_use j x x')..|].
    by destruct (Hexit _ _ _ Hj Hx') as (? & _). }
  constructor.
  - intros i k Hi. apply Hin in Hi as [Hne Hi]; [|done]. destruct (H1 i k Hi) as [g Hg]. exists g. rewrite Hwo; [done|].
    intros ->. congruence.
  - intros k g i Hk. apply Hin in Hk as [Hkc Hk]; [|done]. destruct (H2 k g i Hk) as (Hi & p & q & Hp & Hq & Ha & Hs & Hlt & Hpar).
    assert (i <> cur) as Hic by (intros ->; congruence). rewrite Hwo by done. split; [done|].
    destruct (Hal i p Hp Ha Hic) as (p' & Hp' & Ha' & Epid). destruct (exit_new k q Hq) as [q' Hq']. exists p', q'.
    destruct (Hexit _ _ _ Hq Hq') as (E1 & _ & E2 & [[? _]|(_ & _ & Hst)] & _); [done|].
    split_and!; [done|done|apply Ha'..|intuition congruence|congruence|].
    rewrite E2, Hpar, decide_False; [done|]. destruct g; cbn; congruence.
  - intros k q' Hq' Hs. destruct (exit_old _ _ Hq') as [q Hq].
    destruct (Hexit _ _ _ Hq Hq') as (_ & _ & _ & [[_ ?]|(Hne & _ & Hst)] & _); [congruence|].
    rewrite Hwo by done. apply (H3 k q Hq). intuition congruence.
  - intros i Hi. apply Hin in Hi as [Hne Hi]; [|done]. destruct (H4 i Hi) as (Hni & p & Hp & Ha). split; [done|].
    destruct (Hal i p Hp Ha Hne) as (p' & Hp' & Ha' & _). by exists p'.
Qed.
End Exit.

Lemma close_ok c i s s' w : table_ok (s, w) -> runs s w c i AtUser -> exit_close c s = Ok (tt, s') -> table_ok (s', <[i := Exiting]> w).
Proof.
  intros Hok Hr (cur & p & e & Hc & Hi & Hp & _ & ->)%exit_close_table. pose proof Hr as [Hc' Hw].
  assert (cur = i) as -> by congruence. destruct (runs_proc _ _ _ _ _ Hok Hr) as (p' & Hp' & Hs).
  assert (p' = p) as -> by congruence. pose proof (lookup_lt_Some _ _ _ Hw) as Hlw.
  assert (table_ok (put_procs (<[i := set_files pf_none p]> (ps_proc s)) (put_env e s), w)) as [T1 T2 T3 T4]
    by (eapply (run_local c i s _ w w p); done || reflexivity).
  constructor; cbn [fst snd put_procs put_env ps_proc ps_nextpid ps_init ps_cpu] in *; [done|done| |].
  - destruct T3 as [Hl Hsl Hid]. constructor; [by rewrite length_insert| |].
    + intros j x Hj Hjs. destruct (decide (j = i)) as [->|Hne]; [|rewrite list_lookup_insert_ne by done; eauto].
      rewrite list_lookup_insert_eq in Hj by (by eapply lookup_lt_Some). injection Hj as <-. cbn in Hjs. congruence.
    + intros j x Hj Hjs. rewrite list_lookup_insert_ne; [eauto|]. intros <-.
      rewrite list_lookup_insert_eq in Hj by (by eapply lookup_lt_Some). injection Hj as <-. cbn in Hjs. intuition congruence.
  - destruct T4 as [F1 F2 F3 F4].
    assert (forall j pl, pl <> Exiting -> pl <> AtUser -> <[i := Exiting]> w !! j = Some pl <-> w !! j = Some pl) as Hin.
    { intros j pl Hn1 Hn2. destruct (decide (j = i)) as [->|]; [|by rewrite list_lookup_insert_ne].
      rewrite list_lookup_insert_eq by done. split; congruence. }
    constructor.
    + intros j k Hj. apply Hin in Hj; [|done..]. destruct (F1 j k Hj) as [g Hg]. exists g. by apply Hin.
    + intros k g j Hk. apply Hin in Hk; [|done..]. destruct (F2 k g j Hk) as [Hj H]. split; [by apply Hin|done].
    + intros k q Hq Hqs. destruct (F3 k q Hq Hqs) as (g & j & Hk). exists g, j. by apply Hin.
    + intros j Hj. destruct (decide (j = i)) as [->|Hne]; [|rewrite list_lookup_insert_ne in Hj by done; eauto].
      split; [done|]. exists (set_files pf_none p). rewrite list_lookup_insert_eq by (by eapply lookup_lt_Some).
      split; [done|]. split_and!; cbn; congruence.
Qed.

Lemma end_ok c i s s' w : table_ok (s, w) -> runs s w c i Exiting -> exit_end c s = Ok (tt, s') -> table_ok (s', <[i := AtUser]> w).
Proof.
  intros Hok Hr H. destruct (runs_proc _ _ _ _ _ Hok Hr) as (p & Hp & Hs). destruct Hok as [Htr Hru Hsl Hfk], Hr as [Hc Hw]. cbn in *.
  destruct (fk_exit _ _ _ Hfk i Hw) as [Hi _]. pose proof (lookup_lt_Some _ _ _ Hw) as Hlw.
  apply exit_end_table in H as (cur & pc & Hc' & Hpc & Ec & En & Ei & _ & _ & Hex).
  assert (cur = i) as -> by congruence. assert (pc = p) as -> by congruence.
  assert (forall j, j <> i -> <[i := AtUser]> w !! j = w !! j) as Hwo by (intros j Hj; by rewrite list_lookup_insert_ne).
  constructor; cbn.
  - rewrite En, Ei. by eapply tree_exit.
  - rewrite Ec. eapply running_off; [done|done|]. intros j. unfold isrun. destruct Hex as [Hlen Hexit]. split.
    + intros (x' & Hx' & Hxr). destruct (lookup_lt_is_Some_2 (ps_proc s) j) as [x Hx]; [rewrite <- Hlen; by eapply lookup_lt_Some|].
      destruct (Hexit j x x' Hx Hx') as (_ & _ & _ & [[_ ?]|(Hne & _ & [Ex|[? ?]])] & _); [congruence| |congruence].
      split; [|done]. exists x. split; [done|congruence].
    + intros [(x & Hx & Hxr) Hne]. destruct (lookup_lt_is_Some_2 (ps_proc s') j) as [x' Hx']; [rewrite Hlen; by eapply lookup_lt_Some|].
      destruct (Hexit j x x' Hx Hx') as (_ & _ & _ & [[? _]|(_ & _ & [Ex|[? ?]])] & _); [congruence| |congruence].
      exists x'. split; [done|congruence].
  - eapply (sleeping_exit _ _ (ps_nextpid s)); [done|done|done|done|done|done|by rewrite length_insert|by apply list_lookup_insert_eq|done].
  - rewrite Ei. eapply forking_exit; [done|done|done|done|done|by apply list_lookup_insert_eq|done].
Qed.

(** The whole of [exit], undisturbed. *)
Lemma exit_ok c i s s' w : table_ok (s, w) -> runs s w c i AtUser -> exit c s = Ok (tt, s') -> table_ok (s', w).
Proof.
  intros Hok Hr ([] & s1 & R & H)%bind_Ok_inv. pose proof (close_ok _ _ _ _ _ Hok Hr R) as Hok1.
  apply exit_close_table in R as (cur & p & e & _ & _ & _ & _ & E1). destruct Hr as [Hc Hw]. pose proof (lookup_lt_Some _ _ _ Hw) as Hlw.
  pose proof (end_ok c i s1 s' _ Hok1 ltac:(split; [by rewrite E1|by apply list_lookup_insert_eq]) H) as Hok2.
  rewrite list_insert_insert_eq in Hok2. by rewrite list_insert_id in Hok2.
Qed.

(** ** wait *)

(** A zombie's entry is freed. *)
Lemma tree_reap t n init i p q : tree t n init -> t !! i = Some p -> p_state p = ZOMBIE ->
  p_state q = UNUSED -> p_parent q = None -> tree (<[i := q]> t) n init.
Proof.
  intros [H2 H3 H4 H5 H6] Hp Hz Hq Hpar.
  assert (forall j x, t !! j = Some x -> alive x -> <[i := q]> t !! j = Some x) as Hal.
  { intros j x Hj (_ & Hx & _). rewrite list_lookup_insert_ne; [done|]. intros ->. congruence. }
  constructor.
  - destruct H2 as (k & x & -> & Hk & Ha & Hk1 & Hk2). exists k, x. split_and!; try done; [by apply Hal|apply Ha..].
  - intros j x Hj Hx. apply list_lookup_insert_Some in Hj as [(<- & <- & _)|[_ Hj]]; [done|eauto].
  - intros j k x y Hj Hk Hx Hy. apply list_lookup_insert_Some in Hj as [(<- & <- & _)|[_ Hj]]; [done|].
    apply list_lookup_insert_Some in Hk as [(<- & <- & _)|[_ Hk]]; [done|eauto].
  - intros j x Hj Hx. apply list_lookup_insert_Some in Hj as [(<- & <- & _)|[_ Hj]]; [done|eauto].
  - intros j x Hj Hx Hi. apply list_lookup_insert_Some in Hj as [(<- & <- & _)|[_ Hj]]; [by destruct Hx|].
    destruct (H6 j x Hj Hx Hi) as (k & y & Hy1 & Hy2 & Ha & Hlt). exists k, y. split_and!; [done|by apply Hal|apply Ha..|done].
Qed.

Lemma forking_reap t w init i p q : forking t w init -> t !! i = Some p -> p_state p = ZOMBIE -> p_state q = UNUSED ->
  forking (<[i := q]> t) w init.
Proof.
  intros [H1 H2 H3 H4] Hp Hz Hq.
  assert (forall j x, t !! j = Some x -> p_state x <> ZOMBIE -> <[i := q]> t !! j = Some x) as Hal.
  { intros j x Hj Hx. rewrite list_lookup_insert_ne; [done|]. intros ->. congruence. }
  constructor; [done| | |].
  - intros k g j Hk. destruct (H2 k g j Hk) as (Hj & x & y & Hx & Hy & Ha & Hs & Hr). split; [done|]. exists x, y.
    split_and!; [apply Hal; [done|apply Ha]|apply Hal; congruence|apply Ha..|done|apply Hr|apply Hr].
  - intros k x Hk Hs. apply list_lookup_insert_Some in Hk as [(<- & <- & _)|[_ Hk]]; [congruence|eauto].
  - intros j Hj. destruct (H4 j Hj) as (Hne & x & Hx & Ha). split; [done|]. exists x. split; [apply Hal; [done|apply Ha]|done].
Qed.

(** The parent is running, so no sleeper loses a child. *)
Lemma sleeping_reap t w i p q cur pc : sleeping t w -> t !! i = Some p -> p_state p = ZOMBIE -> p_parent p = Some cur ->
  t !! cur = Some pc -> p_state pc = RUNNING -> p_state q = UNUSED -> p_parent q = None ->
  sleeping (<[i := q]> t) w.
Proof.
  intros [Hl Hsl Hid] Hp Hz Hpar Hcur Hrun Hq Hqp. constructor; [by rewrite length_insert| |].
  - intros j x Hj Hs. apply list_lookup_insert_Some in Hj as [(<- & <- & _)|[_ Hj]]; [congruence|].
    destruct (Hsl j x Hj Hs) as [(E1 & E2 & E3 & (k & y & Hk & Hy) & E5)|]; [left|by right]. split_and!; [done|done|done| |].
    + exists k, y. split; [|done]. rewrite list_lookup_insert_ne; [done|]. intros ->.
      assert (y = p) as -> by congruence. assert (j = cur) as -> by congruence. congruence.
    + intros k' y' Hk' Hy'. apply list_lookup_insert_Some in Hk' as [(<- & <- & _)|[_ Hk']]; [congruence|eauto].
  - intros j x Hj Hu. apply list_lookup_insert_Some in Hj as [(<- & <- & _)|[_ Hj]]; [|eauto].
    apply (Hid _ p Hp). by right.
Qed.

Lemma wait_ok c i s s' r w : table_ok (s, w) -> ps_cpu s !! c = Some (Some i) -> same_fork i w (<[i := InWait]> w) ->
  (i < length w)%nat -> wait kend c s = Ok (r, s') ->
  match r with None => table_ok (s', <[i := InWait]> w) | Some _ => table_ok (s', w) end.
Proof.
  intros Hok Hr Hsf Hlt H. apply wait_table in H as (En & Ei & _ & cur & Hc & H). assert (cur = i) as -> by congruence.
  destruct H as [(k & p & q & Hp & Hpar & Hz & -> & Et & Hq & Hqp & _ & Ec)|[[-> ->]|(-> & Hnz & Hkid & p & Hp & Hk & ->)]].
  - destruct (ru_cpu _ _ (tb_running _ Hok) c i Hr) as (pc & Hpc & Hs). destruct Hok as [Htr Hru Hsl Hfk]. cbn in *.
    constructor; cbn; rewrite Et.
    + rewrite En, Ei. by eapply tree_reap.
    + rewrite Ec. eapply running_same; [done|]. intros j. rewrite isrun_insert by (by eapply lookup_lt_Some). rewrite Hq.
      destruct (decide (j = k)) as [->|]; [rewrite (isrun_known _ _ _ Hp), Hz|]; naive_solver.
    + by eapply sleeping_reap.
    + rewrite Ei. by eapply forking_reap.
  - done.
  - apply asleep_ok; [done|done|done|done|]. left. cbn. rewrite list_lookup_insert_eq by done. by split_and!.
Qed.

Lemma wait_again_ok c i s s' r w : table_ok (s, w) -> runs s w c i InWait -> wait_again kend c s = Ok (r, s') ->
  table_ok (s', match r with None => w | Some _ => <[i := AtUser]> w end).
Proof.
  intros Hok Hr H. pose proof (place_lt _ _ _ _ _ Hok Hr) as Hlt.
  destruct (runs_proc _ _ _ _ _ Hok Hr) as (p & Hp & Hs). destruct Hr as [Hc Hw].
  unfold wait_again in H. apply bind_Ok_inv in H as (u & s1 & R & H).
  unfold sleep_return in R. apply bind_Ok_inv in R as (i' & s2 & R1 & R). apply curproc_inv in R1 as [-> R1].
  assert (i' = i) as -> by congruence. injection R as <- <-. rewrite (alter_known _ _ _ _ Hp) in H.
  set (s1 := put_procs _ s) in H.
  assert (forall w', length w' = length w -> (forall j, j <> i -> w' !! j = w !! j) -> same_fork i w w' -> table_ok (s1, w')) as Hok1.
  { intros w' Hl' Hw' Hsf. eapply (run_local c i s s1 w w' p); try done; reflexivity. }
  destruct r as [r|].
  - assert (table_ok (s1, <[i := AtUser]> w)) as Hok2.
    { apply Hok1; [by rewrite length_insert| |by eapply same_fork_insert]. intros j Hj. by rewrite list_lookup_insert_ne. }
    refine (wait_ok c i s1 s' (Some r) _ Hok2 Hc _ ltac:(by rewrite length_insert) H).
    eapply same_fork_insert; [by apply list_lookup_insert_eq|done|done].
  - assert (same_fork i w (<[i := InWait]> w)) as Hsf by (by eapply same_fork_insert).
    pose proof (wait_ok c i s1 s' None w (Hok1 w eq_refl (fun _ _ => eq_refl) (fun _ _ => iff_refl _)) Hc Hsf Hlt H) as Hok2.
    cbn in Hok2. by rewrite list_insert_id in Hok2.
Qed.

Lemma pstep_ok l c c' : table_ok c -> pstep l c c' -> table_ok c'.
Proof.
  intros Hok Hst. destruct Hst.
  - by eapply sched_ok.
  - by eapply take_ok.
  - by eapply stack_ok.
  - by eapply copy_ok.
  - by eapply files_ok.
  - by eapply ready_ok.
  - by eapply close_ok.
  - by eapply end_ok.
  - rename select (runs _ _ _ _ _) into Hr. rename select (wait _ _ _ = _) into R.
    pose proof (wait_ok c i s s' r w Hok (proj1 Hr) (same_fork_insert i w InWait AtUser (proj2 Hr) eq_refl eq_refl) (place_lt _ _ _ _ _ Hok Hr) R) as Hw.
    by destruct r.
  - by eapply wait_again_ok.
  - by eapply sleep_ok.
  - by eapply awake_ok.
  - by eapply yield_ok.
  - by eapply sbrk_ok.
  - by eapply call_ok.
  - by eapply exec_ok.
  - by eapply store_ok.
  - by eapply save_ok.
  - by eapply kill_ok.
  - by eapply wakeup_ok.
Qed.

(** While no process is in [fork], no entry is a child in the making. *)
Lemma no_embryo c i p : table_ok c -> (forall k g j, c.2 !! k <> Some (Newborn g j)) -> ps_proc c.1 !! i = Some p -> p_state p <> EMBRYO.
Proof. intros Hok Hw Hp Hs. destruct (fk_embryo _ _ _ (tb_forking _ Hok) i p Hp Hs) as (g & j & Hk). by apply Hw in Hk. Qed.
End Inv.
