(* ===== verification/ProcLive.v ===== *)
(** The life of the process table from boot on: the invariant in every reachable
    state, fairness of the scheduler, and the kill of an entry that is not in use. *)

From S2P Require Import Prelude Mem Strings Bio Kalloc Vm VmUser Proc ProcTable ProcInv.
Local Open Scope Z_scope.

Section Live.
  Context (kend data trapret forkret : Z).
  Context {E X : Type} `{!ProcEnv E X}.
Abbreviation st := (pstate E X).
Abbreviation pstep := (pstep kend data trapret forkret).
Abbreviation pconf := (pconf (E := E) (X := X)).

(** * Boot *)

(** The table at boot: static storage is zero. *)
Record fresh_table (s : st) : Prop := {
  ft_unused : forall i p, ps_proc s !! i = Some p ->
    p_state p = UNUSED /\ p_pid p = 0 /\ p_parent p = None /\ p_killed p = 0;
  ft_nextpid : ps_nextpid s = 1;
  ft_cpu : forall c i, ps_cpu s !! c <> Some (Some i)
}.

Lemma userinit_table initcode (s s' : st) : userinit kend data trapret forkret initcode s = Ok (tt, s') ->
  exists i p q, ps_proc s !! i = Some p /\ p_state p = UNUSED /\ ps_proc s' = <[i := q]> (ps_proc s) /\
    p_state q = RUNNABLE /\ p_pid q = ps_nextpid s /\ p_parent q = p_parent p /\ p_killed q = p_killed p /\
    ps_nextpid s' = ps_nextpid s + 1 /\ ps_init s' = Some i /\ ps_cpu s' = ps_cpu s.
Proof.
  unfold userinit. intros H. prun H as r R. apply allocproc_table in R as (E1 & E2 & E3 & R).
  destruct R as [(-> & _)|(i & p & q & _ & Hp & Hu & Ep & _ & En & Hpid & Hpar & Hch & Hk & _ & Hr)]; [done|].
  pose proof (lookup_lt_Some _ _ _ Hp) as Hlt. destruct Hr as [[-> Hs]|[-> Hs]]; [done|].
  prun H. prun H as pg R1. destruct (pg =? 0); [done|]. prun H. prun H. prun H as n Hn.
  rewrite Ep, alter_insert in * by done. rewrite list_lookup_insert_eq in Hn by done. injection Hn as <-.
  do 8 prun H. injection H as <-. cbn. rewrite !alter_insert by done.
  eexists i, p, _. split_and!; done.
Qed.

Lemma boot_ok initcode (s s' : st) : fresh_table s -> userinit kend data trapret forkret initcode s = Ok (tt, s') ->
  table_ok (s', replicate (length (ps_proc s')) AtUser).
Proof.
  intros [Hu Hn Hc] (i & p & q & Hp & _ & Et & Hq & Hpid & Hpar & _ & En & Ei & Ec)%userinit_table.
  pose proof (lookup_lt_Some _ _ _ Hp) as Hlt. destruct (Hu i p Hp) as (_ & _ & Hpp & _).
  assert (forall j x, ps_proc s' !! j = Some x -> j = i /\ x = q \/ p_state x = UNUSED /\ p_parent x = None) as Hall.
  { intros j x Hj. rewrite Et in Hj. apply list_lookup_insert_Some in Hj as [(<- & <- & _)|[Hne Hj]]; [by left|right].
    destruct (Hu j x Hj) as (? & _ & ? & _). done. }
  assert (ps_proc s' !! i = Some q) as Hi by (rewrite Et; by apply list_lookup_insert_eq).
  rewrite Hn in *. constructor; cbn.
  - rewrite En, Ei. constructor.
    + exists i, q. split_and!; [done|done|unfold alive; rewrite Hq; done|done|congruence].
    + intros j x [[-> ->]|[? _]]%Hall Hx; [lia|done].
    + intros j k x y [[-> ->]|[? _]]%Hall [[-> ->]|[? _]]%Hall Hx Hy; done.
    + intros j x [[-> ->]|[? ?]]%Hall Hx; [congruence|done].
    + intros j x [[-> ->]|[? _]]%Hall Hx Hne; [done|by destruct Hx].
  - rewrite Ec. constructor.
    + intros c j Hcj. by apply Hc in Hcj.
    + intros j x [[-> ->]|[? _]]%Hall Hx; congruence.
    + intros c c' j Hcj. by apply Hc in Hcj.
  - constructor; [by rewrite length_replicate| |].
    + intros j x [[-> ->]|[? _]]%Hall Hx; congruence.
    + intros j x Hj _. apply lookup_replicate_2. by eapply lookup_lt_Some.
  - constructor.
    + by intros j k [? _]%lookup_replicate.
    + by intros k g j [? _]%lookup_replicate.
    + intros j x [[-> ->]|[? _]]%Hall Hx; congruence.
    + by intros j [? _]%lookup_replicate.
Qed.

(** Any number of steps. *)
Definition psteps : pconf -> pconf -> Prop := rtc (fun c c' => exists l, pstep l c c').

(** C13. The process table is consistent in every state that the CPUs can reach.
    From a zeroed table through [userinit] and then any interleaving, on any number
    of CPUs, of scheduler rounds, of the parts of fork and of exit (taking the entry,
    the kernel stack, copying the memory, the files, making the child RUNNABLE; closing
    the files, becoming a ZOMBIE) and of wait, kill, sbrk, exec, calls of sysfile.c,
    sleep, wakeup and preemption, up to the overflow of the int [nextpid] where the
    behaviour of the program ends being defined: pids are unique; every process but
    init has a living parent with a smaller pid, so the processes form a tree rooted
    at init, and init itself never ends; an EMBRYO entry is the child of exactly one
    living process that is in fork, with a larger pid, and nobody else has it as a
    child; RUNNING processes are on exactly one CPU each; a process that sleeps in
    [wait] has a child, is not killed, and none of its children is a zombie, so no
    exit is ever missed. *)
Theorem process_table_safe initcode (s0 s1 s : st) w :
  fresh_table s0 -> userinit kend data trapret forkret initcode s0 = Ok (tt, s1) ->
  psteps (s1, replicate (length (ps_proc s1)) AtUser) (s, w) -> table_ok (s, w).
Proof.
  intros Hf Hi Hr. pose proof (boot_ok _ _ _ Hf Hi) as Hok. revert Hok.
  induction Hr as [|? ? ? [l Hl] _ IH]; eauto using pstep_ok.
Qed.

(** * Scheduling *)

(** A labelled run, and its scheduler rounds on CPU [c]. *)
Inductive prun : list label -> pconf -> pconf -> Prop :=
| prun_nil c : prun [] c c
| prun_cons l ls c1 c2 c3 : pstep l c1 c2 -> prun ls c2 c3 -> prun (l :: ls) c1 c3.

Definition is_round (c : nat) (l : label) : bool := match l with LSched d => (d =? c)%nat | LOther => false end.
Definition rounds (c : nat) (ls : list label) : nat := length (filter (fun l => is_round c l = true) ls).

(** Somewhere on the way. *)
Definition passes (P : pconf -> Prop) (ls : list label) (c c' : pconf) : Prop :=
  exists ls1 ls2 c1, ls = ls1 ++ ls2 /\ prun ls1 c c1 /\ prun ls2 c1 c' /\ P c1.

Definition runs_now (j : nat) (pid : Z) (c : pconf) : Prop :=
  exists p, ps_proc c.1 !! j = Some p /\ p_pid p = pid /\ p_state p = RUNNING.
Definition waits_now (j : nat) (pid : Z) (c : pconf) : Prop :=
  exists p, ps_proc c.1 !! j = Some p /\ p_pid p = pid /\ p_state p = RUNNABLE.

Lemma passes_now P ls c c' : prun ls c c' -> P c -> passes P ls c c'.
Proof. intros Hr HP. exists [], ls, c. split_and!; [done|constructor|done|done]. Qed.

Lemma passes_later P l ls c c1 c' : pstep l c c1 -> passes P ls c1 c' -> passes P (l :: ls) c c'.
Proof.
  intros Hs (ls1 & ls2 & c2 & -> & H1 & H2 & HP). exists (l :: ls1), ls2, c2. split_and!; [done| |done|done]. by econstructor.
Qed.

(** What every step but a scheduler round does for the RUNNABLE processes. *)
Record spares (s s' : st) : Prop := {
  sp_length : length (ps_proc s') = length (ps_proc s);
  sp_pos : ps_pos s' = ps_pos s;
  sp_runnable : forall j x, ps_proc s !! j = Some x -> p_state x = RUNNABLE ->
    exists x', ps_proc s' !! j = Some x' /\ p_pid x' = p_pid x /\ p_state x' = RUNNABLE
}.

Lemma spares_refl s s' : ps_proc s' = ps_proc s -> ps_pos s' = ps_pos s -> spares s s'.
Proof. intros E1 E2. constructor; rewrite ?E1; eauto. Qed.

Lemma spares_trans s1 s2 s3 : spares s1 s2 -> spares s2 s3 -> spares s1 s3.
Proof.
  intros [A1 A2 A3] [B1 B2 B3]. constructor; [congruence|congruence|]. intros j x Hx Hr.
  destruct (A3 j x Hx Hr) as (y & Hy & Hp & Hr'). destruct (B3 j y Hy Hr') as (z & Hz & Hp' & Hr''). exists z.
  split_and!; [done|congruence|done].
Qed.

Lemma spares_insert (s s' : st) i p q : ps_proc s !! i = Some p -> p_state p <> RUNNABLE ->
  ps_proc s' = <[i := q]> (ps_proc s) -> ps_pos s' = ps_pos s -> spares s s'.
Proof.
  intros Hp Hs Et Ep. constructor; [by rewrite Et, length_insert|done|]. intros j x Hx Hr. exists x. split_and!; [|done|done].
  rewrite Et, list_lookup_insert_ne; [done|]. intros ->. congruence.
Qed.

Lemma sleep_return_spares c i (s s' : st) p : ps_cpu s !! c = Some (Some i) -> ps_proc s !! i = Some p ->
  p_state p = RUNNING -> sleep_return c s = Ok (tt, s') -> spares s s' /\ ps_cpu s' = ps_cpu s.
Proof.
  intros Hc Hp Hs R. unfold sleep_return in R. prun R as i' Hi. assert (i' = i) as -> by congruence. injection R as <-.
  split; [|done]. eapply (spares_insert s _ i p); [done|congruence| |done]. cbn. by rewrite (alter_known _ _ _ _ Hp).
Qed.

Lemma wait_spares c i (s s' : st) r p : ps_cpu s !! c = Some (Some i) -> ps_proc s !! i = Some p -> p_state p = RUNNING ->
  wait kend c s = Ok (r, s') -> spares s s'.
Proof.
  intros Hc Hp Hs R. apply wait_table in R as (_ & _ & Ep & cur & Hc' & R). assert (cur = i) as -> by congruence.
  destruct R as [(k & x & q & Hx & _ & Hz & _ & Et & _)|[[_ ->]|(_ & _ & _ & x & Hx & _ & ->)]].
  - eapply (spares_insert s s' k x); congruence || done.
  - by apply spares_refl.
  - eapply (spares_insert s _ i x); [done|congruence|done|done].
Qed.

Lemma entry_spares k q (s s' : st) p : entry_change k q s s' -> ps_proc s !! k = Some p -> p_state p <> RUNNABLE -> spares s s'.
Proof. intros (Et & _ & _ & _ & Ep) Hp Hs. by eapply spares_insert. Qed.

Lemma other_spares l c c1 : table_ok c -> pstep l c c1 -> (forall d, l <> LSched d) -> spares c.1 c1.1.
Proof.
  intros Hok Hst Hl.
  destruct Hst as [d s s' w Hc R|d i s s' r w Hc R|d i k s s' r w Hc Hk R|d i k s s' r w Hc Hk R|d i k s s' w Hc Hk R|d i k s s' r w Hc Hk R
    |d i s s' w Hc R|d i s s' w Hc R|d i s s' r w Hc R|d i s s' r w Hc R|d i a s s' w Hc R|d i s s' w Hc R|d i pl s s' w Hc Hpl R
    |d i n s s' r w Hc Hn R|d i num s s' r w Hc R|d i path argv s s' r w Hc R|d i va b s s' r w Hc R|d i frame s s' w Hc Hn R
    |p s s' r w R|a s s' w R]; cbn [fst snd] in *.
  1: by destruct (Hl d).
  18: { apply kill_table in R as [[_ ->]|(i & x & q & _ & Hx & _ & -> & Hq)]; [by apply spares_refl|].
    constructor; [cbn; by rewrite length_insert|done|]. intros j y Hy Hr. cbn. destruct (decide (j = i)) as [->|Hne].
    - rewrite list_lookup_insert_eq by (by eapply lookup_lt_Some). exists q. assert (y = x) as -> by congruence.
      rewrite Hr in Hq. cbn in Hq. subst q. by split_and!.
    - rewrite list_lookup_insert_ne by done. eauto. }
  18: { injection R as <-. constructor; [cbn; by rewrite length_fmap|done|]. intros j y Hy Hr. cbn.
    rewrite list_lookup_fmap, Hy. eexists. split; [reflexivity|]. unfold wake. rewrite decide_False; [done|].
    intros [? _]. congruence. }
  2-5: destruct (newborn_proc _ _ _ _ _ _ Hok Hc Hk) as (_ & _ & _ & n & Hn & He & _).
  all: destruct (runs_proc _ _ _ _ _ Hok Hc) as (pr & Hpr & Hs); destruct Hc as [Hc _].
  - apply alloc_entry_table in R as [[_ ->]|(k & p & _ & _ & Hp & Hu & _ & ->)]; [by apply spares_refl|].
    eapply (spares_insert s _ k p); [done|congruence|done|done].
  - apply (alloc_stack_table _ _ _ _ _ _ n Hn) in R as (q & R & _). eapply entry_spares; [done|done|congruence].
  - apply (fork_memory_table _ _ _ _ _ _ _ n Hn) in R as (q & R & _). eapply entry_spares; [done|done|congruence].
  - apply (fork_descriptors_table _ _ _ _ _ n Hn) in R as (q & R & _). eapply entry_spares; [done|done|congruence].
  - apply (fork_ready_table _ _ _ _ n Hn) in R as [_ ->]. eapply (spares_insert s _ k n); [done|congruence|done|done].
  - apply exit_close_table in R as (cur & p & e & Hc' & _ & Hp & _ & ->). assert (cur = i) as -> by congruence.
    eapply (spares_insert s _ i p); [done|congruence|done|done].
  - apply exit_end_table in R as (cur & pc & Hc' & Hpc & _ & _ & _ & Ep & _ & Hlen & Hex).
    assert (cur = i) as -> by congruence. assert (pc = pr) as -> by congruence. constructor; [done|done|].
    intros j x Hx Hxr.
    assert (is_Some (ps_proc s' !! j)) as [x' Hx'] by (apply lookup_lt_is_Some; rewrite Hlen; by eapply lookup_lt_Some).
    destruct (Hex j x x' Hx Hx') as (E1 & _ & _ & Hst & _). exists x'. split_and!; [done|congruence|].
    destruct Hst as [[-> _]|(_ & _ & [?|[? _]])]; congruence.
  - by eapply wait_spares.
  - apply bind_Ok_inv in R as ([] & s1 & R1 & R). destruct (sleep_return_spares _ _ _ _ _ Hc Hpr Hs R1) as [H1 Ec].
    eapply spares_trans; [exact H1|]. unfold sleep_return in R1. prun R1 as i' Hi. assert (i' = i) as -> by congruence.
    injection R1 as <-. eapply (wait_spares d i _ _ r); [exact Hc| | |exact R].
    + cbn. rewrite (alter_known _ _ _ _ Hpr). apply list_lookup_insert_eq. by eapply lookup_lt_Some.
    + done.
  - apply sleep_on_table in R as (i' & p & Hc' & Hp & ->). assert (i' = i) as -> by congruence.
    eapply (spares_insert s _ i p); [done|congruence|done|done].
  - by eapply sleep_return_spares.
  - unfold yield in R. prun R as i' Hi. assert (i' = i) as -> by congruence. prun R. apply sched_table in R as ->.
    eapply (spares_insert s _ i pr); [done|congruence|cbn; by rewrite (alter_known _ _ _ _ Hpr)|done].
  - unfold sbrk_proc in R. prun R as i' Hi. assert (i' = i) as -> by congruence. prun R as p Hp. prun R. prun R.
    injection R as _ <-. eapply (spares_insert s _ i p); [done|congruence|cbn; by rewrite (alter_known _ _ _ _ Hp)|done].
  - unfold call_proc in R. prun R as i' Hi. assert (i' = i) as -> by congruence. prun R as p Hp. prun R. prun R.
    injection R as _ <-. eapply (spares_insert s _ i p); [done|congruence|cbn; by rewrite (alter_known _ _ _ _ Hp)|done].
  - unfold exec_proc in R. prun R as i' Hi. assert (i' = i) as -> by congruence. prun R as p Hp. prun R. prun R.
    injection R as _ <-. eapply (spares_insert s _ i p); [done|congruence|cbn; by rewrite (alter_known _ _ _ _ Hp)|done].
  - unfold user_store in R. prun R as i' Hi. prun R as p Hp. prun R. destruct (_ && _); [|injection R as _ <-; by apply spares_refl].
    prun R. injection R as _ <-. by apply spares_refl.
  - unfold save_regs in R. prun R as i' Hi. prun R as p Hp. apply memory_inv in R as (m & _ & ->). by apply spares_refl.
Qed.

(** A scheduler round looks at one entry. *)
Lemma round_table c (s s' : st) : scheduler_round c s = Ok (tt, s') ->
  let pos := ps_pos s !!! c in
  length (ps_proc s') = length (ps_proc s) /\
  ps_pos s' = <[c := if (S pos <? length (ps_proc s))%nat then S pos else O]> (ps_pos s) /\
  forall j x, ps_proc s !! j = Some x -> p_state x = RUNNABLE ->
    exists x', ps_proc s' !! j = Some x' /\ p_pid x' = p_pid x /\ p_state x' = if decide (j = pos) then RUNNING else RUNNABLE.
Proof.
  intros R pos. unfold scheduler_round in R. prun R. prun R. prun R. fold pos in R.
  destruct (ps_proc s !! pos) as [p|] eqn:Hp; [|done]. destruct (decide (p_state p = RUNNABLE)) as [Hr|Hr].
  - prun R. injection R as <-. cbn. rewrite length_alter. split_and!; [done|done|]. intros j x Hx Hxr.
    destruct (decide (j = pos)) as [->|Hne].
    + rewrite list_lookup_alter_eq, Hx. eexists. by split_and!.
    + rewrite list_lookup_alter_ne by done. by exists x.
  - injection R as <-. cbn. split_and!; [done|done|]. intros j x Hx Hxr. exists x. split_and!; [done|done|].
    rewrite decide_False; [done|]. intros ->. congruence.
Qed.

(** How many entries the scheduler passes before [j]. *)
Definition distance (n pos j : nat) : nat := if (pos <=? j)%nat then j - pos else j + n - pos.

Lemma distance_next n pos j : (pos < n)%nat -> (j < n)%nat -> pos <> j ->
  S (distance n (if (S pos <? n)%nat then S pos else O) j) = distance n pos j.
Proof. intros H1 H2 H3. unfold distance. destruct (Nat.ltb_spec (S pos) n);
  repeat match goal with |- context [Nat.leb ?a ?b] => destruct (Nat.leb_spec a b) end; lia. Qed.

Lemma step_waits l c c1 j pid cpu pos : table_ok c -> pstep l c c1 -> ps_pos c.1 !! cpu = Some pos ->
  (pos < length (ps_proc c.1))%nat -> waits_now j pid c ->
  length (ps_proc c1.1) = length (ps_proc c.1) /\
  (runs_now j pid c1 \/ waits_now j pid c1 /\ exists pos', ps_pos c1.1 !! cpu = Some pos' /\
     (pos' < length (ps_proc c.1))%nat /\
     (distance (length (ps_proc c.1)) pos' j + (if is_round cpu l then 1 else 0) <= distance (length (ps_proc c.1)) pos j)%nat).
Proof.
  intros Hok Hst Hpos Hlt (x & Hx & Hpid & Hr). pose proof (lookup_lt_Some _ _ _ Hx) as Hj.
  destruct l as [d|].
  2: { destruct (other_spares _ c c1 Hok Hst) as [Hl Hp Hsp]; [done|].
    destruct (Hsp j x Hx Hr) as (x' & Hx' & Hpid' & Hr'). split; [done|right]. split; [exists x'; split_and!; congruence|].
    exists pos. rewrite Hp. split_and!; [done|done|cbn; lia]. }
  inversion Hst as [d' s s' w Hc R| | | | | | | | | | | | | | | | | | |]; subst. cbn [fst snd] in *.
  destruct (round_table d s s' R) as (Hl & Hp & Hrd). destruct (Hrd j x Hx Hr) as (x' & Hx' & Hpid' & Hr').
  split; [done|]. destruct (decide (j = ps_pos s !!! d)) as [Ej|Ej]; [left; exists x'; split_and!; cbn; congruence|].
  right.
  split; [exists x'; split_and!; cbn; congruence|]. cbn. rewrite Hp. destruct (Nat.eqb_spec d cpu) as [->|Hne].
  - rewrite list_lookup_insert_eq by (by eapply lookup_lt_Some). eexists. split; [reflexivity|].
    assert (ps_pos s !!! cpu = pos) as Epos by (by apply list_lookup_total_correct). rewrite Epos in *. split.
    + destruct (Nat.ltb_spec (S pos) (length (ps_proc s))); lia.
    + rewrite <- (distance_next _ pos j); [lia|done|done|congruence].
  - rewrite list_lookup_insert_ne by done. exists pos. split_and!; [done|done|lia].
Qed.

Lemma serves cpu j pid ls c c' : prun ls c c' -> forall pos, table_ok c -> ps_pos c.1 !! cpu = Some pos ->
  (pos < length (ps_proc c.1))%nat -> waits_now j pid c ->
  (distance (length (ps_proc c.1)) pos j < rounds cpu ls)%nat -> passes (runs_now j pid) ls c c'.
Proof.
  induction 1 as [c|l ls c c1 c' Hst Hr IH]; intros pos Hok Hpos Hlt Hw Hn; [cbn in Hn; lia|].
  pose proof (pstep_ok _ _ _ _ _ _ _ Hok Hst) as Hok1.
  destruct (step_waits l c c1 j pid cpu pos Hok Hst Hpos Hlt Hw) as (Hl & [Hrun|(Hw1 & pos' & Hp' & Hlt' & Hd)]).
  { eapply passes_later; [done|]. by apply passes_now. }
  eapply passes_later; [done|]. apply (IH pos'); [done|done|lia|done|].
  unfold rounds in *. rewrite filter_cons in Hn. rewrite Hl.
  destruct (decide (is_round cpu l = true)) as [Er|Er]; cbn [length] in Hn; [rewrite Er in Hd|apply not_true_is_false in Er; rewrite Er in Hd]; lia.
Qed.

(** C16. The scheduler is fair.  Take any state that can be reached from boot, any
    CPU whose scheduler looks at some entry of the table, and any process that is
    RUNNABLE.  In every run from there, whatever the other CPUs and processes do,
    that process has been on a CPU by the time the scheduler of the chosen CPU has
    made as many rounds as the table has entries. *)
Theorem scheduler_fair initcode (s0 s1 s : st) w ls c' cpu pos j pid :
  fresh_table s0 -> userinit kend data trapret forkret initcode s0 = Ok (tt, s1) ->
  psteps (s1, replicate (length (ps_proc s1)) AtUser) (s, w) ->
  ps_pos s !! cpu = Some pos -> (pos < length (ps_proc s))%nat ->
  waits_now j pid (s, w) -> prun ls (s, w) c' -> (length (ps_proc s) <= rounds cpu ls)%nat ->
  passes (runs_now j pid) ls (s, w) c'.
Proof.
  intros Hf Hi Hr Hpos Hlt Hw Hrun Hn.
  assert (table_ok (s, w)) as Hok.
  { pose proof (boot_ok _ _ _ Hf Hi) as Hok. revert Hok. induction Hr as [|? ? ? [l Hl] _ IH]; eauto using pstep_ok. }
  eapply (serves cpu j pid ls (s, w) c' Hrun pos); [done|done|done|done|]. cbn.
  destruct Hw as (x & Hx & _). apply lookup_lt_Some in Hx. cbn in Hx. unfold distance. destruct (Nat.leb_spec pos j); lia.
Qed.

(** * Killing an entry that is not in use *)

Lemma find_unused_insert (t : list (proc X)) i p q : t !! i = Some p -> p_state q = p_state p ->
  forall k, find_unused (<[i := q]> t) k = find_unused t k.
Proof.
  revert i. induction t as [|x t IH]; intros i Hp Hs k; [done|]. destruct i as [|i]; cbn in *.
  - injection Hp as ->. by rewrite Hs.
  - destruct (decide _); [done|]. by apply IH.
Qed.

(** C19. [kill] with pid 0 dooms the next child.  When the first entry that is not
    in use has pid 0, as after boot and after every [wait], and no earlier entry
    has, [kill] of pid 0 returns 0 and marks that entry as killed; [allocproc] does
    not clear the mark, so the child that the next successful [fork] makes is
    RUNNABLE and already killed. *)
Theorem kill_zero_dooms_child (s : st) i :
  find_unused (ps_proc s) 0 = Some i -> find_pid (ps_proc s) 0 0 = Some i ->
  exists s1, kill 0 s = Ok (0, s1) /\
    forall c r s2, fork kend data trapret forkret c s1 = Ok (r, s2) -> r <> -1 ->
      exists q, ps_proc s2 !! i = Some q /\ p_pid q = r /\ p_state q = RUNNABLE /\ p_killed q = 1.
Proof.
  intros Hu Hz. pose proof Hu as (_ & p & Hp & Hs)%find_unused_spec. rewrite Nat.sub_0_r in Hp.
  pose proof (lookup_lt_Some _ _ _ Hp) as Hlt.
  assert (kill 0 s = Ok (0, put_procs (<[i := set_killed 1 p]> (ps_proc s)) s)) as E1.
  { unfold kill, bind, gets, upd, modify. rewrite Hz, (alter_known _ _ _ _ Hp). rewrite (getp_Ok _ _ (set_killed 1 p)).
    - rewrite bool_decide_false by (cbn; congruence). done.
    - cbn. by apply list_lookup_insert_eq. }
  eexists. split; [exact E1|]. intros c r s2 R Hr.
  apply fork_table in R as (_ & _ & _ & cur & _ & R).
  destruct R as [(? & _)|(k & x & q & Hf & Hx & _ & Et & _ & Hpid & _ & Hk & Hq)]; [done|].
  cbn in Hf, Hx, Et. rewrite (find_unused_insert _ i p) in Hf by done. assert (k = i) as -> by congruence.
  rewrite list_lookup_insert_eq in Hx by done. injection Hx as <-. destruct Hq as [[? _]|(-> & Hst & _)]; [done|].
  exists q. split_and!; [|done|done|done]. rewrite Et, list_lookup_insert_eq; [done|]. by rewrite length_insert.
Qed.
End Live.
