(* ===== verification/ProcMem.v ===== *)
(** Every page of memory has one owner: the free list, the file side, or one
    process, whatever processes do. *)

From S2P Require Import Prelude Mem Strings Bio Kalloc Vm VmSpace VmUser VmKernel VmCopy Proc ProcTable ProcInv ProcLive.
Local Open Scope Z_scope.

Section Spaces.
  Context (kend : Z).
Abbreviation page_ok := (page_ok kend).
Abbreviation kmem_ok := (kmem_ok kend).
Abbreviation uspace := (uspace kend).
Abbreviation pages := tables.

(** * Address spaces in one memory *)

(** The local part of [uspace]. *)
Record space_at (m : mem) (pgdir : Z) (tabs um : gmap Z Z) : Prop := {
  sa_dir : forall i, 0 <= i < 1024 ->
    match tabs !! i with
    | Some t => ld32 m (pgdir + 4 * i) = V2P t + 7
    | None => has PTE_P (ld32 m (pgdir + 4 * i)) = false
    end;
  sa_dom : forall i t, tabs !! i = Some t -> 0 <= i < 1024;
  sa_user : user m pgdir um
}.

Lemma space_at_of s pgdir tabs um rest free : uspace s pgdir tabs um rest free -> space_at (k_mem s) pgdir tabs um.
Proof. intros [[_ Hd Ho _ _] Hu]. by constructor. Qed.

Lemma uspace_of s pgdir tabs um rest free : space_at (k_mem s) pgdir tabs um -> kmem_ok s free ->
  NoDup (pgdir :: tables tabs ++ (pages um ++ rest) ++ free) ->
  Forall page_ok (pgdir :: tables tabs ++ (pages um ++ rest) ++ free) -> uspace s pgdir tabs um rest free.
Proof. intros [Hd Ho Hu] Hk Hn Hp. split; [by constructor|done]. Qed.

Lemma space_at_frame m m' pgdir tabs um : space_at m pgdir tabs um -> Forall page_ok (pgdir :: tables tabs) ->
  (forall v, v ∈ pgdir :: tables tabs -> same_page m m' v) -> space_at m' pgdir tabs um.
Proof.
  intros [Hd Ho Hu] Hpg Hs.
  assert (forall i, 0 <= i < 1024 -> ld32 m' (pgdir + 4 * i) = ld32 m (pgdir + 4 * i)) as Hdir
    by (intros i Hi; apply ld32_same; [apply Hs; left|done]).
  constructor; [intros i Hi; rewrite Hdir by done; by apply Hd|done|].
  eapply user_ext; [exact Hu|]. intros va _. unfold lookup_pte. rewrite Hdir by apply PDX_range.
  pose proof (Hd (PDX va) (PDX_range va)) as Hva. destruct (tabs !! PDX va) as [t|] eqn:Et; [|by rewrite Hva].
  apply tables_lookup in Et. rewrite Forall_forall in Hpg.
  destruct (entry_read kend t 7 (Hpg t ltac:(by right)) ltac:(lia)) as (_ & Ha & _). rewrite Hva, Ha.
  destruct (has _ _); [|done]. apply ld32_same; [apply Hs; by right|apply PTX_range].
Qed.

(** * The pages of an entry of the process table *)

  Context {X : Type}.

(** A process: its kernel stack, with the trap frame at its top, and its memory. *)
Definition full_slot (m : mem) (p : proc X) (R : list Z) : Prop :=
  exists tabs um, R = p_kstack p :: p_pgdir p :: tables tabs ++ pages um /\ space_at m (p_pgdir p) tabs um /\
    0 <= p_sz p < KERNBASE /\ (forall q u, um !! q = Some u -> 4096 * q < p_sz p) /\ p_tf p = p_kstack p + 4020.

(** A child in the making has nothing yet, or its kernel stack. *)
Definition slot_ok (m : mem) (p : proc X) (pl : option place) (R : list Z) : Prop :=
  match p_state p, pl with
  | UNUSED, _ => R = []
  | EMBRYO, Some (Newborn Bare _) => R = []
  | EMBRYO, Some (Newborn Stacked _) => R = [p_kstack p] /\ p_tf p = p_kstack p + 4020
  | _, _ => full_slot m p R
  end.

Lemma full_frame m m' p R : full_slot m p R -> Forall page_ok R -> (forall v, v ∈ R -> same_page m m' v) -> full_slot m' p R.
Proof.
  intros (tabs & um & -> & Ha & H) Hp Hs. exists tabs, um.
  split_and!; [done| |apply H..]. eapply space_at_frame; [exact Ha| |].
  - rewrite Forall_forall in *. intros v Hv. apply Hp. set_solver +Hv.
  - intros v Hv. apply Hs. set_solver +Hv.
Qed.

Lemma slot_frame m m' p pl R : slot_ok m p pl R -> Forall page_ok R -> (forall v, v ∈ R -> same_page m m' v) -> slot_ok m' p pl R.
Proof.
  unfold slot_ok. intros H Hp Hs. destruct (p_state p) as [| | | | |], pl as [[| | | | |[| | |]]|]; try done; by eapply full_frame.
Qed.

Lemma slot_full m p pl R : p_state p <> UNUSED -> p_state p <> EMBRYO -> slot_ok m p pl R <-> full_slot m p R.
Proof. intros H1 H2. unfold slot_ok. by destruct (p_state p). Qed.

(** The fields that say which pages an entry owns. *)
Definition res (p : proc X) : Z * Z * Z * Z := (p_kstack p, p_pgdir p, p_sz p, p_tf p).

Lemma full_res m p q R : res q = res p -> full_slot m p R -> full_slot m q R.
Proof. intros [= E1 E2 E3 E4]. unfold full_slot. by rewrite E1, E2, E3, E4. Qed.

(** The use of an entry: none, being made, or a process. *)
Definition same_use (p q : proc X) : Prop :=
  (p_state q = UNUSED <-> p_state p = UNUSED) /\ (p_state q = EMBRYO <-> p_state p = EMBRYO).

Lemma slot_same m p q pl R : res q = res p -> same_use p q -> slot_ok m p pl R -> slot_ok m q pl R.
Proof.
  intros Er [Hu He] H. destruct (decide (p_state p = UNUSED)) as [E|E].
  { unfold slot_ok in *. rewrite (proj2 Hu E). by rewrite E in H. }
  destruct (decide (p_state p = EMBRYO)) as [E'|E'].
  - pose proof Er as [= Ek _ _ Et]. unfold slot_ok in *. rewrite (proj2 He E'), ?Ek, ?Et. rewrite E' in H.
    destruct pl as [[| | | | |[| | |]]|]; try done; by eapply full_res.
  - apply (slot_full m q); [tauto|tauto|]. apply (slot_full m p) in H; [|done|done]. by eapply full_res.
Qed.
End Spaces.

(** What the file side promises about memory: it holds some pages (of pipes); its calls
    give pages back or take them, and write to no others but the memory of the process
    that calls; exec replaces the memory of the process by another, and gives the rest
    of its pages back. *)
Class ProcEnvLaws (kend : Z) (E X : Type) `{!ProcEnv E X} := {
  pe_held : E -> list Z;
  pe_get_set : forall k e, pe_mem (pe_set k e) = k;
  pe_held_set : forall k e, pe_held (pe_set k e) = pe_held e;
  pf_init_mem : forall e x e', pf_init e = Ok (x, e') -> pe_mem e' = pe_mem e /\ pe_held e' = pe_held e;
  pf_fork_mem : forall x e x' e', pf_fork x e = Ok (x', e') -> pe_mem e' = pe_mem e /\ pe_held e' = pe_held e;
  pf_exit_mem : forall x e e' free rest, kmem_ok kend (pe_mem e) free ->
    NoDup (rest ++ pe_held e ++ free) -> Forall (page_ok kend) (rest ++ pe_held e ++ free) ->
    pf_exit x e = Ok (tt, e') ->
    exists free', kmem_ok kend (pe_mem e') free' /\ pe_held e' ++ free' ≡ₚ pe_held e ++ free /\
      forall v, v ∈ rest -> same_page (k_mem (pe_mem e)) (k_mem (pe_mem e')) v;
  pf_call_mem : forall num p e r e' free rest R, kmem_ok kend (pe_mem e) free -> full_slot (k_mem (pe_mem e)) p R ->
    NoDup (R ++ rest ++ pe_held e ++ free) -> Forall (page_ok kend) (R ++ rest ++ pe_held e ++ free) ->
    pf_call num p e = Ok (r, e') ->
    exists free', kmem_ok kend (pe_mem e') free' /\ pe_held e' ++ free' ≡ₚ pe_held e ++ free /\
      full_slot (k_mem (pe_mem e')) p R /\ forall v, v ∈ rest -> same_page (k_mem (pe_mem e)) (k_mem (pe_mem e')) v;
  pf_exec_mem : forall path argv p e r p' e' free rest R, kmem_ok kend (pe_mem e) free -> full_slot (k_mem (pe_mem e)) p R ->
    NoDup (R ++ rest ++ pe_held e ++ free) -> Forall (page_ok kend) (R ++ rest ++ pe_held e ++ free) ->
    pf_exec path argv p e = Ok ((r, p'), e') ->
    exists R' free', kmem_ok kend (pe_mem e') free' /\ R' ++ pe_held e' ++ free' ≡ₚ R ++ pe_held e ++ free /\
      full_slot (k_mem (pe_mem e')) (set_name (p_name p') (set_space (p_pgdir p') (p_sz p') p)) R' /\
      forall v, v ∈ rest -> same_page (k_mem (pe_mem e)) (k_mem (pe_mem e')) v
}.

Section ProcMem.
  Context (kend data trapret forkret : Z).
  Hypothesis kend_high : KERNBASE < kend.
  Hypothesis data_aligned : data mod 4096 = 0.
  Hypothesis data_range : KERNLINK < data < KERNBASE + PHYSTOP.
  Context {E X : Type} `{!ProcEnv E X} `{!ProcEnvLaws kend E X}.
Abbreviation st := (pstate E X).
Abbreviation page_ok := (page_ok kend).
Abbreviation kmem_ok := (kmem_ok kend).
Abbreviation uspace := (uspace kend).
Abbreviation pages := tables.

(** * Ownership *)

(** All pages: those of the processes, of the file side, and the free ones. *)
Definition owned (all : list Z) (c : st * list place) : Prop := exists Rs free,
  length Rs = length (ps_proc c.1) /\
  (forall i p R, ps_proc c.1 !! i = Some p -> Rs !! i = Some R -> slot_ok (k_mem (pe_mem (ps_env c.1))) p (c.2 !! i) R) /\
  kmem_ok (pe_mem (ps_env c.1)) free /\ NoDup all /\ Forall page_ok all /\
  concat Rs ++ pe_held (ps_env c.1) ++ free ≡ₚ all.

Lemma concat_at (Rs : list (list Z)) i R : Rs !! i = Some R -> concat Rs ≡ₚ R ++ concat (<[i := []]> Rs).
Proof.
  revert i. induction Rs as [|R0 Rs IH]; intros i Hi; [done|]. destruct i as [|i]; cbn in *; [by injection Hi as ->|].
  rewrite (IH i Hi). solve_Permutation.
Qed.

Lemma concat_insert (Rs : list (list Z)) i R : (i < length Rs)%nat -> concat (<[i := R]> Rs) ≡ₚ R ++ concat (<[i := []]> Rs).
Proof. intros Hi. rewrite (concat_at _ i R); [by rewrite list_insert_insert_eq|]. by apply list_lookup_insert_eq. Qed.

(** The places of the children in the making stay, that of [i] apart. *)
Definition same_stages (i : nat) (t : list (proc X)) (w w' : list place) : Prop :=
  forall j q, j <> i -> t !! j = Some q -> p_state q = EMBRYO -> w' !! j = w !! j.

Lemma slot_stages m i t w w' j q R : same_stages i t w w' -> j <> i -> t !! j = Some q -> slot_ok m q (w !! j) R -> slot_ok m q (w' !! j) R.
Proof.
  intros Hw Hne Hj H. destruct (decide (p_state q = EMBRYO)) as [He|He]; [by rewrite (Hw j q Hne Hj He)|].
  unfold slot_ok in *. by destruct (p_state q).
Qed.

(** Entry [i] changes with its pages, the file side and the free list. *)
Lemma owned_change all (s s' : st) w w' i p p' Rs R R' free free' :
  ps_proc s !! i = Some p -> ps_proc s' = <[i := p']> (ps_proc s) -> same_stages i (ps_proc s) w w' ->
  length Rs = length (ps_proc s) -> Rs !! i = Some R ->
  (forall j q Q, j <> i -> ps_proc s !! j = Some q -> Rs !! j = Some Q -> slot_ok (k_mem (pe_mem (ps_env s))) q (w !! j) Q) ->
  NoDup all -> Forall page_ok all -> concat Rs ++ pe_held (ps_env s) ++ free ≡ₚ all ->
  kmem_ok (pe_mem (ps_env s')) free' -> R' ++ pe_held (ps_env s') ++ free' ≡ₚ R ++ pe_held (ps_env s) ++ free ->
  (forall v, v ∈ concat (<[i := []]> Rs) -> same_page (k_mem (pe_mem (ps_env s))) (k_mem (pe_mem (ps_env s'))) v) ->
  slot_ok (k_mem (pe_mem (ps_env s'))) p' (w' !! i) R' -> owned all (s', w').
Proof.
  intros Hp Et Hw Hlen HR Hslots Hn Hpg Hall Hk' Hpe Hsame Hslot.
  assert (i < length Rs)%nat as Hlt by (by eapply lookup_lt_Some).
  exists (<[i := R']> Rs), free'. cbn [fst snd]. split_and!; [by rewrite Et, !length_insert| |done|done|done|].
  - intros j q Q Hq HQ. rewrite Et in Hq. apply list_lookup_insert_Some in HQ as [(<- & <- & _)|[Hne HQ]].
    + rewrite list_lookup_insert_eq in Hq by (by rewrite <- Hlen). by injection Hq as <-.
    + rewrite list_lookup_insert_ne in Hq by done. eapply slot_stages; [exact Hw|done|exact Hq|].
      eapply slot_frame; [by eapply Hslots| |].
      * rewrite Forall_forall in *. intros v Hv. apply Hpg. rewrite <- Hall. apply elem_of_app; left.
        apply list_elem_of_In, in_concat. exists Q. split; apply list_elem_of_In; [by eapply list_elem_of_lookup_2|done].
      * intros v Hv. apply Hsame. apply list_elem_of_In, in_concat. exists Q. split; apply list_elem_of_In; [|done].
        apply (list_elem_of_lookup_2 _ j). by rewrite list_lookup_insert_ne.
  - rewrite <- Hall, concat_insert by done. rewrite (concat_at Rs i R HR).
    trans (concat (<[i := []]> Rs) ++ (R' ++ pe_held (ps_env s') ++ free')); [solve_Permutation|]. rewrite Hpe. solve_Permutation.
Qed.

(** Nothing happens to memory, and entries stay in use with their pages. *)
Lemma owned_same all (s s' : st) w w' : owned all (s, w) ->
  pe_mem (ps_env s') = pe_mem (ps_env s) -> pe_held (ps_env s') = pe_held (ps_env s) ->
  length (ps_proc s') = length (ps_proc s) -> (forall j q, ps_proc s !! j = Some q -> p_state q = EMBRYO -> w' !! j = w !! j) ->
  (forall j p p', ps_proc s !! j = Some p -> ps_proc s' !! j = Some p' ->
     same_use p p' /\ (p_state p <> UNUSED -> res p' = res p)) ->
  owned all (s', w').
Proof.
  intros (Rs & free & Hlen & Hsl & Hk & Hn & Hp & Hall) Em Eh El Hw Ht. cbn [fst snd] in *. exists Rs, free. cbn [fst snd]. rewrite Em, Eh.
  split_and!; [congruence| |done|done|done|done]. intros i p' R Hp' HR.
  assert (is_Some (ps_proc s !! i)) as [p Hpi] by (apply lookup_lt_is_Some; rewrite <- El; by eapply lookup_lt_Some).
  pose proof (Hsl i p R Hpi HR) as Hs. destruct (Ht i p p' Hpi Hp') as [Hu Hr].
  assert (slot_ok (k_mem (pe_mem (ps_env s))) p (w' !! i) R) as Hs'.
  { destruct (decide (p_state p = EMBRYO)) as [He|He]; [by rewrite (Hw i p Hpi He)|]. unfold slot_ok in *. by destruct (p_state p). }
  destruct (decide (p_state p = UNUSED)) as [E0|E0]; [|eapply slot_same; [by apply Hr|exact Hu|exact Hs']].
  unfold slot_ok in *. rewrite (proj2 (proj1 Hu) E0). by rewrite E0 in Hs'.
Qed.

(** * Writes inside one page *)

Definition touches (v : Z) (m m' : mem) : Prop := forall u, page_ok u -> u <> v -> same_page m m' u.

Lemma touches_refl v m : touches v m m.
Proof. by intros u _ _ a _. Qed.

Lemma touches_trans v m1 m2 m3 : touches v m1 m2 -> touches v m2 m3 -> touches v m1 m3.
Proof. intros H1 H2 u Hu Hne. eapply same_page_trans; [by apply H1|by apply H2]. Qed.

Lemma touches_mwrite v m a l : page_ok v -> v <= a -> a + Z.of_nat (length l) <= v + PGSIZE -> touches v m (mwrite m a l).
Proof.
  intros Hv Ha Hl u Hu Hne x Hx. rewrite mget_mwrite.
  destruct (pages_apart kend u v Hu Hv Hne); rewrite decide_False; (done || lia).
Qed.

Lemma touches_st32 v m a x : page_ok v -> v <= a -> a + 4 <= v + PGSIZE -> touches v m (st32 m a x).
Proof. intros Hv Ha Hl. apply touches_mwrite; [done|done|]. by rewrite length_le_bytes. Qed.

Lemma touches_st16 v m a x : page_ok v -> v <= a -> a + 2 <= v + PGSIZE -> touches v m (st16 m a x).
Proof. intros Hv Ha Hl. apply touches_mwrite; [done|done|]. by rewrite length_le_bytes. Qed.

Lemma touches_memset v m a n : page_ok v -> v <= a -> 0 <= n -> a + n <= v + PGSIZE -> touches v m (memset m a 0 n).
Proof.
  intros Hv Ha Hn Hl. rewrite memset_eq by done. apply touches_mwrite; [done|done|]. rewrite length_replicate. lia.
Qed.

Lemma kmem_frame s s' free : kmem_ok s free -> k_freelist s' = k_freelist s ->
  (forall v, v ∈ free -> same_page (k_mem s) (k_mem s') v) -> kmem_ok s' free.
Proof.
  intros [Hc Hn Hp] Ef Hs. constructor; [|done|done]. rewrite Ef. eapply chain_frame; [|exact Hc].
  intros v Hv. rewrite <- (Z.add_0_r v) at 1 2. apply (ld32_same _ _ v 0); [by apply Hs|lia].
Qed.

(** ** allocproc *)

Lemma alloc_stack_mem i (s s' : st) r free p : kmem_ok (pe_mem (ps_env s)) free -> ps_proc s !! i = Some p ->
  alloc_stack trapret forkret i s = Ok (r, s') ->
  pe_held (ps_env s') = pe_held (ps_env s) /\
  match r with
  | None => pe_mem (ps_env s') = pe_mem (ps_env s)
  | Some _ => exists v l q, free = v :: l /\ page_ok v /\ kmem_ok (pe_mem (ps_env s')) l /\
      touches v (k_mem (pe_mem (ps_env s))) (k_mem (pe_mem (ps_env s'))) /\
      ps_proc s' !! i = Some q /\ p_kstack q = v /\ p_tf q = v + 4020
  end.
Proof.
  intros Hk Hp H. unfold alloc_stack in H. pose proof (lookup_lt_Some _ _ _ Hp) as Hlt. prun H as v R. prun H.
  rewrite (alter_known _ i _ p Hp) in H.
  destruct free as [|v' l].
  - pose proof (kalloc_spec kend _ _ Hk) as Ek. rewrite Ek in R. injection R as <- <-.
    rewrite Z.eqb_refl in H. prun H. injection H as <- <-. cbn. by rewrite pe_held_set, pe_get_set.
  - destruct (kalloc_spec kend _ _ Hk) as (k1 & Ek & Hk1 & Hz & Hvl & Hv & Hm & _).
    rewrite Ek in R. injection R as <- <-. replace (v' =? 0) with false in H by (symmetry; by apply Z.eqb_neq).
    prun H as u1 R1. prun H as u2 R2. prun H as u3 R3. prun H. injection H as <- <-. cbn.
    rewrite !pe_held_set, !pe_get_set in *. split; [done|].
    injection R1 as _ <-. injection R2 as _ <-. injection R3 as _ <-. rewrite ?pe_get_set.
    set (m1 := k_mem k1) in *.
    assert (touches v' m1 (st32 (memset (st32 m1 (v' + KSTACKSIZE - SIZEOF_TRAPFRAME - 4) trapret)
      (v' + KSTACKSIZE - SIZEOF_TRAPFRAME - 4 - SIZEOF_CONTEXT) 0 SIZEOF_CONTEXT)
      (v' + KSTACKSIZE - SIZEOF_TRAPFRAME - 4 - SIZEOF_CONTEXT + CTX_EIP) forkret)) as Ht.
    { unfold KSTACKSIZE, SIZEOF_TRAPFRAME, SIZEOF_CONTEXT, CTX_EIP.
      eapply touches_trans; [|apply touches_st32; unfold PGSIZE; [done|lia|lia]].
      eapply touches_trans; [|apply touches_memset; unfold PGSIZE; [done|lia|lia|lia]].
      apply touches_st32; unfold PGSIZE; [done|lia|lia]. }
    exists v', l. eexists. refine (conj eq_refl (conj Hv (conj _ (conj _ (conj _ (conj _ _))))));
      [|by rewrite <- Hm|rewrite alter_insert by done; by apply list_lookup_insert_eq|done|cbn; unfold KSTACKSIZE, SIZEOF_TRAPFRAME; lia].
    eapply kmem_frame; [exact Hk1|done|]. intros u Hu'. cbn. apply Ht.
    + destruct Hk1 as [_ _ Hp1]. rewrite Forall_forall in Hp1. auto.
    + by intros ->.
Qed.

Lemma allocproc_mem (s s' : st) i free : kmem_ok (pe_mem (ps_env s)) free -> allocproc trapret forkret s = Ok (Some i, s') ->
  pe_held (ps_env s') = pe_held (ps_env s) /\
  exists v l q, free = v :: l /\ page_ok v /\ kmem_ok (pe_mem (ps_env s')) l /\
    touches v (k_mem (pe_mem (ps_env s))) (k_mem (pe_mem (ps_env s'))) /\
    ps_proc s' !! i = Some q /\ p_kstack q = v /\ p_tf q = v + 4020.
Proof.
  intros Hk (e & s1 & R & H)%bind_Ok_inv. apply alloc_entry_table in R as [[-> ->]|(j & p & -> & _ & Hp & _ & _ & ->)]; [done|].
  match type of H with alloc_stack _ _ _ ?s1 = _ => set (s1' := s1) in H end.
  assert (ps_proc s1' !! j = Some (set_pid (ps_nextpid s) (set_state EMBRYO p))) as Hj
    by (apply list_lookup_insert_eq; by eapply lookup_lt_Some).
  assert (j = i) as ->.
  { by apply (alloc_stack_table _ _ _ _ _ _ _ Hj) in H as (q & _ & _ & _ & _ & [[? _]|[[= <-] _]]). }
  exact (alloc_stack_mem i s1' s' (Some i) free _ Hk Hj H).
Qed.

(** ** The address space of one process among the others *)

Lemma slot_uspace all k Rs i p tabs um held extra free :
  Rs !! i = Some (p_kstack p :: p_pgdir p :: tables tabs ++ pages um) ->
  space_at (k_mem k) (p_pgdir (X := X) p) tabs um -> kmem_ok k free -> NoDup all -> Forall page_ok all ->
  concat Rs ++ held ++ extra ++ free ≡ₚ all ->
  uspace k (p_pgdir p) tabs um (p_kstack p :: concat (<[i := []]> Rs) ++ held ++ extra) free.
Proof.
  intros HR Ha Hk Hn Hp Hall.
  assert (p_pgdir p :: tables tabs ++ (pages um ++ p_kstack p :: concat (<[i := []]> Rs) ++ held ++ extra) ++ free ≡ₚ all) as Hpe.
  { rewrite <- Hall, (concat_at Rs i _ HR). cbn. solve_Permutation. }
  apply uspace_of; [done|done|by rewrite Hpe|by rewrite Hpe].
Qed.

Lemma all_page all v : Forall page_ok all -> v ∈ all -> page_ok v.
Proof. rewrite Forall_forall. auto. Qed.

Lemma on_mem_inv f k k' u : on_mem f k = Ok (u, k') -> k' = mkk (f (k_mem k)) (k_use_lock k) (k_freelist k).
Proof. by intros [= _ <-]. Qed.

Lemma npages_below sz q : 0 <= sz -> 0 <= q < npages sz -> 4096 * q < sz.
Proof. unfold npages. intros. divmod. Qed.

(** The place of a process says nothing of its pages. *)
Lemma stages_insert i k t w x y : (forall p, t !! i = Some p -> p_state p <> EMBRYO) ->
  same_stages k t w (<[k := x]> w) /\ same_stages k t w (<[k := x]> (<[i := y]> w)).
Proof.
  intros Hi. split; intros j q Hne Hj He; rewrite !list_lookup_insert_ne; try done. intros ->. by apply (Hi q).
Qed.

(** The pages of the entry [k] of a child in the making, and of the process [i] that makes it. *)
Lemma owned_at all s w i p : owned all (s, w) -> ps_proc s !! i = Some p -> exists Rs R free,
  length Rs = length (ps_proc s) /\ Rs !! i = Some R /\ slot_ok (k_mem (pe_mem (ps_env s))) p (w !! i) R /\
  (forall j q Q, ps_proc s !! j = Some q -> Rs !! j = Some Q -> slot_ok (k_mem (pe_mem (ps_env s))) q (w !! j) Q) /\
  kmem_ok (pe_mem (ps_env s)) free /\ NoDup all /\ Forall page_ok all /\ concat Rs ++ pe_held (ps_env s) ++ free ≡ₚ all.
Proof.
  intros (Rs & free & Hlen & Hsl & H) Hp. cbn [fst snd] in *.
  assert (is_Some (Rs !! i)) as [R HR] by (apply lookup_lt_is_Some; rewrite Hlen; by eapply lookup_lt_Some).
  exists Rs, R, free. split_and!; try done; [by apply Hsl|apply H..].
Qed.

Lemma take_owned all c i s s' r w : table_ok (s, w) -> owned all (s, w) -> runs s w c i AtUser -> alloc_entry s = Ok (r, s') ->
  owned all (s', match r with None => w | Some k => <[k := Newborn Bare i]> (<[i := Forking k]> w) end).
Proof.
  intros Hok Ho Hr R. pose proof (take_ok _ _ _ _ _ _ Hok Hr R) as Hok'. destruct (runs_proc _ _ _ _ _ Hok Hr) as (pi & Hpi & Hs).
  apply alloc_entry_table in R as [[-> ->]|(k & p & -> & _ & Hp & Hu & _ & ->)]; [done|].
  destruct (owned_at _ _ _ _ _ Ho Hp) as (Rs & R & free & Hlen & HR & Hslot & Hsl & Hk & Hn & Hpg & Hall).
  unfold slot_ok in Hslot. rewrite Hu in Hslot. subst R.
  pose proof (sl_len _ _ (tb_sleeping _ Hok)) as Hlw. pose proof (lookup_lt_Some _ _ _ Hp) as Hlk. cbn in Hlw.
  eapply (owned_change all s _ w _ k p _ Rs [] [] free free); [done|reflexivity| |done|done|by intros j x Q _; apply Hsl|done|done|done|done|done|done|].
  - apply stages_insert. intros x Hx. congruence.
  - rewrite list_lookup_insert_eq by (rewrite length_insert; lia). done.
Qed.

Lemma stack_owned all c i k s s' r w : table_ok (s, w) -> owned all (s, w) -> runs s w c i (Forking k) -> w !! k = Some (Newborn Bare i) ->
  alloc_stack trapret forkret k s = Ok (r, s') ->
  owned all (s', match r with None => <[k := AtUser]> (<[i := AtUser]> w) | Some _ => <[k := Newborn Stacked i]> w end).
Proof.
  intros Hok Ho Hr Hk R. destruct (newborn_proc _ _ _ _ _ _ Hok Hr Hk) as (Hik & Hli & Hlk & n & Hn & Hs & _).
  destruct (runs_proc _ _ _ _ _ Hok Hr) as (pi & Hpi & Hsi).
  destruct (owned_at _ _ _ _ _ Ho Hn) as (Rs & Rk & free & Hlen & HR & Hslot & Hsl & Hkm & Hnd & Hpg & Hall).
  unfold slot_ok in Hslot. rewrite Hs, Hk in Hslot. subst Rk.
  pose proof (alloc_stack_mem k s s' r free n Hkm Hn R) as [Eh Hm].
  apply (alloc_stack_table _ _ _ _ _ _ n Hn) in R as (q & (Et & _) & _ & _ & _ & Hq).
  assert (forall x, ps_proc s !! i = Some x -> p_state x <> EMBRYO) as Hne by (intros x Hx; congruence).
  destruct (stages_insert i k (ps_proc s) w (Newborn Stacked i) AtUser Hne) as [St1 _].
  destruct (stages_insert i k (ps_proc s) w AtUser AtUser Hne) as [_ St2].
  destruct Hq as [[-> Hq]|[-> Hq]].
  - eapply (owned_change all s s' w _ k n q Rs [] [] free free); [done|done|done|done|done|by intros j x Q _; apply Hsl|done|done|done| | | |].
    + by rewrite Hm.
    + by rewrite Eh.
    + by rewrite Hm.
    + unfold slot_ok. by rewrite Hq.
  - destruct Hm as (v & l & q' & -> & Hv & Hk1 & Ht & Hq' & Eks & Etf).
    rewrite Et, list_lookup_insert_eq in Hq' by (by eapply lookup_lt_Some). injection Hq' as <-.
    assert (NoDup (v :: concat Rs ++ pe_held (ps_env s) ++ l)) as [Hnv _]%NoDup_cons
      by (eapply NoDup_Permutation_proper; [|exact Hnd]; rewrite <- Hall; solve_Permutation).
    eapply (owned_change all s s' w _ k n q Rs [] [v] (v :: l) l); [done|done|done|done|done|by intros j x Q _; apply Hsl|done|done|exact Hall|done| | |].
    + rewrite Eh. solve_Permutation.
    + rewrite list_insert_id by done. intros u Hu. apply Ht; [|intros ->; set_solver +Hnv Hu].
      rewrite Forall_forall in Hpg. apply Hpg. rewrite <- Hall. set_solver +Hu.
    + rewrite list_lookup_insert_eq by done. unfold slot_ok. rewrite Hq, Hs, Eks. split; [done|congruence].
Qed.

(** [fork_memory]: the child gets a copy of the memory, or its stack is freed. *)
Lemma copy_owned all c i k s s' (r : bool) w : table_ok (s, w) -> owned all (s, w) -> runs s w c i (Forking k) -> w !! k = Some (Newborn Stacked i) ->
  fork_memory kend data i k s = Ok (r, s') ->
  owned all (s', if r then <[k := Newborn Copied i]> w else <[k := AtUser]> (<[i := AtUser]> w)).
Proof.
  intros Hok Ho Hr Hwk H. destruct (newborn_proc _ _ _ _ _ _ Hok Hr Hwk) as (Hik & Hli & Hlk & n & Hnk & Hs & _).
  destruct (runs_proc _ _ _ _ _ Hok Hr) as (pc & Hpc & Hsi).
  destruct (owned_at _ _ _ _ _ Ho Hnk) as (Rs & Rk & free & Hlen & HRk & Hslot & Hsl & Hk & Hn & Hp & Hall).
  unfold slot_ok in Hslot. rewrite Hs, Hwk in Hslot. destruct Hslot as [-> Htf]. set (v := p_kstack n) in *.
  assert (is_Some (Rs !! i)) as [Rc HRc] by (apply lookup_lt_is_Some; rewrite Hlen; by eapply lookup_lt_Some).
  pose proof (Hsl i pc Rc Hpc HRc) as Hfull. apply slot_full in Hfull; [|congruence..].
  destruct Hfull as (tabs & um & -> & Hsa & Hsz & Hdom & _).
  assert (forall x, ps_proc s !! i = Some x -> p_state x <> EMBRYO) as Hne by (intros x Hx; congruence).
  destruct (stages_insert i k (ps_proc s) w (Newborn Copied i) AtUser Hne) as [St1 _].
  destruct (stages_insert i k (ps_proc s) w AtUser AtUser Hne) as [_ St2].
  assert (NoDup (v :: concat (<[k := []]> Rs) ++ pe_held (ps_env s) ++ free)) as [Hnv Hnd]%NoDup_cons.
  { eapply NoDup_Permutation_proper; [|exact Hn]. rewrite <- Hall, (concat_at Rs k _ HRk). cbn. solve_Permutation. }
  assert (forall u, u ∈ v :: concat (<[k := []]> Rs) ++ pe_held (ps_env s) ++ free -> page_ok u) as Hpg.
  { intros u Hu. apply (all_page all); [done|]. rewrite <- Hall, (concat_at Rs k _ HRk). set_solver +Hu. }
  assert (page_ok v) as Hv by (apply Hpg; left).
  unfold fork_memory in H. prun H as p1 Hp1. assert (p1 = pc) as -> by congruence.
  prun H as d0 R1. prun H as n1 Hn1. assert (n1 = n) as -> by congruence. fold v in H.
  pose proof (slot_uspace all _ Rs i pc tabs um (pe_held (ps_env s)) [] free HRc Hsa Hk Hn Hp Hall) as Hus.
  destruct (copyuvm_spec kend data kend_high data_aligned data_range _ _ _ _ _ _ (p_sz pc) Hus Hsz)
    as [(msg & ? & Epan & _)|(d & k2 & E2 & Hs2 & H2)]; [congruence|].
  rewrite E2 in R1. injection R1 as <- <-.
  assert (forall u, u ∈ concat Rs -> same_page (k_mem (pe_mem (ps_env s))) (k_mem k2) u) as Hs02.
  { intros u Hu'. apply Hs2. rewrite (concat_at _ _ _ HRc) in Hu'. set_solver +Hu'. }
  assert (forall u, u ∈ concat (<[k := []]> Rs) -> u ∈ concat Rs) as Hsub by (intros u Hu; rewrite (concat_at Rs k _ HRk); set_solver +Hu).
  destruct H2 as [(-> & _ & free' & Hk2 & Hpe2)|(Hd & tabsd & umd & free' & Hud & Hped & Hcop & _)].
  - rewrite Z.eqb_refl in H. prun H as u0 R2. prun H. prun H. prun H. injection H as <- <-.
    cbn in R2. rewrite pe_get_set in R2.
    assert (v ∉ free') as Hvf by (rewrite Hpe2; set_solver +Hnv).
    destruct (kfree_spec kend v k2 free' Hk2 Hv Hvf) as (k3 & E3 & Hk3 & _ & Hm3). rewrite E3 in R2. injection R2 as _ <-.
    eapply (owned_change all s _ w _ k n _ Rs [v] []); [done| |done|done|done|by intros j x Q _; apply Hsl|done|done|exact Hall|..]; cbn.
    + rewrite (alter_known _ _ _ _ Hnk), !alter_insert by (by eapply lookup_lt_Some). reflexivity.
    + rewrite pe_get_set. exact Hk3.
    + rewrite !pe_held_set, Hpe2. solve_Permutation.
    + rewrite pe_get_set. intros u Hu'. eapply same_page_trans; [by apply Hs02, Hsub|]. intros a Ha. apply Hm3.
      assert (u <> v) as Huv by (intros ->; set_solver +Hnv Hu').
      destruct (pages_apart kend u v (Hpg u ltac:(set_solver +Hu')) Hv Huv); lia.
    + done.
  - replace (d =? 0) with false in H by (symmetry; by apply Z.eqb_neq).
    prun H. prun H. prun H as u3 R3. prun H as u4 R4. injection H as <- <-.
    apply on_mem_inv in R3 as ->, R4 as ->. rewrite !pe_get_set in *. cbn [k_mem k_use_lock k_freelist] in *. rewrite Htf in *.
    set (m2 := k_mem k2) in *.
    set (m3 := st32 (mwrite m2 (v + 4020) (mread m2 (p_tf pc) (Z.to_nat SIZEOF_TRAPFRAME))) (v + 4020 + TF_EAX) 0) in *.
    assert (touches v m2 m3) as Ht3.
    { eapply touches_trans; [|apply touches_st32; unfold PGSIZE, TF_EAX; [done|lia|lia]].
      apply touches_mwrite; [done|lia|]. unfold mread. rewrite length_fmap, length_seq. unfold SIZEOF_TRAPFRAME, PGSIZE. lia. }
    assert (forall u, u ∈ d :: tables tabsd ++ pages umd ++ free' -> u <> v /\ page_ok u) as Hdv.
    { intros u Hu'. rewrite Hped in Hu'. split; [intros ->; set_solver +Hnv Hu'|]. apply Hpg. set_solver +Hu'. }
    eapply (owned_change all s _ w _ k n _ Rs [v] (v :: d :: tables tabsd ++ pages umd)); [done| |done|done|done|by intros j y Q _; apply Hsl|done|done|exact Hall|..]; cbn.
    + rewrite (alter_known _ _ _ _ Hnk), !alter_insert by (by eapply lookup_lt_Some). reflexivity.
    + rewrite pe_get_set. eapply kmem_frame; [apply Hud|done|]. intros u Hu'. cbn. apply Ht3; apply Hdv; set_solver +Hu'.
    + rewrite !pe_held_set. trans (v :: pe_held (ps_env s) ++ (d :: tables tabsd ++ pages umd ++ free')); [solve_Permutation|].
      rewrite Hped. solve_Permutation.
    + rewrite pe_get_set. intros u Hu'. eapply same_page_trans; [by apply Hs02, Hsub|]. cbn. apply Ht3; [apply Hpg; set_solver +Hu'|].
      intros ->. set_solver +Hnv Hu'.
    + rewrite list_lookup_insert_eq by done. rewrite pe_get_set. unfold slot_ok. cbn. rewrite Hs. exists tabsd, umd. cbn. fold v.
      split_and!; [done| |apply Hsz..| |done].
      * eapply space_at_frame; [by eapply space_at_of| |].
        -- rewrite Forall_forall. intros u Hu'. apply Hdv. set_solver +Hu'.
        -- intros u Hu'. apply Ht3; apply Hdv; set_solver +Hu'.
      * intros y u Hy. apply npages_below; [lia|]. destruct Hcop as [Hout _].
        destruct (decide (0 <= y < npages (p_sz pc))) as [|Hno]; [done|]. by rewrite Hout in Hy.
Qed.

(** The files and the name of the child, and the end of the fork. *)
Lemma files_owned all c i k s s' w : table_ok (s, w) -> owned all (s, w) -> runs s w c i (Forking k) -> w !! k = Some (Newborn Copied i) ->
  fork_descriptors i k s = Ok (tt, s') -> owned all (s', <[k := Newborn Filled i]> w).
Proof.
  intros Hok Ho Hr Hwk H. destruct (newborn_proc _ _ _ _ _ _ Hok Hr Hwk) as (Hik & Hli & Hlk & n & Hnk & Hs & _).
  destruct (owned_at _ _ _ _ _ Ho Hnk) as (Rs & Rk & free & Hlen & HRk & Hslot & Hsl & Hk & Hn & Hp & Hall).
  unfold slot_ok in Hslot. rewrite Hs, Hwk in Hslot.
  unfold fork_descriptors in H. prun H as pc Hpc. prun H as n' Hn'. assert (n' = n) as -> by congruence. prun H as x Rx. prun H.
  prun H as nm Rn. injection H as <-. apply pf_fork_mem in Rx as [Em Eh].
  eapply (owned_change all s _ w _ k n _ Rs Rk Rk free free); [done| | |done|done|by intros j y Q _; apply Hsl|done|done|done|..]; cbn.
  - rewrite (alter_known _ _ _ _ Hnk), !alter_insert by (by eapply lookup_lt_Some). reflexivity.
  - intros j q Hne Hj He. by rewrite list_lookup_insert_ne.
  - by rewrite Em.
  - by rewrite Eh.
  - by rewrite Em.
  - rewrite list_lookup_insert_eq by done. unfold slot_ok. cbn. rewrite Hs, Em. by eapply full_res.
Qed.

Lemma ready_owned all c i k s s' r w : table_ok (s, w) -> owned all (s, w) -> runs s w c i (Forking k) -> w !! k = Some (Newborn Filled i) ->
  fork_ready k s = Ok (r, s') -> owned all (s', <[k := AtUser]> (<[i := AtUser]> w)).
Proof.
  intros Hok Ho Hr Hwk H. destruct (newborn_proc _ _ _ _ _ _ Hok Hr Hwk) as (Hik & Hli & Hlk & n & Hnk & Hs & _).
  destruct (runs_proc _ _ _ _ _ Hok Hr) as (pc & Hpc & Hsi).
  destruct (owned_at _ _ _ _ _ Ho Hnk) as (Rs & Rk & free & Hlen & HRk & Hslot & Hsl & Hk & Hn & Hp & Hall).
  unfold slot_ok in Hslot. rewrite Hs, Hwk in Hslot. apply (fork_ready_table _ _ _ _ n Hnk) in H as [_ ->].
  eapply (owned_change all s _ w _ k n _ Rs Rk Rk free free); [done|reflexivity| |done|done|by intros j y Q _; apply Hsl|done|done|done|done|done|done|].
  - apply stages_insert. intros x Hx. congruence.
  - unfold slot_ok. cbn. by eapply full_res.
Qed.

(** ** Steps that move no page *)

Lemma res_alter f i (t : list (proc X)) : (forall p, res (f p) = res p) -> res <$> alter f i t = res <$> t.
Proof.
  intros Hf. apply list_eq. intros j. rewrite !list_lookup_fmap. destruct (decide (j = i)) as [->|].
  - rewrite list_lookup_alter_eq. destruct (t !! i); cbn; [by rewrite Hf|done].
  - by rewrite list_lookup_alter_ne by congruence.
Qed.

Lemma res_wake ch (t : list (proc X)) : res <$> (wake ch <$> t) = res <$> t.
Proof.
  rewrite <- list_fmap_compose. apply list_fmap_ext. intros j p _. cbn. unfold wake. by destruct (decide _).
Qed.

Lemma res_reparent n : forall i cur init (s s' : st), reparent n i cur init s = Ok (tt, s') ->
  res <$> ps_proc s' = res <$> ps_proc s.
Proof.
  induction n as [|n IH]; intros i cur init s s' H; cbn [reparent] in H; [by injection H as <-|].
  prun H as p Hp. rewrite initchan_eq in H. prun H as u R. rewrite (IH _ _ _ _ _ H).
  destruct (bool_decide _); [|by injection R as _ <-]. unfold when at 1 in R. prun R. destruct (bool_decide _).
  - injection R as _ <-. cbn. rewrite res_wake. by apply res_alter.
  - injection R as _ <-. cbn. by apply res_alter.
Qed.

Lemma res_exit_end c (s s' : st) : exit_end c s = Ok (tt, s') -> res <$> ps_proc s' = res <$> ps_proc s.
Proof.
  unfold exit_end. intros H. prun H as cur Hc. prun H as pc Hpc. rewrite initchan_eq in H. prun H. prun H. prun H.
  apply bind_Ok_inv in H as ([] & s1 & R & H). apply res_reparent in R. cbn in R.
  prun H. apply sched_table in H as ->. cbn. rewrite res_alter by done. by rewrite R, res_wake.
Qed.

(** Entries keep their pages when [res] and the use of every entry stay. *)
Lemma owned_res all (s s' : st) w w' : owned all (s, w) -> ps_env s' = ps_env s -> res <$> ps_proc s' = res <$> ps_proc s ->
  (forall j q, ps_proc s !! j = Some q -> p_state q = EMBRYO -> w' !! j = w !! j) ->
  (forall j p p', ps_proc s !! j = Some p -> ps_proc s' !! j = Some p' -> same_use p p') ->
  owned all (s', w').
Proof.
  intros Ho Ee Er Hw Hu. eapply owned_same; [exact Ho|by rewrite Ee|by rewrite Ee| |done|].
  - apply (f_equal length) in Er. by rewrite !length_fmap in Er.
  - intros j p p' Hp Hp'. split; [by eapply Hu|]. intros _.
    apply (f_equal (fun l => l !! j)) in Er. rewrite !list_lookup_fmap, Hp, Hp' in Er. by apply (inj Some) in Er.
Qed.

(** One entry changes other fields. *)
Lemma owned_upd all (s s' : st) w w' i p q : owned all (s, w) -> ps_proc s !! i = Some p -> ps_proc s' = <[i := q]> (ps_proc s) ->
  ps_env s' = ps_env s -> res q = res p -> same_use p q -> same_stages i (ps_proc s) w w' ->
  (p_state p = EMBRYO -> w' !! i = w !! i) -> owned all (s', w').
Proof.
  intros Ho Hp Et Ee Er Hu Hw Hi. eapply owned_res; [exact Ho|done| | |].
  - rewrite Et, list_fmap_insert, Er. apply list_insert_id. by rewrite list_lookup_fmap, Hp.
  - intros j x Hx He. destruct (decide (j = i)) as [->|Hne]; [|by eapply Hw]. apply Hi. congruence.
  - intros j x x' Hx Hx'. rewrite Et in Hx'. apply list_lookup_insert_Some in Hx' as [(<- & <- & _)|[_ Hx']].
    + by assert (x = p) as -> by congruence.
    + assert (x' = x) as -> by congruence. by split.
Qed.

(** The process on a CPU changes other fields, and its place. *)
Lemma owned_run all (s s' : st) w i p q y : owned all (s, w) -> ps_proc s !! i = Some p -> p_state p = RUNNING ->
  ps_proc s' = <[i := q]> (ps_proc s) -> ps_env s' = ps_env s -> res q = res p ->
  p_state q <> UNUSED -> p_state q <> EMBRYO -> owned all (s', w) /\ owned all (s', <[i := y]> w).
Proof.
  intros Ho Hp Hs Et Ee Er Hu He.
  assert (same_use p q) as Huse by (split; rewrite Hs; done).
  split; (eapply owned_upd; [exact Ho|exact Hp|exact Et|exact Ee|exact Er|exact Huse| |congruence]).
  - by intros j x _ _ _.
  - intros j x Hne _ _. by rewrite list_lookup_insert_ne.
Qed.

(** ** exit, wait and sbrk *)

Lemma close_owned all c i s s' w : table_ok (s, w) -> owned all (s, w) -> runs s w c i AtUser ->
  exit_close c s = Ok (tt, s') -> owned all (s', <[i := Exiting]> w).
Proof.
  intros Hok Ho Hr H. destruct (runs_proc _ _ _ _ _ Hok Hr) as (pc & Hpc & Hs). destruct Hr as [Hc Hw].
  apply exit_close_table in H as (cur & p & e & Hc' & _ & Hp & Ex & ->).
  assert (cur = i) as -> by congruence. assert (p = pc) as -> by congruence.
  destruct (owned_at _ _ _ _ _ Ho Hpc) as (Rs & R & free & Hlen & HR & Hslot & Hsl & Hk & Hn & Hpg & Hall).
  destruct (pf_exit_mem (p_files pc) (ps_env s) e free (concat Rs) Hk) as (free' & Hk' & Hpe & Hsm);
    [by rewrite Hall|by rewrite Hall|done|].
  apply slot_full in Hslot; [|congruence..].
  eapply (owned_change all s _ w _ i pc _ Rs R R free free'); [done|reflexivity| |done|done|by intros j x Q _; apply Hsl|done|done|exact Hall|done| | |].
  - intros j q Hne _ _. by rewrite list_lookup_insert_ne.
  - cbn. by rewrite Hpe.
  - cbn. intros v Hv. apply Hsm. rewrite (concat_at _ _ _ HR). set_solver +Hv.
  - apply slot_full; [cbn; congruence..|]. eapply full_res; [|eapply full_frame; [exact Hslot| |]]; [done| |].
    + rewrite Forall_forall in *. intros v Hv. apply Hpg. rewrite <- Hall, (concat_at _ _ _ HR). set_solver +Hv.
    + intros v Hv. apply Hsm. rewrite (concat_at _ _ _ HR). set_solver +Hv.
Qed.

Lemma end_owned all c i s s' w : table_ok (s, w) -> owned all (s, w) -> runs s w c i Exiting ->
  exit_end c s = Ok (tt, s') -> owned all (s', <[i := AtUser]> w).
Proof.
  intros Hok Ho Hr H. destruct (runs_proc _ _ _ _ _ Hok Hr) as (p & Hp & Hs). destruct Hr as [Hc Hw].
  pose proof (res_exit_end _ _ _ H) as Er. apply exit_end_table in H as (cur & pc & Hc' & Hpc & _ & _ & _ & _ & Ee & _ & Hex).
  assert (cur = i) as -> by congruence. eapply owned_res; [exact Ho|done|done| |].
  - intros j q Hq He. apply list_lookup_insert_ne. congruence.
  - intros j x x' Hx Hx'. unfold same_use. destruct (Hex j x x' Hx Hx') as (_ & _ & _ & [[-> Hz]|(_ & _ & [->|[-> ->]])] & _); [|done|done].
    assert (x = p) as -> by congruence. by rewrite Hz, Hs.
Qed.

Lemma wait_owned all c cur pc (s s' : st) w r : owned all (s, w) -> ps_cpu s !! c = Some (Some cur) ->
  ps_proc s !! cur = Some pc -> p_state pc = RUNNING -> wait kend c s = Ok (r, s') ->
  owned all (s', w) /\ forall y, owned all (s', <[cur := y]> w).
Proof.
  intros Ho Hc Hpc Huse H.
  assert (forall s'', owned all (s'', w) -> ps_proc s'' !! cur = Some pc -> forall y, owned all (s'', <[cur := y]> w)) as Hmove.
  { intros s'' Ho'' Hpc'' y. refine (proj2 (owned_run all s'' s'' w cur pc pc y Ho'' Hpc'' Huse _ _ _ _ _)); [|done|done|congruence..].
    by rewrite list_insert_id. }
  pose proof Ho as (Rs & free & Hlen & Hsl & Hk & Hn & Hp & Hall). cbn [fst snd] in *.
  unfold wait in H. prun H as cur' Hc'. assert (cur' = cur) as -> by congruence. prun H. pose proof (wait_scan_spec (ps_proc s) cur 0 false) as Hscan.
  destruct (wait_scan _ _ _ _) as [i|b].
  - destruct Hscan as (_ & p & Hpi & Hpar & Hz). rewrite Nat.sub_0_r in Hpi. pose proof (lookup_lt_Some _ _ _ Hpi) as Hlt.
    prun H as p' Hp'. assert (p' = p) as -> by congruence. prun H as u1 R1. prun H. prun H as u2 R2. do 5 prun H. injection H as <- <-.
    rewrite pe_get_set in R2.
    assert (is_Some (Rs !! i)) as [Ri HRi] by (apply lookup_lt_is_Some; lia).
    pose proof (Hsl i p Ri Hpi HRi) as Hslot. apply slot_full in Hslot as (tabs & um & -> & Hsa & Hsz & Hdom & _); [|congruence..].
    set (ks := p_kstack p) in *. set (pg := p_pgdir p) in *. set (o := concat (<[i := []]> Rs)).
    assert (ks :: pg :: tables tabs ++ (pages um ++ o ++ pe_held (ps_env s)) ++ free ≡ₚ all) as Hpe0
      by (rewrite <- Hall, (concat_at Rs i _ HRi); cbn; solve_Permutation).
    assert (forall v, v ∈ ks :: pg :: tables tabs ++ (pages um ++ o ++ pe_held (ps_env s)) ++ free -> page_ok v) as Hpg
      by (intros v Hv; apply (all_page all); [done|by rewrite <- Hpe0]).
    assert (NoDup (ks :: pg :: tables tabs ++ (pages um ++ o ++ pe_held (ps_env s)) ++ free)) as Hnd by (by rewrite Hpe0).
    pose proof Hnd as [Hks _]%NoDup_cons.
    destruct (kfree_spec kend ks _ free Hk (Hpg ks ltac:(left)) ltac:(set_solver +Hks)) as (k1 & E1 & Hk1 & _ & Hm1).
    rewrite E1 in R1. injection R1 as _ <-.
    assert (forall v, page_ok v -> v <> ks -> same_page (k_mem (pe_mem (ps_env s))) (k_mem k1) v) as Ht1.
    { intros v Hv Hne a Ha. apply Hm1. destruct (pages_apart kend v ks Hv (Hpg ks ltac:(left)) Hne); lia. }
    assert (uspace k1 pg tabs um (o ++ pe_held (ps_env s)) (ks :: free)) as Hus.
    { assert (pg :: tables tabs ++ (pages um ++ o ++ pe_held (ps_env s)) ++ ks :: free ≡ₚ all) as Hpe1
        by (rewrite <- Hpe0; solve_Permutation).
      apply uspace_of; [|done|by rewrite Hpe1|by rewrite Hpe1]. eapply space_at_frame; [exact Hsa| |].
      - rewrite Forall_forall. intros v Hv. apply Hpg. set_solver +Hv.
      - intros v Hv. apply Ht1; [apply Hpg; set_solver +Hv|]. intros ->. set_solver +Hks Hv. }
    destruct (freevm_spec kend_high _ _ _ _ _ _ Hus) as (k2 & free2 & E2 & Hk2 & Hpe2 & Hs2).
    rewrite E2 in R2. injection R2 as _ <-.
    match goal with |- owned _ (?t, _) /\ _ => assert (owned all (t, w)) as Ho' end.
    2: { split; [done|]. apply Hmove; [done|]. cbn. rewrite (alter_known _ _ _ _ Hpi), !alter_insert by done.
      rewrite list_lookup_insert_ne; [done|congruence]. }
    eapply (owned_change all s _ w w i p _ Rs _ []); [done| |done|done|exact HRi|by intros j x Q _; apply Hsl|done|done|exact Hall|..]; cbn.
    + rewrite (alter_known _ _ _ _ Hpi), !alter_insert by done. reflexivity.
    + rewrite pe_get_set. exact Hk2.
    + rewrite !pe_held_set, Hpe2. unfold ks, pg. solve_Permutation.
    + fold o. rewrite pe_get_set. intros v Hv. eapply same_page_trans; [apply Ht1|apply Hs2; set_solver +Hv].
      * apply Hpg. set_solver +Hv.
      * intros ->. set_solver +Hks Hv.
    + done.
  - prun H as p0 Hp0. destruct (negb b || negb (p_killed p0 =? 0)); [injection H as <- <-; by split; [|apply Hmove]|].
    prun H as u R. destruct u. apply sleep_on_table in R as (i & p & Hi & Hpi & ->). injection H as <- <-.
    assert (i = cur) as -> by congruence. assert (p = pc) as -> by congruence.
    split; [by eapply (owned_run all s _ w cur pc _ AtUser)|intros y; by eapply (owned_run all s _ w cur pc _ y)].
Qed.

Lemma sbrk_owned all c cur pc n (s s' : st) w r : owned all (s, w) -> ps_cpu s !! c = Some (Some cur) ->
  ps_proc s !! cur = Some pc -> p_state pc = RUNNING -> -2147483648 <= n <= INT_MAX ->
  sbrk_proc kend c n s = Ok (r, s') -> owned all (s', w).
Proof.
  intros (Rs & free & Hlen & Hsl & Hk & Hn & Hp & Hall) Hc Hpc Huse Hint H. cbn [fst snd] in *. unfold sbrk_proc in H.
  prun H as i Hi. assert (i = cur) as -> by congruence. prun H as p Hpi. assert (p = pc) as -> by congruence.
  prun H as rr R. prun H. injection H as <- <-. destruct rr as [r sz'].
  assert (is_Some (Rs !! cur)) as [Rc HRc] by (apply lookup_lt_is_Some; rewrite Hlen; by eapply lookup_lt_Some).
  pose proof (Hsl cur pc Rc Hpc HRc) as Hslot. apply slot_full in Hslot as (tabs & um & -> & Hsa & Hsz & Hdom & Htf); [|congruence..].
  pose proof (slot_uspace all _ Rs cur pc tabs um (pe_held (ps_env s)) [] free HRc Hsa Hk Hn Hp Hall) as Hus.
  destruct (growproc_spec kend_high _ _ _ _ _ _ _ _ _ _ _ Hus Hsz Hdom Hint R) as (tabs' & um' & free' & Hus' & Hsz' & Hdom' & Hpe & Hs).
  eapply (owned_change all s _ w w cur pc _ Rs _ (p_kstack pc :: p_pgdir pc :: tables tabs' ++ pages um'));
    [done| |done|done|exact HRc|by intros j x Q _; apply Hsl|done|done|exact Hall|..]; cbn.
  - by rewrite (alter_known _ _ _ _ Hpc).
  - rewrite pe_get_set. apply Hus'.
  - rewrite pe_held_set. trans (p_kstack pc :: p_pgdir pc :: pe_held (ps_env s) ++ (tables tabs' ++ pages um' ++ free')); [solve_Permutation|].
    rewrite Hpe. solve_Permutation.
  - rewrite pe_get_set. intros v Hv. apply Hs. set_solver +Hv.
  - rewrite pe_get_set. apply slot_full; [cbn; congruence..|]. exists tabs', um'. split_and!; [done| |apply Hsz'..|done|done].
    by eapply space_at_of.
Qed.

(** ** File system calls, exec, and the program itself *)

(** The running process with its pages, against the rest. *)
Lemma owned_running all s w i p : owned all (s, w) -> ps_proc s !! i = Some p -> p_state p = RUNNING -> exists Rs R free,
  Rs !! i = Some R /\ full_slot (k_mem (pe_mem (ps_env s))) p R /\ kmem_ok (pe_mem (ps_env s)) free /\
  NoDup (R ++ concat (<[i := []]> Rs) ++ pe_held (ps_env s) ++ free) /\
  Forall page_ok (R ++ concat (<[i := []]> Rs) ++ pe_held (ps_env s) ++ free) /\
  forall s' q R' free', ps_proc s' = <[i := q]> (ps_proc s) -> p_state q = RUNNING -> kmem_ok (pe_mem (ps_env s')) free' ->
    R' ++ pe_held (ps_env s') ++ free' ≡ₚ R ++ pe_held (ps_env s) ++ free ->
    (forall v, v ∈ concat (<[i := []]> Rs) -> same_page (k_mem (pe_mem (ps_env s))) (k_mem (pe_mem (ps_env s'))) v) ->
    full_slot (k_mem (pe_mem (ps_env s'))) q R' -> owned all (s', w).
Proof.
  intros Ho Hp Hs. destruct (owned_at _ _ _ _ _ Ho Hp) as (Rs & R & free & Hlen & HR & Hslot & Hsl & Hk & Hn & Hpg & Hall).
  apply slot_full in Hslot; [|congruence..]. exists Rs, R, free.
  assert (R ++ concat (<[i := []]> Rs) ++ pe_held (ps_env s) ++ free ≡ₚ all) as Hpe
    by (rewrite <- Hall, (concat_at Rs i R HR); solve_Permutation).
  split_and!; [done|done|done|by rewrite Hpe|by rewrite Hpe|]. intros s' q R' free' Et Hq Hk' Hpe' Hsm Hf.
  eapply (owned_change all s s' w w i p q Rs R R' free free'); [done|done|done|done|done|by intros j x Q _; apply Hsl|done|done|done|done|done|done|].
  apply slot_full; [congruence..|done].
Qed.

Lemma call_owned all num c i p s s' w r : owned all (s, w) -> ps_cpu s !! c = Some (Some i) -> ps_proc s !! i = Some p ->
  p_state p = RUNNING -> call_proc num c s = Ok (r, s') -> owned all (s', w).
Proof.
  intros Ho Hc Hp Hs H. unfold call_proc in H. prun H as i' Hi. assert (i' = i) as -> by congruence.
  prun H as p' Hp'. assert (p' = p) as -> by congruence. prun H as x Rx. prun H. injection H as <- <-.
  destruct (owned_running _ _ _ _ _ Ho Hp Hs) as (Rs & R & free & HR & Hf & Hk & Hn & Hpg & Hput).
  destruct (pf_call_mem _ _ _ _ _ _ _ _ Hk Hf Hn Hpg Rx) as (free' & Hk' & Hpe & Hf' & Hsm).
  eapply (Hput _ _ R free'); [cbn; by rewrite (alter_known _ _ _ _ Hp)|done|done|cbn; by rewrite Hpe|done|]. by eapply full_res.
Qed.

Lemma exec_owned all path argv c i p s s' w r : owned all (s, w) -> ps_cpu s !! c = Some (Some i) -> ps_proc s !! i = Some p ->
  p_state p = RUNNING -> exec_proc path argv c s = Ok (r, s') -> owned all (s', w).
Proof.
  intros Ho Hc Hp Hs H. unfold exec_proc in H. prun H as i' Hi. assert (i' = i) as -> by congruence.
  prun H as p' Hp'. assert (p' = p) as -> by congruence. prun H as x Rx. prun H. injection H as <- <-. destruct x as [r p'].
  destruct (owned_running _ _ _ _ _ Ho Hp Hs) as (Rs & R & free & HR & Hf & Hk & Hn & Hpg & Hput).
  destruct (pf_exec_mem _ _ _ _ _ _ _ _ _ _ Hk Hf Hn Hpg Rx) as (R' & free' & Hk' & Hpe & Hf' & Hsm).
  eapply (Hput _ _ R' free'); [cbn; by rewrite (alter_known _ _ _ _ Hp)|done..].
Qed.

(** The pages a process may write: its kernel stack, and those its page table maps for
    the user. *)
Definition data_page (m : mem) (p : proc X) (v : Z) : Prop := v = p_kstack p \/
  exists q, 0 <= q < 524288 /\ has PTE_P (lookup_pte m (p_pgdir p) (4096 * q)) = true /\
    v = P2V (PTE_ADDR (lookup_pte m (p_pgdir p) (4096 * q))).

Lemma full_mapped m p tabs um q : space_at m (p_pgdir (X := X) p) tabs um -> Forall page_ok (pages um) -> 0 <= q < 524288 ->
  has PTE_P (lookup_pte m (p_pgdir p) (4096 * q)) = true ->
  exists u, um !! q = Some u /\ P2V (PTE_ADDR (lookup_pte m (p_pgdir p) (4096 * q))) = u.
Proof.
  intros Ha Hp Hq Hh. pose proof (us_map _ _ _ (sa_user _ _ _ _ Ha) q Hq) as Hm.
  destruct (um !! q) as [u|] eqn:Eu; [|congruence]. exists u. split; [done|]. destruct Hm as (f & Hf & _ & ->).
  apply tables_lookup in Eu. rewrite Forall_forall in Hp. by destruct (entry_read kend u f (Hp u Eu) Hf) as (_ & -> & _).
Qed.

Lemma full_write m m' p R v : full_slot m p R -> NoDup R -> Forall page_ok R -> data_page m p v ->
  touches v m m' -> v ∈ R /\ full_slot m' p R.
Proof.
  intros (tabs & um & -> & Ha & H) Hn Hp Hv Ht.
  assert (v ∈ p_kstack p :: pages um) as Hin.
  { destruct Hv as [->|(q & Hq & Hh & ->)]; [left|right]. eapply full_mapped in Hh as (u & Hu & ->); [by eapply tables_lookup|exact Ha| |done].
    rewrite Forall_forall in *. intros u Hu. apply Hp. set_solver +Hu. }
  split; [set_solver +Hin|]. exists tabs, um. split_and!; [done| |apply H..]. eapply space_at_frame; [exact Ha| |].
  - rewrite Forall_forall in *. intros u Hu. apply Hp. set_solver +Hu.
  - intros u Hu. apply Ht; [rewrite Forall_forall in Hp; apply Hp; set_solver +Hu|]. intros ->.
    apply NoDup_cons in Hn as [N1 Hn]. rewrite app_comm_cons in Hn. apply NoDup_app in Hn as (_ & N2 & _).
    apply elem_of_cons in Hin as [->|Hin]; [apply N1; set_solver +Hu|by apply (N2 v)].
Qed.

Lemma write_owned all i p v s s' w f : owned all (s, w) -> ps_proc s !! i = Some p -> p_state p = RUNNING ->
  data_page (k_mem (pe_mem (ps_env s))) p v ->
  (page_ok v -> touches v (k_mem (pe_mem (ps_env s))) (f (k_mem (pe_mem (ps_env s))))) ->
  memory (on_mem f) s = Ok (tt, s') -> owned all (s', w).
Proof.
  intros Ho Hp Hs Hv Ht H. destruct (owned_running _ _ _ _ _ Ho Hp Hs) as (Rs & R & free & HR & Hf & Hk & Hn & Hpg & Hput).
  pose proof Hn as (HnR & Hno & _)%NoDup_app. pose proof Hpg as [HpR Hpo]%Forall_app. rewrite Forall_forall in Hpo.
  destruct (full_write _ _ p R v Hf HnR HpR Hv (touches_refl v _)) as [Hin _].
  assert (page_ok v) as Hpv by (rewrite Forall_forall in HpR; auto).
  destruct (full_write _ _ p R v Hf HnR HpR Hv (Ht Hpv)) as [_ Hf'].
  apply memory_inv in H as (k & Hk1 & ->). apply on_mem_inv in Hk1 as ->.
  apply (Hput _ p R free); cbn; rewrite ?pe_get_set, ?pe_held_set; [by rewrite list_insert_id|done| |done| |done].
  - eapply kmem_frame; [exact Hk|done|]. intros u Hu. apply (Ht Hpv); [apply Hpo; set_solver +Hu|]. intros ->. apply (Hno v Hin). set_solver +Hu.
  - intros u Hu. apply (Ht Hpv); [apply Hpo; set_solver +Hu|]. intros ->. apply (Hno v Hin). set_solver +Hu.
Qed.

Lemma store_owned all c va b i p s s' w r : owned all (s, w) -> ps_cpu s !! c = Some (Some i) -> ps_proc s !! i = Some p ->
  p_state p = RUNNING -> user_store c va b s = Ok (r, s') -> owned all (s', w).
Proof.
  intros Ho Hc Hp Hs H. unfold user_store in H. prun H as i' Hi. assert (i' = i) as -> by congruence.
  prun H as p' Hp'. assert (p' = p) as -> by congruence. prun H.
  destruct (_ && _) eqn:Eb in H; [|by injection H as <- <-]. apply bind_Ok_inv in H as ([] & s1 & H & R). injection R as <- <-.
  apply andb_prop in Eb as [Eb _]. apply andb_prop in Eb as [Eb _]. apply andb_prop in Eb as [Eb Eh].
  unfold KERNBASE in Eb. rewrite lookup_page in * by lia.
  eapply (write_owned all i p (P2V (PTE_ADDR (lookup_pte _ (p_pgdir p) (4096 * (va / 4096)))))); [exact Ho|done|done| | |exact H].
  - right. exists (va / 4096). split_and!; [divmod|divmod|done|done].
  - intros Hv. apply (touches_mwrite _ _ _ [u8 b]); [done|unfold PGSIZE; divmod|cbn; unfold PGSIZE; divmod].
Qed.

Lemma save_owned all c frame i p s s' w : owned all (s, w) -> ps_cpu s !! c = Some (Some i) -> ps_proc s !! i = Some p ->
  p_state p = RUNNING -> Z.of_nat (length frame) = SIZEOF_TRAPFRAME -> save_regs c frame s = Ok (tt, s') -> owned all (s', w).
Proof.
  intros Ho Hc Hp Hs Hl H. destruct (owned_running _ _ _ _ _ Ho Hp Hs) as (_ & R & _ & _ & (_ & _ & _ & _ & _ & _ & Htf) & _).
  unfold save_regs in H. prun H as i' Hi. assert (i' = i) as -> by congruence. prun H as p' Hp'. assert (p' = p) as -> by congruence.
  eapply (write_owned all i p (p_kstack p)); [exact Ho|done|done|by left| |exact H].
  intros Hv. rewrite Htf. apply touches_mwrite; [done|lia|]. rewrite Hl. unfold SIZEOF_TRAPFRAME, PGSIZE. lia.
Qed.

Lemma awaken_owned all c i p s s' w : owned all (s, w) -> ps_cpu s !! c = Some (Some i) -> ps_proc s !! i = Some p ->
  p_state p = RUNNING -> sleep_return c s = Ok (tt, s') ->
  (owned all (s', w) /\ owned all (s', <[i := AtUser]> w)) /\ ps_cpu s' = ps_cpu s /\ ps_proc s' !! i = Some (set_chan NoChan p).
Proof.
  intros Ho Hc Hp Hs R. unfold sleep_return in R. prun R as i' Hi. assert (i' = i) as -> by congruence. injection R as <-. cbn.
  rewrite (alter_known _ _ _ _ Hp), list_lookup_insert_eq by (by eapply lookup_lt_Some). split; [|done].
  eapply (owned_run all s _ w i p); [done|done|done|reflexivity|done|done|cbn; congruence..].
Qed.

Lemma step_owned all l c c' : table_ok c -> owned all c -> pstep kend data trapret forkret l c c' -> owned all c'.
Proof.
  intros Hok Ho Hst. destruct Hst as [d s s' w Hc R| | | | | | | |d i s s' r w Hc R|d i s s' r w Hc R
    |d i a s s' w Hc R|d i s s' w Hc R|d i pl s s' w Hc Hpl R|d i n s s' r w Hc Hn R|d i num s s' r w Hc R|d i path argv s s' r w Hc R
    |d i va b s s' r w Hc R|d i fr s s' w Hc Hl R|p s s' r w R|a s s' w R].
  1: { unfold scheduler_round in R. prun R. prun R. prun R. destruct (ps_proc s !! (ps_pos s !!! d)) as [p|] eqn:Hp; [|done].
    destruct (decide _) as [Hr|]; [|injection R as <-; exact Ho].
    prun R. injection R as <-. eapply (owned_upd all s _ w w _ p); [done|exact Hp|cbn; by rewrite (alter_known _ _ _ _ Hp)|done|done| |done|done].
    unfold same_use. cbn. by rewrite Hr. }
  1-7: by eauto using take_owned, stack_owned, copy_owned, files_owned, ready_owned, close_owned, end_owned.
  11: { apply kill_table in R as [[_ ->]|(i & x & q & _ & Hx & _ & -> & Hq)]; [done|].
    eapply (owned_upd all s _ w w i x); [done|exact Hx|done|done|by subst q; destruct (decide _)| |done|done].
    subst q. unfold same_use. destruct (decide _) as [Hs|]; [|done]. cbn. by rewrite Hs. }
  11: { injection R as <-. eapply owned_res; [exact Ho|done|apply res_wake|done|]. cbn. intros j x x' Hx Hx'.
    rewrite list_lookup_fmap, Hx in Hx'. injection Hx' as <-. unfold same_use, wake. destruct (decide _) as [[Hs _]|]; [|done]. cbn. by rewrite Hs. }
  all: destruct (runs_proc _ _ _ _ _ Hok Hc) as (pr & Hpr & Hs); destruct Hc as [Hc _].
  - destruct (wait_owned _ _ _ _ _ _ _ _ Ho Hc Hpr Hs R) as [H1 H2]. destruct r; [exact H1|apply H2].
  - apply bind_Ok_inv in R as ([] & s1 & R1 & R). destruct (awaken_owned _ _ _ _ _ _ _ Ho Hc Hpr Hs R1) as ([Ho1 _] & Ec & Hp1).
    rewrite <- Ec in Hc. destruct (wait_owned _ _ _ _ _ _ _ _ Ho1 Hc Hp1 Hs R) as [H1 H2]. destruct r; [apply H2|exact H1].
  - apply sleep_on_table in R as (i' & p & Hc' & Hp & ->). assert (i' = i) as -> by congruence. assert (p = pr) as -> by congruence.
    by eapply (owned_run all s _ w i pr).
  - by eapply awaken_owned.
  - unfold yield in R. prun R as i' Hi. assert (i' = i) as -> by congruence. prun R. apply sched_table in R as ->.
    eapply (owned_run all s _ w i pr _ AtUser); [done|exact Hpr|done|cbn; by rewrite (alter_known _ _ _ _ Hpr)|done|done|done|done].
  - by eapply sbrk_owned.
  - by eapply call_owned.
  - by eapply exec_owned.
  - by eapply store_owned.
  - by eapply save_owned.
Qed.
End ProcMem.
