(* ===== verification/ProcBoot.v ===== *)
(** The first process ([userinit]), and the account of all pages from boot on. *)

From S2P Require Import Prelude Mem Strings Bio Kalloc Vm VmSpace VmUser VmKernel VmCopy Proc ProcTable ProcInv ProcLive ProcMem.
Local Open Scope Z_scope.

Section Inituvm.
  Context (kend : Z).
Abbreviation page_ok := (page_ok kend).
Abbreviation uspace := (uspace kend).
Abbreviation pages := tables.

(** [inituvm] puts the code into the first page. *)
Lemma inituvm_spec s pgdir tabs rest free init : uspace s pgdir tabs ∅ rest free ->
  Z.of_nat (length init) < PGSIZE -> (1026 <= length free)%nat ->
  exists s' tabs' v free', inituvm pgdir init s = Ok (tt, s') /\ uspace s' pgdir tabs' {[0 := v]} rest free' /\
    tables tabs' ++ v :: free' ≡ₚ tables tabs ++ free /\
    (forall u, u ∈ rest -> same_page (k_mem s) (k_mem s') u).
Proof.
  intros Hu Hi Hf. unfold inituvm. replace (_ >=? PGSIZE) with false by lia. destruct free as [|v l]; [cbn in Hf; lia|].
  destruct (add_page s pgdir tabs ∅ rest v l 0 (Z.lor PTE_W PTE_U) (fun m => memset m v 0 PGSIZE) Hu ltac:(lia) ltac:(done)
    ltac:(vm_compute; intuition discriminate) (fun m u Hu Hv => memset_other kend m v u Hu Hv)) as
    (s1 & r & s2 & tabs2 & free2 & E1 & Hv0 & E2 & Hpe2 & Hf2 & Hr2 & Hb2 & Hres).
  mstep E1. replace (v =? 0) with false by (symmetry; by apply Z.eqb_neq).
  unfold on_mem at 1, modify. unfold bind at 1. rewrite Z.mul_0_r in E2. mstep E2.
  destruct Hres as [(-> & Hu2 & _)|(-> & Hu2 & ->)].
  2: { apply Permutation_length in Hpe2. rewrite !length_app in Hpe2. cbn [length] in *.
    pose proof (space_tables _ _ _ _ _ (proj1 Hu2)). lia. }
  change (<[0:=v]> (∅ : gmap Z Z)) with ({[0 := v]} : gmap Z Z) in Hu2. destruct Hu2 as [Hs2 Hus2].
  assert (v ∈ pages {[0 := v]} ++ rest) as Hin by (apply elem_of_app; left; apply (tables_lookup _ 0); apply lookup_singleton_eq).
  assert (page_ok v) as Hv by (by eapply space_own_page).
  destruct (space_own_mem s2 pgdir tabs2 _ free2 v (fun m => mwrite m v init) Hs2 Hin) as [Hs3 Hl3].
  { intros u Hpu Hne. apply (touches_mwrite kend v); (done || lia). }
  eexists _, tabs2, v, free2. split_and!; [reflexivity|split; [exact Hs3|]| |].
  - eapply user_ext; [exact Hus2|]. intros va _. apply Hl3.
  - rewrite <- Permutation_middle, Hpe2. solve_Permutation.
  - intros u Hu'. eapply same_page_trans; [apply Hr2; set_solver +Hu'|]. cbn. apply (touches_mwrite kend v); [done|lia|lia| |].
    + eapply space_own_page; [exact Hs2|set_solver +Hu'].
    + intros ->. destruct (space_own_apart s2 pgdir tabs2 [] v rest free2 Hs2). set_solver +Hu'.
Qed.
End Inituvm.

Section Boot.
  Context (kend data trapret forkret : Z).
  Hypothesis kend_high : KERNBASE < kend.
  Hypothesis data_aligned : data mod 4096 = 0.
  Hypothesis data_range : KERNLINK < data < KERNBASE + PHYSTOP.
  Context {E X : Type} `{!ProcEnv E X} `{!ProcEnvLaws kend E X}.
Abbreviation st := (pstate E X).
Abbreviation page_ok := (page_ok kend).
Abbreviation kmem_ok := (kmem_ok kend).
Abbreviation uspace := (uspace kend).
Abbreviation pages := tables.

(** The registers that [userinit] writes lie in the kernel stack. *)
Lemma init_regs_touch v m ds cs : page_ok v -> let tf := v + 4020 in
  touches kend v m (st32 (st32 (st32 (st16 (st16 (st16 (st16 (memset m tf 0 SIZEOF_TRAPFRAME) (tf + TF_CS) cs)
    (tf + TF_DS) ds) (tf + TF_ES) ds) (tf + TF_SS) ds) (tf + TF_EFLAGS) FL_IF) (tf + TF_ESP) PGSIZE) (tf + TF_EIP) 0).
Proof.
  intros Hv tf. unfold tf, SIZEOF_TRAPFRAME, TF_CS, TF_DS, TF_ES, TF_SS, TF_EFLAGS, TF_ESP, TF_EIP.
  do 3 (eapply touches_trans; [|apply touches_st32; [done|lia|unfold PGSIZE; lia]]).
  do 4 (eapply touches_trans; [|apply touches_st16; [done|lia|unfold PGSIZE; lia]]).
  apply touches_memset; unfold PGSIZE; (done || lia).
Qed.

Lemma concat_replicate_nil {A} n : concat (replicate n ([] : list A)) = [].
Proof. by induction n. Qed.

(** The first process owns what [userinit] took. *)
Lemma userinit_owned initcode (s s' : st) free :
  fresh_table s -> kmem_ok (pe_mem (ps_env s)) free -> NoDup (pe_held (ps_env s) ++ free) ->
  Forall page_ok (pe_held (ps_env s) ++ free) -> (2052 <= length free)%nat ->
  userinit kend data trapret forkret initcode s = Ok (tt, s') ->
  owned kend (pe_held (ps_env s) ++ free) (s', replicate (length (ps_proc s')) AtUser).
Proof.
  intros Hfr Hk Hn Hp Hlen H. unfold userinit in H. prun H as np R0. destruct np as [i|]; [|done].
  pose proof (allocproc_mem _ _ _ _ _ _ _ Hk R0) as (Eh & v & l & q & -> & Hv & Hk1 & Ht1 & Hq & Hqk & Hqt).
  apply allocproc_table in R0 as (_ & _ & _ & [(? & _)|(i' & p & q' & _ & Hpi & Hu & Et & _ & _ & _ & _ & _ & _ & _ & [[? _]|[[= <-] Hqs]])]); [done|done|].
  pose proof (lookup_lt_Some _ _ _ Hpi) as Hlt. rewrite Et, list_lookup_insert_eq in Hq by done. injection Hq as ->.
  set (held := pe_held (ps_env s)) in *.
  assert (NoDup (v :: held ++ l)) as Hnv by (by rewrite Permutation_middle). pose proof Hnv as [Hvn _]%NoDup_cons.
  assert (forall u, u ∈ held ++ l -> u <> v /\ page_ok u) as Hpg.
  { intros u Hu'. split; [by intros ->|]. rewrite Forall_forall in Hp. apply Hp. set_solver +Hu'. }
  prun H. prun H as d0 R1.
  assert ((v :: held) ++ l ≡ₚ held ++ v :: l) as Hpv by (cbn; by rewrite Permutation_middle).
  destruct (setupkvm_spec kend_high data_aligned data_range (pe_mem (ps_env s0)) l (v :: held) Hk1)
    as (d & k1 & E1 & Hs1 & H1); [by rewrite Hpv|by rewrite Hpv|].
  rewrite E1 in R1. injection R1 as <- <-.
  destruct H1 as [(-> & _)|(Hd & tabs1 & free1 & Hu1 & Hpe1 & _)]; [done|].
  replace (d =? 0) with false in H by (symmetry; by apply Z.eqb_neq).
  prun H as u2 R2. rewrite pe_get_set in R2.
  assert (Z.of_nat (length initcode) < PGSIZE) as Hcode.
  { unfold inituvm in R2. destruct (_ >=? PGSIZE) eqn:Eg; [done|lia]. }
  pose proof (Permutation_length Hpe1) as Hl1. cbn [length] in *. rewrite length_app in Hl1.
  pose proof (space_tables _ _ _ _ _ (proj1 Hu1)) as Ht.
  destruct (inituvm_spec kend k1 d tabs1 (v :: held) free1 initcode Hu1 Hcode ltac:(lia)) as (k2 & tabs2 & pg & free2 & E2 & Hu2 & Hpe2 & Hs2).
  rewrite E2 in R2. injection R2 as _ <-.
  prun H. prun H as n Hn1. rewrite Et, alter_insert, list_lookup_insert_eq in Hn1 by done. injection Hn1 as <-.
  prun H as u3 R3. prun H as u4 R4. prun H as u5 R5. prun H as u6 R6. prun H as nm Rn. prun H. prun H as x Rx. prun H. injection H as <-.
  apply on_mem_inv in R3 as ->, R4 as ->, R5 as ->, R6 as ->. rewrite !pe_get_set in *. cbn [k_mem k_use_lock k_freelist p_tf set_space] in *.
  apply pf_init_mem in Rx as [Em Ex]. rewrite Hqt in *.
  pose proof (init_regs_touch v (k_mem k2) (Z.lor (Z.shiftl SEG_UDATA 3) DPL_USER) (Z.lor (Z.shiftl SEG_UCODE 3) DPL_USER) Hv) as Ht3.
  cbv zeta in Ht3. set (m3 := st32 _ _ _) in *.
  assert (d :: tables tabs2 ++ pages {[0 := pg]} ++ free2 ≡ₚ l) as Hpe3.
  { rewrite <- Hpe1, <- Hpe2. unfold tables at 2. rewrite map_to_list_singleton. cbn. done. }
  assert (forall u, u ∈ d :: tables tabs2 ++ pages {[0 := pg]} ++ free2 -> u <> v /\ page_ok u) as Hdv.
  { intros u Hu'. rewrite Hpe3 in Hu'. apply Hpg. set_solver +Hu'. }
  eapply (owned_change kend (held ++ v :: l) s _ (replicate (length (ps_proc s)) AtUser) _ i p _ (replicate (length (ps_proc s)) []) []
    (v :: d :: tables tabs2 ++ pages {[0 := pg]}) (v :: l) free2);
    [done| | |by rewrite length_replicate|by apply lookup_replicate_2| |done|done| |..]; cbn.
  - rewrite Et, !alter_insert by done. reflexivity.
  - by rewrite Et, !length_alter, length_insert.
  - intros j y Q _ Hy HQ. apply lookup_replicate in HQ as [-> _]. unfold slot_ok. destruct (ft_unused _ Hfr j y Hy) as [-> _]; done.
  - fold held. rewrite concat_replicate_nil. done.
  - rewrite Em, pe_get_set. eapply kmem_frame; [apply Hu2|done|]. intros u Hu'. cbn. apply Ht3; apply Hdv; set_solver +Hu'.
  - rewrite Ex, !pe_held_set, Eh. fold held.
    trans (v :: held ++ (d :: tables tabs2 ++ pages {[0 := pg]} ++ free2)); [solve_Permutation|]. rewrite Hpe3. solve_Permutation.
  - intros u. rewrite list_insert_id by (by apply lookup_replicate_2). rewrite concat_replicate_nil. by intros ?%not_elem_of_nil.
  - rewrite Em, pe_get_set. apply slot_full; [done..|]. exists tabs2, {[0 := pg]}. cbn. rewrite Hqk.
    split_and!; [done| |done|done| |done].
    + eapply space_at_frame; [by eapply space_at_of| |].
      * rewrite Forall_forall. intros u Hu'. apply Hdv. set_solver +Hu'.
      * intros u Hu'. apply Ht3; apply Hdv; set_solver +Hu'.
    + intros y u [<- <-]%lookup_singleton_Some. done.
Qed.

Lemma steps_owned all c c' : psteps kend data trapret forkret c c' -> table_ok c -> owned kend all c ->
  table_ok c' /\ owned kend all c'.
Proof.
  induction 1 as [|c1 c2 c3 [lb Hl] _ IH]; intros Hok Ho; [done|]. apply IH; [by eapply pstep_ok|by eapply step_owned].
Qed.

(** The account of all pages, for any file side that keeps its promises. *)
Lemma account initcode (s0 s1 s : st) w free :
  fresh_table s0 -> kmem_ok (pe_mem (ps_env s0)) free -> NoDup (pe_held (ps_env s0) ++ free) ->
  Forall page_ok (pe_held (ps_env s0) ++ free) -> (2052 <= length free)%nat ->
  userinit kend data trapret forkret initcode s0 = Ok (tt, s1) ->
  psteps kend data trapret forkret (s1, replicate (length (ps_proc s1)) AtUser) (s, w) ->
  exists owners free', length owners = length (ps_proc s) /\ kmem_ok (pe_mem (ps_env s)) free' /\
    concat owners ++ pe_held (ps_env s) ++ free' ≡ₚ pe_held (ps_env s0) ++ free /\
    forall i p R, ps_proc s !! i = Some p -> owners !! i = Some R ->
      slot_ok (k_mem (pe_mem (ps_env s))) p (w !! i) R /\
      (settled p -> forall q, 0 <= q < 524288 ->
         let e := lookup_pte (k_mem (pe_mem (ps_env s))) (p_pgdir p) (4096 * q) in
         has PTE_P e = true -> 4096 * q < p_sz p /\ P2V (PTE_ADDR e) ∈ R).
Proof.
  intros Hf Hk Hn Hp Hlen Hi Hr. pose proof (boot_ok _ _ _ _ _ _ _ Hf Hi) as Hok.
  pose proof (userinit_owned _ _ _ _ Hf Hk Hn Hp Hlen Hi) as Ho. set (all := pe_held (ps_env s0) ++ free) in *.
  destruct (steps_owned all _ _ Hr Hok Ho) as [_ (Rs & free' & Hl & Hsl & Hk' & _ & _ & Hall)]. cbn [fst snd] in *.
  exists Rs, free'. split_and!; [done|done|done|]. intros i p R Hpi HR. pose proof (Hsl i p R Hpi HR) as Hs.
  split; [done|]. intros [Hu He] q Hq Hh. apply slot_full in Hs as (tabs & um & -> & Ha & _ & Hdom & _); [|done|done].
  eapply full_mapped in Hh as (u & Hum & Eu); [|exact Ha| |done].
  - rewrite Eu. split; [by eapply Hdom|]. apply tables_lookup in Hum. set_solver +Hum.
  - rewrite Forall_forall in *. intros v Hv. apply Hp. rewrite <- Hall, (concat_at Rs i _ HR). set_solver +Hv.
Qed.
End Boot.

(** * A concrete start

    Files play no role: the environment is the memory alone. *)

#[export] Instance mem_only : ProcEnv kstate unit := {|
  pe_mem := fun k => k;
  pe_set := fun k _ => k;
  pf_none := tt;
  pf_init := ret tt;
  pf_fork := fun _ => ret tt;
  pf_exit := fun _ => ret tt;
  pf_call := fun _ _ => ret (-1, tt);
  pf_exec := fun _ _ p => ret (-1, p)
|}.

#[export] Instance mem_only_laws kend : ProcEnvLaws kend kstate unit.
Proof.
  refine {| pe_held := fun _ => [] |}; cbn; try done.
  - by intros e x e' [= _ <-].
  - by intros x e x' e' [= _ <-].
  - intros x e e' free rest Hk _ _ [= <-]. by exists free.
  - intros num p e r e' free rest R Hk Hf _ _ [= _ <-]. by exists free.
  - intros path argv p e r p' e' free rest R Hk Hf _ _ [= <- <- <-]. exists R, free. split_and!; try done.
Defined.

(** Two entries, one CPU. *)
Definition start_entry {X} (x : X) : proc X := mkproc 0 0 0 UNUSED 0 None 0 0 NoChan 0 x (replicate 16 0).
Definition start_table {E X} (x : X) (e : E) : pstate E X := mkps [start_entry x; start_entry x] 1 None [None] [0%nat] e.
Abbreviation demo_entry := (start_entry tt).
Abbreviation demo_table := (start_table (E := kstate) tt).

Lemma start_fresh {E X} (x : X) (e : E) : fresh_table (start_table x e).
Proof.
  constructor; [|done|].
  - intros [|[|i]] p Hp; cbn in Hp; [injection Hp as <-; done|injection Hp as <-; done|done].
  - intros [|[|c]] i; done.
Qed.

Lemma pages_between_ok kend p vend : p mod 4096 = 0 -> kend <= p -> KERNBASE <= p -> vend <= KERNBASE + PHYSTOP ->
  Forall (page_ok kend) (pages_between p vend).
Proof.
  intros Hm Hk Hb He. unfold pages_between. apply Forall_fmap, Forall_forall. intros i Hi%elem_of_seq.
  unfold PGSIZE, KERNBASE, PHYSTOP in *. cbn. unfold page_ok, PGSIZE, KERNBASE, PHYSTOP. divmod.
Qed.

(** Some 2052 free pages. *)
Lemma demo_memory : exists k free, kmem_ok demo_kend k free /\ (2052 <= length free)%nat.
Proof.
  destruct (kinit1_spec demo_kend demo_kend (demo_kend + 4096 * 2052) (mkk ∅ true 0) eq_refl) as (k & _ & l & Hk & Hp).
  { change (PGROUNDUP demo_kend) with demo_kend. apply pages_between_ok; done. }
  exists k, l. split; [exact Hk|]. cbn [fst snd] in Hp. rewrite ?app_nil_r in Hp. apply Permutation_length in Hp. cbn [app] in Hp. rewrite Hp. unfold pages_between.
  rewrite length_fmap, length_seq. change (PGROUNDUP demo_kend) with demo_kend.
  replace (demo_kend + 4096 * 2052 - demo_kend) with (4096 * 2052) by lia. vm_compute. lia.
Qed.

(** [userinit] succeeds there. *)
Lemma memory_Ok {E X A} `{!ProcEnv E X} (m : M kstate A) (s : pstate E X) a k : m (pe_mem (ps_env s)) = Ok (a, k) ->
  memory m s = Ok (a, put_env (pe_set k (ps_env s)) s).
Proof. intros Hm. unfold memory, zoom. by rewrite Hm. Qed.

Lemma env_Ok {E X A} `{!ProcEnv E X} (m : M E A) (s : pstate E X) a e : m (ps_env s) = Ok (a, e) -> env m s = Ok (a, put_env e s).
Proof. intros Hm. unfold env, zoom. by rewrite Hm. Qed.

Lemma runs_bind {S A B} (P : S -> Prop) (m : M S A) (k : A -> M S B) s a s' : m s = Ok (a, s') ->
  (exists b s2, k a s' = Ok (b, s2) /\ P s2) -> exists b s2, bind m k s = Ok (b, s2) /\ P s2.
Proof. intros Hm (b & s2 & Hk). exists b, s2. by rewrite (bind_Ok _ _ _ _ _ Hm). Qed.

Lemma lift_Ok {S A} (o : outcome A) (s : S) a : o = Ok a -> lift o s = Ok (a, s).
Proof. by intros ->. Qed.

Lemma init_name_fits n : length n = 16%nat -> exists w, safestrcpy n initcode_name 16 = Ok w.
Proof. intros Hn. unfold safestrcpy. cbn. rewrite Hn. cbn. eauto. Qed.

Section Start.
  Context {E X : Type} `{!ProcEnv E X} `{!ProcEnvLaws demo_kend E X} (x0 : X) (e0 : E).
  Hypothesis set_set : forall k k' (e : E), pe_set k (pe_set k' e) = pe_set k e.
  Hypothesis init_any : forall k, exists x e', pf_init (pe_set k e0) = Ok (x, e').
Abbreviation st := (pstate E X).

Lemma start_allocproc v l : kmem_ok demo_kend (pe_mem e0) (v :: l) ->
  exists k1 q, allocproc 1 2 (start_table x0 e0) = Ok (Some 0%nat, mkps [q; start_entry x0] 2 None [None] [0%nat] (pe_set k1 e0)) /\
    length (p_name q) = 16%nat /\ p_pid q = 1.
Proof.
  intros Hk. destruct (kalloc_spec demo_kend _ _ Hk) as (k1 & E1 & _ & Hz & _). unfold allocproc.
  unfold bind at 1. change (alloc_entry (start_table x0 e0)) with
    (Ok (Some 0%nat, mkps [set_pid 1 (set_state EMBRYO (start_entry x0)); start_entry x0] 2 None [None] [0%nat] e0)). cbv iota beta.
  unfold alloc_stack. unfold bind at 1. erewrite (memory_Ok kalloc); [|exact E1]. cbv beta iota.
  rewrite (bind_Ok _ _ _ _ _ eq_refl). replace (v =? 0) with false by (symmetry; by apply Z.eqb_neq).
  do 4 rewrite (bind_Ok _ _ _ _ _ eq_refl). cbn. rewrite !set_set. eexists _, _. split_and!; reflexivity.
Qed.

Lemma upd_run i f (s : st) : upd i f s = Ok (tt, put_procs (alter f i (ps_proc s)) s).
Proof. done. Qed.

Lemma write_run f (s : st) : exists k, memory (on_mem f) s = Ok (tt, put_env (pe_set k (ps_env s)) s).
Proof. by eexists. Qed.

Lemma start_userinit free : kmem_ok demo_kend (pe_mem e0) free -> (2052 <= length free)%nat ->
  exists q e', userinit demo_kend (demo_page (-2)) 1 2 [] (start_table x0 e0) =
      Ok (tt, mkps [q; start_entry x0] 2 (Some 0%nat) [None] [0%nat] e') /\ p_state q = RUNNABLE /\ p_pid q = 1.
Proof.
  intros Hk Hlen. destruct free as [|v l]; [cbn in Hlen; lia|].
  destruct (start_allocproc v l Hk) as (k1 & q & E1 & Hname & Hpid).
  destruct (allocproc_mem demo_kend 1 2 (start_table x0 e0) _ _ (v :: l) Hk E1) as (_ & v' & l' & q' & [= <- <-] & Hv & Hk1 & _).
  cbn in Hk1. rewrite pe_get_set in Hk1.
  assert (exists b s2, userinit demo_kend (demo_page (-2)) 1 2 [] (start_table x0 e0) = Ok (b, s2) /\
    exists q e', s2 = mkps [q; start_entry x0] 2 (Some 0%nat) [None] [0%nat] e' /\ p_state q = RUNNABLE /\ p_pid q = 1)
    as ([] & s2 & E2 & q2 & e' & -> & H2); [|by exists q2, e'].
  unfold userinit. eapply runs_bind; [exact E1|]. cbv beta iota. eapply runs_bind; [reflexivity|].
  destruct (setupkvm_spec demo_high (eq_refl : demo_page (-2) mod 4096 = 0) ltac:(done) k1 l [v] Hk1)
    as (d & k2 & E2 & _ & H2); [exact (km_nodup _ _ _ Hk)|exact (km_pages _ _ _ Hk)|].
  eapply runs_bind; [apply memory_Ok; cbn; rewrite pe_get_set; exact E2|]. cbv beta. cbn [length] in Hlen.
  destruct H2 as [(_ & ? & _)|(Hd & tabs & free2 & Hu & Hpe & _)]; [lia|].
  replace (d =? 0) with false by (symmetry; by apply Z.eqb_neq).
  pose proof (Permutation_length Hpe) as Hl. cbn [length] in Hl. rewrite length_app in Hl.
  pose proof (space_tables _ _ _ _ _ (proj1 Hu)).
  destruct (inituvm_spec demo_kend k2 d tabs [v] free2 [] Hu ltac:(done) ltac:(lia)) as (k3 & _ & _ & _ & E3 & _).
  eapply runs_bind; [apply memory_Ok; cbn; rewrite pe_get_set; exact E3|]. cbv beta.
  eapply runs_bind; [apply upd_run|]. eapply runs_bind; [apply getp_Ok; reflexivity|]. cbv beta zeta.
  cbn [put_procs put_env put_init ps_proc ps_nextpid ps_init ps_cpu ps_pos ps_env alter list_alter].
  do 4 (match goal with |- context [bind (memory (on_mem ?f)) _ ?s] => destruct (write_run f s) as [? Ew]; eapply runs_bind; [exact Ew|clear Ew] end).
  destruct (init_name_fits (p_name q) Hname) as [w Ew].
  eapply runs_bind; [exact (lift_Ok _ _ w Ew)|].
  eapply runs_bind; [apply upd_run|].
  cbn [put_procs put_env put_init ps_proc ps_nextpid ps_init ps_cpu ps_pos ps_env alter list_alter]. rewrite !set_set.
  match goal with |- context [pe_set ?k e0] => destruct (init_any k) as (fx & e' & Ei) end.
  eapply runs_bind; [apply env_Ok; exact Ei|].
  eapply runs_bind; [apply upd_run|]. eexists _, _. split; [apply upd_run|].
  cbn [put_procs put_env put_init ps_proc ps_nextpid ps_init ps_cpu ps_pos ps_env alter list_alter].
  eexists _, _. split; [reflexivity|]. split; [reflexivity|exact Hpid].
Qed.
End Start.

Lemma demo_fresh k : fresh_table (demo_table k).
Proof. apply start_fresh. Qed.

Lemma demo_userinit k free : kmem_ok demo_kend k free -> (2052 <= length free)%nat ->
  exists q k', userinit demo_kend (demo_page (-2)) 1 2 [] (demo_table k) =
      Ok (tt, mkps [q; demo_entry] 2 (Some 0%nat) [None] [0%nat] k') /\ p_state q = RUNNABLE /\ p_pid q = 1.
Proof.
  intros Hk. refine (start_userinit (E := kstate) (X := unit) (ProcEnv0 := mem_only) (ProcEnvLaws0 := mem_only_laws demo_kend) tt k _ _ free Hk).
  - done.
  - by eexists _, _.
Qed.

(** The first process runs, gives up the CPU, and the scheduler goes on. *)
Definition demo_state (q : proc unit) (v : procstate) (c : option nat) (pos : nat) (k : kstate) : pstate kstate unit :=
  mkps [set_state v q; demo_entry] 2 (Some 0%nat) [c] [pos] k.

Lemma demo_run q k : p_state q = RUNNABLE ->
  prun demo_kend (demo_page (-2)) 1 2 [LSched 0; LOther; LSched 0]
    (demo_state q RUNNABLE None 0 k, [AtUser; AtUser]) (demo_state q RUNNABLE None 0 k, [AtUser; AtUser]).
Proof.
  intros Hq. eapply prun_cons; [|eapply prun_cons; [|eapply prun_cons; [|apply prun_nil]]].
  - apply (step_sched _ _ _ _ 0 _ (demo_state q RUNNING (Some 0%nat) 1 k)); reflexivity.
  - eapply (step_yield _ _ _ _ 0 0 AtUser _ (demo_state q RUNNABLE None 1 k)); [done|done|reflexivity].
  - apply step_sched; reflexivity.
Qed.

Lemma process_table_safe_witness : exists s0 s1, fresh_table s0 /\
  userinit demo_kend (demo_page (-2)) 1 2 [] s0 = Ok (tt, s1) /\ table_ok (s1, [AtUser; AtUser]).
Proof.
  destruct demo_memory as (k & free & Hk & Hlen). destruct (demo_userinit k free Hk Hlen) as (q & k' & E & Hq & _).
  exists (demo_table k). eexists. split; [apply demo_fresh|]. split; [exact E|].
  exact (process_table_safe _ _ _ _ _ _ _ _ _ (demo_fresh k) E (rtc_refl _ _)).
Defined.

Lemma scheduler_fair_witness : exists q k,
  passes demo_kend (demo_page (-2)) 1 2 (runs_now 0 1) [LSched 0; LOther; LSched 0]
    (demo_state q RUNNABLE None 0 k, [AtUser; AtUser]) (demo_state q RUNNABLE None 0 k, [AtUser; AtUser]).
Proof.
  destruct demo_memory as (k & free & Hk & Hlen). destruct (demo_userinit k free Hk Hlen) as (q & k' & E & Hq & Hpid).
  assert (set_state RUNNABLE q = q) as Eq by (destruct q; cbn in *; by subst).
  exists q, k'. pose proof (demo_run q k' Hq) as Hr. unfold demo_state in *. rewrite Eq in *.
  refine (scheduler_fair _ _ _ _ [] _ _ _ _ _ _ 0 0 0 1 (demo_fresh k) E (rtc_refl _ _) eq_refl _ _ Hr _).
  - cbn. lia.
  - exists q. done.
  - vm_compute. lia.
Defined.

(** The second entry is free and has pid 0. *)
Lemma kill_zero_dooms_child_witness :
  let s := mkps [set_pid 1 (set_state RUNNING demo_entry); demo_entry] 2 (Some 0%nat) [Some 0%nat] [1%nat] (mkk ∅ true 0) in
  exists s1, kill 0 s = Ok (0, s1) /\
    forall c r s2, fork demo_kend (demo_page (-2)) 1 2 c s1 = Ok (r, s2) -> r <> -1 ->
      exists q, ps_proc s2 !! 1%nat = Some q /\ p_pid q = r /\ p_state q = RUNNABLE /\ p_killed q = 1.
Proof.
  intros s. exact (kill_zero_dooms_child demo_kend (demo_page (-2)) 1 2 s 1 eq_refl eq_refl).
Defined.
