(* ===== verification/ExecPages.v ===== *)
(** exec and the pages of memory: whatever the file holds and wherever exec gives up, the
    process has one address space at the end, and all pages that are neither its own nor
    those of others are free. *)

From S2P Require Import Prelude Mem Strings Bio Block Fs Kalloc Vm VmSpace VmUser VmKernel VmCopy VmImage Proc ProcTable ProcMem Console Elf Exec.
Local Open Scope Z_scope.

(** * What readi returns

    A read of a device stores at most as many bytes as it was asked for. *)
Definition devsw_fits {W} (devsw : Z -> option (nat -> Z -> M (fsys W) (Z * bytes))) : Prop :=
  forall major f i n s r s', devsw major = Some f -> 0 <= n -> f i n s = Ok (r, s') -> Z.of_nat (length r.2) <= n.

Section Read.
  Context {W : Type} `{BlockIO W}.
  Context (devsw : Z -> option (nat -> Z -> M (fsys W) (Z * bytes))).

Lemma readi_loop_length fuel : forall i tot off n acc (s : fsys W) l s', Z.of_nat (length acc) <= tot <= n ->
  readi_loop fuel i tot off n acc s = Ok (l, s') -> Z.of_nat (length l) <= n.
Proof.
  induction fuel as [|fuel IH]; intros i tot off n acc s l s' Ha R; cbn [readi_loop] in R.
  all: destruct (tot <? n) eqn:El; [|injection R as <- <-; lia].
  { done. }
  apply bind_Ok_inv in R as (ip & s1 & _ & R). apply bind_Ok_inv in R as (ad & s2 & _ & R). apply bind_Ok_inv in R as (bp & s3 & _ & R).
  apply bind_Ok_inv in R as (d & s4 & _ & R). apply bind_Ok_inv in R as (u & s5 & _ & R). unfold BSIZE in R.
  eapply (IH _ _ _ _ _ _ _ _); [|exact R]. rewrite length_app. unfold slice. rewrite length_take. divmod.
Qed.

Lemma readi_length i off n (s : fsys W) r s' : devsw_fits devsw -> 0 <= off < 4294967296 -> 0 <= n <= INT_MAX ->
  readi devsw i off n s = Ok (r, s') -> Z.of_nat (length r.2) <= n.
Proof.
  intros Hd Ho Hn R. unfold INT_MAX in Hn. unfold readi in R. apply bind_Ok_inv in R as (ip & s1 & _ & R).
  destruct (_ =? T_DEV).
  - destruct (_ || _); [injection R as <- _; cbn; lia|]. destruct (devsw _) as [f|] eqn:Ef; [|injection R as <- _; cbn; lia].
    rewrite s32_small in R by lia. eapply Hd; [exact Ef|lia|exact R].
  - destruct (_ || _) eqn:Eo; [injection R as <- _; cbn; lia|]. apply bind_Ok_inv in R as (l & s2 & R & [= <- _]). cbn.
    apply orb_false_iff in Eo as [Eo1 Eo2]. destruct (_ >? _) eqn:Es in R.
    + assert (u32 (off + n) = off + n) as Ew by ints. rewrite Ew in *.
      etrans; [eapply readi_loop_length; [|exact R]; cbn; lia|lia].
    + eapply readi_loop_length; [|exact R]. cbn. lia.
Qed.
End Read.

(** * Triples *)

Definition triple {S A} (P : S -> Prop) (m : M S A) (Q : A -> S -> Prop) : Prop :=
  forall s a s', P s -> m s = Ok (a, s') -> Q a s'.

Lemma triple_bind {S A B} P (m : M S A) (k : A -> M S B) Q R : triple P m Q -> (forall a, triple (Q a) (k a) R) -> triple P (bind m k) R.
Proof. intros Hm Hk s b s' HP (a & s1 & E1 & E2)%bind_Ok_inv. eapply Hk; [|exact E2]. by eapply Hm. Qed.

Lemma triple_ret {S A} (P : S -> Prop) (a : A) (Q : A -> S -> Prop) : (forall s, P s -> Q a s) -> triple P (ret a) Q.
Proof. intros HQ s b s' HP [= <- <-]. by apply HQ. Qed.

Lemma triple_weaken {S A} P (m : M S A) Q Q' : triple P m Q -> (forall a s, Q a s -> Q' a s) -> triple P m Q'.
Proof. intros Hm HQ s a s' HP E. eapply HQ, Hm; eauto. Qed.

Lemma triple_pre {S A} P P' (m : M S A) Q : triple P m Q -> (forall s, P' s -> P s) -> triple P' m Q.
Proof. intros Hm HP s a s' HP' E. eapply Hm; eauto. Qed.

Lemma triple_lift {S A} (P : S -> Prop) (o : outcome A) : triple P (lift o) (fun _ => P).
Proof. intros s a s' HP E. unfold lift in E. destruct o; try done. by injection E as _ <-. Qed.

Lemma triple_gets {S A} (P : S -> Prop) (f : S -> A) : triple P (gets f) (fun a s => P s /\ a = f s).
Proof. by intros s a s' HP [= <- <-]. Qed.

Lemma triple_panic {S A} (P : S -> Prop) msg Q : triple (A := A) P (panic msg) Q.
Proof. by intros s a s' _ E. Qed.

Lemma triple_undefined {S A} (P : S -> Prop) Q : triple (A := A) P undefined Q.
Proof. by intros s a s' _ E. Qed.

(** * An address space in the making *)

Section Loose.
  Context (kend data : Z).
Abbreviation page_ok := (page_ok kend).
Abbreviation image := (image kend data).
  Hypothesis kend_high : KERNBASE < kend.
  Hypothesis data_aligned : data mod 4096 = 0.
  Hypothesis data_range : KERNLINK < data < KERNBASE + PHYSTOP.

(** An image whose bytes do not matter. *)
Definition loose (s : kstate) (pgdir : Z) (rest all : list Z) (sz : Z) : Prop := exists img fl, image s pgdir rest all sz img fl.

Definition frame (rest : list Z) (s s' : kstate) : Prop := forall v, v ∈ rest -> same_page (k_mem s) (k_mem s') v.

Lemma frame_trans rest s1 s2 s3 : frame rest s1 s2 -> frame rest s2 s3 -> frame rest s1 s3.
Proof. intros H1 H2 v Hv. eapply same_page_trans; eauto. Qed.

Lemma frame_refl rest s : frame rest s s.
Proof. by intros v _ a _. Qed.

Lemma loose_grow s pgdir rest all sz newsz r s' : loose s pgdir rest all sz -> 0 <= newsz < 4294967296 ->
  allocuvm kend pgdir sz newsz s = Ok (r, s') ->
  frame rest s s' /\ (r = 0 /\ loose s' pgdir rest all sz \/ newsz < KERNBASE /\ r = Z.max sz newsz /\ loose s' pgdir rest all r).
Proof.
  intros (img & fl & Hi) Hn R.
  set (img' := fun va => if decide (va < 4096 * npages sz) then img va else 0).
  set (fl' := fun q => if decide (q < npages sz) then fl q else user_flags).
  assert (image s pgdir rest all sz img' fl') as Hi'.
  { eapply image_flags_ext; [eapply image_ext; [exact Hi|]|]; intros x Hx; unfold img', fl'; by rewrite decide_True by lia. }
  destruct (image_grow kend data kend_high s pgdir rest all sz img' fl' newsz Hi' Hn) as (r' & s1 & E & Hf & H).
  { intros q Hq. unfold fl'. by rewrite decide_False by lia. }
  { intros va Hva. unfold img'. by rewrite decide_False by lia. }
  rewrite E in R. injection R as -> ->. split; [done|]. destruct H as [(-> & H & _)|(? & ? & H)]; [left|right]; split_and!; try done; by eexists _, _.
Qed.

Lemma loose_write s pgdir rest all sz va l : loose s pgdir rest all sz -> 0 <= va < 4096 * npages sz ->
  va + Z.of_nat (length l) <= 4096 * (va / 4096) + 4096 ->
  let s' := mkk (mwrite (k_mem s) (P2V (PTE_ADDR (lookup_pte (k_mem s) pgdir va)) + va mod 4096) l) (k_use_lock s) (k_freelist s) in
  loose s' pgdir rest all sz /\ frame rest s s'.
Proof.
  intros (img & fl & Hi) Hva Hl s'. destruct (image_write _ _ _ _ _ _ _ _ _ va l Hi ltac:(lia) ltac:(lia) ltac:(lia)) as [H1 H2].
  split; [by eexists _, _|exact H2].
Qed.

(** Above the memory of the process there is nothing for users. *)
Lemma kernel_pte_user va : KERNBASE <= va < 4294967296 -> va mod 4096 = 0 -> has PTE_U (kernel_pte data va) = false.
Proof.
  intros Hva Hal.
  assert (forall a f, a mod 4096 = 0 -> 0 <= a < 4294967296 -> (f = 1 \/ f = 3) -> has PTE_U (a + f) = false) as Hf.
  { intros a f Ha Hr Hff. rewrite has_U_flags by divmod. rewrite PTE_FLAGS_eq by divmod.
    replace ((a + f) mod 4096) with f by divmod. by destruct Hff as [->| ->]. }
  unfold kernel_pte. rewrite PGROUNDDOWN_eq, Hal, Z.sub_0_r. unfold PTE_P, PTE_W, KERNBASE, KERNLINK, EXTMEM, PHYSTOP, DEVSPACE in *.
  assert (V2P va mod 4096 = 0 /\ 0 <= V2P va < 4294967296) as [HV1 HV2].
  { unfold V2P, KERNBASE. rewrite u32_small by lia. divmod. }
  repeat match goal with |- context [?x <? ?y] => destruct (Z.ltb_spec x y); try lia end; try done; apply Hf; auto; lia.
Qed.

Lemma uva2ka_above s pgdir rest all sz va r s' : loose s pgdir rest all sz -> 4096 * npages sz <= va < 4294967296 ->
  va mod 4096 = 0 -> uva2ka pgdir va s = Ok (r, s') -> r = 0 /\ s' = s.
Proof.
  intros (img & fl & [(tabs & um & free & [Hs Hus] & Hf & Hpe) Hsz _ _ Hk]) Hva Hal R.
  assert (has PTE_P (lookup_pte (k_mem s) pgdir va) = false \/ has PTE_U (lookup_pte (k_mem s) pgdir va) = false) as Hno.
  { destruct (decide (va < KERNBASE)) as [Hlo|Hhi]; [left|right; rewrite Hk by lia; apply kernel_pte_user; [lia|done]].
    unfold KERNBASE in *. pose proof (npages_top sz Hsz) as Ht. unfold KERNBASE in Ht.
    pose proof (us_map _ _ _ Hus (va / 4096) ltac:(divmod)) as Hm. replace (4096 * (va / 4096)) with va in Hm by divmod.
    destruct (um !! (va / 4096)) eqn:Eu; [|done]. apply (full_lookup _ _ _ _ Hf) in Eu. unfold npages in *. divmod. }
  unfold uva2ka in R. pose proof (lookup_table _ _ _ _ _ va Hs) as Hl. destruct (tabs !! PDX va) as [t|] eqn:Et.
  - destruct (walk_hit s pgdir tabs _ free va false t Hs Et) as [E Hz]. rewrite (bind_Ok _ _ _ _ _ E) in R.
    rewrite (proj2 (Z.eqb_neq _ _) Hz) in R.
    rewrite (bind_Ok _ _ _ _ _ (eq_refl : load (t + 4 * PTX va) s = Ok (ld32 (k_mem s) (t + 4 * PTX va), s))) in R. rewrite <- Hl in R.
    destruct (has PTE_P _) eqn:E1; cbn [negb] in R; [|by injection R as <- <-].
    destruct (has PTE_U _) eqn:E2; cbn [negb] in R; [|by injection R as <- <-]. by destruct Hno.
  - rewrite (bind_Ok _ _ _ _ _ (walk_miss s pgdir tabs _ free va Hs Et)) in R. done.
Qed.

Lemma loose_copyout_loop fuel : forall s pgdir rest all sz va buf r s', loose s pgdir rest all sz -> 0 <= va < 4294967296 ->
  copyout_loop fuel pgdir va buf s = Ok (r, s') -> loose s' pgdir rest all sz /\ frame rest s s'.
Proof.
  induction fuel as [|fuel IH]; intros s pgdir rest all sz va buf r s' Hi Hva R; (destruct buf as [|c buf];
    [injection R as <- <-; by split; [|apply frame_refl]|]); cbn [copyout_loop] in R; [done|].
  set (b := c :: buf) in *. apply bind_Ok_inv in R as (pa & s1 & R1 & R).
  assert (PGROUNDDOWN va = 4096 * (va / 4096)) as Erd by (rewrite PGROUNDDOWN_eq; divmod). rewrite Erd in *.
  destruct (decide (4096 * (va / 4096) < 4096 * npages sz)) as [Hin|Hout].
  2: { eapply uva2ka_above in R1 as [-> ->]; [|exact Hi|divmod|divmod]. injection R as <- <-. by split; [|apply frame_refl]. }
  pose proof Hi as (img & fl & Hi'). rewrite (uva2ka_user _ _ _ _ _ _ _ _ _ (4096 * (va / 4096)) Hi') in R1 by divmod.
  injection R1 as <- <-. destruct (has PTE_U _); [|injection R as <- <-; by split; [|apply frame_refl]].
  destruct (_ =? 0); [injection R as <- <-; by split; [|apply frame_refl]|].
  apply bind_Ok_inv in R as (u & s2 & [= _ <-] & R). rewrite <- lookup_page in R by lia. unfold PGSIZE in R.
  set (n := Z.to_nat _) in R. replace (va - 4096 * (va / 4096)) with (va mod 4096) in R by divmod.
  destruct (loose_write s pgdir rest all sz va (take n b) Hi) as [Hi2 Hf2]; [divmod| |].
  { rewrite length_take. unfold n. divmod. }
  apply IH with (rest := rest) (all := all) (sz := sz) in R as [Hi3 Hf3]; [|exact Hi2|apply Z.mod_pos_bound; done].
  split; [done|]. by eapply frame_trans.
Qed.
End Loose.

(** * exec *)

Section ExecPages.
  Context {W X : Type} `{BlockIO W}.
  Context (kend data : Z).
  Context (devsw : Z -> option (nat -> Z -> M (fsys W) (Z * bytes))).
  Hypothesis kend_high : KERNBASE < kend.
  Hypothesis data_aligned : data mod 4096 = 0.
  Hypothesis data_range : KERNLINK < data < KERNBASE + PHYSTOP.
  Hypothesis fits : devsw_fits devsw.
Abbreviation xs := (xsys W X).
Abbreviation page_ok := (page_ok kend).
Abbreviation kmem_ok := (kmem_ok kend).

(** The process [p] with its pages [R], those of others and the free ones, when exec begins. *)
  Context (p : proc X) (k0 : kstate) (R others free : list Z).
  Hypothesis start_slot : full_slot (k_mem k0) p R.
  Hypothesis start_nodup : NoDup (R ++ others ++ free).
  Hypothesis start_pages : Forall page_ok (R ++ others ++ free).

(** Nothing has been taken, or all has been given back. *)
Definition base (s : xs) : Prop := x_proc s = p /\ frame (R ++ others) k0 (x_kmem s) /\ exists f, kmem_ok (x_kmem s) f /\ f ≡ₚ free.

(** A second address space of [sz] bytes has been begun. *)
Definition built (pgdir sz : Z) (s : xs) : Prop :=
  x_proc s = p /\ frame (R ++ others) k0 (x_kmem s) /\ loose kend data (x_kmem s) pgdir (R ++ others) free sz.

(** The end: the process has its old or its new address space. *)
Definition ended (s : xs) : Prop := exists R' free', kmem_ok (x_kmem s) free' /\ R' ++ free' ≡ₚ R ++ free /\
  full_slot (k_mem (x_kmem s)) (x_proc s) R' /\ frame others k0 (x_kmem s) /\
  exists name pgdir sz, x_proc s = set_name name (set_space pgdir sz p).

Lemma base_ended s : base s -> ended s.
Proof.
  intros (Ep & Hf & f & Hk & Hpe). exists R, f. split_and!; [done|by rewrite Hpe| | |].
  - rewrite Ep. eapply full_frame; [exact start_slot| |].
    + rewrite Forall_forall in *. intros v Hv. apply start_pages. set_solver +Hv.
    + intros v Hv. apply Hf. set_solver +Hv.
  - intros v Hv. apply Hf. set_solver +Hv.
  - exists (p_name p), (p_pgdir p), (p_sz p). rewrite Ep. by destruct p.
Qed.

(** The file system and the console have no part in it. *)
Lemma triple_xfs {A} (P : xs -> Prop) (m : M (fsys W) A) : (forall s x, P s -> P (xput_fs x s)) -> triple P (xfs m) (fun _ => P).
Proof. intros HP s a s' Hs E. unfold xfs, zoom in E. destruct (m _) as [[b x]|?| |]; try done. injection E as _ <-. by apply HP. Qed.

Lemma triple_read (P : xs -> Prop) i off n : (forall s x, P s -> P (xput_fs x s)) -> 0 <= off < 4294967296 -> 0 <= n <= INT_MAX ->
  triple P (xfs (readi devsw i off n)) (fun r s => P s /\ Z.of_nat (length r.2) <= n).
Proof.
  intros HP Ho Hn s a s' Hs E. unfold xfs, zoom in E. destruct (readi devsw i off n (x_fs s)) as [[b x]|?| |] eqn:Er; try done.
  injection E as <- <-. split; [by apply HP|]. by eapply readi_length.
Qed.

Lemma triple_xkm {A} (P : xs -> Prop) (m : M kstate A) Q : (forall s a k, P s -> m (x_kmem s) = Ok (a, k) -> Q a (xput_kmem k s)) -> triple P (xkm m) Q.
Proof. intros HP s a s' Hs E. unfold xkm, zoom in E. destruct (m _) as [[b k]|?| |] eqn:Em; try done. injection E as <- <-. by apply HP. Qed.

Lemma base_fs s x : base s -> base (xput_fs x s).
Proof. done. Qed.

Lemma built_fs pgdir sz s x : built pgdir sz s -> built pgdir sz (xput_fs x s).
Proof. done. Qed.

Lemma built_pgdir pgdir sz s : built pgdir sz s -> pgdir <> 0.
Proof.
  intros (_ & _ & img & fl & Hi). destruct (image_frame _ _ _ _ _ _ _ _ _ Hi) as (mine & f & Hd & _ & _ & _ & Hp & _).
  apply (page_nonzero kend). rewrite Forall_forall in Hp. apply Hp. set_solver +Hd.
Qed.

(** The label [bad] gives all pages back. *)
Lemma bad_base pgdir ip : triple (fun s => if pgdir =? 0 then base s else exists sz, built pgdir sz s) (bad kend pgdir ip) (fun _ => base).
Proof.
  unfold bad. apply (triple_bind _ _ _ (fun _ => base)).
  - destruct (pgdir =? 0); cbn [negb when]; [by apply triple_ret|]. apply triple_xkm.
    intros s a k (sz & Ep & Hf & img & fl & Hi) E. destruct (image_free kend data kend_high _ _ _ _ _ _ _ Hi) as (k' & f' & E' & Hk & Hpe & Hr).
    rewrite E' in E. injection E as _ <-. split; [done|]. split; [by eapply frame_trans|by exists f'].
  - intros _. apply (triple_bind _ _ _ (fun _ => base)); [|intros _; by apply triple_ret].
    destruct ip; [|by apply triple_ret]. apply (triple_bind _ _ _ (fun _ => base)); [by apply triple_xfs|intros _; by apply triple_xfs].
Qed.

(** ** Loading *)

Lemma loaduvm_loop_built fuel pgdir addr ip off psz sz : 0 <= addr -> addr mod 4096 = 0 -> addr + sz <= psz -> forall i,
  0 <= i -> i mod 4096 = 0 -> triple (built pgdir psz) (loaduvm_loop devsw fuel pgdir addr ip off sz i) (fun _ => built pgdir psz).
Proof.
  intros Ha Ham Hend. induction fuel as [|fuel IH]; intros i Hi Him; cbn [loaduvm_loop];
    (destruct (i <? sz) eqn:Elt; [|by apply triple_ret]); [apply triple_undefined|].
  intros s a s' Hb E. pose proof Hb as (_ & _ & img & fl & Him'). pose proof (im_size _ _ _ _ _ _ _ _ _ Him') as Hsz.
  pose proof (npages_top psz Hsz) as Htop. unfold KERNBASE in *. rewrite (u32_small (addr + i)) in E by lia.
  destruct (image_walk _ _ _ _ _ _ _ _ _ (addr + i) Him' ltac:(lia)) as (pte & Ew & Hz & Hl & _).
  apply bind_Ok_inv in E as (w & s1 & E1 & E). unfold xkm, zoom in E1. rewrite Ew in E1. injection E1 as <- <-.
  rewrite (proj2 (Z.eqb_neq _ _) Hz) in E.
  apply bind_Ok_inv in E as (e & s2 & E1 & E). injection E1 as <- <-. cbn [x_kmem xput_kmem] in *. rewrite Hl in E.
  revert E. set (n := if _ <? _ then _ else _). assert (0 <= n <= 4096) as Hn by (unfold n, PGSIZE; destruct (Z.ltb_spec (sz - i) 4096); lia).
  intros E. apply bind_Ok_inv in E as (r & s3 & E1 & E).
  eapply (triple_read (fun x => built pgdir psz x /\ x_kmem x = x_kmem s)) in E1 as [[Hb3 Ek] Hlen];
    [|done|apply Z.mod_pos_bound; done|unfold INT_MAX; lia|by split].
  apply bind_Ok_inv in E as (u & s4 & E1 & E). unfold xkm, zoom in E1. cbn in E1. injection E1 as _ <-.
  destruct Hb3 as (Ep & Hfr & Hlo). rewrite Ek in *.
  destruct (loose_write kend data _ _ _ _ _ (addr + i) r.2 Hlo) as [Hlo' Hfr']; [lia|divmod|].
  replace ((addr + i) mod 4096) with 0 in * by divmod. rewrite Z.add_0_r in *.
  assert (built pgdir psz (xput_kmem (mkk (mwrite (k_mem (x_kmem s)) (P2V (PTE_ADDR (lookup_pte (k_mem (x_kmem s)) pgdir (addr + i)))) r.2)
    (k_use_lock (x_kmem s)) (k_freelist (x_kmem s))) s3)) as Hb4 by (split; [done|]; split; [by eapply frame_trans|done]).
  destruct (negb _); [by injection E as _ <-|]. eapply IH; [| |exact Hb4|exact E].
  - apply Z.mod_pos_bound. done.
  - unfold u32, PGSIZE. divmod.
Qed.

Lemma load_segment_built pgdir ip ph sz : triple (built pgdir sz) (load_segment kend devsw pgdir ip ph sz)
  (fun o s => match o with None => exists sz, built pgdir sz s | Some sz => built pgdir sz s end).
Proof.
  unfold load_segment. pose proof (uint_at_range ph 8) as Hva. pose proof (uint_at_range ph 16) as Hfz. pose proof (uint_at_range ph 20) as Hmz.
  fold (ph_vaddr ph) in Hva. fold (ph_filesz ph) in Hfz. fold (ph_memsz ph) in Hmz.
  destruct (ph_memsz ph <? ph_filesz ph) eqn:E1; [apply triple_ret; by eauto|].
  destruct (_ <? ph_vaddr ph) eqn:E2; [apply triple_ret; by eauto|].
  assert (u32 (ph_vaddr ph + ph_memsz ph) = ph_vaddr ph + ph_memsz ph) as Eu by ints. rewrite Eu in *.
  set (top := ph_vaddr ph + ph_memsz ph) in *.
  apply (triple_bind _ _ _ (fun r s => r = 0 /\ (exists sz, built pgdir sz s) \/ top <= r /\ built pgdir r s)).
  - apply triple_xkm. intros s a k (Ep & Hf & Hlo) E. eapply loose_grow in E as [Hfr H2]; [|done|exact Hlo|unfold top; ints].
    destruct H2 as [(-> & H2)|(_ & -> & H2)]; [left|right]; (split; [lia|]); [exists sz|]; split; try done; (split; [by eapply frame_trans|done]).
  - intros r. destruct (r =? 0) eqn:Er; [apply triple_ret; intros s [[_ ?]|[_ ?]]; by eauto|].
    destruct (negb _) eqn:Em; [apply triple_ret; intros s [[? _]|[_ ?]]; [lia|by eauto]|].
    apply (triple_bind _ _ _ (fun _ => built pgdir r)).
    + intros s a s' Hs E. destruct Hs as [[? _]|[Htop Hb]]; [lia|]. unfold loaduvm in E. rewrite Em in E.
      apply negb_false_iff, Z.eqb_eq in Em. unfold PGSIZE in Em.
      refine (loaduvm_loop_built _ pgdir (ph_vaddr ph) ip (ph_off ph) r (ph_filesz ph) _ Em _ 0 _ _ s a s' Hb E); [lia|unfold top in *; lia|lia|done].
    + intros l. destruct (l <? 0); apply triple_ret; by eauto.
Qed.

Lemma load_segments_built n pgdir ip : forall off sz, 0 <= off < 4294967296 -> triple (built pgdir sz) (load_segments kend devsw n pgdir ip off sz)
  (fun o s => match o with None => exists sz, built pgdir sz s | Some sz => built pgdir sz s end).
Proof.
  induction n as [|n IH]; intros off sz Ho; cbn [load_segments]; [by apply triple_ret|].
  assert (forall x, 0 <= u32 x < 4294967296) as Hu by (intros x; apply Z.mod_pos_bound; done).
  apply (triple_bind _ _ _ (fun _ => built pgdir sz)); [by apply triple_xfs|]. intros r.
  destruct (negb _); [apply triple_ret; by eauto|]. destruct (negb _); [by apply IH|].
  eapply triple_bind; [apply load_segment_built|]. intros [sz'|]; cbn beta iota; [by apply IH|by apply triple_ret].
Qed.

(** ** The stack *)

Lemma copyout_built pgdir sz va buf : 0 <= va < 4294967296 -> triple (built pgdir sz) (xkm (copyout pgdir va buf)) (fun _ => built pgdir sz).
Proof.
  intros Hva. apply triple_xkm. intros s a k (Ep & Hf & Hlo) E. eapply loose_copyout_loop in E as [Hlo' Hf']; [|done..].
  split; [done|]. split; [by eapply frame_trans|done].
Qed.

Lemma aligned_u32 x : 0 <= Z.land (u32 x) (Z.lnot 3) < 4294967296.
Proof.
  pose proof (Z.mod_pos_bound x 4294967296 ltac:(done)) as Hx. fold (u32 x) in Hx. pose proof (land_lnot_range (u32 x) 3 ltac:(lia)). lia.
Qed.

Lemma push_args_built argv pgdir sz : forall argc sp ustack, triple (built pgdir sz) (push_args argv pgdir argc sp ustack) (fun _ => built pgdir sz).
Proof.
  induction argv as [|a argv IH]; intros argc sp ustack; cbn [push_args]; [by apply triple_ret|].
  destruct (_ >=? _); [by apply triple_ret|]. eapply triple_bind; [apply triple_lift|]. intros n. cbn beta.
  eapply triple_bind; [apply copyout_built, aligned_u32|]. intros r. cbn beta. destruct (_ <? _); [by apply triple_ret|apply IH].
Qed.

Lemma push_frame_built argv pgdir sz : triple (built pgdir sz) (push_frame argv pgdir sz) (fun _ => built pgdir sz).
Proof.
  unfold push_frame. eapply triple_bind; [apply push_args_built|]. intros [[[argc sp] args]|]; cbn beta iota; [|by apply triple_ret].
  eapply triple_bind; [apply copyout_built; apply Z.mod_pos_bound; done|]. intros r. cbn beta. destruct (_ <? _); by apply triple_ret.
Qed.

(** ** The new address space for the old one *)

(** The registers in the trap frame are in the kernel stack. *)
Lemma regs_touch m a b : page_ok (p_kstack p) -> p_tf p = p_kstack p + 4020 ->
  touches kend (p_kstack p) m (st32 (st32 m (p_tf p + TF_EIP) a) (p_tf p + TF_ESP) b).
Proof. intros Hk ->. eapply touches_trans; apply touches_st32; unfold TF_EIP, TF_ESP, PGSIZE; (done || lia). Qed.

(** With the registers set, the old address space is freed. *)
Lemma replaced k pgdir sz entry sp name k2 s : frame (R ++ others) k0 k -> loose kend data k pgdir (R ++ others) free sz ->
  freevm kend (p_pgdir p) (mkk (st32 (st32 (k_mem k) (p_tf p + TF_EIP) entry) (p_tf p + TF_ESP) sp) (k_use_lock k) (k_freelist k)) = Ok (tt, k2) ->
  x_kmem s = k2 -> x_proc s = set_name name (set_space pgdir sz p) -> ended s.
Proof.
  intros Hf (img & fl & [(tabs & um & f1 & Hu & Hfull & Hpe) Hsz _ _ _]) E Ek Ep.
  destruct start_slot as (tabs0 & um0 & ER & Ha & _ & _ & Htf).
  set (own := pgdir :: tables tabs ++ tables um). set (old := p_pgdir p :: tables tabs0 ++ tables um0).
  assert (R = p_kstack p :: old) as ER' by done.
  assert (p_kstack p :: old ++ own ++ others ++ f1 ≡ₚ R ++ others ++ free) as Hall
    by (rewrite ER', <- Hpe; unfold own, old; cbn; solve_Permutation).
  assert (NoDup (p_kstack p :: old ++ own ++ others ++ f1)) as Hn by (by rewrite Hall). pose proof Hn as [Hks _]%NoDup_cons.
  assert (forall v, v ∈ p_kstack p :: old ++ own ++ others ++ f1 -> page_ok v) as Hpg
    by (intros v Hv; rewrite Hall in Hv; rewrite Forall_forall in start_pages; by apply start_pages).
  pose proof (regs_touch (k_mem k) entry sp (Hpg _ ltac:(left)) Htf) as Ht.
  set (k1 := mkk _ _ _) in E.
  assert (forall v, v ∈ old ++ own ++ others ++ f1 -> same_page (k_mem k) (k_mem k1) v) as Hs1.
  { intros v Hv. apply Ht; [apply Hpg; by right|]. by intros ->. }
  assert (kmem_ok k1 f1) as Hk1 by (eapply kmem_frame; [apply Hu|done|]; intros v Hv; apply Hs1; set_solver +Hv).
  assert (old ++ p_kstack p :: own ++ others ++ f1 ≡ₚ p_kstack p :: old ++ own ++ others ++ f1) as Hperm by solve_Permutation.
  assert (p_pgdir p :: tables tabs0 ++ (tables um0 ++ p_kstack p :: own ++ others) ++ f1 = old ++ p_kstack p :: own ++ others ++ f1) as Eapp
    by (unfold old; cbn; by rewrite <- !app_assoc; cbn; rewrite <- !app_assoc).
  destruct (freevm_spec kend_high k1 (p_pgdir p) tabs0 um0 (p_kstack p :: own ++ others) f1) as (k2' & f2 & E2 & Hk2 & Hpe2 & Hs2).
  { apply uspace_of; [|done|rewrite Eapp, Hperm; done|rewrite Eapp, Hperm; by apply Forall_forall].
    eapply space_at_frame; [exact Ha|apply Forall_forall; intros v Hv; apply Hpg; unfold old; set_solver +Hv|].
    intros v Hv. eapply same_page_trans; [apply Hf; rewrite ER'; unfold old; set_solver +Hv|apply Hs1; unfold old; set_solver +Hv]. }
  rewrite E2 in E. injection E as <-. exists (p_kstack p :: own), f2. rewrite Ek, Ep. split_and!; [done| | | |by eexists _, _, _].
  - rewrite Hpe2, ER', <- Hpe. unfold own, old. cbn. solve_Permutation.
  - exists tabs, um. split_and!; [done| |apply Hsz..| |done].
    + eapply space_at_frame; [by eapply space_at_of|apply Forall_forall; intros v Hv; apply Hpg; unfold own; set_solver +Hv|].
      intros v Hv. eapply same_page_trans; [apply Hs1|apply Hs2]; unfold own; set_solver +Hv.
    + intros q u Hq. apply (proj1 (Hfull q)). by eexists.
  - intros v Hv. eapply same_page_trans; [apply Hf; set_solver +Hv|]. eapply same_page_trans; [apply Hs1|apply Hs2]; set_solver +Hv.
Qed.

Lemma commit_ended path pgdir sz entry sp : triple (built pgdir sz) (commit_image kend path pgdir sz entry sp) (fun _ => ended).
Proof.
  intros s a s' (Ep & Hf & Hlo) E. unfold commit_image in E. apply bind_Ok_inv in E as (last & s1 & E1 & E).
  apply (triple_lift (eq s)) in E1 as <-; [|done]. apply bind_Ok_inv in E as (q & s1 & [= <- <-] & E). rewrite Ep in E.
  apply bind_Ok_inv in E as (name & s1 & E1 & E). apply (triple_lift (eq s)) in E1 as <-; [|done].
  apply bind_Ok_inv in E as (u1 & s1 & [= _ <-] & E). apply bind_Ok_inv in E as (u2 & s1 & [= _ <-] & E).
  apply bind_Ok_inv in E as (u3 & s1 & [= _ <-] & E). apply bind_Ok_inv in E as (u4 & s1 & [= _ <-] & E).
  apply bind_Ok_inv in E as (u5 & s1 & E1 & E). unfold switchuvm in E1. apply bind_Ok_inv in E1 as (q & s2 & [= <- <-] & E1).
  destruct (_ =? 0); [done|]. destruct (_ =? 0); [done|]. injection E1 as _ <-.
  apply bind_Ok_inv in E as ([] & s1 & E1 & [= _ <-]). unfold xkm, zoom in E1. cbn -[freevm] in E1.
  destruct (freevm _ _ _) as [[[] k2]|?| |] eqn:Ef in E1; try done. injection E1 as <-.
  eapply (replaced (x_kmem s) pgdir sz entry sp name k2); [done|done|exact Ef|done|]. cbn. by rewrite Ep.
Qed.

Lemma build_stack_ended path argv pgdir sz entry : triple (built pgdir sz) (build_stack kend path argv pgdir sz entry) (fun _ => ended).
Proof.
  unfold build_stack.
  apply (triple_bind _ _ _ (fun r s => r = 0 /\ (exists sz, built pgdir sz s) \/ (exists q, 0 <= q < npages r /\ u32 (r - 2 * PGSIZE) = 4096 * q) /\ built pgdir r s)).
  - apply triple_xkm. intros s a k (Ep & Hf & Hlo) E. pose proof Hlo as (img & fl & Hi). pose proof (im_size _ _ _ _ _ _ _ _ _ Hi) as Hsz.
    pose proof (npages_top sz Hsz) as Htop. rewrite PGROUNDUP_page in E by lia. fold (npages sz) in E. unfold KERNBASE in *.
    rewrite u32_small in E by (unfold PGSIZE; lia).
    destruct (decide (4096 * npages sz < KERNBASE)) as [Hlt|Hge]; unfold KERNBASE in *.
    + assert (loose kend data (x_kmem s) pgdir (R ++ others) free (4096 * npages sz)) as Hlo' by (exists img, fl; by apply image_round).
      eapply loose_grow in E as [Hfr H2]; [|done|exact Hlo'|unfold PGSIZE; lia]. unfold PGSIZE in H2.
      destruct H2 as [(-> & H2)|(Hk & -> & H2)]; [left|right].
      * split; [done|]. exists (4096 * npages sz). split; [done|]. split; [by eapply frame_trans|done].
      * split; [|split; [done|split; [by eapply frame_trans|done]]]. unfold KERNBASE in Hk.
        exists (npages sz). rewrite Z.max_r by lia. unfold PGSIZE. rewrite u32_small by lia. split; [unfold npages in *; divmod|lia].
    + unfold allocuvm in E. replace (_ >=? KERNBASE) with true in E by (unfold KERNBASE, PGSIZE; lia). injection E as <- <-.
      left. split; [done|]. exists sz. split; [done|]. by split.
  - intros r. destruct (r =? 0) eqn:Er.
    + eapply triple_weaken; [eapply triple_pre; [apply bad_base|]|intros; by apply base_ended].
      intros s [[_ [z Hb]]|[_ Hb]]; rewrite (proj2 (Z.eqb_neq _ _) (built_pgdir _ _ _ Hb)); by eexists.
    + apply (triple_bind _ _ _ (fun _ => built pgdir r)).
      * apply triple_xkm. intros s a k [[? _]|[(q & Hq & Eq) (Ep & Hf & img & fl & Hi)]]; [lia|]. rewrite Eq. intros E.
        destruct (image_guard kend data data_range _ _ _ _ _ _ _ q Hi Hq) as (k' & E' & Hi' & Hfr). rewrite E' in E. injection E as _ <-.
        split; [done|]. split; [by eapply frame_trans|by eexists _, _].
      * intros _. eapply triple_bind; [apply push_frame_built|]. intros [z|]; cbn beta iota; [apply commit_ended|].
        eapply triple_weaken; [eapply triple_pre; [apply bad_base|]|intros; by apply base_ended].
        intros s Hb. rewrite (proj2 (Z.eqb_neq _ _) (built_pgdir _ _ _ Hb)). by eexists.
Qed.

(** From opening the file on. *)
Lemma exec_file_ended path argv ip : triple base (exec_file kend data devsw path argv ip) (fun _ => ended).
Proof.
  assert (triple base (bad kend 0 (Some ip)) (fun _ => ended)) as Hbad by
    (eapply triple_weaken; [exact (bad_base 0 (Some ip))|intros; by apply base_ended]).
  unfold exec_file. apply (triple_bind _ _ _ (fun _ => base)); [by apply triple_xfs|]. intros r.
  destruct (negb _); [done|]. destruct (negb _); [done|].
  apply (triple_bind _ _ _ (fun pgdir s => if pgdir =? 0 then base s else built pgdir 0 s)).
  - apply triple_xkm. intros s a k (Ep & Hf & f & Hk & Hpe) E.
    destruct (image_start kend data kend_high data_aligned data_range (x_kmem s) f (R ++ others) Hk) as (r' & k' & E' & Hfr & Hr);
      [by rewrite Hpe, <- app_assoc..|].
    rewrite E' in E. injection E as <- <-. destruct Hr as [(-> & _ & f' & Hk' & Hpe')|[Hr Hi]].
    + rewrite Z.eqb_refl. split; [done|]. split; [by eapply frame_trans|]. exists f'. split; [done|by rewrite Hpe'].
    + rewrite (proj2 (Z.eqb_neq _ _) Hr). split; [done|]. split; [by eapply frame_trans|]. exists (fun _ => 0), (fun _ => 0).
      destruct (Hi (fun _ => 0) (fun _ => 0)) as [(t & um & f1 & ? & ? & Hp1) ? ? ? ?]. constructor; try done.
      exists t, um, f1. split_and!; try done. by rewrite Hp1.
  - intros pgdir. destruct (pgdir =? 0) eqn:Ez; [done|].
    eapply triple_bind; [apply load_segments_built; apply uint_at_range|]. intros [sz|]; cbn beta iota.
    + apply (triple_bind _ _ _ (fun _ => built pgdir sz)); [by apply triple_xfs|]. intros _.
      apply (triple_bind _ _ _ (fun _ => built pgdir sz)); [by apply triple_xfs|]. intros _. apply build_stack_ended.
    + eapply triple_weaken; [eapply triple_pre; [apply bad_base|]|intros; by apply base_ended]. intros s Hs. by rewrite Ez.
Qed.

Lemma exec_ended path argv : triple base (exec kend data devsw path argv) (fun _ => ended).
Proof.
  unfold exec. apply (triple_bind _ _ _ (fun _ => base)); [by apply triple_xfs|]. intros _.
  apply (triple_bind _ _ _ (fun _ => base)); [by apply triple_xfs|]. intros [ip|].
  - apply (triple_bind _ _ _ (fun _ => base)); [by apply triple_xfs|]. intros _. apply exec_file_ended.
  - apply (triple_bind _ _ _ (fun _ => base)); [by apply triple_xfs|]. intros _.
    apply (triple_bind _ _ _ (fun _ => base)); [|intros _; apply triple_ret; by apply base_ended].
    intros s a s' Hs E. unfold xcons, zoom in E. destruct (cprintf _ _ _) as [[b x]|?| |]; try done. by injection E as _ <-.
Qed.
End ExecPages.
