(* ===== verification/ProcFiles.v ===== *)
(** The file side of a process: the operations of file.c, sysfile.c and exec.c that a process
    calls implement what ProcMem asks of them, and with that every page of memory is
    accounted for (C15). *)

From S2P Require Import Prelude Mem Strings Bio Kalloc Log Crash Block Fs FsInode Pipe Syscall File Sysfile SysRefs SysInv SysProcs.
From S2P Require Import Vm VmSpace VmUser VmKernel VmCopy Proc ProcTable ProcInv ProcLive ProcMem ProcBoot Console Exec ExecPages.
Local Open Scope Z_scope.

(** * The memory of a process *)

(** The kernel address of a byte of the process with the page table [pgdir]. *)
Definition user_address (m : mem) (pgdir a : Z) : Z := P2V (PTE_ADDR (lookup_pte m pgdir a)) + a mod PGSIZE.

Definition user_bytes (m : mem) (pgdir : Z) (n : nat) : bytes := (fun i => mget m (user_address m pgdir (Z.of_nat i))) <$> seq 0 n.

Definition load_user (m : mem) (pgdir sz : Z) : mem := mwrite ∅ 0 (user_bytes m pgdir (Z.to_nat sz)).

(** The stores of a call to user memory [u], in the pages that hold it. *)
Definition store_user (m : mem) (pgdir sz : Z) (u : mem) : mem :=
  foldl (fun m' i => mset m' (user_address m pgdir (Z.of_nat i)) (mget u (Z.of_nat i))) m (seq 0 (Z.to_nat sz)).

Lemma mget_store_list (f g : nat -> Z) n : forall m i, (i < n)%nat ->
  (forall j k, (j < n)%nat -> (k < n)%nat -> f j = f k -> j = k) ->
  mget (foldl (fun m' j => mset m' (f j) (g j)) m (seq 0 n)) (f i) = g i.
Proof.
  induction n as [|n IH]; intros m i Hi Hinj; [lia|]. rewrite seq_S, foldl_app. cbn [foldl Nat.add]. rewrite mget_mset.
  destruct (decide (f i = f n)) as [E|E]; [by apply Hinj in E as ->; [|lia..]|].
  apply IH; [|intros; apply Hinj; lia || done]. destruct (decide (i = n)) as [->|]; [done|lia].
Qed.

(** When different addresses of the process are different bytes, a call finds what it stored. *)
Lemma store_user_get m pgdir sz u i : (i < Z.to_nat sz)%nat ->
  (forall j k, (j < Z.to_nat sz)%nat -> (k < Z.to_nat sz)%nat -> user_address m pgdir (Z.of_nat j) = user_address m pgdir (Z.of_nat k) -> j = k) ->
  mget (store_user m pgdir sz u) (user_address m pgdir (Z.of_nat i)) = mget u (Z.of_nat i).
Proof. exact (mget_store_list (fun j => user_address m pgdir (Z.of_nat j)) (fun j => mget u (Z.of_nat j)) _ m i). Qed.

(** A call that stores nothing leaves memory as it was. *)
Lemma load_store m pgdir sz x : mget (store_user m pgdir sz (load_user m pgdir sz)) x = mget m x.
Proof.
  unfold store_user. assert (forall l m', (forall i, i ∈ l -> (i < Z.to_nat sz)%nat) -> (forall a, mget m' a = mget m a) ->
    mget (foldl (fun m' i => mset m' (user_address m pgdir (Z.of_nat i)) (mget (load_user m pgdir sz) (Z.of_nat i))) m' l) x = mget m x) as Hl.
  { intros l. induction l as [|i l IH]; intros m' Hi Hm; cbn [foldl]; [by apply Hm|].
    apply IH; [intros j Hj; apply Hi; set_solver|]. intros a. rewrite mget_mset. destruct (decide _) as [->|]; [|done].
    specialize (Hi i ltac:(set_solver)). unfold load_user. rewrite mget_mwrite. unfold user_bytes.
    rewrite length_fmap, length_seq, decide_True by lia. rewrite Z.sub_0_r, Nat2Z.id.
    erewrite list_lookup_total_correct by (rewrite list_lookup_fmap, lookup_seq_lt by lia; done). done. }
  apply Hl; [intros i Hi; apply elem_of_seq in Hi; lia|done].
Qed.

Section Files.
  Context {W : Type} `{BlockIO W}.
  Context (kend data : Z).
  Context (devsw_read : Z -> option (nat -> Z -> M (fsys W) (Z * bytes))).
  Context (devsw_write : Z -> option (nat -> bytes -> Z -> M (fsys W) Z)).

(** The registers of the CPU and the console, for [exec]. *)
  Context (cr3 esp0 : Z) (cons : console).
Abbreviation files := (list (option nat) * nat)%type.
Abbreviation kmem_ok := (kmem_ok kend).
Abbreviation page_ok := (page_ok kend).

(** The descriptors and the directory of the process that calls. *)
Definition use_files (x : list (option nat) * nat) : M (ksys W) unit :=
  modify (fun s => switch_to x (f_pid (y_fs s)) (y_user s) (y_killed s) s).

Definition no_files : list (option nat) * nat := (replicate (Z.to_nat NOFILE) None, Z.to_nat NINODE).

Definition root_files : M (ksys W) (list (option nat) * nat) :=
  let! ip := fsdo (namei devsw_read [47; 0]) in
  ret (replicate (Z.to_nat NOFILE) None, default (Z.to_nat NINODE) ip).

(** ** System calls *)

(** The call with a number of syscall.h, [exec] apart. *)
Definition sys_file (num : Z) : M (ksys W) Z :=
  if num =? SYS_pipe then sys_pipe kend
  else if num =? SYS_read then sys_read devsw_read
  else if num =? SYS_fstat then sys_fstat
  else if num =? SYS_chdir then sys_chdir devsw_read
  else if num =? SYS_dup then sys_dup
  else if num =? SYS_open then sys_open kend devsw_read devsw_write
  else if num =? SYS_write then sys_write devsw_write
  else if num =? SYS_mknod then sys_mknod devsw_read devsw_write
  else if num =? SYS_unlink then sys_unlink devsw_read devsw_write
  else if num =? SYS_link then sys_link devsw_read devsw_write
  else if num =? SYS_mkdir then sys_mkdir devsw_read devsw_write
  else if num =? SYS_close then sys_close kend
  else if num =? SYS_chmod then sys_chmod devsw_read
  else undefined.

(** Every page below the size of the process is there. *)
Definition whole (m : mem) (pgdir sz : Z) : bool :=
  forallb (fun q => has PTE_P (lookup_pte m pgdir (4096 * Z.of_nat q))) (seq 0 (Z.to_nat (npages sz))).

(** The caller's part of the state, from the process and back to it.  A call is made by an
    instruction in the memory of the process; a process without its memory, which [sbrk] can
    leave, has no more calls. *)
Definition enter_call (p : proc files) : M (ksys W) unit :=
  let! m := gets (fun s => k_mem (y_kmem s)) in
  if whole m (p_pgdir p) (p_sz p) then
    modify (switch_to (p_files p) (p_pid p) (mkuproc (p_sz p) (ld32 m (p_tf p + TF_ESP)) (load_user m (p_pgdir p) (p_sz p))) (negb (p_killed p =? 0)))
  else undefined.

Definition leave_call (p : proc files) : M (ksys W) files :=
  do! modify (fun s =>
    let k := y_kmem s in
    put_kmem (mkk (store_user (k_mem k) (p_pgdir p) (p_sz p) (u_mem (y_user s))) (k_use_lock k) (k_freelist k)) s) in
  let! s := gets id in
  ret (y_ofile s, f_cwd (y_fs s)).

Definition run_call (call : M (ksys W) Z) (p : proc files) : M (ksys W) (Z * files) :=
  do! enter_call p in
  let! r := call in
  let! x := leave_call p in
  ret (r, x).

(** [exec] for the process [p]; what it prints is not kept. *)
Definition run_exec (path : bytes) (argv : list bytes) (p : proc files) : M (ksys W) (Z * proc files) :=
  do! modify (fun s => switch_to (p_files p) (p_pid p) (y_user s) (negb (p_killed p =? 0)) s) in
  zoom (fun s => mkxsys (y_fs s) (y_kmem s) p cr3 esp0 cons) (fun x s => put_kmem (x_kmem x) (put_fs (x_fs x) s))
    (let! r := exec kend data devsw_read path argv in
     let! q := gets x_proc in
     ret (r, q)).

#[export] Instance files_env : ProcEnv (ksys W) files := {|
  pe_mem := y_kmem;
  pe_set := put_kmem;
  pf_none := no_files;
  pf_init := root_files;
  pf_fork := fun x => do! use_files x in fork_files;
  pf_exit := fun x => do! use_files x in exit_files kend;
  pf_call := fun num p => run_call (sys_file num) p;
  pf_exec := run_exec
|}.

(** * Memory is left alone, or given back *)

Definition quiet {A} (m : M (ksys W) A) : Prop := forall s a s', m s = Ok (a, s') ->
  y_kmem s' = y_kmem s /\ y_pipes s' = y_pipes s.

Lemma quiet_ret {A} (a : A) : quiet (ret a).
Proof. by intros s b s' [= _ <-]. Qed.

Lemma quiet_bind {A B} (m : M (ksys W) A) (k : A -> M (ksys W) B) : quiet m -> (forall a, quiet (k a)) -> quiet (bind m k).
Proof.
  intros Hm Hk s b s' (a & s1 & E1 & E2)%bind_Ok_inv. destruct (Hm _ _ _ E1) as [<- <-]. by apply (Hk a _ _ _ E2).
Qed.

Lemma quiet_fsdo {A} (m : M (fsys W) A) : quiet (fsdo m).
Proof. intros s a s'. unfold fsdo, zoom. destruct (m _) as [[b x]|?| |]; try discriminate. by intros [= _ <-]. Qed.

Lemma quiet_gets {A} (f : ksys W -> A) : quiet (gets f).
Proof. by intros s b s' [= _ <-]. Qed.

Lemma quiet_updf f g : quiet (updf f g).
Proof. by intros s b s' [= _ <-]. Qed.

Lemma quiet_dup ofs : quiet (dup_files ofs).
Proof.
  induction ofs as [|[f|] ofs IH]; cbn [dup_files]; [apply quiet_ret| |].
  - apply quiet_bind; [|intros a; apply quiet_bind; [done|intros r; apply quiet_ret]].
    unfold filedup. apply quiet_bind; [apply quiet_gets|]. intros x. destruct (_ <? 1); [done|]. destruct (negb _); [done|].
    apply quiet_bind; [apply quiet_updf|]. intros ?. apply quiet_ret.
  - apply quiet_bind; [done|intros r; apply quiet_ret].
Qed.

Lemma quiet_fork : quiet fork_files.
Proof.
  unfold fork_files. apply quiet_bind; [apply quiet_gets|]. intros ofs. apply quiet_bind; [apply quiet_dup|]. intros r.
  apply quiet_bind; [apply quiet_gets|]. intros cwd. apply quiet_bind; [apply quiet_fsdo|]. intros d. apply quiet_ret.
Qed.

(** The pages of pipes. *)
Definition pipe_pages (s : ksys W) : list Z := (map_to_list (y_pipes s)).*1.

Definition gives {A} (m : M (ksys W) A) : Prop := forall s a s' free rest, kmem_ok (y_kmem s) free ->
  NoDup (rest ++ pipe_pages s ++ free) -> Forall page_ok (rest ++ pipe_pages s ++ free) -> m s = Ok (a, s') ->
  exists free', kmem_ok (y_kmem s') free' /\ pipe_pages s' ++ free' ≡ₚ pipe_pages s ++ free /\
    forall v, v ∈ rest -> same_page (k_mem (y_kmem s)) (k_mem (y_kmem s')) v.

Lemma gives_quiet {A} (m : M (ksys W) A) : quiet m -> gives m.
Proof.
  intros Hq s a s' free rest Hk _ _ E. destruct (Hq _ _ _ E) as [Ek Ep]. exists free. unfold pipe_pages. rewrite Ek, Ep. done.
Qed.

Lemma gives_bind {A B} (m : M (ksys W) A) (k : A -> M (ksys W) B) : gives m -> (forall a, gives (k a)) -> gives (bind m k).
Proof.
  intros Hm Hk s b s' free rest Hf Hn Hp (a & s1 & E1 & E2)%bind_Ok_inv.
  destruct (Hm _ _ _ _ _ Hf Hn Hp E1) as (free1 & Hf1 & Hpe1 & Hs1).
  destruct (Hk a s1 b s' free1 rest Hf1) as (free2 & Hf2 & Hpe2 & Hs2); [by rewrite Hpe1|by rewrite Hpe1|done|].
  exists free2. split_and!; [done|by rewrite Hpe2|]. intros v Hv. eapply same_page_trans; eauto.
Qed.

Lemma gives_closepipe p w : gives (closepipe kend p w).
Proof.
  intros s a s' free rest Hk Hn Hp E. unfold closepipe in E. apply bind_Ok_inv in E as (ps & s1 & [= <- <-] & E).
  destruct (y_pipes s !! p) as [x|] eqn:Ex; [|done].
  pose proof (map_to_list_delete (y_pipes s) p x Ex) as Hd. apply (fmap_Permutation fst) in Hd. cbn in Hd.
  destruct (pipeclose w x).1.
  - apply bind_Ok_inv in E as (u & s2 & E1 & [= _ <-]). unfold kmdo, zoom in E1.
    destruct (kfree kend p (y_kmem s)) as [[u' k]|?| |] eqn:Ef; try discriminate. injection E1 as _ <-.
    assert (NoDup (p :: rest ++ (map_to_list (delete p (y_pipes s))).*1 ++ free)) as [Hni _]%NoDup_cons.
    { eapply NoDup_Permutation_proper; [|exact Hn]. unfold pipe_pages. rewrite <- Hd. solve_Permutation. }
    assert (page_ok p) as Hpp. { rewrite Forall_forall in Hp. apply Hp. unfold pipe_pages. rewrite <- Hd. set_solver. }
    destruct (kfree_spec kend p _ free Hk Hpp ltac:(set_solver +Hni)) as (k' & Ef' & Hk' & _ & Hm).
    rewrite Ef' in Ef. injection Ef as _ <-. exists (p :: free). cbn. split_and!; [done| |].
    + unfold pipe_pages. cbn. rewrite <- Hd. by rewrite <- Permutation_middle.
    + intros v Hv a0 Ha. apply Hm. rewrite Forall_forall in Hp.
      destruct (pages_apart kend v p (Hp v ltac:(set_solver +Hv)) Hpp); [intros ->; set_solver +Hni Hv|lia|lia].
  - injection E as _ <-. exists free. cbn. split_and!; [done| |done]. unfold pipe_pages. cbn.
    rewrite <- (insert_delete_eq (y_pipes s)), map_to_list_insert by apply lookup_delete_eq. cbn. by rewrite <- Hd.
Qed.

Lemma gives_fileclose f : gives (fileclose kend f).
Proof.
  unfold fileclose. apply gives_bind; [apply gives_quiet, quiet_gets|]. intros x. destruct (_ <? 1); [done|].
  apply gives_bind; [apply gives_quiet, quiet_updf|]. intros _. destruct (_ >? 0); [apply gives_quiet, quiet_ret|].
  apply gives_bind; [apply gives_quiet, quiet_gets|]. intros ff. do 2 (apply gives_bind; [apply gives_quiet, quiet_updf|]; intros _).
  destruct (f_type ff); [apply gives_quiet, quiet_ret|apply gives_closepipe|].
  apply gives_quiet. do 2 (apply quiet_bind; [apply quiet_fsdo|]; intros _). apply quiet_fsdo.
Qed.

Lemma gives_close n : forall fd, gives (close_files kend n fd).
Proof.
  induction n as [|n IH]; intros fd; cbn [close_files]; [apply gives_quiet, quiet_ret|].
  apply gives_bind; [apply gives_quiet, quiet_gets|]. intros ofs. apply gives_bind; [|intros _; apply IH].
  destruct (ofs !!! fd) as [f|]; [|apply gives_quiet, quiet_ret]. apply gives_bind; [apply gives_fileclose|].
  intros _. apply gives_quiet. by intros s b s' [= _ <-].
Qed.

(** ** Pipes change, and are made *)

Lemma gives_gets {A} (f : ksys W -> A) : gives (gets f).
Proof. apply gives_quiet, quiet_gets. Qed.

Lemma gives_ret {A} (a : A) : gives (ret a).
Proof. apply gives_quiet, quiet_ret. Qed.

Lemma gives_fsdo {A} (m : M (fsys W) A) : gives (fsdo m).
Proof. apply gives_quiet, quiet_fsdo. Qed.

Lemma gives_updf f g : gives (updf f g).
Proof. apply gives_quiet, quiet_updf. Qed.

Lemma gives_modify f : (forall s, y_kmem (f s) = y_kmem s) -> (forall s, y_pipes (f s) = y_pipes s) -> gives (modify f).
Proof. intros Hk Hp. apply gives_quiet. intros s a s' [= _ <-]. by rewrite Hk, Hp. Qed.

Lemma gives_copyto a l : gives (copyto a l).
Proof. by apply gives_modify. Qed.

Lemma gives_when b m : gives m -> gives (when b m).
Proof. destruct b; [done|]. intros _. apply gives_ret. Qed.

Lemma gives_orfail {A} (m : M (ksys W) (option A)) k : gives m -> (forall a, gives (k a)) -> gives (orfail m k).
Proof. intros Hm Hk. apply gives_bind; [done|]. intros [a|]; [apply Hk|apply gives_ret]. Qed.

(** A pipe keeps its page. *)
Lemma gives_put_pipe q x {A} (k : M (ksys W) A) : gives k -> forall s a s' free rest, y_pipes s !! q = Some x -> forall y,
  kmem_ok (y_kmem s) free -> NoDup (rest ++ pipe_pages s ++ free) -> Forall page_ok (rest ++ pipe_pages s ++ free) ->
  (do! modify (fun s => put_pipes (<[q := y]> (y_pipes s)) s) in k) s = Ok (a, s') ->
  exists free', kmem_ok (y_kmem s') free' /\ pipe_pages s' ++ free' ≡ₚ pipe_pages s ++ free /\
    forall v, v ∈ rest -> same_page (k_mem (y_kmem s)) (k_mem (y_kmem s')) v.
Proof.
  intros Hk s a s' free rest Hq y Hf Hn Hp (u & s1 & [= _ <-] & E)%bind_Ok_inv.
  assert (pipe_pages (put_pipes (<[q := y]> (y_pipes s)) s) ≡ₚ pipe_pages s) as Hpe.
  { unfold pipe_pages. cbn. rewrite <- (insert_delete_eq (y_pipes s)), map_to_list_insert by apply lookup_delete_eq. cbn.
    pose proof (map_to_list_delete (y_pipes s) q x Hq) as Hd. apply (fmap_Permutation fst) in Hd. exact Hd. }
  destruct (Hk (put_pipes (<[q := y]> (y_pipes s)) s) a s' free rest Hf ltac:(by rewrite Hpe) ltac:(by rewrite Hpe) E) as (free' & H1 & H2 & H3).
  exists free'. split_and!; [done|by rewrite H2, Hpe|done].
Qed.

Lemma gives_sleep {A} : gives (sleep : M (ksys W) A).
Proof. done. Qed.

Lemma gives_fileread f addr n : gives (fileread devsw_read f addr n).
Proof.
  unfold fileread. apply gives_bind; [apply gives_gets|]. intros x. destruct (negb _); [apply gives_ret|]. destruct (f_type x); [done| |].
  - intros s a s' free rest Hf Hn Hp E. apply bind_Ok_inv in E as (ps & s1 & [= <- <-] & E).
    apply bind_Ok_inv in E as (kl & s1 & [= <- <-] & E). destruct (y_pipes s !! f_pipe x) as [pp|] eqn:Eq; [|done].
    eapply (gives_put_pipe (f_pipe x) pp); [|exact Eq|exact Hf|exact Hn|exact Hp|exact E].
    apply gives_bind; [apply gives_copyto|]. intros _. destruct (piperead _ _ _).1.2; [apply gives_ret|apply gives_sleep].
  - apply gives_bind; [apply gives_fsdo|]. intros _. apply gives_bind; [apply gives_fsdo|]. intros r.
    apply gives_bind; [apply gives_copyto|]. intros _. apply gives_bind; [apply gives_when, gives_updf|]. intros _.
    apply gives_bind; [apply gives_fsdo|]. intros _. apply gives_ret.
Qed.

Lemma gives_filewrite_loop fuel f addr : forall i n, gives (filewrite_loop devsw_write fuel f addr i n).
Proof.
  induction fuel as [|fuel IH]; intros i n; cbn [filewrite_loop]; (destruct (_ <? _); [|apply gives_ret]); [done|].
  apply gives_bind; [apply gives_fsdo|]. intros _. apply gives_bind; [apply gives_gets|]. intros x.
  apply gives_bind; [apply gives_fsdo|]. intros _. apply gives_bind; [apply gives_gets|]. intros y.
  apply gives_bind; [apply gives_gets|]. intros src. apply gives_bind; [apply gives_fsdo|]. intros r.
  apply gives_bind; [apply gives_when, gives_updf|]. intros _. do 2 (apply gives_bind; [apply gives_fsdo|]; intros _).
  destruct (_ <? 0); [apply gives_ret|]. destruct (negb _); [done|apply IH].
Qed.

Lemma gives_filewrite f addr n : gives (filewrite devsw_write f addr n).
Proof.
  unfold filewrite. apply gives_bind; [apply gives_gets|]. intros x. destruct (negb _); [apply gives_ret|]. destruct (f_type x); [done| |].
  - intros s a s' free rest Hf Hn Hp E. apply bind_Ok_inv in E as (ps & s1 & [= <- <-] & E).
    apply bind_Ok_inv in E as (kl & s1 & [= <- <-] & E). apply bind_Ok_inv in E as (src & s1 & [= <- <-] & E).
    destruct (y_pipes s !! f_pipe x) as [pp|] eqn:Eq; [|done].
    eapply (gives_put_pipe (f_pipe x) pp); [|exact Eq|exact Hf|exact Hn|exact Hp|exact E].
    destruct (pipewrite _ _ _).1; [apply gives_ret|apply gives_sleep].
  - apply gives_bind; [apply gives_filewrite_loop|]. intros i. apply gives_ret.
Qed.

Lemma gives_filealloc : gives filealloc.
Proof.
  apply gives_bind; [apply gives_gets|]. intros ft. destruct (list_find _ _) as [[k ?]|]; [|apply gives_ret].
  apply gives_bind; [apply gives_updf|]. intros _. apply gives_ret.
Qed.

Lemma gives_pipealloc_bad f0 f1 : gives (pipealloc_bad kend f0 f1).
Proof.
  apply gives_bind; [destruct f0; [apply gives_fileclose|apply gives_ret]|]. intros _.
  apply gives_bind; [destruct f1; [apply gives_fileclose|apply gives_ret]|]. intros _. apply gives_ret.
Qed.

(** The page of a new pipe comes from the free list. *)
Lemma gives_pipealloc : gives (pipealloc kend).
Proof.
  unfold pipealloc. apply gives_bind; [apply gives_filealloc|]. intros [a|]; [|apply gives_pipealloc_bad].
  apply gives_bind; [apply gives_filealloc|]. intros [b|]; [|apply gives_pipealloc_bad].
  intros s r s' free rest Hf Hn Hp E. apply bind_Ok_inv in E as (v & s1 & E1 & E).
  unfold kmdo, zoom in E1. destruct free as [|v' l].
  - rewrite (kalloc_spec kend _ _ Hf) in E1. injection E1 as <- <-. rewrite Z.eqb_refl in E.
    replace (put_kmem (y_kmem s) s) with s in E by by destruct s. by eapply gives_pipealloc_bad.
  - destruct (kalloc_spec kend _ _ Hf) as (k1 & Ek & Hk1 & Hz & Hvl & Hv & Hm & _). rewrite Ek in E1. injection E1 as <- <-.
    replace (v' =? 0) with false in E by (symmetry; by apply Z.eqb_neq).
    apply bind_Ok_inv in E as (k & s2 & [= <- <-] & E). apply bind_Ok_inv in E as (u1 & s2 & [= _ <-] & E).
    apply bind_Ok_inv in E as (u2 & s2 & [= _ <-] & E). apply bind_Ok_inv in E as (u3 & s2 & [= _ <-] & E). injection E as _ <-.
    assert (y_pipes s !! v' = None) as Hnew.
    { destruct (y_pipes s !! v') as [x|] eqn:Ex; [|done]. exfalso. apply NoDup_app in Hn as (_ & _ & Hn). apply NoDup_app in Hn as (_ & Hn & _).
      apply (Hn v'); [|left]. apply elem_of_map_to_list in Ex. apply list_elem_of_fmap. by exists (v', x). }
    exists l. cbn. split_and!; [done| |by intros v _; rewrite Hm].
    unfold pipe_pages. cbn. rewrite map_to_list_insert by done. cbn. by rewrite Permutation_middle.
Qed.

Lemma gives_fdalloc f : gives (fdalloc f).
Proof.
  apply gives_bind; [apply gives_gets|]. intros ofs. destruct (list_find _ _) as [[k ?]|]; [|apply gives_ret].
  apply gives_bind; [by apply gives_modify|]. intros _. apply gives_ret.
Qed.

Lemma gives_clear fd : gives (clear_fd fd).
Proof. by apply gives_modify. Qed.

Lemma gives_argfd n : gives (argfd n).
Proof.
  apply gives_bind; [apply gives_gets|]. intros [fd|]; [|apply gives_ret]. destruct (_ || _); [apply gives_ret|].
  apply gives_bind; [apply gives_gets|]. intros ofs. destruct (ofs !!! _); apply gives_ret.
Qed.

Lemma gives_filedup f : gives (filedup f).
Proof.
  apply gives_bind; [apply gives_gets|]. intros x. destruct (_ <? 1); [done|]. destruct (negb _); [done|].
  apply gives_bind; [apply gives_updf|]. intros _. apply gives_ret.
Qed.

Lemma gives_filestat f st : gives (filestat f st).
Proof.
  apply gives_bind; [apply gives_gets|]. intros x. destruct (f_type x); try apply gives_ret.
  apply gives_bind; [apply gives_fsdo|]. intros _. apply gives_bind; [apply gives_fsdo|]. intros r.
  apply gives_bind; [by apply gives_modify|]. intros _. apply gives_bind; [apply gives_fsdo|]. intros _. apply gives_ret.
Qed.

Lemma gives_pipe_fail rf wf : gives (pipe_fail kend rf wf).
Proof. do 2 (apply gives_bind; [apply gives_fileclose|]; intros _). apply gives_ret. Qed.

Lemma gives_sys_pipe : gives (sys_pipe kend).
Proof.
  apply gives_orfail; [apply gives_gets|]. intros fd. apply gives_orfail; [apply gives_pipealloc|]. intros fs.
  apply gives_bind; [apply gives_fdalloc|]. intros [fd0|]; [|apply gives_pipe_fail].
  apply gives_bind; [apply gives_fdalloc|]. intros [fd1|].
  - do 2 (apply gives_bind; [apply gives_copyto|]; intros _). apply gives_ret.
  - apply gives_bind; [apply gives_clear|]. intros _. apply gives_pipe_fail.
Qed.

Lemma gives_sys_open : gives (sys_open kend devsw_read devsw_write).
Proof.
  assert (forall ip, gives (open_fail ip)) as Hfail.
  { intros ip. do 2 (apply gives_bind; [apply gives_fsdo|]; intros _). apply gives_ret. }
  do 2 (apply gives_orfail; [apply gives_gets|]; intros ?). apply gives_bind; [apply gives_fsdo|]. intros _.
  apply gives_bind; [apply gives_fsdo|]. intros [ip|]; [|apply gives_bind; [apply gives_fsdo|]; intros _; apply gives_ret].
  apply gives_bind; [apply gives_filealloc|]. intros [f|]; [|apply Hfail].
  apply gives_bind; [apply gives_fdalloc|]. intros [fd|]; [|apply gives_bind; [apply gives_fileclose|intros _; apply Hfail]].
  do 2 (apply gives_bind; [apply gives_fsdo|]; intros _). apply gives_bind; [apply gives_updf|]. intros _. apply gives_ret.
Qed.

(** Every call of sysfile.c. *)
Lemma gives_sys_file num : gives (sys_file num).
Proof.
  unfold sys_file. repeat match goal with |- gives (if ?b then _ else _) => destruct b end; [apply gives_sys_pipe| | | | |apply gives_sys_open|..]; try done.
  - apply gives_orfail; [apply gives_argfd|]. intros a. do 2 (apply gives_orfail; [apply gives_gets|]; intros ?). apply gives_fileread.
  - apply gives_orfail; [apply gives_argfd|]. intros a. apply gives_orfail; [apply gives_gets|]. intros st. apply gives_filestat.
  - apply gives_bind; [apply gives_fsdo|]. intros _. apply gives_bind; [apply gives_gets|].
    intros [path|]; [apply gives_fsdo|apply gives_bind; [apply gives_fsdo|]; intros _; apply gives_ret].
  - apply gives_orfail; [apply gives_argfd|]. intros a. apply gives_orfail; [apply gives_fdalloc|]. intros fd.
    apply gives_bind; [apply gives_filedup|]. intros _. apply gives_ret.
  - apply gives_orfail; [apply gives_argfd|]. intros a. do 2 (apply gives_orfail; [apply gives_gets|]; intros ?). apply gives_filewrite.
  - apply gives_bind; [apply gives_fsdo|]. intros _. do 3 (apply gives_bind; [apply gives_gets|]; intros [?|]);
      first [apply gives_fsdo|apply gives_bind; [apply gives_fsdo|]; intros _; apply gives_ret].
  - apply gives_orfail; [apply gives_gets|]. intros path. apply gives_fsdo.
  - do 2 (apply gives_orfail; [apply gives_gets|]; intros ?). apply gives_fsdo.
  - apply gives_bind; [apply gives_fsdo|]. intros _. apply gives_bind; [apply gives_gets|].
    intros [path|]; [apply gives_fsdo|apply gives_bind; [apply gives_fsdo|]; intros _; apply gives_ret].
  - apply gives_orfail; [apply gives_argfd|]. intros a. apply gives_bind; [apply gives_clear|]. intros _.
    apply gives_bind; [apply gives_fileclose|]. intros _. apply gives_ret.
  - do 2 (apply gives_orfail; [apply gives_gets|]; intros ?). apply gives_orfail; [apply gives_fsdo|]. intros ip. apply gives_fsdo.
Qed.
(** ** The memory of the caller *)

Lemma whole_pages m pgdir tabs um sz : space_at m pgdir tabs um -> 0 <= sz < KERNBASE -> whole m pgdir sz = true ->
  forall q, 0 <= q < npages sz -> is_Some (um !! q).
Proof.
  intros Ha Hsz Hw q Hq. unfold whole in Hw. rewrite forallb_forall in Hw. specialize (Hw (Z.to_nat q)).
  rewrite <- list_elem_of_In, elem_of_seq, Z2Nat.id in Hw by lia. specialize (Hw ltac:(lia)).
  pose proof (us_map _ _ _ (sa_user _ _ _ _ Ha) q) as Hm. destruct (um !! q) as [u|]; [by eexists|]. exfalso.
  rewrite Hm in Hw; [done|]. unfold npages, KERNBASE in *. divmod.
Qed.

(** The stores of a call go to pages of user memory. *)
Lemma store_user_pages m pgdir tabs um sz u v : space_at m pgdir tabs um -> 0 <= sz < KERNBASE ->
  (forall q, 0 <= q < npages sz -> is_Some (um !! q)) -> Forall page_ok (tables um) -> page_ok v -> v ∉ tables um ->
  same_page m (store_user m pgdir sz u) v.
Proof.
  intros Ha Hsz Hfull Hp Hv Hnin. unfold store_user.
  assert (forall l m', (forall i, i ∈ l -> Z.of_nat i < sz) -> same_page m m' v ->
    same_page m (foldl (fun m' i => mset m' (user_address m pgdir (Z.of_nat i)) (mget u (Z.of_nat i))) m' l) v) as Hl.
  { intros l. induction l as [|i l IH]; intros m' Hi Hs; cbn [foldl]; [done|]. apply IH; [intros j Hj; apply Hi; set_solver +Hj|].
    eapply same_page_trans; [exact Hs|]. specialize (Hi i ltac:(set_solver +)). unfold KERNBASE in Hsz.
    destruct (Hfull (Z.of_nat i / 4096)) as [w Hw]; [unfold npages; divmod|].
    pose proof (us_map _ _ _ (sa_user _ _ _ _ Ha) (Z.of_nat i / 4096) ltac:(divmod)) as Hm. rewrite Hw in Hm. destruct Hm as (f & Hf & _ & Hlk).
    apply tables_lookup in Hw. rewrite Forall_forall in Hp. unfold user_address. rewrite lookup_page, Hlk by lia.
    destruct (entry_read kend w f (Hp w Hw) Hf) as (_ & -> & _).
    apply (touches_mwrite kend w m' (w + Z.of_nat i mod PGSIZE) [mget u (Z.of_nat i)]);
      [by apply Hp|unfold PGSIZE; divmod|cbn; unfold PGSIZE; divmod|done|by intros ->]. }
  apply Hl; [|done]. intros i Hi%elem_of_seq. lia.
Qed.

Lemma call_mem call p e r e' free rest R : gives call -> kmem_ok (y_kmem e) free -> full_slot (k_mem (y_kmem e)) p R ->
  NoDup (R ++ rest ++ pipe_pages e ++ free) -> Forall page_ok (R ++ rest ++ pipe_pages e ++ free) ->
  run_call call p e = Ok (r, e') ->
  exists free', kmem_ok (y_kmem e') free' /\ pipe_pages e' ++ free' ≡ₚ pipe_pages e ++ free /\
    full_slot (k_mem (y_kmem e')) p R /\ forall v, v ∈ rest -> same_page (k_mem (y_kmem e)) (k_mem (y_kmem e')) v.
Proof.
  intros Hg Hk (tabs & um & -> & Ha & Hsz & Hdom & Htf) Hn Hp E. set (R := p_kstack p :: _) in *.
  apply bind_Ok_inv in E as (u0 & e1 & E1 & E). unfold enter_call in E1. apply bind_Ok_inv in E1 as (m & s0 & [= <- <-] & E1).
  destruct (whole _ _ _) eqn:Ew; [|done]. injection E1 as _ <-. pose proof (whole_pages _ _ _ _ _ Ha Hsz Ew) as Hfull.
  apply bind_Ok_inv in E as (r0 & e2 & E1 & E).
  match type of E1 with call ?x = _ => destruct (Hg x _ _ free (R ++ rest) Hk ltac:(by rewrite <- app_assoc) ltac:(by rewrite <- app_assoc) E1) as (f2 & Hk2 & Hpe2 & Hs2) end.
  change (pipe_pages _ ++ free) with (pipe_pages e ++ free) in Hpe2. cbn [y_kmem switch_to] in Hs2.
  apply bind_Ok_inv in E as (x & e3 & E2 & [= _ <-]). apply bind_Ok_inv in E2 as (u1 & e4 & [= _ <-] & E2). injection E2 as _ <-.
  assert (R ++ rest ++ pipe_pages e2 ++ f2 ≡ₚ R ++ rest ++ pipe_pages e ++ free) as Hpe by by rewrite Hpe2.
  rewrite <- Hpe in Hn, Hp. rewrite Forall_forall in Hp. apply NoDup_app in Hn as (HnR & Hno & _).
  assert (space_at (k_mem (y_kmem e2)) (p_pgdir p) tabs um) as Ha2.
  { eapply space_at_frame; [exact Ha|apply Forall_forall; intros v Hv; apply Hp; unfold R; set_solver +Hv|].
    intros v Hv. apply Hs2. unfold R. set_solver +Hv. }
  assert (forall v, page_ok v -> v ∉ tables um -> same_page (k_mem (y_kmem e2)) (store_user (k_mem (y_kmem e2)) (p_pgdir p) (p_sz p) (u_mem (y_user e2))) v) as Hst.
  { intros v Hv Hnv. eapply store_user_pages; [exact Ha2|done|done|apply Forall_forall; intros u Hu; apply Hp; unfold R; set_solver +Hu|done|done]. }
  assert (forall v, v ∈ rest ++ pipe_pages e2 ++ f2 -> page_ok v /\ v ∉ tables um) as Hout.
  { intros v Hv. split; [apply Hp; set_solver +Hv|]. intros Hum. apply (Hno v); [unfold R; set_solver +Hum|done]. }
  exists f2. cbn. split_and!; [|done| |].
  - eapply kmem_frame; [exact Hk2|done|]. intros v Hv. apply Hst; apply Hout; set_solver +Hv.
  - exists tabs, um. split_and!; [done| |apply Hsz..|done|done]. eapply space_at_frame; [exact Ha2|apply Forall_forall; intros v Hv; apply Hp; unfold R; set_solver +Hv|].
    intros v Hv. apply Hst; [apply Hp; unfold R; set_solver +Hv|]. unfold R in HnR. apply NoDup_cons in HnR as [_ HnR].
    rewrite app_comm_cons in HnR. apply NoDup_app in HnR as (_ & Hd & _). by apply Hd.
  - intros v Hv. eapply same_page_trans; [apply Hs2; set_solver +Hv|]. apply Hst; apply Hout; set_solver +Hv.
Qed.

(** ** exec *)

  Hypothesis kend_high : KERNBASE < kend.
  Hypothesis data_aligned : data mod 4096 = 0.
  Hypothesis data_range : KERNLINK < data < KERNBASE + PHYSTOP.
  Hypothesis fits : devsw_fits devsw_read.

Lemma exec_mem path argv p e r q e' free rest R : kmem_ok (y_kmem e) free -> full_slot (k_mem (y_kmem e)) p R ->
  NoDup (R ++ rest ++ pipe_pages e ++ free) -> Forall page_ok (R ++ rest ++ pipe_pages e ++ free) ->
  run_exec path argv p e = Ok ((r, q), e') ->
  exists R' free', kmem_ok (y_kmem e') free' /\ R' ++ pipe_pages e' ++ free' ≡ₚ R ++ pipe_pages e ++ free /\
    full_slot (k_mem (y_kmem e')) (set_name (p_name q) (set_space (p_pgdir q) (p_sz q) p)) R' /\
    forall v, v ∈ rest -> same_page (k_mem (y_kmem e)) (k_mem (y_kmem e')) v.
Proof.
  intros Hk Hs Hn Hp E. apply bind_Ok_inv in E as (u & e1 & [= _ <-] & E). unfold zoom in E. cbn [y_fs y_kmem switch_to] in E.
  set (x0 := mkxsys _ _ _ _ _ _) in E. destruct (bind _ _ x0) as [[z x]|?| |] eqn:Ex; try done. injection E as -> <-.
  apply bind_Ok_inv in Ex as (r0 & x1 & Ex & E). injection E as _ <- <-.
  assert (R ++ (rest ++ pipe_pages e) ++ free = R ++ rest ++ pipe_pages e ++ free) as Eapp by by rewrite <- app_assoc.
  eapply (exec_ended kend data devsw_read kend_high data_aligned data_range fits p (y_kmem e) R (rest ++ pipe_pages e) free Hs) in Ex
    as (R' & f' & Hk' & Hpe & Hs' & Hf & name & pg & sz & Eq); [|by rewrite Eapp..|].
  - exists R', f'. cbn. split_and!; [done| | |intros v Hv; apply Hf; set_solver +Hv].
    + change (pipe_pages (put_kmem _ _)) with (pipe_pages e). trans (pipe_pages e ++ R' ++ f'); [solve_Permutation|]. rewrite Hpe. solve_Permutation.
    + rewrite Eq in *. by destruct p.
  - split; [done|]. split; [by intros v _ a _|by exists free].
Qed.

Lemma files_env_laws : ProcEnvLaws kend (ksys W) files.
Proof.
  assert (forall x, quiet (use_files x)) as Hu by (by intros x s b s' [= _ <-]).
  refine {| pe_held := pipe_pages |}; cbn; [done|done| | | | |].
  - intros e x e' E.
    destruct (quiet_bind _ _ (quiet_fsdo (namei devsw_read [47; 0])) (fun ip => quiet_ret _) e x e' E) as [-> Ep]. split; [done|]. unfold pipe_pages. by rewrite Ep.
  - intros x e x' e' E. destruct (quiet_bind _ _ (Hu x) (fun _ => quiet_fork) e x' e' E) as [-> Ep]. split; [done|]. unfold pipe_pages. by rewrite Ep.
  - intros x e e' free rest Hk Hn Hp E.
    refine (gives_bind (use_files x) (fun _ => exit_files kend) _ _ e tt e' free rest Hk Hn Hp E); [by apply gives_quiet|].
    intros _. unfold exit_files. apply gives_bind; [apply gives_gets|]. intros ofs.
    apply gives_bind; [apply gives_close|]. intros _. apply gives_bind; [apply gives_fsdo|]. intros _.
    apply gives_bind; [apply gives_gets|]. intros cwd. apply gives_bind; [apply gives_fsdo|]. intros _. apply gives_fsdo.
  - intros num p e r e' free rest R. apply call_mem, gives_sys_file.
  - intros path argv p e r q e' free rest R. apply exec_mem.
Defined.

(** C15. No page is lost or shared, whatever processes do.  From boot with the free
    pages [free], at least 2052, and no other pages than those of pipes, through [userinit] and any
    interleaving, on any number of CPUs, of the steps of ProcInv: the parts of fork and
    of exit, wait, kill, sleep and wakeup, sbrk, preemption, stores of programs to their
    memory and the trap frames of their system calls, every call of sysfile.c, and exec
    of any file with any arguments, failures for lack of memory at any point included.
    The pages of the processes, of the pipes and of the free list are together exactly
    the pages of the start, each in one place, and the free list is intact.  An entry
    that is not in use owns none, a child that fork is making owns nothing, its kernel
    stack, or all of a process; a process owns exactly its kernel stack, its page
    directory and tables, and the pages that its page table maps for the user, all of
    them below its size.  A call of sysfile.c and exec are one step each; a read of a
    device is taken to store at most the bytes it was asked for. *)
Theorem pages_accounted trapret forkret initcode (s0 s1 s : pstate (ksys W) files) w free :
  fresh_table s0 -> kmem_ok (y_kmem (ps_env s0)) free -> NoDup (pipe_pages (ps_env s0) ++ free) ->
  Forall page_ok (pipe_pages (ps_env s0) ++ free) -> (2052 <= length free)%nat ->
  userinit kend data trapret forkret initcode s0 = Ok (tt, s1) ->
  psteps kend data trapret forkret (s1, replicate (length (ps_proc s1)) AtUser) (s, w) ->
  exists owners free', length owners = length (ps_proc s) /\ kmem_ok (y_kmem (ps_env s)) free' /\
    concat owners ++ pipe_pages (ps_env s) ++ free' ≡ₚ pipe_pages (ps_env s0) ++ free /\
    forall i p R, ps_proc s !! i = Some p -> owners !! i = Some R ->
      slot_ok (k_mem (y_kmem (ps_env s))) p (w !! i) R /\
      (p_state p = UNUSED -> R = []) /\
      (settled p -> p_kstack p ∈ R /\ p_pgdir p ∈ R /\ forall q, 0 <= q < 524288 ->
         let e := lookup_pte (k_mem (y_kmem (ps_env s))) (p_pgdir p) (4096 * q) in
         has PTE_P e = true -> 4096 * q < p_sz p /\ P2V (PTE_ADDR e) ∈ R).
Proof.
  intros Hf Hk Hn Hp Hl Hi Hr.
  destruct (account (E := ksys W) (X := files) (ProcEnv0 := files_env) (ProcEnvLaws0 := files_env_laws)
    kend data trapret forkret kend_high data_aligned data_range initcode s0 s1 s w free Hf Hk Hn Hp Hl Hi Hr)
    as (owners & free' & Hlen & Hk' & Hpe & Hown).
  exists owners, free'. split_and!; [done|done|done|]. intros i p R Hpi HR. destruct (Hown i p R Hpi HR) as [Hs Hm].
  split_and!; [done|intros Hu; unfold slot_ok in Hs; by rewrite Hu in Hs|].
  intros Hse. pose proof Hse as [Hu He]. pose proof Hs as (tabs & um & ER & _)%slot_full; [|done|done].
  split_and!; [set_solver +ER|set_solver +ER|by apply Hm].
Qed.
End Files.

(** * A concrete start: the state of SysProcs with an idle file system, and free memory. *)

Definition start_env (k : kstate) : ksys lstate := put_kmem k (sys_start 0).
Definition start_console : console := mkcons [] 0 0 0 [] 0 None.
Abbreviation start_files := (files_env (W := lstate) demo_kend (demo_page (-2)) no_read no_write 0 0 start_console).

Lemma no_read_fits : devsw_fits no_read.
Proof. done. Qed.

(** The root directory is found in the idle file system. *)
Lemma start_rootdir : exists ip s', namei no_read [47; 0] fs_idle = Ok (ip, s').
Proof. eexists _, _. vm_compute. reflexivity. Qed.

Lemma pages_accounted_witness : exists k free s1 s, kmem_ok demo_kend k free /\
  userinit (ProcEnv0 := start_files) demo_kend (demo_page (-2)) 1 2 [] (start_table no_files (start_env k)) = Ok (tt, s1) /\
  ps_cpu s = [Some 0%nat] /\ psteps (ProcEnv0 := start_files) demo_kend (demo_page (-2)) 1 2 (s1, [AtUser; AtUser]) (s, [AtUser; AtUser]) /\
  exists owners free', length owners = 2%nat /\ kmem_ok demo_kend (y_kmem (ps_env s)) free' /\
    concat owners ++ pipe_pages (ps_env s) ++ free' ≡ₚ free.
Proof.
  destruct demo_memory as (k & free & Hk & Hlen).
  pose (laws := files_env_laws (W := lstate) demo_kend (demo_page (-2)) no_read no_write 0 0 start_console demo_high eq_refl ltac:(done) no_read_fits).
  destruct (start_userinit (ProcEnv0 := start_files) (ProcEnvLaws0 := laws) no_files (start_env k)) with (free := free) as (q & e' & E & Hq & _); [done| |exact Hk|done|].
  { intros k'. destruct start_rootdir as (ip & s' & Er). eexists _, _. cbn -[namei]. unfold root_files. unfold bind, fsdo, zoom.
    cbn [y_fs start_env put_kmem sys_start]. rewrite Er. reflexivity. }
  set (s1 := mkps [q; start_entry no_files] 2 (Some 0%nat) [None] [0%nat] e') in *.
  set (s := mkps [set_state RUNNING q; start_entry no_files] 2 (Some 0%nat) [Some 0%nat] [1%nat] e').
  assert (psteps (ProcEnv0 := start_files) demo_kend (demo_page (-2)) 1 2 (s1, [AtUser; AtUser]) (s, [AtUser; AtUser])) as Hst.
  { apply rtc_once. exists (LSched 0). apply step_sched; [done|]. unfold scheduler_round, bind, gets, s1. cbn. by rewrite decide_True by done. }
  exists k, free, s1, s. split_and!; [done|done|done|done|].
  destruct (pages_accounted (W := lstate) demo_kend (demo_page (-2)) no_read no_write 0 0 start_console demo_high eq_refl ltac:(done) no_read_fits
    1 2 [] (start_table no_files (start_env k)) s1 s [AtUser; AtUser] free (start_fresh _ _) Hk (km_nodup _ _ _ Hk) (km_pages _ _ _ Hk) Hlen E Hst)
    as (owners & free' & Hl & Hk' & Hpe & _).
  exists owners, free'. by split_and!.
Defined.
