(* ===== verification/Trap.v ===== *)
(** Traps and system calls (trap.c, the dispatch of syscall.c, sysproc.c), over the process
    table: what the kernel does from the moment a CPU enters [trap] until it leaves it, gives
    the CPU away or ends the process.  TrapSafe has the theorems. *)

From S2P Require Import Prelude Mem Strings Bio Kalloc Syscall Vm VmSpace VmUser Proc.
Local Open Scope Z_scope.

(** * traps.h *)

Definition T_SYSCALL : Z := 64.
Definition T_IRQ0 : Z := 32.
Definition IRQ_TIMER : Z := 0.
Definition IRQ_KBD : Z := 1.
Definition IRQ_COM1 : Z := 4.
Definition IRQ_IDE : Z := 14.
Definition IRQ_SPURIOUS : Z := 31.

(** x86.h *)
Definition TF_TRAPNO : Z := 48.

(** Where a process is: in user mode; between two parts of a file system call, or asleep in
    one; asleep in [wait]; in [sys_sleep] about to sleep, or asleep there; in the [yield] of a
    trap that came from user mode, or from a file system call. *)
Inductive where_ :=
| User
| InCall (num : Z)
| CallSleep (num : Z)
| WaitSleep
| TickEnter (n ticks0 : Z)
| TickSleep (n ticks0 : Z)
| Preempted (num : option Z).
#[export] Instance where_eq : EqDecision where_.
Proof. solve_decision. Defined.

(** A part of a file system call: it ends with a result, goes to sleep on an address, or goes
    on with interrupts enabled. *)
Inductive part := PartDone (r : Z) | PartSleep (a : Z) | PartMore.

(** A system call that returns, that does not yet, or that ended the process. *)
Inductive callres := Done (r : Z) | Stop (w : where_) | Ended.

(** A trap that returns to what it interrupted, that gave the CPU away in [yield], that is to
    go on elsewhere, or that ended the process. *)
Inductive tres := Back | Yielded | Suspended (w : where_) | Gone.

(** The file system calls, the first part or a later one, and the interrupt handlers of the
    devices. *)
Class Handlers (E X : Type) := {
  file_part : Z -> bool -> nat -> M (pstate E X) part;
  device : Z -> M (pstate E X) unit
}.

(** [tickslock] is held from the test in [sys_sleep] until the process sleeps. *)
Record tstate (E X : Type) := mkts { tr_ps : pstate E X; tr_ticks : Z; tr_lock : bool }.
Arguments mkts {E X}.
Arguments tr_ps {E X}.
Arguments tr_ticks {E X}.
Arguments tr_lock {E X}.

(** The address of [ticks], on which [sys_sleep] sleeps. *)
Definition TICKS : Z := 0.

Section Trap.
  Context (kend data trapret forkret : Z).
  Context {E X : Type} `{!ProcEnv E X} `{!Handlers E X}.
Abbreviation st := (pstate E X).
Abbreviation ts := (tstate E X).

Definition put_ps (p : st) (s : ts) : ts := mkts p (tr_ticks s) (tr_lock s).
Definition put_ticks (v : Z) (s : ts) : ts := mkts (tr_ps s) v (tr_lock s).
Definition put_lock (v : bool) (s : ts) : ts := mkts (tr_ps s) (tr_ticks s) v.
Definition ps {A} : M st A -> M ts A := zoom tr_ps put_ps.

Definition acquire_ticks : M ts unit := let! l := gets tr_lock in if l then sleep else modify (put_lock true).
Definition release_ticks : M ts unit := modify (put_lock false).

(** * Arguments of system calls *)

(** A byte of the memory of a process, through its page table. *)
Definition ubyte (m : mem) (pgdir a : Z) : outcome Z :=
  let e := lookup_pte m pgdir a in
  if has PTE_P e then Ok (mget m (P2V (PTE_ADDR e) + a mod PGSIZE)) else UB.

Definition uword (m : mem) (pgdir a : Z) : outcome Z :=
  let? b0 := ubyte m pgdir a in
  let? b1 := ubyte m pgdir (a + 1) in
  let? b2 := ubyte m pgdir (a + 2) in
  let? b3 := ubyte m pgdir (a + 3) in
  Ok (le_val [b0; b1; b2; b3]).

Definition kmem : M st mem := gets (fun s => k_mem (pe_mem (ps_env s))).

Definition fetchint (c : nat) (addr : Z) : M st (option Z) :=
  let! i := curproc c in
  let! p := getp i in
  if (addr >=? p_sz p) || (u32 (addr + 4) >? p_sz p) then ret None else
  let! m := kmem in
  let! v := lift (uword m (p_pgdir p) addr) in
  ret (Some (s32 v)).

Definition argint (c : nat) (n : Z) : M st (option Z) :=
  let! i := curproc c in
  let! p := getp i in
  let! m := kmem in
  fetchint c (u32 (ld32 m (p_tf p + TF_ESP) + 4 + 4 * n)).

(** * sysproc.c *)

Definition killed (i : nat) : M st bool := let! p := getp i in ret (negb (p_killed p =? 0)).

Definition sys_fork (c : nat) : M ts callres :=
  let! r := ps (fork kend data trapret forkret c) in ret (Done r).

Definition sys_exit (c : nat) : M ts callres :=
  do! ps (exit c) in ret Ended.

Definition sys_wait (c : nat) : M ts callres :=
  let! r := ps (wait kend c) in
  ret match r with Some v => Done v | None => Stop WaitSleep end.

Definition sys_kill (c : nat) : M ts callres :=
  let! pid := ps (argint c 0) in
  match pid with
  | None => ret (Done (-1))
  | Some pid => let! r := ps (kill pid) in ret (Done r)
  end.

Definition sys_getpid (c : nat) : M ts callres :=
  let! i := ps (curproc c) in
  let! p := ps (getp i) in
  ret (Done (p_pid p)).

Definition sys_sbrk (c : nat) : M ts callres :=
  let! n := ps (argint c 0) in
  match n with
  | None => ret (Done (-1))
  | Some n =>
      let! i := ps (curproc c) in
      let! p := ps (getp i) in
      let addr := s32 (p_sz p) in
      let! r := ps (sbrk_proc kend c n) in
      ret (Done (if r <? 0 then -1 else addr))
  end.

(** The loop of [sys_sleep], with [tickslock] held: the test and, in a step of its own since
    [kill] does not take the lock, the call of [sleep]. *)
Definition sleep_test (c : nat) (n ticks0 : Z) : M ts callres :=
  let! ticks := gets tr_ticks in
  if u32 (ticks - ticks0) <? u32 n then
    let! i := ps (curproc c) in
    let! k := ps (killed i) in
    if k then do! release_ticks in ret (Done (-1))
    else ret (Stop (TickEnter n ticks0))
  else do! release_ticks in ret (Done 0).

Definition sleep_enter (c : nat) (n ticks0 : Z) : M ts callres :=
  do! ps (sleep_on c (ChanAddr TICKS)) in
  do! release_ticks in
  ret (Stop (TickSleep n ticks0)).

Definition sleep_again (c : nat) (n ticks0 : Z) : M ts callres :=
  do! ps (sleep_return c) in
  do! acquire_ticks in
  sleep_test c n ticks0.

Definition sys_sleep (c : nat) : M ts callres :=
  let! n := ps (argint c 0) in
  match n with
  | None => ret (Done (-1))
  | Some n =>
      do! acquire_ticks in
      let! ticks0 := gets tr_ticks in
      sleep_test c n ticks0
  end.

Definition sys_uptime (c : nat) : M ts callres :=
  do! acquire_ticks in
  let! xticks := gets tr_ticks in
  do! release_ticks in
  ret (Done (s32 xticks)).

(** * syscall.c *)

(** A file system call, from its beginning or from where it stopped. *)
Definition file_call (num : Z) (first : bool) (c : nat) : M ts callres :=
  let! r := ps (file_part num first c) in
  match r with
  | PartDone r => ret (Done r)
  | PartSleep a => do! ps (sleep_on c (ChanAddr a)) in ret (Stop (CallSleep num))
  | PartMore => ret (Stop (InCall num))
  end.

(** The table [syscalls], indexed by the numbers of syscall.h. *)
Definition syscalls : list (option (nat -> M ts callres)) :=
  [None; Some sys_fork; Some sys_exit; Some sys_wait; Some (file_call SYS_pipe true); Some (file_call SYS_read true);
   Some sys_kill; Some (file_call SYS_exec true); Some (file_call SYS_fstat true); Some (file_call SYS_chdir true);
   Some (file_call SYS_dup true); Some sys_getpid; Some sys_sbrk; Some sys_sleep; Some sys_uptime;
   Some (file_call SYS_open true); Some (file_call SYS_write true); Some (file_call SYS_mknod true);
   Some (file_call SYS_unlink true); Some (file_call SYS_link true); Some (file_call SYS_mkdir true);
   Some (file_call SYS_close true); Some (file_call SYS_chmod true)].

(** Every number has its entry. *)
Lemma syscalls_numbers :
  (fun n => syscalls !! Z.to_nat n) <$> [SYS_fork; SYS_exit; SYS_wait; SYS_kill; SYS_getpid; SYS_sbrk; SYS_sleep; SYS_uptime] =
    [Some (Some sys_fork); Some (Some sys_exit); Some (Some sys_wait); Some (Some sys_kill); Some (Some sys_getpid); Some (Some sys_sbrk);
     Some (Some sys_sleep); Some (Some sys_uptime)] /\
  Forall (fun n => syscalls !! Z.to_nat n = Some (Some (file_call n true)))
    [SYS_pipe; SYS_read; SYS_exec; SYS_fstat; SYS_chdir; SYS_dup; SYS_open; SYS_write; SYS_mknod; SYS_unlink; SYS_link; SYS_mkdir;
     SYS_close; SYS_chmod] /\
  length syscalls = 23%nat.
Proof. split; [done|]. split; [|done]. by repeat constructor. Qed.

Definition syscall (c : nat) : M ts callres :=
  let! i := ps (curproc c) in
  let! p := ps (getp i) in
  let! m := ps kmem in
  let num := s32 (ld32 m (p_tf p + TF_EAX)) in
  match (if (num >? 0) && (num <? Z.of_nat (length syscalls)) then mjoin (syscalls !! Z.to_nat num) else None) with
  | Some f => f c
  | None => ret (Done (-1))
  end.

(** [curproc->tf->eax = r]. *)
Definition set_eax (c : nat) (r : Z) : M st unit :=
  let! i := curproc c in
  let! p := getp i in
  memory (store (p_tf p + TF_EAX) r).

(** * trap.c *)

(** The end of [trap] for a system call: the result, and [if(myproc()->killed) exit()]. *)
Definition call_end (c : nat) (r : callres) : M ts tres :=
  match r with
  | Done v =>
      do! ps (set_eax c v) in
      let! i := ps (curproc c) in
      let! k := ps (killed i) in
      if k then do! ps (exit c) in ret Gone else ret Back
  | Stop w => ret (Suspended w)
  | Ended => ret Gone
  end.

Definition trap_syscall (c : nat) (tf : Z) : M ts tres :=
  let! i := ps (curproc c) in
  let! k := ps (killed i) in
  if k then do! ps (exit c) in ret Gone else
  do! ps (upd i (fun p => set_regs tf (p_context p) p)) in
  let! r := syscall c in
  call_end c r.

Definition timer (c : nat) : M ts unit :=
  when (c =? 0)%nat
    (do! acquire_ticks in
     let! t := gets tr_ticks in
     do! modify (put_ticks (u32 (t + 1))) in
     do! ps (wakeup (ChanAddr TICKS)) in
     release_ticks).

(** The switch over the trap number, without messages and the acknowledgement of the interrupt. *)
Definition dispatch (c : nat) (no cs : Z) : M ts unit :=
  if no =? T_IRQ0 + IRQ_TIMER then timer c
  else if no =? T_IRQ0 + IRQ_IDE then ps (device IRQ_IDE)
  else if no =? T_IRQ0 + IRQ_IDE + 1 then ret tt
  else if no =? T_IRQ0 + IRQ_KBD then ps (device IRQ_KBD)
  else if no =? T_IRQ0 + IRQ_COM1 then ps (device IRQ_COM1)
  else if (no =? T_IRQ0 + 7) || (no =? T_IRQ0 + IRQ_SPURIOUS) then ret tt
  else
    let! p := ps (myproc c) in
    match p with
    | None => panic "trap"
    | Some i => if Z.land cs 3 =? 0 then panic "trap" else ps (upd i (set_killed 1))
    end.

(** [if(myproc() && myproc()->killed && (tf->cs&3) == DPL_USER) exit()]. *)
Definition exit_killed (c : nat) (cs : Z) : M ts bool :=
  let! p := ps (myproc c) in
  match p with
  | None => ret false
  | Some i =>
      let! k := ps (killed i) in
      if k && (Z.land cs 3 =? DPL_USER) then do! ps (exit c) in ret true else ret false
  end.

(** After the clock tick: what follows [yield], and the end of every trap. *)
Definition trap_end (c : nat) (cs : Z) : M ts tres :=
  let! x := exit_killed c cs in
  ret (if x then Gone else Back).

Definition running_here (c : nat) : M ts bool :=
  let! p := ps (myproc c) in
  match p with
  | None => ret false
  | Some i => let! p := ps (getp i) in ret (bool_decide (p_state p = RUNNING))
  end.

(** The fields trapno and cs of the trap frame. *)
Definition frame_no (s : ts) (tf : Z) : Z := ld32 (k_mem (pe_mem (ps_env (tr_ps s)))) (tf + TF_TRAPNO).
Definition frame_cs (s : ts) (tf : Z) : Z := le_val (mread (k_mem (pe_mem (ps_env (tr_ps s)))) (tf + TF_CS) 2).

Definition trap (c : nat) (tf : Z) : M ts tres :=
  let! no := gets (fun s => frame_no s tf) in
  let! cs := gets (fun s => frame_cs s tf) in
  if no =? T_SYSCALL then trap_syscall c tf else
  do! dispatch c no cs in
  let! x := exit_killed c cs in
  if x then ret Gone else
  let! r := running_here c in
  if r && (no =? T_IRQ0 + IRQ_TIMER) then do! ps (yield c) in ret Yielded
  else trap_end c cs.

(** A process that has stopped in the kernel goes on. *)
Definition resume (c : nat) (w : where_) : M ts tres :=
  match w with
  | User => ret Back
  | InCall num => let! r := file_call num false c in call_end c r
  | CallSleep num => do! ps (sleep_return c) in let! r := file_call num false c in call_end c r
  | WaitSleep =>
      let! r := ps (wait_again kend c) in
      call_end c match r with Some v => Done v | None => Stop WaitSleep end
  | TickEnter n ticks0 => let! r := sleep_enter c n ticks0 in call_end c r
  | TickSleep n ticks0 => let! r := sleep_again c n ticks0 in call_end c r
  | Preempted None => trap_end c DPL_USER
  | Preempted (Some _) => trap_end c 0
  end.

(** * Steps

    One step is what a CPU does between two points at which it may be interrupted, give the CPU
    away or wait for another CPU. *)

(** Where a process is after a trap, and after it went on in the kernel. *)
Definition trapped (w : where_) (r : tres) : where_ :=
  match r with
  | Back => w
  | Yielded => Preempted match w with InCall num => Some num | _ => None end
  | Suspended w' => w'
  | Gone => User
  end.

Definition resumed (w : where_) (r : tres) : where_ :=
  match r with
  | Back => match w with Preempted (Some num) => InCall num | _ => User end
  | Yielded => w
  | Suspended w' => w'
  | Gone => User
  end.

Definition tconf : Type := ts * list where_.

Definition here (s : ts) (w : list where_) (c i : nat) (pl : where_) : Prop :=
  ps_cpu (tr_ps s) !! c = Some (Some i) /\ w !! i = Some pl.

Definition idle (s : ts) (c : nat) : Prop := ps_cpu (tr_ps s) !! c = Some None.

(** The registers that the processor and alltraps of trapasm.S push on the kernel stack. *)
Definition push_regs (tf : Z) (frame : bytes) (s : ts) : ts :=
  let e := ps_env (tr_ps s) in
  let k := pe_mem e in
  put_ps (put_env (pe_set (mkk (mwrite (k_mem k) tf frame) (k_use_lock k) (k_freelist k)) e) (tr_ps s)) s.

Definition from_user (s : ts) (tf : Z) : Prop := Z.land (frame_cs s tf) 3 = DPL_USER.
Definition from_kernel (s : ts) (tf : Z) : Prop := Z.land (frame_cs s tf) 3 = 0 /\ frame_no s tf <> T_SYSCALL.

(** A round of the scheduler; an interrupt of the scheduler; a trap from user mode; an interrupt
    in a file system call; a process that goes on in the kernel; and stores to memory. *)
Inductive tstep : tconf -> tconf -> Prop :=
| t_round c s p w : idle s c -> scheduler_round c (tr_ps s) = Ok (tt, p) -> tstep (s, w) (put_ps p s, w)
| t_idle c tf frame s s1 s' r w : idle s c -> s1 = push_regs tf frame s -> from_kernel s1 tf ->
    trap c tf s1 = Ok (r, s') -> tstep (s, w) (s', w)
| t_trap c i tf frame s s1 s' r w : here s w c i User -> s1 = push_regs tf frame s -> from_user s1 tf ->
    trap c tf s1 = Ok (r, s') -> tstep (s, w) (s', <[i := trapped User r]> w)
| t_interrupt c i num tf frame s s1 s' r w : here s w c i (InCall num) -> s1 = push_regs tf frame s -> from_kernel s1 tf ->
    trap c tf s1 = Ok (r, s') -> tstep (s, w) (s', <[i := trapped (InCall num) r]> w)
| t_resume c i pl s s' r w : here s w c i pl -> pl <> User -> resume c pl s = Ok (r, s') ->
    tstep (s, w) (s', <[i := resumed pl r]> w)
| t_memory e s w : tstep (s, w) (put_ps (put_env e (tr_ps s)) s, w).
End Trap.
