(* ===== verification/TrapEffect.v ===== *)
(** What the operations on processes do when a trap calls them: to the process that is in the
    kernel, and to all others. *)

From S2P Require Import Prelude Mem Strings Bio Kalloc Syscall Vm VmSpace VmUser Proc ProcTable ProcInv ProcLive Trap.
Local Open Scope Z_scope.

(** * What the handlers may do to the table

    They wake processes that sleep on addresses; a file system call may also change its own
    process, but for its identity and state. *)

Definition wakes {X} (chans : list Z) (t : list (proc X)) : list (proc X) := foldr (fun a t => wake (ChanAddr a) <$> t) t chans.

Record same_role {X} (p q : proc X) : Prop := {
  sr_pid : p_pid q = p_pid p;
  sr_parent : p_parent q = p_parent p;
  sr_state : p_state q = p_state p;
  sr_chan : p_chan q = p_chan p;
  sr_killed : p_killed q = p_killed p
}.

Class HandlersLaws (E X : Type) `{!ProcEnv E X} `{!Handlers E X} := {
  device_law irq s s' : device irq s = Ok (tt, s') ->
    exists chans e, s' = put_env e (put_procs (wakes chans (ps_proc s)) s);
  file_law num first c i s s' r : file_part num first c s = Ok (r, s') -> ps_cpu s !! c = Some (Some i) ->
    exists chans e f, s' = put_env e (put_procs (alter f i (wakes chans (ps_proc s))) s) /\ forall p, same_role p (f p)
}.

Section Effect.
  Context (kend data trapret forkret : Z).
  Context {E X : Type} `{!ProcEnv E X}.
Abbreviation st := (pstate E X).

(** * What a step does to the processes *)

(** A process that stays the same one and may be woken or killed. *)
Record gentle (p p' : proc X) : Prop := {
  ge_pid : p_pid p' = p_pid p;
  ge_killed : p_killed p <> 0 -> p_killed p' <> 0;
  ge_alive : alive p' -> alive p;
  ge_sleep : p_state p' = SLEEPING -> p_state p = SLEEPING /\ p_chan p' = p_chan p
}.

(** A step of the process in entry [i]. *)
Record effect (i : nat) (s s' : st) : Prop := {
  ef_next : ps_nextpid s <= ps_nextpid s';
  ef_own : forall p, ps_proc s !! i = Some p ->
    exists p', ps_proc s' !! i = Some p' /\ p_pid p' = p_pid p /\ (p_killed p <> 0 -> p_killed p' <> 0);
  ef_other : forall j p', j <> i -> ps_proc s' !! j = Some p' -> alive p' ->
    (exists p, ps_proc s !! j = Some p /\ gentle p p') \/ (ps_nextpid s <= p_pid p' /\ p_state p' <> SLEEPING)
}.

Lemma gentle_refl p : gentle p p.
Proof. by constructor. Qed.

Lemma gentle_trans p q r : gentle p q -> gentle q r -> gentle p r.
Proof.
  intros [A1 A2 A3 A4] [B1 B2 B3 B4]. constructor; [congruence|auto|auto|].
  intros Hs. destruct (B4 Hs) as [Hq Ec]. destruct (A4 Hq) as [Hp Ec']. split; congruence.
Qed.

Lemma effect_trans i s s1 s2 : effect i s s1 -> effect i s1 s2 -> effect i s s2.
Proof.
  intros [A1 A2 A3] [B1 B2 B3]. constructor.
  - lia.
  - intros p Hp. destruct (A2 p Hp) as (p1 & Hp1 & E1 & K1). destruct (B2 p1 Hp1) as (p2 & Hp2 & E2 & K2).
    exists p2. split_and!; [done|congruence|auto].
  - intros j p' Hne Hj Ha. destruct (B3 j p' Hne Hj Ha) as [(p1 & Hp1 & G)|[Hn Hs]]; [|right; split; [lia|done]].
    destruct (A3 j p1 Hne Hp1 (ge_alive _ _ G Ha)) as [(p & Hp & G')|[Hn Hs]].
    + left. exists p. split; [done|by eapply gentle_trans].
    + right. rewrite (ge_pid _ _ G). split; [done|]. intros Hs'. by destruct (ge_sleep _ _ G Hs').
Qed.

(** Steps that touch each entry gently. *)
Lemma effect_gentle i (s s' : st) : ps_nextpid s' = ps_nextpid s -> length (ps_proc s') = length (ps_proc s) ->
  (forall j p p', ps_proc s !! j = Some p -> ps_proc s' !! j = Some p' -> gentle p p' \/
     j = i /\ p_pid p' = p_pid p /\ (p_killed p <> 0 -> p_killed p' <> 0)) ->
  effect i s s'.
Proof.
  intros En Hlen H. constructor; [lia| |].
  - intros p Hp. assert (is_Some (ps_proc s' !! i)) as [p' Hp'] by (apply lookup_lt_is_Some; rewrite Hlen; by eapply lookup_lt_Some).
    exists p'. split; [done|]. destruct (H i p p' Hp Hp') as [[? ? _ _]|(_ & ? & ?)]; done.
  - intros j p' Hne Hj _. left. assert (is_Some (ps_proc s !! j)) as [p Hp] by (apply lookup_lt_is_Some; rewrite <- Hlen; by eapply lookup_lt_Some).
    exists p. split; [done|]. by destruct (H j p p' Hp Hj) as [|[? _]].
Qed.

Lemma effect_table i (s s' : st) : ps_proc s' = ps_proc s -> ps_nextpid s' = ps_nextpid s -> effect i s s'.
Proof.
  intros Et En. apply effect_gentle; [done|by rewrite Et|]. intros j p p' Hp Hp'. rewrite Et in Hp'.
  assert (p' = p) as -> by congruence. left. apply gentle_refl.
Qed.

Lemma effect_same i (s s' : st) : same_procs s s' -> effect i s s'.
Proof. intros (Et & En & _). by apply effect_table. Qed.

Lemma effect_insert i (s s' : st) p q : ps_proc s !! i = Some p -> ps_proc s' = <[i := q]> (ps_proc s) -> ps_nextpid s' = ps_nextpid s ->
  p_pid q = p_pid p -> (p_killed p <> 0 -> p_killed q <> 0) -> effect i s s'.
Proof.
  intros Hp Et En Epid Ek. apply effect_gentle; [done|by rewrite Et, length_insert|]. intros j x x' Hx Hx'. rewrite Et in Hx'.
  apply list_lookup_insert_Some in Hx' as [(<- & <- & _)|[_ Hx']].
  - right. assert (x = p) as -> by congruence. done.
  - left. assert (x' = x) as -> by congruence. apply gentle_refl.
Qed.

Lemma gentle_wake ch (p : proc X) : gentle p (wake ch p).
Proof. unfold wake. destruct (decide _) as [[Hs _]|]; constructor; cbn; try done. unfold alive. rewrite Hs. done. Qed.

Lemma wakes_lookup chans (t : list (proc X)) j p : t !! j = Some p -> exists p', wakes chans t !! j = Some p' /\ gentle p p' /\ calm p p' /\ p_parent p' = p_parent p.
Proof.
  intros Hp. induction chans as [|a chans IH]; cbn [wakes foldr].
  - exists p. split_and!; [done|apply gentle_refl|apply calm_refl|done].
  - destruct IH as (p1 & H1 & G1 & C1 & E1). change (foldr _ t chans) with (wakes chans t). exists (wake (ChanAddr a) p1).
    rewrite list_lookup_fmap, H1. split_and!; [done|eapply gentle_trans; [exact G1|apply gentle_wake]|
      eapply calm_trans; [exact C1|apply calm_wake]|by rewrite wake_parent].
Qed.

Lemma wakes_length chans (t : list (proc X)) : length (wakes chans t) = length t.
Proof. induction chans as [|a chans IH]; [done|]. cbn [wakes foldr]. rewrite length_fmap. exact IH. Qed.

Lemma effect_wakes i chans (s : st) e : effect i s (put_env e (put_procs (wakes chans (ps_proc s)) s)).
Proof.
  apply effect_gentle; [done|apply wakes_length|]. intros j p p' Hp Hp'. cbn in Hp'.
  destruct (wakes_lookup chans _ j p Hp) as (p1 & H1 & G & _). left. by assert (p' = p1) as -> by congruence.
Qed.

Lemma wakes_ok chans (s : st) e w : table_ok (s, w) -> table_ok (put_env e (put_procs (wakes chans (ps_proc s)) s), w).
Proof.
  intros H. assert (table_ok (put_procs (wakes chans (ps_proc s)) s, w)) as Hok.
  { induction chans as [|a chans IH]; [by destruct s|].
    exact (wakeup_ok (ChanAddr a) (put_procs (wakes chans (ps_proc s)) s) _ w IH eq_refl). }
  destruct Hok as [A1 A2 A3]. by constructor.
Qed.

Lemma effect_sched i c (s s' : st) : scheduler_round c s = Ok (tt, s') -> effect i s s'.
Proof.
  unfold scheduler_round. intros H. prun H. prun H. prun H. destruct (ps_proc s !! _) as [p|] eqn:Hp; [|done].
  destruct (decide _) as [Hr|]; [|injection H as <-; by apply effect_table]. prun H. injection H as <-.
  rewrite (alter_known _ _ _ _ Hp). apply effect_gentle; [done|by cbn; rewrite length_insert|]. intros j x x' Hx Hx'. left. cbn in Hx'.
  apply list_lookup_insert_Some in Hx' as [(<- & <- & _)|[_ Hx']].
  - assert (x = p) as -> by congruence. constructor; cbn; try done. unfold alive. by rewrite Hr.
  - assert (x' = x) as -> by congruence. apply gentle_refl.
Qed.

(** * The process that runs on a CPU *)

Section Own.
  Context (c i : nat).

(** After [s0], the process [i] still runs on the CPU [c]. *)
Record K (w : list place) (s0 s : st) : Prop := {
  k_table : table_ok (s, w);
  k_runs : runs s w c i AtUser;
  k_effect : effect i s0 s
}.

Lemma K_same w s0 s s' : K w s0 s -> same_procs s s' -> K w s0 s'.
Proof.
  intros [H1 H2 H3] Hs. pose proof Hs as (Et & En & Ei & Ec & Ep). constructor.
  - destruct H1 as [A1 A2 A3 A4]. constructor; cbn in *; by rewrite ?Et, ?En, ?Ei, ?Ec.
  - destruct H2 as [B1 B2]. split; [by rewrite Ec|done].
  - eapply effect_trans; [done|by apply effect_same].
Qed.

(** From here on. *)
Lemma K_start w s0 s : K w s0 s -> K w s s.
Proof. intros [H1 H2 _]. constructor; [done|done|by apply effect_same]. Qed.

Lemma K_proc w s0 s : K w s0 s -> exists p, ps_proc s !! i = Some p /\ p_state p = RUNNING.
Proof. intros [H1 H2 _]. by eapply runs_proc. Qed.

Lemma K_cpu w s0 s : K w s0 s -> ps_cpu s !! c = Some (Some i).
Proof. intros [_ [H _] _]. done. Qed.

(** The process changes itself, but for its identity and state. *)
Lemma K_insert w s0 s s' p q : K w s0 s -> ps_proc s !! i = Some p -> ps_proc s' = <[i := q]> (ps_proc s) ->
  ps_nextpid s' = ps_nextpid s -> ps_init s' = ps_init s -> ps_cpu s' = ps_cpu s ->
  p_pid q = p_pid p -> p_parent q = p_parent p -> p_state q = p_state p -> (p_killed p <> 0 -> p_killed q <> 0) -> K w s0 s'.
Proof.
  intros [H1 H2 H3] Hp Et En Ei Ec E1 E2 E3 E4. constructor.
  - eapply (run_local c i s s' w w p q); try done. by destruct H2.
  - destruct H2 as [B1 B2]. split; [by rewrite Ec|done].
  - eapply effect_trans; [exact H3|]. by eapply effect_insert.
Qed.

Lemma K_wakes w s0 s chans e : K w s0 s -> K w s0 (put_env e (put_procs (wakes chans (ps_proc s)) s)).
Proof.
  intros [H1 H2 H3]. constructor; [| |eapply effect_trans; [exact H3|apply effect_wakes]].
  - by apply wakes_ok.
  - by destruct H2.
Qed.

Lemma K_kill w s0 s s' pid r : K w s0 s -> kill pid s = Ok (r, s') -> K w s0 s'.
Proof.
  intros HK Hk. pose proof (k_table _ _ _ HK) as H1. pose proof (kill_ok _ _ _ _ _ H1 Hk) as H1'.
  apply kill_table in Hk as [[_ ->]|(k & p & q & _ & Hp & _ & -> & Eq)]; [done|]. constructor; [done| |].
  - destruct (k_runs _ _ _ HK) as [B1 B2]. by split.
  - eapply effect_trans; [apply HK|]. apply effect_gentle; [done|by cbn; rewrite length_insert|].
    intros j x x' Hx Hx'. cbn in Hx'. left. apply list_lookup_insert_Some in Hx' as [(<- & <- & _)|[_ Hx']].
    + assert (x = p) as -> by congruence. rewrite Eq. constructor; cbn; [by destruct (decide _)|done| |].
      * destruct (decide _) as [Hs|]; [|done]. unfold alive. cbn. by rewrite Hs.
      * destruct (decide _) as [Hs|Hs]; cbn; [done|]. done.
    + assert (x' = x) as -> by congruence. apply gentle_refl.
Qed.

Lemma K_fork w s0 s s' r : K w s0 s -> fork kend data trapret forkret c s = Ok (r, s') -> K w s0 s'.
Proof.
  intros HK Hf. destruct (K_proc _ _ _ HK) as (p & Hp & Hs). pose proof (tb_tree _ (k_table _ _ _ HK)) as Htr. cbn in Htr.
  pose proof (fork_ok _ _ _ _ _ _ _ _ _ _ (k_table _ _ _ HK) (k_runs _ _ _ HK) Hf) as Hok.
  apply fork_table in Hf as (_ & Ec & _ & cur & _ & Hf). constructor; [done| |].
  { destruct (k_runs _ _ _ HK) as [B1 B2]. split; [by rewrite Ec|done]. }
  eapply effect_trans; [apply HK|]. destruct Hf as [(_ & Et & En)|(k & x & q & _ & Hx & Hu & Et & En & Hpid & _ & _ & Hq)].
  { apply effect_gentle; [done|by rewrite Et|]. intros j y y' Hy Hy'. rewrite Et in Hy'. assert (y' = y) as -> by congruence.
    left. apply gentle_refl. }
  assert (k <> i) as Hki by (intros ->; congruence).
  constructor.
  - lia.
  - intros y Hy. exists y. rewrite Et, list_lookup_insert_ne by done. done.
  - intros j y' Hne Hy' Ha. rewrite Et in Hy'. apply list_lookup_insert_Some in Hy' as [(<- & <- & _)|[_ Hy']].
    + right. split; [lia|]. destruct Hq as [(_ & Hq & _)|(_ & Hq & _)]; rewrite Hq; done.
    + left. exists y'. split; [done|apply gentle_refl].
Qed.

Lemma K_sbrk w s0 s s' n r : K w s0 s -> sbrk_proc kend c n s = Ok (r, s') -> K w s0 s'.
Proof.
  intros HK H. destruct (K_proc _ _ _ HK) as (p & Hp & _). pose proof (K_cpu _ _ _ HK) as Hc.
  unfold sbrk_proc in H. prun H as i' Hi. assert (i' = i) as -> by congruence.
  prun H as p' Hp'. assert (p' = p) as -> by congruence. prun H as r' Hr. prun H. injection H as <- <-.
  eapply (K_insert w s0 s _ p); [done|done|cbn; by rewrite (alter_known _ _ _ _ Hp)|done..].
Qed.

(** The process has left the CPU. *)
Record O (w : list place) (s0 s : st) : Prop := {
  o_table : table_ok (s, w);
  o_effect : effect i s0 s
}.

Lemma O_from w s0 s1 s : effect i s0 s1 -> O w s1 s -> O w s0 s.
Proof. intros He [H1 H2]. split; [done|by eapply effect_trans]. Qed.

Definition dead (s : st) : Prop := exists p, ps_proc s !! i = Some p /\ p_state p = ZOMBIE.

Lemma K_exit w s0 s s' : K w s0 s -> exit c s = Ok (tt, s') -> O w s0 s' /\ dead s'.
Proof.
  intros HK Hx. destruct (K_proc _ _ _ HK) as (p & Hp & Hs).
  pose proof (exit_ok _ _ _ _ _ (k_table _ _ _ HK) (k_runs _ _ _ HK) Hx) as Hok.
  apply exit_table in Hx as (cur & pc & Hc & _ & Hpc & _ & En & _ & _ & Hlen & H). rewrite (K_cpu _ _ _ HK) in Hc. injection Hc as <-.
  assert (pc = p) as -> by congruence. rewrite length_insert in Hlen.
  assert (Hself : <[i := set_files pf_none p]> (ps_proc s) !! i = Some (set_files pf_none p)) by (apply list_lookup_insert_eq; by eapply lookup_lt_Some).
  assert (is_Some (ps_proc s' !! i)) as [p' Hp'] by (apply lookup_lt_is_Some; rewrite Hlen; by eapply lookup_lt_Some).
  split; [split; [done|]|].
  - eapply effect_trans; [apply HK|]. apply effect_gentle; [done|done|]. intros j x x' Hx Hx'.
    destruct (decide (j = i)) as [->|Hne].
    + assert (x = p) as -> by congruence. destruct (H i _ x' Hself Hx') as (E1 & E2 & _). right. split_and!; [done|done|by rewrite E2].
    + assert (<[i := set_files pf_none p]> (ps_proc s) !! j = Some x) as Hx2 by (by rewrite list_lookup_insert_ne).
      destruct (H j x x' Hx2 Hx') as (E1 & E2 & _ & [[-> _]|(_ & Ech & Hst)] & _); [done|]. left. constructor; [done|by rewrite E2| |].
      * unfold alive. destruct Hst as [->|[-> _]]; done.
      * intros Hz. destruct Hst as [Hst|[_ Hst]]; [split; congruence|congruence].
  - exists p'. split; [done|]. destruct (H i _ p' Hself Hp') as (_ & _ & _ & [[_ ?]|[? _]] & _); done.
Qed.

Lemma K_sleep w s0 s s' a : K w s0 s -> sleep_on c (ChanAddr a) s = Ok (tt, s') ->
  O (<[i := InSleep]> w) s0 s' /\ exists p, ps_proc s' !! i = Some p /\ p_chan p = ChanAddr a.
Proof.
  intros HK H. destruct (K_proc _ _ _ HK) as (p & Hp & _). pose proof (K_cpu _ _ _ HK) as Hc.
  pose proof (sleep_ok _ _ _ _ _ _ (k_table _ _ _ HK) (k_runs _ _ _ HK) H) as Hok.
  apply sleep_on_table in H as (i' & p' & Hi & Hp' & ->). assert (i' = i) as -> by congruence. assert (p' = p) as -> by congruence.
  split; [split; [done|]|].
  - eapply effect_trans; [apply HK|]. by eapply (effect_insert i s _ p).
  - eexists. cbn. rewrite list_lookup_insert_eq by (by eapply lookup_lt_Some). done.
Qed.

Lemma K_yield w s0 s s' : K w s0 s -> yield c s = Ok (tt, s') -> O w s0 s'.
Proof.
  intros HK H. destruct (K_proc _ _ _ HK) as (p & Hp & _). pose proof (K_cpu _ _ _ HK) as Hc.
  pose proof (yield_ok _ _ _ _ _ _ (k_table _ _ _ HK) (k_runs _ _ _ HK) H) as Hok. split; [done|].
  eapply effect_trans; [apply HK|]. unfold yield in H. prun H as i' Hi. assert (i' = i) as -> by congruence. prun H.
  apply sched_table in H as ->. eapply (effect_insert i s _ p); [done|cbn; by rewrite (alter_known _ _ _ _ Hp)|done..].
Qed.

Lemma effect_wait (s s' : st) r p : ps_cpu s !! c = Some (Some i) -> ps_proc s !! i = Some p -> p_state p = RUNNING ->
  wait kend c s = Ok (r, s') -> effect i s s' /\ (is_Some r -> ps_cpu s' !! c = Some (Some i)).
Proof.
  intros Hc Hp Hs H. apply wait_table in H as (En & _ & _ & cur & Hc' & H). assert (cur = i) as -> by congruence.
  destruct H as [(k & x & q & Hx & _ & Hz & _ & Et & Hq & _ & _ & Ec)|[[-> ->]|(-> & _ & _ & x & Hx & _ & ->)]].
  - split; [|by rewrite Ec]. assert (k <> i) as Hki by (intros ->; congruence). constructor.
    + lia.
    + intros y Hy. exists y. rewrite Et, list_lookup_insert_ne by done. done.
    + intros j y' Hne Hy' Ha. rewrite Et in Hy'. apply list_lookup_insert_Some in Hy' as [(<- & <- & _)|[_ Hy']].
      * destruct Ha as [Ha _]. congruence.
      * left. exists y'. split; [done|apply gentle_refl].
  - split; [by apply effect_same|done].
  - split; [|by intros [? ?]]. assert (x = p) as -> by congruence. by eapply (effect_insert i s _ p).
Qed.

Lemma K_wait w s0 s s' r : K w s0 s -> wait kend c s = Ok (r, s') ->
  match r with Some _ => K w s0 s' | None => O (<[i := InWait]> w) s0 s' end.
Proof.
  intros HK H. destruct (K_proc _ _ _ HK) as (p & Hp & Hs). pose proof (K_cpu _ _ _ HK) as Hc.
  pose proof (place_lt _ _ _ _ _ (k_table _ _ _ HK) (k_runs _ _ _ HK)) as Hlt.
  assert (same_fork i w (<[i := InWait]> w)) as Hsf by (by eapply same_fork_insert; [apply HK|..]).
  pose proof (wait_ok _ _ _ _ _ _ _ (k_table _ _ _ HK) Hc Hsf Hlt H) as Hok. destruct (effect_wait _ _ _ _ Hc Hp Hs H) as [He Hr].
  destruct r as [r|].
  - constructor; [done| |eapply effect_trans; [apply HK|done]]. split; [by apply Hr|apply HK].
  - split; [done|]. eapply effect_trans; [apply HK|done].
Qed.

(** Coming back from [sleep]. *)
Lemma K_awake w s s' : table_ok (s, w) -> runs s w c i InSleep -> sleep_return c s = Ok (tt, s') -> K (<[i := AtUser]> w) s s'.
Proof.
  intros Hok Hr H. pose proof (awake_ok _ _ _ _ _ Hok Hr H) as Hok'. pose proof (place_lt _ _ _ _ _ Hok Hr) as Hlt.
  destruct (runs_proc _ _ _ _ _ Hok Hr) as (p & Hp & _). destruct Hr as [Hc Hw].
  unfold sleep_return in H. prun H as i' Hi. assert (i' = i) as -> by congruence. injection H as <-.
  constructor; [done| |].
  - split; [done|]. by apply list_lookup_insert_eq.
  - eapply (effect_insert i s _ p); [done|cbn; by rewrite (alter_known _ _ _ _ Hp)|done..].
Qed.

Lemma K_wait_again w s s' r : table_ok (s, w) -> runs s w c i InWait -> wait_again kend c s = Ok (r, s') ->
  match r with Some _ => K (<[i := AtUser]> w) s s' | None => O w s s' end.
Proof.
  intros Hok Hr H. pose proof (wait_again_ok _ _ _ _ _ _ _ Hok Hr H) as Hok'. pose proof (place_lt _ _ _ _ _ Hok Hr) as Hlt.
  destruct (runs_proc _ _ _ _ _ Hok Hr) as (p & Hp & Hs). destruct Hr as [Hc Hw].
  unfold wait_again in H. apply bind_Ok_inv in H as (u & s1 & R & H). unfold sleep_return in R. prun R as i' Hi.
  assert (i' = i) as -> by congruence. injection R as <- <-. rewrite (alter_known _ _ _ _ Hp) in H.
  assert (Hp1 : <[i := set_chan NoChan p]> (ps_proc s) !! i = Some (set_chan NoChan p)) by (apply list_lookup_insert_eq; by eapply lookup_lt_Some).
  set (s1 := put_procs _ s) in H.
  assert (He1 : effect i s s1) by (by eapply (effect_insert i s _ p)).
  destruct (effect_wait s1 s' r (set_chan NoChan p) Hc Hp1 Hs H) as [He Hr]. pose proof (effect_trans _ _ _ _ He1 He) as Hee.
  destruct r as [r|]; [|by split]. constructor; [done| |done]. split; [by apply Hr|by apply list_lookup_insert_eq].
Qed.
End Own.
End Effect.
