(* ===== verification/TrapSafe.v ===== *)
(** What traps guarantee, under any interleaving of the CPUs: the process table stays
    consistent, a killed process never gets back to user mode, and nobody sleeps past the
    time that [sys_sleep] was asked for. *)

From S2P Require Import Prelude Mem Strings Bio Kalloc Syscall Vm VmSpace VmUser VmCopy Proc ProcTable ProcInv ProcLive ProcBoot Trap TrapEffect.
Local Open Scope Z_scope.

(** Where the process table sees a process. *)
Definition abs (w : where_) : place :=
  match w with
  | CallSleep _ | TickSleep _ _ => InSleep
  | WaitSleep => InWait
  | User | InCall _ | TickEnter _ _ | Preempted _ => AtUser
  end.

Section Calls.
  Context (kend data trapret forkret : Z).
  Context {E X : Type} `{!ProcEnv E X} `{!Handlers E X} `{!HandlersLaws E X}.
Abbreviation st := (pstate E X).
Abbreviation ts := (tstate E X).
Abbreviation fork := (fork kend data trapret forkret).
Abbreviation wait := (wait kend).

Lemma ps_inv {A} (m : M st A) (s s' : ts) a : ps m s = Ok (a, s') -> exists p, m (tr_ps s) = Ok (a, p) /\ s' = put_ps p s.
Proof. unfold ps, zoom. destruct (m _) as [[b k]|?| |]; try discriminate. intros [= <- <-]. eauto. Qed.

Lemma acquire_inv (s s' : ts) u : acquire_ticks s = Ok (u, s') -> tr_lock s = false /\ s' = put_lock true s.
Proof. unfold acquire_ticks, bind, gets. destruct (tr_lock s); [done|]. by intros [= <- <-]. Qed.

Lemma put_ps_id (s : ts) : put_ps (tr_ps s) s = s.
Proof. by destruct s. Qed.

Lemma killed_inv i (s s' : st) b : killed i s = Ok (b, s') ->
  s' = s /\ exists p, ps_proc s !! i = Some p /\ b = negb (p_killed p =? 0).
Proof. unfold killed. intros H. prun H as p Hp. injection H as <- <-. eauto. Qed.

Lemma fetchint_inv c a (s s' : st) r : fetchint c a s = Ok (r, s') -> same_procs s s'.
Proof.
  unfold fetchint, kmem. intros H. prun H as i Hi. prun H as p Hp. destruct (_ || _); [by injection H as <- <-|].
  prun H. prun H as v Hv. by injection H as <- <-.
Qed.

Lemma argint_inv c n (s s' : st) r : argint c n s = Ok (r, s') -> same_procs s s'.
Proof.
  unfold argint, kmem. intros H. prun H as i Hi. prun H as p Hp. prun H. apply fetchint_inv in H. done.
Qed.

(** The argument is the one that [Syscall.argint] finds in the memory of the process. *)
Lemma argint_view c i p u n (s : st) (m := k_mem (pe_mem (ps_env s))) : ps_cpu s !! c = Some (Some i) -> ps_proc s !! i = Some p ->
  Syscall.u_sz u = p_sz p -> Syscall.u_esp u = ld32 m (p_tf p + TF_ESP) -> 0 <= p_sz p <= KERNBASE ->
  (forall a, 0 <= a < p_sz p -> ubyte m (p_pgdir p) a = Ok (mget (Syscall.u_mem u) a)) ->
  argint c n s = Ok (Syscall.argint u n, s).
Proof.
  intros Hc Hp Esz Eesp Hsz Hm. unfold argint. mstep (curproc_Ok c s i Hc). mstep (getp_Ok i s p Hp). unfold kmem. rewrite (bind_Ok _ _ _ _ _ eq_refl).
  unfold fetchint. mstep (curproc_Ok c s i Hc). mstep (getp_Ok i s p Hp). unfold Syscall.argint, Syscall.fetchint. rewrite Esz, Eesp.
  fold m. set (a := u32 (ld32 m (p_tf p + TF_ESP) + 4 + 4 * n)). assert (0 <= a < 4294967296) by (apply u32_range).
  destruct (_ || _) eqn:Eb; [done|]. apply orb_false_iff in Eb as [E1 E2]. unfold KERNBASE in Hsz.
  rewrite (u32_small (a + 4)) in E2 by lia. unfold kmem. rewrite (bind_Ok _ _ _ _ _ eq_refl). fold m. unfold uword.
  rewrite !Hm by lia. unfold ld32, mread. cbn [seq fmap list_fmap]. change (Z.of_nat 0) with 0. by rewrite Z.add_0_r.
Qed.

Lemma set_eax_inv c v (s s' : st) : set_eax c v s = Ok (tt, s') -> same_procs s s'.
Proof. unfold set_eax. intros H. prun H as i Hi. prun H as p Hp. by eapply memory_procs. Qed.
End Calls.

(** One step of a run that returned, as [prun] for operations on the process table. *)
Tactic Notation "trun" hyp(H) "as" ident(a) ident(R) :=
  let s := fresh "s" in
  apply bind_Ok_inv in H as (a & s & R & H);
  lazymatch type of R with
  | ps (curproc _) _ = _ => let q := fresh "q" in apply ps_inv in R as (q & R & ->); apply curproc_inv in R as [-> R]; rewrite ?put_ps_id in *
  | ps (getp _) _ = _ => let q := fresh "q" in apply ps_inv in R as (q & R & ->); apply getp_inv in R as [-> R]; rewrite ?put_ps_id in *
  | ps (killed _) _ = _ => let q := fresh "q" in let p := fresh "p" in let Hp := fresh "Hp" in
      apply ps_inv in R as (q & R & ->); apply killed_inv in R as (-> & p & Hp & R); rewrite ?put_ps_id in *
  | ps _ _ = _ => let q := fresh "q" in apply ps_inv in R as (q & R & ->)
  | acquire_ticks _ = _ => let L := fresh "L" in apply acquire_inv in R as [L ->]; rename L into R
  | release_ticks _ = _ => injection R as <- <-
  | modify _ _ = _ => injection R as <- <-
  | gets _ _ = _ => injection R as <- <-
  | ret _ _ = _ => injection R as <- <-
  | _ => idtac
  end;
  cbn [put_ps put_lock put_ticks tr_ps tr_ticks tr_lock] in *.
Tactic Notation "trun" hyp(H) := let a := fresh "a" in let R := fresh "R" in trun H as a R.

Section Steps.
  Context (kend data trapret forkret : Z).
  Context {E X : Type} `{!ProcEnv E X} `{!Handlers E X} `{!HandlersLaws E X}.
Abbreviation st := (pstate E X).
Abbreviation ts := (tstate E X).

Section Own.
  Context (c i : nat).
Abbreviation K := (K (E := E) (X := X) c i).
Abbreviation O := (O (E := E) (X := X) i).
Abbreviation dead := (dead (E := E) (X := X) i).

Definition same_clock (s s' : ts) : Prop := tr_ticks s' = tr_ticks s /\ tr_lock s' = tr_lock s.

(** The clock and its lock when a process stops at [x]. *)
Definition clock_at (x : where_) (s s' : ts) : Prop :=
  tr_ticks s' = tr_ticks s /\
  match x with
  | TickEnter n t0 => tr_lock s = false /\ tr_lock s' = true /\ u32 (tr_ticks s - t0) < u32 n
  | TickSleep _ _ => False
  | _ => tr_lock s' = tr_lock s
  end.

(** * System calls *)

(** After a call that began in [s], with the process table as in [s0] when the trap began. *)
Definition call_ok (w : list place) (s0 : st) (s : ts) (r : callres) (s' : ts) : Prop :=
  match r with
  | Done _ => K w s0 (tr_ps s') /\ same_clock s s'
  | Stop x => x <> User /\ (forall o, x <> Preempted o) /\ O (<[i := abs x]> w) s0 (tr_ps s') /\ clock_at x s s'
  | Ended => O w s0 (tr_ps s') /\ dead (tr_ps s') /\ same_clock s s'
  end.

Definition handler_ok (f : nat -> M ts callres) : Prop := forall w s0 s r s',
  K w s0 (tr_ps s) -> f c s = Ok (r, s') -> call_ok w s0 s r s'.

Lemma w_same w s0 s : K w s0 s -> <[i := AtUser]> w = w.
Proof. intros [_ [_ Hw] _]. by apply list_insert_id. Qed.

Lemma fork_call : handler_ok (sys_fork kend data trapret forkret).
Proof.
  intros w s0 s r s' HK H. unfold sys_fork in H. trun H. injection H as <- <-. split; [|done]. by eapply K_fork.
Qed.

Lemma exit_call : handler_ok sys_exit.
Proof.
  intros w s0 s r s' HK H. unfold sys_exit in H. trun H as u R. destruct u. injection H as <- <-.
  destruct (K_exit _ _ _ _ _ _ HK R) as [HO Hd]. done.
Qed.

Lemma wait_call : handler_ok (sys_wait kend).
Proof.
  intros w s0 s r s' HK H. unfold sys_wait in H. trun H as v R. injection H as <- <-.
  pose proof (K_wait _ _ _ _ _ _ _ _ HK R) as Hw. destruct v as [v|]; [done|]. by split_and!.
Qed.

Lemma kill_call : handler_ok sys_kill.
Proof.
  intros w s0 s r s' HK H. unfold sys_kill in H. trun H as v R. pose proof (K_same _ _ _ _ _ _ HK (argint_inv _ _ _ _ _ R)) as HK1.
  destruct v as [v|]; [|by injection H as <- <-]. trun H as u R2. injection H as <- <-. split; [|done]. by eapply K_kill.
Qed.

Lemma getpid_call : handler_ok sys_getpid.
Proof.
  intros w s0 s r s' HK H. unfold sys_getpid in H. trun H. trun H. by injection H as <- <-.
Qed.

Lemma sbrk_call : handler_ok (sys_sbrk kend).
Proof.
  intros w s0 s r s' HK H. unfold sys_sbrk in H. trun H as v R. pose proof (K_same _ _ _ _ _ _ HK (argint_inv _ _ _ _ _ R)) as HK1.
  destruct v as [v|]; [|by injection H as <- <-]. trun H as j R1. apply bind_Ok_inv in H as (p & s2 & R2 & H).
  apply ps_inv in R2 as (q2 & R2 & ->). apply getp_inv in R2 as [-> R2]. rewrite put_ps_id in H.
  trun H as u R3. injection H as <- <-. split; [|done]. by eapply K_sbrk.
Qed.

(** The test of [sys_sleep], once the lock is held. *)
Lemma sleep_test_ok w s0 s1 s n t0 r s' : K w s0 (tr_ps s) -> tr_lock s1 = false -> tr_ticks s1 = tr_ticks s -> tr_lock s = true ->
  sleep_test c n t0 s = Ok (r, s') -> call_ok w s0 s1 r s' /\ (forall v, r = Done v -> tr_ps s' = tr_ps s /\
    ((exists p, ps_proc (tr_ps s') !! i = Some p /\ p_killed p <> 0) \/ u32 n <= u32 (tr_ticks s - t0))).
Proof.
  intros HK L1 T1 L H. unfold sleep_test in H. trun H. destruct (_ <? _) eqn:Et.
  - trun H as j Hj. assert (j = i) as -> by (pose proof (K_cpu _ _ _ _ _ HK); congruence). trun H as b Hb. destruct b.
    + trun H. injection H as <- <-. split; [split; [exact HK|split; [by cbn|by cbn]]|]. intros v [= <-]. split; [done|]. left.
      exists p. split; [done|]. intros Hz. rewrite Hz in Hb. done.
    + injection H as <- <-. split; [|done]. split; [done|]. split; [done|]. cbn [abs]. rewrite (w_same _ _ _ HK).
      split; [split; apply HK|]. split; [done|]. split_and!; [done|done|]. rewrite T1. lia.
  - trun H. injection H as <- <-. split; [split; [exact HK|split; [by cbn|by cbn]]|]. intros v [= <-]. split; [done|]. right. lia.
Qed.

Lemma sleep_call : handler_ok sys_sleep.
Proof.
  intros w s0 s r s' HK H. unfold sys_sleep in H. trun H as v R. pose proof (K_same _ _ _ _ _ _ HK (argint_inv _ _ _ _ _ R)) as HK1.
  destruct v as [v|]; [|by injection H as <- <-]. trun H as u L. trun H.
  by destruct (sleep_test_ok w s0 s (put_lock true (put_ps q s)) v (tr_ticks s) r s' HK1 L eq_refl eq_refl H) as [Hc _].
Qed.

Lemma uptime_call : handler_ok sys_uptime.
Proof.
  intros w s0 s r s' HK H. unfold sys_uptime in H. trun H as u L. trun H. trun H. injection H as <- <-. split; [done|]. by split.
Qed.

Lemma K_file w s0 s s' num first r : K w s0 s -> file_part num first c s = Ok (r, s') -> K w s0 s'.
Proof.
  intros HK H. destruct (file_law _ _ _ _ _ _ _ H (K_cpu _ _ _ _ _ HK)) as (chans & e & f & -> & Hf).
  pose proof (K_wakes _ _ _ _ _ chans e HK) as HK1. destruct (K_proc _ _ _ _ _ HK1) as (p & Hp & _). cbn in Hp.
  eapply (K_insert c i w s0 _ _ p (f p) HK1 Hp); try done; [cbn; by rewrite (alter_known _ _ _ _ Hp)|apply Hf..|].
  by rewrite (sr_killed _ _ (Hf p)).
Qed.

Lemma file_call_ok w s0 s num first r s' : K w s0 (tr_ps s) -> file_call num first c s = Ok (r, s') -> call_ok w s0 s r s'.
Proof.
  intros HK H. unfold file_call in H. trun H as v R. pose proof (K_file _ _ _ _ _ _ _ HK R) as HK1. destruct v as [v|a|].
  - by injection H as <- <-.
  - trun H as u R2. destruct u. injection H as <- <-. destruct (K_sleep _ _ _ _ _ _ _ HK1 R2) as [HO _]. by split_and!.
  - injection H as <- <-. split_and!; [done|done| |done]. cbn [abs]. rewrite (w_same _ _ _ HK). split; apply HK1.
Qed.

Lemma file_handler num : handler_ok (file_call num true).
Proof. intros w s0 s r s' HK. by apply file_call_ok. Qed.

Lemma syscalls_ok : Forall (fun o => match o with Some f => handler_ok f | None => True end) (syscalls kend data trapret forkret).
Proof.
  unfold syscalls. repeat first [apply Forall_cons; split | apply Forall_nil];
    first [exact I | apply fork_call | apply exit_call | apply wait_call | apply kill_call | apply getpid_call
          | apply sbrk_call | apply sleep_call | apply uptime_call | apply file_handler].
  all: done.
Qed.

Lemma syscall_ok : handler_ok (syscall kend data trapret forkret).
Proof.
  intros w s0 s r s' HK H. unfold syscall in H. trun H. trun H as p Hp. trun H as v Rv. injection Rv as <- <-. rewrite put_ps_id in H.
  match type of H with match ?o with _ => _ end _ = _ => destruct o as [f|] eqn:Ef; [|by injection H as <- <-] end.
  assert (handler_ok f) as Hf.
  { match type of Ef with (if ?b then _ else _) = _ => destruct b; [|done] end.
    match type of Ef with mjoin ?o = _ => destruct o as [o'|] eqn:Eo; [|done] end. cbn in Ef. subst o'.
    pose proof (proj1 (Forall_lookup _ _) syscalls_ok _ _ Eo) as Hf. exact Hf. }
  by apply (Hf w s0) in H.
Qed.

(** * Traps *)

(** The timer has ticked: whoever slept until then is awake. *)
Definition ticked (s s' : ts) : Prop :=
  tr_lock s = false /\ tr_lock s' = false /\
  forall j p, j <> i -> ps_proc (tr_ps s') !! j = Some p -> p_state p = SLEEPING -> p_chan p <> ChanAddr TICKS.

Definition spared (s : st) : Prop := forall p, ps_proc s !! i = Some p -> p_killed p = 0.

(** After a trap, or a part of one, from [s]; [user] tells a return to user mode. *)
Definition trap_ok (user : Prop) (w : list place) (s : ts) (r : tres) (s' : ts) : Prop :=
  match r with
  | Back => K w (tr_ps s) (tr_ps s') /\ (user -> spared (tr_ps s')) /\ same_clock s s'
  | Yielded => O w (tr_ps s) (tr_ps s') /\ (same_clock s s' \/ ticked s s')
  | Suspended x => x <> User /\ (forall o, x <> Preempted o) /\ O (<[i := abs x]> w) (tr_ps s) (tr_ps s') /\ clock_at x s s'
  | Gone => O w (tr_ps s) (tr_ps s') /\ dead (tr_ps s') /\ (same_clock s s' \/ ticked s s')
  end.

Lemma call_end_ok w s s1 r r' s' user : call_ok w (tr_ps s) s r s1 -> call_end c r s1 = Ok (r', s') -> trap_ok user w s r' s'.
Proof.
  intros Hc H. destruct r as [v|x|]; cbn [call_end call_ok] in *.
  - destruct Hc as [HK Hcl]. trun H as u R. destruct u. pose proof (K_same _ _ _ _ _ _ HK (set_eax_inv _ _ _ _ R)) as HK1.
    trun H as j Hj. assert (j = i) as -> by (pose proof (K_cpu _ _ _ _ _ HK1); congruence). trun H as b Hb. destruct b.
    + trun H as u R2. destruct u. injection H as <- <-. destruct (K_exit _ _ _ _ _ _ HK1 R2) as [HO Hd]. split_and!; [done|done|by left].
    + injection H as <- <-. split_and!; [done| |done]. intros _ p' Hp'. cbn in Hp'. assert (p' = p) as -> by congruence.
      symmetry in Hb. apply negb_false_iff in Hb. by apply Z.eqb_eq.
  - by injection H as <- <-.
  - injection H as <- <-. destruct Hc as (HO & Hd & Hcl). split_and!; [done|done|by left].
Qed.

Lemma trap_syscall_ok w s tf r s' user : K w (tr_ps s) (tr_ps s) ->
  trap_syscall kend data trapret forkret c tf s = Ok (r, s') -> trap_ok user w s r s'.
Proof.
  intros HK H. unfold trap_syscall in H. trun H as j Hj. assert (j = i) as -> by (pose proof (K_cpu _ _ _ _ _ HK); congruence).
  trun H as b Hb. destruct b.
  - trun H as u R. destruct u. injection H as <- <-. destruct (K_exit _ _ _ _ _ _ HK R) as [HO Hd]. split_and!; [done|done|by left].
  - trun H as u R. injection R as <- <-. apply bind_Ok_inv in H as (r1 & s1 & R1 & H).
    assert (K w (tr_ps s) (put_procs (alter (fun p => set_regs tf (p_context p) p) i (ps_proc (tr_ps s))) (tr_ps s))) as HK1.
    { eapply (K_insert c i w _ _ _ p (set_regs tf (p_context p) p) HK Hp); try done. cbn. by rewrite (alter_known _ _ _ _ Hp). }
    apply (syscall_ok w (tr_ps s)) in R1; [|exact HK1]. eapply call_end_ok; [|exact H].
    destruct r1; exact R1.
Qed.

(** The switch of [trap]: processes are woken, by the timer all that sleep until a tick, or the
    process that misbehaved is marked. *)
Lemma dispatch_inv no cs (s s' : ts) u : dispatch c no cs s = Ok (u, s') ->
  (exists chans e, tr_ps s' = put_env e (put_procs (wakes chans (ps_proc (tr_ps s))) (tr_ps s)) /\
     (same_clock s s' \/ no = T_IRQ0 + IRQ_TIMER /\ tr_lock s = false /\ tr_lock s' = false /\
        forall j p, ps_proc (tr_ps s') !! j = Some p -> p_state p = SLEEPING -> p_chan p <> ChanAddr TICKS)) \/
  (exists j, ps_cpu (tr_ps s) !! c = Some (Some j) /\ s' = put_ps (put_procs (alter (set_killed 1) j (ps_proc (tr_ps s))) (tr_ps s)) s).
Proof.
  assert (Hdev : forall irq, ps (device irq) s = Ok (u, s') -> exists chans e,
    tr_ps s' = put_env e (put_procs (wakes chans (ps_proc (tr_ps s))) (tr_ps s)) /\ same_clock s s').
  { intros irq H. destruct u. apply ps_inv in H as (q & R & ->). destruct (device_law _ _ _ R) as (chans & e & ->). by exists chans, e. }
  assert (Hsame : s' = s -> exists chans e,
    tr_ps s' = put_env e (put_procs (wakes chans (ps_proc (tr_ps s))) (tr_ps s)) /\ same_clock s s').
  { intros ->. exists [], (ps_env (tr_ps s)). split; [by destruct (tr_ps s)|done]. }
  unfold dispatch. intros H. destruct (no =? T_IRQ0 + IRQ_TIMER) eqn:Et.
  { apply Z.eqb_eq in Et. left. unfold timer, when in H. destruct (c =? 0)%nat.
    - trun H as v L. trun H. trun H. trun H as y R. destruct y. injection H as <- <-. injection R as <-.
      exists [TICKS], (ps_env (tr_ps s)). split; [done|]. right. split_and!; [done|done|done|]. intros j p Hj Hs. cbn in Hj.
      rewrite list_lookup_fmap in Hj. destruct (ps_proc (tr_ps s) !! j) as [q|]; [|done]. injection Hj as <-.
      pose proof (wake_asleep _ _ Hs) as Hne. by rewrite (ca_chan _ _ (calm_wake _ q)).
    - injection H as <- <-. destruct (Hsame eq_refl) as (? & ? & ? & ?). eauto. }
  destruct (no =? T_IRQ0 + IRQ_IDE); [left; destruct (Hdev _ H) as (? & ? & ? & ?); eauto|].
  destruct (no =? T_IRQ0 + IRQ_IDE + 1); [left; injection H as <- <-; destruct (Hsame eq_refl) as (? & ? & ? & ?); eauto|].
  destruct (no =? T_IRQ0 + IRQ_KBD); [left; destruct (Hdev _ H) as (? & ? & ? & ?); eauto|].
  destruct (no =? T_IRQ0 + IRQ_COM1); [left; destruct (Hdev _ H) as (? & ? & ? & ?); eauto|].
  destruct ((no =? T_IRQ0 + 7) || _); [left; injection H as <- <-; destruct (Hsame eq_refl) as (? & ? & ? & ?); eauto|].
  right. trun H as o R. injection R as <- <-. rewrite put_ps_id in H.
  destruct (ps_cpu (tr_ps s) !! c) as [[j|]|] eqn:Ec; [|done..]. cbn in H. destruct (Z.land cs 3 =? 0); [done|].
  apply ps_inv in H as (q & R & ->). injection R as <- <-. by exists j.
Qed.

Lemma dispatch_ok w no cs s s' u : K w (tr_ps s) (tr_ps s) -> dispatch c no cs s = Ok (u, s') ->
  K w (tr_ps s) (tr_ps s') /\ (same_clock s s' \/ no = T_IRQ0 + IRQ_TIMER /\ ticked s s').
Proof.
  intros HK H. destruct (dispatch_inv _ _ _ _ _ H) as [(chans & e & Ep & Hcl)|(j & Hj & ->)].
  - rewrite Ep. split; [by apply K_wakes|]. destruct Hcl as [Hcl|(En & L & L' & Hcl)]; [by left|right]. split; [done|]. split_and!; [done|done|]. eauto.
  - assert (j = i) as -> by (pose proof (K_cpu _ _ _ _ _ HK); congruence). destruct (K_proc _ _ _ _ _ HK) as (p & Hp & _).
    split; [|by left]. eapply (K_insert c i w _ _ _ p (set_killed 1 p) HK Hp); try done. cbn. by rewrite (alter_known _ _ _ _ Hp).
Qed.

Lemma exit_killed_ok w cs s s' x : K w (tr_ps s) (tr_ps s) -> exit_killed c cs s = Ok (x, s') ->
  if x : bool then O w (tr_ps s) (tr_ps s') /\ dead (tr_ps s') /\ same_clock s s'
  else s' = s /\ (Z.land cs 3 = DPL_USER -> spared (tr_ps s)).
Proof.
  intros HK H. pose proof (K_cpu _ _ _ _ _ HK) as Hc. unfold exit_killed in H. trun H as o R. injection R as <- <-. rewrite put_ps_id in H.
  rewrite Hc in H. cbn in H. trun H as b Hb. destruct (b && _) eqn:Eb.
  - trun H as u R. destruct u. injection H as <- <-. by destruct (K_exit _ _ _ _ _ _ HK R).
  - injection H as <- <-. split; [done|]. intros Hcs p' Hp'. assert (p' = p) as -> by congruence. rewrite Hcs in Eb.
    rewrite Z.eqb_refl, andb_true_r in Eb. subst b. apply negb_false_iff in Eb. by apply Z.eqb_eq.
Qed.

Lemma trap_end_ok w cs s s' r : K w (tr_ps s) (tr_ps s) -> trap_end c cs s = Ok (r, s') ->
  r = Back /\ s' = s /\ (Z.land cs 3 = DPL_USER -> spared (tr_ps s)) \/
  r = Gone /\ O w (tr_ps s) (tr_ps s') /\ dead (tr_ps s') /\ same_clock s s'.
Proof.
  intros HK H. unfold trap_end in H. apply bind_Ok_inv in H as (x & s1 & R & H). injection H as <- <-.
  pose proof (exit_killed_ok _ _ _ _ _ HK R) as Hx. destruct x; [right|left]; [done|]. destruct Hx as [-> Hs]. done.
Qed.

Lemma ticked_later s s1 s2 : ticked s s1 -> effect i (tr_ps s1) (tr_ps s2) -> same_clock s1 s2 -> ticked s s2.
Proof.
  intros (L & L1 & H) He [_ El]. split_and!; [done|congruence|]. intros j p Hne Hj Hs Hch.
  destruct (ef_other _ _ _ He j p Hne Hj) as [(q & Hq & G)|[_ Hns]]; [by unfold alive; rewrite Hs| |done].
  destruct (ge_sleep _ _ G Hs) as [Hqs Ech]. apply (H j q Hne Hq Hqs). congruence.
Qed.

Lemma clock_later s s1 s2 : (same_clock s s1 \/ ticked s s1) -> effect i (tr_ps s1) (tr_ps s2) -> same_clock s1 s2 ->
  same_clock s s2 \/ ticked s s2.
Proof.
  intros [[E1 E2]|H] He Hcl; [left; destruct Hcl; split; congruence|right]. by eapply ticked_later.
Qed.

(** A trap of a process. *)
Lemma trap_step w tf s s' r : K w (tr_ps s) (tr_ps s) ->
  trap kend data trapret forkret c tf s = Ok (r, s') ->
  trap_ok (frame_no s tf = T_SYSCALL \/ Z.land (frame_cs s tf) 3 = DPL_USER) w s r s'.
Proof.
  intros HK H. unfold trap in H. trun H. trun H. destruct (frame_no s tf =? T_SYSCALL) eqn:Eno.
  { apply Z.eqb_eq in Eno. by eapply trap_syscall_ok. }
  apply Z.eqb_neq in Eno. apply bind_Ok_inv in H as (u & s1 & R1 & H). destruct (dispatch_ok _ _ _ _ _ _ HK R1) as [HK1 Hcl].
  assert (Hcl0 : same_clock s s1 \/ ticked s s1) by tauto.
  pose proof (K_start _ _ _ _ _ HK1) as HK2. pose proof (k_effect _ _ _ _ _ HK1) as He. apply bind_Ok_inv in H as (x & s2 & R2 & H).
  pose proof (exit_killed_ok _ _ _ _ _ HK2 R2) as Hx. destruct x.
  { injection H as <- <-. destruct Hx as (HO & Hd & Hcl2). split_and!; [by eapply O_from|done|].
    eapply clock_later; [exact Hcl0|apply HO|done]. }
  destruct Hx as [-> Hx]. apply bind_Ok_inv in H as (b & s3 & R3 & H).
  destruct (K_proc _ _ _ _ _ HK2) as (p & Hp & Hs). pose proof (K_cpu _ _ _ _ _ HK2) as Hc.
  unfold running_here in R3. trun R3 as o R. injection R as <- <-. rewrite put_ps_id, Hc in R3. cbn in R3. trun R3 as p' Hp'.
  assert (p' = p) as -> by congruence. injection R3 as <- <-. rewrite bool_decide_true in H by done. cbn [andb] in H.
  destruct (_ =? T_IRQ0 + IRQ_TIMER) eqn:Et.
  { trun H as v R. destruct v. injection H as <- <-. pose proof (K_yield _ _ _ _ _ _ HK2 R) as HO.
    split; [by eapply O_from|]. eapply clock_later; [exact Hcl0|apply HO|done]. }
  destruct Hcl as [Hcl|[Hno _]]; [|lia].
  destruct (trap_end_ok _ _ _ _ _ HK2 H) as [(-> & -> & Hu)|(-> & HO & Hd & Hcl2)].
  - split_and!; [done| |done]. intros [?|?]; [done|auto].
  - split_and!; [by eapply O_from|done|]. left. destruct Hcl, Hcl2. split; congruence.
Qed.

(** * Going on in the kernel *)

Lemma K_kernel w s : table_ok (s, w) -> runs s w c i AtUser -> K w s s.
Proof. intros H1 H2. constructor; [done|done|by apply effect_same]. Qed.

Lemma resume_step w pl s s' r : table_ok (tr_ps s, w) -> runs (tr_ps s) w c i (abs pl) -> pl <> User ->
  (forall n t0, pl <> TickEnter n t0) -> resume kend c pl s = Ok (r, s') ->
  r <> Yielded /\ trap_ok (forall num, pl <> Preempted (Some num)) (<[i := AtUser]> w) s r s' /\
  (forall n t0, pl = TickSleep n t0 -> r = Back -> u32 n <= u32 (tr_ticks s - t0)).
Proof.
  intros Hok Hr Hu Ht H. pose proof (place_lt _ _ _ _ _ Hok Hr) as Hlt.
  assert (Hend : forall r1 s1, call_end c r1 s1 = Ok (r, s') -> r <> Yielded).
  { intros r1 s1 He. destruct r1; cbn [call_end] in He; [|by injection He as <- <-..]. trun He. trun He. trun He as b Hb. destruct b; [|by injection He as <- <-].
    trun He. by injection He as <- <-. }
  assert (Hkeep : abs pl = AtUser -> K (<[i := AtUser]> w) (tr_ps s) (tr_ps s)).
  { intros E0. rewrite E0 in Hr. rewrite list_insert_id by apply Hr. by apply K_kernel. }
  destruct pl as [|num|num| |n t0|n t0|[num|]]; cbn [resume abs] in *; [done| | | |by destruct (Ht n t0)| | |].
  - apply bind_Ok_inv in H as (r1 & s1 & R & H). split_and!; [by eapply Hend| |done].
    eapply call_end_ok; [|exact H]. eapply file_call_ok; [|exact R]. by apply Hkeep.
  - trun H as u R0. destruct u. pose proof (K_awake _ _ _ _ _ Hok Hr R0) as HK. apply bind_Ok_inv in H as (r1 & s1 & R & H).
    split_and!; [by eapply Hend| |done]. eapply call_end_ok; [|exact H].
    eapply (file_call_ok _ _ (put_ps q s)) in R; [|exact HK]. by destruct r1.
  - trun H as v R0. pose proof (K_wait_again _ _ _ _ _ _ _ Hok Hr R0) as HK. split_and!; [by eapply Hend| |done].
    eapply call_end_ok; [|exact H]. destruct v as [v|]; [done|]. split_and!; [done|done| |done]. cbn [abs].
    rewrite list_insert_insert_eq, list_insert_id by apply Hr. done.
  - apply bind_Ok_inv in H as (r1 & s1 & R & H). split; [by eapply Hend|]. unfold sleep_again in R. trun R as u R0. destruct u.
    pose proof (K_awake _ _ _ _ _ Hok Hr R0) as HK. trun R as u L.
    destruct (sleep_test_ok _ _ s (put_lock true (put_ps q s)) n t0 r1 s1 HK L eq_refl eq_refl R) as [Hc Hd]. split; [by eapply call_end_ok|].
    intros n' t' [= <- <-] ->. destruct r1 as [v|x|]; cbn [call_end] in H; [|done|done].
    destruct (Hd v eq_refl) as [Ep [(p & Hp & Hk)|?]]; [|done]. exfalso. trun H as u' R1. destruct u'.
    apply set_eax_inv in R1 as (Et & _ & _ & Ec & _). trun H as j Hj. assert (j = i) as ->.
    { pose proof (K_cpu _ _ _ _ _ HK) as Hc'. rewrite Ec, Ep in Hj. cbn in Hj. congruence. }
    trun H as b Hb. assert (p0 = p) as -> by congruence. apply Z.eqb_neq in Hk. rewrite Hk in Hb. cbn in Hb. subst b. trun H. done.
  - destruct (trap_end_ok _ _ _ _ _ (Hkeep eq_refl) H) as [(-> & -> & _)|(-> & HO & Hd & Hcl)].
    + split_and!; [done| |done]. split_and!; [by apply Hkeep|by intros Hx; destruct (Hx num)|done].
    + split_and!; [done| |done]. split_and!; [done|done|by left].
  - destruct (trap_end_ok _ _ _ _ _ (Hkeep eq_refl) H) as [(-> & -> & Hs)|(-> & HO & Hd & Hcl)].
    + split_and!; [done| |done]. split_and!; [by apply Hkeep|intros _; by apply Hs|done].
    + split_and!; [done| |done]. split_and!; [done|done|by left].
Qed.

(** The process goes to sleep until the next tick. *)
Lemma enter_step w n t0 s s' r : table_ok (tr_ps s, w) -> runs (tr_ps s) w c i AtUser -> resume kend c (TickEnter n t0) s = Ok (r, s') ->
  r = Suspended (TickSleep n t0) /\ O (<[i := InSleep]> w) (tr_ps s) (tr_ps s') /\ tr_lock s' = false /\ tr_ticks s' = tr_ticks s /\
  exists p, ps_proc (tr_ps s') !! i = Some p /\ p_chan p = ChanAddr TICKS.
Proof.
  intros Hok Hr H. cbn [resume] in H. apply bind_Ok_inv in H as (r1 & s1 & R & H). unfold sleep_enter in R.
  trun R as u R0. destruct u. trun R. injection R as <- <-. injection H as <- <-.
  destruct (K_sleep _ _ _ _ _ _ _ (K_kernel _ _ Hok Hr) R0) as [HO Hp]. by split_and!.
Qed.
End Own.

(** * Steps of the machine *)

Abbreviation tstep := (tstep kend data trapret forkret (E := E) (X := X)).
Abbreviation trap := (trap kend data trapret forkret (E := E) (X := X)).

(** An interrupt of the scheduler. *)
Lemma idle_step c i tf s s' r : idle s c -> from_kernel s tf -> trap c tf s = Ok (r, s') ->
  exists chans e, tr_ps s' = put_env e (put_procs (wakes chans (ps_proc (tr_ps s))) (tr_ps s)) /\ (same_clock s s' \/ ticked i s s').
Proof.
  intros Hc [_ Hno] H. unfold idle in Hc. unfold Trap.trap in H. trun H. trun H. rewrite (proj2 (Z.eqb_neq _ _) Hno) in H.
  apply bind_Ok_inv in H as (u & s1 & R & H). apply dispatch_inv in R as [(chans & e & Ep & Hcl)|(j & Hj & _)]; [|congruence].
  assert (Hc1 : ps_cpu (tr_ps s1) !! c = Some None) by (by rewrite Ep).
  assert (Hm : ps (myproc c) s1 = Ok (None, s1)) by (unfold ps, zoom, myproc, gets; rewrite Hc1, put_ps_id; done).
  assert (Hx : forall cs, exit_killed c cs s1 = Ok (false, s1)) by (intros cs; unfold exit_killed; by mstep Hm).
  assert (Hr : running_here c s1 = Ok (false, s1)) by (unfold running_here; by mstep Hm).
  assert (s' = s1) as ->.
  { rewrite (bind_Ok _ _ _ _ _ (Hx _)) in H. cbv iota in H. rewrite (bind_Ok _ _ _ _ _ Hr) in H. cbn [andb] in H. unfold trap_end in H.
    rewrite (bind_Ok _ _ _ _ _ (Hx _)) in H. by injection H as _ <-. }
  exists chans, e. split; [done|]. destruct Hcl as [|(_ & L & L' & Ht)]; [by left|right]. split_and!; [done|done|]. eauto.
Qed.

(** A step of entry [i], which was at [pl] and is at [x] now. *)
Record stepped (i : nat) (pl x : where_) (s s' : ts) : Prop := {
  sd_effect : effect i (tr_ps s) (tr_ps s');
  sd_own : forall p', ps_proc (tr_ps s') !! i = Some p' -> exists p, ps_proc (tr_ps s) !! i = Some p /\ alive p;
  sd_back : x = User -> forall p', ps_proc (tr_ps s') !! i = Some p' -> alive p' -> p_killed p' = 0;
  sd_clock : clock_at x s s' \/ (ticked i s s' /\ clock_at x s s) \/
    exists n t0 p, pl = TickEnter n t0 /\ x = TickSleep n t0 /\ tr_lock s' = false /\ tr_ticks s' = tr_ticks s /\
      ps_proc (tr_ps s') !! i = Some p /\ p_chan p = ChanAddr TICKS
}.

(** Steps that no process takes. *)
Lemma stepped_none (s s' : ts) w : table_ok (tr_ps s', w) -> effect (length w) (tr_ps s) (tr_ps s') ->
  (same_clock s s' \/ ticked (length w) s s') -> stepped (length w) User User s s'.
Proof.
  intros Hok He Hcl. assert (Hno : ps_proc (tr_ps s') !! length w = None).
  { apply lookup_ge_None. pose proof (sl_len _ _ (tb_sleeping _ Hok)) as Hl. cbn in Hl. lia. }
  constructor; [done|rewrite Hno; done|rewrite Hno; done|]. destruct Hcl as [[? ?]|?]; [by left|by right; left].
Qed.

(** Where a process may be after a trap with the result [r]. *)
Definition place_after (user : Prop) (r : tres) (x : where_) : Prop :=
  match r with
  | Suspended x' => x = x'
  | Gone => x = User
  | Yielded => exists o, x = Preempted o
  | Back => x = User /\ user \/ exists num, x = InCall num
  end.

Lemma stepped_trap c i pl x (user : Prop) w s s' r p : ps_proc (tr_ps s) !! i = Some p -> alive p -> w !! i = Some AtUser ->
  trap_ok c i user w s r s' -> place_after user r x ->
  stepped i pl x s s' /\ table_ok (tr_ps s', <[i := abs x]> w).
Proof.
  intros Hp Ha Hw Ht Hx.
  assert (Hcl : forall (Hx' : forall s1 s2 : ts, same_clock s1 s2 -> clock_at x s1 s2), same_clock s s' \/ ticked i s s' ->
    clock_at x s s' \/ (ticked i s s' /\ clock_at x s s)) by (intros Hx' [?|?]; [left|right]; auto; split; [done|by apply Hx']).
  destruct r as [| |x'|]; cbn [trap_ok place_after] in *.
  - destruct Ht as (HK & Hs & Hc). destruct Hx as [[-> Hu]|[num ->]]; cbn [abs]; rewrite list_insert_id by done; (split; [|apply HK]).
    + constructor; [apply HK|eauto| |by left]. intros _ p' Hp' _. by apply (Hs Hu).
    + constructor; [apply HK|eauto|done|by left].
  - destruct Hx as [o ->]. destruct Ht as [HO Hc]. cbn [abs]. rewrite list_insert_id by done. split; [|apply HO].
    constructor; [apply HO|eauto|done|]. destruct (Hcl (fun _ _ H => H) Hc); auto.
  - subst x'. destruct Ht as (Hu & _ & HO & Hc). split; [|apply HO]. constructor; [apply HO|eauto|done|by left].
  - subst x. destruct Ht as (HO & (q & Hq & Hz) & Hc). cbn [abs]. rewrite list_insert_id by done. split; [|apply HO].
    constructor; [apply HO|eauto| |destruct (Hcl (fun _ _ H => H) Hc); auto]. intros _ p' Hp' (_ & Ha' & _). congruence.
Qed.

(** * Invariants *)

(** Who sleeps in [sys_sleep] has not slept long enough, and who is about to sleep there holds
    the lock of the clock. *)
Record tick_ok (s : ts) (w : list where_) : Prop := {
  tk_sleep : forall i p n t0, w !! i = Some (TickSleep n t0) -> ps_proc (tr_ps s) !! i = Some p -> p_state p = SLEEPING ->
    p_chan p = ChanAddr TICKS /\ u32 (tr_ticks s - t0) < u32 n;
  tk_enter : forall i n t0, w !! i = Some (TickEnter n t0) -> tr_lock s = true /\ u32 (tr_ticks s - t0) < u32 n /\
    forall j n' t', w !! j = Some (TickEnter n' t') -> j = i
}.

Lemma stepped_tick i pl x s s' w : tick_ok s w -> w !! i = Some pl \/ ((length w <= i)%nat /\ pl = User) -> stepped i pl x s s' -> tick_ok s' (<[i := x]> w).
Proof.
  intros [Hs He] Hpl [Hef _ _ Hcl].
  assert (Hin : forall j y, <[i := x]> w !! j = Some y -> j = i /\ y = x /\ w !! i = Some pl \/ j <> i /\ w !! j = Some y).
  { intros j y Hj. apply list_lookup_insert_Some in Hj as [(-> & <- & Hlt)|[? ?]]; [|right; done]. left.
    destruct Hpl as [?|[? _]]; [done|lia]. }
  constructor.
  - intros j p n t0 Hj Hp Hz. destruct (Hin _ _ Hj) as [(-> & <- & Hw)|[Hne Hw]].
    + destruct Hcl as [[_ []]|[[_ [_ []]]|(n' & t' & q & -> & [= <- <-] & _ & Et & Hq & Hch)]].
      assert (q = p) as -> by congruence. split; [done|]. rewrite Et. by destruct (He i n t0 Hw) as (_ & ? & _).
    + destruct (ef_other _ _ _ Hef j p Hne Hp) as [(q & Hq & G)|[_ ?]]; [by unfold alive; rewrite Hz| |done].
      destruct (ge_sleep _ _ G Hz) as [Hqs Ech]. destruct (Hs j q n t0 Hw Hq Hqs) as [Hch Hlt]. split; [congruence|].
      destruct Hcl as [[-> _]|[[(_ & _ & Ht) _]|(? & ? & ? & _ & _ & _ & -> & _)]]; [done| |done].
      exfalso. apply (Ht j p Hne Hp Hz). congruence.
  - intros j n t0 Hj. destruct (Hin _ _ Hj) as [(-> & <- & Hw)|[Hne Hw]].
    + destruct Hcl as [(Et & L & L' & Hlt)|[[(L & L' & _) (_ & _ & L'' & _)]|(? & ? & ? & _ & ? & _)]]; [|congruence|done].
      split_and!; [done|by rewrite Et|]. intros k n' t' Hk. destruct (Hin _ _ Hk) as [(-> & _)|[_ Hk']]; [done|].
      destruct (He _ _ _ Hk') as [? _]. congruence.
    + destruct (He j n t0 Hw) as (L & Hlt & Hu).
      assert (tr_lock s' = true /\ tr_ticks s' = tr_ticks s /\ forall n' t', x = TickEnter n' t' -> i = j) as (L' & -> & Hx).
      { destruct Hcl as [[Et Hc]|[[(L0 & _) _]|(? & ? & ? & -> & _ & _)]]; [|congruence|].
        - destruct x; try (split_and!; [congruence|done|done]); [destruct Hc as (? & _); congruence|done].
        - destruct Hpl as [Hpl|[_ ?]]; [by destruct Hne; symmetry; eapply Hu|done]. }
      split_and!; [done|done|]. intros k n' t' Hk. destruct (Hin _ _ Hk) as [(-> & <- & _)|[_ Hk']]; [by eapply Hx|by eapply Hu].
Qed.

Record trap_inv (c : tconf (E := E) (X := X)) : Prop := {
  ti_table : table_ok (tr_ps c.1, abs <$> c.2);
  ti_tick : tick_ok c.1 c.2
}.

Lemma here_runs (s : ts) w c i pl : here s w c i pl -> runs (tr_ps s) (abs <$> w) c i (abs pl).
Proof. intros [H1 H2]. split; [done|]. by rewrite list_lookup_fmap, H2. Qed.

Lemma env_table (s : st) e w : table_ok (s, w) -> table_ok (put_env e s, w).
Proof. intros [H1 H2 H3 H4]. by constructor. Qed.

Lemma stepped_push i pl x tf frame s s' : stepped i pl x (push_regs tf frame s) s' -> stepped i pl x s s'.
Proof. intros [[A1 A2 A3] H2 H3 H4]. constructor; [by constructor|exact H2|exact H3|exact H4]. Qed.

(** A trap from user mode or from a file system call. *)
Lemma stepped_from c i tf frame pl s s' r w : table_ok (tr_ps s, abs <$> w) -> here s w c i pl -> abs pl = AtUser ->
  trap c tf (push_regs tf frame s) = Ok (r, s') ->
  place_after (frame_no (push_regs tf frame s) tf = T_SYSCALL \/ Z.land (frame_cs (push_regs tf frame s) tf) 3 = DPL_USER) r (trapped pl r) ->
  stepped i pl (trapped pl r) s s' /\ table_ok (tr_ps s', abs <$> <[i := trapped pl r]> w).
Proof.
  intros Hok Hh Hpl R Hx. pose proof (here_runs _ _ _ _ _ Hh) as Hr. rewrite Hpl in Hr.
  destruct (runs_proc _ _ _ _ _ Hok Hr) as (p & Hp & Hs).
  assert (HK : K c i (abs <$> w) (tr_ps (push_regs tf frame s)) (tr_ps (push_regs tf frame s))).
  { apply K_kernel; [by apply env_table|exact Hr]. }
  pose proof (trap_step c i _ _ _ _ _ HK R) as Ht. rewrite list_fmap_insert.
  assert (Ha : alive p) by (unfold alive; by rewrite Hs).
  destruct (stepped_trap c i pl (trapped pl r) _ (abs <$> w) (push_regs tf frame s) s' r p Hp Ha (proj2 Hr) Ht Hx) as [Hst Hok'].
  split; [by eapply stepped_push|done].
Qed.

(** A process that goes on in the kernel. *)
Lemma stepped_resume c i pl s s' r w : table_ok (tr_ps s, abs <$> w) -> here s w c i pl -> pl <> User -> resume kend c pl s = Ok (r, s') ->
  stepped i pl (resumed pl r) s s' /\ table_ok (tr_ps s', abs <$> <[i := resumed pl r]> w).
Proof.
  intros Hok Hh Hu R. pose proof (here_runs _ _ _ _ _ Hh) as Hr. destruct (runs_proc _ _ _ _ _ Hok Hr) as (p & Hp & Hs).
  assert (Ha : alive p) by (unfold alive; by rewrite Hs). pose proof (place_lt _ _ _ _ _ Hok Hr) as Hlt.
  assert (Hd : (exists n t0, pl = TickEnter n t0) \/ forall n t0, pl <> TickEnter n t0) by (destruct pl; naive_solver).
  destruct Hd as [(n & t0 & ->)|Hd].
  - destruct (enter_step c i _ _ _ _ _ _ Hok Hr R) as (-> & HO & L & Et & q & Hq & Hch). cbn [resumed]. rewrite list_fmap_insert.
    split; [|apply HO]. constructor; [apply HO|eauto|done|]. right. right. by exists n, t0, q.
  - destruct (resume_step c i _ _ _ _ _ Hok Hr Hu Hd R) as (Hy & Ht & _).
    destruct (stepped_trap c i pl (resumed pl r) _ _ _ _ _ p Hp Ha (list_lookup_insert_eq _ _ AtUser Hlt) Ht) as [Hst Hok'].
    { destruct r as [| |x|]; [|done|done|done]. cbn. destruct pl as [| | | | | |[num|]]; eauto; left; (split; [done|]); intros ?; done. }
    split; [done|]. by rewrite list_insert_insert_eq, <- list_fmap_insert in Hok'.
Qed.

(** Every step is one of an entry that was alive, or of none. *)
Lemma tstep_stepped (s s' : ts) w w' : trap_inv (s, w) -> tstep (s, w) (s', w') ->
  exists i pl x, w' = <[i := x]> w /\ (w !! i = Some pl \/ ((length w <= i)%nat /\ pl = User)) /\ stepped i pl x s s' /\
    table_ok (tr_ps s', abs <$> w').
Proof.
  intros [Hok _] Hst. cbn [fst snd] in Hok.
  assert (Hnone : table_ok (tr_ps s', abs <$> w) -> effect (length w) (tr_ps s) (tr_ps s') -> (same_clock s s' \/ ticked (length w) s s') ->
    w' = w -> exists i pl x, w' = <[i := x]> w /\ (w !! i = Some pl \/ ((length w <= i)%nat /\ pl = User)) /\ stepped i pl x s s' /\
    table_ok (tr_ps s', abs <$> w')).
  { intros H1 H2 H3 ->. exists (length w), User, User. split; [by rewrite list_insert_ge|]. split; [by right|]. split; [|done].
    pose proof (stepped_none s s' (abs <$> w) H1) as Hn. rewrite length_fmap in Hn. by apply Hn. }
  inversion Hst as [c s0 p w0 Hc R|c tf frame s0 s1 s2 r w0 Hc -> Hf R|c i tf frame s0 s1 s2 r w0 Hh -> Hf R
    |c i num tf frame s0 s1 s2 r w0 Hh -> Hf R|c i pl s0 s2 r w0 Hh Hne R|e s0 w0]; subst.
  - apply Hnone; [by eapply sched_ok|by eapply effect_sched|by left|done].
  - destruct (idle_step c (length w') tf (push_regs tf frame s) s' r Hc Hf R) as (chans & e & Ep & Hcl). apply Hnone; [..|done].
    + rewrite Ep. apply wakes_ok, env_table, Hok.
    + rewrite Ep. eapply effect_trans; [|apply effect_wakes]. by apply effect_same.
    + exact Hcl.
  - exists i, User, (trapped User r). split; [done|]. split; [left; apply Hh|].
    eapply stepped_from; [done|done|done|exact R|]. destruct r; cbn; eauto.
  - exists i, (InCall num), (trapped (InCall num) r). split; [done|]. split; [left; apply Hh|].
    eapply stepped_from; [done|done|done|exact R|]. destruct r; cbn; eauto.
  - exists i, pl, (resumed pl r). split; [done|]. split; [left; apply Hh|]. by eapply stepped_resume.
  - apply Hnone; [by apply env_table|by apply effect_same|by left|done].
Qed.

Lemma tstep_inv c c' : trap_inv c -> tstep c c' -> trap_inv c'.
Proof.
  destruct c as [s w], c' as [s' w']. intros Hi Hst. destruct (tstep_stepped s s' w w' Hi Hst) as (i & pl & x & -> & Hpl & Hd & Hok).
  constructor; [exact Hok|]. eapply stepped_tick; [apply Hi|exact Hpl|exact Hd].
Qed.

(** * Killed processes *)

(** The process [pid] in entry [j], once killed in the kernel. *)
Definition doomed (j : nat) (pid : Z) (c : tconf (E := E) (X := X)) : Prop :=
  pid < ps_nextpid (tr_ps c.1) /\
  forall p, ps_proc (tr_ps c.1) !! j = Some p -> p_pid p = pid -> alive p -> p_killed p <> 0 /\ c.2 !! j <> Some User.

Lemma doomed_step j pid c c' : trap_inv c -> tstep c c' -> doomed j pid c -> doomed j pid c'.
Proof.
  destruct c as [s w], c' as [s' w']. intros Hi Hst [Hn Hd]. destruct (tstep_stepped s s' w w' Hi Hst) as (i & pl & x & -> & Hpl & Hs & _).
  cbn [fst snd] in *. destruct Hs as [He Hown Hback _]. split; cbn [fst snd]; [pose proof (ef_next _ _ _ He); lia|].
  intros p' Hp' Epid Ha. destruct (decide (j = i)) as [->|Hne].
  - destruct (Hown p' Hp') as (p & Hp & Hap). destruct (ef_own _ _ _ He p Hp) as (q & Hq & Eq & Hk). assert (q = p') as -> by congruence.
    destruct (Hd p Hp ltac:(congruence) Hap) as [Hkp Hu]. split; [auto|]. destruct Hpl as [Hpl|[Hge _]].
    + rewrite list_lookup_insert_eq by (by eapply lookup_lt_Some). intros [= ->]. by apply (Hk Hkp), Hback.
    + by rewrite list_insert_ge.
  - rewrite list_lookup_insert_ne by done. destruct (ef_other _ _ _ He j p' Hne Hp' Ha) as [(p & Hp & G)|[Hf _]]; [|lia].
    destruct (Hd p Hp ltac:(rewrite <- Epid; symmetry; apply G) (ge_alive _ _ G Ha)) as [Hk Hu]. split; [by apply (ge_killed _ _ G)|done].
Qed.

Lemma doomed_run j pid c c' : trap_inv c -> rtc tstep c c' -> doomed j pid c -> doomed j pid c'.
Proof. intros Hi Hr. induction Hr as [|c c1 c2 Hs Hr IH]; [done|]. intros Hd. apply IH; [by eapply tstep_inv|by eapply doomed_step]. Qed.

(** A killed process that enters the kernel from user mode ends there; a system call is not
    begun. *)
Lemma killed_trap c i w tf s s' r p : K c i w (tr_ps s) (tr_ps s) -> ps_proc (tr_ps s) !! i = Some p -> p_killed p <> 0 ->
  from_user s tf -> trap c tf s = Ok (r, s') ->
  r = Gone /\ dead i (tr_ps s') /\ (frame_no s tf = T_SYSCALL -> exit c (tr_ps s) = Ok (tt, tr_ps s')).
Proof.
  intros HK Hp Hk Hf H. pose proof (K_cpu _ _ _ _ _ HK) as Hc. unfold Trap.trap in H. trun H. trun H.
  destruct (frame_no s tf =? T_SYSCALL) eqn:Eno.
  - unfold trap_syscall in H. trun H as j Hj. assert (j = i) as -> by congruence. trun H as b Hb. assert (p0 = p) as -> by congruence.
    rewrite (proj2 (Z.eqb_neq _ _) Hk) in Hb. cbn in Hb. subst b. trun H as u R. destruct u. injection H as <- <-.
    by destruct (K_exit _ _ _ _ _ _ HK R).
  - apply Z.eqb_neq in Eno. apply bind_Ok_inv in H as (u & s1 & R1 & H). destruct (dispatch_ok _ _ _ _ _ _ _ _ HK R1) as [HK1 _].
    destruct (ef_own _ _ _ (k_effect _ _ _ _ _ HK1) p Hp) as (p1 & Hp1 & _ & Hk1). specialize (Hk1 Hk).
    apply bind_Ok_inv in H as (x & s2 & R2 & H). pose proof (exit_killed_ok _ _ _ _ _ _ _ (K_start _ _ _ _ _ HK1) R2) as Hx. destruct x.
    + injection H as <- <-. destruct Hx as (_ & Hd & _). by split_and!.
    + destruct Hx as [_ Hx]. by destruct (Hk1 (Hx Hf p1 Hp1)).
Qed.

End Steps.

(** * A machine on which a process is started *)

#[local] Instance no_handlers : Handlers kstate unit := {| file_part _ _ _ := ret (PartDone 0); device _ := ret tt |}.

#[local] Instance no_handlers_laws : HandlersLaws kstate unit.
Proof.
  constructor.
  - intros irq s s' [= <-]. exists [], (ps_env s). by destruct s.
  - intros num first c i s s' r [= <- <-] _. exists [], (ps_env s), id. split; [|done]. destruct s. unfold put_env, put_procs. cbn.
    f_equal. apply list_eq. intros j. destruct (decide (j = i)) as [->|]; [rewrite list_lookup_alter_eq; by destruct (_ !! i)|].
    by rewrite list_lookup_alter_ne.
Qed.


(** * The calls of sysfile.c as parts

    The class is implemented by the calls of Sysfile and by exec, on the memory of the calling
    process through its page table.  A call here runs in one part; one that has to wait does
    not step. *)

From S2P Require Import Block Fs Pipe File Sysfile SysProcs Console ProcFiles.

Section Files.
  Context {W : Type} `{BlockIO W}.
  Context (kend data : Z).
  Context (devsw_read : Z -> option (nat -> Z -> M (fsys W) (Z * bytes))).
  Context (devsw_write : Z -> option (nat -> bytes -> Z -> M (fsys W) Z)).
  Context (intr : Z -> M (ksys W) unit).
  Context (cr3 esp0 : Z) (cons : console).
Abbreviation files := (list (option nat) * nat)%type.

#[local] Instance calls_env : ProcEnv (ksys W) files := files_env kend data devsw_read devsw_write cr3 esp0 cons.

(** [exec] with the strings in the memory of the caller; it sets [pgdir], [sz] and [name]. *)
Definition exec_call (p : proc files) : M (ksys W) (Z * proc files) :=
  do! enter_call p in
  sys_exec (-1, p) (fun path argv => run_exec kend data devsw_read cr3 esp0 cons path argv p).

#[export] Instance file_handlers : Handlers (ksys W) files := {|
  file_part num first c :=
    if num =? SYS_exec then
      let! i := curproc c in
      let! p := getp i in
      let! r := env (exec_call p) in
      do! upd i (fun q => set_name (p_name r.2) (set_space (p_pgdir r.2) (p_sz r.2) q)) in
      ret (PartDone r.1)
    else
      let! r := call_proc num c in
      ret (PartDone r);
  device irq := env (intr irq)
|}.

#[export] Instance file_handlers_laws : HandlersLaws (ksys W) files.
Proof.
  constructor.
  - intros irq s s' R. cbn in R. apply env_inv in R as (e & _ & ->). exists [], e. by destruct s.
  - intros num first c i s s' r R Hc. cbn in R. destruct (num =? SYS_exec).
    + prun R as j Hj. assert (j = i) as -> by congruence. prun R as p Hp. prun R as x Rx. prun R.
      injection R as <- <-. exists [], e. eexists. split; [reflexivity|]. by intros q.
    + apply bind_Ok_inv in R as (v & s1 & R & [= <- <-]). unfold call_proc in R.
      prun R as j Hj. assert (j = i) as -> by congruence. prun R as p Hp. prun R as x Rx. prun R.
      injection R as <- <-. exists [], e, (set_files x.2). split; [done|]. by intros q.
Qed.
End Files.
