(* ===== verification/Seg.v ===== *)
(** Segment and gate descriptors (mmu.h), [seginit] of vm.c and [tvinit] of trap.c: which
    segments the kernel and user programs get, and how user programs may enter the kernel. *)

From S2P Require Import Prelude Mem Strings Bio Kalloc Vm VmSpace VmUser Proc Trap.
Local Open Scope Z_scope.

(** * mmu.h *)

Definition SEG_KCODE : Z := 1.
Definition SEG_KDATA : Z := 2.
Definition SEG_TSS : Z := 5.
Definition NSEGS : nat := 6.
Definition STA_X : Z := 8.
Definition STA_W : Z := 2.
Definition STA_R : Z := 2.
Definition STS_T32A : Z := 9.
Definition STS_IG32 : Z := 14.
Definition STS_TG32 : Z := 15.

Record segdesc := mkseg {
  lim_15_0 : Z;
  base_15_0 : Z;
  base_23_16 : Z;
  sd_type : Z;
  sd_s : Z;
  sd_dpl : Z;
  sd_p : Z;
  lim_19_16 : Z;
  sd_avl : Z;
  sd_rsv1 : Z;
  sd_db : Z;
  sd_g : Z;
  base_31_24 : Z
}.

Definition SEG (type base lim dpl : Z) : segdesc :=
  mkseg (Z.land (Z.shiftr lim 12) 65535) (Z.land (u32 base) 65535) (Z.land (Z.shiftr (u32 base) 16) 255) type 1 dpl 1
    (Z.shiftr (u32 lim) 28) 0 0 1 1 (Z.shiftr (u32 base) 24).

Definition SEG16 (type base lim dpl : Z) : segdesc :=
  mkseg (Z.land lim 65535) (Z.land (u32 base) 65535) (Z.land (Z.shiftr (u32 base) 16) 255) type 1 dpl 1
    (Z.shiftr (u32 lim) 16) 0 0 1 0 (Z.shiftr (u32 base) 24).

Record gatedesc := mkgate {
  off_15_0 : Z;
  gd_cs : Z;
  gd_args : Z;
  gd_rsv1 : Z;
  gd_type : Z;
  gd_s : Z;
  gd_dpl : Z;
  gd_p : Z;
  off_31_16 : Z
}.

Definition SETGATE (istrap : bool) (sel off d : Z) : gatedesc :=
  mkgate (Z.land (u32 off) 65535) sel 0 0 (if istrap then STS_TG32 else STS_IG32) 0 d 1 (Z.shiftr (u32 off) 16).

(** * seginit, tvinit *)

(** [c->gdt] after [seginit]. *)
Definition seginit (gdt : list segdesc) : list segdesc :=
  let gdt := <[Z.to_nat SEG_KCODE := SEG (Z.lor STA_X STA_R) 0 4294967295 0]> gdt in
  let gdt := <[Z.to_nat SEG_KDATA := SEG STA_W 0 4294967295 0]> gdt in
  let gdt := <[Z.to_nat SEG_UCODE := SEG (Z.lor STA_X STA_R) 0 4294967295 DPL_USER]> gdt in
  <[Z.to_nat SEG_UDATA := SEG STA_W 0 4294967295 DPL_USER]> gdt.

(** The descriptor of the task state at [ts], of 104 bytes, that [switchuvm] installs. *)
Definition SIZEOF_TASKSTATE : Z := 104.
Definition tss_desc (ts : Z) : segdesc :=
  let d := SEG16 STS_T32A ts (SIZEOF_TASKSTATE - 1) 0 in
  mkseg (lim_15_0 d) (base_15_0 d) (base_23_16 d) (sd_type d) 0 (sd_dpl d) (sd_p d) (lim_19_16 d) (sd_avl d) (sd_rsv1 d) (sd_db d) (sd_g d) (base_31_24 d).

(** The table [idt]; [vectors] are the entry points in vectors.S. *)
Definition tvinit (vectors : list Z) : list gatedesc :=
  let idt := (fun i => SETGATE false (Z.shiftl SEG_KCODE 3) (vectors !!! i) 0) <$> seq 0 256 in
  <[Z.to_nat T_SYSCALL := SETGATE true (Z.shiftl SEG_KCODE 3) (vectors !!! Z.to_nat T_SYSCALL) DPL_USER]> idt.

(** * What the processor makes of them *)

Definition seg_base (d : segdesc) : Z := base_15_0 d + base_23_16 d * 2 ^ 16 + base_31_24 d * 2 ^ 24.
Definition seg_last (d : segdesc) : Z :=
  let l := lim_15_0 d + lim_19_16 d * 2 ^ 16 in
  if sd_g d =? 1 then l * 4096 + 4095 else l.
Definition gate_offset (g : gatedesc) : Z := off_15_0 g + off_31_16 g * 2 ^ 16.

(** An [int n] of code at privilege level [cpl]. *)
Definition may_raise (cpl : Z) (g : gatedesc) : bool := (gd_p g =? 1) && (cpl <=? gd_dpl g).

(** The interrupt gate disables interrupts, the trap gate does not. *)
Definition masks (g : gatedesc) : bool := gd_type g =? STS_IG32.

(** A segment of the whole address space, for code or for data. *)
Definition flat (code : bool) (dpl : Z) (d : segdesc) : Prop :=
  seg_base d = 0 /\ seg_last d = 4294967295 /\ sd_p d = 1 /\ sd_s d = 1 /\ sd_dpl d = dpl /\ sd_db d = 1 /\
  sd_type d = if code then Z.lor STA_X STA_R else STA_W.

Lemma split16 x : Z.land (u32 x) 65535 + Z.shiftr (u32 x) 16 * 2 ^ 16 = u32 x.
Proof.
  change 65535 with (Z.ones 16). rewrite Z.land_ones, Z.shiftr_div_pow2 by lia. pose proof (Z.div_mod (u32 x) (2 ^ 16)). lia.
Qed.

(** Kernel and user programs see the same flat address space; the kernel's segments are not for
    user programs. *)
Theorem segments_flat gdt : length gdt = NSEGS ->
  exists kc kd uc ud, seginit gdt !! Z.to_nat SEG_KCODE = Some kc /\ seginit gdt !! Z.to_nat SEG_KDATA = Some kd /\
    seginit gdt !! Z.to_nat SEG_UCODE = Some uc /\ seginit gdt !! Z.to_nat SEG_UDATA = Some ud /\
    flat true 0 kc /\ flat false 0 kd /\ flat true DPL_USER uc /\ flat false DPL_USER ud.
Proof.
  intros Hl. do 6 (destruct gdt as [|? gdt]; [done|]). eexists _, _, _, _. split_and!; try reflexivity; repeat split; vm_compute; reflexivity.
Qed.

(** The task state segment lies where it was put, with its size. *)
Lemma tss_place ts : 0 <= ts < 4294967296 -> seg_base (tss_desc ts) = ts /\ seg_last (tss_desc ts) = SIZEOF_TASKSTATE - 1 /\ sd_s (tss_desc ts) = 0.
Proof.
  intros Hts. split; [|by split]. unfold seg_base, tss_desc, SEG16. cbn [base_15_0 base_23_16 base_31_24]. rewrite u32_small by lia.
  change 65535 with (Z.ones 16). change 255 with (Z.ones 8). rewrite !Z.land_ones, !Z.shiftr_div_pow2 by lia.
  change (2 ^ 16) with 65536. change (2 ^ 24) with 16777216. change (2 ^ 8) with 256. clear - Hts. divmod.
Qed.

(** Every trap enters the kernel's code segment at its vector.  A user program can raise only
    the system call by itself, and only that one leaves interrupts enabled. *)
Theorem gates_protect vectors n : length vectors = 256%nat -> Forall (fun v => 0 <= v < 4294967296) vectors -> (n < 256)%nat ->
  exists g v, tvinit vectors !! n = Some g /\ vectors !! n = Some v /\ gd_p g = 1 /\ gd_cs g = Z.shiftl SEG_KCODE 3 /\ gate_offset g = v /\
    may_raise DPL_USER g = bool_decide (Z.of_nat n = T_SYSCALL) /\ masks g = bool_decide (Z.of_nat n <> T_SYSCALL).
Proof.
  intros Hl Hv Hn. destruct (lookup_lt_is_Some_2 vectors n ltac:(lia)) as [v Ev].
  assert (Hr : 0 <= v < 4294967296) by (by eapply Forall_lookup_1 in Hv).
  assert (Hoff : forall b d, gate_offset (SETGATE b (Z.shiftl SEG_KCODE 3) v d) = v).
  { intros b d. unfold gate_offset. cbn [off_15_0 off_31_16 SETGATE]. rewrite split16. by apply u32_small. }
  pose proof (list_lookup_total_correct _ _ _ Ev) as Et. unfold tvinit. destruct (decide (n = Z.to_nat T_SYSCALL)) as [->|Hne].
  - eexists _, v. rewrite list_lookup_insert_eq by (rewrite length_fmap, length_seq; vm_compute; lia). rewrite Et.
    split_and!; done.
  - eexists _, v. rewrite list_lookup_insert_ne by done. rewrite list_lookup_fmap, lookup_seq_lt by done. cbn [fmap option_fmap option_map].
    change (0 + n)%nat with n. rewrite Et. assert (Hz : Z.of_nat n <> T_SYSCALL) by (intros E; apply Hne; rewrite <- E; lia).
    rewrite bool_decide_false, bool_decide_true by done. split_and!; done.
Qed.
