(* ===== verification/Spin.v ===== *)
(** Spin locks (spinlock.c) on several CPUs, at the grain of single stores: mutual
    exclusion, and interrupts off exactly while locks are held. *)

From S2P Require Import Prelude.
Local Open Scope Z_scope.

(** Per-CPU interrupt state: [ncli] and [intena] of struct cpu, the flag IF of the
    processor. *)
Record cpu := mkcpu {
  ncli : Z;
  intena : bool;
  iflag : bool
}.

(** [lk->locked] and [lk->cpu]. *)
Record spinlock := mkspin {
  locked : bool;
  lcpu : option nat
}.

Record sstate := mkss {
  s_cpu : nat -> cpu;
  s_lock : nat -> spinlock
}.

Definition fupd {A} (f : nat -> A) (k : nat) (v : A) : nat -> A := fun x => if decide (x = k) then v else f x.

Lemma fupd_eq {A} (f : nat -> A) k v : fupd f k v k = v.
Proof. unfold fupd. by rewrite decide_True. Qed.

Lemma fupd_ne {A} (f : nat -> A) k v x : x <> k -> fupd f k v x = f x.
Proof. intros Hx. unfold fupd. by rewrite decide_False. Qed.

Definition set_cpu (c : nat) (v : cpu) (s : sstate) : sstate := mkss (fupd (s_cpu s) c v) (s_lock s).
Definition set_lock (l : nat) (v : spinlock) (s : sstate) : sstate := mkss (s_cpu s) (fupd (s_lock s) l v).

Definition initlock (l : nat) : M sstate unit := modify (set_lock l (mkspin false None)).

Definition pushcli (c : nat) : M sstate unit :=
  let! p := gets (fun s => s_cpu s c) in
  let eflags := iflag p in
  let i := if ncli p =? 0 then eflags else intena p in
  modify (set_cpu c (mkcpu (ncli p + 1) i false)).

Definition popcli (c : nat) : M sstate unit :=
  let! p := gets (fun s => s_cpu s c) in
  if iflag p then panic "popcli - interruptible" else
  let n := ncli p - 1 in
  if n <? 0 then panic "popcli" else
  modify (set_cpu c (mkcpu n (intena p) ((n =? 0) && intena p))).

Definition holding (c l : nat) : M sstate bool :=
  do! pushcli c in
  let! k := gets (fun s => s_lock s l) in
  do! popcli c in
  ret (locked k && bool_decide (lcpu k = Some c)).

(** [acquire] up to the loop. *)
Definition acquire_enter (c l : nat) : M sstate unit :=
  do! pushcli c in
  let! h := holding c l in
  if h then panic "acquire" else ret tt.

(** One round of the loop: xchg, which returns the old value. *)
Definition xchg (l : nat) : M sstate bool :=
  let! k := gets (fun s => s_lock s l) in
  do! modify (set_lock l (mkspin true (lcpu k))) in
  ret (locked k).

(** [lk->cpu = mycpu()]. *)
Definition acquire_exit (c l : nat) : M sstate unit :=
  let! k := gets (fun s => s_lock s l) in
  modify (set_lock l (mkspin (locked k) (Some c))).

(** [release] up to [lk->cpu = 0]. *)
Definition release_enter (c l : nat) : M sstate unit :=
  let! h := holding c l in
  if negb h then panic "release" else
  let! k := gets (fun s => s_lock s l) in
  modify (set_lock l (mkspin (locked k) None)).

(** The store of 0 to [lk->locked]. *)
Definition release_store (l : nat) : M sstate unit :=
  let! k := gets (fun s => s_lock s l) in
  modify (set_lock l (mkspin false (lcpu k))).

Definition release_exit (c : nat) : M sstate unit := popcli c.

(** * Steps

    Where a CPU is in the code, and the locks it holds, most recent first. *)

Inductive pc := Between | Spinning (l : nat) | Taken (l : nat) | Cleared (l : nat) | Stored.

(** [base]: interrupts are on when the CPU holds no lock. *)
Record view := mkview { v_pc : pc; v_held : list nat; v_base : bool }.

Definition sconf : Type := sstate * (nat -> view).

Inductive sstep : sconf -> sconf -> Prop :=
| st_enter c l s s' v : v_pc (v c) = Between -> l ∉ v_held (v c) -> acquire_enter c l s = Ok (tt, s') ->
    sstep (s, v) (s', fupd v c (mkview (Spinning l) (v_held (v c)) (v_base (v c))))
| st_spin c l s s' v : v_pc (v c) = Spinning l -> xchg l s = Ok (true, s') -> sstep (s, v) (s', v)
| st_take c l s s' v : v_pc (v c) = Spinning l -> xchg l s = Ok (false, s') ->
    sstep (s, v) (s', fupd v c (mkview (Taken l) (v_held (v c)) (v_base (v c))))
| st_got c l s s' v : v_pc (v c) = Taken l -> acquire_exit c l s = Ok (tt, s') ->
    sstep (s, v) (s', fupd v c (mkview Between (l :: v_held (v c)) (v_base (v c))))
| st_release c l h1 h2 s s' v : v_pc (v c) = Between -> v_held (v c) = h1 ++ l :: h2 -> release_enter c l s = Ok (tt, s') ->
    sstep (s, v) (s', fupd v c (mkview (Cleared l) (h1 ++ h2) (v_base (v c))))
| st_store c l s s' v : v_pc (v c) = Cleared l -> release_store l s = Ok (tt, s') ->
    sstep (s, v) (s', fupd v c (mkview Stored (v_held (v c)) (v_base (v c))))
| st_pop c s s' v : v_pc (v c) = Stored -> release_exit c s = Ok (tt, s') ->
    sstep (s, v) (s', fupd v c (mkview Between (v_held (v c)) (v_base (v c))))
| st_intr c s v b : v_pc (v c) = Between -> iflag (s_cpu s c) = negb b -> ncli (s_cpu s c) = 0 ->
    sstep (s, v) (set_cpu c (mkcpu (ncli (s_cpu s c)) (intena (s_cpu s c)) b) s,
                  fupd v c (mkview Between (v_held (v c)) b)).

Inductive sreach : sconf -> sconf -> Prop :=
| sr_refl k : sreach k k
| sr_step k k1 k2 : sreach k k1 -> sstep k1 k2 -> sreach k k2.

(** No lock taken, [base] the value of IF on each CPU. *)
Definition boot (s : sstate) (v : nat -> view) : Prop :=
  (forall c, ncli (s_cpu s c) = 0 /\ v c = mkview Between [] (iflag (s_cpu s c))) /\
  (forall l, s_lock s l = mkspin false None).

(** * The invariant *)

Definition depth (v : view) : Z :=
  Z.of_nat (length (v_held v)) + match v_pc v with Between => 0 | _ => 1 end.

Definition cpu_ok (p : cpu) (v : view) : Prop :=
  ncli p = depth v /\
  if depth v =? 0 then iflag p = v_base v else iflag p = false /\ intena p = v_base v.

Definition owns (v : view) (l : nat) : Prop := l ∈ v_held v \/ v_pc v = Taken l \/ v_pc v = Cleared l.

Definition view_ok (v : view) : Prop :=
  NoDup (v_held v) /\
  match v_pc v with Spinning l | Taken l | Cleared l => l ∉ v_held v | _ => True end.

Definition lock_ok (v : nat -> view) (l : nat) (k : spinlock) : Prop :=
  (forall c, owns (v c) l -> locked k = true) /\
  (locked k = true -> exists c, owns (v c) l) /\
  (forall c d, owns (v c) l -> owns (v d) l -> c = d) /\
  (forall c, lcpu k = Some c <-> l ∈ v_held (v c)).

Definition spin_ok (k : sconf) : Prop :=
  (forall c, cpu_ok (s_cpu k.1 c) (k.2 c) /\ view_ok (k.2 c)) /\
  (forall l, lock_ok k.2 l (s_lock k.1 l)).

Lemma depth_nonneg v : 0 <= depth v.
Proof. unfold depth. destruct (v_pc v); lia. Qed.

(** What the interrupt operations do to one CPU. *)
Definition pushed (p : cpu) : cpu := mkcpu (ncli p + 1) (if ncli p =? 0 then iflag p else intena p) false.

Definition popped (p : cpu) : cpu := mkcpu (ncli p - 1) (intena p) ((ncli p - 1 =? 0) && intena p).

Lemma pushcli_run c s : pushcli c s = Ok (tt, set_cpu c (pushed (s_cpu s c)) s).
Proof. done. Qed.

Lemma popcli_run c s : iflag (s_cpu s c) = false -> 1 <= ncli (s_cpu s c) ->
  popcli c s = Ok (tt, set_cpu c (popped (s_cpu s c)) s).
Proof.
  intros Hi Hn. unfold popcli, gets, bind. cbn. rewrite Hi.
  assert (ncli (s_cpu s c) - 1 <? 0 = false) as -> by lia. done.
Qed.

(** Only CPU [c] changes. *)
Definition cpu_only (c : nat) (s s' : sstate) : Prop :=
  s_lock s' = s_lock s /\ forall d, d <> c -> s_cpu s' d = s_cpu s d.

Lemma cpu_only_set c p s : cpu_only c s (set_cpu c p s).
Proof. split; [done|]. intros d Hd. by apply fupd_ne. Qed.

Lemma cpu_only_trans c s1 s2 s3 : cpu_only c s1 s2 -> cpu_only c s2 s3 -> cpu_only c s1 s3.
Proof.
  intros [L1 C1] [L2 C2]. split; [congruence|]. intros d Hd. rewrite C2 by done. by apply C1.
Qed.

(** One more level of [pushcli] is one more level of depth. *)
Definition cpu_deep (p : cpu) (n : Z) (base : bool) : Prop :=
  ncli p = n /\ if n =? 0 then iflag p = base else iflag p = false /\ intena p = base.

Lemma cpu_ok_deep p v : cpu_ok p v <-> cpu_deep p (depth v) (v_base v).
Proof. done. Qed.

Lemma pushed_deep p n b : 0 <= n -> cpu_deep p n b -> cpu_deep (pushed p) (n + 1) b.
Proof.
  intros Hn [E1 E2]. split; [cbn; lia|]. assert (n + 1 =? 0 = false) as -> by lia.
  split; [done|]. cbn. rewrite E1. destruct (n =? 0); tauto.
Qed.

Lemma popped_deep p n b : 0 <= n -> cpu_deep p (n + 1) b -> cpu_deep (popped p) n b.
Proof.
  intros Hn [E1 E2]. assert (n + 1 =? 0 = false) as E by lia. rewrite E in E2. destruct E2 as [Hf Hi].
  split; [cbn; lia|]. cbn. replace (ncli p - 1) with n by lia. destruct (n =? 0); cbn; done.
Qed.

Lemma pushcli_deep c s n b : 0 <= n -> cpu_deep (s_cpu s c) n b ->
  exists s', pushcli c s = Ok (tt, s') /\ cpu_only c s s' /\ cpu_deep (s_cpu s' c) (n + 1) b.
Proof.
  intros Hn H. eexists. split; [apply pushcli_run|]. split; [apply cpu_only_set|].
  cbn. rewrite fupd_eq. by apply pushed_deep.
Qed.

Lemma popcli_deep c s n b : 0 <= n -> cpu_deep (s_cpu s c) (n + 1) b ->
  exists s', popcli c s = Ok (tt, s') /\ cpu_only c s s' /\ cpu_deep (s_cpu s' c) n b.
Proof.
  intros Hn H. exists (set_cpu c (popped (s_cpu s c)) s). destruct H as [E1 E2].
  assert (n + 1 =? 0 = false) as E by lia. pose proof E2 as E3. rewrite E in E3. destruct E3 as [Hf Hi].
  split; [apply popcli_run; [done|lia]|]. split; [apply cpu_only_set|].
  cbn. rewrite fupd_eq. by apply popped_deep.
Qed.

(** [holding] gives the interrupt state back. *)
Lemma holding_deep c l s n b : 0 <= n -> cpu_deep (s_cpu s c) n b ->
  exists s', holding c l s = Ok (locked (s_lock s l) && bool_decide (lcpu (s_lock s l) = Some c), s') /\
    cpu_only c s s' /\ cpu_deep (s_cpu s' c) n b.
Proof.
  intros Hn H. destruct (pushcli_deep c s n b Hn H) as (s1 & R1 & O1 & D1).
  destruct (popcli_deep c s1 n b Hn D1) as (s2 & R2 & O2 & D2).
  exists s2. split; [|split; [by eapply cpu_only_trans|done]].
  unfold holding, bind, gets. rewrite R1, R2. by rewrite (proj1 O1).
Qed.

Lemma acquire_enter_run c l s n b : 0 <= n -> cpu_deep (s_cpu s c) n b ->
  if locked (s_lock s l) && bool_decide (lcpu (s_lock s l) = Some c)
  then acquire_enter c l s = Panic "acquire"
  else exists s', acquire_enter c l s = Ok (tt, s') /\ cpu_only c s s' /\ cpu_deep (s_cpu s' c) (n + 1) b.
Proof.
  intros Hn H. destruct (pushcli_deep c s n b Hn H) as (s1 & R1 & O1 & D1).
  destruct (holding_deep c l s1 (n + 1) b ltac:(lia) D1) as (s2 & R2 & O2 & D2).
  unfold acquire_enter, bind. rewrite R1, R2, (proj1 O1). clear R2.
  destruct (_ && _); [done|].
  exists s2. split; [done|]. split; [by eapply cpu_only_trans|done].
Qed.

Lemma release_enter_run c l s n b : 0 <= n -> cpu_deep (s_cpu s c) n b ->
  if locked (s_lock s l) && bool_decide (lcpu (s_lock s l) = Some c)
  then exists s1, release_enter c l s = Ok (tt, set_lock l (mkspin (locked (s_lock s l)) None) s1) /\
    cpu_only c s s1 /\ cpu_deep (s_cpu s1 c) n b
  else release_enter c l s = Panic "release".
Proof.
  intros Hn H. destruct (holding_deep c l s n b Hn H) as (s1 & R1 & O1 & D1).
  unfold release_enter, bind. rewrite R1. clear R1. destruct (_ && _); [|done]. exists s1.
  split; [|done]. cbn. by rewrite (proj1 O1).
Qed.

(** * Preservation *)

Lemma lock_ok_same v c w l k : (owns w l <-> owns (v c) l) -> (l ∈ v_held w <-> l ∈ v_held (v c)) ->
  lock_ok v l k -> lock_ok (fupd v c w) l k.
Proof.
  intros Ho Hh (L1 & L2 & L3 & L4).
  assert (HO : forall d, owns (fupd v c w d) l <-> owns (v d) l).
  { intros d. unfold fupd. case_decide as E; [by rewrite E|done]. }
  assert (HH : forall d, l ∈ v_held (fupd v c w d) <-> l ∈ v_held (v d)).
  { intros d. unfold fupd. case_decide as E; [by rewrite E|done]. }
  split_and!.
  - intros d. rewrite HO. apply L1.
  - intros E. destruct (L2 E) as [d Hd]. exists d. by rewrite HO.
  - intros d e. rewrite !HO. apply L3.
  - intros d. by rewrite HH.
Qed.

(** The owner of [l] is CPU [c], or nobody is. *)
Lemma lock_ok_owned v c w l cp : owns w l -> (forall d, d <> c -> ~ owns (v d) l) ->
  (forall d, cp = Some d <-> d = c /\ l ∈ v_held w) -> lock_ok (fupd v c w) l (mkspin true cp).
Proof.
  intros Hw Hno Hc. unfold fupd. split_and!.
  - done.
  - intros _. exists c. by rewrite decide_True.
  - intros d e Hd He. repeat case_decide; subst; try done; exfalso; naive_solver.
  - cbn. intros d. rewrite Hc. case_decide as E; [naive_solver|]. split; [by intros [? _]|].
    intros Hin. destruct (Hno d E). by left.
Qed.

Lemma lock_ok_free v c w l : ~ owns w l -> (forall d, d <> c -> ~ owns (v d) l) ->
  lock_ok (fupd v c w) l (mkspin false None).
Proof.
  intros Hw Hno. assert (HN : forall d, ~ owns (fupd v c w d) l).
  { intros d. unfold fupd. case_decide; [done|auto]. }
  split_and!; cbn.
  - intros d Hd. by destruct (HN d).
  - done.
  - intros d e Hd. by destruct (HN d).
  - intros d. split; [done|]. intros Hin. destruct (HN d). by left.
Qed.

Lemma lock_ok_others v c l k : lock_ok v l k -> owns (v c) l -> forall d, d <> c -> ~ owns (v d) l.
Proof. intros (_ & _ & L3 & _) Hc d Hd Ho. by apply Hd, L3. Qed.

Lemma lock_ok_nobody v l k : lock_ok v l k -> locked k = false -> forall d, ~ owns (v d) l.
Proof. intros (L1 & _) E d Ho. specialize (L1 d Ho). congruence. Qed.

(** A step of CPU [c]: the other CPUs are as before. *)
Lemma spin_ok_upd s v s' c w : spin_ok (s, v) ->
  (forall d, d <> c -> s_cpu s' d = s_cpu s d) -> cpu_ok (s_cpu s' c) w -> view_ok w ->
  (forall l, lock_ok (fupd v c w) l (s_lock s' l)) -> spin_ok (s', fupd v c w).
Proof.
  intros [Hc Hl] Ho Hw Hv Hk. split; [|done]. cbn. intros d. destruct (decide (d = c)) as [->|E].
  - by rewrite fupd_eq.
  - rewrite fupd_ne, Ho by done. apply Hc.
Qed.

(** Only lock [l] is stored to. *)
Lemma lock_ok_upd s v c w l k : (forall m, lock_ok v m (s_lock s m)) ->
  (forall m, m <> l -> (owns w m <-> owns (v c) m) /\ (m ∈ v_held w <-> m ∈ v_held (v c))) ->
  lock_ok (fupd v c w) l k -> forall m, lock_ok (fupd v c w) m (fupd (s_lock s) l k m).
Proof.
  intros Hl Hs Hk m. destruct (decide (m = l)) as [->|E]; [by rewrite fupd_eq|].
  rewrite fupd_ne by done. destruct (Hs m E). by apply lock_ok_same.
Qed.

Lemma deep_cpu_ok p n b w : cpu_deep p n b -> b = v_base w -> n = depth w -> cpu_ok p w.
Proof. by intros ? -> ->. Qed.

Ltac enter Hok c :=
  let Hc := fresh "Hc" in let Hl := fresh "Hl" in let Hcpu := fresh "Hcpu" in let Hview := fresh "Hview" in
  pose proof Hok as [Hc Hl]; destruct (Hc c) as [Hcpu Hview]; cbn [fst snd] in *; clear Hc.

Lemma ok_enter c l s s' v : spin_ok (s, v) -> v_pc (v c) = Between -> l ∉ v_held (v c) ->
  acquire_enter c l s = Ok (tt, s') -> spin_ok (s', fupd v c (mkview (Spinning l) (v_held (v c)) (v_base (v c)))).
Proof.
  intros Hok Hpc Hh Hrun. enter Hok c.
  pose proof (acquire_enter_run c l s _ _ (depth_nonneg _) Hcpu) as R.
  destruct (_ && _); [congruence|]. destruct R as (s1 & R & [O1 O2] & D).
  rewrite Hrun in R. injection R as <-.
  apply spin_ok_upd with s; try done.
  - eapply deep_cpu_ok; [exact D|done|]. unfold depth. rewrite Hpc. cbn. lia.
  - split; [apply Hview|done].
  - intros m. rewrite O1. apply lock_ok_same; [|done|apply Hl].
    unfold owns. rewrite Hpc. naive_solver.
Qed.

Lemma ok_take c l s s' v : spin_ok (s, v) -> v_pc (v c) = Spinning l -> xchg l s = Ok (false, s') ->
  spin_ok (s', fupd v c (mkview (Taken l) (v_held (v c)) (v_base (v c)))).
Proof.
  intros Hok Hpc Hrun. enter Hok c. unfold xchg in Hrun. cbv [bind gets modify ret] in Hrun. injection Hrun as Hfree <-.
  destruct Hview as [Hnd Hni]. rewrite Hpc in Hni.
  apply spin_ok_upd with s; try done.
  - eapply deep_cpu_ok; [exact Hcpu|done|]. unfold depth. by rewrite Hpc.
  - apply lock_ok_upd; [done| |].
    + intros m Hm. unfold owns. rewrite Hpc. cbn. naive_solver.
    + pose proof (lock_ok_nobody _ _ _ (Hl l) Hfree) as Hno.
      apply lock_ok_owned; [by right; left|by intros d _|]. intros d.
      destruct (Hl l) as (_ & _ & _ & L4). rewrite L4. split; [|naive_solver].
      intros Hin. destruct (Hno d). by left.
Qed.

Lemma ok_got c l s s' v : spin_ok (s, v) -> v_pc (v c) = Taken l -> acquire_exit c l s = Ok (tt, s') ->
  spin_ok (s', fupd v c (mkview Between (l :: v_held (v c)) (v_base (v c)))).
Proof.
  intros Hok Hpc Hrun. enter Hok c. unfold acquire_exit in Hrun. cbv [bind gets modify ret] in Hrun. injection Hrun as <-.
  destruct Hview as [Hnd Hni]. rewrite Hpc in Hni.
  assert (Hown : owns (v c) l) by (by right; left).
  apply spin_ok_upd with s; try done.
  - eapply deep_cpu_ok; [exact Hcpu|done|]. unfold depth. rewrite Hpc. cbn. lia.
  - split; [by apply NoDup_cons|done].
  - apply lock_ok_upd; [done| |].
    + intros m Hm. unfold owns. rewrite Hpc. cbn. rewrite elem_of_cons. naive_solver.
    + rewrite (proj1 (Hl l) c Hown). apply lock_ok_owned.
      * left. by apply elem_of_cons; left.
      * by eapply lock_ok_others.
      * intros d. split; [|naive_solver]. intros [= <-]. split; [done|]. by apply elem_of_cons; left.
Qed.

Lemma ok_release c l h1 h2 s s' v : spin_ok (s, v) -> v_pc (v c) = Between -> v_held (v c) = h1 ++ l :: h2 ->
  release_enter c l s = Ok (tt, s') -> spin_ok (s', fupd v c (mkview (Cleared l) (h1 ++ h2) (v_base (v c)))).
Proof.
  intros Hok Hpc Hh Hrun. enter Hok c. destruct Hview as [Hnd _].
  assert (Hp : v_held (v c) ≡ₚ l :: h1 ++ h2) by (rewrite Hh; by rewrite Permutation_middle).
  rewrite Hp in Hnd. apply NoDup_cons in Hnd as [Hni Hnd].
  assert (Hown : owns (v c) l) by (left; rewrite Hp; by apply elem_of_cons; left).
  pose proof (release_enter_run c l s _ _ (depth_nonneg _) Hcpu) as R.
  destruct (_ && _); [|congruence]. destruct R as (s1 & R & [O1 O2] & D).
  rewrite Hrun in R. injection R as ->.
  apply spin_ok_upd with s; try done.
  - eapply deep_cpu_ok; [exact D|done|]. unfold depth. rewrite Hpc. cbn.
    rewrite Hh, !length_app. cbn. lia.
  - cbn [set_lock s_lock]. rewrite O1. apply lock_ok_upd; [done| |].
    + intros m Hm. unfold owns. rewrite Hpc. cbn. rewrite Hp, elem_of_cons. naive_solver.
    + rewrite (proj1 (Hl l) c Hown). apply lock_ok_owned.
      * by right; right.
      * by eapply lock_ok_others.
      * intros d. split; [done|]. by intros [_ ?].
Qed.

Lemma ok_store c l s s' v : spin_ok (s, v) -> v_pc (v c) = Cleared l -> release_store l s = Ok (tt, s') ->
  spin_ok (s', fupd v c (mkview Stored (v_held (v c)) (v_base (v c)))).
Proof.
  intros Hok Hpc Hrun. enter Hok c. unfold release_store in Hrun. cbv [bind gets modify ret] in Hrun. injection Hrun as <-.
  destruct Hview as [Hnd Hni]. rewrite Hpc in Hni.
  assert (Hown : owns (v c) l) by (by right; right).
  pose proof (lock_ok_others _ _ _ _ (Hl l) Hown) as Hno.
  assert (lcpu (s_lock s l) = None) as ->.
  { destruct (lcpu (s_lock s l)) as [d|] eqn:E; [|done]. apply (Hl l) in E.
    destruct (decide (d = c)) as [->|Hd]; [done|]. destruct (Hno d Hd). by left. }
  apply spin_ok_upd with s; try done.
  - eapply deep_cpu_ok; [exact Hcpu|done|]. unfold depth. by rewrite Hpc.
  - apply lock_ok_upd; [done| |].
    + intros m Hm. unfold owns. rewrite Hpc. cbn. naive_solver.
    + apply lock_ok_free; [|done]. unfold owns. cbn. naive_solver.
Qed.

Lemma ok_pop c s s' v : spin_ok (s, v) -> v_pc (v c) = Stored -> release_exit c s = Ok (tt, s') ->
  spin_ok (s', fupd v c (mkview Between (v_held (v c)) (v_base (v c)))).
Proof.
  intros Hok Hpc Hrun. enter Hok c. destruct Hview as [Hnd Hni].
  assert (Hd : depth (v c) = Z.of_nat (length (v_held (v c))) + 1) by (unfold depth; by rewrite Hpc).
  change (cpu_deep (s_cpu s c) (depth (v c)) (v_base (v c))) in Hcpu. rewrite Hd in Hcpu.
  destruct (popcli_deep c s _ _ (Zle_0_nat _) Hcpu) as (s1 & R & [O1 O2] & D).
  unfold release_exit in Hrun. rewrite R in Hrun. injection Hrun as <-.
  apply spin_ok_upd with s; try done.
  - eapply deep_cpu_ok; [exact D|done|]. unfold depth. cbn. lia.
  - intros m. rewrite O1. apply lock_ok_same; [|done|apply Hl]. unfold owns. rewrite Hpc. naive_solver.
Qed.

Lemma ok_spin l s s' v : spin_ok (s, v) -> xchg l s = Ok (true, s') -> spin_ok (s', v).
Proof.
  intros [Hc Hl] Hrun. unfold xchg in Hrun. cbv [bind gets modify ret] in Hrun. injection Hrun as Hlk <-. split; [done|].
  cbn in *. intros m. destruct (decide (m = l)) as [->|E]; [|by rewrite fupd_ne].
  rewrite fupd_eq, <- Hlk. specialize (Hl l). by destruct (s_lock s l).
Qed.

Lemma ok_intr c s v b : spin_ok (s, v) -> v_pc (v c) = Between -> ncli (s_cpu s c) = 0 ->
  spin_ok (set_cpu c (mkcpu (ncli (s_cpu s c)) (intena (s_cpu s c)) b) s, fupd v c (mkview Between (v_held (v c)) b)).
Proof.
  intros Hok Hpc Hn. enter Hok c. destruct Hcpu as [Hd Hi]. rewrite Hn in Hd.
  assert (depth (mkview Between (v_held (v c)) b) = 0) as Hz.
  { unfold depth in *. rewrite Hpc in Hd. cbn. lia. }
  apply spin_ok_upd with s; [done| | |split; [apply Hview|done]|].
  - intros d Hdc. by apply fupd_ne.
  - cbn. rewrite fupd_eq. split; rewrite Hz; done.
  - intros m. apply lock_ok_same; [|done|apply Hl]. unfold owns. rewrite Hpc. naive_solver.
Qed.

Lemma step_ok k k' : spin_ok k -> sstep k k' -> spin_ok k'.
Proof.
  intros Hok Hs. destruct Hs; eauto using ok_enter, ok_spin, ok_take, ok_got, ok_release, ok_store, ok_pop, ok_intr.
Qed.

Lemma spin_boot_ok s v : boot s v -> spin_ok (s, v).
Proof.
  intros [Hc Hl]. split; cbn.
  - intros c. destruct (Hc c) as [Hn ->]. split; [by split|]. split; [apply NoDup_nil_2|done].
  - intros l. rewrite Hl. split_and!; try done.
    + intros c. rewrite (proj2 (Hc c)). unfold owns. cbn. set_solver.
    + intros c d. rewrite (proj2 (Hc c)). unfold owns. cbn. set_solver.
    + intros c. rewrite (proj2 (Hc c)). cbn. set_solver.
Qed.

Lemma reach_ok k k' : spin_ok k -> sreach k k' -> spin_ok k'.
Proof. intros Hok Hr. induction Hr; eauto using step_ok. Qed.

Lemma holder_sees s v c l : spin_ok (s, v) ->
  locked (s_lock s l) && bool_decide (lcpu (s_lock s l) = Some c) = bool_decide (l ∈ v_held (v c)).
Proof.
  intros [_ Hl]. destruct (Hl l) as (L1 & _ & _ & L4). cbn in *.
  destruct (decide (l ∈ v_held (v c))) as [Hin|Hin].
  - rewrite (L1 c) by (by left). rewrite !bool_decide_true; [done|done|by apply L4].
  - rewrite (bool_decide_false _ Hin), bool_decide_false; [apply andb_false_r|]. by rewrite L4.
Qed.

(** C22. Any number of CPUs run [acquire] and [release], store by store, in any
    interleaving, and take interrupts when they are enabled. Then at most one CPU
    owns a lock; a CPU that holds a lock has interrupts off; one that holds none
    and is in neither routine has them as they were before its first [acquire].
    [acquire] panics on a lock the CPU holds and on no other, [release] on a
    lock it does not hold and on no other, and [popcli] never. *)
Theorem spin_locks_safe s0 v0 s v : boot s0 v0 -> sreach (s0, v0) (s, v) ->
  (forall l c d, owns (v c) l -> owns (v d) l -> c = d) /\
  (forall c, v_held (v c) <> [] -> iflag (s_cpu s c) = false) /\
  (forall c, v_pc (v c) = Between -> v_held (v c) = [] -> iflag (s_cpu s c) = v_base (v c)) /\
  (forall c l, v_pc (v c) = Between ->
    if decide (l ∈ v_held (v c))
    then acquire_enter c l s = Panic "acquire" /\ exists s', release_enter c l s = Ok (tt, s')
    else (exists s', acquire_enter c l s = Ok (tt, s')) /\ release_enter c l s = Panic "release") /\
  (forall c, v_pc (v c) = Stored -> exists s', release_exit c s = Ok (tt, s')).
Proof.
  intros Hb Hr. pose proof (reach_ok _ _ (spin_boot_ok _ _ Hb) Hr) as Hok. pose proof Hok as [Hc Hl]. cbn in *.
  split_and!.
  - intros l c d. apply (Hl l).
  - intros c Hh. destruct (Hc c) as [[_ Hi] _]. destruct (depth (v c) =? 0) eqn:E; [|tauto].
    apply Z.eqb_eq in E. unfold depth in E. destruct (v_held (v c)); [done|].
    destruct (v_pc (v c)); cbn [length] in E; lia.
  - intros c Hpc Hh. destruct (Hc c) as [[_ Hi] _]. unfold depth in Hi. by rewrite Hpc, Hh in Hi.
  - intros c l Hpc. destruct (Hc c) as [Hcpu _].
    pose proof (acquire_enter_run c l s _ _ (depth_nonneg _) Hcpu) as RA.
    pose proof (release_enter_run c l s _ _ (depth_nonneg _) Hcpu) as RR.
    rewrite (holder_sees s v) in RA, RR by done. destruct (decide (l ∈ v_held (v c))) as [Hin|Hin].
    + rewrite bool_decide_true in RA, RR by done. naive_solver.
    + rewrite bool_decide_false in RA, RR by done. naive_solver.
  - intros c Hpc. destruct (Hc c) as [Hcpu _]. change (cpu_deep (s_cpu s c) (depth (v c)) (v_base (v c))) in Hcpu.
    unfold depth in Hcpu. rewrite Hpc in Hcpu.
    destruct (popcli_deep c s _ _ (Zle_0_nat _) Hcpu) as (s1 & R & _). by exists s1.
Qed.

(** Two CPUs: CPU 0 holds lock 7 while CPU 1 spins on it. *)
Definition demo_spin : sstate := mkss (fun _ => mkcpu 0 false true) (fun _ => mkspin false None).

Definition demo_view : nat -> view := fun _ => mkview Between [] true.

Definition contended : M sstate unit :=
  do! acquire_enter 0 7 in
  let! _ := xchg 7 in
  do! acquire_exit 0 7 in
  do! acquire_enter 1 7 in
  let! _ := xchg 7 in
  ret tt.

Lemma contended_reached : exists v, sreach (demo_spin, demo_view) (endstate contended demo_spin, v) /\
  v_pc (v 0%nat) = Between /\ v_held (v 0%nat) = [7%nat] /\ v_pc (v 1%nat) = Spinning 7.
Proof.
  eexists. split.
  - eapply sr_step; [eapply sr_step; [eapply sr_step; [eapply sr_step; [eapply sr_step; [apply sr_refl|]|]|]|]|].
    + by eapply (st_enter 0 7); [|apply not_elem_of_nil|].
    + by eapply (st_take 0 7).
    + by eapply (st_got 0 7).
    + by eapply (st_enter 1 7); [|apply not_elem_of_nil|].
    + by eapply (st_spin 1 7).
  - split_and!; reflexivity.
Qed.

Lemma spin_locks_safe_witness :
  iflag (s_cpu (endstate contended demo_spin) 0%nat) = false /\
  acquire_enter 0 7 (endstate contended demo_spin) = Panic "acquire".
Proof.
  destruct contended_reached as (v & Hr & Hpc & Hh & _).
  destruct (spin_locks_safe demo_spin demo_view (endstate contended demo_spin) v) as (_ & H2 & _ & H4 & _).
  - by split.
  - exact Hr.
  - split; [apply H2; by rewrite Hh|]. specialize (H4 0%nat 7%nat Hpc). rewrite Hh in H4. apply H4.
Defined.
