(* ===== verification/SleepLock.v ===== *)
(** Sleep locks (sleeplock.c) with [sleep], [wakeup] and the switch to the scheduler
    of proc.c, when any number of processes run them step by step in any
    interleaving: mutual exclusion, no lost wakeup, no deadlock. *)

From S2P Require Import Prelude Spin.
From Stdlib Require Import Lia.

(** * Where a process is

    One constructor for each stretch of code between two points where another
    process can be seen: the process is about to run it. *)
Inductive lpc :=
| Out        (* not in the lock's code, lock not held *)
| A_acquire  (* acquiresleep: acquire(&lk->lk) *)
| A_test     (* while (lk->locked); lk->locked = 1; lk->pid = myproc()->pid *)
| S_ptable   (* sleep: acquire(&ptable.lock) *)
| S_release  (* release(lk) *)
| S_mark     (* p->chan = chan; p->state = SLEEPING *)
| S_sched    (* sched(): the scheduler releases ptable.lock *)
| S_off      (* off the CPU *)
| S_tidy     (* p->chan = 0; release(&ptable.lock) *)
| S_again    (* acquire(lk), then the test again *)
| A_release  (* acquiresleep: release(&lk->lk) *)
| Crit       (* lock held *)
| R_acquire  (* releasesleep: acquire(&lk->lk) *)
| R_clear    (* lk->locked = 0; lk->pid = 0 *)
| R_ptable   (* wakeup: acquire(&ptable.lock) *)
| R_wake     (* wakeup1(lk) *)
| R_unptable (* release(&ptable.lock) *)
| R_release. (* release(&lk->lk) *)

Inductive prun := RUNNING | RUNNABLE | SLEEPING.

(** [t_chan]: p->chan is the lock. *)
Record thread := mkthread { t_pc : lpc; t_run : prun; t_chan : bool }.

(** [l_lk], [l_pt]: the holders of lk->lk and of ptable.lock. *)
Record lstate := mkls {
  l_lk : option nat;
  l_pt : option nat;
  l_locked : bool;
  l_pid : option nat;
  l_thr : nat -> thread
}.

Definition put (i : nat) (t : thread) (s : lstate) : lstate :=
  mkls (l_lk s) (l_pt s) (l_locked s) (l_pid s) (fupd (l_thr s) i t).

Definition goto (i : nat) (p : lpc) (s : lstate) : lstate :=
  put i (mkthread p (t_run (l_thr s i)) (t_chan (l_thr s i))) s.

Definition set_lk (o : option nat) (s : lstate) : lstate := mkls o (l_pt s) (l_locked s) (l_pid s) (l_thr s).
Definition set_pt (o : option nat) (s : lstate) : lstate := mkls (l_lk s) o (l_locked s) (l_pid s) (l_thr s).
Definition set_sl (b : bool) (o : option nat) (s : lstate) : lstate := mkls (l_lk s) (l_pt s) b o (l_thr s).

(** [wakeup1(lk)] on one entry of the table. *)
Definition woken (t : thread) : thread :=
  match t_run t with
  | SLEEPING => if t_chan t then mkthread (t_pc t) RUNNABLE (t_chan t) else t
  | _ => t
  end.

Definition wake_all (s : lstate) : lstate :=
  mkls (l_lk s) (l_pt s) (l_locked s) (l_pid s) (fun j => woken (l_thr s j)).

Definition free (o : option nat) : bool := match o with None => true | Some _ => false end.

(** The next step of process [i]; [None] while it spins, or is not scheduled. *)
Definition next (i : nat) (s : lstate) : option lstate :=
  match t_pc (l_thr s i) with
  | Out => Some (goto i A_acquire s)
  | A_acquire => if free (l_lk s) then Some (goto i A_test (set_lk (Some i) s)) else None
  | A_test => Some (if l_locked s then goto i S_ptable s else goto i A_release (set_sl true (Some i) s))
  | S_ptable => if free (l_pt s) then Some (goto i S_release (set_pt (Some i) s)) else None
  | S_release => Some (goto i S_mark (set_lk None s))
  | S_mark => Some (put i (mkthread S_sched SLEEPING true) s)
  | S_sched => Some (goto i S_off (set_pt None s))
  | S_off =>
      match t_run (l_thr s i) with
      | RUNNABLE => if free (l_pt s) then Some (put i (mkthread S_tidy RUNNING (t_chan (l_thr s i))) (set_pt (Some i) s)) else None
      | _ => None
      end
  | S_tidy => Some (put i (mkthread S_again (t_run (l_thr s i)) false) (set_pt None s))
  | S_again => if free (l_lk s) then Some (goto i A_test (set_lk (Some i) s)) else None
  | A_release => Some (goto i Crit (set_lk None s))
  | Crit => Some (goto i R_acquire s)
  | R_acquire => if free (l_lk s) then Some (goto i R_clear (set_lk (Some i) s)) else None
  | R_clear => Some (goto i R_ptable (set_sl false None s))
  | R_ptable => if free (l_pt s) then Some (goto i R_wake (set_pt (Some i) s)) else None
  | R_wake => Some (goto i R_unptable (wake_all s))
  | R_unptable => Some (goto i R_release (set_pt None s))
  | R_release => Some (goto i Out (set_lk None s))
  end.

(** [kill], which takes ptable.lock, also makes a sleeper runnable. *)
Definition killed (i : nat) (s : lstate) : option lstate :=
  match t_run (l_thr s i) with
  | SLEEPING => if free (l_pt s) then Some (put i (mkthread (t_pc (l_thr s i)) RUNNABLE (t_chan (l_thr s i))) s) else None
  | _ => None
  end.

Inductive lstep (s s' : lstate) : Prop :=
| l_run i : next i s = Some s' -> lstep s s'
| l_kill i : killed i s = Some s' -> lstep s s'.

Inductive lreach (s : lstate) : lstate -> Prop :=
| lr_refl : lreach s s
| lr_step s1 s2 : lreach s s1 -> lstep s1 s2 -> lreach s s2.

(** After [initsleeplock], every process outside. *)
Definition initsleeplock : lstate := mkls None None false None (fun _ => mkthread Out RUNNING false).

(** * The invariant *)

Definition has_lk (p : lpc) : bool :=
  match p with A_test | S_ptable | S_release | A_release | R_clear | R_ptable | R_wake | R_unptable | R_release => true | _ => false end.

Definition has_pt (p : lpc) : bool :=
  match p with S_release | S_mark | S_sched | S_tidy | R_wake | R_unptable => true | _ => false end.

(** The process has the sleep lock. *)
Definition has_sl (p : lpc) : bool :=
  match p with A_release | Crit | R_acquire | R_clear => true | _ => false end.

(** It has cleared the lock and not yet woken the sleepers. *)
Definition waking (p : lpc) : bool := match p with R_ptable | R_wake => true | _ => false end.

Definition run_ok (t : thread) : bool :=
  match t_pc t, t_run t with
  | S_sched, SLEEPING => t_chan t
  | S_off, SLEEPING => t_chan t
  | S_off, RUNNABLE => true
  | (S_off | S_sched), _ => false
  | _, RUNNING => true
  | _, _ => false
  end.

(** On its way to sleep, or asleep. *)
Definition waits (t : thread) : bool :=
  match t_pc t, t_run t with
  | S_ptable, _ | S_release, _ | S_mark, _ | S_sched, _ => true
  | S_off, SLEEPING => true
  | _, _ => false
  end.

Definition committed (p : lpc) : bool := match p with S_ptable | S_release => true | _ => false end.

Record sl_ok (s : lstate) : Prop := {
  ok_lk : forall i, has_lk (t_pc (l_thr s i)) = true <-> l_lk s = Some i;
  ok_pt : forall i, has_pt (t_pc (l_thr s i)) = true <-> l_pt s = Some i;
  ok_sl : forall i, has_sl (t_pc (l_thr s i)) = true <-> l_locked s = true /\ l_pid s = Some i;
  ok_pid : l_locked s = true -> exists i, l_pid s = Some i;
  ok_run : forall i, run_ok (l_thr s i) = true;
  ok_committed : forall i, committed (t_pc (l_thr s i)) = true -> l_locked s = true;
  ok_waits : forall i, waits (l_thr s i) = true ->
    l_locked s = true \/ exists j, waking (t_pc (l_thr s j)) = true
}.

Lemma waking_kept thr i t : (waking (t_pc (thr i)) = true -> waking (t_pc t) = true) ->
  (exists k, waking (t_pc (thr k)) = true) -> exists k, waking (t_pc (fupd thr i t k)) = true.
Proof.
  intros Hi [k Hk]. destruct (decide (k = i)) as [->|E].
  - exists i. rewrite fupd_eq. auto.
  - exists k. by rewrite fupd_ne.
Qed.

(** A step of process [i] that replaces its entry by [t]. *)
Lemma sl_ok_upd s i t lk pt lo pid : sl_ok s ->
  (forall j, j <> i -> (lk = Some j <-> l_lk s = Some j)) -> (has_lk (t_pc t) = true <-> lk = Some i) ->
  (forall j, j <> i -> (pt = Some j <-> l_pt s = Some j)) -> (has_pt (t_pc t) = true <-> pt = Some i) ->
  (lo = l_locked s /\ pid = l_pid s /\ has_sl (t_pc t) = has_sl (t_pc (l_thr s i)) \/
   lo = true /\ pid = Some i /\ l_locked s = false /\ has_sl (t_pc t) = true) ->
  run_ok t = true -> (committed (t_pc t) = true -> lo = true) ->
  (waits t = true -> waits (l_thr s i) = true \/ lo = true) ->
  (waking (t_pc (l_thr s i)) = true -> waking (t_pc t) = true) ->
  sl_ok (mkls lk pt lo pid (fupd (l_thr s) i t)).
Proof.
  intros [H1 H2 H3 H4 H5 H6 H7] L1 L2 P1 P2 S R C W K.
  assert (Hlo : l_locked s = true -> lo = true) by naive_solver.
  split; cbn [l_lk l_pt l_locked l_pid l_thr].
  - intros j. destruct (decide (j = i)) as [->|E]; [by rewrite fupd_eq|]. rewrite fupd_ne, H1, L1 by done. done.
  - intros j. destruct (decide (j = i)) as [->|E]; [by rewrite fupd_eq|]. rewrite fupd_ne, H2, P1 by done. done.
  - intros j. destruct S as [(-> & -> & S)|(-> & -> & S1 & S2)].
    + destruct (decide (j = i)) as [->|E]; [rewrite fupd_eq, S; apply H3|]. rewrite fupd_ne by done. apply H3.
    + destruct (decide (j = i)) as [->|E]; [by rewrite fupd_eq|]. rewrite fupd_ne, H3 by done.
      split; [rewrite S1; naive_solver|]. by intros [_ [= ->]].
  - destruct S as [(-> & -> & S)|(-> & -> & _)]; eauto.
  - intros j. destruct (decide (j = i)) as [->|E]; [by rewrite fupd_eq|]. by rewrite fupd_ne.
  - intros j. destruct (decide (j = i)) as [->|E]; [by rewrite fupd_eq|]. rewrite fupd_ne by done. eauto.
  - intros j Hj. assert (waits (l_thr s j) = true \/ lo = true) as [Hw|Hw]; [| |by left].
    + destruct (decide (j = i)) as [->|E]; [rewrite fupd_eq in Hj; auto|]. rewrite fupd_ne in Hj by done. auto.
    + destruct (H7 j Hw) as [?|Hk]; [auto|]. right. by apply waking_kept.
Qed.

(** [lk->locked = 0]: whoever waits now waits for this process. *)
Lemma ok_clear s i : sl_ok s -> t_pc (l_thr s i) = R_clear ->
  sl_ok (goto i R_ptable (set_sl false None s)).
Proof.
  intros [H1 H2 H3 H4 H5 H6 H7] Hpc. 
  assert (Hi : l_locked s = true /\ l_pid s = Some i) by (apply H3; by rewrite Hpc).
  assert (Hlk : l_lk s = Some i) by (apply H1; by rewrite Hpc).
  specialize (H5 i) as R5. unfold run_ok in R5. rewrite Hpc in R5. pose proof (H2 i) as P2. rewrite Hpc in P2.
  split; cbn [l_lk l_pt l_locked l_pid l_thr goto put set_sl].
  - intros j. destruct (decide (j = i)) as [->|E]; [by rewrite fupd_eq|]. rewrite fupd_ne by done. apply H1.
  - intros j. destruct (decide (j = i)) as [->|E]; [by rewrite fupd_eq|]. rewrite fupd_ne by done. apply H2.
  - intros j. destruct (decide (j = i)) as [->|E]; [rewrite fupd_eq; cbn; naive_solver|].
    rewrite fupd_ne, H3 by done. naive_solver.
  - done.
  - intros j. destruct (decide (j = i)) as [->|E]; [rewrite fupd_eq; by cbn|]. by rewrite fupd_ne.
  - intros j. destruct (decide (j = i)) as [->|E]; [by rewrite fupd_eq|]. rewrite fupd_ne by done.
    intros Hc. assert (l_lk s = Some j); [|congruence]. apply H1. by destruct (t_pc (l_thr s j)).
  - intros j _. right. exists i. by rewrite fupd_eq.
Qed.

Lemma woken_pc t : t_pc (woken t) = t_pc t.
Proof. unfold woken. by destruct (t_run t), (t_chan t). Qed.

(** [wakeup1]: nobody waits any more. *)
Lemma ok_wake s i : sl_ok s -> t_pc (l_thr s i) = R_wake -> sl_ok (goto i R_unptable (wake_all s)).
Proof.
  intros [H1 H2 H3 H4 H5 H6 H7] Hpc.
  assert (Hlk : l_lk s = Some i) by (apply H1; by rewrite Hpc).
  assert (Hpt : l_pt s = Some i) by (apply H2; by rewrite Hpc).
  assert (HS : forall j, j <> i -> has_lk (t_pc (l_thr s j)) = false /\ has_pt (t_pc (l_thr s j)) = false).
  { intros j E. split; apply not_true_is_false; [rewrite H1|rewrite H2]; congruence. }
  pose proof (H5 i) as R5. unfold run_ok in R5. rewrite Hpc in R5.
  pose proof (H3 i) as S3. rewrite Hpc in S3.
  split; cbn [l_lk l_pt l_locked l_pid l_thr goto put wake_all].
  - intros j. destruct (decide (j = i)) as [->|E]; [by rewrite fupd_eq|]. rewrite fupd_ne, woken_pc by done. apply H1.
  - intros j. destruct (decide (j = i)) as [->|E]; [by rewrite fupd_eq|]. rewrite fupd_ne, woken_pc by done. apply H2.
  - intros j. destruct (decide (j = i)) as [->|E]; [by rewrite fupd_eq|]. rewrite fupd_ne, woken_pc by done. apply H3.
  - done.
  - intros j. destruct (decide (j = i)) as [->|E].
    + rewrite fupd_eq. unfold run_ok, woken. cbn. by destruct (t_run (l_thr s i)) eqn:Er; rewrite ?Er.
    + rewrite fupd_ne by done. specialize (H5 j). destruct (HS j E) as [HL HP]. unfold run_ok, woken in *.
      destruct (l_thr s j) as [[] [] []]; cbn in *; done.
  - intros j. destruct (decide (j = i)) as [->|E]; [by rewrite fupd_eq|]. rewrite fupd_ne, woken_pc by done. apply H6.
  - intros j. destruct (decide (j = i)) as [->|E]; [by rewrite fupd_eq|]. rewrite fupd_ne by done.
    specialize (H5 j). destruct (HS j E) as [HL HP]. unfold run_ok, woken, waits in *.
    destruct (l_thr s j) as [[] [] []]; cbn in *; done.
Qed.

Lemma free_None o : free o = true -> o = None.
Proof. by destruct o. Qed.

Lemma next_ok s s' i : sl_ok s -> next i s = Some s' -> sl_ok s'.
Proof.
  intros Hok Hn. pose proof Hok as [H1 H2 H3 H4 H5 H6 H7].
  pose proof (H1 i) as L. pose proof (H2 i) as P. pose proof (H3 i) as S. pose proof (H5 i) as R. pose proof (H6 i) as C.
  clear H1 H2 H3 H5 H6 H7. unfold next in Hn. unfold run_ok in R.
  destruct (t_pc (l_thr s i)) eqn:Hpc; cbn in L, P, S, R, C;
    destruct (t_run (l_thr s i)) eqn:Hr; try done;
    try (destruct (free _) eqn:Hf; [apply free_None in Hf|done]);
    injection Hn as <-.
  all: try by apply ok_clear.
  all: try by apply ok_wake.
  3: destruct (l_locked s) eqn:Hlo.
  all: unfold goto, put, set_lk, set_pt, set_sl; cbn [l_lk l_pt l_locked l_pid l_thr].
  all: apply sl_ok_upd; [done|..]; unfold waits; rewrite ?Hpc, ?Hr; cbn; try rewrite Hr; intuition congruence.
Qed.

Lemma killed_ok s s' i : sl_ok s -> killed i s = Some s' -> sl_ok s'.
Proof.
  intros Hok Hn. pose proof Hok as [H1 H2 H3 H4 H5 H6 H7].
  pose proof (H5 i) as R. pose proof (H6 i) as C. pose proof (H2 i) as P.
  unfold killed in Hn. destruct (t_run (l_thr s i)) eqn:Hr; try done.
  destruct (free _) eqn:Hf; [apply free_None in Hf|done]. injection Hn as <-. rewrite Hf in P.
  apply sl_ok_upd; [done|done|apply H1|done|by rewrite Hf|by left|..]; cbn; auto.
  - unfold run_ok in *. cbn. rewrite Hr in R. by destruct (t_pc (l_thr s i)), (t_chan (l_thr s i)); naive_solver.
  - unfold waits. cbn. by destruct (t_pc (l_thr s i)); auto.
Qed.

Lemma init_ok : sl_ok initsleeplock.
Proof. split; cbn; naive_solver. Qed.

Lemma lreach_ok s s' : sl_ok s -> lreach s s' -> sl_ok s'.
Proof.
  intros Hok Hr. induction Hr as [|s1 s2 _ IH [i Hs|i Hs]]; [done|by eapply next_ok|by eapply killed_ok].
Qed.

(** * Progress *)

(** A process in the lock's code, or with the lock, can take a step. *)
Definition can_go (s : lstate) : Prop := exists i s', t_pc (l_thr s i) <> Out /\ next i s = Some s'.

Lemma pt_holder_goes s i : sl_ok s -> l_pt s = Some i -> can_go s.
Proof.
  intros Hok Hp. apply (ok_pt s Hok) in Hp. exists i. unfold next.
  destruct (t_pc (l_thr s i)); try done; eexists; by split.
Qed.

Lemma lk_holder_goes s i : sl_ok s -> l_lk s = Some i -> can_go s.
Proof.
  intros Hok Hl. apply (ok_lk s Hok) in Hl. destruct (l_pt s) as [j|] eqn:Hp; [by eapply pt_holder_goes|].
  exists i. unfold next. rewrite Hp. destruct (t_pc (l_thr s i)); try done; eexists; by split.
Qed.

Lemma waking_goes s i : sl_ok s -> waking (t_pc (l_thr s i)) = true -> can_go s.
Proof.
  intros Hok Hw. apply (lk_holder_goes s i); [done|]. apply (ok_lk s Hok). by destruct (t_pc (l_thr s i)).
Qed.

Lemma owner_goes s : sl_ok s -> l_locked s = true -> can_go s.
Proof.
  intros Hok Hl. destruct (ok_pid s Hok Hl) as [i Hi].
  assert (Hs : has_sl (t_pc (l_thr s i)) = true) by by apply (ok_sl s Hok).
  destruct (l_lk s) as [j|] eqn:Hk; [by eapply lk_holder_goes|].
  exists i. unfold next. rewrite Hk. destruct (t_pc (l_thr s i)); try done; eexists; by split.
Qed.

Lemma inside_goes s i : sl_ok s -> t_pc (l_thr s i) <> Out -> can_go s.
Proof.
  intros Hok Hi. destruct (l_lk s) as [j|] eqn:Hk; [by eapply lk_holder_goes|].
  destruct (l_pt s) as [j|] eqn:Hp; [by eapply pt_holder_goes|].
  destruct (waits (l_thr s i)) eqn:Hw.
  - destruct (ok_waits s Hok i Hw) as [Hl|[j Hj]]; [by apply owner_goes|by eapply waking_goes].
  - exists i. pose proof (ok_run s Hok i) as R. unfold next, run_ok, waits in *. rewrite Hk, Hp.
    destruct (t_pc (l_thr s i)), (t_run (l_thr s i)); try done; eexists; by split.
Qed.

(** C23. Processes call [acquiresleep] and [releasesleep] on one lock, [kill] wakes
    some of them at any time, and their steps interleave in any order. Then at
    most one process has the sleep lock, and it is the one in lk->pid; no wakeup
    is lost: while a process sleeps on the lock, or is about to, another has the
    lock, or has released it and will call [wakeup1]; and there is no deadlock:
    while a process is inside, one of those inside can take a step. *)
Theorem sleep_locks_safe s : lreach initsleeplock s ->
  (forall i j, has_sl (t_pc (l_thr s i)) = true -> has_sl (t_pc (l_thr s j)) = true -> i = j) /\
  (forall i, has_sl (t_pc (l_thr s i)) = true -> l_locked s = true /\ l_pid s = Some i) /\
  (forall i, waits (l_thr s i) = true ->
    exists j, j <> i /\ (has_sl (t_pc (l_thr s j)) = true \/ waking (t_pc (l_thr s j)) = true)) /\
  (forall i, t_pc (l_thr s i) <> Out -> can_go s).
Proof.
  intros Hr. pose proof (lreach_ok _ _ init_ok Hr) as Hok. split_and!.
  - intros i j Hi Hj. apply (ok_sl s Hok) in Hi as [_ Hi], Hj as [_ Hj]. congruence.
  - intros i. apply (ok_sl s Hok).
  - intros i Hi. destruct (ok_waits s Hok i Hi) as [Hl|[j Hj]].
    + destruct (ok_pid s Hok Hl) as [j Hj].
      assert (Hs : has_sl (t_pc (l_thr s j)) = true) by by apply (ok_sl s Hok).
      exists j. split; [|by left]. intros ->. unfold waits in Hi. by destruct (t_pc (l_thr s i)).
    + exists j. split; [|by right]. intros ->. unfold waits in Hi. by destruct (t_pc (l_thr s i)).
  - intros i. by apply inside_goes.
Qed.

(** Process 0 has the lock; process 1 goes to sleep; process 0 starts to release. *)
Definition schedule (l : list nat) (s : lstate) : option lstate :=
  foldr (fun i k s => match next i s with Some s' => k s' | None => None end) Some l s.

Lemma schedule_reach l s s' : schedule l s = Some s' -> lreach s s'.
Proof.
  assert (G : forall s0, lreach s0 s -> schedule l s = Some s' -> lreach s0 s'); [|by apply G, lr_refl].
  revert s. induction l as [|i l IH]; cbn; intros s s0 H0 H; [by injection H as <-|].
  destruct (next i s) as [s1|] eqn:E; [|done]. eapply IH; [|exact H].
  eapply lr_step; [done|]. by eapply l_run.
Qed.

Definition asleep : list nat := [0;0;0;0; 1;1;1;1;1;1;1; 0;0;0]%nat.

Definition asleep_state : lstate := default initsleeplock (schedule asleep initsleeplock).

Lemma sleep_locks_safe_witness :
  t_run (l_thr asleep_state 1%nat) = SLEEPING /\ l_locked asleep_state = false /\
  waking (t_pc (l_thr asleep_state 0%nat)) = true /\ can_go asleep_state.
Proof.
  split; [vm_compute; reflexivity|]. split; [vm_compute; reflexivity|]. split; [vm_compute; reflexivity|].
  apply (sleep_locks_safe asleep_state) with (i := 1%nat).
  - apply (schedule_reach asleep). vm_compute. reflexivity.
  - vm_compute. discriminate.
Defined.
