(* ===== verification/Umalloc.v ===== *)
(** The memory allocator of user programs (umalloc.c): a ring of free blocks kept in
    the order of their addresses, linked through the blocks themselves. *)

From S2P Require Import Prelude Mem Kalloc.
Local Open Scope Z_scope.

(** The memory of the program, the variable [freep], and the size of the process. *)
Record heap := mkheap { h_mem : mem; h_freep : Z; h_brk : Z }.

Definition set_freep (p : Z) (s : heap) : heap := mkheap (h_mem s) p (h_brk s).

(** The size of a [Header]: [ptr] is at offset 0 and [size] at offset 4. *)
Definition SIZEOF_HEADER : Z := 8.

(** A word of the program's memory; a page fault ends the process. *)
Definition load (a : Z) : M heap Z := fun s =>
  if (0 <=? a) && (a + 4 <=? h_brk s) then Ok (ld32 (h_mem s) a, s) else UB.

Definition store (a v : Z) : M heap unit := fun s =>
  if (0 <=? a) && (a + 4 <=? h_brk s) then Ok (tt, mkheap (st32 (h_mem s) a v) (h_freep s) (h_brk s)) else UB.

Definition ptr (p : Z) : M heap Z := load p.
Definition size (p : Z) : M heap Z := load (p + 4).
Definition set_ptr (p v : Z) : M heap unit := store p v.
Definition set_size (p v : Z) : M heap unit := store (p + 4) v.

(** [p + n] on pointers to headers. *)
Definition hplus (p n : Z) : Z := u32 (p + SIZEOF_HEADER * n).

Section Umalloc.
  (** The address of the variable [base], and the system call. *)
  Context (base : Z) (sbrk : Z -> M heap Z).

Fixpoint free_loop (fuel : nat) (bp p : Z) : M heap Z :=
  match fuel with
  | O => undefined
  | S fuel' =>
      let! q := ptr p in
      if (bp >? p) && (bp <? q) then ret p else
      if (p >=? q) && ((bp >? p) || (bp <? q)) then ret p else
      free_loop fuel' bp q
  end.

Definition free (fuel : nat) (ap : Z) : M heap unit :=
  let bp := u32 (ap - SIZEOF_HEADER) in
  let! p0 := gets h_freep in
  let! p := free_loop fuel bp p0 in
  let! n := size bp in
  let! q := ptr p in
  do! (if hplus bp n =? q then
         let! m := size q in
         do! set_size bp (u32 (n + m)) in
         let! r := ptr q in
         set_ptr bp r
       else set_ptr bp q) in
  let! k := size p in
  do! (if hplus p k =? bp then
         let! n := size bp in
         do! set_size p (u32 (k + n)) in
         let! r := ptr bp in
         set_ptr p r
       else set_ptr p bp) in
  modify (set_freep p).

Definition morecore (fuel : nat) (nu : Z) : M heap Z :=
  let nu := if nu <? 4096 then 4096 else nu in
  let! r := sbrk (s32 (nu * SIZEOF_HEADER)) in
  let p := u32 r in
  if p =? u32 (-1) then ret 0 else
  do! set_size p nu in
  do! free fuel (p + SIZEOF_HEADER) in
  gets h_freep.

(** The block [p] of [n] units is big enough: take it or its tail. *)
Definition carve (nunits prevp p n : Z) : M heap Z :=
  let! r := (if n =? nunits then
               let! q := ptr p in
               do! set_ptr prevp q in
               ret p
             else
               do! set_size p (u32 (n - nunits)) in
               let! k := size p in
               do! set_size (hplus p k) nunits in
               ret (hplus p k)) in
  do! modify (set_freep prevp) in
  ret (r + SIZEOF_HEADER).

Fixpoint malloc_loop (fuel : nat) (nunits prevp p : Z) : M heap Z :=
  match fuel with
  | O => undefined
  | S fuel' =>
      let! n := size p in
      if n >=? nunits then carve nunits prevp p n else
      let! f := gets h_freep in
      if p =? f then
        let! p := morecore fuel' nunits in
        if p =? 0 then ret 0 else
        let! q := ptr p in
        malloc_loop fuel' nunits p q
      else
        let! q := ptr p in
        malloc_loop fuel' nunits p q
  end.

Definition nunits_of (nbytes : Z) : Z := u32 (u32 (nbytes + SIZEOF_HEADER - 1) / SIZEOF_HEADER + 1).

Definition malloc (fuel : nat) (nbytes : Z) : M heap Z :=
  let nunits := nunits_of nbytes in
  let! f := gets h_freep in
  do! when (f =? 0)
        (do! set_ptr base base in
         do! modify (set_freep base) in
         set_size base 0) in
  let! prevp := gets h_freep in
  let! p := ptr prevp in
  malloc_loop fuel nunits prevp p.
End Umalloc.

(** * Lists of blocks

    A block is its address and its size in units of eight bytes, header included. *)

Abbreviation block := (Z * Z)%type.

Definition inside (b : block) (x : Z) : Prop := b.1 <= x < b.1 + 8 * b.2.
Definition covers (l : list block) (x : Z) : Prop := exists b, b ∈ l /\ inside b x.

Definition next (l : list block) (z : Z) : Z := match l with [] => z | b :: _ => b.1 end.

(** The headers in memory link the blocks of [l] in order, the last one to [z]. *)
Fixpoint links (m : mem) (l : list block) (z : Z) : Prop :=
  match l with
  | [] => True
  | b :: l' => ld32 m b.1 = next l' z /\ ld32 m (b.1 + 4) = b.2 /\ links m l' z
  end.

(** In order, and no two of them adjacent. *)
Fixpoint apart (lo : Z) (l : list block) (hi : Z) : Prop :=
  match l with
  | [] => lo <= hi
  | b :: l' => lo < b.1 /\ 0 <= b.2 /\ apart (b.1 + 8 * b.2) l' hi
  end.

Definition fin (lo : Z) (l : list block) : Z := foldl (fun _ b => b.1 + 8 * b.2) lo l.

Lemma covers_cons b l x : covers (b :: l) x <-> inside b x \/ covers l x.
Proof. unfold covers; set_solver. Qed.

Lemma covers_app l l' x : covers (l ++ l') x <-> covers l x \/ covers l' x.
Proof. unfold covers; set_solver. Qed.

Lemma covers_nil x : ~ covers [] x.
Proof. intros (b & Hb & _). by apply not_elem_of_nil in Hb. Qed.

Lemma next_app l l' z : next (l ++ l') z = next l (next l' z).
Proof. by destruct l. Qed.

Lemma links_app m l l' z : links m (l ++ l') z <-> links m l (next l' z) /\ links m l' z.
Proof. induction l as [|b l IH]; simpl; [tauto|]. rewrite next_app, IH. tauto. Qed.

Lemma links_frame m m' l z :
  (forall b x, b ∈ l -> b.1 <= x < b.1 + 8 -> mget m' x = mget m x) -> links m l z -> links m' l z.
Proof.
  induction l as [|b l IH]; simpl; [done|]. intros Hf (H1 & H2 & H3). split_and!.
  - rewrite <- H1. apply ld32_frame. intros x Hx. apply (Hf b); [by left|lia].
  - rewrite <- H2. apply ld32_frame. intros x Hx. apply (Hf b); [by left|lia].
  - apply IH; [|done]. intros c x Hc. apply Hf. by right.
Qed.

Lemma apart_app lo l l' hi : apart lo (l ++ l') hi <-> apart lo l (fin lo l) /\ apart (fin lo l) l' hi.
Proof.
  revert lo; induction l as [|b l IH]; intros lo; simpl; [split; [|tauto]; intros H; split; [lia|done]|].
  rewrite IH. unfold fin; simpl. tauto.
Qed.

Lemma apart_le lo l hi : apart lo l hi -> lo <= hi.
Proof. revert lo; induction l as [|b l IH]; simpl; intros lo; [done|]. intros (H1 & H2 & H3%IH). lia. Qed.

Lemma apart_in lo l hi b : apart lo l hi -> b ∈ l -> lo < b.1 /\ 0 <= b.2 /\ b.1 + 8 * b.2 <= hi.
Proof.
  revert lo; induction l as [|c l IH]; simpl; intros lo; [by intros _ ?%not_elem_of_nil|].
  intros (H1 & H2 & H3) [->|Hb]%elem_of_cons; [apply apart_le in H3; lia|].
  destruct (IH _ H3 Hb). lia.
Qed.

Lemma apart_mono lo lo' l hi : lo' <= lo -> apart lo l hi -> apart lo' l hi.
Proof. destruct l as [|b l]; simpl; [lia|]. intros H (H1 & H2). split; [lia|done]. Qed.

Lemma apart_hi lo l hi hi' : hi <= hi' -> apart lo l hi -> apart lo l hi'.
Proof. revert lo; induction l as [|b l IH]; intros lo Hh; simpl; [lia|]. intros (H1 & H2 & H3). eauto. Qed.

Lemma apart_fin lo l : apart lo l (fin lo l) -> forall hi, fin lo l <= hi -> apart lo l hi.
Proof. intros H hi Hh. by eapply apart_hi. Qed.

Lemma apart_split lo l b l' hi : apart lo (l ++ b :: l') hi ->
  (forall c, c ∈ l -> c.1 + 8 * c.2 < b.1) /\ (forall c, c ∈ l' -> b.1 + 8 * b.2 < c.1).
Proof.
  rewrite apart_app. simpl. intros (H1 & H2 & H3 & H4). split; intros c Hc.
  - pose proof (apart_in _ _ _ _ H1 Hc). lia.
  - pose proof (apart_in _ _ _ _ H4 Hc). lia.
Qed.

(** * The ring *)

Section Ring.
  (** [base] is among the program's variables, below the heap, which starts at [brk0]. *)
  Context (base brk0 : Z) (Hbase : 0 < base) (Hbrk0 : base + 8 <= brk0).

Definition headers (fl : list block) : list block := (base, 0) :: fl.

Definition free_block (b : block) : Prop := brk0 <= b.1 /\ 0 < b.2.

Record ring_ok (s : heap) (fl : list block) : Prop := {
  rg_links : links (h_mem s) (headers fl) base;
  rg_apart : apart base fl (h_brk s);
  rg_blocks : Forall free_block fl;
  rg_freep : exists n, (h_freep s, n) ∈ headers fl;
  rg_brk : brk0 <= h_brk s <= KERNBASE
}.

Lemma ring_apart s fl : ring_ok s fl -> apart (base - 1) (headers fl) (h_brk s).
Proof. intros []. simpl. split_and!; [lia|lia|]. replace (base + 8 * 0) with base by lia. done. Qed.

(** Headers do not overlap. *)
Lemma ring_headers s fl l b l' : ring_ok s fl -> headers fl = l ++ b :: l' ->
  (forall c, c ∈ l -> c.1 + 8 <= b.1) /\ (forall c, c ∈ l' -> b.1 + 8 <= c.1).
Proof.
  intros Hr E. pose proof (ring_apart _ _ Hr) as Ha. rewrite E in Ha. destruct (apart_split _ _ _ _ _ Ha) as [H1 H2].
  destruct Hr as [_ _ Hb _ Hk]. rewrite Forall_forall in Hb. split; intros c Hc.
  - specialize (H1 c Hc). destruct l as [|d l]; [by apply not_elem_of_nil in Hc|].
    injection E as <- E. assert (b ∈ fl) as Hb' by (rewrite E; set_solver). destruct (Hb b Hb').
    apply elem_of_cons in Hc as [->|Hc]; [simpl; lia|].
    assert (c ∈ fl) as Hc' by (rewrite E; set_solver). destruct (Hb c Hc'). lia.
  - specialize (H2 c Hc). destruct l as [|d l]; injection E as E1 E.
    + assert (c ∈ fl) as Hc' by (by rewrite E). destruct (Hb c Hc'). subst b. simpl; lia.
    + assert (b ∈ fl) as Hb' by (rewrite E; set_solver). destruct (Hb b Hb'). lia.
Qed.

Lemma ring_bound s fl b : ring_ok s fl -> b ∈ headers fl -> base <= b.1 /\ 0 <= b.2 /\ b.1 + 8 <= h_brk s /\ b.1 + 8 * b.2 <= h_brk s.
Proof.
  intros Hr Hb. pose proof (apart_in _ _ _ _ (ring_apart _ _ Hr) Hb). destruct Hr as [_ _ Hf _ Hk].
  apply elem_of_cons in Hb as [->|Hb]; [simpl; lia|]. rewrite Forall_forall in Hf. destruct (Hf b Hb). lia.
Qed.

Lemma load_in s a : 0 <= a -> a + 4 <= h_brk s -> load a s = Ok (ld32 (h_mem s) a, s).
Proof. intros H1 H2. unfold load. rewrite (proj2 (Z.leb_le _ _) H1), (proj2 (Z.leb_le _ _) H2). done. Qed.

Lemma store_in s a v : 0 <= a -> a + 4 <= h_brk s ->
  store a v s = Ok (tt, mkheap (st32 (h_mem s) a v) (h_freep s) (h_brk s)).
Proof. intros H1 H2. unfold store. rewrite (proj2 (Z.leb_le _ _) H1), (proj2 (Z.leb_le _ _) H2). done. Qed.

Lemma ring_ptr s fl l b l' : ring_ok s fl -> headers fl = l ++ b :: l' -> ptr b.1 s = Ok (next l' base, s).
Proof.
  intros Hr E. destruct (ring_bound s fl b Hr) as (H1 & H2 & H3 & _); [rewrite E; set_solver|].
  unfold ptr. rewrite load_in by lia. pose proof (rg_links _ _ Hr) as Hl. rewrite E, links_app in Hl. simpl in Hl.
  destruct Hl as (_ & -> & _). done.
Qed.

Lemma ring_size s fl b : ring_ok s fl -> b ∈ headers fl -> size b.1 s = Ok (b.2, s).
Proof.
  intros Hr Hb. destruct (ring_bound s fl b Hr Hb) as (H1 & H2 & H3 & _).
  unfold size. rewrite load_in by lia. pose proof (rg_links _ _ Hr) as Hl.
  apply list_elem_of_split in Hb as (l1 & l2 & E). rewrite E, links_app in Hl. simpl in Hl.
  destruct Hl as (_ & _ & -> & _). done.
Qed.

(** ** The place of a block in the ring *)

Lemma free_loop_up fuel s fl bp l0 l p k l2 :
  ring_ok s fl -> base < bp -> headers fl = l0 ++ l ++ (p, k) :: l2 ->
  (forall c, c ∈ l ++ [(p, k)] -> c.1 < bp) -> (forall c, c ∈ l2 -> bp < c.1) -> (length l < fuel)%nat ->
  free_loop fuel bp (next l p) s = Ok (p, s).
Proof.
  intros Hr Hbp. revert fuel l0. induction l as [|[x n] l IH]; intros fuel l0 E Hlo Hhi Hf.
  - destruct fuel as [|fuel]; [simpl in Hf; lia|]. simpl. mstep (ring_ptr s fl l0 (p, k) l2 Hr E).
    assert (p < bp) by (apply (Hlo (p, k)); set_solver).
    destruct l2 as [|[q nq] l2]; simpl.
    + destruct (ring_bound s fl (p, k) Hr) as (H1 & _); [rewrite E; set_solver|]. simpl in H1.
      replace (bp <? base) with false by lia. rewrite andb_false_r.
      replace (p >=? base) with true by lia. replace (bp >? p) with true by lia. done.
    + assert (bp < q) by (apply (Hhi (q, nq)); set_solver).
      replace (bp >? p) with true by lia. replace (bp <? q) with true by lia. done.
  - destruct fuel as [|fuel]; [simpl in Hf; lia|]. simpl.
    mstep (ring_ptr s fl l0 (x, n) (l ++ (p, k) :: l2) Hr E). rewrite next_app. cbn [next fst].
    assert (x < next l p < bp) as Hq.
    { destruct (ring_headers _ _ _ _ _ Hr E) as [_ H2].
      destruct l as [|[y m] l]; simpl.
      - specialize (H2 (p, k)). specialize (Hlo (p, k)). simpl in *. split; [|apply Hlo; set_solver].
        enough (x + 8 <= p) by lia. apply H2. set_solver.
      - specialize (H2 (y, m)). specialize (Hlo (y, m)). simpl in *. split; [|apply Hlo; set_solver].
        enough (x + 8 <= y) by lia. apply H2. set_solver. }
    replace (bp <? next l p) with false by lia. rewrite andb_false_r. replace (x >=? next l p) with false by lia.
    simpl. apply (IH fuel (l0 ++ [(x, n)])); [|set_solver|done|simpl in Hf; lia].
    rewrite E. simpl. by rewrite <- app_assoc.
Qed.

Lemma free_loop_wrap fuel s fl bp l0 l : ring_ok s fl -> base < bp -> headers fl = l0 ++ l ->
  (forall c, c ∈ l -> bp < c.1) ->
  free_loop (length l + fuel) bp (next l base) s = free_loop fuel bp base s.
Proof.
  intros Hr Hbp. revert l0. induction l as [|[x n] l IH]; intros l0 E Hhi; [done|].
  simpl. mstep (ring_ptr s fl l0 (x, n) l Hr E).
  assert (bp < x) by (apply (Hhi (x, n)); set_solver).
  replace (bp >? x) with false by lia. simpl.
  assert ((x >=? next l base) && (bp <? next l base) = false) as ->.
  { destruct (ring_headers _ _ _ _ _ Hr E) as [_ H2]. destruct l as [|[y m] l]; simpl; [lia|].
    specialize (H2 (y, m)). simpl in H2. enough (x + 8 <= y) by lia. apply H2. set_solver. }
  apply (IH (l0 ++ [(x, n)])); [by rewrite <- app_assoc|set_solver].
Qed.

Lemma free_loop_mono fuel fuel' bp p s r : (fuel <= fuel')%nat ->
  free_loop fuel bp p s = Ok r -> free_loop fuel' bp p s = Ok r.
Proof.
  revert fuel' p s. induction fuel as [|fuel IH]; intros fuel' p s Hf; [done|]. destruct fuel' as [|fuel']; [lia|].
  simpl. unfold bind. destruct (ptr p s) as [[q s']| | |]; [|done..].
  destruct (_ && _); [done|]. destruct (_ && _); [done|]. apply IH. lia.
Qed.

(** The blocks below and above an address. *)
Lemma ring_split s fl bp : ring_ok s fl -> base < bp -> ~ (exists n, (bp, n) ∈ fl) ->
  exists l p k l2, headers fl = l ++ (p, k) :: l2 /\
    (forall c, c ∈ l ++ [(p, k)] -> c.1 < bp) /\ (forall c, c ∈ l2 -> bp < c.1).
Proof.
  intros Hr Hbp Hn. pose proof (rg_apart _ _ Hr) as Ha. clear Hr. revert Ha Hn Hbp. unfold headers.
  generalize base at 1 2 3. generalize 0.
  induction fl as [|[q m] fl IH]; intros k b Ha Hn Hbp.
  - exists [], b, k, []. split_and!; [done| |set_solver]. intros c Hc. apply list_elem_of_singleton in Hc as ->. done.
  - simpl in Ha. destruct Ha as (H1 & H2 & H3). destruct (Z.lt_trichotomy q bp) as [Hq|[->|Hq]].
    + destruct (IH m q) as (l & p & k' & l2 & E & Hlo & Hhi).
      * apply (apart_mono (q + 8 * m)); [lia|done].
      * intros (n & Hin). apply Hn. exists n. by right.
      * done.
      * exists ((b, k) :: l), p, k', l2. split_and!; [simpl; by rewrite E| |done].
        intros c [->|Hc]%elem_of_cons; [done|by apply Hlo].
    + destruct Hn. exists m. by left.
    + exists [], b, k, ((q, m) :: fl). split_and!; [done| |].
      * intros c Hc. apply list_elem_of_singleton in Hc as ->. done.
      * intros c [->|Hc]%elem_of_cons; [done|]. pose proof (apart_in _ _ _ _ H3 Hc). lia.
Qed.

Lemma free_loop_spec fuel s fl bp l p k l2 n f : ring_ok s fl -> base < bp ->
  headers fl = l ++ (p, k) :: l2 ->
  (forall c, c ∈ l ++ [(p, k)] -> c.1 < bp) -> (forall c, c ∈ l2 -> bp < c.1) ->
  (f, n) ∈ headers fl -> (S (length fl) < fuel)%nat ->
  free_loop fuel bp f s = Ok (p, s).
Proof.
  intros Hr Hbp E Hlo Hhi Hin Hf.
  assert (length l + S (length l2) = S (length fl))%nat as Hlen.
  { apply (f_equal length) in E. rewrite length_app in E. simpl in E. lia. }
  rewrite E in Hin. apply elem_of_app in Hin as [Hin|Hin].
  - apply list_elem_of_split in Hin as (la & lb & ->).
    apply (free_loop_mono (S (length (la ++ (f, n) :: lb)))); [lia|].
    refine (free_loop_up _ s fl bp la ((f, n) :: lb) p k l2 Hr Hbp _ _ Hhi _).
    + rewrite E. by rewrite <- app_assoc.
    + intros c Hc. apply Hlo. rewrite <- app_assoc. set_solver.
    + rewrite length_app. simpl. lia.
  - apply elem_of_cons in Hin as [[= -> ->]|Hin].
    + apply (free_loop_mono 1); [lia|]. refine (free_loop_up _ s fl bp l [] p k l2 Hr Hbp E _ Hhi _); [|simpl; lia].
      intros c Hc. apply Hlo. set_solver.
    + apply list_elem_of_split in Hin as (la & lb & ->).
      replace fuel with (length ((f, n) :: lb) + (fuel - length ((f, n) :: lb)))%nat
        by (rewrite length_app in Hlen; simpl in *; lia).
      rewrite (free_loop_wrap _ s fl bp (l ++ (p, k) :: la) ((f, n) :: lb) Hr Hbp).
      * assert (base = next l p) as Eb.
        { destruct l as [|d l]; simpl in E; injection E as E1 E2; simpl; [congruence|by rewrite <- E1]. }
        rewrite Eb.
        refine (free_loop_up _ s fl bp [] l p k _ Hr Hbp E Hlo Hhi _). rewrite length_app in Hlen. simpl in *. lia.
      * rewrite E. by rewrite <- app_assoc.
      * intros c Hc. apply Hhi. set_solver.
Qed.

(** ** free *)

(** Joining block [b] with the head of [l] when they are adjacent. *)
Definition join (b : block) (l : list block) : list block :=
  match l with
  | c :: l' => if b.1 + 8 * b.2 =? c.1 then (b.1, b.2 + c.2) :: l' else b :: l
  | [] => [b]
  end.

Lemma covers_join b l x : 0 <= b.2 -> Forall (fun c => 0 <= c.2) l -> covers (join b l) x <-> inside b x \/ covers l x.
Proof.
  intros H0 Hl. destruct l as [|c l]; simpl; [by rewrite covers_cons|].
  destruct (Z.eqb_spec (b.1 + 8 * b.2) c.1) as [E|E]; rewrite !covers_cons; [|done].
  apply Forall_cons in Hl as [Hc _]. unfold inside; simpl. split.
  - intros [H|H]; [|tauto]. destruct (Z.lt_ge_cases x c.1); [left; lia|right; left; lia].
  - intros [H|[H|H]]; [left; lia|left; lia|tauto].
Qed.

Lemma join_forall (P : block -> Prop) b l :
  P b -> Forall P l -> (forall c, P c -> P (b.1, b.2 + c.2)) -> Forall P (join b l).
Proof.
  intros Hb Hl Hj. destruct l as [|c l]; simpl; [by repeat constructor|]. apply Forall_cons in Hl as [Hc Hl].
  destruct (_ =? _); constructor; auto.
Qed.

Lemma join_head b l z : next (join b l) z = b.1.
Proof. destruct l as [|c l]; simpl; [done|]. by destruct (_ =? _). Qed.

Lemma length_join b l : (length (join b l) <= S (length l))%nat.
Proof. destruct l as [|c l]; simpl; [lia|]. destruct (_ =? _); simpl; lia. Qed.

(** The block itself ends up in a block that is not smaller. *)
Lemma join_has b l : Forall (fun c => 0 <= c.2) l -> exists c, c ∈ join b l /\ c.1 = b.1 /\ b.2 <= c.2.
Proof.
  intros Hl. destruct l as [|c l]; simpl; [exists b; set_solver by lia|].
  apply Forall_cons in Hl as [Hc _]. destruct (_ =? _); [exists (b.1, b.2 + c.2)|exists b]; (split; [by left|simpl; lia]).
Qed.

Lemma join_keep b l c : c ∈ l -> 0 <= b.2 -> exists d, d ∈ join b l /\ c.2 <= d.2.
Proof.
  intros Hc Hb. destruct l as [|e l]; [by apply not_elem_of_nil in Hc|]. simpl.
  destruct (_ =? _); [|exists c; split; [by right|lia]].
  apply elem_of_cons in Hc as [->|Hc]; [exists (b.1, b.2 + e.2); split; [by left|simpl; lia]|exists c; split; [by right|lia]].
Qed.

Lemma apart_join lo b l hi : lo < b.1 -> 0 <= b.2 -> b.1 + 8 * b.2 <= hi ->
  (forall c, c ∈ l -> b.1 + 8 * b.2 <= c.1) -> apart b.1 l hi -> apart lo (join b l) hi.
Proof.
  intros H1 H2 H3 Hc Ha. destruct l as [|c l]; simpl; [lia|]. simpl in Ha. destruct Ha as (H4 & H5 & H6).
  destruct (Z.eqb_spec (b.1 + 8 * b.2) c.1) as [E|E]; simpl.
  - split_and!; [lia|lia|]. replace (b.1 + 8 * (b.2 + c.2)) with (c.1 + 8 * c.2) by lia. done.
  - assert (b.1 + 8 * b.2 <= c.1) by (apply Hc; by left). split_and!; [lia|lia|lia|lia|done].
Qed.

(** A pair of stores into one header. *)
Lemma header_stores m p u v x : 0 <= u < 4294967296 -> 0 <= v < 4294967296 ->
  let m' := st32 (st32 m (p + 4) v) p u in
  ld32 m' p = u /\ ld32 m' (p + 4) = v /\ (~ (p <= x < p + 8) -> mget m' x = mget m x).
Proof.
  intros Hu Hv m'. unfold m'. split_and!.
  - by apply ld32_st32_same.
  - rewrite ld32_st32_other by lia. by apply ld32_st32_same.
  - intros Hx. rewrite !mget_st32 by lia. done.
Qed.

(** One of the two conditional joins of [free]: block [b], linked to [l] in memory or
    to be linked to it, is joined with the head of [l]. *)
Definition join_step (p q k : Z) : M heap unit :=
  if hplus p k =? q then
    let! n := size q in
    do! set_size p (u32 (k + n)) in
    let! r := ptr q in
    set_ptr p r
  else set_ptr p q.

Lemma free_eq fuel ap : free fuel ap =
  let bp := u32 (ap - SIZEOF_HEADER) in
  let! p0 := gets h_freep in
  let! p := free_loop fuel bp p0 in
  let! n := size bp in
  let! q := ptr p in
  do! join_step bp q n in
  let! k := size p in
  do! join_step p bp k in
  modify (set_freep p).
Proof. done. Qed.

Lemma join_step_spec s p k l :
  0 <= p -> 0 <= k -> p + 8 <= h_brk s -> p + 8 * k <= h_brk s -> brk0 <= h_brk s <= KERNBASE ->
  ld32 (h_mem s) (p + 4) = k -> links (h_mem s) l base -> apart p l (h_brk s) -> (forall c, c ∈ l -> p + 8 <= c.1 /\ 0 < c.2) ->
  base < p + 8 * k \/ l <> [] ->
  exists m', join_step p (next l base) k s = Ok (tt, mkheap m' (h_freep s) (h_brk s)) /\
    links m' (join (p, k) l) base /\ (forall x, ~ (p <= x < p + 8) -> mget m' x = mget (h_mem s) x).
Proof.
  intros Hp Hk Hh Hkb Hb Hsz Hl Ha Hc Hne. unfold KERNBASE in *.
  assert (hplus p k = p + 8 * k) as Esk by (unfold hplus, SIZEOF_HEADER; apply u32_small; lia).
  assert (forall v, 0 <= v < 4294967296 -> forall l', next l' base = v -> links (h_mem s) l' base ->
    (forall c, c ∈ l' -> p + 8 <= c.1) ->
    let m' := st32 (h_mem s) p v in
    links m' ((p, k) :: l') base /\ (forall x, ~ (p <= x < p + 8) -> mget m' x = mget (h_mem s) x)) as Hset.
  { intros v Hv l' El Hl' Hc'. assert (forall x, ~ (p <= x < p + 8) -> mget (st32 (h_mem s) p v) x = mget (h_mem s) x) as Hf.
    { intros x Hx. by rewrite mget_st32 by lia. }
    split; [|done]. simpl. split_and!.
    - rewrite ld32_st32_same by done. done.
    - rewrite ld32_st32_other by lia. done.
    - eapply links_frame; [|exact Hl']. intros b x Hin Hx. apply Hf. specialize (Hc' b Hin). lia. }
  assert (0 <= next l base < 4294967296 /\ next l base + 8 <= 4294967296) as Hnx.
  { destruct l as [|c l]; simpl; [lia|]. destruct (apart_in _ _ _ c Ha ltac:(by left)) as (?&?&?).
    destruct (Hc c ltac:(by left)). lia. }
  unfold join_step. rewrite Esk. destruct l as [|[q n] l].
  - cbn [next] in *. replace (p + 8 * k =? base) with false by (destruct Hne; [lia|done]).
    cbv iota. unfold set_ptr. rewrite store_in by lia. eexists; split; [done|]. apply Hset; [lia|done|done|]. intros c Hin. by apply Hc.
  - cbn [next fst] in *. simpl join. destruct (Z.eqb_spec (p + 8 * k) q) as [Eq|Nq].
    + simpl in Hl, Ha. destruct Hl as (L1 & L2 & L3), Ha as (A1 & A2 & A3). pose proof (apart_le _ _ _ A3).
      assert (0 < n) by (apply (Hc (q, n)); by left).
      unfold size at 1. rewrite (bind_Ok _ _ _ _ _ (load_in s (q + 4) ltac:(lia) ltac:(lia))). rewrite L2.
      assert (u32 (k + n) = k + n) as -> by (apply u32_small; lia).
      unfold set_size. rewrite (bind_Ok _ _ _ _ _ (store_in s (p + 4) _ ltac:(lia) ltac:(lia))).
      set (s1 := mkheap _ _ _). unfold ptr. rewrite (bind_Ok _ _ _ _ _ (load_in s1 q ltac:(lia) ltac:(simpl; lia))).
      assert (p + 8 <= q) by (apply (Hc (q, n)); by left).
      assert (ld32 (h_mem s1) q = next l base) as ->.
      { simpl. rewrite ld32_st32_other by lia. done. }
      unfold set_ptr. rewrite store_in by (simpl; lia). simpl. eexists; split; [done|].
      assert (0 <= next l base < 4294967296) as Hn2.
      { destruct l as [|c l]; simpl; [lia|]. destruct (apart_in _ _ _ c A3 ltac:(by left)) as (?&?&?). lia. }
      split.
      * simpl. destruct (header_stores (h_mem s) p (next l base) (k + n) 0 Hn2 ltac:(lia)) as (S1 & S2 & _).
        split_and!; [done|done|]. eapply links_frame; [|exact L3]. intros b x Hin Hx.
        destruct (Hc b ltac:(by right)). rewrite !mget_st32 by lia. done.
      * intros x Hx. rewrite !mget_st32 by lia. done.
    + unfold set_ptr. rewrite store_in by lia. eexists; split; [done|]. apply Hset; [lia|done|done|]. intros c Hin. by apply Hc.
Qed.

(** The ring with a new block, joined with its neighbours. *)
Lemma join_ring fl l p k l2 bp n hi :
  headers fl = l ++ (p, k) :: l2 -> apart base fl hi -> Forall free_block fl ->
  free_block (bp, n) -> bp + 8 * n <= hi -> p < bp -> (forall c, c ∈ l2 -> bp < c.1) ->
  (forall x, inside (bp, n) x -> ~ covers fl x) ->
  p + 8 * k <= bp /\ (forall c, c ∈ l2 -> bp + 8 * n <= c.1) /\ apart bp l2 hi /\
  apart p (join (bp, n) l2) hi /\
  exists fl', l ++ join (p, k) (join (bp, n) l2) = headers fl' /\ apart base fl' hi /\ Forall free_block fl' /\
  (length fl' <= S (length fl))%nat /\ (exists b, b ∈ fl' /\ n <= b.2) /\
  (exists m, (p, m) ∈ headers fl') /\ (forall x, covers fl' x <-> inside (bp, n) x \/ covers fl x).
Proof.
  intros E Ha Hfb [Hb1 Hb2] Hhi Hp Hl2 Hd. simpl in Hb1, Hb2.
  assert (apart (base - 1) (headers fl) hi) as Ha'.
  { simpl. split_and!; [lia|lia|]. by replace (base + 8 * 0) with base by lia. }
  assert (forall c, c ∈ fl -> 0 < c.2 /\ (c.1 + 8 * c.2 <= bp \/ bp + 8 * n <= c.1)) as Hdis.
  { intros c Hc. rewrite Forall_forall in Hfb. destruct (Hfb c Hc) as [_ Hc2]. split; [done|].
    destruct (Z.le_gt_cases (c.1 + 8 * c.2) bp); [by left|].
    destruct (Z.le_gt_cases (bp + 8 * n) c.1); [by right|]. exfalso.
    apply (Hd (Z.max bp c.1)); [unfold inside; simpl; lia|]. exists c. split; [done|]. unfold inside. lia. }
  assert (forall c, c ∈ l2 -> c ∈ fl) as Hin2.
  { intros c Hc. destruct l as [|d l]; simpl in E; [injection E as _ _ ->|injection E as _ ->]; set_solver. }
  rewrite E, apart_app in Ha'. simpl in Ha'. destruct Ha' as (Ha1 & Ha2 & Ha3 & Ha4).
  assert (apart bp l2 hi) as Hap.
  { destruct l2 as [|c l2]; simpl in *; [lia|]. destruct Ha4 as (?&?&?). split_and!; [|lia|done]. apply Hl2. by left. }
  assert (forall c, c ∈ l2 -> bp + 8 * n <= c.1) as Hl2'.
  { intros c Hc. destruct (Hdis c (Hin2 c Hc)) as [? [?|?]]; [|done]. specialize (Hl2 c Hc). lia. }
  assert (p + 8 * k <= bp) as Hpk.
  { destruct l as [|d l]; simpl in E; [injection E; lia|injection E as _ E2].
    destruct (Hdis (p, k)) as [? [?|?]]; [rewrite E2; set_solver|done|]. simpl in *. lia. }
  assert (apart p (join (bp, n) l2) hi) as Hj by (apply apart_join; simpl; [lia|lia|lia|done|done]).
  split_and!; [done|done|done|done|].
  assert (Forall (fun c => 0 <= c.2) l2) as Hnn.
  { rewrite Forall_forall. intros c Hc. destruct (Hdis c (Hin2 c Hc)). lia. }
  pose proof (fun x => covers_join (bp, n) l2 x ltac:(simpl; lia) Hnn) as Hcv.
  assert (Forall (fun c => free_block c /\ bp <= c.1) (join (bp, n) l2)) as Hjf.
  { apply join_forall; [split; [by split|simpl; lia]| |].
    - rewrite Forall_forall in Hfb |- *. intros c Hc. specialize (Hl2 c Hc). split; [by apply Hfb, Hin2|lia].
    - intros c [[? ?] ?]. split; [split|]; simpl; lia. }
  destruct l as [|d l]; simpl in E; [injection E as E1 E2 E3|injection E as E1 E2].
  - subst l2 k. exists (join (bp, n) fl). split_and!.
    + assert (join (p, 0) (join (bp, n) fl) = (p, 0) :: join (bp, n) fl) as ->; [|by rewrite <- E1].
      pose proof (join_head (bp, n) fl 0) as Hh. destruct (join (bp, n) fl) as [|c ll]; [done|]. simpl in *.
      replace (p + 8 * 0 =? c.1) with false by lia. done.
    + apply (apart_mono p); [lia|done].
    + eapply Forall_impl; [exact Hjf|]. simpl. tauto.
    + apply length_join.
    + destruct (join_has (bp, n) fl Hnn) as (c & ? & _ & ?). eauto.
    + exists 0. rewrite <- E1. by left.
    + done.
  - assert ((p, k) ∈ fl) as Hpf by (rewrite E2; set_solver).
    destruct (Hdis _ Hpf) as [Hk0 _]. simpl in Hk0.
    assert (free_block (p, k)) as Hpk' by (rewrite Forall_forall in Hfb; by apply Hfb).
    exists (l ++ join (p, k) (join (bp, n) l2)). split_and!.
    + rewrite <- E1. done.
    + assert (fin (base - 1) (d :: l) = fin base l) as Ef.
      { rewrite <- E1. unfold fin. simpl. f_equal. lia. }
      rewrite Ef in Ha1, Ha2. rewrite <- E1 in Ha1. destruct Ha1 as (_ & _ & Ha1). simpl in Ha1.
      replace (base + 8 * 0) with base in Ha1 by lia. rewrite apart_app. split; [done|].
      apply apart_join; simpl; [done|lia|pose proof (apart_le _ _ _ Ha4); lia| |done].
      intros c Hc. rewrite Forall_forall in Hjf. destruct (Hjf c Hc). lia.
    + rewrite E2 in Hfb. apply Forall_app in Hfb as [? ?]. apply Forall_app. split; [done|].
      apply join_forall; [done| |].
      * eapply Forall_impl; [exact Hjf|]. simpl. tauto.
      * intros c [? ?]. split; [apply Hpk'|simpl; lia].
    + rewrite E2, !length_app. pose proof (length_join (p, k) (join (bp, n) l2)).
      pose proof (length_join (bp, n) l2). simpl. lia.
    + destruct (join_has (bp, n) l2 Hnn) as (c & Hc & _ & Hcn).
      destruct (join_keep (p, k) (join (bp, n) l2) c Hc ltac:(simpl; lia)) as (c' & ? & ?).
      exists c'. split; [set_solver|simpl in *; lia].
    + destruct (join_has (p, k) (join (bp, n) l2)) as ([c1 c2] & Hc & Hc1 & _).
      { eapply Forall_impl; [exact Hjf|]. intros c [[? ?] ?]. lia. }
      exists c2. right. simpl in Hc1. subst c1. set_solver.
    + intros x. rewrite E2, !covers_app, covers_cons, covers_join, Hcv; [tauto|simpl; lia|].
      eapply Forall_impl; [exact Hjf|]. intros c [[? ?] ?]. lia.
Qed.

(** [free] puts a block back, joined with its neighbours. *)
Lemma free_spec fuel s fl bp n : ring_ok s fl -> free_block (bp, n) -> bp + 8 * n <= h_brk s ->
  ld32 (h_mem s) (bp + 4) = n -> (forall x, inside (bp, n) x -> ~ covers fl x) -> (S (length fl) < fuel)%nat ->
  exists s' fl', free fuel (bp + 8) s = Ok (tt, s') /\ ring_ok s' fl' /\ h_brk s' = h_brk s /\
    (forall x, covers fl' x <-> inside (bp, n) x \/ covers fl x) /\ (length fl' <= S (length fl))%nat /\
    (exists b, b ∈ fl' /\ n <= b.2) /\
    (forall x, ~ covers fl x -> ~ inside (bp, n) x -> ~ (base <= x < base + 8) -> mget (h_mem s') x = mget (h_mem s) x).
Proof.
  intros Hr Hb Hb3 Hsz Hd Hf. pose proof Hb as [Hb1 Hb2]. simpl in Hb1, Hb2.
  assert (~ (exists k, (bp, k) ∈ fl)) as Hn.
  { intros (k & Hk). apply (Hd bp); [split; simpl; lia|]. exists (bp, k). split; [done|].
    pose proof (rg_blocks _ _ Hr) as Hfb. rewrite Forall_forall in Hfb. destruct (Hfb _ Hk). split; simpl in *; lia. }
  destruct (ring_split s fl bp Hr ltac:(lia) Hn) as (l & p & k & l2 & E & Hlo & Hhi).
  assert (p < bp) as Hpb by (apply (Hlo (p, k)); set_solver).
  destruct (join_ring fl l p k l2 bp n (h_brk s) E (rg_apart _ _ Hr) (rg_blocks _ _ Hr) Hb Hb3 Hpb Hhi Hd)
    as (Hpk & Hl2 & Hap & Hj & fl' & Efl & J1 & J2 & J3 & J4 & J5 & J6).
  pose proof Hr as [Hlk _ Hfb (f & Hfr) Hbrk].
  destruct (ring_headers _ _ _ _ _ Hr E) as [Hh1 Hh2].
  destruct (ring_bound _ _ (p, k) Hr ltac:(rewrite E; set_solver)) as (B1 & B2 & B3 & B4). cbn [fst snd] in *.
  rewrite E, links_app in Hlk. destruct Hlk as (Lk1 & Lk2).
  assert (p + 8 <= bp) as Hp8.
  { destruct l as [|d l]; simpl in E; [injection E; lia|injection E as _ E2].
    rewrite Forall_forall in Hfb. destruct (Hfb (p, k)) as [_ ?]; [rewrite E2; set_solver|]. simpl in *. lia. }
  rewrite free_eq. unfold SIZEOF_HEADER. cbv zeta.
  replace (u32 (bp + 8 - 8)) with bp by (rewrite u32_small; unfold KERNBASE in *; lia).
  mstep (eq_refl : gets h_freep s = Ok (h_freep s, s)).
  mstep (free_loop_spec fuel s fl bp l p k l2 f _ Hr ltac:(lia) E Hlo Hhi Hfr Hf).
  unfold size at 1. mstep (load_in s (bp + 4) ltac:(lia) ltac:(lia)). rewrite Hsz.
  mstep (ring_ptr s fl l (p, k) l2 Hr E).
  assert (forall c, c ∈ l2 -> c ∈ fl) as Hin2.
  { intros c Hc. destruct l as [|d l]; simpl in E; [injection E as _ _ ->|injection E as _ ->]; set_solver. }
  assert (forall c, c ∈ l2 -> bp + 8 <= c.1 /\ 0 < c.2) as Hc2.
  { intros c Hc. specialize (Hl2 c Hc). rewrite Forall_forall in Hfb. destruct (Hfb c (Hin2 c Hc)). lia. }
  destruct (join_step_spec s bp n l2) as (m1 & E1 & Lm1 & Fm1); [lia|lia|lia|lia|lia|done|apply Lk2|done|done|left; lia|].
  mstep E1. set (s1 := mkheap m1 (h_freep s) (h_brk s)).
  assert (ld32 m1 (p + 4) = k) as Hk1.
  { destruct Lk2 as (_ & Hs & _). simpl in Hs. rewrite <- Hs. apply ld32_frame. intros x Hx. apply Fm1. simpl in *. lia. }
  unfold size at 1. mstep (load_in s1 (p + 4) ltac:(lia) ltac:(simpl; lia)). simpl h_mem. rewrite Hk1.
  assert (forall c, c ∈ join (bp, n) l2 -> bp <= c.1 /\ 0 < c.2) as Hcj.
  { intros c Hc. enough (Forall (fun c => bp <= c.1 /\ 0 < c.2) (join (bp, n) l2)) as HF by (rewrite Forall_forall in HF; auto).
    apply join_forall; [simpl; lia| |simpl; intros; lia]. apply Forall_forall. intros d Hd'. specialize (Hc2 d Hd'). lia. }
  destruct (join_step_spec s1 p k (join (bp, n) l2)) as (m2 & E2 & Lm2 & Fm2); simpl; [lia|lia|lia|lia|lia|done|done|done| | |].
  { intros c Hc. destruct (Hcj c Hc). lia. }
  { right. intros Hnil. pose proof (join_head (bp, n) l2 0) as Hjh. rewrite Hnil in Hjh. simpl in Hjh. lia. }
  rewrite join_head in E2. cbn [fst] in E2. mstep E2. eexists _, fl'. split; [reflexivity|].
  assert (forall x, ~ (p <= x < p + 8) -> ~ (bp <= x < bp + 8) -> mget m2 x = mget (h_mem s) x) as Fr.
  { intros x Hx Hx'. rewrite Fm2, Fm1 by done. done. }
  split_and!; [|done|done|done|done|].
  - constructor; cbn [h_mem h_brk h_freep set_freep]; [|done|done|done|done]. rewrite <- Efl, links_app. split; [|done].
    rewrite join_head. simpl in Lk1. eapply links_frame; [|exact Lk1].
    intros b x Hbl Hx. specialize (Hh1 b Hbl). simpl in Hh1. apply Fr; lia.
  - intros x Hx Hx' Hx''. simpl. apply Fr.
    + destruct l as [|d l]; simpl in E; [injection E; lia|injection E as _ E2'].
      intros Hpx. apply Hx. exists (p, k). split; [rewrite E2'; set_solver|].
      rewrite Forall_forall in Hfb. destruct (Hfb (p, k)) as [_ ?]; [rewrite E2'; set_solver|]. unfold inside. simpl in *. lia.
    + unfold inside in Hx'. simpl in Hx'. lia.
Qed.

(** ** malloc *)

(** Addresses tell the blocks of the ring apart. *)
Lemma ring_unique s fl l b l' k c k' : ring_ok s fl -> headers fl = l ++ b :: l' -> headers fl = k ++ c :: k' ->
  b.1 = c.1 -> l = k /\ b = c /\ l' = k'.
Proof.
  intros Hr E1 E2 Hbc. destruct (ring_headers _ _ _ _ _ Hr E1) as [H1 _], (ring_headers _ _ _ _ _ Hr E2) as [H2 _].
  rewrite E1 in E2. apply app_eq_inv in E2 as [(j & -> & E)|(j & -> & E)].
  - destruct j as [|d j]; simpl in E; [injection E as -> ->; by rewrite app_nil_r|].
    injection E as <- ->. specialize (H1 c ltac:(set_solver)). lia.
  - destruct j as [|d j]; simpl in E; [injection E as -> ->; by rewrite app_nil_r|].
    injection E as <- ->. specialize (H2 b ltac:(set_solver)). lia.
Qed.

(** The block that links to [y] is the one before it. *)
Lemma ring_prev s fl l y n l' c : ring_ok s fl -> headers fl = l ++ (y, n) :: l' -> l <> [] -> c ∈ headers fl ->
  ptr c.1 s = Ok (y, s) -> exists k, l = k ++ [c].
Proof.
  intros Hr E Hl Hc Hp. apply list_elem_of_split in Hc as (u & v & E').
  rewrite (ring_ptr _ _ _ _ _ Hr E') in Hp. injection Hp as Hp.
  destruct v as [|e v]; simpl in Hp.
  - destruct l as [|d l]; [done|]. destruct (ring_headers _ _ _ _ _ Hr E) as [H1 _].
    specialize (H1 d ltac:(by left)). injection E as <- _. simpl in H1. lia.
  - destruct (ring_unique s fl l (y, n) l' (u ++ [c]) e v Hr E) as (-> & _); [by rewrite <- app_assoc|done|by exists u].
Qed.

(** The ring and the memory after a block is taken. *)
Record taken (s : heap) (fl : list block) (s' : heap) (fl' : list block) (r n : Z) : Prop := {
  tk_ring : ring_ok s' fl';
  tk_brk : h_brk s' = h_brk s;
  tk_size : ld32 (h_mem s') (r + 4) = n;
  tk_pos : 0 < n;
  tk_in : brk0 <= r /\ r + 8 * n <= h_brk s;
  tk_covers : forall x, covers fl x <-> inside (r, n) x \/ covers fl' x;
  tk_apart : forall x, inside (r, n) x -> ~ covers fl' x;
  tk_length : (length fl' <= length fl)%nat;
  tk_frame : forall x, ~ covers fl x -> ~ (base <= x < base + 8) -> mget (h_mem s') x = mget (h_mem s) x
}.

Lemma apart_disjoint lo l b l' hi x : apart lo (l ++ b :: l') hi -> inside b x -> ~ covers (l ++ l') x.
Proof.
  intros Ha Hx. destruct (apart_split _ _ _ _ _ Ha) as [H1 H2]. unfold inside in Hx.
  rewrite covers_app. intros [(c & Hc & Hcx)|(c & Hc & Hcx)]; unfold inside in Hcx; [specialize (H1 c Hc)|specialize (H2 c Hc)]; lia.
Qed.

Lemma apart_shrink lo l b n l' hi : apart lo (l ++ b :: l') hi -> 0 <= n <= b.2 -> apart lo (l ++ (b.1, n) :: l') hi.
Proof.
  rewrite !apart_app. simpl. intros (H1 & H2 & H3 & H4) Hn. split_and!; [done|lia|lia|].
  eapply apart_mono; [|exact H4]. lia.
Qed.

Lemma apart_remove lo l b l' hi : apart lo (l ++ b :: l') hi -> apart lo (l ++ l') hi.
Proof.
  rewrite !apart_app. simpl. intros (H1 & H2 & H3 & H4). split; [done|]. eapply apart_mono; [|exact H4]. lia.
Qed.

Lemma links_remove m k c b l z : links m (k ++ c :: b :: l) z -> 0 <= next l z < 4294967296 ->
  (forall d, d ∈ k -> d.1 + 8 <= c.1) -> (forall d, d ∈ l -> c.1 + 8 <= d.1) ->
  links (st32 m c.1 (next l z)) (k ++ c :: l) z.
Proof.
  rewrite !links_app. simpl. intros (L1 & L2 & L3 & L4 & L5 & L6) Hz Hk Hl. split_and!.
  - eapply links_frame; [|exact L1]. intros d x Hd Hx. specialize (Hk d Hd). by rewrite mget_st32 by lia.
  - by rewrite ld32_st32_same.
  - rewrite ld32_st32_other by lia. done.
  - eapply links_frame; [|exact L6]. intros d x Hd Hx. specialize (Hl d Hd). by rewrite mget_st32 by lia.
Qed.

Lemma ring_next_bound s fl l b l' : ring_ok s fl -> headers fl = l ++ b :: l' -> 0 <= next l' base < 4294967296.
Proof.
  intros Hr E. pose proof (rg_brk _ _ Hr). unfold KERNBASE in *. destruct l' as [|c l']; simpl; [lia|].
  destruct (ring_bound s fl c Hr) as (?&?&?&?); [rewrite E; set_solver|]. lia.
Qed.

Lemma carve_exact s fl c y n : ring_ok s fl -> c ∈ headers fl -> (y, n) ∈ fl -> ptr c.1 s = Ok (y, s) ->
  exists s' fl', carve n c.1 y n s = Ok (y + 8, s') /\ taken s fl s' fl' y n.
Proof.
  intros Hr Hc Hy Hp. pose proof Hy as Hy'. apply list_elem_of_split in Hy' as (la & lb & Ef).
  assert (headers fl = (base, 0) :: la ++ (y, n) :: lb) as E by (unfold headers; by rewrite Ef).
  destruct (ring_prev s fl ((base, 0) :: la) y n lb c Hr E ltac:(done) Hc Hp) as (k & Ek).
  assert (headers fl = k ++ c :: (y, n) :: lb) as E'.
  { rewrite E. change ((base, 0) :: la ++ (y, n) :: lb) with (((base, 0) :: la) ++ (y, n) :: lb).
    rewrite Ek. by rewrite <- app_assoc. }
  destruct (ring_bound s fl c Hr Hc) as (B1 & B2 & B3 & _). pose proof (rg_brk _ _ Hr) as Hbrk.
  pose proof (rg_blocks _ _ Hr) as Hfb. pose proof Hfb as Hfb'. rewrite Forall_forall in Hfb.
  destruct (Hfb _ Hy) as [Y1 Y2]. destruct (ring_bound s fl (y, n) Hr) as (Y3 & _ & Y4 & Y5); [by right|]. cbn [fst snd] in *.
  pose proof (ring_next_bound s fl ((base, 0) :: la) (y, n) lb Hr E) as Hnb.
  unfold carve. rewrite Z.eqb_refl, bind_assoc. mstep (ring_ptr s fl ((base, 0) :: la) (y, n) lb Hr E).
  rewrite bind_assoc. unfold set_ptr. mstep (store_in s c.1 (next lb base) ltac:(lia) ltac:(lia)).
  eexists _, (la ++ lb). split; [reflexivity|].
  destruct (ring_headers _ _ _ _ _ Hr E') as [H1 H2].
  assert (c.1 + 8 <= y) as Hcy by (apply (H2 (y, n)); set_solver).
  assert (headers (la ++ lb) = k ++ c :: lb) as E2.
  { unfold headers. change ((base, 0) :: la ++ lb) with (((base, 0) :: la) ++ lb). rewrite Ek. by rewrite <- app_assoc. }
  pose proof (rg_apart _ _ Hr) as Ha. rewrite Ef in Ha, Hfb'.
  constructor; cbn [h_mem h_brk h_freep set_freep].
  - constructor; cbn [h_mem h_brk h_freep set_freep].
    + rewrite E2. apply (links_remove _ k c (y, n) lb); [rewrite <- E'; apply (rg_links _ _ Hr)|done|done|].
      intros d Hd. apply H2. set_solver.
    + by eapply apart_remove.
    + apply Forall_app in Hfb' as [? Hfb']. apply Forall_cons in Hfb' as [_ ?]. apply Forall_app. by split.
    + exists c.2. rewrite E2. destruct c. set_solver.
    + done.
  - done.
  - rewrite ld32_st32_other by lia. pose proof (rg_links _ _ Hr) as Hl. rewrite E' in Hl. rewrite links_app in Hl.
    destruct Hl as (_ & _ & _ & _ & Hs & _). exact Hs.
  - done.
  - done.
  - intros x. rewrite Ef, !covers_app, covers_cons. tauto.
  - intros x. by eapply apart_disjoint.
  - rewrite Ef, !length_app. simpl. lia.
  - intros x Hx Hx'. apply mget_st32. apply elem_of_cons in Hc as [->|Hc]; [simpl; lia|].
    intros Hcx. apply Hx. exists c. split; [done|]. destruct (Hfb c Hc). unfold inside. lia.
Qed.

Lemma carve_split s fl c y n nunits : ring_ok s fl -> c ∈ headers fl -> (y, n) ∈ fl -> 0 < nunits < n ->
  exists s' fl', carve nunits c.1 y n s = Ok (y + 8 * (n - nunits) + 8, s') /\
    taken s fl s' fl' (y + 8 * (n - nunits)) nunits.
Proof.
  intros Hr Hc Hy Hn. pose proof Hy as Hy'. apply list_elem_of_split in Hy' as (la & lb & Ef).
  assert (headers fl = ((base, 0) :: la) ++ (y, n) :: lb) as E by (unfold headers; by rewrite Ef).
  pose proof (rg_brk _ _ Hr) as Hbrk. pose proof (rg_blocks _ _ Hr) as Hfb. pose proof Hfb as Hfb'. rewrite Forall_forall in Hfb.
  destruct (Hfb _ Hy) as [Y1 Y2]. destruct (ring_bound s fl (y, n) Hr) as (Y3 & _ & Y4 & Y5); [by right|]. cbn [fst snd] in *.
  unfold KERNBASE in *.
  assert (u32 (n - nunits) = n - nunits) as Eu by (apply u32_small; lia).
  unfold carve. replace (n =? nunits) with false by lia. rewrite bind_assoc. unfold set_size. rewrite Eu.
  mstep (store_in s (y + 4) (n - nunits) ltac:(lia) ltac:(lia)). set (s1 := mkheap _ _ _).
  rewrite bind_assoc. unfold size. mstep (load_in s1 (y + 4) ltac:(lia) ltac:(simpl; lia)).
  assert (ld32 (h_mem s1) (y + 4) = n - nunits) as -> by (simpl; apply ld32_st32_same; lia).
  assert (hplus y (n - nunits) = y + 8 * (n - nunits)) as -> by (unfold hplus, SIZEOF_HEADER; apply u32_small; lia).
  set (r := y + 8 * (n - nunits)) in *. rewrite bind_assoc.
  mstep (store_in s1 (r + 4) nunits ltac:(lia) ltac:(simpl; lia)).
  eexists _, (la ++ (y, n - nunits) :: lb). split; [reflexivity|].
  destruct (ring_headers _ _ _ _ _ Hr E) as [H1 H2]. pose proof (rg_apart _ _ Hr) as Ha. rewrite Ef in Ha, Hfb'.
  destruct (apart_split _ _ _ _ _ Ha) as [A1 A2].
  assert (forall x, inside (y, n) x <-> inside (r, nunits) x \/ inside (y, n - nunits) x) as Hin.
  { intros x. unfold inside. simpl. lia. }
  assert (forall x, ~ inside (y, n) x -> mget (st32 (h_mem s1) (r + 4) nunits) x = mget (h_mem s) x) as Hfr.
  { intros x Hx. unfold inside in Hx. simpl in *. rewrite !mget_st32 by lia. done. }
  constructor; cbn [h_mem h_brk h_freep set_freep s1].
  - constructor; cbn [h_mem h_brk h_freep set_freep s1].
    + pose proof (rg_links _ _ Hr) as Hl. rewrite E, links_app in Hl. destruct Hl as (L1 & L2 & L3 & L4).
      change (headers (la ++ (y, n - nunits) :: lb)) with (((base, 0) :: la) ++ (y, n - nunits) :: lb).
      rewrite links_app. split; [|split; [|split]].
      * eapply links_frame; [|exact L1]. intros d x Hd Hx. apply Hfr. specialize (H1 d Hd). unfold inside. simpl in *. lia.
      * rewrite <- L2. apply ld32_frame. intros x Hx. simpl in *. rewrite !mget_st32 by lia. done.
      * simpl. rewrite ld32_st32_other by lia. apply ld32_st32_same. lia.
      * eapply links_frame; [|exact L4]. intros d x Hd Hx. apply Hfr. specialize (A2 d Hd). unfold inside. simpl in *. lia.
    + apply (apart_shrink _ _ (y, n)); [done|simpl; lia].
    + apply Forall_app in Hfb' as [? Hfb']. apply Forall_cons in Hfb' as [_ ?]. apply Forall_app. split; [done|].
      constructor; [split; simpl; lia|done].
    + pose proof Hc as Hc'. rewrite E in Hc'. destruct c as [c1 c2].
      change (headers (la ++ (y, n - nunits) :: lb)) with (((base, 0) :: la) ++ (y, n - nunits) :: lb).
      apply elem_of_app in Hc' as [?|[[= -> ->]|?]%elem_of_cons]; [exists c2|exists (n - nunits)|exists c2]; set_solver.
    + unfold KERNBASE. lia.
  - done.
  - apply ld32_st32_same. lia.
  - lia.
  - lia.
  - intros x. rewrite Ef, !covers_app, !covers_cons, Hin. tauto.
  - intros x Hx. assert (inside (y, n) x) as Hx' by (apply Hin; by left).
    pose proof (apart_disjoint _ _ _ _ _ _ Ha Hx') as Hd. rewrite covers_app in Hd.
    rewrite covers_app, covers_cons. unfold inside in *. simpl in *. intros [?|[?|?]]; [tauto|lia|tauto].
  - rewrite Ef, !length_app. simpl. lia.
  - intros x Hx Hx'. apply Hfr. intros Hin'. apply Hx. exists (y, n). done.
Qed.

Section Search.
  Context (sbrk : Z -> M heap Z).
Abbreviation malloc_loop := (malloc_loop sbrk).

(** Going on along blocks that are too small. *)
Lemma malloc_loop_skip s fl nunits l : forall l0 l' c fuel, ring_ok s fl -> headers fl = l0 ++ l ++ l' ->
  c ∈ headers fl -> ptr c.1 s = Ok (next (l ++ l') base, s) ->
  (forall b, b ∈ l -> b.2 < nunits /\ b.1 <> h_freep s) ->
  exists c', c' ∈ headers fl /\ ptr c'.1 s = Ok (next l' base, s) /\
    malloc_loop (length l + fuel) nunits c.1 (next (l ++ l') base) s = malloc_loop fuel nunits c'.1 (next l' base) s.
Proof.
  induction l as [|b l IH]; intros l0 l' c fuel Hr E Hc Hp Hs; [eauto|].
  assert (b ∈ headers fl) as Hb by (rewrite E; set_solver).
  destruct (Hs b ltac:(by left)) as [Hb1 Hb2].
  destruct (IH (l0 ++ [b]) l' b fuel Hr) as (c' & H1 & H2 & H3); [rewrite E; simpl; by rewrite <- app_assoc|done| |set_solver|].
  { by rewrite (ring_ptr s fl l0 b (l ++ l') Hr E). }
  exists c'. split_and!; [done|done|]. rewrite <- H3. simpl.
  mstep (ring_size s fl b Hr Hb). replace (b.2 >=? nunits) with false by lia.
  mstep (eq_refl : gets h_freep s = Ok (h_freep s, s)). replace (b.1 =? h_freep s) with false by lia.
  mstep (ring_ptr s fl l0 b (l ++ l') Hr E). done.
Qed.

Lemma malloc_loop_hit s fl nunits c b fuel : ring_ok s fl -> b ∈ headers fl -> nunits <= b.2 ->
  malloc_loop (S fuel) nunits c b.1 s = carve nunits c b.1 b.2 s.
Proof. intros Hr Hb Hn. simpl. mstep (ring_size s fl b Hr Hb). replace (b.2 >=? nunits) with true by lia. done. Qed.

Lemma first_big nunits (l : list block) :
  (exists a b a', l = a ++ b :: a' /\ nunits <= b.2 /\ forall c, c ∈ a -> c.2 < nunits) \/ (forall c, c ∈ l -> c.2 < nunits).
Proof.
  induction l as [|b l IH]; [right; by intros c ?%not_elem_of_nil|].
  destruct (Z.le_gt_cases nunits b.2) as [Hb|Hb].
  { left. exists [], b, l. split_and!; [done|done|by intros c ?%not_elem_of_nil]. }
  destruct IH as [(a & c & a' & -> & Hc & Ha)|H].
  - left. exists (b :: a), c, a'. split_and!; [done|done|]. intros d [->|Hd]%elem_of_cons; [lia|auto].
  - right. intros d [->|Hd]%elem_of_cons; [lia|auto].
Qed.

(** A whole round from [freep]: it ends at the first block that is big enough, or
    at [freep] itself. *)
Lemma malloc_loop_round s fl nunits l x l2 fuel : ring_ok s fl -> 0 < nunits ->
  headers fl = l ++ x :: l2 -> x.1 = h_freep s ->
  (exists c b k, c ∈ headers fl /\ b ∈ fl /\ nunits <= b.2 /\ ptr c.1 s = Ok (b.1, s) /\
     malloc_loop (S (length fl) + fuel) nunits x.1 (next l2 base) s = malloc_loop (S k) nunits c.1 b.1 s) \/
  ((forall b, b ∈ headers fl -> b.2 < nunits) /\
   exists c, malloc_loop (S (length fl) + fuel) nunits x.1 (next l2 base) s = malloc_loop (S fuel) nunits c x.1 s).
Proof.
  intros Hr Hn E Hx. destruct (ring_headers _ _ _ _ _ Hr E) as [H1 H2].
  assert (length l + length l2 = length fl)%nat as Hlen.
  { apply (f_equal length) in E. rewrite length_app in E. simpl in E. lia. }
  assert (forall b, b ∈ headers fl -> nunits <= b.2 -> b ∈ fl) as Hbig.
  { intros b [->|Hb]%elem_of_cons Hb2; [simpl in Hb2; lia|done]. }
  assert (x ∈ headers fl) as Hxin by (rewrite E; set_solver).
  assert (forall b, b ∈ l -> b.1 <> h_freep s) as Hl by (intros b Hb; specialize (H1 b Hb); lia).
  assert (forall b, b ∈ l2 -> b.1 <> h_freep s) as Hl2 by (intros b Hb; specialize (H2 b Hb); lia).
  pose proof (ring_ptr s fl l x l2 Hr E) as Hpx.
  destruct (first_big nunits l2) as [(a & b & a' & -> & Hb & Ha)|Hs2].
  { left. destruct (malloc_loop_skip s fl nunits a (l ++ [x]) (b :: a') x (S (length fl) + fuel - length a) Hr)
      as (c & C1 & C2 & C3); [by rewrite E, <- app_assoc|done|done| |].
    { intros d Hd. split; [auto|]. apply Hl2. set_solver. }
    exists c, b, (length fl + fuel - length a)%nat. split_and!; [done|apply Hbig; [rewrite E; set_solver|done]|done|done|].
    rewrite length_app in Hlen. simpl in Hlen.
    replace (S (length fl) + fuel)%nat with (length a + (S (length fl) + fuel - length a))%nat at 1 by lia.
    rewrite C3. simpl next. f_equal. lia. }
  destruct (malloc_loop_skip s fl nunits l2 (l ++ [x]) [] x (S (length fl) + fuel - length l2) Hr) as (c & C1 & C2 & C3);
    [by rewrite app_nil_r, E, <- app_assoc|done|by rewrite app_nil_r|intros d Hd; by auto|].
  rewrite app_nil_r in C3. simpl next in C2, C3.
  replace (length l2 + (S (length fl) + fuel - length l2))%nat with (S (length fl) + fuel)%nat in C3 by lia.
  rewrite C3. clear C3. assert (next (l ++ x :: l2) base = base) as Hhd by (by rewrite <- E).
  destruct (first_big nunits l) as [(a & b & a' & -> & Hb & Ha)|Hs1].
  { left. destruct (malloc_loop_skip s fl nunits a [] (b :: a' ++ x :: l2) c (S (length fl) + fuel - length l2 - length a) Hr)
      as (d & D1 & D2 & D3); [by rewrite E, <- app_assoc|done| |intros d Hd; split; [auto|apply Hl; set_solver]|].
    { rewrite C2. rewrite <- app_assoc in Hhd. simpl in Hhd. by rewrite Hhd. }
    rewrite <- app_assoc in Hhd. simpl in Hhd. rewrite Hhd in D3. rewrite length_app in Hlen. simpl in Hlen.
    exists d, b, (length fl + fuel - length l2 - length a)%nat.
    split_and!; [done|apply Hbig; [rewrite E; set_solver|done]|done|done|].
    replace (S (length fl) + fuel - length l2)%nat with (length a + (S (length fl) + fuel - length l2 - length a))%nat at 1 by lia.
    rewrite D3. simpl next. f_equal. lia. }
  destruct (malloc_loop_skip s fl nunits l [] (x :: l2) c (S fuel) Hr) as (d & D1 & D2 & D3);
    [done|done|by rewrite C2, Hhd|intros d Hd; by auto|].
  rewrite Hhd in D3. replace (S (length fl) + fuel - length l2)%nat with (length l + S fuel)%nat by lia.
  rewrite D3. simpl next. destruct (Z.le_gt_cases nunits x.2) as [Hx2|Hx2].
  - left. exists d, x, fuel. split_and!; [done|by apply Hbig|done|done|done].
  - right. split; [|by exists d.1]. intros b Hb. rewrite E in Hb.
    apply elem_of_app in Hb as [?|[->|?]%elem_of_cons]; [auto|lia|auto].
Qed.
End Search.

(** What the kernel promises of sbrk for a positive number of bytes: it fails and
    changes nothing, or returns the old end of the memory, which grows at the end. *)
Class Sbrk (sbrk : Z -> M heap Z) : Prop :=
  sbrk_spec n s : 0 < n < 2147483648 ->
    sbrk n s = Ok (-1, s) \/
    exists m, sbrk n s = Ok (h_brk s, mkheap m (h_freep s) (h_brk s + n)) /\ h_brk s + n < KERNBASE /\
      forall x, x < h_brk s -> mget m x = mget (h_mem s) x.

Section Malloc.
  Context (sbrk : Z -> M heap Z) `{!Sbrk sbrk}.

(** Units that [morecore] asks for. *)
Definition core (nunits : Z) : Z := Z.max 4096 nunits.

Lemma morecore_spec fuel s fl nunits : ring_ok s fl -> 0 < nunits -> 8 * core nunits < 2147483648 -> (S (length fl) < fuel)%nat ->
  (sbrk (8 * core nunits) s = Ok (-1, s) /\ morecore sbrk fuel nunits s = Ok (0, s)) \/
  exists s' fl', morecore sbrk fuel nunits s = Ok (h_freep s', s') /\ ring_ok s' fl' /\ h_freep s' <> 0 /\
    h_brk s' = h_brk s + 8 * core nunits /\ (length fl' <= S (length fl))%nat /\
    (forall x, covers fl' x <-> h_brk s <= x < h_brk s' \/ covers fl x) /\ (exists b, b ∈ fl' /\ nunits <= b.2) /\
    (forall x, x < h_brk s -> ~ covers fl x -> ~ (base <= x < base + 8) -> mget (h_mem s') x = mget (h_mem s) x).
Proof.
  intros Hr Hn Hc Hf. pose proof Hr as [Hl Ha Hfb Hfp Hbrk]. unfold KERNBASE in *.
  assert (core nunits = if nunits <? 4096 then 4096 else nunits) as Ec by (unfold core; destruct (Z.ltb_spec nunits 4096); lia).
  unfold morecore, SIZEOF_HEADER. cbv zeta. rewrite <- Ec. set (nu := core nunits) in *.
  assert (4096 <= nu /\ nunits <= nu) as [Hnu Hnu'] by (unfold nu, core; lia).
  rewrite s32_small by lia. replace (nu * 8) with (8 * nu) by lia.
  destruct (sbrk_spec (8 * nu) s ltac:(lia)) as [E|(m & E & Hk & Hm)].
  { left. split; [done|]. mstep E. done. }
  right. mstep E. set (s1 := mkheap m (h_freep s) (h_brk s + 8 * nu)). unfold KERNBASE in Hk.
  assert (u32 (h_brk s) = h_brk s) as -> by (apply u32_small; lia).
  replace (h_brk s =? u32 (-1)) with false by (change (u32 (-1)) with 4294967295; lia).
  unfold set_size. mstep (store_in s1 (h_brk s + 4) nu ltac:(lia) ltac:(simpl; lia)). set (s2 := mkheap _ _ _).
  assert (forall x, x < h_brk s -> mget (h_mem s2) x = mget (h_mem s) x) as Hfr.
  { intros x Hx. simpl. rewrite mget_st32 by lia. by apply Hm. }
  assert (ring_ok s2 fl) as Hr2.
  { constructor; [|by apply (apart_hi _ _ (h_brk s)); [simpl; lia|]|done|done|simpl; unfold KERNBASE; lia].
    eapply links_frame; [|exact Hl]. intros b x Hb Hx. apply Hfr.
    destruct (ring_bound s fl b Hr Hb) as (?&?&?&?). lia. }
  destruct (free_spec fuel s2 fl (h_brk s) nu Hr2) as (s' & fl' & E' & R1 & R2 & R3 & R4 & (b & R5 & R5') & R6);
    [split; simpl; lia|simpl; lia|by apply ld32_st32_same; lia| |done|].
  { intros x Hx (b & Hb & Hbx). destruct (apart_in _ _ _ _ Ha Hb) as (?&?&?). unfold inside in *. simpl in Hx. lia. }
  mstep E'. exists s', fl'. split_and!; [done|done| |by rewrite R2|done| |exists b; split; [done|lia]|].
  - destruct (rg_freep _ _ R1) as (k & Hk'). destruct (ring_bound _ _ _ R1 Hk') as (?&_). simpl in *. lia.
  - intros x. rewrite R3, R2. unfold inside. simpl. tauto.
  - intros x Hx Hx' Hx''. rewrite R6; [by apply Hfr|done| |done]. unfold inside. simpl. lia.
Qed.

(** Memory after [malloc]: the block [(a, n)] comes from the free blocks and the
    memory the kernel gave. *)
Record allocated (s : heap) (fl : list block) (s' : heap) (fl' : list block) (a n : Z) : Prop := {
  al_ring : ring_ok s' fl';
  al_brk : h_brk s <= h_brk s';
  al_size : ld32 (h_mem s') (a + 4) = n;
  al_pos : 0 < n;
  al_in : brk0 <= a /\ a + 8 * n <= h_brk s';
  al_covers : forall x, h_brk s <= x < h_brk s' \/ covers fl x <-> inside (a, n) x \/ covers fl' x;
  al_apart : forall x, inside (a, n) x -> ~ covers fl' x;
  al_frame : forall x, x < h_brk s -> ~ covers fl x -> ~ (base <= x < base + 8) -> mget (h_mem s') x = mget (h_mem s) x
}.

Lemma taken_allocated s0 fl0 s fl s' fl' a n :
  h_brk s0 <= h_brk s -> (forall x, covers fl x <-> h_brk s0 <= x < h_brk s \/ covers fl0 x) ->
  (forall x, x < h_brk s0 -> ~ covers fl0 x -> ~ (base <= x < base + 8) -> mget (h_mem s) x = mget (h_mem s0) x) ->
  taken s fl s' fl' a n -> allocated s0 fl0 s' fl' a n.
Proof.
  intros H1 H2 H3 [T1 T2 T3 T4 T5 T6 T7 T8 T9]. constructor; [done|lia|done|done|lia| |done|].
  - intros x. rewrite <- T6, H2, T2. done.
  - intros x Hx Hx' Hx''. rewrite T9; [by apply H3| |done]. rewrite H2. intros [?|?]; [lia|done].
Qed.

Lemma carve_spec s fl c b nunits : ring_ok s fl -> c ∈ headers fl -> b ∈ fl -> 0 < nunits <= b.2 -> ptr c.1 s = Ok (b.1, s) ->
  exists s' fl' a, carve nunits c.1 b.1 b.2 s = Ok (a + 8, s') /\ taken s fl s' fl' a nunits.
Proof.
  destruct b as [y n]. cbn [fst snd]. intros Hr Hc Hb Hn Hp. destruct (Z.eq_dec nunits n) as [->|Hne].
  - destruct (carve_exact s fl c y n Hr Hc Hb Hp) as (s' & fl' & ? & ?). eauto.
  - destruct (carve_split s fl c y n nunits Hr Hc Hb ltac:(lia)) as (s' & fl' & ? & ?). eauto.
Qed.

(** The search succeeds when some block is big enough. *)
Lemma malloc_loop_found fuel s fl nunits p q : ring_ok s fl -> 0 < nunits -> p = h_freep s -> ptr p s = Ok (q, s) ->
  (exists b, b ∈ headers fl /\ nunits <= b.2) -> (S (length fl) <= fuel)%nat ->
  exists s' fl' a, malloc_loop sbrk fuel nunits p q s = Ok (a + 8, s') /\ taken s fl s' fl' a nunits.
Proof.
  intros Hr Hn -> Hq (b & Hb & Hbn) Hf. destruct (rg_freep _ _ Hr) as (k & Hk).
  apply list_elem_of_split in Hk as (l & l2 & E). pose proof (ring_ptr _ _ _ _ _ Hr E) as Hp. simpl in Hp.
  rewrite Hp in Hq. injection Hq as <-.
  destruct (malloc_loop_round sbrk s fl nunits l (h_freep s, k) l2 (fuel - S (length fl)) Hr Hn E eq_refl)
    as [(c & d & j & Hc & Hd & Hdn & Hpd & Em)|[Hsmall _]]; [|specialize (Hsmall b Hb); lia].
  replace (S (length fl) + (fuel - S (length fl)))%nat with fuel in Em by lia. simpl in Em.
  destruct (carve_spec s fl c d nunits Hr Hc Hd ltac:(lia) Hpd) as (s' & fl' & a & Ec & Ht).
  exists s', fl', a. split; [|done]. rewrite Em, <- Ec. apply (malloc_loop_hit sbrk s fl); [done|by right|done].
Qed.

Lemma malloc_loop_spec fuel s fl nunits q : ring_ok s fl -> 0 < nunits -> 8 * core nunits < 2147483648 ->
  ptr (h_freep s) s = Ok (q, s) -> (2 * length fl + 5 <= fuel)%nat ->
  (malloc_loop sbrk fuel nunits (h_freep s) q s = Ok (0, s) /\ sbrk (8 * core nunits) s = Ok (-1, s)) \/
  exists s' fl' a, malloc_loop sbrk fuel nunits (h_freep s) q s = Ok (a + 8, s') /\ allocated s fl s' fl' a nunits.
Proof.
  intros Hr Hn Hc Hq Hf. destruct (rg_freep _ _ Hr) as (k & Hk).
  apply list_elem_of_split in Hk as (l & l2 & E). pose proof (ring_ptr _ _ _ _ _ Hr E) as Hp. simpl in Hp.
  pose proof Hq as Hq'. rewrite Hp in Hq. injection Hq as <-.
  destruct (malloc_loop_round sbrk s fl nunits l (h_freep s, k) l2 (fuel - S (length fl)) Hr Hn E eq_refl)
    as [(c & d & j & _ & Hd & Hdn & _)|[Hsmall (c & Em)]].
  - right. destruct (malloc_loop_found fuel s fl nunits (h_freep s) _ Hr Hn eq_refl Hq') as (s' & fl' & a & Em & Ht);
      [exists d; split; [by right|done]|lia|].
    exists s', fl', a. split; [done|]. apply (taken_allocated s fl s fl); [lia| |done|done].
    intros x. split; [by right|]. intros [?|?]; [lia|done].
  - replace (S (length fl) + (fuel - S (length fl)))%nat with fuel in Em by lia. cbn [fst] in Em. rewrite Em. simpl.
    assert ((h_freep s, k) ∈ headers fl) as Hin by (rewrite E; set_solver).
    mstep (ring_size s fl _ Hr Hin). cbn [snd]. specialize (Hsmall _ Hin). cbn [snd] in Hsmall.
    replace (k >=? nunits) with false by lia.
    mstep (eq_refl : gets h_freep s = Ok (h_freep s, s)). rewrite Z.eqb_refl.
    destruct (morecore_spec (fuel - S (length fl)) s fl nunits Hr Hn Hc ltac:(lia))
      as [[Es Ek]|(s1 & fl1 & Ek & R1 & R2 & R3 & R4 & R5 & (b & R6 & R6') & R7)].
    { left. mstep Ek. done. }
    right. mstep Ek. replace (h_freep s1 =? 0) with false by lia.
    destruct (rg_freep _ _ R1) as (k1 & Hk1). apply list_elem_of_split in Hk1 as (la & lb & E1).
    pose proof (ring_ptr _ _ _ _ _ R1 E1) as Hp1. cbn [fst] in Hp1. mstep Hp1.
    destruct (malloc_loop_found (fuel - S (length fl)) s1 fl1 nunits (h_freep s1) _ R1 Hn eq_refl Hp1)
      as (s' & fl' & a & Em' & Ht); [exists b; split; [by right|done]|lia|].
    exists s', fl', a. split; [done|]. apply (taken_allocated s fl s1 fl1); [|done|done|done]. unfold core in *. lia.
Qed.

(** The state before the first call, and the one that it sets up. *)
Definition fresh_heap (s : heap) : Prop := h_freep s = 0 /\ brk0 <= h_brk s <= KERNBASE.

Lemma fresh_ring s : fresh_heap s ->
  exists s', (do! set_ptr base base in do! modify (set_freep base) in set_size base 0) s = Ok (tt, s') /\
    ring_ok s' [] /\ h_freep s' = base /\ h_brk s' = h_brk s /\
    (forall x, ~ (base <= x < base + 8) -> mget (h_mem s') x = mget (h_mem s) x).
Proof.
  intros [H0 Hk]. pose proof Hk as Hk'. unfold KERNBASE in Hk'. unfold set_ptr.
  mstep (store_in s base base ltac:(lia) ltac:(lia)). set (s1 := mkheap _ _ _).
  mstep (eq_refl : modify (set_freep base) s1 = Ok (tt, set_freep base s1)).
  unfold set_size. eexists. split; [apply store_in; simpl; lia|]. cbn [h_mem h_brk h_freep set_freep s1].
  split_and!; [|done|done|intros x Hx; by rewrite !mget_st32 by lia].
  constructor; cbn [h_mem h_brk h_freep]; [|simpl; lia|done|exists 0; by left|done].
  simpl. split_and!; [|apply ld32_st32_same; lia|done]. rewrite ld32_st32_other by lia. apply ld32_st32_same. lia.
Qed.

(** The size of a block for a request of [nbytes]. *)
Lemma nunits_of_spec nbytes : 0 <= nbytes < 4294967296 - 7 ->
  nunits_of nbytes = (nbytes + 7) / 8 + 1 /\ nbytes + 8 <= 8 * nunits_of nbytes.
Proof.
  intros H. unfold nunits_of, SIZEOF_HEADER. rewrite (u32_small (nbytes + 8 - 1)) by lia.
  replace (nbytes + 8 - 1) with (nbytes + 7) by lia. rewrite u32_small by divmod. split; [done|divmod].
Qed.

(** Requests that fit an int after rounding. *)
Definition max_request : Z := 2147483624.

Lemma nunits_of_max nbytes : 0 <= nbytes <= max_request -> 0 < nunits_of nbytes /\ 8 * core (nunits_of nbytes) < 2147483648.
Proof.
  unfold max_request. intros H. destruct (nunits_of_spec nbytes ltac:(lia)) as [E _]. rewrite E. unfold core. divmod.
Qed.

Lemma malloc_spec fuel s fl nbytes : ring_ok s fl \/ (fresh_heap s /\ fl = []) ->
  0 <= nbytes <= max_request -> (2 * length fl + 5 <= fuel)%nat ->
  (exists s', malloc base sbrk fuel nbytes s = Ok (0, s') /\ ring_ok s' fl /\ h_brk s' = h_brk s /\
     sbrk (8 * core (nunits_of nbytes)) s' = Ok (-1, s') /\
     forall x, ~ (base <= x < base + 8) -> mget (h_mem s') x = mget (h_mem s) x) \/
  exists s' fl' a, malloc base sbrk fuel nbytes s = Ok (a + 8, s') /\ allocated s fl s' fl' a (nunits_of nbytes).
Proof.
  intros Hr Hn Hf. destruct (nunits_of_max nbytes Hn) as [Hn1 Hn2].
  assert (exists s1, (let! f := gets h_freep in
      when (f =? 0) (do! set_ptr base base in do! modify (set_freep base) in set_size base 0)) s = Ok (tt, s1) /\
    ring_ok s1 fl /\ h_brk s1 = h_brk s /\ (forall x, ~ (base <= x < base + 8) -> mget (h_mem s1) x = mget (h_mem s) x))
    as (s1 & E1 & Hr1 & Hb1 & Hf1).
  { destruct Hr as [Hr|[Hr ->]].
    - exists s. mstep (eq_refl : gets h_freep s = Ok (h_freep s, s)).
      destruct (rg_freep _ _ Hr) as (k & Hk). destruct (ring_bound _ _ _ Hr Hk) as (?&_). simpl in *.
      replace (h_freep s =? 0) with false by lia. done.
    - destruct (fresh_ring s Hr) as (s1 & E1 & ? & ? & ? & ?). exists s1.
      mstep (eq_refl : gets h_freep s = Ok (h_freep s, s)). destruct Hr as [-> _]. done. }
  unfold malloc. rewrite <- bind_assoc. mstep E1. mstep (eq_refl : gets h_freep s1 = Ok (h_freep s1, s1)).
  destruct (rg_freep _ _ Hr1) as (k & Hk). apply list_elem_of_split in Hk as (l & l2 & E).
  pose proof (ring_ptr _ _ _ _ _ Hr1 E) as Hp. cbn [fst] in Hp. mstep Hp.
  destruct (malloc_loop_spec fuel s1 fl (nunits_of nbytes) _ Hr1 Hn1 Hn2 Hp Hf) as [[Em Es]|(s' & fl' & a & Em & Ha)].
  - left. exists s1. done.
  - right. exists s', fl', a. split; [done|]. destruct Ha as [A1 A2 A3 A4 A5 A6 A7 A8].
    constructor; rewrite <- ?Hb1; [done..|]. intros x Hx Hx' Hx''. rewrite A8 by done. by apply Hf1.
Qed.

(** * Programs that use the allocator *)

(** The memory, the blocks the program holds (address of the header and units), and
    the memory it got from sbrk itself (address and bytes). *)
Record client := mkclient { c_heap : heap; c_blocks : gmap Z Z; c_own : list (Z * Z) }.

Definition in_blocks (c : client) (x : Z) : Prop := exists a n, c_blocks c !! a = Some n /\ inside (a, n) x.
Definition in_own (c : client) (x : Z) : Prop := exists r, r ∈ c_own c /\ r.1 <= x < r.1 + r.2.

(** Where a correct program stores: into the blocks it holds behind their headers,
    into its own memory and its variables. *)
Definition writable (c : client) (x : Z) : Prop :=
  (exists a n, c_blocks c !! a = Some n /\ a + 8 <= x < a + 8 * n) \/ in_own c x \/ (x < brk0 /\ ~ (base <= x < base + 8)).

(** Enough for a walk around the ring, whatever is free. *)
Definition enough (s : heap) (fuel : nat) : Prop := h_brk s <= Z.of_nat fuel.

Inductive cstep : client -> client -> Prop :=
| do_malloc c fuel nbytes r s' :
    0 <= nbytes <= max_request -> enough (c_heap c) fuel ->
    malloc base sbrk fuel nbytes (c_heap c) = Ok (r, s') ->
    cstep c (mkclient s' (if r =? 0 then c_blocks c else <[r - 8 := nunits_of nbytes]> (c_blocks c)) (c_own c))
| do_free c fuel a n s' :
    c_blocks c !! a = Some n -> enough (c_heap c) fuel ->
    free fuel (a + 8) (c_heap c) = Ok (tt, s') ->
    cstep c (mkclient s' (delete a (c_blocks c)) (c_own c))
| do_store c x v :
    writable c x ->
    cstep c (mkclient (mkheap (mset (h_mem (c_heap c)) x v) (h_freep (c_heap c)) (h_brk (c_heap c))) (c_blocks c) (c_own c))
| do_sbrk c n r s' :
    0 < n < 2147483648 -> sbrk n (c_heap c) = Ok (r, s') -> r <> -1 ->
    cstep c (mkclient s' (c_blocks c) ((r, n) :: c_own c)).

(** The memory above [brk0] is made of free blocks, blocks held and memory of the
    program's own, without overlap. *)
Record client_ok (c : client) (fl : list block) : Prop := {
  ck_ring : ring_ok (c_heap c) fl \/ (fresh_heap (c_heap c) /\ fl = [] /\ c_blocks c = ∅);
  ck_block : forall a n, c_blocks c !! a = Some n ->
    0 < n /\ brk0 <= a /\ a + 8 * n <= h_brk (c_heap c) /\ ld32 (h_mem (c_heap c)) (a + 4) = n;
  ck_own : forall r, r ∈ c_own c -> brk0 <= r.1 /\ r.1 + r.2 <= h_brk (c_heap c);
  ck_apart : forall a n a' n' x, c_blocks c !! a = Some n -> c_blocks c !! a' = Some n' -> a <> a' ->
    inside (a, n) x -> ~ inside (a', n') x;
  ck_free_blocks : forall x, covers fl x -> ~ in_blocks c x;
  ck_free_own : forall x, covers fl x -> ~ in_own c x;
  ck_blocks_own : forall x, in_blocks c x -> ~ in_own c x;
  ck_all : forall x, brk0 <= x < h_brk (c_heap c) -> covers fl x \/ in_blocks c x \/ in_own c x
}.

Lemma client_brk c fl : client_ok c fl -> brk0 <= h_brk (c_heap c) <= KERNBASE.
Proof. intros []. destruct ck_ring0 as [Hr|[[_ Hr] _]]; [apply (rg_brk _ _ Hr)|done]. Qed.

Lemma client_free_range c fl x : client_ok c fl -> covers fl x -> brk0 <= x < h_brk (c_heap c).
Proof.
  intros Hc (b & Hb & Hx). destruct (ck_ring _ _ Hc) as [Hr|(_ & -> & _)]; [|by apply not_elem_of_nil in Hb].
  pose proof (rg_blocks _ _ Hr) as Hfb. rewrite Forall_forall in Hfb. destruct (Hfb b Hb).
  pose proof (apart_in _ _ _ _ (rg_apart _ _ Hr) Hb). unfold inside in Hx. lia.
Qed.

Lemma client_length c fl : client_ok c fl -> 8 * Z.of_nat (length fl) <= h_brk (c_heap c) - brk0.
Proof.
  intros Hc. pose proof (client_brk _ _ Hc) as Hk. destruct (ck_ring _ _ Hc) as [Hr|(_ & -> & _)]; [|simpl; lia].
  pose proof (rg_blocks _ _ Hr) as Hfb. pose proof (rg_apart _ _ Hr) as Ha.
  assert (forall lo l hi, apart lo l hi -> Forall free_block l -> 8 * Z.of_nat (length l) <= Z.max brk0 hi - Z.max brk0 lo) as HL.
  { intros lo l. revert lo. induction l as [|b l IH]; intros lo hi; simpl; [intros; lia|].
    intros (H1 & H2 & H3) [[H4 H5] H6]%Forall_cons. specialize (IH _ _ H3 H6). lia. }
  specialize (HL _ _ _ Ha Hfb). lia.
Qed.

Lemma client_fuel c fl fuel : client_ok c fl -> enough (c_heap c) fuel -> (2 * length fl + 5 <= fuel)%nat.
Proof. intros Hc He. pose proof (client_length _ _ Hc). unfold enough in He. lia. Qed.

(** Bytes that a program may look at. *)
Definition readable (c : client) (x : Z) : Prop :=
  in_blocks c x \/ in_own c x \/ (x < brk0 /\ ~ (base <= x < base + 8)).

Lemma readable_facts c fl x : client_ok c fl -> readable c x ->
  x < h_brk (c_heap c) /\ ~ covers fl x /\ ~ (base <= x < base + 8).
Proof.
  intros Hc Hx. pose proof (client_brk _ _ Hc) as Hk. destruct Hx as [Hx|[Hx|[Hx Hx']]].
  - pose proof (fun H => ck_free_blocks _ _ Hc x H Hx) as Hf. destruct Hx as (a & n & Ha & Hin).
    destruct (ck_block _ _ Hc a n Ha) as (?&?&?&_). unfold inside in Hin. simpl in Hin. split_and!; [lia|done|lia].
  - pose proof (fun H => ck_free_own _ _ Hc x H Hx) as Hf. destruct Hx as (r & Hr & Hin).
    destruct (ck_own _ _ Hc r Hr). split_and!; [lia|done|lia].
  - split_and!; [lia| |done]. intros Hcv%(client_free_range c); [lia|done].
Qed.

Lemma block_header_readable c a n x : c_blocks c !! a = Some n -> 0 < n -> a + 4 <= x < a + 8 -> readable c x.
Proof. intros Ha Hn Hx. left. exists a, n. split; [done|]. unfold inside. simpl. lia. Qed.

(** A change of the free blocks that keeps what the program can see. *)
Lemma client_ok_frame c fl s' fl' : client_ok c fl -> ring_ok s' fl' -> h_brk s' = h_brk (c_heap c) ->
  (forall x, covers fl' x <-> covers fl x) -> (forall x, readable c x -> mget (h_mem s') x = mget (h_mem (c_heap c)) x) ->
  client_ok (mkclient s' (c_blocks c) (c_own c)) fl'.
Proof.
  intros Hc Hr Hb Hcv Hm. destruct Hc as [C1 C2 C3 C4 C5 C6 C7 C8].
  constructor; simpl; [by left| |by rewrite Hb|done| | |done|].
  - intros a n Ha. destruct (C2 a n Ha) as (?&?&?& Hs). split_and!; [done|done|lia|]. rewrite <- Hs.
    apply ld32_frame. intros x Hx. apply Hm. eapply block_header_readable; [done|done|lia].
  - intros x Hx%Hcv. by apply C5.
  - intros x Hx%Hcv. by apply C6.
  - intros x. rewrite Hcv, Hb. apply C8.
Qed.

Lemma in_blocks_insert c s a n o x : c_blocks c !! a = None ->
  in_blocks (mkclient s (<[a := n]> (c_blocks c)) o) x <-> inside (a, n) x \/ in_blocks c x.
Proof.
  intros Hn. unfold in_blocks. simpl. split.
  - intros (a' & n' & Ha & Hx). rewrite lookup_insert_Some in Ha. destruct Ha as [[<- <-]|[_ Ha]]; [by left|right; eauto].
  - intros [Hx|(a' & n' & Ha & Hx)]; [exists a, n; by rewrite lookup_insert_eq|].
    exists a', n'. rewrite lookup_insert_ne by congruence. done.
Qed.

Lemma in_blocks_delete c fl s a n o x : client_ok c fl -> c_blocks c !! a = Some n ->
  in_blocks (mkclient s (delete a (c_blocks c)) o) x <-> in_blocks c x /\ ~ inside (a, n) x.
Proof.
  intros Hc Ha. unfold in_blocks. simpl. split.
  - intros (a' & n' & Ha' & Hx). rewrite lookup_delete_Some in Ha'. destruct Ha' as [Hne Ha']. split; [by eauto|].
    eapply (ck_apart _ _ Hc a' n' a n); eauto.
  - intros ((a' & n' & Ha' & Hx) & Hnx). exists a', n'. split; [|done]. rewrite lookup_delete_Some.
    split; [|done]. intros <-. rewrite Ha in Ha'. injection Ha' as <-. done.
Qed.

(** Taking a block. *)
Lemma client_take c fl s' fl' a n : client_ok c fl -> allocated (c_heap c) fl s' fl' a n ->
  (forall x, inside (a, n) x -> ~ in_blocks c x /\ ~ in_own c x) /\
  (forall x, readable c x -> mget (h_mem s') x = mget (h_mem (c_heap c)) x) /\
  client_ok (mkclient s' (<[a := n]> (c_blocks c)) (c_own c)) fl'.
Proof.
  intros Hc [A1 A2 A3 A4 A5 A6 A7 A8].
  assert (forall x, readable c x -> mget (h_mem s') x = mget (h_mem (c_heap c)) x) as Hm.
  { intros x Hx. destruct (readable_facts c fl x Hc Hx) as (?&?&?). by apply A8. }
  assert (forall x, inside (a, n) x \/ covers fl' x -> ~ in_blocks c x /\ ~ in_own c x) as Hd.
  { intros x Hx. apply A6 in Hx. assert (forall H : readable c x, False) as Hnr.
    { intros Hrd. destruct (readable_facts c fl x Hc Hrd) as (?&?&_). destruct Hx; [lia|done]. }
    unfold readable in Hnr. tauto. }
  assert (c_blocks c !! a = None) as Hn.
  { destruct (c_blocks c !! a) as [m|] eqn:E; [|done]. destruct (Hd a) as [Hnb _]; [left; split; simpl; lia|].
    destruct Hnb. exists a, m. split; [done|]. destruct (ck_block _ _ Hc _ _ E). split; simpl; lia. }
  split; [intros x Hx; apply Hd; by left|]. split; [done|]. pose proof Hc as [C1 C2 C3 C4 C5 C6 C7 C8].
  constructor; simpl.
  - by left.
  - intros a' n' Ha. rewrite lookup_insert_Some in Ha. destruct Ha as [[<- <-]|[_ Ha]]; [split_and!; by try apply A5|].
    destruct (C2 a' n' Ha) as (?&?&?& Hs). split_and!; [done|done|lia|]. rewrite <- Hs.
    apply ld32_frame. intros x Hx. apply Hm. eapply block_header_readable; [done|done|lia].
  - intros r Hr. destruct (C3 r Hr). lia.
  - assert (forall a' n' x, c_blocks c !! a' = Some n' -> inside (a, n) x -> inside (a', n') x -> False) as Hx2.
    { intros a' n' x Ha Hx Hx'. destruct (Hd x) as [Hnb _]; [by left|]. apply Hnb. by exists a', n'. }
    intros a1 n1 a2 n2 x H1 H2 Hne. rewrite lookup_insert_Some in H1. rewrite lookup_insert_Some in H2.
    destruct H1 as [[<- <-]|[_ H1]], H2 as [[<- <-]|[_ H2]]; [done|by eauto|by eauto|by eapply C4].
  - intros x Hx. rewrite in_blocks_insert by done. intros [Hx'|Hx']; [by eapply A7|]. by destruct (Hd x (or_intror Hx)).
  - intros x Hx Hx'. by destruct (Hd x (or_intror Hx)).
  - intros x. rewrite in_blocks_insert by done. intros [Hx|Hx]; [apply Hd; by left|by apply C7].
  - intros x Hx. rewrite in_blocks_insert by done.
    assert (covers fl x \/ in_blocks c x \/ in_own c x \/ h_brk (c_heap c) <= x < h_brk s') as Ht.
    { destruct (Z.lt_ge_cases x (h_brk (c_heap c))); [|right; right; right; lia]. specialize (C8 x ltac:(lia)). tauto. }
    specialize (A6 x). unfold in_own in *. simpl. tauto.
Qed.

(** Giving a block back. *)
Lemma client_give c fl fuel a n : client_ok c fl -> c_blocks c !! a = Some n -> enough (c_heap c) fuel ->
  exists s' fl', free fuel (a + 8) (c_heap c) = Ok (tt, s') /\
    client_ok (mkclient s' (delete a (c_blocks c)) (c_own c)) fl' /\
    (forall x, readable c x -> ~ inside (a, n) x -> mget (h_mem s') x = mget (h_mem (c_heap c)) x).
Proof.
  intros Hc Ha He. pose proof (client_fuel _ _ _ Hc He) as Hf. pose proof Hc as [C1 C2 C3 C4 C5 C6 C7 C8].
  destruct C1 as [Hr|(_ & _ & Hemp)]; [|rewrite Hemp in Ha; done].
  destruct (C2 a n Ha) as (Hn & Ha0 & Hab & Hsz).
  assert (forall x, inside (a, n) x -> in_blocks c x) as Hib by (intros x Hx; by exists a, n).
  destruct (free_spec fuel (c_heap c) fl a n Hr) as (s' & fl' & E & R1 & R2 & R3 & _ & _ & R6);
    [by split|done|done|intros x Hx Hx'; by apply (C5 x), Hib|lia|].
  assert (forall x, readable c x -> ~ inside (a, n) x -> mget (h_mem s') x = mget (h_mem (c_heap c)) x) as Hm.
  { intros x Hx Hx'. destruct (readable_facts c fl x Hc Hx) as (?&?&?). by apply R6. }
  exists s', fl'. split_and!; [done| |done]. constructor; simpl.
  - by left.
  - intros a' n' [Hne Ha']%lookup_delete_Some. destruct (C2 a' n' Ha') as (?&?&?& Hs). split_and!; [done|done|lia|].
    rewrite <- Hs. apply ld32_frame. intros x Hx. apply Hm; [eapply block_header_readable; [done|done|lia]|].
    eapply (C4 a' n' a n); [done|done|done|]. unfold inside. simpl. lia.
  - intros r Hr'. rewrite R2. by apply C3.
  - intros a1 n1 a2 n2 x [_ H1]%lookup_delete_Some [_ H2]%lookup_delete_Some. by eapply C4.
  - intros x Hx Hx'. apply (in_blocks_delete c fl _ a n) in Hx' as [Hx' Hnx]; [|done|done].
    apply R3 in Hx as [?|?]; [done|by apply (C5 x)].
  - intros x Hx Hx'. apply R3 in Hx as [?|?]; [by apply (C7 x); [apply Hib|]|by apply (C6 x)].
  - intros x Hx Hx'. apply (in_blocks_delete c fl _ a n) in Hx as [Hx Hnx]; [|done|done]. by apply (C7 x).
  - intros x Hx. rewrite R2 in Hx. rewrite (in_blocks_delete c fl _ a n), R3 by done. destruct (C8 x Hx) as [?|[?|?]]; [tauto| |tauto].
    destruct (decide (a <= x < a + 8 * n)); [left; left; done|right; left; done].
Qed.

Lemma client_malloc c fl fuel nbytes : client_ok c fl -> 0 <= nbytes <= max_request -> enough (c_heap c) fuel ->
  exists r s' fl', malloc base sbrk fuel nbytes (c_heap c) = Ok (r, s') /\
    client_ok (mkclient s' (if r =? 0 then c_blocks c else <[r - 8 := nunits_of nbytes]> (c_blocks c)) (c_own c)) fl' /\
    (forall x, readable c x -> mget (h_mem s') x = mget (h_mem (c_heap c)) x) /\
    (r = 0 /\ sbrk (8 * core (nunits_of nbytes)) s' = Ok (-1, s') \/
     brk0 <= r - 8 /\ r + nbytes <= h_brk s' /\
     forall x, r - 8 <= x < r + nbytes -> ~ in_blocks c x /\ ~ in_own c x).
Proof.
  intros Hc Hn He. pose proof (client_fuel _ _ _ Hc He) as Hf.
  assert (ring_ok (c_heap c) fl \/ (fresh_heap (c_heap c) /\ fl = [])) as Hs.
  { destruct (ck_ring _ _ Hc) as [?|(?&?&_)]; [by left|by right]. }
  destruct (malloc_spec fuel (c_heap c) fl nbytes Hs Hn Hf) as [(s' & Em & R1 & R2 & R3 & R4)|(s' & fl' & a & Em & Hal)].
  - assert (forall x, readable c x -> mget (h_mem s') x = mget (h_mem (c_heap c)) x) as Hm.
    { intros x Hx. apply R4. by destruct (readable_facts c fl x Hc Hx) as (?&?&?). }
    exists 0, s', fl. split_and!; [done| |done|by left]. simpl. by apply (client_ok_frame c fl).
  - destruct (client_take c fl s' fl' a (nunits_of nbytes) Hc Hal) as (T1 & T2 & T3).
    destruct (al_in _ _ _ _ _ _ Hal) as [Ha1 Ha2]. destruct (nunits_of_spec nbytes) as [_ Hnu]; [unfold max_request in Hn; lia|].
    exists (a + 8), s', fl'. split_and!; [done| |done|].
    + replace (a + 8 =? 0) with false by lia. replace (a + 8 - 8) with a by lia. done.
    + right. split_and!; [lia|lia|]. intros x Hx. apply T1. unfold inside. simpl. lia.
Qed.

(** Memory that looks the same from the ring. *)
Lemma ring_frame s fl s' : ring_ok s fl -> h_freep s' = h_freep s -> h_brk s <= h_brk s' <= KERNBASE ->
  (forall x, covers fl x \/ base <= x < base + 8 -> mget (h_mem s') x = mget (h_mem s) x) -> ring_ok s' fl.
Proof.
  intros [H1 H2 H3 H4 H5] Hf Hb Hm. constructor; [|by eapply apart_hi; [|exact H2]; lia|done|by rewrite Hf|lia].
  eapply links_frame; [|exact H1]. intros b x Hin Hx. apply Hm.
  apply elem_of_cons in Hin as [->|Hin]; [by right|]. left. exists b. split; [done|].
  rewrite Forall_forall in H3. destruct (H3 b Hin). unfold inside. lia.
Qed.

Lemma client_store c fl x v : client_ok c fl -> writable c x ->
  client_ok (mkclient (mkheap (mset (h_mem (c_heap c)) x v) (h_freep (c_heap c)) (h_brk (c_heap c))) (c_blocks c) (c_own c)) fl.
Proof.
  intros Hc Hw. assert (readable c x) as Hrd.
  { destruct Hw as [(a & n & Ha & Hx)|[Hw|Hw]]; [|by right; left|by right; right].
    left. exists a, n. split; [done|]. unfold inside. simpl. lia. }
  destruct (readable_facts c fl x Hc Hrd) as (Hx1 & Hx2 & Hx3). pose proof (client_brk _ _ Hc) as Hk.
  pose proof Hc as [C1 C2 C3 C4 C5 C6 C7 C8].
  assert (forall y, y <> x -> mget (mset (h_mem (c_heap c)) x v) y = mget (h_mem (c_heap c)) y) as Hm.
  { intros y Hy. rewrite mget_mset. by rewrite decide_False. }
  constructor; simpl; [| |done..].
  - destruct C1 as [Hr|(?&?&?)]; [left|by right]. eapply ring_frame; [exact Hr|done|simpl; lia|].
    simpl. intros y Hy. apply Hm. intros ->. tauto.
  - intros a n Ha. destruct (C2 a n Ha) as (?&?&?& Hs). split_and!; [done|done|done|]. rewrite <- Hs.
    apply ld32_frame. intros y Hy. apply Hm. intros ->.
    assert (inside (a, n) x) as Hin by (unfold inside; simpl; lia).
    destruct Hw as [(a' & n' & Ha' & Hx)|[Hw|Hw]]; [|by apply (C7 x); [exists a, n|]|lia].
    destruct (decide (a = a')) as [<-|Hne]; [lia|]. eapply (C4 a n a' n'); [done..|]. unfold inside. simpl. lia.
Qed.

Lemma client_grow c fl n r s' : client_ok c fl -> 0 < n < 2147483648 -> sbrk n (c_heap c) = Ok (r, s') -> r <> -1 ->
  client_ok (mkclient s' (c_blocks c) ((r, n) :: c_own c)) fl.
Proof.
  intros Hc Hn Es Hr. destruct (sbrk_spec n (c_heap c) Hn) as [E|(m & E & Hk & Hm)]; rewrite E in Es; injection Es as <- <-; [done|].
  pose proof (client_brk _ _ Hc) as Hb. pose proof Hc as [C1 C2 C3 C4 C5 C6 C7 C8].
  assert (forall x, in_own (mkclient (mkheap m (h_freep (c_heap c)) (h_brk (c_heap c) + n)) (c_blocks c) ((h_brk (c_heap c), n) :: c_own c)) x
    <-> h_brk (c_heap c) <= x < h_brk (c_heap c) + n \/ in_own c x) as Ho.
  { intros x. unfold in_own. simpl. split.
    - intros (q & [->|Hq]%elem_of_cons & Hx); [by left|right; by exists q].
    - intros [Hx|(q & Hq & Hx)]; [eexists; split; [by left|done]|exists q; split; [by right|done]]. }
  assert (forall x, readable c x -> x < h_brk (c_heap c)) as Hlt by (intros x Hx; by destruct (readable_facts c fl x Hc Hx)).
  constructor; simpl.
  - destruct C1 as [Hr'|([? ?]&?&?)]; [left|right; split_and!; [|done|done]; split; simpl; [done|lia]].
    eapply ring_frame; [exact Hr'|done|simpl; lia|]. simpl. intros y [Hy|Hy]; apply Hm; [|lia].
    by apply (client_free_range c fl).
  - intros a k Ha. destruct (C2 a k Ha) as (?&?&?& Hs). split_and!; [done|done|lia|]. rewrite <- Hs.
    apply ld32_frame. intros y Hy. apply Hm. lia.
  - intros q [->|Hq]%elem_of_cons; simpl; [lia|]. destruct (C3 q Hq). lia.
  - done.
  - done.
  - intros x Hx Hx'. apply Ho in Hx' as [?|?]; [|by apply (C6 x)]. pose proof (client_free_range c fl x Hc Hx). lia.
  - intros x Hx Hx'. apply Ho in Hx' as [?|?]; [|by apply (C7 x)]. specialize (Hlt x (or_introl Hx)). lia.
  - intros x Hx. rewrite Ho. destruct (Z.lt_ge_cases x (h_brk (c_heap c))); [|right; right; left; lia].
    destruct (C8 x ltac:(lia)) as [?|[?|?]]; [by left|right; by left|by right; right; right].
Qed.

Lemma client_step_ok c c' : cstep c c' -> (exists fl, client_ok c fl) -> exists fl', client_ok c' fl'.
Proof.
  destruct 1 as [c fuel nbytes r s' Hn He Em|c fuel a n s' Ha He Ef|c x v Hw|c n r s' Hn Es Hr]; intros [fl Hc].
  - destruct (client_malloc c fl fuel nbytes Hc Hn He) as (r' & s1 & fl' & Em' & Hok & _). rewrite Em in Em'.
    injection Em' as <- <-. by exists fl'.
  - destruct (client_give c fl fuel a n Hc Ha He) as (s1 & fl' & Ef' & Hok & _). rewrite Ef in Ef'. injection Ef' as <-.
    by exists fl'.
  - exists fl. by apply client_store.
  - exists fl. by eapply client_grow.
Qed.

(** A program that starts: nothing allocated, the heap is empty. *)
Definition starts (c : client) : Prop :=
  h_freep (c_heap c) = 0 /\ h_brk (c_heap c) = brk0 /\ brk0 <= KERNBASE /\ c_blocks c = ∅ /\ c_own c = [].

Lemma client_reachable c0 c : starts c0 -> rtc cstep c0 c -> exists fl, client_ok c fl.
Proof.
  intros (S1 & S2 & S3 & S4 & S5) Hrun. assert (exists fl, client_ok c0 fl) as Hok.
  { exists []. constructor.
    - right. split_and!; [split; [done|lia]|done|done].
    - intros a n. by rewrite S4.
    - intros r. rewrite S5. by intros ?%not_elem_of_nil.
    - intros a n a' n' x. by rewrite S4.
    - intros x ?%covers_nil. done.
    - intros x ?%covers_nil. done.
    - intros x (a & n & Ha & _). by rewrite S4 in Ha.
    - intros x Hx. lia. }
  clear S1 S2 S4 S5. revert Hok. induction Hrun as [c|c1 c2 c3 Hs _ IH]; [done|]. intros Hok. apply IH. by eapply client_step_ok.
Qed.

(** When everything has been given back, the free memory is one block again. *)
Lemma client_whole c fl : client_ok c fl -> c_blocks c = ∅ -> c_own c = [] ->
  (fl = [] /\ h_brk (c_heap c) = brk0) \/ exists n, fl = [(brk0, n)] /\ h_brk (c_heap c) = brk0 + 8 * n.
Proof.
  intros Hc Hb Ho. pose proof (client_brk _ _ Hc) as Hk.
  assert (forall x, brk0 <= x < h_brk (c_heap c) -> covers fl x) as Hcv.
  { intros x Hx. destruct (ck_all _ _ Hc x Hx) as [?|[(a & n & Ha & _)|(r & Hr & _)]]; [done| |].
    - by rewrite Hb in Ha.
    - rewrite Ho in Hr. by apply not_elem_of_nil in Hr. }
  destruct fl as [|[a n] fl].
  { left. split; [done|]. destruct (Z.eq_dec (h_brk (c_heap c)) brk0); [done|].
    destruct (covers_nil brk0). apply Hcv. lia. }
  right. destruct (ck_ring _ _ Hc) as [Hr|(_ & Hnil & _)]; [|done].
  pose proof (rg_apart _ _ Hr) as (A1 & A2 & A3). pose proof (rg_blocks _ _ Hr) as [[B1 B2] _]%Forall_cons.
  cbn [fst snd] in *. pose proof (apart_le _ _ _ A3).
  assert (a = brk0) as ->.
  { destruct (Hcv brk0 ltac:(lia)) as (b & [->|Hin]%elem_of_cons & Hx); unfold inside in Hx; simpl in Hx; [lia|].
    pose proof (apart_in _ _ _ _ A3 Hin). lia. }
  assert (h_brk (c_heap c) = brk0 + 8 * n) as Hend.
  { destruct (Z.eq_dec (h_brk (c_heap c)) (brk0 + 8 * n)); [done|].
    destruct (Hcv (brk0 + 8 * n) ltac:(lia)) as (b & [->|Hin]%elem_of_cons & Hx); unfold inside in Hx; simpl in Hx; [lia|].
    pose proof (apart_in _ _ _ _ A3 Hin). lia. }
  exists n. split; [|done]. destruct fl as [|d fl]; [done|]. simpl in A3. destruct A3 as (D1 & D2 & D3).
  pose proof (apart_le _ _ _ D3). pose proof (rg_blocks _ _ Hr) as Hfb. rewrite !Forall_cons in Hfb.
  destruct Hfb as (_ & [_ ?] & _). lia.
Qed.

(** C28. The allocator, used by any program that stores only where it may: the blocks
    held never overlap, nor the program's own memory and variables; malloc of at most
    [max_request] bytes returns, with a block of at least the size asked for that overlaps nothing in
    use, or null if the kernel gives no memory; neither malloc nor free changes a
    byte of what the program holds; and when everything is freed, the free memory
    is a single block. *)
Theorem malloc_free_correct c0 c : starts c0 -> rtc cstep c0 c ->
  (forall a n, c_blocks c !! a = Some n -> brk0 <= a /\ a + 8 * n <= h_brk (c_heap c)) /\
  (forall a n a' n' x, c_blocks c !! a = Some n -> c_blocks c !! a' = Some n' -> a <> a' -> inside (a, n) x -> ~ inside (a', n') x) /\
  (forall fuel nbytes, 0 <= nbytes <= max_request -> enough (c_heap c) fuel ->
     exists r s', malloc base sbrk fuel nbytes (c_heap c) = Ok (r, s') /\
       (forall x, readable c x -> mget (h_mem s') x = mget (h_mem (c_heap c)) x) /\
       (r = 0 /\ sbrk (8 * core (nunits_of nbytes)) s' = Ok (-1, s') \/
        brk0 <= r - 8 /\ r + nbytes <= h_brk s' /\ forall x, r - 8 <= x < r + nbytes -> ~ in_blocks c x /\ ~ in_own c x)) /\
  (forall fuel a n, c_blocks c !! a = Some n -> enough (c_heap c) fuel ->
     exists s', free fuel (a + 8) (c_heap c) = Ok (tt, s') /\
       forall x, readable c x -> ~ inside (a, n) x -> mget (h_mem s') x = mget (h_mem (c_heap c)) x) /\
  (c_blocks c = ∅ -> c_own c = [] -> h_freep (c_heap c) <> 0 -> brk0 < h_brk (c_heap c) ->
     ptr base (c_heap c) = Ok (brk0, c_heap c) /\ ptr brk0 (c_heap c) = Ok (base, c_heap c) /\
     exists n, size brk0 (c_heap c) = Ok (n, c_heap c) /\ brk0 + 8 * n = h_brk (c_heap c)).
Proof.
  intros Hs Hrun. destruct (client_reachable c0 c Hs Hrun) as [fl Hc]. split_and!.
  - intros a n Ha. destruct (ck_block _ _ Hc a n Ha) as (?&?&?&_). done.
  - apply (ck_apart _ _ Hc).
  - intros fuel nbytes Hn He. destruct (client_malloc c fl fuel nbytes Hc Hn He) as (r & s' & fl' & E & _ & Hm & Hr). eauto.
  - intros fuel a n Ha He. destruct (client_give c fl fuel a n Hc Ha He) as (s' & fl' & E & _ & Hm). eauto.
  - intros Hb Ho Hfp Hlt. destruct (client_whole c fl Hc Hb Ho) as [[_ ?]|(n & -> & Hend)]; [lia|].
    destruct (ck_ring _ _ Hc) as [Hr|([? _] & _)]; [|done].
    split; [apply (ring_ptr _ [(brk0, n)] [] (base, 0) [(brk0, n)]); done|].
    split; [apply (ring_ptr _ [(brk0, n)] [(base, 0)] (brk0, n) []); done|].
    exists n. split; [|done]. apply (ring_size _ [(brk0, n)] (brk0, n)); [done|right; by left].
Qed.
End Malloc.
End Ring.

(** A kernel with memory up to a limit. *)
Definition sbrk_upto (limit n : Z) : M heap Z := fun s =>
  if h_brk s + n <=? Z.min limit (KERNBASE - 1) then Ok (h_brk s, mkheap (h_mem s) (h_freep s) (h_brk s + n)) else Ok (-1, s).

#[export] Instance sbrk_upto_ok limit : Sbrk (sbrk_upto limit).
Proof.
  intros n s Hn. unfold sbrk_upto. destruct (Z.leb_spec (h_brk s + n) (Z.min limit (KERNBASE - 1))); [right|by left].
  exists (h_mem s). split_and!; [done|lia|done].
Qed.

Definition demo_heap : heap := mkheap ∅ 0 8192.
Definition demo_sbrk : Z -> M heap Z := sbrk_upto 65536.
Definition demo_fuel : nat := Z.to_nat 40960.
Definition demo_heap1 : heap := endstate (malloc 4096 demo_sbrk (Z.to_nat 8192) 100) demo_heap.
Definition demo_client1 : client := mkclient demo_heap1 {[ 40848 := 14 ]} [].

(** After a malloc, the block can be freed, and then the memory is one block. *)
Lemma malloc_free_correct_witness :
  result (malloc 4096 demo_sbrk (Z.to_nat 8192) 100) demo_heap = Some 40856 /\
  exists s', free demo_fuel (40848 + 8) (c_heap demo_client1) = Ok (tt, s') /\ ptr 4096 s' = Ok (8192, s').
Proof.
  split; [by vm_compute|].
  assert (starts 8192 (mkclient demo_heap ∅ [])) as Hs by (split_and!; done).
  assert (rtc (cstep 4096 8192 demo_sbrk) (mkclient demo_heap ∅ []) demo_client1) as Hr1.
  { apply rtc_once. refine (do_malloc 4096 8192 demo_sbrk (mkclient demo_heap ∅ []) (Z.to_nat 8192) 100 40856 demo_heap1 _ _ _).
    - unfold max_request; lia.
    - by vm_compute.
    - apply result_Ok. by vm_compute. }
  destruct (malloc_free_correct 4096 8192 ltac:(lia) ltac:(lia) demo_sbrk _ demo_client1 Hs Hr1) as (_ & _ & _ & Hf & _).
  destruct (Hf demo_fuel 40848 14) as (s' & E & _); [reflexivity|by vm_compute|].
  exists s'. split; [exact E|].
  assert (h_brk s' = 40960 /\ h_freep s' <> 0) as [Hb Hp].
  { destruct s' as [m' fp' bk']. pose proof (f_equal (fun o => match o with Ok (_, s) => Some (h_brk s, h_freep s) | _ => None end) E) as E'.
    vm_compute in E'. injection E' as <- <-. clear E Hf. split; [reflexivity|discriminate]. }
  destruct (malloc_free_correct 4096 8192 ltac:(lia) ltac:(lia) demo_sbrk _ (mkclient s' ∅ []) Hs) as (_ & _ & _ & _ & Hw).
  { eapply rtc_r; [exact Hr1|]. refine (do_free 4096 8192 demo_sbrk demo_client1 demo_fuel 40848 14 s' _ _ E); [reflexivity|by vm_compute]. }
  clear E Hf Hr1 Hs. apply Hw; [reflexivity|reflexivity|exact Hp|simpl; lia].
Defined.

(** A request of 2^32 - 1 bytes wraps around to the smallest block. *)
Lemma malloc_wraps : nunits_of 4294967295 = 1 /\
  result (malloc 4096 demo_sbrk (Z.to_nat 8192) 4294967295) demo_heap = Some 40960.
Proof. split; by vm_compute. Qed.
