(* ===== verification/Kbd.v ===== *)
(** The keyboard (kbd.c, kbd.h): scan codes to characters, and the way of a typed
    line to its reader. *)

From S2P Require Import Prelude User Console.
Local Open Scope Z_scope.

(** * kbd.h *)

Definition NO : Z := 0.
Definition SHIFT : Z := 1.
Definition CTL : Z := 2.
Definition ALT : Z := 4.
Definition CAPSLOCK : Z := 8.
Definition NUMLOCK : Z := 16.
Definition SCROLLLOCK : Z := 32.
Definition E0ESC : Z := 64.

(** An array of 256 bytes: its first elements, then elements at given places. *)
Definition table (first : bytes) (at_ : list (Z * Z)) : bytes :=
  foldl (fun t p => <[Z.to_nat p.1 := p.2]> t) (first ++ replicate (256 - length first) NO) at_.

Definition shiftcode : bytes := table [] [(29, CTL); (42, SHIFT); (54, SHIFT); (56, ALT); (157, CTL); (184, ALT)].
Definition togglecode : bytes := table [] [(58, CAPSLOCK); (69, NUMLOCK); (70, SCROLLLOCK)].

(** KEY_UP, KEY_DN, KEY_PGUP, KEY_PGDN, KEY_LF, KEY_RT, KEY_HOME, KEY_END, KEY_INS, KEY_DEL *)
Definition special_keys : list (Z * Z) :=
  [(200, 226); (208, 227); (201, 230); (209, 231); (203, 228); (205, 229); (151, 224); (207, 225); (210, 232); (211, 233)].

Definition keypad : bytes := replicate 7 NO ++ text "789-456+1230." ++ replicate 4 NO.

Definition normalmap : bytes := table
  ([NO; 27] ++ text "1234567890-=" ++ [8; 9] ++ text "qwertyuiop[]" ++ [10; NO] ++ text "asdfghjkl;'`" ++ [NO] ++
   text "\zxcvbnm,./" ++ [NO; 42; NO; 32] ++ replicate 6 NO ++ keypad)
  ([(156, 10); (181, 47)] ++ special_keys).

Definition shiftmap : bytes := table
  ([NO; 27] ++ text "!@#$%^&*()_+" ++ [8; 9] ++ text "QWERTYUIOP{}" ++ [10; NO] ++ text "ASDFGHJKL:" ++ [34; 126; NO] ++
   text "|ZXCVBNM<>?" ++ [NO; 42; NO; 32] ++ replicate 6 NO ++ keypad)
  ([(156, 10); (181, 47)] ++ special_keys).

Definition ctlmap : bytes := table
  (replicate 16 NO ++ (CTRL <$> text "QWERTYUIOP") ++ [NO; NO; 13; NO] ++ (CTRL <$> text "ASDFGHJKL") ++
   [NO; NO; NO; NO] ++ (CTRL <$> text "\ZXCVBNM") ++ [NO; NO; u8 (CTRL 47); NO; NO])
  ([(156, 13); (181, u8 (CTRL 47))] ++ special_keys).

Definition charcode : list bytes := [normalmap; shiftmap; ctlmap; ctlmap].

(** * kbd.c *)

Definition has (x mask : Z) : bool := negb (Z.land x mask =? 0).

(** [kbdgetc] with the byte of the controller, if there is one: the character (0 if
    none) and the new value of [shift]. *)
Definition kbdgetc (data : option Z) (shift : Z) : Z * Z :=
  match data with
  | None => (-1, shift)
  | Some data =>
      if data =? 224 then (0, Z.lor shift E0ESC)
      else if has data 128 then
        let data := if has shift E0ESC then data else Z.land data 127 in
        (0, Z.land shift (Z.lnot (Z.lor (getb shiftcode data) E0ESC)))
      else
        let '(data, shift) := if has shift E0ESC then (Z.lor data 128, Z.land shift (Z.lnot E0ESC)) else (data, shift) in
        let shift := Z.lor shift (getb shiftcode data) in
        let shift := Z.lxor shift (getb togglecode data) in
        let c := getb (charcode !!! Z.to_nat (Z.land shift (Z.lor CTL SHIFT))) data in
        let c := if has shift CAPSLOCK then
                   if (97 <=? c) && (c <=? 122) then c + (65 - 97)
                   else if (65 <=? c) && (c <=? 90) then c + (97 - 65) else c
                 else c in
        (c, shift)
  end.

(** What [kbdgetc] returns for the bytes that wait in the controller. *)
Fixpoint kbd_chars (codes : bytes) (shift : Z) : list Z * Z :=
  match codes with
  | [] => ([], shift)
  | d :: codes' => let r := kbdgetc (Some d) shift in let q := kbd_chars codes' r.2 in (r.1 :: q.1, q.2)
  end.

(** [kbdintr]: the console interrupt with [kbdgetc] as its source. *)
Definition kbdintr (codes : bytes) : M (console * Z) (bool * bool) := fun s =>
  let q := kbd_chars codes s.2 in
  match consoleintr q.1 s.1 with
  | Ok (r, s') => Ok (r, (s', q.2))
  | Panic msg => Panic msg
  | Sleep => Sleep
  | UB => UB
  end.

(** * Characters *)

Definition shift_ok (shift : Z) : Prop := 0 <= shift < 128.

(** All states and all scan codes. *)
Lemma kbdgetc_table : forallb (fun sh => forallb (fun d =>
    let r := kbdgetc (Some (Z.of_nat d)) (Z.of_nat sh) in
    (0 <=? r.1) && (r.1 <? 256) && (0 <=? r.2) && (r.2 <? 128)) (seq 0 256)) (seq 0 128) = true.
Proof. by vm_compute. Qed.

Lemma kbdgetc_range d shift : byte_ok d -> shift_ok shift ->
  byte_ok (kbdgetc (Some d) shift).1 /\ shift_ok (kbdgetc (Some d) shift).2.
Proof.
  intros Hd Hs. pose proof kbdgetc_table as H. rewrite forallb_forall in H. specialize (H (Z.to_nat shift)).
  rewrite forallb_forall in H. unfold byte_ok, shift_ok in *.
  specialize (H ltac:(apply in_seq; lia) (Z.to_nat d) ltac:(apply in_seq; lia)). rewrite !Z2Nat.id in H by lia.
  cbv zeta in H. rewrite !andb_true_iff in H. lia.
Qed.

Lemma kbd_chars_range codes shift : Forall byte_ok codes -> shift_ok shift ->
  Forall byte_ok (kbd_chars codes shift).1 /\ shift_ok (kbd_chars codes shift).2.
Proof.
  intros Hc. revert shift. induction Hc as [|d codes Hd _ IH]; intros shift Hs; simpl; [by split|].
  destruct (kbdgetc_range d shift Hd Hs) as [H1 H2]. destruct (IH _ H2). split; [by constructor|done].
Qed.

Lemma kbd_chars_app codes codes' shift : kbd_chars (codes ++ codes') shift =
  ((kbd_chars codes shift).1 ++ (kbd_chars codes' (kbd_chars codes shift).2).1, (kbd_chars codes' (kbd_chars codes shift).2).2).
Proof.
  revert shift. induction codes as [|d codes IH]; intros shift; simpl; [by destruct (kbd_chars codes' shift)|]. by rewrite IH.
Qed.

(** * Typing *)

Fixpoint find_key (c : Z) (t : bytes) (k : Z) : option Z :=
  match t with
  | [] => None
  | d :: t' => if d =? c then Some k else find_key c t' (k + 1)
  end.

(** Pressing and releasing the key of a character, with the left shift key if needed. *)
Definition keystrokes (c : Z) : bytes :=
  match find_key c (take 128 normalmap) 0 with
  | Some k => [k; k + 128]
  | None => match find_key c (take 128 shiftmap) 0 with
            | Some k => [42; k; k + 128; 170]
            | None => []
            end
  end.

Definition typable (c : Z) : Prop := 32 <= c < 127 \/ c = NEWLINE.

Definition strokes_ok (c : Z) : bool :=
  let r := kbd_chars (keystrokes c) 0 in
  bool_decide (filter (fun x => x <> 0) r.1 = [c]) && (r.2 =? 0) && forallb (fun d => (0 <=? d) && (d <? 256)) (keystrokes c).

Lemma strokes_table : forallb (fun c => strokes_ok (Z.of_nat c)) (10%nat :: seq 32 95) = true.
Proof. by vm_compute. Qed.

Lemma strokes_spec c : typable c ->
  filter (fun x => x <> 0) (kbd_chars (keystrokes c) 0).1 = [c] /\ (kbd_chars (keystrokes c) 0).2 = 0 /\ Forall byte_ok (keystrokes c).
Proof.
  intros Hc. pose proof strokes_table as H. rewrite forallb_forall in H. specialize (H (Z.to_nat c)).
  assert (In (Z.to_nat c) (10%nat :: seq 32 95)) as Hin.
  { destruct Hc as [Hc| ->]; [right; apply in_seq; lia|by left]. }
  specialize (H Hin). rewrite Z2Nat.id in H by (destruct Hc as [?| ->]; [lia|unfold NEWLINE; lia]).
  unfold strokes_ok in H. cbv zeta in H. rewrite !andb_true_iff, bool_decide_eq_true, Z.eqb_eq in H.
  destruct H as [[H1 H2] H3]. split_and!; [done|done|]. rewrite forallb_forall in H3. apply Forall_forall.
  intros d Hd. specialize (H3 d). rewrite andb_true_iff in H3. rewrite <- list_elem_of_In in H3. specialize (H3 Hd).
  unfold byte_ok. lia.
Qed.

Definition keys (t : bytes) : bytes := concat (keystrokes <$> t).

Lemma keys_spec t : Forall typable t ->
  filter (fun x => x <> 0) (kbd_chars (keys t) 0).1 = t /\ (kbd_chars (keys t) 0).2 = 0 /\ Forall byte_ok (keys t).
Proof.
  induction 1 as [|c t Hc _ (IH1 & IH2 & IH3)]; [done|].
  destruct (strokes_spec c Hc) as (H1 & H2 & H3). change (keys (c :: t)) with (keystrokes c ++ keys t).
  rewrite kbd_chars_app. cbn [fst snd]. rewrite H2, filter_app, H1, IH1. split_and!; [done|done|by apply Forall_app].
Qed.

(** Key releases and shift keys give no characters. *)
Lemma ed_char_filter cs d : foldl (fun d c => ed_char c d) d cs = foldl (fun d c => ed_char c d) d (filter (fun x => x <> 0) cs).
Proof.
  revert d. induction cs as [|c cs IH]; intros d; simpl; [done|]. destruct (decide (c = 0)) as [->|Hc].
  - rewrite filter_cons_False by (by intros []). change (ed_char 0 d) with d. apply IH.
  - rewrite filter_cons_True by done. simpl. apply IH.
Qed.

Lemma ed_char_plain c d : 32 <= c < 127 -> (length (ed_ready d) + length (ed_edit d) < 127)%nat ->
  ed_char c d = mked (ed_ready d) (ed_edit d ++ [c]).
Proof.
  intros Hc Hl. unfold ed_char, NEWLINE. change (CTRL 80) with 16. change (CTRL 85) with 21. change (CTRL 72) with 8. change (CTRL 68) with 4.
  cbv zeta. rewrite !length_app.
  destruct (Z.eqb_spec c 16); [lia|]. destruct (Z.eqb_spec c 21); [lia|]. destruct (Z.eqb_spec c 8); [lia|].
  destruct (Z.eqb_spec c 127); [lia|]. destruct (Z.eqb_spec c 0); [lia|]. simpl.
  destruct (Nat.ltb_spec (length (ed_ready d) + length (ed_edit d)) 128); [|lia].
  destruct (Z.eqb_spec c 13); [lia|]. destruct (Z.eqb_spec c 10); [lia|]. destruct (Z.eqb_spec c 4); [lia|]. simpl.
  destruct (Nat.eqb_spec (length (ed_ready d) + (length (ed_edit d) + 1)) 128); [lia|done].
Qed.

Lemma ed_line t d : Forall (fun c => 32 <= c < 127) t -> (length (ed_ready d) + length (ed_edit d) + length t < 128)%nat ->
  foldl (fun d c => ed_char c d) d (t ++ [NEWLINE]) = mked (ed_ready d ++ ed_edit d ++ t ++ [NEWLINE]) [].
Proof.
  intros Ht. revert d. induction Ht as [|c t Hc _ IH]; intros d Hl; simpl.
  - unfold ed_char. simpl in *.
    destruct (Nat.ltb_spec (length (ed_ready d) + length (ed_edit d)) 128); [done|lia].
  - simpl in Hl. rewrite ed_char_plain by (done || lia). rewrite IH; simpl; [by rewrite <- app_assoc|rewrite length_app; simpl; lia].
Qed.

Lemma read_line t n s : cons_ok s -> view s = mked (t ++ [NEWLINE]) [] -> Forall (fun c => 32 <= c < 127) t ->
  Z.of_nat (length t) + 1 <= n ->
  exists s', consoleread false n s = ((CDone (Z.of_nat (length t) + 1), t ++ [NEWLINE]), s') /\ view s' = mked [] [] /\ cons_ok s'.
Proof.
  intros Hc Hv Ht Hn. injection Hv as Hr He. pose proof (consoleread_spec false n s Hc ltac:(lia)) as H.
  destruct (consoleread false n s) as [[res dst] s']. destruct H as [H1 H2 H3 H4 H5 H6 H7].
  assert (forall x, x ∈ t -> x <> EOF /\ x <> NEWLINE) as Hx.
  { intros x Hx. rewrite Forall_forall in Ht. specialize (Ht x Hx). unfold EOF, CTRL, NEWLINE. lia. }
  assert (forall d r, t ++ [NEWLINE] = d ++ r -> last d = Some NEWLINE -> r = []) as Hall.
  { intros d r E Hl. destruct r as [|y r _] using rev_ind; [done|]. exfalso. rewrite app_assoc in E. apply app_inj_tail in E as [E _].
    apply last_Some in Hl as (d' & ->). destruct (Hx NEWLINE) as [_ ?]; [|done]. rewrite E. set_solver. }
  destruct res as [r|k].
  - destruct H7 as [(_ & ? & _)|(Er & [[E Hcase]|[-> E]])]; [done| |].
    + rewrite Hr in E. assert (ready s' = []) as Hr'.
      { destruct Hcase as [->|[Hl|[Hne Hh]]].
        - apply nil_length_inv. apply (f_equal length) in E. rewrite !length_app in E. simpl in E. lia.
        - by eapply Hall.
        - exfalso. assert (EOF ∈ t ++ [NEWLINE]) as Hin.
          { rewrite E. apply elem_of_app. right. destruct (ready s'); [done|]. injection Hh as ->. by left. }
          apply elem_of_app in Hin as [Hin|Hin]; [by destruct (Hx EOF Hin)|by apply list_elem_of_singleton in Hin]. }
      rewrite Hr', app_nil_r in E. subst dst. rewrite length_app in Er. simpl in Er.
      exists s'. split_and!; [do 3 f_equal; lia|unfold view; congruence|done].
    + exfalso. rewrite Hr in E. destruct t as [|c t]; injection E as E1 E2; [done|]. destruct (Hx c); [by left|done].
  - exfalso. destruct H7 as (_ & Ed & _ & Hnl & _). rewrite Hr in Ed. subst dst. apply Hnl. set_solver.
Qed.

(** C33. From the keys to the reader: with nothing typed or unread before, typing
    any line of fewer than 128 printable characters (the input buffer's size) on the
    keyboard, shift key included, and return wakes the readers up, and a read of at
    least that many bytes gives exactly the line; whatever scan codes come in that
    state, the keyboard driver stays within its tables. *)
Theorem typed_line_read s t n : cons_ok s -> view s = mked [] [] ->
  Forall (fun c => 32 <= c < 127) t -> (length t < 128)%nat -> Z.of_nat (length t) + 1 <= n ->
  (exists s1 s2, kbdintr (keys (t ++ [NEWLINE])) (s, 0) = Ok ((true, false), (s1, 0)) /\
     consoleread false n s1 = ((CDone (Z.of_nat (length t) + 1), t ++ [NEWLINE]), s2) /\ cons_ok s2 /\ view s2 = mked [] []) /\
  (forall codes shift, Forall byte_ok codes -> shift_ok shift ->
     exists r s', kbdintr codes (s, shift) = Ok (r, s') /\ cons_ok s'.1 /\ shift_ok s'.2).
Proof.
  intros Hc Hv Ht Hl Hn. split.
  - destruct (keys_spec (t ++ [NEWLINE])) as (K1 & K2 & K3).
    { apply Forall_app. split; [|repeat constructor; by right]. eapply Forall_impl; [exact Ht|]. intros c Hc'. by left. }
    destruct (kbd_chars_range (keys (t ++ [NEWLINE])) 0 K3 ltac:(unfold shift_ok; lia)) as [Hb _].
    destruct (consoleintr_spec _ s Hc Hb) as (woken & dump & s1 & E & Hc1 & Hv1 & Hd & l & Hl1 & Hw).
    rewrite ed_char_filter, K1, Hv, ed_line in Hv1 by (done || simpl; lia). simpl in Hv1.
    destruct (read_line t n s1 Hc1 Hv1 Ht Hn) as (s2 & E2 & Hv2 & Hc2). exists s1, s2. split_and!; [|done|done|done].
    unfold kbdintr. cbn [fst snd]. rewrite E, K2. injection Hv as Hv _. injection Hv1 as Hv1 _.
    rewrite Hv1, Hv in Hl1. simpl in Hl1. subst l. assert (woken = true) as ->.
    { apply Hw. by destruct t. }
    destruct dump; [|done]. exfalso. assert (CTRL 80 ∈ (t ++ [NEWLINE])) as Hin.
    { rewrite <- K1. apply list_elem_of_filter. split; [done|]. by apply Hd. }
    rewrite Forall_forall in Ht. apply elem_of_app in Hin as [Hin|Hin%list_elem_of_singleton]; [|done].
    specialize (Ht _ Hin). unfold CTRL in Ht. lia.
  - intros codes shift Hb Hs. destruct (kbd_chars_range codes shift Hb Hs) as [Hb' Hs'].
    destruct (consoleintr_spec _ s Hc Hb') as (woken & dump & s1 & E & Hc1 & _).
    eexists _, (s1, _). unfold kbdintr. cbn [fst snd]. rewrite E. split_and!; done.
Qed.

(** Typing "A B" and return at boot. *)
Lemma typed_line_read_witness : exists s1 s2,
  kbdintr (keys (text "A B" ++ [NEWLINE])) (demo_console, 0) = Ok ((true, false), (s1, 0)) /\
  consoleread false 10 s1 = ((CDone 4, text "A B" ++ [NEWLINE]), s2).
Proof.
  destruct (typed_line_read demo_console (text "A B") 10) as [(s1 & s2 & E1 & E2 & _) _].
  - apply boot_cons_ok, demo_console_boot.
  - by vm_compute.
  - repeat constructor; vm_compute; done.
  - vm_compute; lia.
  - vm_compute; done.
  - exists s1, s2. split; [exact E1|exact E2].
Defined.

(** The Home key sends 224 and 71, whose place in the tables is 199; the tables have
    it at 151, so it gives no character. *)
Lemma home_key_lost : (kbd_chars [224; 71] 0).1 = [0; 0] /\ (kbd_chars [224; 23] 0).1 = [0; 224].
Proof. by vm_compute. Qed.
