(* ===== verification/ExecPlan.v ===== *)
(** What a program's memory is to hold when it starts: a function of the bytes of its file
    and of the arguments.  *)

From S2P Require Import Prelude Mem Bio Kalloc Vm VmCopy FsInode VmImage Elf Exec.
Local Open Scope Z_scope.

(** Bytes [off, off + n) of a file. *)
Definition file_has (c : bytes) (off n : Z) : bool := off + n <=? Z.of_nat (length c).
Definition file_part (c : bytes) (off n : Z) : bytes := slice c (Z.to_nat off) (Z.to_nat n).

(** A header that describes memory: below the kernel, on a page boundary, with its
    bytes in the file. *)
Definition seg_top (ph : bytes) : Z := ph_vaddr ph + ph_memsz ph.
Definition seg_ok (c ph : bytes) : bool :=
  (ph_filesz ph <=? ph_memsz ph) && (seg_top ph <? KERNBASE) && (ph_vaddr ph mod 4096 =? 0) &&
  ((ph_filesz ph =? 0) || file_has c (ph_off ph) (ph_filesz ph)).

(** The size of the memory and its bytes, after one segment. *)
Definition plan_segment (c ph : bytes) (sz : Z) (img : Z -> Z) : option (Z * (Z -> Z)) :=
  if negb (seg_ok c ph) || (Z.max sz (seg_top ph) =? 0) then None
  else Some (Z.max sz (seg_top ph), write_img img (ph_vaddr ph) (file_part c (ph_off ph) (ph_filesz ph))).

(** The same after [n] headers. *)
Fixpoint plan_segments (n : nat) (c : bytes) (off sz : Z) (img : Z -> Z) : option (Z * (Z -> Z)) :=
  match n with
  | O => Some (sz, img)
  | S n' =>
      if negb (file_has c off SIZEOF_PROGHDR) then None else
      let ph := file_part c off SIZEOF_PROGHDR in
      if negb (ph_type ph =? ELF_PROG_LOAD) then plan_segments n' c (u32 (off + SIZEOF_PROGHDR)) sz img else
      match plan_segment c ph sz img with
      | None => None
      | Some (sz, img) => plan_segments n' c (u32 (off + SIZEOF_PROGHDR)) sz img
      end
  end.

(** The strings of the arguments, downwards from [sp], in words above [base]. *)
Definition arg_below (sp : Z) (a : bytes) : Z := 4 * ((sp - (Z.of_nat (length a) + 1)) / 4).
Fixpoint plan_args (argv : list bytes) (base sp : Z) (ptrs : list Z) (img : Z -> Z) : option (Z * list Z * (Z -> Z)) :=
  match argv with
  | [] => Some (sp, ptrs, img)
  | a :: argv' =>
      if arg_below sp a <? base then None else
      plan_args argv' base (arg_below sp a) (ptrs ++ [arg_below sp a]) (write_img img (arg_below sp a) (a ++ [0]))
  end.

(** The frame of [main]: a return address, [argc], [argv], and the array [argv]. *)
Definition frame (sp : Z) (ptrs : list Z) : bytes :=
  let argc := Z.of_nat (length ptrs) in
  mjoin (le_bytes 4 <$> [4294967295; argc; sp - (argc + 1) * 4] ++ ptrs ++ [0]).

(** The program that starts: size, bytes, entry point and stack pointer.  The page below
    the stack is a guard. *)
Record program := mkprogram { g_sz : Z; g_img : Z -> Z; g_entry : Z; g_sp : Z }.
Definition guard_page (g : program) : Z := (g_sz g - 8192) / 4096.

(** The stack above the segments, which end at [sz]. *)
Definition plan_stack (sz : Z) (img : Z -> Z) (argv : list bytes) (entry : Z) : option program :=
  let top := 4096 * npages sz + 8192 in
  if (Z.of_nat (length argv) >? MAXARG) || (top >=? KERNBASE) then None else
  match plan_args argv (top - 4096) top [] img with
  | None => None
  | Some (sp, ptrs, img) =>
      let sp' := sp - 4 * (4 + Z.of_nat (length argv)) in
      if sp' <? top - 4096 then None else Some (mkprogram top (write_img img sp' (frame sp ptrs)) entry sp')
  end.

Definition plan (c : bytes) (argv : list bytes) : option program :=
  let elf := file_part c 0 SIZEOF_ELFHDR in
  if negb (file_has c 0 SIZEOF_ELFHDR) || negb (elf_magic elf =? ELF_MAGIC) then None else
  match plan_segments (Z.to_nat (elf_phnum elf)) c (elf_phoff elf) 0 (fun _ => 0) with
  | None => None
  | Some (sz, img) => plan_stack sz img argv (elf_entry elf)
  end.

(** * The memory is zero where nothing was loaded *)

Lemma write_img_out img va l x : ~ (va <= x < va + Z.of_nat (length l)) -> write_img img va l x = img x.
Proof. intros Hx. unfold write_img. by rewrite decide_False. Qed.

Lemma write_img_in img va l x : va <= x < va + Z.of_nat (length l) -> write_img img va l x = l !!! Z.to_nat (x - va).
Proof. intros Hx. unfold write_img. by rewrite decide_True. Qed.

Lemma length_file_part c off n : 0 <= off -> 0 <= n -> Z.of_nat (length (file_part c off n)) <= n.
Proof. intros Ho Hn. unfold file_part, slice. rewrite length_take. lia. Qed.

Lemma length_file_part_eq c off n : 0 <= off -> 0 <= n -> file_has c off n = true -> Z.of_nat (length (file_part c off n)) = n.
Proof. intros Ho Hn Hc. unfold file_has in Hc. unfold file_part, slice. rewrite length_take, length_drop. lia. Qed.


Lemma ph_ranges c off : Forall byte_ok c -> let ph := file_part c off SIZEOF_PROGHDR in
  0 <= ph_off ph < 4294967296 /\ 0 <= ph_vaddr ph < 4294967296 /\ 0 <= ph_filesz ph < 4294967296 /\ 0 <= ph_memsz ph < 4294967296.
Proof. intros _ ph. split_and!; apply uint_at_range. Qed.

Lemma elf_ranges c : Forall byte_ok c -> let elf := file_part c 0 SIZEOF_ELFHDR in
  0 <= elf_phoff elf < 4294967296 /\ 0 <= elf_entry elf < 4294967296.
Proof. intros _ elf. split; apply uint_at_range. Qed.

(** One segment keeps the memory zero beyond its size. *)
Definition zero_above (sz : Z) (img : Z -> Z) : Prop := forall va, 4096 * npages sz <= va -> img va = 0.

Lemma npages_mono a b : a <= b -> npages a <= npages b.
Proof. unfold npages. intros H. divmod. Qed.

Lemma plan_segment_ok c off sz img sz' img' : Forall byte_ok c -> 0 <= off -> 0 <= sz < KERNBASE -> zero_above sz img ->
  let ph := file_part c off SIZEOF_PROGHDR in plan_segment c ph sz img = Some (sz', img') ->
  sz <= sz' < KERNBASE /\ seg_top ph <= sz' /\ zero_above sz' img'.
Proof.
  intros Hc Ho Hsz Hz ph. destruct (ph_ranges c off Hc) as (H1 & H2 & H3 & H4). fold ph in H1, H2, H3, H4.
  unfold plan_segment. destruct (seg_ok c ph) eqn:Hs; [|done]. cbn [negb orb]. destruct (_ =? 0); [done|]. intros [= <- <-].
  unfold seg_ok in Hs. rewrite !andb_true_iff in Hs. destruct Hs as [[[Hs1 Hs2] Hs3] _]. unfold seg_top in *.
  split_and!; try lia. intros va Hva. pose proof (length_file_part c (ph_off ph) (ph_filesz ph)).
  assert (4096 * npages sz <= va /\ ph_vaddr ph + ph_memsz ph <= va) as [Ha Hb] by (unfold npages in *; divmod).
  rewrite write_img_out by lia. by apply Hz.
Qed.

Lemma plan_segments_ok n : forall c off sz img sz' img', Forall byte_ok c -> 0 <= off -> 0 <= sz < KERNBASE -> zero_above sz img ->
  plan_segments n c off sz img = Some (sz', img') -> sz <= sz' < KERNBASE /\ zero_above sz' img'.
Proof.
  induction n as [|n IH]; intros c off sz img sz' img' Hc Ho Hsz Hz; cbn [plan_segments]; [intros [= <- <-]; split; [lia|done]|].
  destruct (negb (file_has _ _ _)); [done|]. pose proof (u32_range (off + SIZEOF_PROGHDR)). cbv zeta.
  destruct (negb (_ =? _)); [apply IH; try done; lia|]. destruct (plan_segment _ _ _ _) as [[sz1 img1]|] eqn:E1; [|done].
  apply plan_segment_ok in E1 as (G1 & _ & G3); try done. intros Hp. apply IH in Hp as [Hp1 Hp2]; try done; try lia.
  split; [lia|done].
Qed.

(** * What main finds *)

Definition img_bytes (img : Z -> Z) (va : Z) (n : nat) : bytes := (fun i => img (va + Z.of_nat i)) <$> seq 0 n.
Definition img_word (img : Z -> Z) (va : Z) : Z := le_val (img_bytes img va 4).

Lemma img_bytes_in img va l o n : (o + n <= length l)%nat -> img_bytes (write_img img va l) (va + Z.of_nat o) n = slice l o n.
Proof.
  intros Hn. apply list_eq. intros i. unfold img_bytes, slice. rewrite list_lookup_fmap.
  destruct (decide (i < n)%nat) as [Hi|Hi].
  - rewrite lookup_seq_lt, lookup_take_lt, lookup_drop by lia. cbn. rewrite write_img_in by lia.
    rewrite list_lookup_lookup_total_lt by lia. do 2 f_equal. lia.
  - rewrite lookup_seq_ge by lia. cbn. symmetry. apply lookup_take_ge. lia.
Qed.

Lemma img_bytes_all img va l : img_bytes (write_img img va l) va (length l) = l.
Proof.
  pose proof (img_bytes_in img va l 0 (length l) ltac:(lia)) as E. rewrite Z.add_0_r in E. rewrite E.
  unfold slice. by rewrite drop_0, firstn_all.
Qed.

Lemma img_bytes_out img va l x n : x + Z.of_nat n <= va \/ va + Z.of_nat (length l) <= x ->
  img_bytes (write_img img va l) x n = img_bytes img x n.
Proof.
  intros Hx. apply list_fmap_ext. intros i j [-> Hj]%lookup_seq. apply write_img_out. lia.
Qed.

(** The string [a] at address [p], not below [sp]. *)
Definition string_at (img : Z -> Z) (sp top p : Z) (a : bytes) : Prop :=
  img_bytes img p (S (length a)) = a ++ [0] /\ sp <= p /\ p + Z.of_nat (S (length a)) <= top.

Lemma string_below img sp top sp' l : Z.of_nat (length l) <= sp - sp' -> forall p a, string_at img sp top p a ->
  string_at (write_img img sp' l) sp' top p a.
Proof. intros Hl p a (H1 & H2 & H3). split_and!; [|lia|done]. rewrite img_bytes_out by lia. done. Qed.

Lemma plan_args_ok top argv : forall base sp ptrs img done sp' ptrs' img', sp <= top ->
  plan_args argv base sp ptrs img = Some (sp', ptrs', img') -> Forall2 (string_at img sp top) ptrs done -> base <= sp -> sp mod 4 = 0 ->
  Forall2 (string_at img' sp' top) ptrs' (done ++ argv) /\ base <= sp' <= sp /\ sp' mod 4 = 0 /\
  (forall va, va < sp' \/ sp <= va -> img' va = img va).
Proof.
  induction argv as [|a argv IH]; intros base sp ptrs img dn sp' ptrs' img' Ht; cbn [plan_args].
  { intros [= <- <- <-] Hd Hb Hm. rewrite app_nil_r. split_and!; done. }
  set (q := arg_below sp a). destruct (q <? base) eqn:Eq; [done|]. intros Hp Hd Hb Hm.
  assert (sp - q >= Z.of_nat (length (a ++ [0]))) as Hq by (unfold q, arg_below; rewrite length_app; cbn [length]; divmod).
  assert (q mod 4 = 0) as Hq4 by (unfold q, arg_below; divmod).
  apply (IH base q _ _ (dn ++ [a])) in Hp; [|lia| |lia|done].
  - rewrite <- app_assoc in Hp. destruct Hp as (H1 & H2 & H3 & H4). split_and!; try done; try lia.
    intros va Hva. rewrite H4 by lia. apply write_img_out. lia.
  - apply Forall2_app.
    + eapply Forall2_impl; [exact Hd|]. intros p b Hs. eapply string_below; [|exact Hs]. lia.
    + constructor; [|done]. rewrite length_app in Hq. cbn [length] in Hq. split_and!; [|lia|lia].
      replace (S (length a)) with (length (a ++ [0])) by (rewrite length_app; cbn; lia). apply img_bytes_all.
Qed.

Lemma words_cons w ws : mjoin (le_bytes 4 <$> w :: ws) = le_bytes 4 w ++ mjoin (le_bytes 4 <$> ws).
Proof. done. Qed.

Lemma length_words ws : length (mjoin (le_bytes 4 <$> ws)) = (4 * length ws)%nat.
Proof. induction ws as [|w ws IH]; [done|]. rewrite words_cons, length_app, IH, length_le_bytes. cbn. lia. Qed.

Lemma word_of ws k w : ws !! k = Some w -> slice (mjoin (le_bytes 4 <$> ws)) (4 * k) 4 = le_bytes 4 w.
Proof.
  revert k. induction ws as [|x ws IH]; intros k Hk; [done|].
  rewrite words_cons. unfold slice. destruct k as [|k].
  - injection Hk as ->. change (4 * 0)%nat with 0%nat. rewrite drop_0. apply take_app_length'. by rewrite length_le_bytes.
  - rewrite drop_app_ge by (rewrite length_le_bytes; lia). rewrite length_le_bytes.
    replace (4 * S k - 4)%nat with (4 * k)%nat by lia. by apply IH.
Qed.

Lemma img_word_of img va ws k w : ws !! k = Some w -> 0 <= w < 4294967296 ->
  img_word (write_img img va (mjoin (le_bytes 4 <$> ws))) (va + 4 * Z.of_nat k) = w.
Proof.
  intros Hk Hw. unfold img_word. replace (4 * Z.of_nat k) with (Z.of_nat (4 * k)) by lia.
  rewrite img_bytes_in by (rewrite length_words; apply lookup_lt_Some in Hk; lia).
  rewrite (word_of _ _ _ Hk), le_val_bytes. by apply Z.mod_small.
Qed.

(** The program starts with [argc] and [argv] on its stack, as C has them: [argv] is an
    array of [argc] pointers to the strings and a null pointer, and the rest of the
    memory is as the segments have it. *)
Record main_args (img : Z -> Z) (sp top : Z) (argv : list bytes) : Prop := {
  ma_ret : img_word img sp = 4294967295;
  ma_argc : img_word img (sp + 4) = Z.of_nat (length argv);
  ma_argv : img_word img (sp + 8) = sp + 12;
  ma_strings : forall k a, argv !! k = Some a -> exists p,
    img_word img (sp + 12 + 4 * Z.of_nat k) = p /\ img_bytes img p (S (length a)) = a ++ [0] /\ sp < p /\ p + Z.of_nat (length a) < top;
  ma_null : img_word img (sp + 12 + 4 * Z.of_nat (length argv)) = 0;
  ma_aligned : sp mod 4 = 0
}.

Lemma frame_args img sp ptrs top argv : Forall2 (string_at img sp top) ptrs argv -> 0 <= sp - 4 * (4 + Z.of_nat (length argv)) -> top <= KERNBASE ->
  sp <= top -> sp mod 4 = 0 -> Z.of_nat (length argv) <= 32 ->
  main_args (write_img img (sp - 4 * (4 + Z.of_nat (length argv))) (frame sp ptrs)) (sp - 4 * (4 + Z.of_nat (length argv))) top argv.
Proof.
  intros Hs H0 Htop Hst Hm Hn. pose proof (Forall2_length _ _ _ Hs) as Hl. set (n := Z.of_nat (length argv)) in *.
  set (sp' := sp - 4 * (4 + n)) in *. unfold frame. rewrite Hl. fold n. unfold KERNBASE in *.
  replace (sp - (n + 1) * 4) with (sp' + 12) by lia. set (ws := [4294967295; n; sp' + 12] ++ ptrs ++ [0]).
  assert (length ws = (4 + length argv)%nat) as Hlw by (unfold ws; rewrite !length_app; cbn; lia).
  constructor.
  - rewrite <- (Z.add_0_r sp') at 2. by apply (img_word_of img sp' ws 0).
  - apply (img_word_of img sp' ws 1); [done|lia].
  - apply (img_word_of img sp' ws 2); [done|lia].
  - intros k a Ha. destruct (Forall2_lookup_r _ _ _ _ _ Hs Ha) as (p & Hp & E & Hp1 & Hp2). exists p.
    pose proof (lookup_lt_Some _ _ _ Ha) as Hk. split_and!; [|rewrite img_bytes_out by (rewrite length_words; lia); done|lia|lia].
    replace (sp' + 12 + 4 * Z.of_nat k) with (sp' + 4 * Z.of_nat (3 + k)) by lia.
    apply img_word_of; [|lia]. unfold ws. rewrite lookup_app_r by (cbn; lia). cbn [length]. replace (3 + k - 3)%nat with k by lia.
    rewrite lookup_app_l by lia. done.
  - fold n. replace (sp' + 12 + 4 * n) with (sp' + 4 * Z.of_nat (3 + length argv)) by lia. apply img_word_of; [|lia].
    unfold ws. rewrite lookup_app_r by (cbn; lia). cbn [length]. rewrite lookup_app_r by lia. by replace (3 + length argv - 3 - length ptrs)%nat with 0%nat by lia.
  - unfold sp'. divmod.
Qed.

(** What a plan says: the frame of [main] is on the stack page, and the rest of the memory
    holds the segments. *)
Lemma plan_main c argv g : Forall byte_ok c -> plan c argv = Some g -> let elf := file_part c 0 SIZEOF_ELFHDR in
  exists sz img, plan_segments (Z.to_nat (elf_phnum elf)) c (elf_phoff elf) 0 (fun _ => 0) = Some (sz, img) /\
    g_sz g = 4096 * npages sz + 8192 /\ g_sz g < KERNBASE /\ g_sz g - 4096 <= g_sp g < g_sz g /\ g_entry g = elf_entry elf /\
    main_args (g_img g) (g_sp g) (g_sz g) argv /\ (forall va, va < g_sz g - 4096 \/ g_sz g <= va -> g_img g va = img va).
Proof.
  intros Hc. unfold plan, plan_stack. set (elf := file_part c 0 SIZEOF_ELFHDR). cbv zeta.
  destruct (_ || _); [done|]. destruct (plan_segments _ _ _ _ _) as [[sz img]|] eqn:Es; [|done].
  set (top := 4096 * npages sz + 8192). destruct (_ || _) eqn:E0; [done|]. apply orb_false_iff in E0 as [E0 Et]. change MAXARG with 32 in E0.
  destruct (plan_args _ _ _ _ _) as [[[sp ptrs] img']|] eqn:Ea; [|done].
  destruct (_ <? _) eqn:Eb; [done|]. intros [= <-]. cbn [g_sz g_img g_sp g_entry]. exists sz, img.
  apply plan_segments_ok in Es as Hsz; [|done|apply (elf_ranges c Hc)|unfold KERNBASE; lia|by intros].
  assert (8192 <= top /\ top mod 4096 = 0) as [Ht0 Ht1] by (unfold top, npages; divmod).
  assert (top mod 4 = 0) as Ht4 by divmod.
  apply (plan_args_ok top argv _ _ _ _ []) in Ea as (Hst & Hsp & Hm & Hout); [|lia|constructor|lia|done].
  pose proof (Forall2_length _ _ _ Hst) as Hl. cbn [app] in *.
  split_and!; try done; try lia.
  - apply frame_args; try done; lia.
  - intros va Hva. rewrite write_img_out; [apply Hout; lia|]. unfold frame. rewrite length_words, !length_app. cbn [length]. lia.
Qed.

(** ** Example: four bytes of code and eight of memory, with the argument "a". *)
Definition tiny_elf : bytes :=
  le_bytes 4 ELF_MAGIC ++ replicate 20 0 ++ le_bytes 4 2 ++ le_bytes 4 52 ++ replicate 12 0 ++ le_bytes 2 1 ++ replicate 6 0 ++
  mjoin (le_bytes 4 <$> [ELF_PROG_LOAD; 84; 0; 0; 4; 8; 5; 4096]) ++ [205; 64; 235; 252].

Example tiny_plan : match plan tiny_elf [[97]] with
  | Some g => (g_sz g, g_entry g, g_sp g, guard_page g) = (12288, 2, 12264, 1) /\
      img_bytes (g_img g) 0 8 = [205; 64; 235; 252; 0; 0; 0; 0] /\
      img_word (g_img g) (12264 + 4) = 1 /\ img_word (g_img g) (12264 + 12) = 12284 /\ img_bytes (g_img g) 12284 2 = [97; 0]
  | None => False
  end.
Proof. vm_compute. repeat split. Qed.
