(* ===== verification/ExecLoad.v ===== *)
(** Loading a program: the loops of [loaduvm] and of [exec] over the segments and over the
    arguments build the memory of the plan, or fail where there is no plan or no memory. *)

From S2P Require Import Prelude Mem Strings Bio Block Fs Kalloc Vm VmSpace VmUser VmKernel VmCopy FsName Proc VmImage Elf Exec ExecPlan.
Local Open Scope Z_scope.

(** What [readi] returns on a file with contents [c]. *)
Definition file_read (c : bytes) (off n : Z) : Z * bytes :=
  if off >? Z.of_nat (length c) then (-1, []) else (Z.of_nat (length (file_part c off n)), file_part c off n).

Lemma file_read_full c off n : 0 <= off -> 0 < n <= 4096 -> Z.of_nat (length c) < 2147483648 ->
  (u32 (file_read c off n).1 =? n) = file_has c off n /\ (file_has c off n = true -> (file_read c off n).2 = file_part c off n) /\
  Z.of_nat (length (file_read c off n).2) <= n.
Proof.
  intros Ho Hn Hc. unfold file_read, file_has. pose proof (length_file_part c off n Ho ltac:(lia)) as Hl.
  destruct (off >? Z.of_nat (length c)) eqn:E; cbn [fst snd].
  - split_and!; [|lia|cbn; lia]. change (u32 (-1)) with 4294967295. lia.
  - split_and!; [|done|done].
    assert (Z.of_nat (length (file_part c off n)) = Z.min n (Z.of_nat (length c) - off)) as ->
      by (unfold file_part, slice; rewrite length_take, length_drop; lia).
    rewrite u32_small by lia. lia.
Qed.

(** A file that can be read while [FS] holds of the file system. *)
Record readable_file {W} `{BlockIO W} (devsw : Z -> option (nat -> Z -> M (fsys W) (Z * bytes))) (ip : nat) (c : bytes)
    (FS : fsys W -> Prop) : Prop := {
  rdf_bytes : Forall byte_ok c;
  rdf_size : Z.of_nat (length c) < 2147483648;
  rdf_read : forall x off n, FS x -> 0 <= off < 4294967296 -> 0 <= n <= 4096 ->
    exists x', readi devsw ip off n x = Ok (file_read c off n, x') /\ FS x'
}.

Section Load.
  Context {W X : Type} `{BlockIO W}.
  Context (kend data : Z).
  Context (devsw : Z -> option (nat -> Z -> M (fsys W) (Z * bytes))).
  Hypothesis kend_high : KERNBASE < kend.
Abbreviation xs := (xsys W X).
Abbreviation image := (image kend data).
  Context (pgdir : Z) (rest all : list Z).

(** What the loops leave alone. *)
Record beside (s s' : xs) : Prop := {
  bs_proc : x_proc s' = x_proc s;
  bs_cr3 : x_cr3 s' = x_cr3 s;
  bs_esp0 : x_esp0 s' = x_esp0 s;
  bs_cons : x_cons s' = x_cons s;
  bs_rest : forall v, v ∈ rest -> same_page (k_mem (x_kmem s)) (k_mem (x_kmem s')) v
}.

Lemma beside_refl s : beside s s.
Proof. by constructor. Qed.

Lemma beside_trans s1 s2 s3 : beside s1 s2 -> beside s2 s3 -> beside s1 s3.
Proof. intros [] []. constructor; try congruence. intros v Hv. eapply same_page_trans; auto. Qed.

Lemma xkm_Ok {A} (m : M kstate A) (s : xs) a k : m (x_kmem s) = Ok (a, k) -> xkm m s = Ok (a, xput_kmem k s).
Proof. apply zoom_Ok. Qed.

Lemma xfs_Ok {A} (m : M (fsys W) A) (s : xs) a x : m (x_fs s) = Ok (a, x) -> xfs m s = Ok (a, xput_fs x s).
Proof. apply zoom_Ok. Qed.

Lemma beside_kmem s k : (forall v, v ∈ rest -> same_page (k_mem (x_kmem s)) (k_mem k) v) -> beside s (xput_kmem k s).
Proof. by constructor. Qed.

Section Segments.
  Context (ip : nat) (c : bytes) (FS : fsys W -> Prop) (RF : readable_file devsw ip c FS).

(** ** loaduvm *)

Lemma file_part_app off n k : 0 <= off -> 0 <= k <= n ->
  take (Z.to_nat k) (file_part c off n) = file_part c off k /\
  drop (Z.to_nat k) (file_part c off n) = file_part c (off + k) (n - k).
Proof.
  intros Ho Hk. unfold file_part, slice. split.
  - rewrite take_take. f_equal. lia.
  - replace (Z.to_nat n) with (Z.to_nat k + Z.to_nat (n - k))%nat by lia. rewrite <- take_drop_commute, drop_drop.
    do 2 f_equal. lia.
Qed.

(** The page at [va] gets what is read. *)
Lemma load_page (s : xs) sz img fl va l : image (x_kmem s) pgdir rest all sz img fl -> 0 <= va < 4096 * npages sz ->
  va mod 4096 = 0 -> Z.of_nat (length l) <= 4096 ->
  exists pte, walkpgdir pgdir va false (x_kmem s) = Ok (pte, x_kmem s) /\ pte <> 0 /\
    let k := mkk (mwrite (k_mem (x_kmem s)) (P2V (PTE_ADDR (ld32 (k_mem (x_kmem s)) pte))) l)
      (k_use_lock (x_kmem s)) (k_freelist (x_kmem s)) in
    image k pgdir rest all sz (write_img img va l) fl /\ beside s (xput_kmem k s).
Proof.
  intros Hi Hva Hm Hl. destruct (image_walk kend data _ _ _ _ _ _ _ _ Hi Hva) as (pte & E & Hz & Hld & _).
  exists pte. split_and!; [done|done|]. rewrite Hld.
  destruct (image_write kend data _ _ _ _ _ _ _ va l Hi) as [Hi' Hr]; [lia|divmod|lia|]. rewrite Hm, Z.add_0_r in Hi', Hr.
  split; [done|]. by apply beside_kmem.
Qed.

Lemma load_nothing k psz img fl va off n : image k pgdir rest all psz img fl -> n <= 0 ->
  image k pgdir rest all psz (write_img img va (file_part c off n)) fl.
Proof.
  intros Hi Hn. eapply image_ext; [exact Hi|]. intros x _. symmetry. apply write_img_out.
  unfold file_part, slice. replace (Z.to_nat n) with 0%nat by lia. rewrite take_0. cbn [length]. lia.
Qed.

Lemma loaduvm_loop_spec fuel : forall (s : xs) psz img fl addr off sz i, FS (x_fs s) -> image (x_kmem s) pgdir rest all psz img fl ->
  0 <= addr -> addr mod 4096 = 0 -> addr + sz <= 4096 * npages psz -> 0 <= i -> i mod 4096 = 0 -> 0 <= off -> off + i < 4294967296 ->
  sz <= i + 4096 * Z.of_nat fuel ->
  exists r s', loaduvm_loop devsw fuel pgdir addr ip off sz i s = Ok (r, s') /\ FS (x_fs s') /\ beside s s' /\
    if (sz <=? i) || file_has c (off + i) (sz - i) then
      r = 0 /\ image (x_kmem s') pgdir rest all psz (write_img img (addr + i) (file_part c (off + i) (sz - i))) fl
    else r = -1 /\ exists img', image (x_kmem s') pgdir rest all psz img' fl.
Proof.
  induction fuel as [|fuel IH]; intros s psz img fl addr off sz i Hf Hi Ha Ham Hend Hi0 Him Ho Hoi Hfu; cbn [loaduvm_loop].
  all: destruct (i <? sz) eqn:Elt; [|apply Z.ltb_ge in Elt; replace (sz <=? i) with true by lia; cbn [orb];
    exists 0, s; split_and!; [done|done|apply beside_refl|done|apply load_nothing; [done|lia]]].
  { lia. }
  replace (sz <=? i) with false by lia. cbn [orb].
  pose proof (im_size _ _ _ _ _ _ _ _ _ Hi) as Hps. pose proof (npages_top psz Hps) as Htop. unfold KERNBASE in Htop.
  rewrite (u32_small (addr + i)) by lia. unfold PGSIZE. set (n := if sz - i <? 4096 then sz - i else 4096).
  assert (0 < n <= 4096 /\ n <= sz - i) as Hn by (unfold n; destruct (sz - i <? 4096) eqn:?; lia).
  destruct (rdf_read _ _ _ _ RF (x_fs s) (off + i) n Hf ltac:(lia) ltac:(lia)) as (x' & Er & Hf').
  destruct (file_read_full c (off + i) n ltac:(lia) ltac:(lia) (rdf_size _ _ _ _ RF)) as (Hrd & Hrp & Hrl).
  destruct (load_page s psz img fl (addr + i) (file_read c (off + i) n).2 Hi) as (pte & Ew & Hz & Hi1 & Hb1); [lia|divmod|lia|].
  mstep (xkm_Ok _ _ _ _ Ew). rewrite (proj2 (Z.eqb_neq _ _) Hz).
  replace (xput_kmem (x_kmem s) s) with s by by destruct s.
  mstep (xkm_Ok (load pte) s _ _ eq_refl). replace (xput_kmem (x_kmem s) s) with s by by destruct s.
  rewrite (u32_small (off + i)) by lia. mstep (xfs_Ok _ _ _ _ Er). fold n.
  set (k := mkk (mwrite _ _ _) _ _) in Hi1, Hb1.
  mstep (xkm_Ok (on_mem (fun m => mwrite m (P2V (PTE_ADDR (ld32 (k_mem (x_kmem s)) pte))) (file_read c (off + i) n).2)) (xput_fs x' s) tt k eq_refl).
  rewrite Hrd. set (s1 := xput_kmem k (xput_fs x' s)). assert (beside s s1) as Hb by by destruct Hb1.
  destruct (file_has c (off + i) n) eqn:Efh; cbn [negb].
  2: { exists (-1), s1. split_and!; [done|done|done|]. replace (file_has c (off + i) (sz - i)) with false by (unfold file_has in *; lia).
       split; [done|]. by eexists. }
  rewrite (Hrp eq_refl) in Hi1. unfold file_has in Efh. pose proof (rdf_size _ _ _ _ RF) as Hcs. rewrite (u32_small (i + 4096)) by lia.
  destruct (IH s1 psz _ fl addr off sz (i + 4096) Hf' Hi1) as (r & s' & E & Hf2 & Hb2 & Hres); try done; try lia; [divmod|].
  exists r, s'. split_and!; [done|done|by eapply beside_trans|].
  assert (((sz <=? i + 4096) || file_has c (off + (i + 4096)) (sz - (i + 4096))) = file_has c (off + i) (sz - i)) as <-.
  { unfold n in *. unfold file_has. destruct (sz - i <? 4096) eqn:?; lia. }
  destruct (_ || _) eqn:Ec; [|done]. destruct Hres as [-> Hi2]. split; [done|].
  eapply image_ext; [exact Hi2|]. intros x _. destruct (file_part_app (off + i) (sz - i) n ltac:(lia) ltac:(lia)) as [<- Hd].
  rewrite <- (write_img_app img (addr + i) (file_part c (off + i) (sz - i)) (Z.to_nat n) x), Hd.
  2: { unfold file_part, slice. rewrite length_take, length_drop. lia. }
  unfold n. destruct (sz - i <? 4096) eqn:Es.
  - rewrite !(write_img_out _ _ (file_part c _ _)); [done| |]; unfold file_part, slice; rewrite length_take; lia.
  - by rewrite Z2Nat.id, !Z.add_assoc, Z.sub_add_distr by lia.
Qed.

Lemma loaduvm_spec (s : xs) psz img fl addr off sz : FS (x_fs s) -> image (x_kmem s) pgdir rest all psz img fl ->
  0 <= addr -> addr mod 4096 = 0 -> 0 <= sz -> addr + sz <= 4096 * npages psz -> 0 <= off < 4294967296 ->
  exists r s', loaduvm devsw pgdir addr ip off sz s = Ok (r, s') /\ FS (x_fs s') /\ beside s s' /\
    if (sz =? 0) || file_has c off sz then
      r = 0 /\ image (x_kmem s') pgdir rest all psz (write_img img addr (file_part c off sz)) fl
    else r = -1 /\ exists img', image (x_kmem s') pgdir rest all psz img' fl.
Proof.
  intros Hf Hi Ha Ham Hsz Hend Ho. unfold loaduvm, PGSIZE. rewrite Ham. cbn [Z.eqb negb].
  destruct (loaduvm_loop_spec (Z.to_nat (sz / 4096 + 1)) s psz img fl addr off sz 0) as (r & s' & E & H1 & H2 & H3);
    try done; try lia; [divmod|].
  exists r, s'. split_and!; [done|done|done|]. rewrite !Z.add_0_r, Z.sub_0_r in H3.
  replace (sz =? 0) with (sz <=? 0) by lia. exact H3.
Qed.

(** ** The segments *)

(** What [load_segments] returns when the plan is [pl]. *)
Definition loaded (pl : option (Z * (Z -> Z))) (r : option Z) (k : kstate) : Prop :=
  match r with
  | Some sz => exists img, pl = Some (sz, img) /\ image k pgdir rest all sz img (fun _ => user_flags)
  | None => (exists sz img, image k pgdir rest all sz img (fun _ => user_flags)) /\
      forall sz img, pl = Some (sz, img) -> Z.of_nat (length all) <= 2049 + npages sz
  end.

(** A run from [s] with outcome [o]. *)
Definition gives (s : xs) (o : outcome (option Z * xs)) (pl : option (Z * (Z -> Z))) : Prop :=
  exists r s', o = Ok (r, s') /\ FS (x_fs s') /\ beside s s' /\ loaded pl r (x_kmem s').

Lemma gives_bad s s' pl sz img : FS (x_fs s') -> beside s s' -> image (x_kmem s') pgdir rest all sz img (fun _ => user_flags) ->
  pl = None -> gives s (Ok (None, s')) pl.
Proof. intros Hf Hb Hi ->. exists None, s'. split_and!; [done|done|done|]. split; [by exists sz, img|done]. Qed.

Lemma gives_trans s s1 o pl : beside s s1 -> gives s1 o pl -> gives s o pl.
Proof. intros Hb (r & s' & E & Hf & Hb' & Hl). exists r, s'. split_and!; [done|done|by eapply beside_trans|done]. Qed.

Lemma load_segment_spec (s : xs) off sz img : FS (x_fs s) -> image (x_kmem s) pgdir rest all sz img (fun _ => user_flags) ->
  zero_above sz img -> 0 <= off -> let ph := file_part c off SIZEOF_PROGHDR in
  gives s (load_segment kend devsw pgdir ip ph sz s) (plan_segment c ph sz img).
Proof.
  intros Hf Hi Hz Ho ph. destruct (ph_ranges c off (rdf_bytes _ _ _ _ RF)) as (R1 & R2 & R3 & R4). fold ph in R1, R2, R3, R4.
  assert (seg_ok c ph = false -> plan_segment c ph sz img = None) as Hno by by unfold plan_segment; intros ->.
  unfold load_segment. destruct (ph_memsz ph <? ph_filesz ph) eqn:E1.
  { eapply gives_bad; [done|apply beside_refl|exact Hi|]. apply Hno. unfold seg_ok. lia. }
  destruct (u32 (ph_vaddr ph + ph_memsz ph) <? ph_vaddr ph) eqn:E2.
  { eapply gives_bad; [done|apply beside_refl|exact Hi|]. apply Hno. unfold seg_ok, seg_top, KERNBASE.
    assert (4294967296 <= ph_vaddr ph + ph_memsz ph) by ints. lia. }
  assert (ph_vaddr ph + ph_memsz ph < 4294967296) as Hnw by ints. rewrite u32_small by lia. fold (seg_top ph).
  pose proof (im_size _ _ _ _ _ _ _ _ _ Hi) as Hsz.
  destruct (image_grow kend data kend_high _ _ _ _ _ _ _ (seg_top ph) Hi) as (r & k & Eg & Hr & Hres);
    [unfold seg_top; lia|done|done|].
  mstep (xkm_Ok _ _ _ _ Eg). set (s1 := xput_kmem k s). assert (beside s s1) as Hb1 by by apply beside_kmem.
  destruct Hres as [(-> & Hi1 & Hlen)|(Htop & -> & Hi1)].
  { exists None, s1. split_and!; [done|done|done|]. split; [by exists sz, img|]. intros sz' img' Hpl.
    apply plan_segment_ok in Hpl as (G1 & G2 & _); [|apply (rdf_bytes _ _ _ _ RF)|done|done|done]. fold ph in G2.
    pose proof (npages_mono (seg_top ph) sz' ltac:(lia)). lia. }
  destruct (Z.max sz (seg_top ph) =? 0) eqn:E3.
  { eapply gives_bad; [done|done|exact Hi1|]. unfold plan_segment. by rewrite E3, orb_true_r. }
  destruct (ph_vaddr ph mod PGSIZE =? 0) eqn:E4; cbn [negb]; unfold PGSIZE in E4.
  2: { eapply gives_bad; [done|done|exact Hi1|]. apply Hno. unfold seg_ok. rewrite E4. by rewrite andb_false_r. }
  pose proof (npages_top (Z.max sz (seg_top ph)) (im_size _ _ _ _ _ _ _ _ _ Hi1)) as Htp.
  destruct (loaduvm_spec s1 _ _ _ (ph_vaddr ph) (ph_off ph) (ph_filesz ph) Hf Hi1) as (l & s2 & El & Hf2 & Hb2 & Hl); try lia;
    [unfold seg_top in *; lia|].
  mstep El. destruct (_ || _) eqn:E5 in Hl.
  - destruct Hl as [-> Hi2]. change (0 <? 0) with false. cbv iota. exists (Some (Z.max sz (seg_top ph))), s2.
    split_and!; [done|done|by eapply beside_trans|]. eexists. split; [|exact Hi2]. unfold plan_segment.
    replace (seg_ok c ph) with true by (unfold seg_ok; rewrite E5; lia). by rewrite E3.
  - destruct Hl as (-> & img' & Hi2). change (-1 <? 0) with true. cbv iota.
    eapply gives_bad; [done|by eapply beside_trans|exact Hi2|]. apply Hno. unfold seg_ok. by rewrite E5, andb_false_r.
Qed.

Lemma load_segments_spec n : forall (s : xs) off sz img, FS (x_fs s) -> image (x_kmem s) pgdir rest all sz img (fun _ => user_flags) ->
  zero_above sz img -> 0 <= off < 4294967296 ->
  gives s (load_segments kend devsw n pgdir ip off sz s) (plan_segments n c off sz img).
Proof.
  induction n as [|n IH]; intros s off sz img Hf Hi Hz Ho; cbn [load_segments plan_segments].
  { exists (Some sz), s. split_and!; [done|done|apply beside_refl|]. by exists img. }
  destruct (rdf_read _ _ _ _ RF (x_fs s) off SIZEOF_PROGHDR Hf Ho ltac:(unfold SIZEOF_PROGHDR; lia)) as (x' & Er & Hf').
  destruct (file_read_full c off SIZEOF_PROGHDR ltac:(lia) ltac:(unfold SIZEOF_PROGHDR; lia) (rdf_size _ _ _ _ RF)) as (Hrd & Hrp & _).
  mstep (xfs_Ok _ _ _ _ Er). set (s1 := xput_fs x' s). assert (beside s s1) as Hb1 by by constructor. rewrite Hrd.
  destruct (file_has c off SIZEOF_PROGHDR); cbn [negb]; [|by eapply gives_bad].
  rewrite (Hrp eq_refl). pose proof (u32_range (off + SIZEOF_PROGHDR)) as Ho'. cbv zeta.
  destruct (negb (_ =? ELF_PROG_LOAD)); [apply (gives_trans s s1 _ _ Hb1), IH; done|].
  apply (gives_trans s s1 _ _ Hb1).
  destruct (load_segment_spec s1 off sz img Hf' Hi Hz (proj1 Ho)) as (r & s2 & E & Hf2 & Hb2 & Hl). mstep E.
  destruct r as [sz1|].
  - destruct Hl as (img1 & Hpl & Hi2). rewrite Hpl.
    apply plan_segment_ok in Hpl as (_ & _ & G); [|apply (rdf_bytes _ _ _ _ RF)|lia|apply (im_size _ _ _ _ _ _ _ _ _ Hi)|done].
    by apply (gives_trans s1 s2 _ _ Hb2), IH.
  - destruct Hl as [(sz2 & img2 & Hi2) Hlen]. exists None, s2. split_and!; [done|done|done|]. split; [by exists sz2, img2|].
    destruct (plan_segment _ _ _ _) as [[sz1 img1]|] eqn:Hpl; [|done]. intros sz3 img3 Hp3. specialize (Hlen _ _ eq_refl).
    apply plan_segment_ok in Hpl as (G1 & _ & G); [|apply (rdf_bytes _ _ _ _ RF)|lia|apply (im_size _ _ _ _ _ _ _ _ _ Hi)|done].
    pose proof (im_size _ _ _ _ _ _ _ _ _ Hi).
    apply plan_segments_ok in Hp3 as [Hp3 _]; [|apply (rdf_bytes _ _ _ _ RF)|lia|lia|done].
    pose proof (npages_mono sz1 sz3 ltac:(lia)). lia.
Qed.
End Segments.

(** ** The stack *)

(** A string of the caller. *)
Definition c_string (r a : bytes) : Prop := no_nul a /\ exists tl, r = a ++ 0 :: tl.

Lemma c_string_len r a : c_string r a -> strlen r = Ok (Z.of_nat (length a)) /\ take (S (length a)) r = a ++ [0].
Proof.
  intros [Ha [tl ->]]. split.
  - induction Ha as [|x a Hx _ IH]; [done|]. cbn [strlen app]. rewrite (proj2 (Z.eqb_neq _ _) Hx).
    rewrite IH. change (Ok (Z.of_nat (length a) + 1) = Ok (Z.of_nat (S (length a)))). f_equal. lia.
  - change (0 :: tl) with ([0] ++ tl). rewrite app_assoc. apply take_app_length'. rewrite length_app. cbn. lia.
Qed.

Lemma arg_below_u32 sp a : -4294967296 <= sp - (Z.of_nat (length a) + 1) < 4294967296 ->
  Z.land (u32 (sp - (Z.of_nat (length a) + 1))) (Z.lnot 3) = u32 (arg_below sp a).
Proof.
  intros Hr. unfold arg_below. set (y := sp - _) in *.
  assert (forall x, Z.land x (Z.lnot 3) = 4 * (x / 4)) as Hl.
  { intros x. rewrite <- Z.ldiff_land. change 3 with (Z.ones 2). rewrite Z.ldiff_ones_r by lia.
    rewrite Z.shiftl_mul_pow2, Z.shiftr_div_pow2 by lia. change (2 ^ 2) with 4. lia. }
  rewrite Hl. unfold u32. destruct (decide (0 <= y)); [rewrite !Z.mod_small by divmod; done|].
  rewrite <- (Z.mod_add y 1), <- (Z.mod_add (4 * (y / 4)) 1) by done. rewrite !Z.mod_small by divmod. divmod.
Qed.

  Hypothesis data_range : KERNLINK < data < KERNBASE + PHYSTOP.
  Context (gp : Z) (gp_low : 0 <= gp).
Let top := 4096 * gp + 8192.
Let base := 4096 * gp + 4096.
Definition guarded (g q : Z) : Z := if decide (q = g) then 3 else 7.

(** Bytes that go below [sp], at [v]: they fit the stack page, or run into the guard page
    or the space of the devices. *)
Lemma push_spec k img sp v l : image k pgdir rest all top img (guarded gp) -> base <= sp <= top -> l <> [] ->
  sp - 4 < v + Z.of_nat (length l) <= sp -> Z.of_nat (length l) <= 33554432 ->
  exists r k', copyout pgdir (u32 v) l k = Ok (r, k') /\ (forall u, u ∈ rest -> same_page (k_mem k) (k_mem k') u) /\
    if v <? base then r = -1 /\ exists img', image k' pgdir rest all top img' (guarded gp)
    else r = 0 /\ image k' pgdir rest all top (write_img img v l) (guarded gp).
Proof.
  intros Hi Hsp Hne Hv Hl. pose proof (im_size _ _ _ _ _ _ _ _ _ Hi) as Hsz. unfold KERNBASE in Hsz.
  assert (npages top = gp + 2) as Hnp by (unfold npages, top; divmod).
  assert (0 < Z.of_nat (length l)) as Hl0 by (destruct l; [done|simpl; lia]).
  destruct (decide (v < 0)) as [Hneg|Hpos]; [|rewrite u32_small by (unfold base, top in *; lia); unfold copyout; destruct (v <? base) eqn:Eb].
  - assert (u32 v = v + 4294967296) as -> by (unfold u32; rewrite <- (Z.mod_add v 1) by done; apply Z.mod_small; unfold base, top in *; lia).
    rewrite (copyout_device kend data data_range _ _ _ _ _ _ _ _ _ Hi Hne) by (unfold DEVSPACE, base, top in *; lia).
    exists (-1), k. replace (v <? base) with true by (unfold base; lia). split_and!; [done|done|done|by exists img].
  - destruct (copyout_stops kend data (length l) k pgdir rest all top img (guarded gp) v l gp Hi Hne) as (k' & img' & E & Hi' & Hr);
      [lia|unfold base, top in *; divmod|unfold base, top in *; lia|lia|unfold guarded; by rewrite decide_True| |].
    { intros q Hq. unfold guarded. by rewrite decide_False by lia. }
    exists (-1), k'. split_and!; [done|done|done|by exists img'].
  - destruct (copyout_user kend data (length l) k pgdir rest all top img (guarded gp) v l Hi) as (k' & E & Hi' & Hr);
      [lia|rewrite Hnp; unfold top in *; lia|lia| |].
    { intros q Hq _. unfold guarded. rewrite decide_False; [done|]. unfold base in *. divmod. }
    exists 0, k'. by split_and!.
Qed.

Lemma push_args_spec argv : forall strs (s : xs) sp ptrs img, Forall2 c_string argv strs ->
  Forall (fun a => Z.of_nat (length a) < 33554428) strs ->
  image (x_kmem s) pgdir rest all top img (guarded gp) -> base <= sp <= top -> (length ptrs <= 32)%nat ->
  exists r s', push_args argv pgdir (Z.of_nat (length ptrs)) sp ptrs s = Ok (r, s') /\ x_fs s' = x_fs s /\ beside s s' /\
    match (if (length ptrs + length strs <=? 32)%nat then plan_args strs base sp ptrs img else None) with
    | Some (sp', ptrs', img') => r = Some (Z.of_nat (length ptrs'), sp', ptrs') /\ length ptrs' = (length ptrs + length strs)%nat /\
        image (x_kmem s') pgdir rest all top img' (guarded gp) /\ base <= sp' <= top
    | None => r = None /\ exists img', image (x_kmem s') pgdir rest all top img' (guarded gp)
    end.
Proof.
  induction argv as [|r argv IH]; intros strs s sp ptrs img Hs Hlen Hi Hsp Hp32; inversion Hs as [|? a ? strs' Ha Hs']; subst;
    cbn [push_args plan_args length].
  { exists (Some (Z.of_nat (length ptrs), sp, ptrs)), s. split_and!; [done|done|apply beside_refl|]. rewrite Nat.add_0_r.
    rewrite (proj2 (Nat.leb_le _ _) Hp32). split_and!; [done|lia|done|apply Hsp|apply Hsp]. }
  apply Forall_cons in Hlen as [Hla Hlen]. change MAXARG with 32. destruct (Z.of_nat (length ptrs) >=? 32) eqn:Em.
  { exists None, s. split_and!; [done|done|apply beside_refl|]. rewrite (proj2 (Nat.leb_gt _ _)) by lia. split; [done|by exists img]. }
  destruct (c_string_len r a Ha) as [El Et]. rewrite El. cbn [lift].
  mstep (eq_refl : ret (Z.of_nat (length a)) s = Ok (Z.of_nat (length a), s)).
  pose proof (im_size _ _ _ _ _ _ _ _ _ Hi) as Hsz. unfold KERNBASE in Hsz.
  rewrite arg_below_u32 by (unfold base, top in *; lia).
  replace (Z.to_nat (Z.of_nat (length a) + 1)) with (S (length a)) by lia. rewrite Et. set (v := arg_below sp a).
  assert (Z.of_nat (length (a ++ [0])) = Z.of_nat (length a) + 1) as Hl1 by (rewrite length_app; cbn; lia).
  destruct (push_spec (x_kmem s) img sp v (a ++ [0]) Hi Hsp) as (x & k & E & Hr & Hx);
    [by destruct a|unfold v, arg_below; divmod|lia|].
  mstep (xkm_Ok _ _ _ _ E). set (s1 := xput_kmem k s). assert (beside s s1) as Hb1 by by apply beside_kmem.
  destruct (v <? base) eqn:Ev.
  { destruct Hx as (-> & img' & Hi'). change (-1 <? 0) with true. cbv iota. exists None, s1. split_and!; [done|done|done|].
    destruct (_ <=? _)%nat; (split; [done|by exists img']). }
  destruct Hx as [-> Hi']. change (0 <? 0) with false. cbv iota.
  assert (u32 v = v) as -> by (apply u32_small; unfold base, top, v, arg_below in *; divmod).
  destruct (IH strs' s1 v (ptrs ++ [v]) _ Hs' Hlen Hi') as (r' & s' & E' & Hf' & Hb' & H');
    [unfold base, top, v, arg_below in *; divmod|rewrite length_app; cbn; lia|].
  rewrite length_app in E', H'. cbn [length] in E', H'.
  replace (Z.of_nat (length ptrs + 1)) with (Z.of_nat (length ptrs) + 1) in E' by lia.
  exists r', s'. split_and!; [done|done|by eapply beside_trans|].
  replace (length ptrs + S (length strs'))%nat with (length ptrs + 1 + length strs')%nat by lia. exact H'.
Qed.
End Load.
