(* ===== verification/ExecMem.v ===== *)
(** The memory side of exec: the stack, and the step from the old address space to the new
    one, which gives all pages of the old one back. *)

From S2P Require Import Prelude Mem Strings Bio Block Fs FsName Kalloc Vm VmSpace VmUser VmKernel VmCopy Proc ProcMem Console VmImage Elf Exec ExecPlan ExecLoad.
Local Open Scope Z_scope.

(** * The name of the program *)

(** What follows the last slash. *)
Fixpoint after_slash (p last : bytes) : bytes :=
  match p with
  | [] => last
  | c :: p' => after_slash p' (if c =? 47 then p' else last)
  end.

Lemma last_elem_spec p tl : forall last, no_nul p -> last_elem (p ++ 0 :: tl) (last ++ 0 :: tl) = Ok (after_slash p last ++ 0 :: tl).
Proof.
  induction p as [|c p IH]; intros last Hp; [done|]. apply Forall_cons in Hp as [Hc Hp]. cbn [app last_elem after_slash].
  rewrite (proj2 (Z.eqb_neq _ _) Hc). destruct (c =? 47); by rewrite <- IH.
Qed.

Lemma after_slash_no_nul p : forall last, no_nul p -> no_nul last -> no_nul (after_slash p last).
Proof.
  induction p as [|c p IH]; intros last Hp Hl; [done|]. apply Forall_cons in Hp as [Hc Hp]. cbn. apply IH; [done|].
  by destruct (c =? 47).
Qed.

Lemma readable_string n e l : readable n (e ++ 0 :: l) = true.
Proof.
  revert n. induction e as [|c e IH]; intros [|n]; try done. cbn [app readable]. rewrite IH. apply orb_true_r.
Qed.

(** * Memory: the new image in place of the old address space *)

Section Memory.
  Context {W X : Type} `{BlockIO W}.
  Context (kend data : Z).
  Context (devsw : Z -> option (nat -> Z -> M (fsys W) (Z * bytes))).
  Hypothesis kend_high : KERNBASE < kend.
  Hypothesis data_aligned : data mod 4096 = 0.
  Hypothesis data_range : KERNLINK < data < KERNBASE + PHYSTOP.
Abbreviation xs := (xsys W X).
Abbreviation image := (image kend data).
Abbreviation page_ok := (page_ok kend).
Abbreviation pages := tables.

(** The pages of the old address space, and the pages of others, among them the kernel
    stack, with the trap frame in it. *)
  Context (p : proc X) (tabs um : gmap Z Z) (rest : list Z).
Let own := p_pgdir p :: tables tabs ++ pages um.

Record proc_ready : Prop := {
  pr_stack : p_kstack p ∈ rest;
  pr_tf : p_kstack p <= p_tf p /\ p_tf p + SIZEOF_TRAPFRAME <= p_kstack p + KSTACKSIZE;
  pr_name : length (p_name p) = 16%nat
}.
  Context (R : proc_ready).

(** The registers that the program starts with. *)
Definition starts_at (m : mem) (entry sp : Z) : Prop :=
  ld32 m (p_tf p + TF_EIP) = entry /\ ld32 m (p_tf p + TF_ESP) = sp.

Definition tf_only (m m' : mem) : Prop := forall v a, v ∈ rest -> v <= a < v + PGSIZE ->
  ~ (p_tf p + TF_EIP <= a < p_tf p + TF_EIP + 4) -> ~ (p_tf p + TF_ESP <= a < p_tf p + TF_ESP + 4) -> mget m' a = mget m a.

(** After the stores to the trap frame. *)
Lemma set_registers k pgdir all sz img fl entry sp : image k pgdir (own ++ rest) all sz img fl -> space_at (k_mem k) (p_pgdir p) tabs um ->
  0 <= entry < 4294967296 -> 0 <= sp < 4294967296 ->
  let m := st32 (st32 (k_mem k) (p_tf p + TF_EIP) entry) (p_tf p + TF_ESP) sp in
  let k' := mkk m (k_use_lock k) (k_freelist k) in
  image k' pgdir (own ++ rest) all sz img fl /\ space_at m (p_pgdir p) tabs um /\ starts_at m entry sp /\ tf_only (k_mem k) m.
Proof.
  intros Hi Hs He Hsp m k'. destruct (image_frame _ _ _ _ _ _ _ _ _ Hi) as (mine & free & Hd & Hall & Hk & Hn & Hp & Hfr).
  destruct R as [Hst [Htf1 Htf2] _]. unfold SIZEOF_TRAPFRAME, KSTACKSIZE in Htf2.
  rewrite Forall_forall in Hp. assert (page_ok (p_kstack p)) as Hks by (apply Hp; set_solver +Hst).
  assert (touches kend (p_kstack p) (k_mem k) m) as Ht.
  { eapply touches_trans; apply touches_st32; unfold TF_EIP, TF_ESP, PGSIZE; (done || lia). }
  assert (forall v, v ∈ mine ++ own ++ free -> same_page (k_mem k) m v) as Hsame.
  { intros v Hv. apply Ht; [apply Hp; set_solver +Hv|]. intros ->. rewrite <- app_assoc in Hn.
    apply NoDup_app in Hn as (_ & Hn1 & Hn2). apply NoDup_app in Hn2 as (_ & Hn2 & Hn3). apply NoDup_app in Hn3 as (_ & Hn3 & _).
    rewrite !elem_of_app in Hv. destruct Hv as [Hv|[Hv|Hv]].
    - apply (Hn1 _ Hv). set_solver +Hst.
    - apply (Hn2 _ Hv). set_solver +Hst.
    - by apply (Hn3 _ Hst). }
  assert (kmem_ok kend k' free) as Hk' by (eapply kmem_frame; [exact Hk|done|]; intros v Hv; apply Hsame; set_solver +Hv).
  split_and!.
  - assert (image k' pgdir (own ++ rest) (mine ++ free) sz img fl) as Hi'.
    { apply Hfr; [intros v Hv; apply Hsame; set_solver +Hv|done|done|by apply Forall_forall]. }
    destruct Hi' as [(t' & u' & f' & ? & ? & Hpe) ? ? ? ?]. constructor; try done. exists t', u', f'. split_and!; try done. by rewrite Hpe.
  - eapply space_at_frame; [exact Hs| |].
    + apply Forall_forall. intros v Hv. apply Hp. unfold own. set_solver +Hv.
    + intros v Hv. apply Hsame. unfold own. set_solver +Hv.
  - unfold m. split; [rewrite ld32_st32_other by (unfold TF_EIP, TF_ESP; lia)|]; by rewrite ld32_st32_same.
  - intros v a _ _ Ha1 Ha2. unfold m, st32. rewrite !mget_mwrite, !length_le_bytes. change (Z.of_nat 4) with 4.
    by rewrite !decide_False by done.
Qed.

(** What exec leaves when it succeeds: the program [g] in a new address space made of the
    pages of the old one and of free pages. *)
Record executed (s s' : xs) (free : list Z) (path : bytes) (g : program) : Prop := {
  ex_image : exists all, all ≡ₚ own ++ free /\
    image (x_kmem s') (p_pgdir (x_proc s')) rest all (g_sz g) (g_img g) (guarded (guard_page g));
  ex_proc : exists name, x_proc s' = set_space (p_pgdir (x_proc s')) (g_sz g) (set_name name p) /\
    name_of 15 name = take 15 (after_slash path path) /\ length name = 16%nat;
  ex_regs : starts_at (k_mem (x_kmem s')) (g_entry g) (g_sp g);
  ex_frame : tf_only (k_mem (x_kmem s)) (k_mem (x_kmem s'));
  ex_cpu : x_cr3 s' = V2P (p_pgdir (x_proc s')) /\ x_esp0 s' = p_kstack p + KSTACKSIZE;
  ex_cons : x_cons s' = x_cons s
}.

Lemma commit_image_spec (s : xs) pgdir all g path tl : image (x_kmem s) pgdir (own ++ rest) all (g_sz g) (g_img g) (guarded (guard_page g)) ->
  space_at (k_mem (x_kmem s)) (p_pgdir p) tabs um -> x_proc s = p -> no_nul path ->
  0 <= g_entry g < 4294967296 -> 0 <= g_sp g < 4294967296 ->
  exists s', commit_image kend (path ++ 0 :: tl) pgdir (g_sz g) (g_entry g) (g_sp g) s = Ok (0, s') /\
    x_fs s' = x_fs s /\ executed s s' all path g.
Proof.
  intros Hi Hs Ep Hpath He Hsp. unfold commit_image. rewrite last_elem_spec by done. cbn [lift].
  mstep (eq_refl : ret (after_slash path path ++ 0 :: tl) s = Ok (after_slash path path ++ 0 :: tl, s)).
  mstep (eq_refl : gets x_proc s = Ok (x_proc s, s)). rewrite Ep.
  destruct (safestrcpy_terminates (p_name p) (after_slash path path ++ 0 :: tl) 16 ltac:(lia)) as (name & En & Hln & Hnm & _ & _);
    [rewrite (pr_name R); lia|apply readable_string|].
  change (Z.of_nat 16) with 16 in En. rewrite En. cbn [lift]. mstep (eq_refl : ret name s = Ok (name, s)).
  destruct (set_registers _ _ _ _ _ _ _ _ Hi Hs He Hsp) as (Hi1 & Hs1 & Hreg & Htf). set (k1 := mkk _ _ _) in *.
  destruct (image_frame _ _ _ _ _ _ _ _ _ Hi1) as (mine & free & Hd & Hall & Hk & Hn & Hp & Hfr).
  assert (mine ++ (own ++ rest) ++ free ≡ₚ p_pgdir p :: tables tabs ++ (pages um ++ mine ++ rest) ++ free) as Hpe
    by (unfold own; cbn; solve_Permutation).
  destruct (freevm_spec kend_high k1 (p_pgdir p) tabs um (mine ++ rest) free) as (k2 & free2 & Ef & Hk2 & Hpf & Hr2).
  { apply uspace_of; [done|done|by rewrite <- Hpe|by rewrite <- Hpe]. }
  assert (mine ++ (own ++ rest) ++ free ≡ₚ mine ++ rest ++ p_pgdir p :: tables tabs ++ pages um ++ free) as Hpe'
    by (unfold own; cbn; solve_Permutation).
  rewrite Forall_forall in Hp. assert (page_ok (p_kstack p) /\ page_ok pgdir) as [Hks Hpg].
  { split; apply Hp; [pose proof (pr_stack R) as Hin; set_solver +Hin|set_solver +Hd]. }
  set (q := set_space pgdir (g_sz g) (set_name name p)).
  set (s2 := mkxsys (x_fs s) k1 q (V2P pgdir) (p_kstack p + KSTACKSIZE) (x_cons s)).
  exists (xput_kmem k2 s2). split_and!; [|done|].
  - trans ((do! xkm (freevm kend (p_pgdir p)) in ret 0) s2); [|by mstep (xkm_Ok _ s2 _ _ Ef)].
    unfold bind at 1, modify at 1. unfold bind at 1, modify at 1. unfold bind at 1, xkm at 1, zoom at 1, store at 1, modify at 1.
    unfold bind at 1, xkm at 1, zoom at 1, store at 1, modify at 1.
    cbn -[bind freevm xkm switchuvm st32 ret]. rewrite Ep.
    assert (E : switchuvm (mkxsys (x_fs s) k1 q (x_cr3 s) (x_esp0 s) (x_cons s)) = Ok (tt, s2)).
    { unfold switchuvm, bind, gets. cbn -[KSTACKSIZE V2P].
      by rewrite !(proj2 (Z.eqb_neq _ _)) by (by apply (page_nonzero kend)). }
    mstep E. done.
  - constructor; cbn [x_kmem x_proc x_cr3 x_esp0 x_cons xput_kmem s2 q]; [| | | |done|done].
    + exists (mine ++ free2). split.
      * rewrite Hpf. unfold own. cbn. rewrite <- Hall. solve_Permutation.
      * apply Hfr; [intros v Hv; apply Hr2; set_solver +Hv|done| |].
        -- rewrite Hpf, <- Hpe'. done.
        -- rewrite Hpf, <- Hpe'. by apply Forall_forall.
    + exists name. split_and!; [done| |].
      * change (16 - 1)%nat with 15%nat in Hnm. rewrite Hnm. apply name_of_cut. by apply after_slash_no_nul.
      * rewrite Hln. apply R.
    + destruct Hreg as [Hr1' Hr2']. pose proof (pr_stack R) as Hin. pose proof (pr_tf R) as [Htf1 Htf2].
      unfold SIZEOF_TRAPFRAME, KSTACKSIZE in Htf2.
      split; (rewrite (ld32_frame (k_mem k1)); [done|]); intros a Ha;
        apply (Hr2 (p_kstack p)); (set_solver +Hin || (unfold PGSIZE, TF_EIP, TF_ESP in *; lia)).
    + intros v a Hv Ha H1 H2. rewrite (Hr2 v); [by eapply Htf|set_solver +Hv|done].
Qed.

(** What exec leaves when it fails: everything as it was, with the same free pages. *)
Record untouched (s s' : xs) (free : list Z) : Prop := {
  un_free : exists free', free' ≡ₚ free /\ kmem_ok kend (x_kmem s') free';
  un_rest : beside (own ++ rest) s s'
}.

Lemma untouched_trans s s1 s2 free : beside (own ++ rest) s s1 -> untouched s1 s2 free -> untouched s s2 free.
Proof. intros Hb [H1 H2]. constructor; [done|by eapply beside_trans]. Qed.

Lemma bad_spec (s : xs) pgdir all sz img fl : image (x_kmem s) pgdir (own ++ rest) all sz img fl ->
  exists s', when (negb (pgdir =? 0)) (xkm (freevm kend pgdir)) s = Ok (tt, s') /\ x_fs s' = x_fs s /\ untouched s s' all.
Proof.
  intros Hi. destruct (image_free kend data kend_high _ _ _ _ _ _ _ Hi) as (k & free & E & Hk & Hpe & Hr).
  destruct (image_frame _ _ _ _ _ _ _ _ _ Hi) as (mine & fr & Hd & _ & _ & _ & Hp & _).
  rewrite Forall_forall in Hp. assert (page_ok pgdir) as Hpg by (apply Hp; set_solver +Hd).
  rewrite (proj2 (Z.eqb_neq _ _)) by (by apply (page_nonzero kend)). cbn [negb when].
  exists (xput_kmem k s). split_and!; [by apply xkm_Ok|done|]. constructor; [by exists free|by apply beside_kmem].
Qed.

(** The pages of the stack: the guard page and one above it. *)
Lemma stack_pages (s : xs) pgdir all sz img : image (x_kmem s) pgdir (own ++ rest) all sz img (fun _ => user_flags) -> zero_above sz img ->
  let top := 4096 * npages sz + 8192 in
  exists r s', xkm (allocuvm kend pgdir (PGROUNDUP sz) (u32 (PGROUNDUP sz + 2 * PGSIZE))) s = Ok (r, s') /\ x_fs s' = x_fs s /\ beside (own ++ rest) s s' /\
    (r = 0 /\ (exists sz', image (x_kmem s') pgdir (own ++ rest) all sz' img (fun _ => user_flags)) /\
       (top < KERNBASE -> Z.of_nat (length all) <= 2049 + npages top) \/
     r = top /\ top < KERNBASE /\ image (x_kmem s') pgdir (own ++ rest) all top img (fun _ => user_flags)).
Proof.
  intros Hi Hz top. pose proof (im_size _ _ _ _ _ _ _ _ _ Hi) as Hsz. pose proof (npages_top sz Hsz) as Htop.
  rewrite PGROUNDUP_page by lia. fold (npages sz). change (2 * PGSIZE) with 8192. fold top.
  rewrite u32_small by (unfold top, KERNBASE in *; lia).
  destruct (decide (top < KERNBASE)) as [Hlt|Hge].
  - assert (npages (4096 * npages sz) = npages sz) as En by (unfold npages; divmod).
    destruct (image_grow kend data kend_high _ _ _ _ _ _ _ top (image_round _ _ _ _ _ _ _ _ _ Hi ltac:(unfold top in *; lia)))
      as (r & k & E & Hr & Hres); [unfold top, KERNBASE in *; lia|done|by rewrite En|].
    exists r, (xput_kmem k s). split_and!; [by apply xkm_Ok|done|by apply beside_kmem|].
    destruct Hres as [(-> & Hi' & Hl)|(_ & -> & Hi')]; [left|right].
    + split_and!; [done|by eexists|done].
    + rewrite Z.max_r in Hi' |- * by (unfold top; lia). by split_and!.
  - exists 0, s. split_and!; [|done|apply beside_refl|].
    + assert (E : allocuvm kend pgdir (4096 * npages sz) top (x_kmem s) = Ok (0, x_kmem s))
        by (unfold allocuvm; by replace (top >=? KERNBASE) with true by lia).
      rewrite (xkm_Ok _ _ _ _ E). by destruct s.
    + left. split_and!; [done|by exists sz|lia].
Qed.

(** The arguments and the frame, on a stack with its guard page. *)
Lemma push_frame_spec (s : xs) pgdir all sz img argv strs entry : 0 <= sz ->
  let top := 4096 * npages sz + 8192 in
  image (x_kmem s) pgdir (own ++ rest) all top img (guarded (npages sz)) ->
  Forall2 c_string argv strs -> Forall (fun a => Z.of_nat (length a) < 33554428) strs ->
  exists o s', push_frame argv pgdir top s = Ok (o, s') /\ x_fs s' = x_fs s /\ beside (own ++ rest) s s' /\
    match plan_stack sz img strs entry with
    | Some g => o = Some (g_sp g) /\ g_sz g = top /\ g_entry g = entry /\ 0 <= g_sp g < 4294967296 /\
        image (x_kmem s') pgdir (own ++ rest) all top (g_img g) (guarded (npages sz))
    | None => o = None /\ exists img', image (x_kmem s') pgdir (own ++ rest) all top img' (guarded (npages sz))
    end.
Proof.
  intros Hsz top Hi Hc Hl. pose proof (im_size _ _ _ _ _ _ _ _ _ Hi) as Ht. assert (0 <= npages sz) as Hgp by (unfold npages; divmod).
  destruct (push_args_spec kend data devsw pgdir (own ++ rest) all data_range (npages sz) Hgp argv strs s top [] img Hc Hl Hi)
    as (r & s1 & E1 & Hf1 & Hb1 & H1); [unfold top; lia|cbn; lia|]. change (Z.of_nat (length [])) with 0 in E1. cbn [length Nat.add] in H1.
  unfold push_frame, plan_stack. mstep E1. fold top. replace (top >=? KERNBASE) with false by lia. rewrite orb_false_r. change MAXARG with 32.
  replace (top - 4096) with (4096 * npages sz + 4096) by (unfold top; lia). fold top in H1.
  destruct (length strs <=? 32)%nat eqn:E32; [apply Nat.leb_le in E32|apply Nat.leb_gt in E32].
  2: { replace (Z.of_nat (length strs) >? 32) with true by lia. destruct H1 as (-> & H1). exists None, s1. by split_and!. }
  replace (Z.of_nat (length strs) >? 32) with false by lia.
  destruct (plan_args _ _ _ _ _) as [[[sp ptrs] img1]|]; [|destruct H1 as (-> & H1); exists None, s1; by split_and!].
  destruct H1 as (-> & Hlp & Hi1 & Hsp). rewrite Hlp. unfold KERNBASE in Ht.
  set (n := Z.of_nat (length strs)) in *. set (v := sp - 4 * (4 + n)).
  rewrite (u32_small (sp - (n + 1) * 4)) by (unfold top in *; lia).
  assert (mjoin (le_bytes 4 <$> [4294967295; n; sp - (n + 1) * 4] ++ ptrs ++ [0]) = frame sp ptrs) as -> by (unfold frame; by rewrite Hlp).
  replace (sp - (3 + n + 1) * 4) with v by (unfold v; lia).
  assert (Z.of_nat (length (frame sp ptrs)) = 4 * (4 + n)) as Hlf by (unfold frame; rewrite length_words, !length_app; cbn [length]; lia).
  destruct (push_spec kend data devsw pgdir (own ++ rest) all data_range (npages sz) Hgp (x_kmem s1) img1 sp v (frame sp ptrs) Hi1)
    as (x & k & E & Hr & Hx); [done|intros E0; rewrite E0 in Hlf; cbn in Hlf; lia|unfold v; lia|lia|].
  mstep (xkm_Ok _ s1 _ _ E). fold top in Hx. set (s2 := xput_kmem k s1).
  assert (beside (own ++ rest) s s2) as Hb2 by (eapply beside_trans; [exact Hb1|by apply beside_kmem]).
  destruct (v <? 4096 * npages sz + 4096) eqn:Ev.
  - destruct Hx as [-> Hx]. change (-1 <? 0) with true. cbv iota. exists None, s2. by split_and!.
  - destruct Hx as [-> Hi2]. change (0 <? 0) with false. cbv iota. rewrite u32_small by (unfold v, top in *; lia).
    exists (Some v), s2. split_and!; try done; cbn [g_sp]; unfold v, top in *; lia.
Qed.

Lemma executed_trans s s1 s2 free path g : beside (own ++ rest) s s1 -> executed s1 s2 free path g -> executed s s2 free path g.
Proof.
  intros Hb [H1 H2 H3 H4 H5 H6]. constructor; try done; [|by rewrite H6, (bs_cons _ _ _ Hb)].
  intros v a Hv Ha Ha1 Ha2. rewrite (H4 v a) by done. apply (bs_rest _ _ _ Hb v); [set_solver +Hv|done].
Qed.

Lemma space_at_beside (s s' : xs) pgdir all sz img fl : image (x_kmem s) pgdir (own ++ rest) all sz img fl -> beside (own ++ rest) s s' ->
  space_at (k_mem (x_kmem s)) (p_pgdir p) tabs um -> space_at (k_mem (x_kmem s')) (p_pgdir p) tabs um.
Proof.
  intros Hi Hb Hs. destruct (image_frame _ _ _ _ _ _ _ _ _ Hi) as (mine & fr & _ & _ & _ & _ & Hp & _). rewrite Forall_forall in Hp.
  eapply space_at_frame; [exact Hs| |].
  - apply Forall_forall. intros v Hv. apply Hp. unfold own. set_solver +Hv.
  - intros v Hv. apply (bs_rest _ _ _ Hb). unfold own. set_solver +Hv.
Qed.

(** A failure after the file was closed. *)
Lemma bad_none (s s1 : xs) pgdir all sz img fl : beside (own ++ rest) s s1 -> image (x_kmem s1) pgdir (own ++ rest) all sz img fl ->
  exists s', bad kend pgdir None s1 = Ok (-1, s') /\ x_fs s' = x_fs s1 /\ untouched s s' all.
Proof.
  intros Hb Hi. destruct (bad_spec s1 pgdir all sz img fl Hi) as (s' & E & Hf & Hu). exists s'. unfold bad. mstep E.
  split_and!; [done|done|by eapply untouched_trans].
Qed.

Lemma build_stack_spec (s : xs) pgdir all sz img path tl argv strs entry :
  image (x_kmem s) pgdir (own ++ rest) all sz img (fun _ => user_flags) -> zero_above sz img ->
  space_at (k_mem (x_kmem s)) (p_pgdir p) tabs um -> x_proc s = p -> no_nul path -> 0 <= entry < 4294967296 ->
  Forall2 c_string argv strs -> Forall (fun a => Z.of_nat (length a) < 33554428) strs ->
  exists r s', build_stack kend (path ++ 0 :: tl) argv pgdir sz entry s = Ok (r, s') /\ x_fs s' = x_fs s /\
    (r = -1 /\ untouched s s' all /\
       (forall g, plan_stack sz img strs entry = Some g -> Z.of_nat (length all) <= 2049 + npages (g_sz g)) \/
     r = 0 /\ exists g, plan_stack sz img strs entry = Some g /\ executed s s' all path g).
Proof.
  intros Hi Hz Hs Ep Hpath He Hc Hl. pose proof (im_size _ _ _ _ _ _ _ _ _ Hi) as Hsz. unfold build_stack.
  destruct (stack_pages s pgdir all sz img Hi Hz) as (r & s1 & E1 & Hf1 & Hb1 & H1). mstep E1. set (top := 4096 * npages sz + 8192) in *.
  assert (forall g, plan_stack sz img strs entry = Some g -> g_sz g = top /\ top < KERNBASE) as Hg.
  { intros g. unfold plan_stack. fold top. destruct (_ || _) eqn:E; [done|].
    destruct (plan_args _ _ _ _ _) as [[[? ?] ?]|]; [|done]. destruct (_ <? _); [done|]. intros [= <-]. split; [done|lia]. }
  destruct H1 as [(-> & (sz' & Hi1) & Hlen)|(-> & Htop & Hi1)].
  { change (0 =? 0) with true. cbv iota. destruct (bad_none s s1 pgdir all _ _ _ Hb1 Hi1) as (s' & E & Hf & Hu).
    exists (-1), s'. split_and!; [done|congruence|left]. split_and!; [done|done|]. intros g [-> Hlt]%Hg. by apply Hlen. }
  pose proof (npages_top sz Hsz) as Hnp. assert (npages top = npages sz + 2) as Hnt by (unfold top, npages; divmod).
  replace (top =? 0) with false by (unfold top; lia). change (2 * PGSIZE) with 8192.
  replace (u32 (top - 8192)) with (4096 * npages sz) by (rewrite u32_small; unfold top, KERNBASE in *; lia).
  destruct (image_guard kend data data_range _ _ _ _ _ _ _ (npages sz) Hi1 ltac:(lia)) as (k & E2 & Hi2 & Hr2).
  mstep (xkm_Ok _ s1 _ _ E2). set (s2 := xput_kmem k s1).
  assert (beside (own ++ rest) s s2) as Hb2 by (eapply beside_trans; [exact Hb1|by apply beside_kmem]).
  assert (image (x_kmem s2) pgdir (own ++ rest) all top img (guarded (npages sz))) as Hi3.
  { eapply image_flags_ext; [exact Hi2|]. intros q _. unfold guarded. by destruct (decide (q = npages sz)). }
  destruct (push_frame_spec s2 pgdir all sz img argv strs entry (proj1 Hsz) Hi3 Hc Hl) as (o & s3 & E3 & Hf3 & Hb3 & H3).
  fold top in E3, H3. mstep E3. assert (beside (own ++ rest) s s3) as Hb3' by by eapply beside_trans.
  destruct (plan_stack sz img strs entry) as [g|] eqn:Epl.
  - destruct H3 as (-> & Eg & Ee & Hsp & Hi4). rewrite <- Ee. rewrite <- Ee in He.
    assert (guard_page g = npages sz) as Egp by (unfold guard_page; rewrite Eg; unfold top; divmod). rewrite <- Egp, <- Eg in Hi4. rewrite <- Eg.
    destruct (commit_image_spec s3 pgdir all g path tl Hi4) as (s' & E & Hf & Hx); try done.
    { by apply (space_at_beside s s3 pgdir all sz img _ Hi Hb3'). }
    { by rewrite (bs_proc _ _ _ Hb3'). }
    exists 0, s'. split_and!; [done|by rewrite Hf, Hf3|right]. split; [done|]. exists g. split; [done|by eapply executed_trans].
  - destruct H3 as (-> & img' & Hi4). destruct (bad_none s s3 pgdir all _ _ _ Hb3' Hi4) as (s' & E & Hf & Hu).
    exists (-1), s'. split_and!; [done|by rewrite Hf, Hf3|left]. by split_and!.
Qed.
End Memory.
