(* ===== verification/ExecCorrect.v ===== *)
(** exec is correct: the program of the plan replaces the memory of the process, or
    nothing changes.  The file system is read inside a transaction and stays as it was. *)

From S2P Require Import Prelude User Mem Strings Bio Log Crash Block Fs FsAlloc FsInode FsRefs FsName FsBlocks FsFile FsPath FileWrite.
From S2P Require Import Kalloc Vm VmSpace VmUser VmKernel VmCopy Proc ProcMem Console VmImage Elf Exec ExecPlan ExecLoad ExecMem.
Local Open Scope Z_scope.

(** * The file system between calls

    No transaction runs, the disk shows [f], others hold the references [R0] to the inode
    cache, to the inodes [num0], and nothing is locked. *)
Record fs_rest (f : Z -> bytes) (R0 : list nat) (num0 : nat -> Z) (s : fsys lstate) : Prop := {
  re_idle : log_idle (f_io s);
  re_view : forall b, home (l_start (l_log (f_io s))) (l_size (l_log (f_io s))) b -> now s b = f b;
  re_refs : refs_ok s R0;
  re_used : forall e, e ∈ R0 -> i_dev (f_ic s !!! e) = ROOTDEV /\ allocated f (f_sb s) (i_inum (f_ic s !!! e)) /\
    (i_valid (f_ic s !!! e) = true -> i_d (f_ic s !!! e) = dinode_at f (f_sb s) (i_inum (f_ic s !!! e)));
  re_unlocked : forall e, (e < length (f_ic s))%nat -> sl_locked (i_lock (f_ic s !!! e)) = false;
  re_kept : forall e, e ∈ R0 -> i_inum (f_ic s !!! e) = num0 e;
  re_few : Z.of_nat (length R0) + 1 < INT_MAX
}.

Lemma no_log : (length (@nil Z) < NB)%nat.
Proof. vm_compute. lia. Qed.

Section File.
  Context (s0 : fsys lstate) (R0 : list nat) (num0 : nat -> Z).
  Context (devsw : Z -> option (nat -> Z -> M (fsys lstate) (Z * bytes))).
Let f := now s0.
Let sb := f_sb s0.
Let me := f_pid s0.
Let cwd := f_cwd s0.
Let ni := length (f_ic s0).
#[local] Instance laws_x : BlockLaws lstate := log_laws (f_io s0).
Abbreviation walks := (walking f [] sb me cwd R0 num0 ni).

(** What the calls of exec leave of the file system. *)
Record fs_back (s : fsys lstate) : Prop := {
  bk_rest : fs_rest f R0 num0 s;
  bk_sb : f_sb s = sb;
  bk_len : length (f_ic s) = ni;
  bk_pid : f_pid s = me;
  bk_cwd : f_cwd s = cwd;
  bk_log : l_start (l_log (f_io s)) = l_start (l_log (f_io s0)) /\ l_size (l_log (f_io s)) = l_size (l_log (f_io s0))
}.

Lemma begin_walk : fs_rest f R0 num0 s0 -> exists s1, io io_begin_op s0 = Ok (tt, s1) /\ walks s1 [] None /\
  forall p, start_of cwd s1 p = start_of cwd s0 p /\ i_inum (f_ic s1 !!! cwd) = i_inum (f_ic s0 !!! cwd).
Proof.
  intros [Hid Hv Hr Hu Hl Hk]. destruct (tx_begin _ Hid) as (x & E & T). exists (put_io x s0).
  split_and!; [by apply (io_Ok io_begin_op s0)| |done]. constructor; try done. by apply refs_io.
Qed.

Lemma end_walk s : log_idle (f_io s0) -> walks s [] None -> exists s', io io_end_op s = Ok (tt, s') /\ fs_back s'.
Proof.
  intros Hid [T Hlen Hsb Hpid Hcwd Hr Hu Hl Hk].
  destruct (tx_end (f_io s0) (f_io s) f [] Hid T) as (x & E & Hid' & Hst & Hsz & Hv & _). exists (put_io x s).
  split; [by apply (io_Ok io_end_op s)|]. constructor; try done. constructor; cbn [put_io f_io f_ic f_sb]; rewrite ?Hsb; try done.
  - rewrite Hst, Hsz. exact Hv.
  - by apply refs_io.
Qed.

(** The open file. *)
Definition opened (k : nat) (j : Z) (s : fsys lstate) : Prop :=
  walks s [k] (Some k) /\ i_valid (f_ic s !!! k) = true /\ i_inum (f_ic s !!! k) = j.

  Context (L : layout_ok sb) (K : fs_ok f sb) (Hm : forall x, 0 <= x <= sb_bmapstart sb -> marked f sb x = true).

Lemma open_file s k j : walks s [k] None -> i_inum (f_ic s !!! k) = j -> exists s', ilock k s = Ok (tt, s') /\ opened k j s'.
Proof.
  intros Wk Hj. destruct (walk_ilock devsw f [] sb me cwd R0 num0 ni L no_log s [k] k Wk) as (x & E & T & W'); [by left|].
  eexists. split; [exact E|]. split; [done|].
  destruct (walking_in f [] sb me cwd R0 num0 ni no_log s [k] None k Wk ltac:(by left)) as [Hlt _]. rewrite putip_get by done. by split.
Qed.

Lemma open_readable k j : linked f sb j -> d_type (dinode_at f sb j) <> T_DEV -> Forall byte_ok (contents f (dinode_at f sb j)) ->
  readable_file devsw k (contents f (dinode_at f sb j)) (opened k j).
Proof.
  intros [Ha Hn] Hd Hb. pose proof (fk_file _ _ K j Ha Hd) as F. pose proof (fo_size _ _ _ F) as Hsz.
  assert (Hmx : MAXFILE * BSIZE = 71168) by reflexivity.
  constructor; [done|rewrite contents_length; lia|].
  intros s off n (Wk & Hv & Hj) Ho Hn4.
  assert (file_ready s k f []) as Rd by (apply (walk_ready f [] sb me cwd R0 num0 ni L K Hm no_log s [k]); [done|by left|done|by rewrite Hj]).
  assert (i_d (f_ic s !!! k) = dinode_at f sb j) as Ed by (rewrite <- Hj; apply (wk_used _ _ _ _ _ _ _ _ _ _ _ Wk); [by left|done]).
  pose proof (readi_spec s k f [] Rd devsw off n no_log) as Hr. rewrite Ed in Hr. unfold is_u32 in Hr.
  specialize (Hr ltac:(lia) ltac:(lia)). unfold file_read. rewrite contents_length, Z2Nat.id by lia.
  destruct (off >? d_size (dinode_at f sb j)) eqn:Eo; cbn [orb] in Hr; [exists s; by split|].
  replace (off + n >=? 4294967296) with false in Hr by lia. destruct Hr as (y & E & T).
  exists (put_io y s). split.
  - rewrite E. do 2 f_equal. rewrite <- Ed. exact (st_put s k f [] Rd y).
  - split_and!; [by apply walking_io|done|done].
Qed.

Lemma close_file s k j : log_idle (f_io s0) -> linked f sb j -> opened k j s ->
  exists s1 s2, iunlockput k s = Ok (tt, s1) /\ io io_end_op s1 = Ok (tt, s2) /\ fs_back s2.
Proof.
  intros Hid [_ Hn] (Wk & _ & Hj).
  destruct (walk_iunlockput devsw f [] sb me cwd R0 num0 ni L K Hm no_log s [] k Wk) as (s1 & E1 & W1 & _); [by rewrite Hj|].
  destruct (end_walk s1 Hid W1) as (s2 & E2 & Hb). by exists s1, s2.
Qed.
End File.

(** * exec *)

Section Exec.
  Context {X : Type} (kend data : Z) (devsw : Z -> option (nat -> Z -> M (fsys lstate) (Z * bytes))).
  Hypothesis kend_high : KERNBASE < kend.
  Hypothesis data_aligned : data mod 4096 = 0.
  Hypothesis data_range : KERNLINK < data < KERNBASE + PHYSTOP.
  Context (s : xsys lstate X) (tabs um : gmap Z Z) (rest free : list Z) (R0 : list nat) (num0 : nat -> Z).
Let p := x_proc s.
Let f := now (x_fs s).
Let sb := f_sb (x_fs s).
Let own := p_pgdir p :: tables tabs ++ tables um.
#[local] Instance laws_e : BlockLaws lstate := log_laws (f_io (x_fs s)).

(** The process and the rest of the memory. *)
  Context (U : uspace kend (x_kmem s) (p_pgdir p) tabs um rest free) (R : proc_ready p rest).
(** The file system. *)
  Context (F : fs_rest f R0 num0 (x_fs s)).
  Context (L : layout_ok sb) (K : fs_ok f sb) (Hm : forall x, 0 <= x <= sb_bmapstart sb -> marked f sb x = true).

Abbreviation back := (fs_back (x_fs s) R0 num0).
Abbreviation nothing := (untouched kend p tabs um rest).
Abbreviation done_ := (executed kend data p tabs um rest).

Lemma bad_file (s0 s1 s2 : xsys lstate X) pgdir k j : linked f sb j -> opened (x_fs s) R0 num0 k j (x_fs s1) ->
  when (negb (pgdir =? 0)) (xkm (freevm kend pgdir)) s1 = Ok (tt, s2) -> x_fs s2 = x_fs s1 -> nothing s0 s2 free ->
  exists s', bad kend pgdir (Some k) s1 = Ok (-1, s') /\ back (x_fs s') /\ nothing s0 s' free.
Proof.
  intros Hj Ho E Hf [Hfr Hb]. rewrite <- Hf in Ho.
  destruct (close_file (x_fs s) R0 num0 devsw L K Hm (x_fs s2) k j (re_idle _ _ _ _ F) Hj Ho) as (x1 & x2 & E1 & E2 & Hbk).
  exists (xput_fs x2 (xput_fs x1 s2)). split_and!; [|done|].
  - unfold bad. mstep E.
    assert (E3 : (do! xfs (iunlockput k) in xfs (io io_end_op)) s2 = Ok (tt, xput_fs x2 (xput_fs x1 s2)))
      by (mstep (xfs_Ok _ s2 _ _ E1); exact (xfs_Ok _ (xput_fs x1 s2) _ _ E2)).
    by mstep E3.
  - constructor; [done|]. by destruct Hb.
Qed.

(** The end of a call on the file with contents [c]. *)
Definition finished (c : bytes) (strs : list bytes) (path : bytes) (s0 : xsys lstate X) (o : outcome (Z * xsys lstate X)) : Prop :=
  exists r s', o = Ok (r, s') /\ back (x_fs s') /\
    (r = -1 /\ nothing s0 s' free /\ (forall g, plan c strs = Some g -> Z.of_nat (length free) <= 2049 + npages (g_sz g)) \/
     r = 0 /\ exists g, plan c strs = Some g /\ done_ s0 s' free path g).

Lemma finished_bad c strs path s0 s1 s2 pgdir k j : linked f sb j -> opened (x_fs s) R0 num0 k j (x_fs s1) ->
  when (negb (pgdir =? 0)) (xkm (freevm kend pgdir)) s1 = Ok (tt, s2) -> x_fs s2 = x_fs s1 -> nothing s0 s2 free ->
  (forall g, plan c strs = Some g -> Z.of_nat (length free) <= 2049 + npages (g_sz g)) ->
  finished c strs path s0 (bad kend pgdir (Some k) s1).
Proof.
  intros Hj Ho E Hf Hn Hg. destruct (bad_file s0 s1 s2 pgdir k j Hj Ho E Hf Hn) as (s' & E' & Hb & Hn'). exists (-1), s'.
  split_and!; [done|done|left; by split_and!].
Qed.

Lemma free_apart : NoDup ((own ++ rest) ++ free) /\ Forall (page_ok kend) ((own ++ rest) ++ free) /\ kmem_ok kend (x_kmem s) free.
Proof.
  destruct U as [[Hk _ _ Hn Hp] _]. assert ((own ++ rest) ++ free = p_pgdir p :: tables tabs ++ (tables um ++ rest) ++ free) as ->
    by (unfold own; cbn; by rewrite <- !app_assoc). by split_and!.
Qed.

Lemma plan_stack_size sz img strs entry g : 0 <= sz -> plan_stack sz img strs entry = Some g -> npages sz <= npages (g_sz g).
Proof.
  intros Hs. unfold plan_stack. destruct (_ || _); [done|]. destruct (plan_args _ _ _ _ _) as [[[? ?] ?]|]; [|done].
  destruct (_ <? _); [done|]. intros [= <-]. cbn [g_sz]. unfold npages. divmod.
Qed.

Lemma plan_size c strs g : Forall byte_ok c -> plan c strs = Some g -> let elf := file_part c 0 SIZEOF_ELFHDR in
  exists sz img, plan_segments (Z.to_nat (elf_phnum elf)) c (elf_phoff elf) 0 (fun _ => 0) = Some (sz, img) /\ 0 <= npages sz <= npages (g_sz g).
Proof.
  intros Hc Hp elf. unfold plan in Hp. fold elf in Hp. destruct (_ || _); [done|].
  destruct (plan_segments _ _ _ _ _) as [[sz img]|] eqn:Es; [|done]. exists sz, img.
  apply plan_segments_ok in Es as [Hs _]; [|done|apply (elf_ranges c Hc)|unfold KERNBASE; lia|done].
  apply plan_stack_size in Hp; [|lia]. split_and!; [done|unfold npages; divmod|done].
Qed.

Lemma exec_file_spec s0 path tl argv strs k j c : c = contents f (dinode_at f sb j) ->
  linked f sb j -> d_type (dinode_at f sb j) <> T_DEV -> Forall byte_ok c ->
  x_kmem s0 = x_kmem s -> x_proc s0 = p -> opened (x_fs s) R0 num0 k j (x_fs s0) ->
  no_nul path -> Forall2 c_string argv strs -> Forall (fun a => Z.of_nat (length a) < 33554428) strs ->
  finished c strs path s0 (exec_file kend data devsw (path ++ 0 :: tl) argv k s0).
Proof.
  intros Ec Hj Hdev Hc Ek Ep Ho Hpath Hs Hl.
  assert (readable_file devsw k c (opened (x_fs s) R0 num0 k j)) as RF by (rewrite Ec in *; by apply open_readable). clear Ec.
  destruct free_apart as (Hn & Hp & Hk). rewrite <- Ek in Hk.
  assert (forall x, nothing s0 (xput_fs x s0) free) as Hnone by (intros x; constructor; [by exists free|by constructor]).
  unfold exec_file. destruct (rdf_read _ _ _ _ RF (x_fs s0) 0 SIZEOF_ELFHDR Ho ltac:(lia) ltac:(unfold SIZEOF_ELFHDR; lia)) as (x1 & E1 & Ho1).
  destruct (file_read_full c 0 SIZEOF_ELFHDR ltac:(lia) ltac:(unfold SIZEOF_ELFHDR; lia) (rdf_size _ _ _ _ RF)) as (Hrd & Hrp & _).
  mstep (xfs_Ok _ s0 _ _ E1). rewrite Hrd. set (s1 := xput_fs x1 s0). set (elf := file_part c 0 SIZEOF_ELFHDR) in *.
  destruct (file_has c 0 SIZEOF_ELFHDR) eqn:Eh; cbn [negb].
  2: { eapply finished_bad; [exact Hj|exact Ho1|reflexivity|done|apply Hnone|]. intros g. unfold plan. by rewrite Eh. }
  rewrite (Hrp eq_refl). destruct (elf_magic elf =? ELF_MAGIC) eqn:Em; cbn [negb].
  2: { eapply finished_bad; [exact Hj|exact Ho1|reflexivity|done|apply Hnone|]. intros g. unfold plan. fold elf. by rewrite Eh, Em. }
  assert (plan c strs = match plan_segments (Z.to_nat (elf_phnum elf)) c (elf_phoff elf) 0 (fun _ => 0) with
    None => None | Some (sz, img) => plan_stack sz img strs (elf_entry elf) end) as Epl by (unfold plan; fold elf; by rewrite Eh, Em).
  destruct (image_start kend data kend_high data_aligned data_range (x_kmem s1) free (own ++ rest) Hk Hn Hp) as (pgdir & k2 & E2 & Hr2 & H2).
  mstep (xkm_Ok _ s1 _ _ E2). set (s2 := xput_kmem k2 s1).
  assert (beside (own ++ rest) s0 s2) as Hb2 by by constructor.
  destruct H2 as [(-> & Hlen & fr & Hkf & Hpf)|(Hz & Hi2)].
  { change (0 =? 0) with true. cbv iota. eapply finished_bad; [exact Hj|exact Ho1|reflexivity|done| |].
    - constructor; [by exists fr|done].
    - intros g Hg. destruct (plan_size c strs g Hc Hg) as (? & ? & _ & ?). lia. }
  rewrite (proj2 (Z.eqb_neq _ _) Hz). destruct (elf_ranges c Hc) as [He1 He2]. fold elf in He1, He2.
  destruct (load_segments_spec kend data devsw kend_high pgdir (own ++ rest) free k c _ RF (Z.to_nat (elf_phnum elf)) s2 (elf_phoff elf) 0
    (fun _ => 0) Ho1 (Hi2 _ _)) as (r & s3 & E3 & Ho3 & Hb3 & H3); [by intros ? ?|done|].
  mstep E3. assert (beside (own ++ rest) s0 s3) as Hb by by eapply beside_trans.
  destruct r as [sz|].
  2: { destruct H3 as [(sz & img & Hi3) Hlen]. destruct (bad_spec kend data kend_high p tabs um rest s3 pgdir free sz img _ Hi3) as (s4 & E4 & Hf4 & Hu4).
       eapply finished_bad; [exact Hj|exact Ho3|exact E4|done|by eapply untouched_trans|].
       intros g Hg. destruct (plan_size c strs g Hc Hg) as (sz' & img' & Hps & Hle). specialize (Hlen _ _ Hps). lia. }
  destruct H3 as (img & Hps & Hi3). rewrite Hps in Epl.
  destruct (close_file (x_fs s) R0 num0 devsw L K Hm (x_fs s3) k j (re_idle _ _ _ _ F) Hj Ho3) as (x4 & x5 & E4 & E5 & Hbk).
  mstep (xfs_Ok _ s3 _ _ E4). mstep (xfs_Ok _ (xput_fs x4 s3) _ _ E5). set (s5 := xput_fs x5 (xput_fs x4 s3)).
  assert (beside (own ++ rest) s0 s5) as Hb5 by by destruct Hb.
  apply plan_segments_ok in Hps as [Hs1 Hs2]; [|done|lia|unfold KERNBASE; lia|done].
  destruct (build_stack_spec kend data devsw kend_high data_range p tabs um rest R s5 pgdir free sz img path tl argv strs (elf_entry elf))
    as (r & s6 & E6 & Hf6 & H6); try done.
  { eapply space_at_frame; [rewrite <- Ek in U; eapply space_at_of; exact U| |intros v Hv; apply (bs_rest _ _ _ Hb5); unfold own; set_solver +Hv].
    eapply Forall_impl; [|by intros]. apply Forall_forall. intros v Hv. rewrite Forall_forall in Hp. apply Hp. unfold own. set_solver +Hv. }
  { by rewrite (bs_proc _ _ _ Hb5). }
  exists r, s6. rewrite <- Epl in H6. split_and!; [done|by rewrite Hf6|].
  destruct H6 as [(-> & Hu & Hg)|(-> & g & Hg & Hx)]; [left|right].
  - split_and!; [done|by eapply untouched_trans|done].
  - split; [done|]. exists g. split; [done|by eapply executed_trans].
Qed.
End Exec.

(** The state in which a process calls exec: its address space and its kernel stack, and a
    file system with no call in progress, which holds a tree of directories and has
    two entries of the inode cache to spare. *)
Record exec_ready {X} (kend : Z) (s : xsys lstate X) (tabs um : gmap Z Z) (rest free : list Z) (R0 : list nat) (num0 : nat -> Z) : Prop := {
  xr_space : uspace kend (x_kmem s) (p_pgdir (x_proc s)) tabs um rest free;
  xr_proc : proc_ready (x_proc s) rest;
  xr_rest : fs_rest (now (x_fs s)) R0 num0 (x_fs s);
  xr_layout : layout_ok (H0 := log_laws (f_io (x_fs s))) (f_sb (x_fs s));
  xr_tree : fs_ok (now (x_fs s)) (f_sb (x_fs s));
  xr_meta : forall x, 0 <= x <= sb_bmapstart (f_sb (x_fs s)) -> marked (now (x_fs s)) (f_sb (x_fs s)) x = true;
  xr_cwd : f_cwd (x_fs s) ∈ R0;
  xr_room : exists e1 e2, e1 <> e2 /\ (e1 ∉ R0 /\ e2 ∉ R0) /\ (e1 < length (f_ic (x_fs s)))%nat /\ (e2 < length (f_ic (x_fs s)))%nat;
  xr_root : linked (now (x_fs s)) (f_sb (x_fs s)) ROOTINO;
  xr_dir : linked (now (x_fs s)) (f_sb (x_fs s)) (i_inum (f_ic (x_fs s) !!! f_cwd (x_fs s)));
  xr_cons : screen_ok (x_cons s)
}.

(** The inode that a path stands for, and its bytes. *)
Definition exec_target {X} (s : xsys lstate X) (path : bytes) : option Z :=
  resolve (now (x_fs s)) (f_sb (x_fs s)) (start_of (f_cwd (x_fs s)) (x_fs s) path) (path_elems path).
Definition exec_contents {X} (s : xsys lstate X) (j : Z) : bytes :=
  contents (now (x_fs s)) (dinode_at (now (x_fs s)) (f_sb (x_fs s)) j).

(** Arguments that are strings, of less than 32 megabytes. *)
Definition args_ready (path : bytes) (argv strs : list bytes) : Prop :=
  no_nul path /\ Forall byte_ok path /\ Forall2 c_string argv strs /\ Forall (fun a => Z.of_nat (length a) < 33554428) strs.

(** C2. exec replaces the program of a process by the one in the file, or leaves everything
    as it was.  In any state in which a process can call it, with fewer references to inodes
    than the largest int and argument strings of less than 32 megabytes, on a path that does not lead to a device: exec returns; the
    file system is as before, with no transaction, lock or reference left.  If the path
    leads nowhere, or the bytes of the file and the arguments have no [plan] (no ELF
    header, a segment that is not in the file, is unaligned or reaches the kernel, more
    than 32 arguments or too long for the page), the result is -1.  If there is
    a plan, the result is 0, or -1 for a lack of pages only.  With -1
    the process, its memory, the registers and the set of free pages are unchanged.  With
    0 the user memory is byte for byte the plan's: the segments of the file, zero
    elsewhere, a guard page without user access below the stack, and on the
    stack the frame from which main reads argc and argv; the trap frame has the entry
    point and that stack pointer and is otherwise unchanged; the CPU uses the new page
    table; and every page of the old address space is used by the new one or free. *)
Theorem exec_correct {X} kend data devsw (s : xsys lstate X) tabs um rest free R0 num0 path tl argv strs :
  KERNBASE < kend -> data mod 4096 = 0 -> KERNLINK < data < KERNBASE + PHYSTOP ->
  exec_ready kend s tabs um rest free R0 num0 -> args_ready path argv strs ->
  (forall j, exec_target s path = Some j ->
     d_type (dinode_at (now (x_fs s)) (f_sb (x_fs s)) j) <> T_DEV /\ Forall byte_ok (exec_contents s j)) ->
  exists r s', exec kend data devsw (path ++ 0 :: tl) argv s = Ok (r, s') /\ fs_back (x_fs s) R0 num0 (x_fs s') /\
    match exec_target s path with
    | None => r = -1 /\ untouched kend (x_proc s) tabs um rest (xput_cons (x_cons s') s) s' free /\
        cprintf (text "exec: fail" ++ [10]) [] (x_cons s) = Ok (tt, x_cons s')
    | Some j =>
        match plan (exec_contents s j) strs with
        | None => r = -1 /\ untouched kend (x_proc s) tabs um rest s s' free
        | Some g => main_args (g_img g) (g_sp g) (g_sz g) strs /\
            (r = 0 /\ executed kend data (x_proc s) tabs um rest s s' free path g \/
             r = -1 /\ untouched kend (x_proc s) tabs um rest s s' free /\ Z.of_nat (length free) <= 2049 + npages (g_sz g))
        end
    end.
Proof.
  intros H1 H2 H3 [U R F L K Hm Hcwd (e1 & e2 & He & Hfr & Hl) Hroot Hlc Hscr] (Hp & Hbp & Hs & Hlen) Ht.
  destruct (begin_walk (x_fs s) R0 num0 F) as (x1 & E1 & W1 & Hst). destruct (Hst path) as [Hst1 Hst2].
  pose proof (namei_spec devsw _ [] _ _ _ R0 num0 _ L K Hm no_log e1 e2 He Hfr Hl path tl x1 Hp Hbp W1 Hcwd Hroot) as Hx.
  rewrite Hst2, Hst1 in Hx. specialize (Hx Hlc). fold (exec_target s path) in Hx. unfold exec. mstep (xfs_Ok _ s _ _ E1).
  destruct (exec_target s path) as [j|].
  - destruct Hx as (k & x2 & E2 & Hj & W2 & Hlk). mstep (xfs_Ok _ (xput_fs x1 s) _ _ E2).
    destruct (open_file (x_fs s) R0 num0 devsw L x2 k j W2 Hj) as (x3 & E3 & Ho).
    mstep (xfs_Ok _ (xput_fs x2 (xput_fs x1 s)) _ _ E3). set (s3 := xput_fs x3 _). destruct (Ht j eq_refl) as [Hd Hc].
    destruct (exec_file_spec kend data devsw H1 H2 H3 s tabs um rest free R0 num0 U R F L K Hm s3 path tl argv strs k j _ eq_refl Hlk Hd Hc)
      as (r & s' & E & Hb & Hr); try done.
    fold (exec_contents s j) in *. exists r, s'. split_and!; [done|done|].
    assert (beside ((p_pgdir (x_proc s) :: tables tabs ++ tables um) ++ rest) s s3) as Hb3 by done.
    destruct Hr as [(-> & Hu & Hg)|(-> & g & Hg & Hx)].
    + destruct (plan _ strs) as [g|] eqn:Eg; [|split; [done|by eapply untouched_trans]].
      split; [by apply (plan_main _ _ _ Hc) in Eg as (? & ? & _ & _ & _ & _ & _ & ? & _)|right].
      split_and!; [done|by eapply untouched_trans|by apply Hg].
    + rewrite Hg. split; [by apply (plan_main _ _ _ Hc) in Hg as (? & ? & _ & _ & _ & _ & _ & ? & _)|left].
      split; [done|by eapply executed_trans].
  - destruct Hx as (x2 & E2 & W2). mstep (xfs_Ok _ (xput_fs x1 s) _ _ E2).
    destruct (end_walk (x_fs s) R0 num0 x2 (re_idle _ _ _ _ F) W2) as (x3 & E3 & Hb).
    mstep (xfs_Ok _ (xput_fs x2 (xput_fs x1 s)) _ _ E3). set (s3 := xput_fs x3 _).
    destruct (cprintf_total (text "exec: fail" ++ [10]) [] (x_cons s) eq_refl Hscr) as (l & c & Ec & _).
    mstep (zoom_Ok x_cons xput_cons _ s3 _ _ Ec : xcons (cprintf (text "exec: fail" ++ [10]) []) s3 = Ok (tt, xput_cons c s3)).
    exists (-1), (xput_cons c s3). split_and!; [done|done|done| |done].
    constructor; [|by constructor]. exists free. split; [done|]. apply U.
Qed.

(** ** Witness: exec of the root directory, on the disk of mkfs *)

#[local] Opaque boot_fs.

Definition demo_proc : proc unit :=
  mkproc 0 (demo_page 0) (demo_page 4) RUNNING 1 None (demo_page 4 + 4020) 0 NoChan 0 tt (replicate 16 0).
Definition demo_sys : xsys lstate unit := mkxsys fs_idle demo_kernel demo_proc 0 0 demo_console.

Lemma demo_space : uspace demo_kend demo_kernel (demo_page 0) ∅ ∅ [demo_page 4] demo_free.
Proof.
  apply (uspace_of demo_kend demo_kernel (demo_page 0) ∅ ∅ [demo_page 4] demo_free).
  - exact (space_at_of _ _ _ _ _ _ _ demo_uspace).
  - exact demo_kmem.
  - apply NoDup_ListNoDup. repeat constructor; vm_compute; intuition discriminate.
  - repeat constructor; vm_compute; intuition discriminate.
Qed.

Lemma demo_rest : fs_rest (now fs_idle) [0%nat] (fun _ => ROOTINO) fs_idle.
Proof.
  destruct walking_fs as [_ _ _ _ _ Hr Hu Hl Hk]. apply Build_fs_rest.
  - exact boot_fs_idle.
  - intros b _. reflexivity.
  - exact (refs_io fs0 boot_fs [0%nat] Hr).
  - exact Hu.
  - intros e He. specialize (Hl e He). rewrite decide_False in Hl by discriminate. exact Hl.
  - exact Hk.
  - vm_compute. reflexivity.
Qed.

Lemma demo_ready : exec_ready demo_kend demo_sys ∅ ∅ [demo_page 4] demo_free [0%nat] (fun _ => ROOTINO).
Proof.
  constructor; [exact demo_space| |exact demo_rest|exact layout_fs|exact tree_fs|exact meta_fs|by left| |exact root_linked|exact root_linked|].
  - constructor; [by left|vm_compute; intuition discriminate|reflexivity].
  - exists 1%nat, 2%nat. change (length (f_ic (x_fs demo_sys))) with 50%nat.
    split_and!; [done|by intros ?%list_elem_of_singleton|by intros ?%list_elem_of_singleton|lia|lia].
  - apply demo_console_boot.
Qed.

Lemma exec_correct_witness : exists s', exec demo_kend (KERNLINK + 4096) (fun _ => None) [47; 46; 46; 0] [] demo_sys = Ok (-1, s') /\
  untouched demo_kend demo_proc ∅ ∅ [demo_page 4] demo_sys s' demo_free.
Proof.
  assert (Et : exec_target demo_sys [47; 46; 46] = Some ROOTINO).
  { change (exec_target demo_sys [47; 46; 46]) with (resolve view_fs sb_fs ROOTINO [[46; 46]]).
    cbn [resolve]. unfold child, is_dir. rewrite rootino_fs, root_contents. vm_compute. reflexivity. }
  assert (Ec : exec_contents demo_sys ROOTINO = rootdir0).
  { change (contents view_fs (dinode_at view_fs sb_fs ROOTINO) = rootdir0). by rewrite rootino_fs, root_contents. }
  destruct (exec_correct demo_kend (KERNLINK + 4096) (fun _ => None) demo_sys ∅ ∅ [demo_page 4] demo_free [0%nat] (fun _ => ROOTINO)
    [47; 46; 46] [] [] []) as (r & s' & E & _ & H).
  - reflexivity.
  - reflexivity.
  - vm_compute; intuition discriminate.
  - exact demo_ready.
  - split_and!; repeat constructor; unfold byte_ok; (discriminate || lia).
  - rewrite Et. intros j [= <-]. rewrite Ec. split.
    + change (d_type (dinode_at view_fs sb_fs ROOTINO) <> T_DEV). by rewrite rootino_fs.
    + apply (bool_decide_eq_true_1 _). vm_compute. reflexivity.
  - rewrite Et, Ec in H. assert (En : plan rootdir0 [] = None) by reflexivity. rewrite En in H. destruct H as [-> H].
    exists s'. split; [exact E|exact H].
Defined.
