(* ===== verification/Mkfs.v ===== *)
(** The image builder (mkfs.c), which runs on the host: the image is a list of sectors, and
    the two counters are the next inode and the next block to hand out.  What it prints is
    left out; [exit(1)] and a failing assert are a [Panic] with the reason. *)

From S2P Require Import Prelude Bio Log Strings Fs.
Local Open Scope Z_scope.

Definition NINODES : Z := 200.

Definition nbitmap : Z := FSSIZE / (BSIZE * 8) + 1.
Definition ninodeblocks : Z := NINODES / IPB + 1.
Definition nlog : Z := LOGSIZE.
Definition nmeta : Z := 2 + nlog + ninodeblocks + nbitmap.
Definition nblocks : Z := FSSIZE - nmeta.

(** The machine that mkfs runs on stores integers as little-endian numbers, as x86 does. *)
Definition xshort (x : Z) : Z := le_val [u8 x; u8 (Z.shiftr x 8)].
Definition xint (x : Z) : Z := le_val [u8 x; u8 (Z.shiftr x 8); u8 (Z.shiftr x 16); u8 (Z.shiftr x 24)].

Definition sb : superblock :=
  mksb (xint FSSIZE) (xint nblocks) (xint NINODES) (xint nlog) (xint 2) (xint (2 + nlog)) (xint (2 + nlog + ninodeblocks)).

(** The bytes of [struct superblock]. *)
Definition sb_bytes (x : superblock) : bytes :=
  le_bytes 4 (sb_size x) ++ le_bytes 4 (sb_nblocks x) ++ le_bytes 4 (sb_ninodes x) ++ le_bytes 4 (sb_nlog x) ++
  le_bytes 4 (sb_logstart x) ++ le_bytes 4 (sb_inodestart x) ++ le_bytes 4 (sb_bmapstart x).

(** The host: whether the image can be created, whether a sector of it can be written, and
    for a file that opens the results of read that are not 0 or an error. *)
Record host := mkhost {
  h_create : bytes -> bool;
  h_write : Z -> bool;
  h_open : bytes -> option (list bytes)
}.

Record mkfs := mkmkfs {
  m_img : list bytes;
  m_freeinode : Z;
  m_freeblock : Z
}.

Definition mkfs0 : mkfs := mkmkfs [] 1 0.
Definition put_img (x : list bytes) (s : mkfs) : mkfs := mkmkfs x (m_freeinode s) (m_freeblock s).
Definition put_freeinode (x : Z) (s : mkfs) : mkfs := mkmkfs (m_img s) x (m_freeblock s).
Definition put_freeblock (x : Z) (s : mkfs) : mkfs := mkmkfs (m_img s) (m_freeinode s) x.

Definition assert (b : bool) (msg : string) : M mkfs unit := if b then ret tt else panic msg.

Section Mkfs.
  Context (h : host).

(** * Sectors *)

(** The sector at the offset [sec * BSIZE] of the image. *)
Definition img_sector (sec : Z) : nat := Z.to_nat (u32 (sec * BSIZE) / BSIZE).

(** A write behind the end of the image leaves zeroes in between. *)
Definition img_write (k : nat) (buf : bytes) (img : list bytes) : list bytes :=
  if bool_decide (k < length img)%nat then <[k := buf]> img
  else img ++ replicate (k - length img) zero_block ++ [buf].

Definition wsect (sec : Z) (buf : bytes) : M mkfs unit :=
  if h_write h sec then modify (fun s => put_img (img_write (img_sector sec) buf (m_img s)) s) else panic "write".

Definition rsect (sec : Z) : M mkfs bytes :=
  let! img := gets m_img in
  match img !! img_sector sec with
  | Some buf => ret buf
  | None => panic "read"
  end.

(** * Inodes *)

Definition winode (inum : Z) (ip : dinode) : M mkfs unit :=
  let bn := IBLOCK inum sb in
  let! buf := rsect bn in
  wsect bn (put_dinode buf (inode_off inum) ip).

Definition rinode (inum : Z) : M mkfs dinode :=
  let bn := IBLOCK inum sb in
  let! buf := rsect bn in
  ret (get_dinode buf (inode_off inum)).

Definition ialloc (type : Z) : M mkfs Z :=
  let! inum := gets m_freeinode in
  do! modify (put_freeinode (u32 (inum + 1))) in
  let din := mkdinode (s16 (xshort type)) 0 0 (s16 (xshort 1)) 493 (xint 0) (replicate 12 0) in
  do! winode inum din in
  ret inum.

(** The loop of [balloc], from [i] on. *)
Fixpoint balloc_bits (n : nat) (i : Z) (buf : bytes) : bytes :=
  match n with
  | O => buf
  | S n' => balloc_bits n' (i + 1) (bit_set buf i)
  end.

Definition balloc (used : Z) : M mkfs unit :=
  do! assert (used <? BSIZE * 8) "used < BSIZE*8" in
  wsect (sb_bmapstart sb) (balloc_bits (Z.to_nat used) 0 zero_block).

(** [freeblock++] *)
Definition next_block : M mkfs Z :=
  let! b := gets m_freeblock in
  do! modify (put_freeblock (u32 (b + 1))) in
  ret b.

(** The block [x] for block [fbn] of the file, and the inode with it. *)
Definition append_addr (din : dinode) (fbn : Z) : M mkfs (dinode * Z) :=
  if fbn <? NDIRECT then
    let! din :=
      (if xint (d_addrs din !!! Z.to_nat fbn) =? 0 then
         let! b := next_block in ret (set_addr (Z.to_nat fbn) (xint b) din)
       else ret din) in
    ret (din, xint (d_addrs din !!! Z.to_nat fbn))
  else
    let! din :=
      (if xint (d_addrs din !!! Z.to_nat NDIRECT) =? 0 then
         let! b := next_block in ret (set_addr (Z.to_nat NDIRECT) (xint b) din)
       else ret din) in
    let ind := xint (d_addrs din !!! Z.to_nat NDIRECT) in
    let! indirect := rsect ind in
    let k := Z.to_nat (4 * (fbn - NDIRECT)) in
    let! indirect :=
      (if ld 4 indirect k =? 0 then
         let! b := next_block in
         let indirect := st 4 indirect k (xint b) in
         do! wsect ind indirect in
         ret indirect
       else ret indirect) in
    ret (din, xint (ld 4 indirect k)).

Fixpoint iappend_loop (fuel : nat) (din : dinode) (p : bytes) (off n : Z) : M mkfs (dinode * Z) :=
  if n >? 0 then
    match fuel with
    | O => undefined
    | S fuel' =>
        let fbn := off / BSIZE in
        do! assert (fbn <? MAXFILE) "fbn < MAXFILE" in
        let! r := append_addr din fbn in
        let '(din, x) := r in
        let n1 := Z.min n (u32 ((fbn + 1) * BSIZE - off)) in
        let! buf := rsect x in
        do! wsect x (splice buf (Z.to_nat (off - fbn * BSIZE)) (take (Z.to_nat n1) p)) in
        iappend_loop fuel' din (drop (Z.to_nat n1) p) (u32 (off + n1)) (n - n1)
    end
  else ret (din, off).

Definition iappend (inum : Z) (p : bytes) (n : Z) : M mkfs unit :=
  let! din := rinode inum in
  let off := xint (d_size din) in
  let! r := iappend_loop (Z.to_nat n) din p off n in
  let '(din, off) := r in
  winode inum (set_size (xint off) din).

(** * main *)

Fixpoint zero_image (n : nat) (i : Z) : M mkfs unit :=
  match n with
  | O => ret tt
  | S n' => do! wsect i zero_block in zero_image n' (i + 1)
  end.

(** [struct dirent] with the bytes of the name. *)
Definition dirent (inum : Z) (name : bytes) : bytes := le_bytes 2 (xshort inum) ++ name.

Fixpoint copy_file (inum : Z) (chunks : list bytes) : M mkfs unit :=
  match chunks with
  | [] => ret tt
  | c :: chunks' => do! iappend inum c (Z.of_nat (length c)) in copy_file inum chunks'
  end.

(** Skip the leading [_] of the name. *)
Definition skip_underscore (name : bytes) : bytes :=
  match name with
  | c :: name' => if c =? 95 then name' else name
  | [] => name
  end.

Definition add_file (rootino : Z) (arg : bytes) : M mkfs unit :=
  do! assert (bool_decide (47 ∉ arg)) "index(argv[i], '/') == 0" in
  match h_open h arg with
  | None => panic "open"
  | Some chunks =>
      let name := skip_underscore arg in
      let! inum := ialloc T_FILE in
      let! nm := lift (strncpy (replicate (Z.to_nat DIRSIZ) 0) (name ++ [0]) DIRSIZ) in
      do! iappend rootino (dirent inum nm) SIZEOF_DIRENT in
      copy_file inum chunks
  end.

Fixpoint add_files (rootino : Z) (args : list bytes) : M mkfs unit :=
  match args with
  | [] => ret tt
  | a :: args' => do! add_file rootino a in add_files rootino args'
  end.

(** "fix size of root inode dir" *)
Definition fix_root (rootino : Z) : M mkfs unit :=
  let! din := rinode rootino in
  let off := xint (d_size din) in
  let off := u32 ((off / BSIZE + 1) * BSIZE) in
  winode rootino (set_size (xint off) din).

(** The arguments without the name of the program. *)
Definition main (argv : list bytes) : M mkfs unit :=
  match argv with
  | [] => panic "Usage: mkfs fs.img files..."
  | img :: args =>
      do! assert (BSIZE mod SIZEOF_DINODE =? 0) "(BSIZE % sizeof(struct dinode)) == 0" in
      do! assert (BSIZE mod SIZEOF_DIRENT =? 0) "(BSIZE % sizeof(struct dirent)) == 0" in
      if negb (h_create h img) then panic "open" else
      do! modify (put_freeblock nmeta) in
      do! zero_image (Z.to_nat FSSIZE) 0 in
      do! wsect 1 (splice zero_block 0 (sb_bytes sb)) in
      let! rootino := ialloc T_DIR in
      do! assert (rootino =? ROOTINO) "rootino == ROOTINO" in
      do! iappend rootino (dirent rootino ([46] ++ replicate 13 0)) SIZEOF_DIRENT in
      do! iappend rootino (dirent rootino ([46; 46] ++ replicate 12 0)) SIZEOF_DIRENT in
      do! add_files rootino args in
      do! fix_root rootino in
      let! used := gets m_freeblock in
      balloc (s32 used)
  end.
End Mkfs.
