(* ===== verification/MkfsDisk.v ===== *)
(** The image builder (mkfs.c) on the level of blocks: sectors, inodes, the blocks handed out
    by the counter, and appending to a file, against the block map of FsBlocks.v. *)

From S2P Require Import Prelude Bio Log Crash Block Strings Fs FsAlloc FsInode FsBlocks Mkfs.
Local Open Scope Z_scope.

(** * Values *)

Lemma xint_id x : is_u32 x -> xint x = x.
Proof.
  unfold is_u32, xint, u8. intros Hx. rewrite !Z.shiftr_div_pow2 by lia. cbn [le_val].
  change (2 ^ 8) with 256. change (2 ^ 16) with 65536. change (2 ^ 24) with 16777216. divmod.
Qed.

Lemma xshort_id x : 0 <= x < 65536 -> xshort x = x.
Proof. unfold xshort, u8. intros Hx. rewrite !Z.shiftr_div_pow2 by lia. cbn [le_val]. change (2 ^ 8) with 256. divmod. Qed.

Lemma sb_eq : sb = sb_fs.
Proof. reflexivity. Qed.

Lemma byte_zero_block : Forall byte_ok zero_block.
Proof. apply Forall_replicate. unfold byte_ok. lia. Qed.

Lemma byte_st n d off v : Forall byte_ok d -> Forall byte_ok (st n d off v).
Proof. intros Hd. unfold st. apply Forall_splice; [done|apply le_bytes_ok]. Qed.

Lemma byte_put_dinode d off x : Forall byte_ok d -> Forall byte_ok (put_dinode d off x).
Proof.
  assert (forall l k c, Forall byte_ok c -> Forall byte_ok (put_addrs c k l)) as Ha.
  { induction l as [|a l IH]; intros k c Hc; cbn [put_addrs]; [done|]. by apply IH, byte_st. }
  intros Hd. unfold put_dinode. repeat first [apply Ha | apply byte_st]. done.
Qed.

(** The bit map that [balloc] writes. *)
Definition bitmap (n : Z) : bytes := balloc_bits (Z.to_nat n) 0 zero_block.

Lemma length_bits n : forall i buf, length (balloc_bits n i buf) = length buf.
Proof. induction n as [|n IH]; intros i buf; cbn [balloc_bits]; [done|]. rewrite IH. unfold bit_set, setb. apply length_insert. Qed.

Lemma bits_snoc n : forall i buf, balloc_bits (S n) i buf = bit_set (balloc_bits n i buf) (i + Z.of_nat n).
Proof.
  induction n as [|n IH]; intros i buf; [cbn; by rewrite Z.add_0_r|].
  change (balloc_bits (S (S n)) i buf) with (balloc_bits (S n) (i + 1) (bit_set buf i)). rewrite IH. cbn [balloc_bits]. f_equal. lia.
Qed.

Lemma bitmap_succ n : 0 <= n -> bitmap (n + 1) = bit_set (bitmap n) n.
Proof.
  intros Hn. unfold bitmap. replace (Z.to_nat (n + 1)) with (S (Z.to_nat n)) by lia. rewrite bits_snoc. f_equal. lia.
Qed.

Lemma bitmap_test n x : 0 <= n <= 4096 -> 0 <= x < 4096 -> bit_test (bitmap n) x = (x <? n).
Proof.
  intros Hn Hx. rewrite <- (Z2Nat.id n) by lia. assert (Z.of_nat (Z.to_nat n) <= 4096) as Hk by lia. revert Hk.
  generalize (Z.to_nat n) as k. clear n Hn. induction k as [|n IH]; intros Hk.
  - change (bitmap (Z.of_nat 0)) with zero_block. unfold bit_test. change (Z.of_nat 0) with 0. replace (x <? 0) with false by lia.
    replace (getb zero_block (x / 8)) with 0; [by rewrite Z.land_0_l|]. unfold getb, zero_block. symmetry. apply lookup_total_replicate_2. unfold BSIZE. divmod.
  - replace (Z.of_nat (S n)) with (Z.of_nat n + 1) by lia. rewrite bitmap_succ by lia. rewrite bit_set_spec, IH by
      (try (unfold bitmap; rewrite length_bits; unfold zero_block; rewrite length_replicate; unfold BSIZE); lia).
    destruct (decide (x = Z.of_nat n)) as [->|]; [rewrite bool_decide_true by done; lia|].
    rewrite bool_decide_false by done. lia.
Qed.

(** * The image *)

(** The image holds the blocks [f], in which the bit map is the one that [balloc] will write
    at the end; the blocks from the counter on are zero. *)
Record image (s : mkfs) (f : Z -> bytes) : Prop := {
  im_len : length (m_img s) = Z.to_nat FSSIZE;
  im_img : forall b, 0 <= b < FSSIZE -> b <> sb_bmapstart sb -> m_img s !! Z.to_nat b = Some (f b);
  im_bitmap : f (sb_bmapstart sb) = bitmap (m_freeblock s);
  im_size : forall b, length (f b) = 512%nat;
  im_bytes : forall b, b <> sb_bmapstart sb -> Forall byte_ok (f b);
  im_block : nmeta <= m_freeblock s <= FSSIZE;
  im_zero : forall b, m_freeblock s <= b -> f b = zero_block
}.

Lemma sector_id b : 0 <= b < 8388608 -> img_sector b = Z.to_nat b.
Proof. intros Hb. unfold img_sector, BSIZE. rewrite u32_small by lia. by rewrite Z.div_mul. Qed.

Lemma image_marked s f b : image s f -> 0 <= b < 4096 -> marked f sb b = (b <? m_freeblock s).
Proof.
  intros I Hb. unfold marked. rewrite (im_bitmap _ _ I). apply bitmap_test; [|done].
  pose proof (im_block _ _ I) as Hk. change nmeta with 59 in Hk. unfold FSSIZE in Hk. lia.
Qed.

Section Ops.
  Context (h : host) (Hh : forall b, 0 <= b < FSSIZE -> h_write h b = true).

Lemma rsect_Ok s f b : image s f -> 0 <= b < FSSIZE -> b <> sb_bmapstart sb -> rsect b s = Ok (f b, s).
Proof.
  intros I Hb Hne. unfold rsect, gets, bind. rewrite sector_id by (unfold FSSIZE in *; lia). by rewrite (im_img _ _ I).
Qed.

Lemma wsect_Ok s f b buf : image s f -> 0 <= b < m_freeblock s -> b <> sb_bmapstart sb -> length buf = 512%nat ->
  Forall byte_ok buf -> exists s', wsect h b buf s = Ok (tt, s') /\ image s' (assign f (b, buf)) /\
    m_freeinode s' = m_freeinode s /\ m_freeblock s' = m_freeblock s.
Proof.
  intros I Hb Hne Hl Hby. pose proof (im_block _ _ I) as Hk. unfold FSSIZE in *. pose proof (im_len _ _ I) as Hlen.
  unfold wsect. rewrite Hh by lia. eexists. split; [reflexivity|]. split; [|done].
  rewrite sector_id by lia. unfold img_write. rewrite bool_decide_true by (rewrite Hlen; unfold FSSIZE; lia).
  constructor; cbn [m_img m_freeblock put_img]; try done.
  - by rewrite length_insert.
  - intros x Hx Hxb. rewrite assign_eq. destruct (decide (x = b)) as [->|Hn].
    + apply list_lookup_insert_eq. rewrite Hlen. unfold FSSIZE. lia.
    + rewrite list_lookup_insert_ne by lia. by apply (im_img _ _ I).
  - rewrite assign_eq, decide_False by done. apply (im_bitmap _ _ I).
  - intros x. rewrite assign_eq. case_decide; [done|apply (im_size _ _ I)].
  - intros x Hx. rewrite assign_eq. case_decide; [done|by apply (im_bytes _ _ I)].
  - intros x Hx. rewrite assign_eq, decide_False by lia. by apply (im_zero _ _ I).
Qed.

Lemma meta_bounds s f : image s f -> sb_bmapstart sb = 58 /\ sb_size sb = 1000 /\ 59 <= m_freeblock s <= 1000.
Proof. intros I. pose proof (im_block _ _ I). split; [done|]. split; [done|]. exact H. Qed.

Lemma next_block_Ok s f : image s f -> m_freeblock s < FSSIZE ->
  exists s' f', next_block s = Ok (m_freeblock s, s') /\ image s' f' /\ fresh f sb (m_freeblock s) f' /\
    m_freeinode s' = m_freeinode s /\ m_freeblock s' = m_freeblock s + 1.
Proof.
  intros I Hlt. destruct (meta_bounds _ _ I) as (Eb & Es & Hk). unfold FSSIZE in Hlt.
  exists (put_freeblock (m_freeblock s + 1) s), (mark f sb (m_freeblock s)).
  assert (Hmk : forall b, b <> sb_bmapstart sb -> mark f sb (m_freeblock s) b = f b)
    by (intros b Hb; unfold mark; by rewrite assign_eq, decide_False).
  assert (I' : image (put_freeblock (m_freeblock s + 1) s) (mark f sb (m_freeblock s))).
  { constructor; cbn [m_img m_freeblock put_freeblock].
    - apply (im_len _ _ I).
    - intros b Hb Hne. rewrite Hmk by done. by apply (im_img _ _ I).
    - unfold mark. rewrite assign_eq, decide_True by done. rewrite (im_bitmap _ _ I). symmetry. apply bitmap_succ. lia.
    - intros b. unfold mark. rewrite assign_eq. case_decide; [|apply (im_size _ _ I)].
      unfold bit_set, setb. rewrite length_insert. apply (im_size _ _ I).
    - intros b Hb. rewrite Hmk by done. by apply (im_bytes _ _ I).
    - unfold FSSIZE. change nmeta with 59. lia.
    - intros b Hb. rewrite Hmk by lia. apply (im_zero _ _ I). lia. }
  split_and!; [|done| |done|done].
  { unfold next_block, gets, modify, bind. rewrite u32_small by lia. done. }
  assert (Hm : forall y, 0 <= y -> marked (mark f sb (m_freeblock s)) sb y = bool_decide (y = m_freeblock s) || marked f sb y).
  { intros y Hy. unfold marked, mark. rewrite assign_eq, decide_True by done.
    apply bit_set_spec; [|done]. rewrite (im_size _ _ I). lia. }
  constructor; [lia|rewrite (image_marked _ _ _ I); lia| |done|intros y Hy Hyb; by apply Hmk|].
  - rewrite Hmk by lia. apply (im_zero _ _ I). lia.
  - unfold nfree. apply (filter_minus_one _ _ (Z.to_nat (m_freeblock s))).
    + apply NoDup_seq.
    + apply elem_of_seq. rewrite Es. lia.
    + rewrite Z2Nat.id, (image_marked _ _ _ I) by lia. lia.
    + rewrite Z2Nat.id, Hm by lia. by rewrite bool_decide_true.
    + intros k _ Hne. rewrite Hm by lia. by rewrite bool_decide_false by lia.
Qed.

(** * The block for the next bytes *)

(** The blocks that [append_addr] takes for block [n]. *)
Definition takes (f : Z -> bytes) (d : dinode) (n : Z) : Z :=
  (if faddr f d n =? 0 then 1 else 0) + (if (NDIRECT <=? n) && (ind d =? 0) then 1 else 0).

Record appended (s : mkfs) (f : Z -> bytes) (d : dinode) (n : Z) (s' : mkfs) (f' : Z -> bytes) (d' : dinode) : Prop := {
  ap_image : image s' f';
  ap_ext : ext sb 0 0 f d f' d';
  ap_addr : faddr f' d' n <> 0;
  ap_others : forall m, slot m -> m <> n -> faddr f' d' m = faddr f d m;
  ap_new : faddr f d n = 0 -> f' (faddr f' d' n) = zero_block;
  ap_ind : ind d' <> 0 -> ind d <> 0 \/ NDIRECT <= n;
  ap_count : m_freeblock s' = m_freeblock s + takes f d n;
  ap_inode : m_freeinode s' = m_freeinode s
}.

Lemma bmap_nonneg : 0 <= sb_bmapstart sb.
Proof. discriminate. Qed.

Lemma faddr_u32 f d n : file_ok f sb d -> slot n -> is_u32 (faddr f d n).
Proof.
  intros F Hn. unfold is_u32. destruct (decide (faddr f d n = 0)) as [->|Hne]; [lia|].
  destruct (fo_used _ _ _ F (faddr f d n)) as [Hr _]; [split; [done|right; by exists n]|].
  change (sb_bmapstart sb) with 58 in Hr. change (sb_size sb) with 1000 in Hr. lia.
Qed.

Lemma ind_u32 f d : file_ok f sb d -> is_u32 (ind d).
Proof.
  intros F. unfold is_u32. destruct (decide (ind d = 0)) as [->|Hne]; [lia|].
  destruct (fo_used _ _ _ F (ind d)) as [Hr _]; [split; [done|by left]|].
  change (sb_bmapstart sb) with 58 in Hr. change (sb_size sb) with 1000 in Hr. lia.
Qed.

Lemma append_direct s f d n : image s f -> file_ok f sb d -> slot n -> n < NDIRECT ->
  m_freeblock s + takes f d n <= FSSIZE ->
  exists s' f' d', append_addr h d n s = Ok ((d', faddr f' d' n), s') /\ appended s f d n s' f' d'.
Proof.
  intros I F Hn Hd Hroom. unfold takes in Hroom. pose proof (faddr_u32 _ _ _ F Hn) as Hu.
  assert (En : forall g x, faddr g x n = d_addrs x !!! Z.to_nat n) by (intros g x; unfold faddr; by replace (n <? NDIRECT) with true by lia).
  unfold append_addr. replace (n <? NDIRECT) with true by lia. rewrite <- (En f d). rewrite xint_id by done.
  replace ((NDIRECT <=? n) && (ind d =? 0)) with false in Hroom by lia.
  destruct (faddr f d n =? 0) eqn:E0.
  - destruct (next_block_Ok s f I ltac:(lia)) as (s1 & f1 & E1 & I1 & Fr & Ei & Ek).
    pose proof (fr_range _ _ _ _ Fr) as Hr. change (sb_bmapstart sb) with 58 in Hr. change (sb_size sb) with 1000 in Hr.
    destruct (ext_direct sb f f1 d _ bmap_nonneg F Fr n) as [Ex Ea]; [unfold slot in Hn; lia|lia|].
    set (d1 := set_addr (Z.to_nat n) (m_freeblock s) d) in *. pose proof (Ea n Hn) as Ean. rewrite decide_True in Ean by done.
    exists s1, f1, d1. split; [|constructor; try done].
    + unfold bind, ret. rewrite E1. rewrite (xint_id (m_freeblock s)) by (unfold is_u32; lia).
      fold d1. rewrite <- (En f1 d1), Ean. rewrite xint_id by (unfold is_u32; lia). done.
    + lia.
    + intros m Hm Hne. by rewrite Ea, decide_False.
    + intros _. rewrite Ean. apply (fr_zero _ _ _ _ Fr).
    + unfold d1. rewrite ind_addr, decide_False by (rewrite ?(fo_addrs _ _ _ F); unfold slot, NDIRECT in *; lia). by left.
    + unfold takes. rewrite E0. replace ((NDIRECT <=? n) && (ind d =? 0)) with false by lia. lia.
  - exists s, f, d. split; [|constructor; try done].
    + unfold bind, ret. rewrite <- (En f d). by rewrite xint_id.
    + by apply ext_refl.
    + lia.
    + lia.
    + by left.
    + unfold takes. rewrite E0. replace ((NDIRECT <=? n) && (ind d =? 0)) with false by lia. lia.
Qed.

(** The first step behind the direct blocks: an indirect block. *)
Lemma append_ind s f d : image s f -> file_ok f sb d -> (ind d = 0 -> m_freeblock s < FSSIZE) ->
  exists s' f' d', (if xint (d_addrs d !!! Z.to_nat NDIRECT) =? 0 then
         let! b := next_block in ret (set_addr (Z.to_nat NDIRECT) (xint b) d) else ret d) s = Ok (d', s') /\
    image s' f' /\ ext sb 0 0 f d f' d' /\ ind d' <> 0 /\ (forall m, slot m -> faddr f' d' m = faddr f d m) /\
    m_freeblock s' = m_freeblock s + (if ind d =? 0 then 1 else 0) /\ m_freeinode s' = m_freeinode s.
Proof.
  intros I F Hroom. change (d_addrs d !!! Z.to_nat NDIRECT) with (ind d). rewrite xint_id by by eapply ind_u32.
  destruct (ind d =? 0) eqn:E0.
  - destruct (next_block_Ok s f I ltac:(lia)) as (s1 & f1 & E1 & I1 & Fr & Ei & Ek).
    pose proof (fr_range _ _ _ _ Fr) as Hr. change (sb_bmapstart sb) with 58 in Hr. change (sb_size sb) with 1000 in Hr.
    destruct (ext_ind sb f f1 d _ bmap_nonneg F Fr ltac:(lia)) as (Ex & Eb & Ea).
    exists s1, f1, (set_addr 11 (m_freeblock s) d). split_and!; try done.
    + unfold bind, ret. rewrite E1. rewrite xint_id by (unfold is_u32; lia). done.
    + lia.
  - exists s, f, d. split_and!; try done; [by apply ext_refl|lia|lia].
Qed.

Lemma append_indirect s f d n : image s f -> file_ok f sb d -> slot n -> NDIRECT <= n ->
  m_freeblock s + takes f d n <= FSSIZE ->
  exists s' f' d', append_addr h d n s = Ok ((d', faddr f' d' n), s') /\ appended s f d n s' f' d'.
Proof.
  intros I F Hn Hd Hroom. unfold takes in Hroom. replace (NDIRECT <=? n) with true in Hroom by lia. cbn [andb] in Hroom.
  assert (Hz : ind d = 0 -> faddr f d n = 0) by (intros E; unfold faddr; replace (n <? NDIRECT) with false by lia; by rewrite E).
  destruct (append_ind s f d I F) as (s1 & f1 & d1 & E1 & I1 & X1 & Hi & Ea & Ek & Ei).
  { intros E. rewrite Hz, E in Hroom by done. change (0 =? 0) with true in Hroom. cbv iota in Hroom. lia. }
  pose proof (ex_ok _ _ _ _ _ _ _ X1) as F1. pose proof (ind_u32 _ _ F1) as Hiu.
  assert (Hu : uses f1 d1 (ind d1)) by (split; [done|by left]). destruct (fo_used _ _ _ F1 _ Hu) as [Hr Hmk].
  change (sb_bmapstart sb) with 58 in Hr. change (sb_size sb) with 1000 in Hr. rewrite (image_marked _ _ _ I1) in Hmk by lia.
  assert (En : faddr f1 d1 n = ld 4 (f1 (ind d1)) (Z.to_nat (4 * (n - NDIRECT))))
    by (unfold faddr; replace (n <? NDIRECT) with false by lia; by replace (ind d1 =? 0) with false by lia).
  unfold append_addr. replace (n <? NDIRECT) with false by lia.
  mstep E1.
  change (d_addrs d1 !!! Z.to_nat NDIRECT) with (ind d1). rewrite (xint_id (ind d1)) by done. cbv zeta.
  mstep (rsect_Ok s1 f1 (ind d1) I1 ltac:(unfold FSSIZE; lia) ltac:(change (sb_bmapstart sb) with 58; lia)).
  rewrite <- En. rewrite Ea by done. destruct (faddr f d n =? 0) eqn:E0.
  - destruct (next_block_Ok s1 f1 I1) as (s2 & f2 & E2 & I2 & Fr & Ei2 & Ek2); [destruct (ind d =? 0); lia|].
    pose proof (fr_range _ _ _ _ Fr) as Hr2. change (sb_bmapstart sb) with 58 in Hr2. change (sb_size sb) with 1000 in Hr2.
    assert (Hk : f2 (ind d1) = f1 (ind d1)) by (apply (fr_kept _ _ _ _ Fr); [lia|change (sb_bmapstart sb) with 58; lia]).
    assert (Ho : (Z.to_nat (4 * (n - NDIRECT)) + 4 <= 512)%nat)
      by (unfold slot, MAXFILE, NINDIRECT, NDIRECT, BSIZE in *; change (512 / 4) with 128 in *; lia).
    destruct (wsect_Ok s2 f2 (ind d1) (st 4 (f2 (ind d1)) (Z.to_nat (4 * (n - NDIRECT))) (m_freeblock s1)) I2)
      as (s3 & E3 & I3 & Ei3 & Ek3); [lia|change (sb_bmapstart sb) with 58; lia| | |].
    { rewrite length_st; rewrite (im_size _ _ I2); lia. }
    { apply byte_st, (im_bytes _ _ I2). change (sb_bmapstart sb) with 58. lia. }
    destruct (ext_entry sb f1 f2 d1 (m_freeblock s1) n bmap_nonneg ltac:(done) F1 Fr Hi (im_size _ _ I2 _) Hn Hd)
      as [Ex Ea2]; [rewrite Ea by done; lia|]. set (f3 := assign f2 _) in *. pose proof (Ea2 n Hn) as Ean. rewrite decide_True in Ean by done.
    exists s3, f3, d1. split; [|constructor; try done].
    + unfold bind, ret. rewrite E2. rewrite (xint_id (m_freeblock s1)) by (unfold is_u32; lia). rewrite <- Hk.
      rewrite E3. rewrite ld_st_same by (rewrite (im_size _ _ I2); lia).
      rewrite Ean. rewrite (u32_mod (m_freeblock s1)), xint_id by (unfold is_u32; lia). done.
    + eapply ext_trans; [exact bmap_nonneg|exact X1|exact Ex].
    + rewrite Ean. lia.
    + intros m Hm Hne. by rewrite Ea2, decide_False, Ea.
    + intros _. rewrite Ean. unfold f3. rewrite assign_eq, decide_False by lia. apply (fr_zero _ _ _ _ Fr).
    + by right.
    + unfold takes. rewrite E0, Ek3, Ek2, Ek. replace (NDIRECT <=? n) with true by lia. cbn [andb]. lia.
    + congruence.
  - exists s1, f1, d1. split; [|constructor; try done].
    + unfold bind, ret. rewrite <- En, Ea by done. by rewrite xint_id by by eapply faddr_u32.
    + rewrite Ea by done. lia.
    + intros m Hm _. by apply Ea.
    + lia.
    + by right.
    + unfold takes. rewrite E0, Ek. replace (NDIRECT <=? n) with true by lia. cbn [andb]. lia.
Qed.

Lemma append_addr_spec s f d n : image s f -> file_ok f sb d -> slot n -> m_freeblock s + takes f d n <= FSSIZE ->
  exists s' f' d', append_addr h d n s = Ok ((d', faddr f' d' n), s') /\ appended s f d n s' f' d'.
Proof. intros I F Hn. destruct (decide (n < NDIRECT)); [by apply append_direct|apply append_indirect; (done || lia)]. Qed.

(** * Appending *)

(** The blocks of a file of [n] bytes, the indirect block included. *)
Definition blocks_of (n : Z) : Z := (n + (BSIZE - 1)) / BSIZE + (if NDIRECT * BSIZE <? n then 1 else 0).

Lemma blocks_mono a b : a <= b -> blocks_of a <= blocks_of b.
Proof.
  intros Hab. unfold blocks_of, NDIRECT, BSIZE. pose proof (Z.div_le_mono (a + 511) (b + 511) 512 eq_refl ltac:(lia)).
  change (512 - 1) with 511. destruct (11 * 512 <? a) eqn:?, (11 * 512 <? b) eqn:?; lia.
Qed.

(** The file has exactly the blocks for its first [off] bytes, and zeroes behind them. *)
Record tight (f : Z -> bytes) (d : dinode) (off : Z) : Prop := {
  ti_end : forall n, slot n -> faddr f d n <> 0 -> n * BSIZE < off;
  ti_all : forall n, 0 <= n -> n * BSIZE < off -> faddr f d n <> 0;
  ti_ind : ind d <> 0 -> NDIRECT * BSIZE < off;
  ti_slack : forall k, off <= k -> slot (k / BSIZE) -> faddr f d (k / BSIZE) <> 0 -> byte_of f d k = 0
}.

Lemma tight_agree f d off f' d' : (forall n, slot n -> faddr f' d' n = faddr f d n) -> ind d' = ind d ->
  (forall n, slot n -> faddr f d n <> 0 -> f' (faddr f d n) = f (faddr f d n)) -> off <= MAXFILE * BSIZE ->
  tight f d off -> tight f' d' off.
Proof.
  intros Ha Hi Hb Hmax [T1 T2 T3 T4]. constructor.
  - intros n Hn. rewrite Ha by done. by apply T1.
  - intros n Hn Hlt. rewrite Ha; [by apply T2|]. unfold slot, BSIZE in *. lia.
  - by rewrite Hi.
  - intros k Hk Hs. rewrite Ha by done. intros Hne. unfold byte_of. rewrite Ha, Hb by done. by apply T4.
Qed.

Lemma tight_takes f d off m : tight f d off -> 0 <= off -> 0 < m <= BSIZE - off mod BSIZE -> off < MAXFILE * BSIZE ->
  takes f d (off / BSIZE) = blocks_of (off + m) - blocks_of off /\ (faddr f d (off / BSIZE) = 0 <-> off mod BSIZE = 0).
Proof.
  intros [T1 T2 T3 T4] Ho Hm Hmax. set (n := off / BSIZE).
  assert (Hn : slot n) by (unfold n, slot, BSIZE in *; divmod).
  assert (Hz : faddr f d n = 0 <-> off mod BSIZE = 0).
  { split.
    - intros E. destruct (decide (off mod BSIZE = 0)) as [|Hne]; [done|]. contradict E.
      apply T2; unfold n, BSIZE in *; divmod.
    - intros E. destruct (decide (faddr f d n = 0)) as [|Hne]; [done|]. apply T1 in Hne; [|done].
      unfold n, BSIZE in *. divmod. }
  split; [|done].
  assert (Hi : ind d = 0 <-> off <= NDIRECT * BSIZE).
  { split.
    - intros E. destruct (decide (off <= NDIRECT * BSIZE)) as [|Hgt]; [done|].
      destruct (T2 NDIRECT); [done|lia|]. unfold faddr. by rewrite E.
    - intros Hle. destruct (decide (ind d = 0)) as [|Hne]; [done|]. apply T3 in Hne. lia. }
  unfold takes, blocks_of. fold n.
  assert (E1 : (if faddr f d n =? 0 then 1 else 0) = (off + m + (BSIZE - 1)) / BSIZE - (off + (BSIZE - 1)) / BSIZE).
  { destruct (faddr f d n =? 0) eqn:E0.
    - assert (off mod BSIZE = 0) by (apply Hz; lia). unfold BSIZE in *. divmod.
    - assert (off mod BSIZE <> 0) by (rewrite <- Hz; lia). unfold BSIZE in *. divmod. }
  assert (E2 : (if (NDIRECT <=? n) && (ind d =? 0) then 1 else 0) =
    (if NDIRECT * BSIZE <? off + m then 1 else 0) - (if NDIRECT * BSIZE <? off then 1 else 0)).
  { unfold n, NDIRECT, BSIZE in *. clear E1. destruct (ind d =? 0) eqn:Ei.
    - assert (off <= 11 * 512) by (apply Hi; lia). replace (11 * 512 <? off) with false by lia.
      destruct (11 <=? off / 512) eqn:E11; cbn [andb].
      + replace (11 * 512 <? off + m) with true by divmod. lia.
      + replace (11 * 512 <? off + m) with false by divmod. lia.
    - assert (~ off <= 11 * 512) by (rewrite <- Hi; lia). rewrite andb_false_r.
      replace (11 * 512 <? off) with true by lia. by replace (11 * 512 <? off + m) with true by lia. }
  lia.
Qed.

Lemma ext_ind_kept f d f' d' lo hi : ext sb lo hi f d f' d' -> ind d <> 0 -> ind d' = ind d.
Proof. intros E Hi. destruct (ex_ind _ _ _ _ _ _ _ E) as [|[? _]]; [done|lia]. Qed.

(** One round of the loop: [w] goes to the block of [off]. *)
Lemma append_round s f d off w : image s f -> file_ok f sb d -> tight f d off -> 0 <= off ->
  (0 < length w)%nat -> off mod BSIZE + Z.of_nat (length w) <= BSIZE -> off < MAXFILE * BSIZE -> Forall byte_ok w ->
  m_freeblock s + (blocks_of (off + Z.of_nat (length w)) - blocks_of off) <= FSSIZE ->
  exists s1 f1 d1 s2 f2, append_addr h d (off / BSIZE) s = Ok ((d1, faddr f1 d1 (off / BSIZE)), s1) /\
    rsect (faddr f1 d1 (off / BSIZE)) s1 = Ok (f1 (faddr f1 d1 (off / BSIZE)), s1) /\
    wsect h (faddr f1 d1 (off / BSIZE)) (splice (f1 (faddr f1 d1 (off / BSIZE))) (Z.to_nat (off mod BSIZE)) w) s1 = Ok (tt, s2) /\
    image s2 f2 /\ ext sb off (off + Z.of_nat (length w)) f d f2 d1 /\ faddr f2 d1 (off / BSIZE) <> 0 /\
    (forall k, off <= k < off + Z.of_nat (length w) -> byte_of f2 d1 k = w !!! Z.to_nat (k - off)) /\
    tight f2 d1 (off + Z.of_nat (length w)) /\ m_freeinode s2 = m_freeinode s /\
    m_freeblock s2 = m_freeblock s + (blocks_of (off + Z.of_nat (length w)) - blocks_of off).
Proof.
  intros I F Ht Ho Hw0 Hw Hmax Hby Hroom. set (n := off / BSIZE). set (m := Z.of_nat (length w)) in *.
  assert (Hn : slot n) by (unfold n, slot, BSIZE in *; divmod).
  assert (Hlo : n * BSIZE + Z.of_nat (Z.to_nat (off mod BSIZE)) = off) by (unfold n, BSIZE; divmod).
  assert (Hin : (Z.to_nat (off mod BSIZE) + length w <= 512)%nat) by (unfold BSIZE in *; divmod).
  destruct (tight_takes f d off m Ht Ho ltac:(unfold m, BSIZE in *; lia) Hmax) as [Et Ez]. fold n in Et, Ez.
  destruct (append_addr_spec s f d n I F Hn ltac:(lia)) as (s1 & f1 & d1 & E1 & [I1 X1 Ha1 Ho1 Hnew Hi1 Ek1 Ei1]).
  pose proof (ex_ok _ _ _ _ _ _ _ X1) as F1. set (x := faddr f1 d1 n) in *.
  assert (Hu : uses f1 d1 x) by (split; [done|right; by exists n]). destruct (fo_used _ _ _ F1 _ Hu) as [Hr Hmk].
  change (sb_bmapstart sb) with 58 in Hr. change (sb_size sb) with 1000 in Hr. rewrite (image_marked _ _ _ I1) in Hmk by lia.
  destruct (wsect_Ok s1 f1 x (splice (f1 x) (Z.to_nat (off mod BSIZE)) w) I1) as (s2 & E2 & I2 & Ei2 & Ek2);
    [lia|change (sb_bmapstart sb) with 58; lia|rewrite length_splice; rewrite (im_size _ _ I1); lia| |].
  { apply Forall_splice; [|done]. apply (im_bytes _ _ I1). change (sb_bmapstart sb) with 58. lia. }
  destruct (ext_store sb f1 d1 n (Z.to_nat (off mod BSIZE)) w bmap_nonneg F1 Hn Ha1 (im_size _ _ I1 _) Hin) as (X2 & Ea2 & Eb2).
  fold x in X2, Ea2, Eb2. set (f2 := assign f1 _) in *. rewrite Hlo in X2, Eb2. fold m in X2, Eb2.
  assert (X : ext sb off (off + m) f d f2 d1).
  { eapply ext_trans; [exact bmap_nonneg| |exact X2]. apply (ext_weaken _ 0 0); [done|lia]. }
  exists s1, f1, d1, s2, f2. split_and!; try done.
  - apply rsect_Ok; [done|unfold FSSIZE; lia|change (sb_bmapstart sb) with 58; lia].
  - by rewrite Ea2.
  - constructor.
    + intros k Hk Hne. rewrite Ea2 in Hne. destruct (decide (k = n)) as [->|Hkn]; [unfold m, BSIZE in *; lia|].
      rewrite Ho1 in Hne by done. pose proof (ti_end _ _ _ Ht k Hk Hne). lia.
    + intros k Hk Hlt. rewrite Ea2. destruct (decide (k = n)) as [->|Hkn]; [done|].
      assert (Hlt' : k * BSIZE < off) by (unfold n, BSIZE in *; divmod). rewrite Ho1; [|unfold slot, BSIZE in *; lia|done].
      by apply (ti_all _ _ _ Ht).
    + intros Hi. destruct (Hi1 Hi) as [Hi0|Hnd]; [pose proof (ti_ind _ _ _ Ht Hi0); lia|].
      unfold n, NDIRECT, BSIZE in *. divmod.
    + intros k Hk Hks Hne. rewrite Ea2 in Hne. destruct (decide (k / BSIZE = n)) as [Ekn|Hkn].
      * rewrite (ex_bytes _ _ _ _ _ _ _ X2); [|lia|done|done|lia].
        destruct (decide (faddr f d n = 0)) as [E0|E0].
        -- unfold byte_of. rewrite Ekn. fold x. rewrite Hnew by done. unfold zero_block.
           apply lookup_total_replicate_2. pose proof (Z.mod_pos_bound k BSIZE eq_refl). lia.
        -- rewrite (ex_bytes _ _ _ _ _ _ _ X1); [|lia|done|by rewrite Ekn|lia].
           apply (ti_slack _ _ _ Ht); [lia|done|by rewrite Ekn].
      * rewrite Ho1 in Hne by done. pose proof (ti_end _ _ _ Ht _ Hks Hne). unfold n, BSIZE in *. divmod.
  - congruence.
  - lia.
Qed.

Lemma iappend_loop_spec fuel : forall s f d off p, image s f -> file_ok f sb d -> tight f d off ->
  0 <= off -> off + Z.of_nat (length p) <= MAXFILE * BSIZE -> (length p <= fuel)%nat -> Forall byte_ok p ->
  m_freeblock s + (blocks_of (off + Z.of_nat (length p)) - blocks_of off) <= FSSIZE ->
  exists s' f' d', iappend_loop h fuel d p off (Z.of_nat (length p)) s = Ok ((d', off + Z.of_nat (length p)), s') /\
    image s' f' /\ stored sb f d off p f' d' /\ tight f' d' (off + Z.of_nat (length p)) /\ m_freeinode s' = m_freeinode s /\
    m_freeblock s' = m_freeblock s + (blocks_of (off + Z.of_nat (length p)) - blocks_of off).
Proof.
  assert (Hmx : MAXFILE * BSIZE = 71168) by reflexivity.
  induction fuel as [|fuel IH]; intros s f d off p I F Ht Ho Hmax Hf Hby Hroom.
  { destruct p; cbn [length] in *; [|lia]. rewrite Z.add_0_r in *. exists s, f, d.
    split_and!; [done|done|by apply stored_nil|done|done|lia]. }
  destruct (decide (p = [])) as [->|Hne].
  { cbn [length iappend_loop]. rewrite Z.add_0_r in *. exists s, f, d.
    split_and!; [done|done|by apply stored_nil|done|done|lia]. }
  assert (Hl : (0 < length p)%nat) by (destruct p; [done|cbn; lia]). set (n := Z.of_nat (length p)) in *.
  set (m := Z.min n (BSIZE - off mod BSIZE)). pose proof (Z.mod_pos_bound off BSIZE eq_refl) as Hmod. change BSIZE with 512 in Hmod.
  assert (Hm : 0 < m <= n /\ off mod BSIZE + m <= BSIZE) by (unfold m, n, BSIZE in *; lia).
  set (w := take (Z.to_nat m) p). assert (Hlw : Z.of_nat (length w) = m) by (unfold w; rewrite length_take; unfold n in *; lia).
  destruct (append_round s f d off w) as (s1 & f1 & d1 & s2 & f2 & E1 & E2 & E3 & I2 & X2 & Ha2 & Hb2 & T2 & Ei2 & Ek2);
    rewrite ?Hlw; try done; [lia|lia|lia|by apply Forall_take| |].
  { pose proof (blocks_mono (off + m) (off + n) ltac:(lia)). lia. }
  rewrite Hlw in *. pose proof (ex_ok _ _ _ _ _ _ _ X2) as F2.
  assert (Hld : Z.of_nat (length (drop (Z.to_nat m) p)) = n - m) by (rewrite length_drop; unfold n in *; lia).
  destruct (IH s2 f2 d1 (off + m) (drop (Z.to_nat m) p)) as (s' & f' & d' & E & I' & St & T' & Ei' & Ek'); try done.
  { lia. }
  { rewrite Hld. lia. }
  { unfold n in *. lia. }
  { by apply Forall_drop. }
  { rewrite Hld. replace (off + m + (n - m)) with (off + n) by lia. lia. }
  rewrite Hld in *. replace (off + m + (n - m)) with (off + n) in * by lia.
  assert (Hu : u32 ((off / BSIZE + 1) * BSIZE - off) = BSIZE - off mod BSIZE)
    by (rewrite u32_small; unfold BSIZE in *; clear - Hmod; divmod).
  exists s', f', d'. split_and!; [|done| |done|congruence|lia].
  - cbn [iappend_loop]. replace (n >? 0) with true by lia. unfold assert.
    replace (off / BSIZE <? MAXFILE) with true by (unfold BSIZE in *; clear - Ho Hmax Hmod Hmx Hm; divmod).
    unfold ret at 1. unfold bind at 1. mstep E1. rewrite Hu. fold m. mstep E2.
    replace (off - off / BSIZE * BSIZE) with (off mod BSIZE) by (unfold BSIZE in *; clear; divmod). fold w. mstep E3.
    by rewrite u32_small by lia.
  - apply (stored_step sb f d f2 d1 off p m); try done; try lia.
Qed.

(** * Inodes *)

Lemma iblock_range inum : inum_ok sb inum -> 32 <= IBLOCK inum sb < 58.
Proof. intros Hi. exact (proj2 (IBLOCK_range sb inum layout_fs Hi)). Qed.

Lemma rinode_Ok s f inum : image s f -> inum_ok sb inum -> rinode inum s = Ok (dinode_at f sb inum, s).
Proof.
  intros I Hi. pose proof (iblock_range _ Hi) as Hr. unfold rinode. cbv zeta.
  mstep (rsect_Ok s f (IBLOCK inum sb) I ltac:(unfold FSSIZE; lia) ltac:(change (sb_bmapstart sb) with 58; lia)). done.
Qed.

Lemma winode_Ok s f inum d : image s f -> inum_ok sb inum -> dinode_ok d ->
  exists s', winode h inum d s = Ok (tt, s') /\ image s' (iwrite f sb inum d) /\
    m_freeinode s' = m_freeinode s /\ m_freeblock s' = m_freeblock s.
Proof.
  intros I Hi Hd. pose proof (iblock_range _ Hi) as Hr. destruct (meta_bounds _ _ I) as (_ & _ & Hk).
  destruct (wsect_Ok s f (IBLOCK inum sb) (put_dinode (f (IBLOCK inum sb)) (inode_off inum) d) I) as (s' & E & I' & Ei & Ek);
    [lia|change (sb_bmapstart sb) with 58; lia| | |].
  { rewrite length_put_dinode; [apply (im_size _ _ I)| |apply Hd]. rewrite (im_size _ _ I). apply inode_off_range. }
  { apply byte_put_dinode, (im_bytes _ _ I). change (sb_bmapstart sb) with 58. lia. }
  exists s'. split_and!; try done. unfold winode. cbv zeta.
  mstep (rsect_Ok s f (IBLOCK inum sb) I ltac:(unfold FSSIZE; lia) ltac:(change (sb_bmapstart sb) with 58; lia)). done.
Qed.
End Ops.
