(* ===== verification/MkfsFiles.v ===== *)
(** The image builder (mkfs.c) on the level of files: the image as a list of inodes with
    their contents, to which [ialloc] adds an empty file and [iappend] bytes of one. *)

From S2P Require Import Prelude Bio Log Crash Block Strings Fs FsAlloc FsInode FsBlocks Mkfs MkfsDisk.
Local Open Scope Z_scope.

(** Inode [j] is one that mkfs made, with type [t] and contents [c]. *)
Record holds (f : Z -> bytes) (j t : Z) (c : bytes) : Prop := {
  ho_meta : dinode_at f sb j = mkdinode t 0 0 1 493 (Z.of_nat (length c)) (d_addrs (dinode_at f sb j));
  ho_file : file_ok f sb (dinode_at f sb j);
  ho_contents : contents f (dinode_at f sb j) = c;
  ho_tight : tight f (dinode_at f sb j) (Z.of_nat (length c))
}.

(** The blocks of the files. *)
Fixpoint space (fl : list (Z * bytes)) : Z :=
  match fl with
  | [] => 0
  | x :: fl' => blocks_of (Z.of_nat (length x.2)) + space fl'
  end.

Lemma space_app l1 l2 : space (l1 ++ l2) = space l1 + space l2.
Proof. induction l1 as [|x l1 IH]; cbn [space app]; [done|]. rewrite IH. lia. Qed.

Lemma space_insert fl k x y : fl !! k = Some x ->
  space (<[k := y]> fl) = space fl + blocks_of (Z.of_nat (length y.2)) - blocks_of (Z.of_nat (length x.2)).
Proof.
  revert k. induction fl as [|z fl IH]; intros [|k]; cbn; [done|done|intros [= ->]; lia|].
  intros Hk. rewrite IH by done. lia.
Qed.

Definition num (k : nat) : Z := 1 + Z.of_nat k.

(** The image [f] with the files [fl], which have the inodes from 1 on. *)
Record made (s : mkfs) (f : Z -> bytes) (fl : list (Z * bytes)) : Prop := {
  md_image : image s f;
  md_inode : m_freeinode s = num (length fl);
  md_room : num (length fl) <= NINODES;
  md_sb : f 1 = splice zero_block 0 (sb_bytes sb);
  md_log : forall b, b = 0 \/ 2 <= b < 32 -> f b = zero_block;
  md_files : forall k t c, fl !! k = Some (t, c) -> holds f (num k) t c;
  md_apart : forall j k b, (j < length fl)%nat -> (k < length fl)%nat -> j <> k ->
    uses f (dinode_at f sb (num j)) b -> ~ uses f (dinode_at f sb (num k)) b;
  md_rest : forall j, inum_ok sb j -> j = 0 \/ num (length fl) <= j -> dinode_at f sb j = dinode0;
  md_count : m_freeblock s = nmeta + space fl
}.

Lemma num_ok k n : (k < n)%nat -> num n <= NINODES -> inum_ok sb (num k).
Proof. unfold num, inum_ok, NINODES. change (sb_ninodes sb) with 200. lia. Qed.

(** What does not touch a file. *)
Lemma holds_frame f f' j t c : (forall y, 0 <= y -> marked f sb y = true -> marked f' sb y = true) ->
  (forall y, uses f (dinode_at f sb j) y -> f' y = f y) -> dinode_at f' sb j = dinode_at f sb j ->
  holds f j t c -> holds f' j t c /\ forall b, uses f' (dinode_at f' sb j) b -> uses f (dinode_at f sb j) b.
Proof.
  intros Hm Hu Ej [H1 H2 H3 H4]. destruct (file_agree sb f f' _ bmap_nonneg H2 Hm Hu) as (G1 & G2 & G3).
  destruct (file_same sb f _ f' H2 bmap_nonneg Hm) as [_ Ea]; [intros Hi; apply Hu; split; [done|by left]|].
  split; [|intros b; rewrite Ej; apply G3]. constructor; rewrite ?Ej; [exact H1|exact G1|by rewrite G2|].
  apply (tight_agree f (dinode_at f sb j)); [intros n _; apply Ea|reflexivity| | |exact H4].
  - intros n Hn Hne. apply Hu. split; [done|]. right. exists n. split; [exact Hn|reflexivity].
  - pose proof (fo_size _ _ _ H2) as Hs. rewrite H1 in Hs. cbn in Hs. lia.
Qed.

(** A larger size within the last block. *)
Lemma holds_round f j t c e : holds f j t c -> Z.of_nat (length c) <= e <= (Z.of_nat (length c) + (BSIZE - 1)) / BSIZE * BSIZE ->
  e <= MAXFILE * BSIZE -> let d := set_size e (dinode_at f sb j) in
  file_ok f sb d /\ contents f d = c ++ replicate (Z.to_nat e - length c) 0.
Proof.
  intros [H1 H2 H3 H4] He Hmax d. set (d0 := dinode_at f sb j) in *. set (n := Z.of_nat (length c)) in *.
  assert (Hs : d_size d0 = n) by by rewrite H1. 
  assert (Hin : forall m, m * BSIZE < e -> m * BSIZE < n) by (intros m Hm; unfold BSIZE in *; clear - He Hm; divmod).
  split.
  - destruct H2 as [F1 F2 F3 F4 F5 F6]. constructor; try done; [cbn; lia|]. intros m Hm Hlt. cbn in Hlt.
    change (faddr f d m) with (faddr f d0 m). apply F6; [done|]. rewrite Hs. by apply Hin.
  - apply list_eq. intros k. assert (Hlc : length (contents f d0) = length c) by by rewrite H3.
    destruct (decide (k < length c)%nat) as [Hk|Hk].
    + rewrite lookup_app_l by done. rewrite <- H3. rewrite !contents_lookup by (cbn [d d_size set_size]; lia). done.
    + rewrite lookup_app_r by lia. destruct (decide (k < Z.to_nat e)%nat) as [Hk'|Hk'].
      * rewrite lookup_replicate_2 by lia. rewrite contents_lookup by (cbn [d d_size set_size]; lia). f_equal.
        change (byte_of f d0 (Z.of_nat k) = 0). assert (Hb : 0 <= Z.of_nat k / BSIZE /\ Z.of_nat k / BSIZE * BSIZE < e).
        { unfold BSIZE. clear - Hk'. divmod. }
        destruct Hb as [Hb1 Hb2]. apply (ti_slack _ _ _ H4); [lia|unfold slot, BSIZE in *; lia|].
        apply (ti_all _ _ _ H4); [done|by apply Hin].
      * rewrite !lookup_ge_None_2; [done|rewrite length_replicate; lia|]. rewrite contents_length. cbn [d d_size set_size]. lia.
Qed.

Section Files.
  Context (h : host) (Hh : forall b, 0 <= b < FSSIZE -> h_write h b = true).

(** An inode block that changes. *)
Lemma holds_iwrite f s i x j t c : image s f -> inum_ok sb i -> inum_ok sb j -> dinode_ok x -> j <> i ->
  holds f j t c -> holds (iwrite f sb i x) j t c /\
    forall b, uses (iwrite f sb i x) (dinode_at (iwrite f sb i x) sb j) b -> uses f (dinode_at f sb j) b.
Proof.
  intros I Hi Hj Hx Hne Hh'. pose proof (iblock_range _ Hi) as Hr. apply holds_frame; [| | |done].
  - intros y _. unfold iwrite. rewrite marked_assign; [done|]. change (sb_bmapstart sb) with 58. lia.
  - intros y Hu. apply (fo_used _ _ _ (ho_file _ _ _ _ Hh')) in Hu as [Hb _]. change (sb_bmapstart sb) with 58 in Hb.
    unfold iwrite. rewrite assign_eq, decide_False by lia. done.
  - rewrite (dinode_at_iwrite f sb i x j layout_fs Hi Hj Hx (im_size _ _ I)). by rewrite decide_False.
Qed.

Lemma new_dinode_ok t : is_s16 t -> dinode_ok (mkdinode t 0 0 1 493 0 (replicate 12 0)).
Proof. intros Ht. constructor; cbn; try done; unfold is_s16, is_u32; try lia. repeat constructor; lia. Qed.

Lemma no_blocks f d : d_addrs d = replicate 12 0 -> (forall n, slot n -> faddr f d n = 0) /\ forall b, ~ uses f d b.
Proof.
  intros Ed. assert (Hi : ind d = 0) by (unfold ind; by rewrite Ed).
  assert (Ha : forall n, slot n -> faddr f d n = 0).
  { intros n [Hn _]. unfold faddr. rewrite Hi, Ed. destruct (n <? NDIRECT) eqn:E; [|done].
    apply lookup_total_replicate_2. unfold NDIRECT in E. lia. }
  split; [done|]. intros b [Hne [->|(n & Hn & ->)]]; [done|by apply Hne, Ha].
Qed.

Lemma holds_new f j t : dinode_at f sb j = mkdinode t 0 0 1 493 0 (replicate 12 0) -> holds f j t [].
Proof.
  intros E. destruct (no_blocks f (dinode_at f sb j)) as [Ha Hu]; [by rewrite E|]. constructor; rewrite ?E; try done; rewrite <- E.
  - constructor.
    + by rewrite E.
    + by rewrite E.
    + intros b Hb. by apply Hu in Hb.
    + intros m n Hm _ _ Hne. by rewrite Ha in Hne.
    + intros n Hn Hne. by apply Ha in Hn.
    + intros n Hn. rewrite E. cbn. unfold BSIZE. lia.
  - constructor.
    + intros n Hn Hne. by apply Ha in Hn.
    + intros n Hn. cbn. unfold BSIZE. lia.
    + by rewrite E.
    + intros k _ Hk Hne. by apply Ha in Hk.
Qed.

Lemma iwrite_meta f i x b : inum_ok sb i -> b < 32 -> iwrite f sb i x b = f b.
Proof. intros Hi Hb. pose proof (iblock_range _ Hi). unfold iwrite. by rewrite assign_eq, decide_False by lia. Qed.

(** ** ialloc *)
Lemma ialloc_spec s f fl t : made s f fl -> num (S (length fl)) <= NINODES -> is_s16 t -> 0 <= t ->
  exists s' f', ialloc h t s = Ok (num (length fl), s') /\ made s' f' (fl ++ [(t, [])]).
Proof.
  intros [I Hi Hr Hsb Hlog Hf Hap Hre Hc] Hroom Ht Ht0. set (j := num (length fl)) in *.
  assert (Hj : inum_ok sb j) by (unfold j, num, inum_ok, NINODES in *; change (sb_ninodes sb) with 200; lia).
  set (d := mkdinode t 0 0 1 493 0 (replicate 12 0)). pose proof (new_dinode_ok t Ht) as Hd. fold d in Hd.
  assert (I0 : image (put_freeinode (u32 (j + 1)) s) f) by by destruct I.
  destruct (winode_Ok h Hh _ f j d I0 Hj Hd) as (s' & E & I' & Ei & Ek). set (f' := iwrite f sb j d) in *.
  exists s', f'. assert (Ej : dinode_at f' sb j = d) by
    (unfold f'; by rewrite (dinode_at_iwrite f sb j d j layout_fs Hj Hj Hd (im_size _ _ I)), decide_True).
  assert (Ho : forall k, (k < length fl)%nat -> inum_ok sb (num k) /\ num k <> j)
    by (intros k Hk; split; [by apply (num_ok k (length fl))|unfold j, num; lia]).
  assert (Hk : forall k, (k < length fl)%nat -> exists t c, holds f (num k) t c /\ fl !! k = Some (t, c)).
  { intros k [[t' c] E']%lookup_lt_is_Some_2. exists t', c. split; [by apply Hf|done]. }
  split.
  { unfold ialloc, gets, modify. unfold bind at 1 2. rewrite Hi. fold j. unfold is_s16 in Ht.
    rewrite (xshort_id t) by lia. replace (s16 t) with t by ints. change (s16 (xshort 1)) with 1. change (xint 0) with 0.
    fold d. mstep E. done. }
  constructor.
  - done.
  - rewrite Ei, length_app. cbn. rewrite u32_small; unfold j, num, NINODES in *; lia.
  - rewrite length_app. cbn. replace (length fl + 1)%nat with (S (length fl)) by lia. done.
  - unfold f'. by rewrite iwrite_meta by (done || lia).
  - intros b Hb. unfold f'. rewrite iwrite_meta by (done || lia). by apply Hlog.
  - intros k t' c [[Hlt E']|[-> [= <- <-]]]%lookup_snoc_Some.
    + apply (holds_iwrite f s); try done; [by apply Ho..|by apply Hf].
    + by apply holds_new.
  - intros k1 k2 b. rewrite length_app. cbn [length]. intros H1 H2 Hne Hu1 Hu2.
    assert (Hold : forall k, (k < length fl + 1)%nat -> uses f' (dinode_at f' sb (num k)) b ->
      (k < length fl)%nat /\ uses f (dinode_at f sb (num k)) b).
    { intros k Hk1 Hu. destruct (decide (k = length fl)) as [->|].
      - exfalso. fold j in Hu. rewrite Ej in Hu. by apply (no_blocks f' d) in Hu.
      - destruct (Hk k ltac:(lia)) as (t' & c & Hh' & _). split; [lia|].
        by apply (holds_iwrite f s j d (num k) t' c I Hj (proj1 (Ho k ltac:(lia))) Hd (proj2 (Ho k ltac:(lia))) Hh'). }
    apply Hold in Hu1 as [? ?], Hu2 as [? ?]; [|done|done]. by apply (Hap k1 k2 b).
  - intros i Hi' Hrest. rewrite length_app in Hrest. cbn [length] in Hrest.
    unfold f'. rewrite (dinode_at_iwrite f sb j d i layout_fs Hj Hi' Hd (im_size _ _ I)), decide_False;
      [apply Hre; [done|]|]; unfold j, num in *; lia.
  - rewrite Ek, space_app. cbn [space snd length]. change (blocks_of (Z.of_nat 0)) with 0. cbn [m_freeblock put_freeinode]. lia.
Qed.
(** ** iappend *)

(** The file with the bytes at its end, in memory; the inode on the disk is the old one. *)
Lemma append_grow f j t c f1 d1 p : holds f j t c -> Z.of_nat (length c) + Z.of_nat (length p) <= MAXFILE * BSIZE -> is_s16 t ->
  stored sb f (dinode_at f sb j) (Z.of_nat (length c)) p f1 d1 -> tight f1 d1 (Z.of_nat (length c) + Z.of_nat (length p)) ->
  let d' := set_size (Z.of_nat (length c) + Z.of_nat (length p)) d1 in
  dinode_ok d' /\ file_ok f1 sb d' /\ contents f1 d' = c ++ p /\ tight f1 d' (Z.of_nat (length (c ++ p))) /\
  d' = mkdinode t 0 0 1 493 (Z.of_nat (length (c ++ p))) (d_addrs d').
Proof.
  intros [H1 H2 H3 H4] Hmax Ht Hw T1 d'. set (d := dinode_at f sb j) in *. set (n := Z.of_nat (length p)) in *.
  assert (Hs : d_size d = Z.of_nat (length c)) by by rewrite H1. destruct (grow_size sb f d _ p f1 d1 Hw) as [Hs1 _].
  assert (Eg : grow d1 (Z.of_nat (length c) + n) = d').
  { unfold grow. destruct (_ >? _) eqn:E; [done|]. unfold d'. replace (_ + n) with (d_size d1) by lia. by destruct d1. }
  pose proof (grow_file sb f d (Z.of_nat (length c)) p f1 d1 ltac:(lia) Hmax H2 Hw) as G1. fold n in G1. rewrite Eg in G1.
  pose proof (grow_contents sb f d (Z.of_nat (length c)) p f1 d1 ltac:(lia) H2 Hw) as G2. fold n in G2. rewrite Eg, H3 in G2.
  pose proof (grow_meta sb f d _ p f1 d1 Hw) as G3. fold n in G3. rewrite Eg in G3.
  assert (Em : d' = mkdinode t 0 0 1 493 (Z.of_nat (length (c ++ p))) (d_addrs d')).
  { rewrite G3 at 1. rewrite length_app, Nat2Z.inj_add. rewrite H1. cbn. fold n. f_equal. lia. }
  split_and!; [| |rewrite G2| |]; [|exact G1| | |exact Em].
  - rewrite Em. constructor; cbn; try (unfold is_s16, is_u32; lia); [done| | |].
    + unfold is_u32. rewrite length_app. assert (MAXFILE * BSIZE = 71168) as Hmx by reflexivity. unfold n in *. lia.
    + apply (fo_addrs _ _ _ G1).
    + apply (addrs_u32 sb f1 d'); [discriminate|discriminate|exact G1].
  - rewrite Nat2Z.id. unfold splice. rewrite firstn_all, drop_ge by lia. by rewrite app_nil_r.
  - rewrite length_app, Nat2Z.inj_add. fold n. apply (tight_agree f1 d1); try done.
Qed.

Section Append.
  Context (s : mkfs) (f : Z -> bytes) (fl : list (Z * bytes)) (k : nat) (t : Z) (c : bytes) (p : bytes).
  Context (D : made s f fl) (Hk : fl !! k = Some (t, c)) (Ht : is_s16 t) (Hby : Forall byte_ok p).
  Context (Hmax : Z.of_nat (length c) + Z.of_nat (length p) <= MAXFILE * BSIZE).
Let off := Z.of_nat (length c).
Let n := Z.of_nat (length p).
Let d := dinode_at f sb (num k).
  Context (s1 : mkfs) (f1 : Z -> bytes) (d1 : dinode) (I1 : image s1 f1) (Hw : stored sb f d off p f1 d1).
Let X := sd_ext _ _ _ _ _ _ _ Hw.

(** The other files and the blocks in front of the data after the loop. *)
Lemma append_kept b : 0 <= b < m_freeblock s -> b <> sb_bmapstart sb -> ~ uses f d b -> f1 b = f b.
Proof.
  intros Hb Hne Hu. apply (ex_kept _ _ _ _ _ _ _ X); [lia| |done|done].
  destruct (meta_bounds _ _ (md_image _ _ _ D)) as (_ & _ & Hm). rewrite (image_marked _ _ _ (md_image _ _ _ D)); lia.
Qed.

Lemma append_meta b : 0 <= b < sb_bmapstart sb -> f1 b = f b.
Proof.
  intros Hb. destruct (meta_bounds _ _ (md_image _ _ _ D)) as (Eb & _ & Hm). apply append_kept; [lia|lia|].
  intros Hu. apply (fo_used _ _ _ (ho_file _ _ _ _ (md_files _ _ _ D _ _ _ Hk))) in Hu. lia.
Qed.

Lemma append_inodes j : inum_ok sb j -> dinode_at f1 sb j = dinode_at f sb j.
Proof.
  intros Hj. pose proof (iblock_range _ Hj). unfold dinode_at. rewrite append_meta; [done|]. change (sb_bmapstart sb) with 58. lia.
Qed.

Lemma append_other j t' c' : (j < length fl)%nat -> j <> k -> holds f (num j) t' c' ->
  holds f1 (num j) t' c' /\ forall b, uses f1 (dinode_at f1 sb (num j)) b -> uses f (dinode_at f sb (num j)) b.
Proof.
  intros Hj Hne Hh'. pose proof (lookup_lt_Some _ _ _ Hk) as Hkl. apply holds_frame; [| | |done].
  - apply (ex_marks _ _ _ _ _ _ _ X).
  - intros y Hu. pose proof (fo_used _ _ _ (ho_file _ _ _ _ Hh') _ Hu) as [Hr Hmk].
    destruct (meta_bounds _ _ (md_image _ _ _ D)) as (Eb & Es & Hm). rewrite (image_marked _ _ _ (md_image _ _ _ D)) in Hmk by lia.
    apply append_kept; [lia|lia|]. intros Hu2. by apply (md_apart _ _ _ D j k y).
  - apply append_inodes. apply (num_ok j (length fl)); [done|apply D].
Qed.
End Append.

(** The inode written back. *)
Lemma commit_file s f j d t c : image s f -> inum_ok sb j -> dinode_ok d -> file_ok f sb d -> contents f d = c ->
  tight f d (Z.of_nat (length c)) -> Z.of_nat (length c) <= MAXFILE * BSIZE ->
  d = mkdinode t 0 0 1 493 (Z.of_nat (length c)) (d_addrs d) -> let f' := iwrite f sb j d in
  dinode_at f' sb j = d /\ holds f' j t c /\ forall b, uses f' d b -> uses f d b.
Proof.
  intros I Hj Hd F Ec Ht Hmax Em f'. pose proof (iblock_range _ Hj) as Hr.
  assert (Ej : dinode_at f' sb j = d).
  { unfold f'. by rewrite (dinode_at_iwrite f sb j d j layout_fs Hj Hj Hd (im_size _ _ I)), decide_True. }
  assert (Hu : forall y, uses f d y -> f' y = f y).
  { intros y [Hy _]%(fo_used _ _ _ F). change (sb_bmapstart sb) with 58 in Hy.
    unfold f', iwrite. by rewrite assign_eq, decide_False by lia. }
  assert (Hmk : forall y, 0 <= y -> marked f sb y = true -> marked f' sb y = true).
  { intros y _. unfold f', iwrite. rewrite marked_assign; [done|]. change (sb_bmapstart sb) with 58. lia. }
  destruct (file_agree sb f f' d bmap_nonneg F Hmk Hu) as (A1 & A2 & A3).
  destruct (file_same sb f d f' F bmap_nonneg Hmk) as [_ Ea]; [intros Hi'; apply Hu; split; [done|by left]|].
  split; [done|]. split; [|intros b; apply A3]. constructor; rewrite ?Ej; [exact Em|exact A1|by rewrite A2|].
  apply (tight_agree f d); [intros m _; apply Ea|reflexivity| |done|exact Ht].
  intros m Hm Hne. apply Hu. split; [done|]. right. by exists m.
Qed.

Lemma iappend_spec s f fl k t c p : made s f fl -> fl !! k = Some (t, c) -> is_s16 t -> Forall byte_ok p ->
  Z.of_nat (length c) + Z.of_nat (length p) <= MAXFILE * BSIZE ->
  m_freeblock s + (blocks_of (Z.of_nat (length c) + Z.of_nat (length p)) - blocks_of (Z.of_nat (length c))) <= FSSIZE ->
  exists s' f', iappend h (num k) p (Z.of_nat (length p)) s = Ok (tt, s') /\ made s' f' (<[k := (t, c ++ p)]> fl).
Proof.
  intros D Hk Ht Hby Hmax Hroom. pose proof D as [I Hi Hr Hsb Hlog Hf Hap Hre Hc]. pose proof (lookup_lt_Some _ _ _ Hk) as Hkl.
  pose proof (Hf _ _ _ Hk) as Hh'. assert (Hmx : MAXFILE * BSIZE = 71168) by reflexivity.
  assert (Hs : d_size (dinode_at f sb (num k)) = Z.of_nat (length c)) by by rewrite (ho_meta _ _ _ _ Hh').
  set (d := dinode_at f sb (num k)) in *. pose proof (num_ok k _ Hkl Hr) as Hnk.
  destruct (iappend_loop_spec h Hh (Z.to_nat (Z.of_nat (length p))) s f d (Z.of_nat (length c)) p I)
    as (s1 & f1 & d1 & E1 & I1 & Hw & T1 & Ei1 & Ek1); [apply Hh'|apply Hh'|lia|done|lia|done|done|].
  destruct (append_grow f (num k) t c f1 d1 p Hh' Hmax Ht Hw T1) as (Hd & G1 & G2 & G3 & G4).
  set (d' := set_size (Z.of_nat (length c) + Z.of_nat (length p)) d1) in *.
  destruct (winode_Ok h Hh s1 f1 (num k) d' I1 Hnk Hd) as (s' & E2 & I2 & Ei2 & Ek2).
  destruct (commit_file s1 f1 (num k) d' t (c ++ p) I1 Hnk Hd G1 G2 G3) as (Enk & Hme & Hum); [rewrite length_app; lia|exact G4|].
  set (f' := iwrite f1 sb (num k) d') in *.
  assert (Hoth : forall j t' c', (j < length fl)%nat -> j <> k -> holds f (num j) t' c' ->
    holds f' (num j) t' c' /\ forall b, uses f' (dinode_at f' sb (num j)) b -> uses f (dinode_at f sb (num j)) b).
  { intros j t' c' Hj Hne Hhj. destruct (append_other s f fl k t c p D Hk f1 d1 Hw j t' c' Hj Hne Hhj) as [B1 B2].
    destruct (holds_iwrite f1 s1 (num k) d' (num j) t' c' I1 Hnk (num_ok j _ Hj Hr) Hd ltac:(unfold num; lia) B1) as [B3 B4].
    split; [done|]. intros b Hb. by apply B2, B4. }
  assert (Hnew : forall j b, (j < length fl)%nat -> j <> k -> uses f' (dinode_at f' sb (num j)) b ->
    ~ uses f' (dinode_at f' sb (num k)) b).
  { intros j b Hj Hne Hu1 Hu2. destruct (lookup_lt_is_Some_2 _ _ Hj) as [[t' c'] Ej]. apply Hf in Ej.
    apply (Hoth j t' c') in Hu1; [|done..]. rewrite Enk in Hu2. apply Hum in Hu2. apply (Hap j k b Hj Hkl Hne Hu1).
    apply (ext_uses _ _ _ _ _ _ _ _ (sd_ext _ _ _ _ _ _ _ Hw)); [|exact Hu2]. by apply (fo_used _ _ _ (ho_file _ _ _ _ Ej)). }
  exists s', f'. split.
  { unfold iappend. mstep (rinode_Ok s f (num k) I Hnk). fold d. rewrite Hs, xint_id by (unfold is_u32; lia). mstep E1.
    rewrite xint_id by (unfold is_u32; lia). exact E2. }
  constructor; rewrite ?length_insert; [done|congruence|done| | | | | |].
  - unfold f'. rewrite iwrite_meta by (done || lia). by rewrite (append_meta s f fl k t c p D Hk f1 d1 Hw).
  - intros b Hb. unfold f'. rewrite iwrite_meta by (done || lia). 
    rewrite (append_meta s f fl k t c p D Hk f1 d1 Hw) by (change (sb_bmapstart sb) with 58; lia). by apply Hlog.
  - intros j t' c'. destruct (decide (j = k)) as [->|Hne].
    + rewrite list_lookup_insert_eq by done. intros [= <- <-]. done.
    + rewrite list_lookup_insert_ne by done. intros Hj. apply Hoth; [by eapply lookup_lt_Some|done|by apply Hf].
  - intros j1 j2 b H1 H2 Hne Hu1 Hu2. destruct (decide (j1 = k)) as [->|N1]; [by apply (Hnew j2 b)|].
    destruct (decide (j2 = k)) as [->|N2]; [by apply (Hnew j1 b)|].
    destruct (lookup_lt_is_Some_2 _ _ H1) as [[t1 c1] L1], (lookup_lt_is_Some_2 _ _ H2) as [[t2 c2] L2].
    apply (Hoth j1 t1 c1 H1 N1 (Hf _ _ _ L1)) in Hu1. apply (Hoth j2 t2 c2 H2 N2 (Hf _ _ _ L2)) in Hu2. by apply (Hap j1 j2 b).
  - intros j Hj Hrest. unfold f'. rewrite (dinode_at_iwrite f1 sb (num k) d' j layout_fs Hnk Hj Hd (im_size _ _ I1)).
    rewrite decide_False by (unfold num in *; lia). rewrite (append_inodes s f fl k t c p D Hk f1 d1 Hw j Hj). by apply Hre.
  - rewrite Ek2, Ek1, (space_insert _ _ _ _ Hk). cbn [snd]. rewrite length_app, Nat2Z.inj_add. lia.
Qed.
End Files.
