(* ===== verification/MkfsMain.v ===== *)
(** The image builder (mkfs.c) as a whole: what [main] puts in the image for the files that
    it is given. *)

From S2P Require Import Prelude Bio Log Crash Block Strings Fs FsAlloc FsInode FsName FsBlocks Mkfs MkfsDisk MkfsFiles.
Local Open Scope Z_scope.

(** * What the image is to hold *)

(** The directory entry for a name. *)
Definition entry (inum : Z) (name : bytes) : bytes :=
  le_bytes 2 inum ++ take 14 name ++ replicate (14 - length (take 14 name)) 0.

Lemma length_entry j nm : length (entry j nm) = 16%nat.
Proof. unfold entry. rewrite !length_app, length_le_bytes, length_replicate, length_take. lia. Qed.

Lemma byte_entry j nm : Forall byte_ok nm -> Forall byte_ok (entry j nm).
Proof.
  intros Hn. unfold entry. repeat apply Forall_app_2; [apply le_bytes_ok|by apply Forall_take|].
  apply Forall_replicate. unfold byte_ok. lia.
Qed.

Lemma entries_length (es : list bytes) : Forall (fun e => length e = 16%nat) es -> length (concat es) = (16 * length es)%nat.
Proof. intros Hl. induction Hl as [|e es He Hl IH]; cbn; [done|]. rewrite length_app, IH, He. lia. Qed.

Definition dot : bytes := [46].
Definition dotdot : bytes := [46; 46].

Section Main.
  Context (h : host).

(** The bytes of an input file. *)
Definition input (arg : bytes) : bytes := match h_open h arg with Some chunks => concat chunks | None => [] end.

(** The files so far, the root directory first, and those after the other arguments. *)
Fixpoint with_files (root : list bytes) (fl : list (Z * bytes)) (args : list bytes) : list bytes * list (Z * bytes) :=
  match args with
  | [] => (root, fl)
  | a :: args' =>
      with_files (root ++ [entry (num (S (length fl))) (skip_underscore a)]) (fl ++ [(T_FILE, input a)]) args'
  end.

Definition tree (r : list bytes * list (Z * bytes)) : list (Z * bytes) := (T_DIR, concat r.1) :: r.2.
Definition all_files (args : list bytes) : list bytes * list (Z * bytes) :=
  with_files [entry 1 dot; entry 1 dotdot] [] args.

(** The blocks in use at the end. *)
Definition used (args : list bytes) : Z := nmeta + space (tree (all_files args)).

(** What the host gives: arguments are strings, and read returns at most the bytes asked for. *)
Record arg_plain (a : bytes) : Prop := {
  ar_nul : no_nul a;
  ar_bytes : Forall byte_ok a;
  ar_reads : forall chunks, h_open h a = Some chunks -> Forall (fun c => (length c <= Z.to_nat BSIZE)%nat /\ Forall byte_ok c) chunks
}.

(** An argument that mkfs can add. *)
Definition arg_fits (a : bytes) : bool :=
  bool_decide (47 ∉ a) && bool_decide (is_Some (h_open h a)) && (Z.of_nat (length (input a)) <=? MAXFILE * BSIZE).

(** What mkfs can build. *)
Definition fits (args : list bytes) : bool := forallb arg_fits args && (used args <=? FSSIZE).

Record arg_ok (a : bytes) : Prop := {
  ak_slash : 47 ∉ a;
  ak_nul : no_nul a;
  ak_bytes : Forall byte_ok a;
  ak_open : is_Some (h_open h a);
  ak_input : Forall byte_ok (input a);
  ak_size : Z.of_nat (length (input a)) <= MAXFILE * BSIZE
}.

Lemma input_bytes a : arg_plain a -> Forall byte_ok (input a).
Proof.
  intros [_ _ Hr]. unfold input. destruct (h_open h a) as [chunks|]; [|done]. apply Forall_concat.
  eapply Forall_impl; [by apply Hr|]. by intros c [_ ?].
Qed.

Lemma arg_ok_intro a : arg_plain a -> arg_fits a = true -> arg_ok a.
Proof.
  intros Hp. unfold arg_fits. rewrite !andb_true_iff. intros [[H1%bool_decide_eq_true H2%bool_decide_eq_true] H3].
  constructor; try done; [apply Hp|apply Hp|by apply input_bytes|lia].
Qed.

Lemma args_ok_intro args : Forall arg_plain args -> forallb arg_fits args = true -> Forall arg_ok args.
Proof.
  intros Hp Hf. rewrite forallb_forall in Hf. rewrite !Forall_forall in *. intros a Hin.
  apply arg_ok_intro; [by apply Hp|]. apply Hf. by apply list_elem_of_In.
Qed.

(** * Growth *)

Lemma space_nonneg fl : 0 <= space fl.
Proof.
  induction fl as [|x fl IH]; cbn [space]; [done|]. pose proof (blocks_mono 0 (Z.of_nat (length x.2)) ltac:(lia)) as Hb.
  change (blocks_of 0) with 0 in Hb. lia.
Qed.

Lemma tree_grows root fl args : space (tree (root, fl)) <= space (tree (with_files root fl args)).
Proof.
  revert root fl. induction args as [|a args IH]; intros root fl; cbn [with_files]; [lia|]. etransitivity; [|apply IH].
  unfold tree. cbn [space fst snd]. rewrite space_app, concat_app, length_app.
  pose proof (blocks_mono (Z.of_nat (length (concat root)))
    (Z.of_nat (length (concat root) + length (concat [entry (num (S (length fl))) (skip_underscore a)]))) ltac:(lia)).
  pose proof (space_nonneg [(T_FILE, input a)]). lia.
Qed.

Lemma with_files_length root fl args : length (with_files root fl args).1 = (length root + length args)%nat /\
  length (with_files root fl args).2 = (length fl + length args)%nat.
Proof.
  revert root fl. induction args as [|a args IH]; intros root fl; cbn [with_files]; [cbn; lia|].
  destruct (IH (root ++ [entry (num (S (length fl))) (skip_underscore a)]) (fl ++ [(T_FILE, input a)])) as [-> ->].
  rewrite !length_app. cbn. lia.
Qed.

Section Run.
  Context (Hh : forall b, 0 <= b < FSSIZE -> h_write h b = true).

Lemma copy_file_spec chunks : forall s f fl k t c, made s f fl -> fl !! k = Some (t, c) -> is_s16 t ->
  Forall byte_ok (concat chunks) -> Z.of_nat (length c) + Z.of_nat (length (concat chunks)) <= MAXFILE * BSIZE ->
  m_freeblock s + (blocks_of (Z.of_nat (length c) + Z.of_nat (length (concat chunks))) - blocks_of (Z.of_nat (length c))) <= FSSIZE ->
  exists s' f', copy_file h (num k) chunks s = Ok (tt, s') /\ made s' f' (<[k := (t, c ++ concat chunks)]> fl).
Proof.
  induction chunks as [|p chunks IH]; intros s f fl k t c D Hk Ht Hby Hmax Hroom; cbn [copy_file concat].
  - exists s, f. split; [done|]. rewrite app_nil_r. by rewrite list_insert_id.
  - cbn [concat] in *. rewrite length_app, Nat2Z.inj_add in *. apply Forall_app in Hby as [Hb1 Hb2].
    destruct (iappend_spec h Hh s f fl k t c p D Hk Ht Hb1) as (s1 & f1 & E1 & D1); [lia| |].
    { pose proof (blocks_mono (Z.of_nat (length c) + Z.of_nat (length p))
        (Z.of_nat (length c) + (Z.of_nat (length p) + Z.of_nat (length (concat chunks)))) ltac:(lia)). lia. }
    pose proof (lookup_lt_Some _ _ _ Hk) as Hkl. pose proof (md_count _ _ _ D) as C0. pose proof (md_count _ _ _ D1) as C1.
    rewrite (space_insert _ _ _ _ Hk) in C1. cbn [snd] in C1. rewrite length_app, Nat2Z.inj_add in C1.
    destruct (IH s1 f1 (<[k := (t, c ++ p)]> fl) k t (c ++ p) D1) as (s2 & f2 & E2 & D2); try done.
    + by rewrite list_lookup_insert_eq.
    + rewrite length_app. lia.
    + rewrite length_app, Nat2Z.inj_add, <- Z.add_assoc. lia.
    + exists s2, f2. split; [by mstep E1|]. rewrite list_insert_insert_eq, <- app_assoc in D2. done.
Qed.

Lemma skip_bytes (P : Z -> Prop) a : Forall P a -> Forall P (skip_underscore a).
Proof. intros Ha. destruct Ha as [|c a Hc Ha]; cbn; [done|]. destruct (c =? 95); [done|by constructor]. Qed.

(** The bytes that strncpy leaves in the entry. *)
Lemma entry_name nm : no_nul nm -> strncpy (replicate (Z.to_nat DIRSIZ) 0) (nm ++ [0]) DIRSIZ =
  Ok (take 14 nm ++ replicate (14 - length (take 14 nm)) 0).
Proof.
  intros Hn. unfold strncpy. change (Z.to_nat DIRSIZ) with 14%nat.
  destruct (strncpy_bytes_spec 14 (nm ++ [0])) as (w & -> & Hl & _ & Hw).
  { clear -Hn. generalize 14%nat. induction Hn as [|c nm Hc Hn IH]; intros [|n]; cbn; try done.
    replace (c =? 0) with false by lia. apply IH. }
  cbn [obind]. rewrite length_replicate, Hl, Nat.leb_refl. rewrite splice_full by (rewrite length_replicate; done).
  rewrite Hw. by rewrite (name_of_cut 14 nm []).
Qed.

Lemma add_file_spec s f root fl a : made s f (tree (root, fl)) -> arg_ok a -> (2 + length fl < Z.to_nat NINODES)%nat ->
  Z.of_nat (length (concat root)) + 16 <= MAXFILE * BSIZE ->
  nmeta + space (tree (with_files root fl [a])) <= FSSIZE ->
  exists s' f', add_file h ROOTINO a s = Ok (tt, s') /\ made s' f' (tree (with_files root fl [a])).
Proof.
  intros D [A1 A2 A3 [chunks Eo] A5 A6] Hn Hr Hroom. unfold NINODES in Hn. set (nm := skip_underscore a). set (j := num (S (length fl))) in *.
  assert (Ei : input a = concat chunks) by (unfold input; by rewrite Eo). rewrite Ei in *.
  assert (Ed : forall l, length (tree (root, l)) = S (length l)) by done.
  destruct (ialloc_spec h Hh s f _ T_FILE D) as (s1 & f1 & E1 & D1); [rewrite Ed; unfold num, NINODES; lia|done|done|].
  rewrite Ed in E1. fold j in E1. unfold tree in D1. cbn [fst snd app] in D1.
  assert (Hnn : no_nul nm) by by apply skip_bytes. set (e := entry j nm). pose proof (length_entry j nm) as Hle. fold e in Hle.
  pose proof (md_count _ _ _ D1) as C1. cbn [with_files] in Hroom. fold nm j in Hroom. unfold tree in Hroom.
  cbn [fst snd space] in Hroom, C1. rewrite Ei in Hroom. fold e in Hroom. rewrite space_app in Hroom, C1. cbn [space snd length] in Hroom, C1.
  change (blocks_of (Z.of_nat 0)) with 0 in C1. rewrite concat_app, length_app in Hroom. cbn [concat] in Hroom. rewrite app_nil_r, Hle in Hroom.
  assert (Hbn : 0 <= blocks_of (Z.of_nat (length (concat chunks)))).
  { pose proof (blocks_mono 0 (Z.of_nat (length (concat chunks))) ltac:(lia)) as Hb. by change (blocks_of 0) with 0 in Hb. }
  destruct (iappend_spec h Hh s1 f1 _ 0 T_DIR (concat root) e D1) as (s2 & f2 & E2 & D2); [done|done| | | |].
  { apply byte_entry. by apply skip_bytes. }
  { rewrite Hle. lia. }
  { rewrite Hle. rewrite Nat2Z.inj_add in Hroom. lia. }
  cbn [insert list_insert] in D2. pose proof (md_count _ _ _ D2) as C2. cbn [space snd] in C2. rewrite space_app in C2.
  cbn [space snd length] in C2. change (blocks_of (Z.of_nat 0)) with 0 in C2. rewrite length_app, Hle in C2.
  destruct (copy_file_spec chunks s2 f2 _ (S (length fl)) T_FILE [] D2) as (s3 & f3 & E3 & D3); [|done|done| | |].
  { rewrite lookup_cons, lookup_app_r, Nat.sub_diag by lia. done. }
  { cbn [length]. lia. }
  { cbn [length]. change (blocks_of (Z.of_nat 0)) with 0. change (Z.of_nat 0 + ?x) with x. lia. }
  exists s3, f3. split.
  - unfold add_file. rewrite bool_decide_true by done. unfold assert, ret at 1. unfold bind at 1. rewrite Eo. fold nm.
    mstep E1. rewrite (entry_name nm Hnn). unfold lift, ret at 1. unfold bind at 1. unfold dirent. 
    rewrite xshort_id by (unfold j, num; lia). change (le_bytes 2 j ++ _) with e. 
    change ROOTINO with (num 0). replace SIZEOF_DIRENT with (Z.of_nat (length e)) by by rewrite Hle. mstep E2. exact E3.
  - cbn [with_files]. unfold tree. cbn [fst snd]. rewrite Ei. fold nm j e. rewrite concat_app. cbn [concat]. rewrite app_nil_r.
    change (<[S (length fl) := ?x]> (?y :: ?l)) with (y :: <[length fl := x]> l) in D3.
    rewrite insert_app_r_alt, Nat.sub_diag in D3 by lia. exact D3.
Qed.

Lemma add_files_spec args : forall s f root fl, made s f (tree (root, fl)) -> Forall arg_ok args ->
  (S (length fl) + length args < Z.to_nat NINODES)%nat -> Forall (fun e => length e = 16%nat) root ->
  (length root = 2 + length fl)%nat -> nmeta + space (tree (with_files root fl args)) <= FSSIZE ->
  exists s' f', add_files h ROOTINO args s = Ok (tt, s') /\ made s' f' (tree (with_files root fl args)).
Proof.
  induction args as [|a args IH]; intros s f root fl D Ha Hn Hr Hl Hroom; [by exists s, f|].
  apply Forall_cons in Ha as [Ha Has]. cbn [length] in Hn. unfold NINODES in Hn.
  pose proof (tree_grows (with_files root fl [a]).1 (with_files root fl [a]).2 args) as Hg. cbn [with_files fst snd] in Hg.
  pose proof (entries_length root Hr) as Hlc.
  destruct (add_file_spec s f root fl a D Ha) as (s1 & f1 & E1 & D1);
    [unfold NINODES; lia|change (MAXFILE * BSIZE) with 71168; lia|cbn [with_files] in Hroom |- *; lia|].
  cbn [with_files] in D1. destruct (IH s1 f1 _ _ D1 Has) as (s2 & f2 & E2 & D2).
  - rewrite length_app. cbn. unfold NINODES. lia.
  - apply Forall_app. split; [done|]. repeat constructor. apply length_entry.
  - rewrite !length_app. cbn. lia.
  - done.
  - exists s2, f2. split; [|done]. cbn [add_files]. by mstep E1.
Qed.

(** * The start *)

Lemma zero_image_spec n : forall i s, m_img s = replicate i zero_block -> (i + n <= Z.to_nat FSSIZE)%nat ->
  zero_image h n (Z.of_nat i) s = Ok (tt, put_img (replicate (i + n) zero_block) s).
Proof.
  induction n as [|n IH]; intros i s Hi Hn; cbn [zero_image].
  - rewrite Nat.add_0_r, <- Hi. by destruct s.
  - unfold FSSIZE in Hn. unfold wsect at 1, modify. rewrite Hh by (unfold FSSIZE; lia). unfold bind at 1.
    rewrite sector_id, Nat2Z.id by lia. unfold img_write. rewrite Hi, length_replicate, bool_decide_false, Nat.sub_diag by lia.
    cbn [replicate app]. rewrite <- replicate_S_end. replace (Z.of_nat i + 1) with (Z.of_nat (S i)) by lia.
    rewrite IH by (done || unfold FSSIZE; lia). unfold put_img. cbn. do 3 f_equal. by rewrite Nat.add_succ_r.
Qed.

Lemma ld_zero_block n off : (off + n <= 512)%nat -> ld n zero_block off = 0.
Proof.
  intros Ho. unfold ld, slice, zero_block. rewrite drop_replicate, take_replicate.
  generalize (n `min` (Z.to_nat BSIZE - off))%nat. induction n0 as [|k IH]; cbn; [done|]. rewrite IH. done.
Qed.

Definition blank (b : Z) : bytes := if decide (b = sb_bmapstart sb) then bitmap nmeta else zero_block.

Lemma start_made s1 : m_img s1 = <[1%nat := splice zero_block 0 (sb_bytes sb)]> (replicate (Z.to_nat FSSIZE) zero_block) ->
  m_freeinode s1 = 1 -> m_freeblock s1 = nmeta -> made s1 (assign blank (1, splice zero_block 0 (sb_bytes sb))) [].
Proof.
  intros Hi Hn Hb. set (f := assign blank (1, splice zero_block 0 (sb_bytes sb))).
  assert (Hf : forall b, b <> 1 -> b <> sb_bmapstart sb -> f b = zero_block).
  { intros b H1 H2. unfold f. rewrite assign_eq, decide_False by done. unfold blank. by rewrite decide_False. }
  assert (Hd : forall j, inum_ok sb j -> dinode_at f sb j = dinode0).
  { intros j Hj. pose proof (iblock_range _ Hj) as Hr. pose proof (inode_off_range j). unfold dinode_at.
    rewrite Hf by (change (sb_bmapstart sb) with 58; lia). unfold get_dinode. rewrite !ld_zero_block by lia.
    unfold dinode0. f_equal. cbn [seq fmap list_fmap replicate]. by rewrite !ld_zero_block by lia. }
  constructor; cbn [length space].
  2: exact Hn.
  2: discriminate.
  2: reflexivity.
  2: { intros b Hb'. apply Hf; [lia|change (sb_bmapstart sb) with 58; lia]. }
  2: { intros k t c Hk. discriminate. }
  2: { intros j k b Hj. lia. }
  2: { intros j Hj _. by apply Hd. }
  2: { rewrite Hb. lia. }
  constructor.
  - rewrite Hi. by rewrite length_insert, length_replicate.
  - intros b Hb' Hne. rewrite Hi. unfold FSSIZE in *. destruct (decide (b = 1)) as [->|H1].
    + by rewrite list_lookup_insert_eq by (rewrite length_replicate; lia).
    + rewrite list_lookup_insert_ne by lia. rewrite lookup_replicate_2 by lia. by rewrite Hf.
  - rewrite Hb. unfold f. rewrite assign_eq, decide_False by done. unfold blank. by rewrite decide_True.
  - intros b. unfold f. rewrite assign_eq. destruct (decide (b = 1)); [done|]. unfold blank. destruct (decide _); [|done].
    unfold bitmap. by rewrite length_bits.
  - intros b Hne. unfold f. rewrite assign_eq. destruct (decide (b = 1)) as [->|].
    + apply Forall_splice; [apply byte_zero_block|]. unfold sb_bytes. repeat apply Forall_app_2; apply le_bytes_ok.
    + unfold blank. rewrite decide_False by done. apply byte_zero_block.
  - rewrite Hb. done.
  - intros b Hb'. rewrite Hb in Hb'. change nmeta with 59 in Hb'. apply Hf; [lia|]. change (sb_bmapstart sb) with 58. lia.
Qed.

(** * The end *)

(** The image [f] at the end, with the entries [root] of the root directory and the files [fl]. *)
Record built (f : Z -> bytes) (root : list bytes) (fl : list (Z * bytes)) (n : Z) : Prop := {
  bt_bytes : forall b, sb_inodestart sb <= b < FSSIZE -> b <> sb_bmapstart sb -> Forall byte_ok (f b);
  bt_meta : let e := Z.of_nat (length (concat root)) in
    dinode_at f sb 1 = mkdinode T_DIR 0 0 1 493 ((e / BSIZE + 1) * BSIZE) (d_addrs (dinode_at f sb 1));
  bt_root : file_ok f sb (dinode_at f sb 1);
  bt_entries : exists z, contents f (dinode_at f sb 1) = concat root ++ replicate z 0;
  bt_files : forall k t c, fl !! k = Some (t, c) -> holds f (num (S k)) t c;
  bt_apart : forall j k b, (j <= length fl)%nat -> (k <= length fl)%nat -> j <> k ->
    uses f (dinode_at f sb (num j)) b -> ~ uses f (dinode_at f sb (num k)) b;
  bt_rest : forall j, inum_ok sb j -> j = 0 \/ num (S (length fl)) <= j -> dinode_at f sb j = dinode0;
  bt_marks : forall b, 0 <= b < FSSIZE -> marked f sb b = (b <? n)
}.

Lemma fix_root_spec s f root fl : made s f (tree (root, fl)) ->
  Z.of_nat (length (concat root)) < MAXFILE * BSIZE -> exists s' f', fix_root h ROOTINO s = Ok (tt, s') /\ image s' f' /\ m_freeblock s' = m_freeblock s /\
    (forall b, 0 <= b < sb_inodestart sb -> f' b = f b) /\
    (Z.of_nat (length (concat root)) mod BSIZE <> 0 -> built f' root fl (m_freeblock s)).
Proof.
  intros [I Hi Hr Hsb Hlog Hf Hap Hre Hc] Hmax. set (n := Z.of_nat (length (concat root))) in *.
  assert (Hmx : MAXFILE * BSIZE = 71168) by reflexivity. pose proof (Hf 0%nat T_DIR (concat root) eq_refl) as H0. change (num 0) with 1 in H0.
  assert (H1 : inum_ok sb 1) by (unfold inum_ok; change (sb_ninodes sb) with 200; lia).
  set (e := (n / BSIZE + 1) * BSIZE). assert (Heu : is_u32 e /\ e <= MAXFILE * BSIZE)
    by (unfold e, is_u32, BSIZE, n in *; rewrite Hmx in *; clear - Hmax; divmod). destruct Heu as [Heu Hem].
  pose proof (ho_meta _ _ _ _ H0) as Hm0. set (d := dinode_at f sb 1) in *. set (d' := set_size e d) in *.
  assert (Hd : d' = mkdinode T_DIR 0 0 1 493 e (d_addrs d)) by (unfold d'; by rewrite Hm0).
  assert (Hok : dinode_ok d').
  { pose proof (ho_file _ _ _ _ H0) as F. pose proof (addrs_u32 sb f d bmap_nonneg ltac:(discriminate) F) as Ha. pose proof (fo_addrs _ _ _ F) as Hl.
    rewrite Hd. constructor; cbn; first [exact Heu|exact Hl|exact Ha|unfold is_s16, is_u32, T_DIR; lia]. }
  destruct (winode_Ok h Hh s f 1 d' I H1 Hok) as (s' & E & I' & Ei & Ek). set (f' := iwrite f sb 1 d') in *.
  pose proof (iblock_range _ H1) as Hib.
  exists s', f'. split_and!; [|done|done|intros b Hb; apply iwrite_meta; [done|apply Hb]|].
  { unfold fix_root. change ROOTINO with 1. mstep (rinode_Ok s f 1 I H1). fold d.
    assert (Hs : d_size d = n) by by rewrite Hm0. rewrite Hs.
    rewrite (xint_id n) by (unfold is_u32, n; lia). fold e. rewrite u32_small by exact Heu. rewrite xint_id by done. exact E. }
  intros Hmod. assert (He : n <= e <= (n + (BSIZE - 1)) / BSIZE * BSIZE) by (unfold e, BSIZE, n in *; clear - Hmod; divmod).
  destruct (holds_round f 1 T_DIR (concat root) e H0 He Hem) as [G1 G2]. fold d d' in G1, G2.
  assert (Hdi : forall j, inum_ok sb j -> dinode_at f' sb j = if decide (j = 1) then d' else dinode_at f sb j)
    by (intros j Hj; by apply (dinode_at_iwrite f sb 1 d' j layout_fs H1 Hj Hok (im_size _ _ I))).
  pose proof (Hdi 1 H1) as Ed. rewrite decide_True in Ed by done.
  assert (Hmk : forall y, marked f' sb y = marked f sb y) by (intros y; apply marked_assign; change (sb_bmapstart sb) with 58; lia).
  destruct (file_agree sb f f' d' bmap_nonneg G1) as (A1 & A2 & A3); [intros y _; by rewrite Hmk| |].
  { intros y [Hy _]%(fo_used _ _ _ G1). change (sb_bmapstart sb) with 58 in Hy. unfold f', iwrite. by rewrite assign_eq, decide_False by lia. }
  assert (Hoth : forall k t c, fl !! k = Some (t, c) -> holds f' (num (S k)) t c /\
    forall b, uses f' (dinode_at f' sb (num (S k))) b -> uses f (dinode_at f sb (num (S k))) b).
  { intros k t c Hk. pose proof (lookup_lt_Some _ _ _ Hk) as Hlt. assert (Hnk : inum_ok sb (num (S k)))
      by (apply (num_ok _ (S (length fl))); [lia|exact Hr]).
    exact (holds_iwrite f s 1 d' (num (S k)) t c I H1 Hnk Hok ltac:(unfold num; lia) (Hf (S k) t c Hk)). }
  assert (Huse : forall k b, (k <= length fl)%nat -> uses f' (dinode_at f' sb (num k)) b -> uses f (dinode_at f sb (num k)) b).
  { intros [|k] b Hk Hu; [change (num 0) with 1 in *; rewrite Ed in Hu; by apply A3 in Hu|].
    destruct (lookup_lt_is_Some_2 fl k ltac:(lia)) as [[t c] Ekk]. by apply (Hoth k t c Ekk). }
  constructor.
  - intros b _. apply (im_bytes _ _ I').
  - cbv zeta. rewrite Ed. rewrite Hd at 1. done.
  - by rewrite Ed.
  - exists (Z.to_nat e - length (concat root))%nat. by rewrite Ed, A2.
  - intros k t c Hk. by apply Hoth.
  - intros j k b Hj Hk Hne U1 U2. apply (Hap j k b); [cbn; lia|cbn; lia|done|by apply Huse|by apply Huse].
  - intros j Hj Hrest. rewrite Hdi, decide_False by (done || unfold num in *; lia). by apply Hre.
  - intros b Hb. rewrite Hmk. apply (image_marked _ _ _ I). unfold FSSIZE in Hb. lia.
Qed.

Lemma root_length args : length (concat (all_files args).1) = (16 * (2 + length args))%nat.
Proof.
  unfold all_files. assert (Hr : Forall (fun e => length e = 16%nat) [entry 1 dot; entry 1 dotdot]) by (repeat constructor).
  revert Hr. generalize ([] : list (Z * bytes)). replace (2 + length args)%nat with (length [entry 1 dot; entry 1 dotdot] + length args)%nat by done.
  generalize [entry 1 dot; entry 1 dotdot]. induction args as [|a args IH]; intros root fl Hr; cbn [with_files fst].
  - rewrite Nat.add_0_r. by apply entries_length.
  - rewrite IH by (apply Forall_app; split; [done|repeat constructor; apply length_entry]). rewrite length_app. cbn. lia.
Qed.

(** The root directory with its first two entries. *)
Lemma start_root s f : made s f [] -> m_freeblock s < FSSIZE -> exists s' f', (forall A (k : Z -> M mkfs A),
    (let! rootino := ialloc h T_DIR in
    do! assert (rootino =? ROOTINO) "rootino == ROOTINO" in
    do! iappend h rootino (dirent rootino ([46] ++ replicate 13 0)) SIZEOF_DIRENT in
    do! iappend h rootino (dirent rootino ([46; 46] ++ replicate 12 0)) SIZEOF_DIRENT in k rootino) s = k ROOTINO s') /\
  made s' f' (tree ([entry 1 dot; entry 1 dotdot], [])).
Proof.
  intros D Hb. pose proof (md_count _ _ _ D) as C0. cbn [space] in C0. unfold FSSIZE in Hb. change nmeta with 59 in C0.
  destruct (ialloc_spec h Hh s f [] T_DIR D) as (s1 & f1 & E1 & D1); [done..|]. change (num (length [])) with ROOTINO in E1.
  pose proof (md_count _ _ _ D1) as C1. cbn [app space snd length] in C1. change (blocks_of (Z.of_nat 0)) with 0 in C1. change nmeta with 59 in C1.
  destruct (iappend_spec h Hh s1 f1 _ 0 T_DIR [] (entry 1 dot) D1) as (s2 & f2 & E2 & D2);
    [done|done|apply byte_entry; repeat constructor; unfold byte_ok; lia|done| |].
  { rewrite length_entry. change (blocks_of _ - _) with 1. unfold FSSIZE. lia. }
  cbn [app insert list_insert] in D2. pose proof (md_count _ _ _ D2) as C2. cbn [space snd] in C2. rewrite length_entry in C2.
  change (blocks_of (Z.of_nat 16)) with 1 in C2. change nmeta with 59 in C2.
  destruct (iappend_spec h Hh s2 f2 _ 0 T_DIR (entry 1 dot) (entry 1 dotdot) D2) as (s3 & f3 & E3 & D3);
    [done|done|apply byte_entry; repeat constructor; unfold byte_ok; lia|done| |].
  { rewrite !length_entry. change (blocks_of _ - _) with 0. unfold FSSIZE. lia. }
  exists s3, f3. split; [|exact D3]. intros A k. rewrite length_entry in E2, E3. mstep E1.
  change (assert (ROOTINO =? ROOTINO) "rootino == ROOTINO") with (ret tt : M mkfs unit). unfold ret at 1. unfold bind at 1.
  change (dirent ROOTINO ([46] ++ replicate 13 0)) with (entry 1 dot).
  change (dirent ROOTINO ([46; 46] ++ replicate 12 0)) with (entry 1 dotdot).
  change SIZEOF_DIRENT with (Z.of_nat 16). change ROOTINO with (num 0). mstep E2. mstep E3. done.
Qed.

(** [main] up to the files. *)
Lemma main_start img args : h_create h img = true ->
  exists s f, made s f (tree ([entry 1 dot; entry 1 dotdot], [])) /\
    main h (img :: args) mkfs0 = (do! add_files h ROOTINO args in do! fix_root h ROOTINO in
      let! used := gets m_freeblock in balloc h (s32 used)) s.
Proof.
  intros Hc. set (s1 := put_img (<[1%nat := splice zero_block 0 (sb_bytes sb)]> (replicate (Z.to_nat FSSIZE) zero_block)) (put_freeblock nmeta mkfs0)).
  assert (D1 : made s1 (assign blank (1, splice zero_block 0 (sb_bytes sb))) []) by by apply start_made.
  destruct (start_root s1 _ D1) as (s2 & f2 & E2 & D2); [done|]. exists s2, f2. split; [done|].
  unfold main. change (assert (BSIZE mod SIZEOF_DINODE =? 0) _) with (ret tt : M mkfs unit).
  change (assert (BSIZE mod SIZEOF_DIRENT =? 0) _) with (ret tt : M mkfs unit). unfold ret at 1 2. unfold bind at 1 2.
  rewrite Hc. cbn [negb]. unfold modify at 1. unfold bind at 1.
  mstep (zero_image_spec (Z.to_nat FSSIZE) 0 (put_freeblock nmeta mkfs0) eq_refl (Nat.le_refl _)).
  assert (Ew : wsect h 1 (splice zero_block 0 (sb_bytes sb)) (put_img (replicate (0 + Z.to_nat FSSIZE) zero_block) (put_freeblock nmeta mkfs0)) = Ok (tt, s1)).
  { unfold wsect, modify. by rewrite Hh. }
  mstep Ew. by rewrite E2.
Qed.

Lemma main_spec img args : h_create h img = true -> Forall arg_ok args -> (length args <= 198)%nat ->
  used args <= FSSIZE -> exists s' f, main h (img :: args) mkfs0 = Ok (tt, s') /\ m_freeblock s' = used args /\ length (m_img s') = Z.to_nat FSSIZE /\
    (forall b, 0 <= b < FSSIZE -> m_img s' !! Z.to_nat b = Some (f b)) /\
    (forall b, length (f b) = 512%nat) /\ f 1 = splice zero_block 0 (sb_bytes sb) /\ f 2 = zero_block /\
    (Z.of_nat (2 + length args) mod 32 <> 0 -> built f (all_files args).1 (all_files args).2 (used args)).
Proof.
  intros Hc Ha Hn Hu. unfold used in Hu.
  destruct (main_start img args Hc) as (s2 & f2 & D2 & E2).
  destruct (add_files_spec args s2 f2 [entry 1 dot; entry 1 dotdot] [] D2 Ha) as (s3 & f3 & E3 & D3);
    [unfold NINODES; cbn [length]; lia|repeat constructor|done|exact Hu|].
  fold (all_files args) in D3. destruct (all_files args) as [root fl] eqn:Ef. pose proof (root_length args) as Hrl. rewrite Ef in Hrl. cbn [fst] in Hrl.
  destruct (fix_root_spec s3 f3 root fl D3) as (s4 & f4 & E4 & I4 & Ek4 & K4 & B4).
  { rewrite Hrl. change (MAXFILE * BSIZE) with 71168. lia. }
  pose proof (md_count _ _ _ D3) as C3. rewrite C3 in B4. destruct (meta_bounds _ _ I4) as (Eb & _ & Hk4).
  set (s5 := put_img (<[58%nat := bitmap (m_freeblock s4)]> (m_img s4)) s4). exists s5, f4.
  pose proof (im_len _ _ I4) as Hl4. split_and!; [|unfold used; rewrite Ef, <- C3, <- Ek4; reflexivity|unfold s5; cbn [m_img put_img]; by rewrite length_insert| |apply (im_size _ _ I4)| | |intros Hm; unfold used; rewrite Ef; apply B4; rewrite Hrl; unfold BSIZE; clear - Hm; divmod].
  3: { rewrite K4 by done. apply (md_sb _ _ _ D3). }
  3: { rewrite K4 by done. apply (md_log _ _ _ D3). lia. }
  - rewrite E2. mstep E3. mstep E4. unfold gets. unfold bind at 1. rewrite s32_small by lia.
    unfold balloc. replace (m_freeblock s4 <? BSIZE * 8) with true by (unfold BSIZE; lia). unfold assert, ret at 1. unfold bind at 1.
    unfold wsect, modify. rewrite Hh by done. change (img_sector (sb_bmapstart sb)) with 58%nat. unfold img_write.
    rewrite bool_decide_true by (rewrite Hl4; unfold FSSIZE; lia). done.
  - intros b Hb. unfold s5. cbn [m_img put_img]. destruct (decide (b = 58)) as [->|Hne].
    + rewrite list_lookup_insert_eq by (rewrite Hl4; unfold FSSIZE; lia). f_equal. symmetry. apply (im_bitmap _ _ I4).
    + rewrite list_lookup_insert_ne by lia. apply (im_img _ _ I4); [done|]. by rewrite Eb.
Qed.
End Run.
End Main.
