(* ===== verification/MkfsBounds.v ===== *)
(** The limits of the image builder (mkfs.c): it fails when a file or the whole does not fit. *)

From S2P Require Import Prelude Bio Log Crash Block Strings Fs FsAlloc FsInode FsName FsBlocks Mkfs MkfsDisk MkfsFiles MkfsMain.
Local Open Scope Z_scope.

Section Bounds.
  Context (h : host) (Hh : forall b, 0 <= b < FSSIZE -> h_write h b = true).

(** * Running out of blocks *)

(** Behind the end of the image. *)
Lemma rsect_end s : length (m_img s) = Z.to_nat FSSIZE -> rsect FSSIZE s = Panic "read".
Proof.
  intros Hl. unfold rsect, gets, bind. rewrite sector_id by (unfold FSSIZE; lia).
  by rewrite lookup_ge_None_2 by (rewrite Hl; lia).
Qed.

(** The block for the next bytes, when the image is full. *)
Definition stuck (s : mkfs) (d : dinode) (n : Z) : Prop :=
  append_addr h d n s = Panic "read" \/
  exists d' s', append_addr h d n s = Ok ((d', FSSIZE), s') /\ length (m_img s') = Z.to_nat FSSIZE.

Lemma stuck_direct s f d n : image s f -> file_ok f sb d -> slot n -> n < NDIRECT -> m_freeblock s = FSSIZE ->
  faddr f d n = 0 -> stuck s d n.
Proof.
  intros I F Hn Hd Hb E0. assert (En : d_addrs d !!! Z.to_nat n = 0)
    by (rewrite <- E0; unfold faddr; by replace (n <? NDIRECT) with true by lia).
  right. exists (set_addr (Z.to_nat n) FSSIZE d), (put_freeblock (u32 (FSSIZE + 1)) s). split; [|apply (im_len _ _ I)].
  unfold append_addr. replace (n <? NDIRECT) with true by lia. rewrite En. change (xint 0 =? 0) with true. cbv iota.
  unfold next_block, gets, modify, bind, ret. rewrite Hb. change (xint FSSIZE) with FSSIZE. unfold set_addr at 2. cbn [d_addrs].
  rewrite list_lookup_total_insert_eq; [done|]. rewrite (fo_addrs _ _ _ F). unfold slot, NDIRECT in *. lia.
Qed.

Lemma stuck_entry s f d n : image s f -> file_ok f sb d -> slot n -> NDIRECT <= n -> m_freeblock s = FSSIZE ->
  ind d <> 0 -> faddr f d n = 0 -> let ind := ind d in let k := Z.to_nat (4 * (n - NDIRECT)) in
  exists s', (let! indirect := rsect ind in
    let! indirect :=
      (if ld 4 indirect k =? 0 then
         let! b := next_block in
         let indirect := st 4 indirect k (xint b) in
         do! wsect h ind indirect in
         ret indirect
       else ret indirect) in
    ret (d, xint (ld 4 indirect k))) s = Ok ((d, FSSIZE), s') /\ length (m_img s') = Z.to_nat FSSIZE.
Proof.
  intros I F Hn Hd Hb Hi E0 a k. assert (Hu : uses f d a) by (split; [done|by left]).
  destruct (fo_used _ _ _ F _ Hu) as [Hr _]. change (sb_bmapstart sb) with 58 in Hr. change (sb_size sb) with 1000 in Hr.
  pose proof (im_len _ _ I) as Hl. assert (Ho : (k + 4 <= 512)%nat)
    by (unfold k, slot, MAXFILE, NINDIRECT, NDIRECT, BSIZE in *; change (512 / 4) with 128 in *; lia).
  assert (En : ld 4 (f a) k = 0) by (rewrite <- E0; unfold faddr; replace (n <? NDIRECT) with false by lia; by rewrite (proj2 (Z.eqb_neq _ _) Hi)).
  eexists. split.
  - mstep (rsect_Ok s f a I ltac:(unfold FSSIZE; lia) ltac:(change (sb_bmapstart sb) with 58; lia)). rewrite En.
    change (0 =? 0) with true. cbv iota. unfold next_block, gets, modify, bind, ret, wsect. rewrite Hb, Hh by (unfold FSSIZE; lia).
    unfold modify. change (xint FSSIZE) with FSSIZE. rewrite ld_st_same by (rewrite (im_size _ _ I); lia). reflexivity.
  - cbn [m_img put_img put_freeblock]. rewrite sector_id by lia. unfold img_write.
    rewrite bool_decide_true by (rewrite Hl; unfold FSSIZE; lia). by rewrite length_insert.
Qed.

Lemma append_stuck s f d n : image s f -> file_ok f sb d -> slot n -> FSSIZE < m_freeblock s + takes f d n -> stuck s d n.
Proof.
  intros I F Hn Ht. unfold takes in Ht. destruct (meta_bounds _ _ I) as (_ & _ & Hb). unfold FSSIZE in Ht.
  destruct (decide (n < NDIRECT)) as [Hd|Hd].
  - replace ((NDIRECT <=? n) && (ind d =? 0)) with false in Ht by lia. destruct (faddr f d n =? 0) eqn:E; [|lia].
    apply (stuck_direct s f); try done; [unfold FSSIZE|]; lia.
  - replace (NDIRECT <=? n) with true in Ht by lia. cbn [andb] in Ht. unfold stuck, append_addr. replace (n <? NDIRECT) with false by lia.
    destruct (decide (ind d = 0 /\ m_freeblock s = 1000)) as [[Hi Hf]|Hroom].
    + left. assert (E : (if xint (d_addrs d !!! Z.to_nat NDIRECT) =? 0 then
          let! b := next_block in ret (set_addr (Z.to_nat NDIRECT) (xint b) d) else ret d) s =
        Ok (set_addr 11 FSSIZE d, put_freeblock (u32 (1000 + 1)) s)).
      { change (d_addrs d !!! Z.to_nat NDIRECT) with (ind d). rewrite Hi. change (xint 0 =? 0) with true. cbv iota.
        unfold next_block, gets, modify, bind, ret. by rewrite Hf. }
      mstep E. change (d_addrs (set_addr 11 FSSIZE d) !!! Z.to_nat NDIRECT) with (ind (set_addr 11 FSSIZE d)).
      rewrite ind_addr, decide_True by (rewrite ?(fo_addrs _ _ _ F); lia). cbv zeta. change (xint FSSIZE) with FSSIZE.
      unfold bind at 1. rewrite rsect_end; [done|]. apply (im_len _ _ I).
    + right. assert (Hz : ind d = 0 -> faddr f d n = 0) by (intros E; unfold faddr; replace (n <? NDIRECT) with false by lia; by rewrite E).
      destruct (append_ind s f d I F) as (s1 & f1 & d1 & E1 & I1 & X1 & Hi & Ea & Ek & Ei); [unfold FSSIZE; lia|].
      assert (Hn0 : faddr f d n = 0 /\ m_freeblock s1 = FSSIZE).
      { destruct (meta_bounds _ _ I1) as (_ & _ & Hb1). unfold FSSIZE. destruct (ind d =? 0) eqn:E; [rewrite (Hz ltac:(lia)) in *; change (0 =? 0) with true in Ht; cbv iota in Ht; lia|].
        destruct (faddr f d n =? 0) eqn:E2; lia. }
      destruct (stuck_entry s1 f1 d1 n I1 (ex_ok _ _ _ _ _ _ _ X1) Hn ltac:(lia) (proj2 Hn0) Hi) as (s2 & E2 & Hl2);
        [rewrite Ea by done; apply Hn0|].
      exists d1, s2. split; [|done]. mstep E1. change (d_addrs d1 !!! Z.to_nat NDIRECT) with (ind d1).
      rewrite (xint_id (ind d1)) by (apply (ind_u32 f1), (ex_ok _ _ _ _ _ _ _ X1)). exact E2.
Qed.

(** * Appending what does not fit *)

Definition too_much (s : mkfs) (off n : Z) : Prop :=
  MAXFILE * BSIZE < off + n \/ FSSIZE < m_freeblock s + (blocks_of (off + n) - blocks_of off).

Lemma iappend_loop_fails fuel : forall s f d off p, image s f -> file_ok f sb d -> tight f d off ->
  0 <= off <= MAXFILE * BSIZE -> (length p <= fuel)%nat -> Forall byte_ok p -> Z.of_nat (length p) < 4294000000 ->
  too_much s off (Z.of_nat (length p)) ->
  exists msg, iappend_loop h fuel d p off (Z.of_nat (length p)) s = Panic msg.
Proof.
  assert (Hmx : MAXFILE * BSIZE = 71168) by reflexivity.
  induction fuel as [|fuel IH]; intros s f d off p I F Ht Ho Hf Hby Hp Htm.
  all: destruct (meta_bounds _ _ I) as (_ & _ & Hb).
  all: assert (Hl : (0 < length p)%nat) by
    (destruct (length p) eqn:E; [|lia]; destruct Htm as [Hm|Hm]; rewrite Z.add_0_r in Hm; unfold FSSIZE in Hm; lia).
  { lia. }
  set (n := Z.of_nat (length p)) in *. cbn [iappend_loop]. replace (n >? 0) with true by lia.
  destruct (decide (off = MAXFILE * BSIZE)) as [->|Hlt].
  { exists "fbn < MAXFILE"%string. unfold bind at 1, assert. by replace (_ <? MAXFILE) with false. }
  set (m := Z.min n (BSIZE - off mod BSIZE)). pose proof (Z.mod_pos_bound off BSIZE eq_refl) as Hmod. change BSIZE with 512 in Hmod.
  assert (Hm : 0 < m <= n /\ off mod BSIZE + m <= BSIZE) by (unfold m, n, BSIZE in *; lia).
  assert (Hslot : slot (off / BSIZE)) by (unfold slot, BSIZE in *; clear - Ho Hlt Hmx; divmod).
  replace (off / BSIZE <? MAXFILE) with true by (unfold slot in Hslot; lia). unfold assert, ret at 1. unfold bind at 1.
  destruct (tight_takes f d off m Ht ltac:(lia) ltac:(lia) ltac:(lia)) as [Et _].
  destruct (decide (FSSIZE < m_freeblock s + (blocks_of (off + m) - blocks_of off))) as [Hfull|Hroom].
  { exists "read"%string. rewrite <- Et in Hfull. destruct (append_stuck s f d _ I F Hslot Hfull) as [E|(d' & s' & E & Hl')].
    - unfold bind at 1. by rewrite E.
    - mstep E. unfold bind at 1. by rewrite rsect_end. }
  set (w := take (Z.to_nat m) p). assert (Hlw : Z.of_nat (length w) = m) by (unfold w; rewrite length_take; unfold n in *; lia).
  destruct (append_round h Hh s f d off w) as (s1 & f1 & d1 & s2 & f2 & E1 & E2 & E3 & I2 & X2 & Ha2 & Hb2 & T2 & Ei2 & Ek2);
    rewrite ?Hlw; try done; [lia|lia|lia|lia|by apply Forall_take|lia|].
  rewrite Hlw in *. assert (Hld : Z.of_nat (length (drop (Z.to_nat m) p)) = n - m) by (rewrite length_drop; unfold n in *; lia).
  assert (Hnext : off + m <= MAXFILE * BSIZE) by (unfold MAXFILE, NINDIRECT, NDIRECT, BSIZE in *; change (512 / 4) with 128 in *; clear - Ho Hm Hlt Hmod; divmod).
  destruct (IH s2 f2 d1 (off + m) (drop (Z.to_nat m) p)) as [msg E]; try done.
  { by apply (ex_ok _ _ _ _ _ _ _ X2). }
  { lia. }
  { unfold n in *. lia. }
  { by apply Forall_drop. }
  { lia. }
  { unfold too_much in *. rewrite Hld. replace (off + m + (n - m)) with (off + n) by lia. lia. }
  rewrite Hld in E.
  assert (Hu : u32 ((off / BSIZE + 1) * BSIZE - off) = BSIZE - off mod BSIZE)
    by (rewrite u32_small; unfold BSIZE in *; clear - Hmod; divmod).
  exists msg. mstep E1. rewrite Hu. fold m. mstep E2.
  replace (off - off / BSIZE * BSIZE) with (off mod BSIZE) by (unfold BSIZE in *; clear; divmod). fold w. mstep E3.
  by rewrite u32_small by lia.
Qed.

Lemma iappend_fails s f fl k t c p : made s f fl -> fl !! k = Some (t, c) -> Forall byte_ok p -> Z.of_nat (length p) < 4294000000 ->
  too_much s (Z.of_nat (length c)) (Z.of_nat (length p)) ->
  exists msg, iappend h (num k) p (Z.of_nat (length p)) s = Panic msg.
Proof.
  intros D Hk Hby Hp Htm. pose proof D as [I Hi Hr _ _ Hf _ _ _]. pose proof (lookup_lt_Some _ _ _ Hk) as Hkl.
  pose proof (Hf _ _ _ Hk) as Hh'. assert (Hs : d_size (dinode_at f sb (num k)) = Z.of_nat (length c)) by by rewrite (ho_meta _ _ _ _ Hh').
  pose proof (fo_size _ _ _ (ho_file _ _ _ _ Hh')) as Hsz. rewrite Hs in Hsz. assert (Hmx : MAXFILE * BSIZE = 71168) by reflexivity.
  destruct (iappend_loop_fails (Z.to_nat (Z.of_nat (length p))) s f _ (Z.of_nat (length c)) p I (ho_file _ _ _ _ Hh') (ho_tight _ _ _ _ Hh'))
    as [msg E]; [done|lia|done|done|done|].
  exists msg. unfold iappend. mstep (rinode_Ok s f (num k) I (num_ok k _ Hkl Hr)). rewrite Hs, xint_id by (unfold is_u32; lia).
  unfold bind at 1. by rewrite E.
Qed.

(** * Files that do not fit *)

Lemma nothing_too_much s f fl k t c : made s f fl -> fl !! k = Some (t, c) -> ~ too_much s (Z.of_nat (length c)) 0.
Proof.
  intros D Hk. pose proof (md_files _ _ _ D _ _ _ Hk) as Hh'. pose proof (fo_size _ _ _ (ho_file _ _ _ _ Hh')) as Hsz.
  rewrite (ho_meta _ _ _ _ Hh') in Hsz. cbn [d_size] in Hsz. destruct (meta_bounds _ _ (md_image _ _ _ D)) as (_ & _ & Hb).
  unfold too_much, FSSIZE. rewrite Z.add_0_r. lia.
Qed.

Lemma copy_file_fails chunks : forall s f fl k t c, made s f fl -> fl !! k = Some (t, c) -> is_s16 t ->
  Forall (fun p => (length p <= Z.to_nat BSIZE)%nat /\ Forall byte_ok p) chunks ->
  too_much s (Z.of_nat (length c)) (Z.of_nat (length (concat chunks))) ->
  exists msg, copy_file h (num k) chunks s = Panic msg.
Proof.
  induction chunks as [|p chunks IH]; intros s f fl k t c D Hk Ht Hby Htm; cbn [copy_file concat] in *.
  { by destruct (nothing_too_much s f fl k t c D Hk). }
  apply Forall_cons in Hby as [[Hp Hb] Hby]. change (Z.to_nat BSIZE) with 512%nat in Hp. rewrite length_app, Nat2Z.inj_add in Htm.
  destruct (decide (MAXFILE * BSIZE < Z.of_nat (length c) + Z.of_nat (length p))) as [Hbig|Hfit];
    [|destruct (decide (FSSIZE < m_freeblock s + (blocks_of (Z.of_nat (length c) + Z.of_nat (length p)) - blocks_of (Z.of_nat (length c))))) as [Hfull|Hroom]].
  1, 2: destruct (iappend_fails s f fl k t c p D Hk Hb ltac:(lia) ltac:(by (left + right))) as [msg E];
    exists msg; unfold bind at 1; by rewrite E.
  destruct (iappend_spec h Hh s f fl k t c p D Hk Ht Hb ltac:(lia) ltac:(lia)) as (s1 & f1 & E1 & D1).
  pose proof (lookup_lt_Some _ _ _ Hk) as Hkl. pose proof (md_count _ _ _ D) as C0. pose proof (md_count _ _ _ D1) as C1.
  rewrite (space_insert _ _ _ _ Hk) in C1. cbn [snd] in C1. rewrite length_app, Nat2Z.inj_add in C1.
  destruct (IH s1 f1 (<[k := (t, c ++ p)]> fl) k t (c ++ p) D1) as [msg E2]; try done.
  - by rewrite list_lookup_insert_eq.
  - unfold too_much in *. rewrite length_app, Nat2Z.inj_add, <- Z.add_assoc. lia.
  - exists msg. by mstep E1.
Qed.

Lemma add_file_fails s f root fl a : made s f (tree (root, fl)) -> arg_plain h a -> (2 + length fl < Z.to_nat NINODES)%nat ->
  Z.of_nat (length (concat root)) + 16 <= MAXFILE * BSIZE ->
  arg_fits h a = false \/ FSSIZE < nmeta + space (tree (with_files h root fl [a])) ->
  exists msg, add_file h ROOTINO a s = Panic msg.
Proof.
  intros D [A1 A2 A3] Hn Hr Hno. unfold NINODES in Hn. unfold add_file, arg_fits in *. destruct (bool_decide (47 ∉ a)); [|by eexists].
  unfold assert, ret at 1. unfold bind at 1. destruct (h_open h a) as [chunks|] eqn:Eo; [|by eexists].
  rewrite bool_decide_true in Hno by done. cbn [andb] in Hno. set (nm := skip_underscore a). set (j := num (S (length fl))).
  assert (Ei : input h a = concat chunks) by (unfold input; by rewrite Eo).
  destruct (ialloc_spec h Hh s f _ T_FILE D) as (s1 & f1 & E1 & D1); [cbn; unfold num, NINODES; lia|done|done|].
  change (num (length (tree (root, fl)))) with j in E1. unfold tree in D1. cbn [fst snd app] in D1.
  assert (Hnn : no_nul nm) by by apply skip_bytes. set (e := entry j nm). pose proof (length_entry j nm) as Hle. fold e in Hle.
  assert (Ede : dirent j (take 14 nm ++ replicate (14 - length (take 14 nm)) 0) = e)
    by (unfold dirent; by rewrite xshort_id by (unfold j, num; lia)).
  mstep E1. rewrite (entry_name nm Hnn). unfold lift, ret at 1. unfold bind at 1. rewrite Ede.
  change ROOTINO with (num 0). replace SIZEOF_DIRENT with (Z.of_nat (length e)) by by rewrite Hle.
  assert (Hbe : Forall byte_ok e) by (apply byte_entry; by apply skip_bytes).
  destruct (decide (too_much s1 (Z.of_nat (length (concat root))) (Z.of_nat (length e)))) as [Htm|Hok].
  { destruct (iappend_fails s1 f1 _ 0 T_DIR (concat root) e D1 eq_refl Hbe ltac:(lia) Htm) as [msg E]. exists msg. unfold bind at 1. by rewrite E. }
  unfold too_much in Hok. destruct (iappend_spec h Hh s1 f1 _ 0 T_DIR (concat root) e D1 eq_refl) as (s2 & f2 & E2 & D2); [done|done|lia|lia|].
  cbn [insert list_insert] in D2. mstep E2. apply (copy_file_fails chunks s2 f2 _ (S (length fl)) T_FILE [] D2); [|done|by apply A3|].
  { rewrite lookup_cons, lookup_app_r, Nat.sub_diag by lia. done. }
  pose proof (md_count _ _ _ D2) as C2. cbn [space snd] in C2. rewrite space_app in C2. cbn [space snd length] in C2.
  change (blocks_of (Z.of_nat 0)) with 0 in C2. cbn [with_files] in Hno. fold nm j e in Hno. unfold tree in Hno. cbn [fst snd space] in Hno.
  rewrite Ei, space_app, concat_app in Hno. cbn [space snd concat] in Hno. rewrite app_nil_r in Hno. unfold too_much.
  cbn [length]. change (blocks_of (Z.of_nat 0)) with 0. change (Z.of_nat 0 + ?x) with x. lia.
Qed.

Lemma add_files_fails args : forall s f root fl, made s f (tree (root, fl)) -> Forall (arg_plain h) args ->
  (S (length fl) + length args < Z.to_nat NINODES)%nat -> Forall (fun e => length e = 16%nat) root ->
  (length root = 2 + length fl)%nat ->
  forallb (arg_fits h) args = false \/ FSSIZE < nmeta + space (tree (with_files h root fl args)) ->
  exists msg, add_files h ROOTINO args s = Panic msg.
Proof.
  induction args as [|a args IH]; intros s f root fl D Ha Hn Hr Hl Hno; cbn [add_files].
  { destruct Hno as [|Hno]; [done|]. pose proof (md_count _ _ _ D). destruct (meta_bounds _ _ (md_image _ _ _ D)) as (_ & _ & Hb).
    cbn [with_files] in Hno. unfold FSSIZE in Hno. lia. }
  apply Forall_cons in Ha as [Ha Has]. cbn [length] in Hn. unfold NINODES in Hn.
  assert (Hlc : Z.of_nat (length (concat root)) + 16 <= MAXFILE * BSIZE)
    by (rewrite (entries_length root Hr); change (MAXFILE * BSIZE) with 71168; lia).
  destruct (decide (arg_fits h a = false \/ FSSIZE < nmeta + space (tree (with_files h root fl [a])))) as [Hbad|Hok].
  { destruct (add_file_fails s f root fl a D Ha) as [msg E]; [unfold NINODES; lia|done|done|]. exists msg. unfold bind at 1. by rewrite E. }
  assert (Hf : arg_fits h a = true) by (destruct (arg_fits h a); tauto).
  destruct (add_file_spec h Hh s f root fl a D (arg_ok_intro h a Ha Hf)) as (s1 & f1 & E1 & D1); [unfold NINODES; lia|done|lia|].
  mstep E1. cbn [with_files] in D1. cbn [forallb] in Hno. rewrite Hf in Hno. apply (IH s1 f1 _ _ D1 Has); [| | |exact Hno].
  - rewrite length_app. cbn. unfold NINODES. lia.
  - apply Forall_app. split; [done|]. repeat constructor. apply length_entry.
  - rewrite !length_app. cbn. lia.
Qed.
End Bounds.

(** C10. mkfs succeeds exactly when everything fits.  On a host that can write the sectors of
    the image, for at most 198 files, main returns without an error if and only if the image
    can be created, every argument is a file that opens, whose name has no '/' and whose
    contents are at most MAXFILE blocks, and the boot block, the super block, the log, the
    inodes, the bit map, the blocks of the files and of the root directory and their indirect
    blocks together are at most the FSSIZE blocks of the image; otherwise it exits with an
    error, and never hands out a block behind the end of the image. *)
Theorem mkfs_bounds h img args : (forall b, 0 <= b < FSSIZE -> h_write h b = true) -> Forall (arg_plain h) args ->
  (length args <= 198)%nat ->
  if h_create h img && fits h args then exists s, main h (img :: args) mkfs0 = Ok (tt, s) /\ m_freeblock s = used h args
  else exists msg, main h (img :: args) mkfs0 = Panic msg.
Proof.
  intros Hh Hp Hn. destruct (h_create h img) eqn:Hc; cbn [andb].
  2: { exists "open"%string. unfold main. change (assert (BSIZE mod SIZEOF_DINODE =? 0) _) with (ret tt : M mkfs unit).
       change (assert (BSIZE mod SIZEOF_DIRENT =? 0) _) with (ret tt : M mkfs unit). unfold ret at 1 2. unfold bind at 1 2. by rewrite Hc. }
  unfold fits. destruct (forallb (arg_fits h) args && (used h args <=? FSSIZE)) eqn:Hf.
  - apply andb_true_iff in Hf as [H1 H2].
    destruct (main_spec h Hh img args Hc (args_ok_intro h args Hp H1) Hn ltac:(lia)) as (s & f & E & Ek & _). by exists s.
  - destruct (main_start h Hh img args Hc) as (s & f & D & E). rewrite E.
    destruct (add_files_fails h Hh args s f [entry 1 dot; entry 1 dotdot] [] D Hp) as [msg Em].
    + unfold NINODES. cbn [length]. lia.
    + repeat constructor.
    + done.
    + unfold used, all_files in Hf. apply andb_false_iff in Hf as [Hf|Hf]; [by left|]. right. lia.
    + exists msg. unfold bind at 1. by rewrite Em.
Qed.

(** A host with one file of three bytes. *)
Definition demo_host : host := mkhost (fun _ => true) (fun _ => true) (fun a => if bool_decide (a = [95; 97]) then Some [[1; 2]; [3]] else None).

Lemma demo_plain : Forall (arg_plain demo_host) [[95; 97]].
Proof.
  repeat constructor; try lia; try (unfold byte_ok; lia). intros chunks. cbn. intros [= <-].
  repeat constructor; cbn; try lia; unfold byte_ok; lia.
Qed.

Lemma mkfs_bounds_witness : fits demo_host [[95; 97]] = true /\
  exists s, main demo_host [[]; [95; 97]] mkfs0 = Ok (tt, s) /\ m_freeblock s = 61.
Proof.
  assert (Hf : fits demo_host [[95; 97]] = true) by (vm_compute; reflexivity). split; [exact Hf|].
  pose proof (mkfs_bounds demo_host [] [[95; 97]] (fun _ _ => eq_refl) demo_plain ltac:(cbn; lia)) as H.
  rewrite Hf in H. destruct H as (s & E & Ek). exists s. split; [exact E|]. rewrite Ek. vm_compute. reflexivity.
Defined.
