(* ===== verification/MkfsCorrect.v ===== *)
(** The image builder (mkfs.c) and the kernel: the image that mkfs builds is one that the
    kernel boots from, with a tree in which every file is found under its name. *)

From S2P Require Import Prelude Bio Log Crash Block Strings Fs FsAlloc FsInode FsName FsBlocks FsPath Mkfs MkfsDisk MkfsFiles MkfsMain MkfsBounds.
Local Open Scope Z_scope.

(** * Directory entries *)

Lemma entry_inum j nm : 0 <= j < 65536 -> ld 2 (entry j nm) 0 = j.
Proof.
  intros Hj. unfold ld, slice, entry. rewrite drop_0, take_app_le, take_ge by (rewrite length_le_bytes; lia).
  rewrite le_val_bytes. change (256 ^ Z.of_nat 2) with 65536. by apply Z.mod_small.
Qed.

Lemma entry_name_of j nm : no_nul nm -> name_of 14 (drop 2 (entry j nm)) = take 14 nm.
Proof.
  intros Hn. unfold entry. rewrite drop_app_length' by (by rewrite length_le_bytes).
  assert (Ht : no_nul (take 14 nm)) by by apply Forall_take. destruct (decide (length (take 14 nm) = 14)%nat) as [E|E].
  - rewrite E, Nat.sub_diag. by apply name_of_long.
  - pose proof (length_take nm 14). destruct (14 - length (take 14 nm))%nat as [|z] eqn:Ez; [lia|].
    cbn [replicate]. apply name_of_short; [done|lia].
Qed.

Lemma dent_concat es : forall tl k e, Forall (fun x => length x = 16%nat) es -> es !! k = Some e -> dent (concat es ++ tl) k = e.
Proof.
  induction es as [|x es IH]; intros tl [|k] e Hl; [done|done| |]; apply Forall_cons in Hl as [Hx Hl]; cbn [concat].
  - intros [= ->]. unfold dent, slice. rewrite Nat.mul_0_r, drop_0, <- app_assoc. by rewrite take_app_length' by done.
  - intros Hk. change ((x :: es) !! S k) with (es !! k) in Hk. rewrite <- (IH tl k e Hl Hk). unfold dent, slice.
    f_equal. rewrite <- app_assoc. replace (16 * S k)%nat with (length x + 16 * k)%nat by lia. by rewrite drop_app_add.
Qed.

Lemma dent_zeros es z k : Forall (fun x => length x = 16%nat) es -> (length es <= k)%nat ->
  dent_inum (concat es ++ replicate z 0) k = 0.
Proof.
  intros Hl Hk. pose proof (entries_length es Hl) as Hc.
  unfold dent_inum, dent, ld, slice. rewrite drop_app_ge, drop_replicate, take_replicate, drop_replicate, take_replicate by lia.
  generalize (2 `min` (16 `min` (z - (16 * k - length (concat es))) - 0))%nat. induction n as [|n IH]; cbn; [done|]. by rewrite IH.
Qed.

Lemma dir_from_first n : forall k c nm j, (k <= j < k + n)%nat -> dent_inum c j <> 0 -> dent_name c j = nm ->
  (forall i, (k <= i < j)%nat -> dent_inum c i = 0 \/ dent_name c i <> nm) -> dir_from n k c nm = Some j.
Proof.
  induction n as [|n IH]; intros k c nm j Hj Hi Hn Hb; [lia|]. cbn [dir_from]. destruct (decide (k = j)) as [->|Hne].
  - rewrite (proj2 (Z.eqb_neq _ _) Hi), bool_decide_true by done. done.
  - destruct (negb _ && _) eqn:E; [|apply IH; try done; [lia|intros i Hi'; apply Hb; lia]].
    apply andb_true_iff in E as [E1 E2%bool_decide_eq_true]. destruct (Hb k ltac:(lia)); [lia|done].
Qed.

(** * The tree *)

Lemma with_files_eq h args : forall root fl,
  with_files h root fl args = (root ++ imap (fun k a => entry (num (S (length fl + k))) (skip_underscore a)) args,
    fl ++ ((fun a => (T_FILE, input h a)) <$> args)).
Proof.
  induction args as [|a args IH]; intros root fl; cbn [with_files]; [by rewrite !app_nil_r|].
  rewrite IH, <- !app_assoc, imap_cons, fmap_cons. cbn [app]. rewrite Nat.add_0_r. f_equal. do 2 f_equal. apply imap_ext.
  intros k b _. unfold compose. rewrite length_app. cbn [length]. do 3 f_equal. lia.
Qed.

(** The entries of the root directory, the special ones included. *)
Definition names (args : list bytes) : list (Z * bytes) :=
  (1, dot) :: (1, dotdot) :: imap (fun k a => (2 + Z.of_nat k, skip_underscore a)) args.

Lemma all_root h args : (all_files h args).1 = (fun x => entry x.1 x.2) <$> names args.
Proof.
  unfold all_files, names. rewrite with_files_eq, !fmap_cons, fmap_imap. cbn [fst app]. do 2 f_equal. apply imap_ext.
  intros k a _. unfold compose. cbn [fst snd length]. f_equal. unfold num. lia.
Qed.

Section Built.
  Context (h : host) (args : list bytes) (f : Z -> bytes) (n : Z).
  Context (B : built f (all_files h args).1 (all_files h args).2 n) (Ha : Forall (arg_ok h) args) (Hn : (length args <= 198)%nat).

Lemma names_lookup k x : names args !! k = Some x ->
  1 <= x.1 <= 1 + Z.of_nat (length args) /\ no_nul x.2 /\ Forall byte_ok x.2.
Proof.
  destruct k as [|[|k]]; cbn; [intros [= <-]|intros [= <-]|].
  - cbn. split_and!; [lia|lia|repeat constructor; lia|repeat constructor; unfold byte_ok; lia].
  - cbn. split_and!; [lia|lia|repeat constructor; lia|repeat constructor; unfold byte_ok; lia].
  - change (imap (fun k a => (2 + Z.of_nat k, skip_underscore a)) args !! k = Some x -> 1 <= x.1 <= 1 + Z.of_nat (length args) /\ no_nul x.2 /\ Forall byte_ok x.2).
    rewrite list_lookup_imap. destruct (args !! k) as [a|] eqn:Ek; [|done]. cbn. intros [= <-]. cbn.
    pose proof (lookup_lt_Some _ _ _ Ek). pose proof (proj1 (Forall_lookup _ _) Ha k a Ek) as [].
    split_and!; [lia|lia|by apply skip_bytes|by apply skip_bytes].
Qed.

Lemma names_length : length (names args) = (2 + length args)%nat.
Proof. unfold names. cbn. by rewrite length_imap. Qed.

Lemma root_dent k x : names args !! k = Some x ->
  dent_inum (contents f (dinode_at f sb 1)) k = x.1 /\ dent_name (contents f (dinode_at f sb 1)) k = take 14 x.2.
Proof.
  intros Hk. destruct (names_lookup k x Hk) as (Hr & Hnn & _). destruct (bt_entries _ _ _ _ B) as [z Ez]. rewrite Ez, all_root.
  unfold dent_inum, dent_name. rewrite (dent_concat _ _ k (entry x.1 x.2)).
  - split; [apply entry_inum; lia|by apply entry_name_of].
  - apply Forall_fmap, Forall_true. intros y. apply length_entry.
  - by rewrite list_lookup_fmap, Hk.
Qed.

Lemma root_dent_end k : (length (names args) <= k)%nat -> dent_inum (contents f (dinode_at f sb 1)) k = 0.
Proof.
  intros Hk. destruct (bt_entries _ _ _ _ B) as [z Ez]. rewrite Ez, all_root. apply dent_zeros; [|by rewrite length_fmap].
  apply Forall_fmap, Forall_true. intros y. apply length_entry.
Qed.

Lemma root_meta : dinode_at f sb 1 = mkdinode T_DIR 0 0 1 493
  ((16 * Z.of_nat (2 + length args) / BSIZE + 1) * BSIZE) (d_addrs (dinode_at f sb 1)).
Proof.
  pose proof (bt_meta _ _ _ _ B) as Hm. cbv zeta in Hm. rewrite root_length in Hm. rewrite Hm at 1. do 4 f_equal. lia.
Qed.

(** The first entry with the name. *)
Lemma root_child k x : names args !! k = Some x ->
  (forall i y, (i < k)%nat -> names args !! i = Some y -> take 14 y.2 <> take 14 x.2) -> child f sb 1 x.2 = Some x.1.
Proof.
  intros Hk Hfirst. unfold child, is_dir. rewrite root_meta. change (d_type _ =? T_DIR) with true. cbv iota. rewrite <- root_meta.
  destruct (root_dent k x Hk) as [E1 E2]. destruct (names_lookup k x Hk) as (Hr & _ & _).
  pose proof (lookup_lt_Some _ _ _ Hk) as Hlt. rewrite names_length in Hlt.
  unfold dir_find. rewrite (dir_from_first _ _ _ _ k); [by rewrite E1| |lia|done|].
  - rewrite contents_length, root_meta. cbn [d_size]. split; [lia|]. unfold BSIZE. clear - Hlt.
    apply Nat.le_lt_trans with (m := Z.to_nat (Z.of_nat k)); [lia|]. rewrite Nat2Z.id. apply Nat2Z.inj_lt.
    rewrite Nat.add_0_l, Nat2Z.inj_div. change (Z.of_nat 16) with 16. divmod.
  - intros i Hi. destruct (lookup_lt_is_Some_2 (names args) i) as [y Ey]; [rewrite names_length; lia|].
    right. destruct (root_dent i y Ey) as [_ ->]. by apply (Hfirst i y); [lia|].
Qed.

(** The inode of argument [k]. *)
Lemma file_inode k a : args !! k = Some a -> holds f (2 + Z.of_nat k) T_FILE (input h a).
Proof.
  intros Hk. replace (2 + Z.of_nat k) with (num (S k)) by (unfold num; lia). apply (bt_files _ _ _ _ B).
  unfold all_files. rewrite with_files_eq. cbn [snd app]. by rewrite list_lookup_fmap, Hk.
Qed.

Lemma inodes_used j : allocated f sb j -> j = 1 \/ exists k a, args !! k = Some a /\ j = 2 + Z.of_nat k.
Proof.
  intros [Hj Ht]. destruct (decide (j = 1)) as [->|Hne]; [by left|]. right.
  destruct (decide (2 <= j < 2 + Z.of_nat (length args))) as [Hin|Hout].
  - destruct (lookup_lt_is_Some_2 args (Z.to_nat (j - 2))) as [a Ea]; [lia|]. exists (Z.to_nat (j - 2)), a. split; [done|lia].
  - contradict Ht. rewrite (bt_rest _ _ _ _ B j Hj); [done|]. unfold all_files. rewrite with_files_eq. cbn [snd app].
    rewrite length_fmap. unfold inum_ok, num in *. lia.
Qed.

Lemma inodes_linked j : 1 <= j <= 1 + Z.of_nat (length args) -> linked f sb j.
Proof.
  intros Hj. assert (Hok : inum_ok sb j) by (unfold inum_ok; change (sb_ninodes sb) with 200; lia).
  destruct (decide (j = 1)) as [->|Hne]; [split; [split; [done|]|]; by rewrite root_meta|].
  destruct (lookup_lt_is_Some_2 args (Z.to_nat (j - 2))) as [a Ea]; [lia|].
  pose proof (file_inode _ _ Ea) as Hf. replace (2 + Z.of_nat (Z.to_nat (j - 2))) with j in Hf by lia.
  split; [split; [done|]|]; by rewrite (ho_meta _ _ _ _ Hf).
Qed.

Lemma built_tree : fs_ok f sb.
Proof.
  constructor.
  - intros j [Hj _]. pose proof (iblock_range _ Hj) as Hr. apply (bt_bytes _ _ _ _ B).
    + change (sb_inodestart sb) with 32. unfold FSSIZE. lia.
    + change (sb_bmapstart sb) with 58. lia.
  - intros j [->|(k & a & Hk & ->)]%inodes_used _; [apply (bt_root _ _ _ _ B)|apply (ho_file _ _ _ _ (file_inode k a Hk))].
  - intros j [->|(k & a & Hk & ->)]%inodes_used Hd.
    2: { unfold is_dir in Hd. by rewrite (ho_meta _ _ _ _ (file_inode k a Hk)) in Hd. }
    split_and!.
    + rewrite root_meta. cbn [d_size]. unfold BSIZE. clear. divmod.
    + destruct (bt_entries _ _ _ _ B) as [z ->]. apply Forall_app_2; [|apply Forall_replicate; unfold byte_ok; lia].
      rewrite all_root. apply Forall_concat, Forall_fmap, Forall_lookup. intros k x Hk. apply byte_entry.
      by apply (names_lookup k x Hk).
    + intros k Hk e He. unfold e in *. destruct (decide (k < length (names args))%nat) as [Hlt|Hge].
      * destruct (lookup_lt_is_Some_2 (names args) k Hlt) as [x Ex]. destruct (root_dent k x Ex) as [E1 _]. rewrite E1.
        apply inodes_linked. by apply (names_lookup k x Ex).
      * contradict He. apply root_dent_end. lia.
Qed.
End Built.

(** The blocks in front of the inodes do not matter for the tree. *)
Lemma built_ext f g root fl n : (forall b, sb_inodestart sb <= b < FSSIZE -> g b = f b) -> num (S (length fl)) <= NINODES ->
  built f root fl n -> built g root fl n.
Proof.
  intros Hg Hn [B1 B2 B3 B4 B5 B6 B7 B8]. change (sb_inodestart sb) with 32 in *. unfold FSSIZE in *.
  assert (Hd : forall j, inum_ok sb j -> dinode_at g sb j = dinode_at f sb j).
  { intros j Hj. pose proof (iblock_range _ Hj). unfold dinode_at. by rewrite Hg by lia. }
  assert (H1 : inum_ok sb 1) by (unfold inum_ok; change (sb_ninodes sb) with 200; lia).
  assert (Hm : forall y, marked g sb y = marked f sb y).
  { intros y. unfold marked. rewrite Hg; [done|]. change (sb_bmapstart sb) with 58. lia. }
  assert (Hu : forall d y, file_ok f sb d -> uses f d y -> g y = f y).
  { intros d y F [Hy _]%(fo_used _ _ _ F). change (sb_bmapstart sb) with 58 in Hy. change (sb_size sb) with 1000 in Hy. apply Hg. lia. }
  destruct (file_agree sb f g _ bmap_nonneg B3) as (A1 & A2 & A3); [intros y _; by rewrite Hm|intros y; exact (Hu _ y B3)|].
  assert (Hf : forall k t c, fl !! k = Some (t, c) -> holds g (num (S k)) t c /\
    forall b, uses g (dinode_at g sb (num (S k))) b -> uses f (dinode_at f sb (num (S k))) b).
  { intros k t c Hk. pose proof (lookup_lt_Some _ _ _ Hk). pose proof (B5 k t c Hk) as Hh.
    apply holds_frame; [intros y _; by rewrite Hm|intros y; exact (Hu _ y (ho_file _ _ _ _ Hh))|apply Hd, (num_ok _ (S (length fl))); [lia|done]|done]. }
  assert (Hus : forall k b, (k <= length fl)%nat -> uses g (dinode_at g sb (num k)) b -> uses f (dinode_at f sb (num k)) b).
  { intros [|k] b Hk; [change (num 0) with 1; rewrite Hd by done; apply A3|].
    destruct (lookup_lt_is_Some_2 fl k ltac:(lia)) as [[t c] Ekk]. by apply (Hf k t c Ekk). }
  constructor.
  - intros b Hb Hne. change (sb_inodestart sb) with 32 in Hb. unfold FSSIZE in Hb. rewrite Hg by lia. by apply B1.
  - rewrite Hd by done. exact B2.
  - rewrite Hd by done. exact A1.
  - rewrite Hd, A2 by done. exact B4.
  - intros k t c Hk. by apply Hf.
  - intros j k b Hj Hk Hne U1 U2. apply (B6 j k b); try done; by apply Hus.
  - intros j Hj Hr. rewrite Hd by done. by apply B7.
  - intros b Hb. rewrite Hm. by apply B8.
Qed.

(** * Booting from the image *)

(** The image on the disk of the machine. *)
Definition place (k : nat) : Z * Z := (ROOTDEV, Z.of_nat k).
Definition disk_of (img : list bytes) : diskmap := kmap place (map_seq 0 img : gmap nat bytes).

#[local] Instance place_inj : Inj (=) (=) place.
Proof. intros a b [= E]. lia. Qed.

Lemma disk_of_sector img b : 0 <= b -> sectors (disk_of img) b = default zero_block (img !! Z.to_nat b).
Proof.
  intros Hb. unfold sectors, sector, disk_of. replace (ROOTDEV, b) with (place (Z.to_nat b)) by (unfold place; f_equal; lia).
  by rewrite (lookup_kmap place), lookup_map_seq_0.
Qed.

Lemma image_recoverable img : Forall (fun b => length b = 512%nat) img ->
  img !! 1%nat = Some (splice zero_block 0 (sb_bytes sb)) -> img !! 2%nat = Some zero_block -> recoverable (disk_of img) 2 30 [].
Proof.
  intros Hl E1 E2. assert (S1 : sectors (disk_of img) 1 = splice zero_block 0 (sb_bytes sb)) by (rewrite disk_of_sector by done; change (Z.to_nat 1) with 1%nat; by rewrite E1).
  assert (S2 : sectors (disk_of img) 2 = zero_block) by (rewrite disk_of_sector by done; change (Z.to_nat 2) with 2%nat; by rewrite E2).
  split; [|done|split; [by apply home_dec|by apply not_elem_of_nil]]. constructor; rewrite ?S1, ?S2; try (vm_compute; (done || reflexivity)).
  - intros k v (i & -> & Hi)%lookup_kmap_Some; [|apply _]. rewrite lookup_map_seq_0 in Hi.
    exact (proj1 (Forall_lookup _ _) Hl i v Hi).
  - constructor.
  - intros b Hb. by apply not_elem_of_nil in Hb.
Qed.

Lemma image_boots me img : recoverable (disk_of img) 2 30 [] ->
  exists r, initlog ROOTDEV (boot me (disk_of img)) = Ok (tt, r) /\ log_idle r /\
    forall b, home 2 30 b -> view (l_bio r) b = sectors (disk_of img) b.
Proof.
  intros R. destruct (recovery_run _ _ _ _ R me) as (r & bl & E & I & Hn & Hv & _).
  destruct (initlog_spec me _ 2 30 [] (rc_ok _ _ _ _ R)) as (b' & bl' & E' & _ & _). rewrite E in E'. injection E' as ->.
  eexists. split; [exact E|]. split; [by constructor|]. intros b Hb. rewrite Hv by done. apply logical_idle.
  pose proof (do_n _ _ _ _ (rc_ok _ _ _ _ R)) as H0. pose proof (do_blocks _ _ _ _ (rc_ok _ _ _ _ R)) as Hbl.
  apply (f_equal length) in Hbl. unfold hd_blocks in Hbl. rewrite length_fmap, length_seq in Hbl. cbn in Hbl. lia.
Qed.

(** The files of the arguments in the tree of the disk [f]. *)
Record image_tree (h : host) (args : list bytes) (f : Z -> bytes) : Prop := {
  it_super : decode_sb (f 1) = sb_fs;
  it_tree : fs_ok f sb_fs;
  it_marks : forall b, 0 <= b < FSSIZE -> marked f sb_fs b = (b <? used h args);
  it_inodes : forall j, allocated f sb_fs j <-> 1 <= j <= 1 + Z.of_nat (length args);
  it_apart : forall i j b, allocated f sb_fs i -> allocated f sb_fs j -> i <> j ->
    uses f (dinode_at f sb_fs i) b -> ~ uses f (dinode_at f sb_fs j) b;
  it_files : forall k a, args !! k = Some a -> let d := dinode_at f sb_fs (2 + Z.of_nat k) in
    d_type d = T_FILE /\ d_nlink d = 1 /\ d_mode d = 493 /\ contents f d = input h a;
  it_names : forall k x, names args !! k = Some x ->
    (forall i y, (i < k)%nat -> names args !! i = Some y -> take 14 y.2 <> take 14 x.2) ->
    resolve f sb_fs ROOTINO [x.2] = Some x.1
}.

Lemma built_image_tree h args f : f 1 = splice zero_block 0 (sb_bytes sb) ->
  built f (all_files h args).1 (all_files h args).2 (used h args) -> Forall (arg_ok h) args -> (length args <= 198)%nat ->
  image_tree h args f.
Proof.
  intros H1 B Ha Hn. change sb_fs with sb. pose proof (inodes_linked h args f _ B Hn) as Hl.
  assert (Hin : forall j, allocated f sb j <-> 1 <= j <= 1 + Z.of_nat (length args)).
  { intros j. split; [|intros Hj; apply Hl; lia]. intros [->|(k & a & Hk & ->)]%(inodes_used h args f _ B Hn); [lia|].
    pose proof (lookup_lt_Some _ _ _ Hk). lia. }
  constructor.
  - rewrite H1. vm_compute. reflexivity.
  - by apply (built_tree h args f (used h args)).
  - apply (bt_marks _ _ _ _ B).
  - exact Hin.
  - intros i j b Hi%Hin Hj%Hin Hne. pose proof (bt_apart _ _ _ _ B (Z.to_nat (i - 1)) (Z.to_nat (j - 1)) b) as Hap.
    unfold all_files in Hap. rewrite with_files_eq in Hap. cbn [snd app] in Hap. rewrite length_fmap in Hap. unfold num in Hap.
    replace (1 + Z.of_nat (Z.to_nat (i - 1))) with i in Hap by lia. replace (1 + Z.of_nat (Z.to_nat (j - 1))) with j in Hap by lia.
    apply Hap; lia.
  - intros k a Hk d. change sb_fs with sb in d. pose proof (file_inode h args f _ B Hn k a Hk) as Hf. pose proof (ho_contents _ _ _ _ Hf) as Hc. fold d in Hc.
    pose proof (ho_meta _ _ _ _ Hf) as Hm. fold d in Hm. split_and!; [by rewrite Hm..|done].
  - intros k x Hk Hfirst. cbn [resolve]. change ROOTINO with 1. change sb_fs with sb. by rewrite (root_child h args f _ B Ha Hn k x Hk Hfirst).
Qed.

(** C3. The image of mkfs is one that the kernel boots from.  On a host that can write the
    image, for files that fit ([fits], at most 198 of them, and not so many that the root
    directory fills its blocks exactly), main succeeds; with the image as its disk the kernel
    recovers a log with nothing in it, and what it then reads has the super block of
    the layout and a tree ([fs_ok]): every file's blocks are its own, marked in use, inside the
    data area, and no two files share one; the bit map marks exactly the blocks handed out; the
    inodes in use are the root directory and one per argument, a file with one link, mode 0755 and
    the bytes of the input; "." and ".." lead to the root, and the name of an argument, without its
    leading '_', to its file, unless an earlier entry has the same first 14 characters. *)
Theorem mkfs_correct h img args me : h_create h img = true -> (forall b, 0 <= b < FSSIZE -> h_write h b = true) ->
  Forall (arg_plain h) args -> fits h args = true -> (length args <= 198)%nat -> Z.of_nat (2 + length args) mod 32 <> 0 ->
  exists s r, main h (img :: args) mkfs0 = Ok (tt, s) /\ length (m_img s) = Z.to_nat FSSIZE /\
    initlog ROOTDEV (boot me (disk_of (m_img s))) = Ok (tt, r) /\ log_idle r /\ image_tree h args (view (l_bio r)).
Proof.
  intros Hc Hh Hp Hf Hn Hm. unfold fits in Hf. apply andb_true_iff in Hf as [Hf Hu].
  pose proof (args_ok_intro h args Hp Hf) as Ha.
  destruct (main_spec h Hh img args Hc Ha Hn ltac:(lia)) as (s & f & E & _ & Hl & Hi & Hsz & H1 & H2 & B). specialize (B Hm).
  destruct (image_boots me (m_img s)) as (r & Er & Hid & Hv).
  { apply image_recoverable.
    - apply Forall_lookup. intros k b Hk. pose proof (lookup_lt_Some _ _ _ Hk) as Hk'. rewrite Hl in Hk'.
      pose proof (Hi (Z.of_nat k) ltac:(lia)) as E'. rewrite Nat2Z.id, Hk in E'. injection E' as ->. apply Hsz.
    - rewrite <- H1. by apply (Hi 1).
    - rewrite <- H2. by apply (Hi 2). }
  exists s, r. split_and!; try done.
  assert (Hg : forall b, home 2 30 b -> view (l_bio r) b = f b).
  { intros b Hb. rewrite Hv by done. destruct Hb as [Hb _]. rewrite disk_of_sector by lia. by rewrite (Hi b Hb). }
  apply built_image_tree; [|apply (built_ext f); [| |exact B]|exact Ha|exact Hn].
  - rewrite Hg by (by apply home_dec). exact H1.
  - intros b Hb. apply Hg. change (sb_inodestart sb) with 32 in Hb. unfold home. lia.
  - unfold all_files. rewrite with_files_eq. cbn [snd app]. rewrite length_fmap. unfold num, NINODES. lia.
Qed.

Lemma mkfs_correct_witness : exists s r, main demo_host [[]; [95; 97]] mkfs0 = Ok (tt, s) /\
  initlog ROOTDEV (boot 1 (disk_of (m_img s))) = Ok (tt, r) /\ log_idle r /\
  resolve (view (l_bio r)) sb_fs ROOTINO [[97]] = Some 2 /\
  contents (view (l_bio r)) (dinode_at (view (l_bio r)) sb_fs 2) = [1; 2; 3].
Proof.
  destruct (mkfs_correct demo_host [] [[95; 97]] 1) as (s & r & E & _ & Er & Hid & [_ _ _ _ _ Hf Hnm]);
    [reflexivity|intros b _; reflexivity|exact demo_plain|vm_compute; reflexivity|cbn; lia|vm_compute; discriminate|].
  exists s, r. split; [exact E|]. split; [exact Er|]. split; [exact Hid|]. split.
  - apply (Hnm 2%nat (2, [97]) eq_refl). intros [|[|i]] y Hi; [intros [= <-]; discriminate|intros [= <-]; discriminate|lia].
  - apply (Hf 0%nat [95; 97] eq_refl).
Defined.
