(* ===== verification/Boot.v ===== *)
(** The boot loader (bootmain.c): it reads the kernel's ELF image from the disk, from sector 1
    on, into physical memory and calls its entry point.  The drive is behind a class of port
    operations, with the laws of a sector read by programmed I/O. *)

From S2P Require Import Prelude Mem Elf.
Local Open Scope Z_scope.

Definition SECTSIZE : Z := 512.

(** * Ports (x86.h) *)

Class Ports (D : Type) := {
  inb : Z -> D -> Z * D;
  outb : Z -> Z -> D -> D;
  insl : Z -> nat -> D -> bytes * D
}.

Record loader (D : Type) := mkloader { b_mem : mem; b_dev : D }.
Arguments mkloader {D}.
Arguments b_mem {D}.
Arguments b_dev {D}.

Section Boot.
  Context {D : Type} `{Ports D} (polls : nat).
Abbreviation lo := (loader D).

Definition put_bmem (m : mem) (s : lo) : lo := mkloader m (b_dev s).
Definition put_bdev (d : D) (s : lo) : lo := mkloader (b_mem s) d.
Definition out (port v : Z) : M lo unit := modify (fun s => put_bdev (outb port (u8 v) (b_dev s)) s).

(** The wait for the drive, of at most [polls] looks at its status. *)
Fixpoint waitdisk (n : nat) : M lo unit :=
  let! d := gets b_dev in
  let (status, d') := inb 503 d in
  do! modify (put_bdev d') in
  if negb (Z.land status 192 =? 64) then
    match n with
    | O => undefined
    | S n' => waitdisk n'
    end
  else ret tt.

Definition readsect (dst offset : Z) : M lo unit :=
  do! waitdisk polls in
  do! out 498 1 in
  do! out 499 offset in
  do! out 500 (Z.shiftr offset 8) in
  do! out 501 (Z.shiftr offset 16) in
  do! out 502 (Z.lor (Z.shiftr offset 24) 224) in
  do! out 503 32 in
  do! waitdisk polls in
  let! d := gets b_dev in
  let (w, d') := insl 496 (Z.to_nat (SECTSIZE / 4)) d in
  do! modify (put_bdev d') in
  modify (fun s => put_bmem (mwrite (b_mem s) dst w) s).

(** The loop of [readseg]. *)
Fixpoint readseg_loop (fuel : nat) (pa epa offset : Z) : M lo unit :=
  if pa <? epa then
    match fuel with
    | O => undefined
    | S fuel' => do! readsect pa offset in readseg_loop fuel' (u32 (pa + SECTSIZE)) epa (u32 (offset + 1))
    end
  else ret tt.

Definition readseg (pa count offset : Z) : M lo unit :=
  let epa := u32 (pa + count) in
  let pa := u32 (pa - offset mod SECTSIZE) in
  let offset := offset / SECTSIZE + 1 in
  readseg_loop (Z.to_nat (epa / SECTSIZE + 1)) pa epa offset.

Definition ELFSPACE : Z := 65536.

(** The loop over the program headers from [ph] on. *)
Fixpoint boot_segments (fuel : nat) (ph eph : Z) : M lo unit :=
  if ph <? eph then
    match fuel with
    | O => undefined
    | S fuel' =>
        let! m := gets b_mem in
        let h := mread m ph (Z.to_nat SIZEOF_PROGHDR) in
        let pa := ph_paddr h in
        do! readseg pa (ph_filesz h) (ph_off h) in
        do! when (ph_memsz h >? ph_filesz h)
          (modify (fun s => put_bmem (stosb (b_mem s) (u32 (pa + ph_filesz h)) 0 (Z.to_nat (ph_memsz h - ph_filesz h))) s)) in
        boot_segments fuel' (u32 (ph + SIZEOF_PROGHDR)) eph
    end
  else ret tt.

(** [Some] entry point that is called, or [None] for a return. *)
Definition bootmain : M lo (option Z) :=
  do! readseg ELFSPACE 4096 0 in
  let! m := gets b_mem in
  let elf := mread m ELFSPACE (Z.to_nat SIZEOF_ELFHDR) in
  if negb (elf_magic elf =? ELF_MAGIC) then ret None else
  let ph := u32 (ELFSPACE + elf_phoff elf) in
  let eph := u32 (ph + SIZEOF_PROGHDR * elf_phnum elf) in
  do! boot_segments (Z.to_nat (elf_phnum elf)) ph eph in
  let! m := gets b_mem in
  ret (Some (elf_entry (mread m ELFSPACE (Z.to_nat SIZEOF_ELFHDR)))).
End Boot.

(** * The drive *)

(** The status after at most [n + 1] looks. *)
Fixpoint await {D} `{Ports D} (n : nat) (d : D) : option D :=
  let (status, d') := inb 503 d in
  if negb (Z.land status 192 =? 64) then
    match n with
    | O => None
    | S n' => await n' d'
    end
  else Some d'.

(** The registers of a read of one sector, and the command. *)
Definition command {D} `{Ports D} (lba : Z) (d : D) : D :=
  outb 503 32 (outb 502 (u8 (Z.lor (Z.shiftr lba 24) 224)) (outb 501 (u8 (Z.shiftr lba 16))
    (outb 500 (u8 (Z.shiftr lba 8)) (outb 499 (u8 lba) (outb 498 1 d))))).

(** An ATA drive with the sectors [disk], of which at most the first 2^28 can be addressed: it
    gets ready within [polls] looks, and a command to read a sector gives its bytes. *)
Class Drive (D : Type) `{Ports D} (polls : nat) (disk : Z -> bytes) := {
  idle : D -> Prop;
  steady : D -> Prop;
  drive_sector : forall s, length (disk s) = Z.to_nat SECTSIZE;
  drive_bytes : forall s, Forall byte_ok (disk s);
  drive_wait : forall d, idle d -> exists d', await polls d = Some d' /\ steady d';
  drive_read : forall d lba, steady d -> 0 <= lba < 268435456 ->
    exists d1 d2, await polls (command lba d) = Some d1 /\ insl 496 (Z.to_nat (SECTSIZE / 4)) d1 = (disk lba, d2) /\ idle d2
}.

(** * What is loaded *)

(** Byte [k] of the kernel's image, which starts at sector 1. *)
Definition kbyte (disk : Z -> bytes) (k : Z) : Z := disk (k / SECTSIZE + 1) !!! Z.to_nat (k mod SECTSIZE).
Definition kbytes (disk : Z -> bytes) (k : Z) (n : nat) : bytes := (fun i => kbyte disk (k + Z.of_nat i)) <$> seq 0 n.

(** What [readseg] writes: whole sectors around the bytes asked for. *)
Definition seg_lo (pa offset : Z) : Z := pa - offset mod SECTSIZE.
Definition seg_hi (pa count offset : Z) : Z :=
  seg_lo pa offset + (offset mod SECTSIZE + count + (SECTSIZE - 1)) / SECTSIZE * SECTSIZE.

(** Segments that fit the memory and the disk. *)
Definition seg_fits (pa count offset : Z) : Prop :=
  0 <= offset /\ 0 <= count /\ offset mod SECTSIZE <= pa /\ pa + count + SECTSIZE <= 4294967296 /\
  offset + count < 268435000 * SECTSIZE.

Section Load.
  Context {D : Type} `{Drive D polls disk}.

Lemma waitdisk_await n : forall s d', await n (b_dev s) = Some d' -> waitdisk n s = Ok (tt, put_bdev d' s).
Proof.
  induction n as [|n IH]; intros s d' E; cbn [waitdisk await] in *; unfold bind, gets, modify, ret in *;
    destruct (inb 503 (b_dev s)) as [st d1]; destruct (negb _); try done; try (injection E as ->; done).
  rewrite (IH (put_bdev d1 s) d') by done. done.
Qed.

Lemma readsect_spec s dst sec : idle (b_dev s) -> 0 <= sec < 268435456 ->
  exists d', readsect polls dst sec s = Ok (tt, mkloader (mwrite (b_mem s) dst (disk sec)) d') /\ idle d'.
Proof.
  intros Hi Hs. destruct (drive_wait _ Hi) as (d0 & E0 & S0). destruct (drive_read _ _ S0 Hs) as (d1 & d2 & E1 & E2 & I2).
  exists d2. split; [|done]. unfold readsect. mstep (waitdisk_await _ _ _ E0).
  unfold out, modify. unfold bind at 1 2 3 4 5 6. cbn [b_dev put_bdev b_mem].
  change (u8 1) with 1. change (u8 32) with 32.
  mstep (waitdisk_await polls (mkloader (b_mem s) (command sec d0)) d1 E1). unfold gets, bind at 1. cbn [b_dev put_bdev].
  rewrite E2. done.
Qed.

Lemma sectors_byte pa x k : 0 <= k -> pa <= x < pa + SECTSIZE -> disk (k + 1) !!! Z.to_nat (x - pa) = kbyte disk (k * SECTSIZE + (x - pa)).
Proof.
  intros Hk Hx. unfold kbyte, SECTSIZE in *. replace ((k * 512 + (x - pa)) / 512) with k by divmod.
  replace ((k * 512 + (x - pa)) mod 512) with (x - pa) by divmod. done.
Qed.

(** [n] sectors from [sec] on. *)
Lemma readseg_loop_spec n : forall fuel s pa epa sec, idle (b_dev s) -> (n <= fuel)%nat -> 0 <= pa ->
  Z.of_nat n = (epa - pa + (SECTSIZE - 1)) / SECTSIZE -> epa + SECTSIZE <= 4294967296 -> pa <= epa -> 0 <= sec ->
  sec + Z.of_nat n < 268435456 ->
  exists s', readseg_loop polls fuel pa epa (sec + 1) s = Ok (tt, s') /\ idle (b_dev s') /\
    forall x, mget (b_mem s') x = if decide (pa <= x < pa + Z.of_nat n * SECTSIZE) then kbyte disk (sec * SECTSIZE + (x - pa)) else mget (b_mem s) x.
Proof.
  induction n as [|n IH]; intros fuel s pa epa sec Hi Hf Hp En He Hpe Hs Hd.
  - assert (epa <= pa) by (unfold SECTSIZE in *; divmod). exists s. split; [|split; [done|]].
    + destruct fuel; cbn [readseg_loop]; by replace (pa <? epa) with false by lia.
    + intros x. by rewrite decide_False by lia.
  - assert (Hlt : pa < epa) by (unfold SECTSIZE in *; divmod). destruct fuel as [|fuel]; [lia|]. cbn [readseg_loop].
    replace (pa <? epa) with true by lia. destruct (readsect_spec s pa (sec + 1) Hi ltac:(lia)) as (d1 & E1 & I1). mstep E1.
    set (s1 := mkloader (mwrite (b_mem s) pa (disk (sec + 1))) d1) in *.
    destruct (decide (pa + SECTSIZE <= epa)) as [Hle|Hgt].
    + destruct (IH fuel s1 (pa + SECTSIZE) epa (sec + 1) I1) as (s' & E & I' & Hm); try (unfold SECTSIZE in *; lia).
      { unfold SECTSIZE in *. clear - En. divmod. }
      exists s'. rewrite !u32_small by (unfold SECTSIZE in *; lia). split; [done|]. split; [done|].
      intros x. rewrite Hm. cbn [b_mem s1]. rewrite mget_mwrite, drive_sector.
      unfold SECTSIZE in *. repeat case_decide; try lia; [f_equal; lia|apply sectors_byte; unfold SECTSIZE; lia].
    + assert (n = 0%nat) as -> by (unfold SECTSIZE in *; clear - En Hgt Hlt; divmod). exists s1. split; [|split; [done|]].
      * rewrite !u32_small by (unfold SECTSIZE in *; lia). destruct fuel; cbn [readseg_loop]; by replace (_ <? epa) with false by lia.
      * intros x. cbn [b_mem s1]. rewrite mget_mwrite, drive_sector. unfold SECTSIZE in *.
        repeat case_decide; try lia. apply sectors_byte; unfold SECTSIZE; lia.
Qed.

Lemma readseg_spec s pa count offset : idle (b_dev s) -> seg_fits pa count offset ->
  exists s', readseg polls pa count offset s = Ok (tt, s') /\ idle (b_dev s') /\
    forall x, mget (b_mem s') x =
      if decide (seg_lo pa offset <= x < seg_hi pa count offset) then kbyte disk (offset + (x - pa)) else mget (b_mem s) x.
Proof.
  intros Hi (Ho & Hc & Hp & Hm & Hd). unfold readseg, seg_hi, seg_lo. set (r := offset mod SECTSIZE) in *.
  assert (Hr : 0 <= r < 512 /\ offset = offset / SECTSIZE * SECTSIZE + r) by (unfold r, SECTSIZE; divmod).
  assert (Hq : 0 <= offset / SECTSIZE) by (unfold SECTSIZE; divmod).
  set (n := Z.to_nat ((r + count + (SECTSIZE - 1)) / SECTSIZE)).
  assert (Hn : Z.of_nat n = (r + count + (SECTSIZE - 1)) / SECTSIZE) by (unfold n, SECTSIZE in *; divmod).
  rewrite !u32_small by (unfold SECTSIZE in *; lia).
  destruct (readseg_loop_spec n (Z.to_nat ((pa + count) / SECTSIZE + 1)) s (pa - r) (pa + count) (offset / SECTSIZE) Hi)
    as (s' & E & I' & Hx); try (unfold SECTSIZE in *; lia).
  { unfold SECTSIZE in *. clear - Hn Hp Hr Hc. divmod. }
  { rewrite Hn. f_equal. lia. }
  { unfold SECTSIZE in *. clear - Hn Hr Hd Hc Ho. divmod. }
  exists s'. split; [done|]. split; [done|]. intros x. rewrite Hx, Hn. case_decide; [|done]. f_equal. lia.
Qed.

(** * The kernel *)

(** Program header [i] of the image, and what it says about the memory: the bytes of the
    segment are at [seg_at], those that loading writes at [seg_wrote]. *)
Definition kelf : bytes := kbytes disk 0 (Z.to_nat SIZEOF_ELFHDR).
Definition kph (i : nat) : bytes := kbytes disk (elf_phoff kelf + SIZEOF_PROGHDR * Z.of_nat i) (Z.to_nat SIZEOF_PROGHDR).
Definition seg_at (h : bytes) (x : Z) : Prop := ph_paddr h <= x < ph_paddr h + Z.max (ph_filesz h) (ph_memsz h).
Definition seg_wrote (h : bytes) (x : Z) : Prop :=
  seg_lo (ph_paddr h) (ph_off h) <= x < seg_hi (ph_paddr h) (ph_filesz h) (ph_off h) \/ seg_at h x.
Definition seg_byte (h : bytes) (x : Z) : Z :=
  if decide (x < ph_paddr h + ph_filesz h) then kbyte disk (ph_off h + (x - ph_paddr h)) else 0.

(** One segment. *)
Lemma segment_spec s h : idle (b_dev s) -> seg_fits (ph_paddr h) (ph_filesz h) (ph_off h) ->
  ph_paddr h + ph_memsz h <= 4294967296 ->
  exists s', (do! readseg polls (ph_paddr h) (ph_filesz h) (ph_off h) in
      when (ph_memsz h >? ph_filesz h)
        (modify (fun s => put_bmem (stosb (b_mem s) (u32 (ph_paddr h + ph_filesz h)) 0 (Z.to_nat (ph_memsz h - ph_filesz h))) s))) s = Ok (tt, s') /\
    idle (b_dev s') /\ (forall x, seg_at h x -> mget (b_mem s') x = seg_byte h x) /\
    forall x, ~ seg_wrote h x -> mget (b_mem s') x = mget (b_mem s) x.
Proof.
  intros Hi Hf Hm. destruct (readseg_spec s _ _ _ Hi Hf) as (s1 & E1 & I1 & Hx). mstep E1.
  destruct Hf as (Ho & Hc & Hp & Hpm & Hd). unfold seg_wrote, seg_at, seg_byte.
  assert (Hr : 0 <= ph_off h mod SECTSIZE) by (unfold SECTSIZE; divmod).
  assert (Hin : forall x, ph_paddr h <= x < ph_paddr h + ph_filesz h -> seg_lo (ph_paddr h) (ph_off h) <= x < seg_hi (ph_paddr h) (ph_filesz h) (ph_off h)).
  { intros x Hxx. unfold seg_hi, seg_lo, SECTSIZE in *. clear - Hxx Hr. divmod. }
  destruct (ph_memsz h >? ph_filesz h) eqn:Em; cbn [when].
  - eexists. split; [reflexivity|]. split; [done|]. cbn [b_mem put_bmem]. rewrite u32_small by (unfold SECTSIZE in *; lia).
    unfold stosb. split; intros x Hxx; rewrite mget_mwrite, length_replicate.
    + case_decide as H1.
      * rewrite decide_False by lia. rewrite lookup_total_replicate_2 by lia. done.
      * rewrite decide_True by lia. rewrite Hx, decide_True by (apply Hin; lia). done.
    + rewrite decide_False by lia. rewrite Hx, decide_False by tauto. done.
  - exists s1. split; [done|]. split; [done|]. split; intros x Hxx.
    + rewrite decide_True by lia. rewrite Hx, decide_True by (apply Hin; lia). done.
    + rewrite Hx, decide_False by tauto. done.
Qed.

(** The page with the headers. *)
Definition in_page (x : Z) : Prop := ELFSPACE <= x < ELFSPACE + 4096.
Definition page_ok (m : mem) : Prop := forall x, in_page x -> mget m x = kbyte disk (x - ELFSPACE).

Lemma page_read m k n : page_ok m -> 0 <= k -> k + Z.of_nat n <= 4096 -> mread m (ELFSPACE + k) n = kbytes disk k n.
Proof.
  intros Hm Hk Hn. unfold mread, kbytes. apply list_fmap_ext. intros i x Hx. apply lookup_seq in Hx as [-> Hi].
  rewrite Hm by (unfold in_page; lia). f_equal. lia.
Qed.

Lemma kbytes_ok k n : Forall byte_ok (kbytes disk k n).
Proof.
  unfold kbytes. apply Forall_fmap, Forall_true. intros i. unfold compose, kbyte.
  apply (proj1 (Forall_lookup_total _ _) (drive_bytes _)). rewrite drive_sector. unfold SECTSIZE. divmod.
Qed.

(** A kernel that the loader can load: the headers are in the first page of the image, the
    segments fit, do not touch that page, and no segment is overwritten by a later one. *)
Record kernel_ok : Prop := {
  ko_headers : elf_phoff kelf + SIZEOF_PROGHDR * elf_phnum kelf <= 4096;
  ko_fits : forall i, Z.of_nat i < elf_phnum kelf ->
    seg_fits (ph_paddr (kph i)) (ph_filesz (kph i)) (ph_off (kph i)) /\ ph_paddr (kph i) + ph_memsz (kph i) <= 4294967296;
  ko_page : forall i x, Z.of_nat i < elf_phnum kelf -> seg_wrote (kph i) x -> ~ in_page x;
  ko_apart : forall i j x, (i < j)%nat -> Z.of_nat j < elf_phnum kelf -> seg_at (kph i) x -> ~ seg_wrote (kph j) x
}.

Lemma boot_segments_spec n : forall i s, kernel_ok -> idle (b_dev s) -> page_ok (b_mem s) -> 0 <= elf_phoff kelf ->
  Z.of_nat (i + n) = elf_phnum kelf ->
  let ph := ELFSPACE + (elf_phoff kelf + SIZEOF_PROGHDR * Z.of_nat i) in
  exists s', boot_segments polls n ph (ELFSPACE + (elf_phoff kelf + SIZEOF_PROGHDR * elf_phnum kelf)) s = Ok (tt, s') /\
    idle (b_dev s') /\ page_ok (b_mem s') /\
    (forall j x, (i <= j < i + n)%nat -> seg_at (kph j) x -> mget (b_mem s') x = seg_byte (kph j) x) /\
    forall x, (forall j, (i <= j < i + n)%nat -> ~ seg_wrote (kph j) x) -> mget (b_mem s') x = mget (b_mem s) x.
Proof.
  induction n as [|n IH]; intros i s K Hi Hp Hz En ph; unfold SIZEOF_PROGHDR in *.
  { exists s. cbn [boot_segments]. replace (ph <? _) with false by (unfold ph; lia). split_and!; try done. lia. }
  pose proof (ko_headers K) as Hh. unfold SIZEOF_PROGHDR, ELFSPACE in *. cbn [boot_segments].
  replace (ph <? _) with true by (unfold ph; lia). unfold gets. unfold bind at 1. cbv zeta.
  assert (Er : mread (b_mem s) ph (Z.to_nat SIZEOF_PROGHDR) = kph i) by (apply page_read; [done|lia|unfold SIZEOF_PROGHDR; lia]).
  rewrite Er. destruct (ko_fits K i ltac:(lia)) as [Hf Hm]. destruct (segment_spec s (kph i) Hi Hf Hm) as (s1 & E1 & I1 & G1 & G2).
  assert (P1 : page_ok (b_mem s1)).
  { intros x Hx. rewrite G2; [by apply Hp|]. intros Hw. by apply (ko_page K i x); [lia| |]. }
  destruct (IH (S i) s1 K I1 P1 Hz ltac:(lia)) as (s' & E & I' & P' & G3 & G4). exists s'. split_and!; try done.
  - rewrite <- bind_assoc. mstep E1. unfold SIZEOF_PROGHDR. rewrite u32_small by (unfold ph; lia). replace (ph + 32) with (65536 + (elf_phoff kelf + 32 * Z.of_nat (S i))) by (unfold ph; lia). exact E.
  - intros j x Hj Hx. destruct (decide (j = i)) as [->|Hne]; [|apply G3; [lia|done]].
    rewrite G4; [by apply G1|]. intros k Hk Hw. by apply (ko_apart K i k x); [lia|lia| |].
  - intros x Hx. rewrite G4; [apply G2, Hx; lia|]. intros j Hj. apply Hx. lia.
Qed.
End Load.

(** C21. The boot loader loads the kernel.  With a drive that answers reads and an image
    with its headers in the first page, whose segments fit the memory and the disk, keep
    clear of the page at 0x10000 and are not touched by the sectors that later segments are read
    in: bootmain ends, every byte of every segment is the byte of the image up to the size in
    the file and zero from there to the size in memory, no byte outside the sectors read
    and that page is changed, and the entry point of the header is called.  If the image does not start
    with the magic number, it returns, with only the page changed. *)
Theorem bootmain_correct {D : Type} `{Drive D polls disk} (s : loader D) : idle (b_dev s) ->
  if elf_magic (kelf (disk := disk)) =? ELF_MAGIC then
    kernel_ok (disk := disk) -> exists s', bootmain polls s = Ok (Some (elf_entry (kelf (disk := disk))), s') /\
      (forall i x, Z.of_nat i < elf_phnum (kelf (disk := disk)) -> seg_at (kph (disk := disk) i) x ->
         mget (b_mem s') x = seg_byte (disk := disk) (kph (disk := disk) i) x) /\
      forall x, ~ in_page x -> (forall i, Z.of_nat i < elf_phnum (kelf (disk := disk)) -> ~ seg_wrote (kph (disk := disk) i) x) ->
        mget (b_mem s') x = mget (b_mem s) x
  else exists s', bootmain polls s = Ok (None, s') /\ forall x, ~ in_page x -> mget (b_mem s') x = mget (b_mem s) x.
Proof.
  intros Hi. destruct (readseg_spec (disk := disk) s ELFSPACE 4096 0 Hi) as (s1 & E1 & I1 & Hx); [unfold seg_fits; done|].
  change (seg_lo ELFSPACE 0) with ELFSPACE in Hx. change (seg_hi ELFSPACE 4096 0) with (ELFSPACE + 4096) in Hx.
  assert (P1 : page_ok (disk := disk) (b_mem s1)) by (intros x Hp; rewrite Hx, decide_True by done; done).
  assert (Eh : mread (b_mem s1) ELFSPACE (Z.to_nat SIZEOF_ELFHDR) = kelf (disk := disk)) by (apply (page_read (b_mem s1) 0); [done|done|done]).
  assert (Hz : 0 <= elf_phoff (kelf (disk := disk)) /\ 0 <= elf_phnum (kelf (disk := disk))).
  { split; [apply uint_at_range|apply ushort_at_range]. }
  destruct (_ =? ELF_MAGIC) eqn:Em.
  - intros K. pose proof (ko_headers K) as Hh. unfold SIZEOF_PROGHDR in Hh.
    destruct (boot_segments_spec (disk := disk) (Z.to_nat (elf_phnum (kelf (disk := disk)))) 0 s1 K I1 P1) as (s2 & E2 & I2 & P2 & G1 & G2);
      [apply Hz|lia|]. exists s2. split_and!.
    + unfold bootmain. mstep E1. unfold gets. unfold bind at 1. rewrite Eh, Em. cbn [negb]. cbv zeta.
      unfold SIZEOF_PROGHDR, ELFSPACE in *. rewrite !u32_small by lia. change (32 * Z.of_nat 0) with 0 in E2. rewrite Z.add_0_r in E2.
      rewrite <- Z.add_assoc. mstep E2. unfold ret, bind. do 3 f_equal. f_equal. apply (page_read (b_mem s2) 0); done.
    + intros i x Hlt. apply G1. lia.
    + intros x Hp Hw. rewrite G2 by (intros j Hj; apply Hw; lia). rewrite Hx, decide_False by done. done.
  - exists s1. split; [|intros x Hp; by rewrite Hx, decide_False].
    unfold bootmain. mstep E1. unfold gets. unfold bind at 1. rewrite Eh, Em. done.
Qed.

(** ** Witness: a drive that is busy for one look after each command *)

Record demo_drive := mkdemo { dd_busy : bool; dd_lba : Z * Z * Z * Z }.

Definition demo_header : bytes :=
  le_bytes 4 ELF_MAGIC ++ replicate 20 0 ++ le_bytes 4 1048588 ++ le_bytes 4 52 ++ replicate 12 0 ++ le_bytes 2 1 ++ replicate 6 0 ++
  (le_bytes 4 1 ++ le_bytes 4 4096 ++ le_bytes 4 2148532224 ++ le_bytes 4 1048576 ++ le_bytes 4 3 ++ le_bytes 4 5 ++ replicate 8 0).

(** The header in sector 1, three bytes of a segment in sector 9. *)
Definition demo_disk (s : Z) : bytes :=
  if s =? 1 then demo_header ++ replicate (512 - length demo_header) 0
  else if s =? 9 then [7; 8; 9] ++ replicate 509 1 else replicate 512 0.

#[local] Instance demo_ports : Ports demo_drive := {
  inb port d := if dd_busy d then (128, mkdemo false (dd_lba d)) else (64, d);
  outb port v d :=
    let '(a, b, c, e) := dd_lba d in
    if port =? 499 then mkdemo (dd_busy d) (v, b, c, e) else if port =? 500 then mkdemo (dd_busy d) (a, v, c, e)
    else if port =? 501 then mkdemo (dd_busy d) (a, b, v, e) else if port =? 502 then mkdemo (dd_busy d) (a, b, c, v)
    else if port =? 503 then mkdemo true (dd_lba d) else d;
  insl port n d := let '(a, b, c, e) := dd_lba d in (demo_disk (a + 256 * b + 65536 * c + 16777216 * (e mod 16)), d)
}.

Lemma demo_await d : await 1 d = Some (mkdemo false (dd_lba d)).
Proof. destruct d as [[] l]; reflexivity. Qed.

#[local] Instance demo_is_drive : Drive demo_drive 1 demo_disk.
Proof.
  refine {| idle := fun _ => True; steady := fun _ => True |}.
  - intros s. unfold demo_disk. destruct (s =? 1); [reflexivity|]. destruct (s =? 9); reflexivity.
  - intros s. unfold demo_disk. destruct (s =? 1); [|destruct (s =? 9)].
    + apply (bool_decide_unpack _). vm_compute. exact I.
    + apply Forall_app_2; [repeat constructor; lia|apply Forall_replicate; unfold byte_ok; lia].
    + apply Forall_replicate. unfold byte_ok. lia.
  - intros d _. rewrite demo_await. by eexists.
  - intros d lba _ Hl. rewrite demo_await. eexists _, _. split; [reflexivity|]. split; [|done].
    destruct d as [bz [[[a b] c] e]]. unfold command. cbn -[Z.lor Z.shiftr u8 demo_disk]. f_equal. f_equal.
    assert (He : u8 (Z.lor (Z.shiftr lba 24) 224) mod 16 = Z.shiftr lba 24).
    { assert (Hx : 0 <= Z.shiftr lba 24 < 16) by (rewrite Z.shiftr_div_pow2 by lia; change (2 ^ 24) with 16777216; divmod).
      revert Hx. generalize (Z.shiftr lba 24). intros x Hx.
      assert (x ∈ [0; 1; 2; 3; 4; 5; 6; 7; 8; 9; 10; 11; 12; 13; 14; 15]) as Hin by (repeat (rewrite elem_of_cons); lia).
      repeat (apply elem_of_cons in Hin as [->|Hin]; [reflexivity|]). by apply elem_of_nil in Hin. }
    rewrite He, !Z.shiftr_div_pow2 by lia. change (2 ^ 8) with 256. change (2 ^ 16) with 65536. change (2 ^ 24) with 16777216. unfold u8. divmod.
Defined.

Lemma demo_kernel : kernel_ok (disk := demo_disk).
Proof.
  assert (Hn : elf_phnum (kelf (disk := demo_disk)) = 1) by (vm_compute; reflexivity).
  assert (Ep : ph_paddr (kph (disk := demo_disk) 0) = 1048576) by (vm_compute; reflexivity).
  assert (Ef : ph_filesz (kph (disk := demo_disk) 0) = 3) by (vm_compute; reflexivity).
  assert (Em : ph_memsz (kph (disk := demo_disk) 0) = 5) by (vm_compute; reflexivity).
  assert (Eo : ph_off (kph (disk := demo_disk) 0) = 4096) by (vm_compute; reflexivity).
  constructor; [vm_compute; discriminate| | |].
  - intros i Hi. replace i with 0%nat by lia. rewrite Ep, Ef, Em, Eo. unfold seg_fits, SECTSIZE. change (4096 mod 512) with 0. lia.
  - intros i x Hi. replace i with 0%nat by lia. unfold seg_wrote, seg_at, in_page. rewrite Ep, Ef, Em, Eo.
    change (seg_lo 1048576 4096) with 1048576. unfold ELFSPACE. lia.
  - intros i j x Hij Hj. lia.
Qed.

Lemma bootmain_correct_witness : exists s', bootmain 1 (mkloader ∅ (mkdemo true (0, 0, 0, 0))) = Ok (Some 1048588, s') /\
  mget (b_mem s') 1048578 = 9 /\ mget (b_mem s') 1048579 = 0.
Proof.
  pose proof (bootmain_correct (mkloader ∅ (mkdemo true (0, 0, 0, 0))) I) as Hb.
  replace (_ =? ELF_MAGIC) with true in Hb by (vm_compute; reflexivity). destruct (Hb demo_kernel) as (s' & E & Hs & _).
  assert (Hn : elf_phnum (kelf (disk := demo_disk)) = 1) by (vm_compute; reflexivity).
  exists s'. split; [rewrite E; vm_compute; reflexivity|]. split.
  - rewrite (Hs 0%nat 1048578); [vm_compute; reflexivity|lia|vm_compute; split; [discriminate|reflexivity]].
  - rewrite (Hs 0%nat 1048579); [vm_compute; reflexivity|lia|vm_compute; split; [discriminate|reflexivity]].
Defined.
