(* ===== verification/Rtc.v ===== *)
(** The real-time clock (cmos_read, fill_rtcdate and cmostime of lapic.c, date.h): the date that
    cmostime returns is one that the clock showed, not a mixture of two. *)

From S2P Require Import Prelude Mem Elf Boot.
Local Open Scope Z_scope.

Definition CMOS_PORT : Z := 112.
Definition CMOS_RETURN : Z := 113.
Definition CMOS_STATA : Z := 10.
Definition CMOS_STATB : Z := 11.
Definition CMOS_UIP : Z := 128.
Definition SECS : Z := 0.
Definition MINS : Z := 2.
Definition HOURS : Z := 4.
Definition DAY : Z := 7.
Definition MONTH : Z := 8.
Definition YEAR : Z := 9.

Record rtcdate := mkdate { second : Z; minute : Z; hour : Z; day : Z; month : Z; year : Z }.

#[export] Instance rtcdate_eq : EqDecision rtcdate.
Proof. solve_decision. Defined.

(** The macro [CONV], on every field. *)
Definition CONV (x : Z) : Z := Z.shiftr x 4 * 10 + Z.land x 15.

Definition convert (t : rtcdate) : rtcdate :=
  mkdate (CONV (second t)) (CONV (minute t)) (CONV (hour t)) (CONV (day t)) (CONV (month t)) (CONV (year t)).

Definition add_century (t : rtcdate) : rtcdate :=
  mkdate (second t) (minute t) (hour t) (day t) (month t) (year t + 2000).

Section Rtc.
  Context {D : Type} `{Ports D}.

Definition cmos_read (reg : Z) : M D Z :=
  do! modify (outb CMOS_PORT reg) in
  fun d => Ok (inb CMOS_RETURN d).

Definition fill_rtcdate : M D rtcdate :=
  let! s := cmos_read SECS in
  let! mi := cmos_read MINS in
  let! h := cmos_read HOURS in
  let! d := cmos_read DAY in
  let! mo := cmos_read MONTH in
  let! y := cmos_read YEAR in
  ret (mkdate s mi h d mo y).

(** The loop, of at most [fuel] rounds. *)
Fixpoint stable_date (fuel : nat) : M D rtcdate :=
  match fuel with
  | O => undefined
  | S fuel' =>
      let! t1 := fill_rtcdate in
      let! a := cmos_read CMOS_STATA in
      if negb (Z.land a CMOS_UIP =? 0) then stable_date fuel' else
      let! t2 := fill_rtcdate in
      if bool_decide (t1 = t2) then ret t1 else stable_date fuel'
  end.

Definition cmostime (fuel : nat) : M D rtcdate :=
  let! sb := cmos_read CMOS_STATB in
  let bcd := Z.land sb 4 =? 0 in
  let! t1 := stable_date fuel in
  ret (add_century (if bcd then convert t1 else t1)).
End Rtc.

(** * The clock *)

(** The clock shows one state after the other: [shows n] are its registers in state [n], [now] is
    the state that it is in.  Between two reads it may go on. *)
Class Clock (D : Type) `{Ports D} (shows : nat -> Z -> Z) := {
  now : D -> nat;
  clock_read : forall d reg, exists n d', inb CMOS_RETURN (outb CMOS_PORT reg d) = (shows n reg, d') /\ (now d <= n <= now d')%nat;
}.

(** The date in the registers. *)
Definition date_of (r : Z -> Z) : rtcdate := mkdate (r SECS) (r MINS) (r HOURS) (r DAY) (r MONTH) (r YEAR).

Section Theorems.
  Context {D : Type} `{Ports D} (shows : nat -> Z -> Z) `{!Clock D shows}.

Lemma cmos_read_run reg (d : D) : exists n d', cmos_read reg d = Ok (shows n reg, d') /\ (now d <= n <= now d')%nat.
Proof. destruct (clock_read d reg) as (n & d' & E & Hn). exists n, d'. unfold cmos_read, bind, modify. by rewrite E. Qed.

(** Six reads in a row: each field is from a state not before the one of the field before. *)
Lemma fill_run (d : D) : exists n1 n2 n3 n4 n5 n6 d',
  fill_rtcdate d = Ok (mkdate (shows n1 SECS) (shows n2 MINS) (shows n3 HOURS) (shows n4 DAY) (shows n5 MONTH) (shows n6 YEAR), d') /\
  (now d <= n1 /\ n1 <= n2 /\ n2 <= n3 /\ n3 <= n4 /\ n4 <= n5 /\ n5 <= n6 /\ n6 <= now d')%nat.
Proof.
  unfold fill_rtcdate.
  destruct (cmos_read_run SECS d) as (n1 & d1 & E1 & ?). destruct (cmos_read_run MINS d1) as (n2 & d2 & E2 & ?).
  destruct (cmos_read_run HOURS d2) as (n3 & d3 & E3 & ?). destruct (cmos_read_run DAY d3) as (n4 & d4 & E4 & ?).
  destruct (cmos_read_run MONTH d4) as (n5 & d5 & E5 & ?). destruct (cmos_read_run YEAR d5) as (n6 & d6 & E6 & ?).
  exists n1, n2, n3, n4, n5, n6, d6. mstep E1. mstep E2. mstep E3. mstep E4. mstep E5. mstep E6. split; [done|lia].
Qed.

(** A date that was read while the clock stood still. *)
Lemma fill_still (d d' : D) t : fill_rtcdate d = Ok (t, d') -> now d = now d' -> t = date_of (shows (now d)).
Proof.
  destruct (fill_run d) as (n1 & n2 & n3 & n4 & n5 & n6 & e & E & Hn). rewrite E. intros [= <- <-] Hs.
  replace n1 with (now d) by lia. replace n2 with (now d) by lia. replace n3 with (now d) by lia.
  replace n4 with (now d) by lia. replace n5 with (now d) by lia. by replace n6 with (now d) by lia.
Qed.

Lemma fill_now (d d' : D) t : fill_rtcdate d = Ok (t, d') -> (now d <= now d')%nat.
Proof. destruct (fill_run d) as (n1 & n2 & n3 & n4 & n5 & n6 & e & E & Hn). rewrite E. intros [= <- <-]. lia. Qed.

(** The clock is not so fast that it goes on twice during one round of the loop. *)
Definition slow : Prop := forall (d d1 d2 d3 : D) t1 a t2, fill_rtcdate d = Ok (t1, d1) -> cmos_read CMOS_STATA d1 = Ok (a, d2) ->
  fill_rtcdate d2 = Ok (t2, d3) -> (now d3 <= now d + 1)%nat.

(** The loop returns only a date that the clock showed while it ran. *)
Theorem stable_date_real fuel : slow -> forall (d d' : D) t, stable_date fuel d = Ok (t, d') ->
  exists n, (now d <= n <= now d')%nat /\ t = date_of (shows n).
Proof.
  intros Hslow. induction fuel as [|fuel IH]; intros d d' t R; [done|]. cbn [stable_date] in R.
  destruct (fill_run d) as (? & ? & ? & ? & ? & ? & d1 & E1 & _). pose proof (fill_now _ _ _ E1). rewrite (bind_Ok _ _ _ _ _ E1) in R.
  destruct (cmos_read_run CMOS_STATA d1) as (? & d2 & E2 & ?). rewrite (bind_Ok _ _ _ _ _ E2) in R.
  destruct (negb _); [destruct (IH _ _ _ R) as (n & ? & ->); exists n; split; [lia|done]|].
  destruct (fill_run d2) as (? & ? & ? & ? & ? & ? & d3 & E3 & _). pose proof (fill_now _ _ _ E3). rewrite (bind_Ok _ _ _ _ _ E3) in R.
  pose proof (Hslow _ _ _ _ _ _ _ E1 E2 E3). destruct (bool_decide _) eqn:Et.
  - apply bool_decide_eq_true in Et. injection R as <- <-. destruct (decide (now d = now d1)) as [Es|Es].
    + exists (now d). split; [lia|]. by apply (fill_still _ _ _ E1).
    + rewrite Et. exists (now d2). split; [lia|]. apply (fill_still _ _ _ E3). lia.
  - destruct (IH _ _ _ R) as (n & ? & ->). exists n. split; [lia|done].
Qed.

(** With the clock at rest and no update in progress, one round is enough. *)
Lemma stable_date_total (d : D) fuel : (forall reg (e e' : D) v, cmos_read reg e = Ok (v, e') -> now e' = now e) ->
  Z.land (shows (now d) CMOS_STATA) CMOS_UIP = 0 -> exists d', stable_date (S fuel) d = Ok (date_of (shows (now d)), d').
Proof.
  intros Hrest Hu. assert (Hf : forall e : D, exists e', fill_rtcdate e = Ok (date_of (shows (now e)), e') /\ now e' = now e).
  { intros e. unfold fill_rtcdate.
    assert (Hr : forall reg (x : D), exists x', cmos_read reg x = Ok (shows (now x) reg, x') /\ now x' = now x).
    { intros reg x. destruct (cmos_read_run reg x) as (n & x' & E & Hn). pose proof (Hrest _ _ _ _ E) as Ex. exists x'. split; [|done].
      rewrite E. by replace n with (now x) by lia. }
    destruct (Hr SECS e) as (e1 & E1 & H1). destruct (Hr MINS e1) as (e2 & E2 & H2). destruct (Hr HOURS e2) as (e3 & E3 & H3).
    destruct (Hr DAY e3) as (e4 & E4 & H4). destruct (Hr MONTH e4) as (e5 & E5 & H5). destruct (Hr YEAR e5) as (e6 & E6 & H6).
    exists e6. mstep E1. mstep E2. mstep E3. mstep E4. mstep E5. mstep E6. split; [|lia]. unfold ret, date_of.
    by rewrite H5, H4, H3, H2, H1. }
  destruct (Hf d) as (d1 & E1 & H1). destruct (cmos_read_run CMOS_STATA d1) as (n & d2 & E2 & Hn). pose proof (Hrest _ _ _ _ E2) as H2.
  destruct (Hf d2) as (d3 & E3 & H3). exists d3. cbn [stable_date]. mstep E1. mstep E2.
  replace n with (now d) by lia. rewrite Hu. cbn [Z.eqb negb]. mstep E3. rewrite H2, H1. by rewrite bool_decide_true.
Qed.
End Theorems.

(** * Binary-coded decimals *)

Definition bcd (v : Z) : Z := Z.lor (Z.shiftl (v / 10) 4) (v mod 10).

Lemma conv_bcd v : 0 <= v < 100 -> CONV (bcd v) = v.
Proof.
  intros Hv. assert (H : forallb (fun i => CONV (bcd (Z.of_nat i)) =? Z.of_nat i) (seq 0 100) = true) by (vm_compute; reflexivity).
  rewrite forallb_forall in H. specialize (H (Z.to_nat v)). rewrite Z2Nat.id in H by lia. apply Z.eqb_eq, H, in_seq. lia.
Qed.

(** A clock that keeps its time in binary-coded decimals gives the time. *)
Theorem convert_bcd t : Forall (fun v => 0 <= v < 100) [second t; minute t; hour t; day t; month t; year t] ->
  convert (mkdate (bcd (second t)) (bcd (minute t)) (bcd (hour t)) (bcd (day t)) (bcd (month t)) (bcd (year t))) = t.
Proof. rewrite !Forall_cons. intros (? & ? & ? & ? & ? & ? & _). unfold convert. cbn. rewrite !conv_bcd by done. by destruct t. Qed.

(** * A clock *)

(** The selected register and the number of accesses; the clock goes on every hundred of them. *)
Record demo_clock := mkdc { dc_reg : Z; dc_count : nat }.

#[local] Instance demo_clock_ports : Ports demo_clock := {
  inb port d := (if dc_reg d =? SECS then bcd (Z.of_nat (dc_count d / 100) mod 60) else if dc_reg d =? DAY then 1 else 0, mkdc (dc_reg d) (S (dc_count d)));
  outb port v d := if port =? CMOS_PORT then mkdc v (dc_count d) else d;
  insl port n d := ([], d)
}.

Definition demo_shows (n : nat) (reg : Z) : Z := if reg =? SECS then bcd (Z.of_nat n mod 60) else if reg =? DAY then 1 else 0.

#[local] Instance demo_is_clock : Clock demo_clock demo_shows.
Proof.
  refine {| now := fun d => (dc_count d / 100)%nat |}. intros d reg. eexists _, _. split; [reflexivity|]. cbn [outb demo_clock_ports Z.eqb dc_count CMOS_PORT].
  split; [reflexivity|]. apply Nat.Div0.div_le_mono. cbn. lia.
Defined.

Lemma demo_slow : slow (D := demo_clock) demo_shows.
Proof.
  intros d d1 d2 d3 t1 a t2 [= _ <-] [= _ <-] [= _ <-]. change ((13 + dc_count d) / 100 <= dc_count d / 100 + 1)%nat.
  apply Nat.lt_succ_r, Nat.Div0.div_lt_upper_bound.
  pose proof (Nat.div_mod_eq (dc_count d) 100). pose proof (Nat.mod_upper_bound (dc_count d) 100 ltac:(done)). lia.
Qed.

(** The second read of the first round falls into the next second; the second round settles. *)
Lemma demo_cmostime : exists d', cmostime 2 (mkdc 0 1194) = Ok (mkdate 12 0 0 1 0 2000, d').
Proof. eexists. vm_compute. reflexivity. Qed.
