(* ===== verification/Apic.v ===== *)
(** The interrupt controllers (ioapic.c, picirq.c and the interrupt part of lapic.c): which
    interrupts reach which CPU with which vector, and where another CPU starts. *)

From S2P Require Import Prelude Mem Kalloc Strings Bio Vm VmSpace VmUser Proc Trap Elf Boot.
Local Open Scope Z_scope.

(** * ioapic.c *)

Definition REG_ID : Z := 0.
Definition REG_VER : Z := 1.
Definition REG_TABLE : Z := 16.
Definition INT_DISABLED : Z := 65536.

(** The two words of the chip in memory: the index of a register, and its contents. *)
Class Ioapic (D : Type) := {
  io_select : Z -> D -> D;
  io_data : D -> Z;
  io_put : Z -> D -> D
}.

Section Ioapic.
  Context {D : Type} `{Ioapic D}.

Definition ioapicread (reg : Z) : M D Z :=
  do! modify (io_select reg) in
  gets io_data.

Definition ioapicwrite (reg data : Z) : M D unit :=
  do! modify (io_select reg) in
  modify (io_put data).

(** [n] rounds of the loop of [ioapicinit], from [i] on. *)
Fixpoint ioapicinit_loop (n : nat) (i : Z) : M D unit :=
  match n with
  | O => ret tt
  | S n' =>
      do! ioapicwrite (REG_TABLE + 2 * i) (Z.lor INT_DISABLED (T_IRQ0 + i)) in
      do! ioapicwrite (REG_TABLE + 2 * i + 1) 0 in
      ioapicinit_loop n' (i + 1)
  end.

(** The result is whether the message about another number of the chip is printed. *)
Definition ioapicinit (ioapicid : Z) : M D bool :=
  let! ver := ioapicread REG_VER in
  let maxintr := Z.land (Z.shiftr ver 16) 255 in
  let! w := ioapicread REG_ID in
  let id := Z.shiftr w 24 in
  do! ioapicinit_loop (Z.to_nat (maxintr + 1)) 0 in
  ret (negb (id =? ioapicid)).

Definition ioapicenable (irq cpunum : Z) : M D unit :=
  do! ioapicwrite (REG_TABLE + 2 * irq) (T_IRQ0 + irq) in
  ioapicwrite (REG_TABLE + 2 * irq + 1) (u32 (Z.shiftl cpunum 24)).
End Ioapic.

(** What the manual says of the chip: registers behind an index, of which those of the
    redirection table keep what is written. *)
Class IoapicLaws (D : Type) `{Ioapic D} := {
  register : D -> Z -> Z;
  ioapic_read : forall d r, io_data (io_select r d) = register d r;
  ioapic_select : forall d r r', register (io_select r d) r' = register d r';
  ioapic_write : forall d r v r', REG_TABLE <= r -> register (io_put v (io_select r d)) r' = if decide (r' = r) then v else register d r'
}.

Section IoapicTheorems.
  Context {D : Type} `{IoapicLaws D}.

(** An interrupt line in the redirection table. *)
Record route := mkroute { rt_masked : bool; rt_vector : Z; rt_config : Z; rt_dest : Z }.

Definition route_of (d : D) (irq : Z) : route :=
  let lo := register d (REG_TABLE + 2 * irq) in
  mkroute (Z.testbit lo 16) (Z.land lo 255) (Z.land (Z.shiftr lo 8) 255) (Z.shiftr (register d (REG_TABLE + 2 * irq + 1)) 24).

Lemma ioapicread_run r d : exists d', ioapicread r d = Ok (register d r, d') /\ forall r', register d' r' = register d r'.
Proof. eexists. split; [unfold ioapicread, bind, modify, gets; by rewrite ioapic_read|]. intros r'. apply ioapic_select. Qed.

Lemma ioapicwrite_run r v d : REG_TABLE <= r -> exists d', ioapicwrite r v d = Ok (tt, d') /\
  forall r', register d' r' = if decide (r' = r) then v else register d r'.
Proof. intros Hr. eexists. split; [reflexivity|]. intros r'. by apply ioapic_write. Qed.

(** Both words of a line. *)
Lemma line_run irq lo hi (k : M D unit) d : 0 <= irq -> exists d',
  (do! ioapicwrite (REG_TABLE + 2 * irq) lo in do! ioapicwrite (REG_TABLE + 2 * irq + 1) hi in k) d = k d' /\
  register d' (REG_TABLE + 2 * irq) = lo /\ register d' (REG_TABLE + 2 * irq + 1) = hi /\
  (forall j, j <> irq -> route_of d' j = route_of d j).
Proof.
  intros Hi. destruct (ioapicwrite_run (REG_TABLE + 2 * irq) lo d ltac:(lia)) as (d1 & E1 & H1).
  destruct (ioapicwrite_run (REG_TABLE + 2 * irq + 1) hi d1 ltac:(lia)) as (d2 & E2 & H2). exists d2. mstep E1. mstep E2.
  split; [done|]. split_and!.
  - rewrite H2, H1, decide_False, decide_True by lia. done.
  - rewrite H2, decide_True by lia. done.
  - intros j Hj. unfold route_of. rewrite !H2, !H1, !decide_False by lia. done.
Qed.

Lemma disabled_route d i : 0 <= i < 224 -> register d (REG_TABLE + 2 * i) = Z.lor INT_DISABLED (T_IRQ0 + i) ->
  register d (REG_TABLE + 2 * i + 1) = 0 -> route_of d i = mkroute true (T_IRQ0 + i) 0 0.
Proof.
  intros Hi E1 E2. unfold route_of. rewrite E1, E2.
  assert (H' : forallb (fun k => let lo := Z.lor INT_DISABLED (T_IRQ0 + Z.of_nat k) in
    Z.testbit lo 16 && (Z.land lo 255 =? T_IRQ0 + Z.of_nat k) && (Z.land (Z.shiftr lo 8) 255 =? 0)) (seq 0 224) = true) by (vm_compute; reflexivity).
  rewrite forallb_forall in H'. specialize (H' (Z.to_nat i)). rewrite Z2Nat.id in H' by lia.
  assert (Hin : In (Z.to_nat i) (seq 0 224)) by (apply in_seq; lia). specialize (H' Hin). cbv zeta in H'.
  apply andb_true_iff in H' as [H' H3]. apply andb_true_iff in H' as [H1 H2]. rewrite H1. apply Z.eqb_eq in H2, H3. by rewrite H2, H3.
Qed.

Lemma init_loop_run n : forall i d, 0 <= i -> i + Z.of_nat n <= 224 -> exists d', ioapicinit_loop n i d = Ok (tt, d') /\
  (forall j, i <= j < i + Z.of_nat n -> route_of d' j = mkroute true (T_IRQ0 + j) 0 0) /\
  (forall j, j < i -> route_of d' j = route_of d j).
Proof.
  induction n as [|n IH]; intros i d Hi Hn; [exists d; split_and!; [done|lia|done]|]. cbn [ioapicinit_loop].
  destruct (line_run i (Z.lor INT_DISABLED (T_IRQ0 + i)) 0 (ioapicinit_loop n (i + 1)) d Hi) as (d1 & -> & H1 & H2 & H3).
  destruct (IH (i + 1) d1 ltac:(lia) ltac:(lia)) as (d2 & -> & H4 & H5). exists d2. split_and!; [done| |].
  - intros j Hj. destruct (decide (j = i)) as [->|]; [|apply H4; lia]. rewrite H5 by lia. by apply disabled_route; [lia|..].
  - intros j Hj. rewrite H5, H3 by lia. done.
Qed.

(** After [ioapicinit] every line is masked. *)
Theorem ioapicinit_masks d ioapicid (maxintr := Z.land (Z.shiftr (register d REG_VER) 16) 255) : maxintr < 224 ->
  exists d', ioapicinit ioapicid d = Ok (negb (Z.shiftr (register d REG_ID) 24 =? ioapicid), d') /\
    forall irq, 0 <= irq <= maxintr -> route_of d' irq = mkroute true (T_IRQ0 + irq) 0 0.
Proof.
  intros Hm. assert (Hm0 : 0 <= maxintr) by (apply Z.land_nonneg; lia). unfold ioapicinit.
  destruct (ioapicread_run REG_VER d) as (d1 & E1 & K1). destruct (ioapicread_run REG_ID d1) as (d2 & E2 & K2). mstep E1. mstep E2.
  fold maxintr. destruct (init_loop_run (Z.to_nat (maxintr + 1)) 0 d2 ltac:(lia) ltac:(lia)) as (d3 & E3 & K3 & _). mstep E3.
  exists d3. rewrite K1. split; [done|]. intros irq Hirq. apply K3. lia.
Qed.

(** [ioapicenable] opens one line, edge-triggered and active high, to one CPU, with the vector
    that [trap] expects, and changes no other. *)
Theorem ioapicenable_opens d irq cpu : 0 <= irq < 224 -> 0 <= cpu < 256 -> exists d', ioapicenable irq cpu d = Ok (tt, d') /\
  route_of d' irq = mkroute false (T_IRQ0 + irq) 0 cpu /\ forall j, j <> irq -> route_of d' j = route_of d j.
Proof.
  intros Hi Hc. destruct (line_run irq (T_IRQ0 + irq) (u32 (Z.shiftl cpu 24)) (ret tt) d ltac:(lia)) as (d' & E & H1 & H2 & H3).
  exists d'. split; [exact E|]. split; [|done]. unfold route_of. rewrite H1, H2. unfold T_IRQ0. f_equal.
  - apply Z.bits_above_log2; [lia|]. apply Z.log2_lt_pow2; lia.
  - change 255 with (Z.ones 8). rewrite Z.land_ones, Z.mod_small by lia. done.
  - change 255 with (Z.ones 8). rewrite Z.land_ones, Z.shiftr_div_pow2, (Z.div_small (32 + irq)) by lia. done.
  - rewrite Z.shiftl_mul_pow2, u32_small, Z.shiftr_div_pow2, Z.div_mul by lia. done.
Qed.
End IoapicTheorems.

(** * lapic.c *)

Definition ID : Z := 8.
Definition VER : Z := 12.
Definition TPR : Z := 32.
Definition EOI : Z := 44.
Definition SVR : Z := 60.
Definition ENABLE : Z := 256.
Definition ESR : Z := 160.
Definition ICRLO : Z := 192.
Definition INIT : Z := 1280.
Definition STARTUP : Z := 1536.
Definition DELIVS : Z := 4096.
Definition ASSERT : Z := 16384.
Definition LEVEL : Z := 32768.
Definition BCAST : Z := 524288.
Definition ICRHI : Z := 196.
Definition TIMER : Z := 200.
Definition X1 : Z := 11.
Definition PERIODIC : Z := 131072.
Definition PCINT : Z := 208.
Definition LINT0 : Z := 212.
Definition LINT1 : Z := 216.
Definition ERROR : Z := 220.
Definition MASKED : Z := 65536.
Definition TICR : Z := 224.
Definition TDCR : Z := 248.
Definition IRQ_ERROR : Z := 19.

(** The registers of the local APIC of a CPU. *)
Class Lapic (D : Type) := {
  la_read : Z -> D -> Z * D;
  la_write : Z -> Z -> D -> D
}.

Section Lapic.
  Context {D : Type} `{Lapic D} `{Ports D}.

Definition lapicr (index : Z) : M D Z := fun d => Ok (la_read index d).

Definition lapicw (index value : Z) : M D unit :=
  do! modify (la_write index value) in
  let! _ := lapicr ID in
  ret tt.

Fixpoint wait_delivery (polls : nat) : M D unit :=
  match polls with
  | O => undefined
  | S n => let! v := lapicr ICRLO in if negb (Z.land v DELIVS =? 0) then wait_delivery n else ret tt
  end.

(** [lapic] is whether the pointer is set. *)
Definition lapicinit (lapic : bool) (polls : nat) : M D unit :=
  if negb lapic then ret tt else
  do! lapicw SVR (Z.lor ENABLE (T_IRQ0 + IRQ_SPURIOUS)) in
  do! lapicw TDCR X1 in
  do! lapicw TIMER (Z.lor PERIODIC (T_IRQ0 + IRQ_TIMER)) in
  do! lapicw TICR 10000000 in
  do! lapicw LINT0 MASKED in
  do! lapicw LINT1 MASKED in
  let! ver := lapicr VER in
  do! when (4 <=? Z.land (Z.shiftr ver 16) 255) (lapicw PCINT MASKED) in
  do! lapicw ERROR (T_IRQ0 + IRQ_ERROR) in
  do! lapicw ESR 0 in
  do! lapicw ESR 0 in
  do! lapicw EOI 0 in
  do! lapicw ICRHI 0 in
  do! lapicw ICRLO (Z.lor (Z.lor BCAST INIT) LEVEL) in
  do! wait_delivery polls in
  lapicw TPR 0.

Definition lapicid (lapic : bool) : M D Z :=
  if negb lapic then ret 0 else
  let! v := lapicr ID in
  ret (Z.shiftr v 24).

Definition lapiceoi (lapic : bool) : M D unit := when lapic (lapicw EOI 0).

(** The stores to the warm reset vector. *)
Definition warm_reset (addr : Z) (m : mem) : mem :=
  let wrv := P2V (Z.lor (Z.shiftl 64 4) 103) in
  mwrite (mwrite m wrv (le_bytes 2 0)) (wrv + 2) (le_bytes 2 (u16 (Z.shiftr addr 4))).

Fixpoint send_startup (n : nat) (apicid addr : Z) : M D unit :=
  match n with
  | O => ret tt
  | S n' =>
      do! lapicw ICRHI (u32 (Z.shiftl apicid 24)) in
      do! lapicw ICRLO (Z.lor STARTUP (Z.shiftr addr 12)) in
      send_startup n' apicid addr
  end.

(** The result is the memory afterwards. *)
Definition lapicstartap (apicid addr : Z) (m : mem) : M D mem :=
  do! modify (outb 112 15) in
  do! modify (outb 113 10) in
  let m' := warm_reset addr m in
  do! lapicw ICRHI (u32 (Z.shiftl apicid 24)) in
  do! lapicw ICRLO (Z.lor (Z.lor INIT LEVEL) ASSERT) in
  do! lapicw ICRLO (Z.lor INIT LEVEL) in
  do! send_startup 2 apicid addr in
  ret m'.

Definition picinit : M D unit :=
  do! modify (outb 33 255) in
  modify (outb 161 255).
End Lapic.

(** What the CPU wrote to its local APIC, in order; reads and port accesses write nothing there.
    A message is delivered within [polls] looks. *)
Class LapicLaws (D : Type) `{Lapic D} `{Ports D} (polls : nat) := {
  written : D -> list (Z * Z);
  lapic_write : forall d i v, written (la_write i v d) = written d ++ [(i, v)];
  lapic_read : forall d i, written (la_read i d).2 = written d;
  lapic_port : forall d p v, written (outb p v d) = written d;
  lapic_delivers : forall d, exists d', wait_delivery polls d = Ok (tt, d')
}.

Section LapicTheorems.
  Context {D : Type} `{Lapic D} `{Ports D} (polls : nat) `{!LapicLaws D polls}.

(** A run that writes the values [l]. *)
Definition writes {A} (m : M D A) (a : A) (l : list (Z * Z)) : Prop := forall d, exists d', m d = Ok (a, d') /\ written d' = written d ++ l.

Lemma writes_ret {A} (a : A) : writes (ret a) a [].
Proof. intros d. exists d. by rewrite app_nil_r. Qed.

Lemma writes_bind {A B} (m : M D A) (k : A -> M D B) a b l1 l2 : writes m a l1 -> writes (k a) b l2 -> writes (bind m k) b (l1 ++ l2).
Proof.
  intros Hm Hk d. destruct (Hm d) as (d1 & E1 & W1). destruct (Hk d1) as (d2 & E2 & W2). exists d2.
  rewrite (bind_Ok _ _ _ _ _ E1). by rewrite E2, W2, W1, app_assoc.
Qed.

Lemma writes_lapicw i v : writes (lapicw i v) tt [(i, v)].
Proof.
  intros d. exists (la_read ID (la_write i v d)).2. rewrite lapic_read, lapic_write. split; [|done].
  unfold lapicw, bind, modify, lapicr. by destruct (la_read ID _).
Qed.

Lemma writes_outb p v : writes (modify (outb p v)) tt [].
Proof. intros d. eexists. split; [reflexivity|]. by rewrite lapic_port, app_nil_r. Qed.

Lemma wait_written n : forall d d', wait_delivery n d = Ok (tt, d') -> written d' = written d.
Proof.
  induction n as [|n IH]; intros d d' R; [done|]. cbn [wait_delivery] in R. unfold lapicr, bind in R.
  pose proof (lapic_read d ICRLO) as W. destruct (la_read ICRLO d) as [v d1]. cbn in W.
  destruct (negb _); [by rewrite (IH _ _ R)|by injection R as <-].
Qed.

Lemma writes_wait : writes (wait_delivery polls) tt [].
Proof. intros d. destruct (lapic_delivers d) as (d' & E). exists d'. by rewrite app_nil_r, (wait_written _ _ _ E). Qed.

(** The last value that was written to a register. *)
Definition final (l : list (Z * Z)) (i : Z) : option Z := snd <$> last (filter (fun w => w.1 = i) l).

Lemma writes_pcint b : writes (when b (lapicw PCINT MASKED)) tt (if b : bool then [(PCINT, MASKED)] else []).
Proof. destruct b; [apply writes_lapicw|apply writes_ret]. Qed.

(** [lapicinit] after the version was read. *)
Lemma lapicinit_tail b : writes
  (do! when b (lapicw PCINT MASKED) in
   do! lapicw ERROR (T_IRQ0 + IRQ_ERROR) in
   do! lapicw ESR 0 in
   do! lapicw ESR 0 in
   do! lapicw EOI 0 in
   do! lapicw ICRHI 0 in
   do! lapicw ICRLO (Z.lor (Z.lor BCAST INIT) LEVEL) in
   do! wait_delivery polls in
   lapicw TPR 0) tt
  ((if b : bool then [(PCINT, MASKED)] else []) ++
   [(ERROR, T_IRQ0 + IRQ_ERROR); (ESR, 0); (ESR, 0); (EOI, 0); (ICRHI, 0); (ICRLO, Z.lor (Z.lor BCAST INIT) LEVEL); (TPR, 0)]).
Proof.
  apply (writes_bind _ _ tt tt); [apply writes_pcint|]. do 6 (apply (writes_bind _ _ tt tt [_]); [apply writes_lapicw|]).
  apply (writes_bind _ _ tt tt []); [apply writes_wait|apply writes_lapicw].
Qed.

(** [lapicinit] ends, whatever the version of the chip: the unit is enabled, its timer runs
    periodically with the vector that [trap] takes for the clock, the lines LINT0 and LINT1 are
    masked, and every priority is let through. *)
Theorem lapicinit_programs d : exists d' l, lapicinit true polls d = Ok (tt, d') /\ written d' = written d ++ l /\
  final l SVR = Some (Z.lor ENABLE (T_IRQ0 + IRQ_SPURIOUS)) /\ final l TIMER = Some (Z.lor PERIODIC (T_IRQ0 + IRQ_TIMER)) /\
  final l LINT0 = Some MASKED /\ final l LINT1 = Some MASKED /\ final l ERROR = Some (T_IRQ0 + IRQ_ERROR) /\ last l = Some (TPR, 0).
Proof.
  unfold lapicinit. cbn [negb].
  destruct (writes_lapicw SVR (Z.lor ENABLE (T_IRQ0 + IRQ_SPURIOUS)) d) as (d1 & E1 & W1). mstep E1.
  destruct (writes_lapicw TDCR X1 d1) as (d2 & E2 & W2). mstep E2.
  destruct (writes_lapicw TIMER (Z.lor PERIODIC (T_IRQ0 + IRQ_TIMER)) d2) as (d3 & E3 & W3). mstep E3.
  destruct (writes_lapicw TICR 10000000 d3) as (d4 & E4 & W4). mstep E4.
  destruct (writes_lapicw LINT0 MASKED d4) as (d5 & E5 & W5). mstep E5.
  destruct (writes_lapicw LINT1 MASKED d5) as (d6 & E6 & W6). mstep E6.
  pose proof (lapic_read d6 VER) as W7. unfold lapicr at 1. unfold bind at 1. destruct (la_read VER d6) as [ver d7]. cbn [snd] in W7.
  set (b := 4 <=? _). destruct (lapicinit_tail b d7) as (d8 & E8 & W8).
  eexists d8, _. split; [exact E8|]. split; [rewrite W8, W7, W6, W5, W4, W3, W2, W1, <- !app_assoc; reflexivity|].
  destruct b; split_and!; reflexivity.
Qed.

(** A processor starts in real mode at this address: at the page in the message, or at the warm
    reset vector. *)
Definition startup_address (v : Z) : Z := Z.land v 255 * 4096.
Definition reset_address (m : mem) : Z :=
  let wrv := P2V 1127 in
  le_val (mread m (wrv + 2) 2) * 16 + le_val (mread m wrv 2).

Lemma warm_reset_address page m : 0 <= page < 256 -> reset_address (warm_reset (page * 4096) m) = page * 4096.
Proof.
  intros Hp. unfold reset_address, warm_reset. change (Z.lor (Z.shiftl 64 4) 103) with 1127. set (w := P2V 1127).
  set (l0 := le_bytes 2 0). set (l1 := le_bytes 2 _). change 2%nat with (length l1) at 1. rewrite mread_mwrite_same.
  rewrite (mread_mwrite_other _ (w + 2)) by lia. change 2%nat with (length l0) at 1. rewrite mread_mwrite_same.
  unfold l0, l1. rewrite !le_val_bytes. change (256 ^ Z.of_nat 2) with 65536. rewrite Z.shiftr_div_pow2 by lia.
  change (2 ^ 4) with 16. unfold u16. replace (page * 4096 / 16) with (page * 256) by divmod. rewrite !(Z.mod_small (page * 256)) by lia. rewrite Z.mod_0_l by lia. lia.
Qed.

Lemma startup_message page : 0 <= page < 256 ->
  Z.land (Z.lor STARTUP page) 1792 = STARTUP /\ Z.land (Z.lor STARTUP page) 255 = page.
Proof.
  intros Hp. assert (Hall : forallb (fun k => let v := Z.lor STARTUP (Z.of_nat k) in (Z.land v 1792 =? STARTUP) && (Z.land v 255 =? Z.of_nat k)) (seq 0 256) = true)
    by (vm_compute; reflexivity).
  rewrite forallb_forall in Hall. specialize (Hall (Z.to_nat page) ltac:(apply in_seq; lia)). rewrite Z2Nat.id in Hall by lia.
  cbv zeta in Hall. apply andb_true_iff in Hall as [H1%Z.eqb_eq H2%Z.eqb_eq]. done.
Qed.

(** [lapicstartap] resets one processor, and starts it at [addr] by either way. *)
Theorem startap_enters apicid page m d (addr := page * 4096) : 0 <= apicid < 256 -> 0 <= page < 256 ->
  exists d' m' v, lapicstartap apicid addr m d = Ok (m', d') /\
    written d' = written d ++ [(ICRHI, apicid * 2 ^ 24); (ICRLO, Z.lor (Z.lor INIT LEVEL) ASSERT); (ICRLO, Z.lor INIT LEVEL);
      (ICRHI, apicid * 2 ^ 24); (ICRLO, v); (ICRHI, apicid * 2 ^ 24); (ICRLO, v)] /\
    Z.land v 1792 = STARTUP /\ startup_address v = addr /\ reset_address m' = addr /\
    forall a, ~ (P2V 1127 <= a < P2V 1127 + 4) -> mget m' a = mget m a.
Proof.
  intros Ha Hp. assert (Eid : u32 (Z.shiftl apicid 24) = apicid * 2 ^ 24) by (rewrite Z.shiftl_mul_pow2 by lia; apply u32_small; lia).
  assert (Epage : Z.shiftr addr 12 = page) by (unfold addr; rewrite Z.shiftr_div_pow2 by lia; by apply Z.div_mul).
  assert (Hw : writes (lapicstartap apicid addr m) (warm_reset addr m) [(ICRHI, apicid * 2 ^ 24); (ICRLO, Z.lor (Z.lor INIT LEVEL) ASSERT);
    (ICRLO, Z.lor INIT LEVEL); (ICRHI, apicid * 2 ^ 24); (ICRLO, Z.lor STARTUP page); (ICRHI, apicid * 2 ^ 24); (ICRLO, Z.lor STARTUP page)]).
  { unfold lapicstartap. cbn [send_startup]. rewrite Eid, Epage.
    do 2 (apply (writes_bind _ _ tt _ []); [apply writes_outb|]). do 3 (apply (writes_bind _ _ tt _ [_]); [apply writes_lapicw|]).
    rewrite <- (app_nil_r [_; _; _; _]). apply (writes_bind _ _ tt); [|apply writes_ret].
    do 4 (apply (writes_bind _ _ tt tt [_]); [apply writes_lapicw|]). apply writes_ret. }
  destruct (Hw d) as (d' & E & W). destruct (startup_message page Hp) as [Es Ev]. exists d', (warm_reset addr m), (Z.lor STARTUP page).
  split_and!; [done|done|done|by unfold startup_address; rewrite Ev|by apply warm_reset_address|].
  intros a Hout. unfold warm_reset. change (Z.lor (Z.shiftl 64 4) 103) with 1127. rewrite !mget_mwrite, !length_le_bytes, !decide_False by lia. done.
Qed.
End LapicTheorems.

(** * A machine *)

(** The selected register and the redirection table, and what was written to the local APIC. *)
Record demo_apic := mkda { da_reg : Z; da_table : Z -> Z; da_written : list (Z * Z) }.

#[local] Instance demo_ioapic : Ioapic demo_apic := {
  io_select r d := mkda r (da_table d) (da_written d);
  io_data d := da_table d (da_reg d);
  io_put v d := mkda (da_reg d) (fun r => if decide (r = da_reg d) then v else da_table d r) (da_written d)
}.

#[local] Instance demo_ioapic_laws : IoapicLaws demo_apic.
Proof. by refine {| register := da_table |}. Defined.

#[local] Instance demo_lapic : Lapic demo_apic := {
  la_read i d := (if i =? VER then 327684 else 0, d);
  la_write i v d := mkda (da_reg d) (da_table d) (da_written d ++ [(i, v)])
}.

#[local] Instance demo_apic_ports : Ports demo_apic := { inb p d := (0, d); outb p v d := d; insl p n d := ([], d) }.

#[local] Instance demo_lapic_laws : LapicLaws demo_apic 1.
Proof. refine {| written := da_written |}; try done. intros d. by eexists. Defined.

(** The keyboard's line goes to CPU 0 after the console enabled it; the disk's stays masked. *)
Lemma demo_routes :
  match (do! ioapicinit 0 in ioapicenable IRQ_KBD 0) (mkda 0 (fun r => if decide (r = REG_VER) then 1507328 else 0) []) with
  | Ok (_, d) => route_of d IRQ_KBD = mkroute false 33 0 0 /\ route_of d IRQ_IDE = mkroute true 46 0 0
  | _ => False
  end.
Proof. by vm_compute. Qed.
