(* ===== verification/Uart.v ===== *)
(** The serial port (uart.c), over the ports of the chip: what is sent and received, and that the
    console's view of it, a growing list of bytes, is right. *)

From S2P Require Import Prelude Mem Strings Bio Kalloc Vm VmSpace VmUser Proc Trap User Console Elf Boot Apic.
Local Open Scope Z_scope.

Definition COM1 : Z := 1016.

Section Uart.
  Context {D : Type} `{Ports D} `{Ioapic D}.

Definition uin (port : Z) : M D Z := fun d => Ok (inb port d).
Definition uout (port v : Z) : M D unit := modify (outb port (u8 v)).

(** The wait for the transmitter, of at most [n] looks. *)
Fixpoint transmit_wait (n : nat) : M D unit :=
  match n with
  | O => ret tt
  | S n' => let! v := uin (COM1 + 5) in if Z.land v 32 =? 0 then transmit_wait n' else ret tt
  end.

(** [uart] is the variable that says whether there is a port. *)
Definition uart_putc (uart : bool) (c : Z) : M D unit :=
  if negb uart then ret tt else
  do! transmit_wait 128 in
  uout (COM1 + 0) c.

Fixpoint announce (p : bytes) : M D unit :=
  match p with
  | [] => ret tt
  | c :: p' => do! uart_putc true c in announce p'
  end.

(** The string that [uartinit] prints. *)
Definition banner : bytes := [120; 118; 54; 46; 46; 46; 10].

(** The result is the variable [uart]. *)
Definition uartinit : M D bool :=
  do! uout (COM1 + 2) 0 in
  do! uout (COM1 + 3) 128 in
  do! uout (COM1 + 0) (115200 / 9600) in
  do! uout (COM1 + 1) 0 in
  do! uout (COM1 + 3) 3 in
  do! uout (COM1 + 4) 0 in
  do! uout (COM1 + 1) 1 in
  let! status := uin (COM1 + 5) in
  if status =? 255 then ret false else
  let! _ := uin (COM1 + 2) in
  let! _ := uin (COM1 + 0) in
  do! ioapicenable IRQ_COM1 0 in
  do! announce banner in
  ret true.

Definition uartgetc (uart : bool) : M D Z :=
  if negb uart then ret (-1) else
  let! v := uin (COM1 + 5) in
  if Z.land v 1 =? 0 then ret (-1) else
  uin (COM1 + 0).

(** The calls of [getc] in [consoleintr], up to the one that fails. *)
Fixpoint received (uart : bool) (fuel : nat) : M D (list Z) :=
  match fuel with
  | O => undefined
  | S fuel' =>
      let! c := uartgetc uart in
      if c <? 0 then ret [] else
      let! cs := received uart fuel' in
      ret (c :: cs)
  end.

Definition put_chip (d : D) (s : D * console) : D * console := (d, s.2).
Definition put_console (c : console) (s : D * console) : D * console := (s.1, c).

Definition uartintr (uart : bool) (fuel : nat) : M (D * console) (bool * bool) :=
  let! cs := zoom fst put_chip (received uart fuel) in
  zoom snd put_console (consoleintr cs).
End Uart.

(** * The chip *)

(** What the manual says of an 8250: the first port sends, except while the divisor is unlocked by
    bit 7 of the line control register.  [line] are the bytes that were sent, [pending] those that
    arrived, and [present] is whether there is a chip at all. *)
Class Serial (D : Type) `{Ports D} `{Ioapic D} := {
  present : bool;
  line : D -> bytes;
  pending : D -> bytes;
  unlocked : D -> bool;
  serial_send : forall d v, line (outb COM1 v d) = (if present && negb (unlocked d) then line d ++ [v] else line d) /\
    unlocked (outb COM1 v d) = unlocked d;
  serial_control : forall d v, line (outb (COM1 + 3) v d) = line d /\ unlocked (outb (COM1 + 3) v d) = Z.testbit v 7;
  serial_other : forall d p v, p = COM1 + 1 \/ p = COM1 + 2 \/ p = COM1 + 4 -> line (outb p v d) = line d /\ unlocked (outb p v d) = unlocked d;
  serial_in : forall d p, line (inb p d).2 = line d /\ unlocked (inb p d).2 = unlocked d;
  serial_status : forall d, if present then (inb (COM1 + 5) d).1 <> 255 else (inb (COM1 + 5) d).1 = 255;
  serial_ready : forall d, present = true -> Z.land (inb (COM1 + 5) d).1 1 = (if decide (pending d = []) then 0 else 1) /\
    pending (inb (COM1 + 5) d).2 = pending d;
  serial_receive : forall d c l, pending d = c :: l -> (inb COM1 d).1 = c /\ pending (inb COM1 d).2 = l;
  serial_apic : forall d r v, line (io_put v (io_select r d)) = line d /\ unlocked (io_put v (io_select r d)) = unlocked d
}.

Section Theorems.
  Context {D : Type} `{Ports D} `{Ioapic D} `{!Serial D}.

(** A run that sends the bytes [l] and leaves the divisor locked. *)
Definition sends {A} (m : M D A) (a : A) (l : bytes) : Prop := forall d, unlocked d = false ->
  exists d', m d = Ok (a, d') /\ line d' = line d ++ l /\ unlocked d' = false.

Lemma sends_ret {A} (a : A) : sends (ret a) a [].
Proof. intros d Hu. exists d. by rewrite app_nil_r. Qed.

Lemma sends_bind {A B} (m : M D A) (k : A -> M D B) a b l1 l2 : sends m a l1 -> sends (k a) b l2 -> sends (bind m k) b (l1 ++ l2).
Proof.
  intros Hm Hk d Hu. destruct (Hm d Hu) as (d1 & E1 & L1 & U1). destruct (Hk d1 U1) as (d2 & E2 & L2 & U2). exists d2.
  rewrite (bind_Ok _ _ _ _ _ E1). by rewrite E2, L2, L1, app_assoc.
Qed.

Lemma sends_wait n : sends (transmit_wait n) tt [].
Proof.
  induction n as [|n IH]; [apply sends_ret|]. intros d Hu. cbn [transmit_wait]. unfold bind, uin.
  destruct (serial_in d (COM1 + 5)) as [L U]. destruct (inb (COM1 + 5) d) as [v d1]. cbn [snd] in *.
  destruct (_ =? 0); [|exists d1; rewrite app_nil_r; split_and!; [done|done|congruence]].
  destruct (IH d1 ltac:(congruence)) as (d2 & E & L2 & U2). exists d2. by rewrite L2, L.
Qed.

(** However slow the line is, one byte is sent. *)
Lemma sends_putc c : present = true -> sends (uart_putc true c) tt [u8 c].
Proof.
  intros Hp. unfold uart_putc. cbn [negb]. apply (sends_bind _ _ tt tt []); [apply sends_wait|]. intros d Hu. eexists. split; [reflexivity|].
  change (COM1 + 0) with COM1. destruct (serial_send d (u8 c)) as [-> ->]. by rewrite Hp, Hu.
Qed.

Lemma sends_announce p : present = true -> sends (announce p) tt (u8 <$> p).
Proof. intros Hp. induction p as [|c p IH]; [apply sends_ret|]. apply (sends_bind _ _ tt tt [u8 c]); [by apply sends_putc|done]. Qed.

Lemma sends_ioapic irq cpu : sends (ioapicenable irq cpu) tt [].
Proof.
  intros d Hu. eexists. split; [reflexivity|]. rewrite app_nil_r.
  destruct (serial_apic (io_put (T_IRQ0 + irq) (io_select (REG_TABLE + 2 * irq) d)) (REG_TABLE + 2 * irq + 1) (u32 (Z.shiftl cpu 24))) as [-> ->].
  destruct (serial_apic d (REG_TABLE + 2 * irq) (T_IRQ0 + irq)) as [-> ->]. done.
Qed.

Lemma sends_in p : forall d, unlocked d = false -> exists v d', uin p d = Ok (v, d') /\ line d' = line d /\ unlocked d' = false.
Proof. intros d Hu. destruct (serial_in d p) as [L U]. exists (inb p d).1, (inb p d).2. unfold uin. rewrite U, L. by destruct (inb p d). Qed.

(** The set-up sends nothing, and leaves the divisor locked. *)
Lemma setup_run (k : M D bool) d : exists d', line d' = line d /\ unlocked d' = false /\
  (do! uout (COM1 + 2) 0 in do! uout (COM1 + 3) 128 in do! uout (COM1 + 0) (115200 / 9600) in do! uout (COM1 + 1) 0 in
   do! uout (COM1 + 3) 3 in do! uout (COM1 + 4) 0 in do! uout (COM1 + 1) 1 in k) d = k d'.
Proof.
  eexists. split; [|split; [|unfold bind, uout, modify; reflexivity]].
  all: change (COM1 + 0) with COM1.
  - rewrite (proj1 (serial_other _ (COM1 + 1) _ (or_introl eq_refl))), (proj1 (serial_other _ (COM1 + 4) _ (or_intror (or_intror eq_refl)))).
    rewrite (proj1 (serial_control _ _)), (proj1 (serial_other _ (COM1 + 1) _ (or_introl eq_refl))), (proj1 (serial_send _ _)).
    rewrite (proj2 (serial_control _ _)). change (Z.testbit (u8 128) 7) with true. rewrite andb_false_r.
    by rewrite (proj1 (serial_control _ _)), (proj1 (serial_other _ (COM1 + 2) _ (or_intror (or_introl eq_refl)))).
  - rewrite (proj2 (serial_other _ (COM1 + 1) _ (or_introl eq_refl))), (proj2 (serial_other _ (COM1 + 4) _ (or_intror (or_intror eq_refl)))).
    by rewrite (proj2 (serial_control _ _)).
Qed.

(** [uartinit] finds out whether there is a chip; if there is, it has sent the banner and nothing
    else, not even the divisor. *)
Theorem uartinit_announces d : exists d', uartinit d = Ok (present, d') /\ line d' = line d ++ (if present then banner else []) /\ unlocked d' = false.
Proof.
  unfold uartinit. destruct (setup_run (let! status := uin (COM1 + 5) in if status =? 255 then ret false else let! _ := uin (COM1 + 2) in
    let! _ := uin (COM1 + 0) in do! ioapicenable IRQ_COM1 0 in do! announce banner in ret true) d) as (d0 & L0 & U0 & ->).
  pose proof (serial_status d0) as Hs. destruct (serial_in d0 (COM1 + 5)) as [L1 U1]. unfold bind at 1. unfold uin at 1.
  destruct (inb (COM1 + 5) d0) as [v d1]. cbn [fst snd] in *. rewrite U0 in U1. rewrite L0 in L1. destruct present eqn:Ep.
  - apply Z.eqb_neq in Hs. rewrite Hs. destruct (sends_in (COM1 + 2) d1 U1) as (v2 & d2 & E2 & L2 & U2). mstep E2.
    destruct (sends_in (COM1 + 0) d2 U2) as (v3 & d3 & E3 & L3 & U3). mstep E3.
    destruct (sends_ioapic IRQ_COM1 0 d3 U3) as (d4 & E4 & L4 & U4). mstep E4.
    destruct (sends_announce banner Ep d4 U4) as (d5 & E5 & L5 & U5). mstep E5. exists d5.
    split; [done|]. by rewrite L5, L4, app_nil_r, L3, L2, L1.
  - apply Z.eqb_eq in Hs. rewrite Hs. exists d1. by rewrite app_nil_r.
Qed.

(** The port of the console: the bytes on the line if there is a chip. *)
Definition seen (d : D) : option bytes := if present then Some (line d) else None.

(** [uartputc] does to the line what the console says it does. *)
Theorem uartputc_refines c d s : unlocked d = false -> c_uart s = seen d -> exists d' s',
  uart_putc present c d = Ok (tt, d') /\ uartputc c s = Ok (tt, s') /\ c_uart s' = seen d' /\ unlocked d' = false.
Proof.
  intros Hu Hs. unfold seen in *. destruct present eqn:Ep.
  - destruct (sends_putc c Ep d Hu) as (d' & E & L & U). eexists d', _. split; [exact E|]. split; [reflexivity|]. cbn.
    by rewrite Hs, L.
  - exists d. eexists. split; [reflexivity|]. split; [reflexivity|]. cbn. by rewrite Hs.
Qed.

(** [uartgetc] takes the bytes in the order in which they arrived, and then says that there is none. *)
Theorem uartgetc_takes d : exists d', uartgetc present d =
  Ok (match pending d with c :: _ => if present then c else -1 | [] => -1 end, d') /\
  (present = true -> pending d' = tail (pending d)).
Proof.
  unfold uartgetc. destruct present eqn:Ep; cbn [negb]; [|exists d; split; [by destruct (pending d)|done]].
  destruct (serial_ready d Ep) as [Hr Hp]. unfold bind, uin. destruct (inb (COM1 + 5) d) as [v d1]. cbn [fst snd] in *. rewrite Hr.
  destruct (pending d) as [|c l]; cbn [decide]; [rewrite decide_True by done; exists d1; by rewrite Hp|]. rewrite decide_False by done. cbn [Z.eqb].
  destruct (serial_receive d1 c l Hp) as [Hc Hl]. change (COM1 + 0) with COM1. exists (inb COM1 d1).2. rewrite Hl.
  destruct (inb COM1 d1) as [x d2]. cbn [fst snd] in *. by subst x.
Qed.

Lemma received_all n : forall d, present = true -> Forall byte_ok (pending d) -> (length (pending d) < n)%nat ->
  exists d', received present n d = Ok (pending d, d') /\ pending d' = [].
Proof.
  induction n as [|n IH]; intros d Ep Hb Hl; [lia|]. cbn [received]. destruct (uartgetc_takes d) as (d1 & E1 & H1). mstep E1. specialize (H1 Ep).
  destruct (pending d) as [|c l] eqn:El; [exists d1; by cbn|]. assert (Ec : (if present then c else -1) = c) by (by rewrite Ep). rewrite Ec. apply Forall_cons in Hb as [Hc Hb]. unfold byte_ok in Hc.
  rewrite (proj2 (Z.ltb_ge c 0)) by lia. cbn [tail] in H1. rewrite <- H1 in Hb. cbn [length] in Hl.
  destruct (IH d1 Ep Hb) as (d2 & E2 & H2); [rewrite H1; lia|]. mstep E2. exists d2. by rewrite H1.
Qed.

(** An interrupt hands everything that has arrived to the line editor. *)
Theorem uartintr_delivers n d s : present = true -> Forall byte_ok (pending d) -> (length (pending d) < n)%nat ->
  exists d', pending d' = [] /\ uartintr present n (d, s) = zoom snd put_console (consoleintr (pending d)) (d', s).
Proof.
  intros Ep Hb Hl. destruct (received_all n d Ep Hb Hl) as (d' & E & H'). exists d'. split; [done|]. unfold uartintr, bind. unfold zoom at 1.
  cbn [fst]. by rewrite E.
Qed.
End Theorems.

(** * A chip *)

Record demo_uart := mkdu { du_line : bytes; du_pending : bytes; du_unlocked : bool }.

#[local] Instance demo_uart_ports : Ports demo_uart := {
  inb p d :=
    if p =? COM1 + 5 then (Z.lor 32 (if decide (du_pending d = []) then 0 else 1), d)
    else if p =? COM1 then (default 0 (head (du_pending d)), mkdu (du_line d) (tail (du_pending d)) (du_unlocked d)) else (0, d);
  outb p v d :=
    if p =? COM1 then if du_unlocked d then d else mkdu (du_line d ++ [v]) (du_pending d) (du_unlocked d)
    else if p =? COM1 + 3 then mkdu (du_line d) (du_pending d) (Z.testbit v 7) else d;
  insl p n d := ([], d)
}.

#[local] Instance demo_uart_ioapic : Ioapic demo_uart := { io_select r d := d; io_data d := 0; io_put v d := d }.

#[local] Instance demo_is_serial : Serial demo_uart.
Proof.
  refine {| present := true; line := du_line; pending := du_pending; unlocked := du_unlocked |}; try done.
  - intros [l p []] v; done.
  - intros d p v [->|[->| ->]]; done.
  - intros d p. cbn. destruct (p =? COM1 + 5); [done|]. by destruct (p =? COM1).
  - intros [l [|c p] u]; cbn; done.
  - intros [l [|c p] u] _; cbn; done.
  - intros d c l E. cbn. by rewrite E.
Defined.

Lemma demo_uartinit : exists d', uartinit (mkdu [] [] false) = Ok (true, d') /\ du_line d' = banner.
Proof. eexists. by vm_compute. Qed.
