(* ===== verification/Factor.v ===== *)
(** The command factor (factor.c): it prints the prime factors of its arguments. *)

From S2P Require Import Prelude Strings User.
From Stdlib Require Import Znumtheory Sorted.
Local Open Scope Z_scope.

Section Program.
  Context {W : Type} `{OS W}.

(** The loop of [integerSqrt]; [i*i] must not overflow. *)
Fixpoint integerSqrt_loop (fuel : nat) (i n : Z) : U W Z :=
  match fuel with
  | O => uloops
  | S fuel' =>
      if INT_MAX <? i * i then upure UB else
      if i * i <=? n then integerSqrt_loop fuel' (i + 1) n else uret (i - 1)
  end.

Definition integerSqrt (fuel : nat) (n : Z) : U W Z := integerSqrt_loop fuel 1 n.

(** The loops [while(n%d == 0)] of [printFactor], for 2 and for [i]. *)
Fixpoint divide_out (fuel : nat) (d n : Z) : U W Z :=
  match fuel with
  | O => uloops
  | S fuel' =>
      if Z.rem n d =? 0 then
        do* printf 1 " %d" [AInt d] in
        divide_out fuel' d (Z.quot n d)
      else uret n
  end.

(** [for (int i = 3; i <= end; i += 2)]. *)
Fixpoint trial (fuel : nat) (i last n : Z) : U W Z :=
  match fuel with
  | O => uloops
  | S fuel' =>
      if i <=? last then
        let* n' := divide_out fuel i n in
        trial fuel' (i + 2) last n'
      else uret n
  end.

Definition printFactor (fuel : nat) (n : Z) : U W unit :=
  let* n1 := divide_out fuel 2 n in
  let* last := integerSqrt fuel n1 in
  let* n2 := trial fuel 3 last n1 in
  if 2 <? n2 then printf 1 " %d" [AInt n2] else uret tt.

Fixpoint checkInt (arg : bytes) : outcome bool :=
  match arg with
  | [] => UB
  | c :: arg' =>
      if c =? 0 then Ok true else
      if (s8 c <? 48) || (57 <? s8 c) then Ok false else checkInt arg'
  end.

Definition factor_arg (fuel : nat) (arg : bytes) : U W unit :=
  let* ok := upure (checkInt arg) in
  if negb ok then printf 2 "factor: cannot calculate %s
" [AStr (Some arg)] else
  let* n := upure (Ulib.atoi arg) in
  do* printf 1 "%d:" [AInt n] in
  do* printFactor fuel n in
  printf 1 "
" [].

Fixpoint factor_args (fuel : nat) (args : list bytes) : U W unit :=
  match args with
  | [] => uexit
  | arg :: args' => do* factor_arg fuel arg in factor_args fuel args'
  end.

Definition main (fuel : nat) (argv : list bytes) : U W unit := factor_args fuel (tail argv).
End Program.

(** * Correctness *)

(** The text of a number. *)
Definition dec (n : Z) : bytes := match printint n 10 true with Ok l => l | _ => [] end.

Definition product (ps : list Z) : Z := foldr Z.mul 1 ps.

Definition factors_text (ps : list Z) : bytes := concat ((fun p => 32 :: dec p) <$> ps).

Lemma digit_byte_ok l : Forall digit l -> Forall byte_ok l.
Proof. intros Hl. eapply Forall_impl; [done|]. unfold digit, byte_ok. lia. Qed.

Lemma dec_spec n : 0 <= n <= 2147483647 -> printint n 10 true = Ok (dec n) /\ Forall digit (dec n).
Proof.
  intros Hn. destruct (printint_dec n) as (l & Dl & _ & _ & _ & El); [lia|].
  assert (n <? 0 = false) as E by lia. rewrite E in El. unfold dec. rewrite El. split; [done|].
  by apply Forall_rev.
Qed.

Lemma rem_0 n d : 0 <= n -> 2 <= d -> (Z.rem n d =? 0) = true <-> (d | n).
Proof. intros Hn Hd. rewrite Z.eqb_eq, Z.rem_mod_nonneg by lia. rewrite Z.mod_divide by lia. done. Qed.

Section Spec.
  Context {W : Type} `{OSLaws W}.

Lemma print_factor d w : 0 <= d <= 2147483647 -> uv_fds (view w) !! 1 = Some DTty ->
  exists w', printf 1 " %d" [AInt d] w = Done tt w' /\ prints 1 (32 :: dec d) (view w) (view w').
Proof.
  intros Hd Hfd. destruct (dec_spec d Hd) as [Ed Dd]. apply printf_prints; [|constructor; [by unfold byte_ok|by apply digit_byte_ok]|done].
  unfold printf_text. texts. cbn -[printint]. rewrite Ed. cbn. by rewrite app_nil_r.
Qed.

(** [divide_out] takes out all the factors [d]. *)
Lemma divide_out_spec fuel d n w : 2 <= d <= 2147483647 -> 1 <= n < 2 ^ Z.of_nat fuel -> uv_fds (view w) !! 1 = Some DTty ->
  exists k m w', divide_out fuel d n w = Done m w' /\ n = product (replicate k d) * m /\ 1 <= m /\ ~ (d | m) /\
    (k <> O -> (d | n)) /\ prints 1 (factors_text (replicate k d)) (view w) (view w').
Proof.
  intros Hd. revert n w. induction fuel as [|fuel IH]; intros n w Hn Hfd; [cbn in Hn; lia|].
  cbn [divide_out]. destruct (Z.rem n d =? 0) eqn:E.
  - apply rem_0 in E; [|lia..]. destruct (print_factor d w) as (w1 & E1 & P1); [lia|done|].
    ustep E1. destruct E as [q Hq]. assert (Z.quot n d = q) as ->.
    { rewrite Z.quot_div_nonneg, Hq, Z.div_mul by lia. done. }
    rewrite Nat2Z.inj_succ, Z.pow_succ_r in Hn by lia.
    destruct (IH q w1) as (k & m & w2 & E2 & Em & H1 & Hnd & _ & P2); [nia|by rewrite (prints_fds _ _ _ _ P1)|].
    exists (S k), m, w2. split_and!; [done| |done|done|intros _; by exists q|].
    + cbn. fold (product (replicate k d)). rewrite Hq, Em. ring.
    + change (factors_text (replicate (S k) d)) with ((32 :: dec d) ++ factors_text (replicate k d)).
      by eapply prints_trans.
  - exists O, n, w. split_and!; [done|cbn; lia|lia| |done|apply prints_refl].
    intros Hdiv. apply rem_0 in Hdiv; [congruence|lia..].
Qed.

Lemma integerSqrt_spec fuel n (w : W) : 1 <= n < 46340 * 46340 -> 46342 <= Z.of_nat fuel ->
  exists r, integerSqrt fuel n w = Done r w /\ 1 <= r /\ r * r <= n < (r + 1) * (r + 1).
Proof.
  intros Hn Hf. unfold integerSqrt.
  assert (G : forall fuel i, 1 <= i <= 46340 -> (i - 1) * (i - 1) <= n -> (i = 1 \/ 2 <= i) -> (46341 - i < Z.of_nat fuel) ->
    exists r, integerSqrt_loop fuel i n w = Done r w /\ 1 <= r /\ r * r <= n < (r + 1) * (r + 1)).
  { clear fuel Hf. intros fuel. induction fuel as [|fuel IH]; intros i Hi Hlow Hi2 Hf; [lia|].
    cbn [integerSqrt_loop]. assert (INT_MAX <? i * i = false) as -> by (unfold INT_MAX; nia).
    destruct (i * i <=? n) eqn:E.
    - destruct (IH (i + 1)) as (r & Er & Hr); [nia|nia|lia|lia|]. by exists r.
    - exists (i - 1). split; [done|]. split; [nia|]. nia. }
  apply G; lia.
Qed.

(** No divisor below [i]. *)
Definition rough (i n : Z) : Prop := forall d, 2 <= d < i -> ~ (d | n).

Lemma rough_prime i n : rough i n -> 2 <= i -> (i | n) -> prime i.
Proof.
  intros Hr Hi Hd. apply prime_alt. split; [lia|]. intros d Hdi Hdd. apply (Hr d); [lia|]. by apply Z.divide_trans with i.
Qed.

Lemma rough_last i n r : rough i n -> r < i -> 1 < n < (r + 1) * (r + 1) -> 0 <= r -> prime n.
Proof.
  intros Hr Hi Hn Hr0. destruct (prime_dec n) as [|Hnp]; [done|]. exfalso.
  destruct (not_prime_divide n) as (d & Hd & [q Hq]); [lia|done|].
  destruct (decide (d < i)) as [Hlt|Hge]; [apply (Hr d); [lia|by exists q]|].
  apply (Hr q); [nia|]. exists d. lia.
Qed.

Lemma product_app l l' : product (l ++ l') = product l * product l'.
Proof. induction l as [|x l IH]; cbn; [by rewrite Z.mul_1_l|]. fold (product (l ++ l')) (product l). rewrite IH. ring. Qed.

Lemma factors_text_app l l' : factors_text (l ++ l') = factors_text l ++ factors_text l'.
Proof. unfold factors_text. by rewrite fmap_app, concat_app. Qed.

(** A sorted list of primes between [a] and [b]. *)
Definition primes_in (a b : Z) (ps : list Z) : Prop :=
  Forall prime ps /\ StronglySorted Z.le ps /\ Forall (fun p => a <= p <= b) ps.

Lemma sorted_replicate k (d : Z) l : StronglySorted Z.le l -> Forall (Z.le d) l -> StronglySorted Z.le (replicate k d ++ l).
Proof.
  intros Hs Hl. induction k as [|k IH]; [done|]. cbn. constructor; [done|]. apply Forall_app. split; [|done].
  by apply Forall_replicate.
Qed.

Lemma primes_in_cons a b k d ps : (k <> O -> prime d) -> a <= d -> d <= b -> primes_in (d + 1) b ps ->
  primes_in a b (replicate k d ++ ps).
Proof.
  intros Hp Ha Hb (P & S & B). split_and!.
  - apply Forall_app. split; [|done]. destruct k; [constructor|]. by apply Forall_replicate, Hp.
  - apply sorted_replicate; [done|]. eapply Forall_impl; [exact B|]. cbn. lia.
  - apply Forall_app. split; [by apply Forall_replicate|]. eapply Forall_impl; [exact B|]. cbn. lia.
Qed.

Lemma primes_in_widen a a' b b' ps : primes_in a b ps -> a' <= a -> b <= b' -> primes_in a' b' ps.
Proof. intros (P & S & B) Ha Hb. split_and!; [done..|]. eapply Forall_impl; [exact B|]. cbn. lia. Qed.

Lemma sorted_snoc l (q : Z) : StronglySorted Z.le l -> Forall (fun p => p <= q) l -> StronglySorted Z.le (l ++ [q]).
Proof.
  intros Hs. induction Hs as [|p l Hs IH Hp]; intros Hq; cbn; [by repeat constructor|].
  apply Forall_cons in Hq as [Hq1 Hq2]. constructor; [auto|]. apply Forall_app. split; [done|by constructor].
Qed.

Lemma trial_spec fuel i last n w : 3 <= i -> ~ (2 | i) -> rough i n -> 1 <= n < 2147483648 -> ~ (2 | n) ->
  0 <= last <= 46340 -> 31 <= Z.of_nat fuel -> last < i + 2 * (Z.of_nat fuel - 31) -> uv_fds (view w) !! 1 = Some DTty ->
  exists ps m w', trial fuel i last n w = Done m w' /\ n = product ps * m /\ 1 <= m /\ ~ (2 | m) /\ rough (last + 1) m /\
    primes_in i (Z.max last 1) ps /\ prints 1 (factors_text ps) (view w) (view w').
Proof.
  revert i n w. induction fuel as [|fuel IH]; intros i n w Hi Hodd Hr Hn Hn2 Hlast Hf Hfi Hfd; [lia|].
  cbn [trial]. destruct (i <=? last) eqn:E.
  - assert (2 ^ 31 <= 2 ^ Z.of_nat (S fuel)) as Hpow by (apply Z.pow_le_mono_r; lia).
    destruct (divide_out_spec (S fuel) i n w) as (k & m & w1 & E1 & Em & H1 & Hnd & Hk & P1); [lia|lia|done|].
    assert (Hmn : (m | n)) by (exists (product (replicate k i)); done).
    ustep E1. destruct (IH (i + 2) m w1) as (ps & m' & w2 & E2 & Em2 & H1' & Hodd' & Hr' & Hps & P2).
    + lia.
    + intros [q Hq]. apply Hodd. exists (q - 1). lia.
    + intros d Hd Hdm. destruct (decide (d < i)); [by apply (Hr d); [lia|apply Z.divide_trans with m]|].
      destruct (decide (d = i)) as [->|]; [done|]. assert (d = i + 1) as -> by lia.
      apply Hn2. apply Z.divide_trans with m; [|done]. apply Z.divide_trans with (i + 1); [|done].
      destruct (Z.Even_or_Odd i) as [[x Hx]|[x Hx]]; [destruct Hodd; exists x; lia|exists (x + 1); lia].
    + split; [lia|]. apply Z.divide_pos_le in Hmn; lia.
    + intros H2. apply Hn2. by apply Z.divide_trans with m.
    + lia.
    + lia.
    + lia.
    + by rewrite (prints_fds _ _ _ _ P1).
    + exists (replicate k i ++ ps), m', w2. split_and!; [done| |done|done|done| |].
      * rewrite product_app, Em, Em2. ring.
      * apply primes_in_cons; [|lia|lia|by eapply primes_in_widen; [done|lia|lia]].
        intros Hk0. apply (rough_prime i n); [done|lia|auto].
      * rewrite factors_text_app. by eapply prints_trans.
  - exists [], n, w. split_and!; [done|cbn; lia|lia|done| | |apply prints_refl].
    + intros d Hd. apply Hr. lia.
    + split_and!; constructor.
Qed.

(** [printFactor] prints the primes of [n], in order. *)
Lemma printFactor_spec fuel n w : 1 <= n < 46340 * 46340 -> 46400 <= Z.of_nat fuel -> uv_fds (view w) !! 1 = Some DTty ->
  exists ps w', printFactor fuel n w = Done tt w' /\ Forall prime ps /\ StronglySorted Z.le ps /\ product ps = n /\
    prints 1 (factors_text ps) (view w) (view w').
Proof.
  intros Hn Hf Hfd. assert (2 ^ 31 <= 2 ^ Z.of_nat fuel) as Hpow by (apply Z.pow_le_mono_r; lia).
  destruct (divide_out_spec fuel 2 n w) as (k & m & w1 & E1 & Em & H1 & Hodd & _ & P1); [lia|lia|done|].
  assert (Hmn : m <= n) by (apply Z.divide_pos_le; [lia|]; by exists (product (replicate k 2))).
  destruct (integerSqrt_spec fuel m w1) as (r & Er & Hr1 & Hr); [lia|lia|].
  destruct (trial_spec fuel 3 r m w1) as (ps & q & w2 & E2 & Eq & Hq1 & Hq2 & Hrough & Hps & P2).
  { lia. } { intros [x Hx]. lia. } { intros d Hd. by assert (d = 2) as -> by lia. } { lia. } { done. } { nia. } { lia. } { nia. }
  { by rewrite (prints_fds _ _ _ _ P1). }
  assert (Hqm : q <= m) by (apply Z.divide_pos_le; [lia|]; by exists (product ps)).
  unfold printFactor. ustep E1. ustep Er. ustep E2.
  assert (Hall : primes_in 2 (Z.max r 2) (replicate k 2 ++ ps)).
  { apply primes_in_cons; [intros _; apply prime_2|lia|lia|]. by eapply primes_in_widen; [done|lia|lia]. }
  assert (En : product (replicate k 2 ++ ps) * q = n) by (rewrite product_app, Em, Eq; ring).
  assert (P12 : prints 1 (factors_text (replicate k 2 ++ ps)) (view w) (view w2)).
  { rewrite factors_text_app. by eapply prints_trans. }
  destruct (2 <? q) eqn:E.
  - destruct (print_factor q w2) as (w3 & E3 & P3); [lia|by rewrite (prints_fds _ _ _ _ P12)|].
    assert (Hp : prime q) by (apply (rough_last (r + 1) q r); [done|lia|lia|lia]).
    assert (Hqr : Z.max r 2 < q).
    { destruct (decide (q < r + 1)); [|lia]. destruct (Hrough q); [lia|apply Z.divide_refl]. }
    exists ((replicate k 2 ++ ps) ++ [q]), w3. destruct Hall as (A1 & A2 & A3). split_and!; [done| | | |].
    + apply Forall_app; split; [done|by constructor].
    + apply sorted_snoc; [done|]. eapply Forall_impl; [exact A3|]. cbn. lia.
    + rewrite product_app, <- En. cbn. ring.
    + rewrite factors_text_app. eapply prints_trans; [done|]. unfold factors_text. cbn. by rewrite app_nil_r.
  - assert (q = 1) as -> by (destruct (decide (q = 2)) as [->|]; [destruct Hq2; by exists 1|lia]).
    exists (replicate k 2 ++ ps), w2. destruct Hall as (A1 & A2 & A3). split_and!; [done..|lia|done].
Qed.

Lemma checkInt_digits l : Forall digit l -> checkInt (rev l ++ [0]) = Ok true.
Proof.
  intros Hl. apply Forall_rev in Hl. induction Hl as [|c l' Hc Hl IH]; [done|]. cbn. unfold digit in Hc.
  assert (c =? 0 = false) as -> by lia. assert (s8 c = c) as -> by ints.
  assert ((c <? 48) || (57 <? c) = false) as -> by (apply orb_false_intro; lia). done.
Qed.

Definition factor_line (ds : bytes) (ps : list Z) : bytes := dec (lsd_val ds) ++ [58] ++ factors_text ps ++ [10].

Definition factorises (ds : bytes) (ps : list Z) : Prop :=
  Forall prime ps /\ StronglySorted Z.le ps /\ product ps = lsd_val ds.

Lemma factor_arg_spec fuel ds w : 46400 <= Z.of_nat fuel -> Forall digit ds -> 1 <= lsd_val ds < 46340 * 46340 ->
  uv_fds (view w) !! 1 = Some DTty ->
  exists ps w', factor_arg fuel (rev ds ++ [0]) w = Done tt w' /\ factorises ds ps /\
    prints 1 (factor_line ds ps) (view w) (view w').
Proof.
  intros Hf Hds Hn Hfd. set (n := lsd_val ds) in *.
  assert (Ea : Ulib.atoi (rev ds ++ [0]) = Ok n).
  { unfold Ulib.atoi. rewrite atoi_loop_digits; [|done|lia|unfold INT_MAX; fold n; lia]. cbn. f_equal. }
  destruct (dec_spec n) as [Ed Dd]; [lia|].
  destruct (printf_prints 1 "%d:" [AInt n] w (dec n ++ [58])) as (w1 & E1 & P1).
  { unfold printf_text. texts. cbn -[printint]. by rewrite Ed. }
  { apply Forall_app. split; [by apply digit_byte_ok|by repeat constructor]. }
  { done. }
  destruct (printFactor_spec fuel n w1) as (ps & w2 & E2 & H1 & H2 & H3 & P2); [done|done|by rewrite (prints_fds _ _ _ _ P1)|].
  pose proof (prints_trans _ _ _ _ _ _ P1 P2) as P12.
  destruct (printf_prints 1 "
" [] w2 [10]) as (w3 & E3 & P3); [done|by repeat constructor|by rewrite (prints_fds _ _ _ _ P12)|].
  exists ps, w3. split; [|split; [done|]].
  - unfold factor_arg, upure. rewrite checkInt_digits by done. cbn. rewrite Ea. cbn. ustep E1. ustep E2. exact E3.
  - unfold factor_line. fold n. pose proof (prints_trans _ _ _ _ _ _ P12 P3) as P. by rewrite <- !app_assoc in P.
Qed.

Lemma factor_args_spec fuel nums w : 46400 <= Z.of_nat fuel ->
  Forall (fun ds => Forall digit ds /\ 1 <= lsd_val ds < 46340 * 46340) nums -> uv_fds (view w) !! 1 = Some DTty ->
  exists pss w', factor_args fuel ((fun ds => rev ds ++ [0]) <$> nums) w = Exited w' /\ Forall2 factorises nums pss /\
    prints 1 (concat (zip_with factor_line nums pss)) (view w) (view w').
Proof.
  intros Hf Hn. revert w. induction Hn as [|ds nums [Hd Hv] Hn IH]; intros w Hfd.
  - exists [], w. split; [done|]. split; [done|apply prints_refl].
  - destruct (factor_arg_spec fuel ds w Hf Hd Hv Hfd) as (ps & w1 & E1 & F1 & P1).
    destruct (IH w1) as (pss & w2 & E2 & F2 & P2); [by rewrite (prints_fds _ _ _ _ P1)|].
    exists (ps :: pss), w2. split; [cbn [fmap list_fmap factor_args]; ustep E1; exact E2|]. split; [by constructor|].
    cbn [zip_with concat]. by eapply prints_trans.
Qed.

(** C25. Functional correctness and termination of factor: for each argument in
    decimal, of a value between 1 and 46340^2 - 1, the command prints a line with
    the value and its prime factors, in increasing order, and then exits. *)
Theorem factor_correct fuel prog nums w : 46400 <= Z.of_nat fuel ->
  Forall (fun ds => Forall digit ds /\ 1 <= lsd_val ds < 46340 * 46340) nums -> uv_fds (view w) !! 1 = Some DTty ->
  exists pss w', main fuel (prog :: ((fun ds => rev ds ++ [0]) <$> nums)) w = Exited w' /\
    Forall2 factorises nums pss /\ prints 1 (concat (zip_with factor_line nums pss)) (view w) (view w').
Proof. apply factor_args_spec. Qed.

(** The argument 0 is divided by 2 for ever, and from 46340^2 on the search for
    the square root overflows an int. *)
Lemma divide_zero fuel w : uv_fds (view w) !! 1 = Some DTty -> divide_out fuel 2 0 w = Loops.
Proof.
  revert w. induction fuel as [|fuel IH]; intros w Hfd; [done|].
  destruct (print_factor 2 w) as (w1 & E1 & P1); [lia|done|]. cbn [divide_out].
  change (Z.rem 0 2 =? 0) with true. cbv iota. ustep E1. apply IH. by rewrite (prints_fds _ _ _ _ P1).
Qed.

Lemma integerSqrt_overflows fuel n (w : W) : 46340 * 46340 <= n -> 46341 < Z.of_nat fuel -> integerSqrt fuel n w = Undef.
Proof.
  intros Hn Hf. unfold integerSqrt.
  assert (G : forall fuel i, 1 <= i <= 46341 -> 46341 - i < Z.of_nat fuel -> integerSqrt_loop fuel i n w = Undef).
  { clear fuel Hf. intros fuel. induction fuel as [|fuel IH]; intros i Hi Hf; [lia|]. cbn [integerSqrt_loop].
    destruct (INT_MAX <? i * i) eqn:E; [done|]. unfold INT_MAX in E.
    assert (i <= 46340) by (destruct (decide (i = 46341)) as [->|]; lia).
    assert (i * i <=? n = true) as -> by nia. apply IH; lia. }
  apply G; lia.
Qed.

(** C26. Outside that range factor fails: on 0 it never ends, whatever the bound
    on its loops, and on an odd int from 46340^2 on it overflows. *)
Theorem factor_out_of_range fuel n w : uv_fds (view w) !! 1 = Some DTty ->
  printFactor fuel 0 w = Loops /\
  (46341 < Z.of_nat fuel -> 46340 * 46340 <= n <= INT_MAX -> ~ (2 | n) -> printFactor fuel n w = Undef).
Proof.
  intros Hfd. unfold printFactor. split.
  - unfold ubind. by rewrite divide_zero.
  - intros Hf Hn H2. assert (E : divide_out fuel 2 n w = Done n w).
    { destruct fuel; [cbn in Hf; lia|]. cbn [divide_out]. destruct (Z.rem n 2 =? 0) eqn:E; [|done].
      apply rem_0 in E; [done|lia..]. }
    ustep E. unfold ubind. by rewrite integerSqrt_overflows by lia.
Qed.
End Spec.

Import UView.

Definition demo_view : uview := mkuview ∅ ∅ (<[1 := DTty]> ∅) ∅.

Lemma factor_correct_witness : exists pss w',
  main (W := uview) (Z.to_nat 46400) [[102; 0]; text "360" ++ [0]] demo_view = Exited w' /\ Forall2 factorises [rev (text "360")] pss.
Proof.
  destruct (factor_correct (W := uview) (Z.to_nat 46400) [102; 0] [rev (text "360")] demo_view) as (pss & w' & E & F & _).
  - rewrite Z2Nat.id; lia.
  - constructor; [|constructor]. split; [|vm_compute; intuition congruence].
    texts. repeat constructor; discriminate.
  - reflexivity.
  - exists pss, w'. by split.
Defined.

Lemma factor_out_of_range_witness :
  printFactor (W := uview) 1000 0 demo_view = Loops /\ printFactor (Z.to_nat 46350) INT_MAX demo_view = Undef.
Proof.
  assert (Ho : ~ (2 | INT_MAX)) by (intros [x Hx]; unfold INT_MAX in Hx; lia).
  destruct (factor_out_of_range (W := uview) 1000 INT_MAX demo_view) as [H1 _]; [reflexivity|].
  destruct (factor_out_of_range (W := uview) (Z.to_nat 46350) INT_MAX demo_view) as [_ H2]; [reflexivity|].
  split; [exact H1|]. apply H2; [lia|unfold INT_MAX; lia|exact Ho].
Defined.
