(* ===== verification/Base64.v ===== *)
(** The command base64 (base64.c), with the encoding of RFC 4648 as its reference. *)

From S2P Require Import Prelude Strings User.
Local Open Scope Z_scope.

Definition key : bytes := text "ABCDEFGHIJKLMNOPQRSTUVWXYZabcdefghijklmnopqrstuvwxyz0123456789+/".

(** The inner for loop: [bits] after the bytes of [buf], each a signed char. *)
Definition gather (buf : bytes) : Z := foldl (fun bits c => Z.shiftl bits 8 + s8 c) 0 buf.

(** [key[(bits >> k) & 63]]. *)
Definition pick (bits k : Z) : Z := getb key (Z.land (Z.shiftr bits k) 63).

Section Program.
  Context {W : Type} `{OS W}.

Definition print_group (n : Z) (buf : bytes) : U W unit :=
  let bits := gather buf in
  if n =? 1 then
    let bits := Z.shiftl bits 4 in
    do* printf 1 "%c" [AInt (pick bits 6)] in
    do* printf 1 "%c" [AInt (pick bits 0)] in
    printf 1 "==" []
  else if n =? 2 then
    let bits := Z.shiftl bits 2 in
    do* printf 1 "%c" [AInt (pick bits 12)] in
    do* printf 1 "%c" [AInt (pick bits 6)] in
    do* printf 1 "%c" [AInt (pick bits 0)] in
    printf 1 "=" []
  else if n =? 3 then
    do* printf 1 "%c" [AInt (pick bits 18)] in
    do* printf 1 "%c" [AInt (pick bits 12)] in
    do* printf 1 "%c" [AInt (pick bits 6)] in
    printf 1 "%c" [AInt (pick bits 0)]
  else uret tt.

Fixpoint encode_loop (fuel : nat) (fd : Z) : U W unit :=
  match fuel with
  | O => uloops
  | S fuel' =>
      let* r := uread fd 3 in
      if 0 <? fst r then do* print_group (fst r) (snd r) in encode_loop fuel' fd
      else uret tt
  end.

Definition encode (fuel : nat) (fd : Z) : U W unit :=
  do* encode_loop fuel fd in
  printf 1 "
" [].

Definition encode_file (fuel : nat) (arg : bytes) : U W unit :=
  let* fd := uopen arg 0 in
  if fd <? 0 then printf 2 "base64: cannot open %s
" [AStr (Some arg)] else
  let* r := ufstat fd in
  if fst r <? 0 then
    do* printf 2 "base64: cannot stat %s
" [AStr (Some arg)] in
    do* uclose fd in
    uret tt
  else if negb (us_type (snd r) =? T_FILE) then
    do* printf 2 "base64: cannot encode %s
" [AStr (Some arg)] in
    do* uclose fd in
    uret tt
  else
    do* printf 1 "%s: " [AStr (Some arg)] in
    do* encode fuel fd in
    do* uclose fd in
    uret tt.

Fixpoint encode_files (fuel : nat) (args : list bytes) : U W unit :=
  match args with
  | [] => uexit
  | arg :: args' => do* encode_file fuel arg in encode_files fuel args'
  end.

Definition main (fuel : nat) (argv : list bytes) : U W unit :=
  match argv with
  | [_] => do* encode fuel 0 in uexit
  | _ => encode_files fuel (tail argv)
  end.
End Program.

(** * The reference *)

(** The 6-bit value of a character. *)
Definition sextet (i : Z) : Z := getb key i.

Fixpoint b64 (l : bytes) : bytes :=
  match l with
  | a :: b :: c :: l' =>
      [sextet (a / 4); sextet (a mod 4 * 16 + b / 16); sextet (b mod 16 * 4 + c / 64); sextet (c mod 64)] ++ b64 l'
  | [a; b] => [sextet (a / 4); sextet (a mod 4 * 16 + b / 16); sextet (b mod 16 * 4); 61]
  | [a] => [sextet (a / 4); sextet (a mod 4 * 16); 61; 61]
  | [] => []
  end.

Definition unkey (c : Z) : Z := match list_find (fun x => x = c) key with Some (i, _) => Z.of_nat i | None => 0 end.

(** The decoder of the RFC, on well-formed input. *)
Fixpoint unb64 (t : bytes) : bytes :=
  match t with
  | w :: x :: y :: z :: t' =>
      let a := unkey w * 4 + unkey x / 16 in
      let b := unkey x mod 16 * 16 + unkey y / 4 in
      let c := unkey y mod 4 * 64 + unkey z in
      if y =? 61 then [a] else if z =? 61 then [a; b] else a :: b :: c :: unb64 t'
  | _ => []
  end.

Lemma sextets (P : Z -> Prop) : Forall P (Z.of_nat <$> seq 0 64) -> forall i, 0 <= i < 64 -> P i.
Proof.
  intros HP i Hi. rewrite Forall_forall in HP. apply HP. apply list_elem_of_fmap. exists (Z.to_nat i).
  split; [lia|]. apply elem_of_seq. lia.
Qed.

Lemma sextet_facts i : 0 <= i < 64 -> unkey (sextet i) = i /\ sextet i <> 61 /\ byte_ok (sextet i).
Proof.
  revert i. apply sextets. cbn [seq fmap list_fmap]. unfold byte_ok.
  repeat (constructor; [split_and!; [reflexivity|vm_compute; congruence|vm_compute; congruence|vm_compute; congruence]|]). constructor.
Qed.

Lemma byte_split a : byte_ok a -> 0 <= a / 4 < 64 /\ 0 <= a mod 4 < 4 /\ 0 <= a / 16 < 16 /\ 0 <= a mod 16 < 16 /\
  0 <= a / 64 < 4 /\ 0 <= a mod 64 < 64.
Proof. unfold byte_ok. intros Ha. divmod. Qed.

(** Lists by groups of three. *)
Lemma groups_ind (P : bytes -> Prop) : P [] -> (forall a, P [a]) -> (forall a b, P [a; b]) ->
  (forall a b c l, P l -> P (a :: b :: c :: l)) -> forall l, P l.
Proof.
  intros H0 H1 H2 H3. fix IH 1. intros [|a [|b [|c l]]]; [apply H0|apply H1|apply H2|apply H3, IH].
Qed.

Lemma b64_roundtrip l : Forall byte_ok l -> unb64 (b64 l) = l.
Proof.
  induction l as [|a|a b|a b c l IH] using groups_ind; intros Hl; [done|..];
    repeat match goal with H : Forall byte_ok (_ :: _) |- _ => apply Forall_cons in H as [? ?] end;
    repeat match goal with H : byte_ok ?x |- _ => pose proof (byte_split x H); unfold byte_ok in H end; cbn [b64 unb64 app].
  - destruct (sextet_facts (a / 4)) as (-> & N1 & _); [lia|].
    destruct (sextet_facts (a mod 4 * 16)) as (-> & N2 & _); [lia|]. cbn. f_equal. divmod.
  - destruct (sextet_facts (a / 4)) as (-> & N1 & _); [lia|].
    destruct (sextet_facts (a mod 4 * 16 + b / 16)) as (-> & N2 & _); [lia|].
    destruct (sextet_facts (b mod 16 * 4)) as (-> & N3 & _); [lia|].
    rewrite (proj2 (Z.eqb_neq _ _) N3). cbn. f_equal; [|f_equal]; divmod.
  - destruct (sextet_facts (a / 4)) as (-> & N1 & _); [lia|].
    destruct (sextet_facts (a mod 4 * 16 + b / 16)) as (-> & N2 & _); [lia|].
    destruct (sextet_facts (b mod 16 * 4 + c / 64)) as (-> & N3 & _); [lia|].
    destruct (sextet_facts (c mod 64)) as (-> & N4 & _); [lia|].
    rewrite (proj2 (Z.eqb_neq _ _) N3), (proj2 (Z.eqb_neq _ _) N4). rewrite IH by done.
    f_equal; [divmod|]. f_equal; [divmod|]. f_equal. divmod.
Qed.

Lemma b64_bytes l : Forall byte_ok l -> Forall byte_ok (b64 l).
Proof.
  induction l as [|a|a b|a b c l IH] using groups_ind; intros Hl; [constructor|..];
    repeat match goal with H : Forall byte_ok (_ :: _) |- _ => apply Forall_cons in H as [? ?] end;
    repeat match goal with H : byte_ok ?x |- _ => pose proof (byte_split x H); unfold byte_ok in H end; cbn [b64 app];
    repeat (constructor; [try (apply sextet_facts; lia); done|]); try constructor. auto.
Qed.

(** * The groups the program prints *)

Lemma pick_div bits k : 0 <= k -> pick bits k = sextet (bits / 2 ^ k mod 64).
Proof. intros Hk. unfold pick, sextet. rewrite Z.shiftr_div_pow2 by lia. by rewrite (Z.land_ones _ 6). Qed.

(** The characters of a group. *)
Definition group (buf : bytes) : bytes :=
  let bits := gather buf in
  match buf with
  | [_] => [pick (Z.shiftl bits 4) 6; pick (Z.shiftl bits 4) 0; 61; 61]
  | [_; _] => [pick (Z.shiftl bits 2) 12; pick (Z.shiftl bits 2) 6; pick (Z.shiftl bits 2) 0; 61]
  | [_; _; _] => [pick bits 18; pick bits 12; pick bits 6; pick bits 0]
  | _ => []
  end.

Lemma gather1 a : gather [a] = s8 a.
Proof. unfold gather. cbn [foldl]. by rewrite Z.shiftl_0_l. Qed.

Lemma gather2 a b : gather [a; b] = s8 a * 256 + s8 b.
Proof. unfold gather. cbn [foldl]. rewrite Z.shiftl_0_l, Z.shiftl_mul_pow2 by lia. lia. Qed.

Lemma gather3 a b c : gather [a; b; c] = s8 a * 65536 + s8 b * 256 + s8 c.
Proof. unfold gather. cbn [foldl]. rewrite Z.shiftl_0_l, !Z.shiftl_mul_pow2 by lia. lia. Qed.

Lemma s8_small x : 0 <= x < 128 -> s8 x = x.
Proof. intros. ints. Qed.

Lemma group_ascii buf : Forall (fun c => 0 <= c < 128) buf -> (1 <= length buf <= 3)%nat -> group buf = b64 buf.
Proof.
  intros Hb Hl. destruct buf as [|a [|b [|c [|]]]]; cbn in Hl; try lia;
    repeat match goal with H : Forall _ (_ :: _) |- _ => apply Forall_cons in H as [? ?] end; cbn [group b64 app];
    rewrite ?gather1, ?gather2, ?gather3, ?pick_div by lia; rewrite ?Z.shiftl_mul_pow2 by lia;
    repeat match goal with H : 0 <= ?x < 128 |- _ => rewrite (s8_small x) by lia end; cbn [Z.pow Z.pow_pos Pos.iter Z.mul Pos.mul].
  - f_equal; [|f_equal]; f_equal; divmod.
  - f_equal; [|f_equal; [|f_equal]]; f_equal; divmod.
  - f_equal; [|f_equal; [|f_equal; [|f_equal]]]; f_equal; divmod.
Qed.

Lemma pick_byte bits k : 0 <= k -> byte_ok (pick bits k).
Proof. intros Hk. rewrite pick_div by done. apply sextet_facts. apply Z.mod_pos_bound. lia. Qed.

Section Spec.
  Context {W : Type} `{OSLaws W}.

Lemma print_char k w : byte_ok k -> uv_fds (view w) !! 1 = Some DTty ->
  exists w', printf 1 "%c" [AInt k] w = Done tt w' /\ prints 1 [k] (view w) (view w').
Proof.
  intros Hk Hfd. apply printf_prints; [|by constructor|done]. unfold printf_text. texts. cbn.
  by assert (u8 k = k) as -> by (unfold byte_ok in Hk; ints).
Qed.

Lemma print_lit s w : Forall byte_ok (text s) -> printf_text s [] = Ok (text s) -> uv_fds (view w) !! 1 = Some DTty ->
  exists w', printf 1 s [] w = Done tt w' /\ prints 1 (text s) (view w) (view w').
Proof. intros. by apply printf_prints. Qed.

Ltac one_char k w w' E P :=
  destruct (print_char k w) as (w' & E & P); [by apply pick_byte|first [done | erewrite prints_fds; [|eassumption]; done]|].

Lemma print_group_prints buf w : (1 <= length buf <= 3)%nat -> uv_fds (view w) !! 1 = Some DTty ->
  exists w', print_group (Z.of_nat (length buf)) buf w = Done tt w' /\ prints 1 (group buf) (view w) (view w').
Proof.
  intros Hl Hfd. unfold print_group. destruct buf as [|a [|b [|c [|]]]]; cbn in Hl; try lia; 
    cbn [length group]; cbv zeta;
    repeat match goal with |- context [Z.of_nat ?i =? ?j] => let b := eval vm_compute in (Z.of_nat i =? j) in
      change (Z.of_nat i =? j) with b end; cbv iota.
  - set (bits := Z.shiftl _ _). one_char (pick bits 6) w w1 E1 P1. one_char (pick bits 0) w1 w2 E2 P2.
    pose proof (prints_trans _ _ _ _ _ _ P1 P2) as P.
    destruct (print_lit "==" w2) as (w3 & E3 & P3); [by repeat constructor|done|by rewrite (prints_fds _ _ _ _ P)|].
    exists w3. split; [by ustep E1; ustep E2|]. exact (prints_trans _ _ _ _ _ _ P P3).
  - set (bits := Z.shiftl _ _). one_char (pick bits 12) w w1 E1 P1. one_char (pick bits 6) w1 w2 E2 P2.
    pose proof (prints_trans _ _ _ _ _ _ P1 P2) as P. one_char (pick bits 0) w2 w3 E3 P3.
    pose proof (prints_trans _ _ _ _ _ _ P P3) as Q.
    destruct (print_lit "=" w3) as (w4 & E4 & P4); [by repeat constructor|done|by rewrite (prints_fds _ _ _ _ Q)|].
    exists w4. split; [by ustep E1; ustep E2; ustep E3|]. exact (prints_trans _ _ _ _ _ _ Q P4).
  - set (bits := gather _). one_char (pick bits 18) w w1 E1 P1. one_char (pick bits 12) w1 w2 E2 P2.
    pose proof (prints_trans _ _ _ _ _ _ P1 P2) as P. one_char (pick bits 6) w2 w3 E3 P3.
    pose proof (prints_trans _ _ _ _ _ _ P P3) as Q. one_char (pick bits 0) w3 w4 E4 P4.
    exists w4. split; [by ustep E1; ustep E2; ustep E3|]. exact (prints_trans _ _ _ _ _ _ Q P4).
Qed.

Lemma b64_step l : b64 l = b64 (take 3 l) ++ b64 (drop 3 l).
Proof. by destruct l as [|a [|b [|c l]]]. Qed.

Definition ascii (l : bytes) : Prop := Forall (fun c => 0 <= c < 128) l.

(** The loop prints the encoding of what is left of the file. *)
Lemma encode_loop_spec fuel fd p off c w : open_at fd p off c w -> uv_fds (view w) !! 1 = Some DTty -> ascii c ->
  Z.of_nat (length c) - Z.of_nat off + 3 <= 3 * Z.of_nat fuel ->
  exists w', encode_loop fuel fd w = Done tt w' /\
    prints 1 (b64 (drop off c)) (on_fds (insert fd (DFile p (length c))) (view w)) (view w').
Proof.
  revert off w. induction fuel as [|fuel IH]; intros off w Ho H1 Hc Hf; [destruct Ho as (_ & _ & ?); lia|].
  pose proof (open_at_fd _ _ _ _ _ Ho H1) as Hne. cbn [encode_loop].
  destruct (read_step fd 3 p off c w Ho) as (w1 & k & R1 & O1 & V1 & K0 & K1 & K2); [lia|].
  ustep R1. cbn [fst snd]. destruct (0 <? Z.of_nat k) eqn:E0.
  - set (data := take k (drop off c)).
    assert (Hk : length data = k) by (unfold data; rewrite length_take, length_drop; destruct O1 as (_ & _ & ?); lia).
    assert (Hd : data = take 3 (drop off c) /\ drop (off + k) c = drop 3 (drop off c)).
    { unfold data. rewrite drop_drop. destruct K1 as [K1|K1]; [by assert (k = 3%nat) as -> by lia|].
      split; [by rewrite !take_ge by (rewrite length_drop; lia)|by rewrite !drop_ge by lia]. }
    destruct (print_group_prints data w1) as (w2 & E2 & P2); [lia|rewrite V1; cbn; by rewrite lookup_insert_ne|].
    rewrite Hk in E2. ustep E2. pose proof P2 as (F2 & D2 & G2 & _). rewrite V1 in F2, G2. cbn in F2, G2.
    destruct (IH (off + k)%nat w2) as (w3 & E3 & P3); [| |done|lia|].
    + destruct O1 as (_ & _ & C). split; [by rewrite G2, lookup_insert_eq|]. split; [rewrite F2; apply Ho|done].
    + by rewrite G2, lookup_insert_ne.
    + exists w3. split; [done|]. rewrite b64_step, <- (proj1 Hd), <- (proj2 Hd).
      rewrite <- group_ascii by (try lia; by apply Forall_take, Forall_drop).
      eapply prints_trans; [|exact P3]. apply (prints_on_fds _ _ (insert fd (DFile p (length c)))) in P2.
      by rewrite V1, on_fds_insert in P2.
  - assert (k = O) as -> by lia. assert (off = length c) as -> by tauto. exists w1. split; [done|].
    rewrite drop_ge by lia. rewrite Nat.add_0_r in V1. rewrite <- V1. apply prints_refl.
Qed.

Definition base64_line (p c : bytes) : bytes := p ++ text ": " ++ b64 c ++ [10].

(** The program is run on a regular file of ASCII text. *)
Definition encodable (fuel : nat) (v : uview) (f : bytes * bytes) : Prop :=
  path_ok f.1 /\ uv_files v !! f.1 = Some f.2 /\ f.1 ∉ uv_dirs v /\ ascii f.2 /\
  Z.of_nat (length f.2) + 3 <= 3 * Z.of_nat fuel.

Lemma encode_file_spec fuel p c w : encodable fuel (view w) (p, c) -> uv_fds (view w) !! 1 = Some DTty ->
  (size (uv_fds (view w)) < NOFILE)%nat ->
  exists w', encode_file fuel (p ++ [0]) w = Done tt w' /\ prints 1 (base64_line p c) (view w) (view w').
Proof.
  intros (Hpath & Hp & Hd & Hc & Hf) H1 Hs. cbn [fst snd] in *.
  destruct (open_file p w c Hp Hd Hs) as (fd & w1 & E1 & Hfd0 & Hnew & V1). assert (Hne : fd <> 1) by congruence.
  assert (Hfd : uv_fds (view w1) !! fd = Some (DFile p 0)) by (rewrite V1; cbn; by rewrite lookup_insert_eq).
  destruct (fstat_file fd w1 p 0 c) as (st & w2 & E2 & T2 & V2); [done|by rewrite V1|].
  destruct (printf_prints 1 "%s: " [AStr (Some (p ++ [0]))] w2 (p ++ text ": ")) as (w3 & E3 & P3).
  { unfold printf_text. texts. cbn. by rewrite cstr_path. }
  { apply Forall_app. split; [by apply path_bytes|by repeat constructor]. }
  { rewrite V2, V1. cbn. by rewrite lookup_insert_ne. }
  pose proof P3 as (F3 & D3 & G3 & _). rewrite V2 in F3, G3.
  destruct (encode_loop_spec fuel fd p 0 c w3) as (w4 & E4 & P4); [| |done|lia|].
  { split; [by rewrite G3|]. split; [by rewrite F3, V1|lia]. }
  { rewrite G3, V1. cbn. by rewrite lookup_insert_ne. }
  pose proof (prints_fds _ _ _ _ P4) as G4. cbn in G4. rewrite G3, V1 in G4. cbn in G4. rewrite insert_insert_eq in G4.
  destruct (print_lit "
" w4) as (w5 & E5 & P5); [by repeat constructor|done|rewrite G4; by rewrite lookup_insert_ne|].
  pose proof (prints_fds _ _ _ _ P5) as G5. rewrite G4 in G5.
  destruct (close_fd fd w5) as (w6 & E6 & V6); [rewrite G5, lookup_insert_eq; by eexists|].
  exists w6. split.
  - pose proof (uopen_run p 0 w fd w1 Hpath E1) as R1. pose proof (ucall_run _ _ _ _ E2) as R2.
    pose proof (ucall_run _ _ _ _ E6) as R6.
    unfold encode_file. ustep R1. assert (fd <? 0 = false) as -> by lia. ustep R2. cbn [fst snd].
    rewrite T2. cbn. ustep E3. unfold encode. unfold ubind at 1. ustep E4. rewrite E5. by ustep R6.
  - apply (prints_on_fds _ _ (delete fd)) in P3, P4, P5. rewrite <- V6 in P5.
    rewrite V2, V1, on_fds_delete, on_fds_delete_none in P3 by done. rewrite on_fds_delete in P4.
    pose proof (prints_trans _ _ _ _ _ _ (prints_trans _ _ _ _ _ _ P3 P4) P5) as P.
    unfold base64_line. by rewrite <- !app_assoc in P.
Qed.

Lemma encodable_kept fuel l v v' f : prints 1 l v v' -> encodable fuel v f -> encodable fuel v' f.
Proof. unfold encodable. by intros (-> & -> & _). Qed.

(** C27. Functional correctness and termination of base64 on files of ASCII text:
    for each argument it prints a line with the name and the RFC 4648 encoding of
    the contents, from which the decoder of the RFC gives the contents back, and
    then exits with its descriptors closed. *)
Theorem base64_correct fuel prog fs w : Forall (encodable fuel (view w)) fs -> fs <> [] ->
  uv_fds (view w) !! 1 = Some DTty -> (size (uv_fds (view w)) < NOFILE)%nat ->
  exists w', main fuel (prog :: ((fun f => f.1 ++ [0]) <$> fs)) w = Exited w' /\
    prints 1 (concat ((fun f => base64_line f.1 f.2) <$> fs)) (view w) (view w') /\
    Forall (fun f => unb64 (b64 f.2) = f.2) fs.
Proof.
  intros Hfs Hne H1 Hs.
  assert (G : exists w', encode_files fuel ((fun f => f.1 ++ [0]) <$> fs) w = Exited w' /\
    prints 1 (concat ((fun f => base64_line f.1 f.2) <$> fs)) (view w) (view w')).
  { apply (each_file (encodable fuel) (encodable_kept fuel) (encode_files fuel)); [done| |done|done|done].
    intros [p c] args w0 Hf H1' Hs'. destruct (encode_file_spec fuel p c w0 Hf H1' Hs') as (w1 & E1 & P1).
    exists w1. split; [|done]. cbn [encode_files fst]. by ustep E1. }
  destruct G as (w' & E & P). exists w'. split; [by destruct fs|]. split; [done|].
  eapply Forall_impl; [exact Hfs|]. intros f (_ & _ & _ & Ha & _). apply b64_roundtrip.
  eapply Forall_impl; [exact Ha|]. unfold byte_ok. cbn. lia.
Qed.
End Spec.

Import UView.

Definition demo_view : uview := mkuview {[ text "f" := text "light work." ]} ∅ {[ 1 := DTty ]} ∅.

Lemma base64_correct_witness : exists w',
  main (W := uview) 10 [[98; 0]; text "f" ++ [0]] demo_view = Exited w' /\ sent 1 w' = text "f: bGlnaHQgd29yay4=
".
Proof.
  destruct (base64_correct (W := uview) 10 [98; 0] [(text "f", text "light work.")] demo_view) as (w' & E & P & _).
  - constructor; [|constructor]. split; [repeat constructor; vm_compute; congruence|]. split; [reflexivity|].
    split; [apply not_elem_of_empty|]. split; [repeat constructor; vm_compute; congruence|vm_compute; congruence].
  - discriminate.
  - reflexivity.
  - apply Nat.ltb_lt. reflexivity.
  - exists w'. split; [exact E|]. destruct P as (_ & _ & _ & S & _). etransitivity; [exact S|reflexivity].
Defined.

Lemma sextet_inj i j : 0 <= i < 64 -> 0 <= j < 64 -> sextet i = sextet j -> i = j.
Proof.
  intros Hi Hj E. rewrite <- (proj1 (sextet_facts i Hi)), <- (proj1 (sextet_facts j Hj)). by rewrite E.
Qed.

Lemma s8_cases x : byte_ok x -> x < 128 /\ s8 x = x \/ 128 <= x /\ s8 x = x - 256.
Proof. unfold byte_ok. intros Hx. destruct (decide (x < 128)); [left|right]; ints. Qed.

Lemma group_iff a b c : byte_ok a -> byte_ok b -> byte_ok c ->
  (group [a; b; c] = b64 [a; b; c] <-> b < 128 /\ c < 128) /\ (group [a; b] = b64 [a; b] <-> b < 128).
Proof.
  intros Ha Hb Hc. pose proof (byte_split a Ha). pose proof (byte_split b Hb). pose proof (byte_split c Hc).
  cbn [group b64 app]. rewrite gather3, gather2, !pick_div by lia. rewrite !Z.shiftl_mul_pow2 by lia.
  pose proof (s8_cases a Ha) as Sa. pose proof (s8_cases b Hb) as Sb. pose proof (s8_cases c Hc) as Sc. unfold byte_ok in *.
  split; split.
  - intros E. injection E as E1 E2 E3 E4.
    apply sextet_inj in E1; [|apply Z.mod_pos_bound; lia|lia]. apply sextet_inj in E2; [|apply Z.mod_pos_bound; lia|lia].
    apply sextet_inj in E3; [|apply Z.mod_pos_bound; lia|lia].
    clear E4. destruct Sa as [[_ Ea]|[_ Ea]], Sb as [[? Eb]|[? Eb]], Sc as [[? Ec]|[? Ec]]; try (split; lia); exfalso;
      rewrite Ea, Eb, Ec in *; clear Ea Eb Ec;
      change (2 ^ 18) with 262144 in *; change (2 ^ 12) with 4096 in *; change (2 ^ 6) with 64 in *; divmod.
  - intros [Hb1 Hc1]. destruct Sb as [[_ ->]|]; [|lia]. destruct Sc as [[_ ->]|]; [|lia].
    change (2 ^ 18) with 262144; change (2 ^ 12) with 4096; change (2 ^ 6) with 64; change (2 ^ 0) with 1.
    destruct Sa as [[_ ->]|[_ ->]]; (f_equal; [|f_equal; [|f_equal; [|f_equal]]]); f_equal; divmod.
  - intros E. injection E as E1 E2 E3.
    apply sextet_inj in E1; [|apply Z.mod_pos_bound; lia|lia]. apply sextet_inj in E2; [|apply Z.mod_pos_bound; lia|lia].
    clear E3. destruct Sa as [[_ Ea]|[_ Ea]], Sb as [[? Eb]|[? Eb]]; try lia; exfalso; rewrite Ea, Eb in *; clear Ea Eb;
      change (2 ^ 2) with 4 in *; change (2 ^ 12) with 4096 in *; change (2 ^ 6) with 64 in *; divmod.
  - intros Hb1. destruct Sb as [[_ ->]|]; [|lia].
    change (2 ^ 2) with 4; change (2 ^ 12) with 4096; change (2 ^ 6) with 64; change (2 ^ 0) with 1.
    destruct Sa as [[_ ->]|[_ ->]]; (f_equal; [|f_equal; [|f_equal]]); f_equal; divmod.
Qed.

Lemma prints_iff fd l l' v v' : prints fd l v v' -> (prints fd l' v v' <-> l = l').
Proof.
  intros P. split; [|by intros <-]. destruct P as (_ & _ & _ & S & _). intros (_ & _ & _ & S' & _).
  rewrite S in S'. by apply app_inv_head in S'.
Qed.

(** A byte from 128 on in the second or third place of a group is added as a
    negative number and borrows from the byte before it: exactly then the group
    printed is not the encoding of the bytes. *)
Theorem base64_high_bytes {W} `{OSLaws W} a b c w : byte_ok a -> byte_ok b -> byte_ok c -> uv_fds (view w) !! 1 = Some DTty ->
  (exists w', print_group 3 [a; b; c] w = Done tt w' /\ (prints 1 (b64 [a; b; c]) (view w) (view w') <-> b < 128 /\ c < 128)) /\
  (exists w', print_group 2 [a; b] w = Done tt w' /\ (prints 1 (b64 [a; b]) (view w) (view w') <-> b < 128)).
Proof.
  intros Ha Hb Hc Hfd. destruct (group_iff a b c Ha Hb Hc) as [G3 G2]. split.
  - destruct (print_group_prints [a; b; c] w) as (w' & E & P); [cbn; lia|done|]. exists w'. split; [done|].
    by rewrite (prints_iff _ _ _ _ _ P).
  - destruct (print_group_prints [a; b] w) as (w' & E & P); [cbn; lia|done|]. exists w'. split; [done|].
    by rewrite (prints_iff _ _ _ _ _ P).
Qed.

Lemma base64_high_bytes_witness : exists w',
  print_group (W := uview) 3 [82; 195; 169] demo_view = Done tt w' /\ ~ prints 1 (b64 [82; 195; 169]) demo_view w'.
Proof.
  destruct (base64_high_bytes (W := uview) 82 195 169 demo_view) as [(w' & E & P) _]; [vm_compute; intuition congruence..|reflexivity|].
  exists w'. split; [exact E|]. intros [H1 _]%P. vm_compute in H1. discriminate.
Defined.
