(* ===== verification/Cmds.v ===== *)
(** Small commands: chmod.c, clear.c, echo.c, ln.c, rm.c, mkdir.c, kill.c, cat.c,
    wc.c and ls.c. *)

From S2P Require Import Prelude Strings User Factor.
Local Open Scope Z_scope.

Section Programs.
  Context {W : Type} `{OS W}.

(** * chmod.c ([checkInt] is the same as in factor.c) *)

Definition chmod_main (argv : list bytes) : U W unit :=
  match argv with
  | [_; smode; path] =>
      let* len := upure (Ulib.strlen smode) in
      if negb (len =? 3) then do* printf 1 "chmod: wrong mode
" [] in uexit else
      let* ok := upure (checkInt smode) in
      if negb ok then do* printf 1 "chmod: wrong mode
" [] in uexit else
      let* modeInt := upure (Ulib.atoi smode) in
      let other := Z.rem modeInt 10 in
      let group := Z.rem (Z.quot modeInt 10) 10 in
      let user := Z.rem (Z.quot modeInt 100) 10 in
      if (7 <? user) || (7 <? group) || (7 <? other) then do* printf 1 "chmod: wrong mode
" [] in uexit else
      let mode := Z.shiftl user 6 + Z.shiftl group 3 + other in
      let* r := uchmod path mode in
      if negb (r =? 0) then do* printf 1 "chmod: failed to change permission
" [] in uexit else
      uexit
  | _ => do* printf 1 "chmod: wrong arguments
" [] in uexit
  end.

(** * clear.c *)

Definition ESC : string := String (Ascii.ascii_of_N 27) EmptyString.

Definition clear_main (argv : list bytes) : U W unit :=
  if (1 <? length argv)%nat then
    do* printf 1 "clear: too much arguments" [] in
    uexit
  else
    do* printf 1 (ESC +:+ "[1;1H" +:+ ESC +:+ "[2J") [] in
    uexit.

(** * echo.c *)

Fixpoint echo_args (args : list bytes) : U W unit :=
  match args with
  | [] => uexit
  | arg :: args' =>
      do* printf 1 "%s%s" [AStr (Some arg); AStr (Some (match args' with [] => [10; 0] | _ => [32; 0] end))] in
      echo_args args'
  end.

Definition echo_main (argv : list bytes) : U W unit := echo_args (tail argv).

(** * ln.c *)

Definition ln_main (argv : list bytes) : U W unit :=
  match argv with
  | [_; old; new] =>
      let* r := ulink old new in
      if r <? 0 then do* printf 2 "link %s %s: failed
" [AStr (Some old); AStr (Some new)] in uexit else
      uexit
  | _ => do* printf 2 "Usage: ln old new
" [] in uexit
  end.

(** * rm.c *)

Fixpoint rm_args (args : list bytes) : U W unit :=
  match args with
  | [] => uexit
  | arg :: args' =>
      let* r := uunlink arg in
      if r <? 0 then do* printf 2 "rm: %s failed to delete
" [AStr (Some arg)] in uexit else
      rm_args args'
  end.

Definition rm_main (argv : list bytes) : U W unit :=
  if (length argv <? 2)%nat then do* printf 2 "Usage: rm files...
" [] in uexit else
  rm_args (tail argv).

(** * mkdir.c *)

Fixpoint mkdir_args (args : list bytes) : U W unit :=
  match args with
  | [] => uexit
  | arg :: args' =>
      let* r := umkdir arg in
      if r <? 0 then do* printf 2 "mkdir: %s failed to create
" [AStr (Some arg)] in uexit else
      mkdir_args args'
  end.

Definition mkdir_main (argv : list bytes) : U W unit :=
  if (length argv <? 2)%nat then do* printf 2 "Usage: mkdir files...
" [] in uexit else
  mkdir_args (tail argv).

(** * kill.c *)

Fixpoint kill_args (args : list bytes) : U W unit :=
  match args with
  | [] => uexit
  | arg :: args' =>
      let* pid := upure (Ulib.atoi arg) in
      do* ukill pid in
      kill_args args'
  end.

Definition kill_main (argv : list bytes) : U W unit :=
  if (length argv <? 2)%nat then do* printf 2 "usage: kill pid...
" [] in uexit else
  kill_args (tail argv).

(** * cat.c *)

Fixpoint cat (fuel : nat) (fd : Z) : U W unit :=
  match fuel with
  | O => uloops
  | S fuel' =>
      let* r := uread fd 512 in
      let n := fst r in
      if 0 <? n then
        let* m := uwrite 1 (snd r) in
        if negb (m =? n) then do* printf 1 "cat: write error
" [] in uexit else
        cat fuel' fd
      else if n <? 0 then do* printf 1 "cat: read error
" [] in uexit
      else uret tt
  end.

Fixpoint cat_args (fuel : nat) (args : list bytes) : U W unit :=
  match args with
  | [] => uexit
  | arg :: args' =>
      let* fd := uopen arg 0 in
      if fd <? 0 then do* printf 1 "cat: cannot open %s
" [AStr (Some arg)] in uexit else
      do* cat fuel fd in
      do* uclose fd in
      cat_args fuel args'
  end.

Definition cat_main (fuel : nat) (argv : list bytes) : U W unit :=
  if (length argv <=? 1)%nat then do* cat fuel 0 in uexit else
  cat_args fuel (tail argv).

(** * wc.c *)

(** [l], [w], [c] and [inword]. *)
Record counts := mkcounts { wl : Z; ww : Z; wch : Z; inword : bool }.

(** The body of the for loop; the list is the string given to [strchr], which does
    not find its terminator. *)
Definition count_byte (k : counts) (b : Z) : counts :=
  let c := wch k + 1 in
  let l := if b =? 10 then wl k + 1 else wl k in
  if existsb (Z.eqb b) [32; 13; 9; 10; 11] then mkcounts l (ww k) c false
  else if negb (inword k) then mkcounts l (ww k + 1) c true
  else mkcounts l (ww k) c (inword k).

Fixpoint wc_loop (fuel : nat) (fd : Z) (k : counts) : U W counts :=
  match fuel with
  | O => uloops
  | S fuel' =>
      let* r := uread fd 512 in
      if 0 <? fst r then wc_loop fuel' fd (foldl count_byte k (snd r))
      else if fst r <? 0 then do* printf 1 "wc: read error
" [] in uexit
      else uret k
  end.

Definition wc (fuel : nat) (fd : Z) (name : bytes) : U W unit :=
  let* k := wc_loop fuel fd (mkcounts 0 0 0 false) in
  printf 1 "%d %d %d %s
" [AInt (wl k); AInt (ww k); AInt (wch k); AStr (Some name)].

Fixpoint wc_args (fuel : nat) (args : list bytes) : U W unit :=
  match args with
  | [] => uexit
  | arg :: args' =>
      let* fd := uopen arg 0 in
      if fd <? 0 then do* printf 1 "wc: cannot open %s
" [AStr (Some arg)] in uexit else
      do* wc fuel fd arg in
      do* uclose fd in
      wc_args fuel args'
  end.

Definition wc_main (fuel : nat) (argv : list bytes) : U W unit :=
  if (length argv <=? 1)%nat then do* wc fuel 0 [0] in uexit else
  wc_args fuel (tail argv).

(** * ls.c *)

Definition DIRSIZ : nat := 14.

(** What follows the last slash. *)
Fixpoint basename (path acc : bytes) : bytes :=
  match path with
  | [] => acc
  | c :: path' => if c =? 47 then basename path' path' else basename path' acc
  end.

(** [fmtname] of a path without its terminator: the string it returns. *)
Definition fmtname (path : bytes) : bytes :=
  let p := basename path path in
  if (DIRSIZ <=? length p)%nat then p else p ++ replicate (DIRSIZ - length p) 32.

(** A bit field of [st->mode]. *)
Definition flag (mode k : Z) : bool := Z.testbit mode k.

Definition print_flag (mode k : Z) (letter : string) : U W unit :=
  if flag mode k then printf 1 letter [] else printf 1 "-" [].

Definition print_mode (st : ustat) : U W unit :=
  do* (if us_type st =? T_DIR then printf 1 "d" []
       else if us_type st =? T_FILE then printf 1 "-" []
       else if us_type st =? T_DEV then printf 1 "c" []
       else printf 1 "?" []) in
  do* print_flag (us_mode st) 8 "r" in
  do* print_flag (us_mode st) 7 "w" in
  do* print_flag (us_mode st) 6 "x" in
  do* print_flag (us_mode st) 5 "r" in
  do* print_flag (us_mode st) 4 "w" in
  do* print_flag (us_mode st) 3 "x" in
  do* print_flag (us_mode st) 2 "r" in
  do* print_flag (us_mode st) 1 "w" in
  print_flag (us_mode st) 0 "x".

(** A tab, for the formats that have one. *)
Definition TAB : string := String (Ascii.ascii_of_N 9) EmptyString.

Definition print_entry (path : bytes) (st : ustat) : U W unit :=
  do* print_mode st in
  printf 1 (TAB +:+ "%s" +:+ TAB +:+ "%d" +:+ TAB +:+ "%d
") [AStr (Some (fmtname path ++ [0])); AInt (us_ino st); AInt (us_size st)].

(** The loop over the entries of a directory: two bytes of inode number, then the
    name; [path] is the directory's. *)
Fixpoint ls_dir (fuel : nat) (fd : Z) (path : bytes) : U W unit :=
  match fuel with
  | O => uloops
  | S fuel' =>
      let* r := uread fd 16 in
      if negb (fst r =? 16) then uret tt else
      if ld 2 (snd r) 0 =? 0 then ls_dir fuel' fd path else
      let buf := path ++ [47] ++ slice (snd r) 2 DIRSIZ ++ [0] in
      let* name := upure (cstr buf) in
      let* s := stat buf in
      if fst s <? 0 then
        do* printf 1 "ls: cannot stat %s
" [AStr (Some buf)] in
        ls_dir fuel' fd path
      else
        do* print_entry name (snd s) in
        ls_dir fuel' fd path
  end.

Definition ls (fuel : nat) (path : bytes) : U W unit :=
  let* fd := uopen path 0 in
  if fd <? 0 then printf 2 "ls: cannot open %s
" [AStr (Some path)] else
  let* r := ufstat fd in
  let st := snd r in
  if fst r <? 0 then
    do* printf 2 "ls: cannot stat %s
" [AStr (Some path)] in
    do* uclose fd in
    uret tt
  else
    let* name := upure (cstr path) in
    do* printf 1 ("mode" +:+ TAB +:+ TAB +:+ "name" +:+ TAB +:+ TAB +:+ "inode" +:+ TAB +:+ "size
") [] in
    do* (if us_type st =? T_FILE then print_entry name st
         else if us_type st =? T_DIR then
           if (512 <? length name + 1 + DIRSIZ + 1)%nat then printf 1 "ls: path too long
" []
           else ls_dir fuel fd name
         else uret tt) in
    do* uclose fd in
    uret tt.

Fixpoint ls_args (fuel : nat) (args : list bytes) : U W unit :=
  match args with
  | [] => uexit
  | arg :: args' => do* ls fuel arg in ls_args fuel args'
  end.

Definition ls_main (fuel : nat) (argv : list bytes) : U W unit :=
  if (length argv <? 2)%nat then do* ls fuel [46; 0] in uexit else
  ls_args fuel (tail argv).
End Programs.

(** * chmod *)

(** A mode in octal: three digits from 0 to 7. *)
Definition octal3 (s : bytes) : option Z :=
  match s with
  | [a; b; c] =>
      if forallb (fun x => (48 <=? x) && (x <=? 55)) s then Some ((a - 48) * 64 + (b - 48) * 8 + (c - 48)) else None
  | _ => None
  end.

Lemma not_digit c : 1 <= c < 256 -> (s8 c <? 48) || (57 <? s8 c) = negb ((48 <=? c) && (c <=? 57)).
Proof.
  intros Hc. destruct ((48 <=? c) && (c <=? 57)) eqn:E; cbn [negb].
  - apply andb_true_iff in E. assert (s8 c = c) as -> by ints. apply orb_false_intro; lia.
  - apply andb_false_iff in E. apply orb_true_iff. rewrite !Z.ltb_lt. destruct (decide (c < 128)).
    + assert (s8 c = c) as -> by ints. lia.
    + left. ints.
Qed.

Lemma atoi3 a b c : digit a -> digit b -> digit c ->
  Ulib.atoi [a; b; c; 0] = Ok ((a - 48) * 100 + (b - 48) * 10 + (c - 48)).
Proof.
  intros Ha Hb Hc. change [a; b; c; 0] with (rev [c; b; a] ++ [0]). unfold Ulib.atoi. unfold digit in *.
  rewrite atoi_loop_digits; [cbn; f_equal; lia|by repeat constructor; unfold digit; lia|lia|].
  unfold INT_MAX, lsd_val. cbn. lia.
Qed.

(** The digits of the mode, and the value they stand for. *)
Lemma mode_digits x y z : 0 <= x < 10 -> 0 <= y < 10 -> 0 <= z < 10 ->
  Z.rem (x * 100 + y * 10 + z) 10 = z /\ Z.rem (Z.quot (x * 100 + y * 10 + z) 10) 10 = y /\
  Z.rem (Z.quot (x * 100 + y * 10 + z) 100) 10 = x /\ Z.shiftl x 6 + Z.shiftl y 3 + z = x * 64 + y * 8 + z.
Proof.
  intros Hx Hy Hz. rewrite !Z.quot_div_nonneg, !Z.rem_mod_nonneg by (try apply Z.div_pos; lia).
  rewrite !Z.shiftl_mul_pow2 by lia. split_and!; [divmod..|lia].
Qed.

Lemma checkInt3 a b c : 1 <= a < 256 -> 1 <= b < 256 -> 1 <= c < 256 ->
  checkInt [a; b; c; 0] = Ok (forallb (fun x => (48 <=? x) && (x <=? 57)) [a; b; c]).
Proof.
  intros Ha Hb Hc. cbn [checkInt forallb]. rewrite !not_digit by done.
  assert (a =? 0 = false) as -> by lia. assert (b =? 0 = false) as -> by lia. assert (c =? 0 = false) as -> by lia.
  destruct ((48 <=? a) && (a <=? 57)), ((48 <=? b) && (b <=? 57)), ((48 <=? c) && (c <=? 57)); done.
Qed.

Lemma octal3_digits a b c : digit a -> digit b -> digit c ->
  octal3 [a; b; c] = if (7 <? a - 48) || (7 <? b - 48) || (7 <? c - 48) then None
                     else Some ((a - 48) * 64 + (b - 48) * 8 + (c - 48)).
Proof.
  unfold digit, octal3. intros Ha Hb Hc. cbn [forallb].
  destruct ((7 <? a - 48) || (7 <? b - 48) || (7 <? c - 48)) eqn:E.
  - rewrite !orb_true_iff, !Z.ltb_lt in E. destruct (_ && _) eqn:F; [|done].
    rewrite !andb_true_iff, !Z.leb_le in F. lia.
  - rewrite !orb_false_iff, !Z.ltb_ge in E. destruct (_ && _) eqn:F; [done|].
    rewrite !andb_false_iff, !Z.leb_gt in F. lia.
Qed.

(** The command chmod with two arguments: when the mode is three digits from 0
    to 7 it calls [chmod] once, with the path and the value of the digits in
    octal, which is at most 0777 as the system call demands, and reports a
    failure; on any other mode it makes no call. *)
Theorem chmod_command {W} `{OS W} prog s p (w : W) : path_ok s -> path_ok p ->
  chmod_main [prog; s ++ [0]; p ++ [0]] w =
    match octal3 s with
    | Some m =>
        (let* r := ucall (os_chmod p m) in
         if negb (r =? 0) then do* printf 1 "chmod: failed to change permission
" [] in uexit else uexit) w
    | None => (do* printf 1 "chmod: wrong mode
" [] in uexit) w
    end /\
  (forall m, octal3 s = Some m -> 0 <= m <= 511).
Proof.
  intros Hs Hp. split.
  2: { intros m. unfold octal3. destruct s as [|a [|b [|c [|]]]]; try done. destruct (forallb _ _) eqn:F; [|done].
       cbn in F. rewrite !andb_true_iff, !Z.leb_le in F. intros [= <-]. lia. }
  unfold chmod_main. rewrite (strlen_at s [] Hs). unfold ubind at 1, upure at 1.
  destruct (decide (length s = 3%nat)) as [E3|E3].
  2: { assert (Z.of_nat (length s) =? 3 = false) as -> by lia. by destruct s as [|a [|b [|c [|]]]]. }
  destruct s as [|a [|b [|c [|]]]]; try done. clear E3.
  apply Forall_cons in Hs as [Ha Hs]. apply Forall_cons in Hs as [Hb Hs]. apply Forall_cons in Hs as [Hc _].
  change (negb (Z.of_nat (length [a; b; c]) =? 3)) with false. cbv iota. cbn [app].
  rewrite (checkInt3 a b c Ha Hb Hc). unfold ubind at 1, upure at 1.
  destruct (forallb _ _) eqn:F; cbn [forallb] in F; cbn [negb].
  - rewrite !andb_true_iff, !Z.leb_le in F. assert (digit a /\ digit b /\ digit c) as (Da & Db & Dc) by (unfold digit; lia).
    rewrite (atoi3 a b c Da Db Dc), (octal3_digits a b c Da Db Dc). unfold digit in *.
    destruct (mode_digits (a - 48) (b - 48) (c - 48)) as (M1 & M2 & M3 & M4); [lia..|].
    unfold ubind at 1, upure at 1. cbv zeta. rewrite M1, M2, M3, M4.
    destruct (_ || _ || _); [done|]. unfold uchmod. rewrite (cstr_path p Hp). done.
  - assert (octal3 [a; b; c] = None) as ->; [|done]. unfold octal3. destruct (forallb _ _) eqn:G; [|done].
    cbn in G. rewrite !andb_true_iff, !Z.leb_le in G. rewrite !andb_false_iff, !Z.leb_gt in F. lia.
Qed.

(** * cat and wc *)

Section Files.
  Context {W : Type} `{OSLaws W}.

(** [cat] copies what is left of the file to the console. *)
Lemma cat_spec fuel fd p off c w : open_at fd p off c w -> uv_fds (view w) !! 1 = Some DTty ->
  Z.of_nat (length c) - Z.of_nat off + 512 <= 512 * Z.of_nat fuel ->
  exists w', cat fuel fd w = Done tt w' /\
    prints 1 (drop off c) (on_fds (insert fd (DFile p (length c))) (view w)) (view w').
Proof.
  revert off w. induction fuel as [|fuel IH]; intros off w Ho H1 Hf; [destruct Ho as (_ & _ & ?); lia|].
  pose proof (open_at_fd _ _ _ _ _ Ho H1) as Hne. cbn [cat].
  destruct (read_step fd 512 p off c w Ho) as (w1 & k & R1 & O1 & V1 & K0 & K1 & _); [lia|].
  ustep R1. cbn [fst snd]. destruct (0 <? Z.of_nat k) eqn:E0.
  - set (data := take k (drop off c)).
    assert (Hk : length data = k) by (unfold data; rewrite length_take, length_drop; destruct O1 as (_ & _ & ?); lia).
    assert (H1' : uv_fds (view w1) !! 1 = Some DTty) by (rewrite V1; cbn; by rewrite lookup_insert_ne).
    destruct (write_tty 1 data w1 H1') as (w2 & E2 & V2). pose proof (ucall_run _ _ _ _ E2) as R2.
    ustep R2. rewrite Hk, Z.eqb_refl. cbn [negb].
    destruct (IH (off + k)%nat w2) as (w3 & E3 & P3).
    + destruct O1 as (A & B & C). split; [by rewrite V2|]. split; [by rewrite V2|done].
    + by rewrite V2.
    + lia.
    + exists w3. split; [done|].
      replace (drop off c) with (data ++ drop (off + k) c) by (unfold data; by rewrite <- drop_drop, take_drop).
      eapply prints_trans; [|exact P3]. rewrite V2, V1.
      pose proof (prints_send 1 data (on_fds (insert fd (DFile p (off + k))) (view w))) as P.
      apply (prints_on_fds _ _ (insert fd (DFile p (length c)))) in P. by rewrite on_fds_insert in P.
  - assert (k = O) as -> by lia. assert (off = length c) as -> by tauto. exists w1. split; [done|].
    rewrite drop_ge by lia. rewrite Nat.add_0_r in V1. rewrite <- V1. apply prints_refl.
Qed.

(** The loop of [wc] counts what is left of the file. *)
Lemma wc_loop_spec fuel fd p off c k w : open_at fd p off c w ->
  Z.of_nat (length c) - Z.of_nat off + 512 <= 512 * Z.of_nat fuel ->
  exists w', wc_loop fuel fd k w = Done (foldl count_byte k (drop off c)) w' /\
    view w' = on_fds (insert fd (DFile p (length c))) (view w).
Proof.
  revert off k w. induction fuel as [|fuel IH]; intros off k w Ho Hf; [destruct Ho as (_ & _ & ?); lia|].
  cbn [wc_loop]. destruct (read_step fd 512 p off c w Ho) as (w1 & n & R1 & O1 & V1 & K0 & K1 & _); [lia|].
  ustep R1. cbn [fst snd]. destruct (0 <? Z.of_nat n) eqn:E0.
  - destruct (IH (off + n)%nat (foldl count_byte k (take n (drop off c))) w1 O1) as (w2 & E2 & V2); [lia|].
    exists w2. rewrite E2, <- foldl_app, <- drop_drop, take_drop. split; [done|].
    by rewrite V2, V1, on_fds_insert.
  - assert (n = O) as -> by lia. assert (off = length c) as -> by tauto. exists w1. rewrite drop_ge by lia.
    rewrite Nat.add_0_r in V1. by split.
Qed.

(** What [wc] should count: newlines, beginnings of words, bytes. *)
Definition space (b : Z) : bool := existsb (Z.eqb b) [32; 13; 9; 10; 11].

Definition lines (l : bytes) : Z := Z.of_nat (length (filter (fun b => b = 10) l)).

Definition words (l : bytes) : Z :=
  Z.of_nat (length (filter (fun x => space x.1 = true /\ space x.2 = false) (zip (32 :: l) l))).

Lemma count_spec l prev k : inword k = negb (space prev) ->
  let k' := foldl count_byte k l in
  wl k' = wl k + lines l /\ wch k' = wch k + Z.of_nat (length l) /\
  ww k' = ww k + Z.of_nat (length (filter (fun x => space x.1 = true /\ space x.2 = false) (zip (prev :: l) l))).
Proof.
  revert prev k. induction l as [|b l IH]; intros prev k Hin; [unfold lines; cbn; split_and!; lia|].
  cbn [foldl]. destruct (IH b (count_byte k b)) as (I1 & I2 & I3).
  { unfold count_byte. fold (space b). by destruct (space b) eqn:Eb, (inword k) eqn:Ei; cbn; rewrite ?Ei. }
  cbv zeta in *. rewrite I1, I2, I3. unfold lines. cbn [zip zip_with length]. rewrite !filter_cons. cbn [fst snd].
  unfold count_byte. fold (space b). rewrite Hin.
  destruct (space b) eqn:Eb, (space prev) eqn:Ep; cbn [negb wl wch ww];
    destruct (decide (b = 10)) as [->|Hb]; try (rewrite Z.eqb_refl); try (rewrite (proj2 (Z.eqb_neq b 10) Hb));
    repeat first [rewrite decide_True by tauto | rewrite decide_False by (intros [? ?]; congruence)]; cbn [length]; lia.
Qed.

Definition wc_line (p c : bytes) : bytes :=
  dec (lines c) ++ [32] ++ dec (words c) ++ [32] ++ dec (Z.of_nat (length c)) ++ [32] ++ p ++ [10].

Lemma filter_length_le {A} (P : A -> Prop) `{!forall x, Decision (P x)} l : (length (filter P l) <= length l)%nat.
Proof. apply length_filter. Qed.

Lemma wc_spec fuel fd p c w : path_ok p -> open_at fd p 0 c w -> uv_fds (view w) !! 1 = Some DTty ->
  Z.of_nat (length c) + 512 <= 512 * Z.of_nat fuel -> Z.of_nat (length c) <= INT_MAX ->
  exists w', wc fuel fd (p ++ [0]) w = Done tt w' /\
    prints 1 (wc_line p c) (on_fds (insert fd (DFile p (length c))) (view w)) (view w').
Proof.
  intros Hp Ho H1 Hf Hmax. unfold INT_MAX in Hmax. pose proof (open_at_fd _ _ _ _ _ Ho H1) as Hne.
  destruct (wc_loop_spec fuel fd p 0 c (mkcounts 0 0 0 false) w Ho) as (w1 & E1 & V1); [lia|]. rewrite drop_0 in E1.
  destruct (count_spec c 32 (mkcounts 0 0 0 false)) as (C1 & C2 & C3); [done|]. cbn [wl ww wch] in C1, C2, C3.
  change (Z.of_nat (length (filter _ (zip (32 :: c) c)))) with (words c) in C3.
  assert (HL : 0 <= lines c <= Z.of_nat (length c)).
  { unfold lines. pose proof (filter_length_le (fun b => b = 10) c). lia. }
  assert (HW : 0 <= words c <= Z.of_nat (length c)).
  { unfold words. match goal with |- context [filter ?P ?l] => pose proof (filter_length_le P l) end.
    rewrite length_zip_with in *. cbn [length] in *. lia. }
  destruct (dec_spec (lines c)) as [D1 B1]; [lia|]. destruct (dec_spec (words c)) as [D2 B2]; [lia|].
  destruct (dec_spec (Z.of_nat (length c))) as [D3 B3]; [lia|].
  unfold wc. ustep E1. rewrite C1, C2, C3, !Z.add_0_l. rewrite <- V1. apply printf_prints.
  - unfold printf_text. texts. cbn -[printint]. rewrite D1. cbn -[printint].
    rewrite D2. cbn -[printint]. rewrite D3. cbn. rewrite (cstr_path p Hp). cbn. done.
  - unfold wc_line. rewrite !Forall_app. split_and!; try (by apply digit_byte_ok); try (by repeat constructor). by apply path_bytes.
  - rewrite V1. cbn. by rewrite lookup_insert_ne.
Qed.

(** A regular file that the loops read to its end. *)
Definition readable (fuel : nat) (v : uview) (f : bytes * bytes) : Prop :=
  path_ok f.1 /\ uv_files v !! f.1 = Some f.2 /\ f.1 ∉ uv_dirs v /\
  Z.of_nat (length f.2) + 512 <= 512 * Z.of_nat fuel /\ Z.of_nat (length f.2) <= INT_MAX.

Lemma readable_kept fuel l v v' f : prints 1 l v v' -> readable fuel v f -> readable fuel v' f.
Proof. unfold readable. by intros (-> & -> & _). Qed.

(** Functional correctness and termination of cat and wc: on a list of regular
    files, cat sends their contents to the console, one after the other, and wc a
    line for each with the numbers of newlines, of words and of bytes, however the
    words lie across the blocks of 512 bytes it reads; both then exit, with their
    descriptors closed. *)
Theorem cat_wc_correct fuel prog fs w : Forall (readable fuel (view w)) fs -> fs <> [] ->
  uv_fds (view w) !! 1 = Some DTty -> (size (uv_fds (view w)) < NOFILE)%nat ->
  (exists w', cat_main fuel (prog :: ((fun f => f.1 ++ [0]) <$> fs)) w = Exited w' /\
    prints 1 (concat (snd <$> fs)) (view w) (view w')) /\
  (exists w', wc_main fuel (prog :: ((fun f => f.1 ++ [0]) <$> fs)) w = Exited w' /\
    prints 1 (concat ((fun f => wc_line f.1 f.2) <$> fs)) (view w) (view w')).
Proof.
  intros Hfs Hne H1 Hs. unfold cat_main, wc_main. destruct fs as [|f0 fs0]; [done|]. cbn [length tail Nat.leb fmap list_fmap]. split.
  - apply (each_file (readable fuel) (readable_kept fuel) (cat_args fuel) snd (f0 :: fs0)); [done| |done|done|done]. clear.
    intros [p c] args w (Hp & Hf & Hd & Hl & _) H1 Hs. cbn [fst snd] in *.
    apply (with_file p c c (cat fuel)); [done..|]. intros fd w1 Ho H1'.
    destruct (cat_spec fuel fd p 0 c w1 Ho H1') as (w2 & E2 & P2); [lia|]. by exists w2.
  - apply (each_file (readable fuel) (readable_kept fuel) (wc_args fuel) (fun f => wc_line f.1 f.2) (f0 :: fs0)); [done| |done|done|done]. clear.
    intros [p c] args w (Hp & Hf & Hd & Hl & Hm) H1 Hs. cbn [fst snd] in *.
    apply (with_file p c (wc_line p c) (fun fd => wc fuel fd (p ++ [0]))); [done..|]. intros fd w1 Ho H1'. by apply wc_spec.
Qed.
End Files.

(** * The mode that ls shows *)

Definition letter (c : Z) (b : bool) : Z := if b then c else 45.

(** The nine letters, from the owner's read permission down. *)
Definition mode_text (m : Z) : bytes :=
  zip_with (fun k c => letter c (Z.testbit m k)) [8; 7; 6; 5; 4; 3; 2; 1; 0] [114; 119; 120; 114; 119; 120; 114; 119; 120].

Definition type_letter (t : Z) : Z := if t =? T_DIR then 100 else if t =? T_FILE then 45 else if t =? T_DEV then 99 else 63.

Section Mode.
  Context {W : Type} `{OSLaws W}.

Lemma print_lit1 s c w : text s = [c] -> byte_ok c -> c <> 37 -> uv_fds (view w) !! 1 = Some DTty ->
  exists w', printf 1 s [] w = Done tt w' /\ prints 1 [c] (view w) (view w').
Proof.
  intros Es Hc Hp Hfd. apply printf_prints; [|by constructor|done]. unfold printf_text. rewrite Es. cbn.
  by rewrite (proj2 (Z.eqb_neq c 37) Hp).
Qed.

Lemma print_flag_prints m k s c w : text s = [c] -> byte_ok c -> c <> 37 -> uv_fds (view w) !! 1 = Some DTty ->
  exists w', print_flag m k s w = Done tt w' /\ prints 1 [letter c (Z.testbit m k)] (view w) (view w').
Proof.
  intros Es Hc Hp Hfd. unfold print_flag, flag, letter. destruct (Z.testbit m k); by apply print_lit1.
Qed.

(** Programs that print, in sequence. *)
Lemma prints_seq (m k : U W unit) l l' w :
  (exists w', m w = Done tt w' /\ prints 1 l (view w) (view w')) ->
  (forall w, uv_fds (view w) !! 1 = Some DTty -> exists w', k w = Done tt w' /\ prints 1 l' (view w) (view w')) ->
  uv_fds (view w) !! 1 = Some DTty -> exists w', (do* m in k) w = Done tt w' /\ prints 1 (l ++ l') (view w) (view w').
Proof.
  intros (w1 & E1 & P1) Hk Hfd. destruct (Hk w1) as (w2 & E2 & P2); [by rewrite (prints_fds _ _ _ _ P1)|].
  exists w2. split; [by ustep E1|]. by eapply prints_trans.
Qed.

Lemma print_mode_prints st w : uv_fds (view w) !! 1 = Some DTty ->
  exists w', print_mode st w = Done tt w' /\ prints 1 (type_letter (us_type st) :: mode_text (us_mode st)) (view w) (view w').
Proof.
  intros Hfd. unfold print_mode. apply (prints_seq _ _ [type_letter (us_type st)]); [|clear w Hfd; intros w Hfd|done].
  - unfold type_letter. repeat case_match; by apply print_lit1.
  - unfold mode_text. cbn [zip_with].
    do 8 (match goal with |- context [prints 1 (?c :: ?l)] =>
      apply (prints_seq _ _ [c] l); [by apply print_flag_prints|clear w Hfd; intros w Hfd|done] end).
    by apply print_flag_prints.
Qed.
End Mode.

Lemma letter_inj c b b' : c <> 45 -> letter c b = letter c b' -> b = b'.
Proof. unfold letter. by destruct b, b'; intros; congruence. Qed.

Lemma mode_text_inj m m' : 0 <= m < 512 -> 0 <= m' < 512 -> mode_text m = mode_text m' -> m = m'.
Proof.
  intros Hm Hm' E. unfold mode_text in E. cbn [zip_with] in E. injection E as E8 E7 E6 E5 E4 E3 E2 E1 E0.
  repeat match goal with E : letter _ _ = letter _ _ |- _ => apply letter_inj in E; [|done] end.
  apply Z.bits_inj'. intros k Hk. destruct (decide (9 <= k)).
  - rewrite !Z.bits_above_log2; [done|lia| |lia|].
    + destruct (decide (m' = 0)) as [->|]; [cbn; lia|]. apply Z.log2_lt_pow2; [lia|].
      apply Z.lt_le_trans with (2 ^ 9); [lia|]. apply Z.pow_le_mono_r; lia.
    + destruct (decide (m = 0)) as [->|]; [cbn; lia|]. apply Z.log2_lt_pow2; [lia|].
      apply Z.lt_le_trans with (2 ^ 9); [lia|]. apply Z.pow_le_mono_r; lia.
  - assert (k = 0 \/ k = 1 \/ k = 2 \/ k = 3 \/ k = 4 \/ k = 5 \/ k = 6 \/ k = 7 \/ k = 8) as Hc by lia.
    by repeat destruct Hc as [->|Hc]; subst.
Qed.

(** What ls shows of a mode: [print_mode] sends a letter for the type and nine
    for the permission bits, r, w and x for user, group and others, a dash where
    the bit is clear; two modes that [chmod] accepts never look the same. *)
Theorem ls_shows_mode {W} `{OSLaws W} st w m m' : uv_fds (view w) !! 1 = Some DTty ->
  (exists w', print_mode st w = Done tt w' /\
    prints 1 (type_letter (us_type st) :: mode_text (us_mode st)) (view w) (view w')) /\
  (0 <= m < 512 -> 0 <= m' < 512 -> mode_text m = mode_text m' -> m = m').
Proof. intros Hfd. split; [by apply print_mode_prints|apply mode_text_inj]. Qed.

Import UView.

Definition demo_files : uview :=
  mkuview {[ text "a" := text "one two
three" ]} ∅ {[ 1 := DTty ]} ∅.

Lemma cat_wc_correct_witness :
  (exists w', cat_main (W := uview) 3 [[99; 0]; text "a" ++ [0]] demo_files = Exited w' /\ sent 1 w' = text "one two
three") /\
  (exists w', wc_main (W := uview) 3 [[99; 0]; text "a" ++ [0]] demo_files = Exited w' /\ sent 1 w' = text "1 3 13 a
").
Proof.
  destruct (cat_wc_correct (W := uview) 3 [99; 0] [(text "a", text "one two
three")] demo_files) as [(w1 & E1 & P1) (w2 & E2 & P2)].
  - constructor; [|constructor]. split; [repeat constructor; vm_compute; congruence|]. split; [reflexivity|].
    split; [apply not_elem_of_empty|]. split; vm_compute; congruence.
  - discriminate.
  - reflexivity.
  - apply Nat.ltb_lt. reflexivity.
  - split; [exists w1; split; [exact E1|]|exists w2; split; [exact E2|]].
    + destruct P1 as (_ & _ & _ & S & _). etransitivity; [exact S|reflexivity].
    + destruct P2 as (_ & _ & _ & S & _). etransitivity; [exact S|reflexivity].
Defined.

Lemma ls_shows_mode_witness : exists w',
  print_mode (W := uview) (mkustat T_FILE 1 2 1 0 492) demo_files = Done tt w' /\ sent 1 w' = text "-rwxr-xr--".
Proof.
  destruct (ls_shows_mode (W := uview) (mkustat T_FILE 1 2 1 0 492) demo_files 0 0) as [(w' & E & P) _]; [reflexivity|].
  exists w'. split; [exact E|]. destruct P as (_ & _ & _ & S & _). etransitivity; [exact S|reflexivity].
Defined.

Lemma chmod_command_witness :
  chmod_main (W := uview) [[99; 0]; text "754" ++ [0]; text "a" ++ [0]] demo_files = Exited demo_files.
Proof.
  destruct (chmod_command (W := uview) [99; 0] (text "754") (text "a") demo_files) as [E _];
    [repeat constructor; vm_compute; congruence..|]. etransitivity; [exact E|reflexivity].
Defined.
