(* ===== verification/Split.v ===== *)
(** The command split (split.c): it cuts a file into parts of so many lines, named
    by a prefix and a suffix that counts in letters.

    The arrays of [split] are not initialised, and it reads past the end of two of
    them: what the stack holds after [suffix], in [path_parts], in [buf] and after
    [buf] is an argument of the model ([stack]). *)

From S2P Require Import Prelude Strings User Factor.
Local Open Scope Z_scope.

Definition default_suffix : bytes := text "abcdefghijklmnopqrstuvwxyz" ++ [0].

(** The loop of [nextSuffix], from the last letter down. *)
Fixpoint next_loop (carrier : bool) (l : bytes) : outcome (bytes * bool) :=
  match l with
  | [] => Ok ([], carrier)
  | c :: l' =>
      if carrier then
        let? p := Ulib.strchr default_suffix c in
        match p with
        | None => UB
        | Some rest =>
            let cursor := tail rest in
            let? n := Ulib.strlen default_suffix in
            let wrap := Z.of_nat (length default_suffix) - Z.of_nat (length cursor) =? n in
            let cursor := if wrap then default_suffix else cursor in
            let? r := next_loop wrap l' in
            Ok (getb cursor 0 :: fst r, snd r)
        end
      else
        let? r := next_loop carrier l' in Ok (c :: fst r, snd r)
  end.

(** [suffix] is the memory from the array on. *)
Definition nextSuffix (suffix : bytes) : outcome (bytes * bool) :=
  let? n := Ulib.strlen suffix in
  let? r := next_loop true (rev (take (Z.to_nat n) suffix)) in
  Ok (rev (fst r) ++ drop (Z.to_nat n) suffix, snd r).

(** Unspecified memory. *)
Record stack := mkstack {
  after_suffix : bytes;
  path_parts0 : bytes;
  buf0 : bytes;
  after_buf : bytes
}.

(** The variables of [split] that change. *)
Record vars := mkvars {
  suffix : bytes;       (* with what follows it *)
  path_parts : bytes;
  fd_parts : Z;
  num_line : Z
}.

(** [strcpy(path_parts+strlen(prefix), suffix)]. *)
Definition set_name (path_parts prefix suffix : bytes) : outcome bytes :=
  let? n := Ulib.strlen prefix in
  let? w := Ulib.strcpy_bytes suffix in
  if (Z.to_nat n + length w <=? length path_parts)%nat then Ok (splice path_parts (Z.to_nat n) w) else UB.

Section Program.
  Context {W : Type} `{OS W}.

(** The end of a part: [close], [nextSuffix], [open]. *)
Definition next_part (prefix : bytes) (v : vars) : U W vars :=
  do* uclose (fd_parts v) in
  let* s := upure (nextSuffix (suffix v)) in
  if snd s then
    do* printf 2 "split: not enough suffix
" [] in
    uexit
  else
    let* pp := upure (set_name (path_parts v) prefix (fst s)) in
    let* fd := uopen pp (Z.lor O_WRONLY O_CREATE) in
    uret (mkvars (fst s) pp fd 0).

(** [while ((pb = strchr(pa, '\n')) > 0)]: at most one round for each byte from [pa]
    on. It gives the last [pa]. *)
Fixpoint lines_loop (fuel : nat) (max_line : Z) (prefix pa : bytes) (v : vars) : U W (bytes * vars) :=
  match fuel with
  | O => uloops
  | S fuel' =>
      let* pb := upure (Ulib.strchr pa 10) in
      match pb with
      | None => uret (pa, v)
      | Some pb =>
          do* uwrite (fd_parts v) (take (length pa - length pb + 1) pa) in
          let n := num_line v + 1 in
          let* v' := (if n =? max_line then next_part prefix v
                      else uret (mkvars (suffix v) (path_parts v) (fd_parts v) n)) in
          lines_loop fuel' max_line prefix (tail pb) v'
      end
  end.

(** What one round of the outer loop does with the bytes in [buf]; [mem] is [buf]
    and what follows it. *)
Definition split_buf (max_line : Z) (prefix mem : bytes) (v : vars) : U W vars :=
  let* r := lines_loop (S (length mem)) max_line prefix mem v in
  let pa := fst r in
  let* n := upure (Ulib.strlen mem) in
  if Z.of_nat (length mem) - Z.of_nat (length pa) <? n then
    let* k := upure (Ulib.strlen pa) in
    do* uwrite (fd_parts (snd r)) (take (Z.to_nat k) pa) in
    uret (snd r)
  else uret (snd r).

Fixpoint split_loop (fuel : nat) (fd max_line : Z) (prefix buf rest : bytes) (v : vars) : U W vars :=
  match fuel with
  | O => uloops
  | S fuel' =>
      let* r := uread fd 1024 in
      if 0 <? fst r then
        let* v' := split_buf max_line prefix (splice buf 0 (snd r) ++ rest) v in
        split_loop fuel' fd max_line prefix (replicate 1024 0) rest v'
      else uret v
  end.

Definition split (fuel : nat) (st : stack) (fd max_line max_suffix : Z) (prefix : bytes) : U W unit :=
  let suffix := replicate (Z.to_nat max_suffix) (getb default_suffix 0) ++ after_suffix st in
  let* pp := upure (Ulib.strcpy (path_parts0 st) prefix) in
  let* pp := upure (set_name pp prefix suffix) in
  let* fd0 := uopen pp (Z.lor O_WRONLY O_CREATE) in
  let* v := split_loop fuel fd max_line prefix (buf0 st) (after_buf st) (mkvars suffix pp fd0 0) in
  do* uclose (fd_parts v) in
  uret tt.

(** The options: what is left are the arguments from [pos] on. *)
Fixpoint parse_args (args : list bytes) (max_line max_suffix : Z) : U W (Z * Z * list bytes) :=
  match args with
  | [] => uret (max_line, max_suffix, [])
  | arg :: args' =>
      let* a := upure (Ulib.strcmp arg (text "-a" ++ [0])) in
      let* l := upure (Ulib.strcmp arg (text "-l" ++ [0])) in
      if negb (a =? 0) && negb (l =? 0) then uret (max_line, max_suffix, args) else
      match args' with
      | [] =>
          do* printf 2 "split: wrong arguments
" [] in
          uexit
      | num :: args'' =>
          let* ok := upure (checkInt num) in
          if negb ok then
            do* printf 2 "split: wrong arguments
" [] in
            uexit
          else
            let* n := upure (Ulib.atoi num) in
            if a =? 0 then parse_args args'' max_line n else parse_args args'' n max_suffix
      end
  end.

(** [strcpy(prefix, argv[pos+1])] into an array of 1000 bytes. *)
Definition prefix_of (rest : list bytes) : outcome bytes :=
  match rest with
  | _ :: p :: _ =>
      let? w := Ulib.strcpy_bytes p in
      if (length w <=? 1000)%nat then Ok w else UB
  | _ => Ok [120; 0]
  end.

(** Without a file name [argv[pos]] is the null pointer at the end of [argv]. *)
Definition main (fuel : nat) (st : stack) (argv : list bytes) : U W unit :=
  let* o := parse_args (tail argv) 1000 2 in
  let '(max_line, max_suffix, rest) := o in
  let* prefix := upure (prefix_of rest) in
  match rest with
  | [] => upure UB
  | path :: _ =>
      let* fd := uopen path O_RDONLY in
      if fd <? 0 then
        do* printf 2 "split: cannot open
" [AStr (Some path)] in
        uexit
      else
        let* r := ufstat fd in
        if fst r <? 0 then
          do* printf 2 "split: cannot stat
" [AStr (Some path)] in
          do* uclose fd in
          uexit
        else if negb (us_type (snd r) =? T_FILE) then
          do* printf 2 "split: cannot split
" [AStr (Some path)] in
          do* uclose fd in
          uexit
        else
          do* split fuel st fd max_line max_suffix prefix in
          do* uclose fd in
          uexit
  end.
End Program.

(** * Names

    The suffix as a number in base 26, the last letter first. *)

Definition letter (c : Z) : Prop := 97 <= c <= 122.

Definition value (l : bytes) : Z := foldr (fun c n => (c - 97) + 26 * n) 0 l.

Lemma letters (P : Z -> Prop) : Forall P ((fun i => 97 + Z.of_nat i) <$> seq 0 26) -> forall c, letter c -> P c.
Proof.
  intros HP c Hc. unfold letter in Hc. rewrite Forall_forall in HP. apply HP, list_elem_of_fmap. exists (Z.to_nat (c - 97)).
  split; [lia|]. apply elem_of_seq. lia.
Qed.

(** One step of the loop on a letter. *)
Lemma next_letter c : letter c ->
  exists rest, Ulib.strchr default_suffix c = Ok (Some rest) /\
    (Z.of_nat (length default_suffix) - Z.of_nat (length (tail rest)) =? 26) = (c =? 122) /\
    getb (if c =? 122 then default_suffix else tail rest) 0 = if c =? 122 then 97 else c + 1.
Proof.
  revert c. apply letters. cbn [seq fmap list_fmap].
  repeat (constructor; [eexists; split_and!; [vm_compute; reflexivity..]|]). constructor.
Qed.

Lemma next_loop_spec l : Forall letter l ->
  exists l' c, next_loop true l = Ok (l', c) /\ Forall letter l' /\ length l' = length l /\
    value l' + (if c then 26 ^ Z.of_nat (length l) else 0) = value l + 1.
Proof.
  induction 1 as [|c l Hc Hl IH]; [by exists [], true|].
  destruct (next_letter c Hc) as (rest & E1 & E2 & E3). cbn [next_loop]. rewrite E1. cbn [obind].
  change (Ulib.strlen default_suffix) with (Ok (A := Z) 26). cbn [obind]. rewrite E2, E3.
  destruct (c =? 122) eqn:Ec.
  - destruct IH as (l' & b & EI & FI & LI & VI). rewrite EI. cbn [obind fst snd]. exists (97 :: l'), b.
    split; [done|]. split; [by constructor|]. split; [cbn; lia|].
    cbn [value foldr length]. fold (value l') (value l). rewrite Nat2Z.inj_succ, Z.pow_succ_r by lia.
    destruct b; lia.
  - assert (EI : next_loop false l = Ok (l, false)).
    { clear. induction l as [|x l IH]; [done|]. cbn [next_loop]. by rewrite IH. }
    rewrite EI. cbn [obind fst snd]. exists (c + 1 :: l), false. split; [done|].
    unfold letter in Hc. split; [constructor; [unfold letter; lia|done]|]. split; [done|].
    cbn [value foldr]. fold (value l). lia.
Qed.

(** The [i]-th suffix of [k] letters, last letter first and in order. *)
Fixpoint digits26 (k : nat) (i : Z) : bytes :=
  match k with
  | O => []
  | S k' => (97 + i mod 26) :: digits26 k' (i / 26)
  end.

Definition name (k : nat) (i : Z) : bytes := rev (digits26 k i).

Lemma digits26_letters k i : Forall letter (digits26 k i).
Proof.
  revert i. induction k as [|k IH]; intros i; cbn; constructor; [|apply IH].
  pose proof (Z.mod_pos_bound i 26 ltac:(lia)). unfold letter. lia.
Qed.

Lemma digits26_length k i : length (digits26 k i) = k.
Proof. revert i. induction k as [|k IH]; intros i; cbn; [done|]. by rewrite IH. Qed.

Lemma digits26_value l : Forall letter l -> digits26 (length l) (value l) = l.
Proof.
  induction 1 as [|c l Hc Hl IH]; [done|]. cbn [length digits26 value foldr]. fold (value l). unfold letter in Hc.
  assert ((c - 97 + 26 * value l) / 26 = value l) as -> by divmod.
  assert ((c - 97 + 26 * value l) mod 26 = c - 97) as -> by divmod. rewrite IH. f_equal. lia.
Qed.

Lemma value_digits26 k i : 0 <= i < 26 ^ Z.of_nat k -> value (digits26 k i) = i.
Proof.
  revert i. induction k as [|k IH]; intros i Hi; [cbn in *; lia|].
  rewrite Nat2Z.inj_succ, Z.pow_succ_r in Hi by lia. cbn [digits26 value foldr]. fold (value (digits26 k (i / 26))).
  rewrite IH; divmod.
Qed.

Lemma value_bound l : Forall letter l -> 0 <= value l < 26 ^ Z.of_nat (length l).
Proof.
  induction 1 as [|c l Hc Hl IH]; [cbn; lia|]. unfold letter in Hc. cbn [length value foldr]. fold (value l).
  rewrite Nat2Z.inj_succ, Z.pow_succ_r by lia. lia.
Qed.

Lemma name_inj k i j : 0 <= i < 26 ^ Z.of_nat k -> 0 <= j < 26 ^ Z.of_nat k -> name k i = name k j -> i = j.
Proof.
  intros Hi Hj E. apply (f_equal (@rev Z)) in E. unfold name in E. rewrite !rev_involutive in E.
  rewrite <- (value_digits26 k i), <- (value_digits26 k j) by done. by rewrite E.
Qed.

Lemma name_ok k i : path_ok (name k i) /\ length (name k i) = k.
Proof.
  unfold name. rewrite length_rev, digits26_length. split; [|done]. apply Forall_rev.
  eapply Forall_impl; [apply digits26_letters|]. unfold letter. cbn. lia.
Qed.

Lemma nextSuffix_name k i z : 0 <= i -> i + 1 < 26 ^ Z.of_nat k ->
  nextSuffix (name k i ++ 0 :: z) = Ok (name k (i + 1) ++ 0 :: z, false).
Proof.
  intros Hi Hk. unfold nextSuffix. destruct (name_ok k i) as [Hok Hlen].
  rewrite strlen_at, Hlen by done.
  cbn [obind]. rewrite Nat2Z.id, take_app_length', drop_app_length' by done. unfold name at 1. rewrite rev_involutive.
  destruct (next_loop_spec (digits26 k i)) as (l & b & E & Fl & Ll & Vl); [apply digits26_letters|].
  rewrite E. cbn [obind fst snd]. rewrite digits26_length, value_digits26 in * by lia.
  pose proof (value_bound l Fl) as Hb. rewrite Ll in Hb. destruct b; [lia|]. rewrite Z.add_0_r in Vl.
  unfold name. rewrite <- Vl, <- Ll, digits26_value by done. done.
Qed.

(** * Parts *)

(** Complete parts, the part being written, its number of lines. *)
Record pst := mkpst { ps_done : list bytes; ps_cur : bytes; ps_cnt : Z }.

Definition pstep (max : Z) (s : pst) (b : Z) : pst :=
  let cur := ps_cur s ++ [b] in
  if b =? 10 then
    if ps_cnt s + 1 =? max then mkpst (ps_done s ++ [cur]) [] 0 else mkpst (ps_done s) cur (ps_cnt s + 1)
  else mkpst (ps_done s) cur (ps_cnt s).

Definition all_parts (s : pst) : list bytes := ps_done s ++ [ps_cur s].

(** The parts of a file. *)
Definition parts (max : Z) (c : bytes) : list bytes := all_parts (foldl (pstep max) (mkpst [] [] 0) c).

Definition newlines (l : bytes) : Z := Z.of_nat (length (filter (fun b => b = 10) l)).

(** The parts make up the file; all but the last have [max] lines and end with one. *)
Definition good_parts (max : Z) (s : pst) (c : bytes) : Prop :=
  concat (all_parts s) = c /\ newlines (ps_cur s) = ps_cnt s /\ ps_cnt s < max /\
  Forall (fun p => newlines p = max /\ last p = Some 10) (ps_done s).

Lemma newlines_snoc l b : newlines (l ++ [b]) = newlines l + if b =? 10 then 1 else 0.
Proof.
  unfold newlines. rewrite filter_app, length_app, filter_cons. destruct (b =? 10) eqn:E.
  - rewrite decide_True by lia. cbn. lia.
  - rewrite decide_False by lia. cbn. lia.
Qed.

Lemma pstep_good max s c b : 1 <= max -> good_parts max s c -> good_parts max (pstep max s b) (c ++ [b]).
Proof.
  intros Hm (Hc & Hn & Hlt & Hd). unfold pstep, good_parts, all_parts in *.
  rewrite concat_app in Hc. cbn in Hc. rewrite app_nil_r in Hc.
  pose proof (newlines_snoc (ps_cur s) b) as Hs. rewrite Hn in Hs.
  destruct (b =? 10) eqn:Eb; [destruct (ps_cnt s + 1 =? max) eqn:Em|]; cbn [ps_done ps_cur ps_cnt].
  - split_and!; [|done|lia|].
    + rewrite !concat_app. cbn. rewrite !app_nil_r. by rewrite <- Hc, app_assoc.
    + apply Forall_app. split; [done|]. constructor; [|constructor]. split; [lia|]. rewrite last_snoc. f_equal. lia.
  - split_and!; [|lia|lia|done]. rewrite concat_app. cbn. rewrite app_nil_r. by rewrite <- Hc, app_assoc.
  - split_and!; [|lia|lia|done]. rewrite concat_app. cbn. rewrite app_nil_r. by rewrite <- Hc, app_assoc.
Qed.

Lemma parts_good max c : 1 <= max -> good_parts max (foldl (pstep max) (mkpst [] [] 0) c) c.
Proof.
  intros Hm. assert (G : forall c0 s, good_parts max s c0 -> good_parts max (foldl (pstep max) s c) (c0 ++ c)).
  { induction c as [|b c IH]; intros c0 s Hs; [by rewrite app_nil_r|]. cbn [foldl].
    change (b :: c) with ([b] ++ c). rewrite app_assoc. apply IH. by apply pstep_good. }
  apply (G [] (mkpst [] [] 0)). split_and!; [done|done|cbn; lia|constructor].
Qed.

Lemma foldl_plain max s l : Forall (fun b => b <> 10) l ->
  foldl (pstep max) s l = mkpst (ps_done s) (ps_cur s ++ l) (ps_cnt s).
Proof.
  intros Hl. revert s. induction Hl as [|b l Hb Hl IH]; intros s; [cbn; rewrite app_nil_r; by destruct s|].
  cbn [foldl]. rewrite IH. unfold pstep. rewrite (proj2 (Z.eqb_neq b 10) Hb). cbn. by rewrite <- app_assoc.
Qed.

(** * The program *)

Section Spec.
  Context {W : Type} `{OSLaws W}.
  Context (pre : bytes) (k : nat) (F0 : gmap bytes bytes) (D0 : gset bytes) (max : Z) (junk : bytes).
  Context (Hpre : path_ok pre) (Hroom : (length pre + k < 1000)%nat).

(** The path of the [i]-th part. *)
Definition pname (i : nat) : bytes := pre ++ name k (Z.of_nat i).

Context (Hnew : forall i, Z.of_nat i < 26 ^ Z.of_nat k -> pname i ∉ D0).

(** The file of the [i]-th part after [x] is written from its start: [open] does
    not truncate. *)
Definition part_file (i : nat) (x : bytes) : bytes := overwrite (default [] (F0 !! pname i)) 0 x.

Lemma pname_ok i : path_ok (pname i) /\ length (pname i) = (length pre + k)%nat.
Proof.
  destruct (name_ok k (Z.of_nat i)) as [H1 H2]. unfold pname. split; [by apply Forall_app|]. by rewrite length_app, H2.
Qed.

Lemma pname_inj i j : Z.of_nat i < 26 ^ Z.of_nat k -> Z.of_nat j < 26 ^ Z.of_nat k -> pname i = pname j -> i = j.
Proof. intros Hi Hj E. apply app_inv_head in E. apply name_inj in E; lia. Qed.

(** The files when [l] are the parts written. *)
Definition with_parts (l : list bytes) : gmap bytes bytes :=
  (foldl (fun nm x => (S nm.1, <[pname nm.1 := part_file nm.1 x]> nm.2)) (O, F0) l).2.

Lemma with_parts_count l : (foldl (fun nm x => (S nm.1, <[pname nm.1 := part_file nm.1 x]> nm.2)) (O, F0) l).1 = length l.
Proof. induction l as [|x l IH] using rev_ind; [done|]. rewrite foldl_app, length_app. cbn. rewrite IH. lia. Qed.

Lemma with_parts_snoc l x : with_parts (l ++ [x]) = <[pname (length l) := part_file (length l) x]> (with_parts l).
Proof. unfold with_parts. rewrite foldl_app. cbn. by rewrite with_parts_count. Qed.

Lemma with_parts_part l i : Z.of_nat (length l) <= 26 ^ Z.of_nat k -> (i < length l)%nat -> with_parts l !! pname i = part_file i <$> l !! i.
Proof.
  induction l as [|x l IH] using rev_ind; intros Hk Hi; [cbn in Hi; lia|].
  rewrite length_app in *. cbn in Hk, Hi. rewrite with_parts_snoc. destruct (decide (i = length l)) as [->|Hne].
  - rewrite lookup_insert_eq, lookup_app_r by lia. by rewrite Nat.sub_diag.
  - rewrite lookup_insert_ne; [|intros E; apply pname_inj in E; lia]. rewrite IH by lia. by rewrite lookup_app_l by lia.
Qed.

Lemma with_parts_other l p : (forall i, (i < length l)%nat -> p <> pname i) -> with_parts l !! p = F0 !! p.
Proof.
  induction l as [|x l IH] using rev_ind; intros Hp; [done|]. rewrite with_parts_snoc.
  rewrite length_app in Hp. cbn in Hp. rewrite lookup_insert_ne by (apply not_eq_sym, Hp; lia). apply IH. intros i Hi. apply Hp. lia.
Qed.

(** The program has written the parts of [s]. *)
Definition inv (fds : gmap Z desc) (s : pst) (v : vars) (w : W) : Prop :=
  let i := length (ps_done s) in
  Z.of_nat i < 26 ^ Z.of_nat k /\ suffix v = name k (Z.of_nat i) ++ 0 :: junk /\
  (exists tl, path_parts v = pname i ++ 0 :: tl) /\ length (path_parts v) = 1000%nat /\
  num_line v = ps_cnt s /\ fds !! fd_parts v = None /\
  uv_files (view w) = with_parts (all_parts s) /\ uv_dirs (view w) = D0 /\
  uv_fds (view w) = <[fd_parts v := DFile (pname i) (length (ps_cur s))]> fds.

Lemma overwrite_nil (c : bytes) : overwrite c 0 [] = c.
Proof. done. Qed.

Lemma overwrite_next (c x l : bytes) : overwrite (overwrite c 0 x) (length x) l = overwrite c 0 (x ++ l).
Proof.
  unfold overwrite. cbn [take Nat.add]. rewrite !app_nil_l, take_app_length, length_app, <- app_assoc. do 2 f_equal.
  rewrite drop_app_ge by lia. rewrite drop_drop. f_equal. lia.
Qed.

Lemma part_file_length i x : (length x <= length (part_file i x))%nat.
Proof. unfold part_file, overwrite. cbn [take]. rewrite app_nil_l, length_app. lia. Qed.

(** [write] to the current part. *)
Lemma inv_write fds s v w l : inv fds s v w ->
  exists w', uwrite (fd_parts v) l w = Done (Z.of_nat (length l)) w' /\
    inv fds (mkpst (ps_done s) (ps_cur s ++ l) (ps_cnt s)) v w' /\ uv_out (view w') = uv_out (view w).
Proof.
  intros (I1 & I2 & I3 & I4 & I5 & I6 & I7 & I8 & I9).
  destruct (write_file (fd_parts v) l w (pname (length (ps_done s))) (length (ps_cur s)) (part_file (length (ps_done s)) (ps_cur s))) as (w' & E & V).
  { by rewrite I9, lookup_insert_eq. } { unfold all_parts in I7. by rewrite I7, with_parts_snoc, lookup_insert_eq. } { apply part_file_length. }
  exists w'. split; [exact (ucall_run _ _ _ _ E)|]. split; [|by rewrite V].
  unfold inv, all_parts in *. cbn [ps_done ps_cur ps_cnt]. split_and!; try done.
  - rewrite V. cbn. rewrite I7, !with_parts_snoc, insert_insert_eq. unfold part_file. by rewrite overwrite_next.
  - by rewrite V.
  - rewrite V. cbn. rewrite I9, insert_insert_eq, length_app. done.
Qed.

Lemma set_name_run pp i : take (length pre) pp = pre -> length pp = 1000%nat ->
  exists tl, set_name pp (pre ++ [0]) (name k (Z.of_nat i) ++ 0 :: junk) = Ok (pname i ++ 0 :: tl) /\
    length (pname i ++ 0 :: tl) = 1000%nat.
Proof.
  intros Ht Hl. destruct (name_ok k (Z.of_nat i)) as [Hn Hk]. unfold set_name. rewrite strlen_at, strcpy_at by done.
  cbn [obind]. rewrite Nat2Z.id, length_app, Hk. cbn [length].
  assert ((length pre + (k + 1) <=? length pp)%nat = true) as -> by (apply Nat.leb_le; lia).
  exists (drop (length pre + (k + 1)) pp). split.
  - unfold splice. rewrite Ht, length_app, Hk. cbn [length]. unfold pname. by rewrite <- !app_assoc.
  - rewrite length_app. cbn. destruct (pname_ok i) as [_ ->]. rewrite length_drop. lia.
Qed.

Lemma inv_next fds s v w : inv fds s v w -> (size fds < NOFILE)%nat -> Z.of_nat (length (ps_done s)) + 1 < 26 ^ Z.of_nat k ->
  exists v' w', next_part (pre ++ [0]) v w = Done v' w' /\ inv fds (mkpst (ps_done s ++ [ps_cur s]) [] 0) v' w' /\
    uv_out (view w') = uv_out (view w).
Proof.
  intros (I1 & I2 & (tl & I3) & I4 & I5 & I6 & I7 & I8 & I9) Hs Hk. set (i := length (ps_done s)) in *.
  destruct (close_fd (fd_parts v) w) as (w1 & E1 & V1); [rewrite I9, lookup_insert_eq; by eexists|].
  assert (G1 : uv_fds (view w1) = fds) by (rewrite V1; cbn; by rewrite I9, delete_insert_id).
  assert (Hi1 : length (all_parts s) = S i) by (unfold all_parts; rewrite length_app; cbn; lia).
  assert (Hp : uv_files (view w1) !! pname (S i) = F0 !! pname (S i)).
  { rewrite V1. cbn. rewrite I7, with_parts_other; [done|]. intros j Hj E. apply pname_inj in E; lia. }
  destruct (set_name_run (path_parts v) (S i)) as (tl' & E2 & L2).
  { rewrite I3. unfold pname. rewrite <- app_assoc. by rewrite take_app_length. } { done. }
  destruct (open_create (pname (S i)) w1) as (fd & w2 & E3 & Hfd & Hnf & V3); [|by rewrite G1|].
  { rewrite V1. cbn. rewrite I8. apply Hnew. lia. }
  exists (mkvars (name k (Z.of_nat (S i)) ++ 0 :: junk) (pname (S i) ++ 0 :: tl') fd 0), w2. split; [|split].
  - unfold next_part. ustep (ucall_run _ _ _ _ E1). rewrite I2, nextSuffix_name by lia. unfold ubind at 1, upure at 1.
    cbn [snd fst]. replace (Z.of_nat i + 1) with (Z.of_nat (S i)) by lia. rewrite E2. unfold ubind at 1, upure at 1.
    assert (R3 : uopen (pname (S i) ++ 0 :: tl') (Z.lor O_WRONLY O_CREATE) w1 = Done fd w2).
    { unfold uopen. rewrite cstr_at by apply pname_ok. exact (ucall_run _ _ _ _ E3). }
    by ustep R3.
  - unfold inv, all_parts in *. cbn [ps_done ps_cur ps_cnt suffix path_parts fd_parts num_line]. rewrite length_app. cbn [length].
    replace (length (ps_done s) + 1)%nat with (S i) by (unfold i; lia). split_and!; try done; [lia|by exists tl'|by rewrite <- G1| | |].
    + rewrite V3. cbn. rewrite V1. cbn. rewrite with_parts_snoc. rewrite V1 in Hp. cbn in Hp. rewrite Hp, I7.
      change (all_parts s) with (ps_done s ++ [ps_cur s]) in Hi1. by rewrite Hi1.
    + rewrite V3. cbn. rewrite V1. done.
    + rewrite V3. cbn. by rewrite G1.
  - rewrite V3. cbn. by rewrite V1.
Qed.

Lemma all_parts_step s b : (length (ps_done s) <= length (ps_done (pstep max s b)))%nat.
Proof. unfold pstep. destruct (b =? 10), (ps_cnt s + 1 =? max); cbn; rewrite ?length_app; lia. Qed.

Lemma foldl_done s l : (length (ps_done s) <= length (ps_done (foldl (pstep max) s l)))%nat.
Proof.
  revert s. induction l as [|b l IH]; intros s; cbn [foldl]; [lia|]. specialize (IH (pstep max s b)).
  pose proof (all_parts_step s b). lia.
Qed.

(** A line, and the end of a part when it is the last of it. *)
Lemma foldl_line s l : Forall (fun b => b <> 10) l ->
  foldl (pstep max) s (l ++ [10]) =
    if ps_cnt s + 1 =? max then mkpst (ps_done s ++ [ps_cur s ++ l ++ [10]]) [] 0
    else mkpst (ps_done s) (ps_cur s ++ l ++ [10]) (ps_cnt s + 1).
Proof.
  intros Hl. rewrite foldl_app, (foldl_plain max s l Hl). cbn [foldl]. unfold pstep.
  change (10 =? 10) with true. cbn [ps_cnt ps_cur ps_done]. cbv zeta iota. by rewrite <- app_assoc.
Qed.

Lemma lines_loop_spec fuel fds s v w data z : inv fds s v w -> (size fds < NOFILE)%nat -> path_ok data ->
  (length data < fuel)%nat -> Z.of_nat (length (ps_done (foldl (pstep max) s data))) < 26 ^ Z.of_nat k ->
  exists l1 l2 v' w', data = l1 ++ l2 /\ Forall (fun b => b <> 10) l2 /\
    lines_loop fuel max (pre ++ [0]) (data ++ 0 :: z) v w = Done (l2 ++ 0 :: z, v') w' /\
    inv fds (foldl (pstep max) s l1) v' w' /\ uv_out (view w') = uv_out (view w).
Proof.
  revert s v w data. induction fuel as [|fuel IH]; intros s v w data Hinv Hs Hd Hf Hk; [lia|].
  cbn [lines_loop]. destruct (strchr_at data 10 z Hd) as [[Hn E]|(l1 & l2 & -> & Hn & E)]; [done| |].
  - rewrite E. exists [], data, v, w. by split_and!.
  - rewrite E. unfold ubind at 1, upure at 1.
    apply Forall_app in Hd as [Hd1 Hd2]. apply Forall_cons in Hd2 as [_ Hd2].
    assert (Htake : take (length ((l1 ++ 10 :: l2) ++ 0 :: z) - length (10 :: l2 ++ 0 :: z) + 1) ((l1 ++ 10 :: l2) ++ 0 :: z) = l1 ++ [10]).
    { rewrite !length_app. cbn [length]. rewrite !length_app. cbn [length].
      replace (_ - _ + 1)%nat with (length (l1 ++ [10])) by (rewrite length_app; cbn; lia).
      replace ((l1 ++ 10 :: l2) ++ 0 :: z) with ((l1 ++ [10]) ++ l2 ++ 0 :: z) by (by rewrite <- !app_assoc).
      by rewrite take_app_length. }
    rewrite Htake. destruct (inv_write fds s v w (l1 ++ [10]) Hinv) as (w1 & E1 & I1 & O1). ustep E1.
    assert (Hsplit : foldl (pstep max) s (l1 ++ 10 :: l2) = foldl (pstep max) (foldl (pstep max) s (l1 ++ [10])) l2).
    { rewrite <- foldl_app. f_equal. by rewrite <- app_assoc. }
    rewrite Hsplit in Hk. pose proof (foldl_done (foldl (pstep max) s (l1 ++ [10])) l2) as Hmono.
    rewrite foldl_line in * by done. assert (num_line v = ps_cnt s) as -> by apply Hinv.
    assert (Hstep : exists v2 w2, (if ps_cnt s + 1 =? max then next_part (pre ++ [0]) v
        else uret (mkvars (suffix v) (path_parts v) (fd_parts v) (ps_cnt s + 1))) w1 = Done v2 w2 /\
      inv fds (if ps_cnt s + 1 =? max then mkpst (ps_done s ++ [ps_cur s ++ l1 ++ [10]]) [] 0
        else mkpst (ps_done s) (ps_cur s ++ l1 ++ [10]) (ps_cnt s + 1)) v2 w2 /\ uv_out (view w2) = uv_out (view w1)).
    { destruct (ps_cnt s + 1 =? max).
      - cbn [ps_done] in Hmono. rewrite length_app in Hmono. cbn in Hmono.
        destruct (inv_next fds _ v w1 I1 Hs) as (v2 & w2 & E2 & I2 & O2); [cbn; lia|]. by exists v2, w2.
      - eexists _, w1. split; [done|]. split; [|done]. destruct I1 as (J1 & J2 & J3 & J4 & J5 & J6 & J7 & J8 & J9).
        by split_and!. }
    destruct Hstep as (v2 & w2 & E2 & I2 & O2). cbv zeta. ustep E2. cbn [tail].
    destruct (IH _ v2 w2 l2 I2 Hs Hd2) as (l3 & l4 & v3 & w3 & -> & Hn4 & E3 & I3 & O3); [rewrite length_app in Hf; cbn in Hf; lia|done|].
    exists (l1 ++ 10 :: l3), l4, v3, w3. split_and!; [by rewrite <- app_assoc|done|done| |congruence].
    replace (l1 ++ 10 :: l3) with ((l1 ++ [10]) ++ l3) by (by rewrite <- app_assoc). by rewrite foldl_app, foldl_line.
Qed.

(** One buffer of data, followed by a terminator. *)
Lemma split_buf_spec fds s v w data z : inv fds s v w -> (size fds < NOFILE)%nat -> path_ok data ->
  Z.of_nat (length (ps_done (foldl (pstep max) s data))) < 26 ^ Z.of_nat k ->
  exists v' w', split_buf max (pre ++ [0]) (data ++ 0 :: z) v w = Done v' w' /\
    inv fds (foldl (pstep max) s data) v' w' /\ uv_out (view w') = uv_out (view w).
Proof.
  intros Hinv Hs Hd Hk. unfold split_buf.
  destruct (lines_loop_spec (S (length (data ++ 0 :: z))) fds s v w data z Hinv Hs Hd) as (l1 & l2 & v1 & w1 & -> & Hn & E & I & O);
    [rewrite length_app; lia|done|].
  ustep E. cbn [fst snd]. rewrite strlen_at by done. unfold ubind at 1, upure at 1.
  apply Forall_app in Hd as [Hd1 Hd2]. rewrite foldl_app.
  destruct (_ <? _) eqn:Ec.
  - rewrite strlen_at by done. unfold ubind at 1, upure at 1. rewrite Nat2Z.id, take_app_length.
    destruct (inv_write fds _ v1 w1 l2 I) as (w2 & E2 & I2 & O2). ustep E2.
    exists v1, w2. rewrite (foldl_plain max _ l2 Hn). split_and!; [done|done|congruence].
  - assert (l2 = []) as ->.
    { apply Z.ltb_ge in Ec. destruct l2; [done|]. rewrite !length_app in Ec. cbn in Ec. rewrite ?length_app in Ec. cbn in Ec. lia. }
    by exists v1, w1.
Qed.

Lemma inv_fds fds s v w w' fd d : inv fds s v w -> is_Some (fds !! fd) -> view w' = on_fds (insert fd d) (view w) ->
  inv (<[fd := d]> fds) s v w'.
Proof.
  intros (J1 & J2 & J3 & J4 & J5 & J6 & J7 & J8 & J9) [d0 Hd0] V. assert (fd <> fd_parts v) as Hne by congruence.
  split_and!; try done; [by rewrite lookup_insert_ne|by rewrite V|by rewrite V|].
  rewrite V. cbn. rewrite J9. by rewrite insert_insert_ne.
Qed.

Context (p : bytes) (Hin : forall i, Z.of_nat i < 26 ^ Z.of_nat k -> pname i <> p).

Lemma input_kept l c : F0 !! p = Some c -> Z.of_nat (length l) <= 26 ^ Z.of_nat k -> with_parts l !! p = Some c.
Proof.
  intros Hp Hk. rewrite with_parts_other; [done|]. intros i Hi ->. apply (Hin i); [lia|done].
Qed.

(** Data read into a zeroed buffer is terminated. *)
Lemma buffer_string data rest : (length data <= 1024)%nat -> head rest = Some 0 ->
  exists z, splice (replicate 1024 0) 0 data ++ rest = data ++ 0 :: z.
Proof.
  intros Hl Hr. unfold splice. cbn [take Nat.add]. rewrite app_nil_l, <- app_assoc, drop_replicate.
  destruct (1024 - length data)%nat as [|n] eqn:E.
  - destruct rest as [|x rest]; [done|]. injection Hr as ->. by exists rest.
  - exists (replicate n 0 ++ rest). done.
Qed.

Lemma split_loop_spec fuel fds fd off c s v w rest :
  inv fds s v w -> fds !! fd = Some (DFile p off) -> (size fds < NOFILE)%nat -> F0 !! p = Some c -> path_ok c ->
  (off <= length c)%nat -> Z.of_nat (length c) - Z.of_nat off + 1024 <= 1024 * Z.of_nat fuel -> head rest = Some 0 ->
  Z.of_nat (length (ps_done (foldl (pstep max) s (drop off c)))) < 26 ^ Z.of_nat k ->
  exists v' w', split_loop fuel fd max (pre ++ [0]) (replicate 1024 0) rest v w = Done v' w' /\
    inv (<[fd := DFile p (length c)]> fds) (foldl (pstep max) s (drop off c)) v' w' /\ uv_out (view w') = uv_out (view w).
Proof.
  revert fds off s v w. induction fuel as [|fuel IH]; intros fds off s v w Hinv Hfd Hs Hp Hc Hoff Hf Hr Hk; [lia|].
  cbn [split_loop].
  assert (Ho : open_at fd p off c w).
  { pose proof Hinv as (J1 & J2 & J3 & J4 & J5 & J6 & J7 & J8 & J9). split; [rewrite J9, lookup_insert_ne; congruence|].
    split; [|done]. rewrite J7. apply input_kept; [done|]. unfold all_parts. rewrite length_app. cbn. lia. }
  destruct (read_step fd 1024 p off c w Ho) as (w1 & n & R1 & O1 & V1 & K0 & K1 & K2); [lia|].
  ustep R1. cbn [fst snd]. pose proof (inv_fds fds s v w w1 fd _ Hinv (mk_is_Some _ _ Hfd) V1) as I1.
  destruct (0 <? Z.of_nat n) eqn:E0.
  - set (data := take n (drop off c)).
    destruct (buffer_string data rest) as (z & Ez); [unfold data; rewrite length_take; lia|done|]. rewrite Ez.
    assert (Hsplit : foldl (pstep max) s (drop off c) = foldl (pstep max) (foldl (pstep max) s data) (drop (off + n) c)).
    { unfold data. by rewrite <- foldl_app, <- drop_drop, take_drop. }
    rewrite Hsplit in *. pose proof (foldl_done (foldl (pstep max) s data) (drop (off + n) c)) as Hmono.
    destruct (split_buf_spec _ s v w1 data z I1) as (v2 & w2 & E2 & I2 & O2).
    { rewrite map_size_insert_Some; [done|by eexists]. } { by apply Forall_take, Forall_drop. } { lia. }
    ustep E2. destruct (IH _ (off + n)%nat _ v2 w2 I2) as (v3 & w3 & E3 & I3 & O3); try done.
    + by rewrite lookup_insert_eq.
    + rewrite map_size_insert_Some; [done|by eexists].
    + destruct O1 as (_ & _ & ?). done.
    + lia.
    + exists v3, w3. split; [done|]. rewrite insert_insert_eq in I3. split; [done|]. rewrite O3, O2, V1. done.
  - assert (n = O) as -> by lia. assert (off = length c) as -> by tauto. rewrite Nat.add_0_r in I1.
    exists v, w1. rewrite drop_ge by lia. split_and!; [done|done|by rewrite V1].
Qed.
End Spec.

Lemma name_0 k : name k 0 = replicate k 97.
Proof.
  unfold name. assert (E : digits26 k 0 = replicate k 97) by (induction k as [|k IH]; [done|]; cbn [digits26 replicate]; by rewrite <- IH).
  rewrite E. clear E. induction k as [|k IH]; [done|]. cbn [replicate rev]. rewrite IH. by rewrite <- replicate_S_end.
Qed.

(** The stack that makes the strings of [split] end where they should. *)
Definition clean (st : stack) : Prop :=
  head (after_suffix st) = Some 0 /\ length (path_parts0 st) = 1000%nat /\ buf0 st = replicate 1024 0 /\
  head (after_buf st) = Some 0.

(** C24. Functional correctness and termination of split. The hypotheses: the
    file has no NUL byte; the stack is one on which the unterminated arrays happen
    to be followed by a NUL and [buf] is zero; the names of the parts fit in
    [path_parts], name neither a directory nor the input file, and suffice for the
    parts; a descriptor is free; [max_line] is positive. Then it writes the parts
    of the file to the names made of the prefix and the letters in order, and to
    no others; put together the parts are the file, and each but the last has
    exactly [max_line] lines. A name that existed is overwritten from its start,
    not truncated: its file is the part followed by what it held beyond, so it is
    the part exactly when it was absent or not longer. *)
Theorem split_correct {W} `{OSLaws W} fuel st fd p c max pre k w :
  clean st -> open_at fd p 0 c w -> path_ok c -> path_ok pre -> (length pre + k < 1000)%nat -> 1 <= max ->
  (forall i, Z.of_nat i < 26 ^ Z.of_nat k -> pname pre k i <> p /\ pname pre k i ∉ uv_dirs (view w)) ->
  (size (uv_fds (view w)) < NOFILE)%nat -> Z.of_nat (length c) + 1024 <= 1024 * Z.of_nat fuel ->
  Z.of_nat (length (parts max c)) <= 26 ^ Z.of_nat k ->
  exists w', split fuel st fd max (Z.of_nat k) (pre ++ [0]) w = Done tt w' /\
    (forall i x, parts max c !! i = Some x -> let old := default [] (uv_files (view w) !! pname pre k i) in
      uv_files (view w') !! pname pre k i = Some (x ++ drop (length x) old)) /\
    (forall q, (forall i, (i < length (parts max c))%nat -> q <> pname pre k i) -> uv_files (view w') !! q = uv_files (view w) !! q) /\
    concat (parts max c) = c /\
    (forall i x, parts max c !! i = Some x -> (S i < length (parts max c))%nat -> newlines x = max /\ last x = Some 10) /\
    uv_fds (view w') = <[fd := DFile p (length c)]> (uv_fds (view w)).
Proof.
  intros (S1 & S2 & S3 & S4) (Hfd & Hp & _) Hc Hpre Hroom Hmax Hnew Hs Hf Hk.
  set (F0 := uv_files (view w)) in *. set (D0 := uv_dirs (view w)) in *.
  destruct (after_suffix st) as [|x junk] eqn:Ea; [done|]. injection S1 as ->.
  assert (Hpos : 1 <= 26 ^ Z.of_nat k) by (pose proof (Z.pow_pos_nonneg 26 (Z.of_nat k)); lia).
  assert (E1 : Ulib.strcpy (path_parts0 st) (pre ++ [0]) = Ok (splice (path_parts0 st) 0 (pre ++ [0]))).
  { unfold Ulib.strcpy. rewrite (strcpy_at pre []) by done. cbn [obind]. rewrite length_app, S2. cbn [length].
    by assert ((length pre + 1 <=? 1000)%nat = true) as -> by (apply Nat.leb_le; lia). }
  set (pp := splice (path_parts0 st) 0 (pre ++ [0])) in *.
  destruct (set_name_run pre k junk Hpre Hroom pp 0) as (tl & E2 & L2).
  { unfold pp, splice. cbn [take]. rewrite app_nil_l, <- app_assoc. by rewrite take_app_length. }
  { unfold pp. rewrite length_splice; [done|]. rewrite length_app. cbn. lia. }
  destruct (open_create (pname pre k 0) w) as (fd0 & w1 & E3 & Hfd0 & Hnf & V3); [apply Hnew; lia|done|].
  assert (Hdirs : forall i, Z.of_nat i < 26 ^ Z.of_nat k -> pname pre k i ∉ D0) by apply Hnew.
  assert (Hin : forall i, Z.of_nat i < 26 ^ Z.of_nat k -> pname pre k i <> p) by apply Hnew.
  assert (I : inv pre k F0 D0 junk (uv_fds (view w)) (mkpst [] [] 0) (mkvars (name k 0 ++ 0 :: junk) (pname pre k 0 ++ 0 :: tl) fd0 0) w1).
  { split_and!; try done; [cbn; lia|by exists tl|by rewrite V3..]. }
  assert (Hparts : Z.of_nat (length (ps_done (foldl (pstep max) (mkpst [] [] 0) c))) < 26 ^ Z.of_nat k).
  { unfold parts, all_parts in Hk. rewrite length_app in Hk. cbn in Hk. lia. }
  destruct (split_loop_spec pre k F0 D0 max junk Hpre Hroom Hdirs p Hin fuel _ fd 0 c _ _ w1 (after_buf st) I Hfd Hs Hp Hc)
    as (v2 & w2 & E4 & I2 & _); [lia|lia|done|by rewrite drop_0|]. rewrite drop_0 in I2.
  pose proof I2 as (_ & _ & _ & _ & _ & J6 & J7 & _ & J9).
  destruct (close_fd (fd_parts v2) w2) as (w3 & E5 & V5); [rewrite J9, lookup_insert_eq; by eexists|].
  exists w3. destruct (parts_good max c Hmax) as (P1 & _ & _ & P4). split; [|split_and!].
  - unfold split. rewrite Ea, Nat2Z.id. change (getb default_suffix 0) with 97. rewrite <- name_0, E1.
    unfold ubind at 1, upure at 1. change (name k 0) with (name k (Z.of_nat 0)). rewrite E2. unfold ubind at 1, upure at 1.
    assert (R3 : uopen (pname pre k 0 ++ 0 :: tl) (Z.lor O_WRONLY O_CREATE) w = Done fd0 w1).
    { unfold uopen. rewrite cstr_at by (by apply pname_ok). exact (ucall_run _ _ _ _ E3). }
    ustep R3. rewrite S3. ustep E4. by ustep (ucall_run _ _ _ _ E5).
  - intros i x Hi. rewrite V5. cbn. rewrite J7. fold (parts max c). rewrite with_parts_part; [by rewrite Hi|done..|].
    by eapply lookup_lt_Some.
  - intros q Hq. rewrite V5. cbn. rewrite J7. by apply with_parts_other.
  - exact P1.
  - intros i x Hi Hlt. unfold parts, all_parts in Hi, Hlt. rewrite length_app in Hlt. cbn in Hlt.
    rewrite lookup_app_l in Hi by lia. rewrite Forall_lookup in P4. by apply (P4 i).
  - rewrite V5. cbn. rewrite J9. by rewrite delete_insert_id.
Qed.

Import UView.

Definition demo_text : bytes := text "one
two
three
".

Definition demo_view : uview := mkuview {[ text "f" := demo_text ]} ∅ {[ 3 := DFile (text "f") 0 ]} ∅.

Definition demo_stack (after : bytes) : stack := mkstack after (replicate 1000 0) (replicate 1024 0) [0].

Lemma split_correct_witness : exists w',
  split (W := uview) 2 (demo_stack [0]) 3 2 2 (text "x" ++ [0]) demo_view = Done tt w' /\
  uv_files w' !! text "xaa" = Some (text "one
two
") /\ uv_files w' !! text "xab" = Some (text "three
").
Proof.
  destruct (split_correct (W := uview) 2 (demo_stack [0]) 3 (text "f") demo_text 2 (text "x") 2 demo_view) as (w' & E & P & _).
  - split_and!; reflexivity.
  - split; [reflexivity|]. split; [reflexivity|]. apply Nat.le_0_l.
  - repeat constructor; vm_compute; congruence.
  - repeat constructor; vm_compute; congruence.
  - apply Nat.ltb_lt. reflexivity.
  - vm_compute. congruence.
  - intros i _. split; [|apply not_elem_of_empty]. intros Hf. apply (f_equal length) in Hf.
    unfold pname in Hf. rewrite length_app, (proj2 (name_ok 2 (Z.of_nat i))) in Hf. vm_compute in Hf. congruence.
  - apply Nat.ltb_lt. reflexivity.
  - vm_compute. congruence.
  - vm_compute. congruence.
  - exists w'. split; [exact E|]. split; [exact (P 0%nat _ eq_refl)|exact (P 1%nat _ eq_refl)].
Defined.

(** The array [suffix] has no terminator: the name of the first part goes on with
    the bytes that follow the array on the stack. *)
Lemma split_unterminated_suffix :
  match split (W := uview) 2 (demo_stack [113; 0]) 3 2 2 (text "x" ++ [0]) demo_view with
  | Done _ w' => uv_files w' !! text "xaa" = None /\ uv_files w' !! text "xaaq" = Some (text "one
two
")
  | _ => False
  end.
Proof. vm_compute. by split. Qed.

(** A part's name that exists already and is longer keeps its end. *)
Lemma split_keeps_old_tail :
  match split (W := uview) 2 (demo_stack [0]) 3 2 2 (text "x" ++ [0])
    (on_files (insert (text "xab") (text "a longer old file")) demo_view) with
  | Done _ w' => uv_files w' !! text "xab" = Some (text "three
er old file")
  | _ => False
  end.
Proof. vm_compute. done. Qed.
