(* ===== verification/Grep.v ===== *)
(** The command grep (grep.c): its regular expression matcher against the language
    of the pattern, and the loop that keeps partial lines between reads. *)

From S2P Require Import Prelude Strings User.
Local Open Scope Z_scope.

(** * The matcher

    Patterns and texts are C strings, written without their terminators: the empty
    list is a pointer to the NUL. *)

Definition HAT : Z := 94.
Definition STAR : Z := 42.
Definition DOLLAR : Z := 36.
Definition DOT : Z := 46.

(** [matchstar(c, re, text)], given [matchhere(re, .)]. *)
Fixpoint matchstar (matchhere_re : bytes -> bool) (c : Z) (text : bytes) : bool :=
  if matchhere_re text then true else
  match text with
  | t :: text' => if (t =? c) || (c =? DOT) then matchstar matchhere_re c text' else false
  | [] => false
  end.

Fixpoint matchhere (re text : bytes) {struct re} : bool :=
  match re with
  | [] => true
  | c :: re' =>
      let literal :=
        if (c =? DOLLAR) && match re' with [] => true | _ => false end then
          match text with [] => true | _ => false end
        else
          match text with
          | t :: text' => if (c =? DOT) || (c =? t) then matchhere re' text' else false
          | [] => false
          end in
      match re' with
      | s :: re'' => if s =? STAR then matchstar (matchhere re'') c text else literal
      | [] => literal
      end
  end.

(** The do-while of [match]. *)
Fixpoint search (re text : bytes) : bool :=
  if matchhere re text then true else
  match text with
  | _ :: text' => search re text'
  | [] => false
  end.

Definition match_ (re text : bytes) : bool :=
  match re with
  | c :: re' => if c =? HAT then matchhere re' text else search re text
  | [] => search re text
  end.

(** * The language of a pattern *)

Inductive tok := One (c : Z) | Star (c : Z).

(** The items of a pattern, and whether it ends with a dollar. *)
Fixpoint tokens (re : bytes) : list tok * bool :=
  match re with
  | [] => ([], false)
  | c :: re' =>
      let plain := if (c =? DOLLAR) && match re' with [] => true | _ => false end then ([], true)
                   else let r := tokens re' in (One c :: r.1, r.2) in
      match re' with
      | s :: re'' => if s =? STAR then let r := tokens re'' in (Star c :: r.1, r.2) else plain
      | [] => plain
      end
  end.

Definition admits (c t : Z) : Prop := c = DOT \/ c = t.

Inductive lang : list tok -> bytes -> Prop :=
| lang_nil : lang [] []
| lang_one c t ts s : admits c t -> lang ts s -> lang (One c :: ts) (t :: s)
| lang_star c p ts s : Forall (admits c) p -> lang ts s -> lang (Star c :: ts) (p ++ s).

(** [text] begins with a word of the language, and is that word if anchored. *)
Definition begins (r : list tok * bool) (text : bytes) : Prop :=
  exists s z, text = s ++ z /\ lang r.1 s /\ (r.2 = true -> z = []).

Lemma begins_one c r text : begins (One c :: r.1, r.2) text <-> exists t text', text = t :: text' /\ admits c t /\ begins r text'.
Proof.
  split.
  - intros (s & z & -> & Hl & Hz). inversion Hl; subst. eexists _, _. split; [done|]. split; [done|]. by eexists _, _.
  - intros (t & text' & -> & Ha & s & z & -> & Hl & Hz). exists (t :: s), z. split; [done|]. split; [by constructor|done].
Qed.

Lemma begins_star c r text : begins (Star c :: r.1, r.2) text <-> exists p text', text = p ++ text' /\ Forall (admits c) p /\ begins r text'.
Proof.
  split.
  - intros (s & z & -> & Hl & Hz). inversion Hl as [| |? p ? s' Hp Hs]; subst. exists p, (s' ++ z).
    split; [by rewrite app_assoc|]. split; [done|]. by eexists _, _.
  - intros (p & text' & -> & Hp & s & z & -> & Hl & Hz). exists (p ++ s), z. split; [by rewrite app_assoc|].
    split; [by constructor|done].
Qed.

Lemma matchstar_spec (m : bytes -> bool) (P : bytes -> Prop) c text : (forall t, m t = true <-> P t) ->
  matchstar m c text = true <-> exists p text', text = p ++ text' /\ Forall (admits c) p /\ P text'.
Proof.
  intros Hm. induction text as [|t text IH]; cbn [matchstar].
  - destruct (m []) eqn:E; split; [|done|done|].
    + intros _. exists [], []. by rewrite <- Hm.
    + intros (p & text' & Ht & _ & Hp). symmetry in Ht. apply app_nil in Ht as [-> ->]. apply Hm in Hp. congruence.
  - destruct (m (t :: text)) eqn:E; [split; [|done]; intros _; exists [], (t :: text); by rewrite <- Hm|].
    destruct ((t =? c) || (c =? DOT)) eqn:Ea.
    + rewrite IH. assert (Ha : admits c t) by (unfold admits; apply orb_true_iff in Ea as [?|?]; lia).
      split.
      * intros (p & text' & -> & Hp & HP). exists (t :: p), text'. split; [done|]. split; [by constructor|done].
      * intros ([|x p] & text' & Ht & Hp & HP); cbn in Ht; [subst; apply Hm in HP; congruence|].
        injection Ht as -> ->. apply Forall_cons in Hp as [_ Hp]. by exists p, text'.
    + split; [done|]. intros ([|x p] & text' & Ht & Hp & HP); cbn in Ht; [subst; apply Hm in HP; congruence|].
      injection Ht as -> ->. apply Forall_cons in Hp as [Ha _]. apply orb_false_iff in Ea. unfold admits in Ha. lia.
Qed.

Lemma matchhere_spec re text : matchhere re text = true <-> begins (tokens re) text.
Proof.
  revert text. induction re as [re IH] using (induction_ltof1 _ (@length Z)). unfold ltof in IH. intros text.
  destruct re as [|c re]; [split; [|done]; intros _; exists [], text; split; [done|]; split; [constructor|done]|].
  assert (Hlit : forall b, b = ((c =? DOLLAR) && match re with [] => true | _ => false end) ->
    (if b then match text with [] => true | _ => false end
     else match text with t :: text' => if (c =? DOT) || (c =? t) then matchhere re text' else false | [] => false end) = true <->
    begins (if b then ([], true) else let r := tokens re in (One c :: r.1, r.2)) text).
  { intros [] _.
    - split; [intros Ht; destruct text; [|done]; exists [], []; split; [done|]; split; [constructor|done]|].
      intros (s & z & -> & Hl & Hz). cbn in Hl, Hz. inversion Hl; subst. by rewrite Hz.
    - cbv zeta. rewrite begins_one. destruct text as [|t text']; [split; [done|naive_solver]|].
      destruct ((c =? DOT) || (c =? t)) eqn:Ea.
      + rewrite IH by (cbn; lia). split; [intros Hb; exists t, text'; split; [done|]; split; [|done]; unfold admits; apply orb_true_iff in Ea as [?|?]; lia|].
        intros (t0 & text0 & [= <- <-] & _ & Hb). done.
      + split; [done|]. intros (t0 & text0 & [= <- <-] & Ha & _). apply orb_false_iff in Ea. unfold admits in Ha. lia. }
  cbn [matchhere tokens]. destruct re as [|s re'']; [by apply Hlit|]. destruct (s =? STAR); [|by apply Hlit].
  cbv zeta. rewrite begins_star. apply matchstar_spec. intros t. apply IH. cbn. lia.
Qed.

Lemma search_spec re text : search re text = true <-> exists l text', text = l ++ text' /\ begins (tokens re) text'.
Proof.
  induction text as [|t text IH]; cbn [search]; destruct (matchhere re _) eqn:E.
  - split; [intros _; exists [], []; by rewrite <- matchhere_spec|done].
  - split; [done|]. intros (l & text' & Ht & Hb). symmetry in Ht. apply app_nil in Ht as [-> ->].
    apply matchhere_spec in Hb. congruence.
  - split; [intros _; exists [], (t :: text); by rewrite <- matchhere_spec|done].
  - rewrite IH. split.
    + intros (l & text' & -> & Hb). by exists (t :: l), text'.
    + intros ([|x l] & text' & Ht & Hb); cbn in Ht; [subst; apply matchhere_spec in Hb; congruence|].
      injection Ht as -> ->. by exists l, text'.
Qed.

Definition hat (re : bytes) : bool := match re with c :: _ => c =? HAT | [] => false end.
Definition body (re : bytes) : bytes := if hat re then tail re else re.

(** What a pattern selects: the text has a word of its language inside, at the
    beginning after a hat and at the end before a dollar. *)
Definition selects (re text : bytes) : Prop :=
  exists l s z, text = l ++ s ++ z /\ lang (tokens (body re)).1 s /\
    (hat re = true -> l = []) /\ ((tokens (body re)).2 = true -> z = []).

Lemma match_spec re text : match_ re text = true <-> selects re text.
Proof.
  unfold match_, selects, body, hat. destruct re as [|c re].
  - rewrite search_spec. split; [intros (l & text' & -> & s & z & -> & Hl & Hz); by exists l, s, z|].
    intros (l & s & z & -> & Hl & _ & Hz). exists l, (s ++ z). split; [done|]. by exists s, z.
  - destruct (c =? HAT).
    + rewrite matchhere_spec. cbn [tail]. split; [intros (s & z & -> & Hl & Hz); by exists [], s, z|].
      intros (l & s & z & -> & Hl & Hl0 & Hz). rewrite Hl0 by done. by exists s, z.
    + rewrite search_spec. split; [intros (l & text' & -> & s & z & -> & Hl & Hz); by exists l, s, z|].
      intros (l & s & z & -> & Hl & _ & Hz). exists l, (s ++ z). split; [done|]. by exists s, z.
Qed.

(** * The loop over the input *)

Section Program.
  Context {W : Type} `{OS W}.

(** [while((q = strchr(p, '\n')) != 0)]: at most one round for each byte from [p]
    on. [*q = 0] makes the line a string for [match]. It gives the last [p]. *)
Fixpoint grep_lines (fuel : nat) (pattern p : bytes) : U W bytes :=
  match fuel with
  | O => uloops
  | S fuel' =>
      let* q := upure (Ulib.strchr p 10) in
      match q with
      | None => uret p
      | Some q =>
          let line := take (length p - length q) p in
          do* (if match_ pattern line then do* uwrite 1 (line ++ [10]) in uret tt else uret tt) in
          grep_lines fuel' pattern (tail q)
      end
  end.

(** [held] are the [m] bytes at the beginning of [buf]. *)
Fixpoint grep (fuel : nat) (pattern : bytes) (fd : Z) (held : bytes) : U W unit :=
  match fuel with
  | O => uloops
  | S fuel' =>
      let* r := uread fd (1024 - Z.of_nat (length held) - 1) in
      if 0 <? fst r then
        let buf := held ++ snd r ++ [0] in
        let* p := grep_lines (length buf) pattern buf in
        let m := if (length p =? length buf)%nat then [] else take (length p - 1) p in
        grep fuel' pattern fd m
      else uret tt
  end.

Fixpoint grep_args (fuel : nat) (pattern : bytes) (args : list bytes) : U W unit :=
  match args with
  | [] => uexit
  | arg :: args' =>
      let* fd := uopen arg 0 in
      if fd <? 0 then do* printf 1 "grep: cannot open %s
" [AStr (Some arg)] in uexit else
      do* grep fuel pattern fd [] in
      do* uclose fd in
      grep_args fuel pattern args'
  end.

Definition main (fuel : nat) (argv : list bytes) : U W unit :=
  match argv with
  | _ :: pattern :: args =>
      let* re := upure (cstr pattern) in
      match args with
      | [] => do* grep fuel re 0 [] in uexit
      | _ => grep_args fuel re args
      end
  | _ => do* printf 2 "usage: grep pattern [file ...]
" [] in uexit
  end.
End Program.

(** The complete lines of a text, and what follows the last newline. *)
Fixpoint cut (l : bytes) : list bytes * bytes :=
  match l with
  | [] => ([], [])
  | b :: l' =>
      let r := cut l' in
      if b =? 10 then ([] :: r.1, r.2)
      else match r.1 with
           | [] => ([], b :: r.2)
           | x :: ls => ((b :: x) :: ls, r.2)
           end
  end.

Definition grep_text (pattern : bytes) (ls : list bytes) : bytes :=
  concat ((fun x => x ++ [10]) <$> filter (fun x => match_ pattern x = true) ls).

(** Every line, with its newline, fits in the buffer. *)
Definition short_lines (c : bytes) : Prop := Forall (fun x => (length x < 1023)%nat) (cut c).1.

Lemma cut_plain l : Forall (fun b => b <> 10) l -> cut l = ([], l).
Proof.
  induction 1 as [|b l Hb Hl IH]; [done|]. cbn [cut]. rewrite IH. cbn. by rewrite (proj2 (Z.eqb_neq b 10) Hb).
Qed.

Lemma cut_line l1 l2 : Forall (fun b => b <> 10) l1 -> cut (l1 ++ 10 :: l2) = (l1 :: (cut l2).1, (cut l2).2).
Proof.
  induction 1 as [|b l1 Hb Hl IH]; [done|]. cbn [cut app]. rewrite IH. cbn. by rewrite (proj2 (Z.eqb_neq b 10) Hb).
Qed.

Lemma grep_text_app pattern ls ls' : grep_text pattern (ls ++ ls') = grep_text pattern ls ++ grep_text pattern ls'.
Proof. unfold grep_text. by rewrite filter_app, fmap_app, concat_app. Qed.

Lemma cut_app a b : cut (a ++ b) = ((cut a).1 ++ (cut ((cut a).2 ++ b)).1, (cut ((cut a).2 ++ b)).2).
Proof.
  induction a as [|x a IH]; [cbn; by destruct (cut b)|]. cbn [app cut]. rewrite IH. cbn [fst snd].
  destruct (x =? 10) eqn:E; cbn [fst snd]; [done|].
  destruct ((cut a).1) as [|y ls]; cbn [fst snd app]; [|done]. cbn [cut]. rewrite E.
  by destruct (cut ((cut a).2 ++ b)) as [[|] ?].
Qed.

Lemma cut_rest a : Forall (fun b => b <> 10) (cut a).2.
Proof.
  induction a as [|x a IH]; [constructor|]. cbn [cut]. destruct (x =? 10) eqn:E; cbn [snd]; [done|].
  destruct ((cut a).1); cbn [snd]; [|done]. constructor; [lia|done].
Qed.

Lemma cut_concat a : a = concat ((fun x => x ++ [10]) <$> (cut a).1) ++ (cut a).2.
Proof.
  induction a as [|x a IH]; [done|]. cbn [cut]. destruct (x =? 10) eqn:E; cbn [fst snd fmap list_fmap concat].
  - apply Z.eqb_eq in E as ->. cbn. by rewrite <- IH.
  - destruct ((cut a).1) as [|y ls]; cbn [fst snd fmap list_fmap concat app] in *; by rewrite <- IH.
Qed.

Section Spec.
  Context {W : Type} `{OSLaws W}.

Lemma grep_lines_spec fuel pattern data w : path_ok data -> (length data < fuel)%nat -> uv_fds (view w) !! 1 = Some DTty ->
  exists w', grep_lines fuel pattern (data ++ [0]) w = Done ((cut data).2 ++ [0]) w' /\
    prints 1 (grep_text pattern (cut data).1) (view w) (view w').
Proof.
  revert data w. induction fuel as [|fuel IH]; intros data w Hd Hf H1; [lia|]. cbn [grep_lines].
  destruct (strchr_at data 10 [] Hd) as [[Hn E]|(l1 & l2 & -> & Hn & E)]; [done| |]; rewrite E; unfold ubind at 1, upure at 1.
  - exists w. rewrite cut_plain by done. split; [done|apply prints_refl].
  - apply Forall_app in Hd as [Hd1 Hd2]. apply Forall_cons in Hd2 as [_ Hd2].
    rewrite cut_line by done. cbn [fst snd]. rewrite length_app in Hf. cbn in Hf.
    assert (take (length ((l1 ++ 10 :: l2) ++ [0]) - length (10 :: l2 ++ [0])) ((l1 ++ 10 :: l2) ++ [0]) = l1) as ->.
    { rewrite !length_app. cbn [length]. rewrite !length_app. cbn [length].
      replace (_ - _)%nat with (length l1) by lia. rewrite <- app_assoc. by rewrite take_app_length. }
    assert (Hw : exists w1, (if match_ pattern l1 then do* uwrite 1 (l1 ++ [10]) in uret tt else uret tt) w = Done tt w1 /\
      prints 1 (grep_text pattern [l1]) (view w) (view w1)).
    { unfold grep_text. rewrite filter_cons. destruct (match_ pattern l1) eqn:Em.
      - destruct (write_tty 1 (l1 ++ [10]) w H1) as (w1 & E1 & V1). exists w1. split; [by ustep (ucall_run _ _ _ _ E1)|].
        rewrite decide_True by done. cbn. rewrite app_nil_r, V1. apply prints_send.
      - exists w. split; [done|]. rewrite decide_False by done. apply prints_refl. }
    destruct Hw as (w1 & E1 & P1). cbv zeta. ustep E1. cbn [tail].
    destruct (IH l2 w1 Hd2) as (w2 & E2 & P2); [lia|by rewrite (prints_fds _ _ _ _ P1)|].
    exists w2. split; [done|]. change (l1 :: (cut l2).1) with ([l1] ++ (cut l2).1). rewrite grep_text_app. by eapply prints_trans.
Qed.

(** No line is lost: without a newline in a full buffer there is none to come. *)
Lemma long_line data rest : short_lines (data ++ rest) -> (cut data).1 = [] -> (1023 <= length data)%nat -> (cut rest).1 = [].
Proof.
  unfold short_lines. rewrite cut_app. intros Hs Hc Hl.
  assert (Hd : (cut data).2 = data) by (pose proof (cut_concat data) as E; by rewrite Hc in E).
  rewrite Hc, Hd in Hs. cbn [fst app] in Hs. destruct ((cut rest).1) as [|x ls] eqn:E; [done|]. exfalso.
  assert (Hx : (cut (data ++ rest)).1 = (data ++ x) :: ls).
  { assert (Hn : Forall (fun b => b <> 10) data) by (rewrite <- Hd; apply cut_rest). clear -E Hn.
    induction Hn as [|b data Hb Hn IH]; [done|]. cbn [app cut]. rewrite (proj2 (Z.eqb_neq b 10) Hb), IH. done. }
  rewrite Hx in Hs. apply Forall_cons in Hs as [Hs _]. rewrite length_app in Hs. lia.
Qed.

Lemma no_lines a : (cut a).1 = [] <-> Forall (fun b => b <> 10) a.
Proof.
  split; [|intros Hn; by rewrite cut_plain]. intros E. rewrite (cut_concat a), E. apply cut_rest.
Qed.

Lemma cut_shorter a : (cut a).1 <> [] -> (length (cut a).2 < length a)%nat.
Proof.
  intros Hn. rewrite (cut_concat a) at 2. destruct ((cut a).1); [done|]. cbn. rewrite !length_app. cbn. lia.
Qed.

(** What the loop keeps for the next round: the lines of the whole text are those
    of the buffer and those to come. *)
Lemma held_next data rest : short_lines (data ++ rest) -> ((1023 <= length data)%nat \/ rest = []) ->
  let held := if Nat.eqb (length ((cut data).2 ++ [0])) (length (data ++ [0])) then [] else (cut data).2 in
  (cut (data ++ rest)).1 = (cut data).1 ++ (cut (held ++ rest)).1 /\ short_lines (held ++ rest) /\
  ((length data <= 1023)%nat -> (length held <= 1022)%nat).
Proof.
  intros Hs Hr. cbv zeta. rewrite !length_app. cbn [length].
  assert (Hsub : (cut (data ++ rest)).1 = (cut data).1 ++ (cut ((cut data).2 ++ rest)).1) by (by rewrite cut_app).
  destruct (decide ((cut data).1 = [])) as [Hnil|Hnil].
  - assert (Hd : (cut data).2 = data) by (pose proof (cut_concat data) as Ec; by rewrite Hnil in Ec).
    assert (Hrest : (cut rest).1 = []) by (destruct Hr as [Hr| ->]; [by apply (long_line data)|done]).
    rewrite Hd, Nat.eqb_refl, Hnil. cbn [app]. unfold short_lines. rewrite Hrest. split_and!; [|constructor|cbn; lia].
    apply no_lines, Forall_app. by split; apply no_lines.
  - pose proof (cut_shorter data Hnil) as Hlt.
    assert ((length (cut data).2 + 1 =? length data + 1)%nat = false) as -> by (apply Nat.eqb_neq; lia).
    split; [done|]. split; [|lia]. unfold short_lines in *. rewrite Hsub in Hs. by apply Forall_app in Hs as [_ Hs].
Qed.

Lemma grep_spec fuel pattern fd p off c held w : open_at fd p off c w -> uv_fds (view w) !! 1 = Some DTty ->
  path_ok held -> path_ok c -> (length held <= 1022)%nat -> short_lines (held ++ drop off c) -> Forall (fun b => b <> 10) held ->
  Z.of_nat (length c) - Z.of_nat off < Z.of_nat fuel ->
  exists w', grep fuel pattern fd held w = Done tt w' /\
    prints 1 (grep_text pattern (cut (held ++ drop off c)).1) (on_fds (insert fd (DFile p (length c))) (view w)) (view w').
Proof.
  revert off held w. induction fuel as [|fuel IH]; intros off held w Ho H1 Hh Hc Hl Hs Hn Hf; [destruct Ho as (_ & _ & ?); lia|].
  pose proof (open_at_fd _ _ _ _ _ Ho H1) as Hne. cbn [grep].
  destruct (read_step fd (1024 - Z.of_nat (length held) - 1) p off c w Ho) as (w1 & n & R1 & O1 & V1 & K0 & K1 & K2); [lia|].
  ustep R1. cbn [fst snd]. destruct (0 <? Z.of_nat n) eqn:E0.
  - set (data := held ++ take n (drop off c)). cbv zeta.
    replace (held ++ take n (drop off c) ++ [0]) with (data ++ [0]) by (unfold data; by rewrite <- app_assoc).
    assert (Hdata : path_ok data) by (apply Forall_app; split; [done|by apply Forall_take, Forall_drop]).
    assert (Hlen : length data = (length held + n)%nat).
    { unfold data. rewrite length_app, length_take, length_drop. destruct O1 as (_ & _ & ?). lia. }
    assert (Hall : held ++ drop off c = data ++ drop (off + n) c).
    { unfold data. by rewrite <- app_assoc, <- drop_drop, take_drop. }
    destruct (grep_lines_spec (length (data ++ [0])) pattern data w1 Hdata) as (w2 & E2 & P2).
    { rewrite length_app. cbn. lia. } { rewrite V1. cbn. by rewrite lookup_insert_ne. }
    ustep E2. rewrite Hall in *. destruct (held_next data (drop (off + n) c) Hs) as (C1 & C2 & C3).
    { destruct K1 as [K1|K1]; [left; lia|right; by apply drop_ge; lia]. }
    rewrite C1, grep_text_app. pose proof (prints_fds _ _ _ _ P2) as G2. rewrite V1 in G2. cbn in G2.
    assert (Hheld : forall b : bool, (if b then [] else take (length ((cut data).2 ++ [0]) - 1) ((cut data).2 ++ [0])) =
      (if b then [] else (cut data).2)).
    { intros []; [done|]. rewrite length_app. cbn [length]. rewrite Nat.add_sub. by rewrite take_app_length. }
    rewrite Hheld. set (held' := if _ : bool then _ else _) in *.
    destruct (IH (off + n)%nat held' w2) as (w3 & E3 & P3); [| | |done|apply C3; lia|done| |lia|].
    + destruct O1 as (_ & _ & Ho1). split; [by rewrite G2, lookup_insert_eq|]. split; [|done].
      destruct P2 as (-> & _). rewrite V1. apply Ho.
    + by rewrite G2, lookup_insert_ne.
    + unfold held'. destruct (_ =? _)%nat; [constructor|]. rewrite (cut_concat data) in Hdata. by apply Forall_app in Hdata as [_ ?].
    + unfold held'. destruct (_ =? _)%nat; [constructor|apply cut_rest].
    + exists w3. split; [done|]. eapply prints_trans; [|exact P3].
      apply (prints_on_fds _ _ (insert fd (DFile p (length c)))) in P2. by rewrite V1, on_fds_insert in P2.
  - assert (n = O) as -> by lia. assert (off = length c) as -> by tauto. exists w1. split; [done|].
    rewrite drop_ge, app_nil_r by lia. rewrite cut_plain by done. rewrite Nat.add_0_r in V1. rewrite <- V1. apply prints_refl.
Qed.

(** A text file without lines longer than the buffer. *)
Definition greppable (fuel : nat) (v : uview) (f : bytes * bytes) : Prop :=
  path_ok f.1 /\ uv_files v !! f.1 = Some f.2 /\ f.1 ∉ uv_dirs v /\ path_ok f.2 /\ short_lines f.2 /\
  Z.of_nat (length f.2) < Z.of_nat fuel.

Lemma greppable_kept fuel l v v' f : prints 1 l v v' -> greppable fuel v f -> greppable fuel v' f.
Proof. unfold greppable. by intros (-> & -> & _). Qed.

(** C29. Functional correctness and termination of grep: the lines it prints are
    the lines of its files, in order, that the matcher accepts; and the matcher
    accepts exactly the texts in which the language of the pattern has a word, at
    the beginning after a hat and at the end before a dollar. The files have no
    NUL bytes and no line of 1023 bytes or more, and an unterminated last line is
    not a line. *)
Theorem grep_correct fuel prog re fs w : path_ok re -> Forall (greppable fuel (view w)) fs -> fs <> [] ->
  uv_fds (view w) !! 1 = Some DTty -> (size (uv_fds (view w)) < NOFILE)%nat ->
  (exists w', main fuel (prog :: (re ++ [0]) :: ((fun f => f.1 ++ [0]) <$> fs)) w = Exited w' /\
    prints 1 (concat ((fun f => grep_text re (cut f.2).1) <$> fs)) (view w) (view w')) /\
  (forall text, match_ re text = true <-> selects re text).
Proof.
  intros Hre Hfs Hne H1 Hs. split; [|apply match_spec]. unfold main. rewrite cstr_path by done. unfold ubind at 1, upure at 1.
  destruct fs as [|f0 fs0]; [done|]. cbn [fmap list_fmap].
  apply (each_file (greppable fuel) (greppable_kept fuel) (grep_args fuel re) (fun f => grep_text re (cut f.2).1) (f0 :: fs0)); [done| |done|done|done].
  clear -Hre. intros [p c] args w (Hp & Hf & Hd & Hc & Hl & Hfu) H1 Hs. cbn [fst snd] in *.
  apply (with_file p c (grep_text re (cut c).1) (fun fd => grep fuel re fd [])); [done..|]. intros fd w1 Ho H1'.
  destruct (grep_spec fuel re fd p 0 c [] w1 Ho H1') as (w2 & E2 & P2); [constructor|done|cbn; lia|by rewrite drop_0|constructor|lia|].
  rewrite drop_0 in P2. by exists w2.
Qed.
End Spec.

Import UView.

Definition demo_view : uview := mkuview {[ text "f" := text "abc
xbbc
ac
bc
" ]} ∅ {[ 1 := DTty ]} ∅.

Lemma grep_correct_witness : exists w',
  main (W := uview) 50 [[103; 0]; text "^ab*c$" ++ [0]; text "f" ++ [0]] demo_view = Exited w' /\ sent 1 w' = text "abc
ac
".
Proof.
  destruct (grep_correct (W := uview) 50 [103; 0] (text "^ab*c$") [(text "f", text "abc
xbbc
ac
bc
")] demo_view) as [(w' & E & P) _].
  - repeat constructor; vm_compute; congruence.
  - constructor; [|constructor]. split; [repeat constructor; vm_compute; congruence|]. split; [reflexivity|].
    split; [apply not_elem_of_empty|]. split; [repeat constructor; vm_compute; congruence|]. split; [|vm_compute; congruence].
    vm_compute. repeat constructor; apply Nat.ltb_lt; reflexivity.
  - discriminate.
  - reflexivity.
  - apply Nat.ltb_lt. reflexivity.
  - exists w'. split; [exact E|]. destruct P as (_ & _ & _ & S & _). etransitivity; [exact S|reflexivity].
Defined.
