(* ===== verification/Sh.v ===== *)
(** The parser of the shell (sh.c): it ends on every line, and the commands it builds
    are well formed and point at terminated words.

    A pointer into the line is the rest of the line from there on, without the
    terminator; [es] is the empty rest. *)

From S2P Require Import Prelude Strings User.
Local Open Scope Z_scope.

(** * Results

    [Syntax msg] is the shell's [panic(msg)], which prints and exits. *)
Inductive pres (A : Type) : Type :=
| POk (a : A)
| Syntax (msg : string)
| PFuel.
Arguments POk {A} a.
Arguments Syntax {A} msg.
Arguments PFuel {A}.

Definition pbind {A B} (m : pres A) (k : A -> pres B) : pres B :=
  match m with
  | POk a => k a
  | Syntax msg => Syntax msg
  | PFuel => PFuel
  end.
Notation "'let+' x ':=' m 'in' k" := (pbind m (fun x => k))
  (at level 10, x pattern, m at level 100, k at level 200) : kernel_scope.

Lemma pbind_POk {A B} (m : pres A) (k : A -> pres B) a : m = POk a -> pbind m k = k a.
Proof. by intros ->. Qed.

(** * Commands

    The structs execcmd, redircmd, pipecmd, listcmd and backcmd: a word is the
    pair of pointers to its beginning and its end. *)

Definition word : Type := bytes * bytes.

Record redir := mkredir { r_file : word; r_mode : Z; r_fd : Z }.

Inductive cmd :=
| Exec (argv : list word)
| Redir (c : cmd) (r : redir)
| Pipe (left right : cmd)
| List_ (left right : cmd)
| Back (c : cmd).

Definition MAXARGS : nat := 10.

Definition whitespace : bytes := [32; 9; 13; 10; 11].
Definition symbols : bytes := text "<|>&;()".

Definition isin (l : bytes) (c : Z) : bool := existsb (Z.eqb c) l.

(** A character of a word. *)
Definition plain (c : Z) : bool := negb (isin whitespace c) && negb (isin symbols c).

(** * The lexer *)

Fixpoint skip (s : bytes) : bytes :=
  match s with
  | c :: s' => if isin whitespace c then skip s' else s
  | [] => []
  end.

Fixpoint skip_word (s : bytes) : bytes :=
  match s with
  | c :: s' => if plain c then skip_word s' else s
  | [] => []
  end.

(** The switch of [gettoken]: the token, and the pointer after it. *)
Definition token (s : bytes) : Z * bytes :=
  match s with
  | [] => (0, [])
  | c :: s' =>
      if isin (text "|();&<") c then (c, s')
      else if c =? 62 then
        match s' with
        | d :: s'' => if d =? 62 then (43, s'') else (62, s')
        | [] => (62, s')
        end
      else (97, skip_word s)
  end.

(** The token, the word it is, and [*ps]. *)
Definition gettoken (ps : bytes) : Z * word * bytes :=
  let s := skip ps in
  let '(ret, e) := token s in
  (ret, (s, e), skip e).

(** [*ps] after [peek], and its result. *)
Definition peek (ps toks : bytes) : bytes * bool :=
  let s := skip ps in
  (s, match s with c :: _ => isin toks c | [] => false end).

(** * The parser *)

(** The redirections found are applied to the command in the order found. *)
Fixpoint parseredirs (fuel : nat) (rs : list redir) (ps : bytes) : pres (list redir * bytes) :=
  match fuel with
  | O => PFuel
  | S fuel' =>
      let '(ps, b) := peek ps (text "<>") in
      if negb b then POk (rs, ps) else
      let '(tok, _, ps) := gettoken ps in
      let '(tok2, file, ps) := gettoken ps in
      if negb (tok2 =? 97) then Syntax "missing file for redirection" else
      let r := if tok =? 60 then mkredir file O_RDONLY 0 else mkredir file (Z.lor O_WRONLY O_CREATE) 1 in
      parseredirs fuel' (rs ++ [r]) ps
  end.

(** The loop over the arguments: [cmd->argv] grows while [ret] gets redirections. *)
Fixpoint parseargs (fuel : nat) (argv : list word) (rs : list redir) (ps : bytes) : pres (list word * list redir * bytes) :=
  match fuel with
  | O => PFuel
  | S fuel' =>
      let '(ps, b) := peek ps (text "|)&;") in
      if b then POk (argv, rs, ps) else
      let '(tok, w, ps) := gettoken ps in
      if tok =? 0 then POk (argv, rs, ps) else
      if negb (tok =? 97) then Syntax "syntax" else
      let argv := argv ++ [w] in
      if (MAXARGS <=? length argv)%nat then Syntax "too many args" else
      let+ (rs, ps) := parseredirs (S (length ps)) rs ps in
      parseargs fuel' argv rs ps
  end.

Definition redirect (c : cmd) (rs : list redir) : cmd := foldl Redir c rs.

(** [while(peek(ps, es, "&"))]. *)
Fixpoint parseback (fuel : nat) (c : cmd) (ps : bytes) : pres (cmd * bytes) :=
  match fuel with
  | O => PFuel
  | S fuel' =>
      let '(ps, b) := peek ps (text "&") in
      if negb b then POk (c, ps) else
      let '(_, _, ps) := gettoken ps in
      parseback fuel' (Back c) ps
  end.

Fixpoint parseline (fuel : nat) (ps : bytes) : pres (cmd * bytes) :=
  match fuel with
  | O => PFuel
  | S fuel' =>
      let+ (c, ps) := parsepipe fuel' ps in
      let+ (c, ps) := parseback (S (length ps)) c ps in
      let '(ps, b) := peek ps (text ";") in
      if negb b then POk (c, ps) else
      let '(_, _, ps) := gettoken ps in
      let+ (d, ps) := parseline fuel' ps in
      POk (List_ c d, ps)
  end
with parsepipe (fuel : nat) (ps : bytes) : pres (cmd * bytes) :=
  match fuel with
  | O => PFuel
  | S fuel' =>
      let+ (c, ps) := parseexec fuel' ps in
      let '(ps, b) := peek ps (text "|") in
      if negb b then POk (c, ps) else
      let '(_, _, ps) := gettoken ps in
      let+ (d, ps) := parsepipe fuel' ps in
      POk (Pipe c d, ps)
  end
with parseexec (fuel : nat) (ps : bytes) : pres (cmd * bytes) :=
  match fuel with
  | O => PFuel
  | S fuel' =>
      let '(ps, b) := peek ps (text "(") in
      if b then parseblock fuel' ps else
      let+ (rs, ps) := parseredirs (S (length ps)) [] ps in
      let+ (argv, rs, ps) := parseargs (S (length ps)) [] rs ps in
      POk (redirect (Exec argv) rs, ps)
  end
with parseblock (fuel : nat) (ps : bytes) : pres (cmd * bytes) :=
  match fuel with
  | O => PFuel
  | S fuel' =>
      let '(ps, b) := peek ps (text "(") in
      if negb b then Syntax "parseblock" else
      let '(_, _, ps) := gettoken ps in
      let+ (c, ps) := parseline fuel' ps in
      let '(ps, b) := peek ps (text ")") in
      if negb b then Syntax "syntax - missing )" else
      let '(_, _, ps) := gettoken ps in
      let+ (rs, ps) := parseredirs (S (length ps)) [] ps in
      POk (redirect c rs, ps)
  end.

(** [nulterminate]: stores a NUL at the end of each word; [n] is [strlen] of the
    line, [buf] the line in memory. *)
Definition terminate (n : nat) (buf : bytes) (w : word) : bytes := <[(n - length w.2)%nat := 0]> buf.

Fixpoint nulterminate (n : nat) (c : cmd) (buf : bytes) : bytes :=
  match c with
  | Exec argv => foldl (terminate n) buf argv
  | Redir c r => terminate n (nulterminate n c buf) (r_file r)
  | Pipe c d | List_ c d => nulterminate n d (nulterminate n c buf)
  | Back c => nulterminate n c buf
  end.

(** Four calls deep at most for each character, the last of which consumes it. *)
Definition parse_fuel (s : bytes) : nat := (4 * length s + 4)%nat.

(** The command, and the line after [nulterminate]. *)
Definition parsecmd (s : bytes) : pres (cmd * bytes) :=
  let+ (c, ps) := parseline (parse_fuel s) s in
  let '(ps, _) := peek ps [] in
  match ps with
  | [] => POk (c, nulterminate (length s) c (s ++ [0]))
  | _ => Syntax "syntax"
  end.

(** * The lexer's laws *)

Lemma skip_suffix s : skip s `suffix_of` s.
Proof.
  induction s as [|c s IH]; cbn [skip]; [reflexivity|]. destruct (isin whitespace c); [by apply suffix_cons_r|reflexivity].
Qed.

Lemma skip_word_spec s : exists w, s = w ++ skip_word s /\ Forall (fun c => plain c = true) w /\
  match skip_word s with c :: _ => plain c = false | [] => True end.
Proof.
  induction s as [|c s (w & E & Hw & He)]; cbn [skip_word]; [by exists []|]. destruct (plain c) eqn:Ec.
  - exists (c :: w). split; [by rewrite E at 1|]. split; [by constructor|done].
  - by exists [].
Qed.

Lemma suffix_le {A} (l l' : list A) : l `suffix_of` l' -> (length l <= length l')%nat.
Proof. apply suffix_length. Qed.

(** A word of the line [s]: characters that are neither blank nor symbols, up to
    one that is. *)
Definition wf_word (s : bytes) (w : word) : Prop :=
  w.1 `suffix_of` s /\
  exists txt, w.1 = txt ++ w.2 /\ txt <> [] /\ Forall (fun c => plain c = true) txt /\
    match w.2 with c :: _ => plain c = false | [] => True end.

Lemma isin_spec l c : isin l c = true <-> c ∈ l.
Proof.
  unfold isin. rewrite existsb_exists. split.
  - intros (x & Hx & E). apply Z.eqb_eq in E as <-. by apply list_elem_of_In.
  - intros Hc. exists c. split; [by apply list_elem_of_In|apply Z.eqb_refl].
Qed.

(** A character that starts a word. *)
Lemma plain_start c : isin whitespace c = false -> isin (text "|();&<") c = false -> (c =? 62) = false -> plain c = true.
Proof.
  intros Hw Hs Hg. unfold plain. rewrite Hw. cbn [negb andb]. apply negb_true_iff, not_true_is_false.
  rewrite isin_spec. intros Hin. apply not_true_iff_false in Hs. apply Hs, isin_spec. revert Hin.
  change (text "|();&<") with [124; 40; 41; 59; 38; 60]. change symbols with [60; 124; 62; 38; 59; 40; 41].
  rewrite !elem_of_cons, !elem_of_nil. lia.
Qed.

Lemma skip_head s c s' : skip s = c :: s' -> isin whitespace c = false.
Proof.
  induction s as [|d s IH]; cbn [skip]; [done|]. destruct (isin whitespace d) eqn:E; [auto|]. by intros [= <- <-].
Qed.

(** What [token] returns at the beginning of something that is not blank. *)
Lemma token_spec s tok e : token (skip s) = (tok, e) ->
  e `suffix_of` skip s /\ (skip s = [] -> tok = 0) /\ (skip s <> [] -> (length e < length (skip s))%nat) /\
  (tok = 97 -> wf_word s (skip s, e)).
Proof.
  destruct (skip s) as [|c s'] eqn:Es; cbn [token].
  { intros [= <- <-]. split_and!; [reflexivity|done|done|done]. }
  pose proof (skip_head s c s' Es) as Hc. pose proof (skip_suffix s) as Hsuf. rewrite Es in Hsuf.
  destruct (isin (text "|();&<") c) eqn:E1; [intros [= <- <-]|destruct (c =? 62) eqn:E2; [destruct s' as [|d s'']; [|destruct (d =? 62)]; intros [= <- <-]|intros [= <- <-]]].
  - split_and!; [apply suffix_cons_r; reflexivity|done|cbn; lia|]. intros ->. done.
  - split_and!; [apply suffix_cons_r; reflexivity|done|cbn; lia|done].
  - split_and!; [do 2 apply suffix_cons_r; reflexivity|done|cbn; lia|done].
  - split_and!; [apply suffix_cons_r; reflexivity|done|cbn; lia|done].
  - pose proof (plain_start c Hc E1 E2) as Hp. destruct (skip_word_spec s') as (w & E & Hw & He).
    cbn [skip_word]. rewrite Hp.
    assert (Hsuf' : skip_word s' `suffix_of` s') by (exists w; exact E).
    split_and!; [by apply suffix_cons_r|done|intros _; apply suffix_le in Hsuf'; cbn; lia|]. intros _. split; [done|].
    exists (c :: w). cbn [fst snd]. split; [by rewrite E at 1|]. split; [done|]. split; [by constructor|done].
Qed.

Lemma gettoken_spec ps tok q e ps' : gettoken ps = (tok, (q, e), ps') ->
  q = skip ps /\ ps' `suffix_of` e /\ e `suffix_of` ps /\ (skip ps = [] -> tok = 0) /\
  (skip ps <> [] -> (length ps' < length ps)%nat) /\ (tok = 97 -> wf_word ps (q, e)).
Proof.
  unfold gettoken. destruct (token (skip ps)) as [ret e0] eqn:E. intros [= <- <- <- <-].
  destruct (token_spec ps ret e0 E) as (H1 & H2 & H3 & H4). pose proof (skip_suffix ps) as Hs.
  split_and!; [done|apply skip_suffix|by etrans|done| |done].
  intros Hne. specialize (H3 Hne). pose proof (suffix_le _ _ (skip_suffix e0)). pose proof (suffix_le _ _ Hs). lia.
Qed.

(** * Termination and well-formedness *)

(** The call returns, with a result in [P], or stops with a syntax error. *)
Definition ends {A} (P : A -> Prop) (r : pres A) : Prop :=
  match r with POk a => P a | Syntax _ => True | PFuel => False end.

Lemma ends_bind {A B} (P : A -> Prop) (Q : B -> Prop) m k : ends P m -> (forall a, P a -> ends Q (k a)) -> ends Q (pbind m k).
Proof. destruct m; cbn; auto. Qed.

Lemma wf_word_suffix s s' w : wf_word s w -> s `suffix_of` s' -> wf_word s' w.
Proof. intros [H1 H2] Hs. split; [by etrans|done]. Qed.

(** A redirection that the parser builds. *)
Definition wf_redir (s : bytes) (r : redir) : Prop :=
  wf_word s (r_file r) /\ (r_mode r = O_RDONLY /\ r_fd r = 0 \/ r_mode r = Z.lor O_WRONLY O_CREATE /\ r_fd r = 1).

Fixpoint wf_cmd (s : bytes) (c : cmd) : Prop :=
  match c with
  | Exec argv => (length argv < MAXARGS)%nat /\ Forall (wf_word s) argv
  | Redir c r => wf_cmd s c /\ wf_redir s r
  | Pipe c d | List_ c d => wf_cmd s c /\ wf_cmd s d
  | Back c => wf_cmd s c
  end.

Lemma wf_redirect s c rs : wf_cmd s c -> Forall (wf_redir s) rs -> wf_cmd s (redirect c rs).
Proof.
  intros Hc Hr. revert c Hc. induction Hr as [|r rs Hr Hrs IH]; intros c Hc; [done|]. by apply IH.
Qed.

Lemma ends_weaken {A} (P Q : A -> Prop) r : ends P r -> (forall a, P a -> Q a) -> ends Q r.
Proof. destruct r; cbn; auto. Qed.

(** After a successful [peek], [gettoken] consumes something. *)
Lemma peek_consumes ps toks ps0 tok w ps1 : peek ps toks = (ps0, true) -> gettoken ps0 = (tok, w, ps1) ->
  ps1 `suffix_of` ps /\ (length ps1 < length ps)%nat.
Proof.
  unfold peek. intros [= <- Eb] G. pose proof (skip_suffix ps) as Hk.
  assert (Hne : skip (skip ps) <> []).
  { destruct (skip ps) as [|c l] eqn:E; [done|]. cbn [skip]. by rewrite (skip_head ps c l E). }
  destruct w as [q e]. destruct (gettoken_spec _ _ _ _ _ G) as (_ & A1 & A2 & _ & A3 & _). specialize (A3 Hne).
  pose proof (suffix_le _ _ Hk). split; [|lia]. etrans; [exact A1|]. by etrans.
Qed.

Lemma gettoken_suffix ps tok w ps1 : gettoken ps = (tok, w, ps1) -> ps1 `suffix_of` ps.
Proof. destruct w as [q e]. intros G. destruct (gettoken_spec _ _ _ _ _ G) as (_ & A1 & A2 & _). by etrans. Qed.

Lemma peek_suffix ps toks ps0 b : peek ps toks = (ps0, b) -> ps0 `suffix_of` ps.
Proof. unfold peek. intros [= <- _]. apply skip_suffix. Qed.

Section Total.
  Context (s : bytes).

(** What the parser leaves is a rest of what it was given. *)
Definition after {A} (P : A -> Prop) (ps : bytes) (r : A * bytes) : Prop := r.2 `suffix_of` ps /\ P r.1.

Lemma after_mono {A} (P : A -> Prop) ps ps' r : ps `suffix_of` ps' -> after P ps r -> after P ps' r.
Proof. intros Hs [H1 H2]. split; [by etrans|done]. Qed.

Lemma parseredirs_ends fuel rs ps : ps `suffix_of` s -> (length ps < fuel)%nat -> Forall (wf_redir s) rs ->
  ends (after (Forall (wf_redir s)) ps) (parseredirs fuel rs ps).
Proof.
  revert rs ps. induction fuel as [|fuel IH]; intros rs ps Hs Hf Hr; [lia|]. cbn [parseredirs].
  destruct (peek ps (text "<>")) as [ps0 b] eqn:Ep. pose proof (peek_suffix _ _ _ _ Ep) as Hk.
  destruct b; cbn [negb]; [|by split].
  destruct (gettoken ps0) as [[tok w1] ps1] eqn:G1. destruct (peek_consumes _ _ _ _ _ _ Ep G1) as [S1 L1].
  destruct (gettoken ps1) as [[tok2 [q2 e2]] ps2] eqn:G2. pose proof (gettoken_suffix _ _ _ _ G2) as S2.
  destruct (tok2 =? 97) eqn:E97; cbn [negb]; [|done]. apply Z.eqb_eq in E97.
  destruct (gettoken_spec _ _ _ _ _ G2) as (_ & _ & _ & _ & _ & B4). pose proof (suffix_le _ _ S2).
  assert (S3 : ps2 `suffix_of` ps) by (by etrans).
  eapply ends_weaken; [apply IH; [by etrans|lia|]|intros r; by apply after_mono].
  apply Forall_app. split; [done|]. constructor; [|constructor].
  assert (wf_word s (q2, e2)) by (apply (wf_word_suffix ps1); [auto|by etrans]).
  destruct (tok =? 60); (split; [done|]); [by left|by right].
Qed.

Lemma parseargs_ends fuel argv rs ps : ps `suffix_of` s -> (length ps < fuel)%nat -> Forall (wf_redir s) rs ->
  wf_cmd s (Exec argv) ->
  ends (after (fun r => wf_cmd s (Exec r.1) /\ Forall (wf_redir s) r.2) ps) (parseargs fuel argv rs ps).
Proof.
  revert argv rs ps. induction fuel as [|fuel IH]; intros argv rs ps Hs Hf Hr Ha; [lia|]. cbn [parseargs].
  destruct (peek ps (text "|)&;")) as [ps0 b] eqn:Ep. pose proof (peek_suffix _ _ _ _ Ep) as Hk.
  destruct b; [by split|]. destruct (gettoken ps0) as [[tok [q e]] ps1] eqn:G1.
  pose proof (gettoken_suffix _ _ _ _ G1) as S1. assert (S01 : ps1 `suffix_of` ps) by (by etrans).
  destruct (tok =? 0) eqn:E0; [by split|]. destruct (tok =? 97) eqn:E97; cbn [negb]; [|done]. apply Z.eqb_eq in E97.
  destruct (gettoken_spec _ _ _ _ _ G1) as (_ & _ & _ & B1 & B2 & B3). specialize (B3 E97).
  assert (L1 : (length ps1 < length ps)%nat).
  { pose proof (suffix_le _ _ Hk). assert (skip ps0 <> []) by (intros E; specialize (B1 E); lia). specialize (B2 ltac:(done)). lia. }
  cbv zeta. destruct (Nat.leb _ _) eqn:Em; [exact I|]. apply Nat.leb_gt in Em.
  assert (Ha' : wf_cmd s (Exec (argv ++ [(q, e)]))).
  { split; [done|]. destruct Ha as [_ Ha]. apply Forall_app. split; [done|]. constructor; [|constructor].
    apply (wf_word_suffix ps0); [done|by etrans]. }
  eapply ends_bind; [apply parseredirs_ends; [by etrans|lia|done]|]. intros [rs' ps2] [S2 R2]. cbn [fst snd] in *.
  pose proof (suffix_le _ _ S2).
  eapply ends_weaken; [apply IH; [etrans; [exact S2|by etrans]|lia|done|done]|]. intros r. apply after_mono. by etrans.
Qed.

Lemma parseback_ends fuel c ps : (length ps < fuel)%nat -> wf_cmd s c -> ends (after (wf_cmd s) ps) (parseback fuel c ps).
Proof.
  revert c ps. induction fuel as [|fuel IH]; intros c ps Hf Hc; [lia|]. cbn [parseback].
  destruct (peek ps (text "&")) as [ps0 b] eqn:Ep. pose proof (peek_suffix _ _ _ _ Ep) as Hk.
  destruct b; cbn [negb]; [|by split]. destruct (gettoken ps0) as [[tok w] ps1] eqn:G1.
  destruct (peek_consumes _ _ _ _ _ _ Ep G1) as [S1 L1].
  eapply ends_weaken; [apply IH; [lia|done]|]. intros r. by apply after_mono.
Qed.

(** Fuel that suffices for each of the four procedures. *)
Lemma parser_ends fuel ps : ps `suffix_of` s ->
  ((4 * length ps + 4 <= fuel)%nat -> ends (after (wf_cmd s) ps) (parseline fuel ps)) /\
  ((4 * length ps + 3 <= fuel)%nat -> ends (after (wf_cmd s) ps) (parsepipe fuel ps)) /\
  ((4 * length ps + 2 <= fuel)%nat -> ends (after (wf_cmd s) ps) (parseexec fuel ps)) /\
  ((4 * length ps + 1 <= fuel)%nat -> ends (after (wf_cmd s) ps) (parseblock fuel ps)).
Proof.
  revert ps. induction fuel as [|fuel IH]; intros ps Hs; [split_and!; lia|]. split_and!; intros Hf.
  - cbn [parseline]. eapply ends_bind; [apply IH; [done|lia]|]. intros [c ps1] [S1 C1]. cbn [fst snd] in *.
    eapply ends_bind; [apply parseback_ends; [lia|done]|]. intros [c2 ps2] [S2 C2]. cbn [fst snd] in *.
    destruct (peek ps2 (text ";")) as [ps3 b] eqn:Ep. pose proof (peek_suffix _ _ _ _ Ep) as S3.
    assert (S03 : ps3 `suffix_of` ps) by (etrans; [exact S3|by etrans]).
    destruct b; cbn [negb]; [|by split]. destruct (gettoken ps3) as [[tok w] ps4] eqn:G.
    destruct (peek_consumes _ _ _ _ _ _ Ep G) as [S4 L4]. pose proof (suffix_le _ _ S1). pose proof (suffix_le _ _ S2).
    assert (S04 : ps4 `suffix_of` ps) by (etrans; [exact S4|by etrans]).
    eapply ends_bind; [apply IH; [by etrans|lia]|]. intros [d ps5] [S5 D5]. split; [by etrans|done].
  - cbn [parsepipe]. eapply ends_bind; [apply IH; [done|lia]|]. intros [c ps1] [S1 C1]. cbn [fst snd] in *.
    destruct (peek ps1 (text "|")) as [ps3 b] eqn:Ep. pose proof (peek_suffix _ _ _ _ Ep) as S3.
    destruct b; cbn [negb]; [|split; [by etrans|done]]. destruct (gettoken ps3) as [[tok w] ps4] eqn:G.
    destruct (peek_consumes _ _ _ _ _ _ Ep G) as [S4 L4]. pose proof (suffix_le _ _ S1).
    assert (S04 : ps4 `suffix_of` ps) by (by etrans).
    eapply ends_bind; [apply IH; [by etrans|lia]|]. intros [d ps5] [S5 D5]. split; [by etrans|done].
  - cbn [parseexec]. destruct (peek ps (text "(")) as [ps0 b] eqn:Ep. pose proof (peek_suffix _ _ _ _ Ep) as S0.
    pose proof (suffix_le _ _ S0).
    destruct b; [eapply ends_weaken; [apply IH; [by etrans|lia]|intros r; by apply after_mono]|].
    eapply ends_bind; [apply parseredirs_ends; [by etrans|lia|constructor]|]. intros [rs ps1] [S1 R1]. cbn [fst snd] in *.
    eapply ends_bind; [apply parseargs_ends; [etrans; [exact S1|by etrans]|lia|done|split; [cbn; unfold MAXARGS; lia|constructor]]|].
    intros [[argv rs'] ps2] [S2 [A2 R2]]. cbn [fst snd] in *. split; [etrans; [exact S2|by etrans]|by apply wf_redirect].
  - cbn [parseblock]. destruct (peek ps (text "(")) as [ps0 b] eqn:Ep. destruct b; cbn [negb]; [|done].
    destruct (gettoken ps0) as [[tok w] ps1] eqn:G. destruct (peek_consumes _ _ _ _ _ _ Ep G) as [S1 L1].
    eapply ends_bind; [apply IH; [by etrans|lia]|]. intros [c ps2] [S2 C2]. cbn [fst snd] in *.
    destruct (peek ps2 (text ")")) as [ps3 b] eqn:Ep3. destruct b; cbn [negb]; [|done].
    destruct (gettoken ps3) as [[tok' w'] ps4] eqn:G4. destruct (peek_consumes _ _ _ _ _ _ Ep3 G4) as [S4 L4].
    assert (S04 : ps4 `suffix_of` ps) by (etrans; [exact S4|by etrans]).
    eapply ends_bind; [apply parseredirs_ends; [by etrans|lia|constructor]|]. intros [rs ps5] [S5 R5]. cbn [fst snd] in *.
    split; [by etrans|by apply wf_redirect].
Qed.
End Total.

(** * The words after [nulterminate] *)

Fixpoint words (c : cmd) : list word :=
  match c with
  | Exec argv => argv
  | Redir c r => words c ++ [r_file r]
  | Pipe c d | List_ c d => words c ++ words d
  | Back c => words c
  end.

Lemma nulterminate_words n c buf : nulterminate n c buf = foldl (terminate n) buf (words c).
Proof.
  revert buf. induction c as [argv|c IH r|c IHc d IHd|c IHc d IHd|c IH]; intros buf; cbn [nulterminate words]; [done| | | |done].
  - by rewrite foldl_app, IH.
  - by rewrite foldl_app, IHc, IHd.
  - by rewrite foldl_app, IHc, IHd.
Qed.

Lemma terminate_other n ws buf i : (forall w, w ∈ ws -> (n - length w.2)%nat <> i) -> foldl (terminate n) buf ws !! i = buf !! i.
Proof.
  revert buf. induction ws as [|w ws IH]; intros buf Hw; [done|]. cbn [foldl]. rewrite IH by (intros w' Hw'; apply Hw; by right).
  unfold terminate. apply list_lookup_insert_ne, Hw. by left.
Qed.

Lemma terminate_length n ws buf : length (foldl (terminate n) buf ws) = length buf.
Proof. revert buf. induction ws as [|w ws IH]; intros buf; [done|]. cbn [foldl]. rewrite IH. apply length_insert. Qed.

Lemma terminate_hit n ws buf w : w ∈ ws -> (n - length w.2 < length buf)%nat ->
  foldl (terminate n) buf ws !! (n - length w.2)%nat = Some 0.
Proof.
  induction ws as [|w' ws IH] using rev_ind; intros Hin Hl; [by apply elem_of_nil in Hin|].
  rewrite foldl_app. cbn [foldl]. unfold terminate at 1.
  destruct (decide ((n - length w'.2)%nat = (n - length w.2)%nat)) as [E|E].
  - rewrite E. apply list_lookup_insert_eq. by rewrite terminate_length.
  - rewrite list_lookup_insert_ne by done. apply IH; [|done]. apply elem_of_app in Hin as [?|Hin]; [done|].
    apply list_elem_of_singleton in Hin. congruence.
Qed.

Lemma drop_string (txt l : bytes) k : (forall j, (j < length txt)%nat -> l !! (k + j)%nat = txt !! j) ->
  l !! (k + length txt)%nat = Some 0 -> exists z, drop k l = txt ++ 0 :: z.
Proof.
  intros Ht H0. exists (drop (S (k + length txt)) l).
  apply list_eq. intros i. rewrite lookup_drop. destruct (decide (i < length txt)%nat) as [Hi|Hi].
  - rewrite Ht by done. by rewrite lookup_app_l.
  - rewrite lookup_app_r by lia. destruct (i - length txt)%nat as [|j] eqn:E.
    + by replace (k + i)%nat with (k + length txt)%nat by lia.
    + change (l !! (k + i)%nat = drop (S (k + length txt)) l !! j). rewrite lookup_drop. f_equal. lia.
Qed.

Lemma wf_words s c w : wf_cmd s c -> w ∈ words c -> wf_word s w.
Proof.
  revert w. induction c as [argv|c IH r|c IHc d IHd|c IHc d IHd|c IH]; cbn [wf_cmd words]; intros w Hc Hw.
  - destruct Hc as [_ Hc]. rewrite Forall_forall in Hc. auto.
  - destruct Hc as [Hc [Hr _]]. apply elem_of_app in Hw as [Hw|Hw%list_elem_of_singleton]; [auto|by subst].
  - destruct Hc as [Hc Hd]. apply elem_of_app in Hw as [Hw|Hw]; auto.
  - destruct Hc as [Hc Hd]. apply elem_of_app in Hw as [Hw|Hw]; auto.
  - auto.
Qed.

(** The end of a word is not inside a word. *)
Lemma words_disjoint s (w w' : word) p txt : s = p ++ txt ++ w.2 -> Forall (fun c => plain c = true) txt -> wf_word s w' ->
  forall j, (j < length txt)%nat -> (length s - length w'.2)%nat <> (length p + j)%nat.
Proof.
  intros Es Hp [[p' E'] (txt' & Ew & _ & _ & He)] j Hj Heq.
  assert (Hl : length s = (length p + (length txt + length w.2))%nat) by (rewrite Es; by rewrite !length_app).
  assert (Hc : exists c, s !! (length p + j)%nat = Some c /\ plain c = true).
  { rewrite Es, lookup_app_r, Nat.add_comm, Nat.add_sub, lookup_app_l by lia.
    destruct (lookup_lt_is_Some_2 txt j Hj) as [c Hc]. exists c. split; [done|]. rewrite Forall_lookup in Hp. by apply (Hp j). }
  destruct Hc as (c & Hc & Hpc). rewrite Ew in E'. destruct w'.2 as [|d e]; [cbn in Heq; lia|].
  assert (Hd : s !! (length p + j)%nat = Some d); [|congruence].
  rewrite <- Heq, E', app_assoc, lookup_app_r; rewrite !length_app; cbn [length]; [|lia].
  by replace (_ - _ - _)%nat with O by lia.
Qed.

(** The words of a command that was parsed from the line [s] are strings in the buffer
    that [nulterminate] leaves. *)
Lemma words_terminated s c w : path_ok s -> wf_cmd s c -> w ∈ words c ->
  exists txt, w.1 = txt ++ w.2 /\ cstr (drop (length s - length w.1) (nulterminate (length s) c (s ++ [0]))) = Ok txt.
Proof.
  intros Hs Hc Hw. rewrite nulterminate_words.
  destruct (wf_words s c w Hc Hw) as [[p Es] (txt & Ew & Hne & Hpl & _)]. exists txt. split; [done|].
  rewrite Ew in Es. assert (Hlen : length s = (length p + (length txt + length w.2))%nat) by (rewrite Es; by rewrite !length_app).
  rewrite Ew, length_app. replace (length s - _)%nat with (length p) by lia.
  destruct (drop_string txt (foldl (terminate (length s)) (s ++ [0]) (words c)) (length p)) as [z ->].
  - intros j Hj. rewrite terminate_other.
    + rewrite lookup_app_l by lia. rewrite Es, lookup_app_r, Nat.add_comm, Nat.add_sub by lia. by rewrite lookup_app_l.
    + intros w' Hw'. eapply words_disjoint; [exact Es|done|by eapply wf_words|done].
  - replace (length p + length txt)%nat with (length s - length w.2)%nat by lia.
    apply terminate_hit; [done|]. rewrite length_app. cbn. lia.
  - apply cstr_at. rewrite Es in Hs. by apply Forall_app in Hs as [_ [Hs _]%Forall_app].
Qed.

(** The parser ends on any line, with a well-formed command or a syntax error. *)
Lemma parseline_ends s : ends (fun r => wf_cmd s r.1) (parseline (parse_fuel s) s).
Proof.
  destruct (parser_ends s (parse_fuel s) s ltac:(reflexivity)) as [Hl _].
  specialize (Hl ltac:(unfold parse_fuel; lia)). eapply ends_weaken; [exact Hl|]. by intros r [_ Hr].
Qed.

(** C32. The shell's parser on any line: it ends, with a command or a syntax error;
    a command is well formed, with fewer than MAXARGS arguments, each a word of the
    line, and redirections of descriptor 0 for reading or 1 for writing; and after
    [nulterminate] every word is a C string, which is the word. *)
Theorem parsecmd_total s : path_ok s ->
  match parsecmd s with
  | POk (c, buf) =>
      wf_cmd s c /\ length buf = S (length s) /\
      forall w, w ∈ words c -> exists txt, w.1 = txt ++ w.2 /\ cstr (drop (length s - length w.1) buf) = Ok txt
  | Syntax _ => True
  | PFuel => False
  end.
Proof.
  intros Hs. unfold parsecmd. pose proof (parseline_ends s) as Hc. destruct (parseline _ _) as [[c ps]| |]; [|done|done].
  cbn [ends fst] in Hc. cbn [pbind peek]. destruct (skip ps) as [|]; [|done].
  split; [done|]. split; [rewrite nulterminate_words, terminate_length, length_app; cbn; lia|].
  intros w. by apply words_terminated.
Qed.

Lemma parsecmd_total_witness : exists c buf, parsecmd (text "cat<in|grep x>out;ls&") = POk (c, buf) /\ length (words c) = 6%nat /\
  wf_cmd (text "cat<in|grep x>out;ls&") c.
Proof.
  pose proof (parsecmd_total (text "cat<in|grep x>out;ls&")) as H.
  assert (Hp : path_ok (text "cat<in|grep x>out;ls&")) by (repeat constructor; vm_compute; congruence). specialize (H Hp).
  destruct (parsecmd (text "cat<in|grep x>out;ls&")) as [[c buf]| |] eqn:E; [|vm_compute in E; discriminate..].
  exists c, buf. split; [reflexivity|]. split; [|exact (proj1 H)]. vm_compute in E. injection E as <- <-. reflexivity.
Defined.
