(* ===== verification/ShPrint.v ===== *)
(** Round trip through the shell's parser: a command written out with the
    parentheses it needs is parsed back. *)

From S2P Require Import Prelude Strings User Sh.
Local Open Scope Z_scope.

(** * Commands as trees of words *)

(** [out] tells a redirection of the output from one of the input. *)
Inductive tree :=
| TExec (args : list bytes)
| TRedir (t : tree) (out : bool) (file : bytes)
| TPipe (l r : tree)
| TList (l r : tree)
| TBack (t : tree).

Definition wtext (w : word) : bytes := take (length w.1 - length w.2) w.1.

Fixpoint denote (c : cmd) : tree :=
  match c with
  | Exec argv => TExec (wtext <$> argv)
  | Redir c r => TRedir (denote c) (r_fd r =? 1) (wtext (r_file r))
  | Pipe c d => TPipe (denote c) (denote d)
  | List_ c d => TList (denote c) (denote d)
  | Back c => TBack (denote c)
  end.

(** Words without blanks and symbols, and fewer than MAXARGS of them. *)
Definition ok_word (w : bytes) : Prop := w <> [] /\ Forall (fun c => plain c = true /\ 1 <= c < 256) w.

Fixpoint ok_tree (t : tree) : Prop :=
  match t with
  | TExec args => (length args < MAXARGS)%nat /\ Forall ok_word args
  | TRedir t _ f => ok_tree t /\ ok_word f
  | TPipe l r | TList l r => ok_tree l /\ ok_tree r
  | TBack t => ok_tree t
  end.

(** * Printing

    A list binds weakest, then the ampersand, the pipe, and simple commands. *)

Definition lvl (t : tree) : nat :=
  match t with
  | TList _ _ => 0
  | TBack _ => 1
  | TPipe _ _ => 2
  | TExec _ | TRedir _ _ _ => 3
  end.

Definition paren (n : nat) (t : tree) (s : bytes) : bytes := if (n <=? lvl t)%nat then s else [40] ++ s ++ [41].

Definition args_text (args : list bytes) : bytes := concat (cons 32 <$> args).

Definition redir_text (r : bool * bytes) : bytes := [if r.1 then 62 else 60] ++ r.2.

Definition redirs_text (rs : list (bool * bytes)) : bytes := concat (redir_text <$> rs).

Fixpoint show (t : tree) : bytes :=
  match t with
  | TExec args => args_text args
  | TRedir t o f => paren 3 t (show t) ++ redir_text (o, f)
  | TPipe l r => paren 3 l (show l) ++ [124] ++ paren 2 r (show r)
  | TList l r => paren 1 l (show l) ++ [59] ++ paren 0 r (show r)
  | TBack t => paren 1 t (show t) ++ [38]
  end.

Definition show_at (n : nat) (t : tree) : bytes := paren n t (show t).

(** * Lexing what was printed *)

(** [rest] is empty or begins with one of the symbols [toks]. *)
Definition follow (toks rest : bytes) : Prop := match rest with [] => True | c :: _ => c ∈ toks end.

Definition F3 : bytes := [124; 41; 59; 38].
Definition F2 : bytes := [41; 59; 38].
Definition F0 : bytes := [41].

Lemma symbols_no_space c : c ∈ [60; 62; 124; 40; 41; 59; 38] -> isin whitespace c = false /\ plain c = false.
Proof.
  intros Hc. repeat (apply elem_of_cons in Hc as [->|Hc]; [by split|]). by apply elem_of_nil in Hc.
Qed.

Lemma skip_symbol c l : c ∈ [60; 62; 124; 40; 41; 59; 38] -> skip (c :: l) = c :: l.
Proof. intros Hc. cbn [skip]. by rewrite (proj1 (symbols_no_space c Hc)). Qed.

Lemma skip_follow toks rest : toks ⊆ [60; 62; 124; 40; 41; 59; 38] -> follow toks rest -> skip rest = rest.
Proof. destruct rest as [|c rest]; [done|]. intros Ht Hf. apply skip_symbol. by apply Ht. Qed.

Lemma skip_skip s : skip (skip s) = skip s.
Proof.
  destruct (skip s) as [|c l] eqn:E; [done|]. cbn [skip]. by rewrite (skip_head s c l E).
Qed.

Lemma peek_skip ps toks : peek (skip ps) toks = peek ps toks.
Proof. unfold peek. by rewrite skip_skip. Qed.

Lemma parse_skip n ps : parseline n (skip ps) = parseline n ps /\ parsepipe n (skip ps) = parsepipe n ps /\
  parseexec n (skip ps) = parseexec n ps.
Proof.
  assert (E : forall n, parseexec n (skip ps) = parseexec n ps) by (intros []; [done|]; cbn [parseexec]; by rewrite peek_skip).
  assert (P : forall n, parsepipe n (skip ps) = parsepipe n ps) by (intros []; [done|]; cbn [parsepipe]; by rewrite E).
  split_and!; [destruct n; [done|]; cbn [parseline]; by rewrite P|done|done].
Qed.

Lemma skip_word_app w rest : Forall (fun c => plain c = true /\ 1 <= c < 256) w ->
  match rest with c :: _ => plain c = false | [] => True end -> skip_word (w ++ rest) = rest.
Proof.
  intros Hw Hr. induction Hw as [|c w [Hc _] Hw IH]; cbn [app skip_word].
  - destruct rest as [|c rest]; [done|]. cbn [skip_word]. by rewrite Hr.
  - by rewrite Hc.
Qed.

(** A character that ends a word: a blank, a symbol, or the end of the line. *)
Definition stops (rest : bytes) : Prop := match rest with c :: _ => plain c = false | [] => True end.

(** A word is read as a token. *)
Lemma gettoken_word w rest : ok_word w -> stops rest ->
  gettoken (w ++ rest) = (97, (w ++ rest, rest), skip rest) /\ skip (w ++ rest) = w ++ rest /\ wtext (w ++ rest, rest) = w.
Proof.
  intros [Hne Hw] Hr. destruct w as [|c w]; [done|]. apply Forall_cons in Hw as [[Hc Hc1] Hw].
  unfold plain in Hc. apply andb_true_iff in Hc as [Hs Hy]. apply negb_true_iff in Hs, Hy.
  assert (Hk : skip ((c :: w) ++ rest) = (c :: w) ++ rest) by (cbn [app skip]; by rewrite Hs).
  assert (Hc' : plain c = true) by (unfold plain; by rewrite Hs, Hy).
  split_and!; [|done|].
  - unfold gettoken. rewrite Hk. cbn [app token].
    assert (isin (text "|();&<") c = false) as ->.
    { apply not_true_is_false. rewrite isin_spec. apply not_true_iff_false in Hy. rewrite isin_spec in Hy. intros Hin. apply Hy. revert Hin.
      change (text "|();&<") with [124; 40; 41; 59; 38; 60]. change symbols with [60; 124; 62; 38; 59; 40; 41]. set_solver. }
    assert (c =? 62 = false) as ->.
    { apply Z.eqb_neq. intros ->. done. }
    cbn [skip_word]. rewrite Hc', skip_word_app by done. done.
  - unfold wtext. cbn [fst snd]. rewrite length_app, Nat.add_sub. by rewrite take_app_length.
Qed.

Lemma follow_peek toks T rest : toks ⊆ [60; 62; 124; 40; 41; 59; 38] -> follow toks rest ->
  peek rest T = (rest, match rest with c :: _ => isin T c | [] => false end).
Proof. intros Ht Hf. unfold peek. by rewrite (skip_follow toks). Qed.

(** No symbol of [toks] is in [T]. *)
Lemma follow_no toks T rest : toks ⊆ [60; 62; 124; 40; 41; 59; 38] -> follow toks rest -> Forall (fun c => isin T c = false) toks ->
  peek rest T = (rest, false).
Proof.
  intros Ht Hf Hn. rewrite (follow_peek toks) by done. destruct rest as [|c rest]; [done|]. f_equal.
  rewrite Forall_forall in Hn. by apply Hn.
Qed.

Lemma follow_stops toks rest : toks ⊆ [60; 62; 124; 40; 41; 59; 38] -> follow toks rest -> stops rest.
Proof. destruct rest as [|c rest]; [done|]. intros Ht Hf. apply symbols_no_space. by apply Ht. Qed.

Lemma F3_symbols : F3 ⊆ [60; 62; 124; 40; 41; 59; 38].
Proof. unfold F3. set_solver. Qed.

Lemma follow_mono t1 t2 rest : t1 ⊆ t2 -> follow t1 rest -> follow t2 rest.
Proof. destruct rest; [done|]. cbn. set_solver. Qed.

(** A single-character symbol is read as a token. *)
Lemma gettoken_symbol c l : isin (text "|();&<") c = true -> gettoken (c :: l) = (c, (c :: l, l), skip l).
Proof.
  intros Hc. assert (Hk : skip (c :: l) = c :: l).
  { apply skip_symbol. apply isin_spec in Hc. revert Hc. change (text "|();&<") with [124; 40; 41; 59; 38; 60]. set_solver. }
  unfold gettoken. rewrite Hk. cbn [token]. by rewrite Hc.
Qed.

(** What the redirections say. *)
Definition rtext (r : redir) : bool * bytes := (r_fd r =? 1, wtext (r_file r)).

Lemma redirs_follow rs rest : follow F3 rest -> follow (60 :: 62 :: F3) (redirs_text rs ++ rest).
Proof.
  intros Hf. destruct rs as [|[o f] rs]; [by eapply follow_mono; [|done]; set_solver|].
  cbn. destruct o; set_solver.
Qed.

Lemma redirs_symbols : 60 :: 62 :: F3 ⊆ [60; 62; 124; 40; 41; 59; 38].
Proof. unfold F3. set_solver. Qed.

Lemma word_not_gt f l : ok_word f -> forall d l', f ++ l = d :: l' -> (d =? 62) = false.
Proof.
  intros [Hne Hf] d l' E. destruct f as [|c f]; [done|]. injection E as -> _. apply Forall_cons in Hf as [[Hc _] _].
  apply Z.eqb_neq. intros ->. done.
Qed.

(** The two tokens of a redirection. *)
Lemma gettoken_redir o f l : ok_word f -> stops l ->
  gettoken ([if o : bool then 62 else 60] ++ f ++ l) = (if o then 62 else 60, ((if o : bool then 62 else 60) :: f ++ l, f ++ l), f ++ l).
Proof.
  intros Hf Hl. destruct (gettoken_word f l Hf Hl) as (_ & Hk & _). destruct o; cbn [app].
  - unfold gettoken. rewrite skip_symbol by set_solver. cbn [token].
    change (isin (text "|();&<") 62) with false. change (62 =? 62) with true. cbv iota.
    destruct (f ++ l) as [|d l'] eqn:E; [done|]. rewrite (word_not_gt f l Hf d l' E). by rewrite Hk.
  - rewrite gettoken_symbol by done. by rewrite Hk.
Qed.

Lemma parseredirs_show rs rs0 fuel rest : Forall (fun r => ok_word r.2) rs -> follow F3 rest ->
  (length (redirs_text rs ++ rest) < fuel)%nat ->
  exists rs', parseredirs fuel rs0 (redirs_text rs ++ rest) = POk (rs0 ++ rs', rest) /\ rtext <$> rs' = rs.
Proof.
  intros Hrs Hf. revert rs0 fuel. induction Hrs as [|[o f] rs Hof Hrs IH]; intros rs0 fuel Hl.
  - destruct fuel as [|fuel]; [lia|]. exists []. cbn [redirs_text fmap list_fmap concat app parseredirs].
    rewrite (follow_no F3) by (try done; try apply F3_symbols; by repeat constructor). by rewrite app_nil_r.
  - destruct fuel as [|fuel]; [lia|]. cbn [snd] in Hof.
    pose proof (redirs_follow rs rest Hf) as Hfol. pose proof (follow_stops _ _ redirs_symbols Hfol) as Hst.
    assert (E : redirs_text ((o, f) :: rs) ++ rest = [if o then 62 else 60] ++ f ++ redirs_text rs ++ rest).
    { unfold redirs_text. cbn [fmap list_fmap concat redir_text fst snd]. by rewrite <- !app_assoc. }
    rewrite E in *. cbn [parseredirs].
    assert (peek ([if o then 62 else 60] ++ f ++ redirs_text rs ++ rest) (text "<>") = ([if o then 62 else 60] ++ f ++ redirs_text rs ++ rest, true)) as ->.
    { unfold peek. cbn [app]. rewrite skip_symbol by (destruct o; set_solver). by destruct o. }
    cbn [negb]. rewrite gettoken_redir by done. destruct (gettoken_word f _ Hof Hst) as (-> & _ & Hw). cbn [negb].
    change (negb (97 =? 97)) with false. cbv iota. rewrite (skip_follow _ _ redirs_symbols Hfol).
    set (r := if (if o then 62 else 60) =? 60 then _ else _).
    destruct (IH (rs0 ++ [r]) fuel) as (rs' & -> & Hrs'); [rewrite !length_app in *; cbn in *; lia|].
    exists (r :: rs'). split; [by rewrite <- app_assoc|]. cbn [fmap list_fmap]. rewrite Hrs'. f_equal.
    unfold rtext, r. destruct o; exact (f_equal2 pair eq_refl Hw).
Qed.

Lemma args_app args l : args_text args ++ l = match args with [] => l | w :: args' => 32 :: w ++ args_text args' ++ l end.
Proof. destruct args as [|w args]; [done|]. unfold args_text. cbn. by rewrite <- app_assoc. Qed.

Lemma args_stops args l : stops l -> stops (args_text args ++ l).
Proof. intros Hl. rewrite args_app. by destruct args. Qed.

(** A word is not taken for the end of the arguments. *)
Lemma peek_word w l T : ok_word w -> T ⊆ symbols -> peek (w ++ l) T = (w ++ l, false).
Proof.
  intros [Hne Hw] HT. destruct w as [|c w]; [done|]. apply Forall_cons in Hw as [[Hc _] _].
  unfold plain in Hc. apply andb_true_iff in Hc as [Hs Hy]. apply negb_true_iff in Hs, Hy.
  unfold peek. cbn [app skip]. rewrite Hs. f_equal. apply not_true_is_false. rewrite isin_spec. intros Hin.
  apply HT, isin_spec in Hin. congruence.
Qed.

Lemma parseredirs_word fuel rs w l : ok_word w -> parseredirs (S fuel) rs (w ++ l) = POk (rs, w ++ l).
Proof.
  intros Hw. cbn [parseredirs]. rewrite peek_word; [done|done|]. change symbols with [60; 124; 62; 38; 59; 40; 41].
  change (text "<>") with [60; 62]. set_solver.
Qed.

Lemma parseargs_skip fuel argv rs ps : parseargs fuel argv rs (skip ps) = parseargs fuel argv rs ps.
Proof. destruct fuel; [done|]. cbn [parseargs]. by rewrite peek_skip. Qed.

(** The arguments end at a symbol that follows a simple command. *)
Lemma parseargs_stop fuel argv rs rest : follow F3 rest -> parseargs (S fuel) argv rs rest = POk (argv, rs, rest).
Proof.
  intros Hf. cbn [parseargs]. rewrite (follow_peek F3) by (done || apply F3_symbols). destruct rest as [|c rest]; [done|].
  assert (isin (text "|)&;") c = true) as ->; [|done]. apply isin_spec. cbn in Hf. revert Hf.
  change (text "|)&;") with [124; 41; 38; 59]. unfold F3. set_solver.
Qed.

Lemma parseargs_show args rs argv0 fuel rest : Forall ok_word args -> Forall (fun r => ok_word r.2) rs -> follow F3 rest ->
  (length argv0 + length args < MAXARGS)%nat -> (length (skip (args_text args ++ redirs_text rs ++ rest)) < fuel)%nat ->
  args <> [] \/ rs = [] ->
  exists argv' rs', parseargs fuel argv0 [] (args_text args ++ redirs_text rs ++ rest) = POk (argv0 ++ argv', rs', rest) /\
    wtext <$> argv' = args /\ rtext <$> rs' = rs.
Proof.
  intros Ha Hrs Hf. revert argv0 fuel. induction Ha as [|w args Hw Ha IH]; intros argv0 fuel Hn Hl Hor.
  - destruct Hor as [?| ->]; [done|]. destruct fuel as [|fuel]; [lia|]. exists [], []. rewrite app_nil_r. split; [|done].
    by apply parseargs_stop.
  - destruct fuel as [|fuel]; [lia|]. rewrite args_app in Hl |- *. cbn [parseargs].
    set (l := args_text args ++ redirs_text rs ++ rest) in *.
    assert (Hst : stops l) by (apply args_stops; apply (follow_stops _ _ redirs_symbols); by apply redirs_follow).
    destruct (gettoken_word w l Hw Hst) as (Eg & Ek & Et).
    assert (peek (32 :: w ++ l) (text "|)&;") = (w ++ l, false)) as ->.
    { rewrite <- peek_skip. change (skip (32 :: w ++ l)) with (skip (w ++ l)). rewrite peek_skip. apply peek_word; [done|].
      change (text "|)&;") with [124; 41; 38; 59]. change symbols with [60; 124; 62; 38; 59; 40; 41]. set_solver. }
    rewrite Eg. change (97 =? 0) with false. change (negb (97 =? 97)) with false. cbv iota zeta.
    destruct (Nat.leb _ _) eqn:Em; [apply Nat.leb_le in Em; rewrite length_app in Em; cbn [length] in *; lia|]. clear Em.
    change (skip (32 :: w ++ l)) with (skip (w ++ l)) in Hl. rewrite Ek, length_app in Hl.
    assert (Hw1 : (1 <= length w)%nat) by (destruct Hw as [? _]; destruct w; [done|cbn; lia]).
    destruct args as [|w2 args].
    + unfold l in *. cbn [args_text fmap list_fmap concat app] in *.
      rewrite (skip_follow _ _ redirs_symbols (redirs_follow rs rest Hf)).
      destruct (parseredirs_show rs [] (S (length (redirs_text rs ++ rest))) rest) as (rs' & -> & Hrs'); [done|done|lia|].
      cbn [pbind app]. destruct fuel as [|fuel]; [lia|].
      exists [(w ++ redirs_text rs ++ rest, redirs_text rs ++ rest)], rs'.
      split; [by apply parseargs_stop|split; [exact (f_equal (fun x => [x]) Et)|done]].
    + assert (Hw2 : ok_word w2) by (by apply Forall_cons in Ha as [? _]).
      assert (El : skip l = w2 ++ args_text args ++ redirs_text rs ++ rest).
      { unfold l. rewrite args_app. change (skip (32 :: ?x)) with (skip x).
        apply gettoken_word; [done|]. apply args_stops, (follow_stops _ _ redirs_symbols). by apply redirs_follow. }
      assert (parseredirs (S (length (skip l))) [] (skip l) = POk ([], skip l)) as -> by (rewrite El; by apply parseredirs_word).
      cbn [pbind]. rewrite parseargs_skip.
      destruct (IH (argv0 ++ [(w ++ l, l)]) fuel) as (argv' & rs' & E3 & Ha' & Hr').
      { rewrite length_app. cbn in *. lia. } { fold l. pose proof (suffix_le _ _ (skip_suffix l)). lia. } { by left. }
      exists ((w ++ l, l) :: argv'), rs'. split; [etransitivity; [exact E3|by rewrite <- app_assoc]|]. split; [|done].
      cbn [fmap list_fmap]. rewrite Et. f_equal. exact Ha'.
Qed.

(** * The levels *)

Definition add_redir (t : tree) (r : bool * bytes) : tree := TRedir t r.1 r.2.

Lemma denote_redirect c rs : denote (redirect c rs) = foldl add_redir (denote c) (rtext <$> rs).
Proof. revert c. induction rs as [|r rs IH]; intros c; [done|]. cbn [redirect foldl fmap list_fmap]. apply (IH (Redir c r)). Qed.

Definition L3 (t : tree) : Prop := forall n rs rest, Forall (fun r => ok_word r.2) rs -> follow F3 rest ->
  (4 * length (show_at 3 t ++ redirs_text rs ++ rest) + 2 <= n)%nat ->
  exists c, parseexec n (show_at 3 t ++ redirs_text rs ++ rest) = POk (c, rest) /\ denote c = foldl add_redir t rs.

Definition L2 (t : tree) : Prop := forall n rest, follow F2 rest -> (4 * length (show_at 2 t ++ rest) + 3 <= n)%nat ->
  exists c, parsepipe n (show_at 2 t ++ rest) = POk (c, rest) /\ denote c = t.

Definition back_rest (r : cmd * bytes) : pres (cmd * bytes) := parseback (S (length r.2)) r.1 r.2.

Definition L1 (t : tree) : Prop := forall n rest, follow F2 rest -> (4 * length (show_at 1 t ++ rest) + 3 <= n)%nat ->
  exists c, pbind (parsepipe n (show_at 1 t ++ rest)) back_rest = back_rest (c, rest) /\ denote c = t.

Definition L0 (t : tree) : Prop := forall n rest, follow F0 rest -> (4 * length (show_at 0 t ++ rest) + 4 <= n)%nat ->
  exists c, parseline n (show_at 0 t ++ rest) = POk (c, rest) /\ denote c = t.

Lemma F2_symbols : F2 ⊆ [60; 62; 124; 40; 41; 59; 38].
Proof. unfold F2. set_solver. Qed.

Lemma F2_F3 rest : follow F2 rest -> follow F3 rest.
Proof. apply follow_mono. unfold F2, F3. set_solver. Qed.

Lemma F0_F2 rest : follow F0 rest -> follow F2 rest.
Proof. apply follow_mono. unfold F0, F2. set_solver. Qed.

(** [parseline] in terms of its first two phases. *)
Lemma parseline_unfold n ps : parseline (S n) ps =
  pbind (pbind (parsepipe n ps) back_rest) (fun '(c, ps) =>
    let '(ps, b) := peek ps (text ";") in
    if negb b then POk (c, ps) else
    let '(_, _, ps) := gettoken ps in
    let+ (d, ps) := parseline n ps in POk (List_ c d, ps)).
Proof. cbn [parseline]. destruct (parsepipe n ps) as [[c ps1]| |]; done. Qed.

Lemma back_stop c rest : follow [41; 59] rest -> back_rest (c, rest) = POk (c, rest).
Proof.
  intros Hf. unfold back_rest. cbn [fst snd parseback]. by rewrite (follow_no [41; 59]) by (set_solver || done || by repeat constructor).
Qed.

Lemma back_step c rest : follow F2 rest -> back_rest (c, 38 :: rest) = back_rest (Back c, rest).
Proof.
  intros Hf. unfold back_rest. cbn [fst snd length]. cbn [parseback].
  change (peek (38 :: rest) (text "&")) with (38 :: rest, true). cbn [negb]. rewrite gettoken_symbol by done.
  by rewrite (skip_follow _ _ F2_symbols Hf).
Qed.

(** From each level to the next, when the text is the same. *)
Lemma L3_L2 t : show_at 2 t = show_at 3 t -> L3 t -> L2 t.
Proof.
  intros E H n rest Hf Hn. rewrite E in *. destruct n as [|n]; [lia|]. cbn [parsepipe].
  destruct (H n [] rest) as (c & Ec & Dc); [constructor|by apply F2_F3|cbn [redirs_text fmap list_fmap concat app]; lia|].
  exists c. split; [|done]. cbn [redirs_text fmap list_fmap concat app] in Ec. rewrite Ec. cbn [pbind].
  by rewrite (follow_no F2) by (done || apply F2_symbols || by repeat constructor).
Qed.

Lemma L2_L1 t : show_at 1 t = show_at 2 t -> L2 t -> L1 t.
Proof.
  intros E H n rest Hf Hn. rewrite E in *. destruct (H n rest Hf Hn) as (c & -> & Dc). by exists c.
Qed.

Lemma L1_L0 t : show_at 0 t = show_at 1 t -> L1 t -> L0 t.
Proof.
  intros E H n rest Hf Hn. rewrite E in *. destruct n as [|n]; [lia|]. rewrite parseline_unfold.
  destruct (H n rest) as (c & -> & Dc); [by apply F0_F2|lia|].
  rewrite back_stop by (by eapply follow_mono; [|done]; unfold F0; set_solver). exists c. split; [|done]. cbn [pbind].
  by rewrite (follow_no F0) by (done || (unfold F0; set_solver) || by repeat constructor).
Qed.

Lemma L0_L3 t : (lvl t < 3)%nat -> L0 t -> L3 t.
Proof.
  intros Hlv H n rs rest Hrs Hf Hn.
  assert (E : show_at 3 t ++ redirs_text rs ++ rest = 40 :: show_at 0 t ++ 41 :: redirs_text rs ++ rest).
  { unfold show_at, paren. rewrite (proj2 (Nat.leb_gt 3 (lvl t))) by lia. cbn. by rewrite <- app_assoc. }
  rewrite E in *. destruct n as [|[|n]]; [lia|lia|]. cbn [parseexec].
  change (peek (40 :: ?l) (text "(")) with (40 :: l, true). cbv iota. cbn [parseblock].
  change (peek (40 :: ?l) (text "(")) with (40 :: l, true). cbn [negb]. rewrite gettoken_symbol by done.
  destruct (parse_skip n (show_at 0 t ++ 41 :: redirs_text rs ++ rest)) as [-> _].
  destruct (H n (41 :: redirs_text rs ++ rest)) as (c & -> & Dc); [unfold F0; set_solver|cbn [length] in Hn; lia|].
  cbn [pbind]. change (peek (41 :: ?l) (text ")")) with (41 :: l, true). cbn [negb]. rewrite gettoken_symbol by done.
  rewrite (skip_follow _ _ redirs_symbols (redirs_follow rs rest Hf)).
  destruct (parseredirs_show rs [] (S (length (redirs_text rs ++ rest))) rest) as (rs' & -> & Hrs'); [done|done|lia|].
  cbn [pbind app]. exists (redirect c rs'). split; [done|]. by rewrite denote_redirect, Dc, Hrs'.
Qed.

(** Simple commands. *)
Lemma exec_L3 args : (length args < MAXARGS)%nat -> Forall ok_word args -> L3 (TExec args).
Proof.
  intros Hl Ha n rs rest Hrs Hf Hn. destruct n as [|n]; [lia|]. cbn [parseexec].
  change (show_at 3 (TExec args)) with (args_text args) in *. destruct args as [|w args].
  - cbn [args_text fmap list_fmap concat app] in *. pose proof (redirs_follow rs rest Hf) as Hfr.
    rewrite (follow_no (60 :: 62 :: F3)) by (done || apply redirs_symbols || by repeat constructor).
    destruct (parseredirs_show rs [] (S (length (redirs_text rs ++ rest))) rest) as (rs' & -> & Hrs'); [done|done|lia|].
    cbn [pbind app]. rewrite parseargs_stop by done. cbn [pbind]. exists (redirect (Exec []) rs'). split; [done|].
    by rewrite denote_redirect, Hrs'.
  - apply Forall_cons in Ha as [Hw Ha]. set (l := args_text args ++ redirs_text rs ++ rest).
    assert (E : args_text (w :: args) ++ redirs_text rs ++ rest = 32 :: w ++ l) by (by rewrite args_app).
    assert (Hk : skip (32 :: w ++ l) = w ++ l).
    { change (skip (32 :: w ++ l)) with (skip (w ++ l)). apply gettoken_word; [done|].
      apply args_stops, (follow_stops _ _ redirs_symbols). by apply redirs_follow. }
    assert (peek (args_text (w :: args) ++ redirs_text rs ++ rest) (text "(") = (w ++ l, false)) as ->.
    { rewrite E, <- peek_skip, Hk. apply peek_word; [done|]. change symbols with [60; 124; 62; 38; 59; 40; 41].
      change (text "(") with [40]. set_solver. }
    rewrite parseredirs_word by done. cbn [pbind].
    destruct (parseargs_show (w :: args) rs [] (S (length (w ++ l))) rest)
      as (argv & rs' & E3 & Ha' & Hr'); [by constructor|done|done|cbn in *; lia|rewrite E, Hk; lia|by left|].
    rewrite E, <- parseargs_skip, Hk in E3. rewrite E3. cbn [pbind app].
    exists (redirect (Exec argv) rs'). split; [done|]. rewrite denote_redirect, Hr'. cbn [denote]. by rewrite Ha'.
Qed.

Lemma show_own n t : (n <= lvl t)%nat -> show_at n t = show t.
Proof. intros H. unfold show_at, paren. by rewrite (proj2 (Nat.leb_le n (lvl t)) H). Qed.

(** All the levels of a tree, from its own. *)
Definition levels (t : tree) : Prop := L0 t /\ L1 t /\ L2 t /\ L3 t.

Lemma levels_3 t : lvl t = 3%nat -> L3 t -> levels t.
Proof.
  intros Hl H3.
  assert (H2 : L2 t) by (apply L3_L2; [by rewrite !show_own by lia|done]).
  assert (H1 : L1 t) by (apply L2_L1; [by rewrite !show_own by lia|done]).
  split_and!; try done. apply L1_L0; [by rewrite !show_own by lia|done].
Qed.

Lemma levels_2 t : lvl t = 2%nat -> L2 t -> levels t.
Proof.
  intros Hl H2. unfold levels.
  assert (H1 : L1 t) by (apply L2_L1; [by rewrite !show_own by lia|done]).
  assert (H0 : L0 t) by (apply L1_L0; [by rewrite !show_own by lia|done]).
  split_and!; try done. apply L0_L3; [lia|done].
Qed.

Lemma levels_1 t : lvl t = 1%nat -> L1 t -> levels t.
Proof.
  intros Hl H1. unfold levels.
  assert (H0 : L0 t) by (apply L1_L0; [by rewrite !show_own by lia|done]).
  assert (H3 : L3 t) by (apply L0_L3; [lia|done]).
  split_and!; try done. apply L3_L2; [unfold show_at, paren; by rewrite Hl|done].
Qed.

Lemma levels_0 t : lvl t = 0%nat -> L0 t -> levels t.
Proof.
  intros Hl H0. unfold levels. assert (H3 : L3 t) by (apply L0_L3; [lia|done]).
  assert (H2 : L2 t) by (apply L3_L2; [unfold show_at, paren; by rewrite Hl|done]).
  split_and!; try done. apply L2_L1; [unfold show_at, paren; by rewrite Hl|done].
Qed.

Lemma redir_L3 t o f : L3 t -> ok_word f -> L3 (TRedir t o f).
Proof.
  intros H Hf n rs rest Hrs Hfo Hn.
  assert (E : show_at 3 (TRedir t o f) ++ redirs_text rs ++ rest = show_at 3 t ++ redirs_text ((o, f) :: rs) ++ rest).
  { rewrite show_own by (cbn [lvl]; lia). cbn [show]. unfold redirs_text. cbn [fmap list_fmap concat]. by rewrite <- !app_assoc. }
  rewrite E in *. destruct (H n ((o, f) :: rs) rest) as (c & Ec & Dc); [by constructor|done|done|]. by exists c.
Qed.

Lemma pipe_L2 l r : L3 l -> L2 r -> L2 (TPipe l r).
Proof.
  intros Hl Hr n rest Hf Hn.
  assert (E : show_at 2 (TPipe l r) ++ rest = show_at 3 l ++ redirs_text [] ++ 124 :: show_at 2 r ++ rest).
  { rewrite show_own by (cbn [lvl]; lia). cbn [show]. by rewrite <- !app_assoc. }
  rewrite E in *. destruct n as [|n]; [lia|]. cbn [parsepipe].
  destruct (Hl n [] (124 :: show_at 2 r ++ rest)) as (c & -> & Dc); [constructor|unfold F3; set_solver|lia|].
  cbn [pbind]. change (peek (124 :: ?x) (text "|")) with (124 :: x, true). cbn [negb]. rewrite gettoken_symbol by done.
  destruct (parse_skip n (show_at 2 r ++ rest)) as (_ & -> & _).
  destruct (Hr n rest) as (d & -> & Dd); [done|rewrite !length_app in *; cbn [length] in *; rewrite ?length_app in *; lia|].
  cbn [pbind]. exists (Pipe c d). split; [done|]. cbn [denote]. rewrite Dd, Dc. done.
Qed.

Lemma back_L1 t : L1 t -> L1 (TBack t).
Proof.
  intros H n rest Hf Hn.
  assert (E : show_at 1 (TBack t) ++ rest = show_at 1 t ++ 38 :: rest).
  { rewrite show_own by (cbn [lvl]; lia). cbn [show]. by rewrite <- !app_assoc. }
  rewrite E in *. destruct (H n (38 :: rest)) as (c & -> & Dc); [unfold F2; set_solver|done|].
  exists (Back c). split; [by apply back_step|]. cbn [denote]. by rewrite Dc.
Qed.

Lemma list_L0 l r : L1 l -> L0 r -> L0 (TList l r).
Proof.
  intros Hl Hr n rest Hf Hn.
  assert (E : show_at 0 (TList l r) ++ rest = show_at 1 l ++ 59 :: show_at 0 r ++ rest).
  { rewrite show_own by (cbn [lvl]; lia). cbn [show]. by rewrite <- !app_assoc. }
  rewrite E in *. destruct n as [|n]; [lia|]. rewrite parseline_unfold.
  destruct (Hl n (59 :: show_at 0 r ++ rest)) as (c & -> & Dc); [unfold F2; set_solver|lia|].
  rewrite back_stop by set_solver. cbn [pbind].
  change (peek (59 :: ?x) (text ";")) with (59 :: x, true). cbn [negb]. rewrite gettoken_symbol by done.
  destruct (parse_skip n (show_at 0 r ++ rest)) as (-> & _ & _).
  destruct (Hr n rest) as (d & -> & Dd); [done|rewrite !length_app in *; cbn [length] in *; rewrite ?length_app in *; lia|].
  cbn [pbind]. exists (List_ c d). split; [done|]. cbn [denote]. by rewrite Dd, Dc.
Qed.

Lemma tree_levels t : ok_tree t -> levels t.
Proof.
  induction t as [args|t IH o f|l IHl r IHr|l IHl r IHr|t IH]; cbn [ok_tree]; intros Hok.
  - destruct Hok as [Hl Ha]. apply levels_3; [done|]. by apply exec_L3.
  - destruct Hok as [Ht Hf]. destruct (IH Ht) as (_ & _ & _ & H3). apply levels_3; [done|]. by apply redir_L3.
  - destruct Hok as [Hl Hr]. destruct (IHl Hl) as (_ & _ & _ & H3). destruct (IHr Hr) as (_ & _ & H2 & _).
    apply levels_2; [done|]. by apply pipe_L2.
  - destruct Hok as [Hl Hr]. destruct (IHl Hl) as (_ & H1 & _ & _). destruct (IHr Hr) as (H0 & _ & _ & _).
    apply levels_0; [done|]. by apply list_L0.
  - destruct (IH Hok) as (_ & H1 & _ & _). apply levels_1; [done|]. by apply back_L1.
Qed.

(** C31. Round trip through the shell's parser: any tree of simple commands of fewer
    than MAXARGS words, redirections, pipes, lists and background jobs, printed with
    the parentheses its precedences need, is what [parsecmd] reads back. *)
Theorem show_then_parse t : ok_tree t -> exists c buf, parsecmd (show t) = POk (c, buf) /\ denote c = t.
Proof.
  intros Hok. destruct (tree_levels t Hok) as (H0 & _).
  destruct (H0 (parse_fuel (show t)) []) as (c & Ec & Dc); [done|unfold parse_fuel, show_at; cbn [paren Nat.leb]; rewrite app_nil_r; lia|].
  unfold show_at in Ec. cbn [paren Nat.leb] in Ec. rewrite app_nil_r in Ec.
  unfold parsecmd. rewrite Ec. cbn [pbind]. by eexists _, _.
Qed.

(** (a;b&)|c<d *)
Definition demo_tree : tree :=
  TPipe (TList (TExec [text "a"]) (TBack (TExec [text "b"]))) (TRedir (TExec [text "c"]) false (text "d")).

Lemma show_then_parse_witness : exists c buf, parsecmd (text "( a; b&)| c<d") = POk (c, buf) /\ denote c = demo_tree.
Proof.
  apply (show_then_parse demo_tree).
  repeat (split || constructor || (vm_compute; congruence)).
Defined.
