(* ===== verification/Prog.v ===== *)
(** User processes as the system calls they make.

    A process is a tree: a system call, and what follows each of its results.  The kernel's
    side keeps the table of descriptors, in which open, dup and pipe take the lowest free
    entries (fdalloc of sysfile.c).  Which calls fail for other reasons is left open: the
    behaviour of a process has a branch for either case. *)

From S2P Require Import Prelude User.
Local Open Scope Z_scope.

(** * Processes *)

(** [PPipe] passes the result and the two descriptors on; [PFork] continues with 0 in the
    child, the child's pid in the parent, or -1; [PMore] waits for a result that has not been
    given. *)
Inductive prog :=
| PExit
| PExec (path : bytes) (argv : list bytes) (k : prog)
| PClose (fd : Z) (k : prog)
| POpen (path : bytes) (mode : Z) (k : Z -> prog)
| PPipe (k : Z -> Z -> Z -> prog)
| PMknod (path : bytes) (major minor : Z) (k : prog)
| PDup (fd : Z) (k : prog)
| PFork (k : Z -> prog)
| PWait (k : prog)
| PPrint (fd : Z) (s : bytes) (k : prog)
| PChdir (path : bytes) (k : Z -> prog)
| PMore
| PUndefined.

Definition O_RDWR : Z := 2.

(** * The kernel's side *)

(** What a descriptor stands for; a pipe is named after the process that made it, by the
    forks that lead to it, and how many pipes that had made before. *)
Inductive obj :=
| OConsole
| OFile (path : bytes) (mode : Z)
| OPipe (id : list nat * nat) (write : bool).

Inductive beh :=
| BExit
| BExec (path : bytes) (argv : list bytes) (fds : list (option obj)) (failed : beh)
| BOpen (path : bytes) (mode : Z) (ok failed : beh)
| BPipe (id : list nat * nat) (ok failed : beh)
| BMknod (path : bytes) (major minor : Z) (k : beh)
| BFork (child parent failed : beh)
| BWait (k : beh)
| BPrint (o : option obj) (s : bytes) (k : beh)
| BChdir (path : bytes) (ok failed : beh)
| BMore
| BUndefined.

Record pstat := mkpstat { t_fds : list (option obj); t_path : list nat; t_forks : nat; t_pipes : nat }.

Definition put_fds (x : list (option obj)) (s : pstat) : pstat := mkpstat x (t_path s) (t_forks s) (t_pipes s).
Definition pipe_id (s : pstat) : list nat * nat := (t_path s, t_pipes s).
Definition made_pipe (s : pstat) : pstat := mkpstat (t_fds s) (t_path s) (t_forks s) (S (t_pipes s)).
Definition child_of (s : pstat) : pstat := mkpstat (t_fds s) (t_path s ++ [t_forks s]) 0 0.
Definition forked (s : pstat) : pstat := mkpstat (t_fds s) (t_path s) (S (t_forks s)) (t_pipes s).

(** The lowest free descriptor. *)
Fixpoint free_fd (fds : list (option obj)) : option nat :=
  match fds with
  | [] => None
  | None :: _ => Some 0%nat
  | Some _ :: fds' => S <$> free_fd fds'
  end.

Definition close_fd (fd : Z) (fds : list (option obj)) : list (option obj) := if fd <? 0 then fds else <[Z.to_nat fd := None]> fds.

Definition dup_fd (fd : Z) (fds : list (option obj)) : list (option obj) :=
  match (if fd <? 0 then None else mjoin (fds !! Z.to_nat fd)), free_fd fds with
  | Some o, Some i => <[i := Some o]> fds
  | _, _ => fds
  end.

(** The two descriptors of a pipe, the reading end first. *)
Definition pipe_fds (id : list nat * nat) (fds : list (option obj)) : option (nat * nat * list (option obj)) :=
  match free_fd fds with
  | Some a =>
      let fds' := <[a := Some (OPipe id false)]> fds in
      match free_fd fds' with
      | Some b => Some (a, b, <[b := Some (OPipe id true)]> fds')
      | None => None
      end
  | None => None
  end.

Fixpoint run (p : prog) (s : pstat) : beh :=
  match p with
  | PExit => BExit
  | PExec path argv k => BExec path argv (t_fds s) (run k s)
  | PClose fd k => run k (put_fds (close_fd fd (t_fds s)) s)
  | POpen path mode k =>
      BOpen path mode
        match free_fd (t_fds s) with
        | Some i => run (k (Z.of_nat i)) (put_fds (<[i := Some (OFile path mode)]> (t_fds s)) s)
        | None => run (k (-1)) s
        end
        (run (k (-1)) s)
  | PPipe k =>
      BPipe (pipe_id s)
        match pipe_fds (pipe_id s) (t_fds s) with
        | Some (a, b, fds) => run (k 0 (Z.of_nat a) (Z.of_nat b)) (put_fds fds (made_pipe s))
        | None => run (k (-1) 0 0) s
        end
        (run (k (-1) 0 0) s)
  | PMknod path major minor k => BMknod path major minor (run k s)
  | PDup fd k => run k (put_fds (dup_fd fd (t_fds s)) s)
  | PFork k => BFork (run (k 0) (child_of s)) (run (k (1 + Z.of_nat (t_forks s))) (forked s)) (run (k (-1)) s)
  | PWait k => BWait (run k s)
  | PPrint fd m k => BPrint (if fd <? 0 then None else mjoin (t_fds s !! Z.to_nat fd)) m (run k s)
  | PChdir path k => BChdir path (run (k 0) s) (run (k (-1)) s)
  | PMore => BMore
  | PUndefined => BUndefined
  end.

Definition set_fd (fd : nat) (o : obj) (s : pstat) : pstat := put_fds (<[fd := Some o]> (t_fds s)) s.

(** * Descriptors *)

Lemma free_fd_Some fds i : free_fd fds = Some i <->
  fds !! i = Some None /\ forall j, (j < i)%nat -> exists o, fds !! j = Some (Some o).
Proof.
  revert i. induction fds as [|[o|] fds IH]; intros i; cbn [free_fd].
  - split; [done|]. intros [H _]. by rewrite lookup_nil in H.
  - destruct i as [|i].
    + split; [destruct (free_fd fds); done|]. intros [H _]. done.
    + rewrite (fmap_Some S (free_fd fds) (S i)). split.
      * intros (k & Hk & [= <-]). apply IH in Hk as [H1 H2]. split; [done|]. intros [|j] Hj; [by exists o|]. apply H2. lia.
      * intros [H1 H2]. exists i. split; [|done]. apply IH. split; [done|]. intros j Hj. apply (H2 (S j)). lia.
  - split.
    + intros [= <-]. split; [done|]. intros j Hj. lia.
    + intros [H1 H2]. destruct i as [|i]; [done|]. destruct (H2 0%nat) as [o Ho]; [lia|done].
Qed.

Lemma free_fd_exists fds i : fds !! i = Some None -> exists j, free_fd fds = Some j /\ (j <= i)%nat.
Proof.
  revert i. induction fds as [|[o|] fds IH]; intros i H; [by rewrite lookup_nil in H| |by exists 0%nat; split; [|lia]].
  destruct i as [|i]; [done|]. destruct (IH i H) as (j & Hj & Hle). exists (S j). cbn [free_fd]. rewrite Hj. split; [done|lia].
Qed.

(** The table that the shell gives to a command: the first three descriptors are open, and there
    is room for a pipe. *)
Record fds_ready (fds : list (option obj)) : Prop := {
  fr_open : forall i, (i < 3)%nat -> exists o, fds !! i = Some (Some o);
  fr_room : exists a b, (a < b)%nat /\ fds !! a = Some None /\ fds !! b = Some None
}.

Lemma ready_free fds i : fds_ready fds -> fds !! i = Some None -> (3 <= i)%nat.
Proof.
  intros [H _] Hi. destruct (decide (i < 3)%nat) as [Hlt|]; [|lia]. destruct (H i Hlt) as [o Ho]. congruence.
Qed.

Lemma ready_insert fds i o : fds_ready fds -> (i < 3)%nat -> fds_ready (<[i := Some o]> fds).
Proof.
  intros R Hi. constructor.
  - intros j Hj. destruct (fr_open _ R j Hj) as [o' Ho]. destruct (decide (i = j)) as [->|].
    + exists o. apply list_lookup_insert_eq. by apply lookup_lt_Some in Ho.
    + exists o'. by rewrite list_lookup_insert_ne.
  - destruct (fr_room _ R) as (a & b & Hab & Ha & Hb). exists a, b. pose proof (ready_free _ _ R Ha). pose proof (ready_free _ _ R Hb).
    split; [done|]. by rewrite !list_lookup_insert_ne by lia.
Qed.

(** The lowest two free entries. *)
Lemma ready_pipe fds id : fds_ready fds -> exists a b, (3 <= a < b)%nat /\ fds !! a = Some None /\ fds !! b = Some None /\
  pipe_fds id fds = Some (a, b, <[b := Some (OPipe id true)]> (<[a := Some (OPipe id false)]> fds)).
Proof.
  intros R. destruct (fr_room _ R) as (a0 & b0 & Hab & Ha0 & Hb0). destruct (free_fd_exists _ _ Ha0) as (a & Ha & Hle).
  pose proof (proj1 (free_fd_Some _ _) Ha) as [Ha1 Ha2]. pose proof (lookup_lt_Some _ _ _ Ha1) as Hal.
  destruct (free_fd_exists (<[a := Some (OPipe id false)]> fds) b0) as (b & Hb & Hle2); [by rewrite list_lookup_insert_ne by lia|].
  pose proof (proj1 (free_fd_Some _ _) Hb) as [Hb1 Hb2]. exists a, b.
  assert (Hlt : (a < b)%nat).
  { destruct (decide (b = a)) as [->|Hne]; [by rewrite list_lookup_insert_eq in Hb1|]. rewrite list_lookup_insert_ne in Hb1 by done.
    destruct (decide (b < a)%nat) as [Hba|]; [|lia]. destruct (Ha2 b Hba) as [o Ho]. congruence. }
  pose proof (ready_free _ _ R Ha1). rewrite list_lookup_insert_ne in Hb1 by lia. split_and!; [lia|lia|done|done|].
  unfold pipe_fds. rewrite Ha. cbv zeta. by rewrite Hb.
Qed.

(** What the child at one end of a pipe does with its descriptors. *)
Lemma pipe_end fds a b (r w : obj) fd (o : obj) src : fds_ready fds -> (3 <= a < b)%nat -> fds !! a = Some None -> fds !! b = Some None ->
  (fd < 2)%nat -> (src = a /\ o = r \/ src = b /\ o = w) ->
  close_fd (Z.of_nat b) (close_fd (Z.of_nat a) (dup_fd (Z.of_nat src)
    (close_fd (Z.of_nat fd) (<[b := Some w]> (<[a := Some r]> fds))))) = <[fd := Some o]> fds.
Proof.
  intros R Hab Ha Hb Hfd Hsrc. unfold close_fd, dup_fd. rewrite !(proj2 (Z.ltb_ge _ _)) by lia. rewrite !Nat2Z.id.
  pose proof (lookup_lt_Some _ _ _ Ha) as Hal. pose proof (lookup_lt_Some _ _ _ Hb) as Hbl.
  set (fds1 := <[fd := None]> (<[b := Some w]> (<[a := Some r]> fds))).
  assert (Hf : free_fd fds1 = Some fd).
  { apply free_fd_Some. split; [apply list_lookup_insert_eq; rewrite !length_insert; lia|]. intros j Hj. unfold fds1.
    rewrite !list_lookup_insert_ne by lia. apply (fr_open _ R). lia. }
  assert (Ho : mjoin (fds1 !! src) = Some o).
  { unfold fds1. rewrite list_lookup_insert_ne by lia. destruct Hsrc as [[-> ->]|[-> ->]].
    - rewrite list_lookup_insert_ne by lia. by rewrite list_lookup_insert_eq.
    - by rewrite list_lookup_insert_eq by (rewrite length_insert; lia). }
  rewrite Ho, Hf. apply list_eq. intros i. unfold fds1.
  destruct (decide (i = b)) as [->|Hib]; [rewrite list_lookup_insert_eq by (rewrite !length_insert; lia); by rewrite list_lookup_insert_ne, Hb by lia|].
  rewrite list_lookup_insert_ne by done.
  destruct (decide (i = a)) as [->|Hia]; [rewrite list_lookup_insert_eq by (rewrite !length_insert; lia); by rewrite list_lookup_insert_ne, Ha by lia|].
  rewrite list_lookup_insert_ne by done. destruct (decide (i = fd)) as [->|Hif].
  - rewrite !list_lookup_insert_eq by (rewrite ?length_insert; lia). done.
  - by rewrite !list_lookup_insert_ne by done.
Qed.

Lemma pipe_parent fds a b (r w : obj) : (a < b)%nat -> fds !! a = Some None -> fds !! b = Some None ->
  close_fd (Z.of_nat b) (close_fd (Z.of_nat a) (<[b := Some w]> (<[a := Some r]> fds))) = fds.
Proof.
  intros Hab Ha Hb. unfold close_fd. rewrite !(proj2 (Z.ltb_ge _ _)) by lia. rewrite !Nat2Z.id.
  pose proof (lookup_lt_Some _ _ _ Ha) as Hal. pose proof (lookup_lt_Some _ _ _ Hb) as Hbl. apply list_eq. intros i.
  destruct (decide (i = b)) as [->|Hib]; [by rewrite list_lookup_insert_eq, Hb by (rewrite !length_insert; lia)|].
  rewrite list_lookup_insert_ne by done.
  destruct (decide (i = a)) as [->|Hia]; [by rewrite list_lookup_insert_eq, Ha by (rewrite !length_insert; lia)|].
  by rewrite !list_lookup_insert_ne by done.
Qed.

(** A redirection. *)
Lemma redirect_fd fds fd (o : obj) : fds_ready fds -> (fd < 2)%nat ->
  free_fd (close_fd (Z.of_nat fd) fds) = Some fd /\ <[fd := Some o]> (close_fd (Z.of_nat fd) fds) = <[fd := Some o]> fds.
Proof.
  intros R Hfd. unfold close_fd. rewrite (proj2 (Z.ltb_ge _ _)) by lia. rewrite Nat2Z.id. split.
  - apply free_fd_Some. destruct (fr_open _ R fd ltac:(lia)) as [o' Ho]. split; [by eapply list_lookup_insert_eq, lookup_lt_Some|].
    intros j Hj. rewrite list_lookup_insert_ne by lia. apply (fr_open _ R). lia.
  - by rewrite list_insert_insert_eq.
Qed.

(** * Pipes do not leak *)

(** Every program that is started gets a table in [P]; nothing undefined happens. *)
Fixpoint all_execs (P : list (option obj) -> Prop) (b : beh) : Prop :=
  match b with
  | BExit | BMore => True
  | BExec _ _ fds k => P fds /\ all_execs P k
  | BOpen _ _ k1 k2 | BPipe _ k1 k2 | BChdir _ k1 k2 => all_execs P k1 /\ all_execs P k2
  | BFork k1 k2 k3 => all_execs P k1 /\ all_execs P k2 /\ all_execs P k3
  | BWait k | BPrint _ _ k | BMknod _ _ _ k => all_execs P k
  | BUndefined => False
  end.

(** No program on the left of a pipe holds its reading end, and no program on the right its
    writing end, which would keep the reader from seeing the end of its input. *)
Fixpoint isolated (b : beh) : Prop :=
  match b with
  | BExit | BMore | BUndefined => True
  | BExec _ _ _ k | BWait k | BPrint _ _ k | BMknod _ _ _ k => isolated k
  | BOpen _ _ k1 k2 | BChdir _ k1 k2 => isolated k1 /\ isolated k2
  | BFork k1 k2 k3 => isolated k1 /\ isolated k2 /\ isolated k3
  | BPipe id k1 k2 =>
      isolated k1 /\ isolated k2 /\
      match k1 with
      | BFork l (BFork r _ _) _ =>
          all_execs (fun fds => Some (OPipe id false) ∉ fds) l /\ all_execs (fun fds => Some (OPipe id true) ∉ fds) r
      | _ => True
      end
  end.

Lemma all_execs_mono (P Q : list (option obj) -> Prop) b : (forall fds, P fds -> Q fds) -> all_execs P b -> all_execs Q b.
Proof. intros HPQ. induction b; cbn [all_execs]; naive_solver. Qed.

(** The pipes whose ends a process holds were made by none of its descendants, nor by itself. *)
Definition inherited (s : pstat) : Prop := forall p k w, Some (OPipe (p, k) w) ∈ t_fds s -> ~ t_path s `prefix_of` p.

(** * The table that init gives to a shell *)

Definition console_fd : option obj := Some (OFile (text "console") O_RDWR).
Definition console_fds : list (option obj) := [console_fd; console_fd; console_fd] ++ replicate (NOFILE - 3) None.

Lemma console_fds_ready : fds_ready console_fds.
Proof.
  constructor.
  - intros [|[|[|i]]] Hi; [by eexists|by eexists|by eexists|lia].
  - exists 3%nat, 4%nat. split_and!; [lia|done|done].
Qed.

Lemma console_fds_inherited path m n : inherited (mkpstat console_fds path m n).
Proof.
  intros p k w Hin. exfalso. cbn in Hin.
  repeat (apply elem_of_cons in Hin as [[=]|Hin]). by apply elem_of_nil in Hin.
Qed.
