(* ===== verification/ShRun.v ===== *)
(** The shell runs commands (runcmd, getcmd, main, panic and fork1 of sh.c): each line does
    what the tree that the parser reads stands for, and pipes do not leak. *)

From S2P Require Import Prelude Strings User Sh ShPrint Prog.
Local Open Scope Z_scope.

(** * sh.c *)

Definition panic (s : string) : prog := PPrint 2 (text s ++ [10]) PExit.

Definition fork1 (k : Z -> prog) : prog := PFork (fun pid => if pid =? -1 then panic "fork" else k pid).

Section Runcmd.
  Context (n : nat) (buf : bytes).

(** The string that the pointer to a word of the line, of [n] characters, points at. *)
Definition arg (w : word) (k : bytes -> prog) : prog :=
  match cstr (drop (n - length w.1) buf) with
  | Ok s => k s
  | _ => PUndefined
  end.

Fixpoint args (ws : list word) (k : list bytes -> prog) : prog :=
  match ws with
  | [] => k []
  | w :: ws' => arg w (fun s => args ws' (fun l => k (s :: l)))
  end.

Fixpoint runcmd (c : cmd) : prog :=
  match c with
  | Exec [] => PExit
  | Exec (a :: argv) =>
      arg a (fun s => args (a :: argv) (fun l =>
        PExec s l (PPrint 2 (text "exec " ++ s ++ text " failed" ++ [10]) PExit)))
  | Redir c r =>
      PClose (r_fd r)
        (arg (r_file r) (fun f => POpen f (r_mode r) (fun fd =>
          if fd <? 0 then PPrint 2 (text "open " ++ f ++ text " failed" ++ [10]) PExit
          else runcmd c)))
  | List_ l r => fork1 (fun pid => if pid =? 0 then runcmd l else PWait (runcmd r))
  | Pipe l r =>
      PPipe (fun res p0 p1 =>
        if res <? 0 then panic "pipe" else
        fork1 (fun pid =>
          if pid =? 0 then PClose 1 (PDup p1 (PClose p0 (PClose p1 (runcmd l)))) else
          fork1 (fun pid =>
            if pid =? 0 then PClose 0 (PDup p0 (PClose p0 (PClose p1 (runcmd r)))) else
            PClose p0 (PClose p1 (PWait (PWait PExit))))))
  | Back c => fork1 (fun pid => if pid =? 0 then runcmd c else PExit)
  end.
End Runcmd.

(** [runcmd(parsecmd(buf))] on the line [s]. *)
Definition run_line (s : bytes) : prog :=
  match parseline (parse_fuel s) s with
  | POk (c, ps) =>
      match (peek ps []).1 with
      | [] => runcmd (length s) (nulterminate (length s) c (s ++ [0])) c
      | ps => PPrint 2 (text "leftovers: " ++ ps ++ [10]) (panic "syntax")
      end
  | Syntax msg => panic msg
  | PFuel => PUndefined
  end.

Definition SH_NBUF : nat := 100.

(** [getcmd], which passes its result, the buffer and the rest of the input on. *)
Definition getcmd (input : list (option Z)) (k : Z -> bytes -> list (option Z) -> prog) : prog :=
  PPrint 2 (text "$ ")
    match Ulib.gets (replicate SH_NBUF 0) (Z.of_nat SH_NBUF) input with
    | Ok (buf, rest) => k (if getb buf 0 =? 0 then -1 else 0) buf rest
    | _ => PUndefined
    end.

(** The loop over the lines of the input. *)
Fixpoint sh_loop (fuel : nat) (input : list (option Z)) : prog :=
  match fuel with
  | O => PUndefined
  | S fuel' =>
      getcmd input (fun r buf rest =>
        if r <? 0 then PExit else
        match cstr buf with
        | Ok s =>
            if (getb buf 0 =? 99) && (getb buf 1 =? 100) && (getb buf 2 =? 32) then
              let dir := drop 3 (take (length s - 1) s) in
              PChdir dir (fun r =>
                if r <? 0 then PPrint 2 (text "cannot cd " ++ dir ++ [10]) (sh_loop fuel' rest)
                else sh_loop fuel' rest)
            else fork1 (fun pid => if pid =? 0 then run_line s else PWait (sh_loop fuel' rest))
        | _ => PUndefined
        end)
  end.

(** "Ensure that three file descriptors are open." *)
Fixpoint open_console (fuel : nat) (k : prog) : prog :=
  match fuel with
  | O => PUndefined
  | S fuel' =>
      POpen (text "console") O_RDWR (fun fd =>
        if fd <? 0 then k else if fd >=? 3 then PClose fd k else open_console fuel' k)
  end.

Definition sh_main (input : list (option Z)) : prog := open_console (S NOFILE) (sh_loop (S (length input)) input).

(** * What a command is to do *)

Definition out_mode : Z := Z.lor O_WRONLY O_CREATE.
Definition stderr (s : pstat) : option obj := mjoin (t_fds s !! 2%nat).
Definition say (s : pstat) (m : bytes) : beh := BPrint (stderr s) (m ++ [10]) BExit.

(** A command with the descriptors of [s]: a program gets exactly these, but for the one that
    a redirection or a pipe replaces. *)
Fixpoint plan (t : tree) (s : pstat) : beh :=
  match t with
  | TExec [] => BExit
  | TExec (a :: l) => BExec a (a :: l) (t_fds s) (say s (text "exec " ++ a ++ text " failed"))
  | TRedir t out f =>
      let fd := if out then 1%nat else 0%nat in
      let mode := if out then out_mode else O_RDONLY in
      BOpen f mode (plan t (set_fd fd (OFile f mode) s)) (say s (text "open " ++ f ++ text " failed"))
  | TList l r => BFork (plan l (child_of s)) (BWait (plan r (forked s))) (say s (text "fork"))
  | TPipe l r =>
      let s' := made_pipe s in
      BPipe (pipe_id s)
        (BFork (plan l (set_fd 1 (OPipe (pipe_id s) true) (child_of s')))
           (BFork (plan r (set_fd 0 (OPipe (pipe_id s) false) (child_of (forked s')))) (BWait (BWait BExit)) (say s (text "fork")))
           (say s (text "fork")))
        (say s (text "pipe"))
  | TBack t => BFork (plan t (child_of s)) BExit (say s (text "fork"))
  end.

(** * Commands run as planned *)

Lemma run_fork1 k s : run (fork1 k) s =
  BFork (run (k 0) (child_of s)) (run (k (1 + Z.of_nat (t_forks s))) (forked s)) (say s (text "fork")).
Proof.
  unfold fork1, panic. cbn [run]. f_equal. by rewrite (proj2 (Z.eqb_neq _ _)) by lia.
Qed.

Lemma child_ready s : fds_ready (t_fds s) -> fds_ready (t_fds (child_of s)).
Proof. done. Qed.

(** The words of a command are strings in the buffer. *)
Definition readable_words (n : nat) (buf : bytes) (ws : list word) : Prop :=
  forall w, w ∈ ws -> cstr (drop (n - length w.1) buf) = Ok (wtext w).

Lemma args_run n buf ws k : readable_words n buf ws -> args n buf ws k = k (wtext <$> ws).
Proof.
  revert k. induction ws as [|w ws IH]; intros k Hw; [done|]. cbn [args]. unfold arg. rewrite Hw by (by left).
  rewrite IH; [done|]. intros w' Hw'. apply Hw. by right.
Qed.

Lemma run_redir n buf s r k p : wf_redir s r -> cstr (drop (n - length (r_file r).1) buf) = Ok (wtext (r_file r)) ->
  fds_ready (t_fds p) ->
  let fd := if r_fd r =? 1 then 1%nat else 0%nat in
  let mode := if r_fd r =? 1 then out_mode else O_RDONLY in
  run (PClose (r_fd r) (arg n buf (r_file r) (fun f => POpen f (r_mode r) (fun fd =>
    if fd <? 0 then PPrint 2 (text "open " ++ f ++ text " failed" ++ [10]) PExit else k)))) p =
  BOpen (wtext (r_file r)) mode (run k (set_fd fd (OFile (wtext (r_file r)) mode) p))
    (say p (text "open " ++ wtext (r_file r) ++ text " failed")).
Proof.
  intros [_ Hr] Hf R. unfold arg. rewrite Hf. cbn [run put_fds t_fds].
  assert (E : exists fd : nat, (fd < 2)%nat /\ r_fd r = Z.of_nat fd /\ (if r_fd r =? 1 then 1%nat else 0%nat) = fd /\
    (if r_fd r =? 1 then out_mode else O_RDONLY) = r_mode r).
  { destruct Hr as [[-> ->]|[-> ->]]; [exists 0%nat|exists 1%nat]; cbn; split_and!; done || lia. }
  destruct E as (fd & Hlt & Efd & -> & ->). rewrite Efd.
  destruct (redirect_fd (t_fds p) fd (OFile (wtext (r_file r)) (r_mode r)) R Hlt) as [-> ->].
  rewrite (proj2 (Z.ltb_ge _ _)) by lia. change (-1 <? 0) with true. cbv iota. cbn [run]. f_equal. unfold say, stderr. rewrite <- !app_assoc. f_equal.
  unfold put_fds, close_fd. cbn [t_fds]. change (2 <? 0) with false. cbv iota. rewrite (proj2 (Z.ltb_ge _ _)) by lia. rewrite Nat2Z.id.
  change (Z.to_nat 2) with 2%nat. by rewrite list_lookup_insert_ne by lia.
Qed.

Lemma run_plan s n buf c p : wf_cmd s c -> readable_words n buf (words c) -> fds_ready (t_fds p) ->
  run (runcmd n buf c) p = plan (denote c) p.
Proof.
  revert p. induction c as [argv|c IH r|l IHl r IHr|l IHl r IHr|c IH]; intros p Hc Hw R; cbn [wf_cmd words] in Hc, Hw; cbn [runcmd denote].
  - destruct argv as [|a argv]; [done|]. unfold arg. rewrite Hw by (by left). rewrite args_run by done.
    cbn [fmap list_fmap plan run]. f_equal. unfold say. by rewrite <- !app_assoc.
  - destruct Hc as [Hc Hr]. assert (Hf : r_file r ∈ words c ++ [r_file r]) by set_solver.
    rewrite (run_redir n buf s r _ p Hr (Hw _ Hf) R). cbn [plan]. f_equal. apply IH; [done|set_solver|].
    apply ready_insert; [done|]. by destruct (r_fd r =? 1); lia.
  - destruct Hc as [Hl Hr]. cbn [run plan]. destruct (ready_pipe (t_fds p) (pipe_id p) R) as (a & b & Hab & Ha & Hb & ->).
    change (0 <? 0) with false. change (-1 <? 0) with true. cbv iota. f_equal. rewrite run_fork1. f_equal.
    + change (0 =? 0) with true. cbv iota. cbn [run put_fds t_fds child_of made_pipe t_path t_forks t_pipes].
      rewrite (pipe_end (t_fds p) a b _ _ 1 (OPipe (pipe_id p) true) b) by (done || lia || by right).
      apply IHl; [done|set_solver|apply ready_insert; [done|lia]]. 
    + rewrite (proj2 (Z.eqb_neq _ _)) by lia. rewrite run_fork1. f_equal.
      * change (0 =? 0) with true. cbv iota. cbn [run put_fds t_fds child_of forked made_pipe t_path t_forks t_pipes].
        rewrite (pipe_end (t_fds p) a b _ _ 0 (OPipe (pipe_id p) false) a) by (done || lia || by left).
        apply IHr; [done|set_solver|apply ready_insert; [done|lia]].
      * unfold say, stderr. cbn [t_fds put_fds forked]. by rewrite !list_lookup_insert_ne by lia.
    + unfold say, stderr. cbn [t_fds put_fds]. by rewrite !list_lookup_insert_ne by lia.
  - destruct Hc as [Hl Hr]. rewrite run_fork1. cbn [plan]. change (0 =? 0) with true. rewrite (proj2 (Z.eqb_neq _ _)) by lia.
    cbv iota. cbn [run]. f_equal; [|f_equal]; [apply IHl|apply IHr]; done || set_solver.
  - rewrite run_fork1. cbn [plan]. change (0 =? 0) with true. rewrite (proj2 (Z.eqb_neq _ _)) by lia. cbv iota. f_equal. by apply IH.
Qed.

(** * Pipes do not leak *)

Lemma elem_of_set_fd o fd o' s : Some o ∈ t_fds (set_fd fd o' s) -> o = o' \/ Some o ∈ t_fds s.
Proof.
  intros [i Hi]%list_elem_of_lookup. apply list_lookup_insert_Some in Hi as [(-> & [= <-] & _)|[_ Hi]]; [by left|].
  right. by eapply list_elem_of_lookup_2.
Qed.

Lemma child_longer (p q : list nat) n : p ++ [n] `prefix_of` q -> p `prefix_of` q /\ q <> p.
Proof.
  intros H. split; [etrans; [|exact H]; by apply prefix_app_r|]. intros ->. apply prefix_length in H.
  rewrite length_app in H. cbn in H. lia.
Qed.

Lemma inherited_file fd f m s : inherited s -> inherited (set_fd fd (OFile f m) s).
Proof. intros H p k w Hin. apply elem_of_set_fd in Hin as [[=]|Hin]. by eapply H. Qed.

Lemma inherited_child s : inherited s -> inherited (child_of s).
Proof. intros H p k w Hin Hp. apply child_longer in Hp as [Hp _]. by eapply H. Qed.

Lemma inherited_pipe fd w s s' : inherited s -> t_fds s' = t_fds s -> t_path s' = t_path s ->
  inherited (set_fd fd (OPipe (pipe_id s) w) (child_of s')).
Proof.
  intros H E1 E2 p k w' Hin Hp. cbn [t_path set_fd put_fds child_of] in Hp. rewrite E2 in Hp. apply child_longer in Hp as [Hp Hne].
  apply elem_of_set_fd in Hin as [[= -> _ _]|Hin]; [done|]. cbn [t_fds child_of] in Hin. rewrite E1 in Hin. by eapply H.
Qed.

(** A command's programs hold pipes that it was given or that were made below it. *)
Lemma plan_pipes t s : all_execs (fun fds => forall p k w, Some (OPipe (p, k) w) ∈ fds ->
  Some (OPipe (p, k) w) ∈ t_fds s \/ t_path s `prefix_of` p) (plan t s).
Proof.
  assert (Hchild : forall fd w q s (s' := child_of q), t_path q = t_path s -> t_fds q = t_fds s -> forall fds : list (option obj),
    (forall p k w', Some (OPipe (p, k) w') ∈ fds -> Some (OPipe (p, k) w') ∈ t_fds (set_fd fd (OPipe (pipe_id s) w) s') \/
      t_path (set_fd fd (OPipe (pipe_id s) w) s') `prefix_of` p) ->
    forall p k w', Some (OPipe (p, k) w') ∈ fds -> Some (OPipe (p, k) w') ∈ t_fds s \/ t_path s `prefix_of` p).
  { intros fd w q s0 s' E1 E2 fds H p k w' Hin. destruct (H p k w' Hin) as [Hs|Hp].
    - apply elem_of_set_fd in Hs as [[= -> _ _]|Hs]; [by right|]. left. unfold s' in Hs. cbn [t_fds child_of] in Hs. by rewrite <- E2.
    - right. unfold s' in Hp. cbn [t_path set_fd put_fds child_of] in Hp. rewrite E1 in Hp. by apply child_longer in Hp as [Hp _]. }
  revert s. induction t as [[|a l]|t IH out f|l IHl r IHr|l IHl r IHr|t IH]; intros s; cbn [plan all_execs say]; split_and?; try done.
  - by left.
  - eapply all_execs_mono; [|apply IH]. intros fds H p k w Hin. destruct (H p k w Hin) as [Hs|Hp]; [|by right].
    apply elem_of_set_fd in Hs as [[=]|Hs]. by left.
  - eapply all_execs_mono; [|apply IHl]. apply Hchild; done.
  - eapply all_execs_mono; [|apply IHr]. apply Hchild; done.
  - eapply all_execs_mono; [|apply IHl]. intros fds H p k w Hin. destruct (H p k w Hin) as [Hs|Hp]; [by left|].
    right. by apply child_longer in Hp as [Hp _].
  - eapply all_execs_mono; [|apply IHr]. done.
  - eapply all_execs_mono; [|apply IH]. intros fds H p k w Hin. destruct (H p k w Hin) as [Hs|Hp]; [by left|].
    right. by apply child_longer in Hp as [Hp _].
Qed.

Lemma pipe_isolated t fd w s s' : inherited s -> t_fds s' = t_fds s -> t_path s' = t_path s ->
  all_execs (fun fds => Some (OPipe (pipe_id s) (negb w)) ∉ fds) (plan t (set_fd fd (OPipe (pipe_id s) w) (child_of s'))).
Proof.
  intros H E1 E2. eapply all_execs_mono; [|apply plan_pipes]. intros fds Hf Hin. destruct (Hf _ _ _ Hin) as [Hs|Hp].
  - apply elem_of_set_fd in Hs as [[= E]|Hs]; [by destruct w|]. cbn [t_fds child_of] in Hs. rewrite E1 in Hs. by eapply H.
  - cbn [t_path set_fd put_fds child_of] in Hp. rewrite E2 in Hp. by apply child_longer in Hp as [_ []].
Qed.

Lemma plan_isolated t s : inherited s -> isolated (plan t s).
Proof.
  revert s. induction t as [[|a l]|t IH out f|l IHl r IHr|l IHl r IHr|t IH]; intros s H; cbn [plan isolated say]; split_and?; try done.
  - apply IH. by apply inherited_file.
  - apply IHl. by apply inherited_pipe.
  - apply IHr. by apply inherited_pipe.
  - by apply (pipe_isolated l 1 true).
  - by apply (pipe_isolated r 0 false).
  - apply IHl. by apply inherited_child.
  - by apply IHr.
  - apply IH. by apply inherited_child.
Qed.

(** Only the standard input and output of a program differ from those of the shell. *)
Definition keeps (fds0 fds : list (option obj)) : Prop := forall i, (2 <= i)%nat -> fds !! i = fds0 !! i.

Lemma plan_keeps t s fds0 : keeps fds0 (t_fds s) -> all_execs (keeps fds0) (plan t s).
Proof.
  assert (Hset : forall fd o s, (fd < 2)%nat -> keeps fds0 (t_fds s) -> keeps fds0 (t_fds (set_fd fd o s))).
  { intros fd o s0 Hfd H i Hi. cbn [t_fds set_fd put_fds]. rewrite list_lookup_insert_ne by lia. by apply H. }
  revert s. induction t as [[|a l]|t IH out f|l IHl r IHr|l IHl r IHr|t IH]; intros s H; cbn [plan all_execs say]; split_and?; try done.
  - apply IH, Hset; [destruct out; lia|done].
  - apply IHl, Hset; [lia|done].
  - apply IHr, Hset; [lia|done].
  - by apply IHl.
  - by apply IHr.
  - by apply IH.
Qed.

(** * A session *)

(** A line of the input that [gets] reads in one piece. *)
Definition line_ok (l : bytes) : Prop := path_ok l /\ 10 ∉ l /\ 13 ∉ l /\ (S (length l) < SH_NBUF)%nat.

Definition feed (lines : list bytes) : list (option Z) := concat ((fun l => Some <$> l ++ [10]) <$> lines).

(** What the child that the shell forks for a line does. *)
Definition plan_line (s : bytes) (p : pstat) : beh :=
  match parseline (parse_fuel s) s with
  | POk (c, ps) =>
      match skip ps with
      | [] => plan (denote c) p
      | ps => BPrint (stderr p) (text "leftovers: " ++ ps ++ [10]) (say p (text "syntax"))
      end
  | Syntax msg => say p (text msg)
  | PFuel => BUndefined
  end.

Fixpoint session (lines : list bytes) (s : pstat) : beh :=
  BPrint (stderr s) (text "$ ")
    match lines with
    | [] => BExit
    | l :: lines' =>
        if decide (take 3 l = text "cd ") then
          BChdir (drop 3 l) (session lines' s) (BPrint (stderr s) (text "cannot cd " ++ drop 3 l ++ [10]) (session lines' s))
        else BFork (plan_line (l ++ [10]) (child_of s)) (BWait (session lines' (forked s))) (say s (text "fork"))
    end.

Lemma line_path l : line_ok l -> path_ok (l ++ [10]).
Proof. intros [H _]. apply Forall_app. split; [done|]. constructor; [lia|constructor]. Qed.

Lemma gets_loop_line l n acc rest : 10 ∉ l -> 13 ∉ l -> (length l < n)%nat ->
  Ulib.gets_loop n acc ((Some <$> l ++ [10]) ++ rest) = (acc ++ l ++ [10], rest).
Proof.
  revert n acc. induction l as [|c l IH]; intros [|n] acc H10 H13 Hn; cbn in Hn; try lia; [done|].
  apply not_elem_of_cons in H10 as [N10 H10]. apply not_elem_of_cons in H13 as [N13 H13].
  cbn [fmap list_fmap app Ulib.gets_loop]. rewrite !(proj2 (Z.eqb_neq _ _)) by done. cbn [orb].
  rewrite IH by (done || lia). by rewrite <- app_assoc.
Qed.

Lemma gets_line l rest : line_ok l -> exists z,
  Ulib.gets (replicate SH_NBUF 0) (Z.of_nat SH_NBUF) ((Some <$> l ++ [10]) ++ rest) = Ok ((l ++ [10]) ++ 0 :: z, rest).
Proof.
  intros (Hl & H10 & H13 & Hlen). unfold Ulib.gets. rewrite gets_loop_line by (done || unfold SH_NBUF in *; lia).
  cbn [fst snd app]. rewrite (proj2 (Nat.ltb_lt _ _)) by (rewrite length_replicate, length_app; cbn; lia).
  unfold splice. cbn [take app]. rewrite <- app_assoc. by eexists.
Qed.

(** The test for "cd " on the buffer. *)
Lemma cd_test l z : ((getb ((l ++ [10]) ++ 0 :: z) 0 =? 99) && (getb ((l ++ [10]) ++ 0 :: z) 1 =? 100) &&
  (getb ((l ++ [10]) ++ 0 :: z) 2 =? 32)) = bool_decide (take 3 l = text "cd ").
Proof.
  change (text "cd ") with [99; 100; 32]. unfold getb. change (Z.to_nat 0) with 0%nat. change (Z.to_nat 1) with 1%nat.
  change (Z.to_nat 2) with 2%nat. destruct l as [|a [|b [|c l]]]; cbn.
  - by rewrite bool_decide_false by done.
  - by rewrite andb_false_r, bool_decide_false by done.
  - by rewrite andb_false_r, bool_decide_false by done.
  - apply eq_true_iff_eq. rewrite bool_decide_eq_true, !andb_true_iff, !Z.eqb_eq. change (take 0 l) with (@nil Z).
    split; [by intros [[-> ->] ->]|by intros [= -> -> ->]].
Qed.

Lemma run_line_plan s p : path_ok s -> fds_ready (t_fds p) -> run (run_line s) p = plan_line s p.
Proof.
  intros Hs R. unfold run_line, plan_line. pose proof (parseline_ends s) as Hc. destruct (parseline _ _) as [[c ps]|msg|]; [|done|done].
  cbn [ends fst] in Hc. cbn [peek fst]. destruct (skip ps) as [|x y]; [|done]. eapply run_plan; [exact Hc| |done].
  intros w Hw. destruct (words_terminated s c w Hs Hc Hw) as (txt & Ew & ->). f_equal. unfold wtext. rewrite Ew, length_app.
  replace (_ - _)%nat with (length txt) by lia. by rewrite take_app_length.
Qed.

Lemma sh_loop_session lines fuel s : Forall line_ok lines -> (length lines < fuel)%nat -> fds_ready (t_fds s) ->
  run (sh_loop fuel (feed lines)) s = session lines s.
Proof.
  revert fuel s. induction lines as [|l lines IH]; intros [|fuel] s Hl Hf R; cbn [length] in Hf; try lia; [done|].
  apply Forall_cons in Hl as [Hl Hls]. pose proof (line_path l Hl) as Hp. destruct (gets_line l (feed lines) Hl) as [z Hz].
  change (feed (l :: lines)) with ((Some <$> l ++ [10]) ++ feed lines). cbn [sh_loop]. unfold getcmd. rewrite Hz.
  assert (Hne : (getb ((l ++ [10]) ++ 0 :: z) 0 =? 0) = false).
  { apply Z.eqb_neq. destruct Hl as [Hl _]. destruct l as [|a l]; [done|]. apply Forall_cons in Hl as [Ha _]. cbv beta in Ha. change (a <> 0). lia. }
  rewrite Hne. change (0 <? 0) with false. cbv iota. rewrite cstr_at by done. rewrite cd_test.
  cbn [run session]. f_equal. rewrite decide_bool_decide. case_bool_decide as Hcd.
  - rewrite length_app, Nat.add_sub, take_app_length. cbn [run]. change (0 <? 0) with false. change (-1 <? 0) with true. cbv iota.
    cbn [run]. rewrite !IH by (done || lia). done.
  - rewrite run_fork1. change (0 =? 0) with true. rewrite (proj2 (Z.eqb_neq _ _)) by lia. cbv iota. cbn [run].
    rewrite IH by (done || lia). by rewrite run_line_plan.
Qed.

Lemma run_console s k : fds_ready (t_fds s) ->
  run (open_console (S NOFILE) k) s = BOpen (text "console") O_RDWR (run k s) (run k s).
Proof.
  intros R. destruct (fr_room _ R) as (a & b & _ & Ha & _). destruct (free_fd_exists _ _ Ha) as (i & Hi & _).
  pose proof (proj1 (free_fd_Some _ _) Hi) as [Hn _]. pose proof (ready_free _ _ R Hn) as H3.
  change (S NOFILE) with 17%nat. cbn [open_console run]. rewrite Hi. change (-1 <? 0) with true. rewrite (proj2 (Z.ltb_ge _ _)) by lia.
  rewrite (proj2 (Z.geb_le _ _)) by lia. cbv iota. cbn [run put_fds t_fds]. f_equal. f_equal.
  unfold close_fd. rewrite (proj2 (Z.ltb_ge _ _)) by lia. rewrite Nat2Z.id, list_insert_insert_eq.
  rewrite list_insert_id by done. by destruct s.
Qed.

Lemma session_safe lines s : inherited s -> isolated (session lines s) /\ all_execs (keeps (t_fds s)) (session lines s).
Proof.
  revert s. induction lines as [|l lines IH]; intros s H; cbn [session isolated all_execs]; [done|].
  destruct (decide _); cbn [isolated all_execs]; [by destruct (IH s H)|].
  assert (Hp : isolated (plan_line (l ++ [10]) (child_of s)) /\ all_execs (keeps (t_fds s)) (plan_line (l ++ [10]) (child_of s))).
  { unfold plan_line. pose proof (parseline_ends (l ++ [10])) as He. destruct (parseline _ _) as [[c ps]|msg|]; [|done|done].
    destruct (skip ps); [|done]. split; [by apply plan_isolated, inherited_child|by apply plan_keeps]. }
  destruct Hp as [Hp1 Hp2]. by destruct (IH (forked s) H) as [Hs1 Hs2].
Qed.

(** C30. The shell, started with its first three descriptors open and room for a pipe, on lines
    that end in a newline and fit its buffer: it prompts, changes directory itself, and gives
    every other line to a child, for which it waits.  The child starts exactly the programs of
    the tree that the parser reads, with the redirections and pipes in place and every other
    descriptor as the shell's; a program on one side of a pipe never holds the other end. *)
Theorem shell_correct lines s : Forall line_ok lines -> fds_ready (t_fds s) -> inherited s ->
  run (sh_main (feed lines)) s = BOpen (text "console") O_RDWR (session lines s) (session lines s) /\
  isolated (session lines s) /\ all_execs (keeps (t_fds s)) (session lines s).
Proof.
  intros Hl R Hi. split; [|by apply session_safe]. unfold sh_main. rewrite run_console by done.
  assert (Hf : (length lines < S (length (feed lines)))%nat).
  { clear. induction lines as [|l lines IH]; [cbn; lia|]. change (feed (l :: lines)) with ((Some <$> l ++ [10]) ++ feed lines).
    rewrite !length_app, length_fmap, length_app. cbn [length]. lia. }
  by rewrite !sh_loop_session.
Qed.

Lemma shell_correct_witness :
  let s := mkpstat console_fds [0%nat] 0 0 in
  run (sh_main (feed [text "cd d"; text "ls|wc>n"])) s =
    BOpen (text "console") O_RDWR (session [text "cd d"; text "ls|wc>n"] s) (session [text "cd d"; text "ls|wc>n"] s) /\
  plan_line (text "ls|wc>n" ++ [10]) (child_of s) = plan (TPipe (TExec [text "ls"]) (TRedir (TExec [text "wc"]) true (text "n"))) (child_of s).
Proof.
  intros s. split; [|vm_compute; reflexivity].
  assert (Hl : Forall line_ok [text "cd d"; text "ls|wc>n"]).
  { repeat constructor; try (vm_compute; congruence); by apply (bool_decide_unpack _). }
  exact (proj1 (shell_correct [text "cd d"; text "ls|wc>n"] s Hl console_fds_ready (console_fds_inherited [0%nat] 0 0))).
Defined.
