(* ===== verification/Init.v ===== *)
(** The first program (init.c): it gives every shell three descriptors of the
    console, and no other. *)

From S2P Require Import Prelude Strings User Sh ShPrint Prog ShRun.
Local Open Scope Z_scope.

(** * init.c *)

(** The loop around [wait], whose results are [ws]. *)
Fixpoint reap (pid : Z) (ws : list Z) (k : prog) : prog :=
  match ws with
  | [] => PMore
  | wpid :: ws' => PWait (if (wpid >=? 0) && negb (wpid =? pid) then PPrint 1 (text "zombie!" ++ [10]) (reap pid ws' k) else k)
  end.

(** The outer loop, with the results of [wait] in each round. *)
Fixpoint init_loop (waits : list (list Z)) : prog :=
  match waits with
  | [] => PMore
  | ws :: waits' =>
      PPrint 1 (text "init: starting sh" ++ [10])
        (PFork (fun pid =>
          if pid <? 0 then PPrint 1 (text "init: fork failed" ++ [10]) PExit else
          if pid =? 0 then PExec (text "sh") [text "sh"] (PPrint 1 (text "init: exec sh failed" ++ [10]) PExit) else
          reap pid ws (init_loop waits')))
  end.

Definition init_main (waits : list (list Z)) : prog :=
  let go := PDup 0 (PDup 0 (init_loop waits)) in
  POpen (text "console") O_RDWR (fun fd =>
    if fd <? 0 then PMknod (text "console") 1 1 (POpen (text "console") O_RDWR (fun _ => go)) else go).

(** * Every shell gets the console *)

Definition no_files : list (option obj) := replicate NOFILE None.
Lemma reap_execs P pid ws k s : all_execs P (run k s) -> all_execs P (run (reap pid ws k) s).
Proof. intros Hk. induction ws as [|w ws IH]; [done|]. cbn [reap run all_execs]. by destruct (_ && _). Qed.

Lemma init_loop_execs waits s : all_execs (fun fds => fds = t_fds s) (run (init_loop waits) s).
Proof.
  revert s. induction waits as [|ws waits IH]; intros s; [done|]. cbn [init_loop run all_execs].
  change (0 <? 0) with false. change (-1 <? 0) with true. change (0 =? 0) with true.
  rewrite (proj2 (Z.ltb_ge _ _)), (proj2 (Z.eqb_neq _ _)) by lia. cbv iota. cbn [run all_execs].
  split; [done|]. split; [|done]. apply reap_execs. apply (IH (forked s)).
Qed.

(** init, started without open files: once the console can be opened, also after [mknod], every
    program that it starts has the console as its first three descriptors and no other one. *)
Theorem init_opens_console waits path :
  let s := mkpstat no_files path 0 0 in
  let shells := run (init_loop waits) (mkpstat console_fds path 0 0) in
  run (init_main waits) s =
    BOpen (text "console") O_RDWR shells
      (BMknod (text "console") 1 1 (BOpen (text "console") O_RDWR shells (run (init_loop waits) s))) /\
  all_execs (fun fds => fds = console_fds) shells.
Proof. intros s shells. split; [done|]. apply (init_loop_execs waits (mkpstat console_fds path 0 0)). Qed.
